(* ===== verification/_CoqProject ===== *)
-Q . S2P
Prelude.v
Cstring.v
Protocol.v
Dynabin.v
Yvect.v
Ystr.v
Ylist.v
Midl.v
Linenoise.v
LineHist.v
LineEdit.v
NnList.v
Msgqueue.v
Inproc.v
Pipeline.v
Trie.v
Chunk.v
Hash.v
PubSub.v
Pipes.v
Req.v
Rep.v
Lmdb.v
Pages.v
LeafMap.v
Split.v
Merge.v
Cursor.v
Alloc.v
Touch.v
Commit.v
Tree.v
Walk.v
Database.v
Connection.v
Compressor.v
Snappy.v
SnappyDec.v
SnappyEnc.v
Spec.v
Commands.v
Server.v
Session.v
Threads.v
Progress.v
Client.v
Cli.v
System.v
Concurrency.v
Listing.v
