(* ===== verification/Prelude.v ===== *)
(** * FineDB: a verification library for the FineDB server, client and support code

    FineDB is a key-value server written in C.  A client library
    (src/src/lib/libfinedb.c), used by a command-line program
    (src/src/cli/finedb-cli.c), sends requests over a TCP connection.  The
    server (src/src/server) accepts connections in its main thread and hands
    them over to a pool of connection threads; each of them reads requests into
    a growing buffer (lib/ylib/ydynabin.c), dispatches them to a handler and
    answers.  Values are kept compressed (lib/snappy-c) in an LMDB environment
    (lib/lmdb).  A synchronous write is executed by the connection thread, an
    asynchronous one is sent to the writer thread through a queue.  The queues
    between threads are in-process push and pull sockets of nanomsg
    (lib/nanomsg); the command-line program reads its lines with linenoise
    (lib/linenoise).

    ** Files

    - Prelude: bytes, machine integers, byte order, memory blocks with checked
      accesses, the outcome and state monads, scripts of results, shared lemmas
      and tactics.
    - Cstring: the functions of string.h and ctype.h the code uses.
    - Protocol: the enumerations and macros of server/protocol.h.
    - Dynabin: ybin_t and ydynabin_t of lib/ylib (ybin.c, ydynabin.c).
    - Yvect: the vectors of lib/ylib/yvect.c.
    - Ystr: the strings of lib/ylib/ystr.c.  Ylist: the doubly linked lists of
      lib/ylib/ylist.c, on a heap of headers and elements.
    - Midl: the ID lists of lib/lmdb/midl.c.
    - Linenoise: the line editor of lib/linenoise/linenoise.c; LineHist: its
      history; LineEdit: the abstract editor and the simulation.
    - NnList: the intrusive lists and queues of nanomsg (utils/list.c,
      queue.c).  Msgqueue: the chunked message queue of its in-process
      transport (transports/inproc/msgqueue.c).  Inproc: two sessions with
      their pipes (transports/inproc/sinproc.c, core/pipe.c, aio/fsm.c).
      Pipeline: prioritised lists, load balancing, fair queueing and the push
      and pull sockets (protocols/utils, protocols/pipeline); pipes are reached
      through a class ([PipeOps]) which the connections of Inproc implement.
      Trie: the subscriptions of a subscriber (protocols/pubsub/trie.c).  Chunk:
      reference-counted chunks, the references of messages to them, messages and
      byte order (utils/chunk.c, chunkref.c, msg.c, wire.c, atomic.c).  Hash: the
      hash table of utils/hash.c.  PubSub: distribution and exclusive pipes, the
      publish, subscribe and pair sockets (protocols/utils/dist.c, excl.c,
      protocols/pubsub, protocols/pair).  Pipes: what the other sockets rely on
      of the pipes ([PipeLaws]), and mailboxes that provide it.  Req and Rep: the
      request socket with its timer and the reply socket (protocols/reqrep,
      aio/timer.c).
    - Lmdb: the transaction and handle layer of lib/lmdb/mdb.c, with cursors that
      move by key over the entries of a database.
    - Pages: the page layer of lib/lmdb/mdb.c: the layout of a page on its
      bytes, the comparators, the search of a key in a page, the insertion and
      the removal of a node.
    - LeafMap: a leaf page as a finite map (what mdb_cursor_put, mdb_cursor_del
      and mdb_node_read do on the page they have found).
    - Split: dividing a full page over two (mdb_page_split).  Merge: moving a
      node to a neighbour, merging two pages, the update of the parent's keys
      (mdb_rebalance, mdb_node_move, mdb_page_merge, mdb_update_key).
    - Cursor: the pages of a transaction, the descent in the B+tree and the
      operations of cursors (mdb_page_get to mdb_cursor_get of mdb.c).  Tree:
      B+trees over pages, and what the operations do on them.  Walk: the
      abstract cursor on a sorted list, the simulation and the theorems.
    - Alloc: free page numbers and new ones (mdb_page_alloc, mdb_find_oldest).
      Touch: copy on write and the return of overflow pages (mdb_page_touch,
      mdb_page_copy, mdb_ovpage_free).  Commit: the file with its two meta pages,
      the start and the commit of a transaction, opening (mdb_txn_renew0, the end
      of mdb_txn_commit, mdb_env_sync, mdb_env_write_meta, mdb_env_open2 and their
      helpers).  All three cover pages in the memory map (MDB_WRITEMAP, the mode
      of FineDB) and pages in memory.
    - Database: server/database.c.
    - Connection: the state of a connection thread, its input and its output
      (server/connection_thread.c and .h, writer_thread.h).
    - Compressor: the interface between FineDB and the codec, as a class of
      operations ([Snappy]) and a class of laws ([SnappyLaws]).
    - Snappy, SnappyDec, SnappyEnc: the codec of lib/snappy-c/snappy.c, the
      correctness of its decompressor and of its compressor, and the instance
      of the interface of Compressor.
    - Spec: the abstract key-value service.
    - Commands: the handlers of server/command_*.c.
    - Server: dispatch and the loop of a connection (connection_thread.c), the
      writer thread (writer_thread.c), start-up and main loop (finedb.c,
      server.c, self_path.c, main.c).
    - Session: the simulation between Server and Spec.
    - Threads: the pool of connection threads, the writer and their queue as a
      step relation.
    - Progress: the loops of a connection end.
    - Client: libfinedb.c.  Cli: finedb-cli.c.
    - System: client, server and codec together; theorems on whole sessions.
    - Concurrency: what the clients of an interleaved run see.
    - Listing: the LIST command.

    ** How the code is represented

    A C function is a function in a state monad over [outcome] ([CM]): it
    returns a result and a state, or a [Fault].  A fault is an undefined
    behaviour of C the model detects: access outside a block, use of a null
    pointer, use of a released transaction.  [OutOfFuel] is not a behaviour of
    the code: it marks a loop whose bound was too small.

    Integers are [Z]; the reductions that a C type performs are written out
    ([u8], [u16], [u32], [u64], [i32]).  A block of memory is the list of its
    bytes, and reads and writes check its bounds ([blk_read], [blk_write]).

    The environment is an input.  What recv, sendmsg, nn_send, malloc and the
    page layer of LMDB return is given by scripts, one entry per call; an
    exhausted script means success (for recv, the end of the connection).  A
    theorem that quantifies over the scripts covers every pattern of failures.
    Variables read before they are set are parameters ([junk], [junk_len]).

    In Commit a commit returns, with its result, the trace of what it does to the
    file: pages and fields of a meta page that are written or stored in the map,
    and syncs.  The file has a cache and a disk; a page of the cache can be
    written back whole at any time, and a sync writes back all of them.  A crash
    at a point of the trace leaves the disk as it can be then.  The fields of a
    meta page reach the cache in the order of the structure.

    ** What the theorems show

    - Whole system (System): a value put by a client is read back, a deleted
      key is gone; a session refines the abstract service, for every way of
      cutting the stream into segments of whole requests; asynchronous writes
      executed by the writer thread give the same database as synchronous ones;
      every connection ends; unknown commands and writes inside a transaction
      are refused without an effect; the state after start-up is the one the
      session theorems start from.
    - Concurrency (Threads, Concurrency): every interleaving of connections and
      writer refines the abstract service; all requests of an open transaction
      are answered from the database of its start; a server whose clients have
      gone comes to rest with an empty queue, if no GET without the compressed
      flag is pending.
    - Listing: LIST fetches the entries one by one and sends every key of the
      database, in order.
    - Codec (SnappyDec, SnappyEnc): compression is lossless below 2 GB and stays
      in its block; decompression of arbitrary bytes stays in its block; both
      end; the optimised copy and comparison loops equal the simple ones.
    - Database: the result of a write for every result of the storage calls;
      put/get laws; a transaction reads a snapshot.
    - Page layer (Pages, LeafMap): search in a page finds the position of the
      key; insertion and removal of a node keep the page well formed and change
      only the node in question, on leaf and branch pages; a leaf with the
      operations of the code refines a finite map; a split leaves two leaves that
      together hold the old entries and the new one (Split); rebalancing two
      neighbours loses, copies and reorders nothing (Merge).
    - Durability (Alloc, Touch, Commit): page allocation finds free pages if there
      are any, fails only when room or memory is short and never hands out a page
      that a reader or the last committed tree can reach; a changed page is a
      copy, to which the parent points, and the old one is noted as freed; a crash
      at any point of a commit leaves the old or the new state on the disk, which
      the next process finds, and a commit that reports success is on the disk.
    - B+trees (Tree, Walk): mdb_get is the lookup in the map a tree holds; any
      sequence of cursor operations the abstract cursor defines (as lmdb.h
      describes them; moves after a failed search and the range search of
      [range_search_misses] are left out) is a walk of it; a walk
      from the first entry visits every entry once, in order.
    - Line editor (LineHist, LineEdit): a line typed with any keys, each whole in
      one read and Delete last in its read, is the text
      of the abstract editor; completion cycles through the proposals; the
      shown part of a line holds the cursor; the history is the list of the
      last lines, and its file is a round trip.
    - Messaging (NnList, Msgqueue, Inproc, Pipeline, Trie, Chunk, Hash, PubSub,
      Req, Rep):
      the message queue is a
      FIFO bounded in bytes; a connection delivers every message once and in
      order, whatever the interleaving, and nothing sent can be stuck; a push
      socket hands every message to one connection; pipes take turns; shared
      chunks behave as values and are freed with the last reference; the trie of
      subscriptions is a multiset of strings and matches their prefixes; the hash
      table is a finite map; a subscriber gets the published messages of its
      topics, once and in order, and what it has not got is in its queue or on the
      way there; a request socket gives only answers to its last request, and a
      reply goes to the peer that asked.
    - ID lists (Midl): the quicksort with its bounded stack sorts and permutes,
      the insertion into an ID2 list keeps it sorted and free of duplicates.
    - Buffers and streams (Dynabin, Connection): what is buffered, consumed and
      sent, with the exact condition under which a buffer overflows.
    - Support library: vectors (Yvect), strings (Ystr) and linked lists (Ylist)
      refine the list operations (shifts as far as no blank follows); escaping of XML entities is undone by the
      reverse function.
    - Command-line client (Cli): what is sent and printed, completion.
    - Defects of the code are stated as theorems too: buffer growth
      ([connection_read_data_overflows]), named databases
      ([database_put_named_faults], [default_config_has_no_named_db],
      [get_missing_db_exhausts_readers]), status test of the client
      ([client_accepts_errors]), lengths ([setdb_length_truncated],
      [snappy_compress_large_loses_input], [length_readers_differ]), the
      command-line client ([cli_word_overreads], [cli_del_always_ok]), the
      vectors ([yv_search_diverges], [yv_uniq_keeps_duplicates]), the ID lists
      ([midl_shrink_overflows]), the linked lists ([ylist_swap_corrupts]),
      the strings ([lshift_drops_blanks]),
      splits ([split_page_full]), cursors ([prev_on_empty], [last_after_failed_set],
      [range_search_misses]), the keys of branch pages ([update_key_leaks]),
      the list of dirty pages ([ovpage_room_lost], [ovpage_wrong_entry]), the
      commit ([short_write_succeeds], [half_written]), the line editor
      ([long_line_overflows], [delete_swallows_next]) and the messaging library
      ([close_in_flight_aborts], [rm_current_dangles], [trie_defects],
      [empty_table_grows], [trim_of_shared_data], [replaced_request_hangs],
      [stale_answer], [stale_answer_freed]).  Some of these are examples on one
      input.

    ** Fuel

    The loop over the requests of a connection takes one unit per turn; one
    more than the number of bytes to come is enough, since every turn that goes
    on consumes a byte ([connection_ends]).  The loops that fill a buffer use
    one more than the bytes to come, since every received segment has at least
    one byte.  The loops of the codec use a bound computed from the lengths of
    their input and output; [snappy_terminates] shows that it is enough.  The
    binary search takes the fuel as an argument; the number of elements is
    enough from three elements on ([yv_search_correct]).  The sort of ID lists
    takes at most 2n + 1 turns, and its stack of 64 cells is enough below 2^30
    IDs ([midl_sort_correct]).  The search in a page takes at most one turn per
    key, the deletion of a linked list one per element, a split one per node and
    one for the new one.  The descent in a tree
    pushes a page per turn on a stack of 32, which bounds its turns and those
    of the climb to a neighbour.  The loops of the line editor use the size of
    the input still to be read, those of its display the widths involved; the
    removal of the messages of a queue uses their number, the search of a
    slot of a prioritised list the 16 slots.  The trie is descended by at least a
    character per turn, with the length of the string as fuel; the walks of the
    hash table and of the distribution use the number of items, a subscriber that
    skips messages the number of those that wait, and so does a request socket;
    the search of the bottom of a header uses the length of the message.  The loop
    of LIST takes one turn per entry and one to find the end.  Page allocation reads every
    record of the free database at most once, and merges as many steps as there
    are IDs; the merge of two pages takes one turn per node.  The theorems on these functions
    show a result, hence that the fuel is enough.

    ** Scope of the session theorems

    The simulation of Session covers the default database and requests whose
    fields fit in the buffer blocks of the code; the overflow and the named
    databases are covered by the theorems on defects.  Requests of other
    connections may come between two requests of a connection: the relation
    on the environment speaks only of the transaction of the connection.
    In Threads an event is an accepted connection, its take-over by a thread of
    the pool, one request, or one message of the writer: the threads are
    interleaved between these events, not inside a request.

    ** Not modelled

    In LMDB: the writing of overflow pages, the update of the parents of a split
    page, the saving of the lists of free pages in a commit, nested transactions,
    databases with duplicates and the lock file.  Lmdb abstracts
    the tree to finite maps and the failures of the page layer to scripts; Pages,
    LeafMap, Split, Merge, Cursor, Alloc, Touch and Commit are about pages, trees
    and the file as they are, and do not replace the maps of Lmdb.  In nanomsg:
    the state machines of sockets and endpoints, their options, the
    survey and bus protocols, the TCP and IPC transports, the loop of the workers
    (connections of Inproc are made by hand, the steps of the thread of a timer
    are events).  In linenoise: the beep and the
    exit handler.  Logging (ylog.c), the helper ytcp_server.c that FineDB does
    not call, the release of memory other than transactions and lists, the
    signal handler, and code excluded from the build by #if 0.  Threads are not
    interleaved inside a request, and Server uses a list of messages for the
    queue that the sockets of Pipeline implement.

    ** Plan

    Still to be done, in this order: the writing side of the tree of LMDB (the
    parents of split pages, cursors kept up to date, the saving of the free lists)
    as a refinement of the finite maps of Lmdb; sessions that use named databases,
    and DROP; the sockets of nanomsg above the pipes.
*)
From stdpp Require Export prelude list gmap numbers sorting.
From Stdlib Require Export ZArith Lia.
#[global] Open Scope Z_scope.

(** ** Machine data *)

(** A memory area: a list of bytes, each a [Z] between 0 and 255. *)
Abbreviation bytes := (list Z).

(** C integers of [w] bits are [Z]s; arithmetic on them is followed by the
    reduction modulo [2^w] that the C type performs. *)
Definition wrap (w n : Z) : Z := n mod 2 ^ w.
Abbreviation u8 := (wrap 8).
Abbreviation u16 := (wrap 16).
Abbreviation u32 := (wrap 32).
Abbreviation u64 := (wrap 64).

(** Conversion to a 32-bit [int]. *)
Definition i32 (n : Z) : Z := (n + 2 ^ 31) mod 2 ^ 32 - 2 ^ 31.

Definition is_byte (b : Z) : Prop := 0 <= b < 256.
Definition bytes_ok (l : bytes) : Prop := Forall is_byte l.

(** Length of a memory area as a [size_t]. *)
Definition lenZ {A} (l : list A) : Z := Z.of_nat (length l).
Definition takeZ {A} (n : Z) (l : list A) : list A := take (Z.to_nat n) l.
Definition dropZ {A} (n : Z) (l : list A) : list A := drop (Z.to_nat n) l.

(** [calloc(1, n)] returns [n] zero bytes. *)
Definition zeros (n : Z) : bytes := replicate (Z.to_nat n) 0.

(** A C string stored in a buffer ends at its first NUL byte. *)
Fixpoint cstr (l : bytes) : bytes :=
  match l with
  | [] => []
  | b :: l => if b =? 0 then [] else b :: cstr l
  end.

(** ** Network byte order: [htons]/[htonl] followed by a copy to memory, and
    the reverse. *)
Fixpoint be_bytes (n : nat) (v : Z) : bytes :=
  match n with
  | O => []
  | S n => (v / 256 ^ Z.of_nat n) mod 256 :: be_bytes n v
  end.
Fixpoint be_val_acc (acc : Z) (l : bytes) : Z :=
  match l with
  | [] => acc
  | b :: l => be_val_acc (acc * 256 + b) l
  end.
Definition be_val (l : bytes) : Z := be_val_acc 0 l.

(** Little-endian values, as loaded from memory. *)
Fixpoint le_val (l : bytes) : Z :=
  match l with
  | [] => 0
  | b :: l => b + 256 * le_val l
  end.

(** ** Outcomes of C code

    A C function either ends normally or runs into one of the faults below,
    after which C promises nothing about the rest of the execution. *)
Inductive fault :=
  | HeapOverflow     (* access outside an allocated block *)
  | UseAfterFree     (* access through, or release of, a freed handle *)
  | NullDeref        (* access through a null pointer *)
  | WriterBlocked    (* wait on a lock whose holder cannot release it *)
  | SubdataAccess    (* raw access to the record of a named database *)
  | AssertFailed     (* a C assert() that stops the process *)
  | OutOfFuel.       (* bound of the model exhausted; shown unreachable *)

#[export] Instance fault_eq_dec : EqDecision fault.
Proof. solve_decision. Defined.

Inductive outcome (A : Type) :=
  | Done (a : A)
  | Fault (f : fault).
Arguments Done {A} _.
Arguments Fault {A} _.

Definition obind {A B} (m : outcome A) (k : A -> outcome B) : outcome B :=
  match m with
  | Done a => k a
  | Fault f => Fault f
  end.

(** State-passing computations that may fault. *)
Definition CM (S A : Type) : Type := S -> outcome (A * S).
Definition cret {S A} (a : A) : CM S A := fun s => Done (a, s).
Definition cbind {S A B} (m : CM S A) (k : A -> CM S B) : CM S B :=
  fun s => match m s with
           | Done (a, s') => k a s'
           | Fault f => Fault f
           end.
Definition cfault {S A} (f : fault) : CM S A := fun _ => Fault f.
Definition cget {S} : CM S S := fun s => Done (s, s).
Definition cput {S} (s : S) : CM S unit := fun _ => Done (tt, s).
Definition clift {S A} (m : outcome A) : CM S A :=
  fun s => match m with
           | Done a => Done (a, s)
           | Fault f => Fault f
           end.

Declare Scope c_scope.
Delimit Scope c_scope with c.
Notation "'let!' x := m 'in' k" := (cbind m (fun x => k))
  (at level 10, x name, m at level 100, k at level 200) : c_scope.
Notation "'let!' ' p := m 'in' k" := (cbind m (fun x => match x with p => k end))
  (at level 10, p pattern, m at level 100, k at level 200) : c_scope.
Notation "'do!' m 'in' k" := (cbind m (fun _ => k))
  (at level 10, m at level 100, k at level 200) : c_scope.
Notation "'olet!' x := m 'in' k" := (obind m (fun x => k))
  (at level 10, x name, m at level 100, k at level 200) : c_scope.
Notation "'olet!' ' p := m 'in' k" := (obind m (fun x => match x with p => k end))
  (at level 10, p pattern, m at level 100, k at level 200) : c_scope.
#[global] Open Scope c_scope.

(** ** Memory blocks

    [memcpy] to offset [pos] of a block, and from it: outside the block's
    bounds both fault. *)
Definition blk_write (blk : bytes) (pos : Z) (d : bytes) : outcome bytes :=
  if (0 <=? pos) && (pos + lenZ d <=? lenZ blk)
  then Done (takeZ pos blk ++ d ++ dropZ (pos + lenZ d) blk)
  else Fault HeapOverflow.
Definition blk_read (blk : bytes) (pos n : Z) : outcome bytes :=
  if (0 <=? pos) && (0 <=? n) && (pos + n <=? lenZ blk)
  then Done (takeZ n (dropZ pos blk))
  else Fault HeapOverflow.

(** Several copies, in order. *)
Fixpoint write_parts (parts : list (Z * list Z)) (cells : list Z) : outcome (list Z) :=
  match parts with
  | [] => Done cells
  | (pos, d) :: parts => olet! cells := blk_write cells pos d in write_parts parts cells
  end.

(** ** Scripts

    What the operating system answers to a call is an input of the model: a
    list with one entry per call, [d] once the list is used up. *)
Definition script_next {A} (d : A) (l : list A) : A * list A :=
  match l with
  | [] => (d, [])
  | a :: l => (a, l)
  end.

(** ** Error codes of ylib (yerror.h) *)
Definition yerr_t := Z.
Definition YENOERR : yerr_t := 1.
Definition YEUNDEF : yerr_t := 0.
Definition YEIO : yerr_t := -5.
Definition YEBADF : yerr_t := -9.
Definition YENOMEM : yerr_t := -12.
Definition YEACCESS : yerr_t := -13.
Definition YENODATA : yerr_t := -61.
Definition YECONNRESET : yerr_t := -104.

(** ** Automation *)

(** Rewriting database for lengths, [take]/[drop] and the monad. *)
Create Rewrite HintDb len.
Create HintDb finedb discriminated.

Lemma lenZ_nil {A} : lenZ (@nil A) = 0.
Proof. done. Qed.
Lemma lenZ_cons {A} (a : A) l : lenZ (a :: l) = 1 + lenZ l.
Proof. unfold lenZ. simpl. lia. Qed.
Lemma lenZ_app {A} (l k : list A) : lenZ (l ++ k) = lenZ l + lenZ k.
Proof. unfold lenZ. rewrite length_app. lia. Qed.
Lemma lenZ_nonneg {A} (l : list A) : 0 <= lenZ l.
Proof. unfold lenZ. lia. Qed.
Lemma lenZ_zero_nil {A} (l : list A) : lenZ l = 0 -> l = [].
Proof. destruct l; [done|]. rewrite lenZ_cons. pose proof (lenZ_nonneg l). lia. Qed.
Lemma lenZ_takeZ {A} n (l : list A) :
  0 <= n <= lenZ l -> lenZ (takeZ n l) = n.
Proof. unfold lenZ, takeZ. intros. rewrite length_take. lia. Qed.
Lemma lenZ_dropZ {A} n (l : list A) :
  0 <= n <= lenZ l -> lenZ (dropZ n l) = lenZ l - n.
Proof. unfold lenZ, dropZ. intros. rewrite length_drop. lia. Qed.
Lemma lenZ_replicate {A} n (a : A) : lenZ (replicate n a) = Z.of_nat n.
Proof. unfold lenZ. by rewrite length_replicate. Qed.
Lemma lenZ_zeros n : 0 <= n -> lenZ (zeros n) = n.
Proof. intros. unfold zeros. rewrite lenZ_replicate. lia. Qed.
Lemma zeros_cons n : 1 <= n -> zeros n = 0 :: zeros (n - 1).
Proof. intros. unfold zeros. by replace (Z.to_nat n) with (S (Z.to_nat (n - 1))) by lia. Qed.
#[export] Hint Rewrite @lenZ_nil @lenZ_cons @lenZ_app @lenZ_replicate : len.
#[export] Hint Resolve lenZ_nonneg : finedb.

(** [dlia]: linear arithmetic with division and modulo by constants. *)
Ltac dlia := Z.to_euclidean_division_equations; lia.

(** [lens]: turn every length in sight into linear arithmetic. *)
Ltac lens_facts :=
  repeat match goal with
  | |- context [lenZ ?l] =>
      lazymatch goal with
      | _ : 0 <= lenZ l |- _ => fail
      | _ => pose proof (lenZ_nonneg l)
      end
  | _ : context [lenZ ?l] |- _ =>
      lazymatch goal with
      | _ : 0 <= lenZ l |- _ => fail
      | _ => pose proof (lenZ_nonneg l)
      end
  end.
Ltac lens := autorewrite with len in *; lens_facts; lia.

Lemma takeZ_app_le {A} n (l k : list A) : 0 <= n <= lenZ l -> takeZ n (l ++ k) = takeZ n l.
Proof. unfold takeZ, lenZ. intros. rewrite take_app_le by lia. done. Qed.
Lemma takeZ_app_eq {A} n (l k : list A) : n = lenZ l -> takeZ n (l ++ k) = l.
Proof. unfold takeZ, lenZ. intros ->. by rewrite Nat2Z.id, take_app_length. Qed.
Lemma dropZ_app_eq {A} n (l k : list A) : n = lenZ l -> dropZ n (l ++ k) = k.
Proof. unfold dropZ, lenZ. intros ->. by rewrite Nat2Z.id, drop_app_length. Qed.
Lemma dropZ_app_le {A} n (l k : list A) :
  0 <= n <= lenZ l -> dropZ n (l ++ k) = dropZ n l ++ k.
Proof. unfold dropZ, lenZ. intros. rewrite drop_app_le by lia. done. Qed.
Lemma takeZ_all {A} n (l : list A) : lenZ l <= n -> takeZ n l = l.
Proof. unfold takeZ, lenZ. intros. rewrite take_ge by lia. done. Qed.
Lemma takeZ_0 {A} n (l : list A) : n <= 0 -> takeZ n l = [].
Proof. intros. unfold takeZ. replace (Z.to_nat n) with 0%nat by lia. done. Qed.
Lemma dropZ_0 {A} n (l : list A) : n <= 0 -> dropZ n l = l.
Proof. intros. unfold dropZ. replace (Z.to_nat n) with 0%nat by lia. done. Qed.
Lemma takeZ_dropZ {A} n (l : list A) : takeZ n l ++ dropZ n l = l.
Proof. apply take_drop. Qed.
Lemma dropZ_dropZ {A} n m (l : list A) :
  0 <= n -> 0 <= m -> dropZ n (dropZ m l) = dropZ (m + n) l.
Proof. unfold dropZ. intros. rewrite drop_drop. f_equal. lia. Qed.
Lemma takeZ_dropZ_takeZ {A} n m (l : list A) :
  0 <= n <= m -> dropZ n (takeZ m l) = takeZ (m - n) (dropZ n l).
Proof. unfold takeZ, dropZ. intros. rewrite skipn_firstn_comm. f_equal. lia. Qed.
Lemma takeZ_takeZ {A} n m (l : list A) : 0 <= n <= m -> takeZ n (takeZ m l) = takeZ n l.
Proof. unfold takeZ. intros. rewrite take_take. f_equal. lia. Qed.

Lemma wrap_small w n : 0 <= n < 2 ^ w -> wrap w n = n.
Proof. apply Z.mod_small. Qed.
Lemma wrap_bound w n : 0 <= w -> 0 <= wrap w n < 2 ^ w.
Proof. intros. apply Z.mod_pos_bound. lia. Qed.

(** ** Big-endian codec *)
Lemma lor_shiftl a b k :
  0 <= k -> 0 <= a < 2 ^ k -> Z.lor a (Z.shiftl b k) = a + b * 2 ^ k.
Proof.
  intros Hk Ha. rewrite <- Z.shiftl_mul_pow2 by done. symmetry. apply Z.add_nocarry_lor.
  apply Z.bits_inj'. intros n Hn. rewrite Z.land_spec, Z.bits_0.
  destruct (Z.lt_ge_cases n k).
  - by rewrite Z.shiftl_spec_low, andb_false_r.
  - rewrite <- (Z.mod_small a (2 ^ k)) by done. by rewrite Z.mod_pow2_bits_high.
Qed.
Lemma length_be_bytes n v : length (be_bytes n v) = n.
Proof. induction n; simpl; auto. Qed.
Lemma lenZ_be_bytes n v : lenZ (be_bytes n v) = Z.of_nat n.
Proof. unfold lenZ. by rewrite length_be_bytes. Qed.
#[export] Hint Rewrite lenZ_be_bytes : len.
Lemma be_bytes_ok n v : bytes_ok (be_bytes n v).
Proof.
  unfold bytes_ok. induction n; simpl; constructor; auto.
  unfold is_byte. apply Z.mod_pos_bound. lia.
Qed.
Lemma be_val_acc_app acc l k :
  be_val_acc acc (l ++ k) = be_val_acc (be_val_acc acc l) k.
Proof. revert acc. induction l; simpl; auto. Qed.
Lemma be_val_acc_shift acc l :
  be_val_acc acc l = acc * 256 ^ lenZ l + be_val_acc 0 l.
Proof.
  revert acc. induction l as [|b l IH]; intros acc.
  - simpl. rewrite lenZ_nil. lia.
  - cbn [be_val_acc]. rewrite (IH (acc * 256 + b)), (IH (0 * 256 + b)).
    rewrite lenZ_cons, Z.pow_add_r by (pose proof (lenZ_nonneg l); lia). lia.
Qed.
Lemma be_val_be_bytes n v : be_val (be_bytes n v) = v mod 256 ^ Z.of_nat n.
Proof.
  unfold be_val. induction n as [|n IH].
  - simpl. by rewrite Z.mod_1_r.
  - cbn [be_bytes be_val_acc]. rewrite be_val_acc_shift, IH, lenZ_be_bytes.
    rewrite Nat2Z.inj_succ, Z.pow_succ_r by lia.
    rewrite (Z.mul_comm 256), Z.rem_mul_r by lia. lia.
Qed.
Lemma be_val_bound l : bytes_ok l -> 0 <= be_val l < 256 ^ lenZ l.
Proof.
  unfold be_val. induction 1 as [|b l Hb _ IH]; [done|].
  cbn [be_val_acc]. rewrite be_val_acc_shift, lenZ_cons.
  rewrite Z.pow_add_r by (pose proof (lenZ_nonneg l); lia).
  unfold is_byte in Hb. nia.
Qed.
Lemma be_bytes_be_val l : bytes_ok l -> be_bytes (length l) (be_val l) = l.
Proof.
  unfold be_val. intros Hl.
  enough (forall acc, be_bytes (length l) (be_val_acc acc l) = l) by auto.
  induction Hl as [|b l Hb Hl IH]; intros acc; [done|].
  cbn [be_val_acc length be_bytes]. f_equal; [|apply IH].
  rewrite be_val_acc_shift. fold (lenZ l).
  pose proof (be_val_bound l Hl) as Hv. unfold be_val in Hv.
  rewrite Z.div_add_l by lia. rewrite (Z.div_small (be_val_acc 0 l)) by lia.
  unfold is_byte in Hb.
  replace (acc * 256 + b + 0) with (b + acc * 256) by lia.
  rewrite Z.mod_add by lia. apply Z.mod_small. lia.
Qed.

(** Only the low bytes matter to [be_bytes]. *)
Lemma div_mod_pow v k m :
  0 <= k < m -> (v mod 256 ^ m / 256 ^ k) mod 256 = (v / 256 ^ k) mod 256.
Proof.
  intros H. replace (256 ^ m) with (256 ^ k * 256 ^ (m - k)) by (rewrite <- Z.pow_add_r; f_equal; lia).
  rewrite Z.rem_mul_r by lia.
  rewrite (Z.mul_comm (256 ^ k)), Z.div_add by lia.
  rewrite (Z.div_small (v mod _)) by (apply Z.mod_pos_bound; lia). rewrite Z.add_0_l.
  replace (256 ^ (m - k)) with (256 * 256 ^ (m - k - 1))
    by (rewrite <- Z.pow_succ_r by lia; f_equal; lia).
  rewrite Z.rem_mul_r by lia. rewrite (Z.mul_comm 256), Z.mod_add by lia. apply Z.mod_mod. lia.
Qed.
Lemma be_bytes_mod n m v :
  (n <= m)%nat -> be_bytes n (v mod 256 ^ Z.of_nat m) = be_bytes n v.
Proof.
  induction n as [|n IH]; intros Hn; cbn [be_bytes]; [done|].
  rewrite IH by lia. by rewrite div_mod_pow by lia.
Qed.
Lemma be_bytes_u32 v : be_bytes 4 (u32 v) = be_bytes 4 v.
Proof. apply (be_bytes_mod 4 4). lia. Qed.
Lemma be_bytes_u16 v : be_bytes 2 (u16 v) = be_bytes 2 v.
Proof. apply (be_bytes_mod 2 2). lia. Qed.

(** ** Blocks *)
Lemma blk_write_ok blk pos d :
  0 <= pos -> pos + lenZ d <= lenZ blk ->
  blk_write blk pos d = Done (takeZ pos blk ++ d ++ dropZ (pos + lenZ d) blk).
Proof.
  intros. unfold blk_write.
  rewrite (proj2 (Z.leb_le 0 pos)), (proj2 (Z.leb_le _ (lenZ blk))) by lia. done.
Qed.
Lemma blk_write_oob blk pos d :
  lenZ blk < pos + lenZ d -> blk_write blk pos d = Fault HeapOverflow.
Proof.
  intros. unfold blk_write.
  rewrite (proj2 (Z.leb_gt _ (lenZ blk))) by lia. by rewrite andb_false_r.
Qed.
Lemma blk_read_ok blk pos n :
  0 <= pos -> 0 <= n -> pos + n <= lenZ blk ->
  blk_read blk pos n = Done (takeZ n (dropZ pos blk)).
Proof.
  intros. unfold blk_read.
  rewrite !(proj2 (Z.leb_le _ _)) by lia. done.
Qed.
Lemma lenZ_blk_write blk pos d blk' :
  blk_write blk pos d = Done blk' -> lenZ blk' = lenZ blk.
Proof.
  unfold blk_write. destruct (_ && _) eqn:E; [|done]. intros [= <-].
  apply andb_prop in E as [?%Z.leb_le ?%Z.leb_le].
  autorewrite with len. rewrite lenZ_takeZ, lenZ_dropZ by lens. lia.
Qed.

Lemma blk_read_mid (a b c : list Z) n :
  n = lenZ b -> blk_read (a ++ b ++ c) (lenZ a) n = Done b.
Proof.
  intros ->. rewrite blk_read_ok by lens. rewrite dropZ_app_eq by done. by rewrite takeZ_app_eq.
Qed.
Lemma blk_write_mid (a b c d : list Z) :
  lenZ b = lenZ d -> blk_write (a ++ b ++ c) (lenZ a) d = Done (a ++ d ++ c).
Proof.
  intros Hl. rewrite blk_write_ok by lens. rewrite takeZ_app_eq by done. do 2 f_equal.
  rewrite <- Hl, app_assoc. f_equal. apply dropZ_app_eq. lens.
Qed.

(** ** C strings *)
Lemma cstr_no_nul l : Forall (fun b => b <> 0) l -> cstr l = l.
Proof.
  induction 1 as [|b l Hb _ IH]; [done|]. cbn [cstr].
  rewrite (proj2 (Z.eqb_neq b 0) Hb). by rewrite IH.
Qed.
Lemma cstr_app_nul l k : cstr (l ++ 0 :: k) = cstr l.
Proof. induction l as [|b l IH]; [done|]. simpl. by rewrite IH. Qed.

(** ** The monad *)
Lemma cbind_done {S A B} (m : CM S A) (k : A -> CM S B) s r :
  cbind m k s = Done r <-> exists a s', m s = Done (a, s') /\ k a s' = Done r.
Proof.
  unfold cbind. destruct (m s) as [[a s']|f]; naive_solver.
Qed.
Lemma cbind_assoc {S A B C} (m : CM S A) (k : A -> CM S B) (h : B -> CM S C) s :
  cbind (cbind m k) h s = cbind m (fun a => cbind (k a) h) s.
Proof. unfold cbind. destruct (m s) as [[a s']|f]; done. Qed.

(** [cstep H]: run the first step of a computation whose result is known. *)
Ltac cstep H := unfold cbind at 1; rewrite H; cbn iota beta.
(** [cinv H]: split a terminated sequence into its steps. *)
Ltac cinv H :=
  apply cbind_done in H; destruct H as (?a & ?s & ?Hs & H).
