(* ===== verification/Cstring.v ===== *)
(** * Cstring: the C string functions the code uses

    A pointer into a string is the list of the bytes from there to the end of
    its block; the string ends at the first NUL.  Reading past the block is an
    access to the empty list. *)
From Stdlib Require Import String Ascii.
From S2P Require Import Prelude.

Definition str (s : string) : bytes :=
  map (fun a => Z.of_N (N_of_ascii a)) (list_ascii_of_string s).

Definition tolower (b : Z) : Z := if (65 <=? b) && (b <=? 90) then b + 32 else b.
(** [!strcasecmp(a, b)] *)
Definition strcaseeq (a b : bytes) : bool := bool_decide (map tolower a = map tolower b).
(** [!strncasecmp(a, b, n)] for strings of at least [n] bytes *)
Definition strncaseeq (n : Z) (a b : bytes) : bool := strcaseeq (takeZ n a) (takeZ n b).

(** [*pt] *)
Definition deref (pt : bytes) : outcome Z :=
  match pt with
  | [] => Fault HeapOverflow
  | b :: _ => Done b
  end.
(** [strlen], and the string itself: the terminating NUL has to be there. *)
Fixpoint c_string (pt : bytes) : outcome bytes :=
  match pt with
  | [] => Fault HeapOverflow
  | b :: pt => if b =? 0 then Done [] else olet! s := c_string pt in Done (b :: s)
  end.
(** [strchr(pt, c)] for [c] not NUL: the bytes before, and the pointer. *)
Fixpoint strchr (c : Z) (pt : bytes) : outcome (option (bytes * bytes)) :=
  match pt with
  | [] => Fault HeapOverflow
  | b :: r =>
      if b =? c then Done (Some ([], pt))
      else if b =? 0 then Done None
      else olet! x := strchr c r in
           Done (match x with Some (s, p) => Some (b :: s, p) | None => None end)
  end.
(** [atoi]: white space, a sign, digits; the value is the [int] that
    [strtol] yields. *)
Fixpoint skip_spaces (s : bytes) : bytes :=
  match s with
  | b :: s' => if (b =? 32) || ((9 <=? b) && (b <=? 13)) then skip_spaces s' else s
  | [] => []
  end.
Fixpoint digits (acc : Z) (s : bytes) : Z :=
  match s with
  | b :: s => if (48 <=? b) && (b <=? 57) then digits (acc * 10 + (b - 48)) s else acc
  | [] => acc
  end.
Definition long_clamp (n : Z) : Z := Z.max (- 2 ^ 63) (Z.min (2 ^ 63 - 1) n).
Definition atoi (s : bytes) : Z :=
  i32 (long_clamp (match skip_spaces s with
                      | b :: s' => if b =? 45 then - digits 0 s'
                                   else if b =? 43 then digits 0 s'
                                   else digits 0 (b :: s')
                      | [] => 0
                      end)).

(** [!strncmp(a, b, n)] and [!strncasecmp(a, b, n)], [f] being the identity or
    [tolower]: equal up to [n] bytes or to the end of both strings. *)
Fixpoint strneq (f : Z -> Z) (n : nat) (a b : bytes) : outcome bool :=
  match n with
  | O => Done true
  | S n =>
      olet! x := deref a in
      olet! y := deref b in
      if negb (f x =? f y) then Done false
      else if x =? 0 then Done true
      else strneq f n (tl a) (tl b)
  end.

(** ** Lemmas *)
Lemma strchr_end c w pt :
  Forall (fun b => b <> 0 /\ b <> c) w -> strchr c (w ++ c :: pt) = Done (Some (w, c :: pt)).
Proof.
  intros Hw. induction Hw as [|x w [Hx Hc] _ IH]; cbn [app strchr]; [by rewrite Z.eqb_refl|].
  rewrite (proj2 (Z.eqb_neq x c) Hc), (proj2 (Z.eqb_neq x 0) Hx). by rewrite IH.
Qed.
Lemma c_string_end w pt : Forall (fun b => b <> 0) w -> c_string (w ++ 0 :: pt) = Done w.
Proof.
  intros Hw. induction Hw as [|x w Hx _ IH]; cbn [app c_string]; [done|].
  rewrite (proj2 (Z.eqb_neq x 0) Hx). by rewrite IH.
Qed.
