(* ===== verification/Protocol.v ===== *)
(** * Protocol: the wire format constants of src/src/server/protocol.h

    The request byte carries a command in its low four bits and options in its
    high four bits; the response byte carries a response code in its low bits
    and two options.  The macros of protocol.h are functions on [Z]; the enums
    are inductive types with their numeric values. *)
From S2P Require Import Prelude.

(** C truth value of an integer expression. *)
Definition cbool (n : Z) : bool := negb (n =? 0).

(** ** Enumerations *)
Inductive protocol_command_t :=
  | PROTO_PING | PROTO_GET | PROTO_DEL | PROTO_PUT | PROTO_SETDB
  | PROTO_START | PROTO_STOP | PROTO_ADMIN | PROTO_EXTRA.
Definition command_code (c : protocol_command_t) : Z :=
  match c with
  | PROTO_PING => 0x0
  | PROTO_GET => 0x1
  | PROTO_DEL => 0x2
  | PROTO_PUT => 0x3
  | PROTO_SETDB => 0x4
  | PROTO_START => 0x5
  | PROTO_STOP => 0x6
  | PROTO_ADMIN => 0xe
  | PROTO_EXTRA => 0xf
  end.

Inductive protocol_option_t :=
  | PROTO_OPT_SYNC | PROTO_OPT_SERIALIZED | PROTO_OPT_COMPRESSED | PROTO_OPT_SERVTOSERV.
Definition option_code (o : protocol_option_t) : Z :=
  match o with
  | PROTO_OPT_SYNC => 0x10
  | PROTO_OPT_SERIALIZED => 0x20
  | PROTO_OPT_COMPRESSED => 0x40
  | PROTO_OPT_SERVTOSERV => 0x80
  end.

Inductive protocol_response_t :=
  | RESP_ERR_UNDEFINED | RESP_OK | RESP_ERR_PROTOCOL | RESP_ERR_SERVER
  | RESP_ERR_FULL_DB | RESP_ERR_TOO_MANY_DB | RESP_ERR_BAD_NAME | RESP_ERR_TRANSACTION.
Definition response_code (r : protocol_response_t) : Z :=
  match r with
  | RESP_ERR_UNDEFINED => 0
  | RESP_OK => 1
  | RESP_ERR_PROTOCOL => 2
  | RESP_ERR_SERVER => 3
  | RESP_ERR_FULL_DB => 4
  | RESP_ERR_TOO_MANY_DB => 5
  | RESP_ERR_BAD_NAME => 6
  | RESP_ERR_TRANSACTION => 7
  end.

#[export] Instance protocol_command_eq_dec : EqDecision protocol_command_t.
Proof. solve_decision. Defined.
#[export] Instance protocol_response_eq_dec : EqDecision protocol_response_t.
Proof. solve_decision. Defined.

(** ** Request macros *)
Definition REQUEST_COMMAND (c : Z) : Z := Z.land c 0xf.
Definition REQUEST_HAS_SYNC (c : Z) : Z := Z.land c (option_code PROTO_OPT_SYNC).
Definition REQUEST_HAS_SERIALIZED (c : Z) : Z := Z.land c (option_code PROTO_OPT_SERIALIZED).
Definition REQUEST_HAS_COMPRESSED (c : Z) : Z := Z.land c (option_code PROTO_OPT_COMPRESSED).
Definition REQUEST_HAS_SERVTOSERV (c : Z) : Z := Z.land c (option_code PROTO_OPT_SERVTOSERV).
Definition REQUEST_ADD_SYNC (c : Z) : Z := Z.lor c (option_code PROTO_OPT_SYNC).
Definition REQUEST_ADD_COMPRESSED (c : Z) : Z := Z.lor c (option_code PROTO_OPT_COMPRESSED).
Definition REQUEST_ADD_SERVTOSERV (c : Z) : Z := Z.lor c (option_code PROTO_OPT_SERVTOSERV).

(** ** Response macros *)
Definition RESPONSE_ADD_SERIALIZED (c : Z) : Z := Z.lor c (option_code PROTO_OPT_SERIALIZED).
Definition RESPONSE_ADD_COMPRESSED (c : Z) : Z := Z.lor c (option_code PROTO_OPT_COMPRESSED).
Definition RESPONSE_STATUS (c : Z) : Z := Z.land c 1.
Definition RESPONSE_ERROR (c : Z) : Z := Z.land c 0x1e.

(** The byte a client builds from a command and the options it adds. *)
Definition request_byte (cmd : Z) (sync compressed servtoserv : bool) : Z :=
  let c := if sync then REQUEST_ADD_SYNC cmd else cmd in
  let c := if compressed then REQUEST_ADD_COMPRESSED c else c in
  if servtoserv then REQUEST_ADD_SERVTOSERV c else c.

(** The byte the server builds in [connection_send_response]. *)
Definition response_byte (r : protocol_response_t) (serialized compressed : bool) : Z :=
  let c := response_code r in
  let c := if serialized then RESPONSE_ADD_SERIALIZED c else c in
  if compressed then RESPONSE_ADD_COMPRESSED c else c.

(** ** Lemmas *)
Lemma command_code_bound c : 0 <= command_code c < 16.
Proof. destruct c; simpl; lia. Qed.
Lemma command_code_inj c c' : command_code c = command_code c' -> c = c'.
Proof. destruct c, c'; done. Qed.
Lemma response_code_inj r r' : response_code r = response_code r' -> r = r'.
Proof. destruct r, r'; done. Qed.

Lemma land_15_bound c : 0 <= REQUEST_COMMAND c < 16.
Proof.
  unfold REQUEST_COMMAND. change 0xf with (Z.ones 4). rewrite Z.land_ones by lia.
  apply Z.mod_pos_bound. lia.
Qed.

Lemma cbool_true n : cbool n = true <-> n <> 0.
Proof. unfold cbool. rewrite negb_true_iff. apply Z.eqb_neq. Qed.

Lemma response_byte_is_byte r s c : is_byte (response_byte r s c).
Proof. unfold is_byte. destruct r, s, c; cbv; intuition congruence. Qed.

(** A request byte is decoded to exactly the command and the options it was
    built from. *)
Lemma request_byte_decode cmd sync comp s2s :
  REQUEST_COMMAND (request_byte (command_code cmd) sync comp s2s) = command_code cmd /\
  cbool (REQUEST_HAS_SYNC (request_byte (command_code cmd) sync comp s2s)) = sync /\
  cbool (REQUEST_HAS_COMPRESSED (request_byte (command_code cmd) sync comp s2s)) = comp /\
  cbool (REQUEST_HAS_SERVTOSERV (request_byte (command_code cmd) sync comp s2s)) = s2s /\
  cbool (REQUEST_HAS_SERIALIZED (request_byte (command_code cmd) sync comp s2s)) = false.
Proof. destruct cmd, sync, comp, s2s; repeat split; reflexivity. Qed.

Lemma response_status_byte r s c :
  RESPONSE_STATUS (response_byte r s c) = RESPONSE_STATUS (response_code r).
Proof. destruct r, s, c; reflexivity. Qed.
Lemma response_status_spec r :
  RESPONSE_STATUS (response_code r) = response_code RESP_OK <->
  r = RESP_OK \/ r = RESP_ERR_SERVER \/ r = RESP_ERR_TOO_MANY_DB \/ r = RESP_ERR_TRANSACTION.
Proof. destruct r; cbv; naive_solver. Qed.

(** ** Properties *)

(** The request byte is a faithful encoding: the server decodes exactly
    the command and the options the client put in. *)
Theorem request_byte_roundtrip cmd sync comp s2s :
  let b := request_byte (command_code cmd) sync comp s2s in
  is_byte b /\
  REQUEST_COMMAND b = command_code cmd /\
  cbool (REQUEST_HAS_SYNC b) = sync /\
  cbool (REQUEST_HAS_COMPRESSED b) = comp /\
  cbool (REQUEST_HAS_SERVTOSERV b) = s2s /\
  cbool (REQUEST_HAS_SERIALIZED b) = false.
Proof.
  split; [|apply request_byte_decode].
  unfold is_byte. destruct cmd, sync, comp, s2s; cbv; intuition congruence.
Qed.
