(* ===== verification/Dynabin.v ===== *)
(** * Dynabin: binary containers of ylib (ybin.c, ydynabin.c)

    [ybin_t] is a pointer with a length.  [ydynabin_t] is the growing buffer a
    connection thread accumulates its requests in: a heap block, the offset of
    the first unread byte, the number of unread bytes and the number of free
    bytes at the end of the block.  The model keeps the block itself, so that a
    copy past its end is a [HeapOverflow]. *)
From S2P Require Import Prelude.

(** ** Allocation: one script entry per call, [false] for a null result. *)
Abbreviation alloc := (list bool).
Definition ymalloc (n : Z) : CM alloc (option bytes) := fun s =>
  let '(ok, s) := script_next true s in
  Done (if ok then Some (zeros n) else None, s).

(** The next allocation succeeds. *)
Definition alloc_ok (s : alloc) : Prop := fst (script_next true s) = true.

(** ** ybin_t *)
Record ybin_t := { yb_data : option bytes; yb_len : Z }.
Definition ybin_set (data : option bytes) (len : Z) : ybin_t :=
  {| yb_data := data; yb_len := len |}.
(** The [yb_len] bytes a reader of the container gets. *)
Definition ybin_read (b : ybin_t) : outcome bytes :=
  if yb_len b =? 0 then Done []
  else match yb_data b with
       | Some d => blk_read d 0 (yb_len b)
       | None => Fault NullDeref
       end.

(** ** ydynabin_t *)
Definition MB : Z := 1048576.
Definition YDYNABIN_RNDSZ (s : Z) : Z := u64 (s + s mod 8192).
Definition YDYNABIN_SIZE (s : Z) : Z :=
  if s =? 0 then 0
  else if s <? 100 * MB then u64 (s * 2) else u64 (s + 100 * MB).

(** [yd_data] is the allocated block; the C field [data] points to byte
    [yd_offset] of it, or is null when there is no block. *)
Record ydynabin_t := {
  yd_data : option bytes;
  yd_len : Z;
  yd_offset : Z;
  yd_free : Z
}.
Definition yd_empty : ydynabin_t :=
  {| yd_data := None; yd_len := 0; yd_offset := 0; yd_free := 0 |}.

Definition ydynabin_new (data : option bytes) (len : Z) (must_copy : bool)
    : CM alloc (option ydynabin_t) :=
  let! container := ymalloc 32 in
  match container with
  | None => cret None
  | Some _ =>
      match data with
      | None => cret (Some yd_empty)
      | Some d =>
          if len =? 0 then cret (Some yd_empty)
          else if must_copy then
            let sz := YDYNABIN_RNDSZ (YDYNABIN_SIZE len) in
            let! ptr := ymalloc sz in
            match ptr with
            | None => cfault NullDeref
            | Some blk =>
                let! src := clift (blk_read d 0 len) in
                let! blk := clift (blk_write blk 0 src) in
                cret (Some {| yd_data := Some blk; yd_len := len;
                              yd_offset := 0; yd_free := u64 (sz - len) |})
            end
          else
            cret (Some {| yd_data := Some d; yd_len := len;
                          yd_offset := 0; yd_free := 0 |})
      end
  end.

(** Bytes from the [data] pointer on. *)
Definition yd_view (c : ydynabin_t) : option bytes := dropZ (yd_offset c) <$> yd_data c.
(** The unread bytes. *)
Definition yd_content (c : ydynabin_t) : bytes :=
  takeZ (yd_len c) (default [] (yd_view c)).

(** The branch of [ydynabin_expand] that replaces the block by a new one;
    [None] when the allocation fails. *)
Definition ydynabin_grow (c : ydynabin_t) (len : Z) : CM alloc (option ydynabin_t) :=
  let sz := YDYNABIN_RNDSZ (YDYNABIN_SIZE len) in
  let! ptr := ymalloc sz in
  match ptr with
  | None => cret None
  | Some blk =>
      let! blk :=
        (if yd_len c =? 0 then cret blk
         else match yd_view c with
              | None => cfault NullDeref
              | Some v =>
                  let! old := clift (blk_read v 0 (yd_len c)) in
                  clift (blk_write blk 0 old)
              end) in
      cret (Some {| yd_data := Some blk; yd_len := yd_len c;
                    yd_offset := 0; yd_free := u64 (sz - yd_len c) |})
  end.

Definition ydynabin_expand (c : ydynabin_t) (data : option bytes) (len : Z)
    : CM alloc (yerr_t * ydynabin_t) :=
  match data with
  | None => cret (YENOERR, c)
  | Some d =>
      if len =? 0 then cret (YENOERR, c) else
      let! c' := (if yd_free c <? len then ydynabin_grow c len else cret (Some c)) in
      match c' with
      | None => cret (YENOMEM, c)
      | Some c =>
          match yd_data c with
          | None => cfault NullDeref
          | Some blk =>
              let! src := clift (blk_read d 0 len) in
              let! blk := clift (blk_write blk (yd_offset c + yd_len c) src) in
              cret (YENOERR, {| yd_data := Some blk; yd_len := u64 (yd_len c + len);
                                yd_offset := yd_offset c;
                                yd_free := u64 (yd_free c - len) |})
          end
      end
  end.

(** The result is the [data] pointer before the move: the bytes it gives
    access to, or null. *)
Definition ydynabin_forward (c : ydynabin_t) (forward : Z) : option bytes * ydynabin_t :=
  if yd_len c <? forward then (None, c)
  else (yd_view c, {| yd_data := yd_data c; yd_len := yd_len c - forward;
                      yd_offset := yd_offset c + forward; yd_free := yd_free c |}).

(** ** Well-formedness *)
Definition yd_wf (c : ydynabin_t) : Prop :=
  0 <= yd_len c /\ 0 <= yd_offset c /\ 0 <= yd_free c /\
  match yd_data c with
  | None => yd_len c = 0 /\ yd_offset c = 0 /\ yd_free c = 0
  | Some blk => yd_offset c + yd_len c + yd_free c <= lenZ blk /\ lenZ blk < 2 ^ 62
  end.

(** The size of the block allocated for [n] more bytes. *)
Definition yd_alloc (n : Z) : Z := YDYNABIN_RNDSZ (YDYNABIN_SIZE n).

(** The test that separates the appends that stay inside their block from
    those that overflow it. *)
Definition expand_safe (c : ydynabin_t) (n : Z) : bool :=
  (n <=? yd_free c) || (yd_len c + n <=? yd_alloc n).

(** ** Lemmas *)
Lemma yd_alloc_value n :
  0 < n < 2 ^ 60 ->
  yd_alloc n = let s := if n <? 100 * MB then n * 2 else n + 100 * MB in s + s mod 8192.
Proof.
  intros Hn. unfold yd_alloc, YDYNABIN_RNDSZ, YDYNABIN_SIZE, MB.
  rewrite (proj2 (Z.eqb_neq n 0)) by lia.
  destruct (n <? 100 * 1048576) eqn:E; cbn zeta.
  - pose proof (Z.mod_pos_bound (n * 2) 8192 ltac:(lia)).
    rewrite (wrap_small 64 (n * 2)) by lia. rewrite wrap_small by lia. done.
  - pose proof (Z.mod_pos_bound (n + 100 * 1048576) 8192 ltac:(lia)).
    rewrite (wrap_small 64 (n + 100 * 1048576)) by lia. rewrite wrap_small by lia. done.
Qed.

Lemma yd_alloc_bounds n : 0 < n < 2 ^ 60 -> n < yd_alloc n < 2 ^ 62.
Proof.
  intros Hn. rewrite yd_alloc_value by done. unfold MB. cbn zeta.
  destruct (n <? 100 * 1048576) eqn:E; [apply Z.ltb_lt in E|apply Z.ltb_ge in E].
  - pose proof (Z.mod_pos_bound (n * 2) 8192 ltac:(lia)). lia.
  - pose proof (Z.mod_pos_bound (n + 100 * 1048576) 8192 ltac:(lia)). lia.
Qed.

Lemma yd_alloc_double n : 0 < n < 100 * MB -> 2 * n <= yd_alloc n.
Proof.
  intros Hn. rewrite yd_alloc_value by (unfold MB in Hn; lia).
  rewrite (proj2 (Z.ltb_lt n (100 * MB))) by lia. cbn zeta.
  pose proof (Z.mod_pos_bound (n * 2) 8192 ltac:(lia)). lia.
Qed.

Lemma yd_empty_wf : yd_wf yd_empty.
Proof. unfold yd_wf. simpl. lia. Qed.
#[export] Hint Resolve yd_empty_wf : finedb.

Lemma yd_content_len c : yd_wf c -> lenZ (yd_content c) = yd_len c.
Proof.
  unfold yd_wf, yd_content, yd_view. intros (?&?&?&H). destruct (yd_data c) as [blk|]; simpl.
  - rewrite lenZ_takeZ; [done|]. rewrite lenZ_dropZ by lia. lia.
  - destruct H as (->&_). by rewrite takeZ_0 by lia.
Qed.

(** [ydynabin_forward] returns a pointer to the unread bytes and consumes
    [n] of them. *)
Lemma forward_spec c n :
  yd_wf c -> 0 <= n <= yd_len c -> yd_data c <> None ->
  exists v c', ydynabin_forward c n = (Some v, c') /\
    takeZ n v = takeZ n (yd_content c) /\
    yd_content c' = dropZ n (yd_content c) /\
    yd_wf c' /\ yd_data c' = yd_data c /\ yd_len c' = yd_len c - n /\
    yd_free c' = yd_free c.
Proof.
  unfold yd_wf, ydynabin_forward, yd_content, yd_view. intros (?&?&?&H) Hn Hd.
  destruct c as [[blk|] len off fr]; simpl in *; [|done].
  rewrite (proj2 (Z.ltb_ge len n)) by lia.
  do 2 eexists. split; [done|]. simpl. repeat split; try lia.
  - by rewrite takeZ_takeZ by lia.
  - rewrite takeZ_dropZ_takeZ by lia. by rewrite dropZ_dropZ by lia.
Qed.

Lemma forward_short c n :
  yd_len c < n -> ydynabin_forward c n = (None, c).
Proof. intros. unfold ydynabin_forward. by rewrite (proj2 (Z.ltb_lt _ _)). Qed.

(** What the append leaves in the buffer, when it stays in bounds. *)
Definition yd_appended (c c' : ydynabin_t) (d : bytes) : Prop :=
  yd_wf c' /\ yd_content c' = yd_content c ++ d /\
  yd_len c' = yd_len c + lenZ d /\ yd_data c' <> None.

(** Copying [d] behind the unread bytes of a block that has room for it. *)
Lemma append_in_place blk len off fr d :
  0 <= len -> 0 <= off -> 0 <= fr -> lenZ d <= fr ->
  off + len + fr <= lenZ blk -> lenZ blk < 2 ^ 62 ->
  exists blk', blk_write blk (off + len) d = Done blk' /\
    yd_appended {| yd_data := Some blk; yd_len := len; yd_offset := off; yd_free := fr |}
      {| yd_data := Some blk'; yd_len := u64 (len + lenZ d); yd_offset := off;
         yd_free := u64 (fr - lenZ d) |} d.
Proof.
  intros. pose proof (lenZ_nonneg d). rewrite blk_write_ok by lia.
  eexists. split; [done|]. rewrite !wrap_small by lia.
  unfold yd_appended, yd_wf, yd_content, yd_view. simpl.
  assert (Hlen : lenZ (takeZ (off + len) blk ++ d ++ dropZ (off + len + lenZ d) blk) = lenZ blk).
  { autorewrite with len. rewrite lenZ_takeZ, lenZ_dropZ by lia. lia. }
  rewrite Hlen. repeat split; try lia; [|done].
  rewrite dropZ_app_le by (rewrite lenZ_takeZ by lia; lia).
  rewrite takeZ_dropZ_takeZ by lia. replace (off + len - off) with len by lia.
  rewrite app_assoc. apply takeZ_app_eq.
  autorewrite with len. rewrite lenZ_takeZ; [lia|]. rewrite lenZ_dropZ by lia. lia.
Qed.

(** Growing moves the unread bytes to the front of a larger block. *)
Lemma grow_spec c n s :
  yd_wf c -> 0 < n < 2 ^ 60 -> yd_len c <= yd_alloc n -> alloc_ok s ->
  exists blk, ydynabin_grow c n s =
    Done (Some {| yd_data := Some blk; yd_len := yd_len c; yd_offset := 0;
                  yd_free := yd_alloc n - yd_len c |}, snd (script_next true s)) /\
    lenZ blk = yd_alloc n /\ takeZ (yd_len c) blk = yd_content c.
Proof.
  intros Hwf Hn Hle Hs. pose proof (yd_alloc_bounds n Hn) as Hb.
  pose proof (yd_content_len c Hwf) as Hcl.
  destruct Hwf as (?&?&?&Hd).
  unfold alloc_ok in Hs. unfold ydynabin_grow, cbind, ymalloc.
  destruct (script_next true s) as [ok s']. simpl in Hs. subst ok. fold (yd_alloc n).
  rewrite (wrap_small 64) by lia.
  destruct (yd_len c =? 0) eqn:E.
  - apply Z.eqb_eq in E. unfold cret. eexists. split; [done|].
    rewrite lenZ_zeros by lia. split; [done|].
    rewrite takeZ_0 by lia. symmetry. apply lenZ_zero_nil. lia.
  - apply Z.eqb_neq in E. unfold yd_content, yd_view in *.
    destruct (yd_data c) as [old|]; [|lia]. simpl in *.
    rewrite blk_read_ok by (rewrite ?lenZ_dropZ by lia; lia).
    cbn [clift]. rewrite dropZ_0 in * by lia.
    rewrite blk_write_ok by (rewrite ?lenZ_zeros by lia; lia). cbn [clift].
    eexists. split; [done|].
    rewrite takeZ_0, app_nil_l by lia. autorewrite with len.
    rewrite lenZ_dropZ by (rewrite ?lenZ_zeros by lia; lia).
    rewrite lenZ_zeros by lia. split; [lia|]. apply takeZ_app_eq. lia.
Qed.

(** The allocations left after an append. *)
Definition expand_script (c : ydynabin_t) (n : Z) (s : alloc) : alloc :=
  if yd_free c <? n then snd (script_next true s) else s.

(** [ydynabin_expand] appends, when [expand_safe] holds. *)
Lemma expand_appends c d s :
  yd_wf c -> 0 < lenZ d < 2 ^ 60 -> expand_safe c (lenZ d) = true -> alloc_ok s ->
  exists c', ydynabin_expand c (Some d) (lenZ d) s = Done ((YENOERR, c'), expand_script c (lenZ d) s) /\
    yd_appended c c' d /\
    yd_len c' + yd_free c' =
      (if yd_free c <? lenZ d then yd_alloc (lenZ d) else yd_len c + yd_free c).
Proof.
  intros Hwf Hn Hsafe Hs. unfold ydynabin_expand, expand_script.
  rewrite (proj2 (Z.eqb_neq (lenZ d) 0)) by lia.
  assert (Hread : blk_read d 0 (lenZ d) = Done d).
  { rewrite blk_read_ok by lia. by rewrite dropZ_0, takeZ_all by lia. }
  destruct (yd_free c <? lenZ d) eqn:E.
  - apply Z.ltb_lt in E. unfold expand_safe in Hsafe.
    rewrite (proj2 (Z.leb_gt (lenZ d) (yd_free c))) in Hsafe by lia.
    apply Z.leb_le in Hsafe.
    destruct (grow_spec c (lenZ d) s Hwf Hn ltac:(lia) Hs) as (blk & Hg & Hl & Ht).
    cstep Hg. cbn [yd_data]. unfold cbind. rewrite Hread. cbn [clift yd_offset yd_len yd_free].
    pose proof (yd_alloc_bounds _ Hn).
    destruct (append_in_place blk (yd_len c) 0 (yd_alloc (lenZ d) - yd_len c) d)
      as (blk' & Hw & Ha); try (destruct Hwf; lia).
    rewrite Hw. cbn [clift cret]. eexists. split; [done|].
    destruct Ha as (?&Hc&?&?). split; [|simpl; destruct Hwf; rewrite !wrap_small by lia; lia].
    split; [done|]. split; [|done].
    rewrite Hc. f_equal. unfold yd_content at 1, yd_view. simpl. by rewrite dropZ_0 by lia.
  - apply Z.ltb_ge in E. unfold cret, cbind at 1.
    destruct c as [[blk|] len off fr]; destruct Hwf as (?&?&?&Hd); simpl in *; [|lia].
    unfold cbind. rewrite Hread. cbn [clift].
    destruct (append_in_place blk len off fr d) as (blk' & Hw & Ha); try lia.
    rewrite Hw. cbn [clift]. eexists. split; [done|]. split; [done|].
    simpl. rewrite !wrap_small by lia. lia.
Qed.

(** Outside [expand_safe] the append overflows the new block. *)
Lemma expand_overflows c d s :
  yd_wf c -> 0 < lenZ d < 2 ^ 60 -> expand_safe c (lenZ d) = false -> alloc_ok s ->
  ydynabin_expand c (Some d) (lenZ d) s = Fault HeapOverflow.
Proof.
  intros Hwf Hn Hsafe Hs. unfold expand_safe in Hsafe.
  apply orb_false_iff in Hsafe as [Hf%Z.leb_gt Ha%Z.leb_gt].
  unfold ydynabin_expand. rewrite (proj2 (Z.eqb_neq (lenZ d) 0)) by lia.
  rewrite (proj2 (Z.ltb_lt _ _) Hf).
  destruct (Z.le_gt_cases (yd_len c) (yd_alloc (lenZ d))) as [Hle|Hgt].
  - destruct (grow_spec c (lenZ d) s Hwf Hn Hle Hs) as (blk & Hg & Hl & Ht).
    cstep Hg. cbn [yd_data]. unfold cbind. rewrite blk_read_ok by lia. cbn [clift].
    rewrite dropZ_0, takeZ_all by lia.
    rewrite blk_write_oob by (simpl; lia). done.
  - pose proof (yd_alloc_bounds _ Hn). pose proof (yd_content_len c Hwf) as Hcl.
    unfold alloc_ok in Hs. unfold cbind, ydynabin_grow, cbind, ymalloc.
    destruct (script_next true s) as [ok s']. simpl in Hs. subst ok.
    fold (yd_alloc (lenZ d)).
    rewrite (proj2 (Z.eqb_neq (yd_len c) 0)) by lia.
    destruct Hwf as (?&?&?&Hd). unfold yd_content, yd_view in *.
    destruct (yd_data c) as [blk|]; [|lia]. simpl in *.
    rewrite blk_read_ok by (rewrite ?lenZ_dropZ by lia; lia). cbn [clift].
    rewrite blk_write_oob; [done|]. rewrite lenZ_zeros by lia.
    rewrite (dropZ_0 0) by lia. rewrite lenZ_takeZ by (rewrite lenZ_dropZ by lia; lia). lia.
Qed.

(** An append either succeeds, or fails cleanly because no block could be
    allocated, or overflows: which one is decided by [expand_safe] and by the
    allocator. *)
Lemma expand_no_memory c d s :
  0 < lenZ d -> yd_free c < lenZ d -> fst (script_next true s) = false ->
  ydynabin_expand c (Some d) (lenZ d) s = Done ((YENOMEM, c), snd (script_next true s)).
Proof.
  intros Hn Hf Hs. unfold ydynabin_expand.
  rewrite (proj2 (Z.eqb_neq (lenZ d) 0)), (proj2 (Z.ltb_lt _ _) Hf) by lia.
  unfold cbind, ydynabin_grow, cbind, ymalloc.
  destruct (script_next true s) as [ok s']. simpl in Hs. by subst ok.
Qed.

(** ** Properties *)

(** Appending to the receive buffer.  When [expand_safe] holds (the bytes
    fit in the free space, or the unread bytes and the new ones fit in a block
    sized for the new ones alone) the append keeps the buffer well formed and
    puts the bytes behind the unread ones; in every other case it writes past
    the end of the block it has just allocated. *)
Theorem ydynabin_expand_correct c d s :
  yd_wf c -> 0 < lenZ d < 2 ^ 60 -> alloc_ok s ->
  if expand_safe c (lenZ d)
  then exists c' s', ydynabin_expand c (Some d) (lenZ d) s = Done ((YENOERR, c'), s') /\
         yd_wf c' /\ yd_content c' = yd_content c ++ d
  else ydynabin_expand c (Some d) (lenZ d) s = Fault HeapOverflow.
Proof.
  intros Hwf Hn Hs. destruct (expand_safe c (lenZ d)) eqn:E.
  - destruct (expand_appends c d s Hwf Hn E Hs) as (c' & H & (? & ? & _) & _). eauto.
  - by apply expand_overflows.
Qed.
(** Four unread bytes in a full block of four. *)
Definition full_buffer : ydynabin_t :=
  {| yd_data := Some [1; 2; 3; 4]; yd_len := 4; yd_offset := 0; yd_free := 0 |}.
Lemma ydynabin_expand_correct_witness :
  (exists c' s', ydynabin_expand yd_empty (Some [7; 8]) 2 [] = Done ((YENOERR, c'), s') /\
     yd_content c' = [7; 8]) /\
  ydynabin_expand full_buffer (Some [5]) 1 [] = Fault HeapOverflow.
Proof.
  split.
  - destruct (ydynabin_expand_correct yd_empty [7; 8] [] yd_empty_wf
      ltac:(vm_compute; split; reflexivity) eq_refl) as (c' & s' & H & _ & Hc).
    exists c', s'. split; [exact H|exact Hc].
  - apply (ydynabin_expand_correct full_buffer [5] []); [|vm_compute; split; reflexivity|reflexivity].
    unfold yd_wf. vm_compute. intuition discriminate.
Defined.

(** Taking bytes from the front of the receive buffer: the returned
    pointer gives the next unread bytes and the rest stays; asking for more
    than there is changes nothing and returns null. *)
Theorem ydynabin_forward_correct c n :
  yd_wf c -> yd_data c <> None -> 0 <= n ->
  if n <=? yd_len c
  then exists v c', ydynabin_forward c n = (Some v, c') /\ yd_wf c' /\
         takeZ n v = takeZ n (yd_content c) /\ yd_content c' = dropZ n (yd_content c)
  else ydynabin_forward c n = (None, c).
Proof.
  intros Hwf Hd Hn. destruct (n <=? yd_len c) eqn:E.
  - apply Z.leb_le in E.
    destruct (forward_spec c n Hwf ltac:(lia) Hd) as (v & c' & H & ? & ? & ? & _). eauto 8.
  - apply Z.leb_gt in E. by apply forward_short.
Qed.
Lemma ydynabin_forward_correct_witness :
  exists v c', ydynabin_forward full_buffer 2 = (Some v, c') /\ takeZ 2 v = [1; 2] /\
    yd_content c' = [3; 4].
Proof.
  assert (Hwf : yd_wf full_buffer) by (unfold yd_wf; vm_compute; intuition discriminate).
  destruct (ydynabin_forward_correct full_buffer 2 Hwf ltac:(discriminate) ltac:(lia))
    as (v & c' & H & _ & Ht & Hc).
  exists v, c'. split; [exact H|]. split; [exact Ht|exact Hc].
Defined.
