(* ===== verification/Yvect.v ===== *)
(** * Yvect: the vectors of lib/ylib/yvect.c

    A vector is a block that holds a header ([total], [used]) and [total]
    cells; the elements are followed by a null pointer.  Elements are
    addresses, 0 is the null pointer.  Every access to a cell is checked
    against the bounds of the block; a null vector is [None]. *)
From S2P Require Import Prelude Dynabin.

Definition YVECT_SIZE_MEDIUM : Z := 256.
Definition YVECT_SIZE_DEFAULT : Z := 4096.
Definition YVECT_SIZE_BIG : Z := 65536.
Definition YVECT_SIZE_HUGE : Z := 1048576.

Record yvect := { yv_total : Z; yv_used : Z; yv_cells : list Z }.

(** ** Creation *)
Definition yv_create (size : Z) : CM alloc (option yvect) :=
  let! nv := ymalloc (size * 8 + 16) in
  match nv with
  | None => cret None
  | Some _ =>
      let! cells := clift (blk_write (zeros size) 0 [0]) in
      cret (Some {| yv_total := size; yv_used := 0; yv_cells := cells |})
  end.
Definition yv_new : CM alloc (option yvect) := yv_create YVECT_SIZE_DEFAULT.

(** The destructor is applied to the elements in order; the addresses it was
    applied to are returned. *)
Fixpoint yv_apply (n : nat) (i : Z) (v : list Z) : outcome (list Z) :=
  match n with
  | O => Done []
  | S n => olet! e := blk_read v i 1 in olet! r := yv_apply n (i + 1) v in Done (e ++ r)
  end.
Definition yv_del (v : option yvect) (f : bool) : outcome (list Z * option yvect) :=
  match v with
  | None => Done ([], None)
  | Some y =>
      olet! l := (if f then yv_apply (Z.to_nat (yv_used y)) 0 (yv_cells y) else Done []) in
      Done (l, None)
  end.

(** [yv_trunc] and [yv_setsz] take the first element, not the vector, for the
    place behind the header: there is no block at that address. *)
Definition yv_trunc (v : option yvect) : outcome (option yvect) :=
  match v with
  | None => Done None
  | Some y =>
      olet! e := blk_read (yv_cells y) 0 1 in
      if bool_decide (e = [0]) then Done v else Fault HeapOverflow
  end.
Definition yv_setsz (v : option yvect) (sz : Z) : outcome (Z * option yvect) :=
  match v with
  | None => Done (0, None)
  | Some y => olet! _ := blk_read (yv_cells y) 0 1 in Fault HeapOverflow
  end.

Definition yv_len (v : option yvect) : Z := match v with None => 0 | Some y => yv_used y end.

(** ** Growing *)
Definition yv_leap (vectsz : Z) : Z :=
  if vectsz <? YVECT_SIZE_BIG then YVECT_SIZE_DEFAULT
  else if vectsz <? YVECT_SIZE_HUGE then YVECT_SIZE_BIG else YVECT_SIZE_HUGE.
Definition yv_totalsz (vectsz : Z) : Z :=
  u32 (u32 (u32 (vectsz + 1) / yv_leap vectsz + 1) * yv_leap vectsz).

(** A new block for [vectsz] elements into which [parts] are written, each at
    its position; the old vector is released. *)
Definition yv_renew (vectsz : Z) (parts : list (Z * list Z)) (old : option yvect)
    : CM alloc (Z * option yvect) :=
  let totalsz := yv_totalsz vectsz in
  let! nv := ymalloc (totalsz * 8 + 16) in
  match nv with
  | None => cret (0, old)
  | Some _ =>
      let! cells := clift (write_parts parts (zeros totalsz)) in
      cret (1, Some {| yv_total := totalsz; yv_used := vectsz; yv_cells := cells |})
  end.
Definition yv_update (used : Z) (cells : list Z) (y : yvect) : option yvect :=
  Some {| yv_total := yv_total y; yv_used := used; yv_cells := cells |}.

Definition yv_cat (dest src : option yvect) : CM alloc (Z * option yvect) :=
  match dest, src with
  | Some y, Some s =>
      let srcsz := u32 (yv_used s) in
      if srcsz =? 0 then cret (1, dest)
      else
        let! d := clift (blk_read (yv_cells s) 0 (srcsz + 1)) in
        if yv_used y + 1 + srcsz <=? yv_total y then
          let! cells := clift (blk_write (yv_cells y) (yv_used y) d) in
          cret (1, yv_update (yv_used y + srcsz) cells y)
        else
          let! c := clift (blk_read (yv_cells y) 0 (yv_used y)) in
          yv_renew (u32 (yv_used y + srcsz)) [(0, c); (yv_used y, d)] dest
  | _, _ => cret (1, dest)
  end.

Definition yv_ncat (dest src : option yvect) (n : Z) : CM alloc (Z * option yvect) :=
  match dest, src with
  | Some y, Some s =>
      if n =? 0 then cret (1, dest)
      else
        let! d := clift (blk_read (yv_cells s) 0 n) in
        if yv_used y + 1 + n <=? yv_total y then
          let! cells := clift (write_parts [(yv_used y, d); (yv_used y + n, [0])] (yv_cells y)) in
          cret (1, yv_update (yv_used y + n) cells y)
        else
          let! c := clift (blk_read (yv_cells y) 0 (yv_used y)) in
          let vectsz := u32 (yv_used y + n) in
          yv_renew vectsz [(0, c); (yv_used y, d); (vectsz, [0])] dest
  | _, _ => cret (1, dest)
  end.

Definition yv_dup (v : option yvect) : CM alloc (option yvect) :=
  match v with
  | None => cret None
  | Some y =>
      let! nv := ymalloc (yv_total y * 8 + 16) in
      match nv with
      | None => cret None
      | Some _ =>
          let! d := clift (blk_read (yv_cells y) 0 (yv_used y + 1)) in
          let! cells := clift (blk_write (zeros (yv_total y)) 0 d) in
          cret (Some {| yv_total := yv_total y; yv_used := yv_used y; yv_cells := cells |})
      end
  end.
Definition yv_concat (v1 v2 : option yvect) : CM alloc (option yvect) :=
  let! nv := yv_dup v1 in
  let! r := yv_cat nv v2 in
  cret (snd r).

(** ** Single elements *)
Definition copy_cell (dst src : Z) (c : list Z) : outcome (list Z) :=
  olet! e := blk_read c src 1 in blk_write c dst e.
(** [for (i = k; i >= 0; --i) v[i + 1] = v[i]] *)
Fixpoint shift_right (k : nat) (c : list Z) : outcome (list Z) :=
  olet! c := copy_cell (Z.of_nat k + 1) (Z.of_nat k) c in
  match k with
  | O => Done c
  | S k => shift_right k c
  end.
(** [for (j = i; j < i + n; ++j) v[j] = v[j + 1]] *)
Fixpoint shift_left (n : nat) (i : Z) (c : list Z) : outcome (list Z) :=
  match n with
  | O => Done c
  | S n => olet! c := copy_cell i (i + 1) c in shift_left n (i + 1) c
  end.

Definition yv_put (v : option yvect) (e : Z) : CM alloc (Z * option yvect) :=
  match v with
  | None => cret (0, None)
  | Some y =>
      if yv_used y + 2 <=? yv_total y then
        let! c := clift (shift_right (Z.to_nat (yv_used y)) (yv_cells y)) in
        let! c := clift (blk_write c 0 [e]) in
        cret (1, yv_update (yv_used y + 1) c y)
      else
        let! c := clift (blk_read (yv_cells y) 0 (yv_used y + 1)) in
        yv_renew (u32 (yv_used y + 1)) [(0, [e]); (1, c)] v
  end.

Definition yv_ins (v : option yvect) (e i : Z) : outcome (Z * option yvect) :=
  match v with
  | None => Done (0, None)
  | Some y => yv_setsz v (yv_used y + 2)
  end.

Definition yv_add (v : option yvect) (e : Z) : CM alloc (Z * option yvect) :=
  match v with
  | None => cret (0, None)
  | Some y =>
      if yv_used y + 2 <=? yv_total y then
        let! c := clift (write_parts [(yv_used y, [e]); (yv_used y + 1, [0])] (yv_cells y)) in
        cret (1, yv_update (yv_used y + 1) c y)
      else
        let vectsz := u32 (yv_used y + 1) in
        let! c := clift (blk_read (yv_cells y) 0 (yv_used y)) in
        yv_renew vectsz [(0, c); (yv_used y, [e]); (vectsz, [0])] v
  end.

(** Removal: the element (null when there is none) and the vector. *)
Definition yv_ext (v : option yvect) (i : Z) : outcome (Z * option yvect) :=
  match v with
  | None => Done (0, None)
  | Some y =>
      if yv_used y <=? i then Done (0, v)
      else
        olet! res := blk_read (yv_cells y) i 1 in
        olet! c := shift_left (Z.to_nat (yv_used y - i)) i (yv_cells y) in
        Done (default 0 (head res), yv_update (yv_used y - 1) c y)
  end.
Definition yv_pop (v : option yvect) : outcome (Z * option yvect) :=
  match v with
  | None => Done (0, None)
  | Some y =>
      if yv_used y =? 0 then Done (0, v)
      else
        olet! res := blk_read (yv_cells y) 0 1 in
        olet! c := shift_left (Z.to_nat (yv_used y)) 0 (yv_cells y) in
        Done (default 0 (head res), yv_update (yv_used y - 1) c y)
  end.
Definition yv_get (v : option yvect) : outcome (Z * option yvect) :=
  match v with
  | None => Done (0, None)
  | Some y =>
      if yv_used y =? 0 then Done (0, v)
      else
        olet! res := blk_read (yv_cells y) (yv_used y - 1) 1 in
        olet! c := blk_write (yv_cells y) (yv_used y - 1) [0] in
        Done (default 0 (head res), yv_update (yv_used y - 1) c y)
  end.

(** ** Duplicates *)

(** The two inner loops of [yv_uniq], for the element at [i]: the position
    [j], the number of elements and the cells. *)
Fixpoint uniq_inner (fuel : nat) (i j used : Z) (c : list Z) : outcome (Z * list Z) :=
  if used <=? j then Done (used, c) else
  match fuel with
  | O => Fault OutOfFuel
  | S fuel =>
      olet! a := blk_read c i 1 in
      olet! b := blk_read c j 1 in
      if bool_decide (a = b) then
        olet! c := shift_left (Z.to_nat (used - 1 - (j + 1))) (j + 1) c in
        uniq_inner fuel i (j + 1) (used - 1) c
      else uniq_inner fuel i (j + 1) used c
  end.
Fixpoint uniq_outer (fuel : nat) (i used : Z) (c : list Z) : outcome (Z * list Z) :=
  if used <=? i then Done (used, c) else
  match fuel with
  | O => Fault OutOfFuel
  | S fuel =>
      olet! r := uniq_inner (Z.to_nat used) i (i + 1) used c in
      let '(used, c) := r in uniq_outer fuel (i + 1) used c
  end.
Definition yv_uniq (v : option yvect) : outcome (option yvect) :=
  match v with
  | None => Done None
  | Some y =>
      olet! r := uniq_outer (Z.to_nat (yv_used y)) 0 (yv_used y) (yv_cells y) in
      let '(used, c) := r in Done (yv_update used c y)
  end.

(** ** Search: [f] is the comparison function *)
Fixpoint search_loop (fuel : nat) (f : Z -> Z -> Z) (e : Z) (c : list Z) (o_start o_end : Z)
    : outcome Z :=
  match fuel with
  | O => Fault OutOfFuel
  | S fuel =>
      let at_ i := olet! x := blk_read c i 1 in Done (f e (default 0 (head x))) in
      let o_pivot := Z.quot (o_end + o_start) 2 in
      olet! cmp_res := at_ o_pivot in
      if cmp_res =? 0 then Done o_pivot
      else if cmp_res <? 0 then
        if o_pivot =? o_start + 1 then
          olet! r := at_ o_start in Done (if r =? 0 then o_start else -1)
        else search_loop fuel f e c o_start o_pivot
      else
        if o_pivot =? o_end - 1 then
          olet! r := at_ o_end in Done (if r =? 0 then o_end else -1)
        else search_loop fuel f e c o_pivot o_end
  end.
Definition yv_search (fuel : nat) (v : option yvect) (e : Z) (f : Z -> Z -> Z) : outcome Z :=
  match v with
  | None => Done (-1)
  | Some y => search_loop fuel f e (yv_cells y) 0 (yv_used y - 1)
  end.

(** ** Lemmas *)

(** [y] holds the elements [l], followed by a null pointer. *)
Record yv_wf (y : yvect) (l : list Z) : Prop := {
  yw_cells : exists rest, yv_cells y = l ++ 0 :: rest;
  yw_used : yv_used y = lenZ l;
  yw_total : yv_total y = lenZ (yv_cells y)
}.

Lemma copy_cell_up (a : list Z) x y c :
  copy_cell (lenZ a + 1) (lenZ a) (a ++ x :: y :: c) = Done (a ++ x :: x :: c).
Proof.
  unfold copy_cell. rewrite (blk_read_mid a [x] (y :: c)) by done. cbn [obind].
  replace (a ++ x :: y :: c) with ((a ++ [x]) ++ [y] ++ c) by (by rewrite <- app_assoc).
  replace (lenZ a + 1) with (lenZ (a ++ [x])) by lens. rewrite blk_write_mid by done.
  by rewrite <- app_assoc.
Qed.
Lemma copy_cell_down (a : list Z) x y c :
  copy_cell (lenZ a) (lenZ a + 1) (a ++ x :: y :: c) = Done (a ++ y :: y :: c).
Proof.
  unfold copy_cell.
  assert (Hr : blk_read (a ++ x :: y :: c) (lenZ a + 1) 1 = Done [y]).
  { replace (a ++ x :: y :: c) with ((a ++ [x]) ++ [y] ++ c) by (by rewrite <- app_assoc).
    replace (lenZ a + 1) with (lenZ (a ++ [x])) by lens. by apply blk_read_mid. }
  rewrite Hr. cbn [obind]. by apply (blk_write_mid a [x] (y :: c) [y]).
Qed.

Lemma shift_right_ok (l c : list Z) x z :
  shift_right (length l) (l ++ x :: z :: c) = Done (hd x l :: l ++ x :: c).
Proof.
  revert x z c. induction l as [|y l IH] using rev_ind; intros x z c.
  - pose proof (copy_cell_up [] x z c) as H. cbn [length shift_right].
    change (Z.of_nat 0) with (lenZ (@nil Z)). by rewrite H.
  - pose proof (copy_cell_up (l ++ [y]) x z c) as H.
    assert (Hl : length (l ++ [y]) = S (length l)) by (rewrite length_app; simpl; lia).
    unfold lenZ in H. rewrite Hl in H |- *. cbn [shift_right]. rewrite H. cbn [obind].
    rewrite <- !app_assoc. cbn [app]. rewrite IH. by destruct l.
Qed.
Lemma shift_left_ok (a b c : list Z) x :
  shift_left (length b) (lenZ a) (a ++ x :: b ++ c) = Done (a ++ b ++ List.last (x :: b) 0 :: c).
Proof.
  revert a x. induction b as [|y b IH]; intros a x; [done|]. cbn [length shift_left app].
  rewrite copy_cell_down. cbn [obind].
  replace (a ++ y :: y :: b ++ c) with ((a ++ [y]) ++ y :: b ++ c) by (by rewrite <- app_assoc).
  replace (lenZ a + 1) with (lenZ (a ++ [y])) by lens. rewrite IH.
  rewrite <- app_assoc. done.
Qed.

(** The block of a vector that grows is large enough. *)
Lemma yv_totalsz_enough v : 0 <= v < 2 ^ 31 -> v + 2 <= yv_totalsz v < 2 ^ 32.
Proof.
  intros Hv. unfold yv_totalsz.
  assert (Hl : 4096 <= yv_leap v <= 1048576).
  { unfold yv_leap, YVECT_SIZE_DEFAULT, YVECT_SIZE_BIG, YVECT_SIZE_HUGE.
    destruct (_ <? _); [lia|]. destruct (_ <? _); lia. }
  set (leap := yv_leap v) in *. rewrite (wrap_small 32 (v + 1)) by lia.
  pose proof (Z.div_mod (v + 1) leap ltac:(lia)) as Hd.
  pose proof (Z.mod_pos_bound (v + 1) leap ltac:(lia)) as Hm.
  assert (Hq : 0 <= (v + 1) / leap <= v + 1).
  { split; [apply Z.div_pos; lia|]. apply Z.div_le_upper_bound; nia. }
  rewrite (wrap_small 32 ((v + 1) / leap + 1)) by lia.
  rewrite wrap_small by nia. nia.
Qed.

Lemma zeros_split m n : 0 <= m <= n -> zeros n = zeros m ++ zeros (n - m).
Proof.
  intros H. unfold zeros. rewrite <- replicate_add. f_equal. lia.
Qed.
(** A fresh block, filled from its start with the bytes of a vector. *)
Lemma write_fresh (l : list Z) n :
  lenZ l + 1 <= n -> blk_write (zeros n) 0 l = Done (l ++ 0 :: zeros (n - lenZ l - 1)).
Proof.
  intros Hn. pose proof (lenZ_nonneg l).
  rewrite (zeros_split (lenZ l) n) by lia. rewrite (zeros_split 1 (n - lenZ l)) by lia.
  pose proof (blk_write_mid [] (zeros (lenZ l)) (zeros 1 ++ zeros (n - lenZ l - 1)) l) as H1.
  rewrite lenZ_zeros in H1 by lia. exact (H1 eq_refl).
Qed.
Lemma write_next (l d rest : list Z) :
  lenZ d <= lenZ rest -> blk_write (l ++ rest) (lenZ l) d = Done (l ++ d ++ dropZ (lenZ d) rest).
Proof.
  intros Hd. pose proof (lenZ_nonneg d). rewrite <- (takeZ_dropZ (lenZ d) rest) at 1.
  apply blk_write_mid. by rewrite lenZ_takeZ by lia.
Qed.

Definition alloc_fails (a : alloc) : Prop := fst (script_next true a) = false.

Lemma yv_renew_ok v parts old l a :
  0 <= v < 2 ^ 31 -> v = lenZ l ->
  (forall n, v + 2 <= n -> exists rest, write_parts parts (zeros n) = Done (l ++ 0 :: rest) /\
     lenZ (l ++ 0 :: rest) = n) ->
  exists r y' a', yv_renew v parts old a = Done ((r, y'), a') /\
    (r = 1 /\ (exists y, y' = Some y /\ yv_wf y l) \/ alloc_fails a /\ r = 0 /\ y' = old).
Proof.
  intros Hv Hl Hp. pose proof (yv_totalsz_enough v Hv) as Ht. unfold yv_renew, cbind at 1, ymalloc.
  unfold alloc_fails. destruct (script_next true a) as [[] a1].
  - destruct (Hp (yv_totalsz v) ltac:(lia)) as (rest & Hw & Hn). unfold clift, cbind. rewrite Hw.
    do 3 eexists. split; [done|]. left. split; [done|]. eexists. split; [done|].
    constructor; simpl; [by exists rest|done|by rewrite Hn].
  - do 3 eexists. split; [done|]. by right.
Qed.

(** The outcome of an operation that may need memory: the new elements, or a
    failure that leaves the vector as it was. *)
Definition grows_to (a : alloc) (y : yvect) (l' : list Z) (o : outcome (Z * option yvect * alloc)) : Prop :=
  exists r y' a', o = Done ((r, y'), a') /\
    (r = 1 /\ (exists y1, y' = Some y1 /\ yv_wf y1 l') \/ alloc_fails a /\ r = 0 /\ y' = Some y).

Lemma read_prefix (l c : list Z) n : n = lenZ l -> blk_read (l ++ c) 0 n = Done l.
Proof. intros ->. by apply (blk_read_mid [] l c). Qed.
Lemma yv_update_wf y l c rest :
  c = l ++ 0 :: rest -> lenZ c = yv_total y -> yv_wf {| yv_total := yv_total y; yv_used := lenZ l; yv_cells := c |} l.
Proof. intros -> Hl. constructor; simpl; [by exists rest|done|done]. Qed.

Lemma yv_add_ok y l e a :
  yv_wf y l -> lenZ l + 1 < 2 ^ 31 -> grows_to a y (l ++ [e]) (yv_add (Some y) e a).
Proof.
  intros [[rest Hc] Hu Ht] Hl. pose proof (lenZ_nonneg l). unfold yv_add. rewrite Hc, Hu in *.
  autorewrite with len in Ht. destruct (Z.leb_spec (lenZ l + 2) (yv_total y)) as [Hle|Hgt].
  - destruct rest as [|z rest]; [autorewrite with len in Ht; lia|]. unfold clift, cbind.
    cbn [write_parts]. pose proof (blk_write_mid l [0] (z :: rest) [e] eq_refl) as H1. cbn [app] in H1.
    rewrite H1. cbn [obind].
    replace (l ++ e :: z :: rest) with ((l ++ [e]) ++ [z] ++ rest) by (by rewrite <- app_assoc).
    replace (lenZ l + 1) with (lenZ (l ++ [e])) by lens. rewrite blk_write_mid by done. cbn [obind].
    do 3 eexists. split; [done|]. left. split; [done|]. eexists. split; [done|].
    eapply yv_update_wf; [done|]. lens.
  - rewrite (wrap_small 32 (lenZ l + 1)) by lia. unfold clift, cbind at 1. rewrite read_prefix by done.
    apply (yv_renew_ok _ _ _ (l ++ [e])); [lia|lens|]. intros n Hn. cbn [write_parts].
    rewrite write_fresh by lia. cbn [obind].
    pose proof (blk_write_mid l [0] (zeros (n - lenZ l - 1)) [e] eq_refl) as H1. cbn [app] in H1.
    rewrite H1. cbn [obind]. rewrite (zeros_cons (n - lenZ l - 1)) by lia.
    replace (l ++ e :: 0 :: zeros (n - lenZ l - 1 - 1)) with ((l ++ [e]) ++ [0] ++ zeros (n - lenZ l - 1 - 1))
      by (by rewrite <- app_assoc).
    replace (lenZ l + 1) with (lenZ (l ++ [e])) by lens. rewrite blk_write_mid by done. cbn [obind].
    eexists. split; [done|]. autorewrite with len. rewrite lenZ_zeros by lia. lia.
Qed.
Lemma yv_put_ok y l e a :
  yv_wf y l -> lenZ l + 1 < 2 ^ 31 -> grows_to a y (e :: l) (yv_put (Some y) e a).
Proof.
  intros [[rest Hc] Hu Ht] Hl. pose proof (lenZ_nonneg l). unfold yv_put. rewrite Hc, Hu in *.
  autorewrite with len in Ht. destruct (Z.leb_spec (lenZ l + 2) (yv_total y)) as [Hle|Hgt].
  - destruct rest as [|z rest]; [autorewrite with len in Ht; lia|]. unfold clift, cbind.
    unfold lenZ at 1. rewrite Nat2Z.id, shift_right_ok.
    pose proof (blk_write_mid [] [hd 0 l] (l ++ 0 :: rest) [e] eq_refl) as H1. cbn [app] in H1.
    change (lenZ []) with 0 in H1. rewrite H1.
    do 3 eexists. split; [done|]. left. split; [done|]. eexists. split; [done|].
    replace (lenZ l + 1) with (lenZ (e :: l)) by lens. eapply (yv_update_wf _ (e :: l)); [done|]. lens.
  - rewrite (wrap_small 32 (lenZ l + 1)) by lia. unfold clift, cbind at 1.
    replace (l ++ 0 :: rest) with ((l ++ [0]) ++ rest) by (by rewrite <- app_assoc).
    rewrite read_prefix by lens.
    apply (yv_renew_ok _ _ _ (e :: l)); [lia|lens|]. intros n Hn. cbn [write_parts].
    rewrite write_fresh by (autorewrite with len; lia). cbn [obind].
    pose proof (write_next [e] (l ++ [0]) (0 :: zeros (n - lenZ [e] - 1))) as H1.
    change (lenZ [e]) with 1 in *. cbn [app] in H1 |- *. rewrite H1.
    2: { autorewrite with len. rewrite lenZ_zeros by lia. lia. }
    cbn [obind]. eexists. rewrite <- app_assoc. split; [done|].
    autorewrite with len. rewrite lenZ_dropZ; autorewrite with len; rewrite lenZ_zeros by lia; lia.
Qed.
Lemma yv_cat_ok y l s k a :
  yv_wf y l -> yv_wf s k -> lenZ l + lenZ k < 2 ^ 31 ->
  grows_to a y (l ++ k) (yv_cat (Some y) (Some s) a).
Proof.
  intros Hy [[srest Hsc] Hsu Hst] Hl. pose proof Hy as [[rest Hc] Hu Ht].
  pose proof (lenZ_nonneg l). pose proof (lenZ_nonneg k). unfold yv_cat.
  rewrite Hsu, (wrap_small 32 (lenZ k)) by lia.
  destruct (Z.eqb_spec (lenZ k) 0) as [Hz|Hz].
  { apply lenZ_zero_nil in Hz as ->. rewrite app_nil_r. do 3 eexists. split; [done|]. left.
    split; [done|]. by exists y. }
  rewrite Hsc, Hc, Hu in *. unfold clift at 1, cbind at 1.
  replace (k ++ 0 :: srest) with ((k ++ [0]) ++ srest) by (by rewrite <- app_assoc).
  rewrite read_prefix by lens. autorewrite with len in Ht.
  destruct (Z.leb_spec (lenZ l + 1 + lenZ k) (yv_total y)) as [Hle|Hgt].
  - unfold clift, cbind. rewrite write_next by lens.
    do 3 eexists. split; [done|]. left. split; [done|]. eexists. split; [done|].
    replace (lenZ l + lenZ k) with (lenZ (l ++ k)) by lens.
    eapply yv_update_wf; [by rewrite <- !app_assoc|]. autorewrite with len.
    rewrite lenZ_dropZ; autorewrite with len; lia.
  - rewrite (wrap_small 32 (lenZ l + lenZ k)) by lia. unfold clift, cbind at 1.
    rewrite read_prefix by done.
    apply (yv_renew_ok _ _ _ (l ++ k)); [lia|lens|]. intros n Hn. cbn [write_parts].
    rewrite write_fresh by lia. cbn [obind]. rewrite write_next.
    2: { autorewrite with len. rewrite lenZ_zeros by lia. lia. }
    cbn [obind]. eexists. rewrite <- !app_assoc. split; [done|].
    autorewrite with len. rewrite lenZ_dropZ; autorewrite with len; rewrite lenZ_zeros by lia; lia.
Qed.

Lemma yv_ext_ok y (p q : list Z) x :
  yv_wf y (p ++ x :: q) ->
  exists y', yv_ext (Some y) (lenZ p) = Done (x, Some y') /\ yv_wf y' (p ++ q).
Proof.
  intros [[rest Hc] Hu Ht]. pose proof (lenZ_nonneg p). pose proof (lenZ_nonneg q).
  autorewrite with len in Hu. unfold yv_ext. rewrite (proj2 (Z.leb_gt _ _)) by lia.
  replace (yv_cells y) with (p ++ x :: (q ++ [0]) ++ rest) in *
    by (by rewrite Hc, <- !app_assoc).
  rewrite (blk_read_mid p [x] ((q ++ [0]) ++ rest)) by done. cbn [obind default head].
  replace (Z.to_nat (yv_used y - lenZ p)) with (length (q ++ [0]))
    by (rewrite length_app, Hu; unfold lenZ; simpl; lia).
  rewrite shift_left_ok. cbn [obind]. eexists. split; [done|].
  replace (yv_used y - 1) with (lenZ (p ++ q)) by lens.
  eapply yv_update_wf; [by rewrite <- !app_assoc|]. rewrite Ht. lens.
Qed.
Lemma yv_pop_ext y : yv_pop (Some y) = if yv_used y =? 0 then Done (0, Some y) else
  olet! res := blk_read (yv_cells y) 0 1 in
  olet! c := shift_left (Z.to_nat (yv_used y - 0)) 0 (yv_cells y) in
  Done (default 0 (head res), yv_update (yv_used y - 1) c y).
Proof. by rewrite Z.sub_0_r. Qed.
Lemma yv_pop_ok y x q :
  yv_wf y (x :: q) -> exists y', yv_pop (Some y) = Done (x, Some y') /\ yv_wf y' q.
Proof.
  intros Hw. destruct (yv_ext_ok y [] q x Hw) as (y' & He & Hw'). exists y'. split; [|done].
  rewrite yv_pop_ext. unfold yv_ext in He. change (lenZ []) with 0 in He.
  destruct Hw as [_ Hu _]. rewrite lenZ_cons in Hu. pose proof (lenZ_nonneg q).
  rewrite (proj2 (Z.leb_gt _ _)) in He by lia. by rewrite (proj2 (Z.eqb_neq _ 0)) by lia.
Qed.
Lemma yv_get_ok y p x :
  yv_wf y (p ++ [x]) -> exists y', yv_get (Some y) = Done (x, Some y') /\ yv_wf y' p.
Proof.
  intros [[rest Hc] Hu Ht]. pose proof (lenZ_nonneg p). autorewrite with len in Hu.
  unfold yv_get. rewrite (proj2 (Z.eqb_neq _ 0)) by lia.
  replace (yv_cells y) with (p ++ [x] ++ 0 :: rest) in * by (by rewrite Hc, <- app_assoc).
  replace (yv_used y - 1) with (lenZ p) by lia. rewrite blk_read_mid by done. cbn [obind default head].
  rewrite blk_write_mid by done. cbn [obind]. eexists. split; [done|].
  eapply yv_update_wf; [done|]. rewrite Ht. lens.
Qed.

(** ** The abstract sequence *)
Inductive yv_op := OpAdd (e : Z) | OpPut (e : Z) | OpPop | OpGet | OpExt (i : Z).
Definition yv_run (o : yv_op) (v : option yvect) : CM alloc (Z * option yvect) :=
  match o with
  | OpAdd e => yv_add v e
  | OpPut e => yv_put v e
  | OpPop => clift (yv_pop v)
  | OpGet => clift (yv_get v)
  | OpExt i => clift (yv_ext v i)
  end.
(** Result and new sequence. *)
Definition list_run (o : yv_op) (l : list Z) : Z * list Z :=
  match o with
  | OpAdd e => (1, l ++ [e])
  | OpPut e => (1, e :: l)
  | OpPop => (hd 0 l, tl l)
  | OpGet => (List.last l 0, removelast l)
  | OpExt i => (nth (Z.to_nat i) l 0, delete (Z.to_nat i) l)
  end.
Definition op_ok (o : yv_op) : Prop := match o with OpExt i => 0 <= i | _ => True end.

Lemma empty_used y : yv_wf y [] -> yv_used y = 0.
Proof. intros [_ Hu _]. done. Qed.

Lemma yv_run_ok o y l a :
  yv_wf y l -> lenZ l + 1 < 2 ^ 31 -> op_ok o ->
  exists r y' l' a', yv_run o (Some y) a = Done ((r, Some y'), a') /\ yv_wf y' l' /\
    ((r, l') = list_run o l \/ alloc_fails a /\ r = 0 /\ l' = l).
Proof.
  intros Hw Hl Ho. destruct o as [e|e| | |i]; cbn [yv_run list_run].
  - destruct (yv_add_ok y l e a Hw Hl) as (r & y' & a' & -> & [(-> & y1 & -> & Hw')|(Hf & -> & ->)]).
    + exists 1, y1, (l ++ [e]), a'. auto 10.
    + exists 0, y, l, a'. auto 10.
  - destruct (yv_put_ok y l e a Hw Hl) as (r & y' & a' & -> & [(-> & y1 & -> & Hw')|(Hf & -> & ->)]).
    + exists 1, y1, (e :: l), a'. auto 10.
    + exists 0, y, l, a'. auto 10.
  - destruct l as [|x q].
    + exists 0, y, [], a. unfold clift, yv_pop. rewrite (empty_used y Hw). auto 10.
    + destruct (yv_pop_ok y x q Hw) as (y' & Hp & Hw'). unfold clift. rewrite Hp.
      exists x, y', q, a. auto 10.
  - destruct l as [|x p _] using rev_ind.
    + exists 0, y, [], a. unfold clift, yv_get. rewrite (empty_used y Hw). auto 10.
    + destruct (yv_get_ok y p x Hw) as (y' & Hp & Hw'). unfold clift. rewrite Hp.
      exists x, y', p, a. rewrite last_last, removelast_last. split; [done|]. split; [done|]. by left.
  - simpl in Ho. destruct (Z.lt_ge_cases i (lenZ l)) as [Hi|Hi].
    + destruct (lookup_lt_is_Some_2 l (Z.to_nat i)) as [x Hx]; [unfold lenZ in Hi; lia|].
      assert (Hn : lenZ (take (Z.to_nat i) l) = i).
      { unfold lenZ in *. rewrite length_take. lia. }
      rewrite <- (take_drop_middle l (Z.to_nat i) x Hx) in Hw.
      destruct (yv_ext_ok y _ _ x Hw) as (y' & He & Hw'). rewrite Hn in He. unfold clift. rewrite He.
      exists x, y', (delete (Z.to_nat i) l), a. split; [done|]. rewrite delete_take_drop.
      split; [done|]. left. f_equal. rewrite nth_lookup, Hx. done.
    + exists 0, y, l, a. unfold clift, yv_ext. destruct Hw as [? Hu ?] eqn:E.
      rewrite Hu, (proj2 (Z.leb_le _ _)) by lia. split; [done|]. split; [done|]. left.
      unfold lenZ in Hi. rewrite nth_overflow by lia.
      rewrite delete_take_drop, take_ge, drop_ge, app_nil_r by lia. done.
Qed.

(** ** Properties *)

(** Vectors are sequences.  Adding at either end and removing from either
    end or from the middle act on the elements as the list operations do and
    return what they return, stay inside the block, and keep the elements
    followed by a null pointer; when memory is short an addition reports 0
    and changes nothing. *)
Theorem yvect_refines_list o y l a :
  yv_wf y l -> lenZ l + 1 < 2 ^ 31 -> op_ok o ->
  exists r y' l' a', yv_run o (Some y) a = Done ((r, Some y'), a') /\ yv_wf y' l' /\
    ((r, l') = list_run o l \/ alloc_fails a /\ r = 0 /\ l' = l).
Proof. apply yv_run_ok. Qed.
Definition demo_vect (l : list Z) : yvect :=
  {| yv_total := lenZ l + 3; yv_used := lenZ l; yv_cells := l ++ [0; 0; 0] |}.
Lemma demo_vect_wf l : yv_wf (demo_vect l) l.
Proof. constructor; simpl; [by exists [0; 0]|done|lens]. Qed.
Lemma yvect_refines_list_witness :
  exists r y' l' a', yv_run (OpExt 1) (Some (demo_vect [7; 8; 9])) [] = Done ((r, Some y'), a') /\
    yv_wf y' l' /\ ((r, l') = list_run (OpExt 1) [7; 8; 9] \/ alloc_fails [] /\ r = 0 /\ l' = [7; 8; 9]).
Proof.
  apply (yvect_refines_list (OpExt 1) (demo_vect [7; 8; 9]) [7; 8; 9] [] (demo_vect_wf [7; 8; 9])).
  - reflexivity.
  - simpl. lia.
Defined.

(** Concatenation appends the elements of the second vector, in place or
    in a new block that is always large enough. *)
Theorem yv_cat_appends y l s k a :
  yv_wf y l -> yv_wf s k -> lenZ l + lenZ k < 2 ^ 31 ->
  exists r y' a', yv_cat (Some y) (Some s) a = Done ((r, y'), a') /\
    (r = 1 /\ (exists y1, y' = Some y1 /\ yv_wf y1 (l ++ k)) \/ alloc_fails a /\ r = 0 /\ y' = Some y).
Proof. apply yv_cat_ok. Qed.
Lemma yv_cat_appends_witness :
  exists r y' a', yv_cat (Some (demo_vect [7; 8])) (Some (demo_vect [9; 10; 11])) [] = Done ((r, y'), a') /\
    (r = 1 /\ (exists y1, y' = Some y1 /\ yv_wf y1 ([7; 8] ++ [9; 10; 11])) \/
     alloc_fails [] /\ r = 0 /\ y' = Some (demo_vect [7; 8])).
Proof.
  apply (yv_cat_appends (demo_vect [7; 8]) [7; 8] (demo_vect [9; 10; 11]) [9; 10; 11] []
    (demo_vect_wf _) (demo_vect_wf _)). reflexivity.
Defined.

(** ** Binary search *)
Section search.
Context (f : Z -> Z -> Z) (e : Z) (l rest : list Z).
(** The outcome of the comparison of the wanted element with element [i]. *)
Let key (i : Z) : Z := f e (default 0 (l !! Z.to_nat i)).
(** The order of the vector: [e] is after a first part, equal to a second
    part and before a third one. *)
Hypothesis sorted : forall i j, 0 <= i <= j -> j < lenZ l ->
  (key i < 0 -> key j < 0) /\ (0 < key j -> 0 < key i).

Lemma search_at i : 0 <= i < lenZ l ->
  (olet! x := blk_read (l ++ rest) i 1 in Done (f e (default 0 (head x)))) = Done (key i).
Proof.
  intros Hi. rewrite blk_read_ok by lens. cbn [obind]. do 3 f_equal. unfold takeZ, dropZ.
  rewrite head_lookup, lookup_take_lt, lookup_drop, Nat.add_0_r by lia.
  rewrite lookup_app_l by (unfold lenZ in Hi; lia). done.
Qed.

Definition search_result (r : Z) : Prop :=
  (0 <= r < lenZ l /\ key r = 0) \/
  (r = -1 /\ forall i, 0 <= i < lenZ l -> key i <> 0).

(** Two neighbours that enclose the place of [e]. *)
Lemma search_none s : 0 <= s -> s + 1 < lenZ l -> key s <> 0 -> key (s + 1) <> 0 ->
  (s = 0 \/ 0 < key s) -> (s + 1 = lenZ l - 1 \/ key (s + 1) < 0) ->
  forall i, 0 <= i < lenZ l -> key i <> 0.
Proof.
  intros Hs Hl H0 H1 Ha Hb i Hi. destruct (Z.le_gt_cases i s) as [Hc|Hc].
  - destruct Ha as [->|Ha]; [by replace i with 0 by lia|]. pose proof (sorted i s ltac:(lia) ltac:(lia)). lia.
  - destruct Hb as [Hb|Hb]; [by replace i with (s + 1) by lia|].
    pose proof (sorted (s + 1) i ltac:(lia) ltac:(lia)). lia.
Qed.

Lemma search_loop_ok fuel s t :
  0 <= s -> s < t < lenZ l -> (s = 0 -> 2 <= t) ->
  (s = 0 \/ 0 < key s) -> (t = lenZ l - 1 \/ key t < 0) -> (Z.to_nat (t - s) < fuel)%nat ->
  exists r, search_loop fuel f e (l ++ rest) s t = Done r /\ search_result r.
Proof.
  revert s t. induction fuel as [|fuel IH]; intros s t Hs Ht H2 Ha Hb Hf; [lia|].
  cbn [search_loop]. rewrite Z.quot_div_nonneg by lia. set (p := (t + s) / 2).
  assert (Hp : s <= p < t /\ (p = s -> t = s + 1)).
  { pose proof (Z.div_mod (t + s) 2). pose proof (Z.mod_pos_bound (t + s) 2). lia. }
  rewrite search_at by lia. cbn [obind].
  destruct (Z.eqb_spec (key p) 0) as [H0|H0].
  { exists p. split; [done|]. left. lia. }
  destruct (Z.ltb_spec (key p) 0) as [Hn|Hn].
  - assert (p <> s) by (intros ->; lia). destruct (Z.eqb_spec p (s + 1)) as [E|E].
    + rewrite search_at by lia. cbn [obind]. eexists. split; [done|].
      destruct (Z.eqb_spec (key s) 0); [left; lia|right]. rewrite E in *.
      split; [done|]. apply (search_none s); (done || lia).
    + apply IH; lia.
  - destruct (Z.eqb_spec p (t - 1)) as [E|E].
    + rewrite search_at by lia. cbn [obind]. eexists. split; [done|].
      destruct (Z.eqb_spec (key t) 0); [left; lia|right].
      split; [done|]. apply (search_none p); replace (p + 1) with t by lia; (done || lia).
    + apply IH; lia.
Qed.
End search.

(** Binary search.  In a sorted vector of at least three elements
    [yv_search] ends after at most as many turns as there are elements, reads
    only elements of the vector, and returns the position of an element that
    compares equal, or -1 when there is none. *)
Theorem yv_search_correct f e y l fuel :
  yv_wf y l -> 3 <= lenZ l -> 2 * lenZ l < 2 ^ 31 -> (length l <= fuel)%nat ->
  (forall i j, 0 <= i <= j -> j < lenZ l ->
    (f e (default 0 (l !! Z.to_nat i)) < 0 -> f e (default 0 (l !! Z.to_nat j)) < 0) /\
    (0 < f e (default 0 (l !! Z.to_nat j)) -> 0 < f e (default 0 (l !! Z.to_nat i)))) ->
  exists r, yv_search fuel (Some y) e f = Done r /\
    ((0 <= r < lenZ l /\ f e (default 0 (l !! Z.to_nat r)) = 0) \/
     (r = -1 /\ forall i, 0 <= i < lenZ l -> f e (default 0 (l !! Z.to_nat i)) <> 0)).
Proof.
  intros [[rest Hc] Hu _] H3 _ Hf Hs. unfold yv_search. rewrite Hc, Hu.
  apply search_loop_ok; [done|lia|unfold lenZ in *; lia..].
Qed.
Lemma yv_search_correct_witness :
  exists r, yv_search 4 (Some (demo_vect [2; 4; 6; 8])) 8 (fun a b => a - b) = Done r /\
    ((0 <= r < 4 /\ 8 - default 0 ([2; 4; 6; 8] !! Z.to_nat r) = 0) \/
     (r = -1 /\ forall i, 0 <= i < 4 -> 8 - default 0 ([2; 4; 6; 8] !! Z.to_nat i) <> 0)).
Proof.
  apply (yv_search_correct (fun a b => a - b) 8 (demo_vect [2; 4; 6; 8]) [2; 4; 6; 8] 4 (demo_vect_wf _));
    [vm_compute; congruence|reflexivity|simpl; lia|].
  intros i j Hij Hj. change (lenZ [2; 4; 6; 8]) with 4 in Hj.
  assert (Ei : i = 0 \/ i = 1 \/ i = 2 \/ i = 3) by lia. assert (Ej : j = 0 \/ j = 1 \/ j = 2 \/ j = 3) by lia.
  destruct Ei as [->|[->|[->| ->]]], Ej as [->|[->|[->| ->]]]; simpl; lia.
Defined.

(** Searching a vector of one element for anything else never ends. *)
Theorem yv_search_diverges fuel y x e f :
  yv_wf y [x] -> f e x <> 0 -> yv_search fuel (Some y) e f = Fault OutOfFuel.
Proof.
  intros [[rest Hc] Hu _] Hf. unfold yv_search. rewrite Hc, Hu.
  change (lenZ [x] - 1) with 0. induction fuel as [|fuel IH]; [done|]. cbn [search_loop].
  change (Z.quot (0 + 0) 2) with 0. rewrite search_at by (split; [done|reflexivity]). cbn [obind].
  change (default 0 ([x] !! Z.to_nat 0)) with x.
  rewrite (proj2 (Z.eqb_neq _ 0)) by done. by destruct (f e x <? 0).
Qed.
Lemma yv_search_diverges_witness :
  yv_search 1000 (Some (demo_vect [5])) 7 (fun a b => a - b) = Fault OutOfFuel.
Proof.
  apply (yv_search_diverges 1000 (demo_vect [5]) 5 7 (fun a b => a - b) (demo_vect_wf _)). discriminate.
Defined.

(** [yv_uniq] does not remove duplicates: it shortens the vector, but
    starts moving the elements one position too far.  Of 1, 1, 2 it keeps
    both copies of 1 and loses the 2. *)
Example yv_uniq_keeps_duplicates :
  exists y, yv_uniq (Some (demo_vect [1; 1; 2])) = Done (Some y) /\
    takeZ (yv_used y) (yv_cells y) = [1; 1].
Proof. eexists. split; vm_compute; reflexivity. Qed.
