(* ===== verification/Ystr.v ===== *)
(** * Ystr: the strings of lib/ylib/ystr.c

    A ystring is a block that holds a header ([total], [used]) and [total]
    bytes, the text and its NUL; the pointer that is passed around is the one
    to the text.  A null ystring is [None].  A plain [char*] argument is the
    list of the bytes from the pointer to the end of its block ([Cstring.v]),
    [None] when it is null.  A function that may move its string takes the
    value of [*dest] and returns it with the function's result.

    The operations are specified by the functions on byte lists of the last
    part: a ystring that holds a text holds, after each operation, the text
    the list function gives ([ystr_operations_refine]), and the two functions on XML
    entities are inverses of each other in the direction that matters
    ([xmlentity_roundtrip]). *)
From Stdlib Require Import String.
From S2P Require Import Prelude.
From S2P Require Import Cstring.
From S2P Require Import Dynabin.
From S2P Require Import Yvect.

Definition YSTR_SIZE : Z := 4096.
Definition YSTR_SIZE_BIG : Z := 65536.
Definition YSTR_SIZE_HUGE : Z := 1048576.

Record ystr := { ys_total : Z; ys_used : Z; ys_blk : bytes }.

(** ** Creation *)

(** The text of a [char*] argument that may be null. *)
Definition text_of (s : option bytes) : outcome bytes :=
  match s with
  | None => Done []
  | Some pt => c_string pt
  end.
Definition ys_leap (sz : Z) : Z :=
  if sz <? YSTR_SIZE_BIG then YSTR_SIZE
  else if sz <? YSTR_SIZE_HUGE then YSTR_SIZE_BIG else YSTR_SIZE_HUGE.
(** [((need / leap) + 1) * leap] *)
Definition ys_round (need leap : Z) : Z := u32 (u32 (u32 need / leap + 1) * leap).

(** A new block with its header, into which [parts] are written. *)
Definition ys_block (totalsz used : Z) (parts : list (Z * bytes)) : CM alloc (option ystr) :=
  let! p := ymalloc (totalsz + 8) in
  match p with
  | None => cret None
  | Some _ =>
      let! blk := clift (write_parts parts (zeros totalsz)) in
      cret (Some {| ys_total := totalsz; ys_used := used; ys_blk := blk |})
  end.

Definition ys_new (s : option bytes) : CM alloc (option ystr) :=
  let! w := clift (text_of s) in
  let strsz := u32 (lenZ w) in
  let totalsz := if strsz <? YSTR_SIZE then YSTR_SIZE else ys_round (strsz + 1) (ys_leap strsz) in
  ys_block totalsz strsz [(0, if strsz =? 0 then [0] else w ++ [0])].

Definition ys_copy (s : option bytes) : CM alloc (option ystr) :=
  let! w := clift (text_of s) in
  let strsz := u32 (lenZ w) in
  ys_block (u32 (strsz + 1)) strsz [(0, if strsz =? 0 then [0] else w ++ [0])].

Definition ys_update (used : Z) (blk : bytes) (y : ystr) : ystr :=
  {| ys_total := ys_total y; ys_used := u32 used; ys_blk := blk |}.

(** What is left at the place that held the pointer. *)
Definition ys_del (s : option ystr) : option ystr := None.

Definition ys_trunc (s : option ystr) : outcome (option ystr) :=
  match s with
  | None => Done None
  | Some y => olet! blk := blk_write (ys_blk y) 0 [0] in Done (Some (ys_update 0 blk y))
  end.

Definition ys_len (s : option ystr) : Z := match s with None => 0 | Some y => ys_used y end.

(** [memcpy] takes its bytes from the place [s] points to, which holds the
    pointer, and not from the text: [ptr] are the bytes of that place. *)
Definition ys_setsz (ptr : bytes) (s : option ystr) (sz : Z) : CM alloc (Z * option ystr) :=
  match s with
  | None => cfault NullDeref
  | Some y =>
      if sz <=? ys_total y then cret (1, s)
      else
        let! d := clift (blk_read ptr 0 (u32 (ys_used y + 1))) in
        let! ns := ys_block (ys_round (sz + 1) (ys_leap sz)) (ys_used y) [(0, d)] in
        cret (match ns with None => (0, s) | Some _ => (1, ns) end)
  end.

(** ** Concatenation *)

(** The end of the functions that move the string to a larger block. *)
Definition ys_renew (strsz : Z) (parts : list (Z * bytes)) (old : option ystr)
    : CM alloc (Z * option ystr) :=
  let! ns := ys_block (ys_round (strsz + 1) (ys_leap strsz)) strsz parts in
  cret (match ns with None => (0, old) | Some _ => (1, ns) end).

Definition ys_cat (dest : option ystr) (src : option bytes) : CM alloc (Z * option ystr) :=
  let! w := clift (text_of src) in
  let srcsz := u32 (lenZ w) in
  if srcsz =? 0 then cret (1, dest)
  else match dest with
  | None => let! n := ys_new src in cret (1, n)
  | Some y =>
      let! d := clift (blk_read (default [] src) 0 (u32 (srcsz + 1))) in
      if u32 (ys_used y + 1 + srcsz) <=? ys_total y then
        let! blk := clift (blk_write (ys_blk y) (ys_used y) d) in
        cret (1, Some (ys_update (ys_used y + srcsz) blk y))
      else
        let! c := clift (blk_read (ys_blk y) 0 (ys_used y)) in
        ys_renew (u32 (ys_used y + srcsz)) [(0, c); (ys_used y, d)] dest
  end.

(** [for (pt1 = s + k, pt2 = pt1 + n; pt1 >= s; --pt1, --pt2) *pt2 = *pt1] *)
Fixpoint move_up (k : nat) (n : Z) (blk : bytes) : outcome bytes :=
  olet! blk := copy_cell (Z.of_nat k + n) (Z.of_nat k) blk in
  match k with
  | O => Done blk
  | S k => move_up k n blk
  end.

(** The common end of [ys_tac] and [ys_ntac]: [n] bytes at [src] come first. *)
Definition ys_prepend (y : ystr) (src : option bytes) (n : Z) : CM alloc (Z * option ystr) :=
  let! d := clift (blk_read (default [] src) 0 n) in
  if u32 (ys_used y + 1 + n) <=? ys_total y then
    let! blk := clift (move_up (Z.to_nat (ys_used y)) n (ys_blk y)) in
    let! blk := clift (blk_write blk 0 d) in
    cret (1, Some (ys_update (ys_used y + n) blk y))
  else
    let! c := clift (blk_read (ys_blk y) 0 (u32 (ys_used y + 1))) in
    ys_renew (u32 (ys_used y + n)) [(0, d); (n, c)] (Some y).

Definition ys_tac (dest : option ystr) (src : option bytes) : CM alloc (Z * option ystr) :=
  let! w := clift (text_of src) in
  let srcsz := u32 (lenZ w) in
  if srcsz =? 0 then cret (1, dest)
  else match dest with
  | None => let! n := ys_new src in cret (1, n)
  | Some y => ys_prepend y src srcsz
  end.

(** [strncpy]: the bytes it writes, the text cut or filled up with NULs *)
Fixpoint strncpy (n : nat) (src : bytes) : outcome bytes :=
  match n with
  | O => Done []
  | S n =>
      olet! b := deref src in
      if b =? 0 then Done (replicate (S n) 0)
      else olet! r := strncpy n (tl src) in Done (b :: r)
  end.

Definition ys_ncat (dest : option ystr) (src : option bytes) (n : Z) : CM alloc (Z * option ystr) :=
  match src with
  | None => cret (1, dest)
  | Some pt =>
      if n =? 0 then cret (1, dest)
      else match dest with
      | None => let! r := ys_new src in cret (1, r)
      | Some y =>
          let! d := clift (strncpy (Z.to_nat n) pt) in
          if u32 (ys_used y + 1 + n) <=? ys_total y then
            let! blk := clift (write_parts [(ys_used y, d); (u32 (ys_used y + n), [0])] (ys_blk y)) in
            cret (1, Some (ys_update (ys_used y + n) blk y))
          else
            let strsz := u32 (ys_used y + n) in
            let! c := clift (c_string (ys_blk y)) in
            ys_renew strsz [(0, c ++ [0]); (ys_used y, d); (strsz, [0])] dest
      end
  end.

Definition ys_ntac (dest : option ystr) (src : option bytes) (n : Z) : CM alloc (Z * option ystr) :=
  match src with
  | None => cret (1, dest)
  | Some pt =>
      if n =? 0 then cret (1, dest)
      else match dest with
      | None => let! r := ys_new src in cret (1, r)
      | Some y =>
          let! w := clift (c_string pt) in
          let n := if lenZ w <? n then u32 (lenZ w) else n in
          ys_prepend y src n
      end
  end.

(** ** Copies *)
Definition ys_dup (s : option ystr) : CM alloc (option ystr) :=
  match s with
  | None => ys_new (Some [0])
  | Some y =>
      let! d := clift (blk_read (ys_blk y) 0 (ys_used y)) in
      ys_block (ys_total y) (ys_used y) [(0, d); (ys_used y, [0])]
  end.

(** The block of the plain string. *)
Definition ys_string (s : option ystr) : CM alloc (option bytes) :=
  match s with
  | None => cret None
  | Some y =>
      let! p := ymalloc (u32 (ys_used y + 1)) in
      match p with
      | None => cret None
      | Some res =>
          let! d := clift (blk_read (ys_blk y) 0 (u32 (ys_used y + 1))) in
          let! res := clift (blk_write res 0 d) in
          cret (Some res)
      end
  end.

Definition ys_concat (s1 s2 : option bytes) : CM alloc (option ystr) :=
  let! ns := ys_new s1 in
  let! r := ys_cat ns s2 in
  cret (snd r).

(** ** Blanks *)
Definition blank (b : Z) : bool := (b =? 32) || (b =? 9) || (b =? 10) || (b =? 13).

(** The number of blanks in front of [pt]. *)
Fixpoint ltrim_scan (pt : bytes) : outcome Z :=
  olet! b := deref pt in
  if blank b then
    match pt with
    | [] => Fault HeapOverflow
    | _ :: pt => olet! n := ltrim_scan pt in Done (n + 1)
    end
  else Done 0.
(** [for (; *pt; ++pt, ++s) *s = *pt; *s = 0], [s] at [i] and [pt] at [j] *)
Fixpoint ltrim_copy (fuel : nat) (i j : Z) (blk : bytes) : outcome bytes :=
  match fuel with
  | O => Fault OutOfFuel
  | S fuel =>
      olet! c := blk_read blk j 1 in
      if bool_decide (c = [0]) then blk_write blk i [0]
      else olet! blk := blk_write blk i c in ltrim_copy fuel (i + 1) (j + 1) blk
  end.
Definition ys_ltrim (y : ystr) : outcome ystr :=
  olet! n := ltrim_scan (ys_blk y) in
  if n =? 0 then Done y
  else
    olet! blk := ltrim_copy (S (length (ys_blk y))) 0 n (ys_blk y) in
    Done (ys_update (ys_used y - n) blk y).

(** The byte at [s + i]; the one in front of the text is the last byte of the
    header. *)
Definition ys_at (y : ystr) (i : Z) : outcome Z :=
  if i =? -1 then Done (ys_used y / 2 ^ 24)
  else olet! c := blk_read (ys_blk y) i 1 in deref c.
(** From [pt] at [k - 1] downwards; [used] is the header's. *)
Fixpoint rtrim_loop (k : nat) (used initsz : Z) (y : ystr) : outcome ystr :=
  olet! b := ys_at y (Z.of_nat k - 1) in
  if blank b then
    match k with
    | O => Fault HeapOverflow
    | S O => olet! blk := blk_write (ys_blk y) 0 [0] in Done (ys_update 0 blk y)
    | S k => rtrim_loop k (used - 1) initsz y
    end
  else if initsz =? used then Done y
  else olet! blk := blk_write (ys_blk y) (Z.of_nat k) [0] in Done (ys_update used blk y).
Definition ys_rtrim (y : ystr) : outcome ystr :=
  rtrim_loop (Z.to_nat (ys_used y)) (ys_used y) (ys_used y) y.
Definition ys_trim (y : ystr) : outcome ystr :=
  olet! y := ys_ltrim y in ys_rtrim y.

(** ** Single characters *)
Definition ys_lshift (s : option ystr) : outcome (Z * option ystr) :=
  match s with
  | None => Done (0, None)
  | Some y =>
      olet! c := deref (ys_blk y) in
      if c =? 0 then Done (0, s)
      else
        olet! blk := blk_write (ys_blk y) 0 [32] in
        olet! y := ys_ltrim (ys_update (ys_used y) blk y) in
        Done (c, Some y)
  end.
Definition ys_rshift (s : option ystr) : outcome (Z * option ystr) :=
  match s with
  | None => Done (0, None)
  | Some y =>
      olet! c := deref (ys_blk y) in
      if c =? 0 then Done (0, s)
      else
        olet! c := ys_at y (ys_used y - 1) in
        olet! blk := blk_write (ys_blk y) (ys_used y - 1) [0] in
        Done (c, Some (ys_update (ys_used y - 1) blk y))
  end.

Definition ys_putc (s : option ystr) (c : Z) : CM alloc (Z * option ystr) :=
  if c =? 0 then cret (1, s)
  else match s with
  | None => let! n := ys_new (Some [c; 0]) in cret (1, n)
  | Some y =>
      if u32 (ys_used y + 2) <=? ys_total y then
        let! blk := clift (move_up (Z.to_nat (ys_used y)) 1 (ys_blk y)) in
        let! blk := clift (blk_write blk 0 [c]) in
        cret (1, Some (ys_update (ys_used y + 1) blk y))
      else
        let! d := clift (blk_read (ys_blk y) 0 (u32 (ys_used y + 1))) in
        let! ns := ys_block (ys_round (ys_used y + 2) (ys_leap (ys_used y)))
                     (u32 (ys_used y + 1)) [(0, [c]); (1, d)] in
        cret (match ns with None => (0, s) | Some _ => (1, ns) end)
  end.
Definition ys_addc (s : option ystr) (c : Z) : CM alloc (Z * option ystr) :=
  ys_cat s (Some [c; 0]).

(** [for (; *s; ++s)], [f] being what the body does to a character *)
Fixpoint each_char (f : Z -> Z) (s : bytes) : outcome bytes :=
  match s with
  | [] => Fault HeapOverflow
  | b :: s' => if b =? 0 then Done s else olet! r := each_char f s' in Done (f b :: r)
  end.
Definition ys_upcase (s : option bytes) : outcome (option bytes) :=
  match s with
  | None => Done None
  | Some s =>
      olet! r := each_char (fun b => if (97 <=? b) && (b <=? 122) then 65 + (b - 97) else b) s in
      Done (Some r)
  end.
Definition ys_lowcase (s : option bytes) : outcome (option bytes) :=
  match s with
  | None => Done None
  | Some s =>
      olet! r := each_char (fun b => if (65 <=? b) && (b <=? 90) then 97 + (b - 65) else b) s in
      Done (Some r)
  end.

(** ** Formatting: [fmt] is the text the format and its arguments stand for,
    [None] when [vsnprintf] fails *)
Definition snprintf_bytes (sz : Z) (w : bytes) : bytes :=
  if sz =? 0 then [] else takeZ (sz - 1) w ++ [0].
Definition ys_printf (s : option ystr) (fmt : option bytes) : CM alloc (Z * option ystr) :=
  match s with
  | None => cfault NullDeref
  | Some y =>
      let! p := ymalloc (ys_total y + 8) in
      match p, fmt with
      | None, _ | _, None => cret (0, s)
      | Some _, Some w =>
          let! blk := clift (blk_write (zeros (ys_total y)) 0 (snprintf_bytes (ys_total y) w)) in
          cret (1, Some {| ys_total := ys_total y; ys_used := lenZ w; ys_blk := blk |})
      end
  end.
Definition ys_vprintf (s : option ystr) (fmt : option bytes) : outcome (Z * option ystr) :=
  match s with
  | None => Fault NullDeref
  | Some y =>
      match fmt with
      | None => olet! blk := blk_write (ys_blk y) 0 [0] in Done (0, Some (ys_update 0 blk y))
      | Some w =>
          olet! blk := blk_write (ys_blk y) 0 (snprintf_bytes (ys_total y) w) in
          Done (1, Some (ys_update 1 blk y))
      end
  end.

(** ** Conversions *)

(** The two characters [snprintf(h, 3, (percent x), c)] leaves in [h]: [c] is a
    signed [char], so from 128 on the digits start with the sign's. *)
Definition hexdigit (n : Z) : Z := if n <? 10 then 48 + n else 97 + (n - 10).
Definition hex2 (b : Z) : bytes :=
  if 128 <=? b then [102; 102]
  else if b <? 16 then [hexdigit b] else [hexdigit (b / 16); hexdigit (b mod 16)].

Fixpoint str2hexa_loop (pt : bytes) (ys : option ystr) : CM alloc (option ystr) :=
  match pt with
  | [] => cfault HeapOverflow
  | b :: pt =>
      if b =? 0 then cret ys
      else let! r := ys_cat ys (Some (hex2 b ++ [0])) in str2hexa_loop pt (snd r)
  end.
Definition ys_str2hexa (str : option bytes) : CM alloc (option ystr) :=
  match str with
  | None => cret None
  | Some pt =>
      let! ys := ys_new (Some [0]) in
      match ys with
      | None => cret None
      | Some _ => str2hexa_loop pt ys
      end
  end.

(** The loop of [ys_subs] and [ys_casesubs]: [f] is the identity or [tolower]. *)
Fixpoint subs_loop (fuel : nat) (f : Z -> Z) (from : bytes) (from_len : Z) (to : option bytes)
    (pt : bytes) (ys : option ystr) : CM alloc (option ystr) :=
  match fuel with
  | O => cfault OutOfFuel
  | S fuel =>
      let! b := clift (deref pt) in
      if b =? 0 then cret ys
      else
        let! same := clift (if from_len =? 0 then Done false
                            else strneq f (Z.to_nat from_len) from pt) in
        if same : bool then
          let! r := ys_cat ys to in
          subs_loop fuel f from from_len to (dropZ from_len pt) (snd r)
        else
          let! r := ys_addc ys b in
          subs_loop fuel f from from_len to (tl pt) (snd r)
  end.
Definition subs (f : Z -> Z) (orig from to : option bytes) : CM alloc (option ystr) :=
  match orig with
  | None => cret None
  | Some pt =>
      let! ys := ys_new (Some [0]) in
      match ys with
      | None => cret None
      | Some _ =>
          let! w := clift (text_of from) in
          subs_loop (S (length pt)) f (default [] from) (u32 (lenZ w)) to pt ys
      end
  end.
Definition ys_subs (orig from to : option bytes) := subs (fun b => b) orig from to.
Definition ys_casesubs (orig from to : option bytes) := subs tolower orig from to.

(** ** XML entities *)
Definition LT : Z := 60.
Definition GT : Z := 62.
Definition DQUOTE : Z := 34.
Definition QUOTE : Z := 39.
Definition AMP : Z := 38.
Definition SHARP : Z := 35.

(** A string literal: its bytes and the NUL. *)
Definition lit (s : string) : bytes := str s ++ [0].
Arguments lit _%_string_scope.

Fixpoint str2xmlentity_loop (pt : bytes) (res : option ystr) : CM alloc (option ystr) :=
  match pt with
  | [] => cfault HeapOverflow
  | b :: pt =>
      if b =? 0 then cret res
      else
        let! r :=
          (if b =? LT then ys_cat res (Some (lit "&lt;"))
           else if b =? GT then ys_cat res (Some (lit "&gt;"))
           else if b =? DQUOTE then ys_cat res (Some (lit "&quot;"))
           else if b =? QUOTE then ys_cat res (Some (lit "&apos;"))
           else if b =? AMP then ys_cat res (Some (lit "&amp;"))
           else ys_addc res b) in
        str2xmlentity_loop pt (snd r)
  end.
Definition str2xmlentity (s : option bytes) : CM alloc (option bytes) :=
  match s with
  | None => cret None
  | Some pt =>
      let! res := ys_new (Some [0]) in
      match res with
      | None => cret None
      | Some _ => let! res := str2xmlentity_loop pt res in ys_string res
      end
  end.

(** What the chain of tests in [xmlentity2str] finds at [pt], which is not at
    the end: the character to add and the number of bytes read. *)
Definition entity_at (pt : bytes) : outcome (Z * Z) :=
  olet! b := deref pt in
  if negb (b =? AMP) then Done (b, 1)
  else
    olet! t := strneq id 5 pt (lit "&amp;") in if t : bool then Done (AMP, 5) else
    olet! t := strneq id 4 pt (lit "&lt;") in if t : bool then Done (LT, 4) else
    olet! t := strneq id 4 pt (lit "&gt;") in if t : bool then Done (GT, 4) else
    olet! t := strneq id 6 pt (lit "&quot;") in if t : bool then Done (DQUOTE, 6) else
    olet! t := strneq id 6 pt (lit "&apos;") in if t : bool then Done (QUOTE, 6) else
    olet! c := deref (tl pt) in
    if negb (c =? SHARP) then Done (b, 1)
    else
      olet! p := strchr 59 (dropZ 2 pt) in
      match p with
      | None => Done (b, 1)
      | Some (digits, _) =>
          Done (wrap 8 (atoi (dropZ 2 pt)), i32 (lenZ digits + 3))
      end.
Fixpoint xmlentity2str_loop (fuel : nat) (pt : bytes) (res : option ystr)
    : CM alloc (option ystr) :=
  match fuel with
  | O => cfault OutOfFuel
  | S fuel =>
      let! b := clift (deref pt) in
      if b =? 0 then cret res
      else
        let! '(c, i) := clift (entity_at pt) in
        let! r := ys_addc res c in
        xmlentity2str_loop fuel (dropZ i pt) (snd r)
  end.
Definition xmlentity2str (s : option bytes) : CM alloc (option bytes) :=
  match s with
  | None => cret None
  | Some pt =>
      let! res := ys_new (Some [0]) in
      match res with
      | None => cret None
      | Some _ =>
          let! res := xmlentity2str_loop (S (length pt)) pt res in ys_string res
      end
  end.

(** ** Lemmas *)

(** [y] holds the text [w]. *)
Record ys_holds (y : ystr) (w : bytes) : Prop := {
  yh_blk : exists rest, ys_blk y = w ++ 0 :: rest;
  yh_used : ys_used y = lenZ w;
  yh_total : ys_total y = lenZ (ys_blk y);
  yh_bound : ys_total y < 2 ^ 32;
  yh_text : Forall (fun b => b <> 0) w
}.

Lemma c_string_inv pt w :
  c_string pt = Done w -> exists rest, pt = w ++ 0 :: rest /\ Forall (fun b => b <> 0) w.
Proof.
  revert w. induction pt as [|b pt IH]; intros w; cbn [c_string]; [done|].
  destruct (Z.eqb_spec b 0) as [->|Hb].
  - intros [= <-]. by exists pt.
  - destruct (c_string pt) as [s|] eqn:E; [|done]. cbn [obind]. intros [= <-].
    destruct (IH s eq_refl) as (rest & -> & Hs). exists rest. split; [done|]. by constructor.
Qed.

Lemma ys_leap_range sz : 4096 <= ys_leap sz <= 1048576.
Proof.
  unfold ys_leap, YSTR_SIZE, YSTR_SIZE_BIG, YSTR_SIZE_HUGE.
  destruct (_ <? _); [lia|]. destruct (_ <? _); lia.
Qed.
(** A block of that size has room for [need] bytes and one more. *)
Lemma ys_round_enough need sz :
  0 <= need < 2 ^ 31 + 2 -> need + 1 <= ys_round need (ys_leap sz) < 2 ^ 32.
Proof.
  intros Hn. pose proof (ys_leap_range sz) as Hl. unfold ys_round.
  set (leap := ys_leap sz) in *. rewrite (wrap_small 32 need) by lia.
  pose proof (Z.div_mod need leap ltac:(lia)) as Hd.
  pose proof (Z.mod_pos_bound need leap ltac:(lia)) as Hm.
  assert (Hq : 0 <= need / leap <= need).
  { split; [apply Z.div_pos; lia|]. apply Z.div_le_upper_bound; nia. }
  rewrite (wrap_small 32 (need / leap + 1)) by lia. rewrite wrap_small by nia. nia.
Qed.

(** The outcome of an operation that may need memory: the new text, or a
    failure that leaves the string as it was. *)
Definition ys_grows (a : alloc) (y : ystr) (w' : bytes) (o : outcome (Z * option ystr * alloc)) : Prop :=
  exists r y' a', o = Done ((r, y'), a') /\ (Forall (eq true) a -> Forall (eq true) a') /\
    (r = 1 /\ (exists y1, y' = Some y1 /\ ys_holds y1 w') \/
     ~ Forall (eq true) a /\ r = 0 /\ y' = Some y).

Lemma ymalloc_cases n a :
  exists a', (Forall (eq true) a -> Forall (eq true) a') /\
    (ymalloc n a = Done (Some (zeros n), a') \/ ~ Forall (eq true) a /\ ymalloc n a = Done (None, a')).
Proof.
  unfold ymalloc. destruct a as [|[] a].
  - exists []. split; [done|by left].
  - exists a. split; [by inversion 1|by left].
  - exists a. split; [by inversion 1|]. right. split; [inversion 1; done|done].
Qed.

(** [write_parts] fills a fresh block with the text and its NUL. *)
Definition fills (parts : list (Z * bytes)) (n : Z) (w : bytes) : Prop :=
  exists rest, write_parts parts (zeros n) = Done (w ++ 0 :: rest) /\ lenZ (w ++ 0 :: rest) = n.

Lemma ys_block_ok n used parts w a :
  fills parts n w -> n < 2 ^ 32 -> used = lenZ w -> Forall (fun b => b <> 0) w ->
  exists o a', ys_block n used parts a = Done (o, a') /\ (Forall (eq true) a -> Forall (eq true) a') /\
    ((exists y, o = Some y /\ ys_holds y w) \/ ~ Forall (eq true) a /\ o = None).
Proof.
  intros (rest & Hw & Hn) Hb -> Ht. unfold ys_block, cbind at 1.
  destruct (ymalloc_cases (n + 8) a) as (a' & Ha & [->|[Hf ->]]).
  - unfold clift, cbind. rewrite Hw. do 2 eexists. split; [done|]. split; [done|]. left.
    eexists. split; [done|]. by constructor; simpl; [exists rest| | | |].
  - do 2 eexists. split; [done|]. split; [done|]. by right.
Qed.

Lemma ys_renew_ok sz parts y w a :
  0 <= sz < 2 ^ 31 -> sz = lenZ w -> Forall (fun b => b <> 0) w ->
  (forall n, sz + 2 <= n -> fills parts n w) ->
  ys_grows a y w (ys_renew sz parts (Some y) a).
Proof.
  intros Hs Hw Ht Hp. pose proof (ys_round_enough (sz + 1) sz ltac:(lia)) as Hr.
  unfold ys_renew, cbind at 1.
  destruct (ys_block_ok _ sz parts w a (Hp (ys_round (sz + 1) (ys_leap sz)) ltac:(lia)) ltac:(lia) Hw Ht)
    as (o & a' & -> & Ha & [(y1 & -> & Hy)|[Hf ->]]);
    do 3 eexists; (split; [done|]); (split; [done|]); [left; split; [done|by exists y1]|by right].
Qed.

(** A fresh block that is written from its start. *)
Lemma fills_one w n : lenZ w + 1 <= n -> fills [(0, w ++ [0])] n w.
Proof.
  intros Hn. unfold fills. cbn [write_parts]. rewrite <- (app_nil_l (zeros n)).
  pose proof (lenZ_nonneg w) as H0. change 0 with (lenZ (@nil Z)) at 1.
  rewrite write_next by (rewrite lenZ_app, lenZ_zeros by lia; lens). cbn [obind app].
  exists (dropZ (lenZ (w ++ [0])) (zeros n)). rewrite <- !app_assoc. split; [done|].
  cbn [app]. autorewrite with len. rewrite lenZ_dropZ; rewrite lenZ_zeros by lia; lens.
Qed.
Lemma fills_two u w n c d :
  c ++ d = (u ++ w) ++ [0] -> lenZ (u ++ w) + 1 <= n -> fills [(0, c); (lenZ c, d)] n (u ++ w).
Proof.
  intros He Hn. pose proof (f_equal lenZ He) as Hl. autorewrite with len in Hl, Hn.
  unfold fills. cbn [write_parts]. pose proof (lenZ_nonneg c). pose proof (lenZ_nonneg d).
  pose proof (lenZ_nonneg u). pose proof (lenZ_nonneg w).
  change (blk_write (zeros n) 0 c) with (blk_write ([] ++ zeros n) (lenZ (@nil Z)) c).
  rewrite write_next by (rewrite lenZ_zeros by lia; lens). cbn [obind app].
  rewrite write_next by (rewrite lenZ_dropZ; rewrite lenZ_zeros by lia; lens). cbn [obind].
  exists (dropZ (lenZ d) (dropZ (lenZ c) (zeros n))).
  assert (E : c ++ d ++ dropZ (lenZ d) (dropZ (lenZ c) (zeros n))
              = (u ++ w) ++ 0 :: dropZ (lenZ d) (dropZ (lenZ c) (zeros n))).
  { rewrite app_assoc, He, <- !app_assoc. done. }
  split; [by rewrite E|]. rewrite <- E. autorewrite with len.
  rewrite !lenZ_dropZ; rewrite ?lenZ_dropZ; rewrite ?lenZ_zeros by lia; lia.
Qed.

Lemma text_of_some pt w : c_string pt = Done w -> text_of (Some pt) = Done w.
Proof. done. Qed.
Lemma fills_text w n : lenZ w + 1 <= n -> fills [(0, if u32 (lenZ w) =? 0 then [0] else w ++ [0])] n w \/ 2 ^ 32 <= lenZ w.
Proof.
  intros Hn. destruct (Z.lt_ge_cases (lenZ w) (2 ^ 32)) as [Hw|]; [left|by right].
  rewrite wrap_small by lens. destruct (Z.eqb_spec (lenZ w) 0) as [He|_]; [|by apply fills_one].
  rewrite (lenZ_zero_nil w He) in *. by apply (fills_one []).
Qed.

Lemma ys_new_ok s w a :
  text_of s = Done w -> Forall (fun b => b <> 0) w -> lenZ w < 2 ^ 31 ->
  exists o a', ys_new s a = Done (o, a') /\ (Forall (eq true) a -> Forall (eq true) a') /\
    ((exists y, o = Some y /\ ys_holds y w) \/ ~ Forall (eq true) a /\ o = None).
Proof.
  intros Hs Hw Hl. pose proof (lenZ_nonneg w) as H0. unfold ys_new, clift, cbind at 1. rewrite Hs.
  pose proof (ys_round_enough (u32 (lenZ w) + 1) (u32 (lenZ w))) as Hr.
  rewrite (wrap_small 32 (lenZ w)) in Hr by lia. specialize (Hr ltac:(lia)).
  set (n := if u32 (lenZ w) <? YSTR_SIZE then _ else _).
  assert (Hn : lenZ w + 1 <= n < 2 ^ 32).
  { unfold n. rewrite (wrap_small 32 (lenZ w)) by lia. unfold YSTR_SIZE.
    destruct (Z.ltb_spec (lenZ w) 4096); lia. }
  apply ys_block_ok; [|lia|by apply wrap_small; lia|done].
  destruct (fills_text w n ltac:(lia)); [done|lia].
Qed.

Lemma ys_copy_ok s w a :
  text_of s = Done w -> Forall (fun b => b <> 0) w -> lenZ w < 2 ^ 31 ->
  exists o a', ys_copy s a = Done (o, a') /\ (Forall (eq true) a -> Forall (eq true) a') /\
    ((exists y, o = Some y /\ ys_holds y w) \/ ~ Forall (eq true) a /\ o = None).
Proof.
  intros Hs Hw Hl. pose proof (lenZ_nonneg w) as H0. unfold ys_copy, clift, cbind at 1. rewrite Hs.
  apply ys_block_ok; [| |by apply wrap_small; lia|done].
  - replace (u32 (u32 (lenZ w) + 1)) with (lenZ w + 1)
      by (rewrite (wrap_small 32 (lenZ w)), wrap_small by lia; done).
    destruct (fills_text w (lenZ w + 1) ltac:(lia)); [done|lia].
  - apply wrap_bound. lia.
Qed.

Lemma ys_update_holds y w blk rest n :
  blk = w ++ 0 :: rest -> lenZ blk = ys_total y -> ys_total y < 2 ^ 32 -> n = lenZ w ->
  Forall (fun b => b <> 0) w -> ys_holds (ys_update n blk y) w.
Proof.
  intros -> Hl Hb -> Hw. constructor; simpl; [by exists rest| |done|done|done].
  apply wrap_small. revert Hl. lens.
Qed.
Lemma ys_grows_here a y w y' :
  ys_holds y' w -> ys_grows a y w (Done ((1, Some y'), a)).
Proof. intros H. do 3 eexists. split; [done|]. split; [done|]. left. split; [done|by exists y']. Qed.

Lemma ys_cat_ok y u src w a :
  ys_holds y u -> text_of src = Done w -> lenZ u + lenZ w < 2 ^ 31 ->
  ys_grows a y (u ++ w) (ys_cat (Some y) src a).
Proof.
  intros Hy Hs Hl. pose proof (lenZ_nonneg u) as Hu0. pose proof (lenZ_nonneg w) as Hw0.
  unfold ys_cat, clift, cbind at 1. rewrite Hs. rewrite (wrap_small 32 (lenZ w)) by lia.
  destruct (Z.eqb_spec (lenZ w) 0) as [He|He].
  { rewrite (lenZ_zero_nil w He), app_nil_r. by apply ys_grows_here. }
  destruct src as [pt|]; [|injection Hs as <-; done]. apply c_string_inv in Hs as (pr & -> & Hw).
  destruct Hy as [[rest Hb] Hu Ht Hbd Hut]. cbn [default id]. unfold cbind at 1.
  rewrite (wrap_small 32 (lenZ w + 1)) by lia.
  replace (w ++ 0 :: pr) with ((w ++ [0]) ++ pr) by (by rewrite <- app_assoc).
  rewrite read_prefix by lens. rewrite Hu, Hb in *. autorewrite with len in Ht.
  assert (Hwu : Forall (fun b => b <> 0) (u ++ w)) by (by apply Forall_app).
  rewrite (wrap_small 32 (lenZ u + 1 + lenZ w)) by lia.
  destruct (Z.leb_spec (lenZ u + 1 + lenZ w) (ys_total y)) as [Hle|Hgt]; unfold cbind at 1.
  - rewrite write_next by lens. apply ys_grows_here.
    eapply ys_update_holds; [by rewrite <- !app_assoc| |done|by rewrite lenZ_app|done].
    rewrite !lenZ_app, lenZ_dropZ; lens.
  - rewrite read_prefix by done. rewrite (wrap_small 32) by lia.
    apply ys_renew_ok; [lia|by rewrite lenZ_app|done|]. intros n Hn.
    apply fills_two; [by rewrite app_assoc|lens].
Qed.

Lemma copy_cell_far (k : bytes) x r n :
  0 <= n <= lenZ r ->
  copy_cell (lenZ k + n) (lenZ k) (k ++ x :: r) = Done (k ++ takeZ n (x :: r) ++ x :: dropZ n r).
Proof.
  intros Hn. unfold copy_cell. rewrite (blk_read_mid k [x] r) by done. cbn [obind].
  rewrite <- (takeZ_dropZ n (x :: r)) at 1.
  assert (Hd : lenZ (dropZ n (x :: r)) = lenZ r + 1 - n) by (rewrite lenZ_dropZ; lens).
  assert (Ht : tl (dropZ n (x :: r)) = dropZ n r).
  { unfold dropZ. generalize (Z.to_nat n) as m. clear. revert x.
    induction r as [|y r IH]; intros x [|m]; [done|by destruct m|done|apply IH]. }
  destruct (dropZ n (x :: r)) as [|z t]; [revert Hd; lens|]. cbn [tl] in Ht. subst t.
  assert (Hq : lenZ (takeZ n (x :: r)) = n) by (rewrite lenZ_takeZ; lens).
  replace (lenZ k + n) with (lenZ (k ++ takeZ n (x :: r))) by lens.
  rewrite (app_assoc k _ (z :: _)), (blk_write_mid _ [z] (dropZ n r) [x]) by done.
  by rewrite <- app_assoc.
Qed.
(** Moving the text and its NUL up by [n] keeps both. *)
Lemma move_up_ok l x r n :
  0 <= n <= lenZ r ->
  exists pre, lenZ pre = n /\ move_up (length l) n (l ++ x :: r) = Done (pre ++ (l ++ [x]) ++ dropZ n r).
Proof.
  revert x r. induction l as [|y l IH] using rev_ind; intros x r Hn;
    assert (Hq : lenZ (takeZ n (x :: r)) = n) by (rewrite lenZ_takeZ; lens).
  - exists (takeZ n (x :: r)). split; [done|]. cbn [length move_up].
    pose proof (copy_cell_far [] x r n Hn) as Hc. unfold lenZ in Hc at 1 2. cbn [length] in Hc.
    by rewrite Hc.
  - pose proof (copy_cell_far (l ++ [y]) x r n Hn) as Hc.
    destruct (IH y (takeZ n (x :: r) ++ x :: dropZ n r)) as (pre & Hp & HE); [lens|].
    exists pre. split; [done|]. unfold lenZ in Hc at 1 2.
    assert (Hlen : length (l ++ [y]) = S (length l)) by (rewrite length_app; simpl; lia).
    rewrite Hlen in *. cbn [move_up]. rewrite Hc. cbn [obind]. rewrite <- !app_assoc. cbn [app].
    rewrite HE, dropZ_app_eq by done. by rewrite <- !app_assoc.
Qed.

Lemma blk_write_front (b c d : bytes) :
  lenZ b = lenZ d -> blk_write (b ++ c) 0 d = Done (d ++ c).
Proof. exact (blk_write_mid [] b c d). Qed.
(** In place: the text moves up by the length of [d], which is written in
    front of it. *)
Lemma shift_in y u d a :
  ys_holds y u -> Forall (fun b => b <> 0) d -> lenZ u + 1 + lenZ d <= ys_total y ->
  ys_grows a y (d ++ u)
    ((let! blk := clift (move_up (Z.to_nat (ys_used y)) (lenZ d) (ys_blk y)) in
      let! blk := clift (blk_write blk 0 d) in
      cret (1, Some (ys_update (ys_used y + lenZ d) blk y))) a).
Proof.
  intros [[rest Hb] Hu Ht Hbd Hut] Hd Hle. rewrite Hu, Hb in *. autorewrite with len in Ht.
  unfold lenZ at 1. rewrite Nat2Z.id. unfold clift, cbind at 1.
  destruct (move_up_ok u 0 rest (lenZ d)) as (pre & Hp & ->); [lens|]. unfold cbind at 1.
  rewrite blk_write_front by done. apply ys_grows_here.
  eapply ys_update_holds; [by rewrite <- !app_assoc| |done|lens|by apply Forall_app].
  rewrite !lenZ_app, lenZ_dropZ; lens.
Qed.

Lemma ys_prepend_ok y u d pt pr n a :
  ys_holds y u -> pt = d ++ pr -> n = lenZ d -> Forall (fun b => b <> 0) d ->
  lenZ u + lenZ d < 2 ^ 31 -> ys_grows a y (d ++ u) (ys_prepend y (Some pt) n a).
Proof.
  intros Hy -> -> Hd Hl. pose proof (lenZ_nonneg u) as Hu0. pose proof (lenZ_nonneg d) as Hd0.
  unfold ys_prepend. cbn [default id]. unfold clift at 1, cbind at 1. rewrite read_prefix by done.
  pose proof Hy as [[rest Hb] Hu Ht Hbd Hut].
  rewrite (wrap_small 32 (ys_used y + 1 + lenZ d)) by lia.
  destruct (Z.leb_spec (ys_used y + 1 + lenZ d) (ys_total y)) as [Hle|Hgt];
    [apply shift_in; [done|done|lia]|].
  rewrite Hu, Hb in *. unfold clift, cbind at 1. rewrite (wrap_small 32 (lenZ u + 1)) by lia.
  replace (u ++ 0 :: rest) with ((u ++ [0]) ++ rest) by (by rewrite <- app_assoc).
  rewrite read_prefix by lens. rewrite (wrap_small 32) by lia.
  apply ys_renew_ok; [lia|lens|by apply Forall_app|]. intros n Hn.
  apply fills_two; [by rewrite app_assoc|lens].
Qed.

Lemma ys_tac_ok y u src w a :
  ys_holds y u -> text_of src = Done w -> lenZ u + lenZ w < 2 ^ 31 ->
  ys_grows a y (w ++ u) (ys_tac (Some y) src a).
Proof.
  intros Hy Hs Hl. pose proof (lenZ_nonneg u) as Hu0. pose proof (lenZ_nonneg w) as Hw0.
  unfold ys_tac, clift, cbind at 1. rewrite Hs. rewrite (wrap_small 32 (lenZ w)) by lia.
  destruct (Z.eqb_spec (lenZ w) 0) as [He|He].
  { rewrite (lenZ_zero_nil w He). by apply ys_grows_here. }
  destruct src as [pt|]; [|injection Hs as <-; done]. apply c_string_inv in Hs as (pr & -> & Hw).
  by eapply ys_prepend_ok.
Qed.
Lemma ys_ntac_ok y u src w n a :
  ys_holds y u -> text_of src = Done w -> 0 <= n < 2 ^ 32 -> lenZ u + lenZ w < 2 ^ 31 ->
  ys_grows a y (takeZ n w ++ u) (ys_ntac (Some y) src n a).
Proof.
  intros Hy Hs Hn Hl. pose proof (lenZ_nonneg u) as Hu0. pose proof (lenZ_nonneg w) as Hw0.
  unfold ys_ntac. destruct src as [pt|]; [|].
  2: { injection Hs as <-. replace (takeZ n []) with (@nil Z) by (unfold takeZ; by rewrite take_nil).
       by apply ys_grows_here. }
  destruct (Z.eqb_spec n 0) as [->|He]; [by apply ys_grows_here|].
  cbn [text_of] in Hs. unfold clift, cbind at 1. rewrite Hs.
  apply c_string_inv in Hs as (pr & -> & Hw).
  destruct (Z.ltb_spec (lenZ w) n) as [Hlt|Hge].
  - rewrite takeZ_all by lia. rewrite wrap_small by lia. by eapply ys_prepend_ok.
  - eapply (ys_prepend_ok _ _ _ _ (dropZ n w ++ 0 :: pr)); [done| | | |].
    + by rewrite app_assoc, takeZ_dropZ.
    + rewrite lenZ_takeZ; lia.
    + by apply Forall_take.
    + rewrite lenZ_takeZ; lia.
Qed.
Lemma ys_addc_ok y u c a :
  ys_holds y u -> lenZ u + 1 < 2 ^ 31 ->
  ys_grows a y (if c =? 0 then u else u ++ [c]) (ys_addc (Some y) c a).
Proof.
  intros Hy Hl. unfold ys_addc. destruct (Z.eqb_spec c 0) as [->|Hc].
  - pose proof (ys_cat_ok y u (Some [0; 0]) [] a Hy eq_refl) as H. rewrite app_nil_r in H.
    apply H. lens.
  - apply ys_cat_ok; [done| |lens]. by apply (c_string_end [c] []), Forall_singleton.
Qed.
Lemma ys_putc_ok y u c a :
  ys_holds y u -> lenZ u + 1 < 2 ^ 31 ->
  ys_grows a y (if c =? 0 then u else c :: u) (ys_putc (Some y) c a).
Proof.
  intros Hy Hl. pose proof (lenZ_nonneg u) as Hu0. unfold ys_putc.
  destruct (Z.eqb_spec c 0) as [->|Hc]; [by apply ys_grows_here|].
  pose proof Hy as [[rest Hb] Hu Ht Hbd Hut]. rewrite (wrap_small 32 (ys_used y + 2)) by lia.
  assert (Hcu : Forall (fun b => b <> 0) (c :: u)) by (by constructor).
  destruct (Z.leb_spec (ys_used y + 2) (ys_total y)) as [Hle|Hgt].
  { apply (shift_in y u [c] a); [done|by apply Forall_singleton|lens]. }
  rewrite Hu, Hb in *. unfold clift, cbind at 1. rewrite (wrap_small 32 (lenZ u + 1)) by lia.
  replace (u ++ 0 :: rest) with ((u ++ [0]) ++ rest) by (by rewrite <- app_assoc).
  rewrite read_prefix by lens. unfold cbind.
  pose proof (ys_round_enough (lenZ u + 2) (lenZ u) ltac:(lia)) as Hr.
  destruct (ys_block_ok (ys_round (lenZ u + 2) (ys_leap (lenZ u))) (lenZ u + 1)
              [(0, [c]); (1, u ++ [0])] (c :: u) a) as (o & a' & -> & Ha & [(y1 & -> & Hy1)|[Hf ->]]);
    [by apply (fills_two [c] u); [|lens]|lia|lens|done| |];
    do 3 eexists; (split; [done|]); (split; [done|]); [left; split; [done|by exists y1]|by right].
Qed.

(** *** Blanks *)
Fixpoint ltrim_text (w : bytes) : bytes :=
  match w with
  | b :: w' => if blank b then ltrim_text w' else w
  | [] => []
  end.
Definition rtrim_text (w : bytes) : bytes := rev (ltrim_text (rev w)).

Lemma rtrim_text_snoc w b :
  rtrim_text (w ++ [b]) = if blank b then rtrim_text w else w ++ [b].
Proof.
  unfold rtrim_text. rewrite rev_unit. cbn [ltrim_text]. destruct (blank b); [done|].
  cbn [rev]. by rewrite rev_involutive.
Qed.
Lemma ltrim_text_suffix w : exists b, w = b ++ ltrim_text w.
Proof.
  induction w as [|x w [b Hb]]; [by exists []|]. cbn [ltrim_text].
  destruct (blank x); [|by exists []]. exists (x :: b). by rewrite Hb at 1.
Qed.
Lemma ltrim_text_id w : negb (blank (hd 0 w)) = true -> ltrim_text w = w.
Proof. destruct w as [|x w]; [done|]. cbn [ltrim_text hd]. by destruct (blank x). Qed.
Lemma blank_nul b : blank b = true -> b <> 0.
Proof. by intros H ->. Qed.

Lemma ltrim_scan_ok w rest :
  ltrim_scan (w ++ 0 :: rest) = Done (lenZ w - lenZ (ltrim_text w)).
Proof.
  induction w as [|x w IH]; [done|]. cbn [app ltrim_scan deref obind ltrim_text].
  destruct (blank x); [rewrite IH; cbn [obind]|]; f_equal; lens.
Qed.
Lemma ltrim_copy_ok v pre m mid rest fuel :
  (length v < fuel)%nat -> Forall (fun b => b <> 0) v ->
  exists junk, lenZ (v ++ 0 :: junk) = lenZ (m :: mid ++ v ++ 0 :: rest) /\
    ltrim_copy fuel (lenZ pre) (lenZ pre + lenZ (m :: mid)) (pre ++ (m :: mid) ++ v ++ 0 :: rest)
    = Done (pre ++ v ++ 0 :: junk).
Proof.
  intros Hf Hv. revert pre m mid fuel Hf.
  induction Hv as [|x v Hx Hv IH]; intros pre m mid [|fuel] Hf; cbn [length] in Hf; try lia;
    cbn [ltrim_copy].
  - exists (mid ++ 0 :: rest). split; [lens|].
    assert (Hr : blk_read (pre ++ (m :: mid) ++ [] ++ 0 :: rest) (lenZ pre + lenZ (m :: mid)) 1
                 = Done [0]).
    { rewrite app_assoc, <- lenZ_app. by apply (blk_read_mid (pre ++ m :: mid) [0]). }
    rewrite Hr. cbn [obind]. rewrite bool_decide_eq_true_2 by done. exact (blk_write_mid pre [m] (mid ++ 0 :: rest) [0] eq_refl).
  - destruct (IH (pre ++ [x]) (hd 0 (mid ++ [x])) (tl (mid ++ [x])) fuel ltac:(lia)) as (junk & Hj & HE).
    assert (Hm : hd 0 (mid ++ [x]) :: tl (mid ++ [x]) = mid ++ [x]) by (by destruct mid).
    rewrite Hm in HE. exists junk. split.
    { revert Hj. rewrite app_comm_cons, Hm. lens. }
    assert (Hr : blk_read (pre ++ (m :: mid) ++ (x :: v) ++ 0 :: rest) (lenZ pre + lenZ (m :: mid)) 1
                 = Done [x]).
    { rewrite app_assoc, <- lenZ_app. by apply (blk_read_mid (pre ++ m :: mid) [x]). }
    rewrite Hr. cbn [obind]. rewrite bool_decide_eq_false_2 by (intros [=]; lia).
    pose proof (blk_write_mid pre [m] (mid ++ (x :: v) ++ 0 :: rest) [x] eq_refl) as Hw.
    cbn [app] in Hw |- *. rewrite Hw. cbn [obind].
    replace (lenZ pre + 1) with (lenZ (pre ++ [x])) by lens.
    replace (lenZ pre + lenZ (m :: mid) + 1) with (lenZ (pre ++ [x]) + lenZ (mid ++ [x])) by lens.
    revert HE. rewrite <- !app_assoc. cbn [app]. done.
Qed.

Lemma ys_ltrim_ok y w :
  ys_holds y w -> exists y', ys_ltrim y = Done y' /\ ys_holds y' (ltrim_text w).
Proof.
  intros Hy. pose proof Hy as [[rest Hb] Hu Ht Hbd Hw]. unfold ys_ltrim. rewrite Hb, ltrim_scan_ok.
  cbn [obind]. destruct (ltrim_text_suffix w) as [b Eb].
  remember (ltrim_text w) as v eqn:Ev. clear Ev. subst w. destruct b as [|m b].
  { cbn [app]. rewrite Z.sub_diag. by exists y. }
  rewrite (proj2 (Z.eqb_neq _ _)) by lens. apply Forall_app in Hw as [_ Hw].
  destruct (ltrim_copy_ok v [] m b rest (S (length (((m :: b) ++ v) ++ 0 :: rest)))) as (junk & Hj & HE);
    [rewrite !length_app; lia|done|].
  replace (lenZ ((m :: b) ++ v) - lenZ v) with (0 + lenZ (m :: b)) by lens.
  rewrite <- app_assoc in Hb, HE |- *. cbn [app] in HE, Hb |- *. change (lenZ []) with 0 in HE.
  rewrite HE. cbn [obind]. eexists. split; [done|].
  eapply ys_update_holds; [done| |done|lens|done]. by rewrite Hj, Ht, Hb.
Qed.

Lemma ys_at_ok y w v x i :
  ys_holds y (w ++ x :: v) -> i = lenZ w -> ys_at y i = Done x.
Proof.
  intros [[rest Hb] _ _ _ _] ->. unfold ys_at. rewrite (proj2 (Z.eqb_neq _ _)) by lens.
  rewrite Hb, <- app_assoc. by rewrite (blk_read_mid w [x] (v ++ 0 :: rest)).
Qed.
(** Cutting the text after its first bytes. *)
Lemma cut_at y w x v :
  ys_holds y (w ++ x :: v) ->
  exists blk, blk_write (ys_blk y) (lenZ w) [0] = Done blk /\ ys_holds (ys_update (lenZ w) blk y) w.
Proof.
  intros [[rest Hb] Hu Ht Hbd Hw]. rewrite Hb, <- app_assoc in *.
  pose proof (blk_write_mid w [x] (v ++ 0 :: rest) [0] eq_refl) as H1. cbn [app] in H1 |- *.
  eexists. split; [exact H1|]. apply Forall_app in Hw as [Hw _].
  eapply ys_update_holds; [done| |done|done|done]. rewrite Ht. lens.
Qed.

Lemma rtrim_loop_ok y p v used initsz :
  ys_holds y (p ++ v) -> p <> [] -> used = lenZ p -> initsz = lenZ (p ++ v) ->
  exists y', rtrim_loop (length p) used initsz y = Done y' /\ ys_holds y' (rtrim_text p).
Proof.
  revert v used. induction p as [|x p IH] using rev_ind; intros v used Hy Hp -> ->; [done|].
  rewrite <- app_assoc in Hy. cbn [app] in Hy.
  rewrite length_app, Nat.add_1_r. cbn [rtrim_loop]. rewrite (ys_at_ok y p v x) by (done || unfold lenZ; lia).
  cbn [obind]. rewrite rtrim_text_snoc. destruct (blank x) eqn:Ex.
  - destruct p as [|z p] using rev_ind; [|clear IHp; rewrite length_app, Nat.add_1_r in *].
    + destruct (cut_at y [] x v Hy) as (blk & Hw & Hy'). cbn [length]. change (lenZ []) with 0 in Hw, Hy'.
      rewrite Hw. cbn [obind]. eexists. split; [done|]. exact Hy'.
    + apply (IH (x :: v)); [done|by destruct p|lens|lens].
  - destruct (Z.eqb_spec (lenZ ((p ++ [x]) ++ v)) (lenZ (p ++ [x]))) as [He|He].
    + destruct v; [|revert He; lens]. by exists y.
    + destruct v as [|z v]; [rewrite app_nil_r in He; done|].
      destruct (cut_at y (p ++ [x]) z v) as (blk & Hw & Hy'); [by rewrite <- app_assoc|].
      replace (Z.of_nat (S (length p))) with (lenZ (p ++ [x])) by (unfold lenZ; rewrite length_app; simpl; lia).
      rewrite Hw. cbn [obind]. by eexists.
Qed.
Lemma ys_rtrim_ok y w :
  ys_holds y w -> exists y', ys_rtrim y = Done y' /\ ys_holds y' (rtrim_text w).
Proof.
  intros Hy. unfold ys_rtrim. pose proof (yh_used _ _ Hy) as Hu. rewrite Hu. unfold lenZ at 1.
  rewrite Nat2Z.id. destruct w as [|x w].
  - exists y. split; [|done]. cbn [length rtrim_loop]. unfold ys_at. rewrite Hu. done.
  - apply (rtrim_loop_ok y (x :: w) []); rewrite ?app_nil_r; done.
Qed.
Lemma ys_trim_ok y w :
  ys_holds y w -> exists y', ys_trim y = Done y' /\ ys_holds y' (rtrim_text (ltrim_text w)).
Proof.
  intros Hy. unfold ys_trim. destruct (ys_ltrim_ok y w Hy) as (y1 & -> & Hy1). cbn [obind].
  by apply ys_rtrim_ok.
Qed.
Lemma ys_trunc_ok y w :
  ys_holds y w -> exists y', ys_trunc (Some y) = Done (Some y') /\ ys_holds y' [].
Proof.
  intros [[rest Hb] Hu Ht Hbd Hw]. unfold ys_trunc. rewrite Hb in *.
  pose proof (blk_write_front (takeZ 1 (w ++ 0 :: rest)) (dropZ 1 (w ++ 0 :: rest)) [0]) as H1.
  rewrite takeZ_dropZ, lenZ_takeZ in H1 by lens. rewrite H1 by done. cbn [obind].
  eexists. split; [done|]. eapply ys_update_holds; [done| |done|done|done].
  rewrite lenZ_app, lenZ_dropZ; lens.
Qed.

(** *** Single characters *)
Lemma ys_rshift_ok y w :
  ys_holds y w ->
  exists y', ys_rshift (Some y) = Done (List.last w 0, Some y') /\ ys_holds y' (removelast w).
Proof.
  intros Hy. pose proof Hy as [[rest Hb] Hu Ht Hbd Hw]. unfold ys_rshift. rewrite Hb.
  destruct w as [|x w]; [by exists y|]. cbn [app deref obind].
  rewrite (proj2 (Z.eqb_neq x 0)) by (by inversion Hw).
  destruct (@exists_last _ (x :: w) ltac:(done)) as (p & c & Ec). rewrite Ec in *.
  rewrite Hu. replace (lenZ (p ++ [c]) - 1) with (lenZ p) by lens.
  rewrite (ys_at_ok y p [] c) by done. cbn [obind].
  destruct (cut_at y p c [] Hy) as (blk & Hw' & Hy'). rewrite Hb, <- Ec in Hw'. cbn [app] in Hw'.
  rewrite Hw'. cbn [obind]. rewrite last_last, removelast_last. by eexists.
Qed.
(** [ys_lshift] also removes the blanks behind the character. *)
Lemma ys_lshift_ok y w :
  ys_holds y w ->
  exists y', ys_lshift (Some y) = Done (hd 0 w, Some y') /\ ys_holds y' (ltrim_text (tl w)).
Proof.
  intros Hy. pose proof Hy as [[rest Hb] Hu Ht Hbd Hw]. unfold ys_lshift. rewrite Hb.
  destruct w as [|x w]; [by exists y|]. cbn [app deref obind hd tl].
  apply Forall_cons in Hw as [Hx Hw]. rewrite (proj2 (Z.eqb_neq x 0)) by done.
  change (x :: w ++ 0 :: rest) with ([x] ++ w ++ 0 :: rest). rewrite blk_write_front by done. cbn [obind].
  destruct (ys_ltrim_ok (ys_update (ys_used y) ([32] ++ w ++ 0 :: rest) y) (32 :: w)) as (y1 & -> & Hy1).
  { eapply ys_update_holds; [done| |done|by rewrite Hu, !lenZ_cons|by constructor].
    rewrite Ht, Hb. lens. }
  cbn [obind]. by exists y1.
Qed.

(** *** Copies *)
Lemma ys_dup_ok y w a :
  ys_holds y w ->
  exists o a', ys_dup (Some y) a = Done (o, a') /\ (Forall (eq true) a -> Forall (eq true) a') /\
    ((exists y', o = Some y' /\ ys_holds y' w) \/ ~ Forall (eq true) a /\ o = None).
Proof.
  intros [[rest Hb] Hu Ht Hbd Hw]. unfold ys_dup, clift, cbind at 1. rewrite Hb, Hu in *.
  rewrite read_prefix by done. apply ys_block_ok; [|done|done|done].
  pose proof (fills_two w [] (ys_total y) w [0]) as H. rewrite app_nil_r in H.
  apply H; [done|]. revert Ht. lens.
Qed.
Lemma ys_string_ok y w a :
  ys_holds y w ->
  exists o a', ys_string (Some y) a = Done (o, a') /\ (Forall (eq true) a -> Forall (eq true) a') /\
    (o = Some (w ++ [0]) \/ ~ Forall (eq true) a /\ o = None).
Proof.
  intros [[rest Hb] Hu Ht Hbd Hw]. unfold ys_string, cbind at 1. rewrite Hb, Hu in *.
  assert (Hl : u32 (lenZ w + 1) = lenZ (w ++ [0])) by (rewrite wrap_small; revert Ht; lens).
  rewrite Hl. destruct (ymalloc_cases (lenZ (w ++ [0])) a) as (a' & Ha & [->|[Hf ->]]).
  - unfold clift, cbind at 1.
    replace (w ++ 0 :: rest) with ((w ++ [0]) ++ rest) by (by rewrite <- app_assoc).
    rewrite read_prefix by done. unfold cbind at 1.
    pose proof (blk_write_front (zeros (lenZ (w ++ [0]))) [] (w ++ [0])) as H1.
    rewrite !app_nil_r, lenZ_zeros in H1 by lens. rewrite H1 by done.
    do 2 eexists. split; [done|]. split; [done|]. by left.
  - do 2 eexists. split; [done|]. split; [done|]. by right.
Qed.

(** ** Sequences of operations

    What an operation does to the text, and the result it returns; the
    functions without a result count as returning 1. *)
Inductive ys_op :=
  | OpCat (src : option bytes)
  | OpTac (src : option bytes)
  | OpNtac (src : option bytes) (n : Z)
  | OpPutc (c : Z)
  | OpAddc (c : Z)
  | OpTrunc
  | OpLtrim
  | OpRtrim
  | OpTrim
  | OpLshift
  | OpRshift.

Definition ys_apply (op : ys_op) (y : ystr) : CM alloc (Z * option ystr) :=
  let void (m : outcome ystr) := olet! y := m in Done (1, Some y) in
  match op with
  | OpCat src => ys_cat (Some y) src
  | OpTac src => ys_tac (Some y) src
  | OpNtac src n => ys_ntac (Some y) src n
  | OpPutc c => ys_putc (Some y) c
  | OpAddc c => ys_addc (Some y) c
  | OpTrunc => clift (olet! y := ys_trunc (Some y) in Done (1, y))
  | OpLtrim => clift (void (ys_ltrim y))
  | OpRtrim => clift (void (ys_rtrim y))
  | OpTrim => clift (void (ys_trim y))
  | OpLshift => clift (ys_lshift (Some y))
  | OpRshift => clift (ys_rshift (Some y))
  end.
Fixpoint ys_run (ops : list ys_op) (s : option ystr) : CM alloc (list Z * option ystr) :=
  match ops, s with
  | [], _ => cret ([], s)
  | _, None => cfault NullDeref
  | op :: ops, Some y =>
      let! '(r, s) := ys_apply op y in
      let! '(rs, s) := ys_run ops s in
      cret (r :: rs, s)
  end.

(** *** The same on texts *)
Definition src_text (src : option bytes) : bytes := cstr (default [] src).
Definition text_step (op : ys_op) (w : bytes) : bytes :=
  match op with
  | OpCat src => w ++ src_text src
  | OpTac src => src_text src ++ w
  | OpNtac src n => takeZ n (src_text src) ++ w
  | OpPutc c => if c =? 0 then w else c :: w
  | OpAddc c => if c =? 0 then w else w ++ [c]
  | OpTrunc => []
  | OpLtrim => ltrim_text w
  | OpRtrim => rtrim_text w
  | OpTrim => rtrim_text (ltrim_text w)
  | OpLshift => tl w
  | OpRshift => removelast w
  end.
Definition text_result (op : ys_op) (w : bytes) : Z :=
  match op with
  | OpLshift => hd 0 w
  | OpRshift => List.last w 0
  | _ => 1
  end.
(** [ys_lshift] is to remove the first character; it does when no blank follows it. *)
Definition shift_ok (op : ys_op) (w : bytes) : bool :=
  match op with OpLshift => negb (blank (hd 0 (tl w))) | _ => true end.
(** The bytes an operation may add, and its demands on its arguments. *)
Definition op_growth (op : ys_op) : Z :=
  match op with
  | OpCat src | OpTac src | OpNtac src _ => lenZ (src_text src)
  | OpPutc _ | OpAddc _ => 1
  | _ => 0
  end.
Definition op_ok (op : ys_op) : Prop :=
  match op with
  | OpCat src | OpTac src => text_of src = Done (src_text src)
  | OpNtac src n => text_of src = Done (src_text src) /\ 0 <= n < 2 ^ 32
  | _ => True
  end.
Definition growing (op : ys_op) : bool :=
  match op with
  | OpCat _ | OpTac _ | OpNtac _ _ | OpPutc _ | OpAddc _ => true
  | _ => false
  end.
(** The results of a sequence and the text it ends with: an operation that
    needs memory may be refused, returns 0 and changes nothing. *)
Inductive text_run : list ys_op -> list Z -> bytes -> bytes -> Prop :=
  | text_nil w : text_run [] [] w w
  | text_done op ops rs w w' :
      text_run ops rs (text_step op w) w' -> text_run (op :: ops) (text_result op w :: rs) w w'
  | text_refused op ops rs w w' :
      growing op = true -> text_run ops rs w w' -> text_run (op :: ops) (0 :: rs) w w'.
(** No [ys_lshift] of a sequence meets a blank behind the character it removes,
    whichever operations are refused. *)
Fixpoint shifts_ok (ops : list ys_op) (w : bytes) : Prop :=
  match ops with
  | [] => True
  | op :: ops => shift_ok op w = true /\ shifts_ok ops (text_step op w) /\ (growing op = true -> shifts_ok ops w)
  end.

Definition growth (ops : list ys_op) : Z := foldr (fun op n => op_growth op + n) 0 ops.

Lemma lenZ_ltrim w : lenZ (ltrim_text w) <= lenZ w.
Proof. destruct (ltrim_text_suffix w) as [b E]. rewrite E at 2. lens. Qed.
Lemma lenZ_rtrim w : lenZ (rtrim_text w) <= lenZ w.
Proof.
  pose proof (lenZ_ltrim (rev w)) as H. unfold rtrim_text, lenZ in *. rewrite length_rev in *. lia.
Qed.
Lemma lenZ_removelast (w : bytes) : lenZ (removelast w) <= lenZ w.
Proof.
  destruct w as [|x w _] using rev_ind; [done|]. rewrite removelast_last. lens.
Qed.
Lemma lenZ_tl (w : bytes) : lenZ (tl w) <= lenZ w.
Proof. destruct w; [done|]. simpl. lens. Qed.
Lemma text_step_growth op w : lenZ (text_step op w) <= lenZ w + op_growth op.
Proof.
  destruct op; cbn [text_step op_growth]; pose proof (lenZ_ltrim w); pose proof (lenZ_rtrim (ltrim_text w));
    pose proof (lenZ_rtrim w); pose proof (lenZ_removelast w);
    pose proof (lenZ_ltrim (tl w)); pose proof (lenZ_tl w); try case_match; try lens.
  unfold takeZ. rewrite lenZ_app. unfold lenZ. rewrite length_take. lia.
Qed.
Lemma op_growth_nonneg op : 0 <= op_growth op.
Proof. destruct op; cbn [op_growth]; lens. Qed.

(** One operation: done, or refused for want of memory. *)
Lemma ys_apply_ok op y w a :
  ys_holds y w -> op_ok op -> shift_ok op w = true -> lenZ w + op_growth op < 2 ^ 31 ->
  exists r y' a', ys_apply op y a = Done ((r, Some y'), a') /\ (Forall (eq true) a -> Forall (eq true) a') /\
    (r = text_result op w /\ ys_holds y' (text_step op w) \/
     ~ Forall (eq true) a /\ growing op = true /\ r = 0 /\ y' = y).
Proof.
  intros Hy Ho Hsh Hl.
  assert (Hgrow : forall o w', text_result op w = 1 -> text_step op w = w' -> growing op = true ->
    ys_grows a y w' o ->
    exists r y' a', o = Done ((r, Some y'), a') /\ (Forall (eq true) a -> Forall (eq true) a') /\
      (r = text_result op w /\ ys_holds y' (text_step op w) \/
       ~ Forall (eq true) a /\ growing op = true /\ r = 0 /\ y' = y)).
  { intros o w' -> -> Hg (r & y' & a' & -> & Ha & [(-> & y1 & -> & Hy1)|(Hf & -> & ->)]);
      do 3 eexists; (split; [done|]); (split; [done|]); [by left|by right]. }
  assert (Hstill : forall m r y', m = Done (r, Some y') -> r = text_result op w -> ys_holds y' (text_step op w) ->
    exists r0 y0 a', clift m a = Done ((r0, Some y0), a') /\ (Forall (eq true) a -> Forall (eq true) a') /\
      (r0 = text_result op w /\ ys_holds y0 (text_step op w) \/
       ~ Forall (eq true) a /\ growing op = true /\ r0 = 0 /\ y0 = y)).
  { intros m r y' -> -> Hy'. do 3 eexists. split; [done|]. split; [done|]. by left. }
  destruct op; cbn [op_growth op_ok ys_apply] in *.
  - by eapply Hgrow, ys_cat_ok.
  - by eapply Hgrow, ys_tac_ok.
  - destruct Ho. by eapply Hgrow, ys_ntac_ok.
  - by eapply Hgrow, ys_putc_ok.
  - by eapply Hgrow, ys_addc_ok.
  - destruct (ys_trunc_ok y w Hy) as (y1 & -> & Hy1). by eapply Hstill.
  - destruct (ys_ltrim_ok y w Hy) as (y1 & -> & Hy1). by eapply Hstill.
  - destruct (ys_rtrim_ok y w Hy) as (y1 & -> & Hy1). by eapply Hstill.
  - destruct (ys_trim_ok y w Hy) as (y1 & -> & Hy1). by eapply Hstill.
  - destruct (ys_lshift_ok y w Hy) as (y1 & -> & Hy1). rewrite ltrim_text_id in Hy1 by done. by eapply Hstill.
  - destruct (ys_rshift_ok y w Hy) as (y1 & -> & Hy1). by eapply Hstill.
Qed.

(** C34: the strings of ylib implement texts: for every ystring that holds a
    text [w] and every sequence of concatenations, prepends, single
    characters, truncations, trims and shifts whose sources are NUL-terminated
    and whose result stays below 2^31 bytes, and in which no [ys_lshift] meets
    a blank as the second character (it would remove that too), the sequence
    runs without an access outside a block, whatever the allocator answers; its
    results and
    the text it leaves are those of the list functions, where an operation the
    allocator refuses returns 0 and changes nothing, and when no allocation
    fails the final text is exactly the list functions' one. *)
Theorem ystr_operations_refine (ops : list ys_op) (y : ystr) (w : bytes) (a : alloc) :
  ys_holds y w -> Forall op_ok ops -> shifts_ok ops w -> lenZ w + growth ops < 2 ^ 31 ->
  exists rs y' w' a',
    ys_run ops (Some y) a = Done ((rs, Some y'), a') /\ ys_holds y' w' /\ text_run ops rs w w' /\
    (Forall (eq true) a -> w' = foldl (fun w op => text_step op w) w ops).
Proof.
  intros Hy Ho. revert y w a Hy. induction Ho as [|op ops Hop Hops IH]; intros y w a Hy Hsh Hl.
  { do 4 eexists. split; [done|]. split; [done|]. split; [constructor|done]. }
  cbn [growth foldr] in Hl. fold (growth ops) in Hl. cbn [ys_run].
  assert (Hg : 0 <= growth ops).
  { clear. induction ops as [|op ops IH]; [done|]. cbn [growth foldr]. fold (growth ops).
    pose proof (op_growth_nonneg op). lia. }
  pose proof (text_step_growth op w) as Hs. pose proof (op_growth_nonneg op) as H0.
  destruct Hsh as (Hs0 & Hs1 & Hs2). destruct (ys_apply_ok op y w a Hy Hop Hs0 ltac:(lia)) as (r & y1 & a1 & E & Ha & Hc).
  unfold cbind at 1. rewrite E.
  destruct Hc as [[-> Hy1]|(Hf & Hgr & -> & ->)].
  - destruct (IH y1 (text_step op w) a1 Hy1 Hs1 ltac:(lia)) as (rs & y' & w' & a' & E' & Hy' & Hr & Hall).
    unfold cbind. rewrite E'. do 4 eexists. split; [done|]. split; [done|]. split; [by constructor|].
    intros HT. by apply Hall, Ha.
  - destruct (IH y w a1 Hy (Hs2 Hgr) ltac:(lia)) as (rs & y' & w' & a' & E' & Hy' & Hr & _).
    unfold cbind. rewrite E'. do 4 eexists. split; [done|]. split; [done|]. split; [by constructor|].
    intros HT. by destruct Hf.
Qed.
Lemma ystr_operations_refine_witness :
  exists rs y' w' a',
    ys_run [OpAddc 98; OpTac (Some [32; 97; 0]); OpLtrim; OpLshift; OpPutc 99; OpRshift]
      (Some {| ys_total := 2; ys_used := 1; ys_blk := [120; 0] |}) [false] = Done ((rs, Some y'), a') /\
    ys_holds y' w' /\ text_run [OpAddc 98; OpTac (Some [32; 97; 0]); OpLtrim; OpLshift; OpPutc 99; OpRshift] rs [120] w' /\
    (Forall (eq true) [false] ->
     w' = foldl (fun w op => text_step op w) [120]
            [OpAddc 98; OpTac (Some [32; 97; 0]); OpLtrim; OpLshift; OpPutc 99; OpRshift]).
Proof.
  apply ystr_operations_refine.
  - by constructor; [exists []| | | |apply Forall_singleton].
  - by repeat constructor.
  - by repeat (split || intros).
  - done.
Defined.

(** What [ys_lshift] does where the theorem above says nothing: for every
    text with a blank behind its first character it returns the first
    character, but removes with it all the blanks that follow, so that the text
    left is shorter than the text without its first character. *)
Theorem lshift_drops_blanks (y : ystr) (c b : Z) (w : bytes) :
  ys_holds y (c :: b :: w) -> blank b = true ->
  exists y', ys_lshift (Some y) = Done (c, Some y') /\ ys_holds y' (ltrim_text w) /\ lenZ (ltrim_text w) < lenZ (b :: w).
Proof.
  intros Hy Hb. destruct (ys_lshift_ok y _ Hy) as (y' & E & Hy'). cbn [hd tl ltrim_text] in *. rewrite Hb in Hy'.
  exists y'. do 2 (split; [done|]). pose proof (lenZ_ltrim w). lens.
Qed.
Lemma lshift_drops_blanks_witness :
  exists y', ys_lshift (Some {| ys_total := 5; ys_used := 4; ys_blk := [97; 32; 32; 98; 0] |}) = Done (97, Some y') /\
    ys_holds y' [98] /\ lenZ (ltrim_text [32; 98]) < lenZ [32; 32; 98].
Proof.
  apply (lshift_drops_blanks _ 97 32 [32; 98]); [|done].
  by constructor; [exists []| | | |repeat constructor].
Defined.

(** ** XML entities *)
Definition xml_char (b : Z) : bytes :=
  if b =? LT then str "&lt;" else if b =? GT then str "&gt;"
  else if b =? DQUOTE then str "&quot;" else if b =? QUOTE then str "&apos;"
  else if b =? AMP then str "&amp;" else [b].
Definition xml_text (s : bytes) : bytes := concat (map xml_char s).

Lemma lenZ_xml_char b : 1 <= lenZ (xml_char b) <= 6.
Proof. unfold xml_char. by repeat case_match. Qed.
Lemma lenZ_xml_text s : lenZ s <= lenZ (xml_text s) <= 6 * lenZ s.
Proof.
  induction s as [|b s IH]; [done|]. unfold xml_text in *. cbn [map concat].
  pose proof (lenZ_xml_char b). rewrite lenZ_app, lenZ_cons. lia.
Qed.
Lemma xml_char_text b : b <> 0 -> Forall (fun x => x <> 0) (xml_char b).
Proof. intros Hb. unfold xml_char. repeat case_match; repeat constructor; done. Qed.
Lemma xml_text_text s : Forall (fun x => x <> 0) s -> Forall (fun x => x <> 0) (xml_text s).
Proof.
  induction 1 as [|b s Hb _ IH]; [constructor|]. apply Forall_app. by split; [apply xml_char_text|].
Qed.

(** With an allocator that answers, an operation that may need memory is done. *)
Lemma ys_grows_granted a y w o :
  ys_grows a y w o -> Forall (eq true) a ->
  exists y' a', o = Done ((1, Some y'), a') /\ ys_holds y' w /\ Forall (eq true) a'.
Proof.
  intros (r & y' & a' & -> & Ha & [(-> & y1 & -> & Hy)|(Hf & _)]) HT; [|by destruct Hf].
  do 2 eexists. split; [done|]. split; [done|]. by apply Ha.
Qed.
Lemma ys_cat_lit y u (s : string) w a :
  str s = w -> Forall (fun b => b <> 0) w -> ys_holds y u -> lenZ u + lenZ w < 2 ^ 31 ->
  ys_grows a y (u ++ w) (ys_cat (Some y) (Some (lit s)) a).
Proof. intros Hs Hw Hy Hl. apply ys_cat_ok; [done| |done]. unfold lit. rewrite Hs. by apply c_string_end. Qed.

Lemma str2xmlentity_loop_ok s rest y u a :
  ys_holds y u -> Forall (eq true) a -> Forall (fun b => b <> 0) s -> lenZ u + lenZ (xml_text s) < 2 ^ 31 ->
  exists y' a', str2xmlentity_loop (s ++ 0 :: rest) (Some y) a = Done (Some y', a') /\
    ys_holds y' (u ++ xml_text s) /\ Forall (eq true) a'.
Proof.
  intros Hy Ha Hs. revert y u a Hy Ha.
  induction Hs as [|b s Hb Hs IH]; intros y u a Hy Ha Hl; cbn [app str2xmlentity_loop].
  { rewrite app_nil_r. by exists y, a. }
  rewrite (proj2 (Z.eqb_neq b 0)) by done. unfold xml_text in Hl. cbn [map concat] in Hl.
  fold (xml_text s) in Hl. rewrite lenZ_app in Hl. pose proof (lenZ_nonneg (xml_text s)) as H0.
  set (m := if b =? LT then _ else _).
  assert (Hm : ys_grows a y (u ++ xml_char b) (m a)).
  { pose proof (xml_char_text b Hb) as Ht. unfold m, xml_char in *.
    repeat case_match; try (apply ys_cat_lit; [done|done|done|lia]).
    pose proof (ys_addc_ok y u b a Hy) as Hadd. rewrite (proj2 (Z.eqb_neq b 0)) in Hadd by done. apply Hadd.
    revert Hl. lens. }
  destruct (ys_grows_granted a y _ _ Hm Ha) as (y1 & a1 & E & Hy1 & Ha1). unfold cbind. rewrite E. cbn [snd].
  destruct (IH y1 (u ++ xml_char b) a1 Hy1 Ha1) as (y' & a' & E' & Hy' & Ha'); [lens|].
  exists y', a'. unfold xml_text. cbn [map concat]. rewrite app_assoc. done.
Qed.

Lemma xml_char_entity b rest : b <> 0 -> entity_at (xml_char b ++ rest) = Done (b, lenZ (xml_char b)).
Proof.
  intros Hb. unfold xml_char.
  destruct (Z.eqb_spec b LT) as [->|?]; [by destruct rest|].
  destruct (Z.eqb_spec b GT) as [->|?]; [by destruct rest|].
  destruct (Z.eqb_spec b DQUOTE) as [->|?]; [by destruct rest|].
  destruct (Z.eqb_spec b QUOTE) as [->|?]; [by destruct rest|].
  destruct (Z.eqb_spec b AMP) as [->|?]; [by destruct rest|].
  unfold entity_at. cbn [app deref obind]. by rewrite (proj2 (Z.eqb_neq b AMP)).
Qed.

Lemma xmlentity2str_loop_ok s rest y u fuel a :
  ys_holds y u -> Forall (eq true) a -> Forall (fun b => b <> 0) s -> lenZ u + lenZ s < 2 ^ 31 ->
  (length s < fuel)%nat ->
  exists y' a', xmlentity2str_loop fuel (xml_text s ++ 0 :: rest) (Some y) a = Done (Some y', a') /\
    ys_holds y' (u ++ s) /\ Forall (eq true) a'.
Proof.
  intros Hy Ha Hs. revert y u a fuel Hy Ha.
  induction Hs as [|b s Hb Hs IH]; intros y u a [|fuel] Hy Ha Hl Hf; try (cbn [length] in Hf; lia).
  { rewrite app_nil_r. by exists y, a. }
  unfold xml_text. cbn [map concat]. fold (xml_text s). rewrite <- app_assoc. cbn [xmlentity2str_loop].
  pose proof (xml_char_entity b (xml_text s ++ 0 :: rest) Hb) as He.
  pose proof (xml_char_text b Hb) as Ht. pose proof (lenZ_xml_char b) as Hc.
  assert (Hd : exists x, deref (xml_char b ++ xml_text s ++ 0 :: rest) = Done x /\ x <> 0).
  { destruct (xml_char b) as [|x k]; [revert Hc; lens|]. exists x. by inversion Ht. }
  destruct Hd as (x & Hx & Hx0). unfold clift at 1, cbind at 1. rewrite Hx.
  rewrite (proj2 (Z.eqb_neq x 0)) by done. unfold clift at 1, cbind at 1. rewrite He.
  pose proof (ys_addc_ok y u b a Hy ltac:(revert Hl; lens)) as Hm.
  rewrite (proj2 (Z.eqb_neq b 0)) in Hm by done.
  destruct (ys_grows_granted a y _ _ Hm Ha) as (y1 & a1 & E & Hy1 & Ha1). unfold cbind at 1. rewrite E.
  cbn [snd]. rewrite dropZ_app_eq by done. cbn [length] in Hf.
  destruct (IH y1 (u ++ [b]) a1 fuel Hy1 Ha1) as (y' & a' & E' & Hy' & Ha'); [revert Hl; lens|lia|].
  exists y', a'. replace (u ++ b :: s) with ((u ++ [b]) ++ s) by (by rewrite <- app_assoc). done.
Qed.

(** The start of both functions: an empty ystring. *)
Lemma ys_new_empty a :
  Forall (eq true) a ->
  exists y a', ys_new (Some [0]) a = Done (Some y, a') /\ ys_holds y [] /\ Forall (eq true) a'.
Proof.
  intros HT. destruct (ys_new_ok (Some [0]) [] a) as (o & a' & E & Ha & [(y & -> & Hy)|[Hf _]]);
    [done|done|done| |by destruct Hf].
  exists y, a'. split; [done|]. split; [done|]. by apply Ha.
Qed.
Lemma ys_string_granted y w a :
  ys_holds y w -> Forall (eq true) a ->
  exists a', ys_string (Some y) a = Done (Some (w ++ [0]), a') /\ Forall (eq true) a'.
Proof.
  intros Hy HT. destruct (ys_string_ok y w a Hy) as (o & a' & E & Ha & [->|[Hf _]]); [|by destruct Hf].
  exists a'. split; [done|]. by apply Ha.
Qed.

Lemma str2xmlentity_ok s rest a :
  Forall (fun b => b <> 0) s -> 6 * lenZ s < 2 ^ 31 -> Forall (eq true) a ->
  exists a', str2xmlentity (Some (s ++ 0 :: rest)) a = Done (Some (xml_text s ++ [0]), a') /\ Forall (eq true) a'.
Proof.
  intros Hs Hl HT. pose proof (lenZ_xml_text s) as Hx. unfold str2xmlentity, cbind at 1.
  destruct (ys_new_empty a HT) as (y & a1 & -> & Hy & Ha1).
  destruct (str2xmlentity_loop_ok s rest y [] a1 Hy Ha1 Hs) as (y1 & a2 & E & Hy1 & Ha2); [lens|].
  unfold cbind. rewrite E. by apply ys_string_granted.
Qed.

(** [xmlentity2str] undoes [str2xmlentity]: for every text without NULs of
    at most 2^31 / 6 bytes, in a block of any length, and an allocator that
    answers, the first function produces a string in which none of the four
    characters that delimit markup is left, and the second one turns that
    string back into exactly the text. *)
Theorem xmlentity_roundtrip (s rest : bytes) (a : alloc) :
  Forall (fun b => b <> 0) s -> 6 * lenZ s < 2 ^ 31 -> Forall (eq true) a ->
  exists e a1 a2,
    str2xmlentity (Some (s ++ 0 :: rest)) a = Done (Some e, a1) /\
    Forall (fun b => ~ In b [LT; GT; DQUOTE; QUOTE]) e /\
    xmlentity2str (Some e) a1 = Done (Some (s ++ [0]), a2).
Proof.
  intros Hs Hl HT. pose proof (lenZ_xml_text s) as Hx.
  destruct (str2xmlentity_ok s rest a Hs Hl HT) as (a1 & E & Ha1). exists (xml_text s ++ [0]), a1.
  unfold xmlentity2str, cbind at 1. destruct (ys_new_empty a1 Ha1) as (y & a2 & -> & Hy & Ha2).
  destruct (xmlentity2str_loop_ok s [] y [] (S (length (xml_text s ++ [0]))) a2 Hy Ha2 Hs)
    as (y1 & a3 & E1 & Hy1 & Ha3); [lens|rewrite length_app; unfold lenZ in Hx; lia|].
  destruct (ys_string_granted y1 _ a3 Hy1 Ha3) as (a4 & E2 & _).
  exists a4. split; [done|]. split.
  - apply Forall_app. split; [|by apply Forall_singleton; cbv; naive_solver lia].
    clear. induction s as [|b s IH]; [constructor|]. apply Forall_app. split; [|exact IH].
    unfold xml_char. repeat case_match; repeat constructor; cbv; try lia.
    rewrite !Z.eqb_neq in *. unfold LT, GT, DQUOTE, QUOTE in *. naive_solver lia.
  - unfold cbind. rewrite E1. exact E2.
Qed.
Lemma xmlentity_roundtrip_witness :
  exists e a1 a2,
    str2xmlentity (Some ([97; 60; 38; 98; 59] ++ 0 :: [7])) [true] = Done (Some e, a1) /\
    Forall (fun b => ~ In b [LT; GT; DQUOTE; QUOTE]) e /\
    xmlentity2str (Some e) a1 = Done (Some ([97; 60; 38; 98; 59] ++ [0]), a2).
Proof.
  apply xmlentity_roundtrip; [by repeat constructor|done|by repeat constructor].
Defined.
