(* ===== verification/Ylist.v ===== *)
(** * Ylist: the doubly linked lists of lib/ylib/ylist.c

    The heap holds list headers ([ylist_t]) and elements ([ylist_elem_t]) under
    their addresses; 0 is the null pointer.  [YMALLOC] is [calloc]: a fresh
    block has every field null, and a failed call yields the null pointer, which
    [ylist_add] and [ylist_push] write through.  An access to an address that
    holds nothing is an access to released memory.

    A header that represents a sequence of elements ([ylist_rep]) represents,
    after each operation, the sequence the deque operation gives, and no list
    that shares no element with it changes ([ylist_refines_deque]); [ylist_swap]
    does not keep this ([ylist_swap_corrupts]). *)
From S2P Require Import Prelude.
From S2P Require Import Dynabin.

Record ylist_t := { yl_first : Z; yl_last : Z }.
Record ylist_elem := { el_data : Z; el_prev : Z; el_next : Z; el_list : Z }.
Record heap := {
  h_lists : gmap Z ylist_t;
  h_elems : gmap Z ylist_elem;
  h_next : Z;         (* the address of the next block *)
  h_alloc : alloc     (* what the allocator answers *)
}.

(** ** Accesses *)
Definition read {A} (m : gmap Z A) (p : Z) : outcome A :=
  if p =? 0 then Fault NullDeref
  else match m !! p with Some x => Done x | None => Fault UseAfterFree end.
Definition get_list (p : Z) : CM heap ylist_t := fun h =>
  olet! l := read (h_lists h) p in Done (l, h).
Definition get_elem (p : Z) : CM heap ylist_elem := fun h =>
  olet! e := read (h_elems h) p in Done (e, h).
Definition with_lists (m : gmap Z ylist_t) (h : heap) : heap :=
  {| h_lists := m; h_elems := h_elems h; h_next := h_next h; h_alloc := h_alloc h |}.
Definition with_elems (m : gmap Z ylist_elem) (h : heap) : heap :=
  {| h_lists := h_lists h; h_elems := m; h_next := h_next h; h_alloc := h_alloc h |}.
Definition upd_list (p : Z) (f : ylist_t -> ylist_t) : CM heap unit := fun h =>
  olet! l := read (h_lists h) p in Done (tt, with_lists (<[p := f l]> (h_lists h)) h).
Definition upd_elem (p : Z) (f : ylist_elem -> ylist_elem) : CM heap unit := fun h =>
  olet! e := read (h_elems h) p in Done (tt, with_elems (<[p := f e]> (h_elems h)) h).
Definition free_list (p : Z) : CM heap unit := fun h =>
  olet! _ := read (h_lists h) p in Done (tt, with_lists (delete p (h_lists h)) h).
Definition free_elem (p : Z) : CM heap unit := fun h =>
  olet! _ := read (h_elems h) p in Done (tt, with_elems (delete p (h_elems h)) h).

Definition set_first (p : Z) (l : ylist_t) := {| yl_first := p; yl_last := yl_last l |}.
Definition set_last (p : Z) (l : ylist_t) := {| yl_first := yl_first l; yl_last := p |}.
Definition set_data (d : Z) (e : ylist_elem) :=
  {| el_data := d; el_prev := el_prev e; el_next := el_next e; el_list := el_list e |}.
Definition set_prev (p : Z) (e : ylist_elem) :=
  {| el_data := el_data e; el_prev := p; el_next := el_next e; el_list := el_list e |}.
Definition set_next (p : Z) (e : ylist_elem) :=
  {| el_data := el_data e; el_prev := el_prev e; el_next := p; el_list := el_list e |}.
Definition set_list (p : Z) (e : ylist_elem) :=
  {| el_data := el_data e; el_prev := el_prev e; el_next := el_next e; el_list := p |}.

(** A fresh address, 0 when the allocator fails. *)
Definition fresh : CM heap Z := fun h =>
  let '(ok, a) := script_next true (h_alloc h) in
  Done (if ok : bool then h_next h else 0,
        {| h_lists := h_lists h; h_elems := h_elems h; h_next := h_next h + 1; h_alloc := a |}).
Definition new_elem : CM heap Z :=
  let! p := fresh in
  fun h => Done (p, if p =? 0 then h
                    else with_elems (<[p := {| el_data := 0; el_prev := 0; el_next := 0; el_list := 0 |}]> (h_elems h)) h).

(** ** Operations *)
Definition ylist_new : CM heap Z :=
  let! p := fresh in
  fun h => Done (p, if p =? 0 then h
                    else with_lists (<[p := {| yl_first := 0; yl_last := 0 |}]> (h_lists h)) h).

(** The elements the delete function is applied to, in order; [f] tells
    whether there is one. *)
Fixpoint delete_loop (fuel : nat) (elem : Z) (f : bool) : CM heap (list Z) :=
  if elem =? 0 then cret []
  else match fuel with
  | O => cfault OutOfFuel
  | S fuel =>
      let! e := get_elem elem in
      do! free_elem elem in
      let! r := delete_loop fuel (el_next e) f in
      cret (if f then el_data e :: r else r)
  end.
Definition ylist_delete (fuel : nat) (lst : Z) (f : bool) : CM heap (list Z) :=
  let! l := get_list lst in
  let! r := delete_loop fuel (yl_first l) f in
  do! free_list lst in
  cret r.

Definition ylist_add (lst data : Z) : CM heap Z :=
  let! elem := new_elem in
  do! upd_elem elem (set_data data) in
  let! l := get_list lst in
  do! upd_elem elem (set_prev (yl_last l)) in
  do! upd_elem elem (set_list lst) in
  do! (if negb (yl_last l =? 0) then upd_elem (yl_last l) (set_next elem)
       else upd_list lst (fun l => set_last elem (set_first elem l))) in
  do! upd_list lst (set_last elem) in
  cret elem.

Definition ylist_push (lst data : Z) : CM heap Z :=
  let! elem := new_elem in
  do! upd_elem elem (set_data data) in
  let! l := get_list lst in
  do! upd_elem elem (set_next (yl_first l)) in
  do! upd_elem elem (set_list lst) in
  do! (if negb (yl_first l =? 0) then upd_elem (yl_first l) (set_prev elem)
       else upd_list lst (fun l => set_first elem (set_last elem l))) in
  do! upd_list lst (set_first elem) in
  cret elem.

Definition ylist_remove (lst : Z) : CM heap Z :=
  let! l := get_list lst in
  if yl_last l =? 0 then cret 0
  else
    let! e := get_elem (yl_last l) in
    do! upd_list lst (set_last (el_prev e)) in
    do! (if negb (el_prev e =? 0) then upd_elem (el_prev e) (set_next 0)
         else upd_list lst (set_first 0)) in
    do! free_elem (yl_last l) in
    cret (el_data e).

Definition ylist_pop (lst : Z) : CM heap Z :=
  let! l := get_list lst in
  if yl_first l =? 0 then cret 0
  else
    let! e := get_elem (yl_first l) in
    do! upd_list lst (set_first (el_next e)) in
    do! (if negb (el_next e =? 0) then upd_elem (el_next e) (set_prev 0)
         else upd_list lst (set_last 0)) in
    do! free_elem (yl_first l) in
    cret (el_data e).

(** The two halves of [ylist_swap]. *)
Definition swap_extract (elem : Z) : CM heap unit :=
  let! e := get_elem elem in
  let! src := get_list (el_list e) in
  do! (if yl_first src =? elem then upd_list (el_list e) (set_first (el_next e))
       else if yl_last src =? elem then upd_list (el_list e) (set_last (el_prev e))
       else cret tt) in
  do! (if negb (el_next e =? 0) then upd_elem (el_next e) (set_prev (el_prev e)) else cret tt) in
  let! e := get_elem elem in
  (if negb (el_prev e =? 0) then upd_elem (el_prev e) (set_next (el_next e)) else cret tt).
Definition swap_append (elem dest : Z) : CM heap unit :=
  do! upd_elem elem (set_list dest) in
  let! d := get_list dest in
  if negb (yl_last d =? 0) then
    do! upd_elem elem (set_prev (yl_last d)) in
    upd_elem (yl_last d) (set_next elem)
  else
    do! upd_elem elem (fun e => set_prev 0 (set_next 0 e)) in
    upd_list dest (fun d => set_first elem (set_last elem d)).
Definition ylist_swap (elem dest : Z) : CM heap unit :=
  do! swap_extract elem in swap_append elem dest.

(** ** What a header represents *)

(** The address of the element at position [i], 0 outside. *)
Definition addr_at (es : list (Z * Z)) (i : nat) : Z := default 0 (fst <$> es !! i).
Definition addr_before (es : list (Z * Z)) (i : nat) : Z :=
  match i with O => 0 | S i => addr_at es i end.

(** [es]: the addresses of the elements with their data, in order. *)
Record ylist_rep (h : heap) (p : Z) (es : list (Z * Z)) : Prop := {
  yr_null : p <> 0;
  yr_list : h_lists h !! p = Some {| yl_first := addr_at es 0; yl_last := addr_before es (length es) |};
  yr_elem : forall i a d, es !! i = Some (a, d) ->
    h_elems h !! a = Some {| el_data := d; el_prev := addr_before es i; el_next := addr_at es (S i); el_list := p |};
  yr_nodup : NoDup (map fst es);
  yr_addr : Forall (fun e => e.1 <> 0) es
}.
(** Addresses in use are below the next one. *)
Record heap_ok (h : heap) : Prop := {
  ho_next : 0 < h_next h;
  ho_lists : forall p l, h_lists h !! p = Some l -> p < h_next h;
  ho_elems : forall p e, h_elems h !! p = Some e -> p < h_next h
}.

(** ** Lemmas *)
Lemma read_ok {A} (m : gmap Z A) p x : p <> 0 -> m !! p = Some x -> read m p = Done x.
Proof. intros Hp Hx. unfold read. by rewrite (proj2 (Z.eqb_neq p 0)), Hx by done. Qed.
Lemma read_null {A} (m : gmap Z A) : read m 0 = Fault NullDeref.
Proof. done. Qed.

(** [heap_step]: run the accesses to addresses whose contents are known. *)
Ltac heap_step :=
  unfold get_list, get_elem, upd_list, upd_elem, free_list, free_elem, cbind, cret;
  cbn [h_lists h_elems h_next h_alloc with_lists with_elems yl_first yl_last el_prev el_next el_data el_list
       set_first set_last set_data set_prev set_next set_list];
  repeat (erewrite read_ok by (done || simplify_map_eq; done);
          cbn [obind h_lists h_elems h_next h_alloc with_lists with_elems yl_first yl_last
               el_prev el_next el_data el_list set_first set_last set_data set_prev set_next set_list]).

(** The allocator answers. *)
Definition granted (h : heap) : Prop := Forall (eq true) (h_alloc h).
Lemma fresh_ok h :
  granted h ->
  exists al, Forall (eq true) al /\
    fresh h = Done (h_next h, {| h_lists := h_lists h; h_elems := h_elems h; h_next := h_next h + 1; h_alloc := al |}).
Proof.
  unfold granted, fresh. destruct (h_alloc h) as [|b al]; cbn [script_next]; intros H.
  - by exists [].
  - apply Forall_cons in H as [<- H]. by exists al.
Qed.

(** *** Sequences of elements *)
Section rep.
Context (p : Z).
Implicit Types (es : list (Z * Z)) (m : gmap Z ylist_elem).

(** The elements of [es] are linked in [m]. *)
Definition links m es : Prop := forall i a d, es !! i = Some (a, d) ->
  m !! a = Some {| el_data := d; el_prev := addr_before es i; el_next := addr_at es (S i); el_list := p |}.

Lemma addr_at_end es : addr_at es (length es) = 0.
Proof. unfold addr_at. by rewrite lookup_ge_None_2. Qed.
Lemma addr_at_app es fs i : (i < length es)%nat -> addr_at (es ++ fs) i = addr_at es i.
Proof. intros Hi. unfold addr_at. by rewrite lookup_app_l. Qed.
Lemma addr_at_mid es a d fs : addr_at (es ++ (a, d) :: fs) (length es) = a.
Proof. unfold addr_at. by rewrite lookup_app_r, Nat.sub_diag by lia. Qed.
Lemma addr_before_app es fs i : (i <= length es)%nat -> addr_before (es ++ fs) i = addr_before es i.
Proof. intros Hi. destruct i as [|i]; [done|]. cbn [addr_before]. apply addr_at_app. lia. Qed.
Lemma addr_before_snoc es a d : addr_before (es ++ [(a, d)]) (length (es ++ [(a, d)])) = a.
Proof. rewrite length_app, Nat.add_1_r. cbn [addr_before]. apply addr_at_mid. Qed.

Lemma lookup_snoc es a d i b c :
  (es ++ [(a, d)]) !! i = Some (b, c) ->
  (i < length es)%nat /\ es !! i = Some (b, c) \/ i = length es /\ b = a /\ c = d.
Proof.
  intros H. destruct (decide (i < length es)%nat) as [Hi|Hi].
  - left. by rewrite lookup_app_l in H.
  - right. rewrite lookup_app_r in H by lia. destruct (i - length es)%nat as [|k] eqn:E; [|by destruct k].
    injection H as <- <-. split; [lia|done].
Qed.
(** An element is found at one position only. *)
Lemma addr_inj es i j a c d :
  NoDup (map fst es) -> es !! i = Some (a, c) -> es !! j = Some (a, d) -> i = j.
Proof.
  intros Hn Hi Hj. eapply (NoDup_lookup (map fst es)); [done| |]; rewrite list_lookup_fmap.
  - by rewrite Hi.
  - by rewrite Hj.
Qed.

Lemma in_addrs es i a d : es !! i = Some (a, d) -> In a (map fst es).
Proof.
  intros Hi. apply list_elem_of_In, list_elem_of_fmap. exists (a, d). split; [done|].
  by eapply list_elem_of_lookup_2.
Qed.
Lemma not_last es i a d :
  NoDup (map fst es) -> es !! i = Some (a, d) -> S i <> length es -> a <> addr_before es (length es).
Proof.
  intros Hn Hi He Ha. pose proof (lookup_lt_Some _ _ _ Hi) as Hl.
  destruct (length es) as [|k] eqn:Ek; [lia|]. cbn [addr_before] in Ha.
  destruct (lookup_lt_is_Some_2 es k) as [[b c] Hk]; [lia|].
  unfold addr_at in Ha. rewrite Hk in Ha. cbn in Ha. subst b.
  pose proof (addr_inj es i k a d c Hn Hi Hk). lia.
Qed.
Lemma is_last es i x : es !! i = Some x -> S i = length es -> es = take i es ++ [x].
Proof. intros Hi He. rewrite <- (take_S_r es i) by done. by rewrite He, firstn_all. Qed.

(** The links of a sequence with one more element at its end, and the links of
    the sequence without it, in a map that differs in the two cells only. *)
Lemma links_snoc m m' es a d :
  links m es -> ~ In a (map fst es) ->
  m' !! a = Some {| el_data := d; el_prev := addr_before es (length es); el_next := 0; el_list := p |} ->
  (forall es' b c, es = es' ++ [(b, c)] -> m' !! b = set_next a <$> m !! b) ->
  (forall b, In b (map fst es) -> b <> addr_before es (length es) -> m' !! b = m !! b) ->
  NoDup (map fst es) ->
  links m' (es ++ [(a, d)]).
Proof.
  intros Hm Ha Hnew Hlast Hrest Hnd i b c Hi. apply lookup_snoc in Hi as [[Hl Hi]|(-> & -> & ->)].
  - rewrite addr_before_app by lia. specialize (Hm i b c Hi) as Hb.
    destruct (decide (S i = length es)) as [He|He].
    + rewrite (Hlast _ _ _ (is_last es i (b, c) Hi He)), Hb, He, addr_at_mid. done.
    + rewrite (addr_at_app es) by lia. rewrite <- Hb.
      apply Hrest; [by eapply in_addrs|by eapply not_last].
  - rewrite addr_before_app by lia. rewrite Hnew. do 2 f_equal.
    replace (S (length es)) with (length (es ++ [(a, d)])) by (rewrite length_app; simpl; lia).
    symmetry. apply addr_at_end.
Qed.
Lemma links_unsnoc m m' es a d :
  links m (es ++ [(a, d)]) ->
  NoDup (map fst (es ++ [(a, d)])) ->
  (forall es' b c, es = es' ++ [(b, c)] -> m' !! b = set_next 0 <$> m !! b) ->
  (forall b, In b (map fst es) -> b <> addr_before es (length es) -> m' !! b = m !! b) ->
  links m' es.
Proof.
  intros Hm Hnd Hlast Hrest i b c Hi. pose proof (lookup_lt_Some _ _ _ Hi) as Hl.
  specialize (Hm i b c (lookup_app_l_Some _ _ _ _ Hi)) as Hb.
  rewrite addr_before_app in Hb by lia. destruct (decide (S i = length es)) as [He|He].
  - rewrite (Hlast _ _ _ (is_last es i (b, c) Hi He)), Hb, He, addr_at_end. done.
  - rewrite (addr_at_app es) in Hb by lia. rewrite <- Hb.
    rewrite map_app in Hnd. apply NoDup_app in Hnd as (Hnd & _ & _).
    apply Hrest; [by eapply in_addrs|by eapply not_last].
Qed.

(** The same at the front. *)
Lemma addr_at_cons x es i : addr_at (x :: es) (S i) = addr_at es i.
Proof. done. Qed.
Lemma addr_before_cons es a d i :
  addr_before ((a, d) :: es) (S i) = if decide (i = O) then a else addr_before es i.
Proof. by destruct i. Qed.
Lemma not_first es i a d b c :
  NoDup (map fst ((b, c) :: es)) -> es !! i = Some (a, d) -> a <> b.
Proof.
  intros Hn Hi ->. apply NoDup_cons in Hn as [Hn _]. apply Hn, list_elem_of_In. by eapply in_addrs.
Qed.
Lemma links_cons m m' es a d :
  links m es -> NoDup (map fst es) ->
  m' !! a = Some {| el_data := d; el_prev := 0; el_next := addr_at es 0; el_list := p |} ->
  (forall es' b c, es = (b, c) :: es' -> m' !! b = set_prev a <$> m !! b) ->
  (forall b, In b (map fst es) -> b <> addr_at es 0 -> m' !! b = m !! b) ->
  links m' ((a, d) :: es).
Proof.
  intros Hm Hnd Hnew Hfirst Hrest [|i] b c Hi; [by injection Hi as <- <-|].
  cbn [lookup list_lookup] in Hi. specialize (Hm i b c Hi) as Hb. rewrite addr_before_cons, addr_at_cons.
  destruct es as [|[x y] es]; [done|]. destruct i as [|i]; cbn [decide].
  - injection Hi as <- <-. by rewrite (Hfirst _ _ _ eq_refl), Hb.
  - rewrite decide_False by done. rewrite <- Hb. apply Hrest; [by eapply (in_addrs (_ :: _) (S i))|].
    by eapply not_first.
Qed.
Lemma links_uncons m m' es a d :
  links m ((a, d) :: es) -> NoDup (map fst ((a, d) :: es)) ->
  (forall es' b c, es = (b, c) :: es' -> m' !! b = set_prev 0 <$> m !! b) ->
  (forall b, In b (map fst es) -> b <> addr_at es 0 -> m' !! b = m !! b) ->
  links m' es.
Proof.
  intros Hm Hnd Hfirst Hrest i b c Hi. specialize (Hm (S i) b c Hi) as Hb.
  rewrite addr_before_cons, addr_at_cons in Hb.
  destruct es as [|[x y] es]; [done|]. destruct i as [|i]; cbn [decide] in Hb.
  - injection Hi as <- <-. by rewrite (Hfirst _ _ _ eq_refl), Hb.
  - rewrite decide_False in Hb by done. rewrite <- Hb. apply Hrest; [by eapply (in_addrs (_ :: _) (S i))|].
    apply NoDup_cons in Hnd as [_ Hnd]. by eapply not_first.
Qed.
End rep.

(** *** Operations *)

(** What an operation on [p] leaves alone: the other headers and their
    elements. *)
Record touches (p : Z) (h h' : heap) : Prop := {
  to_lists : forall q, q <> p -> h_lists h' !! q = h_lists h !! q;
  to_elems : forall a e, h_elems h !! a = Some e -> el_list e <> p -> h_elems h' !! a = Some e;
  to_ok : heap_ok h';
  to_granted : granted h'
}.
Lemma rep_frame p q h h' fs :
  touches p h h' -> q <> p -> ylist_rep h q fs -> ylist_rep h' q fs.
Proof.
  intros [Hl He _ _] Hq [Hn Hr Hel Hd Ha]. constructor; [done|by rewrite Hl| |done|done].
  intros i a d Hi. eapply He; [by apply Hel|done].
Qed.
(** An element of another list, or none, is not in the sequence. *)
Lemma not_in_rep p h es a :
  ylist_rep h p es -> (forall e, h_elems h !! a = Some e -> el_list e <> p) -> ~ In a (map fst es).
Proof.
  intros Hr Ha. rewrite <- list_elem_of_In, list_elem_of_fmap. intros ([b c] & -> & Hb).
  apply list_elem_of_lookup_1 in Hb as [i Hi]. by eapply Ha; [eapply (yr_elem _ _ _ Hr)|].
Qed.
Lemma fresh_not_in p h es : heap_ok h -> ylist_rep h p es -> ~ In (h_next h) (map fst es).
Proof.
  intros Hh Hr. apply (not_in_rep p h); [done|]. intros e He. pose proof (ho_elems h Hh _ _ He). lia.
Qed.
(** The header of [p] and the elements [l] are all that changes. *)
Lemma touches_intro p h h' l :
  heap_ok h -> p < h_next h' -> h_next h <= h_next h' -> granted h' ->
  (forall q, q <> p -> h_lists h' !! q = h_lists h !! q) ->
  (forall a, ~ In a l -> h_elems h' !! a = h_elems h !! a) ->
  Forall (fun a => a = h_next h /\ h_next h < h_next h' \/
                   exists e, h_elems h !! a = Some e /\ el_list e = p) l ->
  touches p h h'.
Proof.
  intros Hh Hp Hn Hg Hl He Ht. rewrite Forall_forall in Ht.
  pose proof Hh as [H0 Hlo Heo]. constructor; [done| | |done].
  - intros a e Ha Hel. rewrite He; [done|]. intros [[-> _]|(e' & He' & Hp')]%list_elem_of_In%Ht.
    + specialize (Heo _ _ Ha). lia.
    + congruence.
  - constructor; [lia| |].
    + intros q x Hq. destruct (decide (q = p)) as [->|Hqp]; [done|].
      rewrite Hl in Hq by done. specialize (Hlo _ _ Hq). lia.
    + intros q e Hq. destruct (decide (q ∈ l)) as [Hin|Hout].
      * destruct (Ht q Hin) as [[-> ?]|(e' & He' & _)]; [lia|]. specialize (Heo _ _ He'). lia.
      * rewrite He in Hq by (by rewrite <- list_elem_of_In). specialize (Heo _ _ Hq). lia.
Qed.
Lemma rep_last p h es b c :
  ylist_rep h p (es ++ [(b, c)]) ->
  h_elems h !! b = Some {| el_data := c; el_prev := addr_before es (length es); el_next := 0; el_list := p |}
  /\ b <> 0.
Proof.
  intros [_ _ He _ Ha]. split.
  - rewrite (He (length es) b c (list_lookup_middle _ _ _ _ eq_refl)). do 2 f_equal.
    + by apply addr_before_app.
    + replace (S (length es)) with (length (es ++ [(b, c)])) by (rewrite length_app; simpl; lia).
      apply addr_at_end.
  - apply Forall_app in Ha as [_ Ha]. by apply Forall_cons in Ha as [Ha _].
Qed.

Lemma ylist_add_ok p d h es :
  heap_ok h -> granted h -> ylist_rep h p es ->
  exists h', ylist_add p d h = Done (h_next h, h') /\
    ylist_rep h' p (es ++ [(h_next h, d)]) /\ h_next h' = h_next h + 1 /\ touches p h h'.
Proof.
  intros Hh Hg Hr. pose proof (fresh_not_in p h es Hh Hr) as Hni. pose proof (ho_next h Hh) as H0.
  pose proof Hr as [Hp Hl He Hnd Ha]. pose proof (ho_lists h Hh _ _ Hl) as Hpn. unfold ylist_add, new_elem. unfold cbind at 1.
  destruct (fresh_ok h Hg) as (al & Hal & Hf). unfold cbind at 1. rewrite Hf.
  rewrite (proj2 (Z.eqb_neq (h_next h) 0)) by lia. assert (Hn0 : h_next h <> 0) by lia.
  assert (Hnd' : NoDup (map fst (es ++ [(h_next h, d)]))).
  { rewrite map_app. apply NoDup_app. split; [done|]. split; [|apply NoDup_singleton].
    intros x Hx ->%list_elem_of_singleton. apply Hni. by apply list_elem_of_In. }
  assert (Ha' : Forall (fun e => e.1 <> 0) (es ++ [(h_next h, d)])).
  { apply Forall_app. split; [done|]. by apply Forall_singleton. }
  assert (Hfe : h_elems h !! h_next h = None).
  { destruct (h_elems h !! h_next h) eqn:E; [|done]. pose proof (ho_elems h Hh _ _ E). lia. }
  destruct es as [|[b c] es0 _] using rev_ind.
  - heap_step. cbn [addr_before length]. rewrite Z.eqb_refl. cbn [negb]. heap_step.
    eexists. split; [done|]. split; [constructor; simpl; [done|by simplify_map_eq| |done|done]|].
    + intros [|i] a x; [|by destruct i]. intros [= <- <-]. by simplify_map_eq.
    + split; [done|]. apply (touches_intro p h _ [h_next h]); simpl; [done|lia|lia|done| | |].
      * intros q Hq. by simplify_map_eq.
      * intros a Hin. rewrite !lookup_insert_ne by naive_solver. done.
      * apply Forall_singleton. left. lia.
  - destruct (rep_last p h es0 b c Hr) as [Hb Hb0].
    assert (Hbn : b <> h_next h) by (intros ->; congruence).
    rewrite addr_before_snoc in Hl. heap_step.
    rewrite (proj2 (Z.eqb_neq b 0)) by done. cbn [negb]. heap_step.
    eexists. split; [done|]. split; [constructor; [done| | |done|done]|].
    + simpl. rewrite addr_before_snoc, (addr_at_app (es0 ++ _)) by (rewrite length_app; simpl; lia).
      by simplify_map_eq.
    + apply (links_snoc p (h_elems h)); [exact He|done|..|done]; simpl.
      * rewrite addr_before_snoc. by simplify_map_eq.
      * intros es' b' c' [_ [= <- <-]]%app_inj_tail. by simplify_map_eq.
      * rewrite addr_before_snoc. intros b' Hb' Hne. rewrite lookup_insert_ne by done.
        rewrite !lookup_insert_ne by (intros <-; done). done.
    + split; [done|]. apply (touches_intro p h _ [h_next h; b]); simpl; [done|lia|lia|done| | |].
      * intros q Hq. by simplify_map_eq.
      * intros a Hin. rewrite !lookup_insert_ne by naive_solver. done.
      * apply Forall_cons. split; [left; lia|]. apply Forall_singleton. right. by eexists.
Qed.

Lemma ylist_push_ok p d h es :
  heap_ok h -> granted h -> ylist_rep h p es ->
  exists h', ylist_push p d h = Done (h_next h, h') /\
    ylist_rep h' p ((h_next h, d) :: es) /\ h_next h' = h_next h + 1 /\ touches p h h'.
Proof.
  intros Hh Hg Hr. pose proof (fresh_not_in p h es Hh Hr) as Hni. pose proof (ho_next h Hh) as H0.
  pose proof Hr as [Hp Hl He Hnd Ha]. pose proof (ho_lists h Hh _ _ Hl) as Hpn. unfold ylist_push, new_elem. unfold cbind at 1.
  destruct (fresh_ok h Hg) as (al & Hal & Hf). unfold cbind at 1. rewrite Hf.
  rewrite (proj2 (Z.eqb_neq (h_next h) 0)) by lia. assert (Hn0 : h_next h <> 0) by lia.
  assert (Hnd' : NoDup (map fst ((h_next h, d) :: es))).
  { apply NoDup_cons. split; [by rewrite list_elem_of_In|done]. }
  assert (Ha' : Forall (fun e => e.1 <> 0) ((h_next h, d) :: es)) by (by constructor).
  assert (Hfe : h_elems h !! h_next h = None).
  { destruct (h_elems h !! h_next h) eqn:E; [|done]. pose proof (ho_elems h Hh _ _ E). lia. }
  destruct es as [|[b c] es].
  - heap_step. cbn [addr_at lookup list_lookup fmap option_fmap option_map default]. rewrite Z.eqb_refl.
    cbn [negb]. heap_step.
    eexists. split; [done|]. split; [constructor; simpl; [done|by simplify_map_eq| |done|done]|].
    + intros [|i] a x; [|by destruct i]. intros [= <- <-]. by simplify_map_eq.
    + split; [done|]. apply (touches_intro p h _ [h_next h]); simpl; [done|lia|lia|done| | |].
      * intros q Hq. by simplify_map_eq.
      * intros a Hin. rewrite !lookup_insert_ne by naive_solver. done.
      * apply Forall_singleton. left. lia.
  - pose proof (He O b c eq_refl) as Hb. assert (Hb0 : b <> 0) by (by apply Forall_cons in Ha as [Ha _]).
    assert (Hbn : b <> h_next h) by (intros ->; congruence).
    change (addr_at ((b, c) :: es) 0) with b in Hl. heap_step.
    rewrite (proj2 (Z.eqb_neq b 0)) by done. cbn [negb]. heap_step.
    eexists. split; [done|]. split; [constructor; [done|by simpl; simplify_map_eq| |done|done]|].
    + apply (links_cons p (h_elems h)); [exact He|done|..]; simpl.
      * by simplify_map_eq.
      * intros es' b' c' [= <- <- _]. by simplify_map_eq.
      * change (addr_at ((b, c) :: es) 0) with b. intros b' Hb' Hne. rewrite lookup_insert_ne by done.
        rewrite !lookup_insert_ne by (intros <-; done). done.
    + split; [done|]. apply (touches_intro p h _ [h_next h; b]); simpl; [done|lia|lia|done| | |].
      * intros q Hq. by simplify_map_eq.
      * intros a Hin. rewrite !lookup_insert_ne by naive_solver. done.
      * apply Forall_cons. split; [left; lia|]. apply Forall_singleton. right. by eexists.
Qed.

Lemma ylist_remove_empty p h : ylist_rep h p [] -> ylist_remove p h = Done (0, h).
Proof. intros [Hp Hl _ _ _]. unfold ylist_remove. heap_step. done. Qed.
Lemma ylist_pop_empty p h : ylist_rep h p [] -> ylist_pop p h = Done (0, h).
Proof. intros [Hp Hl _ _ _]. unfold ylist_pop. heap_step. done. Qed.

Lemma ylist_remove_ok p h es a d :
  heap_ok h -> granted h -> ylist_rep h p (es ++ [(a, d)]) ->
  exists h', ylist_remove p h = Done (d, h') /\ ylist_rep h' p es /\
    h_next h' = h_next h /\ touches p h h'.
Proof.
  intros Hh Hg Hr. destruct (rep_last p h es a d Hr) as [Hla Ha0].
  pose proof Hr as [Hp Hl He Hnd Ha]. pose proof (ho_lists h Hh _ _ Hl) as Hpn. rewrite addr_before_snoc in Hl.
  apply Forall_app in Ha as [Ha _]. unfold ylist_remove. heap_step.
  rewrite (proj2 (Z.eqb_neq a 0)) by done. heap_step.
  assert (Hnd' := Hnd). rewrite map_app in Hnd'. apply NoDup_app in Hnd' as (Hnd' & Hda & _).
  destruct es as [|[b c] es _] using rev_ind.
  - cbn [addr_before length]. rewrite Z.eqb_refl. cbn [negb]. heap_step.
    eexists. split; [done|]. split; [constructor; simpl; [done|by simplify_map_eq|done|done|done]|].
    split; [done|]. apply (touches_intro p h _ [a]); simpl; [done|lia|lia|done| | |].
    + intros q Hq. by simplify_map_eq.
    + intros b Hin. rewrite lookup_delete_ne by naive_solver. done.
    + apply Forall_singleton. right. by eexists.
  - rewrite addr_before_snoc in Hla |- *.
    pose proof (He (length es) b c) as Hb. rewrite <- app_assoc in Hb.
    specialize (Hb (list_lookup_middle _ _ _ _ eq_refl)).
    assert (Hb0 : b <> 0) by (apply Forall_app in Ha as [_ Ha]; by apply Forall_cons in Ha as [Ha _]).
    assert (Hba : b <> a).
    { intros ->. apply (Hda a); [|by apply list_elem_of_singleton].
      apply list_elem_of_In. eapply (in_addrs _ (length es)). by apply list_lookup_middle. }
    rewrite (proj2 (Z.eqb_neq b 0)) by done. cbn [negb]. heap_step.
    eexists. split; [done|]. split; [constructor; [done| | |done|done]|].
    + simpl. rewrite addr_before_snoc. simplify_map_eq.
      by rewrite (addr_at_app (es ++ _)) by (rewrite length_app; simpl; lia).
    + apply (links_unsnoc p (h_elems h) _ _ a d); [exact He|done|..]; simpl.
      * intros es' b' c' [_ [= <- <-]]%app_inj_tail. by simplify_map_eq.
      * rewrite addr_before_snoc. intros b' Hb' Hne.
        rewrite lookup_delete_ne; [by rewrite lookup_insert_ne|]. intros <-.
        apply (Hda a); [by apply list_elem_of_In|by apply list_elem_of_singleton].
    + split; [done|]. apply (touches_intro p h _ [a; b]); simpl; [done|lia|lia|done| | |].
      * intros q Hq. by simplify_map_eq.
      * intros x Hin. rewrite lookup_delete_ne, lookup_insert_ne by naive_solver. done.
      * apply Forall_cons. split; [|apply Forall_singleton]; right; by eexists.
Qed.

Lemma ylist_pop_ok p h es a d :
  heap_ok h -> granted h -> ylist_rep h p ((a, d) :: es) ->
  exists h', ylist_pop p h = Done (d, h') /\ ylist_rep h' p es /\
    h_next h' = h_next h /\ touches p h h'.
Proof.
  intros Hh Hg Hr. pose proof Hr as [Hp Hl He Hnd Ha]. pose proof (ho_lists h Hh _ _ Hl) as Hpn.
  pose proof (He O a d eq_refl) as Hla. apply Forall_cons in Ha as [Ha0 Ha]. cbn [fst] in Ha0.
  change (addr_at ((a, d) :: es) 0) with a in Hl. unfold ylist_pop. heap_step.
  rewrite (proj2 (Z.eqb_neq a 0)) by done. heap_step.
  rewrite addr_at_cons in *.
  pose proof Hnd as [Hda Hnd']%NoDup_cons. destruct es as [|[b c] es].
  - change (addr_at [] 0) with 0 in *. rewrite Z.eqb_refl. cbn [negb]. heap_step.
    eexists. split; [done|]. split; [constructor; simpl; [done|by simplify_map_eq|done|done|done]|].
    split; [done|]. apply (touches_intro p h _ [a]); simpl; [done|lia|lia|done| | |].
    + intros q Hq. by simplify_map_eq.
    + intros b Hin. rewrite lookup_delete_ne by naive_solver. done.
    + apply Forall_singleton. right. by eexists.
  - change (addr_at ((b, c) :: es) 0) with b in *. pose proof (He 1%nat b c eq_refl) as Hb.
    assert (Hb0 : b <> 0) by (by apply Forall_cons in Ha as [Ha _]).
    assert (Hba : b <> a) by (intros ->; apply Hda; constructor).
    rewrite (proj2 (Z.eqb_neq b 0)) by done. cbn [negb]. heap_step.
    eexists. split; [done|]. split; [constructor; [done| | |done|done]|].
    + simpl. by simplify_map_eq.
    + apply (links_uncons p (h_elems h) _ _ a d); [exact He|done|..]; simpl.
      * intros es' b' c' [= <- <- _]. by simplify_map_eq.
      * change (addr_at ((b, c) :: es) 0) with b. intros b' Hb' Hne.
        rewrite lookup_delete_ne; [by rewrite lookup_insert_ne|]. intros <-.
        apply Hda. by apply list_elem_of_In.
    + split; [done|]. apply (touches_intro p h _ [a; b]); simpl; [done|lia|lia|done| | |].
      * intros q Hq. by simplify_map_eq.
      * intros x Hin. rewrite lookup_delete_ne, lookup_insert_ne by naive_solver. done.
      * apply Forall_cons. split; [|apply Forall_singleton]; right; by eexists.
Qed.

Lemma ylist_new_ok h :
  heap_ok h -> granted h ->
  exists h', ylist_new h = Done (h_next h, h') /\ ylist_rep h' (h_next h) [] /\
    h_next h' = h_next h + 1 /\ touches (h_next h) h h'.
Proof.
  intros Hh Hg. pose proof (ho_next h Hh) as H0. unfold ylist_new, cbind.
  destruct (fresh_ok h Hg) as (al & Hal & ->). rewrite (proj2 (Z.eqb_neq (h_next h) 0)) by lia.
  eexists. split; [done|]. split; [constructor; simpl; [lia|by simplify_map_eq|done|constructor|done]|].
  split; [done|]. apply (touches_intro _ h _ []); simpl; [done|lia|lia|done| |done|done].
  intros q Hq. by simplify_map_eq.
Qed.

(** The loop of [ylist_delete] follows the [next] pointers only. *)
Definition chain (m : gmap Z ylist_elem) (es : list (Z * Z)) : Prop := forall i a d, es !! i = Some (a, d) ->
  exists e, m !! a = Some e /\ el_data e = d /\ el_next e = addr_at es (S i).
Lemma delete_loop_ok es fuel h :
  chain (h_elems h) es -> NoDup (map fst es) -> Forall (fun e => e.1 <> 0) es -> (length es <= fuel)%nat ->
  exists m, delete_loop fuel (addr_at es 0) true h = Done (map snd es, with_elems m h) /\
    (forall a, ~ In a (map fst es) -> m !! a = h_elems h !! a) /\
    (forall a, In a (map fst es) -> m !! a = None).
Proof.
  revert h fuel. induction es as [|[a d] es IH]; intros h fuel Hc Hnd Ha Hf.
  { exists (h_elems h). split; [by destruct fuel, h|done]. }
  apply NoDup_cons in Hnd as [Hda Hnd]. apply Forall_cons in Ha as [Ha0 Ha]. cbn [fst] in *.
  destruct (Hc O a d eq_refl) as (e & He & Hd & Hn). destruct fuel as [|fuel]; [cbn [length] in Hf; lia|].
  change (addr_at ((a, d) :: es) 0) with a. rewrite addr_at_cons in Hn. cbn [delete_loop].
  rewrite (proj2 (Z.eqb_neq a 0)) by done. heap_step. rewrite Hn.
  destruct (IH (with_elems (delete a (h_elems h)) h) fuel) as (m & Hm & Hout & Hin);
    [|done|done|cbn [length] in Hf; lia|].
  { intros i b c Hi. destruct (Hc (S i) b c Hi) as (e' & He' & Hd' & Hn'). exists e'. split; [|done].
    simpl. rewrite lookup_delete_ne; [done|]. intros <-. apply Hda, list_elem_of_In. by eapply in_addrs. }
  exists m. rewrite Hm. split; [by rewrite Hd|]. simpl in Hout. split.
  - intros b Hb. rewrite Hout by naive_solver. apply lookup_delete_ne. naive_solver.
  - intros b [<-|Hb]; [|by apply Hin]. rewrite Hout by (by rewrite <- list_elem_of_In).
    apply lookup_delete_eq.
Qed.
Lemma ylist_delete_ok p h es fuel :
  heap_ok h -> granted h -> ylist_rep h p es -> (length es <= fuel)%nat ->
  exists h', ylist_delete fuel p true h = Done (map snd es, h') /\ h_lists h' !! p = None /\
    (forall a, In a (map fst es) -> h_elems h' !! a = None) /\ h_next h' = h_next h /\ touches p h h'.
Proof.
  intros Hh Hg [Hp Hl He Hnd Ha] Hf. pose proof (ho_lists h Hh _ _ Hl) as Hpn.
  destruct (delete_loop_ok es fuel h) as (m & Hm & Hout & Hin); [|done|done|done|].
  { intros i a d Hi. rewrite (He i a d Hi). by eexists. }
  unfold ylist_delete. heap_step. rewrite Hm. heap_step. eexists. split; [done|].
  split; [apply lookup_delete_eq|]. split; [done|]. split; [done|].
  apply (touches_intro _ h _ (map fst es)); simpl; [done|lia|lia|done| |done|].
  - intros q Hq. by apply lookup_delete_ne.
  - apply Forall_forall. intros a ([b c] & -> & Hb)%list_elem_of_fmap.
    apply list_elem_of_lookup_1 in Hb as [i Hi]. right. by eexists; split; [apply (He i)|].
Qed.

(** ** Deques

    The abstract machine: deques under their addresses, and the next address. *)
Inductive deque_op :=
  | DNew
  | DAdd (p d : Z)
  | DPush (p d : Z)
  | DRemove (p : Z)
  | DPop (p : Z)
  | DDelete (p : Z).
Record deques := { dq_lists : gmap Z (list Z); dq_next : Z }.

(** The result and the new deques; [None]: an operation on no deque. *)
Definition deque_step (op : deque_op) (s : deques) : option (list Z * deques) :=
  let on p f := ds ← dq_lists s !! p; f ds in
  let put p ds n := {| dq_lists := <[p := ds]> (dq_lists s); dq_next := n |} in
  match op with
  | DNew => Some ([dq_next s], put (dq_next s) [] (dq_next s + 1))
  | DAdd p d => on p (fun ds => Some ([dq_next s], put p (ds ++ [d]) (dq_next s + 1)))
  | DPush p d => on p (fun ds => Some ([dq_next s], put p (d :: ds) (dq_next s + 1)))
  | DRemove p => on p (fun ds => Some ([List.last ds 0], put p (removelast ds) (dq_next s)))
  | DPop p => on p (fun ds => Some ([hd 0 ds], put p (tl ds) (dq_next s)))
  | DDelete p => on p (fun ds => Some (ds, {| dq_lists := delete p (dq_lists s); dq_next := dq_next s |}))
  end.
Fixpoint deque_run (ops : list deque_op) (s : deques) : option (list (list Z) * deques) :=
  match ops with
  | [] => Some ([], s)
  | op :: ops =>
      '(r, s) ← deque_step op s; '(rs, s) ← deque_run ops s; Some (r :: rs, s)
  end.

(** The same operations on the heap. *)
Definition ylist_apply (fuel : nat) (op : deque_op) : CM heap (list Z) :=
  let one (m : CM heap Z) := let! x := m in cret [x] in
  match op with
  | DNew => one ylist_new
  | DAdd p d => one (ylist_add p d)
  | DPush p d => one (ylist_push p d)
  | DRemove p => one (ylist_remove p)
  | DPop p => one (ylist_pop p)
  | DDelete p => ylist_delete fuel p true
  end.
Fixpoint ylist_run (fuel : nat) (ops : list deque_op) : CM heap (list (list Z)) :=
  match ops with
  | [] => cret []
  | op :: ops => let! r := ylist_apply fuel op in let! rs := ylist_run fuel ops in cret (r :: rs)
  end.

Record deques_rel (h : heap) (s : deques) : Prop := {
  dr_ok : heap_ok h;
  dr_granted : granted h;
  dr_next : h_next h = dq_next s;
  dr_lists : forall p ds, dq_lists s !! p = Some ds -> exists es, ylist_rep h p es /\ map snd es = ds
}.
(** Every deque is shorter than [n]. *)
Definition shorter (n : nat) (s : deques) : Prop :=
  forall p ds, dq_lists s !! p = Some ds -> (length ds <= n)%nat.

Lemma deques_rel_put p h h' s es n :
  deques_rel h s -> touches p h h' -> ylist_rep h' p es -> h_next h' = n ->
  deques_rel h' {| dq_lists := <[p := map snd es]> (dq_lists s); dq_next := n |}.
Proof.
  intros [_ _ _ Hl] Ht Hr Hn. constructor; [apply Ht|apply Ht|done|]. simpl. intros q ds Hq.
  destruct (decide (q = p)) as [->|Hqp]; simplify_map_eq; [by exists es|].
  destruct (Hl q ds Hq) as (fs & Hf & Hds). exists fs. split; [by eapply rep_frame|done].
Qed.
Lemma last_snd (es : list (Z * Z)) a d : List.last (map snd (es ++ [(a, d)])) 0 = d.
Proof. rewrite map_app. apply last_last. Qed.


(** One operation. *)
Lemma ylist_apply_ok fuel op h s r s' :
  deques_rel h s -> shorter fuel s -> deque_step op s = Some (r, s') ->
  exists h', ylist_apply fuel op h = Done (r, h') /\ deques_rel h' s'.
Proof.
  intros Hrel Hfuel Hs. pose proof Hrel as [Hh Hg Hn Hl].
  destruct op as [|p d|p d|p|p|p]; cbn [deque_step ylist_apply] in *.
  1: { injection Hs as <- <-. destruct (ylist_new_ok h Hh Hg) as (h' & E & Hr & Hn' & Ht).
       unfold cbind. rewrite E, <- Hn. exists h'. split; [done|].
       by apply (deques_rel_put _ h h' s []); [| |done|]. }
  all: apply bind_Some in Hs as (ds & Hd & [= <- <-]).
  all: destruct (Hl p ds Hd) as (es & Hr & <-).
  - destruct (ylist_add_ok p d h es Hh Hg Hr) as (h' & E & Hr' & Hn' & Ht).
    unfold cbind. rewrite E, <- Hn. exists h'. split; [done|].
    replace (map snd es ++ [d]) with (map snd (es ++ [(h_next h, d)])) by (by rewrite map_app).
    by eapply deques_rel_put.
  - destruct (ylist_push_ok p d h es Hh Hg Hr) as (h' & E & Hr' & Hn' & Ht).
    unfold cbind. rewrite E, <- Hn. exists h'. split; [done|].
    by apply (deques_rel_put p h h' s ((h_next h, d) :: es)).
  - unfold cbind. destruct es as [|[a d] es _] using rev_ind.
    + rewrite ylist_remove_empty by done. exists h. split; [done|].
      apply (deques_rel_put p h h s []); [done|by constructor|done|done].
    + destruct (ylist_remove_ok p h es a d Hh Hg Hr) as (h' & E & Hr' & Hn' & Ht). rewrite E, last_snd.
      exists h'. split; [done|]. rewrite map_app. cbn [map]. rewrite removelast_last.
      eapply deques_rel_put; [done|done|done|congruence].
  - unfold cbind. destruct es as [|[a d] es].
    + rewrite ylist_pop_empty by done. exists h. split; [done|].
      apply (deques_rel_put p h h s []); [done|by constructor|done|done].
    + destruct (ylist_pop_ok p h es a d Hh Hg Hr) as (h' & E & Hr' & Hn' & Ht). rewrite E.
      exists h'. split; [done|]. eapply deques_rel_put; [done|done|done|congruence].
  - specialize (Hfuel p _ Hd). rewrite length_map in Hfuel.
    destruct (ylist_delete_ok p h es fuel Hh Hg Hr Hfuel) as (h' & E & _ & _ & Hn' & Ht).
    exists h'. split; [done|]. constructor; [apply Ht|apply Ht|simpl; congruence|]. simpl.
    intros q ds (Hq & Hds)%lookup_delete_Some. destruct (Hl q ds Hds) as (fs & Hf & Hfs).
    exists fs. split; [by eapply rep_frame|done].
Qed.
Lemma deque_step_shorter op s r s' n :
  deque_step op s = Some (r, s') -> shorter n s -> shorter (S n) s'.
Proof.
  intros Hs Hn q ds Hq. destruct op as [|p d|p d|p|p|p]; cbn [deque_step] in Hs.
  1: { injection Hs as <- <-. simpl in Hq. destruct (decide (q = dq_next s)) as [->|]; simplify_map_eq; simpl;
         [lia|]. specialize (Hn q ds Hq). lia. }
  all: apply bind_Some in Hs as (es & Hp & [= <- <-]); simpl in Hq.
  5: { apply lookup_delete_Some in Hq as [_ Hq]. specialize (Hn q ds Hq). lia. }
  all: specialize (Hn p es Hp) as Hes.
  all: destruct (decide (q = p)) as [->|]; simplify_map_eq; [|specialize (Hn q ds Hq); lia].
  - rewrite length_app. simpl. lia.
  - simpl. lia.
  - destruct es as [|x es _] using rev_ind; [simpl; lia|]. rewrite removelast_last. rewrite length_app in Hes. lia.
  - destruct es; simpl in *; lia.
Qed.

(** The linked lists of ylib implement deques: from any heap whose lists
    hold given sequences, every sequence of creations, additions at either end,
    removals at either end and deletions that addresses existing lists runs
    without touching released memory or a null pointer, returns what the deque
    operations return (the data removed, the data handed to the delete
    function, in order) and leaves every list, also those it did not name, with
    its deque's contents and its links in order; the delete loop ends within
    as many turns as the list has elements. *)
Theorem ylist_refines_deques (ops : list deque_op) (h : heap) (s : deques) rs s' (n fuel : nat) :
  deques_rel h s -> shorter n s -> (n + length ops <= fuel)%nat ->
  deque_run ops s = Some (rs, s') ->
  exists h', ylist_run fuel ops h = Done (rs, h') /\ deques_rel h' s'.
Proof.
  revert h s rs n. induction ops as [|op ops IH]; intros h s rs n Hrel Hn Hf Hrun; cbn [deque_run ylist_run] in *.
  { injection Hrun as <- <-. by exists h. }
  apply bind_Some in Hrun as ([r s1] & Hs & Hrun). apply bind_Some in Hrun as ([rs1 s2] & Hrun & [= <- <-]).
  cbn [length] in Hf.
  assert (Hfuel : shorter fuel s) by (intros p ds Hp; specialize (Hn p ds Hp); lia).
  destruct (ylist_apply_ok fuel op h s r s1 Hrel Hfuel Hs) as (h1 & E1 & Hrel1).
  destruct (IH h1 s1 rs1 (S n) Hrel1 (deque_step_shorter _ _ _ _ _ Hs Hn) ltac:(lia) Hrun) as (h2 & E2 & Hrel2).
  exists h2. unfold cbind. by rewrite E1, E2.
Qed.
Definition demo_ops : list deque_op :=
  [DNew; DAdd 1 10; DPush 1 20; DNew; DAdd 4 30; DRemove 1; DPop 1; DPop 1; DAdd 1 40; DDelete 4].
Lemma ylist_refines_deques_witness :
  exists h', ylist_run 10 demo_ops {| h_lists := ∅; h_elems := ∅; h_next := 1; h_alloc := [] |}
             = Done ([[1]; [2]; [3]; [4]; [5]; [10]; [20]; [0]; [6]; [30]], h') /\
    deques_rel h' {| dq_lists := {[1 := [40]]}; dq_next := 7 |}.
Proof.
  apply (ylist_refines_deques demo_ops _ {| dq_lists := ∅; dq_next := 1 |} _ _ 0 10).
  - constructor; [constructor|constructor|done|]; simpl; [lia| | |]; intros ? ?; rewrite lookup_empty; done.
  - intros ? ?; simpl; rewrite lookup_empty; done.
  - simpl. lia.
  - vm_compute. done.
Defined.

(** *** Moving an element *)

(** The first and last elements, seen from the middle. *)
Lemma rep_mid p h es1 es2 a d :
  ylist_rep h p (es1 ++ (a, d) :: es2) ->
  h_elems h !! a = Some {| el_data := d; el_prev := addr_before es1 (length es1); el_next := addr_at es2 0; el_list := p |}
  /\ a <> 0 /\ ~ In a (map fst es2).
Proof.
  intros [_ _ He Hnd Ha]. split; [|split].
  - rewrite (He (length es1) a d (list_lookup_middle _ _ _ _ eq_refl)). do 2 f_equal.
    + by apply addr_before_app.
    + unfold addr_at. by rewrite lookup_app_r, Nat.sub_succ_l, Nat.sub_diag by lia.
  - apply Forall_app in Ha as [_ Ha]. by apply Forall_cons in Ha as [Ha _].
  - rewrite map_app in Hnd. apply NoDup_app in Hnd as (_ & _ & Hnd). apply NoDup_cons in Hnd as [Hnd _].
    by rewrite <- list_elem_of_In.
Qed.
(** A neighbour that is not null is an element of the list. *)
Lemma rep_neighbour p h es i :
  ylist_rep h p es -> addr_at es i <> 0 -> exists e, h_elems h !! addr_at es i = Some e /\ el_list e = p.
Proof.
  intros [_ _ He _ _] Hi. unfold addr_at in *. destruct (es !! i) as [[a d]|] eqn:E; [|done]. cbn in *.
  rewrite (He i a d E). by eexists.
Qed.

(** Writing a field of an element, and doing so unless the pointer is null. *)
Lemma upd_elem_ok x f h :
  x <> 0 -> is_Some (h_elems h !! x) ->
  exists m, upd_elem x f h = Done (tt, with_elems m h) /\ m !! x = f <$> h_elems h !! x /\
    (forall y, y <> x -> m !! y = h_elems h !! y).
Proof.
  intros Hx [e He]. eexists. split; [unfold upd_elem; by rewrite (read_ok _ _ _ Hx He)|].
  split; [by simplify_map_eq|]. intros y Hy. by simplify_map_eq.
Qed.
Lemma upd_unless_null x f h :
  (x <> 0 -> is_Some (h_elems h !! x)) ->
  exists m, (if negb (x =? 0) then upd_elem x f else cret tt) h = Done (tt, with_elems m h) /\
    (forall y, y <> x \/ x = 0 -> m !! y = h_elems h !! y) /\
    (forall y, is_Some (h_elems h !! y) -> is_Some (m !! y)).
Proof.
  intros Hx. destruct (Z.eqb_spec x 0) as [->|Hne]; cbn [negb].
  { exists (h_elems h). split; [by destruct h|done]. }
  destruct (upd_elem_ok x f h Hne (Hx Hne)) as (m & E & Hmx & Hmy). exists m. split; [done|].
  split; [intros y [Hy|]; [by apply Hmy|done]|]. intros y Hy. destruct (decide (y = x)) as [->|]; [|by rewrite Hmy].
  rewrite Hmx. by apply fmap_is_Some.
Qed.
(** The first part of [ylist_swap]: only the source's header changes. *)
Lemma swap_header p l e a h :
  p <> 0 -> h_lists h !! p = Some l ->
  exists m, (if yl_first l =? a then upd_list p (set_first (el_next e))
             else if yl_last l =? a then upd_list p (set_last (el_prev e)) else cret tt) h
            = Done (tt, with_lists m h) /\
    (forall y, y <> p -> m !! y = h_lists h !! y).
Proof.
  intros Hp Hl. destruct (_ =? a); [|destruct (_ =? a)].
  1, 2: eexists; (split; [unfold upd_list; by rewrite (read_ok _ _ _ Hp Hl)|]);
    intros y Hy; by simplify_map_eq.
  exists (h_lists h). split; [by destruct h|done].
Qed.
(** A header whose last element has a successor represents nothing. *)
Lemma no_rep h q f b e gs :
  h_lists h !! q = Some {| yl_first := f; yl_last := b |} -> h_elems h !! b = Some e ->
  b <> 0 -> el_next e <> 0 -> ~ ylist_rep h q gs.
Proof.
  intros Hl He Hb Hn Hr. pose proof (yr_list _ _ _ Hr) as Hq. rewrite Hl in Hq. injection Hq as _ Hq.
  destruct gs as [|[x y] gs _] using rev_ind; [done|]. rewrite addr_before_snoc in Hq. subst x.
  destruct (rep_last _ _ _ _ _ Hr) as [Hx _]. rewrite He in Hx. injection Hx as ->. by apply Hn.
Qed.

Lemma swap_extract_ok p h es1 es2 a d :
  ylist_rep h p (es1 ++ (a, d) :: es2) ->
  exists l m, swap_extract a h = Done (tt, with_elems m (with_lists l h)) /\
    (forall y, y <> p -> l !! y = h_lists h !! y) /\ is_Some (m !! a) /\
    (forall y e, h_elems h !! y = Some e -> el_list e <> p -> m !! y = Some e).
Proof.
  intros Hrp. destruct (rep_mid p h es1 es2 a d Hrp) as (Hea & Ha0 & Hna).
  pose proof (yr_list _ _ _ Hrp) as Hlp. pose proof (yr_null _ _ _ Hrp) as Hp0.
  set (n := addr_at es2 0) in *. set (r := addr_before es1 (length es1)) in *.
  assert (Hn : n <> 0 -> exists e, h_elems h !! n = Some e /\ el_list e = p).
  { intros Hn0. assert (E : n = addr_at (es1 ++ (a, d) :: es2) (S (length es1)))
      by (unfold n, addr_at; by rewrite lookup_app_r, Nat.sub_succ_l, Nat.sub_diag by lia).
    rewrite E in *. by eapply rep_neighbour. }
  assert (Hr : r <> 0 -> exists e, h_elems h !! r = Some e /\ el_list e = p).
  { unfold r. destruct (length es1) as [|k] eqn:Ek; [done|]. cbn [addr_before].
    rewrite <- (addr_at_app es1 ((a, d) :: es2)) by lia. by apply rep_neighbour. }
  assert (Hna' : n <> a).
  { intros E. apply Hna. unfold n, addr_at in E. destruct es2 as [|[x y] es2]; [done|]. by left. }
  unfold swap_extract. unfold get_elem at 1, cbind at 1. rewrite (read_ok _ _ _ Ha0 Hea).
  unfold get_list at 1, cbind at 1. cbn [obind el_list el_next el_prev]. rewrite (read_ok _ _ _ Hp0 Hlp).
  destruct (swap_header p _ {| el_data := d; el_prev := r; el_next := n; el_list := p |} a h Hp0 Hlp)
    as (m1 & E1 & Hm1). cbn [el_next el_prev obind] in E1 |- *. unfold cbind at 1. rewrite E1. clear E1.
  destruct (upd_unless_null n (set_prev r) (with_lists m1 h)) as (m2 & E2 & Hm2 & Hs2).
  { simpl. intros Hn0. destruct (Hn Hn0) as (e & He & _). by exists e. }
  unfold cbind at 1. rewrite E2. clear E2. simpl in Hm2, Hs2.
  assert (Ha2 : m2 !! a = Some {| el_data := d; el_prev := r; el_next := n; el_list := p |})
    by (rewrite Hm2; [done|by left]).
  unfold get_elem at 1, cbind at 1. rewrite (read_ok (h_elems (with_elems m2 _)) a _ Ha0 Ha2).
  cbn [obind el_prev el_next].
  destruct (upd_unless_null r (set_next n) (with_elems m2 (with_lists m1 h))) as (m3 & E3 & Hm3 & Hs3).
  { simpl. intros Hr0. apply Hs2. destruct (Hr Hr0) as (e & He & _). by exists e. }
  rewrite E3. exists m1, m3. split; [done|]. split; [done|]. simpl in Hm3, Hs3.
  split; [apply Hs3; by eexists|]. intros y e He Hel.
  assert (Hy : forall x, (x <> 0 -> exists e, h_elems h !! x = Some e /\ el_list e = p) -> y <> x \/ x = 0).
  { intros x Hx. destruct (decide (x = 0)) as [->|Hx0]; [by right|]. left. intros ->.
    destruct (Hx Hx0) as (e' & He' & Hel'). congruence. }
  rewrite Hm3 by (by apply Hy). rewrite Hm2 by (by apply Hy). done.
Qed.

(** [ylist_swap] breaks the destination: when an element is moved to the
    end of a list that has elements, the function ends, but the header of the
    destination still names the old last element, whose [next] is no longer
    null; afterwards it represents no sequence of elements at all. *)
Theorem ylist_swap_corrupts (h : heap) (p q a d b c : Z) (es1 es2 fs : list (Z * Z)) :
  p <> q -> ylist_rep h p (es1 ++ (a, d) :: es2) -> ylist_rep h q (fs ++ [(b, c)]) ->
  exists h' e, ylist_swap a q h = Done (tt, h') /\
    h_lists h' !! q = Some {| yl_first := addr_at (fs ++ [(b, c)]) 0; yl_last := b |} /\
    h_elems h' !! b = Some e /\ el_next e = a /\
    forall gs, ~ ylist_rep h' q gs.
Proof.
  intros Hpq Hrp Hrq. destruct (rep_mid p h es1 es2 a d Hrp) as (Hea & Ha0 & _).
  destruct (rep_last q h fs b c Hrq) as (Heb & Hb0).
  pose proof (yr_list _ _ _ Hrq) as Hlq. rewrite addr_before_snoc in Hlq.
  pose proof (yr_null _ _ _ Hrq) as Hq0. assert (Hba : b <> a) by congruence.
  destruct (swap_extract_ok p h es1 es2 a d Hrp) as (l & m & E & Hl & Hma & Hm).
  specialize (Hm b _ Heb ltac:(simpl; congruence)). unfold ylist_swap, cbind at 1. rewrite E. clear E.
  assert (Hlq' : l !! q = Some {| yl_first := addr_at (fs ++ [(b, c)]) 0; yl_last := b |})
    by (rewrite Hl; congruence).
  unfold swap_append, cbind at 1. destruct Hma as [ea Hma]. heap_step.
  rewrite (proj2 (Z.eqb_neq b 0)) by done. cbn [negb]. heap_step.
  do 2 eexists. split; [done|]. split; [exact Hlq'|]. split; [by simpl; simplify_map_eq|]. split; [done|].
  intros gs. eapply no_rep; [exact Hlq'|by simpl; simplify_map_eq|done|done].
Qed.
Lemma ylist_swap_corrupts_witness :
  exists h0 h' e,
    ylist_run 1 [DNew; DAdd 1 10; DNew; DAdd 3 20] {| h_lists := ∅; h_elems := ∅; h_next := 1; h_alloc := [] |}
      = Done ([[1]; [2]; [3]; [4]], h0) /\
    ylist_swap 2 3 h0 = Done (tt, h') /\
    h_lists h' !! 3 = Some {| yl_first := 4; yl_last := 4 |} /\
    h_elems h' !! 4 = Some e /\ el_next e = 2 /\ forall gs, ~ ylist_rep h' 3 gs.
Proof.
  eexists. destruct (ylist_swap_corrupts
    {| h_lists := {[1 := {| yl_first := 2; yl_last := 2 |}; 3 := {| yl_first := 4; yl_last := 4 |}]};
       h_elems := {[2 := {| el_data := 10; el_prev := 0; el_next := 0; el_list := 1 |};
                    4 := {| el_data := 20; el_prev := 0; el_next := 0; el_list := 3 |}]};
       h_next := 5; h_alloc := [] |} 1 3 2 10 4 20 [] [] []) as (h' & e & H).
  - done.
  - constructor; [done|done| |apply NoDup_singleton|by apply Forall_singleton].
    by intros [|[]] a d; [intros [= <- <-]|intros [=]..].
  - constructor; [done|done| |apply NoDup_singleton|by apply Forall_singleton].
    by intros [|[]] a d; [intros [= <- <-]|intros [=]..].
  - exists h', e. split; [|exact H]. vm_compute. reflexivity.
Defined.

(** Without memory, [ylist_add] and [ylist_push] write through the null pointer
    the allocator returned. *)
Lemma ylist_add_no_memory p d h al :
  h_alloc h = false :: al ->
  ylist_add p d h = Fault NullDeref /\ ylist_push p d h = Fault NullDeref.
Proof. intros Ha. unfold ylist_add, ylist_push, new_elem, fresh, cbind. by rewrite Ha. Qed.
