(* ===== verification/Midl.v ===== *)
(** * Midl: the ID lists of lib/lmdb/midl.c

    LMDB keeps lists of page numbers.  An [MDB_IDL] is a block of 64-bit cells:
    the capacity, then the number of IDs, then the IDs; the pointer points to
    the number of IDs, the capacity is at index -1.  The lists are sorted in
    descending order.  An [MDB_ID2L] is an array of pairs of an ID and a
    pointer, sorted in ascending order, whose first ID is the number of pairs.
    Every access is checked against the block. *)
From S2P Require Import Prelude Dynabin.

Definition MDB_IDL_LOGN : Z := 16.
Definition MDB_IDL_DB_SIZE : Z := Z.shiftl 1 MDB_IDL_LOGN.
Definition MDB_IDL_UM_SIZE : Z := Z.shiftl 1 (MDB_IDL_LOGN + 1).
Definition MDB_IDL_UM_MAX : Z := MDB_IDL_UM_SIZE - 1.
Definition ENOMEM : Z := 12.

(** ** Cells *)
Definition get {A} (c : list A) (i : Z) : outcome A :=
  if i <? 0 then Fault HeapOverflow
  else match c !! Z.to_nat i with
       | Some v => Done v
       | None => Fault HeapOverflow
       end.
Definition put {A} (c : list A) (i : Z) (v : A) : outcome (list A) :=
  if (i <? 0) || (lenZ c <=? i) then Fault HeapOverflow
  else Done (<[Z.to_nat i := v]> c).
(** [SWAP(c[i], c[j])] *)
Definition swap {A} (c : list A) (i j : Z) : outcome (list A) :=
  olet! x := get c i in olet! y := get c j in olet! c := put c i y in put c j x.

(** ** Lists of IDs *)
Record MDB_IDL := { idl_cap : Z; idl_cells : list Z }.

(** [n] new cells; [junk] is what they contain. *)
Definition new_cells (junk : nat -> Z) (n : Z) : list Z := map junk (seq 0 (Z.to_nat n)).

Definition mdb_midl_alloc (num : Z) (junk : nat -> Z) : CM alloc (option MDB_IDL) := fun s =>
  let '(ok, s) := script_next true s in
  Done (if ok then Some {| idl_cap := num; idl_cells := new_cells junk (num + 1) |} else None, s).

(** [realloc] to [n] cells, the capacity included. *)
Definition realloc_cells (n : Z) (junk : nat -> Z) (c : list Z) : list Z :=
  takeZ (n - 1) (c ++ new_cells junk (n - 1 - lenZ c)).

Definition mdb_midl_shrink (ids : MDB_IDL) (junk : nat -> Z) : CM alloc (Z * MDB_IDL) := fun s =>
  if MDB_IDL_UM_MAX <? idl_cap ids then
    let '(ok, s) := script_next true s in
    if ok then Done ((1, {| idl_cap := MDB_IDL_UM_MAX;
                            idl_cells := realloc_cells (MDB_IDL_UM_MAX + 1) junk (idl_cells ids) |}), s)
    else Fault NullDeref
  else Done ((0, ids), s).

Definition mdb_midl_grow (ids : MDB_IDL) (num : Z) (junk : nat -> Z) : CM alloc (Z * MDB_IDL) := fun s =>
  let '(ok, s) := script_next true s in
  if ok then Done ((0, {| idl_cap := idl_cap ids + num;
                          idl_cells := realloc_cells (idl_cap ids + num + 2) junk (idl_cells ids) |}), s)
  else Done ((ENOMEM, ids), s).

Definition mdb_midl_append (ids : MDB_IDL) (id : Z) (junk : nat -> Z) : CM alloc (Z * MDB_IDL) :=
  let! n := clift (get (idl_cells ids) 0) in
  let! '(rc, ids) := (if idl_cap ids <=? n then mdb_midl_grow ids MDB_IDL_UM_MAX junk else cret (0, ids)) in
  if negb (rc =? 0) then cret (ENOMEM, ids)
  else
    let! c := clift (put (idl_cells ids) 0 (n + 1)) in
    let! c := clift (put c (n + 1) id) in
    cret (0, {| idl_cap := idl_cap ids; idl_cells := c |}).

Definition mdb_midl_append_list (ids app : MDB_IDL) (junk : nat -> Z) : CM alloc (Z * MDB_IDL) :=
  let! n := clift (get (idl_cells ids) 0) in
  let! m := clift (get (idl_cells app) 0) in
  let! '(rc, ids) := (if idl_cap ids <=? n + m then mdb_midl_grow ids m junk else cret (0, ids)) in
  if negb (rc =? 0) then cret (ENOMEM, ids)
  else
    let! l := clift (blk_read (idl_cells app) 1 m) in
    let! c := clift (blk_write (idl_cells ids) (n + 1) l) in
    let! c := clift (put c 0 (n + m)) in
    cret (0, {| idl_cap := idl_cap ids; idl_cells := c |}).

(** ** Sorting *)
Definition SMALL : Z := 8.

(** The inner loop of the insertion sort, from [i] down: the place of [a] is
    after the returned index. *)
Fixpoint insert_shift (i : nat) (a : Z) (c : list Z) : outcome (Z * list Z) :=
  match i with
  | O => Done (0, c)
  | S i' =>
      olet! v := get c (Z.of_nat i) in
      if a <=? v then Done (Z.of_nat i, c)
      else olet! c := put c (Z.of_nat i + 1) v in insert_shift i' a c
  end.
(** The insertion of the elements [j], [j + 1], ... ([n] of them). *)
Fixpoint insertion_sort (n : nat) (j : Z) (c : list Z) : outcome (list Z) :=
  match n with
  | O => Done c
  | S n =>
      olet! a := get c j in
      olet! '(i, c) := insert_shift (Z.to_nat (j - 1)) a c in
      olet! c := put c (i + 1) a in
      insertion_sort n (j + 1) c
  end.

(** [do i++; while (ids[i] > a)] and [do j--; while (ids[j] < a)] *)
Fixpoint scan_up (fuel : nat) (c : list Z) (a i : Z) : outcome Z :=
  match fuel with
  | O => Fault OutOfFuel
  | S fuel => let i := i + 1 in olet! v := get c i in if a <? v then scan_up fuel c a i else Done i
  end.
Fixpoint scan_down (fuel : nat) (c : list Z) (a j : Z) : outcome Z :=
  match fuel with
  | O => Fault OutOfFuel
  | S fuel => let j := j - 1 in olet! v := get c j in if v <? a then scan_down fuel c a j else Done j
  end.
Fixpoint partition_loop (fuel : nat) (c : list Z) (a i j : Z) : outcome (list Z * Z * Z) :=
  match fuel with
  | O => Fault OutOfFuel
  | S fuel =>
      olet! i := scan_up (S (length c)) c a i in
      olet! j := scan_down (S (length c)) c a j in
      if j <? i then Done (c, i, j)
      else olet! c := swap c i j in partition_loop fuel c a i j
  end.
Definition swap_if_less (c : list Z) (i j : Z) : outcome (list Z) :=
  olet! x := get c i in olet! y := get c j in if x <? y then swap c i j else Done c.
(** The partition of [l .. ir]: the new array, and [i] and [j]. *)
Definition partition (c : list Z) (l ir : Z) : outcome (list Z * Z * Z) :=
  let k := Z.shiftr (l + ir) 1 in
  olet! c := swap c k (l + 1) in
  olet! c := swap_if_less c l ir in
  olet! c := swap_if_less c (l + 1) ir in
  olet! c := swap_if_less c l (l + 1) in
  olet! a := get c (l + 1) in
  olet! '(c, i, j) := partition_loop (S (length c)) c a (l + 1) ir in
  olet! x := get c j in
  olet! c := put c (l + 1) x in
  olet! c := put c j a in
  Done (c, i, j).

(** The main loop; [istack] has 64 cells. *)
Definition ISTACK : Z := 4 * 8 * 2.
Fixpoint sort_loop (fuel : nat) (c : list Z) (l ir jstack : Z) (istack : list Z) : outcome (list Z) :=
  match fuel with
  | O => Fault OutOfFuel
  | S fuel =>
      if ir - l <? SMALL then
        olet! c := insertion_sort (Z.to_nat (ir - l)) (l + 1) c in
        if jstack =? 0 then Done c
        else
          olet! ir := get istack jstack in
          olet! l := get istack (jstack - 1) in
          sort_loop fuel c l ir (jstack - 2) istack
      else
        olet! '(c, i, j) := partition c l ir in
        let jstack := jstack + 2 in
        if j - l <=? ir - i + 1 then
          olet! istack := put istack jstack ir in
          olet! istack := put istack (jstack - 1) i in
          sort_loop fuel c l (j - 1) jstack istack
        else
          olet! istack := put istack jstack (j - 1) in
          olet! istack := put istack (jstack - 1) l in
          sort_loop fuel c i ir jstack istack
  end.
Definition mdb_midl_sort (ids : list Z) : outcome (list Z) :=
  olet! n := get ids 0 in
  let ir := i32 n in
  sort_loop (S (2 * Z.to_nat ir)) ids 1 ir 0 (zeros ISTACK).

(** ** Arrays of pairs *)
Abbreviation MDB_ID2 := (Z * Z)%type.
Definition CMP (x y : Z) : Z := if x <? y then -1 else if y <? x then 1 else 0.

Fixpoint mid2l_search_loop (fuel : nat) (ids : list MDB_ID2) (id base cursor val n : Z) : outcome (Z * Z) :=
  if n <=? 0 then Done (cursor, val) else
  match fuel with
  | O => Fault OutOfFuel
  | S fuel =>
      let pivot := Z.shiftr n 1 in
      let cursor := base + pivot + 1 in
      olet! x := get ids cursor in
      let val := CMP id x.1 in
      if val <? 0 then mid2l_search_loop fuel ids id base cursor val pivot
      else if 0 <? val then mid2l_search_loop fuel ids id cursor cursor val (n - (pivot + 1))
      else Done (cursor, 0)
  end.
Definition mdb_mid2l_search (ids : list MDB_ID2) (id : Z) : outcome Z :=
  olet! h := get ids 0 in
  let n := u32 h.1 in
  olet! '(cursor, val) := mid2l_search_loop (Z.to_nat n) ids id 0 1 0 n in
  Done (if 0 <? val then cursor + 1 else cursor).

(** [for (i = top; i > x; i--) ids[i] = ids[i-1];], [n] turns *)
Fixpoint mid2l_shift (n : nat) (i : Z) (ids : list MDB_ID2) : outcome (list MDB_ID2) :=
  match n with
  | O => Done ids
  | S n => olet! v := get ids (i - 1) in olet! ids := put ids i v in mid2l_shift n (i - 1) ids
  end.
Definition mdb_mid2l_insert (ids : list MDB_ID2) (id : MDB_ID2) : outcome (Z * list MDB_ID2) :=
  olet! x := mdb_mid2l_search ids id.1 in
  if x <? 1 then Done (-2, ids)
  else
    olet! h := get ids 0 in
    olet! dup := (if x <=? h.1 then olet! v := get ids x in Done (v.1 =? id.1) else Done false) in
    if (dup : bool) then Done (-1, ids)
    else if MDB_IDL_UM_MAX <=? h.1 then Done (-2, ids)
    else
      olet! ids := put ids 0 (h.1 + 1, h.2) in
      olet! ids := mid2l_shift (Z.to_nat (h.1 + 1 - x)) (h.1 + 1) ids in
      olet! ids := put ids x id in
      Done (0, ids).
Definition mdb_mid2l_append (ids : list MDB_ID2) (id : MDB_ID2) : outcome (Z * list MDB_ID2) :=
  olet! h := get ids 0 in
  if MDB_IDL_UM_MAX <=? h.1 then Done (-2, ids)
  else
    olet! ids := put ids 0 (h.1 + 1, h.2) in
    olet! ids := put ids (h.1 + 1) id in
    Done (0, ids).

Example sort_demo :
  mdb_midl_sort [12; 5; 9; 1; 7; 7; 3; 12; 0; 2; 8; 4; 6; 99] =
  Done [12; 12; 9; 8; 7; 7; 6; 5; 4; 3; 2; 1; 0; 99].
Proof. vm_compute. reflexivity. Qed.

(** ** Cells: lemmas *)
Definition at_ (c : list Z) (i : Z) : Z := default 0 (c !! Z.to_nat i).
Definition upd (c : list Z) (i v : Z) : list Z := <[Z.to_nat i := v]> c.

Lemma lookup_at c i : 0 <= i < lenZ c -> c !! Z.to_nat i = Some (at_ c i).
Proof.
  intros Hi. unfold at_, lenZ in *. destruct (lookup_lt_is_Some_2 c (Z.to_nat i)) as [v ->]; [lia|done].
Qed.
Lemma get_ok c i : 0 <= i < lenZ c -> get c i = Done (at_ c i).
Proof.
  intros Hi. unfold get. rewrite (proj2 (Z.ltb_ge _ _)) by lia. by rewrite lookup_at.
Qed.
Lemma put_ok c i v : 0 <= i < lenZ c -> put c i v = Done (upd c i v).
Proof.
  intros Hi. unfold put. rewrite (proj2 (Z.ltb_ge _ _)), (proj2 (Z.leb_gt _ _)) by lia. done.
Qed.
Lemma lenZ_upd c i v : lenZ (upd c i v) = lenZ c.
Proof. unfold lenZ, upd. by rewrite length_insert. Qed.
Lemma at_upd c i v p :
  0 <= i < lenZ c -> 0 <= p -> at_ (upd c i v) p = if p =? i then v else at_ c p.
Proof.
  intros Hi Hp. unfold at_, upd. unfold lenZ in Hi. destruct (Z.eqb_spec p i) as [->|Hne].
  - by rewrite list_lookup_insert_eq by lia.
  - by rewrite list_lookup_insert_ne by lia.
Qed.
Lemma insert_perm (c : list Z) i x v : c !! i = Some x -> x :: <[i := v]> c ≡ₚ v :: c.
Proof.
  revert i. induction c as [|y c IH]; intros [|i]; simpl; intros Hx; try done.
  - injection Hx as ->. apply perm_swap.
  - rewrite perm_swap, IH by done. apply perm_swap.
Qed.

(** [c'] is [c] with the cells [l .. r] permuted. *)
Record loc (l r : Z) (c c' : list Z) : Prop := {
  loc_len : lenZ c' = lenZ c;
  loc_perm : c' ≡ₚ c;
  loc_out : forall p, 0 <= p -> ~ l <= p <= r -> at_ c' p = at_ c p;
  loc_in : forall p, l <= p <= r -> exists q, l <= q <= r /\ at_ c' p = at_ c q
}.
Lemma loc_refl l r c : loc l r c c.
Proof. split; try done. intros p Hp. by exists p. Qed.
Lemma loc_trans l r c1 c2 c3 : loc l r c1 c2 -> loc l r c2 c3 -> loc l r c1 c3.
Proof.
  intros [L1 P1 O1 I1] [L2 P2 O2 I2]. split; [congruence|by rewrite P2| |].
  - intros p Hp Hn. by rewrite O2, O1.
  - intros p Hp. destruct (I2 p Hp) as (q & Hq & ->). destruct (I1 q Hq) as (q' & Hq' & ->). by exists q'.
Qed.
Lemma loc_widen l r l' r' c c' : 0 <= l' <= l -> r <= r' -> loc l r c c' -> loc l' r' c c'.
Proof.
  intros Hl Hr [L P O I]. split; [done|done| |].
  - intros p Hp Hn. apply O; lia.
  - intros p Hp. destruct (decide (l <= p <= r)) as [Hd|Hd].
    + destruct (I p Hd) as (q & Hq & E). exists q. split; [lia|done].
    + exists p. split; [lia|]. apply O; [lia|done].
Qed.
#[export] Hint Resolve loc_refl : midl.

Definition swapped (c : list Z) (i j : Z) : list Z := upd (upd c i (at_ c j)) j (at_ c i).
Lemma at_swapped c i j p :
  0 <= i < lenZ c -> 0 <= j < lenZ c -> 0 <= p ->
  at_ (swapped c i j) p = if p =? j then at_ c i else if p =? i then at_ c j else at_ c p.
Proof. intros Hi Hj Hp. unfold swapped. by rewrite !at_upd by (rewrite ?lenZ_upd; lia). Qed.
Lemma loc_swapped l r c i j :
  0 <= l -> r < lenZ c -> l <= i <= r -> l <= j <= r -> loc l r c (swapped c i j).
Proof.
  intros Hl Hr Hi Hj. split.
  - unfold swapped. by rewrite !lenZ_upd.
  - unfold swapped. set (c1 := upd c i (at_ c j)).
    assert (H1 : at_ c i :: c1 ≡ₚ at_ c j :: c) by (apply insert_perm, lookup_at; lia).
    assert (Hj1 : at_ c1 j = at_ c j).
    { subst c1. rewrite at_upd by lia. by destruct (j =? i). }
    assert (H2 : at_ c1 j :: upd c1 j (at_ c i) ≡ₚ at_ c i :: c1).
    { apply insert_perm, lookup_at. subst c1. rewrite lenZ_upd. lia. }
    rewrite Hj1, H1 in H2. by apply Permutation_cons_inv in H2.
  - intros p Hp Hn. rewrite at_swapped by lia.
    destruct (Z.eqb_spec p j), (Z.eqb_spec p i); try lia; done.
  - intros p Hp. rewrite at_swapped by lia. destruct (Z.eqb_spec p j); [by exists i|].
    destruct (Z.eqb_spec p i); [by exists j|by exists p].
Qed.
Lemma swap_ok c i j : 0 <= i < lenZ c -> 0 <= j < lenZ c -> swap c i j = Done (swapped c i j).
Proof.
  intros Hi Hj. unfold swap. rewrite !get_ok by lia. cbn [obind]. rewrite put_ok by lia. cbn [obind].
  by rewrite put_ok by (rewrite lenZ_upd; lia).
Qed.
Lemma swap_if_less_ok c i j :
  0 <= i < lenZ c -> 0 <= j < lenZ c ->
  swap_if_less c i j = Done (if at_ c i <? at_ c j then swapped c i j else c).
Proof.
  intros Hi Hj. unfold swap_if_less. rewrite !get_ok by lia. cbn [obind].
  destruct (_ <? _); [by apply swap_ok|done].
Qed.

(** ** Insertion sort *)
Definition desc (l r : Z) (c : list Z) : Prop := forall p q, l <= p -> p <= q -> q <= r -> at_ c q <= at_ c p.

(** The hole is at [i + 1]; with [a] in it the array is a permutation. *)
Lemma insert_shift_ok l i a c :
  1 <= l -> Z.of_nat i + 1 < lenZ c -> l - 1 <= Z.of_nat i -> (l = 1 \/ a <= at_ c (l - 1)) ->
  exists i' c', insert_shift i a c = Done (i', c') /\ l - 1 <= i' <= Z.of_nat i /\ lenZ c' = lenZ c /\
    loc l (Z.of_nat i + 1) (upd c (Z.of_nat i + 1) a) (upd c' (i' + 1) a) /\
    (forall p, 0 <= p <= i' -> at_ c' p = at_ c p) /\
    (forall p, i' + 1 < p <= Z.of_nat i + 1 -> at_ c' p = at_ c (p - 1) /\ at_ c (p - 1) < a) /\
    (l <= i' -> a <= at_ c i').
Proof.
  revert c. induction i as [|i IH]; intros c Hl Hlen Hi Hleft.
  { exists 0, c. split_and!; try done; try lia; auto with midl; lia. }
  cbn [insert_shift]. rewrite get_ok by lia. cbn [obind].
  destruct (Z.leb_spec a (at_ c (Z.of_nat (S i)))) as [Ha|Ha].
  { exists (Z.of_nat (S i)), c. split_and!; try done; try lia; auto with midl; lia. }
  assert (Hi' : l - 1 <> Z.of_nat (S i)) by (intros E; rewrite E in Hleft; lia).
  rewrite put_ok by lia. cbn [obind]. set (c1 := upd c _ _).
  assert (Hat : forall p, 0 <= p -> at_ c1 p = if p =? Z.of_nat (S i) + 1 then at_ c (Z.of_nat (S i)) else at_ c p)
    by (intros p Hp; unfold c1; by rewrite at_upd by lia).
  assert (Hlen1 : lenZ c1 = lenZ c) by apply lenZ_upd.
  destruct (IH c1) as (i' & c' & -> & Hr & Hlen' & Hloc & Hlow & Hhigh & Hstop); [done|lia|lia| |].
  { rewrite Hat by lia. destruct (Z.eqb_spec (l - 1) (Z.of_nat (S i) + 1)); [lia|done]. }
  exists i', c'. split; [done|]. split; [lia|]. split; [lia|]. split; [|split; [|split]].
  - apply (loc_trans _ _ _ (upd c1 (Z.of_nat i + 1) a)).
    + replace (upd c1 (Z.of_nat i + 1) a) with
        (swapped (upd c (Z.of_nat (S i) + 1) a) (Z.of_nat (S i)) (Z.of_nat (S i) + 1)).
      { apply loc_swapped; rewrite ?lenZ_upd; lia. }
      unfold swapped, c1. rewrite !at_upd by lia.
      rewrite Z.eqb_refl, (proj2 (Z.eqb_neq _ _)) by lia. unfold upd.
      rewrite list_insert_insert_ne by lia. f_equal; [lia|]. by rewrite list_insert_insert_eq.
    + eapply loc_widen; [| |exact Hloc]; lia.
  - intros p Hp. rewrite Hlow, Hat by lia. by rewrite (proj2 (Z.eqb_neq _ _)) by lia.
  - intros p Hp. destruct (Z.eq_dec p (Z.of_nat (S i) + 1)) as [->|Hne].
    + (* the cell above is not touched any more *)
      pose proof (loc_out _ _ _ _ Hloc (Z.of_nat (S i) + 1) ltac:(lia) ltac:(lia)) as Ho.
      rewrite !at_upd in Ho by lia. rewrite !(proj2 (Z.eqb_neq _ _)) in Ho by lia.
      rewrite Ho, Hat by lia. rewrite Z.eqb_refl. replace (Z.of_nat (S i) + 1 - 1) with (Z.of_nat (S i)) by lia.
      split; [done|lia].
    + destruct (Hhigh p ltac:(lia)) as [E1 E2]. rewrite Hat in E1, E2 by lia.
      rewrite (proj2 (Z.eqb_neq _ _)) in E1, E2 by lia. done.
  - intros Hli. specialize (Hstop Hli). rewrite Hat in Hstop by lia.
    by rewrite (proj2 (Z.eqb_neq _ _)) in Hstop by lia.
Qed.

Lemma insertion_step l r j c :
  1 <= l -> l < j <= r -> r < lenZ c -> desc l (j - 1) c ->
  (forall p q, 1 <= p < l -> l <= q <= r -> at_ c q <= at_ c p) ->
  exists i c', insert_shift (Z.to_nat (j - 1)) (at_ c j) c = Done (i, c') /\ l - 1 <= i < j /\
    lenZ c' = lenZ c /\ loc l r c (upd c' (i + 1) (at_ c j)) /\ desc l j (upd c' (i + 1) (at_ c j)).
Proof.
  intros Hl Hj Hr Hd Hleft.
  destruct (insert_shift_ok l (Z.to_nat (j - 1)) (at_ c j) c) as (i & c' & -> & Hi & Hlen & Hloc & Hlow & Hhigh & Hstop);
    [lia|lia|lia| |].
  { destruct (Z.eq_dec l 1); [by left|right]. apply Hleft; lia. }
  rewrite Z2Nat.id in * by lia. replace (j - 1 + 1) with j in * by lia.
  exists i, c'. split; [done|]. split; [lia|]. split; [done|].
  assert (E : upd c j (at_ c j) = c).
  { unfold upd. apply list_insert_id. apply lookup_at. lia. }
  rewrite E in Hloc. split; [eapply loc_widen; [| |exact Hloc]; lia|].
  intros p q Hp Hpq Hq. rewrite !at_upd by lia.
  destruct (Z.eqb_spec q (i + 1)) as [->|Hq1], (Z.eqb_spec p (i + 1)) as [->|Hp1]; try lia.
  - rewrite Hlow by lia. pose proof (Hstop ltac:(lia)). pose proof (Hd p i ltac:(lia) ltac:(lia) ltac:(lia)). lia.
  - destruct (Hhigh q ltac:(lia)) as [-> ?]. lia.
  - assert (E' : forall x, l <= x <= j -> x <> i + 1 -> at_ c' x = at_ c (if x <=? i then x else x - 1)).
    { intros x Hx Hne. destruct (Z.leb_spec x i); [apply Hlow; lia|]. by apply Hhigh; lia. }
    rewrite !E' by lia. apply Hd; destruct (Z.leb_spec p i), (Z.leb_spec q i); lia.
Qed.

Lemma insertion_sort_ok l r n j c :
  1 <= l -> l < j -> j + Z.of_nat n = r + 1 -> r < lenZ c -> desc l (j - 1) c ->
  (forall p q, 1 <= p < l -> l <= q <= r -> at_ c q <= at_ c p) ->
  exists c', insertion_sort n j c = Done c' /\ loc l r c c' /\ desc l r c'.
Proof.
  revert j c. induction n as [|n IH]; intros j c Hl Hj Hn Hr Hd Hleft.
  { exists c. split; [done|]. split; [apply loc_refl|]. by replace r with (j - 1) by lia. }
  cbn [insertion_sort]. rewrite get_ok by lia. cbn [obind].
  destruct (insertion_step l r j c) as (i & c' & -> & Hi & Hlen & Hloc & Hd'); try done; [lia|].
  cbn [obind]. rewrite put_ok by lia. cbn [obind]. set (c1 := upd c' _ _) in *.
  destruct (IH (j + 1) c1) as (c2 & -> & Hloc2 & Hd2); try lia.
  - rewrite (loc_len _ _ _ _ Hloc). lia.
  - by replace (j + 1 - 1) with j by lia.
  - intros p q Hp Hq. rewrite (loc_out _ _ _ _ Hloc p) by lia.
    destruct (loc_in _ _ _ _ Hloc q Hq) as (q' & Hq' & ->). by apply Hleft.
  - exists c2. split; [done|]. split; [by eapply loc_trans|done].
Qed.

(** ** Partition *)
Lemma scan_up_ok c a fuel i s :
  0 <= i + 1 -> i < s < lenZ c -> at_ c s <= a -> s - i <= Z.of_nat fuel ->
  exists i', scan_up fuel c a i = Done i' /\ i < i' <= s /\ at_ c i' <= a /\
    forall p, i < p < i' -> a < at_ c p.
Proof.
  revert i. induction fuel as [|fuel IH]; intros i Hi Hs Ha Hf; [lia|]. cbn [scan_up].
  rewrite get_ok by lia. cbn [obind]. destruct (Z.ltb_spec a (at_ c (i + 1))) as [Hlt|Hge].
  - assert (s <> i + 1) by (intros ->; lia).
    destruct (IH (i + 1)) as (i' & -> & Hi' & Hle & Hall); try lia.
    exists i'. split; [done|]. split; [lia|]. split; [done|]. intros p Hp.
    destruct (Z.eq_dec p (i + 1)) as [->|]; [done|]. apply Hall. lia.
  - exists (i + 1). split; [done|]. split; [lia|]. split; [done|]. lia.
Qed.
Lemma scan_down_ok c a fuel j s :
  j <= lenZ c -> 0 <= s < j -> a <= at_ c s -> j - s <= Z.of_nat fuel ->
  exists j', scan_down fuel c a j = Done j' /\ s <= j' < j /\ a <= at_ c j' /\
    forall p, j' < p < j -> at_ c p < a.
Proof.
  revert j. induction fuel as [|fuel IH]; intros j Hj Hs Ha Hf; [lia|]. cbn [scan_down].
  rewrite get_ok by lia. cbn [obind]. destruct (Z.ltb_spec (at_ c (j - 1)) a) as [Hlt|Hge].
  - assert (s <> j - 1) by (intros ->; lia).
    destruct (IH (j - 1)) as (j' & -> & Hj' & Hle & Hall); try lia.
    exists j'. split; [done|]. split; [lia|]. split; [done|]. intros p Hp.
    destruct (Z.eq_dec p (j - 1)) as [->|]; [done|]. apply Hall. lia.
  - exists (j - 1). split; [done|]. split; [lia|]. split; [done|]. lia.
Qed.

(** Between the two scans. *)
Record split_inv (c : list Z) (a l r i j : Z) : Prop := {
  si_range : l + 1 <= i <= j /\ j <= r;
  si_ends : l + 1 < j /\ i < r;
  si_pivot : at_ c (l + 1) = a;
  si_left : forall p, l <= p <= i -> a <= at_ c p;
  si_right : forall p, j <= p <= r -> at_ c p <= a
}.
Lemma partition_loop_ok fuel c a l r i j :
  0 <= l -> r < lenZ c -> split_inv c a l r i j -> j - i < Z.of_nat fuel ->
  exists c' i' j', partition_loop fuel c a i j = Done (c', i', j') /\ loc l r c c' /\
    l + 1 <= j' < i' /\ i' <= r /\ at_ c' (l + 1) = a /\
    (forall p, l <= p < i' -> a <= at_ c' p) /\ (forall p, j' < p <= r -> at_ c' p <= a).
Proof.
  intros Hl Hr. revert c i j Hr. induction fuel as [|fuel IH];
    intros c i j Hr [Hrg He Hpv HL HR] Hf; [lia|]. cbn [partition_loop].
  pose proof (eq_refl (lenZ c)) as Hlen. unfold lenZ at 2 in Hlen.
  destruct (scan_up_ok c a (S (length c)) i (Z.max j (i + 1))) as (i' & -> & Hi' & Hle & Hup); try lia.
  { apply HR. lia. }
  cbn [obind].
  destruct (scan_down_ok c a (S (length c)) j (Z.min i (j - 1))) as (j' & -> & Hj' & Hge & Hdn); try lia.
  { apply HL. lia. }
  cbn [obind].
  assert (HL' : forall p, l <= p < i' -> a <= at_ c p).
  { intros p Hp. destruct (Z.le_gt_cases p i); [apply HL; lia|]. pose proof (Hup p ltac:(lia)). lia. }
  assert (HR' : forall p, j' < p <= r -> at_ c p <= a).
  { intros p Hp. destruct (Z.le_gt_cases j p); [apply HR; lia|]. pose proof (Hdn p ltac:(lia)). lia. }
  destruct (Z.ltb_spec j' i') as [Hlt|Hnlt].
  { exists c, i', j'. split; [done|]. split; [apply loc_refl|]. split; [lia|]. split; [lia|]. done. }
  rewrite swap_ok by lia. cbn [obind]. set (c1 := swapped c i' j').
  assert (Hat : forall p, 0 <= p -> at_ c1 p = if p =? j' then at_ c i' else if p =? i' then at_ c j' else at_ c p)
    by (intros p Hp; apply at_swapped; lia).
  assert (Hloc1 : loc l r c c1) by (apply loc_swapped; lia).
  destruct (IH c1 i' j') as (c2 & i2 & j2 & -> & Hloc2 & Hrest).
  - rewrite (loc_len _ _ _ _ Hloc1). lia.
  - split; [lia|lia| | |].
    + rewrite Hat by lia. by rewrite !(proj2 (Z.eqb_neq _ _)) by lia.
    + intros p Hp. rewrite Hat by lia. destruct (Z.eqb_spec p j') as [->|].
      { replace i' with j' by lia. lia. }
      destruct (Z.eqb_spec p i'); [lia|]. apply HL'. lia.
    + intros p Hp. rewrite Hat by lia. destruct (Z.eqb_spec p j') as [->|]; [lia|].
      destruct (Z.eqb_spec p i'); [lia|]. apply HR'. lia.
  - lia.
  - exists c2, i2, j2. split; [done|]. split; [by eapply loc_trans|done].
Qed.

(** The median of three: the pivot is at [l + 1], between its neighbours. *)
Lemma median_ok c l r :
  0 <= l -> l + 2 <= r -> r < lenZ c ->
  exists c1 c2 c3, swap_if_less c l r = Done c1 /\ swap_if_less c1 (l + 1) r = Done c2 /\
    swap_if_less c2 l (l + 1) = Done c3 /\ loc l r c c3 /\
    at_ c3 (l + 1) <= at_ c3 l /\ at_ c3 r <= at_ c3 (l + 1).
Proof.
  intros Hl Hlr Hr.
  assert (Hstep : forall c i j, lenZ c = lenZ c -> r < lenZ c -> l <= i <= r -> l <= j <= r -> i <> j ->
    exists c', swap_if_less c i j = Done c' /\ loc l r c c' /\ at_ c' i = Z.max (at_ c i) (at_ c j) /\
      at_ c' j = Z.min (at_ c i) (at_ c j) /\
      forall p, 0 <= p -> p <> i -> p <> j -> at_ c' p = at_ c p).
  { clear -Hl. intros c i j _ Hr Hi Hj Hne. rewrite swap_if_less_ok by lia.
    destruct (Z.ltb_spec (at_ c i) (at_ c j)).
    - eexists. split; [done|]. split; [apply loc_swapped; lia|].
      rewrite !at_swapped by lia. rewrite Z.eqb_refl, (proj2 (Z.eqb_neq i j)), Z.eqb_refl by lia.
      split; [lia|]. split; [lia|]. intros p Hp Hpi Hpj. rewrite at_swapped by lia.
      by rewrite !(proj2 (Z.eqb_neq p _)) by lia.
    - exists c. split; [done|]. split; [apply loc_refl|]. split; [lia|]. split; [lia|]. done. }
  destruct (Hstep c l r) as (c1 & E1 & L1 & A1 & B1 & O1); try done; try lia.
  destruct (Hstep c1 (l + 1) r) as (c2 & E2 & L2 & A2 & B2 & O2);
    rewrite ?(loc_len _ _ _ _ L1); try done; try lia.
  destruct (Hstep c2 l (l + 1)) as (c3 & E3 & L3 & A3 & B3 & O3);
    rewrite ?(loc_len _ _ _ _ L2), ?(loc_len _ _ _ _ L1); try done; try lia.
  exists c1, c2, c3. split; [done|]. split; [done|]. split; [done|].
  split; [eauto using loc_trans|].
  rewrite A3, B3, (O3 r), A2, B2 by lia.
  rewrite (O2 l), (O1 (l + 1)), A1, B1 by lia. lia.
Qed.

Lemma partition_ok c l r :
  0 <= l -> l + SMALL <= r -> r < lenZ c ->
  exists c' i j a, partition c l r = Done (c', i, j) /\ loc l r c c' /\ l + 1 <= j < i /\ i <= r /\
    (forall p, l <= p < i -> a <= at_ c' p) /\ (forall p, j <= p <= r -> at_ c' p <= a).
Proof.
  unfold SMALL. intros Hl Hlr Hr. unfold partition.
  assert (Hk : l <= Z.shiftr (l + r) 1 <= r).
  { rewrite Z.shiftr_div_pow2 by lia. change (2 ^ 1) with 2.
    pose proof (Z.div_mod (l + r) 2). pose proof (Z.mod_pos_bound (l + r) 2). lia. }
  rewrite swap_ok by lia. cbn [obind]. set (c0 := swapped c _ _).
  assert (L0 : loc l r c c0) by (apply loc_swapped; lia).
  destruct (median_ok c0 l r) as (c1 & c2 & c3 & -> & E2 & E3 & L3 & Ha & Hb);
    rewrite ?(loc_len _ _ _ _ L0); try lia.
  cbn [obind]. rewrite E2. cbn [obind]. rewrite E3. cbn [obind].
  pose proof (loc_len _ _ _ _ L0) as Hn0. pose proof (loc_len _ _ _ _ L3) as Hn3.
  rewrite get_ok by lia. cbn [obind].
  destruct (partition_loop_ok (S (length c3)) c3 (at_ c3 (l + 1)) l r (l + 1) r)
    as (c4 & i & j & -> & L4 & Hj & Hi & Hp & HL & HR); try lia.
  { split; try lia.
    - intros p Hp. destruct (Z.eq_dec p l) as [->|]; [done|]. by replace p with (l + 1) by lia.
    - intros p Hp. by replace p with r by lia. }
  { unfold lenZ in *. lia. }
  cbn [obind]. pose proof (loc_len _ _ _ _ L4) as Hn4. rewrite get_ok by lia. cbn [obind].
  rewrite put_ok by lia. cbn [obind]. rewrite put_ok by (rewrite lenZ_upd; lia). cbn [obind].
  exists (swapped c4 (l + 1) j), i, j, (at_ c3 (l + 1)).
  split; [unfold swapped; by rewrite Hp|].
  split; [repeat (eapply loc_trans; [eassumption|]); apply loc_swapped; lia|].
  split; [lia|]. split; [lia|].
  split; intros p Hpr; rewrite at_swapped by lia;
    destruct (Z.eqb_spec p j) as [->|]; rewrite ?Hp; try lia; (destruct (Z.eqb_spec p (l + 1)) as [->|]).
  - apply HL. lia.
  - apply HL. lia.
  - lia.
  - apply HR. lia.
Qed.

(** ** The main loop *)
Abbreviation seg := (Z * Z)%type.
Definition seg_size (s : seg) : Z := s.2 - s.1 + 1.
Definition apart (s t : seg) : Prop := s.2 < t.1 \/ t.2 < s.1.

(** Two cells are in order unless they belong to the same pending segment. *)
Definition ordered (n : Z) (segs : list seg) (c : list Z) : Prop :=
  forall p q, 1 <= p < q -> q <= n ->
    (exists s, s ∈ segs /\ s.1 <= p /\ q <= s.2) \/ at_ c q <= at_ c p.
Record segs_ok (n : Z) (segs : list seg) : Prop := {
  sg_range : Forall (fun s => 1 <= s.1 /\ s.1 <= s.2 + 1 /\ s.2 <= n) segs;
  sg_apart : ForallOrdPairs apart segs
}.

Lemma ordered_across n s F c p q :
  segs_ok n (s :: F) -> ordered n (s :: F) c -> 1 <= p < q -> q <= n ->
  (p < s.1 /\ s.1 <= q <= s.2) \/ (s.1 <= p <= s.2 /\ s.2 < q) -> at_ c q <= at_ c p.
Proof.
  intros [_ Ha] Ho Hp Hq Hpos. inversion Ha as [|? ? Has _]; subst.
  destruct (Ho p q Hp Hq) as [(t & Ht & Htp & Htq)|]; [|done].
  apply elem_of_cons in Ht as [->|Ht]; [lia|].
  rewrite Forall_forall in Has. pose proof (Has t Ht) as Hap. unfold apart in Hap. lia.
Qed.
(** A permutation of the cells of the first segment keeps the rest in order. *)
Lemma ordered_loc n s F c c' :
  segs_ok n (s :: F) -> ordered n (s :: F) c -> loc s.1 s.2 c c' -> ordered n (s :: F) c'.
Proof.
  intros Hs Ho Hloc p q Hp Hq. pose proof (Forall_inv (sg_range _ _ Hs)) as Hr. simpl in Hr.
  destruct (decide (s.1 <= p <= s.2)) as [Hpi|Hpo], (decide (s.1 <= q <= s.2)) as [Hqi|Hqo].
  - left. exists s. split; [apply list_elem_of_here|lia].
  - right. rewrite (loc_out _ _ _ _ Hloc q) by lia.
    destruct (loc_in _ _ _ _ Hloc p Hpi) as (p' & Hp' & ->).
    apply (ordered_across n s F); try done; lia.
  - right. rewrite (loc_out _ _ _ _ Hloc p) by lia.
    destruct (loc_in _ _ _ _ Hloc q Hqi) as (q' & Hq' & ->).
    apply (ordered_across n s F); try done; lia.
  - rewrite !(loc_out _ _ _ _ Hloc) by lia. by apply Ho.
Qed.
Lemma ordered_sorted n s F c : ordered n (s :: F) c -> desc s.1 s.2 c -> ordered n F c.
Proof.
  intros Ho Hd p q Hp Hq. destruct (Ho p q Hp Hq) as [(t & Ht & Htp & Htq)|]; [|by right].
  apply elem_of_cons in Ht as [->|Ht]; [right; apply Hd; lia|]. left. by exists t.
Qed.
Lemma ordered_split n l r F c i j a :
  ordered n ((l, r) :: F) c -> (forall p, l <= p < i -> a <= at_ c p) ->
  (forall p, j <= p <= r -> at_ c p <= a) -> ordered n ((l, j - 1) :: (i, r) :: F) c.
Proof.
  intros Ho HL HR p q Hp Hq. destruct (Ho p q Hp Hq) as [(t & Ht & Htp & Htq)|]; [|by right].
  apply elem_of_cons in Ht as [->|Ht].
  - simpl in Htp, Htq. destruct (Z.lt_ge_cases q j).
    { left. exists (l, j - 1). split; [apply list_elem_of_here|simpl; lia]. }
    destruct (Z.le_gt_cases i p).
    { left. exists (i, r). split; [apply list_elem_of_further, list_elem_of_here|simpl; lia]. }
    right. pose proof (HL p ltac:(lia)). pose proof (HR q ltac:(lia)). lia.
  - left. exists t. split; [by do 2 apply list_elem_of_further|done].
Qed.
Lemma ordered_perm n F G c : F ≡ₚ G -> ordered n F c -> ordered n G c.
Proof.
  intros HFG Ho p q Hp Hq. destruct (Ho p q Hp Hq) as [(t & Ht & H)|]; [|by right].
  left. exists t. by rewrite <- HFG.
Qed.
Lemma segs_split n l r F i j :
  segs_ok n ((l, r) :: F) -> l + 1 <= j < i -> i <= r ->
  segs_ok n ((l, j - 1) :: (i, r) :: F) /\ segs_ok n ((i, r) :: (l, j - 1) :: F).
Proof.
  intros [Hr Ha] Hj Hi. inversion Ha as [|? ? Has HF]; subst. inversion Hr as [|? ? Hr1 HrF]; subst. simpl in Hr1.
  assert (Hsub : forall x y, l <= x -> y <= r -> Forall (apart (x, y)) F).
  { intros x y Hx Hy. eapply Forall_impl; [exact Has|]. intros t. unfold apart. simpl. lia. }
  split; split; repeat constructor; simpl; try lia; try done; try (unfold apart; simpl; lia);
    apply Hsub; lia.
Qed.

(** The frames on the stack, the top first. *)
Fixpoint stack_ok (st : list Z) (F : list seg) : Prop :=
  match F with
  | [] => True
  | s :: F' => at_ st (2 * lenZ F) = s.2 /\ at_ st (2 * lenZ F - 1) = s.1 /\ stack_ok st F'
  end.
(** A frame with [d] frames below it has at most [n / 2^d] cells. *)
Fixpoint sizes_ok (n : Z) (F : list seg) : Prop :=
  match F with
  | [] => True
  | s :: F' => seg_size s * 2 ^ lenZ F' <= n /\ sizes_ok n F'
  end.
Fixpoint work (F : list seg) : Z :=
  match F with [] => 0 | s :: F' => 2 * seg_size s + 1 + work F' end.

Lemma stack_ok_upd st F i v :
  2 * lenZ F < i < lenZ st -> stack_ok st F -> stack_ok (upd st i v) F.
Proof.
  induction F as [|s F IH]; intros Hi; [done|]. rewrite lenZ_cons in Hi. pose proof (lenZ_nonneg F).
  cbn [stack_ok]. rewrite lenZ_cons, !at_upd by lia. rewrite !(proj2 (Z.eqb_neq _ _)) by lia.
  intros (H1 & H2 & H3). split; [done|]. split; [done|]. apply IH; [lia|done].
Qed.
Lemma stack_push st F l r :
  2 * lenZ F + 2 < lenZ st -> stack_ok st F ->
  exists st', (olet! st := put st (2 * lenZ F + 2) r in put st (2 * lenZ F + 2 - 1) l) = Done st' /\
    lenZ st' = lenZ st /\ stack_ok st' ((l, r) :: F).
Proof.
  intros Hn Hs. pose proof (lenZ_nonneg F). rewrite put_ok by lia. cbn [obind].
  rewrite put_ok by (rewrite lenZ_upd; lia). eexists. split; [done|].
  split; [by rewrite !lenZ_upd|]. cbn [stack_ok]. rewrite lenZ_cons.
  rewrite !at_upd by (rewrite ?lenZ_upd; lia).
  replace (2 * (1 + lenZ F)) with (2 * lenZ F + 2) by lia.
  rewrite !Z.eqb_refl, (proj2 (Z.eqb_neq _ _)) by lia. split; [done|]. split; [done|].
  apply stack_ok_upd; [rewrite lenZ_upd; lia|]. by apply stack_ok_upd; [lia|].
Qed.
Lemma work_nonneg n F : segs_ok n F -> 0 <= work F.
Proof.
  intros [Hr _]. induction Hr as [|s F Hs _ IH]; simpl; [lia|]. unfold seg_size. lia.
Qed.
(** There is room for another frame as long as a segment is not small. *)
Lemma stack_room n s F :
  n < 2 ^ 30 -> SMALL < seg_size s -> sizes_ok n (s :: F) -> 2 * lenZ F + 2 < ISTACK.
Proof.
  unfold SMALL, ISTACK. intros Hn Hs [Hsz _]. pose proof (lenZ_nonneg F).
  destruct (Z.lt_ge_cases (lenZ F) 30) as [|Hf]; [lia|].
  pose proof (Z.pow_le_mono_r 2 30 (lenZ F) ltac:(lia) Hf). nia.
Qed.
(** The larger part is pushed, the smaller one has at most half the cells. *)
Lemma sizes_push n s big small F :
  sizes_ok n (s :: F) -> seg_size big <= seg_size s -> 0 <= seg_size small ->
  2 * seg_size small <= seg_size s -> sizes_ok n (small :: big :: F).
Proof.
  intros [Hs HF] Hb Hp Hsm. pose proof (lenZ_nonneg F). pose proof (Z.pow_pos_nonneg 2 (lenZ F) ltac:(lia) ltac:(lia)).
  cbn [sizes_ok]. rewrite lenZ_cons, Z.pow_add_r by lia. change (2 ^ 1) with 2. split_and!; [nia|nia|done].
Qed.

Lemma small_segment n l r F c :
  segs_ok n ((l, r) :: F) -> ordered n ((l, r) :: F) c -> n < lenZ c ->
  exists c', insertion_sort (Z.to_nat (r - l)) (l + 1) c = Done c' /\ loc 1 n c c' /\ ordered n F c'.
Proof.
  intros Hs Ho Hn. pose proof (Forall_inv (sg_range _ _ Hs)) as Hr. simpl in Hr.
  destruct (Z.lt_ge_cases r l) as [Hlt|Hge].
  - exists c. replace (Z.to_nat (r - l)) with O by lia. split; [done|]. split; [apply loc_refl|].
    eapply ordered_sorted; [done|]. intros p q. simpl. lia.
  - destruct (insertion_sort_ok l r (Z.to_nat (r - l)) (l + 1) c) as (c' & -> & Hl & Hd); try lia.
    + intros p q Hp Hpq Hq. replace q with p by lia. lia.
    + intros p q Hp Hq. apply (ordered_across n (l, r) F); try done; simpl; lia.
    + exists c'. split; [done|]. split; [eapply loc_widen; [| |exact Hl]; lia|].
      eapply (ordered_sorted n (l, r)); [|done]. by eapply (ordered_loc n (l, r)).
Qed.

(** A segment is split: the parts, in the order in which they are handled. *)
Lemma split_step n l r F c :
  segs_ok n ((l, r) :: F) -> ordered n ((l, r) :: F) c -> n < lenZ c -> SMALL <= r - l ->
  exists c' i j, partition c l r = Done (c', i, j) /\ loc 1 n c c' /\ l + 1 <= j < i /\ i <= r /\
    ordered n ((l, j - 1) :: (i, r) :: F) c' /\ ordered n ((i, r) :: (l, j - 1) :: F) c'.
Proof.
  intros Hs Ho Hn Hsm. pose proof (Forall_inv (sg_range _ _ Hs)) as Hr. simpl in Hr.
  destruct (partition_ok c l r) as (c' & i & j & a & -> & Hl & Hj & Hi & HL & HR); try lia.
  exists c', i, j. split; [done|]. split; [eapply loc_widen; [| |exact Hl]; lia|].
  split; [done|]. split; [done|].
  assert (H1 : ordered n ((l, j - 1) :: (i, r) :: F) c').
  { apply (ordered_split n l r F c' i j a); [|done|done]. by apply (ordered_loc n (l, r) F c c'). }
  split; [done|]. eapply ordered_perm; [|exact H1]. apply perm_swap.
Qed.

Lemma sort_loop_ok n fuel c l r F st :
  segs_ok n ((l, r) :: F) -> ordered n ((l, r) :: F) c -> n < lenZ c -> n < 2 ^ 30 ->
  lenZ st = ISTACK -> 2 * lenZ F < ISTACK -> stack_ok st F -> sizes_ok n ((l, r) :: F) ->
  work ((l, r) :: F) <= Z.of_nat fuel ->
  exists c', sort_loop fuel c l r (2 * lenZ F) st = Done c' /\ loc 1 n c c' /\ ordered n [] c'.
Proof.
  revert c l r F st. induction fuel as [|fuel IH]; intros c l r F st Hs Ho Hn Hn30 Hst Hfit Hsto Hsz Hw.
  all: pose proof (Forall_inv (sg_range _ _ Hs)) as Hr; simpl in Hr; pose proof (lenZ_nonneg F) as HF0.
  all: assert (HsF : segs_ok n F) by
    (destruct Hs as [H1 H2]; inversion H1; inversion H2; subst; by split).
  all: pose proof (work_nonneg n F HsF) as HwF; cbn [work] in Hw; unfold seg_size in Hw; cbn [fst snd] in Hw.
  { lia. }
  cbn [sort_loop]. destruct (Z.ltb_spec (r - l) SMALL) as [Hsm|Hbig].
  - destruct (small_segment n l r F c Hs Ho Hn) as (c' & -> & Hloc & Ho'). cbn [obind].
    destruct F as [|[l' r'] F].
    { change (2 * lenZ []) with 0. rewrite Z.eqb_refl. by exists c'. }
    destruct Hsto as (E1 & E2 & Hsto). rewrite lenZ_cons in *. pose proof (lenZ_nonneg F).
    rewrite (proj2 (Z.eqb_neq _ 0)) by lia. rewrite !get_ok by lia. cbn [obind]. rewrite E1, E2.
    replace (2 * (1 + lenZ F) - 2) with (2 * lenZ F) by lia. cbn [fst snd].
    destruct (IH c' l' r' F st) as (c2 & -> & Hloc2 & Ho2); try done; try lia.
    + rewrite (loc_len _ _ _ _ Hloc). lia.
    + apply Hsz.
    + exists c2. split; [done|]. split; [by eapply loc_trans|done].
  - destruct (split_step n l r F c Hs Ho Hn Hbig) as (c' & i & j & -> & Hloc & Hj & Hi & Ho1 & Ho2).
    cbn [obind]. destruct (segs_split n l r F i j Hs Hj Hi) as [Hs1 Hs2].
    pose proof (stack_room n (l, r) F Hn30 ltac:(unfold seg_size, SMALL in *; simpl; lia) Hsz) as Hroom.
    pose proof (loc_len _ _ _ _ Hloc) as Hlen.
    destruct (Z.leb_spec (j - l) (r - i + 1)).
    + destruct (stack_push st F i r ltac:(lia) Hsto) as (st' & Hp & Hst' & Hsto').
      destruct (put st (2 * lenZ F + 2) r) as [st1|]; [|done]. cbn [obind] in Hp |- *. rewrite Hp. cbn [obind].
      replace (2 * lenZ F + 2) with (2 * lenZ ((i, r) :: F)) by (rewrite lenZ_cons; lia).
      destruct (IH c' l (j - 1) ((i, r) :: F) st') as (c2 & -> & Hloc2 & Ho'); try done;
        rewrite ?lenZ_cons; try lia.
      * apply (sizes_push n (l, r)); [done|unfold seg_size; simpl; lia..].
      * cbn [work]. unfold seg_size. simpl. lia.
      * exists c2. split; [done|]. split; [by eapply loc_trans|done].
    + destruct (stack_push st F l (j - 1) ltac:(lia) Hsto) as (st' & Hp & Hst' & Hsto').
      destruct (put st (2 * lenZ F + 2) (j - 1)) as [st1|]; [|done]. cbn [obind] in Hp |- *. rewrite Hp. cbn [obind].
      replace (2 * lenZ F + 2) with (2 * lenZ ((l, j - 1) :: F)) by (rewrite lenZ_cons; lia).
      destruct (IH c' i r ((l, j - 1) :: F) st') as (c2 & -> & Hloc2 & Ho'); try done;
        rewrite ?lenZ_cons; try lia.
      * apply (sizes_push n (l, r)); [done|unfold seg_size; simpl; lia..].
      * cbn [work]. unfold seg_size. simpl. lia.
      * exists c2. split; [done|]. split; [by eapply loc_trans|done].
Qed.

(** ** Lists *)
Lemma at_cons x c i : 1 <= i -> at_ (x :: c) i = at_ c (i - 1).
Proof.
  intros Hi. unfold at_. replace (Z.to_nat i) with (S (Z.to_nat (i - 1))) by lia. done.
Qed.
Lemma list_at_ext (c c' : list Z) :
  lenZ c' = lenZ c -> (forall p, 0 <= p < lenZ c -> at_ c' p = at_ c p) -> c' = c.
Proof.
  intros Hl Ha. apply list_eq_same_length with (n := length c); [done|unfold lenZ in *; lia|].
  intros i x y Hi Hx Hy. specialize (Ha (Z.of_nat i)). unfold at_, lenZ in Ha. rewrite Nat2Z.id in Ha.
  rewrite Hx, Hy in Ha. simpl in Ha. apply Ha. lia.
Qed.

Lemma loc_lookup_out l r c c' p :
  loc l r c c' -> ~ l <= Z.of_nat p <= r -> c' !! p = c !! p.
Proof.
  intros [Hl _ Ho _] Hp. unfold lenZ in Hl. destruct (Nat.lt_ge_cases p (length c)) as [H|H].
  - pose proof (lookup_at c (Z.of_nat p) ltac:(unfold lenZ; lia)) as H1.
    pose proof (lookup_at c' (Z.of_nat p) ltac:(unfold lenZ; lia)) as H2.
    rewrite Nat2Z.id in H1, H2. by rewrite H1, H2, Ho by lia.
  - by rewrite !lookup_ge_None_2 by lia.
Qed.
Lemma desc_sorted l' : (forall p q x y, (p < q)%nat -> l' !! p = Some x -> l' !! q = Some y -> y <= x) ->
  StronglySorted Z.ge l'.
Proof.
  induction l' as [|x l IH]; intros H; constructor.
  - apply IH. intros p q y z Hpq Hp Hq. by apply (H (S p) (S q) y z); [lia|..].
  - apply Forall_lookup. intros i y Hi. apply Z.le_ge. by apply (H 0%nat (S i) x y); [lia|..].
Qed.

Lemma midl_sort_ok l rest :
  lenZ l < 2 ^ 30 ->
  exists l', mdb_midl_sort (lenZ l :: l ++ rest) = Done (lenZ l :: l' ++ rest) /\
    l' ≡ₚ l /\ StronglySorted Z.ge l'.
Proof.
  intros Hn. pose proof (lenZ_nonneg l) as H0. set (ids := lenZ l :: l ++ rest). set (n := lenZ l) in *.
  assert (Hlen : n < lenZ ids) by (subst ids; lens).
  unfold mdb_midl_sort. rewrite get_ok by lia. change (at_ ids 0) with n. cbn [obind].
  assert (Ei : i32 n = n) by (unfold i32; rewrite Z.mod_small by lia; lia). rewrite Ei.
  destruct (sort_loop_ok n (S (2 * Z.to_nat n)) ids 1 n [] (zeros ISTACK)) as (c & Hc & Hloc & Ho); try done.
  - split; repeat constructor; simpl; lia.
  - intros p q Hp Hq. left. exists (1, n). split; [apply list_elem_of_here|simpl; lia].
  - split; [|done]. unfold seg_size. simpl. change (2 ^ lenZ []) with 1. lia.
  - cbn [work]. unfold seg_size. simpl. lia.
  - change (2 * lenZ []) with 0 in Hc. rewrite Hc.
    assert (Hs : c = n :: takeZ n (dropZ 1 c) ++ rest).
    { apply list_eq. intros [|i].
      { by rewrite (loc_lookup_out 1 n ids c 0 Hloc) by lia. }
      change (c !! S i = (takeZ n (dropZ 1 c) ++ rest) !! i).
      pose proof (loc_len _ _ _ _ Hloc) as Hlc. subst ids. autorewrite with len in Hlc.
      assert (Hlt : length (takeZ n (dropZ 1 c)) = Z.to_nat n).
      { pose proof (lenZ_takeZ n (dropZ 1 c)) as Hx. unfold takeZ, dropZ. unfold lenZ in Hlc, n.
        rewrite length_take, length_drop. unfold lenZ. lia. }
      destruct (Nat.lt_ge_cases i (Z.to_nat n)) as [Hi|Hi].
      - rewrite lookup_app_l by lia. unfold takeZ, dropZ. rewrite lookup_take_lt by lia. by rewrite lookup_drop.
      - rewrite lookup_app_r, Hlt by lia. rewrite (loc_lookup_out 1 n _ c (S i) Hloc) by lia. simpl.
        rewrite lookup_app_r by (unfold n, lenZ in *; lia). f_equal. unfold n, lenZ. lia. }
    exists (takeZ n (dropZ 1 c)). split; [by rewrite <- Hs|]. split.
    + pose proof (loc_perm _ _ _ _ Hloc) as Hp. rewrite Hs in Hp at 1. subst ids.
      apply Permutation_cons_inv in Hp. by apply Permutation_app_inv_r in Hp.
    + apply desc_sorted. intros p q x y Hpq Hx Hy. unfold takeZ, dropZ in Hx, Hy.
      apply lookup_take_Some in Hx as [Hx Hpn]. apply lookup_take_Some in Hy as [Hy Hqn].
      rewrite lookup_drop in Hx, Hy. destruct (Ho (Z.of_nat p + 1) (Z.of_nat q + 1)) as [(t & Ht & _)|Hle]; [lia|lia| |].
      { by apply elem_of_nil in Ht. }
      unfold at_ in Hle. replace (Z.to_nat (Z.of_nat p + 1)) with (Z.to_nat 1 + p)%nat in Hle by lia.
      replace (Z.to_nat (Z.of_nat q + 1)) with (Z.to_nat 1 + q)%nat in Hle by lia.
      by rewrite Hx, Hy in Hle.
Qed.

(** ** Arrays of pairs: search and insertion *)
Section mid2l.
Context (ids : list MDB_ID2) (id n : Z).
Let key (p : Z) : Z := (default (0, 0) (ids !! Z.to_nat p)).1.
Hypothesis n_len : 0 <= n < lenZ ids.
Hypothesis ascending : forall p q, 1 <= p < q -> q <= n -> key p < key q.

Lemma get_key p : 0 <= p < lenZ ids -> exists v, get ids p = Done v /\ v.1 = key p.
Proof.
  intros Hp. unfold get, key. rewrite (proj2 (Z.ltb_ge _ _)) by lia. unfold lenZ in Hp.
  destruct (lookup_lt_is_Some_2 ids (Z.to_nat p)) as [v ->]; [lia|]. by exists v.
Qed.

Lemma mid2l_search_loop_ok fuel base cursor val m :
  0 <= base -> 0 <= m -> base + m <= n -> m <= Z.of_nat fuel ->
  (forall p, 1 <= p <= base -> key p < id) -> (forall p, base + m < p <= n -> id < key p) ->
  (m = 0 -> (if 0 <? val then cursor + 1 else cursor) = base + 1) ->
  exists cur v, mid2l_search_loop fuel ids id base cursor val m = Done (cur, v) /\
    let x := if 0 <? v then cur + 1 else cur in
    1 <= x <= n + 1 /\ (forall p, 1 <= p < x -> key p < id) /\ (forall p, x <= p <= n -> id <= key p).
Proof.
  revert base cursor val m. induction fuel as [|fuel IH]; intros base cursor val m Hb Hm Hn Hf Hlo Hhi Hx.
  all: cbn [mid2l_search_loop]; destruct (Z.leb_spec m 0) as [H0|H0].
  1, 3: exists cursor, val; split; [done|]; cbn zeta; rewrite Hx by lia; split; [lia|]; split;
    intros p Hp; [apply Hlo; lia|]; apply Z.lt_le_incl, Hhi; lia.
  { lia. }
  assert (Hp : 0 <= Z.shiftr m 1 < m).
  { rewrite Z.shiftr_div_pow2 by lia. change (2 ^ 1) with 2.
    pose proof (Z.div_mod m 2). pose proof (Z.mod_pos_bound m 2). lia. }
  set (pv := Z.shiftr m 1) in *. destruct (get_key (base + pv + 1)) as (v & -> & Hv); [lia|].
  cbn [obind]. rewrite Hv. unfold CMP.
  assert (Hmono : forall p q, 1 <= p <= q -> q <= n -> key p <= key q).
  { intros p q Hpq Hq. destruct (Z.eq_dec p q) as [->|]; [lia|]. apply Z.lt_le_incl, ascending; lia. }
  destruct (Z.ltb_spec id (key (base + pv + 1))) as [Hlt|Hge].
  - cbn. apply IH; try lia; [done| |].
    + intros p Hpp. pose proof (Hmono (base + pv + 1) p ltac:(lia) ltac:(lia)). lia.
    + intros ->. cbn. lia.
  - destruct (Z.ltb_spec (key (base + pv + 1)) id) as [Hgt|Heq]; cbn.
    + apply IH; try lia.
      * intros p Hpp. pose proof (Hmono p (base + pv + 1) ltac:(lia) ltac:(lia)). lia.
      * intros p Hpp. apply Hhi. lia.
      * intros _. cbn. lia.
    + eexists _, _. split; [done|]. cbn. split; [lia|]. split; intros p Hpp.
      * pose proof (ascending p (base + pv + 1) ltac:(lia) ltac:(lia)). lia.
      * pose proof (Hmono (base + pv + 1) p ltac:(lia) ltac:(lia)). lia.
Qed.
End mid2l.

Lemma strict_lookup (ks : list Z) p q x y :
  StronglySorted Z.lt ks -> (p < q)%nat -> ks !! p = Some x -> ks !! q = Some y -> x < y.
Proof.
  intros Hs. revert p q. induction Hs as [|z ks _ IH Hz]; intros p q Hpq Hp Hq; [done|].
  destruct q as [|q]; [lia|]. destruct p as [|p].
  - injection Hp as ->. simpl in Hq. by apply (Forall_lookup_1 _ _ _ _ Hz Hq).
  - by apply (IH p q); [lia|..].
Qed.

(** The array with header [h], pairs [l] and unused cells [rest]. *)
Lemma mid2l_search_ok l h2 rest id :
  lenZ l < 2 ^ 32 -> StronglySorted Z.lt l.*1 ->
  exists l1 l2, l = l1 ++ l2 /\ mdb_mid2l_search ((lenZ l, h2) :: l ++ rest) id = Done (lenZ l1 + 1) /\
    Forall (fun v => v.1 < id) l1 /\ Forall (fun v => id <= v.1) l2.
Proof.
  intros Hn Hs. set (ids := (lenZ l, h2) :: l ++ rest). pose proof (lenZ_nonneg l) as H0.
  assert (Hk : forall p, 1 <= p <= lenZ l -> exists v, l !! Z.to_nat (p - 1) = Some v /\ ids !! Z.to_nat p = Some v).
  { intros p Hp. destruct (lookup_lt_is_Some_2 l (Z.to_nat (p - 1))) as [v Hv]; [unfold lenZ in *; lia|].
    exists v. split; [done|]. subst ids. replace (Z.to_nat p) with (S (Z.to_nat (p - 1))) by lia. simpl.
    rewrite lookup_app_l; [done|]. by eapply lookup_lt_Some. }
  destruct (mid2l_search_loop_ok ids id (lenZ l)) with (fuel := Z.to_nat (lenZ l)) (base := 0) (cursor := 1)
    (val := 0) (m := lenZ l) as (cur & v & Hr & Hx & Hlo & Hhi); try lia.
  { subst ids. lens. }
  { intros p q Hpq Hq. destruct (Hk p ltac:(lia)) as (vp & Hp1 & ->), (Hk q ltac:(lia)) as (vq & Hq1 & ->). simpl.
    apply (strict_lookup l.*1 (Z.to_nat (p - 1)) (Z.to_nat (q - 1))); [done|lia| |];
      rewrite list_lookup_fmap; [by rewrite Hp1|by rewrite Hq1]. }
  { done. }
  set (x := if 0 <? v then cur + 1 else cur) in *. cbn zeta in Hx, Hlo, Hhi.
  exists (takeZ (x - 1) l), (dropZ (x - 1) l). split; [unfold takeZ, dropZ; by rewrite take_drop|].
  split.
  { unfold mdb_mid2l_search. change (get ids 0) with (Done (lenZ l, h2)). cbn [obind fst].
    rewrite wrap_small by lia. rewrite Hr. cbn [obind]. fold x. f_equal. rewrite lenZ_takeZ by lia. lia. }
  split; apply Forall_lookup; intros i w Hw; unfold takeZ, dropZ in Hw.
  - apply lookup_take_Some in Hw as [Hw Hi]. pose proof (lookup_lt_Some _ _ _ Hw).
    specialize (Hlo (Z.of_nat i + 1) ltac:(lia)). destruct (Hk (Z.of_nat i + 1)) as (u & Hu & Eu); [unfold lenZ in *; lia|].
    rewrite Eu in Hlo. replace (Z.to_nat (Z.of_nat i + 1 - 1)) with i in Hu by lia. by simplify_eq.
  - rewrite lookup_drop in Hw. pose proof (lookup_lt_Some _ _ _ Hw).
    set (p := x + Z.of_nat i). destruct (Hk p) as (u & Hu & Eu); [unfold lenZ in *; lia|].
    specialize (Hhi p ltac:(unfold lenZ in *; lia)). rewrite Eu in Hhi.
    replace (Z.to_nat (p - 1)) with (Z.to_nat (x - 1) + i)%nat in Hu by lia. by simplify_eq.
Qed.

Lemma get_mid {A} (a b : list A) v : get (a ++ v :: b) (lenZ a) = Done v.
Proof.
  unfold get. rewrite (proj2 (Z.ltb_ge _ _)) by apply lenZ_nonneg.
  unfold lenZ. rewrite Nat2Z.id, lookup_app_r, Nat.sub_diag by lia. done.
Qed.
Lemma put_mid {A} (a b : list A) v u : put (a ++ v :: b) (lenZ a) u = Done (a ++ u :: b).
Proof.
  pose proof (lenZ_nonneg a). pose proof (lenZ_nonneg b). unfold put.
  rewrite (proj2 (Z.ltb_ge _ _)), (proj2 (Z.leb_gt _ _)) by (rewrite ?lenZ_app, ?lenZ_cons; lia).
  cbn [orb]. unfold lenZ. rewrite Nat2Z.id, insert_app_r_alt, Nat.sub_diag by lia. done.
Qed.

Lemma mid2l_shift_ok (pre mid : list MDB_ID2) z rest :
  exists w, mid2l_shift (length mid) (lenZ (pre ++ mid)) (pre ++ mid ++ z :: rest) =
            Done (pre ++ w :: mid ++ rest).
Proof.
  revert z rest. induction mid as [|v mid IH] using rev_ind; intros z rest.
  { exists z. by rewrite app_nil_r. }
  rewrite length_app, Nat.add_comm. cbn [length Nat.add mid2l_shift].
  replace (lenZ (pre ++ mid ++ [v]) - 1) with (lenZ (pre ++ mid)) by lens.
  replace (pre ++ (mid ++ [v]) ++ z :: rest) with ((pre ++ mid) ++ v :: z :: rest) by (by rewrite <- !app_assoc).
  rewrite get_mid. cbn [obind].
  replace ((pre ++ mid) ++ v :: z :: rest) with ((pre ++ mid ++ [v]) ++ z :: rest) by (by rewrite <- !app_assoc).
  rewrite put_mid. cbn [obind].
  replace ((pre ++ mid ++ [v]) ++ v :: rest) with (pre ++ mid ++ v :: v :: rest) by (by rewrite <- !app_assoc).
  destruct (IH v (v :: rest)) as (w & ->). exists w. by rewrite <- !app_assoc.
Qed.

Lemma sorted_insert (l1 l2 : list MDB_ID2) id :
  StronglySorted Z.lt (l1 ++ l2).*1 -> Forall (fun v => v.1 < id.1) l1 -> Forall (fun v => id.1 < v.1) l2 ->
  StronglySorted Z.lt (l1 ++ id :: l2).*1.
Proof.
  induction l1 as [|v l1 IH]; simpl; intros Hs H1 H2.
  - constructor; [done|]. by apply Forall_fmap.
  - apply StronglySorted_inv in Hs as [Hs Hv]. apply Forall_cons in H1 as [Hv1 H1]. constructor; [by apply IH|].
    rewrite fmap_app in *. cbn [fmap list_fmap]. apply Forall_app in Hv as [Ha Hb].
    apply Forall_app. split; [done|]. by constructor.
Qed.

(** The test for a duplicate, at the position the search found. *)
Lemma mid2l_dup (l1 l2 : list MDB_ID2) h2 rest id :
  let l := l1 ++ l2 in
  StronglySorted Z.lt l.*1 -> Forall (fun v => v.1 < id) l1 -> Forall (fun v => id <= v.1) l2 ->
  (if lenZ l1 + 1 <=? lenZ l
   then olet! v := get ((lenZ l, h2) :: l ++ rest) (lenZ l1 + 1) in Done (v.1 =? id)
   else Done false) = Done (bool_decide (id ∈ l.*1)).
Proof.
  intros l Hs H1 H2. pose proof (lenZ_nonneg l2).
  assert (Hlt1 : id ∉ l1.*1).
  { intros (v & Ev & Hv)%list_elem_of_fmap. rewrite Forall_forall in H1. pose proof (H1 v Hv). lia. }
  assert (Hlen : lenZ l = lenZ l1 + lenZ l2) by (subst l; lens).
  destruct (Z.leb_spec (lenZ l1 + 1) (lenZ l)) as [Hle|Hgt]; subst l.
  - destruct l2 as [|v l2]; [rewrite lenZ_nil in Hlen; lia|].
    replace ((lenZ (l1 ++ v :: l2), h2) :: (l1 ++ v :: l2) ++ rest) with
      (((lenZ (l1 ++ v :: l2), h2) :: l1) ++ v :: l2 ++ rest) by (by rewrite <- app_assoc).
    replace (lenZ l1 + 1) with (lenZ ((lenZ (l1 ++ v :: l2), h2) :: l1)) by lens.
    rewrite get_mid. cbn [obind]. f_equal. rewrite fmap_app, fmap_cons in Hs |- *.
    apply Forall_cons in H2 as [Hv H2]. destruct (Z.eqb_spec v.1 id) as [Ev|Hne]; symmetry.
    + apply bool_decide_eq_true. rewrite elem_of_app, elem_of_cons. auto.
    + apply bool_decide_eq_false. rewrite elem_of_app, elem_of_cons.
      intros [?|[?|Hin]]; [done|congruence|]. apply StronglySorted_app_1_r in Hs.
      apply StronglySorted_inv in Hs as [_ Hs]. rewrite Forall_forall in Hs. pose proof (Hs _ Hin). lia.
  - assert (l2 = []) as -> by (apply lenZ_zero_nil; lia). f_equal. symmetry. apply bool_decide_eq_false.
    by rewrite app_nil_r.
Qed.
(** The insertion itself. *)
Lemma mid2l_place (l1 l2 : list MDB_ID2) h2 z rest id :
  let n := lenZ (l1 ++ l2) in
  (olet! ids := put ((n, h2) :: (l1 ++ l2) ++ z :: rest) 0 (n + 1, h2) in
   olet! ids := mid2l_shift (Z.to_nat (n + 1 - (lenZ l1 + 1))) (n + 1) ids in
   olet! ids := put ids (lenZ l1 + 1) id in Done (0, ids)) =
  Done (0, (n + 1, h2) :: (l1 ++ id :: l2) ++ rest).
Proof.
  intros n. pose proof (lenZ_nonneg l1). pose proof (lenZ_nonneg l2).
  change (put ((n, h2) :: (l1 ++ l2) ++ z :: rest) 0) with (put ([] ++ (n, h2) :: (l1 ++ l2) ++ z :: rest) (lenZ (@nil MDB_ID2))).
  rewrite put_mid. cbn [obind app].
  destruct (mid2l_shift_ok ((n + 1, h2) :: l1) l2 z rest) as (w & Hsh).
  replace (Z.to_nat (n + 1 - (lenZ l1 + 1))) with (length l2) by (subst n; rewrite lenZ_app; unfold lenZ; lia).
  replace (lenZ (((n + 1, h2) :: l1) ++ l2)) with (n + 1) in Hsh by (subst n; lens).
  rewrite <- app_assoc. cbn [app] in Hsh. rewrite Hsh. cbn [obind].
  change ((n + 1, h2) :: l1 ++ w :: l2 ++ rest) with (((n + 1, h2) :: l1) ++ w :: l2 ++ rest).
  replace (lenZ l1 + 1) with (lenZ ((n + 1, h2) :: l1)) by lens. rewrite put_mid. cbn [obind].
  by rewrite <- app_assoc.
Qed.

(** ** Growing lists *)

(** [ids] holds the IDs [l]; the block has room for [idl_cap ids] of them. *)
Record idl_wf (ids : MDB_IDL) (l : list Z) : Prop := {
  iw_cells : exists rest, idl_cells ids = lenZ l :: l ++ rest;
  iw_cap : lenZ (idl_cells ids) = idl_cap ids + 1
}.
Lemma iw_cells_get ids l : idl_wf ids l -> get (idl_cells ids) 0 = Done (lenZ l).
Proof. by intros [[rest ->] _]. Qed.
Lemma lenZ_new_cells junk n : lenZ (new_cells junk n) = Z.max 0 n.
Proof. unfold lenZ, new_cells. rewrite length_map, length_seq. lia. Qed.
Lemma realloc_grows n junk c :
  lenZ c <= n - 1 -> exists rest, realloc_cells n junk c = c ++ rest /\ lenZ (realloc_cells n junk c) = n - 1.
Proof.
  intros Hn. pose proof (lenZ_new_cells junk (n - 1 - lenZ c)) as Hl. pose proof (lenZ_nonneg c).
  exists (new_cells junk (n - 1 - lenZ c)). unfold realloc_cells.
  rewrite takeZ_all by (rewrite lenZ_app; lia). split; [done|]. rewrite lenZ_app. lia.
Qed.
Lemma put_head {A} (x v : A) c : put (x :: c) 0 v = Done (v :: c).
Proof. apply (put_mid [] c). Qed.
Lemma append_in_room ids l id junk a :
  idl_wf ids l -> lenZ l < idl_cap ids ->
  exists ids', mdb_midl_append ids id junk a = Done ((0, ids'), a) /\ idl_wf ids' (l ++ [id]).
Proof.
  intros [[rest Hc] Hcap] Hroom. pose proof (lenZ_nonneg l). destruct ids as [cap cells]. simpl in *. subst cells.
  destruct rest as [|z rest]; [rewrite app_nil_r, lenZ_cons in Hcap; lia|].
  unfold mdb_midl_append, cbind, clift. cbn [idl_cells idl_cap].
  change (get (lenZ l :: l ++ z :: rest) 0) with (Done (lenZ l)). cbn beta iota.
  rewrite (proj2 (Z.leb_gt _ _)) by lia. cbn [cret negb Z.eqb idl_cells idl_cap]. rewrite put_head.
  pose proof (put_mid (lenZ l + 1 :: l) rest z id) as Hp.
  replace (lenZ (lenZ l + 1 :: l)) with (lenZ l + 1) in Hp by lens. cbn [app] in Hp. rewrite Hp.
  eexists. split; [done|]. split; simpl.
  - exists rest. rewrite lenZ_app, <- app_assoc. done.
  - rewrite <- Hcap. lens.
Qed.

(** ** Properties *)

(** Appending to a list of IDs.  The ID is added at the end, in place or
    after the block was enlarged, and the list keeps fitting in its block; when
    memory is short ENOMEM is reported and the list is unchanged. *)
Theorem midl_append_correct ids l id junk a :
  idl_wf ids l ->
  exists r ids' a', mdb_midl_append ids id junk a = Done ((r, ids'), a') /\
    ((r = 0 /\ idl_wf ids' (l ++ [id])) \/
     (script_next true a = (false, a') /\ idl_cap ids <= lenZ l /\ r = ENOMEM /\ ids' = ids)).
Proof.
  intros Hw. pose proof Hw as [[rest Hc] Hcap]. pose proof (lenZ_nonneg l).
  destruct (Z.lt_ge_cases (lenZ l) (idl_cap ids)) as [Hroom|Hfull].
  { destruct (append_in_room ids l id junk a Hw Hroom) as (ids' & -> & Hw'). do 3 eexists. split; [done|]. by left. }
  set (big := {| idl_cap := idl_cap ids + MDB_IDL_UM_MAX;
                 idl_cells := realloc_cells (idl_cap ids + MDB_IDL_UM_MAX + 2) junk (idl_cells ids) |}).
  destruct (realloc_grows (idl_cap ids + MDB_IDL_UM_MAX + 2) junk (idl_cells ids)) as (more & E1 & E2).
  { rewrite Hcap. change MDB_IDL_UM_MAX with 131071. lia. }
  assert (Hbig : idl_wf big l).
  { split; simpl; [exists (rest ++ more); rewrite E1, Hc; simpl; by rewrite <- app_assoc|lia]. }
  assert (Hroom : lenZ l < idl_cap big).
  { rewrite Hc in Hcap. autorewrite with len in Hcap. pose proof (lenZ_nonneg rest).
    subst big. cbn [idl_cap]. change MDB_IDL_UM_MAX with 131071. lia. }
  destruct (append_in_room big l id junk (snd (script_next true a)) Hbig Hroom) as (ids' & Ha & Hw').
  destruct (script_next true a) as [[] a'] eqn:Es.
  - exists 0, ids', a'. split; [|by left]. cbn [snd] in Ha. rewrite <- Ha.
    unfold mdb_midl_append, cbind, clift. rewrite Hc, (iw_cells_get big l Hbig).
    change (get (lenZ l :: l ++ rest) 0) with (Done (lenZ l)). cbn beta iota.
    rewrite (proj2 (Z.leb_le _ _)) by lia. rewrite (proj2 (Z.leb_gt _ _)) by exact Hroom.
    unfold mdb_midl_grow. by rewrite Es.
  - exists ENOMEM, ids, a'. split; [|by right]. unfold mdb_midl_append, cbind, clift. rewrite Hc.
    change (get (lenZ l :: l ++ rest) 0) with (Done (lenZ l)). cbn beta iota.
    rewrite (proj2 (Z.leb_le _ _)) by lia. unfold mdb_midl_grow. by rewrite Es.
Qed.

Definition demo_idl : MDB_IDL := {| idl_cap := 2; idl_cells := [2; 7; 5] |}.
Lemma demo_idl_wf : idl_wf demo_idl [7; 5].
Proof. split; [by exists []|done]. Qed.
Lemma midl_append_correct_witness :
  exists r ids' a', mdb_midl_append demo_idl 3 (fun _ => 9) [] = Done ((r, ids'), a') /\
    ((r = 0 /\ idl_wf ids' ([7; 5] ++ [3])) \/
     (script_next true [] = (false, a') /\ idl_cap demo_idl <= lenZ [7; 5] /\ r = ENOMEM /\ ids' = demo_idl)).
Proof. apply (midl_append_correct demo_idl [7; 5] 3 (fun _ => 9) [] demo_idl_wf). Defined.

(** Shrinking.  [mdb_midl_shrink] announces a capacity of MDB_IDL_UM_MAX
    IDs but keeps room for one less: the append that uses the last of them
    writes past the block. *)
Theorem midl_shrink_overflows ids l junk id a a' :
  idl_wf ids l -> MDB_IDL_UM_MAX < idl_cap ids -> lenZ l = MDB_IDL_UM_MAX - 1 ->
  fst (script_next true a) = true ->
  exists ids', mdb_midl_shrink ids junk a = Done ((1, ids'), snd (script_next true a)) /\
    idl_cap ids' = MDB_IDL_UM_MAX /\ mdb_midl_append ids' id junk a' = Fault HeapOverflow.
Proof.
  intros [[rest Hc] Hcap] Hbig Hl Ha. unfold mdb_midl_shrink. rewrite (proj2 (Z.ltb_lt _ _)) by done.
  destruct (script_next true a) as [[] a1]; [|done].
  set (cells := realloc_cells _ _ _). eexists. split; [done|]. split; [done|].
  assert (E : cells = lenZ l :: l).
  { subst cells. unfold realloc_cells. change MDB_IDL_UM_MAX with 131071 in *.
    rewrite Hc, takeZ_app_le by (rewrite Hc in Hcap; lia).
    rewrite app_comm_cons. apply takeZ_app_eq. rewrite lenZ_cons. lia. }
  unfold mdb_midl_append, cbind, clift. cbn [idl_cells idl_cap]. rewrite E.
  change (get (lenZ l :: l) 0) with (Done (lenZ l)). cbn beta iota.
  rewrite (proj2 (Z.leb_gt _ _)) by lia. cbn [cret negb Z.eqb idl_cells idl_cap]. rewrite put_head.
  unfold put at 1. rewrite (proj2 (Z.leb_le _ (lenZ l + 1))) by (rewrite lenZ_cons; lia).
  by rewrite orb_true_r.
Qed.
Definition zero_idl (n m : Z) : MDB_IDL := {| idl_cap := n + m; idl_cells := n :: zeros n ++ zeros m |}.
Lemma zero_idl_wf n m : 0 <= n -> 0 <= m -> idl_wf (zero_idl n m) (zeros n).
Proof.
  intros Hn Hm. split; cbn [zero_idl idl_cells idl_cap].
  - exists (zeros m). by rewrite lenZ_zeros.
  - rewrite lenZ_cons, lenZ_app, !lenZ_zeros by lia. lia.
Qed.
Lemma midl_shrink_overflows_witness :
  exists ids', mdb_midl_shrink (zero_idl 131070 2) (fun _ => 0) [] = Done ((1, ids'), []) /\
    idl_cap ids' = MDB_IDL_UM_MAX /\ mdb_midl_append ids' 5 (fun _ => 0) [] = Fault HeapOverflow.
Proof.
  apply (midl_shrink_overflows (zero_idl 131070 2) (zeros 131070) (fun _ => 0) 5 [] []
    (zero_idl_wf 131070 2 ltac:(lia) ltac:(lia)) eq_refl).
  - rewrite lenZ_zeros by lia. reflexivity.
  - reflexivity.
Defined.

(** C28: sorting.  On a list of fewer than 2^30 IDs [mdb_midl_sort] (quicksort
    with an explicit stack of 64 cells, insertion sort for small parts) ends,
    stays inside the list and the stack, and leaves the same IDs in descending
    order; the cells after the list are not touched. *)
Theorem midl_sort_correct l rest :
  lenZ l < 2 ^ 30 ->
  exists l', mdb_midl_sort (lenZ l :: l ++ rest) = Done (lenZ l :: l' ++ rest) /\
    l' ≡ₚ l /\ StronglySorted Z.ge l'.
Proof. apply midl_sort_ok. Qed.
Lemma midl_sort_correct_witness :
  exists l', mdb_midl_sort (10 :: [3; 1; 4; 1; 5; 9; 2; 6; 5; 3] ++ [0]) = Done (10 :: l' ++ [0]) /\
    l' ≡ₚ [3; 1; 4; 1; 5; 9; 2; 6; 5; 3] /\ StronglySorted Z.ge l'.
Proof. apply (midl_sort_correct [3; 1; 4; 1; 5; 9; 2; 6; 5; 3] [0]). reflexivity. Defined.

(** Insertion into a sorted array of pairs.  An ID that is there is
    refused with -1, an ID for which the array is full with -2, and the array
    is unchanged; otherwise the pair is inserted at its place, the array stays
    sorted, and a search for the ID finds the pair. *)
Theorem mid2l_insert_correct l h2 z rest id :
  lenZ l < 2 ^ 32 -> StronglySorted Z.lt l.*1 ->
  let ids := (lenZ l, h2) :: l ++ z :: rest in
  (id.1 ∈ l.*1 /\ mdb_mid2l_insert ids id = Done (-1, ids)) \/
  (id.1 ∉ l.*1 /\ MDB_IDL_UM_MAX <= lenZ l /\ mdb_mid2l_insert ids id = Done (-2, ids)) \/
  (id.1 ∉ l.*1 /\ lenZ l < MDB_IDL_UM_MAX /\ exists l1 l2, l = l1 ++ l2 /\
     let ids' := (lenZ l + 1, h2) :: (l1 ++ id :: l2) ++ rest in
     mdb_mid2l_insert ids id = Done (0, ids') /\ StronglySorted Z.lt (l1 ++ id :: l2).*1 /\
     get ids' (lenZ l1 + 1) = Done id).
Proof.
  intros Hn Hs ids. destruct (mid2l_search_ok l h2 (z :: rest) id.1 Hn Hs) as (l1 & l2 & El & Hsr & H1 & H2).
  fold ids in Hsr. pose proof (lenZ_nonneg l1). unfold mdb_mid2l_insert. rewrite Hsr. cbn [obind].
  rewrite (proj2 (Z.ltb_ge _ 1)) by lia. change (get ids 0) with (Done (lenZ l, h2)). cbn [obind fst snd].
  rewrite El in Hs. pose proof (mid2l_dup l1 l2 h2 (z :: rest) id.1 Hs H1 H2) as Hdup.
  cbn zeta in Hdup. rewrite <- El in Hdup. fold ids in Hdup. rewrite Hdup. cbn [obind].
  case_bool_decide as Hin; [by left|right].
  destruct (Z.leb_spec MDB_IDL_UM_MAX (lenZ l)) as [Hfull|Hroom]; [by left|right].
  split; [done|]. split; [done|]. exists l1, l2. split; [done|]. cbn zeta.
  pose proof (mid2l_place l1 l2 h2 z rest id) as Hpl. cbn zeta in Hpl. rewrite <- El in Hpl. fold ids in Hpl.
  rewrite Hpl. split; [done|]. split.
  - apply sorted_insert; [done|done|]. apply Forall_forall. intros v Hv.
    rewrite Forall_forall in H2. pose proof (H2 v Hv). assert (v.1 <> id.1); [|lia].
    intros Ev. apply Hin. rewrite El, fmap_app, elem_of_app. right. rewrite <- Ev. by apply list_elem_of_fmap_2.
  - rewrite <- app_assoc. cbn [app]. rewrite app_comm_cons.
    replace (lenZ l1 + 1) with (lenZ ((lenZ l + 1, h2) :: l1)) by lens. apply get_mid.
Qed.
Lemma mid2l_insert_correct_witness :
  exists l1 l2, [(10, 1); (30, 3)] = l1 ++ l2 /\
    mdb_mid2l_insert [(2, 0); (10, 1); (30, 3); (0, 0)] (20, 2) =
      Done (0, (3, 0) :: (l1 ++ (20, 2) :: l2) ++ []) /\
    get ((3, 0) :: (l1 ++ (20, 2) :: l2) ++ []) (lenZ l1 + 1) = Done (20, 2).
Proof.
  destruct (mid2l_insert_correct [(10, 1); (30, 3)] 0 (0, 0) [] (20, 2))
    as [[Hin _]|[(_ & Hf & _)|(_ & _ & l1 & l2 & El & Hi & _ & Hg)]].
  - reflexivity.
  - repeat constructor.
  - exfalso. vm_compute in Hin. repeat (apply elem_of_cons in Hin as [Hin|Hin]; [discriminate Hin|]).
    by apply elem_of_nil in Hin.
  - exfalso. vm_compute in Hf. by apply Hf.
  - exists l1, l2. split; [exact El|]. split; [exact Hi|exact Hg].
Defined.
