(* ===== verification/Linenoise.v ===== *)
(** * Linenoise: the line editor of lib/linenoise/linenoise.c

    The command-line client reads its lines with this library.  The state of an
    edited line is a block of memory with a cursor and a length; keys come from
    the terminal, and what is shown goes to it.  The history is an array of
    strings with a bound.

    What [read] and [write] return and whether [malloc] succeeds are scripts.
    An entry of the input is what one call can return: [None] is an error,
    [Some []] the end of the input, and a call that asks for fewer bytes than
    an entry has leaves the rest for the next one. *)
From Stdlib Require Import String.
From S2P Require Import Prelude Cstring.
From S2P Require Import Midl.

Definition LINENOISE_MAX_LINE : Z := 4096.
Definition ESC : Z := 27.

(** ** State *)
Record edit := {
  e_buf : bytes;        (* buf *)
  e_pos : Z;
  e_len : Z;
  e_oldpos : Z;
  e_maxrows : Z;
  e_hidx : Z            (* history_index *)
}.
(** An entry of the history: [NULL], freed, or a string of its own *)
Inductive hptr := Hnull | Hfreed | Hstr (s : bytes).
Record hist := {
  h_arr : option (list hptr);             (* history *)
  h_len : Z;                              (* history_len *)
  h_max : Z;                              (* history_max_len *)
  h_alloc : list bool                     (* results of malloc and strdup *)
}.
Record tty := {
  t_in : list (option bytes);
  t_out : bytes;
  t_wr : list Z                           (* results of write *)
}.
Record termios := { c_iflag : Z; c_oflag : Z; c_cflag : Z; c_lflag : Z; c_vmin : Z; c_vtime : Z }.
Record term := {
  m_cur : termios;             (* the mode the terminal is in *)
  m_orig : termios;            (* orig_termios *)
  m_rawmode : bool;
  m_atexit : bool;             (* atexit_registered *)
  m_tc : list Z                (* results of tcgetattr and tcsetattr *)
}.
Record lstate := { s_ed : edit; s_hist : hist; s_tty : tty; s_term : term }.

Definition set_ed (e : edit) (s : lstate) : lstate :=
  {| s_ed := e; s_hist := s_hist s; s_tty := s_tty s; s_term := s_term s |}.
Definition set_hist (h : hist) (s : lstate) : lstate :=
  {| s_ed := s_ed s; s_hist := h; s_tty := s_tty s; s_term := s_term s |}.
Definition set_tty (t : tty) (s : lstate) : lstate :=
  {| s_ed := s_ed s; s_hist := s_hist s; s_tty := t; s_term := s_term s |}.
Definition set_term (m : term) (s : lstate) : lstate :=
  {| s_ed := s_ed s; s_hist := s_hist s; s_tty := s_tty s; s_term := m |}.
Definition ed_with (buf : bytes) (pos len : Z) (e : edit) : edit :=
  {| e_buf := buf; e_pos := pos; e_len := len; e_oldpos := e_oldpos e; e_maxrows := e_maxrows e; e_hidx := e_hidx e |}.
Definition ed_hidx (i : Z) (e : edit) : edit :=
  {| e_buf := e_buf e; e_pos := e_pos e; e_len := e_len e; e_oldpos := e_oldpos e; e_maxrows := e_maxrows e; e_hidx := i |}.
Definition ed_rows (oldpos maxrows : Z) (e : edit) : edit :=
  {| e_buf := e_buf e; e_pos := e_pos e; e_len := e_len e; e_oldpos := oldpos; e_maxrows := maxrows; e_hidx := e_hidx e |}.
Definition get_ed : CM lstate edit := fun s => Done (s_ed s, s).
Definition put_ed (e : edit) : CM lstate unit := fun s => Done (tt, set_ed e s).

(** ** System calls *)
Definition write (d : bytes) : CM lstate Z := fun s =>
  let t := s_tty s in
  let '(rc, wr) := script_next 1 (t_wr t) in
  Done (rc, set_tty {| t_in := t_in t; t_out := if rc =? -1 then t_out t else t_out t ++ d; t_wr := wr |} s).
(** [read(fd, p, n)]: the result and the bytes *)
Definition read (n : Z) : CM lstate (Z * bytes) := fun s =>
  let t := s_tty s in
  match t_in t with
  | [] => Done ((0, []), s)
  | None :: i => Done ((-1, []), set_tty {| t_in := i; t_out := t_out t; t_wr := t_wr t |} s)
  | Some d :: i =>
      let rest := dropZ n d in
      let i := if lenZ rest =? 0 then i else Some rest :: i in
      Done ((lenZ (takeZ n d), takeZ n d), set_tty {| t_in := i; t_out := t_out t; t_wr := t_wr t |} s)
  end.
Definition malloc : CM hist bool := fun h =>
  let '(ok, a) := script_next true (h_alloc h) in
  Done (ok, {| h_arr := h_arr h; h_len := h_len h; h_max := h_max h; h_alloc := a |}).
(** An operation of the history, in the state of the editor *)
Definition on_hist {A} (m : CM hist A) : CM lstate A := fun s =>
  match m (s_hist s) with
  | Done (a, h) => Done (a, set_hist h s)
  | Fault f => Fault f
  end.

(** ** The terminal *)
Definition BRKINT : Z := 2.
Definition ICRNL : Z := 256.
Definition INPCK : Z := 16.
Definition ISTRIP : Z := 32.
Definition IXON : Z := 1024.
Definition OPOST : Z := 1.
Definition CS8 : Z := 48.
Definition ECHO : Z := 8.
Definition ICANON : Z := 2.
Definition IEXTEN : Z := 32768.
Definition ISIG : Z := 1.
Definition unsupported_term : list bytes := [str "dumb"; str "cons25"].
Definition isUnsupportedTerm (TERM : option bytes) : bool :=
  match TERM with None => false | Some t => existsb (strcaseeq t) unsupported_term end.
Definition getColumns (ws_col : option Z) : Z :=
  match ws_col with None => 80 | Some c => if c =? 0 then 80 else c end.
Definition raw_mode (t : termios) : termios :=
  {| c_iflag := Z.ldiff (c_iflag t) (Z.lor BRKINT (Z.lor ICRNL (Z.lor INPCK (Z.lor ISTRIP IXON))));
     c_oflag := Z.ldiff (c_oflag t) OPOST;
     c_cflag := Z.lor (c_cflag t) CS8;
     c_lflag := Z.ldiff (c_lflag t) (Z.lor ECHO (Z.lor ICANON (Z.lor IEXTEN ISIG)));
     c_vmin := 1; c_vtime := 0 |}.
Definition enableRawMode (isatty : bool) : CM lstate Z := fun s =>
  if negb isatty then Done (-1, s)
  else
    let m := s_term s in
    let '(got, tc) := script_next 0 (m_tc m) in
    if got =? -1 then
      Done (-1, set_term {| m_cur := m_cur m; m_orig := m_orig m; m_rawmode := m_rawmode m;
                            m_atexit := true; m_tc := tc |} s)
    else
      let orig := m_cur m in
      let '(rc, tc) := script_next 0 tc in
      if rc <? 0 then
        Done (-1, set_term {| m_cur := m_cur m; m_orig := orig; m_rawmode := m_rawmode m;
                              m_atexit := true; m_tc := tc |} s)
      else
        Done (0, set_term {| m_cur := raw_mode orig; m_orig := orig; m_rawmode := true;
                             m_atexit := true; m_tc := tc |} s).
Definition disableRawMode : CM lstate unit := fun s =>
  let m := s_term s in
  if m_rawmode m then
    let '(rc, tc) := script_next 0 (m_tc m) in
    if rc =? -1 then
      Done (tt, set_term {| m_cur := m_cur m; m_orig := m_orig m; m_rawmode := true;
                            m_atexit := m_atexit m; m_tc := tc |} s)
    else
      Done (tt, set_term {| m_cur := m_orig m; m_orig := m_orig m; m_rawmode := false;
                            m_atexit := m_atexit m; m_tc := tc |} s)
  else Done (tt, s).

(** [%d] *)
Fixpoint dec_digits (fuel : nat) (n : Z) (acc : bytes) : bytes :=
  match fuel with
  | O => acc
  | S fuel => let acc := 48 + n mod 10 :: acc in if n / 10 =? 0 then acc else dec_digits fuel (n / 10) acc
  end.
Definition dec (n : Z) : bytes := if n <? 0 then 45 :: dec_digits 20 (- n) [] else dec_digits 20 n [].
Definition seq_left : bytes := [ESC] ++ str "[0G".
Definition seq_erase : bytes := [ESC] ++ str "[0K".
Definition linenoiseClearScreen : CM lstate unit :=
  do! write ([ESC] ++ str "[H" ++ [ESC] ++ str "[2J") in cret tt.

(** A part of an array *)
Definition blk_slice {A} (a : list A) (i n : Z) : outcome (list A) :=
  if (0 <=? i) && (0 <=? n) && (i + n <=? lenZ a) then Done (takeZ n (dropZ i a)) else Fault HeapOverflow.

(** ** History *)
Definition HISTORY_MAX_LEN : Z := 100.
Definition hist_with (a : option (list hptr)) (len : Z) (h : hist) : hist :=
  {| h_arr := a; h_len := len; h_max := h_max h; h_alloc := h_alloc h |}.
Definition history_get (i : Z) : CM hist hptr := fun h =>
  match h_arr h with
  | None => Fault NullDeref
  | Some a => olet! p := get a i in Done (p, h)
  end.
Definition history_set (i : Z) (p : hptr) : CM hist unit := fun h =>
  match h_arr h with
  | None => Fault NullDeref
  | Some a => if (0 <=? i) && (i <? lenZ a) then Done (tt, hist_with (Some (<[Z.to_nat i := p]> a)) (h_len h) h)
              else Fault HeapOverflow
  end.
(** The string an entry points to *)
Definition hstring (p : hptr) : outcome bytes :=
  match p with Hnull => Fault NullDeref | Hfreed => Fault UseAfterFree | Hstr s => Done s end.
(** [free(history[i])] *)
Definition history_free (i : Z) : CM hist unit :=
  let! p := history_get i in
  match p with Hfreed => cfault UseAfterFree | _ => history_set i Hfreed end.
Definition history_setlen (n : Z) : CM hist unit := fun h => Done (tt, hist_with (h_arr h) n h).
(** [free(history[a]); free(history[a+1]); ...], [n] entries *)
Fixpoint history_free_from (a : Z) (n : nat) : CM hist unit :=
  match n with
  | O => cret tt
  | S n => do! history_free a in history_free_from (a + 1) n
  end.
Definition history_init : CM hist bool :=
  let! h := cget in
  match h_arr h with
  | Some _ => cret true
  | None =>
      let! ok := malloc in
      if negb ok then cret false
      else let! h := cget in
           do! cput (hist_with (Some (replicate (Z.to_nat (h_max h)) Hnull)) (h_len h) h) in cret true
  end.
(** The oldest entry is freed and the others move down. *)
Definition history_shift : CM hist unit :=
  do! history_free 0 in
  let! h := cget in
  match h_arr h with
  | None => cfault NullDeref
  | Some a =>
      let! d := clift (blk_slice a 1 (h_max h - 1)) in
      cput (hist_with (Some (d ++ dropZ (h_max h - 1) a)) (h_len h - 1) h)
  end.
Definition linenoiseHistoryAdd (line : bytes) : CM hist Z :=
  let! h := cget in
  if h_max h =? 0 then cret 0
  else
    let! ok := history_init in
    if negb ok then cret 0
    else
      let! ok := malloc in
      if negb ok then cret 0
      else
        let! h := cget in
        do! (if h_len h =? h_max h then history_shift else cret tt) in
        let! h := cget in
        do! history_set (h_len h) (Hstr line) in
        do! history_setlen (h_len h + 1) in
        cret 1.
Definition linenoiseHistorySetMaxLen (len : Z) : CM hist Z :=
  if len <? 1 then cret 0
  else
    let! h := cget in
    let finish arr := fun h : hist =>
      Done (1, {| h_arr := arr; h_len := if len <? h_len h then len else h_len h; h_max := len; h_alloc := h_alloc h |}) in
    match h_arr h with
    | None => finish None
    | Some _ =>
        let tocopy := h_len h in
        let! ok := malloc in
        if negb ok then cret 0
        else
          do! (if len <? tocopy then history_free_from 0 (Z.to_nat (tocopy - len)) else cret tt) in
          let tocopy := if len <? tocopy then len else tocopy in
          let! h := cget in
          match h_arr h with
          | None => cfault NullDeref
          | Some a =>
              let! d := clift (blk_slice a (h_len h - tocopy) tocopy) in
              finish (Some (d ++ replicate (Z.to_nat (len - tocopy)) Hnull))
          end
    end.
(** The bytes written to the file *)
Fixpoint history_lines (j : Z) (n : nat) : CM hist bytes :=
  match n with
  | O => cret []
  | S n =>
      let! p := history_get j in
      let! s := clift (hstring p) in
      let! r := history_lines (j + 1) n in
      cret (s ++ [10] ++ r)
  end.
Definition linenoiseHistorySave (opened : bool) : CM hist (Z * option bytes) :=
  if negb opened then cret (-1, None)
  else
    let! h := cget in
    let! d := history_lines 0 (Z.to_nat (h_len h)) in
    cret (0, Some d).
(** [fgets(buf, n, fp)] on what is left of a file: the bytes stored before the
    NUL, and the rest *)
Fixpoint fgets_line (n : nat) (file : bytes) : bytes * bytes :=
  match n, file with
  | S n, c :: file =>
      if c =? 10 then ([c], file) else let '(d, r) := fgets_line n file in (c :: d, r)
  | _, _ => ([], file)
  end.
(** [p = strchr(buf,'\r'); if (!p) p = strchr(buf,'\n'); if (p) *p = 0;]: the
    string in [buf] after it *)
Definition chomp (d : bytes) : outcome bytes :=
  let buf := d ++ [0] in
  olet! p := strchr 13 buf in
  olet! p := (match p with None => strchr 10 buf | Some _ => Done p end) in
  match p with
  | Some (w, _) => Done w
  | None => c_string buf
  end.
Fixpoint load_lines (fuel : nat) (file : bytes) : CM hist unit :=
  match file with
  | [] => cret tt
  | _ =>
      match fuel with
      | O => cfault OutOfFuel
      | S fuel =>
          let '(d, file) := fgets_line (Z.to_nat (LINENOISE_MAX_LINE - 1)) file in
          let! line := clift (chomp d) in
          do! linenoiseHistoryAdd line in
          load_lines fuel file
      end
  end.
Definition linenoiseHistoryLoad (file : option bytes) : CM hist Z :=
  match file with
  | None => cret (-1)
  | Some d => do! load_lines (length d) d in cret 0
  end.

(** ** Completion lists *)
Definition linenoiseAddCompletion (lc : list bytes) (s : bytes) : outcome (list bytes) :=
  olet! copy := c_string s in Done (lc ++ [copy]).

Section editor.
(** [mlmode], the prompt, the columns of the terminal, [l.buflen] and the
    callback for completions. *)
Context (mlmode : bool) (prompt : bytes) (cols buflen : Z) (completion : option (bytes -> list bytes)).
(** What an array on the stack holds before it is written *)
Context (junk : lstate -> Z -> Z).
Definition plen : Z := lenZ prompt.

(** ** Showing the line *)

(** A sequence of writes, up to the first that fails. *)
Fixpoint writes (ds : list bytes) : CM lstate bool :=
  match ds with
  | [] => cret true
  | d :: ds => let! rc := write d in if rc =? -1 then cret false else writes ds
  end.
(** [while((plen+pos) >= l->cols) { buf++; len--; pos--; }] *)
Fixpoint scroll (fuel : nat) (k len pos : Z) : outcome (Z * Z * Z) :=
  if u64 (plen + pos) <? cols then Done (k, len, pos)
  else match fuel with
  | O => Fault OutOfFuel
  | S fuel => scroll fuel (k + 1) (u64 (len - 1)) (u64 (pos - 1))
  end.
(** [while (plen+len > l->cols) len--;] *)
Fixpoint cut (fuel : nat) (len : Z) : outcome Z :=
  if u64 (plen + len) <=? cols then Done len
  else match fuel with
  | O => Fault OutOfFuel
  | S fuel => cut fuel (u64 (len - 1))
  end.
Definition refreshSingleLine (buf : bytes) (len pos : Z) : CM lstate unit :=
  let! '(k, len, pos) := clift (scroll (Z.to_nat (plen + pos + 1)) 0 len pos) in
  let! len := clift (cut (Z.to_nat (plen + len + 1)) len) in
  let! ok := writes [seq_left; prompt] in
  if negb ok then cret tt
  else
    let! d := clift (blk_read buf k len) in
    do! writes [d; seq_erase; seq_left ++ [ESC] ++ str "[" ++ dec (i32 (pos + plen)) ++ str "C"] in
    cret tt.
Definition refreshMultiLine (buf : bytes) (len pos : Z) : CM lstate unit :=
  let! e := get_ed in
  let rows := i32 ((plen + len + cols - 1) / cols) in
  let rpos := i32 ((plen + e_oldpos e + cols) / cols) in
  let old_rows := i32 (e_maxrows e) in
  let maxrows := if old_rows <? rows then rows else e_maxrows e in
  do! put_ed (ed_rows (e_oldpos e) maxrows e) in
  let! d := clift (blk_read buf 0 len) in
  let! ok := writes
    ((if 0 <? old_rows - rpos then [[ESC] ++ str "[" ++ dec (old_rows - rpos) ++ str "B"] else []) ++
     replicate (Z.to_nat (old_rows - 1)) (seq_left ++ seq_erase ++ [ESC] ++ str "[1A") ++
     [seq_left ++ seq_erase; prompt; d]) in
  if negb ok then cret tt
  else
    let full := negb (pos =? 0) && (pos =? len) && ((pos + plen) mod cols =? 0) in
    let! ok := (if full then writes [[10]; seq_left] else cret true) in
    if negb ok then cret tt
    else
      let rows := if full then rows + 1 else rows in
      let! e := get_ed in
      let maxrows := if i32 (e_maxrows e) <? rows then rows else e_maxrows e in
      do! (if full then put_ed (ed_rows (e_oldpos e) maxrows e) else cret tt) in
      let rpos2 := i32 ((plen + pos + cols) / cols) in
      let! ok := writes
        ((if 0 <? rows - rpos2 then [[ESC] ++ str "[" ++ dec (rows - rpos2) ++ str "A"] else []) ++
         [[ESC] ++ str "[" ++ dec (1 + (plen + i32 pos) mod cols) ++ str "G"]) in
      if negb ok then cret tt
      else let! e := get_ed in put_ed (ed_rows pos (e_maxrows e) e).
Definition refresh (buf : bytes) (len pos : Z) : CM lstate unit :=
  if mlmode then refreshMultiLine buf len pos else refreshSingleLine buf len pos.
Definition refreshLine : CM lstate unit :=
  let! e := get_ed in refresh (e_buf e) (e_len e) (e_pos e).

(** ** Editing *)

(** [l->buf[pos] = c], and [memmove] inside the buffer *)
Definition poke (pos c : Z) (buf : bytes) : outcome bytes := blk_write buf pos [c].
Definition move (buf : bytes) (dst src n : Z) : outcome bytes :=
  olet! d := blk_read buf src n in blk_write buf dst d.

Definition linenoiseEditInsert (c : Z) : CM lstate Z :=
  let! e := get_ed in
  if e_len e <? buflen then
    if e_len e =? e_pos e then
      let! b := clift (poke (e_pos e) c (e_buf e)) in
      let! b := clift (poke (e_len e + 1) 0 b) in
      do! put_ed (ed_with b (e_pos e + 1) (e_len e + 1) e) in
      if negb mlmode && (plen + (e_len e + 1) <? cols) then
        let! rc := write [c] in cret (if rc =? -1 then -1 else 0)
      else do! refreshLine in cret 0
    else
      let! b := clift (move (e_buf e) (e_pos e + 1) (e_pos e) (e_len e - e_pos e)) in
      let! b := clift (poke (e_pos e) c b) in
      let! b := clift (poke (e_len e + 1) 0 b) in
      do! put_ed (ed_with b (e_pos e + 1) (e_len e + 1) e) in
      do! refreshLine in cret 0
  else cret 0.
Definition linenoiseEditMoveLeft : CM lstate unit :=
  let! e := get_ed in
  if 0 <? e_pos e then do! put_ed (ed_with (e_buf e) (e_pos e - 1) (e_len e) e) in refreshLine else cret tt.
Definition linenoiseEditMoveRight : CM lstate unit :=
  let! e := get_ed in
  if negb (e_pos e =? e_len e) then do! put_ed (ed_with (e_buf e) (e_pos e + 1) (e_len e) e) in refreshLine
  else cret tt.
Definition linenoiseEditDelete : CM lstate unit :=
  let! e := get_ed in
  if (0 <? e_len e) && (e_pos e <? e_len e) then
    let! b := clift (move (e_buf e) (e_pos e) (e_pos e + 1) (e_len e - e_pos e - 1)) in
    let! b := clift (poke (e_len e - 1) 0 b) in
    do! put_ed (ed_with b (e_pos e) (e_len e - 1) e) in refreshLine
  else cret tt.
Definition linenoiseEditBackspace : CM lstate unit :=
  let! e := get_ed in
  if (0 <? e_pos e) && (0 <? e_len e) then
    let! b := clift (move (e_buf e) (e_pos e - 1) (e_pos e) (e_len e - e_pos e)) in
    let! b := clift (poke (e_len e - 1) 0 b) in
    do! put_ed (ed_with b (e_pos e - 1) (e_len e - 1) e) in refreshLine
  else cret tt.
(** [while (l->pos > 0 && P(l->buf[l->pos-1])) l->pos--;] *)
Fixpoint back_while (P : Z -> bool) (fuel : nat) (buf : bytes) (pos : Z) : outcome Z :=
  if pos <=? 0 then Done pos
  else
    olet! c := get buf (pos - 1) in
    if P c then match fuel with O => Fault OutOfFuel | S fuel => back_while P fuel buf (pos - 1) end
    else Done pos.
Definition linenoiseEditDeletePrevWord : CM lstate unit :=
  let! e := get_ed in
  let! pos := clift (back_while (fun c => c =? 32) (Z.to_nat (e_pos e)) (e_buf e) (e_pos e)) in
  let! pos := clift (back_while (fun c => negb (c =? 32)) (Z.to_nat pos) (e_buf e) pos) in
  let diff := e_pos e - pos in
  let! b := clift (move (e_buf e) pos (e_pos e) (e_len e - e_pos e + 1)) in
  do! put_ed (ed_with b pos (e_len e - diff) e) in refreshLine.

Definition HISTORY_NEXT : Z := 0.
Definition HISTORY_PREV : Z := 1.
(** [strncpy(buf, s, n)]: the string, filled up with zeroes *)
Definition strncpy (buf s : bytes) (n : Z) : outcome bytes :=
  blk_write buf 0 (takeZ n s ++ zeros (n - lenZ (takeZ n s))).
Definition linenoiseEditHistoryNext (dir : Z) : CM lstate unit :=
  let! h := on_hist cget in
  if 1 <? h_len h then
    let! e := get_ed in
    let cur := h_len h - 1 - e_hidx e in
    do! on_hist (history_free cur) in
    let! line := clift (c_string (e_buf e)) in
    let! ok := on_hist malloc in
    do! on_hist (history_set cur (if ok then Hstr line else Hnull)) in
    let i := e_hidx e + (if dir =? HISTORY_PREV then 1 else -1) in
    if i <? 0 then put_ed (ed_hidx 0 e)
    else if h_len h <=? i then put_ed (ed_hidx (h_len h - 1) e)
    else
      let! p := on_hist (history_get (h_len h - 1 - i)) in
      let! s := clift (hstring p) in
      let! b := clift (strncpy (e_buf e) s buflen) in
      let! b := clift (poke (buflen - 1) 0 b) in
      let! s := clift (c_string b) in
      do! put_ed (ed_with b (lenZ s) (lenZ s) (ed_hidx i e)) in
      refreshLine
  else cret tt.

(** The number of reads that can still return something *)
Fixpoint input_size (i : list (option bytes)) : nat :=
  match i with
  | [] => 0
  | Some d :: i => 1 + length d + input_size i
  | None :: i => 1 + input_size i
  end.
(** A byte as a [char] *)
Definition i8 (c : Z) : Z := if c <? 128 then c else c - 256.

(** ** Completion *)
Fixpoint complete_loop (fuel : nat) (cvec : list bytes) (i : Z) : CM lstate Z :=
  let! e := get_ed in
  do! (if i <? lenZ cvec then
         let! s := clift (get cvec i) in refresh (s ++ [0]) (lenZ s) (lenZ s)
       else refreshLine) in
  let! '(nread, d) := read 1 in
  if nread <=? 0 then cret (-1)
  else
    let! c := clift (get d 0) in
    if c =? 9 then
      match fuel with
      | O => cfault OutOfFuel
      | S fuel => complete_loop fuel cvec ((i + 1) mod (lenZ cvec + 1))
      end
    else if c =? 27 then
      do! (if i <? lenZ cvec then refreshLine else cret tt) in cret (i8 c)
    else
      do! (if i <? lenZ cvec then
             let! s := clift (get cvec i) in
             let! e := get_ed in
             let! b := clift (blk_write (e_buf e) 0 (takeZ (buflen - 1) s ++ [0])) in
             put_ed (ed_with b (lenZ s) (lenZ s) e)
           else cret tt) in
      cret (i8 c).
Definition completeLine (cb : bytes -> list bytes) : CM lstate Z :=
  let! e := get_ed in
  let! line := clift (c_string (e_buf e)) in
  let cvec := cb line in
  if lenZ cvec =? 0 then cret 0
  else fun s => complete_loop (input_size (t_in (s_tty s))) cvec 0 s.

(** ** The loop on keys *)

(** [read(fd, seq, 2)]: the result and the two bytes of [seq]; a byte that is
    not read is what the array held. *)
Definition read_seq : CM lstate (Z * (Z * Z)) := fun s =>
  match read 2 s with
  | Done ((n, d), s') => Done ((n, (nth 0 d (junk s 0), nth 1 d (junk s 1))), s')
  | Fault f => Fault f
  end.
Definition edit_escape : CM lstate unit :=
  let! '(n, (c0, c1)) := read_seq in
  if n =? -1 then cret tt
  else if (c0 =? 91) && (c1 =? 68) then linenoiseEditMoveLeft
  else if (c0 =? 91) && (c1 =? 67) then linenoiseEditMoveRight
  else if (c0 =? 91) && ((c1 =? 65) || (c1 =? 66)) then
    linenoiseEditHistoryNext (if c1 =? 65 then HISTORY_PREV else HISTORY_NEXT)
  else if (c0 =? 91) && (48 <? i8 c1) && (i8 c1 <? 55) then
    let! '(n, (d0, _)) := read_seq in
    if n =? -1 then cret tt
    else if (c1 =? 51) && (d0 =? 126) then linenoiseEditDelete else cret tt
  else cret tt.
Definition edit_swap : CM lstate unit :=
  let! e := get_ed in
  if (0 <? e_pos e) && (e_pos e <? e_len e) then
    let! aux := clift (get (e_buf e) (e_pos e - 1)) in
    let! c := clift (get (e_buf e) (e_pos e)) in
    let! b := clift (poke (e_pos e - 1) c (e_buf e)) in
    let! b := clift (poke (e_pos e) aux b) in
    do! put_ed (ed_with b (if e_pos e =? e_len e - 1 then e_pos e else e_pos e + 1) (e_len e) e) in
    refreshLine
  else cret tt.
(** [history_len--; free(history[history_len]);] *)
Definition history_drop : CM hist unit :=
  let! h := cget in
  do! history_setlen (h_len h - 1) in history_free (h_len h - 1).
Definition again (m : CM lstate unit) : CM lstate (option Z) := do! m in cret None.
(** The switch on the key [c]: [Some r] when it makes the function return *)
Definition edit_key (c : Z) : CM lstate (option Z) :=
  if c =? 13 then
    do! on_hist history_drop in
    let! e := get_ed in cret (Some (i32 (e_len e)))
  else if c =? 3 then cret (Some (-1))
  else if (c =? 127) || (c =? 8) then again linenoiseEditBackspace
  else if c =? 4 then
    let! e := get_ed in
    if 0 <? e_len e then again linenoiseEditDelete
    else do! on_hist history_drop in cret (Some (-1))
  else if c =? 20 then again edit_swap
  else if c =? 2 then again linenoiseEditMoveLeft
  else if c =? 6 then again linenoiseEditMoveRight
  else if c =? 16 then again (linenoiseEditHistoryNext HISTORY_PREV)
  else if c =? 14 then again (linenoiseEditHistoryNext HISTORY_NEXT)
  else if c =? 27 then again edit_escape
  else if c =? 21 then
    again (let! e := get_ed in
           let! b := clift (poke 0 0 (e_buf e)) in
           do! put_ed (ed_with b 0 0 e) in refreshLine)
  else if c =? 11 then
    again (let! e := get_ed in
           let! b := clift (poke (e_pos e) 0 (e_buf e)) in
           do! put_ed (ed_with b (e_pos e) (e_pos e) e) in refreshLine)
  else if c =? 1 then
    again (let! e := get_ed in do! put_ed (ed_with (e_buf e) 0 (e_len e) e) in refreshLine)
  else if c =? 5 then
    again (let! e := get_ed in do! put_ed (ed_with (e_buf e) (e_len e) (e_len e) e) in refreshLine)
  else if c =? 12 then again (do! linenoiseClearScreen in refreshLine)
  else if c =? 23 then again linenoiseEditDeletePrevWord
  else
    let! rc := linenoiseEditInsert c in
    cret (if rc =? 0 then None else Some (-1)).
Fixpoint edit_loop (fuel : nat) : CM lstate Z :=
  let! '(nread, d) := read 1 in
  let! e := get_ed in
  if nread <=? 0 then cret (i32 (e_len e))
  else
    let! c := clift (get d 0) in
    let! '(tab, c) := (match completion with
                       | Some cb => if c =? 9 then let! c := completeLine cb in cret (true, c) else cret (false, c)
                       | None => cret (false, c)
                       end) in
    let! e := get_ed in
    if tab && (c <? 0) then cret (i32 (e_len e))
    else
      let! r := (if tab && (c =? 0) then cret None else edit_key c) in
      match r with
      | Some r => cret r
      | None => match fuel with O => cfault OutOfFuel | S fuel => edit_loop fuel end
      end.
Definition linenoiseEdit (buf : bytes) : CM lstate Z := fun s =>
  (let! b := clift (poke 0 0 buf) in
   do! put_ed {| e_buf := b; e_pos := 0; e_len := 0; e_oldpos := 0; e_maxrows := 0; e_hidx := 0 |} in
   do! on_hist (linenoiseHistoryAdd []) in
   let! rc := write prompt in
   if rc =? -1 then cret (-1) else edit_loop (input_size (t_in (s_tty s)))) s.
End editor.

(** ** The library's entry *)

(** [fgets(buf, n, stdin)]: [None] for [NULL], or the bytes before the NUL *)
Fixpoint fgets_stdin (n : nat) : CM lstate (option bytes) :=
  match n with
  | O => cret (Some [])
  | S n =>
      let! '(nread, d) := read 1 in
      if nread <? 0 then cret None
      else match d with
           | [] => cret (Some [])
           | c :: _ =>
               if c =? 10 then cret (Some [c])
               else let! r := fgets_stdin n in cret (option_map (cons c) r)
           end
  end.
(** [while(len && (buf[len-1] == '\n' || buf[len-1] == '\r')) buf[--len] = 0;]
    on the string in the buffer *)
Fixpoint chop_rev (r : bytes) : bytes :=
  match r with
  | c :: r' => if (c =? 10) || (c =? 13) then chop_rev r' else r
  | [] => []
  end.
(** The string [fgets] left in the buffer, [None] at the end of the input *)
Definition stdin_line (buflen : Z) : CM lstate (option bytes) :=
  let! r := fgets_stdin (Z.to_nat (buflen - 1)) in
  cret (match r with None => None | Some [] => None | Some d => Some (cstr d) end).

Section entry.
Context (mlmode : bool) (ws_col : option Z) (completion : option (bytes -> list bytes)) (junk : lstate -> Z -> Z)
  (isatty : bool) (TERM : option bytes).

(** The count, and the string in the buffer *)
Definition linenoiseRaw (buf prompt : bytes) (buflen : Z) : CM lstate (Z * bytes) :=
  if buflen =? 0 then cret (-1, buf)
  else if negb isatty then
    let! r := stdin_line buflen in
    match r with
    | None => cret (-1, buf)
    | Some w =>
        let w' := match rev w with c :: r => if c =? 10 then rev r else w | [] => w end in
        let! b := clift (blk_write buf 0 (w' ++ [0])) in
        cret (lenZ w', b)
    end
  else
    let! rc := enableRawMode isatty in
    if rc =? -1 then cret (-1, buf)
    else
      let! count := linenoiseEdit mlmode prompt (getColumns ws_col) buflen completion junk buf in
      let! e := get_ed in
      do! disableRawMode in
      do! write [10] in
      cret (count, e_buf e).
(** [buf] is what the array on the stack holds. *)
Definition linenoise (buf prompt : bytes) : CM lstate (option bytes) :=
  let dup line := let! ok := on_hist malloc in cret (if ok : bool then Some line else None) in
  if isUnsupportedTerm TERM then
    do! write prompt in
    let! r := stdin_line LINENOISE_MAX_LINE in
    match r with
    | None => cret None
    | Some w => dup (rev (chop_rev (rev w)))
    end
  else
    let! '(count, b) := linenoiseRaw buf prompt LINENOISE_MAX_LINE in
    if count =? -1 then cret None
    else let! line := clift (c_string b) in dup line.
End entry.
