(* ===== verification/LineHist.v ===== *)
(** * LineHist: the history of the line editor

    The array of linenoise.c holds the last lines that were added, oldest
    first, and never more than its bound.  Adding lines and changing the bound
    are the operations of a bounded list; a saved history loads as the same
    lines. *)
From Stdlib Require Import String.
From S2P Require Import Prelude Cstring.
From S2P Require Import Midl Linenoise.

(** ** The abstract history *)

(** The last [n] elements *)
Definition lastn {A} (n : Z) (l : list A) : list A := dropZ (lenZ l - n) l.
Inductive hop := Hadd (line : bytes) | Hmax (n : Z).
Definition hop_spec (o : hop) (st : list bytes * Z) : list bytes * Z :=
  match o with
  | Hadd line => (lastn st.2 (st.1 ++ [line]), st.2)
  | Hmax n => if n <? 1 then st else (lastn n st.1, n)
  end.
Definition hop_run (o : hop) : CM hist Z :=
  match o with Hadd line => linenoiseHistoryAdd line | Hmax n => linenoiseHistorySetMaxLen n end.
Fixpoint hops_run (os : list hop) : CM hist unit :=
  match os with [] => cret tt | o :: os => do! hop_run o in hops_run os end.

Definition no_nul (l : bytes) : Prop := Forall (fun b => b <> 0) l.

(** The history [h] holds the lines [l]; no allocation fails. *)
Record hist_rep (h : hist) (l : list bytes) : Prop := {
  hr_arr : (h_arr h = None /\ l = []) \/
           exists rest, h_arr h = Some (map Hstr l ++ rest) /\ lenZ l + lenZ rest = h_max h;
  hr_len : h_len h = lenZ l;
  hr_max : 0 < h_max h;
  hr_alloc : h_alloc h = []
}.

Lemma lenZ_map {A B} (f : A -> B) l : lenZ (map f l) = lenZ l.
Proof. unfold lenZ. by rewrite length_map. Qed.
#[export] Hint Rewrite @lenZ_map : len.
Lemma lastn_all {A} n (l : list A) : lenZ l <= n -> lastn n l = l.
Proof. intros. apply dropZ_0. lia. Qed.
Lemma lenZ_lastn {A} n (l : list A) : 0 <= n -> lenZ (lastn n l) = Z.min n (lenZ l).
Proof.
  intros. destruct (Z.le_gt_cases (lenZ l) n).
  - rewrite lastn_all by done. lia.
  - unfold lastn. pose proof (lenZ_nonneg l). rewrite lenZ_dropZ; lia.
Qed.
Lemma lastn_lastn {A} n m (l : list A) : 0 <= n <= m -> lastn n (lastn m l) = lastn n l.
Proof.
  intros. destruct (Z.le_gt_cases (lenZ l) m) as [Hm|Hm]; [by rewrite (lastn_all m)|].
  unfold lastn at 1 3. rewrite lenZ_lastn by lia. unfold lastn.
  rewrite dropZ_dropZ by lia. f_equal. lia.
Qed.
Lemma lastn_app_lastn {A} n (l k : list A) : 0 < n -> lastn n (lastn n l ++ k) = lastn n (l ++ k).
Proof.
  intros. pose proof (lenZ_nonneg k). destruct (Z.le_gt_cases (lenZ l) n) as [Hl|Hl]; [by rewrite (lastn_all n l)|].
  unfold lastn at 1 3. rewrite !lenZ_app, lenZ_lastn by lia. unfold lastn.
  rewrite <- (dropZ_app_le _ l k), dropZ_dropZ by lia. f_equal. lia.
Qed.
Lemma dropZ_map {A B} (f : A -> B) n l : dropZ n (map f l) = map f (dropZ n l).
Proof. apply skipn_map. Qed.
Lemma hist_get_ok h l (i : nat) line rest :
  h_arr h = Some (map Hstr l ++ rest) -> l !! i = Some line -> history_get (Z.of_nat i) h = Done (Hstr line, h).
Proof.
  intros Ha Hi. unfold history_get, get. rewrite Ha, (proj2 (Z.ltb_ge _ _)) by lia.
  rewrite Nat2Z.id, lookup_app_l by (rewrite length_map; by eapply lookup_lt_Some).
  by rewrite list_lookup_fmap, Hi.
Qed.
Lemma hist_set_ok h (a : list hptr) i p :
  h_arr h = Some a -> 0 <= i < lenZ a ->
  history_set i p h = Done (tt, hist_with (Some (<[Z.to_nat i := p]> a)) (h_len h) h).
Proof.
  intros Ha Hi. unfold history_set. rewrite Ha, (proj2 (Z.leb_le _ _)), (proj2 (Z.ltb_lt _ _)) by lia. done.
Qed.
Lemma insert_mid {A} (a : list A) x y b : <[Z.to_nat (lenZ a) := y]> (a ++ x :: b) = a ++ y :: b.
Proof.
  unfold lenZ. rewrite Nat2Z.id. replace (length a) with (length a + 0)%nat by lia. by rewrite insert_app_r.
Qed.
Lemma free_mid h (a b : list hptr) p :
  h_arr h = Some (a ++ p :: b) -> p <> Hfreed ->
  history_free (lenZ a) h = Done (tt, hist_with (Some (a ++ Hfreed :: b)) (h_len h) h).
Proof.
  intros Ha Hp. unfold history_free, cbind, history_get. rewrite Ha, get_mid. cbn [obind].
  destruct p; [|done|]; (rewrite (hist_set_ok h _ _ _ Ha) by lens); by rewrite insert_mid.
Qed.

(** ** Adding a line *)
Lemma hist_init_ok h l :
  hist_rep h l ->
  exists rest, let h' := hist_with (Some (map Hstr l ++ rest)) (lenZ l) h in
    history_init h = Done (true, h') /\ lenZ l + lenZ rest = h_max h.
Proof.
  intros [[[Ha ->]|(rest & Ha & Hr)] Hn Hm Hal]; unfold history_init, cbind, cget; rewrite Ha.
  - exists (replicate (Z.to_nat (h_max h)) Hnull). unfold malloc. rewrite Hal. cbn.
    split; [|lens]. unfold cput, cret, hist_with. cbn. rewrite <- Hn. repeat f_equal. by rewrite Hal.
  - exists rest. split; [|done]. unfold cret, hist_with. rewrite <- Ha, <- Hn. by destruct h.
Qed.
Lemma shift_ok h line l :
  h_arr h = Some (map Hstr (line :: l)) -> h_len h = lenZ (line :: l) -> h_max h = h_len h ->
  exists x, history_shift h = Done (tt, hist_with (Some (map Hstr l ++ [x])) (lenZ l) h).
Proof.
  intros Ha Hn Hm. rewrite lenZ_cons in Hn. pose proof (lenZ_nonneg l). unfold history_shift, cbind at 1.
  change 0 with (lenZ (@nil hptr)) at 1. rewrite (free_mid h [] (map Hstr l) (Hstr line) Ha) by done. unfold cbind, cget. cbn [hist_with h_arr h_max h_len app].
  unfold blk_slice. rewrite Hm, !(proj2 (Z.leb_le _ _)) by lens. cbn [andb clift].
  destruct (exists_last (l := Hfreed :: map Hstr l)) as (k & x & E); [done|].
  exists x. unfold cput, hist_with. cbn. do 4 f_equal; [|lia]. f_equal. f_equal.
  - unfold dropZ. change (Z.to_nat 1) with 1%nat. cbn [drop]. apply takeZ_all. lens.
  - rewrite E. apply dropZ_app_eq.
    apply (f_equal lenZ) in E. lens.
Qed.
Lemma history_add_ok h l line :
  hist_rep h l -> lenZ l <= h_max h ->
  exists h', linenoiseHistoryAdd line h = Done (1, h') /\
    hist_rep h' (lastn (h_max h) (l ++ [line])) /\ h_max h' = h_max h.
Proof.
  intros Hr Hl. destruct (hist_init_ok h l Hr) as (rest & Hi & Hlen). destruct Hr as [_ Hn Hm Hal].
  unfold linenoiseHistoryAdd, cbind at 1, cget. rewrite (proj2 (Z.eqb_neq _ _)) by lia.
  cstep Hi. cbn [negb]. unfold cbind at 1, malloc. cbn [h_alloc hist_with h_arr h_len h_max]. rewrite Hal. cbn [script_next negb].
  unfold cbind at 1. cbn [h_len h_max]. set (h1 := {| h_arr := _; h_len := lenZ l; h_max := _; h_alloc := _ |}).
  assert (exists l' r', lastn (h_max h) (l ++ [line]) = l' ++ [line] /\ lenZ l' + lenZ r' = h_max h /\ r' <> [] /\
      (if lenZ l =? h_max h then history_shift else cret tt) h1 = Done (tt, hist_with (Some (map Hstr l' ++ r')) (lenZ l') h1))
    as (l' & r' & -> & Hl' & Hr' & Hs).
  { destruct (Z.eqb_spec (lenZ l) (h_max h)) as [Hf|Hf].
    - destruct l as [|a l]; [change (lenZ []) with 0 in Hf; lia|].
      assert (rest = []) as -> by (apply lenZ_zero_nil; lia).
      destruct (shift_ok h1 a l) as [x Hs]; [unfold h1; cbn; by rewrite app_nil_r|done|unfold h1; cbn; lia|].
      exists l, [x]. split_and!; [|lens|done|done].
      unfold lastn. replace (lenZ _ - _) with 1 by lens. done.
    - exists l, rest. split_and!; [apply lastn_all; lens|done|intros ->; rewrite lenZ_nil in *; lia|done]. }
  cstep Hs. unfold cbind at 1, cget. cbn [hist_with h_len].
  destruct r' as [|x r']; [done|]. unfold cbind. cbn [hist_with h_len h_arr h_max h_alloc h1].
  rewrite (hist_set_ok _ (map Hstr l' ++ x :: r')) by (unfold h1; cbn; done || lens). cbn [hist_with h_len h_arr].
  rewrite <- (lenZ_map Hstr l'), insert_mid. eexists. split; [done|]. split; [|done]. constructor; cbn; [right|lens|done|done].
  exists r'. split; [by rewrite map_app, <- app_assoc|]. lens.
Qed.
Lemma hist_bound h l : hist_rep h l -> lenZ l <= h_max h.
Proof. intros [[[_ ->]|(rest & _ & Hr)] _ Hm _]; lens. Qed.

(** ** Changing the bound *)
Lemma free_from_ok (n : list bytes) : forall h (a : list hptr) b,
  h_arr h = Some (a ++ map Hstr n ++ b) ->
  history_free_from (lenZ a) (length n) h =
    Done (tt, hist_with (Some (a ++ replicate (length n) Hfreed ++ b)) (h_len h) h).
Proof.
  induction n as [|x n IH]; intros h a b Ha; cbn [length history_free_from map replicate app] in *.
  - unfold cret, hist_with. rewrite <- Ha. by destruct h.
  - cstep (free_mid h a (map Hstr n ++ b) (Hstr x) Ha ltac:(done)).
    replace (lenZ a + 1) with (lenZ (a ++ [Hfreed])) by lens.
    rewrite (IH _ _ b) by (cbn; by rewrite <- app_assoc). unfold hist_with. cbn. by rewrite <- app_assoc.
Qed.
Lemma free_oldest_ok h l n rest :
  h_arr h = Some (map Hstr l ++ rest) -> 0 <= n ->
  exists pre, lenZ pre = lenZ (takeZ (lenZ l - n) l) /\
    (if n <? lenZ l then history_free_from 0 (Z.to_nat (lenZ l - n)) else cret tt) h =
      Done (tt, hist_with (Some (pre ++ map Hstr (lastn n l) ++ rest)) (h_len h) h).
Proof.
  intros Ha Hn. pose proof (lenZ_nonneg l). destruct (Z.ltb_spec n (lenZ l)).
  - exists (replicate (length (takeZ (lenZ l - n) l)) Hfreed). split; [by autorewrite with len|].
    replace (Z.to_nat (lenZ l - n)) with (length (takeZ (lenZ l - n) l))
      by (apply Nat2Z.inj; fold (lenZ (takeZ (lenZ l - n) l)); rewrite lenZ_takeZ; lia).
    change 0 with (lenZ (@nil hptr)). rewrite (free_from_ok _ h [] (map Hstr (lastn n l) ++ rest)); [done|].
    cbn [app]. unfold lastn. by rewrite app_assoc, <- map_app, takeZ_dropZ.
  - exists []. rewrite takeZ_0, lastn_all by lia. split; [done|].
    cbn [app]. rewrite <- Ha. by destruct h.
Qed.
Lemma history_max_ok h l n :
  hist_rep h l ->
  exists r h', linenoiseHistorySetMaxLen n h = Done (r, h') /\
    let '(l', m) := hop_spec (Hmax n) (l, h_max h) in hist_rep h' l' /\ h_max h' = m.
Proof.
  intros Hr. unfold linenoiseHistorySetMaxLen. cbn [hop_spec fst snd].
  destruct (Z.ltb_spec n 1) as [Hn|Hn]; [by exists 0, h|].
  pose proof Hr as [Ha Hl Hm Hal]. pose proof (lenZ_nonneg l).
  unfold cbind at 1, cget. destruct Ha as [[Ha ->]|(rest & Ha & Hrest)]; rewrite Ha.
  { do 2 eexists. split; [done|]. split; [|done].
    rewrite lastn_all by (change (lenZ []) with 0; lia).
    constructor; cbn; [by left|rewrite Hl; change (lenZ []) with 0; by rewrite (proj2 (Z.ltb_ge _ _)) by lia|lia|done]. }
  unfold cbind at 1, malloc. rewrite Hal. cbn [script_next negb].
  set (h0 := {| h_arr := _; h_alloc := _ |}).
  destruct (free_oldest_ok h0 l n rest) as (pre & Hpre & Hf); [done|lia|].
  rewrite Hl. cstep Hf. unfold cbind at 1, cget. cbn [hist_with h_arr h_len h0]. rewrite Hl.
  replace (if n <? lenZ l then n else lenZ l) with (lenZ (lastn n l))
    by (rewrite lenZ_lastn by lia; destruct (Z.ltb_spec n (lenZ l)); lia).
  replace (lenZ l - lenZ (lastn n l)) with (lenZ pre).
  2: { rewrite Hpre, lenZ_lastn by lia. destruct (Z.le_gt_cases (lenZ l) n);
       [rewrite takeZ_0 by lia; change (lenZ []) with 0|rewrite lenZ_takeZ by lia]; lia. }
  unfold blk_slice, cbind. rewrite !(proj2 (Z.leb_le _ _)) by lens. cbn [andb clift].
  rewrite dropZ_app_eq, takeZ_app_eq by (done || lens). do 2 eexists. split; [done|]. split; [|done].
  assert (lenZ (lastn n l) <= n) by (rewrite lenZ_lastn by lia; lia).
  constructor; cbn; [right; eexists; split; [done|rewrite lenZ_replicate; lia]| |lia|done].
  rewrite lenZ_lastn by lia. destruct (Z.ltb_spec n (lenZ l)); lia.
Qed.
Lemma hop_ok o h l :
  hist_rep h l ->
  exists r h', hop_run o h = Done (r, h') /\
    hist_rep h' (hop_spec o (l, h_max h)).1 /\ h_max h' = (hop_spec o (l, h_max h)).2.
Proof.
  intros Hr. destruct o as [line|n].
  - destruct (history_add_ok h l line Hr (hist_bound _ _ Hr)) as (h' & ? & ? & ?). by do 2 eexists.
  - destruct (history_max_ok h l n Hr) as (r & h' & ? & H). exists r, h'.
    destruct (hop_spec _ _). by destruct H.
Qed.
Lemma hops_ok os : forall h l,
  hist_rep h l ->
  exists h', hops_run os h = Done (tt, h') /\
    let '(l', m) := fold_left (fun st o => hop_spec o st) os (l, h_max h) in hist_rep h' l' /\ h_max h' = m.
Proof.
  induction os as [|o os IH]; intros h l Hr; cbn [hops_run fold_left]; [by exists h|].
  destruct (hop_ok o h l Hr) as (r & h1 & Ho & Hr1 & Hm). cstep Ho.
  destruct (IH h1 _ Hr1) as (h2 & -> & H2). exists h2. split; [done|].
  rewrite Hm in H2. by destruct (hop_spec o (l, h_max h)).
Qed.

(** ** Saving and loading *)

(** A line that comes back from a file: no end of line in it, and shorter than
    the buffer it is read into *)
Definition file_line (l : bytes) : Prop :=
  Forall (fun b => b <> 0 /\ b <> 10 /\ b <> 13) l /\ lenZ l + 1 < LINENOISE_MAX_LINE.
Lemma save_lines_ok l2 : forall l1 h rest,
  h_arr h = Some (map Hstr (l1 ++ l2) ++ rest) ->
  history_lines (lenZ l1) (length l2) h = Done (concat (map (fun l => l ++ [10]) l2), h).
Proof.
  induction l2 as [|x l2 IH]; intros l1 h rest Ha; cbn [length history_lines map concat]; [done|].
  unfold cbind at 1. unfold lenZ at 1. rewrite (hist_get_ok h (l1 ++ x :: l2) _ x rest Ha) by (by apply list_lookup_middle).
  cbn [hstring]. unfold cbind, clift. replace (lenZ l1 + 1) with (lenZ (l1 ++ [x])) by lens.
  rewrite (IH _ h rest) by (by rewrite <- app_assoc). cbn. by rewrite <- app_assoc.
Qed.
Lemma save_ok h l :
  hist_rep h l -> linenoiseHistorySave true h = Done ((0, Some (concat (map (fun l => l ++ [10]) l))), h).
Proof.
  intros [Ha Hl _ _]. unfold linenoiseHistorySave, cbind, cget. cbn [negb]. rewrite Hl.
  unfold lenZ. rewrite Nat2Z.id.
  destruct Ha as [[Ha ->]|(rest & Ha & _)]; [done|].
  change 0 with (lenZ (@nil bytes)) at 1. by rewrite (save_lines_ok l [] h rest Ha).
Qed.
Lemma fgets_line_ok w : forall n file,
  Forall (fun b => b <> 10) w -> (length w < n)%nat -> fgets_line n (w ++ 10 :: file) = (w ++ [10], file).
Proof.
  induction w as [|b w IH]; intros [|n] file Hw Hn; cbn [length] in Hn; try lia; [done|].
  inversion_clear Hw. cbn [app fgets_line]. rewrite (proj2 (Z.eqb_neq b 10)) by done.
  rewrite IH by (done || lia). done.
Qed.
Lemma strchr_none c w pt : Forall (fun b => b <> 0 /\ b <> c) w -> c <> 0 -> strchr c (w ++ 0 :: pt) = Done None.
Proof.
  intros Hw Hc. induction Hw as [|x w [Hx Hxc] _ IH]; cbn [app strchr].
  - by rewrite (proj2 (Z.eqb_neq 0 c)) by done.
  - rewrite (proj2 (Z.eqb_neq x c) Hxc), (proj2 (Z.eqb_neq x 0) Hx). by rewrite IH.
Qed.
Lemma chomp_ok w : file_line w -> chomp (w ++ [10]) = Done w.
Proof.
  intros [Hw _]. unfold chomp.
  rewrite (strchr_none 13 (w ++ [10]) []); [|apply Forall_app; split;
    [eapply Forall_impl; [exact Hw|]; naive_solver|by repeat constructor]|done].
  cbn [obind]. rewrite <- app_assoc. cbn [app].
  rewrite (strchr_end 10); [done|]. eapply Forall_impl; [exact Hw|]. naive_solver.
Qed.
Lemma load_lines_ok ls : forall fuel h l,
  Forall file_line ls -> hist_rep h l -> (length (concat (map (fun l => l ++ [10%Z]) ls)) <= fuel)%nat ->
  exists h', load_lines fuel (concat (map (fun l => l ++ [10]) ls)) h = Done (tt, h') /\
    hist_rep h' (lastn (h_max h) (l ++ ls)) /\ h_max h' = h_max h.
Proof.
  induction ls as [|w ls IH]; intros fuel h l Hw Hr Hfuel; cbn [map concat] in *.
  { exists h. rewrite app_nil_r, lastn_all by (by apply hist_bound). by destruct fuel. }
  inversion_clear Hw as [|? ? Hline Hls]. rewrite <- app_assoc in *. cbn [app] in *.
  rewrite length_app in Hfuel. cbn [length] in Hfuel.
  destruct fuel as [|fuel]; [lia|]. cbn [load_lines].
  destruct (w ++ 10 :: _) eqn:E; [by destruct w|]. rewrite <- E. clear E.
  rewrite fgets_line_ok; cycle 1.
  { destruct Hline as [Hline _]. eapply Forall_impl; [exact Hline|]. naive_solver. }
  { destruct Hline as [_ Hline]. unfold lenZ in Hline. lia. }
  unfold cbind at 1. rewrite (chomp_ok w Hline). cbn [clift].
  destruct (history_add_ok h l w Hr (hist_bound _ _ Hr)) as (h1 & Hadd & Hr1 & Hm1). cstep Hadd.
  destruct (IH fuel h1 _ Hls Hr1 ltac:(lia)) as (h2 & -> & Hr2 & Hm2). exists h2. split; [done|].
  rewrite Hm1 in *. split; [|done].
  replace (lastn (h_max h) (l ++ w :: ls)) with (lastn (h_max h) (lastn (h_max h) (l ++ [w]) ++ ls)); [done|].
  replace (l ++ w :: ls) with ((l ++ [w]) ++ ls) by (by rewrite <- app_assoc).
  apply lastn_app_lastn. apply Hr.
Qed.

(** ** Replacing and dropping entries *)
Lemma replace_entry_ok h l i line :
  hist_rep h l -> 0 <= i < lenZ l ->
  exists h1 h2, history_free i h = Done (tt, h1) /\ malloc h1 = Done (true, h1) /\
    history_set i (Hstr line) h1 = Done (tt, h2) /\ hist_rep h2 (<[Z.to_nat i := line]> l).
Proof.
  intros [[[_ ->]|(rest & Ha & Hr)] Hl Hm Hal] Hi; [unfold lenZ in Hi; cbn in Hi; lia|].
  destruct (lookup_lt_is_Some_2 l (Z.to_nat i)) as [x Hx]; [unfold lenZ in Hi; lia|].
  pose proof (take_drop_middle _ _ _ Hx) as E. set (p := take _ _) in E. set (q := drop _ _) in E.
  assert (lenZ p = i) as Hp by (unfold p, lenZ in *; rewrite length_take; lia).
  rewrite <- E, map_app in Ha. cbn [map] in Ha. rewrite <- app_assoc in Ha.
  do 2 eexists. split_and!.
  - rewrite <- Hp, <- (lenZ_map Hstr p). by rewrite (free_mid h (map Hstr p) (map Hstr q ++ rest) (Hstr x)).
  - unfold malloc, hist_with. cbn. by rewrite Hal.
  - rewrite (hist_set_ok _ (map Hstr p ++ Hfreed :: map Hstr q ++ rest)) by (done || lens).
    rewrite <- Hp, <- (lenZ_map Hstr p), insert_mid. done.
  - rewrite <- E, <- Hp. rewrite insert_mid. constructor; cbn [hist_with h_arr h_len h_max h_alloc]; [right|rewrite Hl, <- E; lens|done|done].
    exists rest. split; [by rewrite map_app, <- app_assoc|]. rewrite <- Hr, <- E. lens.
Qed.
Lemma drop_entry_ok h l :
  hist_rep h l -> 0 < lenZ l -> exists h', history_drop h = Done (tt, h') /\ hist_rep h' (removelast l).
Proof.
  intros [[[_ ->]|(rest & Ha & Hr)] Hl Hm Hal] Hlen; [unfold lenZ in Hlen; cbn in Hlen; lia|].
  destruct (exists_last (l := l)) as (k & x & ->); [by intros ->|]. rewrite removelast_last.
  unfold history_drop, cbind, cget, history_setlen. rewrite Hl.
  replace (lenZ (k ++ [x]) - 1) with (lenZ (map Hstr k)) by lens.
  rewrite (free_mid _ (map Hstr k) rest (Hstr x)); [|cbn; rewrite Ha, map_app, <- app_assoc; done|done].
  eexists. split; [done|]. constructor; cbn; [right|lens|done|done].
  exists (Hfreed :: rest). split; [done|]. rewrite <- Hr. lens.
Qed.

(** ** The properties *)
Definition fresh_hist (max : Z) : hist := {| h_arr := None; h_len := 0; h_max := max; h_alloc := [] |}.
Lemma fresh_rep max : 0 < max -> hist_rep (fresh_hist max) [].
Proof. constructor; [by left|done|done|done]. Qed.

(** The history of the line editor refines a bounded list.  However lines
    are added and the bound is changed, the array holds the lines of the
    abstract list, oldest first: the last ones added, at most as many as the
    bound in force at each moment; nothing freed or null is left among them. *)
Theorem history_refines os max :
  0 < max ->
  exists h, hops_run os (fresh_hist max) = Done (tt, h) /\
    let '(l, m) := fold_left (fun st o => hop_spec o st) os ([], max) in
    hist_rep h l /\ h_max h = m /\ lenZ l <= m.
Proof.
  intros Hm. destruct (hops_ok os (fresh_hist max) [] (fresh_rep max Hm)) as (h & Hr & H). exists h.
  split; [done|]. destruct (fold_left _ _ _) as [l m]. destruct H as [Hl <-].
  split_and!; [done|done|by apply hist_bound].
Qed.
Lemma history_refines_witness :
  exists h, hops_run [Hadd (str "get a"); Hadd (str "get b"); Hmax 1; Hadd (str "ping"); Hmax 0; Hmax 5; Hadd (str "sync")]
              (fresh_hist 100) = Done (tt, h) /\ hist_rep h [str "ping"; str "sync"] /\ h_max h = 5 /\ 2 <= 5.
Proof. exact (history_refines [Hadd (str "get a"); Hadd (str "get b"); Hmax 1; Hadd (str "ping"); Hmax 0; Hmax 5; Hadd (str "sync")] 100 eq_refl). Defined.

(** Saving and loading a history is a round trip.  The file that
    linenoiseHistorySave writes, loaded by linenoiseHistoryLoad into a fresh
    history of bound [max], gives the last [max] of the saved lines in their
    order, when no line holds an end of line and each fits the buffer. *)
Theorem history_save_load h l max :
  hist_rep h l -> Forall file_line l -> 0 < max ->
  exists file h',
    linenoiseHistorySave true h = Done ((0, Some file), h) /\
    linenoiseHistoryLoad (Some file) (fresh_hist max) = Done (0, h') /\
    hist_rep h' (lastn max l).
Proof.
  intros Hr Hl Hm.
  destruct (load_lines_ok l _ (fresh_hist max) [] Hl (fresh_rep max Hm) (Nat.le_refl _)) as (h' & Hload & Hr' & _).
  eexists _, h'. split; [by apply save_ok|]. unfold linenoiseHistoryLoad. by cstep Hload.
Qed.
Lemma history_save_load_witness :
  exists file h',
    linenoiseHistorySave true {| h_arr := Some [Hstr (str "get a"); Hstr (str "ping"); Hnull]; h_len := 2; h_max := 3; h_alloc := [] |}
      = Done ((0, Some file), {| h_arr := Some [Hstr (str "get a"); Hstr (str "ping"); Hnull]; h_len := 2; h_max := 3; h_alloc := [] |}) /\
    linenoiseHistoryLoad (Some file) (fresh_hist 1) = Done (0, h') /\
    hist_rep h' [str "ping"].
Proof.
  apply (history_save_load _ [str "get a"; str "ping"] 1); [|by repeat constructor|done].
  constructor; [right; by exists [Hnull]|done|done|done].
Defined.
