(* ===== verification/LineEdit.v ===== *)
(** * LineEdit: the line editor against a text with a cursor

    The abstract editor holds the text before the cursor, the text after it,
    and the history with the entry being edited.  The keys act on it; the
    library's buffer, cursor and length represent it after every key, whatever
    the mode of display, and what it returns is the text. *)
From Stdlib Require Import String.
From S2P Require Import Prelude Cstring.
From S2P Require Import Midl Linenoise LineHist.

(** ** The abstract editor *)
Inductive key :=
  | Kchar (c : Z) | Kback (ctrl : bool) | Kdel | Keof | Kswap
  | Kleft (arrow : bool) | Kright (arrow : bool) | Kprev (arrow : bool) | Knext (arrow : bool)
  | Kkill | Kkillend | Khome | Kend | Kclear | Kword | Kenter | Kintr.
(** The bytes a terminal sends for a key *)
Definition enc (k : key) : bytes :=
  match k with
  | Kchar c => [c]
  | Kback ctrl => [if ctrl then 8 else 127]
  | Kdel => [27; 91; 51; 126]
  | Keof => [4]
  | Kswap => [20]
  | Kleft arrow => if arrow then [27; 91; 68] else [2]
  | Kright arrow => if arrow then [27; 91; 67] else [6]
  | Kprev arrow => if arrow then [27; 91; 65] else [16]
  | Knext arrow => if arrow then [27; 91; 66] else [14]
  | Kkill => [21]
  | Kkillend => [11]
  | Khome => [1]
  | Kend => [5]
  | Kclear => [12]
  | Kword => [23]
  | Kenter => [13]
  | Kintr => [3]
  end.
Definition control : list Z := [13; 3; 127; 8; 4; 20; 2; 6; 16; 14; 27; 21; 11; 1; 5; 12; 23].

Record aline := {
  a_l : bytes;            (* before the cursor *)
  a_r : bytes;            (* after it *)
  a_h : list bytes;       (* the history *)
  a_i : Z                 (* the entry being edited, from the last one *)
}.
Definition a_text (a : aline) : bytes := a_l a ++ a_r a.
Definition at_cursor (l r : bytes) (a : aline) : aline := {| a_l := l; a_r := r; a_h := a_h a; a_i := a_i a |}.

Fixpoint drop_while (P : Z -> bool) (l : bytes) : bytes :=
  match l with
  | c :: l' => if P c then drop_while P l' else l
  | [] => []
  end.
(** A text without its last word and the spaces after it *)
Definition before_word (l : bytes) : bytes :=
  rev (drop_while (fun c => negb (c =? 32)) (drop_while (fun c => c =? 32) (rev l))).
Definition a_delete (a : aline) : aline := at_cursor (a_l a) (tl (a_r a)) a.
Definition a_left (a : aline) : aline :=
  match rev (a_l a) with c :: l => at_cursor (rev l) (c :: a_r a) a | [] => a end.
Definition a_right (a : aline) : aline :=
  match a_r a with c :: r => at_cursor (a_l a ++ [c]) r a | [] => a end.
Definition a_swap (a : aline) : aline :=
  match rev (a_l a), a_r a with
  | x :: l, [y] => at_cursor (rev l ++ [y]) [x] a
  | x :: l, y :: r => at_cursor (rev l ++ [y; x]) r a
  | _, _ => a
  end.
(** Another entry of the history: the text replaces the one that was edited,
    and the entry, cut to the buffer of [n] bytes, becomes the text. *)
Definition a_move (n d : Z) (a : aline) : aline :=
  if 1 <? lenZ (a_h a) then
    let h := <[Z.to_nat (lenZ (a_h a) - 1 - a_i a) := cstr (a_text a)]> (a_h a) in
    let i := a_i a + d in
    if i <? 0 then {| a_l := a_l a; a_r := a_r a; a_h := h; a_i := 0 |}
    else if lenZ h <=? i then {| a_l := a_l a; a_r := a_r a; a_h := h; a_i := lenZ h - 1 |}
    else {| a_l := takeZ (n - 1) (nth (Z.to_nat (lenZ h - 1 - i)) h []); a_r := []; a_h := h; a_i := i |}
  else a.
(** A buffer of [n] bytes takes [n - 1] characters; with one more, the
    terminating NUL is written after it. *)
Definition a_insert (n c : Z) (a : aline) : outcome aline :=
  if lenZ (a_text a) + 1 <? n then Done (at_cursor (a_l a ++ [c]) (a_r a) a) else Fault HeapOverflow.
Definition a_drop_entry (a : aline) : aline :=
  {| a_l := a_l a; a_r := a_r a; a_h := removelast (a_h a); a_i := a_i a |}.

(** A key: what the editor returns, if it does, and the new state *)
Definition a_key (n : Z) (k : key) (a : aline) : outcome (option Z * aline) :=
  match k with
  | Kchar c => olet! a := a_insert n c a in Done (None, a)
  | Kback _ => Done (None, match rev (a_l a) with _ :: l => at_cursor (rev l) (a_r a) a | [] => a end)
  | Kdel => Done (None, a_delete a)
  | Keof => if lenZ (a_text a) =? 0 then Done (Some (-1), a_drop_entry a) else Done (None, a_delete a)
  | Kswap => Done (None, a_swap a)
  | Kleft _ => Done (None, a_left a)
  | Kright _ => Done (None, a_right a)
  | Kprev _ => Done (None, a_move n 1 a)
  | Knext _ => Done (None, a_move n (-1) a)
  | Kkill => Done (None, at_cursor [] [] a)
  | Kkillend => Done (None, at_cursor (a_l a) [] a)
  | Khome => Done (None, at_cursor [] (a_text a) a)
  | Kend => Done (None, at_cursor (a_text a) [] a)
  | Kclear => Done (None, a)
  | Kword => Done (None, at_cursor (before_word (a_l a)) (a_r a) a)
  | Kenter => Done (Some (lenZ (a_text a)), a_drop_entry a)
  | Kintr => Done (Some (-1), a)
  end.
Fixpoint a_run (n : Z) (ks : list key) (a : aline) : outcome (Z * aline) :=
  match ks with
  | [] => Done (lenZ (a_text a), a)
  | k :: ks =>
      olet! '(r, a) := a_key n k a in
      match r with
      | Some r => Done (r, a)
      | None => a_run n ks a
      end
  end.

(** The input [i] gives the keys [ks] and ends: a read returns any number of
    keys, each one whole.  The delete key is the last one of its read: the
    code reads two bytes where one is left of it. *)
Definition push (d : bytes) (i : list (option bytes)) : list (option bytes) :=
  if lenZ d =? 0 then i else Some d :: i.
Inductive typed : list key -> list (option bytes) -> Prop :=
  | typed_end : typed [] []
  | typed_key k ks d i : (k = Kdel -> d = []) -> typed ks (push d i) -> typed (k :: ks) (Some (enc k ++ d) :: i).

(** ** Blocks *)
Lemma poke_mid (a : bytes) x y b : poke (lenZ a) y (a ++ x :: b) = Done (a ++ y :: b).
Proof. exact (blk_write_mid a [x] b [y] eq_refl). Qed.
Lemma poke_end (a : bytes) y : poke (lenZ a) y a = Fault HeapOverflow.
Proof. apply blk_write_oob. lens. Qed.
Lemma c_string_cstr w pt : c_string (w ++ 0 :: pt) = Done (cstr w).
Proof.
  induction w as [|x w IH]; [done|]. cbn [app c_string cstr]. destruct (x =? 0); [done|]. by rewrite IH.
Qed.
Lemma cstr_no_zero w : no_nul (cstr w).
Proof.
  unfold no_nul. induction w as [|x w IH]; cbn [cstr]; [constructor|].
  destruct (Z.eqb_spec x 0); by constructor.
Qed.
(** [memmove] of the cells [y] over the cells before [z]: [dst] cells of [w]
    are dropped. *)
Lemma move_down (a w y z : bytes) :
  exists k, move (a ++ w ++ y ++ z) (lenZ a) (lenZ a + lenZ w) (lenZ y) = Done (a ++ y ++ k ++ z) /\ lenZ k = lenZ w.
Proof.
  unfold move. rewrite app_assoc. rewrite <- lenZ_app, blk_read_mid by done. cbn [obind].
  exists (dropZ (lenZ y) (w ++ y)). rewrite <- app_assoc, (app_assoc w y z).
  rewrite <- (takeZ_dropZ (lenZ y) (w ++ y)) at 1. rewrite <- (app_assoc (takeZ _ _)).
  rewrite blk_write_mid by (rewrite lenZ_takeZ; lens). split; [done|]. rewrite lenZ_dropZ; lens.
Qed.
(** [memmove] by one cell up *)
Lemma move_up (a y : bytes) x z :
  exists c, move (a ++ y ++ x :: z) (lenZ a + 1) (lenZ a) (lenZ y) = Done (a ++ c :: y ++ z).
Proof.
  unfold move. rewrite blk_read_mid by done. cbn [obind].
  destruct (y ++ [x]) as [|c k] eqn:E; [by destruct y|].
  assert (lenZ k = lenZ y) by (apply (f_equal lenZ) in E; lens). exists c.
  replace (a ++ y ++ x :: z) with ((a ++ [c]) ++ k ++ z)
    by (rewrite <- app_assoc; cbn [app]; rewrite app_comm_cons, <- E, <- app_assoc; done).
  replace (lenZ a + 1) with (lenZ (a ++ [c])) by lens. rewrite blk_write_mid by done. by rewrite <- app_assoc.
Qed.

(** ** What showing the line changes *)

(** No write fails, from here on. *)
Definition writes_ok (s : lstate) : Prop := Forall (fun rc => rc <> -1) (t_wr (s_tty s)).
(** The line, the history, the input and the terminal stay as they are. *)
Record frame (s s' : lstate) : Prop := {
  fr_buf : e_buf (s_ed s') = e_buf (s_ed s);
  fr_pos : e_pos (s_ed s') = e_pos (s_ed s);
  fr_len : e_len (s_ed s') = e_len (s_ed s);
  fr_hidx : e_hidx (s_ed s') = e_hidx (s_ed s);
  fr_hist : s_hist s' = s_hist s;
  fr_in : t_in (s_tty s') = t_in (s_tty s);
  fr_term : s_term s' = s_term s;
  fr_wr : writes_ok s -> writes_ok s'
}.
#[export] Instance frame_preorder : PreOrder frame.
Proof.
  split; [by constructor|]. intros s1 s2 s3 [] []. constructor; try congruence. auto.
Qed.
Lemma write_frame d s : exists rc s', write d s = Done (rc, s') /\ frame s s' /\ (writes_ok s -> rc <> -1).
Proof.
  unfold write, writes_ok. destruct (t_wr (s_tty s)) as [|rc wr] eqn:E; cbn [script_next].
  - do 2 eexists. split; [done|]. split; [|done]. constructor; try done. unfold writes_ok. cbn. constructor.
  - do 2 eexists. split; [done|]. split; [|by inversion 1]. constructor; try done.
    unfold writes_ok. rewrite E. cbn. by inversion 1.
Qed.
Lemma writes_frame ds : forall s, exists b s', writes ds s = Done (b, s') /\ frame s s'.
Proof.
  induction ds as [|d ds IH]; intros s; cbn [writes]; [by exists true, s|].
  destruct (write_frame d s) as (rc & s1 & Hw & Hf & _). cstep Hw.
  destruct (rc =? -1); [by exists false, s1|].
  destruct (IH s1) as (b & s2 & -> & Hf2). exists b, s2. split; [done|]. by transitivity s1.
Qed.
(** The next sequence of writes of a computation *)
Ltac writes_step b s' Hf :=
  lazymatch goal with
  | |- context [cbind (writes ?ds) _ ?s] =>
      let Hw := fresh in destruct (writes_frame ds s) as (b & s' & Hw & Hf); cstep Hw; clear Hw
  end.
Lemma rows_frame o m s : frame s (set_ed (ed_rows o m (s_ed s)) s).
Proof. by constructor. Qed.

Section view.
Context (mlmode : bool) (prompt : bytes) (cols buflen : Z).
Abbreviation plen := (plen prompt).
(** The prompt leaves a column, and sizes are far from wrapping around. *)
Context (Hcols : plen < cols) (Hbig : cols + buflen < 2 ^ 31) (Hbuf : 0 < buflen).

Lemma plen_nonneg : 0 <= plen.
Proof. apply lenZ_nonneg. Qed.
(** The first column shown *)
Definition first_shown (pos : Z) : Z := Z.max 0 (plen + pos - cols + 1).
Definition shown (len pos : Z) : Z := Z.min (len - first_shown pos) (cols - plen).
Lemma scroll_ok fuel : forall k len pos,
  0 <= pos <= len -> len <= buflen -> pos <= Z.of_nat fuel ->
  scroll prompt cols fuel k len pos = Done (k + first_shown pos, len - first_shown pos, pos - first_shown pos).
Proof.
  pose proof plen_nonneg. unfold first_shown.
  induction fuel as [|fuel IH]; intros k len pos Hp Hl Hf; cbn [scroll]; rewrite wrap_small by lia;
    destruct (Z.ltb_spec (plen + pos) cols) as [Hlt|Hge]; try lia.
  1,2: rewrite Z.max_l by lia; by rewrite Z.add_0_r, !Z.sub_0_r.
  rewrite !wrap_small, IH by lia. f_equal. f_equal; [f_equal|]; lia.
Qed.
Lemma cut_ok fuel : forall len,
  0 <= len <= buflen -> len <= Z.of_nat fuel -> cut prompt cols fuel len = Done (Z.min len (cols - plen)).
Proof.
  pose proof plen_nonneg.
  induction fuel as [|fuel IH]; intros len Hl Hf; cbn [cut]; rewrite wrap_small by lia;
    destruct (Z.leb_spec (plen + len) cols) as [Hlt|Hge]; try lia.
  1,2: f_equal; lia.
  rewrite !wrap_small, IH by lia. f_equal. lia.
Qed.
Lemma single_frame buf len pos s :
  0 <= pos <= len -> len <= buflen -> len <= lenZ buf ->
  exists s', refreshSingleLine prompt cols buf len pos s = Done (tt, s') /\ frame s s'.
Proof.
  intros Hp Hl Hb. pose proof plen_nonneg. unfold refreshSingleLine, cbind at 1, clift.
  rewrite scroll_ok by lia. unfold cbind at 1. cbn [Z.add].
  rewrite cut_ok by (unfold first_shown; lia).
  writes_step b s1 Hf1.
  destruct b; cbn [negb]; [|by exists s1].
  unfold cbind at 1. rewrite blk_read_ok by (unfold first_shown; lia).
  writes_step b s2 Hf2. exists s2. split; [done|]. by transitivity s1.
Qed.
Lemma multi_frame buf len pos s :
  0 <= len <= lenZ buf ->
  exists s', refreshMultiLine prompt cols buf len pos s = Done (tt, s') /\ frame s s'.
Proof.
  intros Hb. unfold refreshMultiLine, get_ed, put_ed. unfold cbind at 1 2 3, clift.
  rewrite blk_read_ok by lia. cbn iota beta.
  set (s1 := set_ed _ s). assert (frame s s1) as Hf1 by apply rows_frame.
  writes_step b s2 Hf2.
  assert (frame s s2) as Hs2 by (by transitivity s1). destruct b; cbn [negb]; [|by exists s2].
  set (full := _ && _).
  assert (exists b s3, (if full then writes [[10]; seq_left] else cret true) s2 = Done (b, s3) /\ frame s s3)
    as (b & s3 & H3 & Hs3).
  { destruct full; [|by exists true, s2]. destruct (writes_frame [[10]; seq_left] s2) as (b & s3 & -> & Hf3).
    exists b, s3. split; [done|]. by transitivity s2. }
  cstep H3. destruct b; cbn [negb]; [|by exists s3]. unfold cbind at 1 2.
  set (m := if i32 _ <? _ then _ else _).
  match goal with |- context [match ?X with Done _ => _ | Fault _ => _ end] =>
    assert (exists s4, X = Done (tt, s4) /\ frame s s4) as (s4 & H4 & Hs4) end.
  { destruct full; [|by exists s3]. eexists. split; [done|]. transitivity s3; [done|]. apply rows_frame. }
  rewrite H4. clear H4.
  writes_step b s5 Hf5. assert (frame s s5) by (by transitivity s4).
  destruct b; cbn [negb]; [|by exists s5]. eexists. split; [done|]. transitivity s5; [done|]. apply rows_frame.
Qed.
Lemma refresh_frame buf len pos s :
  0 <= pos <= len -> len <= buflen -> len <= lenZ buf ->
  exists s', refresh mlmode prompt cols buf len pos s = Done (tt, s') /\ frame s s'.
Proof.
  intros. unfold refresh. destruct mlmode; [apply multi_frame; lia|by apply single_frame].
Qed.

(** ** The buffer represents the text *)
Record line_rep (a : aline) (s : lstate) : Prop := {
  lr_buf : exists rest, e_buf (s_ed s) = a_l a ++ a_r a ++ 0 :: rest;
  lr_size : lenZ (e_buf (s_ed s)) = buflen;
  lr_pos : e_pos (s_ed s) = lenZ (a_l a);
  lr_len : e_len (s_ed s) = lenZ (a_l a) + lenZ (a_r a);
  lr_hist : hist_rep (s_hist s) (a_h a);
  lr_nul : Forall no_nul (a_h a)
}.
Record rep (a : aline) (s : lstate) : Prop := {
  rp_line : line_rep a s;
  rp_hidx : e_hidx (s_ed s) = a_i a;
  rp_range : 0 <= a_i a < lenZ (a_h a)
}.
(** What an editing operation leaves alone *)
Record outside (s s' : lstate) : Prop := {
  ou_in : t_in (s_tty s') = t_in (s_tty s);
  ou_term : s_term s' = s_term s;
  ou_wr : writes_ok s -> writes_ok s'
}.
#[local] Instance outside_preorder : PreOrder outside.
Proof. split; [by constructor|]. intros s1 s2 s3 [] []. constructor; try congruence. auto. Qed.
Lemma frame_outside s s' : frame s s' -> outside s s'.
Proof. intros []. by constructor. Qed.
Lemma frame_rep a s s' : frame s s' -> rep a s -> rep a s'.
Proof.
  intros [Hb Hp Hl Hi Hh _ _ _] [[[rest ?] ? ? ? ? ?] ? ?]. constructor; [|congruence|done].
  constructor; try congruence. exists rest. congruence.
Qed.
(** The operation [m] takes the text to [a']. *)
Definition acts (m : CM lstate unit) (s : lstate) (a' : aline) : Prop :=
  exists s', m s = Done (tt, s') /\ rep a' s' /\ outside s s'.
Lemma acts_none a s : rep a s -> acts (cret tt) s a.
Proof. intros. exists s. split_and!; done. Qed.

Abbreviation refreshLine := (refreshLine mlmode prompt cols).
Lemma show_ok a s : rep a s -> acts refreshLine s a.
Proof.
  intros Hr. pose proof Hr as [[[rest Hb] Hsz Hp Hl _ _] _ _].
  unfold acts, Linenoise.refreshLine, get_ed, cbind at 1. rewrite Hb in Hsz.
  destruct (refresh_frame (e_buf (s_ed s)) (e_len (s_ed s)) (e_pos (s_ed s)) s) as (s' & -> & Hf).
  1-3: rewrite ?Hp, ?Hl, ?Hb; lens.
  exists s'. split; [done|]. split; [by eapply frame_rep|by apply frame_outside].
Qed.
Lemma set_rep a s l r b rest :
  rep a s -> b = l ++ r ++ 0 :: rest -> lenZ b = buflen ->
  rep (at_cursor l r a) (set_ed (ed_with b (lenZ l) (lenZ l + lenZ r) (s_ed s)) s).
Proof.
  intros [[_ _ _ _ Hh Hn] Hi Hrange] -> Hsz. constructor; [|done|done].
  constructor; try done. by exists rest.
Qed.
(** The new buffer, cursor and length, shown *)
Lemma edit_show a s l r b rest pos len :
  rep a s -> b = l ++ r ++ 0 :: rest -> lenZ b = buflen -> pos = lenZ l -> len = lenZ l + lenZ r ->
  acts (do! put_ed (ed_with b pos len (s_ed s)) in refreshLine) s (at_cursor l r a).
Proof.
  intros Hr Hb Hsz -> ->. unfold acts, put_ed, cbind.
  destruct (show_ok _ _ (set_rep a s l r b rest Hr Hb Hsz)) as (s' & -> & Hr' & Ho).
  exists s'. split; [done|]. split; [done|]. by transitivity (set_ed (ed_with b (lenZ l) (lenZ l + lenZ r) (s_ed s)) s).
Qed.
Lemma acts_get m s a : acts (m (s_ed s)) s a -> acts (cbind get_ed m) s a.
Proof. done. Qed.
Lemma acts_lift {A} (o : outcome A) x m s a : o = Done x -> acts (m x) s a -> acts (cbind (clift o) m) s a.
Proof. intros ->. done. Qed.
Lemma rev_cons_snoc {A} (l : list A) x k : rev l = x :: k -> l = rev k ++ [x].
Proof. intros H. by rewrite <- (rev_involutive l), H. Qed.
Lemma rev_nil_inv {A} (l : list A) : rev l = [] -> l = [].
Proof. intros H. by rewrite <- (rev_involutive l), H. Qed.
Lemma lenZ_rev {A} (l : list A) : lenZ (rev l) = lenZ l.
Proof. unfold lenZ. by rewrite length_rev. Qed.
Lemma at_cursor_same a : at_cursor (a_l a) (a_r a) a = a.
Proof. by destruct a. Qed.
Lemma at_cursor_eq a l r : l = a_l a -> r = a_r a -> at_cursor l r a = a.
Proof. intros -> ->. by destruct a. Qed.

(** ** Moving *)
Lemma left_ok a s : rep a s -> acts (linenoiseEditMoveLeft mlmode prompt cols) s (a_left a).
Proof.
  intros Hr. pose proof Hr as [[[rest Hb] Hsz Hp Hl _ _] _ _].
  unfold linenoiseEditMoveLeft, a_left. apply acts_get. rewrite Hp.
  destruct (rev (a_l a)) as [|x k] eqn:E.
  - apply rev_nil_inv in E. rewrite E. by apply acts_none.
  - apply rev_cons_snoc in E. rewrite E in *. rewrite (proj2 (Z.ltb_lt _ _)) by lens.
    apply (edit_show a s (rev k) (x :: a_r a) _ rest); [done|by rewrite Hb, <- app_assoc|done|lens|rewrite Hl; lens].
Qed.
Lemma right_ok a s : rep a s -> acts (linenoiseEditMoveRight mlmode prompt cols) s (a_right a).
Proof.
  intros Hr. pose proof Hr as [[[rest Hb] Hsz Hp Hl _ _] _ _].
  unfold linenoiseEditMoveRight, a_right. apply acts_get. rewrite Hp, Hl.
  destruct (a_r a) as [|x r] eqn:E.
  - rewrite (proj2 (Z.eqb_eq _ _)) by lens. by apply acts_none.
  - rewrite (proj2 (Z.eqb_neq _ _)) by lens. cbn [negb].
    apply (edit_show a s (a_l a ++ [x]) r _ rest); [done|by rewrite Hb, <- app_assoc|done|lens|lens].
Qed.

(** ** Deleting *)
Lemma delete_ok a s : rep a s -> acts (linenoiseEditDelete mlmode prompt cols) s (a_delete a).
Proof.
  intros Hr. pose proof Hr as [[[rest Hb] Hsz Hp Hl _ _] _ _].
  unfold linenoiseEditDelete, a_delete. apply acts_get. rewrite Hp, Hl.
  destruct (a_r a) as [|x r] eqn:E; cbn [tl].
  - rewrite (proj2 (Z.ltb_ge (lenZ (a_l a)) _)) by lens. rewrite andb_false_r, at_cursor_eq by done. by apply acts_none.
  - rewrite !(proj2 (Z.ltb_lt _ _)) by lens. cbn [andb].
    destruct (move_down (a_l a) [x] r (0 :: rest)) as (k & Hm & Hk).
    destruct k as [|y [|? ?]]; [by rewrite lenZ_nil in Hk| |lens].
    eapply acts_lift.
    { rewrite Hb. replace (lenZ _ + _ - _ - 1) with (lenZ r) by lens. exact Hm. }
    eapply acts_lift.
    { rewrite app_assoc. replace (lenZ _ + _ - 1) with (lenZ (a_l a ++ r)) by lens. apply poke_mid. }
    apply (edit_show a s (a_l a) r _ (0 :: rest)); [done|by rewrite <- app_assoc|rewrite <- Hsz, Hb; lens|done|lens].
Qed.
Lemma backspace_ok a s :
  rep a s -> acts (linenoiseEditBackspace mlmode prompt cols) s
               (match rev (a_l a) with _ :: l => at_cursor (rev l) (a_r a) a | [] => a end).
Proof.
  intros Hr. pose proof Hr as [[[rest Hb] Hsz Hp Hl _ _] _ _].
  unfold linenoiseEditBackspace. apply acts_get. rewrite Hp, Hl.
  destruct (rev (a_l a)) as [|x k] eqn:E.
  - apply rev_nil_inv in E. rewrite E. by apply acts_none.
  - apply rev_cons_snoc in E. rewrite E in *. set (l := rev k) in *.
    rewrite !(proj2 (Z.ltb_lt _ _)) by lens. cbn [andb].
    destruct (move_down l [x] (a_r a) (0 :: rest)) as (t & Hm & Ht).
    destruct t as [|y [|? ?]]; [by rewrite lenZ_nil in Ht| |lens].
    eapply acts_lift.
    { rewrite Hb, <- app_assoc. replace (lenZ _ - 1) with (lenZ l) by lens.
      replace (lenZ (l ++ [x])) with (lenZ l + lenZ [x]) by lens.
      replace (_ + _ - _) with (lenZ (a_r a)) by lens. exact Hm. }
    eapply acts_lift.
    { rewrite app_assoc. replace (lenZ (l ++ [x]) + _ - 1) with (lenZ (l ++ a_r a)) by lens. apply poke_mid. }
    apply (edit_show a s l (a_r a) _ (0 :: rest)); [done|by rewrite <- app_assoc|rewrite <- Hsz, Hb; lens|lens|lens].
Qed.
Lemma back_while_ok P fuel : forall l k,
  lenZ l <= Z.of_nat fuel ->
  back_while P fuel (l ++ k) (lenZ l) = Done (lenZ (rev (drop_while P (rev l)))).
Proof.
  induction fuel as [|fuel IH]; intros l k Hf; cbn [back_while].
  { assert (l = []) as -> by (apply lenZ_zero_nil; lens). done. }
  destruct (rev l) as [|x r] eqn:E.
  { apply rev_nil_inv in E as ->. done. }
  apply rev_cons_snoc in E as ->. rewrite (proj2 (Z.leb_gt _ _)) by lens.
  replace (lenZ (rev r ++ [x]) - 1) with (lenZ (rev r)) by lens.
  rewrite <- app_assoc. cbn [app]. rewrite get_mid. cbn [obind drop_while].
  destruct (P x); [|do 2 f_equal; cbn; by rewrite ?lenZ_app].
  rewrite (IH (rev r) (x :: k)) by lens. by rewrite rev_involutive.
Qed.
Lemma drop_while_suffix P l : exists k, l = k ++ drop_while P l.
Proof.
  induction l as [|c l [k IH]]; cbn [drop_while]; [by exists []|].
  destruct (P c); [exists (c :: k); cbn; by rewrite <- IH|by exists []].
Qed.
Lemma drop_while_prefix P l : exists w, l = rev (drop_while P (rev l)) ++ w.
Proof.
  destruct (drop_while_suffix P (rev l)) as [k E]. exists (rev k).
  by rewrite <- rev_app_distr, <- E, rev_involutive.
Qed.
Lemma before_word_prefix l : exists w, l = before_word l ++ w.
Proof.
  unfold before_word.
  destruct (drop_while_prefix (fun c => c =? 32) l) as [w1 E1]. set (l1 := rev _) in E1.
  destruct (drop_while_prefix (fun c => negb (c =? 32)) l1) as [w2 E2]. exists (w2 ++ w1).
  unfold l1 in E2 at 2. rewrite rev_involutive in E2. by rewrite app_assoc, <- E2.
Qed.
Lemma word_ok a s :
  rep a s -> acts (linenoiseEditDeletePrevWord mlmode prompt cols) s (at_cursor (before_word (a_l a)) (a_r a) a).
Proof.
  intros Hr. pose proof Hr as [[[rest Hb] Hsz Hp Hl _ _] _ _].
  unfold linenoiseEditDeletePrevWord. apply acts_get. rewrite Hp, Hl, Hb.
  eapply acts_lift; [apply back_while_ok; lens|].
  eapply acts_lift.
  { destruct (drop_while_prefix (fun c => c =? 32) (a_l a)) as [w E]. set (l1 := rev _) in E |- *. rewrite E at 1.
    rewrite <- app_assoc. apply back_while_ok. lens. }
  rewrite rev_involutive. fold (before_word (a_l a)).
  destruct (before_word_prefix (a_l a)) as [w E]. set (l := before_word (a_l a)) in *.
  destruct (move_down l w (a_r a ++ [0]) rest) as (k & Hm & Hk).
  eapply acts_lift.
  { replace (a_l a ++ _) with (l ++ w ++ (a_r a ++ [0]) ++ rest) by (rewrite E, <- !app_assoc; done).
    rewrite E, lenZ_app. replace (_ + _ - _ + 1) with (lenZ (a_r a ++ [0])) by lens. exact Hm. }
  apply (edit_show a s l (a_r a) _ (k ++ rest));
    [done|by rewrite <- !app_assoc|rewrite <- Hsz, Hb, E; lens|done|rewrite E; lens].
Qed.
Lemma edit_swap_ok a s : rep a s -> acts (edit_swap mlmode prompt cols) s (a_swap a).
Proof.
  intros Hr. pose proof Hr as [[[rest Hb] Hsz Hp Hl _ _] _ _].
  unfold edit_swap, a_swap. apply acts_get. rewrite Hp, Hl.
  destruct (rev (a_l a)) as [|x k] eqn:E.
  { apply rev_nil_inv in E. rewrite E. by apply acts_none. }
  apply rev_cons_snoc in E. set (l := rev k) in *.
  destruct (a_r a) as [|y r] eqn:Er.
  { rewrite (proj2 (Z.ltb_ge (lenZ (a_l a)) _)) by lens. rewrite andb_false_r. by apply acts_none. }
  rewrite E in *. rewrite !(proj2 (Z.ltb_lt _ _)) by lens. cbn [andb]. rewrite Hb.
  replace (lenZ (l ++ [x]) - 1) with (lenZ l) by lens.
  eapply acts_lift; [rewrite <- app_assoc; apply get_mid|].
  eapply acts_lift; [apply get_mid|].
  eapply acts_lift; [rewrite <- app_assoc; apply poke_mid|].
  eapply acts_lift.
  { replace (l ++ y :: _) with ((l ++ [y]) ++ y :: r ++ 0 :: rest) by (by rewrite <- app_assoc).
    replace (lenZ (l ++ [x])) with (lenZ (l ++ [y])) by lens. apply poke_mid. }
  destruct r as [|z r].
  - rewrite (proj2 (Z.eqb_eq _ _)) by lens.
    apply (edit_show a s (l ++ [y]) [x] _ rest); [done|by rewrite <- !app_assoc|rewrite <- Hsz, Hb; lens|lens|lens].
  - rewrite (proj2 (Z.eqb_neq _ _)) by lens.
    apply (edit_show a s (l ++ [y; x]) (z :: r) _ rest);
      [done|by rewrite <- !app_assoc|rewrite <- Hsz, Hb; lens|lens|lens].
Qed.

(** ** Inserting *)

(** The cells after the character is stored, before the NUL is *)
Definition stored (c : Z) (l r buf : bytes) : outcome bytes :=
  if lenZ l + lenZ r =? lenZ l then poke (lenZ l) c buf
  else olet! b := move buf (lenZ l + 1) (lenZ l) (lenZ l + lenZ r - lenZ l) in poke (lenZ l) c b.
Lemma stored_ok c l r x rest : stored c l r (l ++ r ++ x :: rest) = Done ((l ++ c :: r) ++ rest).
Proof.
  unfold stored. destruct r as [|y r].
  - rewrite (proj2 (Z.eqb_eq _ _)) by lens. rewrite <- app_assoc. apply poke_mid.
  - rewrite (proj2 (Z.eqb_neq _ _)) by lens. destruct (move_up l (y :: r) x rest) as [z Hm].
    replace (_ + _ - _) with (lenZ (y :: r)) by lens. rewrite Hm. cbn [obind]. rewrite <- app_assoc. apply poke_mid.
Qed.
(** The insertion, in terms of the cells it stores *)
Lemma insert_unfold a s c :
  rep a s -> lenZ (a_l a) + lenZ (a_r a) < buflen ->
  linenoiseEditInsert mlmode prompt cols buflen c s =
    (let! b := clift (stored c (a_l a) (a_r a) (e_buf (s_ed s))) in
     let! b := clift (poke (lenZ (a_l a ++ c :: a_r a)) 0 b) in
     do! put_ed (ed_with b (lenZ (a_l a ++ [c])) (lenZ (a_l a ++ [c]) + lenZ (a_r a)) (s_ed s)) in
     if (lenZ (a_l a) + lenZ (a_r a) =? lenZ (a_l a)) && negb mlmode && (plen + lenZ (a_l a ++ c :: a_r a) <? cols) then
       let! rc := write [c] in cret (if rc =? -1 then -1 else 0)
     else do! refreshLine in cret 0) s.
Proof.
  intros [[_ _ Hp Hl _ _] _ _] Hlt. unfold linenoiseEditInsert, get_ed, cbind at 1.
  rewrite Hp, Hl, (proj2 (Z.ltb_lt _ buflen)) by done.
  replace (lenZ (a_l a) + lenZ (a_r a) + 1) with (lenZ (a_l a ++ c :: a_r a)) by lens.
  replace (lenZ (a_l a) + 1) with (lenZ (a_l a ++ [c])) by lens.
  replace (lenZ (a_l a ++ [c]) + lenZ (a_r a)) with (lenZ (a_l a ++ c :: a_r a)) by lens.
  unfold stored. replace (lenZ (a_l a) + 1) with (lenZ (a_l a ++ [c])) by lens. destruct (_ =? _); cbn [andb].
  - done.
  - unfold cbind, clift. destruct (move _ _ _ _); done.
Qed.
Lemma insert_ok a s c :
  rep a s -> writes_ok s ->
  match a_insert buflen c a with
  | Done a' => exists s', linenoiseEditInsert mlmode prompt cols buflen c s = Done (0, s') /\ rep a' s' /\ outside s s'
  | Fault f => linenoiseEditInsert mlmode prompt cols buflen c s = Fault f
  end.
Proof.
  intros Hr Hw. pose proof Hr as [[[rest Hb] Hsz _ _ _ _] _ _]. rewrite Hb in Hsz.
  rewrite (insert_unfold a s c Hr) by lens. rewrite Hb, stored_ok. unfold cbind at 1, clift at 1.
  unfold a_insert, a_text. destruct rest as [|z rest].
  { rewrite (proj2 (Z.ltb_ge _ _)) by lens. rewrite app_nil_r. unfold cbind at 1, clift. by rewrite poke_end. }
  rewrite (proj2 (Z.ltb_lt _ _)) by lens. unfold cbind at 1, clift. rewrite poke_mid.
  set (b := (a_l a ++ c :: a_r a) ++ 0 :: rest).
  assert (Hb1 : b = (a_l a ++ [c]) ++ a_r a ++ 0 :: rest) by (unfold b; by rewrite <- !app_assoc).
  assert (Hs1 : lenZ b = buflen) by (rewrite <- Hsz; unfold b; lens).
  pose proof (set_rep a s _ _ b rest Hr Hb1 Hs1) as Hr1. unfold put_ed, cbind at 1.
  set (s1 := set_ed _ s) in *. assert (outside s s1) as Ho by done.
  destruct (_ && _).
  - destruct (write_frame [c] s1) as (rc & s3 & Hwr & Hf & Hrc). cstep Hwr.
    rewrite (proj2 (Z.eqb_neq rc (-1)) (Hrc Hw)). exists s3. split; [done|].
    split; [by eapply frame_rep|]. transitivity s1; [done|by apply frame_outside].
  - destruct (show_ok _ s1 Hr1) as (s2 & Hshow & Hr2 & Ho2). cstep Hshow. exists s2.
    split; [done|]. split; [done|by transitivity s1].
Qed.

(** ** Moving in the history *)
Lemma acts_hist {A} (m : CM hist A) x h k s a :
  m (s_hist s) = Done (x, h) -> acts (k x) (set_hist h s) a -> acts (cbind (on_hist m) k) s a.
Proof.
  intros Hm (s' & Hs & Hr & []). exists s'. unfold cbind, on_hist. rewrite Hm. by split_and!; [..|constructor].
Qed.
Lemma acts_hist0 {A} (m : CM hist A) x k s a :
  m (s_hist s) = Done (x, s_hist s) -> acts (k x) s a -> acts (cbind (on_hist m) k) s a.
Proof. intros Hm Hk. apply (acts_hist m x (s_hist s)); [done|]. by destruct s. Qed.
Lemma zeros_snoc n : 1 <= n -> zeros n = zeros (n - 1) ++ [0].
Proof.
  intros. unfold zeros. replace (Z.to_nat n) with (S (Z.to_nat (n - 1))) by lia. apply replicate_S_end.
Qed.
Lemma strncpy_ok buf e :
  lenZ buf = buflen ->
  exists b rest, strncpy buf e buflen = Done b /\ poke (buflen - 1) 0 b = Done (takeZ (buflen - 1) e ++ 0 :: rest).
Proof.
  intros Hb. unfold strncpy. set (x := takeZ buflen e ++ _). pose proof (lenZ_nonneg e).
  assert (lenZ (takeZ buflen e) = Z.min buflen (lenZ e)) as Ht
    by (destruct (Z.le_gt_cases (lenZ e) buflen); [rewrite takeZ_all|rewrite lenZ_takeZ]; lia).
  assert (lenZ x = buflen) as Hx by (unfold x; rewrite lenZ_app, lenZ_zeros; lia).
  pose proof (blk_write_mid [] buf [] x) as Hw. cbn [app] in Hw. rewrite !app_nil_r in Hw.
  change (lenZ (@nil Z)) with 0 in Hw. rewrite Hw by congruence.
  destruct (Z.le_gt_cases buflen (lenZ e)) as [Hle|Hgt].
  - exists x, []. split; [done|].
    assert (x = takeZ (buflen - 1) e ++ dropZ (buflen - 1) (takeZ buflen e)) as ->.
    { unfold x. replace (buflen - _) with 0 by lia. change (zeros 0) with (@nil Z). rewrite app_nil_r.
      rewrite <- (takeZ_dropZ (buflen - 1) (takeZ buflen e)) at 1. by rewrite takeZ_takeZ by lia. }
    rewrite lenZ_app, lenZ_takeZ in Hx by lia. destruct (dropZ _ _) as [|y [|? ?]]; [lens| |lens].
    replace (buflen - 1) with (lenZ (takeZ (buflen - 1) e)) at 1 by (apply lenZ_takeZ; lia). apply poke_mid.
  - exists x, (zeros (buflen - 1 - lenZ e)). split; [done|].
    assert (x = (e ++ zeros (buflen - 1 - lenZ e)) ++ [0]) as ->.
    { unfold x. rewrite takeZ_all by lia. rewrite (zeros_snoc (buflen - _)), <- app_assoc by lia. do 3 f_equal. lia. }
    replace (buflen - 1) with (lenZ (e ++ zeros (buflen - 1 - lenZ e))) at 1 by (rewrite lenZ_app, lenZ_zeros; lia).
    rewrite poke_mid, takeZ_all, <- app_assoc by lia. do 2 f_equal.
    replace (buflen - 1 - lenZ e) with (buflen - lenZ e - 1) by lia. rewrite <- zeros_snoc by lia. by apply zeros_cons; lia.
Qed.
Lemma move_ok dir a s :
  dir = HISTORY_PREV \/ dir = HISTORY_NEXT -> rep a s ->
  acts (linenoiseEditHistoryNext mlmode prompt cols buflen dir) s (a_move buflen (if dir =? HISTORY_PREV then 1 else -1) a).
Proof.
  intros Hd [[[rest Hb] Hsz Hp Hl Hh Hn] Hi Hrange].
  unfold linenoiseEditHistoryNext, a_move. set (d := if dir =? _ then _ else _). pose proof (hr_len _ _ Hh) as Hlen.
  eapply acts_hist0; [done|]. rewrite Hlen.
  destruct (Z.ltb_spec 1 (lenZ (a_h a))) as [H1|H1]; [|apply acts_none; repeat (split; eauto)].
  apply acts_get. rewrite Hi, Hb. set (i := lenZ (a_h a) - 1 - a_i a). set (line := cstr (a_text a)).
  destruct (replace_entry_ok _ _ i line Hh) as (h1 & h2 & Hfree & Hmal & Hset & Hh2); [lia|].
  eapply acts_hist; [exact Hfree|]. eapply acts_lift; [rewrite app_assoc; apply c_string_cstr|].
  eapply acts_hist; [exact Hmal|]. eapply acts_hist; [exact Hset|].
  set (h' := <[_ := _]> (a_h a)) in *. cbn [set_hist s_hist s_ed s_tty s_term].
  assert (lenZ h' = lenZ (a_h a)) as Hlen' by (unfold lenZ, h'; by rewrite length_insert). rewrite Hlen'.
  assert (Forall no_nul h') as Hn' by (apply Forall_insert; [done|apply cstr_no_zero]).
  destruct (Z.ltb_spec (a_i a + d) 0); [|destruct (Z.leb_spec (lenZ (a_h a)) (a_i a + d))].
  1,2: eexists; split; [reflexivity|]; split; [|done]; constructor; cbn; [|done|lia]; constructor; cbn; try done; by exists rest.
  destruct (lookup_lt_is_Some_2 h' (Z.to_nat (lenZ (a_h a) - 1 - (a_i a + d)))) as [e He]; [unfold lenZ in *; lia|].
  eapply acts_hist0.
  { destruct (hr_arr _ _ Hh2) as [[_ Hnil]|(rest2 & Ha2 & _)]; [by rewrite Hnil in He|].
    rewrite <- (Z2Nat.id (lenZ (a_h a) - 1 - (a_i a + d))) by lia. by eapply hist_get_ok. }
  eapply acts_lift; [done|]. destruct (strncpy_ok (a_l a ++ a_r a ++ 0 :: rest) e) as (b & rest3 & Hc & Hz); [by rewrite <- Hb|].
  eapply acts_lift; [exact Hc|]. eapply acts_lift; [exact Hz|].
  eapply acts_lift; [apply c_string_cstr|].
  rewrite cstr_no_nul by (apply Forall_take; by eapply (Forall_lookup_1 _ h')).
  rewrite (nth_lookup_Some _ _ _ _ He). set (w := takeZ (buflen - 1) e) in *.
  unfold acts, put_ed, cbind at 1.
  edestruct show_ok as (s' & -> & Hr' & Ho); [|exists s'; split; [done|]; split; [exact Hr'|destruct Ho; by constructor]].
  apply lenZ_blk_write in Hz, Hc. constructor; cbn; [|done|lia].
  constructor; cbn; [by exists rest3|congruence|done|lens|done|done].
Qed.

(** ** The keys *)
Context (completion : option (bytes -> list bytes)) (junk : lstate -> Z -> Z).
(** A character: no control byte, nor the completion key when it completes *)
Definition key_ok (k : key) : bool :=
  match k with
  | Kchar c => (0 <=? c) && (c <? 256) && negb (existsb (Z.eqb c) control) &&
               match completion with Some _ => negb (c =? 9) | None => true end
  | _ => true
  end.
Abbreviation edit_key := (edit_key mlmode prompt cols buflen junk).
Abbreviation edit_loop := (edit_loop mlmode prompt cols buflen completion junk).
Definition input_of (i : list (option bytes)) (s : lstate) : lstate :=
  set_tty {| t_in := i; t_out := t_out (s_tty s); t_wr := t_wr (s_tty s) |} s.
Lemma input_of_rep a i s : rep a s -> rep a (input_of i s).
Proof. intros [[] ? ?]. constructor; [by constructor|done|done]. Qed.
Lemma push_cons c d i : push (c :: d) i = Some (c :: d) :: i.
Proof. unfold push. by rewrite (proj2 (Z.eqb_neq _ _)) by lens. Qed.
(** A [read] for [n] bytes of a chunk that has them *)
Lemma read_stdin_ok n x d i s :
  0 < n -> lenZ x = n -> t_in (s_tty s) = Some (x ++ d) :: i ->
  read n s = Done ((n, x), input_of (push d i) s).
Proof.
  intros Hn Hx Hi. unfold read. rewrite Hi, takeZ_app_eq, dropZ_app_eq by done. by rewrite Hx.
Qed.
Lemma read_seq_ok x y d i s :
  t_in (s_tty s) = Some (x :: y :: d) :: i ->
  read_seq junk s = Done ((2, (x, y)), input_of (push d i) s).
Proof. intros Hi. unfold read_seq. by rewrite (read_stdin_ok 2 [x; y] d i s). Qed.

(** A state like [s] with the input [i] *)
Record keyed (s s' : lstate) (i : list (option bytes)) : Prop := {
  kd_in : t_in (s_tty s') = i;
  kd_term : s_term s' = s_term s;
  kd_wr : writes_ok s'
}.
Lemma acts_keyed m s a' :
  writes_ok s -> acts m s a' -> exists s', again m s = Done (None, s') /\ rep a' s' /\ keyed s s' (t_in (s_tty s)).
Proof.
  intros Hw (s' & Hm & Hr & []). exists s'. unfold again. cstep Hm. split; [done|]. split; [done|]. constructor; auto.
Qed.
Lemma acts_after_read i m s a' :
  writes_ok s -> acts m (input_of i s) a' ->
  exists s', m (input_of i s) = Done (tt, s') /\ rep a' s' /\ keyed s s' i.
Proof.
  intros Hw (s' & Hm & Hr & [Hin Ht Hwr]). exists s'. split; [done|]. split; [done|]. constructor; auto.
Qed.
Lemma read_seq_short x i s :
  t_in (s_tty s) = Some [x] :: i -> read_seq junk s = Done ((1, (x, junk s 1)), input_of i s).
Proof. intros Hi. unfold read_seq, read. by rewrite Hi. Qed.
Lemma input_of_twice i j s : input_of i (input_of j s) = input_of i s.
Proof. by destruct s. Qed.

(** The operation of a key *)
Definition key_op (k : key) : option (CM lstate unit) :=
  match k with
  | Kback _ => Some (linenoiseEditBackspace mlmode prompt cols)
  | Kdel => Some (linenoiseEditDelete mlmode prompt cols)
  | Kswap => Some (edit_swap mlmode prompt cols)
  | Kleft _ => Some (linenoiseEditMoveLeft mlmode prompt cols)
  | Kright _ => Some (linenoiseEditMoveRight mlmode prompt cols)
  | Kprev _ => Some (linenoiseEditHistoryNext mlmode prompt cols buflen HISTORY_PREV)
  | Knext _ => Some (linenoiseEditHistoryNext mlmode prompt cols buflen HISTORY_NEXT)
  | Kkill => Some (let! e := get_ed in let! b := clift (poke 0 0 (e_buf e)) in
                   do! put_ed (ed_with b 0 0 e) in refreshLine)
  | Kkillend => Some (let! e := get_ed in let! b := clift (poke (e_pos e) 0 (e_buf e)) in
                      do! put_ed (ed_with b (e_pos e) (e_pos e) e) in refreshLine)
  | Khome => Some (let! e := get_ed in do! put_ed (ed_with (e_buf e) 0 (e_len e) e) in refreshLine)
  | Kend => Some (let! e := get_ed in do! put_ed (ed_with (e_buf e) (e_len e) (e_len e) e) in refreshLine)
  | Kclear => Some (do! linenoiseClearScreen in refreshLine)
  | Kword => Some (linenoiseEditDeletePrevWord mlmode prompt cols)
  | _ => None
  end.
Lemma kill_ok a s : rep a s -> acts (let! e := get_ed in let! b := clift (poke 0 0 (e_buf e)) in
                   do! put_ed (ed_with b 0 0 e) in refreshLine) s (at_cursor [] [] a).
Proof.
  intros Hr. pose proof Hr as [[[rest Hb] Hsz _ _ _ _] _ _]. apply acts_get.
  destruct (e_buf (s_ed s)) as [|x b] eqn:E; [by destruct (a_l a), (a_r a)|].
  eapply acts_lift; [exact (poke_mid [] x 0 b)|]. apply (edit_show a s [] [] _ b); done.
Qed.
Lemma killend_ok a s : rep a s -> acts (let! e := get_ed in let! b := clift (poke (e_pos e) 0 (e_buf e)) in
                      do! put_ed (ed_with b (e_pos e) (e_pos e) e) in refreshLine) s (at_cursor (a_l a) [] a).
Proof.
  intros Hr. pose proof Hr as [[[rest Hb] Hsz Hp _ _ _] _ _]. apply acts_get. rewrite Hp, Hb.
  destruct (a_r a ++ 0 :: rest) as [|x b] eqn:E; [by destruct (a_r a)|].
  eapply acts_lift; [apply poke_mid|]. apply (edit_show a s (a_l a) [] _ b); try done; [rewrite <- Hsz, Hb; lens|lens].
Qed.
Lemma clear_ok a s : rep a s -> acts (do! linenoiseClearScreen in refreshLine) s a.
Proof.
  intros Hr. destruct (write_frame ([ESC] ++ str "[H" ++ [ESC] ++ str "[2J") s) as (rc & s1 & Hw & Hf & _).
  assert (linenoiseClearScreen s = Done (tt, s1)) as Hc by (unfold linenoiseClearScreen; by cstep Hw).
  destruct (show_ok a s1) as (s2 & Hs & Hr2 & Ho); [by eapply frame_rep|].
  exists s2. split; [by cstep Hc|]. split; [done|]. transitivity s1; [by apply frame_outside|done].
Qed.
Lemma key_op_ok k op a s :
  key_op k = Some op -> rep a s -> exists a', a_key buflen k a = Done (None, a') /\ acts op s a'.
Proof.
  intros Hk Hr. pose proof Hr as [[[rest Hb] Hsz Hp Hl _ _] _ _].
  destruct k; try discriminate Hk; injection Hk as <-; (eexists; split; [reflexivity|]).
  - by apply backspace_ok.
  - by apply delete_ok.
  - by apply edit_swap_ok.
  - by apply left_ok.
  - by apply right_ok.
  - apply (move_ok HISTORY_PREV); [by left|done].
  - apply (move_ok HISTORY_NEXT); [by right|done].
  - by apply kill_ok.
  - by apply killend_ok.
  - apply acts_get. unfold a_text. apply (edit_show a s [] (a_l a ++ a_r a) _ rest); [done|by rewrite Hb, <- app_assoc|done|done|lens].
  - apply acts_get. unfold a_text. apply (edit_show a s (a_l a ++ a_r a) [] _ rest); [done|by rewrite Hb, <- app_assoc|done|lens|lens].
  - by apply clear_ok.
  - by apply word_ok.
Qed.

(** Escape sequences *)
Lemma escape_ok k op s d i :
  key_op k = Some op -> hd 0 (enc k) = 27 -> (k = Kdel -> d = []) -> t_in (s_tty s) = push (tl (enc k) ++ d) i ->
  edit_escape mlmode prompt cols buflen junk s = op (input_of (push d i) s).
Proof.
  intros Hk Henc Hdel Hin. unfold edit_escape, cbind at 1.
  destruct k as [|[]| | | |[]|[]|[]|[]| | | | | | | |]; try discriminate Hk; try discriminate Henc; injection Hk as <-;
    cbn [enc tl app] in Hin; rewrite push_cons in Hin; rewrite (read_seq_ok _ _ _ _ _ Hin); try done.
  rewrite (Hdel eq_refl), push_cons. change (push [] i) with i. cbn -[input_of read_seq linenoiseEditDelete].
  unfold cbind. rewrite (read_seq_short 126 i) by done. by rewrite input_of_twice.
Qed.
Lemma key_again k op s d i :
  key_op k = Some op -> (k = Kdel -> d = []) -> t_in (s_tty s) = push (tl (enc k) ++ d) i ->
  edit_key (hd 0 (enc k)) s = again op (input_of (push d i) s).
Proof.
  intros Hk Hdel Hin. destruct (Z.eqb_spec (hd 0 (enc k)) 27) as [E|E].
  - rewrite E. change (edit_key 27) with (again (edit_escape mlmode prompt cols buflen junk)).
    unfold again, cbind. by rewrite (escape_ok k op s d i).
  - assert (input_of (push d i) s = s) as ->.
    { destruct k as [|[]| | | |[]|[]|[]|[]| | | | | | | |]; try discriminate Hk; try done;
        cbn [enc tl app] in Hin; rewrite <- Hin; by destruct s as [? ? []]. }
    destruct k as [|[]| | | |[]|[]|[]|[]| | | | | | | |]; try discriminate Hk; try done; by injection Hk as <-.
Qed.
Lemma i32_len a s : line_rep a s -> i32 (e_len (s_ed s)) = lenZ (a_text a).
Proof.
  intros [[rest Hb] Hsz _ -> _ _]. rewrite Hb in Hsz. pose proof plen_nonneg. unfold a_text. rewrite lenZ_app.
  unfold i32. rewrite Z.mod_small by lens. lia.
Qed.
Lemma char_key c :
  existsb (Z.eqb c) control = false ->
  edit_key c = (let! rc := linenoiseEditInsert mlmode prompt cols buflen c in cret (if rc =? 0 then None else Some (-1))).
Proof.
  intros Hc. cbn [existsb control] in Hc. rewrite !orb_false_iff in Hc. destruct_and! Hc. unfold Linenoise.edit_key.
  repeat match goal with H : (c =? _) = false |- _ => rewrite H; clear H end. done.
Qed.
Lemma drop_ok a s :
  rep a s -> exists s', on_hist history_drop s = Done (tt, s') /\ line_rep (a_drop_entry a) s' /\
    s_term s' = s_term s /\ e_len (s_ed s') = e_len (s_ed s).
Proof.
  intros [[Hb Hsz Hp Hl Hh Hn] _ Hrange]. unfold on_hist.
  destruct (drop_entry_ok _ _ Hh) as (h & -> & Hh'); [lia|]. eexists. split_and!; try done.
  constructor; try done. cbn. destruct (a_h a) as [|x t] eqn:E using rev_ind; [constructor|].
  rewrite removelast_last. by apply Forall_app in Hn as [Hn _].
Qed.
(** One key, its first byte read *)
Lemma edit_key_ok k a s d i :
  key_ok k = true -> rep a s -> writes_ok s -> (k = Kdel -> d = []) -> t_in (s_tty s) = push (tl (enc k) ++ d) i ->
  match a_key buflen k a with
  | Done (None, a') => exists s', edit_key (hd 0 (enc k)) s = Done (None, s') /\ rep a' s' /\ keyed s s' (push d i)
  | Done (Some r, a') => exists s', edit_key (hd 0 (enc k)) s = Done (Some r, s') /\ line_rep a' s' /\ s_term s' = s_term s
  | Fault f => edit_key (hd 0 (enc k)) s = Fault f
  end.
Proof.
  intros Hk Hr Hw Hdel Hin. destruct (key_op k) as [op|] eqn:Hop.
  { destruct (key_op_ok k op a (input_of (push d i) s) Hop (input_of_rep _ _ _ Hr)) as (a' & -> & Ha).
    rewrite (key_again k op s d i Hop Hdel Hin).
    destruct (acts_keyed op _ _ (Hw : writes_ok (input_of (push d i) s)) Ha) as (s' & -> & Hr' & []).
    exists s'. split; [done|]. split; [done|]. by constructor. }
  destruct k; try discriminate Hop; cbn [a_key enc hd tl app] in *.
  - cbn [key_ok] in Hk. rewrite !andb_true_iff, negb_true_iff in Hk. destruct Hk as [[_ Hc] _]. rewrite (char_key c Hc).
    pose proof (insert_ok a s c Hr Hw) as Hins. destruct (a_insert buflen c a) as [a'|f]; cbn [obind];
      [|unfold cbind; by rewrite Hins].
    destruct Hins as (s' & Hi & Hr' & []). cstep Hi. exists s'. split; [done|]. split; [done|]. constructor; [congruence|done|auto].
  - assert (edit_key 4 s = (if 0 <? e_len (s_ed s) then again (linenoiseEditDelete mlmode prompt cols)
                            else do! on_hist history_drop in cret (Some (-1))) s) as -> by done.
    rewrite (lr_len _ _ (rp_line _ _ Hr)).
    unfold a_text. rewrite lenZ_app. destruct (Z.eqb_spec (lenZ (a_l a) + lenZ (a_r a)) 0) as [E|E].
    + rewrite (proj2 (Z.ltb_ge _ _)) by lia. destruct (drop_ok a s Hr) as (s' & Hd & Hl & Ht & _). cstep Hd. by exists s'.
+ rewrite (proj2 (Z.ltb_lt _ _)) by lens. destruct (acts_keyed _ _ _ Hw (delete_ok a s Hr)) as (s' & -> & Hr' & Hkd).
      rewrite Hin in Hkd. by exists s'.
  - change (edit_key 13) with (do! on_hist history_drop in let! e := get_ed in cret (Some (i32 (e_len e)))).
    destruct (drop_ok a s Hr) as (s' & Hd & Hl & Ht & Hle). cstep Hd. exists s'.
    unfold cbind, get_ed. rewrite Hle, (i32_len a s (rp_line _ _ Hr)). done.
  - exists s. split; [done|]. split; [apply Hr|done].
Qed.
(** ** The loop *)
Definition not_tab (c : Z) : Prop := match completion with Some _ => (c =? 9) = false | None => True end.
Lemma no_tab k : key_ok k = true -> not_tab (hd 0 (enc k)).
Proof.
  unfold not_tab. intros Hk. destruct k as [|[]| | | |[]|[]|[]|[]| | | | | | | |]; cbn in *; destruct completion; try done.
  apply andb_prop in Hk as [_ Hk]. by apply negb_true_iff.
Qed.
Lemma loop_turn fuel c s s1 :
  read 1 s = Done ((1, [c]), s1) -> not_tab c ->
  edit_loop fuel s = (let! r := edit_key c in
    match r with
    | Some r => cret r
    | None => match fuel with O => cfault OutOfFuel | S fuel => edit_loop fuel end
    end) s1.
Proof.
  unfold not_tab. intros Hread Ht.
  destruct fuel; cbn [Linenoise.edit_loop]; cstep Hread; unfold get_ed, clift; unfold cbind at 1 2;
    change (1 <=? 0) with false; change (get [c] 0) with (Done c); cbn iota beta; unfold cbind at 1;
    revert Ht; destruct completion; intros Ht; rewrite ?Ht; done.
Qed.
Lemma loop_ok ks : forall fuel a s,
  typed ks (t_in (s_tty s)) -> Forall (fun k => key_ok k = true) ks -> rep a s -> writes_ok s -> (length ks <= fuel)%nat ->
  match a_run buflen ks a with
  | Done (r, a') => exists s', edit_loop fuel s = Done (r, s') /\ line_rep a' s' /\ s_term s' = s_term s
  | Fault f => edit_loop fuel s = Fault f
  end.
Proof.
  induction ks as [|k ks IH]; intros fuel a s Ht Hk Hr Hw Hfuel; inversion Ht as [Hin|? ? d i Hdel Ht' Heq Hin]; subst.
  { assert (read 1 s = Done ((0, []), s)) as Hread by (unfold read; by destruct (t_in (s_tty s))).
    exists s. destruct fuel; (split; [|split; [apply Hr|done]]); cbn [Linenoise.edit_loop]; cstep Hread;
      unfold cbind, get_ed; cbn; by rewrite (i32_len a s (rp_line _ _ Hr)). }
  inversion_clear Hk as [|? ? Hk1 Hks]. cbn [a_run length] in *.
  set (s1 := input_of (push (tl (enc k) ++ d) i) s).
  assert (read 1 s = Done ((1, [hd 0 (enc k)]), s1)) as Hread.
  { apply read_stdin_ok; [done|done|]. assert (t_in (s_tty s) = Some (enc k ++ d) :: i) as -> by done. by destruct k as [|[]| | | |[]|[]|[]|[]| | | | | | | |]. }
  pose proof (edit_key_ok k a s1 d i Hk1 (input_of_rep _ _ _ Hr) Hw Hdel eq_refl) as Hkey.
  rewrite (loop_turn fuel _ s s1 Hread (no_tab k Hk1)).
  unfold cbind. destruct (a_key buflen k a) as [[[r|] a']|f]; cbn [obind].
  - destruct Hkey as (s' & -> & Hl & Htm). by exists s'.
  - destruct Hkey as (s' & -> & Hr' & [Hi' Htm Hw']). destruct fuel as [|fuel]; [lia|].
    rewrite <- Hi' in Ht'. specialize (IH fuel a' s' Ht' Hks Hr' Hw' ltac:(lia)).
    destruct (a_run buflen ks a') as [[r a2]|f]; [|done]. destruct IH as (s2 & ? & ? & Htm2). exists s2.
    split; [done|]. split; [done|]. rewrite Htm2, Htm. done.
  - by rewrite Hkey.
Qed.
(** ** Completion *)

(** The text after the [j]-th proposal is taken: the line itself comes after
    the last one. *)
Definition a_choice (cvec : list bytes) (j : Z) (a : aline) : aline :=
  if j <? lenZ cvec then at_cursor (nth (Z.to_nat j) cvec []) [] a else a.
Lemma get_nth {A} (l : list A) j d : 0 <= j < lenZ l -> get l j = Done (nth (Z.to_nat j) l d).
Proof.
  intros Hj. unfold get. rewrite (proj2 (Z.ltb_ge _ _)) by lia.
  destruct (lookup_lt_is_Some_2 l (Z.to_nat j)) as [x Hx]; [unfold lenZ in Hj; lia|].
  by rewrite Hx, (nth_lookup_Some _ _ _ _ Hx).
Qed.
Lemma proposal_shown cvec j a s :
  rep a s -> Forall (fun w => lenZ w < buflen) cvec -> 0 <= j <= lenZ cvec ->
  exists s', (if j <? lenZ cvec then
                let! w := clift (get cvec j) in refresh mlmode prompt cols (w ++ [0]) (lenZ w) (lenZ w)
              else refreshLine) s = Done (tt, s') /\ rep a s' /\ outside s s'.
Proof.
  intros Hr Hc Hj. destruct (Z.ltb_spec j (lenZ cvec)) as [Hlt|Hge]; [|by apply show_ok].
  rewrite (get_nth cvec j []) by lia. unfold cbind, clift. set (w := nth _ _ _).
  assert (lenZ w < buflen) by (apply (proj1 (List.Forall_forall _ cvec) Hc), nth_In; unfold lenZ in Hlt; lia).
  destruct (refresh_frame (w ++ [0]) (lenZ w) (lenZ w) s) as (s' & -> & Hf); [lens|lia|lens|].
  exists s'. split; [done|]. split; [by eapply frame_rep|by apply frame_outside].
Qed.
Lemma proposal_taken cvec j a s :
  rep a s -> Forall (fun w => lenZ w < buflen) cvec -> 0 <= j <= lenZ cvec ->
  acts (if j <? lenZ cvec then
          let! w := clift (get cvec j) in
          let! e := get_ed in
          let! b := clift (blk_write (e_buf e) 0 (takeZ (buflen - 1) w ++ [0])) in
          put_ed (ed_with b (lenZ w) (lenZ w) e)
        else cret tt) s (a_choice cvec j a).
Proof.
  intros Hr Hc Hj. unfold a_choice. destruct (Z.ltb_spec j (lenZ cvec)) as [Hlt|Hge]; [|by apply acts_none].
  rewrite (get_nth cvec j []) by lia. eapply acts_lift; [done|]. set (w := nth _ _ _).
  assert (lenZ w < buflen) by (apply (proj1 (List.Forall_forall _ cvec) Hc), nth_In; unfold lenZ in Hlt; lia).
  apply acts_get. pose proof (lr_size _ _ (rp_line _ _ Hr)) as Hsz. set (b := e_buf (s_ed s)) in *.
  rewrite takeZ_all by lia. pose proof (lenZ_nonneg w).
  assert (blk_write b 0 (w ++ [0]) = Done (w ++ 0 :: dropZ (lenZ w + 1) b)) as Hwr.
  { rewrite blk_write_ok by lens. rewrite takeZ_0 by lia. cbn [app]. rewrite <- app_assoc. by replace (0 + lenZ (w ++ [0])) with (lenZ w + 1) by lens. }
  eapply acts_lift; [exact Hwr|]. eexists. split; [reflexivity|]. split; [|done].
  pose proof (set_rep a s w [] _ (dropZ (lenZ w + 1) b) Hr eq_refl) as Hset. replace (lenZ w + lenZ []) with (lenZ w) in Hset by lens.
  apply Hset. rewrite <- Hsz. exact (lenZ_blk_write _ _ _ _ Hwr).
Qed.
Lemma complete_loop_ok cvec c d i n : forall fuel j a s,
  rep a s -> writes_ok s -> Forall (fun w => lenZ w < buflen) cvec -> 0 <= j <= lenZ cvec ->
  c <> 9 -> c <> 27 -> (n <= fuel)%nat -> t_in (s_tty s) = Some (replicate n 9 ++ c :: d) :: i ->
  exists s', complete_loop mlmode prompt cols buflen fuel cvec j s = Done (i8 c, s') /\
    rep (a_choice cvec ((j + Z.of_nat n) mod (lenZ cvec + 1)) a) s' /\ keyed s s' (push d i).
Proof.
  induction n as [|n IH]; intros fuel j a s Hr Hw Hc Hj H9 H27 Hfuel Hin.
  all: destruct (proposal_shown cvec j a s Hr Hc Hj) as (s1 & Hshow & Hr1 & Ho1).
  all: cbn [replicate app] in Hin; pose proof (ou_in _ _ Ho1) as Hin1; rewrite Hin in Hin1.
  - rewrite Z.add_0_r, Z.mod_small by lia. assert (read 1 s1 = Done ((1, [c]), input_of (push d i) s1)) as Hread by (by apply read_stdin_ok).
    destruct (proposal_taken cvec j a _ (input_of_rep _ (push d i) _ Hr1) Hc Hj) as (s2 & Htake & Hr2 & [Hi2 Ht2 Hw2]).
    exists s2. split; [|split; [done|]; constructor; [exact Hi2|by rewrite Ht2; apply Ho1|apply Hw2; by apply Ho1]].
    destruct fuel; cbn [complete_loop]; unfold get_ed at 1; unfold cbind at 1; cstep Hshow; cstep Hread;
      change (1 <=? 0) with false; change (get [c] 0) with (Done c); unfold cbind at 1, clift at 1;
      rewrite (proj2 (Z.eqb_neq c 9)), (proj2 (Z.eqb_neq c 27)) by done; cstep Htake; done.
  - destruct fuel as [|fuel]; [lia|].
    assert (read 1 s1 = Done ((1, [9]), input_of (push (replicate n 9 ++ c :: d) i) s1)) as Hread by (by apply read_stdin_ok).
    set (s2 := input_of _ s1) in Hread. set (j' := (j + 1) mod (lenZ cvec + 1)).
    destruct (IH fuel j' a s2) as (s3 & Hrun & Hr3 & [Hi3 Ht3 Hw3]); try done.
    { by apply input_of_rep. } { by apply Ho1. } { unfold j'. pose proof (Z.mod_pos_bound (j + 1) (lenZ cvec + 1)). lia. } { lia. }
    { cbn. destruct n; cbn [replicate app]; apply push_cons. }
    exists s3. split.
    + cbn [complete_loop]. unfold get_ed at 1; unfold cbind at 1. cstep Hshow. cstep Hread. exact Hrun.
    + replace ((j + Z.of_nat (S n)) mod (lenZ cvec + 1)) with ((j' + Z.of_nat n) mod (lenZ cvec + 1))
        by (unfold j'; rewrite Zplus_mod_idemp_l; f_equal; lia).
      split; [done|]. constructor; [done|by rewrite Ht3; apply Ho1|done].
Qed.
Lemma typed_size ks i : typed ks i -> (length ks <= input_size i)%nat.
Proof.
  induction 1 as [|k ks d i Hdel _ IH]; [done|]. cbn [length input_size]. rewrite length_app.
  assert (1 <= length (enc k))%nat by (destruct k as [|[]| | | |[]|[]|[]|[]| | | | | | | |]; cbn; lia).
  unfold push in IH. destruct (lenZ d =? 0); cbn [input_size] in IH; lia.
Qed.
(** The line an edition starts with: empty, and the last entry of the history *)
Definition start_line (max : Z) (hs : list bytes) : aline :=
  {| a_l := []; a_r := []; a_h := lastn max (hs ++ [[]]); a_i := 0 |}.
Lemma edit_ok buf hs ks s :
  lenZ buf = buflen -> hist_rep (s_hist s) hs -> Forall no_nul hs -> writes_ok s ->
  typed ks (t_in (s_tty s)) -> Forall (fun k => key_ok k = true) ks ->
  match a_run buflen ks (start_line (h_max (s_hist s)) hs) with
  | Done (r, a) => exists s', linenoiseEdit mlmode prompt cols buflen completion junk buf s = Done (r, s') /\
                     line_rep a s' /\ s_term s' = s_term s
  | Fault f => linenoiseEdit mlmode prompt cols buflen completion junk buf s = Fault f
  end.
Proof.
  intros Hb Hh Hn Hw Ht Hk. destruct buf as [|x buf]; [rewrite lenZ_nil in Hb; lia|].
  destruct (history_add_ok _ _ [] Hh (hist_bound _ _ Hh)) as (h1 & Hadd & Hh1 & _).
  set (ed := {| e_buf := 0 :: buf; e_pos := 0; e_len := 0; e_oldpos := 0; e_maxrows := 0; e_hidx := 0 |}).
  set (s1 := set_hist h1 (set_ed ed s)). set (a := start_line _ _).
  assert (rep a s1) as Hr1.
  { pose proof (hr_max _ _ Hh). constructor; [|done|].
    - constructor; try done; [by exists buf|].
      apply Forall_drop, Forall_app. split; [done|]. repeat constructor.
    - cbn [a start_line a_h a_i]. rewrite lenZ_lastn, lenZ_app by lia. lens. }
  destruct (write_frame prompt s1) as (rc & s2 & Hwr & Hf & Hrc).
  assert (linenoiseEdit mlmode prompt cols buflen completion junk (x :: buf) s = edit_loop (input_size (t_in (s_tty s))) s2) as ->.
  { unfold linenoiseEdit, cbind, clift, put_ed, on_hist. rewrite (poke_mid [] x 0 buf : poke 0 0 (x :: buf) = _).
    cbn [s_hist set_ed app]. rewrite Hadd. fold ed s1. by rewrite Hwr, (proj2 (Z.eqb_neq rc (-1)) (Hrc Hw)). }
  pose proof (loop_ok ks (input_size (t_in (s_tty s))) a s2) as Hloop.
  rewrite (fr_in _ _ Hf) in Hloop. specialize (Hloop Ht Hk (frame_rep _ _ _ Hf Hr1) (fr_wr _ _ Hf Hw) (typed_size _ _ Ht)).
  destruct (a_run _ _ _) as [[r a']|f]; [|done]. destruct Hloop as (s' & ? & ? & Htm). exists s'.
  split; [done|]. split; [done|]. by rewrite Htm, (fr_term _ _ Hf).
Qed.
End view.

(** ** The whole call *)
Section call.
Context (mlmode : bool) (ws_col : option Z) (completion : option (bytes -> list bytes)) (junk : lstate -> Z -> Z)
  (TERM : option bytes).
Abbreviation linenoise := (linenoise mlmode ws_col completion junk true TERM).
Context (Hterm : isUnsupportedTerm TERM = false).
Lemma raw_ok prompt buf hs ks s :
  lenZ prompt < getColumns ws_col < 2 ^ 16 -> lenZ buf = LINENOISE_MAX_LINE ->
  hist_rep (s_hist s) hs -> Forall no_nul hs -> writes_ok s -> m_tc (s_term s) = [] ->
  typed ks (t_in (s_tty s)) -> Forall (fun k => key_ok completion k = true) ks ->
  match a_run LINENOISE_MAX_LINE ks (start_line (h_max (s_hist s)) hs) with
  | Done (r, a) => exists s' rest, linenoiseRaw mlmode ws_col completion junk true buf prompt LINENOISE_MAX_LINE s =
                     Done ((r, a_text a ++ 0 :: rest), s') /\
                     hist_rep (s_hist s') (a_h a) /\ m_cur (s_term s') = m_cur (s_term s) /\ m_rawmode (s_term s') = false
  | Fault f => linenoiseRaw mlmode ws_col completion junk true buf prompt LINENOISE_MAX_LINE s = Fault f
  end.
Proof.
  intros Hcols Hb Hh Hn Hw Htc Ht Hk. unfold linenoiseRaw. change (LINENOISE_MAX_LINE =? 0) with false. cbn [negb].
  set (m := {| m_cur := raw_mode (m_cur (s_term s)); m_orig := m_cur (s_term s); m_rawmode := true; m_atexit := true; m_tc := [] |}).
  assert (enableRawMode true s = Done (0, set_term m s)) as Hraw by (unfold enableRawMode; by rewrite Htc).
  unfold cbind. rewrite Hraw.
  pose proof (edit_ok mlmode prompt (getColumns ws_col) LINENOISE_MAX_LINE ltac:(unfold plen; lia)
    ltac:(unfold LINENOISE_MAX_LINE; lia) eq_refl completion junk buf hs ks (set_term m s) Hb Hh Hn Hw Ht Hk) as Hedit.
  cbn [set_term s_hist s_term] in Hedit. change (0 =? -1) with false. cbn iota.
  destruct (a_run _ _ _) as [[r a]|f]; [|by rewrite Hedit].
  destruct Hedit as (s1 & -> & [[rest Hbuf] _ _ _ Hh1 _] & Htm). unfold get_ed, disableRawMode. rewrite Htm. cbn [m m_rawmode m_tc script_next Z.eqb].
  unfold write. set (s2 := set_term _ s1). destruct (script_next 1 (t_wr (s_tty s2))) as [rc wr].
  rewrite Hbuf. do 2 eexists. split; [unfold a_text; rewrite <- app_assoc; done|]. done.
Qed.

(** C16: the line editor refines a text with a cursor.  For every sequence of
    keys that arrive each whole in one read, several in a read or not, except
    that nothing follows Delete in its read ([typed]: the code takes the two
    bytes after the third one of Delete for its end, [delete_swallows_next]),
    with a prompt narrower than the terminal and for the keys of [key_ok], in
    both display modes, the line that linenoise returns is the text the abstract
    editor reaches:
    characters, deletions, moves, word and line kills, swaps and moves in the
    history all act on the text as they do there, the call ends at enter,
    ctrl-c, ctrl-d on an empty line or the end of the input, the history holds
    the abstract one and the terminal is back in the mode it was in.  A line
    of 4095 characters that gets one more is the only fault. *)
Theorem linenoise_refines_editor prompt buf hs ks s :
  lenZ prompt < getColumns ws_col < 2 ^ 16 -> lenZ buf = LINENOISE_MAX_LINE ->
  hist_rep (s_hist s) hs -> Forall no_nul hs -> writes_ok s -> m_tc (s_term s) = [] ->
  typed ks (t_in (s_tty s)) -> Forall (fun k => key_ok completion k = true) ks ->
  match a_run LINENOISE_MAX_LINE ks (start_line (h_max (s_hist s)) hs) with
  | Done (r, a) => exists s', linenoise buf prompt s = Done (if r =? -1 then None else Some (cstr (a_text a)), s') /\
                     hist_rep (s_hist s') (a_h a) /\ m_cur (s_term s') = m_cur (s_term s) /\ m_rawmode (s_term s') = false
  | Fault f => linenoise buf prompt s = Fault f
  end.
Proof.
  intros Hcols Hb Hh Hn Hw Htc Ht Hk. unfold Linenoise.linenoise. rewrite Hterm.
  pose proof (raw_ok prompt buf hs ks s Hcols Hb Hh Hn Hw Htc Ht Hk) as Hraw. unfold cbind.
  destruct (a_run _ _ _) as [[r a]|f]; [|by rewrite Hraw].
  destruct Hraw as (s1 & rest & -> & Hh1 & Hm & Hrm). destruct (r =? -1); [by exists s1|].
  rewrite c_string_cstr. cbn [clift]. unfold on_hist, malloc. rewrite (hr_alloc _ _ Hh1). cbn [script_next].
  eexists. split; [done|]. split; [|done]. cbn [set_hist s_hist]. destruct Hh1. by constructor.
Qed.
End call.

(** A terminal of the default width with some input *)
Definition demo_editor (hist : hist) (input : list (option bytes)) : lstate :=
  {| s_ed := {| e_buf := []; e_pos := 0; e_len := 0; e_oldpos := 0; e_maxrows := 0; e_hidx := 0 |};
     s_hist := hist;
     s_tty := {| t_in := input; t_out := []; t_wr := [] |};
     s_term := {| m_cur := {| c_iflag := 1280; c_oflag := 5; c_cflag := 191; c_lflag := 35387; c_vmin := 1; c_vtime := 0 |};
                  m_orig := {| c_iflag := 0; c_oflag := 0; c_cflag := 0; c_lflag := 0; c_vmin := 0; c_vtime := 0 |};
                  m_rawmode := false; m_atexit := false; m_tc := [] |} |}.
Definition demo_hist : hist := {| h_arr := Some [Hstr (str "get a"); Hnull; Hnull]; h_len := 1; h_max := 3; h_alloc := [] |}.
(** The previous line, its last word deleted, "key" typed, enter: in three
    reads *)
Definition demo_keys : list key :=
  [Kprev true; Kword] ++ [Kchar 107; Kchar 121; Kleft false] ++ [Kchar 101; Kenter].
Lemma demo_typed : typed demo_keys [Some [27; 91; 65; 23]; Some [107; 121; 2]; Some [101; 13]].
Proof.
  repeat first [apply typed_end | eapply (typed_key (Kprev true) _ [23])
               | eapply (typed_key Kword _ []) | eapply (typed_key (Kchar 107) _ [121; 2]) | eapply (typed_key (Kchar 121) _ [2])
               | eapply (typed_key (Kleft false) _ []) | eapply (typed_key (Kchar 101) _ [13]) | eapply (typed_key Kenter _ [])
               | intros [=]].
Qed.
Lemma demo_hist_rep : hist_rep demo_hist [str "get a"].
Proof. constructor; [right; by exists [Hnull; Hnull]|done|done|done]. Qed.
Lemma linenoise_refines_editor_witness :
  exists s', linenoise false None None (fun _ _ => 0) true None (zeros LINENOISE_MAX_LINE) (str "default > ")
               (demo_editor demo_hist [Some [27; 91; 65; 23]; Some [107; 121; 2]; Some [101; 13]])
             = Done (Some (str "get key"), s') /\
    hist_rep (s_hist s') [str "get a"] /\ m_cur (s_term s') = m_cur (s_term (demo_editor demo_hist [])) /\ m_rawmode (s_term s') = false.
Proof.
  exact (linenoise_refines_editor false None None (fun _ _ => 0) None eq_refl (str "default > ") (zeros LINENOISE_MAX_LINE)
    [str "get a"] demo_keys (demo_editor demo_hist _) ltac:(vm_compute; done) eq_refl demo_hist_rep
    ltac:(by repeat constructor) ltac:(constructor) eq_refl demo_typed ltac:(by repeat constructor)).
Defined.

(** Completion cycles through the proposals.  When the callback has
    proposals for the line, the first key completes with the first one and
    each further one moves on, the line itself coming after the last; the
    next key, which is returned to be handled, keeps what is shown: the
    buffer then holds that proposal with the cursor at its end, or the line
    as it was. *)
Theorem completion_cycles mlmode prompt cols buflen cb a s n c d i :
  plen prompt < cols -> cols + buflen < 2 ^ 31 -> 0 < buflen ->
  rep buflen a s -> writes_ok s ->
  cb (cstr (a_text a)) <> [] -> Forall (fun w => lenZ w < buflen) (cb (cstr (a_text a))) ->
  c <> 9 -> c <> 27 -> t_in (s_tty s) = Some (replicate n 9 ++ c :: d) :: i ->
  let cvec := cb (cstr (a_text a)) in
  exists s', completeLine mlmode prompt cols buflen cb s = Done (i8 c, s') /\
    rep buflen (a_choice cvec (Z.of_nat n mod (lenZ cvec + 1)) a) s' /\ t_in (s_tty s') = push d i.
Proof.
  intros Hcols Hbig Hbuf Hr Hw Hne Hc H9 H27 Hin cvec.
  destruct (complete_loop_ok mlmode prompt cols buflen Hcols Hbig Hbuf cvec c d i n (input_size (t_in (s_tty s))) 0 a s)
    as (s' & Hrun & Hr' & []); try done.
  { split; [done|apply lenZ_nonneg]. } { rewrite Hin. cbn [input_size]. rewrite length_app, length_replicate. lia. }
  exists s'. split; [|done]. destruct (lr_buf _ _ _ (rp_line _ _ _ Hr)) as [rest Hb].
  unfold completeLine, cbind at 1 2, get_ed, clift. rewrite Hb, app_assoc, c_string_cstr. fold (a_text a) cvec.
  rewrite (proj2 (Z.eqb_neq _ _)); [exact Hrun|]. intros E. apply Hne. by apply lenZ_zero_nil.
Qed.
(** "g" typed; the proposals are the commands that start with it *)
Definition demo_line : aline := {| a_l := str "g"; a_r := []; a_h := [str "ping"; []]; a_i := 0 |}.
Definition demo_proposals (line : bytes) : list bytes := if bool_decide (line = str "g") then [str "get"; str "go"] else [].
Definition demo_completing : lstate :=
  set_ed {| e_buf := str "g" ++ zeros 15; e_pos := 1; e_len := 1; e_oldpos := 0; e_maxrows := 0; e_hidx := 0 |}
    (demo_editor {| h_arr := Some [Hstr (str "ping"); Hstr []; Hnull]; h_len := 2; h_max := 3; h_alloc := [] |} [Some [9; 9; 9; 32; 97]]).
Lemma demo_completing_rep : rep 16 demo_line demo_completing.
Proof.
  constructor; [|done|done]. constructor; try done; [by exists (zeros 14)| |by repeat constructor].
  constructor; [right; by exists [Hnull]|done|done|done].
Qed.
Lemma completion_cycles_witness :
  exists s', completeLine false (str "> ") 80 16 demo_proposals demo_completing = Done (32, s') /\
    rep 16 {| a_l := str "get"; a_r := []; a_h := [str "ping"; []]; a_i := 0 |} s' /\ t_in (s_tty s') = [Some [97]].
Proof.
  exact (completion_cycles false (str "> ") 80 16 demo_proposals demo_line demo_completing 3 32 [97] []
    eq_refl eq_refl eq_refl demo_completing_rep ltac:(constructor) ltac:(vm_compute; discriminate)
    ltac:(vm_compute; by repeat constructor) ltac:(done) ltac:(done) eq_refl).
Defined.

(** C36: the refresh of a single line shows the cursor.  Whatever the position
    in a line longer than the terminal, what is written is the prompt, a part
    of the line that fits the columns left and holds the cursor, and the
    cursor's column, which is on the terminal. *)
Theorem refresh_shows_cursor prompt cols buflen buf len pos s :
  plen prompt < cols -> cols + buflen < 2 ^ 31 -> 0 < buflen ->
  0 <= pos <= len -> len <= buflen -> len <= lenZ buf -> t_wr (s_tty s) = [] ->
  exists k m s',
    refreshSingleLine prompt cols buf len pos s = Done (tt, s') /\
    t_out (s_tty s') = t_out (s_tty s) ++ seq_left ++ prompt ++ takeZ m (dropZ k buf) ++ seq_erase ++
                       seq_left ++ [ESC] ++ str "[" ++ dec (plen prompt + (pos - k)) ++ str "C" /\
    0 <= k <= pos /\ plen prompt + m <= cols /\ plen prompt + (pos - k) < cols /\ k + m <= len /\
    (pos - k < m \/ k + m = len) /\ (k = 0 \/ plen prompt + (pos - k) = cols - 1).
Proof.
  intros Hcols Hbig Hbuf Hp Hl Hb Hw. pose proof (plen_nonneg prompt).
  exists (first_shown prompt cols pos), (shown prompt cols len pos). unfold refreshSingleLine, cbind at 1, clift at 1.
  rewrite (scroll_ok prompt cols buflen) by (done || lia). unfold cbind at 1, clift at 1. cbn [Z.add].
  rewrite (cut_ok prompt cols buflen) by (done || (unfold first_shown; lia)). fold (shown prompt cols len pos).
  unfold cbind at 1. cbn [writes]. unfold write, cbind at 1 2. rewrite Hw. cbn [script_next Z.eqb negb set_tty s_tty t_wr t_out t_in cret].
  unfold cbind at 1. rewrite blk_read_ok by (unfold shown, first_shown; lia). cbn [clift].
  unfold cbind, cret. cbn [script_next Z.eqb set_tty s_tty t_wr t_out t_in].
  eexists. split; [reflexivity|]. cbn [set_tty s_tty t_out]. split.
  - rewrite <- !app_assoc. do 7 f_equal. unfold i32, first_shown. rewrite Z.mod_small by lia.
    do 6 f_equal. lia.
  - unfold shown, first_shown. lia.
Qed.
Lemma refresh_shows_cursor_witness :
  exists k m s',
    refreshSingleLine (str "> ") 10 (str "get a_long_key" ++ [0]) 14 12 (demo_editor demo_hist []) = Done (tt, s') /\
    t_out (s_tty s') = [] ++ seq_left ++ str "> " ++ takeZ m (dropZ k (str "get a_long_key" ++ [0])) ++ seq_erase ++
                       seq_left ++ [ESC] ++ str "[" ++ dec (2 + (12 - k)) ++ str "C" /\
    0 <= k <= 12 /\ 2 + m <= 10 /\ 2 + (12 - k) < 10 /\ k + m <= 14 /\
    (12 - k < m \/ k + m = 14) /\ (k = 0 \/ 2 + (12 - k) = 10 - 1).
Proof.
  exact (refresh_shows_cursor (str "> ") 10 15 (str "get a_long_key" ++ [0]) 14 12 (demo_editor demo_hist [])
    eq_refl eq_refl eq_refl ltac:(lia) ltac:(lia) ltac:(vm_compute; done) eq_refl).
Defined.

Lemma run_chars n cs : forall a,
  lenZ (a_text a) < n <= lenZ (a_text a) + lenZ cs -> a_run n (map Kchar cs) a = Fault HeapOverflow.
Proof.
  induction cs as [|c cs IH]; intros a Hn; cbn [map a_run a_key]; [rewrite lenZ_nil in Hn; lia|].
  unfold a_insert. rewrite lenZ_cons in Hn. destruct (Z.ltb_spec (lenZ (a_text a) + 1) n) as [Hlt|Hge]; [|done].
  cbn [obind]. apply IH. unfold a_text in *. cbn [at_cursor a_l a_r]. lens.
Qed.
Lemma typed_chars cs : typed (map Kchar cs) (push cs []).
Proof.
  induction cs as [|c cs IH]; [constructor|]. cbn [map]. rewrite push_cons.
  apply (typed_key (Kchar c) (map Kchar cs) cs []); [done|exact IH].
Qed.
(** C37: a long line overflows the buffer.  4096 characters typed at the prompt
    write the terminating NUL after the 4096 bytes of the buffer of
    linenoise: the bound the insertion checks is the size of the buffer, not
    one less. *)
Theorem long_line_overflows mlmode ws_col junk TERM prompt buf hs cs s :
  isUnsupportedTerm TERM = false ->
  lenZ prompt < getColumns ws_col < 2 ^ 16 -> lenZ buf = LINENOISE_MAX_LINE ->
  hist_rep (s_hist s) hs -> Forall no_nul hs -> writes_ok s -> m_tc (s_term s) = [] ->
  lenZ cs = LINENOISE_MAX_LINE -> t_in (s_tty s) = [Some cs] ->
  Forall (fun c => key_ok None (Kchar c) = true) cs ->
  linenoise mlmode ws_col None junk true TERM buf prompt s = Fault HeapOverflow.
Proof.
  intros Hterm Hcols Hb Hh Hn Hw Htc Hlen Hin Hcs. unfold linenoise. rewrite Hterm.
  pose proof (raw_ok mlmode ws_col None junk prompt buf hs (map Kchar cs) s Hcols Hb Hh Hn Hw Htc) as Hraw.
  rewrite Hin in Hraw. unfold cbind. rewrite run_chars in Hraw by (unfold a_text; cbn; rewrite Hlen; done).
  rewrite Hraw; [done| |by apply Forall_map]. pose proof (typed_chars cs) as Ht. unfold push in Ht.
  by rewrite Hlen in Ht.
Qed.
Lemma long_line_overflows_witness :
  linenoise true (Some 120) None (fun _ _ => 0) true (Some (str "xterm")) (zeros LINENOISE_MAX_LINE) (str "default > ")
    (demo_editor demo_hist [Some (replicate 4096 97)]) = Fault HeapOverflow.
Proof.
  exact (long_line_overflows true (Some 120) (fun _ _ => 0) (Some (str "xterm")) (str "default > ") (zeros LINENOISE_MAX_LINE)
    [str "get a"] (replicate 4096 97) (demo_editor demo_hist _) eq_refl ltac:(vm_compute; done) eq_refl demo_hist_rep
    ltac:(by repeat constructor) ltac:(constructor) eq_refl eq_refl eq_refl ltac:(by apply Forall_replicate)).
Defined.

(** The delete key takes the key after it along when both come in one read:
    the "x" is lost. *)
Example delete_swallows_next :
  exists s', linenoise false None None (fun _ _ => 0) true None (zeros LINENOISE_MAX_LINE) (str "> ")
    (demo_editor demo_hist [Some ([97; 98; 1] ++ enc Kdel ++ [120; 13])]) = Done (Some (str "b"), s').
Proof. eexists. vm_compute. reflexivity. Qed.
