(* ===== verification/NnList.v ===== *)
(** * NnList: the intrusive lists and queues of nanomsg

    lib/nanomsg/src/utils/list.c and queue.c: the links of an item are in the
    item itself, and a special address says that it is in no list.  Items live
    in a heap; a list holds the addresses of its ends.  Both refine sequences
    of items. *)
From S2P Require Import Prelude.

(** ** Data *)

(** A link: [NN_LIST_NOTINLIST] (or [NN_QUEUE_NOTINQUEUE]), [NULL], an item *)
Inductive link := NotIn | Null | Item (a : Z).
#[export] Instance link_eq_dec : EqDecision link.
Proof. solve_decision. Defined.
Record nn_list_item := { li_prev : link; li_next : link }.
Record nn_list := { nl_first : link; nl_last : link }.
Abbreviation lheap := (gmap Z nn_list_item).

Definition lread (h : lheap) (a : Z) : outcome nn_list_item :=
  match h !! a with Some i => Done i | None => Fault UseAfterFree end.
(** The item a link leads to *)
Definition follow (p : link) : outcome Z :=
  match p with Item a => Done a | Null => Fault NullDeref | NotIn => Fault HeapOverflow end.
Definition set_next (p n : link) (h : lheap) : outcome lheap :=
  olet! a := follow p in olet! i := lread h a in Done (<[a := {| li_prev := li_prev i; li_next := n |}]> h).
Definition set_prev (p n : link) (h : lheap) : outcome lheap :=
  olet! a := follow p in olet! i := lread h a in Done (<[a := {| li_prev := n; li_next := li_next i |}]> h).
Definition nn_assert (b : bool) : outcome unit := if b then Done tt else Fault AssertFailed.

(** ** Lists *)
Definition nn_list_init : nn_list := {| nl_first := Null; nl_last := Null |}.
Definition nn_list_term (l : nn_list) : outcome unit :=
  olet! _ := nn_assert (bool_decide (nl_first l = Null)) in nn_assert (bool_decide (nl_last l = Null)).
Definition nn_list_empty (l : nn_list) : bool := bool_decide (nl_first l = Null).
Definition nn_list_begin (l : nn_list) : link := nl_first l.
Definition nn_list_end (l : nn_list) : link := Null.
Definition nn_list_prev (l : nn_list) (h : lheap) (it : link) : outcome link :=
  if bool_decide (it = Null) then Done (nl_last l)
  else
    olet! a := follow it in olet! i := lread h a in
    olet! _ := nn_assert (bool_decide (li_prev i <> NotIn)) in Done (li_prev i).
Definition nn_list_next (l : nn_list) (h : lheap) (it : link) : outcome link :=
  olet! a := follow it in olet! i := lread h a in
  olet! _ := nn_assert (bool_decide (li_next i <> NotIn)) in Done (li_next i).
Definition nn_list_item_isinlist (i : nn_list_item) : bool := bool_decide (li_prev i <> NotIn).
Definition nn_list_item_init (a : Z) (h : lheap) : lheap := <[a := {| li_prev := NotIn; li_next := NotIn |}]> h.
Definition nn_list_item_term (a : Z) (h : lheap) : outcome unit :=
  olet! i := lread h a in nn_assert (negb (nn_list_item_isinlist i)).
Definition nn_list_insert (l : nn_list) (h : lheap) (item : Z) (it : link) : outcome (nn_list * lheap) :=
  olet! i := lread h item in
  olet! _ := nn_assert (negb (nn_list_item_isinlist i)) in
  olet! prev := (if bool_decide (it = Null) then Done (nl_last l)
                 else olet! a := follow it in olet! i := lread h a in Done (li_prev i)) in
  let h := <[item := {| li_prev := prev; li_next := it |}]> h in
  olet! h := (if bool_decide (prev = Null) then Done h else set_next prev (Item item) h) in
  olet! h := (if bool_decide (it = Null) then Done h else set_prev it (Item item) h) in
  Done ({| nl_first := if bool_decide (nl_first l = Null) || bool_decide (nl_first l = it) then Item item else nl_first l;
           nl_last := if bool_decide (it = Null) then Item item else nl_last l |}, h).
Definition nn_list_erase (l : nn_list) (h : lheap) (item : Z) : outcome (link * nn_list * lheap) :=
  olet! i := lread h item in
  olet! _ := nn_assert (nn_list_item_isinlist i) in
  olet! '(first, h) := (if bool_decide (li_prev i = Null) then Done (li_next i, h)
                        else olet! h := set_next (li_prev i) (li_next i) h in Done (nl_first l, h)) in
  olet! '(last, h) := (if bool_decide (li_next i = Null) then Done (li_prev i, h)
                       else olet! h := set_prev (li_next i) (li_prev i) h in Done (nl_last l, h)) in
  Done (li_next i, {| nl_first := first; nl_last := last |},
        <[item := {| li_prev := NotIn; li_next := NotIn |}]> h).

(** ** Queues: an item has the link to the next one only. *)
Record nn_queue := { q_head : link; q_tail : link }.
Abbreviation qheap := (gmap Z link).
Definition qread (h : qheap) (a : Z) : outcome link :=
  match h !! a with Some n => Done n | None => Fault UseAfterFree end.
Definition nn_queue_init : nn_queue := {| q_head := Null; q_tail := Null |}.
Definition nn_queue_term (q : nn_queue) : outcome unit :=
  olet! _ := nn_assert (bool_decide (q_head q = Null)) in nn_assert (bool_decide (q_tail q = Null)).
Definition nn_queue_empty (q : nn_queue) : bool := bool_decide (q_head q = Null).
Definition nn_queue_push (q : nn_queue) (h : qheap) (item : Z) : outcome (nn_queue * qheap) :=
  olet! n := qread h item in
  olet! _ := nn_assert (bool_decide (n = NotIn)) in
  let h := <[item := Null]> h in
  let head := if bool_decide (q_head q = Null) then Item item else q_head q in
  olet! h := (if bool_decide (q_tail q = Null) then Done h
              else olet! t := follow (q_tail q) in olet! _ := qread h t in Done (<[t := Item item]> h)) in
  Done ({| q_head := head; q_tail := Item item |}, h).
Definition nn_queue_pop (q : nn_queue) (h : qheap) : outcome (link * nn_queue * qheap) :=
  if bool_decide (q_head q = Null) then Done (Null, q, h)
  else
    olet! r := follow (q_head q) in
    olet! n := qread h r in
    Done (Item r, {| q_head := n; q_tail := if bool_decide (n = Null) then Null else q_tail q |}, <[r := NotIn]> h).
Definition nn_queue_item_init (a : Z) (h : qheap) : qheap := <[a := NotIn]> h.
Definition nn_queue_item_term (a : Z) (h : qheap) : outcome unit :=
  olet! n := qread h a in nn_assert (bool_decide (n = NotIn)).
Definition nn_queue_item_isinqueue (n : link) : bool := bool_decide (n <> NotIn).

(** ** The sequence a list holds *)
Definition hlink (l : list Z) : link := match l with [] => Null | a :: _ => Item a end.
Definition tlink (l : list Z) : link := match list.last l with None => Null | Some a => Item a end.
Definition links (h : lheap) (xs : list Z) : Prop :=
  forall p a q, xs = p ++ a :: q -> h !! a = Some {| li_prev := tlink p; li_next := hlink q |}.
Record lrep (h : lheap) (l : nn_list) (xs : list Z) : Prop := {
  lp_nodup : NoDup xs;
  lp_first : nl_first l = hlink xs;
  lp_last : nl_last l = tlink xs;
  lp_links : links h xs
}.
(** An item that is in no list *)
Definition loose (h : lheap) (a : Z) : Prop := h !! a = Some {| li_prev := NotIn; li_next := NotIn |}.

Lemma tlink_snoc l a : tlink (l ++ [a]) = Item a.
Proof. unfold tlink. by rewrite last_snoc. Qed.
Lemma tlink_app l k : k <> [] -> tlink (l ++ k) = tlink k.
Proof.
  intros Hk. destruct (exists_last Hk) as (k' & a & ->). by rewrite app_assoc, !tlink_snoc.
Qed.
Lemma hlink_app l k : l <> [] -> hlink (l ++ k) = hlink l.
Proof. by destruct l. Qed.
Lemma hlink_in l : hlink l <> NotIn.
Proof. by destruct l. Qed.
Lemma tlink_in l : tlink l <> NotIn.
Proof. unfold tlink. by destruct (list.last l). Qed.
Lemma links_ext h h' xs : links h xs -> (forall a, a ∈ xs -> h' !! a = h !! a) -> links h' xs.
Proof. intros H He p a q ->. rewrite He by set_solver. by apply H. Qed.
Lemma lrep_ext h h' l xs : lrep h l xs -> (forall a, a ∈ xs -> h' !! a = h !! a) -> lrep h' l xs.
Proof. intros [] He. constructor; try done. by eapply links_ext. Qed.

(** The links into the place between [p] and [q], set to [n] and [m] *)
Definition relink (p q : list Z) (n m : link) (h : lheap) : lheap :=
  let h := match list.last p with
           | Some y => alter (fun i => {| li_prev := li_prev i; li_next := n |}) y h
           | None => h
           end in
  match q with
  | y :: _ => alter (fun i => {| li_prev := m; li_next := li_next i |}) y h
  | [] => h
  end.
Lemma alter_insert_at (f : nn_list_item -> nn_list_item) (h : lheap) a i :
  h !! a = Some i -> alter f a h = <[a := f i]> h.
Proof.
  intros Ha. apply map_eq. intros b. destruct (decide (a = b)) as [<-|Hb].
  - by rewrite lookup_alter, Ha, lookup_insert, decide_True, !decide_True.
  - by rewrite lookup_alter_ne, lookup_insert_ne.
Qed.
Lemma set_next_ok h p n :
  (forall y, list.last p = Some y -> is_Some (h !! y)) ->
  (if bool_decide (tlink p = Null) then Done h else set_next (tlink p) n h) = Done (relink p [] n Null h).
Proof.
  intros Hp. unfold tlink, relink. destruct (list.last p) as [y|]; [|done].
  rewrite bool_decide_false by done. destruct (Hp y eq_refl) as [i Hi].
  unfold set_next, lread. cbn [follow obind]. rewrite Hi. cbn [obind]. by rewrite (alter_insert_at _ _ _ _ Hi).
Qed.
Lemma set_prev_ok h q n :
  (forall y, head q = Some y -> is_Some (h !! y)) ->
  (if bool_decide (hlink q = Null) then Done h else set_prev (hlink q) n h) = Done (relink [] q Null n h).
Proof.
  intros Hq. unfold hlink, relink. cbn [list.last]. destruct q as [|y q]; [done|].
  rewrite bool_decide_false by done. destruct (Hq y eq_refl) as [i Hi].
  unfold set_prev, lread. cbn [follow obind]. rewrite Hi. cbn [obind]. by rewrite (alter_insert_at _ _ _ _ Hi).
Qed.
Lemma relink_relink p q n m h : relink [] q Null m (relink p [] n Null h) = relink p q n m h.
Proof. done. Qed.
(** Where the place is not concerned *)
Lemma relink_other p q n m h a : list.last p <> Some a -> head q <> Some a -> relink p q n m h !! a = h !! a.
Proof.
  intros Hp Hq. unfold relink. destruct q as [|z q]; [|rewrite lookup_alter_ne by (by intros ->)];
    (destruct (list.last p) as [y|] eqn:E; [|done]); by rewrite lookup_alter_ne by (intros ->; done).
Qed.
Lemma relink_left p q y n m h :
  head q <> Some y -> relink (p ++ [y]) q n m h !! y = (fun i => {| li_prev := li_prev i; li_next := n |}) <$> h !! y.
Proof.
  intros Hq. unfold relink. rewrite last_snoc. destruct q as [|z q]; [|rewrite lookup_alter_ne by (by intros ->)];
    by rewrite lookup_alter, decide_True.
Qed.
Lemma relink_right p q y n m h :
  list.last p <> Some y -> relink p (y :: q) n m h !! y = (fun i => {| li_prev := m; li_next := li_next i |}) <$> h !! y.
Proof.
  intros Hp. unfold relink. rewrite lookup_alter, decide_True by done. f_equal.
  destruct (list.last p) as [z|] eqn:E; [|done]. by rewrite lookup_alter_ne by (intros ->; done).
Qed.

(** The links of the items before and after a place, [n] being the link that
    leads into it from the left and [m] from the right *)
Definition lefts (h : lheap) (p : list Z) (n : link) : Prop :=
  forall p' a r, p = p' ++ a :: r -> h !! a = Some {| li_prev := tlink p'; li_next := match r with [] => n | b :: _ => Item b end |}.
Definition rights (h : lheap) (q : list Z) (m : link) : Prop :=
  forall r a q', q = r ++ a :: q' ->
    h !! a = Some {| li_prev := match list.last r with None => m | Some b => Item b end; li_next := hlink q' |}.
Lemma links_split h p q : links h (p ++ q) <-> lefts h p (hlink q) /\ rights h q (tlink p).
Proof.
  split.
  - intros H. split.
    + intros p' a r ->. rewrite (H p' a (r ++ q)) by (by rewrite <- app_assoc). by destruct r.
    + intros r a q' ->. rewrite (H (p ++ r) a q') by (by rewrite <- app_assoc). do 2 f_equal.
      destruct r as [|b r] using rev_ind; [by rewrite app_nil_r|]. by rewrite app_assoc, last_snoc, tlink_snoc.
  - intros [Hl Hr] p' a q' E. apply app_eq_inv in E as [(k & -> & Ek)|(k & -> & ->)].
    + destruct k as [|b k]; cbn [app] in Ek.
      * subst q. rewrite (Hr [] a q' eq_refl). by rewrite app_nil_r.
      * injection Ek as -> ->. rewrite (Hl p' b k eq_refl). by destruct k.
    + rewrite (Hr k a q' eq_refl). do 2 f_equal.
      destruct k as [|b k] using rev_ind; [by rewrite app_nil_r|]. by rewrite app_assoc, last_snoc, tlink_snoc.
Qed.
Lemma links_mid h p x q :
  links h (p ++ x :: q) <->
  lefts h p (Item x) /\ h !! x = Some {| li_prev := tlink p; li_next := hlink q |} /\ rights h q (Item x).
Proof.
  rewrite links_split. cbn [hlink]. split.
  - intros [Hl Hr]. split_and!; [done|by apply (Hr [] x q)|].
    intros r a q' ->. rewrite (Hr (x :: r) a q') by done. rewrite last_cons. by destruct (list.last r).
  - intros (Hl & Hx & Hr). split; [done|]. intros [|b r] a q' E; cbn [app] in E; injection E as -> ->; [done|].
    rewrite (Hr r a q' eq_refl), last_cons. by destruct (list.last r).
Qed.
Lemma lefts_ext h h' p n : lefts h p n -> (forall a, a ∈ p -> h' !! a = h !! a) -> lefts h' p n.
Proof. intros H He p' a r E. rewrite He by (subst; set_solver). by apply H. Qed.
Lemma rights_ext h h' q m : rights h q m -> (forall a, a ∈ q -> h' !! a = h !! a) -> rights h' q m.
Proof. intros H He r a q' E. rewrite He by (subst; set_solver). by apply H. Qed.
Lemma head_elem (q : list Z) a : head q = Some a -> a ∈ q.
Proof. destruct q; [done|]. intros [= ->]. set_solver. Qed.
Lemma last_elem (p : list Z) a : list.last p = Some a -> a ∈ p.
Proof. intros (p' & ->)%last_Some. set_solver. Qed.
Lemma relink_lefts h p q n n' m : NoDup (p ++ q) -> lefts h p n -> lefts (relink p q n' m h) p n'.
Proof.
  intros (Hp & Hd & Hq)%NoDup_app H p' a r ->.
  assert (a ∉ q) by (apply Hd; set_solver).
  destruct r as [|b r].
  - rewrite relink_left by (intros Ha%head_elem; done). by rewrite (H p' a [] eq_refl).
  - rewrite relink_other; [by apply (H p' a (b :: r))| |by intros Ha%head_elem].
    intros (k & E)%last_Some. apply NoDup_app in Hp as (_ & _ & Hp). apply NoDup_cons in Hp as [Ha _].
    destruct (exists_last (l := b :: r)) as (r' & z & E'); [done|]. rewrite E', app_comm_cons, app_assoc in E.
    apply app_inj_tail in E as [_ ->]. rewrite E' in Ha. set_solver.
Qed.
Lemma relink_rights h p q n m m' : NoDup (p ++ q) -> rights h q m -> rights (relink p q n m' h) q m'.
Proof.
  intros (Hp & Hd & Hq)%NoDup_app H r a q' ->.
  assert (list.last p <> Some a) by (intros Ha%last_elem; apply (Hd a Ha); set_solver).
  destruct r as [|b r]; cbn [app].
  - rewrite relink_right by done. by rewrite (H [] a q' eq_refl).
  - rewrite relink_other; [rewrite (H (b :: r) a q' eq_refl), last_cons; by destruct (list.last r)|done|]. cbn [head]. intros [= ->].
    apply NoDup_cons in Hq as [Ha _]. set_solver.
Qed.
Lemma relink_frame p q n m h a : a ∉ p ++ q -> relink p q n m h !! a = h !! a.
Proof.
  rewrite not_elem_of_app. intros [Hp Hq]. apply relink_other; [by intros ?%last_elem|by intros ?%head_elem].
Qed.

(** ** Insertion before any place *)
Lemma list_insert_ok h l p q x :
  lrep h l (p ++ q) -> x ∉ p ++ q -> loose h x ->
  exists l' h', nn_list_insert l h x (hlink q) = Done (l', h') /\ lrep h' l' (p ++ x :: q) /\
    forall a, a ∉ p ++ x :: q -> h' !! a = h !! a.
Proof.
  intros [Hnd Hf Hl Hlk] Hx Hloose. pose proof (proj1 (links_split h p q) Hlk) as [Hlefts Hrights].
  unfold nn_list_insert, lread at 1, nn_list_item_isinlist. rewrite Hloose. cbn [obind li_prev].
  rewrite (bool_decide_eq_false_2 (NotIn <> NotIn)) by (intros H; by apply H). cbn [negb nn_assert obind].
  assert ((if bool_decide (hlink q = Null) then Done (nl_last l)
           else olet! a := follow (hlink q) in olet! i := lread h a in Done (li_prev i)) = Done (tlink p)) as ->.
  { destruct q as [|y q]; [rewrite app_nil_r in Hl; by rewrite Hl|]. cbn [hlink follow obind].
    rewrite bool_decide_false by done. unfold lread. by rewrite (Hrights [] y q eq_refl). }
  cbn [obind]. set (h1 := <[x := _]> h).
  assert (forall a, a ∈ p ++ q -> h1 !! a = h !! a) as H1 by (intros a Ha; unfold h1; rewrite lookup_insert_ne by set_solver; done).
  rewrite set_next_ok; [|intros y (p' & ->)%last_Some; rewrite H1 by set_solver; rewrite (Hlefts p' y [] eq_refl); by eexists].
  cbn [obind]. rewrite set_prev_ok, relink_relink; cycle 1.
  { intros y Hy. destruct q as [|z q]; [done|]. injection Hy as ->. rewrite relink_other; [|intros (p' & E)%last_Some|done].
    - rewrite H1 by set_solver. rewrite (Hrights [] y q eq_refl). by eexists.
    - rewrite E in Hnd. apply NoDup_app in Hnd as (_ & Hd & _). apply (Hd y); set_solver. }
  cbn [obind]. do 2 eexists. split; [done|]. split.
  - constructor; cbn.
    + apply NoDup_Permutation_proper with (x :: p ++ q); [by rewrite Permutation_middle|]. by constructor.
    + rewrite Hf. destruct p as [|y p]; cbn [app hlink]; [|rewrite !bool_decide_false; [done|..]].
      * destruct q as [|z q]; cbn [hlink]; [done|]. by rewrite (bool_decide_eq_true_2 (Item z = Item z)), orb_true_r.
      * destruct q as [|z q]; [done|]. cbn. intros [= ->]. apply NoDup_cons in Hnd as [Hn _]. set_solver.
      * done.
    + destruct q as [|z q]; cbn [hlink]; [by rewrite tlink_snoc|]. rewrite bool_decide_false by done.
      rewrite Hl. rewrite !(tlink_app p) by done. symmetry. by apply (tlink_app [x]).
    + apply links_mid. split_and!.
      * apply (relink_lefts _ _ _ (hlink q)); [done|]. eapply lefts_ext; [done|]. intros; apply H1; set_solver.
      * rewrite relink_frame by done. unfold h1. by rewrite lookup_insert, decide_True.
      * apply (relink_rights _ _ _ _ (tlink p)); [done|]. eapply rights_ext; [done|]. intros; apply H1; set_solver.
  - intros a Ha. rewrite relink_frame by set_solver. unfold h1. rewrite lookup_insert_ne by set_solver. done.
Qed.
(** ** Removal of any item *)
Lemma list_erase_ok h l p x q :
  lrep h l (p ++ x :: q) ->
  exists l' h', nn_list_erase l h x = Done (hlink q, l', h') /\ lrep h' l' (p ++ q) /\ loose h' x /\
    forall a, a ∉ p ++ x :: q -> h' !! a = h !! a.
Proof.
  intros [Hnd Hf Hl (Hlefts & Hx & Hrights)%links_mid].
  assert (NoDup (p ++ q) /\ x ∉ p ++ q) as [Hnd' Hxn].
  { rewrite <- Permutation_middle in Hnd. apply NoDup_cons in Hnd. tauto. }
  unfold nn_list_erase, lread at 1, nn_list_item_isinlist. rewrite Hx. cbn [obind li_prev li_next].
  rewrite bool_decide_eq_true_2 by apply tlink_in. cbn [nn_assert obind].
  assert ((if bool_decide (tlink p = Null) then Done (hlink q, h)
           else olet! h := set_next (tlink p) (hlink q) h in Done (nl_first l, h)) =
          Done (hlink (p ++ q), relink p [] (hlink q) Null h)) as ->.
  { pose proof (set_next_ok h p (hlink q)) as Hs. destruct p as [|y p]; [done|]. rewrite Hf. cbn [app hlink].
    unfold tlink in *. destruct (list.last (y :: p)) as [z|] eqn:E; [|by apply last_None in E].
    rewrite bool_decide_false in * by done. rewrite Hs; [done|]. intros w [= ->]. apply last_Some in E as (p' & E).
    rewrite (Hlefts p' w [] E). by eexists. }
  cbn [obind].
  assert (forall h1, (forall y, head q = Some y -> is_Some (h1 !! y)) ->
    (if bool_decide (hlink q = Null) then Done (tlink p, h1)
     else olet! h := set_prev (hlink q) (tlink p) h1 in Done (nl_last l, h)) =
    Done (tlink (p ++ q), relink [] q Null (tlink p) h1)) as Hset.
  { intros h1 Hh1. pose proof (set_prev_ok h1 q (tlink p) Hh1) as Hs. destruct q as [|y q]; [by rewrite app_nil_r|].
    cbn [hlink] in *. rewrite bool_decide_false in * by done. rewrite Hs, Hl. cbn [obind].
    by rewrite !(tlink_app p). }
  rewrite Hset; clear Hset; cycle 1.
  { intros y Hy. destruct q as [|z q]; [done|]. injection Hy as ->. rewrite relink_other; [|intros Hin%last_elem|done].
    - rewrite (Hrights [] y q eq_refl). by eexists.
    - apply NoDup_app in Hnd' as (_ & Hd & _). apply (Hd y); set_solver. }
  rewrite relink_relink. cbn [obind]. do 2 eexists. split; [done|]. split_and!.
  - constructor; cbn; [done|done|done|]. apply links_split. split.
    + eapply lefts_ext; [by apply (relink_lefts h p q (Item x) (hlink q) (tlink p))|]. intros a Ha. rewrite lookup_insert_ne by set_solver. done.
    + eapply rights_ext; [by apply (relink_rights h p q (hlink q) (Item x) (tlink p))|]. intros a Ha. rewrite lookup_insert_ne by set_solver. done.
  - unfold loose. by rewrite lookup_insert, decide_True.
  - intros a Ha. rewrite lookup_insert_ne by set_solver. apply relink_frame. set_solver.
Qed.
Lemma list_next_ok h l p x q :
  lrep h l (p ++ x :: q) -> nn_list_next l h (Item x) = Done (hlink q).
Proof.
  intros [_ _ _ Hlk]. unfold nn_list_next, lread. cbn [follow obind]. rewrite (Hlk p x q eq_refl). cbn [obind li_next].
  by rewrite bool_decide_eq_true_2 by apply hlink_in.
Qed.
Lemma list_empty_ok h l xs : lrep h l xs -> nn_list_empty l = bool_decide (xs = []).
Proof. intros [_ Hf _ _]. unfold nn_list_empty. rewrite Hf. by destruct xs. Qed.
Lemma list_init_ok h : lrep h nn_list_init [].
Proof. constructor; [constructor|done|done|]. intros p a q E. by destruct p. Qed.

(** ** Queues refine sequences: the first in is the first out. *)
Record qrep (h : qheap) (q : nn_queue) (xs : list Z) : Prop := {
  qr_nodup : NoDup xs;
  qr_head : q_head q = hlink xs;
  qr_tail : q_tail q = tlink xs;
  qr_links : forall p a r, xs = p ++ a :: r -> h !! a = Some (hlink r)
}.
Lemma queue_push_ok h q xs x :
  qrep h q xs -> x ∉ xs -> h !! x = Some NotIn ->
  exists q' h', nn_queue_push q h x = Done (q', h') /\ qrep h' q' (xs ++ [x]) /\
    forall a, a ∉ xs ++ [x] -> h' !! a = h !! a.
Proof.
  intros [Hnd Hh Ht Hlk] Hx Hn. unfold nn_queue_push, qread at 1. rewrite Hn. cbn [obind].
  rewrite bool_decide_eq_true_2 by done. cbn [nn_assert obind]. rewrite Hh, Ht.
  destruct xs as [|y xs _] using rev_ind.
  - do 2 eexists. split; [done|]. split.
    + constructor; cbn; [by apply NoDup_singleton|done|done|]. intros [|? p] a r [= -> E]; [subst r|by destruct p].
      by rewrite lookup_insert, decide_True.
    + intros a Ha. rewrite lookup_insert_ne by set_solver. done.
  - rewrite tlink_snoc. rewrite (bool_decide_eq_false_2 (Item y = Null)) by done. cbn [follow obind].
    unfold qread. rewrite lookup_insert_ne by set_solver. rewrite (Hlk xs y [] eq_refl). cbn [obind].
    do 2 eexists. split; [done|]. split.
    + constructor; cbn [q_head q_tail].
      * apply NoDup_app. split; [done|]. split; [set_solver|apply NoDup_singleton].
      * by destruct xs.
      * by rewrite tlink_snoc.
      * intros p a r E. destruct r as [|b r _] using rev_ind.
        { apply app_inj_tail in E as [<- <-]. rewrite lookup_insert_ne by set_solver. by rewrite lookup_insert, decide_True. }
        rewrite app_comm_cons, app_assoc in E. apply app_inj_tail in E as [E ->].
        destruct r as [|c r _] using rev_ind.
        { apply app_inj_tail in E as [-> ->]. by rewrite lookup_insert, decide_True. }
        rewrite app_comm_cons, app_assoc in E. apply app_inj_tail in E as [E ->].
        assert (a ∈ xs) by (rewrite E; set_solver). apply NoDup_app in Hnd as (_ & Hd & _).
        rewrite !lookup_insert_ne by (intros Heq; set_solver).
        rewrite (Hlk p a (r ++ [c])) by (by rewrite E, <- app_assoc). by destruct r.
    + intros a Ha. rewrite !lookup_insert_ne by set_solver. done.
Qed.
Lemma queue_pop_ok h q x xs :
  qrep h q (x :: xs) ->
  exists q' h', nn_queue_pop q h = Done (Item x, q', h') /\ qrep h' q' xs /\ h' !! x = Some NotIn /\
    forall a, a ∉ x :: xs -> h' !! a = h !! a.
Proof.
  intros [Hnd Hh Ht Hlk]. unfold nn_queue_pop. rewrite Hh. cbn [hlink]. rewrite bool_decide_false by done.
  cbn [follow obind]. unfold qread. rewrite (Hlk [] x xs eq_refl). cbn [obind].
  apply NoDup_cons in Hnd as [Hx Hnd]. do 2 eexists. split; [done|]. split_and!.
  - constructor; cbn [q_head q_tail]; [done|done| |].
    + destruct xs as [|y xs]; [done|]. cbn [hlink]. rewrite bool_decide_false, Ht by done. by apply (tlink_app [x]).
    + intros p a r ->. rewrite lookup_insert_ne by set_solver. by apply (Hlk (x :: p)).
  - by rewrite lookup_insert, decide_True.
  - intros a Ha. rewrite lookup_insert_ne by set_solver. done.
Qed.
