(* ===== verification/Msgqueue.v ===== *)
(** * Msgqueue: the message queue of nanomsg's in-process transport

    lib/nanomsg/src/transports/inproc/msgqueue.c.  The messages FineDB's
    threads exchange go through this queue: chunks of 126 messages linked in a
    heap, written at one end and read at the other, one empty chunk being kept
    for reuse.  A message is its header and its body; moving one
    ([nn_msg_mv]) leaves its source uninitialised. *)
From S2P Require Import Prelude.

(** ** Data *)
Record nn_msg := { msg_hdr : bytes; msg_body : bytes }.
Definition msg_size (m : nn_msg) : Z := u64 (lenZ (msg_hdr m) + lenZ (msg_body m)).
Definition NN_MSGQUEUE_GRANULARITY : Z := 126.
Definition EAGAIN : Z := 11.
Record nn_msgqueue_chunk := {
  mc_msgs : list (option nn_msg);       (* [None]: not initialised *)
  mc_next : option Z
}.
Record nn_msgqueue := {
  mq_out_chunk : Z; mq_out_pos : Z;
  mq_in_chunk : Z; mq_in_pos : Z;
  mq_count : Z;
  mq_mem : Z;
  mq_maxmem : Z;
  mq_cache : option Z
}.
(** The chunks, the next address [nn_alloc] returns, and whether it succeeds *)
Record mheap := { mh_chunks : gmap Z nn_msgqueue_chunk; mh_brk : Z; mh_alloc : list bool }.
Abbreviation mstate := (nn_msgqueue * mheap)%type.

(** [nn_alloc] followed by [alloc_assert]; the new chunk's [next] is set to
    [NULL] by both callers. *)
Definition chunk_alloc (h : mheap) : outcome (Z * mheap) :=
  let '(ok, a) := script_next true (mh_alloc h) in
  if ok : bool then
    Done (mh_brk h, {| mh_chunks := <[mh_brk h := {| mc_msgs := replicate (Z.to_nat NN_MSGQUEUE_GRANULARITY) None; mc_next := None |}]>
                                      (mh_chunks h);
                       mh_brk := mh_brk h + 1; mh_alloc := a |})
  else Fault AssertFailed.
Definition chunk_read (a : Z) (h : mheap) : outcome nn_msgqueue_chunk :=
  match mh_chunks h !! a with Some c => Done c | None => Fault UseAfterFree end.
Definition chunk_write (a : Z) (c : nn_msgqueue_chunk) (h : mheap) : mheap :=
  {| mh_chunks := <[a := c]> (mh_chunks h); mh_brk := mh_brk h; mh_alloc := mh_alloc h |}.
Definition chunk_free (a : Z) (h : mheap) : outcome mheap :=
  olet! _ := chunk_read a h in
  Done {| mh_chunks := delete a (mh_chunks h); mh_brk := mh_brk h; mh_alloc := mh_alloc h |}.
(** A slot of a chunk *)
Definition slot_set (i : Z) (m : option nn_msg) (c : nn_msgqueue_chunk) : outcome nn_msgqueue_chunk :=
  if (0 <=? i) && (i <? lenZ (mc_msgs c))
  then Done {| mc_msgs := <[Z.to_nat i := m]> (mc_msgs c); mc_next := mc_next c |} else Fault HeapOverflow.
Definition slot_get (i : Z) (c : nn_msgqueue_chunk) : outcome nn_msg :=
  match mc_msgs c !! Z.to_nat i with
  | Some (Some m) => Done m
  | Some None => Fault UseAfterFree
  | None => Fault HeapOverflow
  end.

(** ** Operations *)
Definition nn_msgqueue_init (maxmem : Z) (h : mheap) : outcome mstate :=
  olet! '(a, h) := chunk_alloc h in
  Done ({| mq_out_chunk := a; mq_out_pos := 0; mq_in_chunk := a; mq_in_pos := 0;
           mq_count := 0; mq_mem := 0; mq_maxmem := maxmem; mq_cache := None |}, h).
Definition nn_msgqueue_empty (q : nn_msgqueue) : Z := if mq_count q =? 0 then 1 else 0.
(** The next chunk for the writer: the cached one, or a new one *)
Definition writer_chunk (cache : option Z) (h : mheap) : outcome (Z * mheap) :=
  match cache with
  | Some a => Done (a, h)
  | None => chunk_alloc h
  end.
Definition nn_msgqueue_send (m : nn_msg) (s : mstate) : outcome (Z * mstate) :=
  let '(q, h) := s in
  let msgsz := msg_size m in
  if (0 <? mq_count q) && (mq_maxmem q <=? u64 (mq_mem q + msgsz)) then Done (- EAGAIN, s)
  else
    let count := mq_count q + 1 in
    let mem := u64 (mq_mem q + msgsz) in
    olet! c := chunk_read (mq_out_chunk q) h in
    olet! c := slot_set (mq_out_pos q) (Some m) c in
    let h := chunk_write (mq_out_chunk q) c h in
    let pos := mq_out_pos q + 1 in
    if pos =? NN_MSGQUEUE_GRANULARITY then
      olet! '(a, h) := writer_chunk (mq_cache q) h in
      olet! c := chunk_read (mq_out_chunk q) h in
      let h := chunk_write (mq_out_chunk q) {| mc_msgs := mc_msgs c; mc_next := Some a |} h in
      Done (0, ({| mq_out_chunk := a; mq_out_pos := 0; mq_in_chunk := mq_in_chunk q; mq_in_pos := mq_in_pos q;
                   mq_count := count; mq_mem := mem; mq_maxmem := mq_maxmem q; mq_cache := None |}, h))
    else
      Done (0, ({| mq_out_chunk := mq_out_chunk q; mq_out_pos := pos; mq_in_chunk := mq_in_chunk q; mq_in_pos := mq_in_pos q;
                   mq_count := count; mq_mem := mem; mq_maxmem := mq_maxmem q; mq_cache := mq_cache q |}, h)).
Definition nn_msgqueue_recv (s : mstate) : outcome (Z * option nn_msg * mstate) :=
  let '(q, h) := s in
  if mq_count q =? 0 then Done (- EAGAIN, None, s)
  else
    olet! c := chunk_read (mq_in_chunk q) h in
    olet! m := slot_get (mq_in_pos q) c in
    olet! c := slot_set (mq_in_pos q) None c in
    let h := chunk_write (mq_in_chunk q) c h in
    let pos := mq_in_pos q + 1 in
    olet! '(chunk, pos, cache, h) :=
      (if pos =? NN_MSGQUEUE_GRANULARITY then
         olet! next := (match mc_next c with Some n => Done n | None => Fault NullDeref end) in
         match mq_cache q with
         | None => Done (next, 0, Some (mq_in_chunk q), h)
         | Some a => olet! h := chunk_free (mq_in_chunk q) h in Done (next, 0, Some a, h)
         end
       else Done (mq_in_chunk q, pos, mq_cache q, h)) in
    Done (0, Some m,
          ({| mq_out_chunk := mq_out_chunk q; mq_out_pos := mq_out_pos q; mq_in_chunk := chunk; mq_in_pos := pos;
              mq_count := mq_count q - 1; mq_mem := u64 (mq_mem q - msg_size m); mq_maxmem := mq_maxmem q; mq_cache := cache |}, h)).
(** [while (1) { rc = recv; if (rc == -EAGAIN) break; ... }] *)
Fixpoint drain (fuel : nat) (s : mstate) : outcome mstate :=
  olet! '(rc, _, s') := nn_msgqueue_recv s in
  if rc =? - EAGAIN then Done s'
  else match fuel with O => Fault OutOfFuel | S fuel => drain fuel s' end.
Definition nn_msgqueue_term (s : mstate) : outcome mheap :=
  olet! '(q, h) := drain (Z.to_nat (mq_count (fst s))) s in
  if mq_in_chunk q =? mq_out_chunk q then
    olet! h := chunk_free (mq_in_chunk q) h in
    match mq_cache q with
    | Some a => chunk_free a h
    | None => Done h
    end
  else Fault AssertFailed.

(** ** The abstract queue: a sequence of messages within a bound *)
Inductive mop := Msend (m : nn_msg) | Mrecv.
Inductive mres := Rsent (ok : bool) | Rgot (m : option nn_msg).
Definition total (xs : list nn_msg) : Z := foldr (fun m n => msg_size m + n) 0 xs.
Definition mop_spec (maxmem : Z) (o : mop) (xs : list nn_msg) : mres * list nn_msg :=
  match o with
  | Msend m =>
      match xs with
      | [] => (Rsent true, [m])
      | _ => if total xs + msg_size m <? maxmem then (Rsent true, xs ++ [m]) else (Rsent false, xs)
      end
  | Mrecv => match xs with [] => (Rgot None, []) | m :: xs => (Rgot (Some m), xs) end
  end.
Definition mop_run (o : mop) (s : mstate) : outcome (mres * mstate) :=
  match o with
  | Msend m => olet! '(rc, s) := nn_msgqueue_send m s in Done (Rsent (rc =? 0), s)
  | Mrecv => olet! '(rc, m, s) := nn_msgqueue_recv s in Done (Rgot (if rc =? 0 then m else None), s)
  end.
Fixpoint mops_spec (maxmem : Z) (os : list mop) (xs : list nn_msg) : list mres * list nn_msg :=
  match os with
  | [] => ([], xs)
  | o :: os => let '(r, xs) := mop_spec maxmem o xs in let '(rs, xs) := mops_spec maxmem os xs in (r :: rs, xs)
  end.
Fixpoint mops_run (os : list mop) (s : mstate) : outcome (list mres * mstate) :=
  match os with
  | [] => Done ([], s)
  | o :: os => olet! '(r, s) := mop_run o s in olet! '(rs, s) := mops_run os s in Done (r :: rs, s)
  end.

(** ** The chunks hold the sequence *)
Abbreviation cheap := (gmap Z nn_msgqueue_chunk).
Definition full_size (c : nn_msgqueue_chunk) : Prop := lenZ (mc_msgs c) = NN_MSGQUEUE_GRANULARITY.
(** The chunks [p], linked up to the chunk [a], hold the slots [f]. *)
Fixpoint linked (h : cheap) (p : list Z) (a : Z) (f : list (option nn_msg)) : Prop :=
  match p with
  | [] => f = []
  | b :: p' => exists c f', h !! b = Some c /\ full_size c /\ mc_next c = Some (hd a p') /\
                            f = mc_msgs c ++ f' /\ linked h p' a f'
  end.
Record mrep (s : mstate) (xs : list nn_msg) : Prop := {
  mr_slots : exists p f c pre post,
    linked (mh_chunks (snd s)) p (mq_out_chunk (fst s)) f /\
    mh_chunks (snd s) !! mq_out_chunk (fst s) = Some c /\ full_size c /\
    NoDup (mq_out_chunk (fst s) :: p) /\ mq_in_chunk (fst s) = hd (mq_out_chunk (fst s)) p /\
    f ++ mc_msgs c = pre ++ map Some xs ++ post /\ lenZ pre = mq_in_pos (fst s) /\
    lenZ post = NN_MSGQUEUE_GRANULARITY - mq_out_pos (fst s) /\
    (forall b, mq_cache (fst s) = Some b -> b ∉ mq_out_chunk (fst s) :: p);
  mr_in : 0 <= mq_in_pos (fst s) < NN_MSGQUEUE_GRANULARITY;
  mr_out : 0 <= mq_out_pos (fst s) < NN_MSGQUEUE_GRANULARITY;
  mr_count : mq_count (fst s) = lenZ xs;
  mr_mem : mq_mem (fst s) = total xs;
  mr_total : total xs < 2 ^ 63;
  mr_cache : forall b, mq_cache (fst s) = Some b -> exists c, mh_chunks (snd s) !! b = Some c /\ full_size c;
  mr_fresh : forall b, is_Some (mh_chunks (snd s) !! b) -> b < mh_brk (snd s);
  mr_alloc : mh_alloc (snd s) = []
}.
Lemma msg_size_bound m : 0 <= msg_size m < 2 ^ 64.
Proof. by apply wrap_bound. Qed.
Lemma total_nonneg xs : 0 <= total xs.
Proof. induction xs as [|m xs IH]; cbn; [done|]. pose proof (msg_size_bound m). unfold total in IH. lia. Qed.
Lemma total_app xs ys : total (xs ++ ys) = total xs + total ys.
Proof. unfold total. induction xs as [|m xs IH]; cbn; [done|]. rewrite IH. lia. Qed.
Lemma linked_ext h h' p a f : linked h p a f -> (forall b, b ∈ p -> h' !! b = h !! b) -> linked h' p a f.
Proof.
  revert f. induction p as [|b p IH]; intros f; cbn [linked]; [done|].
  intros (c & f' & Hb & Hf & Hn & -> & Hl) He. exists c, f'. rewrite He by set_solver. split_and!; try done.
  apply IH; [done|]. intros; apply He; set_solver.
Qed.
Lemma linked_snoc h p a f c b :
  linked h p a f -> h !! a = Some c -> full_size c -> mc_next c = Some b -> linked h (p ++ [a]) b (f ++ mc_msgs c).
Proof.
  revert f. induction p as [|d p IH]; intros f; cbn [linked app].
  - intros -> Ha Hc Hn. exists c, []. split_and!; try done. by rewrite app_nil_r.
  - intros (cd & f' & Hd & Hf & Hnext & -> & Hl) Ha Hc Hn. exists cd, (f' ++ mc_msgs c). split_and!; try done.
    + rewrite Hnext. by destruct p.
    + by rewrite app_assoc.
    + by apply IH.
Qed.
Lemma linked_len h p a f : linked h p a f -> lenZ f = NN_MSGQUEUE_GRANULARITY * lenZ p.
Proof.
  revert f. induction p as [|d p IH]; intros f; cbn [linked]; [by intros ->|].
  intros (c & f' & _ & Hf & _ & -> & Hl). rewrite lenZ_app, lenZ_cons, (IH _ Hl), Hf. lia.
Qed.
Lemma slot_set_ok (l1 l2 : list (option nn_msg)) x m n :
  slot_set (lenZ l1) m {| mc_msgs := l1 ++ x :: l2; mc_next := n |} = Done {| mc_msgs := l1 ++ m :: l2; mc_next := n |}.
Proof.
  unfold slot_set. cbn [mc_msgs mc_next]. rewrite (proj2 (Z.leb_le _ _)), (proj2 (Z.ltb_lt _ _)) by lens. cbn [andb].
  do 2 f_equal. unfold lenZ. rewrite Nat2Z.id. replace (length l1) with (length l1 + 0)%nat by lia. by rewrite insert_app_r.
Qed.
Lemma slot_get_ok (l1 l2 : list (option nn_msg)) m n :
  slot_get (lenZ l1) {| mc_msgs := l1 ++ Some m :: l2; mc_next := n |} = Done m.
Proof.
  unfold slot_get. cbn [mc_msgs]. unfold lenZ. rewrite Nat2Z.id, lookup_app_r, Nat.sub_diag by lia. done.
Qed.
(** Where the writer's slot is *)
Lemma writer_slot {A} (f l pre post : list A) (xs : list A) pos :
  f ++ l = pre ++ xs ++ post -> lenZ l = NN_MSGQUEUE_GRANULARITY -> lenZ post = NN_MSGQUEUE_GRANULARITY - pos ->
  0 <= pos < NN_MSGQUEUE_GRANULARITY ->
  exists l1 x post', l = l1 ++ x :: post' /\ post = x :: post' /\ lenZ l1 = pos /\ f ++ l1 = pre ++ xs.
Proof.
  intros E Hl Hp Hpos. destruct post as [|x post']; [rewrite lenZ_nil in Hp; lia|].
  exists (takeZ pos l), x, post'.
  assert (f ++ takeZ pos l = pre ++ xs /\ dropZ pos l = x :: post') as [H1 H2].
  { apply app_inj_2; [unfold dropZ; rewrite length_drop; unfold lenZ in *; lia|].
    by rewrite <- !app_assoc, takeZ_dropZ. }
  split_and!; [by rewrite <- H2, takeZ_dropZ|done|apply lenZ_takeZ; lia|done].
Qed.

(** ** Sending *)
Lemma chunk_read_ok a h c : mh_chunks h !! a = Some c -> chunk_read a h = Done c.
Proof. intros H. unfold chunk_read. by rewrite H. Qed.
(** A chunk for the writer, apart from those in use *)
Lemma writer_chunk_ok q h (used : list Z) :
  (forall b, mq_cache q = Some b -> b ∉ used /\ exists c, mh_chunks h !! b = Some c /\ full_size c) ->
  (forall b, b ∈ used -> is_Some (mh_chunks h !! b)) ->
  (forall b, is_Some (mh_chunks h !! b) -> b < mh_brk h) -> mh_alloc h = [] ->
  exists a c h', writer_chunk (mq_cache q) h = Done (a, h') /\ a ∉ used /\ mh_chunks h' !! a = Some c /\ full_size c /\
    (forall b, b ∈ used -> mh_chunks h' !! b = mh_chunks h !! b) /\
    (forall b, is_Some (mh_chunks h' !! b) -> b < mh_brk h') /\ mh_alloc h' = [].
Proof.
  intros Hcache Hused Hfresh Hal. destruct (mq_cache q) as [b|] eqn:E; cbn [writer_chunk].
  - destruct (Hcache b eq_refl) as (Hn & c & Hc & Hf). by exists b, c, h.
  - unfold chunk_alloc. rewrite Hal. cbn [script_next]. do 3 eexists. split; [done|]. cbn [mh_chunks mh_brk mh_alloc].
    assert (mh_brk h ∉ used) as Hn by (intros Hu%Hused%Hfresh; lia). split_and!; try done.
    + by rewrite lookup_insert, decide_True.
    + done.
    + intros b Hb. rewrite lookup_insert_ne; [done|]. by intros <-.
    + intros b Hb. destruct (decide (b = mh_brk h)) as [->|Hne]; [lia|].
      rewrite lookup_insert_ne in Hb by done. apply Hfresh in Hb. lia.
Qed.
Lemma linked_mem h p a f : linked h p a f -> forall b, b ∈ p -> is_Some (h !! b).
Proof.
  revert f. induction p as [|d p IH]; intros f; cbn [linked]; [set_solver|].
  intros (c & f' & Hd & _ & _ & _ & Hl) b [->|Hb]%elem_of_cons; [by eexists|by eapply IH].
Qed.
(** The slot the message goes to, and the chunks once it is there *)
Lemma store_ok q h xs m :
  mrep (q, h) xs ->
  exists p f c c' pre post, let h1 := chunk_write (mq_out_chunk q) c' h in
    chunk_read (mq_out_chunk q) h = Done c /\ slot_set (mq_out_pos q) (Some m) c = Done c' /\
    linked (mh_chunks h1) p (mq_out_chunk q) f /\ mh_chunks h1 !! mq_out_chunk q = Some c' /\ full_size c' /\
    NoDup (mq_out_chunk q :: p) /\ mq_in_chunk q = hd (mq_out_chunk q) p /\
    f ++ mc_msgs c' = pre ++ map Some (xs ++ [m]) ++ post /\ lenZ pre = mq_in_pos q /\
    lenZ post = NN_MSGQUEUE_GRANULARITY - (mq_out_pos q + 1) /\
    (forall b, mq_cache q = Some b -> b ∉ mq_out_chunk q :: p /\ exists c0, mh_chunks h1 !! b = Some c0 /\ full_size c0) /\
    (forall b, is_Some (mh_chunks h1 !! b) -> b < mh_brk h1).
Proof.
  intros [(p & f & c & pre & post & Hlk & Hc & Hfull & Hnd & Hin & Hslots & Hpre & Hpost & Hcd) Hip Hop _ _ _ Hcache Hfresh _].
  cbn [fst snd] in *.
  destruct (writer_slot _ _ _ _ _ _ Hslots Hfull Hpost Hop) as (l1 & x & post' & Hl & -> & Hl1 & Hcells).
  destruct c as [cm cn]. cbn [mc_msgs] in *. subst cm. set (out := mq_out_chunk q) in *.
  set (c' := {| mc_msgs := l1 ++ Some m :: post'; mc_next := cn |}).
  exists p, f, {| mc_msgs := l1 ++ x :: post'; mc_next := cn |}, c', pre, post'. pose proof Hnd as [Hout _]%NoDup_cons.
  split_and!; try done.
  - by apply chunk_read_ok.
  - rewrite <- Hl1. apply slot_set_ok.
  - eapply linked_ext; [done|]. intros b Hb. cbn. rewrite lookup_insert_ne; [done|]. by intros <-.
  - cbn. by rewrite lookup_insert, decide_True.
  - unfold full_size in *; cbn [c' mc_msgs] in *; lens.
  - cbn [c' mc_msgs]. rewrite map_app, app_assoc, Hcells, <- !app_assoc. done.
  - lens.
  - intros b Hb. pose proof (Hcd b Hb). split; [done|]. cbn. rewrite lookup_insert_ne by set_solver. by apply Hcache.
  - intros b Hb. apply Hfresh. cbn in Hb. destruct (decide (b = out)) as [->|Hne]; [by eexists|]. by rewrite lookup_insert_ne in Hb.
Qed.
Lemma send_ok q h xs m :
  mrep (q, h) xs -> total xs + msg_size m < 2 ^ 63 -> (xs = [] \/ total xs + msg_size m < mq_maxmem q) ->
  exists s', nn_msgqueue_send m (q, h) = Done (0, s') /\ mrep s' (xs ++ [m]) /\ mq_maxmem (fst s') = mq_maxmem q.
Proof.
  intros Hr Hsz Hroom. destruct (store_ok q h xs m Hr)
    as (p & f & c & c' & pre & post & Hread & Hset & Hlk & Hc & Hfull & Hnd & Hin & Hcells & Hpre & Hpost & Hcch & Hbelow).
  destruct Hr as [_ Hip Hop Hcount Hmem _ _ _ Hal]. cbn [fst snd] in *.
  unfold nn_msgqueue_send. rewrite Hcount, Hmem. pose proof (total_nonneg xs). pose proof (msg_size_bound m).
  assert (Htotal : total (xs ++ [m]) = total xs + msg_size m) by (rewrite total_app; cbn; lia).
  rewrite wrap_small by lia.
  assert ((0 <? lenZ xs) && (mq_maxmem q <=? total xs + msg_size m) = false) as ->.
  { destruct Hroom as [->|Hroom]; [done|]. rewrite (proj2 (Z.leb_gt _ _)) by lia. by rewrite andb_false_r. }
  rewrite Hread. cbn [obind]. rewrite Hset. cbn [obind]. set (out := mq_out_chunk q) in *. set (h1 := chunk_write out c' h) in *.
  destruct (Z.eqb_spec (mq_out_pos q + 1) NN_MSGQUEUE_GRANULARITY) as [Hlast|Hmore].
  - destruct (writer_chunk_ok q h1 (out :: p) Hcch) as (a & ca & h2 & Hw & Ha & Hca & Hfa & Hsame & Hbelow2 & Hal2);
      [intros b [->|Hb]%elem_of_cons; [by eexists|by eapply linked_mem]|done|done|].
    assert (post = []) as -> by (apply lenZ_zero_nil; lia).
    rewrite Hw. cbn [obind]. rewrite (chunk_read_ok out h2 c') by (rewrite Hsame by set_solver; done). cbn [obind].
    eexists. split; [done|]. split; [|done].
    constructor; cbn [fst snd mq_in_pos mq_out_pos mq_count mq_mem mq_cache mh_chunks mh_brk mh_alloc chunk_write]; try done; try lens; try lia.
    + exists (p ++ [out]), (f ++ mc_msgs c'), ca, pre, (mc_msgs ca). apply NoDup_cons in Hnd as [Hout Hnd].
      cbn [mq_out_chunk mq_in_chunk mq_in_pos mq_out_pos mq_cache mc_next].
      split_and!; [|by rewrite lookup_insert_ne by set_solver|done| | |by rewrite Hcells, app_nil_r, <- app_assoc|done|rewrite Hfa; lia|done].
      * apply (linked_snoc _ _ _ _ {| mc_msgs := mc_msgs c'; mc_next := Some a |});
          [|by rewrite lookup_insert, decide_True|done|done].
        eapply linked_ext; [done|]. intros b Hb. rewrite lookup_insert_ne by (intros <-; done). apply Hsame. set_solver.
      * apply NoDup_cons. split; [set_solver|]. apply NoDup_app. split; [done|]. split; [set_solver|apply NoDup_singleton].
      * rewrite Hin. by destruct p.
    + intros b Hb. apply Hbelow2. destruct (decide (b = out)) as [->|Hne]; [rewrite Hsame by set_solver; by eexists|].
      by rewrite lookup_insert_ne in Hb.
  - eexists. split; [done|]. split; [|done].
    constructor; cbn [fst snd mq_in_pos mq_out_pos mq_count mq_mem mq_cache]; try done; try lens; try lia.
    + exists p, f, c', pre, post. split_and!; try done. intros b Hb. by apply Hcch.
    + intros b Hb. by apply Hcch.
Qed.

(** ** Receiving *)
Lemma reader_slot {A} (l g pre rest : list A) x :
  l ++ g = pre ++ x :: rest -> lenZ pre < lenZ l -> exists r, l = pre ++ x :: r /\ r ++ g = rest.
Proof.
  intros E Hl. apply app_eq_inv in E as [(k & -> & E)|(k & -> & E)].
  - destruct k as [|y k]; [rewrite app_nil_r in Hl; lia|]. injection E as -> ->. by exists k.
  - rewrite lenZ_app in Hl. pose proof (lenZ_nonneg k). lia.
Qed.
(** The chunk read from, and the chunks once its message is taken *)
Lemma take_ok q h m xs :
  mrep (q, h) (m :: xs) ->
  exists p f c cb pre r post,
    chunk_read (mq_in_chunk q) h = Done cb /\ slot_get (mq_in_pos q) cb = Done m /\
    mc_msgs cb = pre ++ Some m :: r /\ lenZ pre = mq_in_pos q /\ full_size cb /\
    slot_set (mq_in_pos q) None cb = Done {| mc_msgs := pre ++ None :: r; mc_next := mc_next cb |} /\
    linked (mh_chunks h) p (mq_out_chunk q) f /\ mh_chunks h !! mq_out_chunk q = Some c /\ full_size c /\
    NoDup (mq_out_chunk q :: p) /\ lenZ post = NN_MSGQUEUE_GRANULARITY - mq_out_pos q /\
    (forall b, mq_cache q = Some b -> b ∉ mq_out_chunk q :: p) /\
    ((p = [] /\ mq_in_chunk q = mq_out_chunk q /\ cb = c /\ f = [] /\ r = map Some xs ++ post) \/
     exists p' f', p = mq_in_chunk q :: p' /\ f = mc_msgs cb ++ f' /\ mc_next cb = Some (hd (mq_out_chunk q) p') /\
       linked (mh_chunks h) p' (mq_out_chunk q) f' /\ r ++ f' ++ mc_msgs c = map Some xs ++ post).
Proof.
  intros [(p & f & c & pre & post & Hlk & Hc & Hfull & Hnd & Hin & Hslots & Hpre & Hpost & Hcd) Hip _ _ _ _ _ _ _].
  cbn [fst snd map app] in *.
  assert (exists cb g, mh_chunks h !! mq_in_chunk q = Some cb /\ full_size cb /\ f ++ mc_msgs c = mc_msgs cb ++ g /\
    ((p = [] /\ mq_in_chunk q = mq_out_chunk q /\ cb = c /\ f = [] /\ g = []) \/
     exists p' f', p = mq_in_chunk q :: p' /\ f = mc_msgs cb ++ f' /\ mc_next cb = Some (hd (mq_out_chunk q) p') /\
       linked (mh_chunks h) p' (mq_out_chunk q) f' /\ g = f' ++ mc_msgs c)) as (cb & g & Hcb & Hfb & Hg & Hcase).
  { destruct p as [|b p']; cbn [linked hd] in *.
    - subst f. exists c, []. rewrite Hin. split_and!; try done; [by rewrite app_nil_r|]. by left.
    - destruct Hlk as (cb & f' & Hb & Hf & Hn & -> & Hl). exists cb, (f' ++ mc_msgs c). rewrite Hin.
      split_and!; try done; [by rewrite <- app_assoc|]. right. by exists p', f'. }
  rewrite Hg in Hslots.
  destruct (reader_slot _ _ _ _ _ Hslots) as (r & Hmsgs & Hr); [rewrite Hfb; lia|].
  exists p, f, c, cb, pre, r, post. destruct cb as [cm cn]. cbn [mc_msgs mc_next] in *. subst cm.
  split_and!; try done; [by apply chunk_read_ok|rewrite <- Hpre; apply slot_get_ok|rewrite <- Hpre; apply slot_set_ok|].
  destruct Hcase as [(-> & Heq & Hcc & -> & ->)|(p' & f' & -> & -> & Hn & Hl & ->)].
  - left. rewrite app_nil_r in Hr. done.
  - right. by exists p', f'.
Qed.
(** A chunk that is read to its end is kept for reuse, or freed. *)
Lemma retire_ok q h inn out (p : list Z) (next : Z) :
  inn ∉ out :: p -> (exists c, mh_chunks h !! inn = Some c /\ full_size c) ->
  (forall b, mq_cache q = Some b -> b ∉ inn :: out :: p /\ exists c, mh_chunks h !! b = Some c /\ full_size c) ->
  (forall b, is_Some (mh_chunks h !! b) -> b < mh_brk h) -> mh_alloc h = [] ->
  exists cache h', match mq_cache q with
      | Some a => olet! h0 := chunk_free inn h in Done (next, 0, Some a, h0)
      | None => Done (next, 0, Some inn, h)
      end = Done (next, 0, cache, h') /\
    (forall b, b <> inn -> mh_chunks h' !! b = mh_chunks h !! b) /\ mh_alloc h' = [] /\
    (forall b, is_Some (mh_chunks h' !! b) -> b < mh_brk h') /\
    (forall b, cache = Some b -> b ∉ out :: p /\ exists c, mh_chunks h' !! b = Some c /\ full_size c).
Proof.
  intros Hi (ci & Hci & Hfi) Hcache Hbelow Hal. destruct (mq_cache q) as [a|] eqn:E.
  - unfold chunk_free. rewrite (chunk_read_ok inn h ci Hci). cbn [obind]. do 2 eexists. split; [done|].
    destruct (Hcache a eq_refl) as [Ha (ca & Hca & Hfa)]. split_and!; [|done| |].
    + intros b Hb. cbn [mh_chunks]. by rewrite lookup_delete_ne.
    + intros b Hb. apply Hbelow. cbn [mh_chunks] in Hb. by apply lookup_delete_is_Some in Hb as [_ Hb].
    + intros b [= <-]. split; [set_solver|]. cbn [mh_chunks]. rewrite lookup_delete_ne by set_solver. by eexists.
  - do 2 eexists. split; [done|]. split_and!; [done|done|done|]. intros b [= <-]. split; [done|]. by eexists.
Qed.
Lemma recv_ok q h m xs :
  mrep (q, h) (m :: xs) ->
  exists s', nn_msgqueue_recv (q, h) = Done (0, Some m, s') /\ mrep s' xs /\ mq_maxmem (fst s') = mq_maxmem q.
Proof.
  intros Hr. destruct (take_ok q h m xs Hr)
    as (p & f & c & cb & pre & r & post & Hread & Hget & Hmsgs & Hpre & Hfb & Hset & Hlk & Hc & Hfull & Hnd & Hpost & Hcd & Hcase).
  destruct Hr as [_ Hip Hop Hcount Hmem Htot Hcache Hfresh Hal]. cbn [fst snd] in *.
  pose proof (total_nonneg xs). pose proof (msg_size_bound m).
  assert (total (m :: xs) = msg_size m + total xs) as Ht by done. rewrite lenZ_cons in Hcount.
  assert (is_Some (mh_chunks h !! mq_in_chunk q)) as Hsome by (unfold chunk_read in Hread; by destruct (_ !! _)).
  unfold nn_msgqueue_recv. rewrite (proj2 (Z.eqb_neq (mq_count q) 0)) by lens.
  rewrite Hread. cbn [obind]. rewrite Hget. cbn [obind]. rewrite Hset. cbn [obind].
  rewrite Hmem, Ht, wrap_small by lia. set (inn := mq_in_chunk q) in *. set (out := mq_out_chunk q) in *.
  set (cb' := {| mc_msgs := pre ++ None :: r; mc_next := mc_next cb |}) in *. set (h1 := chunk_write inn cb' h).
  assert (full_size cb') as Hfb' by (unfold full_size in *; cbn [cb' mc_msgs]; rewrite Hmsgs in Hfb; lens).
  assert (Hother : forall b, b <> inn -> mh_chunks h1 !! b = mh_chunks h !! b) by (intros; cbn; by rewrite lookup_insert_ne).
  assert (Hinn : mh_chunks h1 !! inn = Some cb') by (cbn; by rewrite lookup_insert, decide_True).
  assert (Hbelow : forall b, is_Some (mh_chunks h1 !! b) -> b < mh_brk h1).
  { intros b Hb. apply Hfresh. destruct (decide (b = inn)) as [->|Hne]; [done|]. by rewrite Hother in Hb. }
  destruct (Z.eqb_spec (mq_in_pos q + 1) NN_MSGQUEUE_GRANULARITY) as [Hend|Hmore].
  - assert (r = []) as -> by (apply lenZ_zero_nil; unfold full_size in Hfb; rewrite Hmsgs in Hfb; lens).
    destruct Hcase as [(-> & _ & _ & _ & Hr)|(p' & f' & -> & -> & Hn & Hl & Hrest)];
      [apply (f_equal lenZ) in Hr; lens|].
    apply NoDup_cons in Hnd as [Hout [Hi Hnd]%NoDup_cons].
    change (mc_next cb') with (mc_next cb). rewrite Hn. cbn [obind].
    destruct (retire_ok q h1 inn out p' (hd out p')) as (cache & h2 & -> & Hsame2 & Hal2 & Hbelow2 & Hcache2); try done.
    { set_solver. } { by eexists. }
    { intros b Hb. pose proof (Hcd b Hb). split; [set_solver|]. rewrite Hother by set_solver. by apply Hcache. }
    assert (Hsame : forall b, b <> inn -> mh_chunks h2 !! b = mh_chunks h !! b) by (intros b Hb; by rewrite Hsame2, Hother).
    cbn [obind]. eexists. split; [done|]. split; [|done].
    constructor; cbn [fst snd mq_in_pos mq_out_pos mq_count mq_mem mq_cache]; try done; try lens; try lia.
    + exists p', f', c, [], post. cbn [mq_out_chunk mq_in_chunk mq_in_pos mq_out_pos mq_cache app] in *.
      split_and!; try done; [|by rewrite Hsame by set_solver|by apply NoDup_cons; split; [set_solver|]|by apply Hcache2].
      eapply linked_ext; [done|]. intros b Hb. apply Hsame. set_solver.
    + intros b Hb. by apply Hcache2.
  - cbn [obind]. eexists. split; [done|]. split; [|done].
    constructor; cbn [fst snd mq_in_pos mq_out_pos mq_count mq_mem mq_cache]; try done; try lens; try lia.
    + destruct Hcase as [(-> & Heq & -> & -> & ->)|(p' & f' & -> & -> & Hn & Hl & Hrest)].
      * exists [], [], cb', (pre ++ [None]), post. cbn [mq_out_chunk mq_in_chunk mq_in_pos mq_out_pos mq_cache hd].
        rewrite Heq in *. split_and!; try done; [cbn [cb' mc_msgs app]; by rewrite <- app_assoc|lens].
      * exists (inn :: p'), (mc_msgs cb' ++ f'), c, (pre ++ [None]), post. cbn [mq_out_chunk mq_in_chunk mq_in_pos mq_out_pos mq_cache hd].
        pose proof Hnd as [Hout [Hi Hnd']%NoDup_cons]%NoDup_cons.
        split_and!; try done; [|by rewrite Hother by set_solver| |lens].
        -- exists cb', f'. split_and!; try done. eapply linked_ext; [done|]. intros b Hb. apply Hother. set_solver.
        -- cbn [cb' mc_msgs]. rewrite <- !app_assoc. cbn [app]. by rewrite Hrest.
    + intros b Hb. destruct (decide (b = inn)) as [->|Hne]; [by eexists|]. rewrite Hother by done. by apply Hcache.
Qed.

(** ** Whole runs *)
Definition mop_small (o : mop) : Prop := match o with Msend m => msg_size m < 2 ^ 62 | Mrecv => True end.
Lemma mop_ok o q h xs :
  mrep (q, h) xs -> mq_maxmem q < 2 ^ 63 -> mop_small o ->
  exists s', mop_run o (q, h) = Done (fst (mop_spec (mq_maxmem q) o xs), s') /\
    mrep s' (snd (mop_spec (mq_maxmem q) o xs)) /\ mq_maxmem (fst s') = mq_maxmem q.
Proof.
  intros Hr Hmax Hsmall. destruct o as [m|]; cbn [mop_run mop_spec mop_small] in *.
  - pose proof (mr_total _ _ Hr) as Htot. pose proof (total_nonneg xs). pose proof (msg_size_bound m).
    destruct xs as [|x xs].
    { destruct (send_ok q h [] m Hr) as (s' & -> & Hr' & Hm); [cbn; lia|by left|]. by exists s'. }
    destruct (Z.ltb_spec (total (x :: xs) + msg_size m) (mq_maxmem q)) as [Hlt|Hge].
    { destruct (send_ok q h (x :: xs) m Hr) as (s' & -> & Hr' & Hm); [lia|by right|]. by exists s'. }
    exists (q, h). split; [|done]. unfold nn_msgqueue_send.
    rewrite (mr_count _ _ Hr : mq_count q = _), (mr_mem _ _ Hr : mq_mem q = _), wrap_small by lia.
    rewrite (proj2 (Z.ltb_lt _ _)) by lens. by rewrite (proj2 (Z.leb_le _ _)) by lia.
  - destruct xs as [|x xs].
    + exists (q, h). split; [|done]. unfold nn_msgqueue_recv. by rewrite (mr_count _ _ Hr : mq_count q = _).
    + destruct (recv_ok q h x xs Hr) as (s' & -> & Hr' & Hm). by exists s'.
Qed.
Lemma mops_ok os : forall q h xs,
  mrep (q, h) xs -> mq_maxmem q < 2 ^ 63 -> Forall mop_small os ->
  exists s', mops_run os (q, h) = Done (fst (mops_spec (mq_maxmem q) os xs), s') /\
    mrep s' (snd (mops_spec (mq_maxmem q) os xs)).
Proof.
  induction os as [|o os IH]; intros q h xs Hr Hmax Hs; cbn [mops_run mops_spec]; [by exists (q, h)|].
  inversion_clear Hs as [|? ? Ho Hos]. destruct (mop_ok o q h xs Hr Hmax Ho) as ([q' h'] & -> & Hr' & Hm).
  cbn [fst] in Hm. destruct (mop_spec (mq_maxmem q) o xs) as [r xs']. cbn [obind fst snd] in *.
  destruct (IH q' h' xs' Hr' ltac:(by rewrite Hm) Hos) as (s2 & -> & Hr2). rewrite Hm in *. cbn [obind].
  destruct (mops_spec (mq_maxmem q) os xs') as [rs xs2]. by exists s2.
Qed.
Definition empty_mheap : mheap := {| mh_chunks := ∅; mh_brk := 1; mh_alloc := [] |}.
Lemma mq_init_ok maxmem :
  exists q h, nn_msgqueue_init maxmem empty_mheap = Done (q, h) /\ mrep (q, h) [] /\ mq_maxmem q = maxmem.
Proof.
  do 2 eexists. split; [reflexivity|]. split; [|done].
  constructor; cbn [fst snd mq_in_pos mq_out_pos mq_count mq_mem mq_cache mh_alloc]; try done.
  - exists [], [], {| mc_msgs := replicate 126 None; mc_next := None |}, [], (replicate 126 None).
    split_and!; try done. apply NoDup_singleton.
  - intros b Hb. cbn in *. destruct (decide (b = 1)) as [->|Hne]; [lia|]. rewrite lookup_insert_ne in Hb by done.
    rewrite lookup_empty in Hb. by destruct Hb.
Qed.
Lemma drain_ok xs : forall fuel q h,
  mrep (q, h) xs -> (length xs <= fuel)%nat -> exists s', drain fuel (q, h) = Done s' /\ mrep s' [].
Proof.
  induction xs as [|x xs IH]; intros fuel q h Hr Hf.
  - exists (q, h). split; [|done].
    destruct fuel; cbn [drain]; unfold nn_msgqueue_recv; by rewrite (mr_count _ _ Hr : mq_count q = _).
  - destruct fuel as [|fuel]; [cbn in Hf; lia|]. cbn [drain].
    destruct (recv_ok q h x xs Hr) as ([q' h'] & -> & Hr' & _). cbn [obind]. apply IH; [done|]. cbn in Hf. lia.
Qed.
Lemma term_ok s xs : mrep s xs -> exists h, nn_msgqueue_term s = Done h.
Proof.
  destruct s as [q h]. intros Hr. unfold nn_msgqueue_term.
  destruct (drain_ok xs (Z.to_nat (mq_count q)) q h Hr) as ([q' h'] & Hd & Hr').
  { rewrite (mr_count _ _ Hr : mq_count q = _). unfold lenZ. lia. }
  cbn [fst]. rewrite Hd. cbn [obind]. destruct Hr' as [(p & f & c & pre & post & Hlk & Hc & Hfull & _ & Hin & Hslots & Hpre & Hpost & Hcd) Hip Hop _ _ _ Hcache _ _].
  cbn [fst snd map app] in *. pose proof (linked_len _ _ _ _ Hlk) as Hlen.
  apply (f_equal lenZ) in Hslots. rewrite !lenZ_app, Hfull, Hlen in Hslots. unfold NN_MSGQUEUE_GRANULARITY in *.
  destruct p as [|b p]; [|rewrite lenZ_cons in Hslots; pose proof (lenZ_nonneg p); lia]. cbn [hd] in Hin. rewrite Hin, Z.eqb_refl.
  unfold chunk_free at 1. rewrite (chunk_read_ok _ _ _ Hc). cbn [obind].
  destruct (mq_cache q') as [a|]; [|by eexists]. destruct (Hcache a eq_refl) as (ca & Hca & _).
  unfold chunk_free, chunk_read. cbn [mh_chunks]. rewrite lookup_delete_ne, Hca; [by eexists|].
  intros <-. apply (Hcd _ eq_refl). set_solver.
Qed.

(** C19: the message queue between FineDB's threads is a bounded FIFO.
    Whatever is sent and received, over any number of chunks, reused, new or
    freed, each receive returns the oldest message not yet received, each send
    is refused exactly when the queue is not empty and its bytes would reach
    the bound, an empty queue says so, no slot or chunk is used after it was
    given up, and the queue can be terminated. *)
Theorem msgqueue_fifo maxmem os :
  maxmem < 2 ^ 63 -> Forall mop_small os ->
  exists s0 s' h', nn_msgqueue_init maxmem empty_mheap = Done s0 /\
    mops_run os s0 = Done (fst (mops_spec maxmem os []), s') /\
    mrep s' (snd (mops_spec maxmem os [])) /\ nn_msgqueue_term s' = Done h'.
Proof.
  intros Hmax Hs. destruct (mq_init_ok maxmem) as (q & h & Hi & Hr & Hm).
  destruct (mops_ok os q h [] Hr) as (s' & Hrun & Hr'); [by rewrite Hm|done|]. rewrite Hm in *.
  destruct (term_ok _ _ Hr') as [h' Ht]. by exists (q, h), s', h'.
Qed.
Definition demo_msg (b : Z) : nn_msg := {| msg_hdr := []; msg_body := [b; 0; 0; 0] |}.
Lemma msgqueue_fifo_witness :
  exists s0 s' h', nn_msgqueue_init 10 empty_mheap = Done s0 /\
    mops_run [Mrecv; Msend (demo_msg 1); Msend (demo_msg 2); Msend (demo_msg 3); Mrecv; Mrecv; Mrecv] s0 =
      Done ([Rgot None; Rsent true; Rsent true; Rsent false; Rgot (Some (demo_msg 1)); Rgot (Some (demo_msg 2)); Rgot None], s') /\
    mrep s' [] /\ nn_msgqueue_term s' = Done h'.
Proof.
  exact (msgqueue_fifo 10 [Mrecv; Msend (demo_msg 1); Msend (demo_msg 2); Msend (demo_msg 3); Mrecv; Mrecv; Mrecv]
    eq_refl ltac:(by repeat constructor)).
Defined.
