(* ===== verification/Inproc.v ===== *)
(** * Inproc: a connection of nanomsg's in-process transport

    Two sessions of lib/nanomsg/src/transports/inproc/sinproc.c, peers of each
    other, with the pipe of each (core/pipe.c) and the message queue it
    receives into.  A session hands a message to its peer by an event; the
    peer moves it to its queue and answers by an event.  Events wait until the
    target's context is entered; the model processes any pending one, and any
    operation of the sockets, in any order. *)
From Stdlib Require Import String.
From S2P Require Import Prelude Cstring.
From S2P Require Import NnList Msgqueue.

(** ** Data *)
Inductive side := Lft | Rgt.
#[export] Instance side_eq_dec : EqDecision side.
Proof. solve_decision. Defined.
Definition other (t : side) : side := match t with Lft => Rgt | Rgt => Lft end.
(** NN_SINPROC_STATE_* *)
Inductive sinproc_state := IDLE | CONNECTING | ACTIVE | DISCONNECTED | STOPPING.
(** NN_PIPEBASE_STATE_*, NN_PIPEBASE_INSTATE_*, NN_PIPEBASE_OUTSTATE_* *)
Inductive pipe_state := PIPE_IDLE | PIPE_ACTIVE.
Inductive in_state := IN_DEACTIVATED | IN_IDLE | IN_RECEIVING | IN_RECEIVED | IN_ASYNC.
Inductive out_state := OUT_DEACTIVATED | OUT_IDLE | OUT_SENDING | OUT_SENT | OUT_ASYNC.
(** NN_FSM_STATE_* *)
Inductive fsm_state := FSM_IDLE | FSM_ACTIVE | FSM_STOPPING.
#[export] Instance sinproc_state_eq_dec : EqDecision sinproc_state.
Proof. solve_decision. Defined.
#[export] Instance pipe_state_eq_dec : EqDecision pipe_state.
Proof. solve_decision. Defined.
#[export] Instance in_state_eq_dec : EqDecision in_state.
Proof. solve_decision. Defined.
#[export] Instance out_state_eq_dec : EqDecision out_state.
Proof. solve_decision. Defined.
#[export] Instance fsm_state_eq_dec : EqDecision fsm_state.
Proof. solve_decision. Defined.
Record nn_pipebase := { pb_state : pipe_state; pb_in : in_state; pb_out : out_state }.
Record nn_sinproc := {
  sp_fsm : fsm_state;
  sp_state : sinproc_state;
  sp_sending : bool;             (* flags & NN_SINPROC_FLAG_SENDING *)
  sp_receiving : bool;           (* flags & NN_SINPROC_FLAG_RECEIVING *)
  sp_peer : bool;                (* peer is set: it is the other session *)
  sp_msg : nn_msg;
  sp_queue : mstate;             (* msgqueue, with the chunks it allocated *)
  sp_pipe : nn_pipebase
}.
(** Events from the peer *)
Inductive event := ACCEPTED | SENT | RECEIVED | DISCONNECT.
#[export] Instance event_eq_dec : EqDecision event.
Proof. solve_decision. Defined.
(** What the socket of a session is told: [nn_sock_add], [nn_sock_rm],
    [NN_PIPE_IN], [NN_PIPE_OUT], and that the session has stopped *)
Inductive notice := SOCK_ADD | SOCK_RM | PIPE_IN | PIPE_OUT | STOPPED.
Record conn := {
  cn_l : nn_sinproc;
  cn_r : nn_sinproc;
  cn_events : list (side * event);    (* pending events, with their target *)
  cn_up : list (side * notice)
}.
Definition sess (t : side) (c : conn) : nn_sinproc := match t with Lft => cn_l c | Rgt => cn_r c end.
Definition set_sess (t : side) (s : nn_sinproc) (c : conn) : conn :=
  match t with
  | Lft => {| cn_l := s; cn_r := cn_r c; cn_events := cn_events c; cn_up := cn_up c |}
  | Rgt => {| cn_l := cn_l c; cn_r := s; cn_events := cn_events c; cn_up := cn_up c |}
  end.
Definition with_state (x : sinproc_state) (s : nn_sinproc) : nn_sinproc :=
  {| sp_fsm := sp_fsm s; sp_state := x; sp_sending := sp_sending s; sp_receiving := sp_receiving s; sp_peer := sp_peer s;
     sp_msg := sp_msg s; sp_queue := sp_queue s; sp_pipe := sp_pipe s |}.
Definition with_fsm (x : fsm_state) (s : nn_sinproc) : nn_sinproc :=
  {| sp_fsm := x; sp_state := sp_state s; sp_sending := sp_sending s; sp_receiving := sp_receiving s; sp_peer := sp_peer s;
     sp_msg := sp_msg s; sp_queue := sp_queue s; sp_pipe := sp_pipe s |}.
Definition with_flags (sending receiving : bool) (s : nn_sinproc) : nn_sinproc :=
  {| sp_fsm := sp_fsm s; sp_state := sp_state s; sp_sending := sending; sp_receiving := receiving; sp_peer := sp_peer s;
     sp_msg := sp_msg s; sp_queue := sp_queue s; sp_pipe := sp_pipe s |}.
Definition with_peer (s : nn_sinproc) : nn_sinproc :=
  {| sp_fsm := sp_fsm s; sp_state := sp_state s; sp_sending := sp_sending s; sp_receiving := sp_receiving s; sp_peer := true;
     sp_msg := sp_msg s; sp_queue := sp_queue s; sp_pipe := sp_pipe s |}.
Definition with_msg (m : nn_msg) (s : nn_sinproc) : nn_sinproc :=
  {| sp_fsm := sp_fsm s; sp_state := sp_state s; sp_sending := sp_sending s; sp_receiving := sp_receiving s; sp_peer := sp_peer s;
     sp_msg := m; sp_queue := sp_queue s; sp_pipe := sp_pipe s |}.
Definition with_queue (q : mstate) (s : nn_sinproc) : nn_sinproc :=
  {| sp_fsm := sp_fsm s; sp_state := sp_state s; sp_sending := sp_sending s; sp_receiving := sp_receiving s; sp_peer := sp_peer s;
     sp_msg := sp_msg s; sp_queue := q; sp_pipe := sp_pipe s |}.
Definition with_pipe (p : nn_pipebase) (s : nn_sinproc) : nn_sinproc :=
  {| sp_fsm := sp_fsm s; sp_state := sp_state s; sp_sending := sp_sending s; sp_receiving := sp_receiving s; sp_peer := sp_peer s;
     sp_msg := sp_msg s; sp_queue := sp_queue s; sp_pipe := p |}.

Abbreviation M := (CM conn).
Definition on_sess (t : side) (f : nn_sinproc -> nn_sinproc) : M unit := fun c => Done (tt, set_sess t (f (sess t c)) c).
Definition read_sess (t : side) : M nn_sinproc := fun c => Done (sess t c, c).
Definition massert (b : bool) : M unit := clift (nn_assert b).
(** [nn_fsm_raiseto] a session: an event object that is still pending cannot
    be queued again. *)
Definition queued (x : side * event) (l : list (side * event)) : bool := bool_decide (x ∈ l).
Definition raiseto (t : side) (e : event) : M unit := fun c =>
  if queued (t, e) (cn_events c) then Fault AssertFailed
  else Done (tt, {| cn_l := cn_l c; cn_r := cn_r c; cn_events := cn_events c ++ [(t, e)]; cn_up := cn_up c |}).
Definition notify (t : side) (n : notice) : M unit := fun c =>
  Done (tt, {| cn_l := cn_l c; cn_r := cn_r c; cn_events := cn_events c; cn_up := cn_up c ++ [(t, n)] |}).
(** [sinproc->peer->...] *)
Definition peer_of (t : side) : M side :=
  let! s := read_sess t in if sp_peer s then cret (other t) else cfault NullDeref.
Definition empty_msg : nn_msg := {| msg_hdr := []; msg_body := [] |}.

(** ** The pipe (core/pipe.c) *)
Definition pipe_with (st : pipe_state) (i : in_state) (o : out_state) (t : side) : M unit :=
  on_sess t (with_pipe {| pb_state := st; pb_in := i; pb_out := o |}).
(** The sockets FineDB uses accept every pipe: [nn_xpush_add] and
    [nn_xpull_add] return 0. *)
Definition nn_pipebase_start (t : side) : M unit :=
  let! s := read_sess t in
  do! massert (bool_decide (pb_state (sp_pipe s) = PIPE_IDLE)) in
  do! pipe_with PIPE_ACTIVE IN_ASYNC OUT_IDLE t in
  do! notify t SOCK_ADD in
  notify t PIPE_OUT.
Definition nn_pipebase_stop (t : side) : M unit :=
  let! s := read_sess t in
  if bool_decide (pb_state (sp_pipe s) <> PIPE_ACTIVE) then cret tt
  else do! notify t SOCK_RM in pipe_with PIPE_IDLE (pb_in (sp_pipe s)) (pb_out (sp_pipe s)) t.
Definition nn_pipebase_received (t : side) : M unit :=
  let! s := read_sess t in
  let p := sp_pipe s in
  if bool_decide (pb_in p = IN_RECEIVING) then pipe_with (pb_state p) IN_RECEIVED (pb_out p) t
  else
    do! massert (bool_decide (pb_in p = IN_ASYNC)) in
    do! pipe_with (pb_state p) IN_IDLE (pb_out p) t in
    notify t PIPE_IN.
Definition nn_pipebase_sent (t : side) : M unit :=
  let! s := read_sess t in
  let p := sp_pipe s in
  if bool_decide (pb_out p = OUT_SENDING) then pipe_with (pb_state p) (pb_in p) OUT_SENT t
  else
    do! massert (bool_decide (pb_out p = OUT_ASYNC)) in
    do! pipe_with (pb_state p) (pb_in p) OUT_IDLE t in
    notify t PIPE_OUT.

(** ** The session (transports/inproc/sinproc.c) *)
Definition nn_sinproc_send (t : side) (m : nn_msg) : M Z :=
  let! s := read_sess t in
  if bool_decide (sp_state s = DISCONNECTED) then cret (-104)
  else
    do! massert (bool_decide (sp_state s = ACTIVE)) in
    do! massert (negb (sp_sending s)) in
    do! on_sess t (with_msg m) in
    do! on_sess t (fun s => with_flags true (sp_receiving s) s) in
    let! p := peer_of t in
    do! raiseto p SENT in
    cret 0.
(** [nn_msgqueue_send] and [nn_msgqueue_recv] on the queue of a session *)
Definition queue_send (t : side) (m : nn_msg) : M Z :=
  let! s := read_sess t in
  let! '(rc, q) := clift (nn_msgqueue_send m (sp_queue s)) in
  do! on_sess t (with_queue q) in cret rc.
Definition queue_recv (t : side) : M (Z * option nn_msg) :=
  let! s := read_sess t in
  let! '(rc, m, q) := clift (nn_msgqueue_recv (sp_queue s)) in
  do! on_sess t (with_queue q) in cret (rc, m).
Definition is_empty (q : mstate) : bool := negb (nn_msgqueue_empty (fst q) =? 0).
Definition NN_PIPEBASE_RELEASE : Z := 1.
Definition NN_PIPEBASE_PARSED : Z := 2.
Definition nn_sinproc_recv (t : side) : M (Z * option nn_msg) :=
  let! s := read_sess t in
  do! massert (bool_decide (sp_state s = ACTIVE) || bool_decide (sp_state s = DISCONNECTED)) in
  let! '(rc, m) := queue_recv t in
  do! massert (rc =? 0) in
  do! (if negb (bool_decide (sp_state s = DISCONNECTED)) && sp_receiving s then
         let! p := peer_of t in
         let! sp := read_sess p in
         let! rc := queue_send t (sp_msg sp) in
         do! massert ((rc =? 0) || (rc =? - EAGAIN)) in
         if rc =? 0 then
           do! on_sess p (with_msg empty_msg) in
           do! raiseto p RECEIVED in
           on_sess t (fun s => with_flags (sp_sending s) false s)
         else cret tt
       else cret tt) in
  let! s := read_sess t in
  do! (if is_empty (sp_queue s) then cret tt else nn_pipebase_received t) in
  cret (NN_PIPEBASE_PARSED, m).

(** The source and the type of what a session's state machine is called with *)
Inductive input := ACTION_START | ACTION_STOP | ACTION_ACCEPTED | FROM_PEER (e : event).
Definition finish (t : side) : M unit :=
  let! s := read_sess t in
  do! massert (bool_decide (sp_fsm s = FSM_STOPPING)) in
  do! notify t STOPPED in
  on_sess t (with_fsm FSM_IDLE).
Definition nn_sinproc_handler (t : side) (i : input) : M unit :=
  let! s := read_sess t in
  match i, sp_state s with
  | ACTION_STOP, (IDLE | DISCONNECTED) => finish t
  | ACTION_STOP, _ =>
      do! nn_pipebase_stop t in
      let! p := peer_of t in
      do! raiseto p DISCONNECT in
      on_sess t (with_state STOPPING)
  | FROM_PEER DISCONNECT, STOPPING => do! on_sess t (with_state IDLE) in finish t
  | _, STOPPING => cfault AssertFailed
  | ACTION_START, IDLE => on_sess t (with_state CONNECTING)
  | ACTION_ACCEPTED, CONNECTING => do! nn_pipebase_start t in on_sess t (with_state ACTIVE)
  | FROM_PEER ACCEPTED, CONNECTING =>
      do! on_sess t with_peer in
      do! nn_pipebase_start t in on_sess t (with_state ACTIVE)
  | FROM_PEER SENT, ACTIVE =>
      let empty := is_empty (sp_queue s) in
      let! p := peer_of t in
      let! sp := read_sess p in
      let! rc := queue_send t (sp_msg sp) in
      if rc =? - EAGAIN then on_sess t (fun s => with_flags (sp_sending s) true s)
      else
        do! massert (rc =? 0) in
        do! on_sess p (with_msg empty_msg) in
        do! (if empty then nn_pipebase_received t else cret tt) in
        raiseto p RECEIVED
  | FROM_PEER RECEIVED, ACTIVE =>
      do! massert (sp_sending s) in
      do! nn_pipebase_sent t in
      on_sess t (fun s => with_flags false (sp_receiving s) s)
  | FROM_PEER DISCONNECT, ACTIVE =>
      do! nn_pipebase_stop t in
      let! p := peer_of t in
      do! raiseto p DISCONNECT in
      on_sess t (with_state DISCONNECTED)
  | _, _ => cfault AssertFailed
  end.
(** nn_fsm_start, nn_fsm_stop (aio/fsm.c) *)
Definition nn_fsm_start (t : side) : M unit :=
  let! s := read_sess t in
  do! massert (bool_decide (sp_fsm s = FSM_IDLE)) in
  do! nn_sinproc_handler t ACTION_START in
  on_sess t (with_fsm FSM_ACTIVE).
Definition nn_fsm_stop (t : side) : M unit :=
  let! s := read_sess t in
  if bool_decide (sp_fsm s <> FSM_ACTIVE) then cret tt
  else do! on_sess t (with_fsm FSM_STOPPING) in nn_sinproc_handler t ACTION_STOP.
Definition nn_sinproc_stop (t : side) : M unit := nn_fsm_stop t.
Definition nn_sinproc_accept (t : side) : M unit :=
  let! s := read_sess t in
  do! massert (negb (sp_peer s)) in
  do! on_sess t with_peer in
  do! raiseto (other t) ACCEPTED in
  do! nn_fsm_start t in
  nn_sinproc_handler t ACTION_ACCEPTED.

(** ** Sending and receiving on a pipe (core/pipe.c) *)
Definition nn_pipe_send (t : side) (m : nn_msg) : M Z :=
  let! s := read_sess t in
  let p := sp_pipe s in
  do! massert (bool_decide (pb_out p = OUT_IDLE)) in
  do! pipe_with (pb_state p) (pb_in p) OUT_SENDING t in
  let! rc := nn_sinproc_send t m in
  do! massert (0 <=? rc) in
  let! s := read_sess t in
  let p := sp_pipe s in
  if bool_decide (pb_out p = OUT_SENT) then do! pipe_with (pb_state p) (pb_in p) OUT_IDLE t in cret rc
  else
    do! massert (bool_decide (pb_out p = OUT_SENDING)) in
    do! pipe_with (pb_state p) (pb_in p) OUT_ASYNC t in
    cret (Z.lor rc NN_PIPEBASE_RELEASE).
Definition nn_pipe_recv (t : side) : M (Z * option nn_msg) :=
  let! s := read_sess t in
  let p := sp_pipe s in
  do! massert (bool_decide (pb_in p = IN_IDLE)) in
  do! pipe_with (pb_state p) IN_RECEIVING (pb_out p) t in
  let! '(rc, m) := nn_sinproc_recv t in
  do! massert (0 <=? rc) in
  let! s := read_sess t in
  let p := sp_pipe s in
  if bool_decide (pb_in p = IN_RECEIVED) then do! pipe_with (pb_state p) IN_IDLE (pb_out p) t in cret (rc, m)
  else
    do! massert (bool_decide (pb_in p = IN_RECEIVING)) in
    do! pipe_with (pb_state p) IN_ASYNC (pb_out p) t in
    cret (Z.lor rc NN_PIPEBASE_RELEASE, m).

(** ** The connection as a whole *)

(** A step: the event in position [n] is processed, a session's socket sends
    or receives on its pipe, or it closes the session. *)
Inductive cstep := Sevent (n : nat) | Ssend (t : side) (m : nn_msg) | Srecv (t : side) | Sstop (t : side).
Definition take_event (n : nat) : M (option (side * event)) := fun c =>
  match cn_events c !! n with
  | None => Done (None, c)
  | Some e => Done (Some e, {| cn_l := cn_l c; cn_r := cn_r c; cn_events := delete n (cn_events c); cn_up := cn_up c |})
  end.
(** A socket sends on a pipe that is ready to send, and receives from one that
    has a message; otherwise it waits. *)
Definition do_step (x : cstep) : M (option nn_msg) :=
  match x with
  | Sevent n =>
      let! e := take_event n in
      match e with
      | None => cret None
      | Some (t, e) => do! nn_sinproc_handler t (FROM_PEER e) in cret None
      end
  | Ssend t m =>
      let! s := read_sess t in
      if bool_decide (pb_out (sp_pipe s) = OUT_IDLE) then do! nn_pipe_send t m in cret (Some m) else cret None
  | Srecv t =>
      let! s := read_sess t in
      if bool_decide (pb_in (sp_pipe s) = IN_IDLE) then let! '(_, m) := nn_pipe_recv t in cret m else cret None
  | Sstop t => do! nn_sinproc_stop t in cret None
  end.

(** A run, with what each step returned *)
Fixpoint conn_run (xs : list cstep) : M (list (cstep * option nn_msg)) :=
  match xs with
  | [] => cret []
  | x :: xs => let! r := do_step x in let! rs := conn_run xs in cret ((x, r) :: rs)
  end.
(** The messages a side sent, and those it received *)
Definition sent_by (t : side) (rs : list (cstep * option nn_msg)) : list nn_msg :=
  omap (fun r => match r with (Ssend u _, Some m) => if bool_decide (u = t) then Some m else None | _ => None end) rs.
Definition got_by (t : side) (rs : list (cstep * option nn_msg)) : list nn_msg :=
  omap (fun r => match r with (Srecv u, Some m) => if bool_decide (u = t) then Some m else None | _ => None end) rs.

(** [nn_sinproc_connect] starts the session of the connecting end; the event it
    raises is for the endpoint, which calls [nn_sinproc_accept] on the session
    it makes. *)
Definition nn_sinproc_connect (t : side) : M unit := nn_fsm_start t.
(** Two sessions just initialised, and the handshake: one connects, the other
    accepts, and the first processes the answer. *)
Definition nn_sinproc_init (rcvbuf : Z) : outcome nn_sinproc :=
  olet! q := nn_msgqueue_init rcvbuf empty_mheap in
  Done {| sp_fsm := FSM_IDLE; sp_state := IDLE; sp_sending := false; sp_receiving := false; sp_peer := false;
          sp_msg := empty_msg; sp_queue := q;
          sp_pipe := {| pb_state := PIPE_IDLE; pb_in := IN_DEACTIVATED; pb_out := OUT_DEACTIVATED |} |}.
Definition connected (lbuf rbuf : Z) : outcome conn :=
  olet! l := nn_sinproc_init lbuf in
  olet! r := nn_sinproc_init rbuf in
  olet! '(_, c) := (do! nn_sinproc_connect Lft in do! nn_sinproc_accept Rgt in do_step (Sevent 0))
                   {| cn_l := l; cn_r := r; cn_events := []; cn_up := [] |} in
  Done c.

(** ** One direction of a connection

    The messages from [t] to its peer concern what follows of the state, and
    nothing else does. *)
Record dview := {
  dv_sending : bool; dv_msg : nn_msg; dv_out : out_state;              (* at the sender *)
  dv_receiving : bool; dv_queue : mstate; dv_in : in_state;            (* at the receiver *)
  dv_sent : bool; dv_received : bool;                                  (* pending events *)
  dv_outs : Z                                                          (* times the sender's socket was told it can send *)
}.
Fixpoint nouts (t : side) (up : list (side * notice)) : Z :=
  match up with
  | [] => 0
  | (u, n) :: up => (if bool_decide (u = t) then match n with PIPE_OUT => 1 | _ => 0 end else 0) + nouts t up
  end.
Definition pending (t : side) (e : event) (c : conn) : bool := queued (t, e) (cn_events c).
Definition view (t : side) (c : conn) : dview :=
  let s := sess t c in let r := sess (other t) c in
  {| dv_sending := sp_sending s; dv_msg := sp_msg s; dv_out := pb_out (sp_pipe s);
     dv_receiving := sp_receiving r; dv_queue := sp_queue r; dv_in := pb_in (sp_pipe r);
     dv_sent := pending (other t) SENT c; dv_received := pending t RECEIVED c;
     dv_outs := nouts t (cn_up c) |}.
(** Both sessions are active, and the pending events are of the traffic. *)
Record active (c : conn) : Prop := {
  ac_l : sp_state (cn_l c) = ACTIVE /\ sp_peer (cn_l c) = true;
  ac_r : sp_state (cn_r c) = ACTIVE /\ sp_peer (cn_r c) = true;
  ac_nodup : NoDup (cn_events c);
  ac_events : Forall (fun x => snd x = SENT \/ snd x = RECEIVED) (cn_events c)
}.
(** The operation [m] on direction [t] changes its view to [v], and leaves
    the other direction alone. *)
Definition turns {A} (m : M A) (c : conn) (t : side) (r : A) (v : dview) : Prop :=
  exists c', m c = Done (r, c') /\ active c' /\ view t c' = v /\ view (other t) c' = view (other t) c.

Lemma queued_snoc x y ev : queued x (ev ++ [y]) = bool_decide (x = y) || queued x ev.
Proof. unfold queued. rewrite <- bool_decide_or. apply bool_decide_ext. set_solver. Qed.
Lemma queued_delete n x y ev :
  NoDup ev -> ev !! n = Some y -> queued x (delete n ev) = negb (bool_decide (x = y)) && queued x ev.
Proof.
  intros Hnd Hy. unfold queued. rewrite <- bool_decide_not, <- bool_decide_and. apply bool_decide_ext.
  pose proof (take_drop_middle ev n y Hy) as E. rewrite delete_take_drop. rewrite <- E in Hnd. rewrite <- E at 3.
  rewrite <- Permutation_middle in Hnd. apply NoDup_cons in Hnd as [Hn _].
  rewrite !elem_of_app, elem_of_cons. split; [|tauto]. intros Hx. split; [|tauto]. intros ->. apply Hn. set_solver.
Qed.
Lemma nouts_snoc t x up :
  nouts t (up ++ [x]) = nouts t up + (if bool_decide (fst x = t) then match snd x with PIPE_OUT => 1 | _ => 0 end else 0).
Proof. induction up as [|[u n] up IH]; cbn [app nouts]; [destruct x; cbn; lia|]. rewrite IH. lia. Qed.
Lemma nodup_raise x ev : NoDup ev -> queued x ev = false -> NoDup (ev ++ [x]).
Proof.
  intros Hnd Hq. apply bool_decide_eq_false in Hq. apply NoDup_app. split; [done|]. split; [set_solver|apply NoDup_singleton].
Qed.
(** Evaluation of the operations on a known pair of sessions *)
Ltac run_conn :=
  lazy -[queued nouts app delete lookup list_lookup list_delete nn_msgqueue_send nn_msgqueue_recv is_empty].
Ltac known c :=
  let l := fresh "l" in let r := fresh "r" in
  destruct c as [l r ev up]; destruct l as [? ? ? ? ? ? ? []], r as [? ? ? ? ? ? ? []].
Lemma send_turns t m c :
  active c -> dv_out (view t c) = OUT_IDLE -> dv_sending (view t c) = false -> dv_sent (view t c) = false ->
  turns (do_step (Ssend t m)) c t (Some m)
    {| dv_sending := true; dv_msg := m; dv_out := OUT_ASYNC;
       dv_receiving := dv_receiving (view t c); dv_queue := dv_queue (view t c); dv_in := dv_in (view t c);
       dv_sent := true; dv_received := dv_received (view t c); dv_outs := dv_outs (view t c) |}.
Proof.
  intros [[Hl1 Hl2] [Hr1 Hr2] Hnd Hev] Hout Hs Hp. known c. destruct t; cbn in *; subst; unfold pending in *; cbn in *;
    (eexists; split; [run_conn; rewrite Hp; reflexivity|]); (split; [constructor; cbn; try done;
       [by apply nodup_raise|apply Forall_app; split; [done|by repeat constructor; left]]|]);
    unfold view, pending; cbn; rewrite !queued_snoc; done.
Qed.
Lemma active_event n x c : active c -> cn_events c !! n = Some x -> Forall (fun x => snd x = SENT \/ snd x = RECEIVED) (delete n (cn_events c)).
Proof. intros [_ _ _ H] _. rewrite delete_take_drop. apply Forall_app. split; [by apply Forall_take|by apply Forall_drop]. Qed.
Lemma nodup_delete n (ev : list (side * event)) : NoDup ev -> NoDup (delete n ev).
Proof. intros H. eapply sublist_NoDup; [exact H|apply sublist_delete]. Qed.
Lemma received_turns t n c :
  active c -> cn_events c !! n = Some (t, RECEIVED) -> dv_sending (view t c) = true -> dv_out (view t c) = OUT_ASYNC ->
  turns (do_step (Sevent n)) c t None
    {| dv_sending := false; dv_msg := dv_msg (view t c); dv_out := OUT_IDLE;
       dv_receiving := dv_receiving (view t c); dv_queue := dv_queue (view t c); dv_in := dv_in (view t c);
       dv_sent := dv_sent (view t c); dv_received := false; dv_outs := dv_outs (view t c) + 1 |}.
Proof.
  intros Ha Hn Hs Hout. pose proof (active_event n _ c Ha Hn) as Hdel. destruct Ha as [[Hl1 Hl2] [Hr1 Hr2] Hnd Hev].
  known c. destruct t; cbn in *; subst; unfold pending in *; cbn in *;
    (eexists; split; [unfold do_step, take_event, cbind at 1; cbn [cn_events]; rewrite Hn; run_conn; reflexivity|]);
    (split; [constructor; cbn; try done; by apply nodup_delete|]);
    unfold view, pending; cbn -[Z.add]; rewrite !(queued_delete n _ _ ev Hnd Hn), ?nouts_snoc; cbn -[Z.add]; rewrite ?Z.add_0_r; done.
Qed.
Ltac run_event Hn := unfold do_step, take_event, cbind at 1; cbn [cn_events]; rewrite Hn; run_conn.
(** The event that a message is offered: it goes to the receiver's queue, *)
Lemma accept_turns t n c q :
  active c -> cn_events c !! n = Some (other t, SENT) -> dv_received (view t c) = false ->
  nn_msgqueue_send (dv_msg (view t c)) (dv_queue (view t c)) = Done (0, q) ->
  (is_empty (dv_queue (view t c)) = true -> dv_in (view t c) = IN_ASYNC) ->
  turns (do_step (Sevent n)) c t None
    {| dv_sending := dv_sending (view t c); dv_msg := empty_msg; dv_out := dv_out (view t c);
       dv_receiving := dv_receiving (view t c); dv_queue := q;
       dv_in := if is_empty (dv_queue (view t c)) then IN_IDLE else dv_in (view t c); dv_sent := false; dv_received := true;
       dv_outs := dv_outs (view t c) |}.
Proof.
  intros Ha Hn Hrecv Hq Hin. pose proof (active_event n _ c Ha Hn) as Hdel. destruct Ha as [[Hl1 Hl2] [Hr1 Hr2] Hnd Hev].
  known c. destruct t; cbn in *; subst; unfold pending in *; cbn in *;
    (destruct (is_empty _) eqn:He; [rewrite Hin in * by done|]);
    (eexists; split; [run_event Hn; rewrite Hq; run_conn; rewrite ?He, (queued_delete n _ _ ev Hnd Hn), Hrecv; reflexivity|]);
    (split; [constructor; cbn; try done; [apply nodup_raise; [by apply nodup_delete|by rewrite (queued_delete n _ _ ev Hnd Hn), Hrecv]
                                         |apply Forall_app; split; [done|by repeat constructor; right]]|]);
    unfold view, pending; cbn -[Z.add]; rewrite !queued_snoc, !(queued_delete n _ _ ev Hnd Hn), ?nouts_snoc; cbn -[Z.add]; rewrite ?Z.add_0_r; done.
Qed.
(** or stays with the sender, the queue being full. *)
Lemma refuse_turns t n c q :
  active c -> cn_events c !! n = Some (other t, SENT) ->
  nn_msgqueue_send (dv_msg (view t c)) (dv_queue (view t c)) = Done (- EAGAIN, q) ->
  turns (do_step (Sevent n)) c t None
    {| dv_sending := dv_sending (view t c); dv_msg := dv_msg (view t c); dv_out := dv_out (view t c);
       dv_receiving := true; dv_queue := q; dv_in := dv_in (view t c);
       dv_sent := false; dv_received := dv_received (view t c); dv_outs := dv_outs (view t c) |}.
Proof.
  intros Ha Hn Hq. pose proof (active_event n _ c Ha Hn) as Hdel. destruct Ha as [[Hl1 Hl2] [Hr1 Hr2] Hnd Hev].
  known c. destruct t; cbn in *; subst; unfold pending in *; cbn in *;
    (eexists; split; [run_event Hn; rewrite Hq; run_conn; reflexivity|]);
    (split; [constructor; cbn; try done; by apply nodup_delete|]);
    unfold view, pending; cbn -[Z.add]; rewrite !(queued_delete n _ _ ev Hnd Hn), ?nouts_snoc; cbn -[Z.add]; rewrite ?Z.add_0_r; done.
Qed.
(** A receive, *)
Lemma recv_turns t c m q :
  active c -> dv_in (view t c) = IN_IDLE -> dv_receiving (view t c) = false ->
  nn_msgqueue_recv (dv_queue (view t c)) = Done (0, Some m, q) ->
  turns (do_step (Srecv (other t))) c t (Some m)
    {| dv_sending := dv_sending (view t c); dv_msg := dv_msg (view t c); dv_out := dv_out (view t c);
       dv_receiving := false; dv_queue := q; dv_in := if is_empty q then IN_ASYNC else IN_IDLE;
       dv_sent := dv_sent (view t c); dv_received := dv_received (view t c); dv_outs := dv_outs (view t c) |}.
Proof.
  intros [[Hl1 Hl2] [Hr1 Hr2] Hnd Hev] Hin Hr Hq. known c.
  destruct t; cbn in *; subst; destruct (is_empty q) eqn:He; (eexists; split; [run_conn; rewrite Hq; run_conn; rewrite He; reflexivity|]); by split.
Qed.
(** and one that lets in the message that was waiting, or not yet. *)
Lemma recv_held_turns t c m q q' rc :
  active c -> dv_in (view t c) = IN_IDLE -> dv_receiving (view t c) = true -> dv_received (view t c) = false ->
  nn_msgqueue_recv (dv_queue (view t c)) = Done (0, Some m, q) ->
  nn_msgqueue_send (dv_msg (view t c)) q = Done (rc, q') -> rc = 0 \/ rc = - EAGAIN ->
  turns (do_step (Srecv (other t))) c t (Some m)
    {| dv_sending := dv_sending (view t c); dv_msg := if rc =? 0 then empty_msg else dv_msg (view t c); dv_out := dv_out (view t c);
       dv_receiving := negb (rc =? 0); dv_queue := q'; dv_in := if is_empty q' then IN_ASYNC else IN_IDLE;
       dv_sent := dv_sent (view t c); dv_received := rc =? 0; dv_outs := dv_outs (view t c) |}.
Proof.
  intros [[Hl1 Hl2] [Hr1 Hr2] Hnd Hev] Hin Hr Hrecv Hq Hs Hrc. known c.
  destruct t; cbn in *; subst; unfold pending in *; cbn in *; destruct (is_empty q') eqn:He, Hrc as [->| ->];
    (eexists; split; [run_conn; rewrite Hq; run_conn; rewrite Hs; run_conn; rewrite ?Hrecv, He; reflexivity|]);
    (split; [constructor; cbn; try done; try (by apply nodup_raise); by (apply Forall_app; split; [done|apply Forall_singleton; by right])|]);
    unfold view, pending; cbn -[Z.add]; rewrite ?queued_snoc, ?nouts_snoc; cbn -[Z.add]; rewrite ?Hrecv, ?Z.add_0_r; done.
Qed.

(** ** The protocol of one direction

    [snt] was sent and [got] received; [xs] is in the receiver's queue. *)
Inductive phase (v : dview) (xs snt got : list nn_msg) : Prop :=
  | quiet : dv_sending v = false -> dv_receiving v = false -> dv_sent v = false -> dv_received v = false ->
      dv_out v = OUT_IDLE -> snt = got ++ xs -> phase v xs snt got
  | offered : dv_sending v = true -> dv_receiving v = false -> dv_sent v = true -> dv_received v = false ->
      dv_out v = OUT_ASYNC -> snt = got ++ xs ++ [dv_msg v] -> phase v xs snt got
  | held : dv_sending v = true -> dv_receiving v = true -> dv_sent v = false -> dv_received v = false ->
      dv_out v = OUT_ASYNC -> xs <> [] -> snt = got ++ xs ++ [dv_msg v] -> phase v xs snt got
  | acked : dv_sending v = true -> dv_receiving v = false -> dv_sent v = false -> dv_received v = true ->
      dv_out v = OUT_ASYNC -> snt = got ++ xs -> phase v xs snt got.
Definition in_of (xs : list nn_msg) : in_state := match xs with [] => IN_ASYNC | _ => IN_IDLE end.
Record dir_ok (v : dview) (snt got : list nn_msg) : Prop := {
  do_queue : exists xs, mrep (dv_queue v) xs /\ dv_in v = in_of xs /\ phase v xs snt got;
  do_max : mq_maxmem (fst (dv_queue v)) < 2 ^ 63;
  do_msg : msg_size (dv_msg v) < 2 ^ 62
}.
Lemma is_empty_ok s xs : mrep s xs -> is_empty s = match xs with [] => true | _ => false end.
Proof.
  intros Hr. unfold is_empty, nn_msgqueue_empty. rewrite (mr_count _ _ Hr). destruct xs as [|x xs]; [done|].
  by rewrite (proj2 (Z.eqb_neq (lenZ (x :: xs)) 0)) by lens.
Qed.
Lemma in_of_ok s xs : mrep s xs -> (if is_empty s then IN_ASYNC else IN_IDLE) = in_of xs.
Proof. intros Hr. rewrite (is_empty_ok s xs Hr). by destruct xs. Qed.
Lemma qsend_cases s xs m :
  mrep s xs -> mq_maxmem (fst s) < 2 ^ 63 -> msg_size m < 2 ^ 62 ->
  (exists s', nn_msgqueue_send m s = Done (0, s') /\ mrep s' (xs ++ [m]) /\ mq_maxmem (fst s') = mq_maxmem (fst s)) \/
  (xs <> [] /\ nn_msgqueue_send m s = Done (- EAGAIN, s)).
Proof.
  destruct s as [q h]. intros Hr Hmax Hm. pose proof (mr_total _ _ Hr). pose proof (total_nonneg xs). pose proof (msg_size_bound m).
  destruct xs as [|x xs]; [left; apply (send_ok q h [] m Hr); [cbn; lia|by left]|].
  destruct (Z.lt_ge_cases (total (x :: xs) + msg_size m) (mq_maxmem q)) as [Hlt|Hge];
    [left; apply (send_ok q h _ m Hr); [cbn [fst] in Hmax; lia|by right]|].
  right. split; [done|]. unfold nn_msgqueue_send.
  rewrite (mr_count _ _ Hr : mq_count q = _), (mr_mem _ _ Hr : mq_mem q = _), wrap_small by lia.
  rewrite (proj2 (Z.ltb_lt _ _)) by lens. by rewrite (proj2 (Z.leb_le _ _)) by lia.
Qed.
Lemma empty_msg_small : msg_size empty_msg < 2 ^ 62.
Proof. done. Qed.

(** ** Both directions *)
Definition small_step (x : cstep) : Prop :=
  match x with Ssend _ m => msg_size m < 2 ^ 62 | Sstop _ => False | _ => True end.
(** [snt t] was sent by [t]; [got t] of it was received by the other side. *)
Definition conn_ok (c : conn) (snt got : side -> list nn_msg) : Prop :=
  active c /\ forall t, dir_ok (view t c) (snt t) (got t).
Definition add_to (f : side -> list nn_msg) (g : side -> list nn_msg) : side -> list nn_msg := fun t => f t ++ g t.
Definition step_sent (x : cstep) (r : option nn_msg) : side -> list nn_msg := fun t => sent_by t [(x, r)].
Definition step_got (x : cstep) (r : option nn_msg) : side -> list nn_msg := fun t => got_by (other t) [(x, r)].
Lemma other_other t : other (other t) = t.
Proof. by destruct t. Qed.
(** What a direction has left to do: messages to be received, and events to
    be processed. *)
Definition mu (v : dview) (snt got : list nn_msg) : Z :=
  3 * (lenZ snt - lenZ got) + (if dv_sent v then 2 else if dv_received v then 1 else 0).
(** The sender's pipe is as ready as it was, or its socket was told that it is
    ready again. *)
Definition told (v v' : dview) : Prop :=
  (dv_out v' = dv_out v /\ dv_outs v' = dv_outs v) \/
  (dv_out v = OUT_ASYNC /\ dv_out v' = OUT_IDLE /\ dv_outs v' = dv_outs v + 1).
Definition sends (x : cstep) (t : side) : Prop := match x with Ssend u _ => u = t | _ => False end.
Definition keeps (x : cstep) (c : conn) (snt got : side -> list nn_msg) : Prop :=
  exists r c', do_step x c = Done (r, c') /\ conn_ok c' (add_to snt (step_sent x r)) (add_to got (step_got x r)) /\
    forall t, sends x t \/ told (view t c) (view t c').
(** The step does some of what direction [t] has left to do. *)
Definition advances (t : side) (x : cstep) (c : conn) (snt got : side -> list nn_msg) : Prop :=
  exists r c', do_step x c = Done (r, c') /\ conn_ok c' (add_to snt (step_sent x r)) (add_to got (step_got x r)) /\
    step_sent x r t = [] /\ (forall u, sends x u \/ told (view u c) (view u c')) /\
    mu (view t c') (add_to snt (step_sent x r) t) (add_to got (step_got x r) t) < mu (view t c) (snt t) (got t).
Lemma advances_keeps t x c snt got : advances t x c snt got -> keeps x c snt got.
Proof. intros (r & c' & ? & ? & _ & ? & _). by exists r, c'. Qed.
(** A step on one direction keeps both. *)
Lemma turns_conn x c t r v snt got :
  conn_ok c snt got -> turns (do_step x) c t r v ->
  dir_ok v (add_to snt (step_sent x r) t) (add_to got (step_got x r) t) ->
  step_sent x r (other t) = [] -> step_got x r (other t) = [] -> sends x t \/ told (view t c) v -> keeps x c snt got.
Proof.
  intros [Ha Hd] (c' & Hrun & Ha' & Hv & Hother) Hok Hs Hg Htold. exists r, c'. split; [done|]. split; [split; [done|]|].
  2: { intros u. destruct (decide (u = t)) as [->|Hne]; [by rewrite Hv|].
       assert (u = other t) as -> by (by destruct u, t). right. rewrite Hother. by left. }
  intros u. destruct (decide (u = t)) as [->|Hne]; [by rewrite Hv|].
  assert (u = other t) as -> by (by destruct u, t). rewrite Hother. unfold add_to. rewrite Hs, Hg, !app_nil_r. apply Hd.
Qed.
Lemma turns_advance x c t r v snt got :
  conn_ok c snt got -> turns (do_step x) c t r v ->
  dir_ok v (add_to snt (step_sent x r) t) (add_to got (step_got x r) t) ->
  (forall u, step_sent x r u = []) -> step_got x r (other t) = [] -> told (view t c) v ->
  mu v (snt t) (add_to got (step_got x r) t) < mu (view t c) (snt t) (got t) -> advances t x c snt got.
Proof.
  intros Hc Ht Hok Hs Hg Htold Hmu.
  destruct (turns_conn x c t r v snt got Hc Ht Hok (Hs _) Hg (or_intror Htold)) as (r' & c' & Hrun & Hc' & Hall).
  destruct Ht as (c2 & Hrun2 & _ & Hv & _). rewrite Hrun in Hrun2. injection Hrun2 as -> ->.
  exists r, c2. split; [done|]. split; [done|]. split; [done|]. split; [done|]. rewrite Hv. unfold add_to at 1. by rewrite Hs, app_nil_r.
Qed.
Lemma step_same x c snt got :
  conn_ok c snt got -> do_step x c = Done (None, c) -> keeps x c snt got.
Proof.
  intros [Ha Hd] Hrun. exists None, c. split; [done|]. split; [split; [done|]|intros t; right; by left]. intros t. unfold add_to, step_sent, step_got.
  assert (sent_by t [(x, None)] = [] /\ got_by (other t) [(x, None)] = []) as [-> ->] by (by destruct x).
  rewrite !app_nil_r. apply Hd.
Qed.
Lemma send_step t m c snt got :
  conn_ok c snt got -> msg_size m < 2 ^ 62 -> keeps (Ssend t m) c snt got.
Proof.
  intros Hc Hm. pose proof Hc as [Ha Hd]. destruct (Hd t) as [(xs & Hq & Hin & Hph) Hmax Hmsg].
  destruct (decide (dv_out (view t c) = OUT_IDLE)) as [Ho|Ho].
  - destruct Hph as [Hs Hr Hse Hre _ Hsnt| | | ]; try congruence.
    eapply turns_conn; [done|by apply send_turns| |by destruct t|done|by left].
    constructor; cbn [dv_queue dv_msg]; [|done|done]. exists xs. split; [done|]. split; [done|].
    apply offered; cbn; try done. unfold add_to, step_sent, step_got, sent_by, got_by. cbn.
    rewrite bool_decide_eq_true_2, Hsnt, app_nil_r by done. by rewrite <- app_assoc.
  - apply step_same; [done|]. unfold do_step, cbind at 1, read_sess.
    rewrite bool_decide_false by (by destruct t). done.
Qed.
Lemma add_nil f g t : g t = [] -> add_to f g t = f t.
Proof. unfold add_to. intros ->. apply app_nil_r. Qed.
Lemma received_step n t c snt got :
  conn_ok c snt got -> cn_events c !! n = Some (t, RECEIVED) -> advances t (Sevent n) c snt got.
Proof.
  intros Hc Hn. pose proof Hc as [Ha Hd]. destruct (Hd t) as [(xs & Hq & Hin & Hph) Hmax Hmsg].
  assert (dv_received (view t c) = true) as Hre by (cbn; apply bool_decide_eq_true_2; by eapply list_elem_of_lookup_2).
  destruct Hph as [ | | |Hs Hr Hse _ Ho Hsnt]; try congruence.
  eapply turns_advance; [done|by apply received_turns| |done|done|by right|]; rewrite !add_nil by done; [|unfold mu; cbn [dv_sent dv_received]; rewrite Hse, Hre; lia].
  constructor; cbn [dv_queue dv_msg]; [|done|done]. exists xs. split; [done|]. split; [done|]. by apply quiet.
Qed.
Lemma sent_step n t c snt got :
  conn_ok c snt got -> cn_events c !! n = Some (other t, SENT) -> advances t (Sevent n) c snt got.
Proof.
  intros Hc Hn. pose proof Hc as [Ha Hd]. destruct (Hd t) as [(xs & Hq & Hin & Hph) Hmax Hmsg].
  assert (dv_sent (view t c) = true) as Hse by (cbn; apply bool_decide_eq_true_2; by eapply list_elem_of_lookup_2).
  destruct Hph as [ |Hs Hr _ Hre Ho Hsnt| | ]; try congruence.
  destruct (qsend_cases _ _ _ Hq Hmax Hmsg) as [(q & Hsend & Hq' & Hm)|[Hne Hsend]].
  - eapply turns_advance; [done|apply (accept_turns t n c q Ha Hn Hre Hsend)| |done|done|by left|].
    { rewrite (is_empty_ok _ _ Hq), Hin. by destruct xs. }
    all: rewrite !add_nil by done. 2: unfold mu; cbn [dv_sent dv_received]; rewrite Hse; lia.
    constructor; cbn [dv_queue dv_msg]; [|by rewrite Hm|done].
    exists (xs ++ [dv_msg (view t c)]). split; [done|]. split.
    + cbn [dv_in]. rewrite (is_empty_ok _ _ Hq), Hin. by destruct xs.
    + by apply acked.
  - eapply turns_advance; [done|apply (refuse_turns t n c _ Ha Hn Hsend)| |done|done|by left|].
    all: rewrite !add_nil by done. 2: unfold mu; cbn [dv_sent dv_received]; rewrite Hse, Hre; lia.
    constructor; cbn [dv_queue dv_msg]; [|done|done].
    exists xs. split; [done|]. split; [done|]. by apply held.
Qed.
Lemma got_one t m snt got :
  add_to snt (step_sent (Srecv (other t)) (Some m)) t = snt t /\
  add_to got (step_got (Srecv (other t)) (Some m)) t = got t ++ [m] /\
  step_sent (Srecv (other t)) (Some m) (other t) = [] /\ step_got (Srecv (other t)) (Some m) (other t) = [].
Proof. unfold add_to, step_sent, step_got. destruct t; cbn; rewrite app_nil_r; done. Qed.
Lemma recv_step t c snt got :
  conn_ok c snt got -> dv_in (view t c) = IN_IDLE -> advances t (Srecv (other t)) c snt got.
Proof.
  intros Hc Hidle. pose proof Hc as [Ha Hd]. destruct (Hd t) as [(xs & Hq & Hin & Hph) Hmax Hmsg].
  destruct xs as [|m xs]; cbn [in_of] in Hin; [congruence|].
  destruct (dv_queue (view t c)) as [q h] eqn:Eq. destruct (recv_ok q h m xs Hq) as (q1 & Hrecv & Hq1 & Hm1). rewrite <- Eq in Hrecv, Hq.
  destruct (got_one t m snt got) as (Es & Eg & Zs & Zg). cbn [fst] in Hmax.
  destruct (dv_receiving (view t c)) eqn:Er.
  - destruct Hph as [ | |Hs _ Hse Hre Ho Hne Hsnt| ]; try congruence.
    destruct (qsend_cases q1 xs (dv_msg (view t c)) Hq1) as [(q2 & Hsend & Hq2 & Hm2)|[Hne2 Hsend]]; [by rewrite Hm1|done|..].
    + eapply turns_advance; [done|apply (recv_held_turns t c m q1 q2 0); auto| |done|done|by left|].
      all: rewrite ?Es, Eg. 2: unfold mu; cbn [dv_sent dv_received]; rewrite Hse, Hre; change (0 =? 0) with true; cbn iota; lens.
      constructor; cbn [dv_queue dv_msg Z.eqb]; [|by rewrite Hm2, Hm1|done].
      exists (xs ++ [dv_msg (view t c)]). split; [done|]. split; [by apply in_of_ok|].
      apply acked; try done. rewrite Hsnt. cbn [app]. by rewrite <- app_assoc.
    + eapply turns_advance; [done|apply (recv_held_turns t c m q1 q1 (- EAGAIN)); auto| |done|done|by left|].
      all: rewrite ?Es, Eg. 2: unfold mu; cbn [dv_sent dv_received]; rewrite Hse, Hre; change (- EAGAIN =? 0) with false; cbn iota; lens.
      constructor; cbn [dv_queue dv_msg]; [|by rewrite Hm1|done].
      exists xs. split; [done|]. split; [by apply in_of_ok|].
      apply held; try done. rewrite Hsnt. cbn [app]. by rewrite <- !app_assoc.
  - eapply turns_advance; [done|by apply (recv_turns t c m q1)| |done|done|by left|].
    all: rewrite ?Es, Eg. 2: unfold mu; cbn [dv_sent dv_received]; destruct (dv_sent (view t c)), (dv_received (view t c)); lens.
    constructor; cbn [dv_queue dv_msg]; [|by rewrite Hm1|done].
    exists xs. split; [done|]. split; [by apply in_of_ok|].
    destruct Hph as [Hs _ Hse Hre Ho Hsnt|Hs _ Hse Hre Ho Hsnt| |Hs _ Hse Hre Ho Hsnt]; [|..|congruence|].
    + apply quiet; try done. rewrite Hsnt. by rewrite <- app_assoc.
    + apply offered; try done. rewrite Hsnt. by rewrite <- !app_assoc.
    + apply acked; try done. rewrite Hsnt. by rewrite <- app_assoc.
Qed.
Lemma recv_keeps t c snt got : conn_ok c snt got -> keeps (Srecv t) c snt got.
Proof.
  intros Hc. rewrite <- (other_other t). destruct (decide (dv_in (view (other t) c) = IN_IDLE)) as [Hi|Hi];
    [eapply advances_keeps; by apply recv_step|].
  apply step_same; [done|]. unfold do_step, cbind at 1, read_sess. by rewrite bool_decide_false by (by destruct t).
Qed.
Lemma step_ok x c snt got : conn_ok c snt got -> small_step x -> keeps x c snt got.
Proof.
  intros Hc Hx. destruct x as [n|t m|t|t]; [|by apply send_step|by apply recv_keeps|done].
  destruct (cn_events c !! n) as [[t e]|] eqn:E.
  - destruct (proj1 (Forall_lookup _ _) (ac_events _ (proj1 Hc)) n _ E) as [He|He]; cbn in He; subst e;
      [rewrite <- (other_other t) in E; by eapply advances_keeps, sent_step|by eapply advances_keeps, received_step].
  - apply step_same; [done|]. unfold do_step, cbind at 1, take_event. by rewrite E.
Qed.

(** ** Whole runs *)
Lemma conn_ok_ext c snt got snt' got' :
  conn_ok c snt got -> (forall t, snt t = snt' t) -> (forall t, got t = got' t) -> conn_ok c snt' got'.
Proof. intros [Ha Hd] Hs Hg. split; [done|]. intros t. rewrite <- Hs, <- Hg. apply Hd. Qed.
Lemma sent_cons t x rs : sent_by t (x :: rs) = sent_by t [x] ++ sent_by t rs.
Proof. exact (omap_app _ [x] rs). Qed.
Lemma got_cons t x rs : got_by t (x :: rs) = got_by t [x] ++ got_by t rs.
Proof. exact (omap_app _ [x] rs). Qed.
Lemma run_ok xs : forall c snt got,
  conn_ok c snt got -> Forall small_step xs ->
  exists rs c', conn_run xs c = Done (rs, c') /\
    conn_ok c' (fun t => snt t ++ sent_by t rs) (fun t => got t ++ got_by (other t) rs).
Proof.
  induction xs as [|x xs IH]; intros c snt got Hc Hx; cbn [conn_run].
  { exists [], c. split; [done|]. eapply conn_ok_ext; [done|..]; intros t; symmetry; apply app_nil_r. }
  inversion_clear Hx as [|? ? Hx1 Hxs]. destruct (step_ok x c snt got Hc Hx1) as (r & c1 & Hstep & Hc1 & _). cstep Hstep.
  destruct (IH c1 _ _ Hc1 Hxs) as (rs & c2 & Hrun & Hc2). cstep Hrun. exists ((x, r) :: rs), c2. split; [done|].
  eapply conn_ok_ext; [done|..]; intros t; unfold add_to, step_sent, step_got;
    rewrite <- app_assoc; [by rewrite (sent_cons t (x, r) rs)|by rewrite (got_cons _ (x, r) rs)].
Qed.
Lemma connected_ok lbuf rbuf :
  lbuf < 2 ^ 63 -> rbuf < 2 ^ 63 ->
  exists c, connected lbuf rbuf = Done c /\ conn_ok c (fun _ => []) (fun _ => []).
Proof.
  intros Hl Hr. destruct (mq_init_ok lbuf) as (ql & hl & Hil & Hrl & Hml), (mq_init_ok rbuf) as (qr & hr & Hir & Hrr & Hmr).
  unfold connected, nn_sinproc_init. rewrite Hil, Hir. cbn [obind].
  eexists. split; [lazy; reflexivity|]. split; [constructor; [done|done|constructor|constructor]|].
  intros []; (constructor; cbn [dv_queue view sess other cn_l cn_r sp_queue fst dv_msg sp_msg]; [|lia|done]);
    exists []; (split; [done|]); (split; [done|]); by apply quiet.
Qed.

(** C20: an in-process connection delivers every message once and in order.
    For any sequence of sends and receives on both ends and of processed
    events, in any order, whatever the receive buffers, no assertion of the
    sessions, the pipes and the queues fails, and what one end has received
    is a prefix of what the other has sent: the rest is in the receiver's
    queue, with at most one message still in the sender's hands.  When no
    event is pending and the receiver's queue is empty, all has been
    received. *)
Theorem inproc_fifo lbuf rbuf xs :
  lbuf < 2 ^ 63 -> rbuf < 2 ^ 63 -> Forall small_step xs ->
  exists c rs c', connected lbuf rbuf = Done c /\ conn_run xs c = Done (rs, c') /\
    forall t, exists q w, mrep (sp_queue (sess (other t) c')) q /\
      sent_by t rs = got_by (other t) rs ++ q ++ w /\ lenZ w <= 1 /\ (cn_events c' = [] -> q = [] -> w = []).
Proof.
  intros Hl Hr Hx. destruct (connected_ok lbuf rbuf Hl Hr) as (c & Hc & Hok).
  destruct (run_ok xs c _ _ Hok Hx) as (rs & c' & Hrun & [_ Hd]). exists c, rs, c'. split; [done|]. split; [done|].
  intros t. destruct (Hd t) as [(q & Hq & _ & Hph) _ _]. cbn [app] in Hph.
  destruct Hph as [_ _ _ _ _ E|_ _ Hse _ _ E|_ _ _ _ _ Hne E|_ _ _ _ _ E]; rewrite E.
  - exists q, []. rewrite app_nil_r. by split_and!.
  - exists q, [dv_msg (view t c')]. split_and!; [done|done|done|]. intros Hev. cbn in Hse. unfold pending in Hse. by rewrite Hev in Hse.
  - exists q, [dv_msg (view t c')]. by split_and!.
  - exists q, []. rewrite app_nil_r. by split_and!.
Qed.
Definition demo_send (t : side) (b : Z) : cstep := Ssend t (demo_msg b).
(** The left end sends three times: the third one waits for the buffer of the
    right end, which holds two messages; the right end answers. *)
Definition demo_traffic : list cstep :=
  [demo_send Lft 1; Sevent 0; Sevent 0; demo_send Lft 2; Sevent 0; Sevent 0; demo_send Lft 3; Sevent 0;
   demo_send Rgt 9; Sevent 0; Srecv Lft; Srecv Rgt; demo_send Lft 4].
Lemma demo_traffic_small : Forall small_step demo_traffic.
Proof. by repeat constructor. Qed.
Lemma inproc_fifo_witness :
  exists c rs c', connected 100 9 = Done c /\ conn_run demo_traffic c = Done (rs, c') /\
    forall t, exists q w, mrep (sp_queue (sess (other t) c')) q /\
      sent_by t rs = got_by (other t) rs ++ q ++ w /\ lenZ w <= 1 /\ (cn_events c' = [] -> q = [] -> w = []).
Proof. exact (inproc_fifo 100 9 demo_traffic eq_refl eq_refl demo_traffic_small). Defined.

(** ** Delivery *)

(** The steps that only deliver what [t] sent *)
Definition drains (t : side) (x : cstep) : Prop :=
  match x with Sevent _ => True | Srecv u => u = other t | _ => False end.
Lemma mu_nonneg c snt got t : conn_ok c snt got -> 0 <= mu (view t c) (snt t) (got t).
Proof.
  intros [_ Hd]. destruct (Hd t) as [(xs & _ & _ & Hph) _ _]. unfold mu.
  destruct Hph as [_ _ _ _ _ ->|_ _ _ _ _ ->|_ _ _ _ _ _ ->|_ _ _ _ _ ->]; destruct (dv_sent (view t c)), (dv_received (view t c)); lens.
Qed.
(** Something is left to do, and can be done. *)
Lemma can_advance t c snt got :
  conn_ok c snt got -> got t = snt t \/ exists x, drains t x /\ advances t x c snt got.
Proof.
  intros Hc. pose proof Hc as [_ Hd]. destruct (Hd t) as [(xs & Hq & Hin & Hph) _ _].
  destruct Hph as [_ _ _ _ _ E|_ _ Hse _ _ _|_ _ _ _ _ Hne _|_ _ _ Hre _ _].
  - destruct xs as [|m xs]; [left; by rewrite E, app_nil_r|]. right. exists (Srecv (other t)). split; [done|]. by apply recv_step.
  - right. apply bool_decide_eq_true in Hse as [n Hn]%list_elem_of_lookup. exists (Sevent n). split; [done|]. by apply sent_step.
  - destruct xs as [|m xs]; [done|]. right. exists (Srecv (other t)). split; [done|]. by apply recv_step.
  - right. apply bool_decide_eq_true in Hre as [n Hn]%list_elem_of_lookup. exists (Sevent n). split; [done|]. by apply received_step.
Qed.
Lemma deliver_ok t n : forall c snt got,
  conn_ok c snt got -> mu (view t c) (snt t) (got t) <= Z.of_nat n ->
  exists xs rs c', Forall (drains t) xs /\ conn_run xs c = Done (rs, c') /\ sent_by t rs = [] /\
    snt t = got t ++ got_by (other t) rs.
Proof.
  induction n as [|n IH]; intros c snt got Hc Hmu.
  all: destruct (can_advance t c snt got Hc) as [E|(x & Hx & r & c1 & Hstep & Hc1 & Hs & _ & Hlt)];
    [exists [], [], c; rewrite E, app_nil_r; split_and!; done|].
  - pose proof (mu_nonneg c1 _ _ t Hc1). lia.
  - destruct (IH c1 _ _ Hc1 ltac:(lia)) as (xs & rs & c2 & Hxs & Hrun & Hsent & Hgot).
    exists (x :: xs), ((x, r) :: rs), c2. split_and!.
    + by constructor.
    + cbn [conn_run]. cstep Hstep. by cstep Hrun.
    + rewrite (sent_cons t (x, r) rs), Hsent, app_nil_r. exact Hs.
    + rewrite (add_nil snt _ t Hs) in Hgot. rewrite Hgot, (got_cons (other t) (x, r) rs). unfold add_to. by rewrite <- app_assoc.
Qed.
(** Nothing that was sent can be stuck.  From every state the traffic can
    lead to, processing the pending events and receiving at the other end,
    with no new send, is enough for that end to have received all that was
    sent: no message waits for something that cannot happen. *)
Theorem inproc_delivers lbuf rbuf xs t :
  lbuf < 2 ^ 63 -> rbuf < 2 ^ 63 -> Forall small_step xs ->
  exists c rs c1 ys rs2 c2, connected lbuf rbuf = Done c /\ conn_run xs c = Done (rs, c1) /\
    Forall (drains t) ys /\ conn_run ys c1 = Done (rs2, c2) /\
    sent_by t (rs ++ rs2) = sent_by t rs /\ got_by (other t) (rs ++ rs2) = sent_by t rs.
Proof.
  intros Hl Hr Hx. destruct (connected_ok lbuf rbuf Hl Hr) as (c & Hc & Hok).
  destruct (run_ok xs c _ _ Hok Hx) as (rs & c1 & Hrun & Hc1).
  pose proof (mu_nonneg c1 _ _ t Hc1) as Hmu.
  destruct (deliver_ok t _ c1 _ _ Hc1 ltac:(rewrite <- (Z2Nat.id _ Hmu) at 1; apply Z.le_refl))
    as (ys & rs2 & c2 & Hys & Hrun2 & Hs & Hg).
  exists c, rs, c1, ys, rs2, c2. unfold sent_by, got_by in *. rewrite !omap_app. cbn [app] in Hg. rewrite Hs, app_nil_r, <- Hg.
  by split_and!.
Qed.
Lemma inproc_delivers_witness :
  exists c rs c1 ys rs2 c2, connected 100 9 = Done c /\ conn_run demo_traffic c = Done (rs, c1) /\
    Forall (drains Lft) ys /\ conn_run ys c1 = Done (rs2, c2) /\
    sent_by Lft (rs ++ rs2) = sent_by Lft rs /\ got_by Rgt (rs ++ rs2) = sent_by Lft rs.
Proof. exact (inproc_delivers 100 9 demo_traffic Lft eq_refl eq_refl demo_traffic_small). Defined.

(** ** Closing *)

(** Closing a connection with a message in flight fails an assertion.
    One end sends, the other is closed before it processes the event of the
    message: the event finds a session that is stopping, which accepts
    nothing but a disconnection. *)
Theorem close_in_flight_aborts lbuf rbuf m :
  lbuf < 2 ^ 63 -> rbuf < 2 ^ 63 ->
  exists c, connected lbuf rbuf = Done c /\ conn_run [Ssend Lft m; Sstop Rgt; Sevent 0] c = Fault AssertFailed.
Proof.
  intros Hl Hr. destruct (mq_init_ok lbuf) as (ql & hl & Hil & _), (mq_init_ok rbuf) as (qr & hr & Hir & _).
  unfold connected, nn_sinproc_init. rewrite Hil, Hir. cbn [obind]. eexists. split; [lazy; reflexivity|]. lazy. reflexivity.
Qed.
Lemma close_in_flight_aborts_witness :
  exists c, connected 100 9 = Done c /\ conn_run [Ssend Lft (demo_msg 1); Sstop Rgt; Sevent 0] c = Fault AssertFailed.
Proof. exact (close_in_flight_aborts 100 9 (demo_msg 1) eq_refl eq_refl). Defined.
(** Closing with nothing in flight ends both sessions' traffic in order. *)
Example close_quiet :
  exists c rs c', connected 100 9 = Done c /\ conn_run [Sstop Rgt; Sevent 0; Sevent 0; Sstop Lft] c = Done (rs, c') /\
    sp_fsm (cn_l c') = FSM_IDLE /\ sp_fsm (cn_r c') = FSM_IDLE /\ cn_events c' = [].
Proof. do 3 eexists. split; [vm_compute; reflexivity|]. split; [vm_compute; reflexivity|]. done. Qed.
