(* ===== verification/Pipeline.v ===== *)
(** * Pipeline: the push and pull sockets of nanomsg

    lib/nanomsg/src/protocols: the prioritised list of pipes (utils/priolist.c),
    the load balancer of a push socket (utils/lb.c, pipeline/xpush.c) and the
    fair queue of a pull socket (utils/fq.c, pipeline/xpull.c).  FineDB hands
    connections to its threads, and writes to its writer, through them.  A
    slot of the list refines a ring of pipes; pipes are reached through an
    interface, which the in-process connections of Inproc implement. *)
From S2P Require Import Prelude.
From S2P Require Import NnList Msgqueue Inproc.

(** ** The prioritised list *)
Definition NN_PRIOLIST_SLOTS : Z := 16.
Record nn_priolist_data := { pd_pipe : Z; pd_priority : Z }.
(** A pointer to the data of a pipe is the address of the list item in it. *)
Record nn_priolist_slot := { ps_pipes : nn_list; ps_current : link }.
Record nn_priolist := {
  pl_slots : list nn_priolist_slot;
  pl_current : Z;
  pl_items : lheap;                      (* the items of all data *)
  pl_data : gmap Z nn_priolist_data
}.
Definition with_slot (i : nat) (s : nn_priolist_slot) (h : lheap) (cur : Z) (p : nn_priolist) : nn_priolist :=
  {| pl_slots := <[i := s]> (pl_slots p); pl_current := cur; pl_items := h; pl_data := pl_data p |}.
Definition data_read (d : Z) (p : nn_priolist) : outcome nn_priolist_data :=
  match pl_data p !! d with Some x => Done x | None => Fault UseAfterFree end.
(** [&self->slots [priority - 1]] *)
Definition slot_at (prio : Z) (p : nn_priolist) : outcome nn_priolist_slot :=
  if prio <=? 0 then Fault HeapOverflow
  else match pl_slots p !! Z.to_nat (prio - 1) with Some s => Done s | None => Fault HeapOverflow end.

Definition nn_priolist_init (h : lheap) (data : gmap Z nn_priolist_data) : nn_priolist :=
  {| pl_slots := replicate (Z.to_nat NN_PRIOLIST_SLOTS) {| ps_pipes := nn_list_init; ps_current := Null |};
     pl_current := -1; pl_items := h; pl_data := data |}.
Fixpoint slots_term (l : list nn_priolist_slot) : outcome unit :=
  match l with
  | [] => Done tt
  | s :: l => olet! _ := nn_list_term (ps_pipes s) in slots_term l
  end.
Definition nn_priolist_term (p : nn_priolist) : outcome unit := slots_term (pl_slots p).
Definition nn_priolist_add (pipe d prio : Z) (p : nn_priolist) : nn_priolist :=
  {| pl_slots := pl_slots p; pl_current := pl_current p; pl_items := nn_list_item_init d (pl_items p);
     pl_data := <[d := {| pd_pipe := pipe; pd_priority := prio |}]> (pl_data p) |}.
Definition nn_priolist_rm (d : Z) (p : nn_priolist) : outcome nn_priolist :=
  olet! x := data_read d p in
  olet! i := lread (pl_items p) d in
  olet! p := (if nn_list_item_isinlist i then
                olet! s := slot_at (pd_priority x) p in
                olet! '(_, l, h) := nn_list_erase (ps_pipes s) (pl_items p) d in
                Done (with_slot (Z.to_nat (pd_priority x - 1)) {| ps_pipes := l; ps_current := ps_current s |} h (pl_current p) p)
              else Done p) in
  olet! _ := nn_list_item_term d (pl_items p) in
  Done p.
Definition nn_priolist_activate (d : Z) (p : nn_priolist) : outcome nn_priolist :=
  olet! x := data_read d p in
  olet! s := slot_at (pd_priority x) p in
  let i := Z.to_nat (pd_priority x - 1) in
  olet! '(l, h) := nn_list_insert (ps_pipes s) (pl_items p) d (nn_list_end (ps_pipes s)) in
  if negb (nn_list_empty (ps_pipes s)) then
    Done (with_slot i {| ps_pipes := l; ps_current := ps_current s |} h (pl_current p) p)
  else
    let cur := if pl_current p =? -1 then pd_priority x
               else if pd_priority x <? pl_current p then pd_priority x else pl_current p in
    Done (with_slot i {| ps_pipes := l; ps_current := Item d |} h cur p).
Definition nn_priolist_is_active (p : nn_priolist) : Z := if pl_current p =? -1 then 0 else 1.
(** The pipe and its data; [None] for [NULL] *)
Definition nn_priolist_getpipe (p : nn_priolist) : outcome (option (Z * Z)) :=
  if pl_current p =? -1 then Done None
  else
    olet! s := slot_at (pl_current p) p in
    olet! d := follow (ps_current s) in
    olet! x := data_read d p in
    Done (Some (pd_pipe x, d)).
(** [while (nn_list_empty (&slot->pipes)) ...] *)
Fixpoint next_slot (fuel : nat) (cur : Z) (p : nn_priolist) : outcome Z :=
  olet! s := slot_at cur p in
  if negb (nn_list_empty (ps_pipes s)) then Done cur
  else if NN_PRIOLIST_SLOTS <? cur + 1 then Done (-1)
  else match fuel with O => Fault OutOfFuel | S fuel => next_slot fuel (cur + 1) p end.
Definition nn_priolist_advance (release : bool) (p : nn_priolist) : outcome nn_priolist :=
  olet! _ := nn_assert (0 <? pl_current p) in
  olet! s := slot_at (pl_current p) p in
  olet! d := follow (ps_current s) in
  olet! '(it, l, h) :=
    (if release then nn_list_erase (ps_pipes s) (pl_items p) d
     else olet! it := nn_list_next (ps_pipes s) (pl_items p) (Item d) in Done (it, ps_pipes s, pl_items p)) in
  let it := if bool_decide (it = Null) then nn_list_begin l else it in
  let p := with_slot (Z.to_nat (pl_current p - 1)) {| ps_pipes := l; ps_current := it |} h (pl_current p) p in
  olet! cur := next_slot (Z.to_nat NN_PRIOLIST_SLOTS) (pl_current p) p in
  Done {| pl_slots := pl_slots p; pl_current := cur; pl_items := pl_items p; pl_data := pl_data p |}.

(** ** The sockets *)

(** What the load balancer and the fair queue ask of pipes: the flags a send
    returns, and those a receive returns with the message *)
Class PipeOps (P : Type) := {
  pipe_send : Z -> nn_msg -> P -> outcome (Z * P);
  pipe_recv : Z -> P -> outcome (Z * nn_msg * P)
}.
Definition NN_PIPE_RELEASE : Z := 1.
Section sockets.
Context {P : Type} `{PipeOps P}.
(** The load balancer (utils/lb.c) and the fair queue (utils/fq.c) *)
Definition nn_lb_init := nn_priolist_init.
Definition nn_lb_term := nn_priolist_term.
Definition nn_lb_add := nn_priolist_add.
Definition nn_lb_rm := nn_priolist_rm.
Definition nn_lb_out := nn_priolist_activate.
Definition nn_lb_can_send := nn_priolist_is_active.
Definition nn_fq_init := nn_priolist_init.
Definition nn_fq_term := nn_priolist_term.
Definition nn_fq_add := nn_priolist_add.
Definition nn_fq_rm := nn_priolist_rm.
Definition nn_fq_in := nn_priolist_activate.
Definition nn_fq_can_recv := nn_priolist_is_active.
Definition nn_lb_send (m : nn_msg) (s : nn_priolist * P) : outcome (Z * (nn_priolist * P)) :=
  let '(p, ps) := s in
  olet! x := nn_priolist_getpipe p in
  match x with
  | None => Done (- EAGAIN, s)
  | Some (pipe, _) =>
      olet! '(rc, ps) := pipe_send pipe m ps in
      olet! _ := nn_assert (0 <=? rc) in
      olet! p := nn_priolist_advance (Z.testbit rc 0) p in
      Done (Z.ldiff rc NN_PIPE_RELEASE, (p, ps))
  end.
Definition nn_fq_recv (s : nn_priolist * P) : outcome (Z * option (nn_msg * Z) * (nn_priolist * P)) :=
  let '(p, ps) := s in
  olet! x := nn_priolist_getpipe p in
  match x with
  | None => Done (- EAGAIN, None, s)
  | Some (pipe, _) =>
      olet! '(rc, m, ps) := pipe_recv pipe ps in
      olet! _ := nn_assert (0 <=? rc) in
      olet! p := nn_priolist_advance (Z.testbit rc 0) p in
      Done (Z.ldiff rc NN_PIPE_RELEASE, Some (m, pipe), (p, ps))
  end.
(** The push socket: its virtual functions.  The data of a pipe is allocated
    at address [d] by [nn_xpush_add] and freed by [nn_xpush_rm]. *)
Definition nn_xpush_add (pipe d sndprio : Z) (s : nn_priolist * P) : nn_priolist * P :=
  (nn_lb_add pipe d sndprio (fst s), snd s).
Definition data_free (d : Z) (p : nn_priolist) : nn_priolist :=
  {| pl_slots := pl_slots p; pl_current := pl_current p; pl_items := delete d (pl_items p); pl_data := delete d (pl_data p) |}.
Definition nn_xpush_rm (d : Z) (s : nn_priolist * P) : outcome (nn_priolist * P) :=
  olet! p := nn_lb_rm d (fst s) in Done (data_free d p, snd s).
Definition nn_xpush_out (d : Z) (s : nn_priolist * P) : outcome (nn_priolist * P) :=
  olet! p := nn_lb_out d (fst s) in Done (p, snd s).
Definition NN_SOCKBASE_EVENT_IN : Z := 1.
Definition NN_SOCKBASE_EVENT_OUT : Z := 2.
Definition nn_xpush_events (s : nn_priolist * P) : Z := if nn_lb_can_send (fst s) =? 0 then 0 else NN_SOCKBASE_EVENT_OUT.
Definition nn_xpush_send := nn_lb_send.
(** The pull socket *)
Definition nn_xpull_add (pipe d : Z) (s : nn_priolist * P) : nn_priolist * P :=
  (nn_fq_add pipe d 8 (fst s), snd s).
Definition nn_xpull_rm (d : Z) (s : nn_priolist * P) : outcome (nn_priolist * P) :=
  olet! p := nn_fq_rm d (fst s) in Done (data_free d p, snd s).
Definition nn_xpull_in (d : Z) (s : nn_priolist * P) : outcome (nn_priolist * P) :=
  olet! p := nn_fq_in d (fst s) in Done (p, snd s).
Definition nn_xpull_events (s : nn_priolist * P) : Z := if nn_fq_can_recv (fst s) =? 0 then 0 else NN_SOCKBASE_EVENT_IN.
Definition nn_xpull_recv (s : nn_priolist * P) : outcome (Z * option nn_msg * (nn_priolist * P)) :=
  olet! '(rc, m, s) := nn_fq_recv s in
  Done (if rc <? 0 then rc else 0, option_map fst m, s).
End sockets.

(** The in-process connections as pipes: pipe [a] of a socket is the left end
    of connection [a]. *)
#[export] Instance inproc_pipes : PipeOps (gmap Z conn) := {|
  pipe_send a m cs :=
    match cs !! a with
    | None => Fault UseAfterFree
    | Some c => olet! '(rc, c) := nn_pipe_send Lft m c in Done (rc, <[a := c]> cs)
    end;
  pipe_recv a cs :=
    match cs !! a with
    | None => Fault UseAfterFree
    | Some c =>
        olet! '(rc, m, c) := nn_pipe_recv Lft c in
        match m with Some m => Done (rc, m, <[a := c]> cs) | None => Fault UseAfterFree end
    end
|}.

(** ** Rings

    The pipes of a slot in the order they are used: those of [r_before] have
    had their turn, the first of [r_after] has it. *)
Record ring := { r_before : list Z; r_after : list Z }.
Definition r_all (r : ring) : list Z := r_before r ++ r_after r.
(** At the end, the turn goes back to the first one. *)
Definition wrapped (b a : list Z) : ring :=
  match a with [] => {| r_before := []; r_after := b |} | _ => {| r_before := b; r_after := a |} end.
Definition r_add (d : Z) (r : ring) : ring := {| r_before := r_before r; r_after := r_after r ++ [d] |}.
Definition r_advance (release : bool) (r : ring) : ring :=
  match r_after r with
  | [] => r
  | d :: a => wrapped (if release then r_before r else r_before r ++ [d]) a
  end.
Definition r_remove (d : Z) (r : ring) : ring :=
  {| r_before := filter (fun x => x <> d) (r_before r); r_after := filter (fun x => x <> d) (r_after r) |}.
(** The slot that has the turn: the first one that has pipes *)
Fixpoint first_slot (rs : list ring) : option (nat * ring) :=
  match rs with
  | [] => None
  | r :: rs =>
      match r_after r with
      | [] => match first_slot rs with Some (i, r) => Some (S i, r) | None => None end
      | _ => Some (O, r)
      end
  end.
Definition a_current (rs : list ring) : option Z := match first_slot rs with Some (_, r) => head (r_after r) | None => None end.
Definition a_advance (release : bool) (rs : list ring) : list ring :=
  match first_slot rs with Some (i, r) => <[i := r_advance release r]> rs | None => rs end.

(** ** The list holds the rings *)
Definition slot_ok (h : lheap) (s : nn_priolist_slot) (r : ring) : Prop :=
  lrep h (ps_pipes s) (r_all r) /\ (r_all r <> [] -> r_after r <> [] /\ ps_current s = hlink (r_after r)).
Record prep (p : nn_priolist) (rs : list ring) : Prop := {
  pp_slots : Forall2 (slot_ok (pl_items p)) (pl_slots p) rs;
  pp_len : length rs = Z.to_nat NN_PRIOLIST_SLOTS;
  pp_apart : forall i j r r' d, rs !! i = Some r -> rs !! j = Some r' -> d ∈ r_all r -> d ∈ r_all r' -> i = j;
  pp_data : forall i r d, rs !! i = Some r -> d ∈ r_all r ->
              exists x, pl_data p !! d = Some x /\ pd_priority x = Z.of_nat i + 1;
  pp_current : pl_current p = match first_slot rs with Some (i, _) => Z.of_nat i + 1 | None => -1 end
}.
Lemma first_slot_some rs i r :
  first_slot rs = Some (i, r) -> rs !! i = Some r /\ r_after r <> [] /\ forall j r', (j < i)%nat -> rs !! j = Some r' -> r_after r' = [].
Proof.
  revert i. induction rs as [|r0 rs IH]; intros i; cbn [first_slot]; [done|].
  destruct (r_after r0) as [|d a] eqn:E.
  - destruct (first_slot rs) as [[k r1]|]; [|done]. intros [= <- <-]. destruct (IH k eq_refl) as (Hk & Hne & Hlt).
    split; [done|]. split; [done|]. intros [|j] r' Hj Hr'; [by injection Hr' as ->|]. eapply Hlt; [|done]. lia.
  - intros [= <- <-]. split; [done|]. split; [by rewrite E|]. lia.
Qed.
Lemma first_slot_none rs j r : first_slot rs = None -> rs !! j = Some r -> r_after r = [].
Proof.
  revert j. induction rs as [|r0 rs IH]; intros j; cbn [first_slot]; [done|].
  destruct (r_after r0) as [|d a] eqn:E; [|done]. destruct (first_slot rs) as [[k r1]|]; [done|]. intros _.
  destruct j as [|j]; [by intros [= ->]|]. by apply IH.
Qed.
Lemma ring_all_nil h s r : slot_ok h s r -> r_after r = [] -> r_all r = [].
Proof. intros [_ H] Ha. destruct (r_all r) as [|d l]; [done|]. by destruct (H ltac:(done)). Qed.
(** A slot, by its priority *)
Lemma slot_at_ok p rs i r :
  prep p rs -> rs !! i = Some r -> exists s, slot_at (Z.of_nat i + 1) p = Done s /\ slot_ok (pl_items p) s r /\ pl_slots p !! i = Some s.
Proof.
  intros Hp Hi. destruct (Forall2_lookup_r _ _ _ _ _ (pp_slots _ _ Hp) Hi) as (s & Hs & Hok).
  exists s. split; [|done]. unfold slot_at. rewrite (proj2 (Z.leb_gt _ _)) by lia.
  replace (Z.to_nat (Z.of_nat i + 1 - 1)) with i by lia. by rewrite Hs.
Qed.
(** One slot changes, within its elements and [extra]. *)
Lemma slots_update p rs i r s' r' h' :
  prep p rs -> rs !! i = Some r -> slot_ok h' s' r' ->
  (forall j r1 d, j <> i -> rs !! j = Some r1 -> d ∈ r_all r1 -> h' !! d = pl_items p !! d) ->
  Forall2 (slot_ok h') (<[i := s']> (pl_slots p)) (<[i := r']> rs).
Proof.
  intros Hp Hi Hok Hother. pose proof (pp_slots _ _ Hp) as Hs. pose proof (Forall2_length _ _ _ Hs) as Hlen.
  apply Forall2_same_length_lookup_2; [by rewrite !length_insert|].
  intros j s r1 Hsj Hrj. destruct (decide (j = i)) as [->|Hne].
  - rewrite list_lookup_insert_eq in Hsj by (apply lookup_lt_Some in Hi; lia).
    rewrite list_lookup_insert_eq in Hrj by (by eapply lookup_lt_Some). by simplify_eq.
  - rewrite list_lookup_insert_ne in Hsj by done. rewrite list_lookup_insert_ne in Hrj by done. destruct (Forall2_lookup_lr _ _ _ _ _ _ Hs Hsj Hrj) as [Hl Hc].
    split; [|done]. eapply lrep_ext; [done|]. intros d Hd. by eapply Hother.
Qed.
Lemma next_slot_ok fuel : forall p rs i,
  Forall2 (slot_ok (pl_items p)) (pl_slots p) rs -> length rs = Z.to_nat NN_PRIOLIST_SLOTS -> (i < length rs)%nat ->
  (length rs - i <= fuel + 1)%nat ->
  next_slot fuel (Z.of_nat i + 1) p = Done (match first_slot (drop i rs) with Some (k, _) => Z.of_nat (i + k) + 1 | None => -1 end).
Proof.
  induction fuel as [|fuel IH]; intros p rs i Hs Hlen Hi Hf; cbn [next_slot].
  all: destruct (lookup_lt_is_Some_2 rs i Hi) as [r Hr];
    destruct (Forall2_lookup_r _ _ _ _ _ Hs Hr) as (s & Hsl & Hok); pose proof (ring_all_nil _ _ _ Hok) as Hnil;
    unfold slot_at; rewrite (proj2 (Z.leb_gt _ _)) by lia; replace (Z.to_nat (Z.of_nat i + 1 - 1)) with i by lia; rewrite Hsl; cbn [obind];
    rewrite (list_empty_ok _ _ _ (proj1 Hok)), (drop_S _ _ _ Hr); cbn [first_slot].
  all: destruct (r_after r) as [|d a] eqn:Ea;
    [rewrite (bool_decide_eq_true_2 (r_all r = [])) by auto
    |rewrite (bool_decide_eq_false_2 (r_all r = [])) by (unfold r_all; rewrite Ea; by destruct (r_before r)); cbn [negb];
     by rewrite Nat.add_0_r].
  all: cbn [negb]; unfold NN_PRIOLIST_SLOTS in *.
  - rewrite (proj2 (Z.ltb_lt _ _)) by lia. rewrite drop_ge by lia. done.
  - destruct (Z.ltb_spec 16 (Z.of_nat i + 1 + 1)) as [Hend|Hmore]; [rewrite drop_ge by lia; done|].
    replace (Z.of_nat i + 1 + 1) with (Z.of_nat (S i) + 1) by lia. rewrite (IH p rs (S i)) by (done || lia).
    destruct (first_slot (drop (S i) rs)) as [[k r1]|]; [|done]. do 2 f_equal. lia.
Qed.
Lemma first_slot_intro rs i r :
  rs !! i = Some r -> r_after r <> [] -> (forall j r', (j < i)%nat -> rs !! j = Some r' -> r_after r' = []) ->
  first_slot rs = Some (i, r).
Proof.
  revert i. induction rs as [|r0 rs IH]; intros i Hi Hne Hlt; [done|]. cbn [first_slot]. destruct i as [|i].
  - injection Hi as ->. by destruct (r_after r).
  - rewrite (Hlt O r0) by (done || lia). rewrite (IH i); [done|done|done|]. intros j r' Hj Hr'. apply (Hlt (S j)); [lia|done].
Qed.
Lemma first_slot_none_intro rs : (forall j r, rs !! j = Some r -> r_after r = []) -> first_slot rs = None.
Proof.
  induction rs as [|r0 rs IH]; intros H; cbn [first_slot]; [done|]. rewrite (H O r0 eq_refl).
  rewrite IH; [done|]. intros j r Hj. by apply (H (S j)).
Qed.
(** A slot gets its first pipe, or one more. *)
Lemma first_slot_add rs i r d :
  rs !! i = Some r ->
  match first_slot (<[i := r_add d r]> rs) with Some (k, _) => Z.of_nat k + 1 | None => -1 end =
  match first_slot rs with
  | Some (k, _) => Z.min (Z.of_nat k) (Z.of_nat i) + 1
  | None => Z.of_nat i + 1
  end.
Proof.
  intros Hi. pose proof (lookup_lt_Some _ _ _ Hi) as Hlt. set (rs' := <[i := _]> rs).
  assert (rs' !! i = Some (r_add d r)) as Hi' by (by apply list_lookup_insert_eq).
  assert (forall j, j <> i -> rs' !! j = rs !! j) as Hj' by (intros; by apply list_lookup_insert_ne).
  assert (r_after (r_add d r) <> []) as Hne by (cbn; by destruct (r_after r)).
  destruct (first_slot rs) as [[k r1]|] eqn:E.
  - apply first_slot_some in E as (Hk & Hka & Hkl). destruct (Nat.lt_ge_cases k i) as [Hki|Hki].
    + rewrite (first_slot_intro rs' k r1); [lia|rewrite Hj' by lia; done|done|].
      intros j r' Hj Hr'. rewrite Hj' in Hr' by lia. by eapply Hkl.
    + rewrite (first_slot_intro rs' i (r_add d r)); [lia|done|done|].
      intros j r' Hj Hr'. rewrite Hj' in Hr' by lia. eapply Hkl; [|done]. lia.
  - rewrite (first_slot_intro rs' i (r_add d r)); [done|done|done|].
    intros j r' Hj Hr'. rewrite Hj' in Hr' by lia. by eapply first_slot_none.
Qed.
Lemma r_all_add d r : r_all (r_add d r) = r_all r ++ [d].
Proof. unfold r_all. cbn. by rewrite app_assoc. Qed.
(** An element of the updated rings *)
Lemma update_elem (rs : list ring) i r r' (extra : list Z) j r1 d :
  rs !! i = Some r -> (forall x, x ∈ r_all r' -> x ∈ r_all r \/ x ∈ extra) ->
  <[i := r']> rs !! j = Some r1 -> d ∈ r_all r1 ->
  (exists r0, rs !! j = Some r0 /\ d ∈ r_all r0) \/ (j = i /\ d ∈ extra).
Proof.
  intros Hi Hsub Hj Hd. destruct (decide (j = i)) as [->|Hne].
  - rewrite list_lookup_insert_eq in Hj by (by eapply lookup_lt_Some). injection Hj as <-.
    destruct (Hsub d Hd); [left; by exists r|by right].
  - rewrite list_lookup_insert_ne in Hj by done. left. by exists r1.
Qed.
(** The parts of the representation that do not depend on the turn *)
Lemma update_apart p rs i r r' (extra : list Z) :
  prep p rs -> rs !! i = Some r -> (forall x, x ∈ r_all r' -> x ∈ r_all r \/ x ∈ extra) ->
  (forall j r0 x, x ∈ extra -> rs !! j = Some r0 -> x ∉ r_all r0) ->
  (forall x, x ∈ extra -> exists y, pl_data p !! x = Some y /\ pd_priority y = Z.of_nat i + 1) ->
  (forall j k r1 r2 d, <[i := r']> rs !! j = Some r1 -> <[i := r']> rs !! k = Some r2 -> d ∈ r_all r1 -> d ∈ r_all r2 -> j = k) /\
  (forall j r1 d, <[i := r']> rs !! j = Some r1 -> d ∈ r_all r1 -> exists x, pl_data p !! d = Some x /\ pd_priority x = Z.of_nat j + 1).
Proof.
  intros Hp Hi Hsub Hex Hdat. split.
  - intros j k r1 r2 d Hj Hk Hd1 Hd2.
    destruct (update_elem _ _ _ _ _ _ _ _ Hi Hsub Hj Hd1) as [(r3 & Hj3 & Hd3)|[-> He]],
      (update_elem _ _ _ _ _ _ _ _ Hi Hsub Hk Hd2) as [(r4 & Hk4 & Hd4)|[-> He']]; try done.
    + by eapply (pp_apart _ _ Hp).
    + by destruct (Hex _ _ _ He' Hj3).
    + by destruct (Hex _ _ _ He Hk4).
  - intros j r1 d Hj Hd. destruct (update_elem _ _ _ _ _ _ _ _ Hi Hsub Hj Hd) as [(r3 & Hj3 & Hd3)|[-> He]]; [|by apply Hdat].
    by eapply (pp_data _ _ Hp).
Qed.
Lemma activate_ok p rs i r d x :
  prep p rs -> rs !! i = Some r -> pl_data p !! d = Some x -> pd_priority x = Z.of_nat i + 1 ->
  loose (pl_items p) d -> (forall j r0, rs !! j = Some r0 -> d ∉ r_all r0) ->
  exists p', nn_priolist_activate d p = Done p' /\ prep p' (<[i := r_add d r]> rs) /\ pl_data p' = pl_data p /\
    forall a, loose (pl_items p) a -> a <> d -> loose (pl_items p') a.
Proof.
  intros Hp Hi Hx Hprio Hloose Hout. destruct (slot_at_ok p rs i r Hp Hi) as (s & Hs & Hok & Hsl).
  unfold nn_priolist_activate, data_read. rewrite Hx. cbn [obind]. rewrite Hprio, Hs. cbn [obind].
  destruct Hok as [Hl Hcur]. pose proof Hl as Hl0. rewrite <- (app_nil_r (r_all r)) in Hl.
  destruct (list_insert_ok _ _ (r_all r) [] d Hl) as (l & h & Hins & Hl' & Hframe); [rewrite app_nil_r; by eapply Hout|done|].
  change (nn_list_end (ps_pipes s)) with (hlink []). rewrite Hins. cbn [obind]. rewrite (list_empty_ok _ _ _ Hl0).
  replace (Z.to_nat (Z.of_nat i + 1 - 1)) with i by lia.
  assert (slots : forall c, c = hlink (r_after (r_add d r)) ->
    Forall2 (slot_ok h) (<[i := {| ps_pipes := l; ps_current := c |}]> (pl_slots p)) (<[i := r_add d r]> rs)).
  { intros c ->. apply (slots_update p rs i r); [done|done| |].
    - split; cbn [ps_pipes ps_current]; [by rewrite r_all_add|]. intros _. split; [cbn; by destruct (r_after r)|done].
    - intros j r1 d1 Hne Hj Hd1. apply Hframe. rewrite not_elem_of_app. split; [intros Hd2; apply Hne; by eapply (pp_apart _ _ Hp)|].
      intros ->%list_elem_of_singleton. by eapply Hout. }
  destruct (update_apart p rs i r (r_add d r) [d] Hp Hi) as [Hapart Hdata].
  { intros y. rewrite r_all_add. set_solver. } { intros j r0 y ->%list_elem_of_singleton. apply Hout. }
  { intros y ->%list_elem_of_singleton. by exists x. }
  pose proof (first_slot_add rs i r d Hi) as Hfirst. pose proof (pp_current _ _ Hp) as Hcu. pose proof (pp_len _ _ Hp) as Hlen.
  assert (Hloo : forall a, loose (pl_items p) a -> a <> d -> loose h a).
  { intros a Ha Hne. unfold loose. rewrite Hframe; [done|]. rewrite not_elem_of_app. split; [|set_solver].
    intros Hin. apply list_elem_of_split in Hin as (p1 & p2 & E). unfold loose in Ha.
    rewrite (lp_links _ _ _ Hl0 p1 a p2 E) in Ha. injection Ha as Ha _. by apply (tlink_in p1). }
  destruct (decide (r_all r = [])) as [Hnil|Hnn].
  - rewrite bool_decide_eq_true_2 by done. cbn [negb]. eexists. split; [done|]. split; [|done].
    constructor; cbn [pl_slots pl_items pl_data pl_current with_slot]; [|by rewrite length_insert|done|done|].
    + apply slots. unfold r_all in Hnil. apply app_eq_nil in Hnil as [_ E]. cbn. by rewrite E.
    + rewrite Hfirst, Hcu. destruct (first_slot rs) as [[k r1]|]; [|done].
      rewrite (proj2 (Z.eqb_neq _ _)) by lia. destruct (Z.ltb_spec (Z.of_nat i + 1) (Z.of_nat k + 1)); lia.
  - rewrite bool_decide_eq_false_2 by done. cbn [negb]. destruct (Hcur Hnn) as [Hne Hc]. eexists. split; [done|]. split; [|done].
    constructor; cbn [pl_slots pl_items pl_data pl_current with_slot]; [|by rewrite length_insert|done|done|].
    + apply slots. rewrite Hc. cbn. by destruct (r_after r).
    + rewrite Hfirst, Hcu. destruct (first_slot rs) as [[k r1]|] eqn:E.
      * apply first_slot_some in E as (Hk & _ & Hkl). destruct (Nat.lt_ge_cases i k) as [Hki|]; [|lia]. by rewrite (Hkl i r Hki Hi) in Hne.
      * by rewrite (first_slot_none rs i r E Hi) in Hne.
Qed.
Lemma first_slot_drop i : forall rs,
  (forall j r, (j < i)%nat -> rs !! j = Some r -> r_after r = []) ->
  first_slot rs = match first_slot (drop i rs) with Some (k, r) => Some ((i + k)%nat, r) | None => None end.
Proof.
  induction i as [|i IH]; intros rs H; [rewrite drop_0; by destruct (first_slot rs) as [[]|]|].
  destruct rs as [|r0 rs]; [done|]. cbn [drop first_slot]. rewrite (H O r0) by (done || lia).
  rewrite (IH rs) by (intros j r Hj Hr; apply (H (S j)); [lia|done]). by destruct (first_slot (drop i rs)) as [[]|].
Qed.
Lemma wrapped_all b a : r_all (wrapped b a) = b ++ a.
Proof. destruct a; [unfold r_all; cbn; by rewrite app_nil_r|done]. Qed.
Lemma wrapped_current b a : b ++ a <> [] -> r_after (wrapped b a) <> [] /\
  (if bool_decide (hlink a = Null) then hlink (b ++ a) else hlink a) = hlink (r_after (wrapped b a)).
Proof.
  intros Hne. destruct a as [|x a]; cbn; [rewrite app_nil_r in *; done|]. done.
Qed.
(** The list and the turn after an advance in a slot *)
Lemma advance_slot (release : bool) h s b d a :
  lrep h (ps_pipes s) (b ++ d :: a) ->
  let b' := if release then b else b ++ [d] in
  exists l h', (if release then nn_list_erase (ps_pipes s) h d
                else olet! it := nn_list_next (ps_pipes s) h (Item d) in Done (it, ps_pipes s, h)) = Done (hlink a, l, h') /\
    lrep h' l (b' ++ a) /\ (forall x, x ∉ b ++ d :: a -> h' !! x = h !! x) /\ (release = true -> loose h' d).
Proof.
  intros Hl b'. destruct release.
  - destruct (list_erase_ok _ _ _ _ _ Hl) as (l & h' & He & Hl' & Hloose & Hf). by exists l, h'.
  - rewrite (list_next_ok _ _ _ _ _ Hl). cbn [obind]. exists (ps_pipes s), h. split; [done|]. unfold b'. by rewrite <- app_assoc.
Qed.
Lemma advance_ok release p rs i r d a :
  prep p rs -> first_slot rs = Some (i, r) -> r_after r = d :: a ->
  exists p', nn_priolist_advance release p = Done p' /\ prep p' (a_advance release rs) /\ pl_data p' = pl_data p /\
    (release = true -> loose (pl_items p') d) /\ (forall x, loose (pl_items p) x -> loose (pl_items p') x).
Proof.
  intros Hp Hfirst Ha. pose proof (first_slot_some _ _ _ Hfirst) as (Hi & _ & Hlow).
  destruct (slot_at_ok p rs i r Hp Hi) as (s & Hs & [Hl Hcur] & Hsl). pose proof (pp_current _ _ Hp) as Hcu. rewrite Hfirst in Hcu.
  unfold r_all in Hl, Hcur. rewrite Ha in Hl, Hcur. destruct Hcur as [_ Hc]; [by destruct (r_before r)|].
  unfold nn_priolist_advance. rewrite Hcu, (proj2 (Z.ltb_lt _ _)) by lia. cbn [nn_assert obind]. rewrite Hs. cbn [obind]. rewrite Hc. cbn [hlink follow obind].
  destruct (advance_slot release (pl_items p) s (r_before r) d a Hl) as (l & h & -> & Hl' & Hframe & Hloose). cbn [obind].
  set (b' := if release then r_before r else r_before r ++ [d]) in *.
  unfold nn_list_begin. rewrite (lp_first _ _ _ Hl'). set (it := if bool_decide _ then _ else _).
  unfold a_advance. rewrite Hfirst. unfold r_advance. rewrite Ha. fold b'. replace (Z.to_nat (Z.of_nat i + 1 - 1)) with i by lia.
  set (r' := wrapped b' a). set (s' := {| ps_pipes := l; ps_current := it |}).
  assert (Hsub : forall x, x ∈ r_all r' -> x ∈ r_all r).
  { intros x. unfold r'. rewrite wrapped_all. unfold r_all. rewrite Ha. unfold b'. destruct release; set_solver. }
  assert (Hslots : Forall2 (slot_ok h) (<[i := s']> (pl_slots p)) (<[i := r']> rs)).
  { apply (slots_update p rs i r); [done|done| |].
    - split; unfold r'; rewrite wrapped_all; [done|]. apply wrapped_current.
    - intros j r1 x Hne Hj Hx. apply Hframe. intros Hin. apply Hne. eapply (pp_apart _ _ Hp); [exact Hj|exact Hi|done|].
      unfold r_all. by rewrite Ha. }
  pose proof (pp_len _ _ Hp) as Hlen. pose proof (lookup_lt_Some _ _ _ Hi) as Hlt.
  change (pl_current (with_slot i s' h (Z.of_nat i + 1) p)) with (Z.of_nat i + 1).
  rewrite (next_slot_ok _ (with_slot i s' h (Z.of_nat i + 1) p) (<[i := r']> rs)) by (rewrite ?length_insert; done || lia).
  cbn [obind]. eexists. split; [done|]. split; [|split; [done|split; [done|]]].
  - destruct (update_apart p rs i r r' [] Hp Hi) as [Hapart Hdata]; [intros x Hx; left; by apply Hsub|set_solver|set_solver|].
    constructor; cbn [pl_slots pl_items pl_data pl_current with_slot]; [done|by rewrite length_insert|done|done|].
    rewrite (first_slot_drop i (<[i := r']> rs)); [by destruct (first_slot (drop i _)) as [[]|]|].
    intros j r1 Hj Hr1. rewrite list_lookup_insert_ne in Hr1 by lia. by eapply Hlow.
  - intros x Hx. destruct (decide (x ∈ r_before r ++ d :: a)) as [Hin|Hin]; [|cbn; unfold loose; by rewrite Hframe].
    apply list_elem_of_split in Hin as (p1 & p2 & E). unfold loose in Hx.
    rewrite (lp_links _ _ _ Hl p1 x p2 E) in Hx. injection Hx as Hx _. by destruct (tlink_in p1).
Qed.
Lemma getpipe_ok p rs :
  prep p rs ->
  match a_current rs with
  | None => nn_priolist_getpipe p = Done None
  | Some d => exists x, pl_data p !! d = Some x /\ nn_priolist_getpipe p = Done (Some (pd_pipe x, d))
  end.
Proof.
  intros Hp. unfold a_current, nn_priolist_getpipe. pose proof (pp_current _ _ Hp) as Hcu.
  destruct (first_slot rs) as [[i r]|] eqn:E; [|by rewrite Hcu]. rewrite Hcu, (proj2 (Z.eqb_neq _ _)) by lia.
  pose proof (first_slot_some _ _ _ E) as (Hi & Hne & _). destruct (slot_at_ok p rs i r Hp Hi) as (s & -> & [Hl Hc] & _).
  cbn [obind]. destruct (r_after r) as [|d a] eqn:Ea; [done|]. cbn [head].
  assert (d ∈ r_all r) as Hd by (unfold r_all; rewrite Ea; set_solver).
  destruct Hc as [_ Hc]; [by intros Hn; rewrite Hn in Hd; apply elem_of_nil in Hd|]. rewrite Hc. cbn [hlink follow obind].
  destruct (pp_data _ _ Hp i r d Hi Hd) as (x & Hx & _). exists x. split; [done|]. unfold data_read. by rewrite Hx.
Qed.

(** ** Membership *)
Definition in_rings (rs : list ring) (x : Z) : Prop := exists i r, rs !! i = Some r /\ x ∈ r_all r.
Lemma in_rings_add rs i r d x : rs !! i = Some r -> (in_rings (<[i := r_add d r]> rs) x <-> in_rings rs x \/ x = d).
Proof.
  intros Hi. pose proof (lookup_lt_Some _ _ _ Hi) as Hlt. split.
  - intros (j & r1 & Hj & Hx). destruct (update_elem rs i r (r_add d r) [d] j r1 x Hi) as [(r0 & ? & ?)|[_ Hd]]; try done.
    + intros y. rewrite r_all_add. set_solver.
    + left. by exists j, r0.
    + right. set_solver.
  - intros [(j & r1 & Hj & Hx)| ->].
    + destruct (decide (j = i)) as [->|Hne]; [|exists j, r1; by rewrite list_lookup_insert_ne].
      exists i, (r_add d r). rewrite list_lookup_insert_eq by done. split; [done|]. simplify_eq. rewrite r_all_add. set_solver.
    + exists i, (r_add d r). rewrite list_lookup_insert_eq by done. split; [done|]. rewrite r_all_add. set_solver.
Qed.
Lemma in_rings_release p rs i r d a x :
  prep p rs -> first_slot rs = Some (i, r) -> r_after r = d :: a ->
  (in_rings (a_advance true rs) x <-> in_rings rs x /\ x <> d).
Proof.
  intros Hp Hf Ha. unfold a_advance. rewrite Hf. unfold r_advance. rewrite Ha.
  pose proof (first_slot_some _ _ _ Hf) as (Hi & _). pose proof (lookup_lt_Some _ _ _ Hi) as Hlt.
  destruct (slot_at_ok p rs i r Hp Hi) as (s & _ & [Hl _] & _). pose proof (lp_nodup _ _ _ Hl) as Hnd.
  unfold r_all in Hnd. rewrite Ha in Hnd. rewrite <- Permutation_middle in Hnd. apply NoDup_cons in Hnd as [Hd _].
  assert (Hall : forall y, y ∈ r_all r <-> y ∈ r_before r ++ a \/ y = d) by (intros y; unfold r_all; rewrite Ha; set_solver).
  split.
  - intros (j & r1 & Hj & Hx). destruct (decide (j = i)) as [->|Hne].
    + rewrite list_lookup_insert_eq in Hj by done. injection Hj as <-. rewrite wrapped_all in Hx.
      split; [exists i, r; split; [done|]; apply Hall; by left|]. by intros ->.
    + rewrite list_lookup_insert_ne in Hj by done. split; [by exists j, r1|]. intros ->.
      apply Hne. eapply (pp_apart _ _ Hp); [exact Hj|exact Hi|done|]. apply Hall. by right.
  - intros [(j & r1 & Hj & Hx) Hne]. destruct (decide (j = i)) as [->|Hji].
    + simplify_eq. exists i, (wrapped (r_before r) a). rewrite list_lookup_insert_eq, wrapped_all by done. split; [done|].
      by apply Hall in Hx as [Hx|Hx].
    + exists j, r1. by rewrite list_lookup_insert_ne.
Qed.
Lemma current_in rs d : a_current rs = Some d -> exists i r a, first_slot rs = Some (i, r) /\ r_after r = d :: a /\ in_rings rs d.
Proof.
  unfold a_current. destruct (first_slot rs) as [[i r]|] eqn:E; [|done]. destruct (r_after r) as [|d' a] eqn:Ea; [done|].
  intros [= ->]. exists i, r, a. split; [done|]. split; [done|]. pose proof (first_slot_some _ _ _ E) as (Hi & _).
  exists i, r. split; [done|]. unfold r_all. rewrite Ea. set_solver.
Qed.
Lemma current_none p rs x : prep p rs -> a_current rs = None -> ~ in_rings rs x.
Proof.
  unfold a_current. intros Hp. destruct (first_slot rs) as [[i r]|] eqn:E.
  - pose proof (first_slot_some _ _ _ E) as (_ & Hne & _). by destruct (r_after r).
  - intros _ (j & r & Hj & Hx). destruct (slot_at_ok p rs j r Hp Hj) as (s & _ & Hok & _).
    rewrite (ring_all_nil _ _ _ Hok) in Hx; [by apply elem_of_nil in Hx|]. by eapply first_slot_none.
Qed.

(** ** A push socket and its connections *)

(** A step: a connection [a] is made, the socket sends, or connection [a]
    processes an event or its other end receives.  The data of a pipe has the
    address of the pipe. *)
Inductive xstep :=
  | Xattach (a prio lbuf rbuf : Z) | Xsend (m : nn_msg) | Xevent (a : Z) (n : nat) | Xrecv (a : Z).
Abbreviation push_state := (nn_priolist * gmap Z conn)%type.
(** A step of connection [a]; the socket is told when its pipe can send. *)
Definition on_conn (a : Z) (x : cstep) (s : push_state) : outcome (option nn_msg * push_state) :=
  match snd s !! a with
  | None => Done (None, s)
  | Some c =>
      olet! '(r, c') := do_step x c in
      let s := (fst s, <[a := c']> (snd s)) in
      if nouts Lft (cn_up c) <? nouts Lft (cn_up c') then olet! s := nn_xpush_out a s in Done (r, s)
      else Done (r, s)
  end.
(** The pipe and the message of a send that was accepted or of a receive *)
Definition xstep_run (x : xstep) (s : push_state) : outcome (option (Z * nn_msg) * push_state) :=
  match x with
  | Xattach a prio lbuf rbuf =>
      match snd s !! a with
      | Some _ => Done (None, s)
      | None =>
          olet! c := connected lbuf rbuf in
          olet! s := nn_xpush_out a (nn_xpush_add a a prio (fst s, <[a := c]> (snd s))) in Done (None, s)
      end
  | Xsend m =>
      olet! x := nn_priolist_getpipe (fst s) in
      olet! '(rc, s) := nn_xpush_send m s in
      Done (if rc =? 0 then option_map (fun x => (fst x, m)) x else None, s)
  | Xevent a n => olet! '(_, s) := on_conn a (Sevent n) s in Done (None, s)
  | Xrecv a => olet! '(r, s) := on_conn a (Srecv Rgt) s in Done (option_map (pair a) r, s)
  end.
Fixpoint xrun (xs : list xstep) (s : push_state) : outcome (list (xstep * option (Z * nn_msg)) * push_state) :=
  match xs with
  | [] => Done ([], s)
  | x :: xs => olet! '(r, s) := xstep_run x s in olet! '(rs, s) := xrun xs s in Done ((x, r) :: rs, s)
  end.
(** What was sent to connection [a], and what its other end received *)
Definition pushed (a : Z) (rs : list (xstep * option (Z * nn_msg))) : list nn_msg :=
  omap (fun r => match r with (Xsend _, Some (b, m)) => if b =? a then Some m else None | _ => None end) rs.
Definition pulled (a : Z) (rs : list (xstep * option (Z * nn_msg))) : list nn_msg :=
  omap (fun r => match r with (Xrecv _, Some (b, m)) => if b =? a then Some m else None | _ => None end) rs.

Record push_ok (s : push_state) (rs : list ring) (snt got : Z -> list nn_msg) : Prop := {
  po_rings : prep (fst s) rs;
  po_conn : forall a c, snd s !! a = Some c ->
    (exists sn gt, conn_ok c sn gt /\ sn Lft = snt a /\ gt Lft = got a) /\
    (exists x, pl_data (fst s) !! a = Some x /\ pd_pipe x = a /\ 1 <= pd_priority x <= NN_PRIOLIST_SLOTS) /\
    (in_rings rs a <-> dv_out (view Lft c) = OUT_IDLE) /\ (~ in_rings rs a -> loose (pl_items (fst s)) a);
  po_in : forall a, in_rings rs a -> is_Some (snd s !! a);
  po_none : forall a, snd s !! a = None -> snt a = [] /\ got a = []
}.
Lemma pipe_send_release t m c :
  active c -> dv_out (view t c) = OUT_IDLE -> dv_sending (view t c) = false -> dv_sent (view t c) = false ->
  exists c', nn_pipe_send t m c = Done (NN_PIPEBASE_RELEASE, c') /\ do_step (Ssend t m) c = Done (Some m, c').
Proof.
  intros [[Hl1 Hl2] [Hr1 Hr2] Hnd Hev] Hout Hs Hp. known c. destruct t; cbn in *; subst; unfold pending in *; cbn in *;
    (eexists; split; [run_conn; rewrite Hp; reflexivity|run_conn; rewrite Hp; reflexivity]).
Qed.
Lemma connected_idle lbuf rbuf c : connected lbuf rbuf = Done c -> dv_out (view Lft c) = OUT_IDLE.
Proof.
  destruct (mq_init_ok lbuf) as (ql & hl & Hil & _), (mq_init_ok rbuf) as (qr & hr & Hir & _).
  unfold connected, nn_sinproc_init. rewrite Hil, Hir. lazy. by intros [= <-].
Qed.
Definition conn_fact (p : nn_priolist) (rs : list ring) (snt got : Z -> list nn_msg) (a : Z) (c : conn) : Prop :=
  (exists sn gt, conn_ok c sn gt /\ sn Lft = snt a /\ gt Lft = got a) /\
  (exists x, pl_data p !! a = Some x /\ pd_pipe x = a /\ 1 <= pd_priority x <= NN_PRIOLIST_SLOTS) /\
  (in_rings rs a <-> dv_out (view Lft c) = OUT_IDLE) /\ (~ in_rings rs a -> loose (pl_items p) a).
(** Connection [a] and the list change, and nothing about the others does. *)
Lemma push_set p cs rs snt got p' rs' a c' snt' got' :
  push_ok (p, cs) rs snt got -> prep p' rs' ->
  (forall b, b <> a -> pl_data p' !! b = pl_data p !! b) ->
  (forall b, b <> a -> (in_rings rs' b <-> in_rings rs b)) ->
  (forall b, b <> a -> loose (pl_items p) b -> loose (pl_items p') b) ->
  (forall b, b <> a -> snt' b = snt b /\ got' b = got b) ->
  conn_fact p' rs' snt' got' a c' -> push_ok (p', <[a := c']> cs) rs' snt' got'.
Proof.
  intros [Hp Hc Hin Hnone] Hp' Hdata Hrings Hloose Hlog Ha. constructor; cbn [fst snd] in *.
  - done.
  - intros b c Hb. destruct (decide (b = a)) as [->|Hne].
    + rewrite lookup_insert, decide_True in Hb by done. by injection Hb as <-.
    + rewrite lookup_insert_ne in Hb by done. destruct (Hlog b Hne) as [-> ->]. rewrite Hdata, Hrings by done.
      destruct (Hc b c Hb) as (? & ? & ? & Hl). split_and!; try done. intros Hnr. by apply Hloose, Hl.
  - intros b Hb. destruct (decide (b = a)) as [->|Hne]; [by rewrite lookup_insert, decide_True; eexists|].
    rewrite lookup_insert_ne by done. apply Hin. by apply Hrings.
  - intros b Hb. destruct (decide (b = a)) as [->|Hne]; [by rewrite lookup_insert, decide_True in Hb|].
    rewrite lookup_insert_ne in Hb by done. destruct (Hlog b Hne) as [-> ->]. by apply Hnone.
Qed.
(** The pipe of [a] enters the rings. *)
Lemma out_ok p rs a x (cs : gmap Z conn) :
  prep p rs -> ~ in_rings rs a -> pl_data p !! a = Some x -> 1 <= pd_priority x <= NN_PRIOLIST_SLOTS -> loose (pl_items p) a ->
  exists p' rs', nn_xpush_out a (p, cs) = Done (p', cs) /\ prep p' rs' /\ pl_data p' = pl_data p /\
    (forall b, in_rings rs' b <-> in_rings rs b \/ b = a) /\ (forall b, b <> a -> loose (pl_items p) b -> loose (pl_items p') b).
Proof.
  intros Hp Hn Hx Hprio Hl. pose proof (pp_len _ _ Hp) as Hlen.
  destruct (lookup_lt_is_Some_2 rs (Z.to_nat (pd_priority x - 1))) as [r Hr]; [lia|].
  destruct (activate_ok p rs _ r a x Hp Hr Hx) as (p' & Ha & Hp' & Hd & Hlo); [lia|done| |].
  { intros j r0 Hj Hin. apply Hn. by exists j, r0. }
  exists p', (<[Z.to_nat (pd_priority x - 1) := r_add a r]> rs). unfold nn_xpush_out, nn_lb_out. cbn [fst snd]. rewrite Ha. cbn [obind].
  split_and!; try done; [intros b; by apply in_rings_add|]. intros b Hb Hlb. by apply Hlo.
Qed.
Lemma slots_ext p rs h' :
  prep p rs -> (forall b, in_rings rs b -> h' !! b = pl_items p !! b) -> Forall2 (slot_ok h') (pl_slots p) rs.
Proof.
  intros Hp He. pose proof (pp_slots _ _ Hp) as Hs. apply Forall2_same_length_lookup_2; [by eapply Forall2_length|].
  intros i s r Hsi Hri. destruct (Forall2_lookup_lr _ _ _ _ _ _ Hs Hsi Hri) as [Hl Hc]. split; [|done].
  eapply lrep_ext; [done|]. intros d Hd. apply He. by exists i, r.
Qed.
Lemma add_ok p rs pipe d prio :
  prep p rs -> ~ in_rings rs d ->
  prep (nn_priolist_add pipe d prio p) rs /\ loose (pl_items (nn_priolist_add pipe d prio p)) d /\
  (forall b, b <> d -> loose (pl_items p) b -> loose (pl_items (nn_priolist_add pipe d prio p)) b).
Proof.
  intros Hp Hn. split_and!.
  - pose proof Hp as [_ Hlen Hap Hd Hc]. constructor; try done.
    + apply (slots_ext p); [done|]. intros b Hb. cbn. apply lookup_insert_ne. by intros ->.
    + intros i r b Hi Hb. cbn. rewrite lookup_insert_ne; [by eapply Hd|]. intros ->. apply Hn. by exists i, r.
  - unfold loose; cbn; unfold nn_list_item_init. by rewrite lookup_insert, decide_True.
  - intros b Hb. unfold loose; cbn; unfold nn_list_item_init. by rewrite lookup_insert_ne.
Qed.

(** ** Steps of the socket *)
Definition xsmall (x : xstep) : Prop :=
  match x with
  | Xattach _ prio lbuf rbuf => 1 <= prio <= NN_PRIOLIST_SLOTS /\ lbuf < 2 ^ 63 /\ rbuf < 2 ^ 63
  | Xsend m => msg_size m < 2 ^ 62
  | _ => True
  end.
Definition xkeeps (x : xstep) (s : push_state) (rs : list ring) (snt got : Z -> list nn_msg) : Prop :=
  exists r s' rs', xstep_run x s = Done (r, s') /\
    push_ok s' rs' (fun b => snt b ++ pushed b [(x, r)]) (fun b => got b ++ pulled b [(x, r)]).
Lemma push_same x s rs snt got :
  push_ok s rs snt got -> xstep_run x s = Done (None, s) -> xkeeps x s rs snt got.
Proof.
  intros Hs Hrun. exists None, s, rs. split; [done|].
  assert (forall b, pushed b [(x, None)] = [] /\ pulled b [(x, None)] = []) as E by (by destruct x).
  destruct Hs as [Hp Hc Hin Hnone]. constructor; try done.
  - intros a c Ha. destruct (E a) as [-> ->]. rewrite !app_nil_r. by apply Hc.
  - intros a Ha. destruct (E a) as [-> ->]. rewrite !app_nil_r. by apply Hnone.
Qed.
Lemma attach_ok a prio lbuf rbuf s rs snt got :
  push_ok s rs snt got -> xsmall (Xattach a prio lbuf rbuf) -> xkeeps (Xattach a prio lbuf rbuf) s rs snt got.
Proof.
  intros Hs (Hprio & Hl & Hr). destruct s as [p cs]. destruct (cs !! a) as [c0|] eqn:E.
  { apply push_same; [done|]. cbn. by rewrite E. }
  destruct (connected_ok lbuf rbuf Hl Hr) as (c & Hc & Hok). pose proof Hs as [Hp _ Hin Hnone]. cbn [fst snd] in *.
  assert (~ in_rings rs a) as Hn by (intros H0%Hin; rewrite E in H0; by destruct H0).
  destruct (add_ok p rs a a prio Hp Hn) as (Hp1 & Hl1 & Hlo1). set (p1 := nn_priolist_add a a prio p) in *.
  assert (pl_data p1 !! a = Some {| pd_pipe := a; pd_priority := prio |}) as Hd1 by (cbn; by rewrite lookup_insert, decide_True).
  destruct (out_ok p1 rs a _ (<[a := c]> cs) Hp1 Hn Hd1 Hprio Hl1) as (p2 & rs2 & Hout & Hp2 & Hd2 & Hin2 & Hlo2).
  exists None, (p2, <[a := c]> cs), rs2. split.
  { cbn [xstep_run fst snd]. rewrite E, Hc. cbn [obind]. unfold nn_xpush_add, nn_lb_add. cbn [fst snd]. fold p1. by rewrite Hout. }
  destruct (Hnone a E) as [Es Eg].
  eapply (push_set p cs rs snt got); [done|done|..].
  - intros b Hb. rewrite Hd2. cbn. by rewrite lookup_insert_ne.
  - intros b Hb. rewrite Hin2. tauto.
  - intros b Hb Hlb. by apply Hlo2, Hlo1.
  - intros b Hb. cbn. by rewrite !app_nil_r.
  - split; [|split; [|split]].
    + exists (fun _ => []), (fun _ => []). cbn. rewrite Es, Eg. done.
    + exists {| pd_pipe := a; pd_priority := prio |}. by rewrite Hd2.
    + rewrite (connected_idle _ _ _ Hc), Hin2. tauto.
    + rewrite Hin2. tauto.
Qed.
Lemma pushed_one a m b : pushed b [(Xsend m, Some (a, m))] = if a =? b then [m] else [].
Proof. unfold pushed. cbn. by destruct (a =? b). Qed.
Lemma send_push_ok m s rs snt got :
  push_ok s rs snt got -> msg_size m < 2 ^ 62 -> xkeeps (Xsend m) s rs snt got.
Proof.
  intros Hs Hm. destruct s as [p cs]. pose proof Hs as [Hp Hc Hin Hnone]. cbn [fst snd] in *.
  pose proof (getpipe_ok p rs Hp) as Hget. destruct (a_current rs) as [d|] eqn:Ecur.
  2: { apply push_same; [done|]. cbn [xstep_run fst]. rewrite Hget. cbn [obind]. unfold nn_xpush_send, nn_lb_send. by rewrite Hget. }
  destruct Hget as (x & Hx & Hget). destruct (current_in rs d Ecur) as (i & r & a & Hf & Ha & Hd).
  destruct (Hin d Hd) as [c Hcd]. destruct (Hc d c Hcd) as ((sn & gt & Hok & Es & Eg) & (x' & Hx' & Hpipe & Hprio) & Hidle & _).
  rewrite Hx in Hx'. injection Hx' as <-. pose proof (proj1 Hidle Hd) as Ho. destruct Hok as [Hact Hdirs].
  destruct (do_queue _ _ _ (Hdirs Lft)) as (xs & _ & _ & Hph). destruct Hph as [Hs1 _ Hs2 _ _ _| | | ]; try congruence.
  destruct (pipe_send_release Lft m c Hact Ho Hs1 Hs2) as (c' & Hsend & Hstep).
  destruct (send_step Lft m c sn gt (conj Hact Hdirs) Hm) as (r1 & c1 & Hstep1 & Hok1 & _).
  rewrite Hstep in Hstep1. injection Hstep1 as <- <-.
  destruct (advance_ok true p rs i r d a Hp Hf Ha) as (p' & Hadv & Hp' & Hdata & Hloose & Hlo).
  pose proof (in_rings_release p rs i r d a) as Hrel.
  exists (Some (d, m)), (p', <[d := c']> cs), (a_advance true rs). split.
  { cbn [xstep_run fst]. rewrite Hget. cbn [obind]. unfold nn_xpush_send, nn_lb_send. rewrite Hget. cbn [obind].
    unfold pipe_send, inproc_pipes. rewrite Hpipe, Hcd, Hsend. cbn [obind].
    change (0 <=? NN_PIPEBASE_RELEASE) with true. change (Z.testbit NN_PIPEBASE_RELEASE 0) with true. cbn [nn_assert obind]. by rewrite Hadv. }
  destruct (send_turns Lft m c Hact Ho Hs1 Hs2) as (c2 & Hstep2 & _ & Hview & _). rewrite Hstep in Hstep2. injection Hstep2 as <-.
  eapply (push_set p cs rs snt got); [done|done|by intros; rewrite Hdata|..].
  - intros b Hb. rewrite Hrel by done. tauto.
  - intros b _. apply Hlo.
  - intros b Hb. rewrite pushed_one, (proj2 (Z.eqb_neq d b)) by congruence. cbn. by rewrite !app_nil_r.
  - split; [|split; [|split]].
    + do 2 eexists. split; [exact Hok1|]. unfold add_to, step_sent, step_got. cbn. rewrite Es, Eg, Z.eqb_refl. done.
    + exists x. by rewrite Hdata.
    + rewrite Hview, Hrel by done. cbn. naive_solver.
    + intros _. by apply Hloose.
Qed.
(** A step of connection [a] in which its push end does not send *)
Lemma on_conn_ok a x p cs rs snt got c :
  push_ok (p, cs) rs snt got -> cs !! a = Some c -> (exists n, x = Sevent n) \/ x = Srecv Rgt ->
  exists r s' rs', on_conn a x (p, cs) = Done (r, s') /\
    push_ok s' rs' snt (fun b => got b ++ if b =? a then got_by Rgt [(x, r)] else []).
Proof.
  intros Hs Ha Hx. pose proof Hs as [Hp Hc _ _]. cbn [fst snd] in *.
  destruct (Hc a c Ha) as ((sn & gt & Hok & Es & Eg) & (y & Hy & Hpipe & Hprio) & Hidle & Hloose).
  destruct (step_ok x c sn gt Hok) as (r & c' & Hstep & Hok' & Htold); [by destruct Hx as [[n ->]| ->]|].
  assert (told (view Lft c) (view Lft c')) as Ht by (destruct (Htold Lft); [destruct Hx as [[n ->]| ->]; done|done]).
  unfold on_conn. cbn [fst snd]. rewrite Ha, Hstep. cbn [obind].
  assert (Hlog : exists sn gt, conn_ok c' sn gt /\ sn Lft = snt a /\ gt Lft = got a ++ got_by Rgt [(x, r)]).
  { do 2 eexists. split; [exact Hok'|]. unfold add_to. rewrite Es, Eg. split; [|done].
    destruct Hx as [[n ->]| ->]; apply app_nil_r. }
  assert (Hother : forall b, b <> a -> snt b = snt b /\ (got b ++ if b =? a then got_by Rgt [(x, r)] else []) = got b)
    by (intros b Hb; rewrite (proj2 (Z.eqb_neq b a)), app_nil_r; done).
  destruct Ht as [[Hout Houts]|(Hasync & Hout & Houts)]; cbn [view dv_outs] in Houts.
  - rewrite (proj2 (Z.ltb_ge _ _)) by lia. exists r, (p, <[a := c']> cs), rs. split; [done|].
    eapply (push_set p cs rs snt got); [done|done|done|done|done|exact Hother|].
    split; [|split; [|split]]; [by rewrite Z.eqb_refl|by exists y|by rewrite Hidle, Hout|done].
  - rewrite (proj2 (Z.ltb_lt _ _)) by lia.
    assert (~ in_rings rs a) as Hn by (rewrite Hidle, Hasync; done).
    destruct (out_ok p rs a y (<[a := c']> cs) Hp Hn Hy Hprio (Hloose Hn)) as (p' & rs' & Hrun & Hp' & Hd' & Hin' & Hlo').
    rewrite Hrun. cbn [obind]. exists r, (p', <[a := c']> cs), rs'. split; [done|].
    eapply (push_set p cs rs snt got); [done|done|by intros; rewrite Hd'| |exact Hlo'|exact Hother|].
    { intros b Hb. rewrite Hin'. tauto. }
    split; [|split; [|split]]; [by rewrite Z.eqb_refl|exists y; by rewrite Hd'|rewrite Hin', Hout; tauto|rewrite Hin'; tauto].
Qed.
Lemma push_ext s rs snt got snt' got' :
  push_ok s rs snt got -> (forall b, snt b = snt' b) -> (forall b, got b = got' b) -> push_ok s rs snt' got'.
Proof.
  intros [Hp Hc Hin Hn] Hs Hg. constructor; try done.
  - intros a c Ha. rewrite <- Hs, <- Hg. by apply Hc.
  - intros a Ha. rewrite <- Hs, <- Hg. by apply Hn.
Qed.
Lemma xstep_ok x s rs snt got : push_ok s rs snt got -> xsmall x -> xkeeps x s rs snt got.
Proof.
  intros Hs Hx. destruct x as [a prio lbuf rbuf|m|a n|a]; [by apply attach_ok|by apply send_push_ok| |]; destruct s as [p cs].
  all: destruct (cs !! a) as [c|] eqn:E; [|apply push_same; [done|]; cbn [xstep_run]; unfold on_conn; cbn [snd]; by rewrite E].
  - destruct (on_conn_ok a (Sevent n) p cs rs snt got c Hs E) as (r & s' & rs' & Hrun & Hs'); [left; by exists n|].
    exists None, s', rs'. cbn [xstep_run]. rewrite Hrun. split; [done|].
    eapply push_ext; [done|intros b; symmetry; apply app_nil_r|]. intros b. cbn. by destruct (b =? a).
  - destruct (on_conn_ok a (Srecv Rgt) p cs rs snt got c Hs E) as (r & s' & rs' & Hrun & Hs'); [by right|].
    exists (option_map (pair a) r), s', rs'. cbn [xstep_run]. rewrite Hrun. split; [done|].
    eapply push_ext; [done|intros b; symmetry; apply app_nil_r|]. intros b.
    destruct r as [m|]; cbn; rewrite ?(Z.eqb_sym a b); by destruct (b =? a).
Qed.
Lemma xrun_ok xs : forall s rs snt got,
  push_ok s rs snt got -> Forall xsmall xs ->
  exists l s' rs', xrun xs s = Done (l, s') /\ push_ok s' rs' (fun b => snt b ++ pushed b l) (fun b => got b ++ pulled b l).
Proof.
  induction xs as [|x xs IH]; intros s rs snt got Hs Hx; cbn [xrun].
  { exists [], s, rs. split; [done|]. eapply push_ext; [done|..]; intros b; symmetry; apply app_nil_r. }
  inversion_clear Hx as [|? ? Hx1 Hxs]. destruct (xstep_ok x s rs snt got Hs Hx1) as (r & s1 & rs1 & Hrun & Hs1).
  rewrite Hrun. cbn [obind]. destruct (IH s1 rs1 _ _ Hs1 Hxs) as (l & s2 & rs2 & Hrun2 & Hs2). rewrite Hrun2. cbn [obind].
  exists ((x, r) :: l), s2, rs2. split; [done|].
  eapply push_ext; [done|..]; intros b; cbn beta; rewrite <- app_assoc; f_equal; symmetry; exact (omap_app _ [(x, r)] l).
Qed.
Definition push_init : push_state := (nn_priolist_init ∅ ∅, ∅).
Definition no_rings : list ring := replicate (Z.to_nat NN_PRIOLIST_SLOTS) {| r_before := []; r_after := [] |}.
Lemma no_rings_empty i r : no_rings !! i = Some r -> r = {| r_before := []; r_after := [] |}.
Proof. intros H. by apply lookup_replicate in H as [-> _]. Qed.
Lemma push_init_ok : push_ok push_init no_rings (fun _ => []) (fun _ => []).
Proof.
  constructor; cbn [push_init fst snd]; try done.
  - constructor; try done.
    + apply Forall2_replicate. split; [apply list_init_ok|done].
    + intros i j r r' d Hi _ Hd. rewrite (no_rings_empty i r Hi) in Hd. by apply elem_of_nil in Hd.
    + intros i r d Hi Hd. rewrite (no_rings_empty i r Hi) in Hd. by apply elem_of_nil in Hd.
  - intros a (i & r & Hi & Hd). rewrite (no_rings_empty i r Hi) in Hd. by apply elem_of_nil in Hd.
Qed.

Lemma events_ok s rs snt got :
  push_ok s rs snt got ->
  (nn_xpush_events s = 0 <-> forall a c, snd s !! a = Some c -> pb_out (sp_pipe (cn_l c)) <> OUT_IDLE).
Proof.
  intros [Hp Hc Hin _]. unfold nn_xpush_events, nn_lb_can_send, nn_priolist_is_active. pose proof (pp_current _ _ Hp) as Hcu.
  destruct (first_slot rs) as [[i r]|] eqn:E; rewrite Hcu.
  - rewrite (proj2 (Z.eqb_neq (Z.of_nat i + 1) (-1))) by lia. split; [done|]. intros Hall. exfalso.
    assert (exists d, a_current rs = Some d) as [d Hd].
    { pose proof (first_slot_some _ _ _ E) as (_ & Hne & _). unfold a_current. rewrite E. destruct (r_after r) as [|d l]; [done|]. by exists d. }
    destruct (current_in rs d Hd) as (_ & _ & _ & _ & _ & Hr). destruct (Hin d Hr) as [c Hcd].
    apply (Hall d c Hcd). by apply (Hc d c Hcd).
  - split; [|done]. intros _ a c Ha Hidle. destruct (Hc a c Ha) as (_ & _ & Hiff & _).
    apply (current_none (fst s) rs a Hp); [unfold a_current; by rewrite E|]. by apply Hiff.
Qed.
(** C17: a push socket hands each message to one connection.  Connections are
    made, messages sent, events processed and messages received in any order.
    Nothing faults; what the end of a connection has received is a prefix of
    what the socket handed to that connection, in order, the rest being in
    its queue with at most one message in the sender's hands; and the socket
    says it cannot send exactly when no connection is ready to take a
    message. *)
Theorem push_once xs :
  Forall xsmall xs ->
  exists l s', xrun xs push_init = Done (l, s') /\
    (forall a c, snd s' !! a = Some c ->
      exists q w, mrep (sp_queue (cn_r c)) q /\ pushed a l = pulled a l ++ q ++ w /\ lenZ w <= 1) /\
    (nn_xpush_events s' = 0 <-> forall a c, snd s' !! a = Some c -> pb_out (sp_pipe (cn_l c)) <> OUT_IDLE).
Proof.
  intros Hx. destruct (xrun_ok xs _ _ _ _ push_init_ok Hx) as (l & s & rs & Hrun & Hs). exists l, s. split; [done|].
  split; [|by eapply events_ok]. intros a c Ha. destruct (po_conn _ _ _ _ Hs a c Ha) as ((sn & gt & [_ Hd] & Es & Eg) & _).
  destruct (do_queue _ _ _ (Hd Lft)) as (q & Hq & _ & Hph). rewrite Es, Eg in Hph. cbn [app] in Hph.
  destruct Hph as [_ _ _ _ _ E|_ _ _ _ _ E|_ _ _ _ _ _ E|_ _ _ _ _ E]; rewrite E.
  1,4: exists q, []; by rewrite app_nil_r.
  all: by exists q, [dv_msg (view Lft c)].
Qed.
(** Two workers; three messages, of which the third waits for one of them to
    have taken its first. *)
Definition demo_pushes : list xstep :=
  [Xattach 1 8 100 100; Xattach 2 8 100 100; Xsend (demo_msg 1); Xsend (demo_msg 2); Xsend (demo_msg 3);
   Xevent 2 0; Xevent 2 0; Xsend (demo_msg 3); Xevent 1 0; Xrecv 1; Xrecv 2].
Lemma demo_pushes_small : Forall xsmall demo_pushes.
Proof. by repeat constructor. Qed.
Lemma push_once_witness :
  exists l s', xrun demo_pushes push_init = Done (l, s') /\
    (forall a c, snd s' !! a = Some c ->
      exists q w, mrep (sp_queue (cn_r c)) q /\ pushed a l = pulled a l ++ q ++ w /\ lenZ w <= 1) /\
    (nn_xpush_events s' = 0 <-> forall a c, snd s' !! a = Some c -> pb_out (sp_pipe (cn_l c)) <> OUT_IDLE).
Proof. exact (push_once demo_pushes demo_pushes_small). Defined.
Example demo_pushes_run :
  exists l s', xrun demo_pushes push_init = Done (l, s') /\ pushed 1 l = [demo_msg 1] /\
    pushed 2 l = [demo_msg 2; demo_msg 3] /\ pulled 1 l = [demo_msg 1] /\ pulled 2 l = [demo_msg 2].
Proof. do 2 eexists. split; [vm_compute; reflexivity|]. by vm_compute. Qed.

(** ** Turns *)

(** The pipe whose turn it is, and the turn moves on. *)
Definition turn (p : nn_priolist) : outcome (option (Z * Z) * nn_priolist) :=
  olet! x := nn_priolist_getpipe p in olet! p := nn_priolist_advance false p in Done (x, p).
Fixpoint tour (n : nat) (p : nn_priolist) : outcome (list (option (Z * Z)) * nn_priolist) :=
  match n with
  | O => Done ([], p)
  | S n => olet! '(x, p) := turn p in olet! '(xs, p) := tour n p in Done (x :: xs, p)
  end.
Lemma tour_add n m p :
  tour (n + m) p = olet! '(xs, p) := tour n p in olet! '(ys, p) := tour m p in Done (xs ++ ys, p).
Proof.
  revert p. induction n as [|n IH]; intros p; cbn [Nat.add tour obind].
  - by destruct (tour m p) as [[ys p']|f].
  - destruct (turn p) as [[x p1]|f]; cbn [obind]; [|done]. rewrite IH. destruct (tour n p1) as [[xs p2]|f]; cbn [obind]; [|done].
    by destruct (tour m p2) as [[ys p3]|f].
Qed.
(** The pipes, by the addresses of their data *)
Definition takers (xs : list (option (Z * Z))) : list Z := omap (option_map snd) xs.
Lemma first_slot_stays rs i r r' :
  first_slot rs = Some (i, r) -> r_after r' <> [] -> first_slot (<[i := r']> rs) = Some (i, r').
Proof.
  intros Hf Hne. pose proof (first_slot_some _ _ _ Hf) as (Hi & _ & Hlow). apply first_slot_intro; [|done|].
  - apply list_lookup_insert_eq. by eapply lookup_lt_Some.
  - intros j r1 Hj Hr1. rewrite list_lookup_insert_ne in Hr1 by lia. by eapply Hlow.
Qed.
Lemma wrapped_after b a : b ++ a <> [] -> r_after (wrapped b a) <> [].
Proof. intros H. by apply wrapped_current. Qed.
(** The pipes [k] have their turns one after the other. *)
Lemma tour_part k : forall b a p rs i,
  prep p rs -> first_slot rs = Some (i, {| r_before := b; r_after := k ++ a |}) -> k ++ a <> [] ->
  exists xs p', tour (length k) p = Done (xs, p') /\ takers xs = k /\ prep p' (<[i := wrapped (b ++ k) a]> rs).
Proof.
  induction k as [|d k IH]; intros b a p rs i Hp Hf Hne; cbn [length tour].
  { exists [], p. split; [done|]. split; [done|]. rewrite app_nil_r. cbn [app] in *.
    rewrite list_insert_id; [done|]. destruct a; [done|]. by apply first_slot_some in Hf as (? & _). }
  pose proof (getpipe_ok p rs Hp) as Hget. unfold a_current in Hget. rewrite Hf in Hget. cbn [r_after app head] in Hget.
  destruct Hget as (x & Hx & Hget). destruct (advance_ok false p rs i _ d (k ++ a) Hp Hf eq_refl) as (p1 & Hadv & Hp1 & _).
  unfold turn. rewrite Hget. cbn [obind]. rewrite Hadv. cbn [obind].
  unfold a_advance in Hp1. rewrite Hf in Hp1. unfold r_advance in Hp1. cbn [r_after r_before app] in Hp1.
  assert (Hf1 : first_slot (<[i := wrapped (b ++ [d]) (k ++ a)]> rs) = Some (i, wrapped (b ++ [d]) (k ++ a)))
    by (eapply first_slot_stays; [exact Hf|]; apply wrapped_after; by destruct b).
  destruct (k ++ a) as [|e l] eqn:E.
  - apply app_eq_nil in E as [-> ->]. cbn [length tour obind]. by exists [Some (pd_pipe x, d)], p1.
  - destruct (IH (b ++ [d]) a p1 _ i Hp1) as (xs & p2 & -> & Hk & Hp2); [by rewrite E|by rewrite E|].
    cbn [obind]. exists (Some (pd_pipe x, d) :: xs), p2. split; [done|]. split; [cbn; by f_equal|].
    rewrite list_insert_insert_eq, <- app_assoc in Hp2. done.
Qed.
(** The pipes of a socket take turns.  In as many consecutive turns as
    there are active pipes of the highest priority, each of them is used
    exactly once, in the order of the ring from the one whose turn it is, and
    then the list is as it was. *)
Theorem round_robin p rs i r :
  prep p rs -> first_slot rs = Some (i, r) ->
  exists xs p', tour (length (r_all r)) p = Done (xs, p') /\ takers xs = r_after r ++ r_before r /\
    NoDup (takers xs) /\ prep p' rs.
Proof.
  intros Hp Hf. pose proof (first_slot_some _ _ _ Hf) as (Hi & Hne & _). destruct r as [b a]. cbn [r_after r_before] in *.
  destruct (slot_at_ok p rs i _ Hp Hi) as (s & _ & [Hl _] & _). pose proof (lp_nodup _ _ _ Hl) as Hnd. unfold r_all in Hnd. cbn in Hnd.
  destruct (tour_part a b [] p rs i Hp) as (xs & p1 & Hrun1 & Hk1 & Hp1); [by rewrite app_nil_r|by rewrite app_nil_r|].
  assert (Hf1 : first_slot (<[i := wrapped (b ++ a) []]> rs) = Some (i, wrapped (b ++ a) []))
    by (eapply first_slot_stays; [exact Hf|]; cbn; by destruct b).
  destruct (tour_part b [] a p1 _ i Hp1 Hf1) as (ys & p2 & Hrun2 & Hk2 & Hp2); [by destruct b|].
  exists (xs ++ ys), p2. unfold r_all. cbn [r_before r_after]. rewrite length_app, Nat.add_comm, tour_add, Hrun1. cbn [obind].
  rewrite Hrun2. cbn [obind]. split; [done|]. unfold takers in *. rewrite omap_app, Hk1, Hk2. split; [done|]. split; [by rewrite Permutation_app_comm|].
  rewrite list_insert_insert_eq in Hp2. cbn [app] in Hp2. destruct a as [|d a]; [done|]. cbn [wrapped] in Hp2.
  by rewrite list_insert_id in Hp2.
Qed.

(** ** Removal *)

(** C38: removing the pipe that has the turn leaves the list pointing at it.
    nn_priolist_rm takes the pipe out of its slot but not out of the slot's
    current pointer: once nn_xpush_rm has freed the data, the next send on
    the socket reads it. *)
Theorem rm_current_dangles {P} `{PipeOps P} p (ps : P) rs d m :
  prep p rs -> a_current rs = Some d ->
  exists s', nn_xpush_rm d (p, ps) = Done s' /\ nn_xpush_send m s' = Fault UseAfterFree.
Proof.
  intros Hp Hcur. destruct (current_in rs d Hcur) as (i & [b a0] & a & Hf & Ha & _). cbn [r_after] in Ha. subst a0.
  pose proof (first_slot_some _ _ _ Hf) as (Hi & _). destruct (slot_at_ok p rs i _ Hp Hi) as (s & Hs & [Hl Hc] & Hsl).
  unfold r_all in Hl, Hc. cbn [r_before r_after] in Hl, Hc. destruct Hc as [_ Hc]; [by destruct b|].
  assert (d ∈ r_all {| r_before := b; r_after := d :: a |}) as Hd by (unfold r_all; cbn; set_solver).
  destruct (pp_data _ _ Hp i _ d Hi Hd) as (x & Hx & Hprio). pose proof (pp_current _ _ Hp) as Hcu. rewrite Hf in Hcu.
  destruct (list_erase_ok _ _ _ _ _ Hl) as (l & h & He & _ & Hloose & _).
  unfold nn_xpush_rm, nn_lb_rm, nn_priolist_rm, data_read. cbn [fst snd]. rewrite Hx. cbn [obind]. unfold lread.
  rewrite (lp_links _ _ _ Hl b d a eq_refl). cbn [obind]. unfold nn_list_item_isinlist. cbn [li_prev].
  rewrite (bool_decide_eq_true_2 (tlink b <> NotIn)) by apply tlink_in. rewrite Hprio, Hs. cbn [obind]. rewrite He. cbn [obind].
  unfold nn_list_item_term, lread. cbn [pl_items with_slot]. unfold loose in Hloose. rewrite Hloose. cbn [obind].
  unfold nn_list_item_isinlist. cbn [li_prev]. rewrite (bool_decide_eq_false_2 (NotIn <> NotIn)) by (intros Hn; by apply Hn). cbn [negb nn_assert obind].
  eexists. split; [done|]. unfold nn_xpush_send, nn_lb_send, nn_priolist_getpipe. cbn [data_free pl_current with_slot].
  rewrite Hcu, (proj2 (Z.eqb_neq _ _)) by lia. unfold slot_at. cbn [pl_slots data_free with_slot]. rewrite (proj2 (Z.leb_gt _ _)) by lia.
  replace (Z.to_nat (Z.of_nat i + 1 - 1)) with i by lia. rewrite list_lookup_insert_eq by (by eapply lookup_lt_Some).
  cbn [obind ps_current]. rewrite Hc. cbn [hlink follow obind]. unfold data_read. cbn [data_free pl_data]. by rewrite lookup_delete_eq.
Qed.

(** Two pipes of priority 8, the first of which has the turn *)
Definition two_pipes : outcome nn_priolist :=
  let p := nn_priolist_add 2 20 8 (nn_priolist_add 1 10 8 (nn_priolist_init ∅ ∅)) in
  olet! p := nn_priolist_activate 10 p in nn_priolist_activate 20 p.
Definition two_rings : list ring := <[7%nat := {| r_before := []; r_after := [10; 20] |}]> no_rings.
Lemma not_in_no_rings d : ~ in_rings no_rings d.
Proof. intros (i & r & Hi & Hd). rewrite (no_rings_empty i r Hi) in Hd. by apply elem_of_nil in Hd. Qed.
Lemma two_pipes_ok : exists p, two_pipes = Done p /\ prep p two_rings.
Proof.
  pose proof (po_rings _ _ _ _ push_init_ok) as Hp0. cbn [push_init fst] in Hp0.
  destruct (add_ok _ _ 1 10 8 Hp0 (not_in_no_rings 10)) as (Hp1 & Hl1 & _).
  destruct (add_ok _ _ 2 20 8 Hp1 (not_in_no_rings 20)) as (Hp2 & Hl2 & Hlo2).
  unfold two_pipes. set (p2 := nn_priolist_add 2 20 8 _) in *.
  destruct (activate_ok p2 no_rings 7 {| r_before := []; r_after := [] |} 10 {| pd_pipe := 1; pd_priority := 8 |} Hp2)
    as (p3 & -> & Hp3 & Hd3 & Hlo3); [done..|by apply Hlo2| |].
  { intros j r Hj. rewrite (no_rings_empty j r Hj). apply not_elem_of_nil. }
  cbn [obind].
  destruct (activate_ok p3 _ 7 {| r_before := []; r_after := [10] |} 20 {| pd_pipe := 2; pd_priority := 8 |} Hp3)
    as (p4 & -> & Hp4 & _ & _); [done|by rewrite Hd3|done|by apply Hlo3| |by exists p4].
  intros j r Hj. destruct (decide (j = 7%nat)) as [->|Hne]; [injection Hj as <-; cbn; set_solver|].
  rewrite list_lookup_insert_ne in Hj by done. rewrite (no_rings_empty j r Hj). apply not_elem_of_nil.
Qed.
Lemma round_robin_witness :
  exists p xs p', two_pipes = Done p /\ tour 2 p = Done (xs, p') /\ takers xs = [10; 20] /\ NoDup (takers xs) /\ prep p' two_rings.
Proof.
  destruct two_pipes_ok as (p & Hrun & Hp).
  destruct (round_robin p two_rings 7 {| r_before := []; r_after := [10; 20] |} Hp eq_refl) as (xs & p' & H).
  exists p, xs, p'. split; [exact Hrun|exact H].
Defined.
Lemma rm_current_dangles_witness :
  exists p s', two_pipes = Done p /\ nn_xpush_rm 10 (p, (∅ : gmap Z conn)) = Done s' /\
    nn_xpush_send (demo_msg 1) s' = Fault UseAfterFree.
Proof.
  destruct two_pipes_ok as (p & Hrun & Hp).
  destruct (rm_current_dangles p (∅ : gmap Z conn) two_rings 10 (demo_msg 1) Hp eq_refl) as (s' & H).
  exists p, s'. split; [exact Hrun|exact H].
Defined.
