(* ===== verification/Trie.v ===== *)
(** * Trie: the subscriptions of a sub socket
    (lib/nanomsg/src/protocols/pubsub/trie.c)

    A patricia trie with a reference count per node.  Every node has one
    pointer to it, so the trie is a tree of nodes; a pointer to a pointer
    ([node] in the code) is the place in the tree where a function puts its
    result.  [tn_prefix] is the part of the array [prefix] up to [prefix_len],
    [Sparse] holds the part of [children] up to [type], [tn_array] is the array
    of pointers behind the node, and indices into it are checked.  The end of
    the data of a message is the end of its block. *)
From stdpp Require Import gmultiset.
From S2P Require Import Prelude.

Definition NN_TRIE_PREFIX_MAX : Z := 10.
Definition NN_TRIE_SPARSE_MAX : Z := 8.
Definition NN_TRIE_DENSE_TYPE : Z := NN_TRIE_SPARSE_MAX + 1.
Definition EINVAL : Z := 22.

Inductive node_u :=
  | Sparse (children : bytes)
  | Dense (min max nbr : Z).
Inductive nn_trie_node :=
  | TNode (refcount : Z) (prefix : bytes) (u : node_u) (array : list (option nn_trie_node)).
Definition tn_refcount (n : nn_trie_node) : Z := let 'TNode r _ _ _ := n in r.
Definition tn_prefix (n : nn_trie_node) : bytes := let 'TNode _ p _ _ := n in p.
Definition tn_u (n : nn_trie_node) : node_u := let 'TNode _ _ u _ := n in u.
Definition tn_array (n : nn_trie_node) : list (option nn_trie_node) := let 'TNode _ _ _ a := n in a.
Definition tn_type (n : nn_trie_node) : Z :=
  match tn_u n with Sparse cs => lenZ cs | Dense _ _ _ => NN_TRIE_DENSE_TYPE end.
Definition set_refcount (r : Z) (n : nn_trie_node) : nn_trie_node := TNode r (tn_prefix n) (tn_u n) (tn_array n).
Definition set_prefix (p : bytes) (n : nn_trie_node) : nn_trie_node := TNode (tn_refcount n) p (tn_u n) (tn_array n).
Definition set_array (u : node_u) (a : list (option nn_trie_node)) (n : nn_trie_node) : nn_trie_node :=
  TNode (tn_refcount n) (tn_prefix n) u a.

(** The length of the common part of the prefix and the data *)
Fixpoint nn_node_check_prefix (prefix data : bytes) : Z :=
  match prefix, data with
  | p :: prefix, d :: data => if p =? d then 1 + nn_node_check_prefix prefix data else 0
  | _, _ => 0
  end.
Definition nn_node_has_subscribers (n : nn_trie_node) : bool := negb (tn_refcount n =? 0).
Definition nn_node_child (n : nn_trie_node) (index : Z) : outcome (option nn_trie_node) :=
  if index <? 0 then Fault HeapOverflow
  else match tn_array n !! Z.to_nat index with Some ch => Done ch | None => Fault HeapOverflow end.
Definition set_child (n : nn_trie_node) (index : Z) (ch : option nn_trie_node) : outcome nn_trie_node :=
  olet! _ := nn_node_child n index in Done (set_array (tn_u n) (<[Z.to_nat index := ch]> (tn_array n)) n).
Fixpoint char_index (cs : bytes) (c : Z) : option Z :=
  match cs with
  | [] => None
  | x :: cs => if x =? c then Some 0 else Z.succ <$> char_index cs c
  end.
(** The index of the child for a character *)
Definition nn_node_next (n : nn_trie_node) (c : Z) : option Z :=
  match tn_u n with
  | Sparse cs => char_index cs c
  | Dense mn mx _ => if (c <? mn) || (mx <? c) then None else Some (c - mn)
  end.

(** Merge a node without subscribers and its only child, if the prefixes fit. *)
Definition nn_node_compact (self : nn_trie_node) : outcome nn_trie_node :=
  if nn_node_has_subscribers self then Done self
  else match tn_u self with
  | Sparse [c] =>
      olet! ch := nn_node_child self 0 in
      match ch with
      | None => Fault NullDeref
      | Some ch =>
          if NN_TRIE_PREFIX_MAX <? lenZ (tn_prefix self) + lenZ (tn_prefix ch) + 1 then Done self
          else Done (set_prefix (tn_prefix self ++ c :: tn_prefix ch) ch)
      end
  | _ => Done self
  end.

(** ** Subscribing *)

(** Step 5: the subscription itself *)
Definition step5 (n : nn_trie_node) : Z * nn_trie_node :=
  let r := u32 (tn_refcount n + 1) in (if r =? 1 then 1 else 0, set_refcount r n).
(** Step 4: nodes for the rest of the string *)
Fixpoint step4 (fuel : nat) (data : bytes) : outcome (Z * nn_trie_node) :=
  if NN_TRIE_PREFIX_MAX <? lenZ data then
    match fuel, dropZ NN_TRIE_PREFIX_MAX data with
    | S fuel, c :: rest =>
        olet! '(r, ch) := step4 fuel rest in
        Done (r, TNode 0 (takeZ NN_TRIE_PREFIX_MAX data) (Sparse [c]) [Some ch])
    | _, _ => Fault OutOfFuel
    end
  else Done (step5 (TNode 0 data (Sparse []) [])).
(** The new child at [index], where there was none *)
Definition new_child (n : nn_trie_node) (index : Z) (data : bytes) : outcome (Z * nn_trie_node) :=
  olet! ch := nn_node_child n index in
  match ch with
  | Some _ => Fault AssertFailed
  | None =>
      olet! '(r, ch) := step4 (length data) data in
      olet! n := set_child n index (Some ch) in Done (r, n)
  end.
Fixpoint char_min (cs : bytes) (m : Z) : Z :=
  match cs with [] => m | c :: cs => char_min cs (if m <? c then m else c) end.
Fixpoint char_max (cs : bytes) (m : Z) : Z :=
  match cs with [] => m | c :: cs => char_max cs (if c <? m then m else c) end.
(** The pointers of the sparse node, each at the place of its character *)
Fixpoint move_children (cs : bytes) (old : list (option nn_trie_node)) (mn : Z) (a : list (option nn_trie_node))
    : list (option nn_trie_node) :=
  match cs, old with
  | c :: cs, ch :: old => move_children cs old mn (<[Z.to_nat (c - mn) := ch]> a)
  | _, _ => a
  end.
(** Step 3: a place for the next character in the array of children *)
Definition step3 (n : nn_trie_node) (data : bytes) : outcome (Z * nn_trie_node) :=
  match data with
  | [] => Done (step5 n)
  | c :: rest =>
      match tn_u n with
      | Sparse cs =>
          if lenZ cs <? NN_TRIE_SPARSE_MAX then
            new_child (set_array (Sparse (cs ++ [c])) (tn_array n ++ [None]) n) (lenZ cs) rest
          else
            let mn := char_min cs 255 in let mx := char_max cs 0 in
            let mn := if mn <? c then mn else c in let mx := if c <? mx then mx else c in
            let a := move_children cs (tn_array n) mn (replicate (Z.to_nat (mx - mn + 1)) None) in
            new_child (TNode 0 (tn_prefix n) (Dense mn mx (lenZ cs + 1)) a) (c - mn) rest
      | Dense mn mx nbr =>
          let n :=
            if (c <? mn) || (mx <? c) then
              let mn' := if mn <? c then mn else c in let mx' := if c <? mx then mx else c in
              let a := if negb (mn =? mn') then replicate (Z.to_nat (mn - mn')) None ++ tn_array n
                       else tn_array n ++ replicate (Z.to_nat ((mx' - mn' + 1) - (mx - mn + 1))) None in
              set_array (Dense mn' mx' (u16 (nbr + 1))) a n
            else n in
          match tn_u n with
          | Dense mn _ _ => new_child n (c - mn) rest
          | _ => Fault AssertFailed
          end
      end
  end.
(** Step 2: split the prefix after [pos] characters *)
Definition step2 (ch : nn_trie_node) (pos : Z) (data : bytes) : outcome (Z * nn_trie_node) :=
  match dropZ pos (tn_prefix ch) with
  | [] => Fault HeapOverflow
  | c :: rest =>
      olet! ch' := nn_node_compact (set_prefix rest ch) in
      step3 (TNode 0 (takeZ pos (tn_prefix ch)) (Sparse [c]) [Some ch']) data
  end.
(** Step 1: the way down *)
Fixpoint subscribe (fuel : nat) (node : option nn_trie_node) (data : bytes) : outcome (Z * nn_trie_node) :=
  match node with
  | None => step4 (length data) data
  | Some n =>
      let pos := nn_node_check_prefix (tn_prefix n) data in
      let data := dropZ pos data in
      if pos <? lenZ (tn_prefix n) then step2 n pos data
      else match data with
      | [] => Done (step5 n)
      | c :: rest =>
          match nn_node_next n c with
          | None => step3 n data
          | Some i =>
              olet! ch := nn_node_child n i in
              match fuel with
              | O => Fault OutOfFuel
              | S fuel =>
                  olet! '(r, ch) := subscribe fuel ch rest in
                  olet! n := set_child n i (Some ch) in Done (r, n)
              end
          end
      end
  end.

(** ** Matching a message *)
Fixpoint node_match (fuel : nat) (node : option nn_trie_node) (data : bytes) : outcome Z :=
  match node with
  | None => Done 0
  | Some n =>
      if negb (nn_node_check_prefix (tn_prefix n) data =? lenZ (tn_prefix n)) then Done 0
      else
        let data := dropZ (lenZ (tn_prefix n)) data in
        if nn_node_has_subscribers n then Done 1
        else match data with
        | [] => Fault HeapOverflow           (* the byte behind the message *)
        | c :: rest =>
            olet! ch := match nn_node_next n c with Some i => nn_node_child n i | None => Done None end in
            match fuel with O => Fault OutOfFuel | S fuel => node_match fuel ch rest end
        end
  end.

(** ** Unsubscribing *)
Definition found (self : option nn_trie_node) : outcome (Z * option nn_trie_node) :=
  match self with
  | None => Done (- EINVAL, None)
  | Some n =>
      if negb (nn_node_has_subscribers n) then Done (- EINVAL, Some n)
      else
        let n := set_refcount (tn_refcount n - 1) n in
        if tn_refcount n =? 0 then
          if tn_type n =? 0 then Done (1, None)
          else olet! n := nn_node_compact n in Done (1, Some n)
        else Done (0, Some n)
  end.
(** The index of the first child from the left, or the length *)
Fixpoint first_child (a : list (option nn_trie_node)) : Z :=
  match a with None :: a => 1 + first_child a | _ => 0 end.
(** The index of the last child from [i] downwards, or 0 *)
Fixpoint last_child (i : nat) (a : list (option nn_trie_node)) : Z :=
  match i with
  | O => 0
  | S i' => match a !! i with Some None => last_child i' a | _ => Z.of_nat i end
  end.
(** The children of a dense array with their characters *)
Fixpoint collect (c : Z) (a : list (option nn_trie_node)) : list (Z * nn_trie_node) :=
  match a with
  | [] => []
  | Some ch :: a => (c, ch) :: collect (c + 1) a
  | None :: a => collect (c + 1) a
  end.
Definition to_sparse (n : nn_trie_node) (mn : Z) : outcome (option nn_trie_node) :=
  let l := collect mn (tn_array n) in
  if NN_TRIE_SPARSE_MAX <? lenZ l then Fault HeapOverflow
  else if negb (lenZ l =? NN_TRIE_SPARSE_MAX) then Fault AssertFailed
  else Done (Some (TNode 0 (tn_prefix n) (Sparse (map fst l)) (map (fun x => Some (snd x)) l))).
(** The child for [c] is gone. *)
Definition prune (n : nn_trie_node) (c : Z) : outcome (option nn_trie_node) :=
  match tn_u n with
  | Sparse cs =>
      match char_index cs c with
      | None => Fault AssertFailed
      | Some index =>
          let n := set_array (Sparse (delete (Z.to_nat index) cs)) (delete (Z.to_nat index) (tn_array n)) n in
          if (tn_type n =? 0) && negb (nn_node_has_subscribers n) then Done None
          else olet! n := nn_node_compact n in Done (Some n)
      end
  | Dense mn mx nbr =>
      if NN_TRIE_SPARSE_MAX + 1 <? nbr then
        let nbr' := u16 (nbr - 1) in
        if c =? mn then
          let i := first_child (tn_array n) in
          Done (Some (set_array (Dense (u8 (i + mn)) mx nbr') (dropZ i (tn_array n)) n))
        else if c =? mx then
          let i := last_child (Z.to_nat (mx - mn)) (tn_array n) in
          Done (Some (set_array (Dense mn (u8 (i + mn)) nbr') (takeZ (i + 1) (tn_array n)) n))
        else Done (Some (set_array (Dense mn mx nbr') (tn_array n) n))
      else to_sparse n mn
  end.
Fixpoint nn_node_unsubscribe (fuel : nat) (self : option nn_trie_node) (data : bytes) : outcome (Z * option nn_trie_node) :=
  match data with
  | [] => found self
  | _ =>
      match self with
      | None => Fault NullDeref
      | Some n =>
          if negb (nn_node_check_prefix (tn_prefix n) data =? lenZ (tn_prefix n)) then Done (0, self)
          else match dropZ (lenZ (tn_prefix n)) data with
          | [] => found self
          | c :: rest =>
              match nn_node_next n c with
              | None => Done (0, self)
              | Some i =>
                  olet! ch := nn_node_child n i in
                  match fuel with
                  | O => Fault OutOfFuel
                  | S fuel =>
                      olet! '(r, ch) := nn_node_unsubscribe fuel ch rest in
                      olet! n := set_child n i ch in
                      if r =? 0 then Done (0, Some n)
                      else match ch with
                      | Some _ => Done (1, Some n)
                      | None => olet! n := prune n c in Done (1, n)
                      end
                  end
              end
          end
      end
  end.

(** ** The trie *)
Record nn_trie := { root : option nn_trie_node }.
Definition nn_trie_init : nn_trie := {| root := None |}.
Definition nn_trie_subscribe (t : nn_trie) (data : bytes) : outcome (Z * nn_trie) :=
  olet! '(r, n) := subscribe (length data) (root t) data in Done (r, {| root := Some n |}).
Definition nn_trie_match (t : nn_trie) (data : bytes) : outcome Z := node_match (S (length data)) (root t) data.
Definition nn_trie_unsubscribe (t : nn_trie) (data : bytes) : outcome (Z * nn_trie) :=
  olet! '(r, n) := nn_node_unsubscribe (length data) (root t) data in Done (r, {| root := n |}).

(** ** Lemmas: the subscriptions a trie holds *)

(** The child for a character *)
Definition kids (n : nn_trie_node) (c : Z) : option nn_trie_node :=
  match nn_node_next n c with Some i => mjoin (tn_array n !! Z.to_nat i) | None => None end.
(** A position in the trie: what is left of the prefix of a node. *)
Definition pos : Type := option (bytes * nn_trie_node).
Definition enter (node : option nn_trie_node) : pos := (fun n => (tn_prefix n, n)) <$> node.
Definition advance (k : pos) (c : Z) : pos :=
  match k with
  | None => None
  | Some (p :: ps, n) => if p =? c then Some (ps, n) else None
  | Some ([], n) => enter (kids n c)
  end.
Definition run (k : pos) (s : bytes) : pos := foldl advance k s.
Definition count_at (k : pos) : Z := match k with Some ([], n) => tn_refcount n | _ => 0 end.
(** How often a string is subscribed to *)
Definition nsubs (node : option nn_trie_node) (s : bytes) : Z := count_at (run (enter node) s).

(** The rest of [s] behind [p] *)
Fixpoint strip (p s : bytes) : option bytes :=
  match p, s with
  | [], _ => Some s
  | x :: p, y :: s => if x =? y then strip p s else None
  | _ :: _, [] => None
  end.
Lemma strip_app p s : strip p (p ++ s) = Some s.
Proof. induction p as [|x p IH]; [done|]. cbn [strip app]. by rewrite Z.eqb_refl. Qed.
Lemma strip_some p s r : strip p s = Some r <-> s = p ++ r.
Proof.
  split; [|intros ->; apply strip_app]. revert s. induction p as [|x p IH]; intros s; cbn [strip app]; [by intros [= ->]|].
  destruct s as [|y s]; [done|]. destruct (Z.eqb_spec x y) as [->|]; [|done]. intros H. f_equal. by apply IH.
Qed.
Lemma strip_strip p q s : strip (p ++ q) s = match strip p s with Some r => strip q r | None => None end.
Proof.
  revert s. induction p as [|x p IH]; intros s; [done|]. cbn [strip app]. destruct s as [|y s]; [done|].
  destruct (x =? y); [apply IH|done].
Qed.
Lemma run_none s : run None s = None.
Proof. induction s as [|c s IH]; [done|]. exact IH. Qed.
Lemma run_app k s s' : run k (s ++ s') = run (run k s) s'.
Proof. apply foldl_app. Qed.
(** Inside a prefix *)
Lemma run_prefix p n s :
  run (Some (p, n)) s = match strip p s with
    | Some r => run (Some ([], n)) r
    | None => match strip s p with Some q => Some (q, n) | None => None end
    end.
Proof.
  revert s. induction p as [|x p IH]; intros s; [done|]. destruct s as [|c s]; [done|]. cbn [strip].
  change (run (Some (x :: p, n)) (c :: s)) with (run (advance (Some (x :: p, n)) c) s). cbn [advance].
  rewrite (Z.eqb_sym c x). destruct (x =? c); [apply IH|apply run_none].
Qed.
Lemma strip_both p s r : strip p s = None -> strip s p = Some r -> r <> [].
Proof.
  intros Hn ->%strip_some ->. rewrite app_nil_r in Hn. pose proof (strip_app s []) as H. rewrite app_nil_r in H. congruence.
Qed.
Lemma subs_node n s :
  nsubs (Some n) s = match strip (tn_prefix n) s with
    | None => 0
    | Some [] => tn_refcount n
    | Some (c :: r) => nsubs (kids n c) r
    end.
Proof.
  unfold nsubs. cbn [enter fmap option_fmap option_map]. rewrite run_prefix. destruct (strip (tn_prefix n) s) as [[|c r]|] eqn:E; [done|done|].
  destruct (strip s (tn_prefix n)) as [q|] eqn:E2; [|done]. pose proof (strip_both _ _ _ E E2). by destruct q.
Qed.
Lemma subs_none s : nsubs None s = 0.
Proof. unfold nsubs. cbn [enter fmap option_fmap option_map]. by rewrite run_none. Qed.

(** The code's comparison with the prefix *)
Lemma check_prefix_le p s : 0 <= nn_node_check_prefix p s <= lenZ p.
Proof.
  revert s. induction p as [|x p IH]; intros [|c s]; cbn [nn_node_check_prefix]; try lens.
  destruct (x =? c); [specialize (IH s); lens|lens].
Qed.
Lemma check_prefix_full p s :
  nn_node_check_prefix p s = lenZ p -> strip p s = Some (dropZ (lenZ p) s).
Proof.
  revert s. induction p as [|x p IH]; intros s; cbn [nn_node_check_prefix strip]; [done|].
  destruct s as [|c s]; [intros; lens|]. destruct (x =? c); [|intros; lens]. intros H. rewrite lenZ_cons in *.
  rewrite IH by lia. f_equal. unfold dropZ. pose proof (lenZ_nonneg p). by replace (Z.to_nat (1 + lenZ p)) with (S (Z.to_nat (lenZ p))) by lia.
Qed.
Lemma check_prefix_part p s :
  nn_node_check_prefix p s < lenZ p ->
  let k := nn_node_check_prefix p s in
  exists c q r, p = takeZ k s ++ c :: q /\ takeZ k p = takeZ k s /\ dropZ k p = c :: q /\ dropZ k s = r /\ s = takeZ k s ++ r /\
    match r with [] => True | d :: _ => d <> c end.
Proof.
  revert s. induction p as [|x p IH]; intros s; cbn [nn_node_check_prefix]; [lens|].
  destruct s as [|c s]; [intros _; exists x, p, []; done|]. destruct (Z.eqb_spec x c) as [->|Hne]; [|intros _; exists x, p, (c :: s); done].
  rewrite lenZ_cons. intros H. pose proof (check_prefix_le p s) as Hr. destruct (IH s ltac:(lia)) as (d & q & r & E1 & E2 & E3 & E4 & E5 & E6).
  exists d, q, r. set (k := nn_node_check_prefix p s) in *.
  assert (Ht : forall l, takeZ (1 + k) (c :: l) = c :: takeZ k l /\ dropZ (1 + k) (c :: l) = dropZ k l).
  { intros l. unfold takeZ, dropZ. by replace (Z.to_nat (1 + k)) with (S (Z.to_nat k)) by lia. }
  destruct (Ht s) as [-> ->]. destruct (Ht p) as [-> ->]. rewrite E2, E3, E4. cbn [app]. rewrite <- E1, <- E5. done.
Qed.

(** ** Lemmas: well-formed nodes

    [dn] says whether dense arrays are allowed. *)
Section wf.
Context (dn : bool).
Definition shape_ok (u : node_u) (a : list (option nn_trie_node)) : Prop :=
  match u with
  | Sparse cs => lenZ cs <= NN_TRIE_SPARSE_MAX /\ NoDup cs /\ bytes_ok cs /\ length a = length cs /\ Forall is_Some a
  | Dense mn mx nbr => dn = true /\ 0 <= mn <= mx /\ mx <= 255 /\ lenZ a = mx - mn + 1
  end.
Definition prefix_ok (p : bytes) : Prop := lenZ p <= NN_TRIE_PREFIX_MAX /\ bytes_ok p.
(** A node without children is a subscription. *)
Definition live (r : Z) (u : node_u) : Prop := match u with Sparse [] => 0 < r | _ => True end.
Inductive wf : nn_trie_node -> Prop :=
  | wf_node r p u a :
      0 <= r < 2 ^ 32 -> prefix_ok p -> live r u -> shape_ok u a ->
      (forall i ch, a !! i = Some (Some ch) -> wf ch) -> wf (TNode r p u a).
Definition wf_opt (node : option nn_trie_node) : Prop := forall n, node = Some n -> wf n.

Lemma char_index_some cs c i : char_index cs c = Some i -> 0 <= i /\ cs !! Z.to_nat i = Some c.
Proof.
  revert i. induction cs as [|x cs IH]; intros i; cbn [char_index]; [done|].
  destruct (Z.eqb_spec x c) as [->|]; [intros [= <-]; done|]. destruct (char_index cs c) as [j|] eqn:E; [|done].
  intros [= <-]. destruct (IH j eq_refl) as [Hj Hl]. split; [lia|]. by replace (Z.to_nat (Z.succ j)) with (S (Z.to_nat j)) by lia.
Qed.
Lemma char_index_none cs c : char_index cs c = None <-> c ∉ cs.
Proof.
  induction cs as [|x cs IH]; cbn [char_index]; [split; [set_solver|done]|].
  destruct (Z.eqb_spec x c) as [->|Hne]; [split; [done|set_solver]|].
  destruct (char_index cs c); cbn; rewrite not_elem_of_cons; split; try done; try naive_solver.
Qed.
Lemma char_index_lookup cs (i : nat) c : NoDup cs -> cs !! i = Some c -> char_index cs c = Some (Z.of_nat i).
Proof.
  revert i. induction cs as [|x cs IH]; intros i Hn Hi; [done|]. apply NoDup_cons in Hn as [Hx Hn]. cbn [char_index].
  destruct i as [|i]; [injection Hi as ->; by rewrite Z.eqb_refl|]. cbn in Hi.
  rewrite (proj2 (Z.eqb_neq x c)) by (intros ->; apply Hx; by eapply list_elem_of_lookup_2). rewrite (IH i Hn Hi). cbn. f_equal. lia.
Qed.
Lemma next_inj n c d i : nn_node_next n c = Some i -> nn_node_next n d = Some i -> c = d.
Proof.
  unfold nn_node_next. destruct (tn_u n) as [cs|mn mx nbr].
  - intros [_ H1]%char_index_some [_ H2]%char_index_some. congruence.
  - destruct (_ || _); [done|]. intros [= <-]. destruct (_ || _); [done|]. intros [= H]. lia.
Qed.
(** The index of a child is inside the array. *)
Lemma next_range n c i : wf n -> nn_node_next n c = Some i -> 0 <= i < lenZ (tn_array n).
Proof.
  intros [r p u a _ _ _ Hs _]. unfold nn_node_next. cbn [tn_u tn_array]. destruct u as [cs|mn mx nbr].
  - destruct Hs as (_ & _ & _ & Hl & _). intros [Hi H%lookup_lt_Some]%char_index_some. unfold lenZ. lia.
  - destruct Hs as (Hd & Hm & Hx & Hl). destruct (Z.ltb_spec c mn), (Z.ltb_spec mx c); cbn [orb]; try done. intros [= <-]. lia.
Qed.
Lemma child_kids n c i : wf n -> nn_node_next n c = Some i -> nn_node_child n i = Done (kids n c) /\ tn_array n !! Z.to_nat i = Some (kids n c).
Proof.
  intros Hw Hi. pose proof (next_range _ _ _ Hw Hi) as Hr. unfold nn_node_child, kids. rewrite Hi, (proj2 (Z.ltb_ge i 0)) by lia.
  destruct (lookup_lt_is_Some_2 (tn_array n) (Z.to_nat i)) as [ch ->]; [unfold lenZ in Hr; lia|]. done.
Qed.
Lemma kids_wf n c : wf n -> wf_opt (kids n c).
Proof.
  intros Hw m Hm. unfold kids in Hm. destruct (nn_node_next n c) as [i|] eqn:E; [|done]. destruct (child_kids n c i Hw E) as [_ Ha].
  destruct Hw as [r p u a _ _ _ _ Hk]. cbn [tn_array] in *. rewrite Ha in Hm. cbn in Hm. unfold kids in Ha, Hm. rewrite E in Ha, Hm.
  cbn [tn_array] in *. rewrite Hm in Ha. by eapply Hk.
Qed.
Lemma set_child_ok n c i ch :
  wf n -> nn_node_next n c = Some i ->
  exists n', set_child n i ch = Done n' /\ n' = set_array (tn_u n) (<[Z.to_nat i := ch]> (tn_array n)) n /\
    (forall x, kids n' x = if decide (x = c) then ch else kids n x).
Proof.
  intros Hw Hi. destruct (child_kids n c i Hw Hi) as [Hc _]. unfold set_child. rewrite Hc. cbn [obind]. eexists. split; [done|]. split; [done|].
  intros x. unfold kids at 1. change (nn_node_next (set_array _ _ _) x) with (nn_node_next n x). cbn [set_array tn_array].
  pose proof (next_range _ _ _ Hw Hi) as Hr. unfold lenZ in Hr. destruct (decide (x = c)) as [->|Hne].
  - rewrite Hi, list_lookup_insert_eq by lia. done.
  - unfold kids. destruct (nn_node_next n x) as [j|] eqn:E; [|done]. rewrite list_lookup_insert_ne; [done|].
    intros Ej. apply Hne. assert (j = i) as -> by (pose proof (next_range _ _ _ Hw E); lia). by eapply next_inj.
Qed.
Lemma wf_insert r p u a i ch :
  wf (TNode r p u a) -> wf ch -> wf (TNode r p u (<[i := Some ch]> a)).
Proof.
  intros Hw Hc. inversion_clear Hw as [? ? ? ? Hr Hp Hv Hs Hk]. constructor; [done|done|done| |].
  - destruct u; unfold shape_ok, lenZ in *; rewrite length_insert; [|done]. destruct Hs as (? & ? & ? & ? & Hf).
    split; [done|]. split; [done|]. split; [done|]. split; [done|]. by apply Forall_insert.
  - intros j m. destruct (decide (j = i)) as [->|]; [|rewrite list_lookup_insert_ne by done; apply Hk].
    intros Hj. destruct (decide (i < length a)%nat) as [Hlt|]; [rewrite list_lookup_insert_eq in Hj by done; by injection Hj as <-|].
    rewrite list_insert_ge in Hj by lia. by eapply Hk.
Qed.
(** Two nodes with the same strings. *)
Definition same (a b : option nn_trie_node) : Prop := forall s, nsubs a s = nsubs b s.
Lemma subs_ext n m :
  tn_prefix n = tn_prefix m -> tn_refcount n = tn_refcount m -> (forall c, same (kids n c) (kids m c)) -> same (Some n) (Some m).
Proof. intros Hp Hr Hk s. rewrite !subs_node, Hp, Hr. destruct (strip _ s) as [[|c r]|]; [done|apply Hk|done]. Qed.
Lemma kids_single r p c ch x : kids (TNode r p (Sparse [c]) [ch]) x = if decide (x = c) then ch else None.
Proof.
  unfold kids, nn_node_next. cbn [tn_u tn_array char_index]. rewrite (Z.eqb_sym c x).
  destruct (Z.eqb_spec x c), (decide (x = c)); try done.
Qed.
(** A node with one child and no subscribers, merged with the child. *)
Lemma subs_merge p c ch :
  same (Some (TNode 0 p (Sparse [c]) [Some ch])) (Some (set_prefix (p ++ c :: tn_prefix ch) ch)).
Proof.
  intros s. rewrite !subs_node. cbn [set_prefix tn_prefix tn_refcount]. rewrite strip_strip. destruct (strip p s) as [[|d r]|]; [done| |done].
  cbn [strip]. rewrite kids_single. destruct (Z.eqb_spec c d) as [->|Hne]; [|rewrite decide_False by done; apply subs_none].
  rewrite decide_True by done. rewrite subs_node. by destruct (strip (tn_prefix ch) r) as [[|e t]|].
Qed.
Lemma wf_set_prefix p n : wf n -> prefix_ok p -> wf (set_prefix p n).
Proof. intros [r q u a Hr Hq Hv Hs Hk] Hp. by constructor. Qed.
Lemma wf_set_refcount r n : wf n -> 0 <= r < 2 ^ 32 -> live r (tn_u n) -> wf (set_refcount r n).
Proof. intros [r' q u a Hr Hq Hv Hs Hk] Hp Hl. by constructor. Qed.
Lemma compact_ok n : wf n -> exists n', nn_node_compact n = Done n' /\ wf n' /\ same (Some n') (Some n).
Proof.
  intros Hw. unfold nn_node_compact, nn_node_has_subscribers. destruct (Z.eqb_spec (tn_refcount n) 0) as [Hr|Hr]; cbn [negb]; [|by exists n].
  destruct (tn_u n) as [cs|] eqn:Eu; [|by exists n]. destruct cs as [|c [|]]; [by exists n| |by exists n].
  destruct n as [r p u a]. cbn [tn_u tn_refcount] in *. subst r u. pose proof Hw as Hw'.
  inversion_clear Hw' as [? ? ? ? _ Hp _ Hs Hk]. destruct Hs as (_ & _ & Hcs & Hl & Hf).
  destruct a as [|ch [|]]; try done. apply Forall_cons in Hf as [[m ->] _]. unfold nn_node_child. cbn [tn_array Z.ltb Z.compare].
  change (Z.to_nat 0) with O. cbn [lookup list_lookup obind]. destruct (Z.ltb_spec NN_TRIE_PREFIX_MAX (lenZ (tn_prefix (TNode 0 p (Sparse [c]) [Some m])) + lenZ (tn_prefix m) + 1));
    eexists; (split; [done|]); (split; [|]); [done|done| |].
  - apply wf_set_prefix; [by apply (Hk O)|]. cbn [tn_prefix] in *. destruct Hp as [_ Hp].
    assert (Hm : bytes_ok (tn_prefix m)) by (destruct (Hk O m eq_refl) as [? ? ? ? _ [_ Hm] _ _ _]; done).
    split; [lens|]. apply Forall_app. split; [done|]. apply Forall_cons in Hcs as [Hc _]. by constructor.
  - intros s. symmetry. apply subs_merge.
Qed.

(** ** Lemmas: subscribing *)
Definition is_str (x s : bytes) : Z := if decide (x = s) then 1 else 0.
Lemma is_str_refl s : is_str s s = 1.
Proof. unfold is_str. by rewrite decide_True. Qed.
Lemma is_str_cons c x d s : is_str (c :: x) (d :: s) = if decide (c = d) then is_str x s else 0.
Proof. unfold is_str. destruct (decide (c = d)) as [->|]; destruct (decide (x = s)) as [->|]; repeat case_decide; congruence. Qed.
Lemma is_str_app p x s : is_str x (p ++ s) = match strip p x with Some y => is_str y s | None => 0 end.
Proof.
  revert x. induction p as [|c p IH]; intros x; [done|]. cbn [strip app]. destruct x as [|d x]; [done|].
  rewrite is_str_cons. destruct (Z.eqb_spec c d) as [->|]; [by rewrite decide_True, IH|by rewrite decide_False].
Qed.
Lemma wf_leaf r p : 0 < r < 2 ^ 32 -> prefix_ok p -> wf (TNode r p (Sparse []) []).
Proof.
  intros Hr Hp. constructor; [lia|done|cbn; lia| |done]. split; [done|]. split; [apply NoDup_nil_2|]. split; [constructor|]. split; [done|constructor].
Qed.
Lemma wf_single p c ch : prefix_ok p -> is_byte c -> wf ch -> wf (TNode 0 p (Sparse [c]) [Some ch]).
Proof.
  intros Hp Hc Hw. constructor; [lia|done|done| |intros [|i] m; [by intros [= <-]|done]].
  unfold shape_ok, NN_TRIE_SPARSE_MAX. split; [lens|]. split; [apply NoDup_singleton|]. split; [constructor; [exact Hc|constructor]|].
  split; [done|by repeat constructor].
Qed.
Lemma step4_ok fuel data :
  (length data <= fuel)%nat -> bytes_ok data ->
  exists n, step4 fuel data = Done (1, n) /\ wf n /\ forall x, nsubs (Some n) x = is_str x data.
Proof.
  revert data. induction fuel as [|fuel IH]; intros data Hl Hb; cbn [step4];
    (destruct (Z.ltb_spec NN_TRIE_PREFIX_MAX (lenZ data)) as [Hgt|Hle]; [unfold NN_TRIE_PREFIX_MAX in *|]).
  1: unfold lenZ in Hgt; lia.
  2: { destruct (dropZ 10 data) as [|c rest] eqn:E; [apply (f_equal length) in E; unfold dropZ, lenZ in *; rewrite length_drop in E; simpl in E; lia|].
    assert (Hsplit : data = takeZ 10 data ++ c :: rest) by (by rewrite <- E, takeZ_dropZ).
    rewrite Hsplit in Hl, Hb. rewrite length_app in Hl. cbn [length] in Hl. apply Forall_app in Hb as [Hbt [Hc Hb]%Forall_cons].
    destruct (IH rest ltac:(lia) Hb) as (ch & -> & Hw & Hs). cbn [obind]. eexists. split; [done|]. split.
    - apply wf_single; [|done|done]. split; [unfold takeZ, lenZ; rewrite length_take; unfold NN_TRIE_PREFIX_MAX; lia|done].
    - intros x. rewrite Hsplit at 2. rewrite subs_node, is_str_app. cbn [tn_prefix tn_refcount].
      destruct (strip (takeZ 10 data) x) as [[|d y]|]; [done| |done]. rewrite kids_single, is_str_cons.
      destruct (decide (d = c)); [apply Hs|apply subs_none]. }
  all: eexists; (split; [done|]); (split; [by apply wf_leaf|]);
    intros x; replace (is_str x data) with (is_str x (data ++ [])) by (by rewrite app_nil_r); rewrite subs_node, is_str_app; cbn [tn_prefix set_refcount tn_refcount];
    destruct (strip data x) as [[|d y]|]; [done|apply subs_none|done].
Qed.
Lemma new_child_ok n i data :
  0 <= i -> tn_array n !! Z.to_nat i = Some None -> bytes_ok data ->
  exists ch, new_child n i data = Done (1, set_array (tn_u n) (<[Z.to_nat i := Some ch]> (tn_array n)) n) /\
    wf ch /\ forall x, nsubs (Some ch) x = is_str x data.
Proof.
  intros Hi Ha Hb. destruct (step4_ok (length data) data) as (ch & E & Hw & Hs); [done|done|]. exists ch. split; [|done].
  unfold new_child, set_child, nn_node_child. rewrite (proj2 (Z.ltb_ge i 0)), Ha by lia. cbn [obind]. by rewrite E.
Qed.
(** [n'] is [n] with a child for [c], where there was none. *)
Definition with_child (n n' : nn_trie_node) (r c : Z) (ch : nn_trie_node) : Prop :=
  wf n' /\ tn_prefix n' = tn_prefix n /\ tn_refcount n' = r /\ forall x, kids n' x = if decide (x = c) then Some ch else kids n x.
Lemma char_index_snoc cs c x :
  char_index (cs ++ [c]) x = match char_index cs x with Some i => Some i | None => if x =? c then Some (lenZ cs) else None end.
Proof.
  induction cs as [|y cs IH]; cbn [char_index app]; [rewrite (Z.eqb_sym c x); by destruct (x =? c)|].
  destruct (y =? x); [done|]. rewrite IH, lenZ_cons. destruct (char_index cs x); [done|]. destruct (x =? c); [cbn; f_equal; lia|done].
Qed.

Lemma add_sparse n cs c ch :
  wf n -> tn_u n = Sparse cs -> lenZ cs < NN_TRIE_SPARSE_MAX -> c ∉ cs -> is_byte c -> wf ch ->
  with_child n (TNode (tn_refcount n) (tn_prefix n) (Sparse (cs ++ [c])) (tn_array n ++ [Some ch])) (tn_refcount n) c ch.
Proof.
  intros Hw Hu Hl Hc Hb Hch. destruct n as [r p u a]. cbn [tn_u tn_refcount tn_prefix tn_array] in *. subst u.
  inversion_clear Hw as [? ? ? ? Hr Hp Hv Hs Hk]. destruct Hs as (H8 & Hn & Hok & Hlen & Hf). split; [|split; [done|split; [done|]]].
  - constructor; [done|done|by destruct cs| |].
    + split; [lens|]. split; [apply NoDup_app; split; [done|]; split; [set_solver|apply NoDup_singleton]|].
      split; [apply Forall_app; split; [done|by constructor]|]. split; [rewrite !length_app; simpl; lia|]. apply Forall_app. by split; [|repeat constructor].
    + intros i m [Hi|[_ Hi]]%lookup_app_Some; [by eapply Hk|]. destruct (i - length a)%nat; [by injection Hi as <-|done].
  - intros x. unfold kids, nn_node_next. cbn [tn_u tn_array]. rewrite char_index_snoc. destruct (char_index cs x) as [i|] eqn:E.
    + rewrite decide_False by (intros ->; apply (proj2 (char_index_none cs c)) in Hc; congruence).
      destruct (char_index_some _ _ _ E) as [Hi Hx%lookup_lt_Some]. by rewrite lookup_app_l by lia.
    + destruct (Z.eqb_spec x c) as [->|Hne]; [|by rewrite decide_False]. rewrite decide_True by done. unfold lenZ. rewrite Nat2Z.id, <- Hlen.
      by rewrite lookup_app_r, Nat.sub_diag by lia.
Qed.
(** The kids of a dense node, by the place of the character. *)
Lemma kids_dense r p mn mx nbr a x :
  kids (TNode r p (Dense mn mx nbr) a) x = if decide (mn <= x <= mx) then mjoin (a !! Z.to_nat (x - mn)) else None.
Proof.
  unfold kids, nn_node_next. cbn [tn_u tn_array]. destruct (Z.ltb_spec x mn), (Z.ltb_spec mx x); cbn [orb]; repeat case_decide; try done; lia.
Qed.
Lemma mjoin_replicate {A} k i : mjoin (replicate k (@None A) !! i) = None.
Proof. destruct (replicate k (@None A) !! i) as [y|] eqn:E; [|done]. by apply lookup_replicate in E as [-> _]. Qed.

Lemma add_dense n mn mx nbr c ch mn' mx' nbr' a :
  wf n -> tn_u n = Dense mn mx nbr -> is_byte c -> wf ch -> c < mn \/ mx < c -> mn' = Z.min mn c -> mx' = Z.max mx c ->
  a = replicate (Z.to_nat (mn - mn')) None ++ tn_array n ++ replicate (Z.to_nat (mx' - mx)) None ->
  a !! Z.to_nat (c - mn') = Some None /\
  with_child n (TNode (tn_refcount n) (tn_prefix n) (Dense mn' mx' nbr') (<[Z.to_nat (c - mn') := Some ch]> a)) (tn_refcount n) c ch.
Proof.
  intros Hw Hu Hb Hch Hout -> -> ->. destruct n as [r p u a]. cbn [tn_u tn_refcount tn_prefix tn_array] in *. subst u.
  inversion_clear Hw as [? ? ? ? Hr Hp Hv Hs Hk]. destruct Hs as (Hd & Hm & Hx & Hl). unfold is_byte in Hb.
  set (l := replicate _ None). set (t := replicate _ None). set (i := Z.to_nat _).
  assert (Hll : length l = Z.to_nat (mn - Z.min mn c)) by apply length_replicate.
  assert (Hlt : length t = Z.to_nat (Z.max mx c - mx)) by apply length_replicate. unfold lenZ in Hl.
  assert (Hi : (i < length (l ++ a ++ t))%nat) by (rewrite !length_app; unfold i; lia).
  assert (Hin : (l ++ a ++ t) !! i = Some None).
  { destruct (decide (c < mn)).
    - rewrite lookup_app_l by (unfold i; lia). apply lookup_replicate. split; [done|unfold i; lia].
    - rewrite !lookup_app_r by (unfold i; lia). apply lookup_replicate. split; [done|unfold i; lia]. }
  split; [done|]. split; [|split; [done|split; [done|]]].
  - constructor; [done|done|done| |].
    + unfold shape_ok, lenZ. rewrite length_insert, !length_app. split; [done|lia].
    + intros j m. destruct (decide (j = i)) as [->|Hne]; [rewrite list_lookup_insert_eq by done; by intros [= <-]|].
      rewrite list_lookup_insert_ne by done. intros [Hj|[_ [Hj|[_ Hj]]%lookup_app_Some]]%lookup_app_Some; [|by eapply Hk|];
        by apply lookup_replicate in Hj as [? _].
  - intros x. rewrite !kids_dense. destruct (decide (x = c)) as [->|Hne].
    { rewrite decide_True by lia. fold i. by rewrite list_lookup_insert_eq. }
    case_decide as Hrg; [|by rewrite decide_False by lia]. rewrite list_lookup_insert_ne by (unfold i; lia).
    destruct (decide (x < mn)); [rewrite lookup_app_l by lia; rewrite decide_False by lia; apply mjoin_replicate|].
    rewrite lookup_app_r by lia. destruct (decide (mx < x)).
    + rewrite lookup_app_r by lia. rewrite decide_False by lia. apply mjoin_replicate.
    + rewrite decide_True, lookup_app_l by lia. do 2 f_equal. lia.
Qed.
(** *** From a sparse to a dense array *)
Lemma char_min_ok cs m : char_min cs m <= m /\ (forall c, c ∈ cs -> char_min cs m <= c) /\ (char_min cs m = m \/ char_min cs m ∈ cs).
Proof.
  revert m. induction cs as [|c cs IH]; intros m; cbn [char_min]; [split; [lia|]; split; [set_solver|by left]|].
  destruct (IH (if m <? c then m else c)) as (H1 & H2 & H3). destruct (Z.ltb_spec m c).
  - split; [lia|]. split; [intros d [->|Hd]%elem_of_cons; [lia|by apply H2]|]. set_solver.
  - split; [lia|]. split; [intros d [->|Hd]%elem_of_cons; [lia|by apply H2]|]. right. destruct H3 as [->|]; set_solver.
Qed.
Lemma char_max_ok cs m : m <= char_max cs m /\ (forall c, c ∈ cs -> c <= char_max cs m) /\ (char_max cs m = m \/ char_max cs m ∈ cs).
Proof.
  revert m. induction cs as [|c cs IH]; intros m; cbn [char_max]; [split; [lia|]; split; [set_solver|by left]|].
  destruct (IH (if c <? m then m else c)) as (H1 & H2 & H3). destruct (Z.ltb_spec c m).
  - split; [lia|]. split; [intros d [->|Hd]%elem_of_cons; [lia|by apply H2]|]. set_solver.
  - split; [lia|]. split; [intros d [->|Hd]%elem_of_cons; [lia|by apply H2]|]. right. destruct H3 as [->|]; set_solver.
Qed.
Lemma length_move cs old mn a : length (move_children cs old mn a) = length a.
Proof. revert old a. induction cs as [|c cs IH]; intros [|o old] a; try done. cbn [move_children]. rewrite IH. apply length_insert. Qed.
Lemma move_lookup cs old mn a x :
  NoDup cs -> length old = length cs -> (forall c, c ∈ cs -> mn <= c) -> mn <= x -> (Z.to_nat (x - mn) < length a)%nat ->
  move_children cs old mn a !! Z.to_nat (x - mn)
  = match char_index cs x with Some i => old !! Z.to_nat i | None => a !! Z.to_nat (x - mn) end.
Proof.
  revert old a. induction cs as [|c cs IH]; intros [|o old] a Hn Hl Hc Hx Ha; try done. apply NoDup_cons in Hn as [Hnc Hn].
  cbn [move_children char_index]. rewrite IH; [|done|by injection Hl|set_solver|done|by rewrite length_insert].
  assert (mn <= c) by (apply Hc; set_solver). destruct (Z.eqb_spec c x) as [->|Hne].
  - apply char_index_none in Hnc. rewrite Hnc. by rewrite list_lookup_insert_eq.
  - rewrite list_lookup_insert_ne by lia. destruct (char_index cs x) as [i|] eqn:E; [|done].
    destruct (char_index_some _ _ _ E) as [Hi _]. cbn [fmap option_fmap option_map]. by replace (Z.to_nat (Z.succ i)) with (S (Z.to_nat i)) by lia.
Qed.
Lemma add_convert n cs c ch mn mx nbr :
  dn = true -> wf n -> tn_u n = Sparse cs -> c ∉ cs -> is_byte c -> wf ch ->
  mn = Z.min (char_min cs 255) c -> mx = Z.max (char_max cs 0) c ->
  let a := move_children cs (tn_array n) mn (replicate (Z.to_nat (mx - mn + 1)) None) in
  a !! Z.to_nat (c - mn) = Some None /\
  with_child n (TNode 0 (tn_prefix n) (Dense mn mx nbr) (<[Z.to_nat (c - mn) := Some ch]> a)) 0 c ch.
Proof.
  intros Hdn Hw Hu Hc Hb Hch Emn Emx a. destruct n as [r p u b]. cbn [tn_u tn_refcount tn_prefix tn_array] in *. subst u.
  inversion_clear Hw as [? ? ? ? Hr Hp Hv Hs Hk]. destruct Hs as (H8 & Hn & Hok & Hlen & Hf). unfold is_byte in Hb.
  destruct (char_min_ok cs 255) as (Hm1 & Hm2 & Hm3). destruct (char_max_ok cs 0) as (Hx1 & Hx2 & Hx3).
  assert (Hbs : forall d, d ∈ cs -> is_byte d) by (by apply Forall_forall). unfold is_byte in Hbs.
  assert (H0 : 0 <= mn <= mx /\ mx <= 255).
  { assert (0 <= char_min cs 255) by (destruct Hm3 as [->|Hm3]; [lia|by apply Hbs]).
    assert (char_max cs 0 <= 255) by (destruct Hx3 as [->|Hx3%Hbs]; lia). lia. }
  assert (Hmn : forall d, d ∈ cs -> mn <= d <= mx) by (intros d Hd; specialize (Hm2 d Hd); specialize (Hx2 d Hd); lia).
  assert (Hla : length a = Z.to_nat (mx - mn + 1)) by (unfold a; rewrite length_move; apply length_replicate).
  assert (Hat : forall x, mn <= x <= mx -> a !! Z.to_nat (x - mn) =
    match char_index cs x with Some i => b !! Z.to_nat i | None => Some None end).
  { intros x Hx. unfold a. rewrite move_lookup; [|done|done|intros d Hd; by apply Hmn|lia|rewrite length_replicate; lia].
    destruct (char_index cs x); [done|]. apply lookup_replicate. split; [done|lia]. }
  assert (Hin : a !! Z.to_nat (c - mn) = Some None) by (rewrite Hat by lia; by rewrite (proj2 (char_index_none cs c) Hc)).
  split; [done|]. split; [|split; [done|split; [done|]]].
  - constructor; [lia|done|done|unfold shape_ok, lenZ; rewrite length_insert; split; [done|lia]|]. intros j m.
    destruct (decide (j = Z.to_nat (c - mn))) as [->|Hne]; [rewrite list_lookup_insert_eq by lia; by intros [= <-]|].
    rewrite list_lookup_insert_ne by done. intros Hj. pose proof (lookup_lt_Some _ _ _ Hj) as Hjl.
    replace j with (Z.to_nat (Z.of_nat j + mn - mn)) in Hj by lia. rewrite Hat in Hj by lia.
    destruct (char_index cs _); [by eapply Hk|done].
  - intros x. rewrite kids_dense. destruct (decide (x = c)) as [->|Hne].
    { rewrite decide_True, list_lookup_insert_eq by lia. done. }
    unfold kids, nn_node_next. cbn [tn_u tn_array]. destruct (char_index cs x) as [i|] eqn:E.
    + destruct (char_index_some _ _ _ E) as [_ Hx%list_elem_of_lookup_2]. specialize (Hmn x Hx).
      rewrite decide_True, list_lookup_insert_ne, Hat, E by lia. done.
    + case_decide; [|done]. rewrite list_lookup_insert_ne, Hat, E by lia. done.
Qed.
Lemma strip_refl p : strip p p = Some [].
Proof. pose proof (strip_app p []) as H. by rewrite app_nil_r in H. Qed.
Lemma subs_at n y : nsubs (Some n) (tn_prefix n ++ y) = match y with [] => tn_refcount n | c :: r => nsubs (kids n c) r end.
Proof. rewrite subs_node, strip_app. by destruct y. Qed.
Lemma with_child_subs n n' r c ch rest :
  with_child n n' r c ch -> kids n c = None -> (forall x, nsubs (Some ch) x = is_str x rest) ->
  forall x, nsubs (Some n') x = (if decide (x = tn_prefix n) then r else nsubs (Some n) x) + is_str x (tn_prefix n ++ c :: rest).
Proof.
  intros (_ & Hp & Hr & Hk) Hno Hch x. rewrite !subs_node, Hp, is_str_app. destruct (strip (tn_prefix n) x) as [y|] eqn:E.
  - apply strip_some in E as ->. destruct y as [|d y].
    { rewrite app_nil_r, decide_True, Hr by done. unfold is_str. rewrite decide_False by done. lia. }
    rewrite decide_False by (intros E; rewrite <- (app_nil_r (tn_prefix n)) in E at 2; by apply app_inv_head in E).
    rewrite Hk, is_str_cons. destruct (decide (d = c)) as [->|]; [rewrite Hch, Hno, subs_none; lia|lia].
  - rewrite decide_False; [done|]. intros ->. by rewrite strip_refl in E.
Qed.
(** Does a subscription turn the node at its end into a dense one, which loses
    its reference count? *)
Definition full (n : nn_trie_node) (data : bytes) : bool :=
  match data with [] => false | _ => tn_type n =? NN_TRIE_SPARSE_MAX end.
Definition step3_post (n : nn_trie_node) (data : bytes) (r : Z) (n' : nn_trie_node) : Prop :=
  wf n' /\ r = (if nsubs (Some n) (tn_prefix n ++ data) =? 0 then 1 else 0) /\
  forall x, nsubs (Some n') x
    = (if decide (x = tn_prefix n /\ full n data = true) then 0 else nsubs (Some n) x) + is_str x (tn_prefix n ++ data).
Lemma step5_ok n :
  wf n -> tn_refcount n + 1 < 2 ^ 32 -> step3_post n [] (fst (step5 n)) (snd (step5 n)).
Proof.
  intros Hw Hr. assert (0 <= tn_refcount n) by (destruct Hw as [? ? ? ? H ? ? ? ?]; cbn; lia). unfold step5. cbn [fst snd]. rewrite wrap_small by lia.
  split; [apply wf_set_refcount; [done|lia|]; unfold live; destruct (tn_u n) as [[|]|]; [lia|done..]|]. split.
  - rewrite app_nil_r, <- (app_nil_r (tn_prefix n)), subs_at. destruct (Z.eqb_spec (tn_refcount n + 1) 1), (Z.eqb_spec (tn_refcount n) 0); lia.
  - intros x. rewrite decide_False by naive_solver. rewrite !subs_node, is_str_app. cbn [set_refcount tn_prefix tn_refcount].
    destruct (strip (tn_prefix n) x) as [[|c y]|]; [rewrite is_str_refl; lia| |done].
    unfold is_str. rewrite decide_False by done. rewrite Z.add_0_r. done.
Qed.
Lemma subs_absent n c rest : kids n c = None -> nsubs (Some n) (tn_prefix n ++ c :: rest) = 0.
Proof. intros H. rewrite subs_at, H. apply subs_none. Qed.
Lemma step3_child n n' c ch rest r :
  with_child n n' r c ch -> kids n c = None -> (forall x, nsubs (Some ch) x = is_str x rest) ->
  r = (if full n (c :: rest) then 0 else tn_refcount n) -> step3_post n (c :: rest) 1 n'.
Proof.
  intros Hn Hno Hch Hr. split; [apply Hn|]. split; [by rewrite subs_absent|]. intros x. rewrite (with_child_subs _ _ _ _ _ _ Hn Hno Hch).
  f_equal. rewrite Hr. pose proof (subs_at n []) as Hat. rewrite app_nil_r in Hat.
  destruct (full n (c :: rest)); repeat case_decide; try done; naive_solver.
Qed.
(** The three kinds of nodes *)
Lemma step3_sparse n cs c rest :
  wf n -> tn_u n = Sparse cs -> lenZ cs < NN_TRIE_SPARSE_MAX -> nn_node_next n c = None -> is_byte c -> bytes_ok rest ->
  exists r n', step3 n (c :: rest) = Done (r, n') /\ step3_post n (c :: rest) r n'.
Proof.
  intros Hw Hu Hlt Hnone Hc Hb. assert (Hno : kids n c = None) by (unfold kids; by rewrite Hnone).
  unfold nn_node_next in Hnone. rewrite Hu in Hnone. apply char_index_none in Hnone. cbn [step3].
  rewrite Hu, (proj2 (Z.ltb_lt _ _) Hlt).
  assert (Hlen : length (tn_array n) = length cs)
    by (destruct Hw as [? ? ? ? ? ? ? Hs ?]; cbn in Hu; subst; by destruct Hs as (_ & _ & _ & ? & _)).
  destruct (new_child_ok (set_array (Sparse (cs ++ [c])) (tn_array n ++ [None]) n) (lenZ cs) rest) as (ch & -> & Hch & Hs).
  { apply lenZ_nonneg. } { cbn [set_array tn_array]. unfold lenZ. rewrite Nat2Z.id, <- Hlen, lookup_app_r, Nat.sub_diag by lia. done. } { done. }
  do 2 eexists. split; [done|]. cbn [set_array tn_array tn_refcount tn_prefix tn_u].
  replace (<[Z.to_nat (lenZ cs) := Some ch]> (tn_array n ++ [None])) with (tn_array n ++ [Some ch])
    by (unfold lenZ; rewrite Nat2Z.id, <- Hlen; rewrite insert_app_r_alt, Nat.sub_diag by lia; done).
  eapply step3_child; [by apply (add_sparse n cs c ch)|done|done|]. unfold full, tn_type. rewrite Hu, (proj2 (Z.eqb_neq _ _)) by lia. done.
Qed.
Lemma step3_convert n cs c rest :
  dn = true -> wf n -> tn_u n = Sparse cs -> NN_TRIE_SPARSE_MAX <= lenZ cs -> nn_node_next n c = None -> is_byte c -> bytes_ok rest ->
  exists r n', step3 n (c :: rest) = Done (r, n') /\ step3_post n (c :: rest) r n'.
Proof.
  intros Hdn Hw Hu Hge Hnone Hc Hb. assert (Hno : kids n c = None) by (unfold kids; by rewrite Hnone).
  unfold nn_node_next in Hnone. rewrite Hu in Hnone. apply char_index_none in Hnone. cbn [step3].
  rewrite Hu, (proj2 (Z.ltb_ge _ _) Hge). set (mn := if char_min cs 255 <? c then _ else _). set (mx := if c <? char_max cs 0 then _ else _).
  assert (Emn : mn = Z.min (char_min cs 255) c) by (unfold mn; destruct (Z.ltb_spec (char_min cs 255) c); lia).
  assert (Emx : mx = Z.max (char_max cs 0) c) by (unfold mx; destruct (Z.ltb_spec c (char_max cs 0)); lia).
  destruct (add_convert n cs c n mn mx (lenZ cs + 1) Hdn Hw Hu Hnone Hc Hw Emn Emx) as [Hin _]. cbn zeta.
  match goal with |- context [new_child ?m _ _] => destruct (new_child_ok m (c - mn) rest) as (ch & -> & Hch & Hs) end; [lia|exact Hin|done|].
  do 2 eexists. split; [done|]. eapply step3_child; [apply (add_convert n cs c ch mn mx (lenZ cs + 1) Hdn Hw Hu Hnone Hc Hch Emn Emx)|done|done|].
  assert (lenZ cs = 8) by (destruct Hw as [? ? ? ? ? ? ? Hs' ?]; cbn in Hu; subst; destruct Hs' as (H8 & _); unfold NN_TRIE_SPARSE_MAX in *; lia).
  unfold full, tn_type. rewrite Hu. by rewrite (proj2 (Z.eqb_eq _ _)).
Qed.
Lemma step3_dense n mn mx nbr c rest :
  wf n -> tn_u n = Dense mn mx nbr -> nn_node_next n c = None -> is_byte c -> bytes_ok rest ->
  exists r n', step3 n (c :: rest) = Done (r, n') /\ step3_post n (c :: rest) r n'.
Proof.
  intros Hw Hu Hnone Hc Hb. assert (Hno : kids n c = None) by (unfold kids; by rewrite Hnone).
  unfold nn_node_next in Hnone. rewrite Hu in Hnone. cbn [step3]. rewrite Hu.
  assert (Hout : c < mn \/ mx < c) by (destruct (Z.ltb_spec c mn), (Z.ltb_spec mx c); cbn [orb] in Hnone; try done; lia).
  replace ((c <? mn) || (mx <? c)) with true by (symmetry; apply orb_true_iff; rewrite !Z.ltb_lt; lia).
  cbn [set_array tn_u]. set (mn' := if mn <? c then mn else c). set (mx' := if c <? mx then mx else c).
  assert (Emn : mn' = Z.min mn c) by (unfold mn'; destruct (Z.ltb_spec mn c); lia).
  assert (Emx : mx' = Z.max mx c) by (unfold mx'; destruct (Z.ltb_spec c mx); lia).
  assert (Hmx : mn <= mx) by (destruct Hw as [? ? ? ? ? ? ? Hs' ?]; cbn in Hu; subst; destruct Hs' as (_ & ? & _); lia).
  match goal with |- context [if negb (mn =? mn') then ?x else ?y] => set (a := if negb (mn =? mn') then x else y) end.
  assert (Ea : a = replicate (Z.to_nat (mn - mn')) None ++ tn_array n ++ replicate (Z.to_nat (mx' - mx)) None).
  { unfold a. destruct (Z.eqb_spec mn mn') as [E|E]; cbn [negb].
    - rewrite <- E, Z.sub_diag. cbn [Z.to_nat replicate app].
      by replace (mx' - mn + 1 - (mx - mn + 1)) with (mx' - mx) by lia.
    - assert (mx' = mx) as -> by lia. rewrite Z.sub_diag. cbn [Z.to_nat replicate app]. by rewrite app_nil_r. }
  destruct (add_dense n mn mx nbr c n mn' mx' (u16 (nbr + 1)) a Hw Hu Hc Hw Hout Emn Emx Ea) as [Hin _].
  match goal with |- context [new_child ?m _ _] => destruct (new_child_ok m (c - mn') rest) as (ch & -> & Hch & Hs) end; [lia|exact Hin|done|].
  do 2 eexists. split; [done|]. eapply step3_child; [apply (add_dense n mn mx nbr c ch mn' mx' (u16 (nbr + 1)) a Hw Hu Hc Hch Hout Emn Emx Ea)|done|done|].
  unfold full, tn_type. rewrite Hu. done.
Qed.
Lemma step3_ok n data :
  dn = true \/ full n data = false -> wf n -> bytes_ok data -> tn_refcount n + 1 < 2 ^ 32 -> (forall c rest, data = c :: rest -> nn_node_next n c = None) ->
  exists r n', step3 n data = Done (r, n') /\ step3_post n data r n'.
Proof.
  intros Hdn Hw Hb Hr Hnone. destruct data as [|c rest].
  { destruct (step5 n) as [r n'] eqn:E. exists r, n'. cbn [step3]. rewrite E. split; [done|]. pose proof (step5_ok n Hw Hr) as H. by rewrite E in H. }
  specialize (Hnone c rest eq_refl). apply Forall_cons in Hb as [Hc Hb]. destruct (tn_u n) as [cs|mn mx nbr] eqn:Hu.
  - destruct (Z.lt_ge_cases (lenZ cs) NN_TRIE_SPARSE_MAX); [by eapply step3_sparse|]. eapply step3_convert; try done.
    destruct Hdn as [?|Hf]; [done|]. unfold full, tn_type in Hf. rewrite Hu in Hf. apply Z.eqb_neq in Hf.
    assert (lenZ cs <= 8) by (destruct Hw as [? ? ? ? ? ? ? Hs' ?]; cbn in Hu; subst; by destruct Hs' as (? & _)). unfold NN_TRIE_SPARSE_MAX in *. lia.
  - by eapply step3_dense.
Qed.
(** The node at [x] is a full sparse one without a child for the character of
    [data] behind [x]: the subscription to [data] turns it into a dense one. *)
Definition converts (node : option nn_trie_node) (data x : bytes) : bool :=
  match strip x data, run (enter node) x with
  | Some (c :: _), Some ([], n) => (tn_type n =? NN_TRIE_SPARSE_MAX) && bool_decide (nn_node_next n c = None)
  | _, _ => false
  end.
Lemma strip_both_app p y d : strip (p ++ y) (p ++ d) = strip y d.
Proof. by rewrite strip_strip, strip_app. Qed.
Lemma converts_node n d x :
  converts (Some n) (tn_prefix n ++ d) x = match strip (tn_prefix n) x with
    | None => false
    | Some [] => match d with c :: _ => (tn_type n =? NN_TRIE_SPARSE_MAX) && bool_decide (nn_node_next n c = None) | [] => false end
    | Some (c :: y) => match d with c' :: d' => if c =? c' then converts (kids n c) d' y else false | [] => false end
    end.
Proof.
  unfold converts. cbn [enter fmap option_fmap option_map]. rewrite run_prefix. destruct (strip (tn_prefix n) x) as [y|] eqn:E.
  - apply strip_some in E as ->. rewrite strip_both_app. destruct y as [|c y]; [by destruct d|]. cbn [strip]. destruct d as [|c' d]; [done|].
    destruct (Z.eqb_spec c c') as [->|]; done.
  - destruct (strip x (tn_prefix n)) as [q|] eqn:E2; [|by destruct (strip x (tn_prefix n ++ d)) as [[|]|]].
    pose proof (strip_both _ _ _ E E2). destruct q; [done|]. by destruct (strip x (tn_prefix n ++ d)) as [[|]|].
Qed.
Lemma converts_mismatch n data x : strip (tn_prefix n) data = None -> converts (Some n) data x = false.
Proof.
  intros Hn. unfold converts. cbn [enter fmap option_fmap option_map]. rewrite run_prefix. destruct (strip x data) as [[|c z]|] eqn:Ed; [done| |done].
  destruct (strip (tn_prefix n) x) as [y|] eqn:E.
  - apply strip_some in Ed as ->. apply strip_some in E as ->. rewrite <- app_assoc, strip_app in Hn. done.
  - destruct (strip x (tn_prefix n)) as [q|] eqn:E2; [|done]. pose proof (strip_both _ _ _ E E2). by destruct q.
Qed.
Lemma check_prefix_none p s : nn_node_check_prefix p s < lenZ p -> strip p s = None.
Proof.
  revert s. induction p as [|x p IH]; intros [|c s]; cbn [nn_node_check_prefix strip]; try done.
  destruct (x =? c); [|done]. rewrite lenZ_cons. intros H. apply IH. lia.
Qed.

Definition sub_post (node : option nn_trie_node) (data : bytes) (r : Z) (n' : nn_trie_node) : Prop :=
  wf n' /\ r = (if nsubs node data =? 0 then 1 else 0) /\
  forall x, nsubs (Some n') x = (if converts node data x then 0 else nsubs node x) + is_str x data.
Lemma sub_step2 n data :
  wf n -> bytes_ok data -> nn_node_check_prefix (tn_prefix n) data < lenZ (tn_prefix n) ->
  let k := nn_node_check_prefix (tn_prefix n) data in
  exists r n', step2 n k (dropZ k data) = Done (r, n') /\ sub_post (Some n) data r n'.
Proof.
  intros Hw Hb Hlt k. pose proof (check_prefix_none _ _ Hlt) as Hno.
  destruct (check_prefix_part _ _ Hlt) as (c & q & t & E1 & E2 & E3 & E4 & E5 & E6). fold k in E1, E2, E3, E4, E5.
  unfold step2. rewrite E3, E2, E4. set (p := takeZ k data) in *.
  assert (Hpre : prefix_ok (tn_prefix n)) by (by destruct Hw). rewrite E1 in Hpre.
  destruct Hpre as [Hlen [Hbp [Hc Hbq]%Forall_cons]%Forall_app].
  destruct (compact_ok (set_prefix q n)) as (ch & -> & Hch & Hsame); [apply wf_set_prefix; [done|]; split; [lens|done]|]. cbn [obind].
  set (m := TNode 0 p (Sparse [c]) [Some ch]).
  assert (Hm : same (Some m) (Some n)).
  { intros x. transitivity (nsubs (Some (TNode 0 p (Sparse [c]) [Some (set_prefix q n)])) x).
    - apply subs_ext; [done|done|]. intros d. unfold m. rewrite !kids_single. by destruct (decide (d = c)).
    - rewrite subs_merge. cbn [set_prefix tn_prefix]. rewrite <- E1. by destruct n. }
  assert (Hwm : wf m).
  { apply wf_single; [|done|done]. split; [lens|done]. }
  destruct (step3_ok m t ltac:(right; by destruct t) Hwm) as (r & n' & E & Hw' & Hr & Hs).
  { rewrite E5 in Hb. by apply Forall_app in Hb as [_ ?]. }
  { cbn. lia. }
  { intros d rest ->. unfold nn_node_next. cbn. by rewrite (proj2 (Z.eqb_neq c d)). }
  exists r, n'. split; [done|]. split; [done|]. cbn [m tn_prefix] in Hr, Hs. rewrite <- E5 in Hr, Hs. split; [by rewrite <- Hm|].
  intros x. rewrite Hs, converts_mismatch, Hm by done. rewrite decide_False; [done|]. intros [_ Hf]. unfold full in Hf. by destruct t.
Qed.
Lemma full_prefix p s r : nn_node_check_prefix p s = lenZ p -> dropZ (lenZ p) s = r -> s = p ++ r.
Proof. intros H <-. apply strip_some. by apply check_prefix_full. Qed.
Lemma sub_down n c rest r ch' :
  wf n -> is_Some (nn_node_next n c) -> sub_post (kids n c) rest r ch' ->
  forall n', wf n' -> tn_prefix n' = tn_prefix n -> tn_refcount n' = tn_refcount n ->
  (forall x, kids n' x = if decide (x = c) then Some ch' else kids n x) ->
  sub_post (Some n) (tn_prefix n ++ c :: rest) r n'.
Proof.
  intros Hw [i Hi] (Hwc & Hr & Hs) n' Hw' Hp Hrc Hk. split; [done|]. split; [by rewrite subs_at|]. intros x.
  rewrite converts_node, is_str_app, !subs_node, Hp. destruct (strip (tn_prefix n) x) as [[|d y]|]; [|destruct (Z.eqb_spec d c) as [->|Hne]|done].
  - rewrite Hi, bool_decide_eq_false_2, andb_false_r, Hrc by done. unfold is_str. rewrite decide_False by done. lia.
  - rewrite Hk, decide_True, Hs, is_str_cons, decide_True by done. done.
  - rewrite Hk, is_str_cons, !decide_False by done. lia.
Qed.
Lemma step3_sub n data r n' :
  (forall c rest, data = c :: rest -> nn_node_next n c = None) ->
  step3_post n data r n' -> sub_post (Some n) (tn_prefix n ++ data) r n'.
Proof.
  intros Hnone (Hw & Hr & Hs). split; [done|]. split; [done|]. intros x. rewrite Hs, converts_node. f_equal. unfold full.
  assert (Hx : x = tn_prefix n <-> strip (tn_prefix n) x = Some []) by (rewrite strip_some, app_nil_r; done).
  destruct (strip (tn_prefix n) x) as [[|d y]|] eqn:E; [|rewrite decide_False by naive_solver..].
  - destruct data as [|c rest]; [by rewrite decide_False by naive_solver|]. rewrite (Hnone c rest eq_refl), bool_decide_eq_true_2, andb_true_r by done.
    destruct (tn_type n =? _); [by rewrite decide_True by naive_solver|by rewrite decide_False by naive_solver].
  - apply strip_some in E as ->. destruct data as [|c rest]; [done|]. destruct (Z.eqb_spec d c) as [->|]; [|done].
    assert (Hno : kids n c = None) by (unfold kids; by rewrite (Hnone c rest eq_refl)). rewrite Hno. unfold converts. rewrite run_none.
    by destruct (strip y rest) as [[|]|].
  - done.
Qed.
Lemma subscribe_ok fuel node data :
  dn = true \/ (forall x, converts node data x = false) -> (length data <= fuel)%nat -> wf_opt node -> bytes_ok data -> (forall x, nsubs node x + 1 < 2 ^ 32) ->
  exists r n', subscribe fuel node data = Done (r, n') /\ sub_post node data r n'.
Proof.
  revert node data. induction fuel as [|fuel IH]; intros node data Hdn Hl Hw Hb Hc.
  all: destruct node as [n|]; cbn [subscribe].
  2, 4: destruct (step4_ok (length data) data) as (n & E & Hwn & Hs); [done|done|]; exists 1, n; (split; [done|]); split; [done|];
    split; [by rewrite subs_none|]; intros x; unfold converts; cbn [enter fmap option_fmap option_map]; rewrite run_none, subs_none, Hs;
    by destruct (strip x data) as [[|]|].
  all: specialize (Hw n eq_refl); pose proof (check_prefix_le (tn_prefix n) data) as Hle;
    destruct (Z.ltb_spec (nn_node_check_prefix (tn_prefix n) data) (lenZ (tn_prefix n))) as [Hlt|Hge]; [by apply sub_step2|];
    assert (Hfull : nn_node_check_prefix (tn_prefix n) data = lenZ (tn_prefix n)) by lia; rewrite Hfull;
    remember (dropZ (lenZ (tn_prefix n)) data) as d eqn:Ed; symmetry in Ed; pose proof (full_prefix _ _ _ Hfull Ed) as ->;
    assert (Hrc : tn_refcount n + 1 < 2 ^ 32) by (specialize (Hc (tn_prefix n ++ [])); by rewrite subs_at in Hc).
  all: apply Forall_app in Hb as [Hbp Hb]; rewrite length_app in Hl; destruct d as [|c rest].
  1, 3: destruct (step5 n) as [r n'] eqn:E; exists r, n'; (split; [done|]); pose proof (step5_ok n Hw Hrc) as H; rewrite E in H;
    by apply (step3_sub n []).
  1: cbn in Hl; lia.
  destruct (nn_node_next n c) as [i|] eqn:Ei.
  - destruct (child_kids n c i Hw Ei) as [-> _]. cbn [obind]. apply Forall_cons in Hb as [Hbc Hb].
    destruct (IH (kids n c) rest) as (r & ch & -> & Hpost); [|cbn in Hl; lia|by apply kids_wf|done| |].
    { destruct Hdn as [?|Hdn]; [by left|]. right. intros x. specialize (Hdn (tn_prefix n ++ c :: x)).
      by rewrite converts_node, strip_app, Z.eqb_refl in Hdn. }
    { intros x. specialize (Hc (tn_prefix n ++ c :: x)). by rewrite subs_at in Hc. }
    cbn [obind]. destruct (set_child_ok n c i (Some ch) Hw Ei) as (n' & -> & En & Hk). cbn [obind]. exists r, n'. split; [done|].
    apply (sub_down n c rest r ch Hw ltac:(by eexists) Hpost n'); subst n'; [|done|done|done].
    destruct n. by apply wf_insert; [|apply Hpost].
  - destruct (step3_ok n (c :: rest)) as (r & n' & -> & Hpost); [|done|done|done|by intros ? ? [= <- <-]|].
    { destruct Hdn as [?|Hdn]; [by left|]. right. specialize (Hdn (tn_prefix n)).
      by rewrite converts_node, strip_refl, Ei, bool_decide_eq_true_2, andb_true_r in Hdn. }
    exists r, n'. split; [done|]. apply step3_sub; [by intros ? ? [= <- <-]|done].
Qed.
End wf.

(** ** Lemmas: matching *)

(** Is a beginning of [data] subscribed to, from position [k]? *)
Fixpoint covers (k : pos) (data : bytes) : bool :=
  (0 <? count_at k) || match data with [] => false | c :: data => covers (advance k c) data end.
Definition at_node (k : pos) : bool := match k with Some ([], _) => true | _ => false end.
Lemma covers_spec k data : covers k data = true <-> exists p q, data = p ++ q /\ 0 < count_at (run k p).
Proof.
  revert k. induction data as [|c data IH]; intros k; cbn [covers].
  - rewrite orb_false_r, Z.ltb_lt. split; [intros H; by exists [], []|]. intros (p & q & E & H). symmetry in E.
    apply app_eq_nil in E as [-> ->]. done.
  - rewrite orb_true_iff, Z.ltb_lt, IH. split.
    + intros [H|(p & q & -> & H)]; [by exists [], (c :: data)|]. by exists (c :: p), q.
    + intros (p & q & E & H). destruct p as [|d p]; [by left|]. injection E as <- E. right. by exists p, q.
Qed.
Lemma covers_none data : covers None data = false.
Proof. induction data; [done|]. exact IHdata. Qed.
Lemma covers_prefix p n data :
  covers (Some (p, n)) data = match strip p data with Some r => covers (Some ([], n)) r | None => false end.
Proof.
  revert data. induction p as [|x p IH]; intros data; [done|]. destruct data as [|c data]; [done|].
  cbn [covers count_at Z.ltb Z.compare orb advance strip]. destruct (x =? c); [apply IH|apply covers_none].
Qed.
Lemma node_match_ok dn fuel node data :
  (length data < fuel)%nat -> wf_opt dn node ->
  node_match fuel node data =
    if covers (enter node) data then Done 1 else if at_node (run (enter node) data) then Fault HeapOverflow else Done 0.
Proof.
  revert node data. induction fuel as [|fuel IH]; intros node data Hl Hw; [lia|]. destruct node as [n|]; cbn [node_match].
  2: { cbn [enter fmap option_fmap option_map]. by rewrite covers_none, run_none. }
  specialize (Hw n eq_refl). cbn [enter fmap option_fmap option_map]. rewrite covers_prefix, run_prefix.
  pose proof (check_prefix_le (tn_prefix n) data) as Hle.
  destruct (Z.eqb_spec (nn_node_check_prefix (tn_prefix n) data) (lenZ (tn_prefix n))) as [Hfull|Hpart]; cbn [negb].
  2: { rewrite check_prefix_none by lia. destruct (strip data (tn_prefix n)) as [q|] eqn:E; [|done].
    pose proof (strip_both _ _ _ (check_prefix_none (tn_prefix n) data ltac:(lia)) E). by destruct q. }
  remember (dropZ (lenZ (tn_prefix n)) data) as d eqn:Ed. symmetry in Ed. pose proof (full_prefix _ _ _ Hfull Ed) as ->. rewrite strip_app.
  assert (Hr : 0 <= tn_refcount n) by (destruct Hw; cbn; lia).
  unfold nn_node_has_subscribers. destruct d as [|c rest]; cbn [covers count_at run foldl at_node].
  - rewrite orb_false_r. destruct (Z.eqb_spec (tn_refcount n) 0), (Z.ltb_spec 0 (tn_refcount n)); try lia; done.
  - destruct (Z.eqb_spec (tn_refcount n) 0), (Z.ltb_spec 0 (tn_refcount n)); try lia; cbn [negb orb]; [|done].
    assert (E : match nn_node_next n c with Some i => nn_node_child n i | None => Done None end = Done (kids n c)).
    { destruct (nn_node_next n c) as [i|] eqn:Ei; [by apply (child_kids dn)|]. unfold kids. by rewrite Ei. }
    rewrite E. cbn [obind]. rewrite length_app in Hl. cbn [length] in Hl. rewrite IH; [done|lia|by apply (kids_wf dn)].
Qed.

(** ** Lemmas: unsubscribing from a trie without dense nodes *)
Section unsubscribe.
Local Notation wf := (wf false).
Local Notation wf_opt := (wf_opt false).
Definition unsub_post (node : option nn_trie_node) (data : bytes) (r : Z) (node' : option nn_trie_node) : Prop :=
  wf_opt node' /\ r = (if nsubs node data =? 1 then 1 else 0) /\ forall x, nsubs node' x = nsubs node x - is_str x data.
Lemma wf_sparse n : wf n -> exists cs, tn_u n = Sparse cs /\ lenZ cs <= 8 /\ NoDup cs /\ bytes_ok cs /\
  length (tn_array n) = length cs /\ Forall is_Some (tn_array n).
Proof. intros [r p [cs|] a _ _ _ Hs _]; [by exists cs|]. by destruct Hs. Qed.
Lemma wf_some n : wf n -> wf_opt (Some n).
Proof. by intros H ? [= <-]. Qed.
(** The node with one subscriber less. *)
Lemma found_ok n :
  wf n -> 0 < tn_refcount n -> exists r node', found (Some n) = Done (r, node') /\ unsub_post (Some n) (tn_prefix n) r node'.
Proof.
  intros Hw Hr. unfold found, nn_node_has_subscribers. rewrite (proj2 (Z.eqb_neq _ 0)) by lia. cbn [negb set_refcount tn_refcount].
  set (m := set_refcount (tn_refcount n - 1) n).
  assert (Hlt : tn_refcount n < 2 ^ 32) by (destruct Hw; cbn; lia).
  assert (Hs : forall x, nsubs (Some m) x = nsubs (Some n) x - is_str x (tn_prefix n)).
  { intros x. rewrite !subs_node. replace (is_str x (tn_prefix n)) with (is_str x (tn_prefix n ++ [])) by (by rewrite app_nil_r).
    rewrite is_str_app. cbn [m set_refcount tn_prefix tn_refcount]. destruct (strip (tn_prefix n) x) as [[|c y]|]; [done| |done].
    unfold is_str. rewrite decide_False by done. rewrite Z.sub_0_r. done. }
  assert (Hn : nsubs (Some n) (tn_prefix n) = tn_refcount n) by (rewrite <- (app_nil_r (tn_prefix n)); apply subs_at).
  destruct (wf_sparse n Hw) as (cs & Hu & _). unfold unsub_post. rewrite Hn.
  destruct (Z.eqb_spec (tn_refcount n - 1) 0) as [H0|H0].
  - rewrite (proj2 (Z.eqb_eq (tn_refcount n) 1)) by lia. unfold tn_type. cbn [m set_refcount tn_u]. rewrite Hu. destruct cs as [|c cs].
    + change (lenZ [] =? 0) with true. cbn iota. do 2 eexists. split; [done|]. split; [done|]. split; [done|]. intros x. rewrite subs_none, <- Hs.
      rewrite subs_node. cbn [m set_refcount tn_prefix tn_refcount]. destruct (strip (tn_prefix n) x) as [[|d y]|]; [lia| |done].
      assert (Hk : kids m d = None) by (unfold kids, nn_node_next; cbn [m set_refcount tn_u]; by rewrite Hu).
      fold m. by rewrite Hk, subs_none.
    + rewrite (proj2 (Z.eqb_neq (lenZ (c :: cs)) 0)) by lens. destruct (compact_ok false m) as (m' & -> & Hwm & Hsame).
      { apply wf_set_refcount; [done|lia|by rewrite Hu]. }
      cbn [obind]. do 2 eexists. split; [done|]. split; [by apply wf_some|]. split; [done|]. intros x. by rewrite Hsame, Hs.
  - rewrite (proj2 (Z.eqb_neq (tn_refcount n) 1)) by lia. do 2 eexists. split; [done|]. split; [|done].
    apply wf_some, wf_set_refcount; [done|lia|]. rewrite Hu. by destruct cs; cbn; lia.
Qed.

Lemma char_index_delete cs (i : nat) c x :
  NoDup cs -> cs !! i = Some c ->
  char_index (delete i cs) x = if decide (x = c) then None
    else match char_index cs x with Some j => Some (if decide (Z.of_nat i < j) then j - 1 else j) | None => None end.
Proof.
  revert i. induction cs as [|y cs IH]; intros i Hn Hi; [done|]. apply NoDup_cons in Hn as [Hy Hn]. destruct i as [|i].
  - injection Hi as ->. change (delete O (c :: cs)) with cs. cbn [char_index]. destruct (decide (x = c)) as [->|Hne]; [by apply char_index_none|].
    rewrite (proj2 (Z.eqb_neq c x)) by done. destruct (char_index cs x) as [j|] eqn:E; [|done]. cbn [fmap option_fmap option_map].
    destruct (char_index_some _ _ _ E) as [Hj _]. rewrite decide_True by lia. f_equal. lia.
  - change (delete (S i) (y :: cs)) with (y :: delete i cs). cbn [char_index]. rewrite (IH i Hn Hi).
    assert (Hyc : y <> c) by (intros ->; apply Hy; by eapply list_elem_of_lookup_2).
    destruct (Z.eqb_spec y x) as [->|Hne]; [rewrite decide_False, decide_False by (done || lia); done|].
    destruct (decide (x = c)); [done|]. destruct (char_index cs x) as [j|] eqn:E; [|done]. cbn [fmap option_fmap option_map].
    f_equal. repeat case_decide; lia.
Qed.
(** The node without the child for [c]. *)
Lemma remove_child n cs i c :
  wf n -> tn_u n = Sparse cs -> char_index cs c = Some i ->
  let n' := set_array (Sparse (delete (Z.to_nat i) cs)) (delete (Z.to_nat i) (tn_array n)) n in
  (forall x, kids n' x = if decide (x = c) then None else kids n x) /\ (live (tn_refcount n) (tn_u n') -> wf n').
Proof.
  intros Hw Hu Hi. destruct (wf_sparse n Hw) as (cs' & Hu' & H8 & Hn & Hb & Hlen & Hf). rewrite Hu in Hu'. injection Hu' as <-.
  destruct (char_index_some _ _ _ Hi) as [Hi0 Hc]. cbn zeta. split.
  - intros x. unfold kids, nn_node_next. cbn [set_array tn_u tn_array]. rewrite Hu, (char_index_delete cs _ c x Hn Hc).
    destruct (decide (x = c)); [done|]. destruct (char_index cs x) as [j|] eqn:E; [|done]. destruct (char_index_some _ _ _ E) as [Hj0 Hx].
    destruct (decide _) as [Hlt|Hge].
    + rewrite list_lookup_delete_ge by lia. do 2 f_equal. lia.
    + rewrite list_lookup_delete_lt; [done|]. assert (j <> i) by (intros ->; congruence). lia.
  - intros Hv. pose proof (lookup_lt_Some _ _ _ Hc) as Hcl. destruct n as [r p u a]. cbn [set_array tn_u tn_refcount tn_prefix tn_array] in *.
    inversion_clear Hw as [? ? ? ? Hr Hp _ _ Hk]. constructor; [done|done|done| |].
    + split; [unfold lenZ in *; rewrite length_delete by (by apply lookup_lt_is_Some); unfold NN_TRIE_SPARSE_MAX; lia|].
      split; [eapply sublist_NoDup; [exact Hn|apply sublist_delete]|]. split; [by apply Forall_delete|]. split; [|by apply Forall_delete].
      rewrite !length_delete by (apply lookup_lt_is_Some; lia). lia.
    + intros j m Hj. destruct (decide (j < Z.to_nat i)%nat) as [Hlt|Hge].
      * rewrite list_lookup_delete_lt in Hj by done. by eapply Hk.
      * rewrite list_lookup_delete_ge in Hj by lia. by eapply Hk.
Qed.
Lemma delete_insert_same {A} (l : list A) i x : delete i (<[i := x]> l) = delete i l.
Proof. by rewrite !delete_take_drop, take_insert_ge, drop_insert_lt by lia. Qed.
Lemma prune_ok n c i :
  wf n -> nn_node_next n c = Some i ->
  exists node', prune (set_array (tn_u n) (<[Z.to_nat i := None]> (tn_array n)) n) c = Done node' /\ wf_opt node' /\
    forall x, nsubs node' x = match strip (tn_prefix n) x with
      | None => 0 | Some [] => tn_refcount n | Some (d :: y) => if decide (d = c) then 0 else nsubs (kids n d) y end.
Proof.
  intros Hw Hi. destruct (wf_sparse n Hw) as (cs & Hu & _). unfold nn_node_next in Hi. rewrite Hu in Hi.
  destruct (remove_child n cs i c Hw Hu Hi) as [Hk Hwf]. set (n' := set_array _ _ n) in *.
  assert (Hs : forall x, nsubs (Some n') x = match strip (tn_prefix n) x with
      | None => 0 | Some [] => tn_refcount n | Some (d :: y) => if decide (d = c) then 0 else nsubs (kids n d) y end).
  { intros x. rewrite subs_node. change (tn_prefix n') with (tn_prefix n). change (tn_refcount n') with (tn_refcount n).
    destruct (strip (tn_prefix n) x) as [[|d y]|]; [done| |done]. rewrite Hk. destruct (decide (d = c)); [apply subs_none|done]. }
  unfold prune. rewrite Hu. cbn [set_array tn_u]. rewrite Hi. cbn [set_array tn_array tn_refcount tn_prefix]. rewrite delete_insert_same.
  change (set_array (Sparse (delete (Z.to_nat i) cs)) (delete (Z.to_nat i) (tn_array n)) (set_array _ _ n)) with n'.
  unfold nn_node_has_subscribers. change (tn_refcount n') with (tn_refcount n).
  assert (Ht : tn_type n' = lenZ (delete (Z.to_nat i) cs)) by done.
  assert (Hr : 0 <= tn_refcount n) by (destruct Hw; cbn; lia).
  destruct (Z.eqb_spec (tn_type n') 0) as [H0|H0]; [destruct (Z.eqb_spec (tn_refcount n) 0) as [Hr0|Hr0]|]; cbn [negb andb].
  - exists None. split; [done|]. split; [done|]. intros x. rewrite <- Hs, subs_none, subs_node. change (tn_prefix n') with (tn_prefix n).
    change (tn_refcount n') with (tn_refcount n). destruct (strip (tn_prefix n) x) as [[|d y]|]; [done| |done].
    rewrite Ht in H0. apply lenZ_zero_nil in H0. unfold kids, nn_node_next. cbn [n' set_array tn_u]. by rewrite H0, subs_none.
  - destruct (compact_ok false n') as (m & -> & Hm & Hsame); [apply Hwf; cbn [n' set_array tn_u]; unfold live; destruct (delete _ cs); [lia|done]|].
    cbn [obind]. exists (Some m). split; [done|]. split; [by apply wf_some|]. intros x. by rewrite Hsame, Hs.
  - destruct (compact_ok false n') as (m & -> & Hm & Hsame).
    { apply Hwf. rewrite Ht in H0. cbn [n' set_array tn_u]. unfold live. by destruct (delete _ cs). }
    cbn [obind]. exists (Some m). split; [done|]. split; [by apply wf_some|]. intros x. by rewrite Hsame, Hs.
Qed.
(** A node whose child for [c] lost the subscription to [rest]. *)
Lemma unsub_down n c rest r ch' node' :
  0 < nsubs (kids n c) rest -> unsub_post (kids n c) rest r ch' -> wf_opt node' ->
  (forall x, nsubs node' x = match strip (tn_prefix n) x with
     | None => 0 | Some [] => tn_refcount n | Some (d :: y) => if decide (d = c) then nsubs ch' y else nsubs (kids n d) y end) ->
  unsub_post (Some n) (tn_prefix n ++ c :: rest) r node'.
Proof.
  intros Hpos (_ & Hr & Hs) Hw Hn. split; [done|]. rewrite subs_at. split; [done|]. intros x. rewrite Hn, is_str_app, subs_node.
  destruct (strip (tn_prefix n) x) as [[|d y]|]; [unfold is_str; rewrite decide_False by done; lia| |done]. rewrite is_str_cons.
  destruct (decide (d = c)) as [->|]; [rewrite Hs; lia|lia].
Qed.
Lemma unsubscribe_ok fuel node data :
  (length data <= fuel)%nat -> wf_opt node -> 0 < nsubs node data ->
  exists r node', nn_node_unsubscribe fuel node data = Done (r, node') /\ unsub_post node data r node'.
Proof.
  revert node data. induction fuel as [|fuel IH]; intros node data Hl Hw Hpos;
    (destruct node as [n|]; [specialize (Hw n eq_refl)|rewrite subs_none in Hpos; lia]).
  all: assert (Hst : exists y, data = tn_prefix n ++ y)
    by (rewrite subs_node in Hpos; destruct (strip (tn_prefix n) data) as [y|] eqn:E; [exists y; by apply strip_some|lia]).
  all: destruct Hst as [y ->]; rewrite subs_at in Hpos.
  1: { destruct y; [|rewrite length_app in Hl; cbn in Hl; lia]. rewrite app_nil_r in *. destruct (tn_prefix n) eqn:Ep; [|cbn in Hl; lia].
    cbn [nn_node_unsubscribe]. rewrite <- Ep. by apply found_ok. }
  assert (Hcp : nn_node_check_prefix (tn_prefix n) (tn_prefix n ++ y) = lenZ (tn_prefix n)).
  { destruct (Z.lt_ge_cases (nn_node_check_prefix (tn_prefix n) (tn_prefix n ++ y)) (lenZ (tn_prefix n))) as [Hlt|Hge];
      [apply check_prefix_none in Hlt; by rewrite strip_app in Hlt|]. pose proof (check_prefix_le (tn_prefix n) (tn_prefix n ++ y)). lia. }
  destruct y as [|c rest].
  { rewrite app_nil_r in *. cbn [nn_node_unsubscribe]. destruct (tn_prefix n) as [|p0 ps] eqn:Ep; [rewrite <- Ep; by apply found_ok|].
    rewrite Hcp, Z.eqb_refl. cbn [negb]. unfold dropZ, lenZ. rewrite Nat2Z.id, drop_all, <- Ep. by apply found_ok. }
  rewrite length_app in Hl. cbn [length] in Hl. cbn [nn_node_unsubscribe].
  destruct (tn_prefix n ++ c :: rest) as [|z zs] eqn:Ez; [by destruct (tn_prefix n)|]. rewrite <- Ez in *. rewrite Hcp, Z.eqb_refl. cbn [negb].
  rewrite dropZ_app_eq by done. destruct (nn_node_next n c) as [i|] eqn:Ei; [|unfold kids in Hpos; rewrite Ei, subs_none in Hpos; lia].
  destruct (child_kids false n c i Hw Ei) as [-> _]. cbn [obind].
  destruct (IH (kids n c) rest) as (r & ch & -> & Hpost); [lia|by apply (kids_wf false)|done|]. cbn [obind].
  destruct (set_child_ok false n c i ch Hw Ei) as (n' & -> & En & Hk). cbn [obind].
  assert (Hs : forall x, nsubs (Some n') x = match strip (tn_prefix n) x with
     | None => 0 | Some [] => tn_refcount n | Some (d :: y) => if decide (d = c) then nsubs ch y else nsubs (kids n d) y end).
  { intros x. rewrite subs_node. subst n'. cbn [set_array tn_prefix tn_refcount]. destruct (strip (tn_prefix n) x) as [[|d y]|]; [done| |done].
    rewrite Hk. by destruct (decide (d = c)). }
  destruct ch as [ch|].
  - assert (Hwn : wf_opt (Some n')) by (apply wf_some; subst n'; destruct n; apply wf_insert; [done|by apply Hpost]).
    pose proof (unsub_down n c rest r (Some ch) (Some n') Hpos Hpost Hwn Hs) as Hfin. pose proof Hfin as (_ & Hr & _).
    destruct (Z.eqb_spec r 0) as [->|Hne]; [by exists 0, (Some n')|]. exists 1, (Some n'). split; [done|].
    replace 1 with r; [done|]. destruct (_ =? 1) in Hr; lia.
  - destruct (Z.eqb_spec r 0) as [->|Hne].
    { destruct Hpost as (_ & Hr & Hs0). specialize (Hs0 rest). rewrite subs_none, is_str_refl in Hs0. rewrite (proj2 (Z.eqb_eq _ 1)) in Hr by lia. done. }
    destruct (prune_ok n c i Hw Ei) as (m & Em & Hm & Hsm). rewrite En, Em. cbn [obind].
    assert (Hfin : unsub_post (Some n) (tn_prefix n ++ c :: rest) r m).
    { apply (unsub_down n c rest r None m Hpos Hpost Hm). intros x. rewrite Hsm. destruct (strip _ x) as [[|d y]|]; try done.
      by rewrite subs_none. }
    pose proof Hfin as (_ & Hr & _). exists 1, m. split; [done|]. replace 1 with r; [done|]. destruct (_ =? 1) in Hr; lia.
Qed.
End unsubscribe.

(** ** The trie as a multiset of strings *)
Lemma run_wf dn node x q n : wf_opt dn node -> run (enter node) x = Some (q, n) -> wf dn n.
Proof.
  intros Hw. assert (Hk : forall q n, enter node = Some (q, n) -> wf dn n).
  { intros q' n' E. destruct node as [m|]; [|done]. injection E as _ <-. by apply Hw. }
  revert Hk. generalize (enter node). induction x as [|c x IH]; intros k Hk; [apply Hk|]. apply (IH (advance k c)).
  intros q' n'. destruct k as [[[|p ps] m]|]; cbn [advance]; [| |done].
  - destruct (kids m c) as [ch|] eqn:E; [|done]. intros [= _ <-]. by apply (kids_wf dn m c (Hk _ _ eq_refl)).
  - destruct (p =? c); [|done]. intros [= _ <-]. by eapply Hk.
Qed.
(** Below every node there is a subscription. *)
Lemma wf_subscribed n : wf false n -> exists y, 0 < nsubs (Some n) y.
Proof.
  induction 1 as [r p u a Hr Hp Hv Hs Hk IH]. destruct u as [cs|]; [|by destruct Hs]. destruct Hs as (_ & _ & _ & Hl & Hf).
  destruct cs as [|c cs]; [exists (p ++ []); pose proof (subs_at (TNode r p (Sparse []) a) []) as E; cbn [tn_prefix] in E; by rewrite E|].
  destruct a as [|o a]; [done|]. apply Forall_cons in Hf as [[ch ->] _]. destruct (IH O ch eq_refl) as [y Hy]. exists (p ++ c :: y).
  pose proof (subs_at (TNode r p (Sparse (c :: cs)) (Some ch :: a)) (c :: y)) as E. cbn [tn_prefix] in E. rewrite E. unfold kids, nn_node_next. cbn [tn_u tn_array char_index].
  by rewrite Z.eqb_refl.
Qed.
Lemma subs_run node x n d y : run (enter node) x = Some ([], n) -> nsubs node (x ++ d :: y) = nsubs (kids n d) y.
Proof. intros E. unfold nsubs. by rewrite run_app, E. Qed.

Lemma wf_below n : wf false n -> exists z, 0 < count_at (run (Some ([], n)) z).
Proof.
  intros Hw. destruct (wf_subscribed n Hw) as [y Hy]. unfold nsubs in Hy. cbn [enter fmap option_fmap option_map] in Hy. rewrite run_prefix in Hy.
  destruct (strip (tn_prefix n) y) as [z|] eqn:E; [by exists z|]. destruct (strip y (tn_prefix n)) as [q|] eqn:E2; [|done].
  pose proof (strip_both _ _ _ E E2). by destruct q.
Qed.

Abbreviation strings := (gmultiset bytes).
Lemma multiplicity_le_size (x : bytes) (M : strings) : (multiplicity x M <= size M)%nat.
Proof.
  assert (Hs : multiplicity x M *: {[+ x +]} ⊆ M).
  { intros y. rewrite multiplicity_scalar_mul, multiplicity_singleton. destruct (decide (y = x)) as [->|]; lia. }
  apply gmultiset_subseteq_size in Hs. rewrite gmultiset_size_scalar_mul, gmultiset_size_singleton in Hs. lia.
Qed.
Definition holds (t : nn_trie) (M : strings) : Prop :=
  wf_opt false (root t) /\ forall s, nsubs (root t) s = Z.of_nat (multiplicity s M).
(** After no string are there more than eight different characters. *)
Definition narrow (M : strings) : Prop :=
  forall x cs, NoDup cs -> (forall c, c ∈ cs -> exists y, x ++ c :: y ∈ M) -> lenZ cs <= NN_TRIE_SPARSE_MAX.
Lemma holds_elem t M s : holds t M -> 0 < nsubs (root t) s <-> s ∈ M.
Proof. intros [_ H]. rewrite H, elem_of_multiplicity. lia. Qed.
Lemma narrow_no_convert t M s x : holds t M -> narrow (M ⊎ {[+ s +]}) -> converts (root t) s x = false.
Proof.
  intros Ht Hn. pose proof Ht as [Hw _]. destruct (converts (root t) s x) eqn:E; [|done]. exfalso. unfold converts in E.
  destruct (strip x s) as [[|c z]|] eqn:Es; [done| |done]. apply strip_some in Es as ->.
  destruct (run (enter (root t)) x) as [[[|] n]|] eqn:Er; [|done..]. apply andb_true_iff in E as [E8%Z.eqb_eq Hc%bool_decide_eq_true].
  pose proof (run_wf _ _ _ _ _ Hw Er) as Hwn. destruct (wf_sparse n Hwn) as (cs & Hu & _ & Hnd & _ & Hl & Hf).
  unfold nn_node_next in Hc. rewrite Hu in Hc. apply char_index_none in Hc. unfold tn_type in E8. rewrite Hu in E8.
  enough (lenZ (c :: cs) <= NN_TRIE_SPARSE_MAX) by (rewrite lenZ_cons in *; lia). apply (Hn x); [by constructor|].
  intros d [->|Hd]%elem_of_cons; [exists z; multiset_solver|]. apply list_elem_of_lookup in Hd as [i Hi].
  pose proof (char_index_lookup _ _ _ Hnd Hi) as Hci. assert (Hlt : (i < length (tn_array n))%nat) by (rewrite Hl; by eapply lookup_lt_Some).
  destruct (lookup_lt_is_Some_2 _ _ Hlt) as [o Ho]. rewrite Forall_lookup in Hf. destruct (Hf _ _ Ho) as [ch ->].
  assert (Hk : kids n d = Some ch) by (unfold kids, nn_node_next; rewrite Hu, Hci, Nat2Z.id, Ho; done).
  destruct (wf_subscribed ch) as [y Hy]; [by apply (kids_wf false n d Hwn)|]. exists y.
  enough (x ++ d :: y ∈ M) by multiset_solver. apply (holds_elem t M _ Ht). by rewrite (subs_run _ _ _ _ _ Er), Hk.
Qed.

Inductive trie_op := Subscribe (s : bytes) | Unsubscribe (s : bytes) | Match (m : bytes).
Definition trie_step (op : trie_op) (t : nn_trie) : outcome (Z * nn_trie) :=
  match op with
  | Subscribe s => nn_trie_subscribe t s
  | Unsubscribe s => nn_trie_unsubscribe t s
  | Match m => olet! r := nn_trie_match t m in Done (r, t)
  end.
Fixpoint trie_run (ops : list trie_op) (t : nn_trie) : outcome (list Z * nn_trie) :=
  match ops with
  | [] => Done ([], t)
  | op :: ops => olet! '(r, t) := trie_step op t in olet! '(rs, t) := trie_run ops t in Done (r :: rs, t)
  end.
(** The same on multisets *)
Definition some_prefix (m : bytes) (M : strings) : bool :=
  existsb (fun k => bool_decide (take k m ∈ M)) (seq 0 (S (length m))).
Definition strings_step (op : trie_op) (M : strings) : Z * strings :=
  match op with
  | Subscribe s => (if decide (s ∈ M) then 0 else 1, M ⊎ {[+ s +]})
  | Unsubscribe s => (if decide (multiplicity s M = 1%nat) then 1 else 0, M ∖ {[+ s +]})
  | Match m => (if some_prefix m M then 1 else 0, M)
  end.
Fixpoint strings_run (ops : list trie_op) (M : strings) : list Z * strings :=
  match ops with
  | [] => ([], M)
  | op :: ops => let '(r, M) := strings_step op M in let '(rs, M) := strings_run ops M in (r :: rs, M)
  end.
(** What the code handles: subscriptions that leave the strings narrow, the
    end of existing ones, and messages of which a beginning is subscribed to or
    which are not themselves the beginning of a subscription. *)
Definition allowed (op : trie_op) (M : strings) : Prop :=
  match op with
  | Subscribe s => bytes_ok s /\ narrow (M ⊎ {[+ s +]}) /\ Z.of_nat (size M) + 1 < 2 ^ 32
  | Unsubscribe s => s ∈ M
  | Match m => some_prefix m M = true \/ forall y, m ++ y ∉ M
  end.
Fixpoint allowed_run (ops : list trie_op) (M : strings) : Prop :=
  match ops with [] => True | op :: ops => allowed op M /\ allowed_run ops (snd (strings_step op M)) end.

Lemma some_prefix_spec m M : some_prefix m M = true <-> exists p q, m = p ++ q /\ p ∈ M.
Proof.
  unfold some_prefix. rewrite existsb_exists. split.
  - intros (k & _ & Hk%bool_decide_eq_true). exists (take k m), (drop k m). split; [by rewrite take_drop|done].
  - intros (p & q & -> & Hp). exists (length p). split.
    + apply in_seq. rewrite length_app. lia.
    + apply bool_decide_eq_true. by rewrite take_app_length.
Qed.
Lemma holds_covers t M m : holds t M -> covers (enter (root t)) m = some_prefix m M.
Proof.
  intros Ht. apply eq_true_iff_eq. rewrite covers_spec, some_prefix_spec. split; intros (p & q & E & H); exists p, q; (split; [done|]).
  - by apply (holds_elem t M).
  - by apply (holds_elem t M) in H.
Qed.
Lemma trie_step_ok op t M :
  holds t M -> allowed op M -> exists t', trie_step op t = Done (fst (strings_step op M), t') /\ holds t' (snd (strings_step op M)).
Proof.
  intros Ht Hop. pose proof Ht as [Hw Hs]. destruct op as [s|s|m]; cbn [trie_step strings_step fst snd allowed] in *.
  - destruct Hop as (Hb & Hn & Hsz). destruct (subscribe_ok false (length s) (root t) s) as (r & n & E & Hw' & Hr & Hs'); [|done|done|done| |].
    { right. intros x. by apply (narrow_no_convert t M). }
    { intros x. rewrite Hs. pose proof (multiplicity_le_size x M). lia. }
    unfold nn_trie_subscribe. rewrite E. cbn [obind]. eexists. split; [do 2 f_equal|split; [by apply wf_some|]].
    + rewrite Hr, Hs. destruct (decide (s ∈ M)) as [Hin|Hin]; rewrite elem_of_multiplicity in Hin.
      * by rewrite (proj2 (Z.eqb_neq _ 0)) by lia.
      * by rewrite (proj2 (Z.eqb_eq _ 0)) by lia.
    + intros x. cbn [root]. rewrite Hs', (narrow_no_convert t M s x Ht Hn), Hs, multiplicity_disj_union. unfold is_str.
      destruct (decide (x = s)) as [->|Hne]; [rewrite multiplicity_singleton_eq; lia|rewrite multiplicity_singleton_ne by done; lia].
  - destruct (unsubscribe_ok (length s) (root t) s) as (r & n & E & Hw' & Hr & Hs'); [done|done|by apply (holds_elem t M)|].
    unfold nn_trie_unsubscribe. rewrite E. cbn [obind]. eexists. split; [do 2 f_equal|split; [done|]].
    + rewrite Hr, Hs. destruct (decide (multiplicity s M = 1%nat)) as [Hm|Hm].
      * by rewrite (proj2 (Z.eqb_eq _ 1)) by lia.
      * by rewrite (proj2 (Z.eqb_neq _ 1)) by lia.
    + intros x. cbn [root]. rewrite Hs', Hs, multiplicity_difference. unfold is_str. rewrite elem_of_multiplicity in Hop.
      destruct (decide (x = s)) as [->|Hne]; [rewrite multiplicity_singleton_eq; lia|rewrite multiplicity_singleton_ne by done; lia].
  - unfold nn_trie_match. rewrite (node_match_ok false) by (done || lia). rewrite (holds_covers t M) by done.
    destruct (some_prefix m M) eqn:Ep; [by exists t|]. destruct Hop as [?|Hop]; [done|].
    destruct (run (enter (root t)) m) as [[[|] n]|] eqn:Er; [|by exists t..]. exfalso.
    destruct (wf_below n) as [z Hz]; [by eapply run_wf|]. apply (Hop z), (holds_elem t M _ Ht). unfold nsubs. by rewrite run_app, Er.
Qed.
(** A multiset of at most eight strings is narrow. *)
Lemma small_narrow M : (size M <= 8)%nat -> narrow M.
Proof.
  intros Hm x cs Hn Hc. set (f := fun s => match strip x s with Some (c :: _) => Some c | _ => None end).
  assert (Hsub : cs ⊆+ omap f (elements M)).
  { apply NoDup_submseteq; [done|]. intros c (y & Hy)%Hc. apply list_elem_of_omap. exists (x ++ c :: y).
    split; [by apply gmultiset_elem_of_elements|]. unfold f. by rewrite strip_app. }
  apply submseteq_length in Hsub. unfold size, gmultiset_size in Hm. cbn [compose] in Hm.
  assert (Hl : forall l, (length (omap f l) <= length l)%nat) by (intros l; induction l as [|a l IH]; cbn; [done|]; destruct (f a); cbn; lia).
  specialize (Hl (elements M)). unfold lenZ, NN_TRIE_SPARSE_MAX. change (size (elements M)) with (length (elements M)) in Hm || idtac. lia.
Qed.
Lemma holds_init : holds nn_trie_init ∅.
Proof. split; [done|]. intros s. rewrite multiplicity_empty. apply subs_none. Qed.

(** C23: the trie of subscriptions is a multiset of strings, as long as no string
    is followed by more than eight different characters: any sequence of
    subscriptions, ends of existing subscriptions and messages runs without a
    fault; a subscription reports whether it is the first of its string, the
    end of one whether it was the last, and a message matches exactly if one of
    its beginnings is subscribed to.  The messages are those for which that is
    the case or which are not the beginning of a subscription. *)
Theorem trie_refines_multiset (ops : list trie_op) (t : nn_trie) (M : strings) :
  holds t M -> allowed_run ops M ->
  exists t', trie_run ops t = Done (fst (strings_run ops M), t') /\ holds t' (snd (strings_run ops M)).
Proof.
  revert t M. induction ops as [|op ops IH]; intros t M Ht Hops; [by exists t|]. destruct Hops as [Hop Hops]. cbn [trie_run strings_run].
  destruct (trie_step_ok op t M Ht Hop) as (t1 & -> & Ht1). cbn [obind]. destruct (strings_step op M) as [r M1]. cbn [fst snd] in *.
  destruct (IH t1 M1 Ht1 Hops) as (t' & -> & Ht'). cbn [obind]. exists t'. by destruct (strings_run ops M1).
Qed.

Lemma trie_refines_multiset_witness :
  exists t', trie_run [Subscribe [1; 2; 3]; Subscribe [1; 2]; Match [1; 2; 9]; Unsubscribe [1; 2]; Match [1; 4]; Match [1; 2; 3]] nn_trie_init
    = Done ([1; 1; 1; 1; 0; 1], t') /\ holds t' {[+ [1; 2; 3] +]}.
Proof.
  destruct (trie_refines_multiset
    [Subscribe [1; 2; 3]; Subscribe [1; 2]; Match [1; 2; 9]; Unsubscribe [1; 2]; Match [1; 4]; Match [1; 2; 3]] nn_trie_init ∅)
    as (t' & E & H).
  - apply holds_init.
  - cbn [allowed_run strings_step fst snd allowed].
    split; [split; [by repeat constructor|split; [apply small_narrow; vm_compute; lia|vm_compute; done]]|].
    split; [split; [by repeat constructor|split; [apply small_narrow; vm_compute; lia|vm_compute; done]]|].
    split; [left; vm_compute; done|]. split; [multiset_solver|]. split; [right|split; [left; vm_compute; done|done]].
    intros y Hy. assert (Hin : [1; 4] ++ y ∈ ({[+ [1; 2; 3] +]} : strings)) by multiset_solver.
    by apply gmultiset_elem_of_singleton in Hin.
  - exists t'. replace (fst _) with [1; 1; 1; 1; 0; 1] in E by (vm_compute; done). split; [exact E|].
    replace (snd _) with ({[+ [1; 2; 3] +]} : strings) in H; [exact H|]. cbn [strings_run strings_step snd]. multiset_solver.
Defined.

(** What a subscription does to any well-formed trie, with dense nodes too:
    it succeeds, reports whether the string is new, and adds one to the count
    of the string and changes no other, except that the count of a string whose
    node had eight children and needs a ninth one is lost. *)
Theorem subscribe_exact (t : nn_trie) (s : bytes) :
  wf_opt true (root t) -> bytes_ok s -> (forall x, nsubs (root t) x + 1 < 2 ^ 32) ->
  exists r t', nn_trie_subscribe t s = Done (r, t') /\ wf_opt true (root t') /\
    r = (if nsubs (root t) s =? 0 then 1 else 0) /\
    forall x, nsubs (root t') x
      = (if converts (root t) s x then 0 else nsubs (root t) x) + (if decide (x = s) then 1 else 0).
Proof.
  intros Hw Hb Hc. destruct (subscribe_ok true (length s) (root t) s) as (r & n & E & Hw' & Hr & Hs); [by left|done..|].
  exists r, {| root := Some n |}. unfold nn_trie_subscribe. rewrite E. split; [done|]. split; [by intros ? [= <-]|]. by split.
Qed.
Lemma subscribe_exact_witness :
  exists r t', nn_trie_subscribe {| root := Some (TNode 2 [1] (Sparse []) []) |} [1; 7] = Done (r, t') /\ wf_opt true (root t') /\
    r = (if nsubs (Some (TNode 2 [1] (Sparse []) [])) [1; 7] =? 0 then 1 else 0) /\
    forall x, nsubs (root t') x
      = (if converts (Some (TNode 2 [1] (Sparse []) [])) [1; 7] x then 0 else nsubs (Some (TNode 2 [1] (Sparse []) [])) x)
        + (if decide (x = [1; 7]) then 1 else 0).
Proof.
  apply (subscribe_exact {| root := Some (TNode 2 [1] (Sparse []) []) |} [1; 7]); [|by repeat constructor|].
  - intros n [= <-]. apply wf_leaf; [lia|]. split; [done|by repeat constructor].
  - intros x. cbn [root]. rewrite subs_node. cbn [tn_prefix tn_refcount]. destruct (strip [1] x) as [[|c y]|]; [lia| |lia].
    assert (E : kids (TNode 2 [1] (Sparse []) []) c = None) by done. rewrite E, subs_none. lia.
Defined.

(** What matching a message does on any well-formed trie: 1 if a beginning of
    the message is subscribed to; otherwise 0, unless the message ends exactly
    at a node: then the code reads behind the end of the message. *)
Theorem match_exact (t : nn_trie) (m : bytes) :
  wf_opt true (root t) ->
  ((exists p q, m = p ++ q /\ 0 < nsubs (root t) p) -> nn_trie_match t m = Done 1) /\
  (~ (exists p q, m = p ++ q /\ 0 < nsubs (root t) p) ->
     nn_trie_match t m = if at_node (run (enter (root t)) m) then Fault HeapOverflow else Done 0).
Proof.
  intros Hw. unfold nn_trie_match. rewrite (node_match_ok true) by (done || lia).
  pose proof (covers_spec (enter (root t)) m) as Hc. change (fun p => count_at _) with (fun p => nsubs (root t) p) in Hc.
  split; intros H.
  - by rewrite (proj2 Hc H).
  - destruct (covers (enter (root t)) m); [|done]. exfalso. by apply H, Hc.
Qed.
Lemma match_exact_witness :
  let t := {| root := Some (TNode 0 [1] (Sparse [2; 3]) [Some (TNode 1 [] (Sparse []) []); Some (TNode 1 [] (Sparse []) [])]) |} in
  nn_trie_match t [1; 2; 9] = Done 1 /\ nn_trie_match t [1] = Fault HeapOverflow.
Proof.
  intros t. assert (Hw : wf_opt true (root t)).
  { intros n [= <-]. constructor; [lia|by split; [|repeat constructor]|done| |].
    - split; [done|]. split; [by apply (bool_decide_unpack _)|]. split; [by repeat constructor|]. split; [done|]. by repeat constructor.
    - intros [|[|i]] ch; [intros [= <-]..|done]; (apply wf_leaf; [lia|split; [done|constructor]]). }
  destruct (match_exact t [1; 2; 9] Hw) as [H1 _]. destruct (match_exact t [1] Hw) as [_ H2]. split.
  - apply H1. exists [1; 2], [9]. by split.
  - apply H2. intros (p & q & E & H). destruct p as [|a p]; [done|]. injection E as <- E. destruct p; [done|done].
Defined.

(** ** Defects *)
Definition subscribed (l : list bytes) : outcome nn_trie :=
  foldl (fun t s => olet! t := t in olet! '(_, t) := nn_trie_subscribe t s in Done t) (Done nn_trie_init) l.
Definition after (l : list bytes) (op : trie_op) : outcome (Z * nn_trie) := olet! t := subscribed l in trie_step op t.

(** Where the trie is wrong: a ninth child makes a subscription to the
    common beginning disappear; a message that is the common beginning of two
    subscriptions is read behind its end; ending the subscription to the empty
    string, which does not exist, ends another one; ending any subscription of
    an empty trie follows a null pointer; and in a dense node whose hole was
    filled, or ending a subscription that falls into a hole, the conversion to
    a sparse array writes behind the new node. *)
Example trie_defects :
  (exists t, after (map (fun c => [1; c]) (seqZ 11 8) ++ [[1]]) (Match [1; 50]) = Done (1, t)) /\
  (exists t, after (map (fun c => [1; c]) (seqZ 11 8) ++ [[1]; [1; 19]]) (Match [1; 50]) = Done (0, t)) /\
  after [[1; 2]; [1; 3]] (Match [1]) = Fault HeapOverflow /\
  after [[1; 2; 3]] (Unsubscribe []) = Done (1, nn_trie_init) /\
  after [] (Unsubscribe [1]) = Fault NullDeref /\
  after (map (fun c => [1; c]) [11; 13; 15; 17; 19; 21; 23; 25; 27; 20]) (Unsubscribe [1; 27]) = Fault HeapOverflow /\
  after (map (fun c => [1; c]) [11; 13; 15; 17; 19; 21; 23; 25; 27]) (Unsubscribe [1; 12]) = Fault HeapOverflow.
Proof. split; [eexists; vm_compute; reflexivity|]. split; [eexists; vm_compute; reflexivity|]. vm_compute. done. Qed.
