(* ===== verification/Chunk.v ===== *)
(** * Chunk: the memory of messages
    (lib/nanomsg/src/utils: chunk.c, chunkref.c, msg.c, wire.c, atomic.c)

    A chunk is a block with a reference count, its size, an offset, a tag and
    the data; a reference to it is a pointer to the data, or holds less than 32
    bytes of data itself.  [ck_tail] is what follows the structure [nn_chunk]
    in the block; a pointer into it is the address of the block and an index.
    The contents of memory that was just allocated are an argument ([junk]). *)
From S2P Require Import Prelude.
From S2P Require Import NnList.

(** ** Numbers in network byte order (wire.c) *)
Definition nn_gets (b : bytes) (pos : Z) : outcome Z := olet! d := blk_read b pos 2 in Done (be_val d).
Definition nn_puts (b : bytes) (pos val : Z) : outcome bytes := blk_write b pos (be_bytes 2 val).
Definition nn_getl (b : bytes) (pos : Z) : outcome Z := olet! d := blk_read b pos 4 in Done (be_val d).
Definition nn_putl (b : bytes) (pos val : Z) : outcome bytes := blk_write b pos (be_bytes 4 val).
Definition nn_getll (b : bytes) (pos : Z) : outcome Z := olet! d := blk_read b pos 8 in Done (be_val d).
Definition nn_putll (b : bytes) (pos val : Z) : outcome bytes := blk_write b pos (be_bytes 8 val).

(** ** Chunks *)
Definition NN_CHUNK_TAG : Z := 0xdeadcafe.
Definition NN_CHUNK_TAG_DEALLOCATED : Z := 0xbeadfeed.
Record nn_chunk := { ck_refcount : Z; ck_size : Z; ck_tail : bytes }.
Record cheap := { ch_chunks : gmap Z nn_chunk; ch_brk : Z }.
Definition ptr : Type := Z * Z.
Definition ck_read (a : Z) (h : cheap) : outcome nn_chunk :=
  match ch_chunks h !! a with Some c => Done c | None => Fault UseAfterFree end.
Definition ck_write (a : Z) (c : nn_chunk) (h : cheap) : cheap := {| ch_chunks := <[a := c]> (ch_chunks h); ch_brk := ch_brk h |}.

(** [nn_atomic_inc] and [nn_atomic_dec]: the old value and the new one *)
Definition nn_atomic_inc (v n : Z) : Z * Z := (v, u32 (v + n)).
Definition nn_atomic_dec (v n : Z) : Z * Z := (v, u32 (v - n)).

Definition nn_chunk_alloc (size type : Z) (junk : bytes) (h : cheap) : outcome (option ptr * cheap) :=
  if negb (type =? 0) then Done (None, h)
  else
    olet! t := nn_putl (zeros 8 ++ junk) 0 0 in
    olet! t := nn_putl t 4 NN_CHUNK_TAG in
    Done (Some (ch_brk h, 8),
          {| ch_chunks := <[ch_brk h := {| ck_refcount := 1; ck_size := size; ck_tail := t |}]> (ch_chunks h); ch_brk := ch_brk h + 1 |}).
(** The chunk of a pointer to data: the tag, and the offset back to the header *)
Definition nn_chunk_getptr (p : ptr) (h : cheap) : outcome nn_chunk :=
  let '(a, k) := p in
  olet! c := ck_read a h in
  olet! tag := nn_getl (ck_tail c) (k - 4) in
  olet! _ := nn_assert (tag =? NN_CHUNK_TAG) in
  olet! off := nn_getl (ck_tail c) (k - 8) in
  if k - 8 - off =? 0 then Done c else Fault HeapOverflow.
Definition nn_chunk_free (p : ptr) (h : cheap) : outcome cheap :=
  olet! c := nn_chunk_getptr p h in
  let '(old, new) := nn_atomic_dec (ck_refcount c) 1 in
  if old <=? 1 then
    olet! _ := nn_putl (ck_tail c) (snd p - 4) NN_CHUNK_TAG_DEALLOCATED in
    Done {| ch_chunks := delete (fst p) (ch_chunks h); ch_brk := ch_brk h |}
  else Done (ck_write (fst p) {| ck_refcount := new; ck_size := ck_size c; ck_tail := ck_tail c |} h).
Definition nn_chunk_addref (p : ptr) (n : Z) (h : cheap) : outcome cheap :=
  olet! c := nn_chunk_getptr p h in
  Done (ck_write (fst p) {| ck_refcount := snd (nn_atomic_inc (ck_refcount c) n); ck_size := ck_size c; ck_tail := ck_tail c |} h).
Definition nn_chunk_size (p : ptr) (h : cheap) : outcome Z := olet! c := nn_chunk_getptr p h in Done (ck_size c).
Definition nn_chunk_trim (p : ptr) (n : Z) (h : cheap) : outcome (ptr * cheap) :=
  olet! c := nn_chunk_getptr p h in
  olet! _ := nn_assert (n <=? ck_size c) in
  let k := snd p + n in
  olet! t := nn_putl (ck_tail c) (k - 4) NN_CHUNK_TAG in
  olet! t := nn_putl t (k - 8) (u32 (k - 8)) in
  Done ((fst p, k), ck_write (fst p) {| ck_refcount := ck_refcount c; ck_size := ck_size c - n; ck_tail := t |} h).

(** ** References *)
Definition NN_CHUNKREF_MAX : Z := 32.
(** [ref [0]] is the size of the data behind it, or 0xff for a pointer *)
Inductive nn_chunkref :=
  | Vsm (ref : bytes)
  | Ref (p : ptr).
Definition vsm_size (ref : bytes) : Z := match ref with [] => 0 | b :: _ => b end.

Definition nn_chunkref_init (size : Z) (junk : bytes) (h : cheap) : outcome (nn_chunkref * cheap) :=
  if size <? NN_CHUNKREF_MAX then
    olet! r := blk_write (takeZ NN_CHUNKREF_MAX (junk ++ zeros NN_CHUNKREF_MAX)) 0 [u8 size] in Done (Vsm r, h)
  else
    olet! '(p, h) := nn_chunk_alloc size 0 junk h in
    match p with Some p => Done (Ref p, h) | None => Fault AssertFailed end.
Definition nn_chunkref_init_chunk (p : ptr) : nn_chunkref := Ref p.
Definition nn_chunkref_term (r : nn_chunkref) (h : cheap) : outcome cheap :=
  match r with Vsm _ => Done h | Ref p => nn_chunk_free p h end.
(** The chunk, and the reference, which is empty afterwards *)
Definition nn_chunkref_getchunk (r : nn_chunkref) (junk : bytes) (h : cheap) : outcome (ptr * nn_chunkref * cheap) :=
  match r with
  | Ref p => olet! r' := blk_write junk 0 [0] in Done (p, Vsm r', h)
  | Vsm ref =>
      olet! '(p, h) := nn_chunk_alloc (vsm_size ref) 0 (takeZ (vsm_size ref) junk) h in
      match p with
      | None => Fault AssertFailed
      | Some p =>
          olet! d := blk_read ref 1 (vsm_size ref) in
          olet! c := ck_read (fst p) h in
          olet! t := blk_write (ck_tail c) (snd p) d in
          let h := ck_write (fst p) {| ck_refcount := ck_refcount c; ck_size := ck_size c; ck_tail := t |} h in
          olet! ref := blk_write ref 0 [0] in
          Done (p, Vsm ref, h)
      end
  end.
(** [old] is what the destination held *)
Definition nn_chunkref_mv (old : bytes) (src : nn_chunkref) : outcome nn_chunkref :=
  match src with
  | Ref p => Done (Ref p)
  | Vsm ref => olet! d := blk_read ref 0 (vsm_size ref + 1) in olet! r := blk_write old 0 d in Done (Vsm r)
  end.
Definition nn_chunkref_cp (src : nn_chunkref) (h : cheap) : outcome (nn_chunkref * cheap) :=
  match src with
  | Ref p => olet! h := nn_chunk_addref p 1 h in Done (Ref p, h)
  | Vsm ref => Done (Vsm ref, h)
  end.
Definition nn_chunkref_size (r : nn_chunkref) (h : cheap) : outcome Z :=
  match r with Ref p => nn_chunk_size p h | Vsm ref => Done (vsm_size ref) end.
(** The bytes at [nn_chunkref_data], as many as there are *)
Definition nn_chunkref_data (r : nn_chunkref) (h : cheap) : outcome bytes :=
  olet! n := nn_chunkref_size r h in
  match r with
  | Ref (a, k) => olet! c := ck_read a h in blk_read (ck_tail c) k n
  | Vsm ref => blk_read ref 1 n
  end.
(** [memcpy (nn_chunkref_data (self), d, ...)] *)
Definition fill (r : nn_chunkref) (d : bytes) (h : cheap) : outcome (nn_chunkref * cheap) :=
  match r with
  | Ref (a, k) =>
      olet! c := ck_read a h in
      olet! t := blk_write (ck_tail c) k d in
      Done (r, ck_write a {| ck_refcount := ck_refcount c; ck_size := ck_size c; ck_tail := t |} h)
  | Vsm ref => olet! ref := blk_write ref 1 d in Done (Vsm ref, h)
  end.
Definition nn_chunkref_trim (r : nn_chunkref) (n : Z) (h : cheap) : outcome (nn_chunkref * cheap) :=
  match r with
  | Ref p => olet! '(p, h) := nn_chunk_trim p n h in Done (Ref p, h)
  | Vsm ref =>
      olet! _ := nn_assert (n <=? vsm_size ref) in
      olet! d := blk_read ref (1 + n) (vsm_size ref - n) in
      olet! r := blk_write ref 1 d in
      olet! r := blk_write r 0 [u8 (vsm_size ref - n)] in
      Done (Vsm r, h)
  end.
Definition nn_chunkref_bulkcopy_start (r : nn_chunkref) (copies : Z) (h : cheap) : outcome cheap :=
  match r with Ref p => nn_chunk_addref p copies h | Vsm _ => Done h end.
Definition nn_chunkref_bulkcopy_cp (src : nn_chunkref) : nn_chunkref := src.

(** ** Messages: a header and a body *)
Record msg := { m_hdr : nn_chunkref; m_body : nn_chunkref }.
Definition nn_msg_init (size : Z) (hj bj : bytes) (h : cheap) : outcome (msg * cheap) :=
  olet! '(hd, h) := nn_chunkref_init 0 hj h in
  olet! '(b, h) := nn_chunkref_init size bj h in Done ({| m_hdr := hd; m_body := b |}, h).
Definition nn_msg_init_chunk (p : ptr) (hj : bytes) (h : cheap) : outcome (msg * cheap) :=
  olet! '(hd, h) := nn_chunkref_init 0 hj h in Done ({| m_hdr := hd; m_body := nn_chunkref_init_chunk p |}, h).
Definition nn_msg_term (m : msg) (h : cheap) : outcome cheap :=
  olet! h := nn_chunkref_term (m_hdr m) h in nn_chunkref_term (m_body m) h.
Definition nn_msg_mv (oldh oldb : bytes) (src : msg) : outcome msg :=
  olet! hd := nn_chunkref_mv oldh (m_hdr src) in
  olet! b := nn_chunkref_mv oldb (m_body src) in Done {| m_hdr := hd; m_body := b |}.
Definition nn_msg_cp (src : msg) (h : cheap) : outcome (msg * cheap) :=
  olet! '(hd, h) := nn_chunkref_cp (m_hdr src) h in
  olet! '(b, h) := nn_chunkref_cp (m_body src) h in Done ({| m_hdr := hd; m_body := b |}, h).
Definition nn_msg_bulkcopy_start (m : msg) (copies : Z) (h : cheap) : outcome cheap :=
  olet! h := nn_chunkref_bulkcopy_start (m_hdr m) copies h in nn_chunkref_bulkcopy_start (m_body m) copies h.
Definition nn_msg_bulkcopy_cp (src : msg) : msg :=
  {| m_hdr := nn_chunkref_bulkcopy_cp (m_hdr src); m_body := nn_chunkref_bulkcopy_cp (m_body src) |}.

(** ** References as values

    Named references and the chunks: every operation of chunkref.c. *)
Record cstate := { cs_refs : gmap Z nn_chunkref; cs_heap : cheap }.
Inductive cop :=
  | Cnew (x : Z) (d junk : bytes)        (* initialise and fill *)
  | Ccp (x y : Z)
  | Cmv (x y : Z) (old : bytes)
  | Cbulk (x : Z) (ys : list Z)          (* start, and a copy each *)
  | Ctrim (x n : Z)
  | Crewrap (x y : Z) (junk : bytes)     (* take the chunk of x out and put it into y *)
  | Cterm (x : Z)
  | Cread (x : Z).
Definition ref_of (x : Z) (s : cstate) : outcome nn_chunkref :=
  match cs_refs s !! x with Some r => Done r | None => Fault UseAfterFree end.
Definition cstep (o : cop) (s : cstate) : outcome (bytes * cstate) :=
  match o with
  | Cnew x d junk =>
      olet! '(r, h) := nn_chunkref_init (lenZ d) junk (cs_heap s) in
      olet! '(r, h) := fill r d h in
      Done ([], {| cs_refs := <[x := r]> (cs_refs s); cs_heap := h |})
  | Ccp x y =>
      olet! r := ref_of x s in
      olet! '(r, h) := nn_chunkref_cp r (cs_heap s) in Done ([], {| cs_refs := <[y := r]> (cs_refs s); cs_heap := h |})
  | Cmv x y old =>
      olet! r := ref_of x s in
      olet! r := nn_chunkref_mv old r in Done ([], {| cs_refs := <[y := r]> (delete x (cs_refs s)); cs_heap := cs_heap s |})
  | Cbulk x ys =>
      olet! r := ref_of x s in
      olet! h := nn_chunkref_bulkcopy_start r (lenZ ys) (cs_heap s) in
      Done ([], {| cs_refs := foldr (fun y m => <[y := nn_chunkref_bulkcopy_cp r]> m) (cs_refs s) ys; cs_heap := h |})
  | Ctrim x n =>
      olet! r := ref_of x s in
      olet! '(r, h) := nn_chunkref_trim r n (cs_heap s) in Done ([], {| cs_refs := <[x := r]> (cs_refs s); cs_heap := h |})
  | Crewrap x y junk =>
      olet! r := ref_of x s in
      olet! '(p, r, h) := nn_chunkref_getchunk r junk (cs_heap s) in
      Done ([], {| cs_refs := <[y := nn_chunkref_init_chunk p]> (<[x := r]> (cs_refs s)); cs_heap := h |})
  | Cterm x =>
      olet! r := ref_of x s in
      olet! h := nn_chunkref_term r (cs_heap s) in Done ([], {| cs_refs := delete x (cs_refs s); cs_heap := h |})
  | Cread x =>
      olet! r := ref_of x s in
      olet! d := nn_chunkref_data r (cs_heap s) in Done (d, s)
  end.
Fixpoint crun (os : list cop) (s : cstate) : outcome (list bytes * cstate) :=
  match os with
  | [] => Done ([], s)
  | o :: os => olet! '(d, s) := cstep o s in olet! '(ds, s) := crun os s in Done (d :: ds, s)
  end.

(** The values: the data of every reference, with a number that copies share. *)
Record astate := { as_map : gmap Z (Z * bytes); as_next : Z }.
Definition astep (o : cop) (s : astate) : bytes * astate :=
  let m := as_map s in
  let at_ x := match m !! x with Some v => v | None => (0, []) end in
  match o with
  | Cnew x d _ => ([], {| as_map := <[x := (as_next s, d)]> m; as_next := as_next s + 1 |})
  | Ccp x y => ([], {| as_map := <[y := at_ x]> m; as_next := as_next s |})
  | Cmv x y _ => ([], {| as_map := <[y := at_ x]> (delete x m); as_next := as_next s |})
  | Cbulk x ys => ([], {| as_map := foldr (fun y m' => <[y := at_ x]> m') m ys; as_next := as_next s |})
  | Ctrim x n => ([], {| as_map := <[x := (fst (at_ x), dropZ n (snd (at_ x)))]> m; as_next := as_next s |})
  | Crewrap x y _ => ([], {| as_map := <[y := at_ x]> (<[x := (as_next s, [])]> m); as_next := as_next s + 1 |})
  | Cterm x => ([], {| as_map := delete x m; as_next := as_next s |})
  | Cread x => (snd (at_ x), s)
  end.
Fixpoint arun (os : list cop) (s : astate) : list bytes * astate :=
  match os with
  | [] => ([], s)
  | o :: os => let '(d, s) := astep o s in let '(ds, s) := arun os s in (d :: ds, s)
  end.
(** What the comments of chunkref.h ask for: sources are initialised and
    destinations are not; and only data that is not shared is trimmed. *)
Definition cvalid (o : cop) (s : astate) : Prop :=
  let m := as_map s in
  match o with
  | Cnew x d junk => m !! x = None /\ lenZ junk = lenZ d /\ lenZ d + 8 < 2 ^ 32
  | Ccp x y => is_Some (m !! x) /\ m !! y = None /\ Z.of_nat (size m) + 1 < 2 ^ 32
  | Cmv x y old => is_Some (m !! x) /\ m !! y = None /\ lenZ old = NN_CHUNKREF_MAX /\ Z.of_nat (size m) + 1 < 2 ^ 32
  | Cbulk x ys => is_Some (m !! x) /\ NoDup ys /\ (forall y, y ∈ ys -> m !! y = None) /\ Z.of_nat (size m) + lenZ ys < 2 ^ 32
  | Ctrim x n => exists g d, m !! x = Some (g, d) /\ 0 <= n <= lenZ d /\ forall y e, m !! y = Some (g, e) -> y = x
  | Crewrap x y junk => is_Some (m !! x) /\ m !! y = None /\ lenZ junk = NN_CHUNKREF_MAX /\ Z.of_nat (size m) + 1 < 2 ^ 32
  | Cterm x | Cread x => is_Some (m !! x)
  end.
Fixpoint cvalid_run (os : list cop) (s : astate) : Prop :=
  match os with [] => True | o :: os => cvalid o s /\ cvalid_run os (snd (astep o s)) end.

(** ** Lemmas *)
Definition points (a : Z) (r : nn_chunkref) : bool := match r with Ref (b, _) => a =? b | Vsm _ => false end.
Definition refs_to (a : Z) (m : gmap Z nn_chunkref) : nat := size (filter (fun p => points a (snd p) = true) m).
Lemma refs_to_insert a m y r : m !! y = None -> refs_to a (<[y := r]> m) = ((if points a r then 1 else 0) + refs_to a m)%nat.
Proof.
  intros Hy. unfold refs_to. destruct (points a r) eqn:E.
  - rewrite map_filter_insert_True by done. rewrite map_size_insert_None; [done|]. apply map_lookup_filter_None. left. done.
  - rewrite map_filter_insert_False by (cbn; congruence). rewrite delete_id by done. done.
Qed.
Lemma refs_to_delete a m x r : m !! x = Some r -> refs_to a m = ((if points a r then 1 else 0) + refs_to a (delete x m))%nat.
Proof. intros Hx. rewrite <- (insert_delete_id m x r) at 1 by done. apply refs_to_insert. apply lookup_delete_eq. Qed.
Lemma refs_to_replace a m x r r' : m !! x = Some r -> points a r = points a r' -> refs_to a (<[x := r']> m) = refs_to a m.
Proof.
  intros Hx Hp. rewrite <- insert_delete_eq, refs_to_insert by apply lookup_delete_eq. rewrite (refs_to_delete a m x r Hx). by rewrite Hp.
Qed.
Lemma refs_to_elem a m x r : m !! x = Some r -> points a r = true -> (0 < refs_to a m)%nat.
Proof. intros Hx Hp. rewrite (refs_to_delete a m x r Hx), Hp. lia. Qed.
(** A block whose data starts at [k]: the offset and the tag are before it. *)
Definition tail_of (pre d : bytes) : bytes := pre ++ be_bytes 4 (lenZ pre) ++ be_bytes 4 NN_CHUNK_TAG ++ d.
Definition chunk_at (h : cheap) (p : ptr) (c : nn_chunk) (d : bytes) : Prop :=
  exists pre, ch_chunks h !! fst p = Some c /\ ck_size c = lenZ d /\ ck_tail c = tail_of pre d /\ snd p = lenZ pre + 8 /\ lenZ pre + lenZ d < 2 ^ 32.
Definition crep (h : cheap) (r : nn_chunkref) (d : bytes) : Prop :=
  match r with
  | Vsm ref => lenZ ref = NN_CHUNKREF_MAX /\ exists rest, ref = lenZ d :: d ++ rest
  | Ref p => exists c, chunk_at h p c d
  end.
Lemma putl_mid (a b c : bytes) v : lenZ b = 4 -> nn_putl (a ++ b ++ c) (lenZ a) v = Done (a ++ be_bytes 4 v ++ c).
Proof. intros Hb. apply blk_write_mid. lens. Qed.
Lemma getl_mid (a c : bytes) v : 0 <= v < 2 ^ 32 -> nn_getl (a ++ be_bytes 4 v ++ c) (lenZ a) = Done v.
Proof.
  intros Hv. unfold nn_getl. rewrite blk_read_mid by done. cbn [obind]. rewrite be_val_be_bytes. f_equal. apply Z.mod_small. done.
Qed.
Lemma getptr_ok h p c d : chunk_at h p c d -> nn_chunk_getptr p h = Done c.
Proof.
  intros (pre & Hc & _ & Ht & Hk & Hl). destruct p as [a k]. cbn [fst snd] in *. unfold nn_chunk_getptr, ck_read. rewrite Hc. cbn [obind].
  rewrite Ht. subst k. unfold tail_of. replace (lenZ pre + 8 - 8) with (lenZ pre) by lia.
  assert (E : nn_getl (pre ++ be_bytes 4 (lenZ pre) ++ be_bytes 4 NN_CHUNK_TAG ++ d) (lenZ pre + 8 - 4) = Done NN_CHUNK_TAG).
  { rewrite app_assoc. replace (lenZ pre + 8 - 4) with (lenZ (pre ++ be_bytes 4 (lenZ pre))) by (rewrite lenZ_app, lenZ_be_bytes; lia).
    by apply getl_mid. }
  rewrite E. cbn [obind nn_assert]. rewrite Z.eqb_refl. cbn [obind]. rewrite getl_mid by lens. cbn [obind]. by rewrite Z.sub_diag.
Qed.
Lemma cdata_ok h r d : crep h r d -> nn_chunkref_size r h = Done (lenZ d) /\ nn_chunkref_data r h = Done d.
Proof.
  unfold nn_chunkref_data. destruct r as [ref|[a k]]; cbn [nn_chunkref_size].
  - intros [Hl [rest ->]]. cbn [vsm_size obind]. split; [done|]. apply (blk_read_mid [lenZ d] d rest). done.
  - intros [c Hc]. unfold nn_chunk_size. rewrite (getptr_ok _ _ _ _ Hc). destruct Hc as (pre & Hc & Hs & Ht & Hk & _). cbn [obind fst snd] in *.
    rewrite Hs. split; [done|]. unfold ck_read. rewrite Hc. cbn [obind]. rewrite Ht, Hk. unfold tail_of. rewrite !app_assoc.
    replace (lenZ pre + 8) with (lenZ ((pre ++ be_bytes 4 (lenZ pre)) ++ be_bytes 4 NN_CHUNK_TAG)) by (rewrite !lenZ_app, !lenZ_be_bytes; lia).
    rewrite <- (app_nil_r (_ ++ d)), <- app_assoc. by apply blk_read_mid.
Qed.
(** A chunk with another count *)
Definition recount (v : Z) (c : nn_chunk) : nn_chunk := {| ck_refcount := v; ck_size := ck_size c; ck_tail := ck_tail c |}.
Lemma crep_frame h h' r d :
  crep h r d -> (forall a k, r = Ref (a, k) -> exists v, ch_chunks h' !! a = recount v <$> ch_chunks h !! a) -> crep h' r d.
Proof.
  destruct r as [ref|[a k]]; [done|]. intros [c (pre & Hc & Hs & Ht & Hk & Hl)] Hh. destruct (Hh a k eq_refl) as [v Hv].
  cbn [fst snd] in *. exists (recount v c), pre. cbn [fst snd]. rewrite Hv, Hc. done.
Qed.

Record cinv (s : cstate) (A : astate) : Prop := {
  ci_dom : forall x, is_Some (cs_refs s !! x) <-> is_Some (as_map A !! x);
  ci_rep : forall x r g d, cs_refs s !! x = Some r -> as_map A !! x = Some (g, d) -> crep (cs_heap s) r d;
  ci_share : forall x y a k k' g g' d d', cs_refs s !! x = Some (Ref (a, k)) -> cs_refs s !! y = Some (Ref (a, k')) ->
    as_map A !! x = Some (g, d) -> as_map A !! y = Some (g', d') -> k = k' /\ g = g';
  ci_count : forall a c, ch_chunks (cs_heap s) !! a = Some c ->
    ck_refcount c = Z.of_nat (refs_to a (cs_refs s)) /\ (0 < refs_to a (cs_refs s))%nat /\ ck_refcount c < 2 ^ 32;
  ci_brk : forall a c, ch_chunks (cs_heap s) !! a = Some c -> a < ch_brk (cs_heap s);
  ci_next : forall x g d, as_map A !! x = Some (g, d) -> g < as_next A
}.
Lemma refs_to_fresh a s A : cinv s A -> ch_chunks (cs_heap s) !! a = None -> refs_to a (cs_refs s) = 0%nat.
Proof.
  intros H Ha. unfold refs_to. apply map_size_empty_iff, map_eq. intros x. rewrite lookup_empty. apply map_lookup_filter_None. right.
  intros r Hr. cbn [snd]. destruct r as [|[b k]]; [done|]. intros E%Z.eqb_eq. subst b.
  destruct (proj1 (ci_dom _ _ H x)) as [[g d] Hx]; [by eexists|]. destruct (ci_rep _ _ H _ _ _ _ Hr Hx) as (c & pre & Hc & _). cbn in Hc. congruence.
Qed.
Lemma cinv_size s A : cinv s A -> size (cs_refs s) = size (as_map A).
Proof.
  intros H. rewrite <- !size_dom. f_equal. apply leibniz_equiv. intros x. rewrite !elem_of_dom. apply H.
Qed.
Lemma refs_to_bound a m : (refs_to a m <= size m)%nat.
Proof. apply map_subseteq_size, map_filter_subseteq. Qed.

(** Four changes make up every operation: a reference that holds its data, the
    first reference to a chunk, one more reference, one reference less. *)
Definition with_ref (x : Z) (r : nn_chunkref) (h : cheap) (s : cstate) : cstate := {| cs_refs := <[x := r]> (cs_refs s); cs_heap := h |}.
Definition with_val (x : Z) (v : Z * bytes) (n : Z) (A : astate) : astate := {| as_map := <[x := v]> (as_map A); as_next := n |}.
Definition without_ref (x : Z) (h : cheap) (s : cstate) : cstate := {| cs_refs := delete x (cs_refs s); cs_heap := h |}.
Definition without_val (x : Z) (A : astate) : astate := {| as_map := delete x (as_map A); as_next := as_next A |}.
Definition bump (a n : Z) (h : cheap) : cheap :=
  {| ch_chunks := alter (fun c => recount (ck_refcount c + n) c) a (ch_chunks h); ch_brk := ch_brk h |}.

Lemma dom_insert_iff {V W} (m : gmap Z V) (m' : gmap Z W) y v w :
  (forall x, is_Some (m !! x) <-> is_Some (m' !! x)) -> forall x, is_Some (<[y := v]> m !! x) <-> is_Some (<[y := w]> m' !! x).
Proof. intros H x. destruct (decide (x = y)) as [->|]; [rewrite !lookup_insert_eq; split; intros; by eexists|]. by rewrite !lookup_insert_ne. Qed.
Lemma dom_delete_iff {V W} (m : gmap Z V) (m' : gmap Z W) y :
  (forall x, is_Some (m !! x) <-> is_Some (m' !! x)) -> forall x, is_Some (delete y m !! x) <-> is_Some (delete y m' !! x).
Proof. intros H x. destruct (decide (x = y)) as [->|]; [rewrite !lookup_delete_eq; by split|]. by rewrite !lookup_delete_ne. Qed.
Lemma cinv_free s A x : cinv s A -> as_map A !! x = None -> cs_refs s !! x = None.
Proof. intros H Hx. apply eq_None_not_Some. intros E%(ci_dom _ _ H). rewrite Hx in E. by destruct E. Qed.
Lemma cinv_live s A x g d : cinv s A -> as_map A !! x = Some (g, d) -> exists r, cs_refs s !! x = Some r /\ crep (cs_heap s) r d.
Proof. intros H Hx. destruct (proj2 (ci_dom _ _ H x)) as [r Hr]; [by eexists|]. eauto using ci_rep. Qed.

Lemma cinv_add_vsm s A x ref g d n :
  cinv s A -> as_map A !! x = None -> crep (cs_heap s) (Vsm ref) d -> g < n -> as_next A <= n ->
  cinv (with_ref x (Vsm ref) (cs_heap s) s) (with_val x (g, d) n A).
Proof.
  intros H Hx Hr Hg Hn. pose proof (cinv_free _ _ _ H Hx) as Hx'. constructor; cbn.
  - apply dom_insert_iff, H.
  - intros y r g' d' Hy HA. apply lookup_insert_Some in Hy as [[<- <-]|[Hne Hy]].
    + rewrite lookup_insert_eq in HA. by simplify_eq.
    + rewrite lookup_insert_ne in HA by done. by eapply ci_rep.
  - intros y z a k k' g1 g2 d1 d2 Hy Hz. apply lookup_insert_Some in Hy as [[_ ?]|[Hy' Hy]]; [done|].
    apply lookup_insert_Some in Hz as [[_ ?]|[Hz' Hz]]; [done|]. rewrite !lookup_insert_ne by done. by apply (ci_share _ _ H y z a k k' g1 g2 d1 d2).
  - intros a c Hc. rewrite refs_to_insert by done. by apply H.
  - apply H.
  - intros y g' d' Hy. apply lookup_insert_Some in Hy as [[_ ?]|[_ Hy]]; [simplify_eq; lia|]. pose proof (ci_next _ _ H _ _ _ Hy). lia.
Qed.

Lemma cinv_add_ref s A x a k c g d n b :
  cinv s A -> as_map A !! x = None -> ch_chunks (cs_heap s) !! a = None -> ck_refcount c = 1 -> a < b -> ch_brk (cs_heap s) <= b ->
  let h := {| ch_chunks := <[a := c]> (ch_chunks (cs_heap s)); ch_brk := b |} in
  chunk_at h (a, k) c d -> g < n -> as_next A <= n ->
  cinv (with_ref x (Ref (a, k)) h s) (with_val x (g, d) n A).
Proof.
  intros H Hx Ha Hc1 Hb Hb' h Hc Hg Hn. pose proof (cinv_free _ _ _ H Hx) as Hx'.
  assert (Hno : forall y a' k', cs_refs s !! y = Some (Ref (a', k')) -> a' <> a).
  { intros y a' k' Hy ->. destruct (proj1 (ci_dom _ _ H y)) as [[g' d'] Hy']; [by eexists|].
    destruct (ci_rep _ _ H _ _ _ _ Hy Hy') as (c' & pre & E & _). cbn in E. congruence. }
  constructor; cbn.
  - apply dom_insert_iff, H.
  - intros y r g' d' Hy HA. apply lookup_insert_Some in Hy as [[<- <-]|[Hne Hy]].
    + rewrite lookup_insert_eq in HA. simplify_eq. by exists c.
    + rewrite lookup_insert_ne in HA by done. eapply crep_frame; [by eapply ci_rep|]. intros a' k' ->. cbn.
      rewrite lookup_insert_ne by (symmetry; by eapply Hno). destruct (ch_chunks (cs_heap s) !! a') as [[v sz t]|]; [by exists v|by exists 0].
  - intros y z a' k1 k2 g1 g2 d1 d2 Hy Hz Ay Az. apply lookup_insert_Some in Hy as [[<- Ey]|[Hy' Hy]].
    + apply lookup_insert_Some in Hz as [[<- Ez]|[Hz' Hz]]; [|exfalso; simplify_eq; by destruct (Hno _ _ _ Hz)].
      split; congruence.
    + apply lookup_insert_Some in Hz as [[<- Ez]|[Hz' Hz]]; [exfalso; simplify_eq; by destruct (Hno _ _ _ Hy)|].
      rewrite !lookup_insert_ne in Ay, Az by done. by apply (ci_share _ _ H y z a' k1 k2 g1 g2 d1 d2).
  - intros a' c' Hc'. rewrite refs_to_insert by done. cbn [points]. apply lookup_insert_Some in Hc' as [[<- <-]|[Hne Hc']].
    + rewrite Z.eqb_refl, (refs_to_fresh _ _ _ H Ha). lia.
    + rewrite (proj2 (Z.eqb_neq a' a)) by done. by apply H.
  - intros a' c' Hc'. apply lookup_insert_Some in Hc' as [[<- _]|[_ Hc']]; [done|]. pose proof (ci_brk _ _ H _ _ Hc'). lia.
  - intros y g' d' Hy. apply lookup_insert_Some in Hy as [[_ ?]|[_ Hy]]; [simplify_eq; lia|]. pose proof (ci_next _ _ H _ _ _ Hy). lia.
Qed.

Lemma bump_lookup a n h b : ch_chunks (bump a n h) !! b = (if decide (a = b) then fun o => (fun c => recount (ck_refcount c + n) c) <$> o else id) (ch_chunks h !! b).
Proof. cbn. destruct (decide (a = b)) as [->|]; [by rewrite lookup_alter_eq|by rewrite lookup_alter_ne]. Qed.
Lemma bump_bump a n m h : bump a n (bump a m h) = bump a (m + n) h.
Proof.
  unfold bump. cbn. f_equal. apply map_eq. intros x. destruct (decide (a = x)) as [->|]; [|by rewrite !lookup_alter_ne].
  rewrite !lookup_alter_eq. destruct (ch_chunks h !! x) as [c|]; [|done]. unfold recount. cbn. by rewrite Z.add_assoc.
Qed.
Lemma bump_0 a h : bump a 0 h = h.
Proof.
  unfold bump. destruct h as [m b]. cbn. f_equal. apply map_eq. intros x. destruct (decide (a = x)) as [->|]; [|by rewrite lookup_alter_ne].
  rewrite lookup_alter_eq. destruct (m !! x) as [[v sz t]|]; [|done]. unfold recount. cbn. by rewrite Z.add_0_r.
Qed.
Lemma crep_bump h r d a n : crep h r d -> crep (bump a n h) r d.
Proof.
  intros H. eapply crep_frame; [done|]. intros b k ->. rewrite bump_lookup. destruct (decide (a = b)) as [->|].
  - destruct (ch_chunks h !! b) as [c|]; [by exists (ck_refcount c + n)|by exists 0].
  - cbn. destruct (ch_chunks h !! b) as [[v sz t]|]; [by exists v|by exists 0].
Qed.

Lemma cinv_share s A x y a k g d :
  cinv s A -> Z.of_nat (size (as_map A)) + 1 < 2 ^ 32 -> as_map A !! y = None -> cs_refs s !! x = Some (Ref (a, k)) -> as_map A !! x = Some (g, d) ->
  cinv (with_ref y (Ref (a, k)) (bump a 1 (cs_heap s)) s) (with_val y (g, d) (as_next A) A).
Proof.
  intros H Hsz Hy Hx HxA. pose proof (cinv_free _ _ _ H Hy) as Hy'. constructor; cbn [with_ref with_val cs_refs cs_heap as_map as_next].
  - apply dom_insert_iff, H.
  - intros z r g' d' Hz HA. apply (crep_bump _ _ _ a 1). apply lookup_insert_Some in Hz as [[<- <-]|[Hne Hz]].
    + rewrite lookup_insert_eq in HA. simplify_eq. exact (ci_rep _ _ H _ _ _ _ Hx HxA).
    + rewrite lookup_insert_ne in HA by done. by eapply ci_rep.
  - intros z w a' k1 k2 g1 g2 d1 d2 Hz Hw Az Aw.
    apply lookup_insert_Some in Hz as [[<- ?]|[Hz' Hz]]; [rewrite lookup_insert_eq in Az|rewrite lookup_insert_ne in Az by done];
    apply lookup_insert_Some in Hw as [[<- ?]|[Hw' Hw]]; [rewrite lookup_insert_eq in Aw|rewrite lookup_insert_ne in Aw by done|rewrite lookup_insert_eq in Aw|rewrite lookup_insert_ne in Aw by done]; simplify_eq.
    + done.
    + by apply (ci_share _ _ H x w a' k1 k2 g1 g2 d1 d2).
    + by apply (ci_share _ _ H z x a' k1 k2 g1 g2 d1 d2).
    + by apply (ci_share _ _ H z w a' k1 k2 g1 g2 d1 d2).
  - intros b c Hc. rewrite bump_lookup in Hc. rewrite refs_to_insert by done. cbn [points]. destruct (decide (a = b)) as [->|Hne].
    + apply fmap_Some in Hc as (c0 & Hc0 & ->). destruct (ci_count _ _ H _ _ Hc0) as (E1 & E2 & E3). cbn. pose proof (refs_to_bound b (cs_refs s)) as E4. rewrite (cinv_size _ _ H) in E4. rewrite Z.eqb_refl. lia.
    + rewrite (proj2 (Z.eqb_neq b a)) by done. by apply H.
  - intros b c Hc. rewrite bump_lookup in Hc. destruct (decide (a = b)) as [->|Hne]; [|by apply (ci_brk _ _ H _ _ Hc)].
    apply fmap_Some in Hc as (c0 & Hc0 & _). by apply (ci_brk _ _ H _ _ Hc0).
  - intros z g' d' Hz. apply lookup_insert_Some in Hz as [[_ ?]|[_ Hz]]; [simplify_eq|]; by eapply ci_next.
Qed.

(** The chunk goes with the last reference. *)
Definition drop (a : Z) (h : cheap) : cheap :=
  match ch_chunks h !! a with
  | Some c => if ck_refcount c <=? 1 then {| ch_chunks := delete a (ch_chunks h); ch_brk := ch_brk h |} else bump a (-1) h
  | None => h
  end.
Lemma cinv_del_vsm s A x ref : cinv s A -> cs_refs s !! x = Some (Vsm ref) -> cinv (without_ref x (cs_heap s) s) (without_val x A).
Proof.
  intros H Hx. constructor; cbn; [apply dom_delete_iff, H|..].
  - intros z r g d Hz%lookup_delete_Some Az%lookup_delete_Some. eapply (ci_rep _ _ H z r g d); tauto.
  - intros z w a k k' g g' d d' [_ Hz]%lookup_delete_Some [_ Hw]%lookup_delete_Some [_ Az]%lookup_delete_Some [_ Aw]%lookup_delete_Some.
    by apply (ci_share _ _ H z w a k k' g g' d d').
  - intros a c Hc. pose proof (refs_to_delete a _ _ _ Hx) as E. cbn in E. rewrite <- E. by apply H.
  - apply H.
  - intros z g d [_ Hz]%lookup_delete_Some. by eapply ci_next.
Qed.
Lemma cinv_del_ref s A x a k : cinv s A -> cs_refs s !! x = Some (Ref (a, k)) -> cinv (without_ref x (drop a (cs_heap s)) s) (without_val x A).
Proof.
  intros H Hx. destruct (proj1 (ci_dom _ _ H x)) as [[gx dx] Ax]; [by eexists|].
  destruct (ci_rep _ _ H _ _ _ _ Hx Ax) as (c & pre & Hc & _). cbn in Hc. destruct (ci_count _ _ H _ _ Hc) as (Hn & _ & Hn').
  pose proof (refs_to_delete a _ _ _ Hx) as E. cbn in E. rewrite Z.eqb_refl in E. unfold drop. rewrite Hc.
  assert (Hother : forall b, b <> a -> refs_to b (cs_refs s) = refs_to b (delete x (cs_refs s))).
  { intros b Hb. pose proof (refs_to_delete b _ _ _ Hx) as E'. cbn in E'. by rewrite (proj2 (Z.eqb_neq b a)) in E'. }
  set (h' := if ck_refcount c <=? 1 then _ else _).
  assert (Hl : forall b, b <> a -> ch_chunks h' !! b = ch_chunks (cs_heap s) !! b).
  { intros b Hb. subst h'. destruct (ck_refcount c <=? 1); cbn; [by rewrite lookup_delete_ne|by rewrite lookup_alter_ne]. }
  assert (Hla : forall c', ch_chunks h' !! a = Some c' -> 1 < ck_refcount c /\ c' = recount (ck_refcount c - 1) c).
  { intros c' Hc'. subst h'. destruct (Z.leb_spec (ck_refcount c) 1); cbn in Hc'; [by rewrite lookup_delete_eq in Hc'|].
    rewrite lookup_alter_eq, Hc in Hc'. cbn in Hc'. simplify_eq. split; [lia|]. done. }
  constructor; cbn; [apply dom_delete_iff, H|..].
  - intros z r g d [Hne Hz]%lookup_delete_Some [_ Az]%lookup_delete_Some. eapply crep_frame; [by eapply ci_rep|].
    intros b kb ->. destruct (decide (b = a)) as [->|Hb].
    + rewrite Hc. exists (ck_refcount c - 1). subst h'. destruct (Z.leb_spec (ck_refcount c) 1) as [Hle|].
      * exfalso. assert (0 < refs_to a (delete x (cs_refs s)))%nat; [|lia].
        apply (refs_to_elem _ _ z (Ref (a, kb))); [by rewrite lookup_delete_ne|]. cbn. apply Z.eqb_refl.
      * cbn. by rewrite lookup_alter_eq, Hc.
    + rewrite (Hl _ Hb). destruct (ch_chunks (cs_heap s) !! b) as [[v sz t]|]; [by exists v|by exists 0].
  - intros z w b kb kb' g g' d d' [_ Hz]%lookup_delete_Some [_ Hw]%lookup_delete_Some [_ Az]%lookup_delete_Some [_ Aw]%lookup_delete_Some.
    by apply (ci_share _ _ H z w b kb kb' g g' d d').
  - intros b cb Hb. destruct (decide (b = a)) as [->|Hne].
    + destruct (Hla _ Hb) as [? ->]. cbn. lia.
    + rewrite (Hl _ Hne) in Hb. rewrite <- Hother by done. by apply H.
  - intros b cb Hb. assert (Eb : ch_brk h' = ch_brk (cs_heap s)) by (subst h'; by destruct (ck_refcount c <=? 1)). rewrite Eb.
    destruct (decide (b = a)) as [->|Hne]; [by apply (ci_brk _ _ H _ _ Hc)|]. rewrite (Hl _ Hne) in Hb. by apply (ci_brk _ _ H _ _ Hb).
  - intros z g d [_ Hz]%lookup_delete_Some. by eapply ci_next.
Qed.

Lemma addref_ok s A x a k g d n :
  cinv s A -> cs_refs s !! x = Some (Ref (a, k)) -> as_map A !! x = Some (g, d) -> 0 <= n -> Z.of_nat (size (as_map A)) + n < 2 ^ 32 ->
  nn_chunk_addref (a, k) n (cs_heap s) = Done (bump a n (cs_heap s)).
Proof.
  intros H Hx Ax Hn Hsz. destruct (ci_rep _ _ H _ _ _ _ Hx Ax) as (c & Hc). unfold nn_chunk_addref. rewrite (getptr_ok _ _ _ _ Hc). cbn [obind].
  destruct Hc as (pre & Hc & _). cbn [fst] in *. destruct (ci_count _ _ H _ _ Hc) as (E1 & E2 & E3).
  pose proof (refs_to_bound a (cs_refs s)) as E4. rewrite (cinv_size _ _ H) in E4.
  unfold ck_write, bump. do 2 f_equal. apply map_eq. intros b. destruct (decide (b = a)) as [->|]; [|by rewrite lookup_insert_ne, lookup_alter_ne].
  rewrite lookup_insert_eq, lookup_alter_eq, Hc. cbn. unfold recount. do 2 f_equal. apply wrap_small; lia.
Qed.
Lemma free_ok s A x a k : cinv s A -> cs_refs s !! x = Some (Ref (a, k)) -> nn_chunk_free (a, k) (cs_heap s) = Done (drop a (cs_heap s)).
Proof.
  intros H Hx. destruct (proj1 (ci_dom _ _ H x)) as [[g d] Ax]; [by eexists|]. destruct (ci_rep _ _ H _ _ _ _ Hx Ax) as (c & Hc).
  unfold nn_chunk_free. rewrite (getptr_ok _ _ _ _ Hc). cbn [obind nn_atomic_dec fst snd].
  destruct Hc as (pre & Hc & Hs & Ht & Hk & _). cbn [fst snd] in *. destruct (ci_count _ _ H _ _ Hc) as (E1 & E2 & E3).
  unfold drop. rewrite Hc. destruct (Z.leb_spec (ck_refcount c) 1) as [|Hgt].
  - rewrite Ht. unfold tail_of. rewrite app_assoc.
    replace (k - 4) with (lenZ (pre ++ be_bytes 4 (lenZ pre))) by (rewrite lenZ_app, lenZ_be_bytes; lia).
    rewrite putl_mid by (by rewrite lenZ_be_bytes). done.
  - unfold ck_write, bump. do 2 f_equal. apply map_eq. intros b. destruct (decide (b = a)) as [->|]; [|by rewrite lookup_insert_ne, lookup_alter_ne].
    rewrite lookup_insert_eq, lookup_alter_eq, Hc. cbn. unfold recount. do 2 f_equal. apply wrap_small; lia.
Qed.

Lemma drop_bump s A x a k :
  cinv s A -> cs_refs s !! x = Some (Ref (a, k)) -> drop a (bump a 1 (cs_heap s)) = cs_heap s.
Proof.
  intros H Hx. destruct (proj1 (ci_dom _ _ H x)) as [[g d] Ax]; [by eexists|]. destruct (ci_rep _ _ H _ _ _ _ Hx Ax) as (c & pre & Hc & _).
  cbn [fst] in Hc. destruct (ci_count _ _ H _ _ Hc) as (E1 & E2 & E3). unfold drop. rewrite bump_lookup, decide_True, Hc by done. cbn [fmap option_fmap option_map].
  cbn [recount ck_refcount]. rewrite (proj2 (Z.leb_gt _ _)) by lia. rewrite bump_bump. apply bump_0.
Qed.
Lemma cinv_move s A x y a k g d :
  cinv s A -> Z.of_nat (size (as_map A)) + 1 < 2 ^ 32 -> as_map A !! y = None -> cs_refs s !! x = Some (Ref (a, k)) -> as_map A !! x = Some (g, d) ->
  cinv (with_ref y (Ref (a, k)) (cs_heap s) (without_ref x (cs_heap s) s)) (with_val y (g, d) (as_next A) (without_val x A)).
Proof.
  intros H Hsz Hy Hx Ax. assert (Hxy : x <> y) by (intros ->; congruence). pose proof (cinv_share _ _ _ _ _ _ _ _ H Hsz Hy Hx Ax) as H1.
  assert (Hx1 : cs_refs (with_ref y (Ref (a, k)) (bump a 1 (cs_heap s)) s) !! x = Some (Ref (a, k))) by (cbn; by rewrite lookup_insert_ne).
  pose proof (cinv_del_ref _ _ _ _ _ H1 Hx1) as H2. unfold without_ref, without_val, with_ref, with_val in *. cbn [cs_refs cs_heap as_map as_next] in *.
  rewrite (drop_bump _ _ _ _ _ H Hx), !delete_insert_ne in H2 by done. done.
Qed.
Lemma calloc_ok size junk h :
  nn_chunk_alloc size 0 junk h =
  Done (Some (ch_brk h, 8), {| ch_chunks := <[ch_brk h := {| ck_refcount := 1; ck_size := size; ck_tail := tail_of [] junk |}]> (ch_chunks h); ch_brk := ch_brk h + 1 |}).
Proof.
  unfold nn_chunk_alloc. cbn [Z.eqb negb]. change (zeros 8 ++ junk) with ([] ++ zeros 4 ++ (zeros 4 ++ junk)).
  rewrite (putl_mid [] (zeros 4)) by done. cbn [obind]. rewrite app_nil_l.
  pose proof (putl_mid (be_bytes 4 0) (zeros 4) junk NN_CHUNK_TAG eq_refl) as E. change (lenZ (be_bytes 4 0)) with 4 in E. rewrite E. done.
Qed.
Lemma brk_fresh s A : cinv s A -> ch_chunks (cs_heap s) !! ch_brk (cs_heap s) = None.
Proof. intros H. apply eq_None_not_Some. intros [c Hc]. pose proof (ci_brk _ _ H _ _ Hc). lia. Qed.
(** A new chunk, filled *)
Lemma cinv_alloc s A x g d n :
  cinv s A -> as_map A !! x = None -> lenZ d + 8 < 2 ^ 32 -> g < n -> as_next A <= n ->
  let b := ch_brk (cs_heap s) in
  cinv (with_ref x (Ref (b, 8)) {| ch_chunks := <[b := {| ck_refcount := 1; ck_size := lenZ d; ck_tail := tail_of [] d |}]> (ch_chunks (cs_heap s)); ch_brk := b + 1 |} s)
    (with_val x (g, d) n A).
Proof.
  intros H Hx Hd Hg Hn b. apply cinv_add_ref; try done; [by apply (brk_fresh _ A)|lia..|].
  exists []. cbn [fst snd ch_chunks]. rewrite lookup_insert_eq. repeat split. change (lenZ (@nil Z)) with 0. lia.
Qed.
Lemma write_tail_of pre j d : lenZ j = lenZ d -> blk_write (tail_of pre j) (lenZ pre + 8) d = Done (tail_of pre d).
Proof.
  intros Hl. unfold tail_of. rewrite !app_assoc.
  replace (lenZ pre + 8) with (lenZ ((pre ++ be_bytes 4 (lenZ pre)) ++ be_bytes 4 NN_CHUNK_TAG)) by (rewrite !lenZ_app, !lenZ_be_bytes; lia).
  rewrite <- (app_nil_r (_ ++ j)), <- (app_nil_r (_ ++ d)), <- !(app_assoc (_ ++ _) _ []). by apply blk_write_mid.
Qed.
Lemma write_new j d : lenZ j = lenZ d -> blk_write (tail_of [] j) 8 d = Done (tail_of [] d).
Proof. exact (write_tail_of [] j d). Qed.

(** *** The operations *)
Ltac clens := unfold NN_CHUNKREF_MAX in *; repeat (autorewrite with len; first [rewrite lenZ_takeZ by lens | rewrite lenZ_dropZ by lens | rewrite lenZ_zeros by lens]); lens.
Lemma write_0 (b c d : bytes) : lenZ b = lenZ d -> blk_write (b ++ c) 0 d = Done (d ++ c).
Proof. exact (blk_write_mid [] b c d). Qed.
Lemma write_1 v (b c d : bytes) : lenZ b = lenZ d -> blk_write (v :: b ++ c) 1 d = Done (v :: d ++ c).
Proof. exact (blk_write_mid [v] b c d). Qed.
Lemma read_0 (b c : bytes) n : n = lenZ b -> blk_read (b ++ c) 0 n = Done b.
Proof. exact (blk_read_mid [] b c n). Qed.
Definition refines_step (o : cop) (s : cstate) (A : astate) : Prop :=
  exists s', cstep o s = Done (fst (astep o A), s') /\ cinv s' (snd (astep o A)).
Lemma new_ok s A x d junk : cinv s A -> cvalid (Cnew x d junk) A -> refines_step (Cnew x d junk) s A.
Proof.
  intros H (Hx & Hj & Hd). unfold refines_step. cbn [cstep astep]. unfold nn_chunkref_init. destruct (Z.ltb_spec (lenZ d) NN_CHUNKREF_MAX) as [Hs|Hs].
  - set (r0 := takeZ _ _). assert (Hr0 : lenZ r0 = 32) by (subst r0; unfold NN_CHUNKREF_MAX in *; rewrite lenZ_takeZ; rewrite ?lenZ_app, ?lenZ_zeros by lia; lens).
    destruct r0 as [|b0 r0]; [done|]. change (b0 :: r0) with ([b0] ++ r0). rewrite (write_0 [b0] r0 [u8 (lenZ d)]) by done. cbn [obind fill app].
    unfold NN_CHUNKREF_MAX in *. assert (Hr1 : lenZ r0 = 31) by lens. pose proof (lenZ_nonneg d).
    rewrite <- (takeZ_dropZ (lenZ d) r0). rewrite (wrap_small 8 (lenZ d)) by lia.
    rewrite (write_1 (lenZ d) (takeZ (lenZ d) r0) (dropZ (lenZ d) r0) d) by clens. cbn [obind]. eexists. split; [done|].
    apply cinv_add_vsm; [done..| |lia|lia]. split; [clens|]. by eexists.
  - rewrite calloc_ok. cbn [obind fill ck_read ch_chunks]. unfold ck_read. cbn [ch_chunks]. rewrite lookup_insert_eq. cbn [obind ck_tail].
    rewrite (write_new junk d) by done. cbn [obind]. eexists. split; [done|]. unfold ck_write. cbn [ch_chunks ch_brk ck_refcount ck_size].
    rewrite insert_insert_eq. apply cinv_alloc; try done; lia.
Qed.
Lemma cp_ok s A x y : cinv s A -> cvalid (Ccp x y) A -> refines_step (Ccp x y) s A.
Proof.
  intros H ([[g d] Ax] & Hy & Hsz). unfold refines_step. cbn [cstep astep]. destruct (cinv_live _ _ _ _ _ H Ax) as (r & Hr & Hc).
  unfold ref_of. rewrite Hr, Ax. cbn [obind]. destruct r as [ref|[a k]]; cbn [nn_chunkref_cp].
  - eexists. split; [done|]. pose proof (ci_next _ _ H _ _ _ Ax). apply cinv_add_vsm; try done; lia.
  - rewrite (addref_ok _ _ _ _ _ _ _ _ H Hr Ax) by lia. cbn [obind]. eexists. split; [done|]. by eapply cinv_share.
Qed.
Lemma mv_ok s A x y old : cinv s A -> cvalid (Cmv x y old) A -> refines_step (Cmv x y old) s A.
Proof.
  intros H ([[g d] Ax] & Hy & Ho & Hsz). unfold refines_step. cbn [cstep astep]. destruct (cinv_live _ _ _ _ _ H Ax) as (r & Hr & Hc).
  unfold ref_of. rewrite Hr, Ax. cbn [obind]. destruct r as [ref|[a k]]; cbn [nn_chunkref_mv].
  - pose proof Hc as [Hl [rest E]]. pose proof (lenZ_nonneg d). pose proof (lenZ_nonneg rest). rewrite E. cbn [vsm_size]. rewrite E in Hl. unfold NN_CHUNKREF_MAX in *.
    change (lenZ d :: d ++ rest) with ((lenZ d :: d) ++ rest). rewrite (read_0 (lenZ d :: d) rest) by lens. cbn [obind].
    rewrite <- (takeZ_dropZ (lenZ d + 1) old). rewrite (write_0 (takeZ (lenZ d + 1) old) (dropZ (lenZ d + 1) old) (lenZ d :: d)) by clens.
    cbn [obind]. eexists. split; [done|]. pose proof (ci_next _ _ H _ _ _ Ax).
    apply (cinv_add_vsm (without_ref x (cs_heap s) s) (without_val x A)); cbn; [by eapply cinv_del_vsm|by rewrite lookup_delete_None; right| |lia|lia].
    split; [cbn [app]; clens|]. by eexists.
  - eexists. split; [done|]. by apply cinv_move.
Qed.
Lemma bulk_ok s A x ys : cinv s A -> cvalid (Cbulk x ys) A -> refines_step (Cbulk x ys) s A.
Proof.
  intros H ([[g d] Ax] & Hnd & Hys & Hsz). unfold refines_step. cbn [cstep astep]. destruct (cinv_live _ _ _ _ _ H Ax) as (r & Hr & Hc).
  unfold ref_of. rewrite Hr, Ax. cbn [obind nn_chunkref_bulkcopy_cp]. unfold nn_chunkref_bulkcopy_cp.
  set (h' := fun n => match r with Ref (a, _) => bump a n (cs_heap s) | Vsm _ => cs_heap s end).
  assert (E : nn_chunkref_bulkcopy_start r (lenZ ys) (cs_heap s) = Done (h' (lenZ ys))).
  { destruct r as [ref|[a k]]; [done|]. apply (addref_ok _ _ _ _ _ _ _ _ H Hr Ax); [apply lenZ_nonneg|done]. }
  rewrite E. cbn [obind]. eexists. split; [done|]. cbn [fst snd]. clear E.
  assert (G : cinv {| cs_refs := foldr (fun y m => <[y := r]> m) (cs_refs s) ys; cs_heap := h' (lenZ ys) |}
      {| as_map := foldr (fun y m => <[y := (g, d)]> m) (as_map A) ys; as_next := as_next A |} /\
    size (foldr (fun y m => <[y := (g, d)]> m) (as_map A) ys) = (length ys + size (as_map A))%nat /\
    foldr (fun y m => <[y := r]> m) (cs_refs s) ys !! x = Some r /\ foldr (fun y m => <[y := (g, d)]> m) (as_map A) ys !! x = Some (g, d) /\
    (forall z, z ∉ ys -> foldr (fun y m => <[y := (g, d)]> m) (as_map A) ys !! z = as_map A !! z)); [|apply G].
  induction ys as [|y ys IH].
  - cbn [foldr length Nat.add]. split; [|done]. subst h'. cbn. destruct s as [m h], A, r as [?|[a k]]; [done|]. by rewrite bump_0.
  - rewrite list.NoDup_cons in Hnd. destruct Hnd as [Hny Hnd]. destruct IH as (IH1 & IH2 & IH3 & IH4 & IH5).
    + done.
    + intros z Hz. apply Hys. set_solver.
    + lens.
    + pose proof (Hys y ltac:(set_solver)) as Hy. assert (Hxy : y <> x) by (intros ->; congruence). pose proof (ci_next _ _ H _ _ _ Ax) as Hg. cbn [foldr]. split_and!.
      * destruct r as [ref|[a k]].
        -- apply (cinv_add_vsm _ _ y ref g d (as_next A) IH1); cbn; [by rewrite IH5|done|done|lia].
        -- pose proof (cinv_share _ _ x y a k g d IH1) as G. subst h'. unfold with_ref, with_val in G. cbn [cs_refs cs_heap as_map as_next] in G. rewrite bump_bump in G. rewrite lenZ_cons, Z.add_comm. apply G; [|by rewrite IH5|done|done].
           rewrite IH2. unfold lenZ in Hsz. cbn [length] in Hsz. lia.
      * rewrite map_size_insert_None by (by rewrite IH5). cbn [length]. lia.
      * by rewrite lookup_insert_ne.
      * by rewrite lookup_insert_ne.
      * intros z Hz. rewrite lookup_insert_ne by set_solver. apply IH5. set_solver.
Qed.
Lemma trim_tail pre d n :
  0 <= n <= lenZ d -> lenZ pre + lenZ d < 2 ^ 32 ->
  exists pre', lenZ pre' = lenZ pre + n /\
    (olet! t := nn_putl (tail_of pre d) (lenZ pre + 8 + n - 4) NN_CHUNK_TAG in nn_putl t (lenZ pre + 8 + n - 8) (u32 (lenZ pre + 8 + n - 8))) =
    Done (tail_of pre' (dropZ n d)).
Proof.
  intros Hn Hd. pose proof (lenZ_nonneg pre). set (P := pre ++ be_bytes 4 (lenZ pre) ++ be_bytes 4 NN_CHUNK_TAG ++ takeZ n d).
  assert (HP : lenZ P = lenZ pre + 8 + n) by (subst P; rewrite !lenZ_app, !lenZ_be_bytes, lenZ_takeZ by lia; lia).
  assert (ET : tail_of pre d = takeZ (lenZ pre + n) P ++ takeZ 4 (dropZ (lenZ pre + n) P) ++ dropZ 4 (dropZ (lenZ pre + n) P) ++ dropZ n d).
  { rewrite (app_assoc (takeZ 4 _)), takeZ_dropZ, app_assoc, takeZ_dropZ. subst P. unfold tail_of. rewrite <- !app_assoc. by rewrite takeZ_dropZ. }
  assert (L1 : lenZ (takeZ (lenZ pre + n) P) = lenZ pre + n) by (apply lenZ_takeZ; lia).
  assert (L0 : lenZ (dropZ (lenZ pre + n) P) = 8) by (rewrite lenZ_dropZ; lia).
  assert (L2 : lenZ (takeZ 4 (dropZ (lenZ pre + n) P)) = 4) by (apply lenZ_takeZ; lia).
  assert (L3 : lenZ (dropZ 4 (dropZ (lenZ pre + n) P)) = 4) by (rewrite lenZ_dropZ; lia).
  exists (takeZ (lenZ pre + n) P). split; [done|]. rewrite ET. clear ET. generalize dependent (takeZ (lenZ pre + n) P). intros q L1.
  generalize dependent (takeZ 4 (dropZ (lenZ pre + n) P)). intros o L2. generalize dependent (dropZ 4 (dropZ (lenZ pre + n) P)). intros t L3.
  rewrite app_assoc. replace (lenZ pre + 8 + n - 4) with (lenZ (q ++ o)) by (rewrite lenZ_app; lia). rewrite putl_mid by done. cbn [obind].
  replace (lenZ pre + 8 + n - 8) with (lenZ q) by lia. rewrite <- app_assoc, putl_mid by done. unfold nn_putl, tail_of. by rewrite be_bytes_u32.
Qed.
Lemma trim_ok s A x n : cinv s A -> cvalid (Ctrim x n) A -> refines_step (Ctrim x n) s A.
Proof.
  intros H (g & d & Ax & Hn & Huniq). unfold refines_step. cbn [cstep astep]. destruct (cinv_live _ _ _ _ _ H Ax) as (r & Hr & Hc).
  unfold ref_of. rewrite Hr, Ax. cbn [obind fst snd]. pose proof (ci_next _ _ H _ _ _ Ax) as Hg. destruct r as [ref|[a k]]; cbn [nn_chunkref_trim].
  - destruct Hc as [Hl [rest E]]. pose proof (lenZ_nonneg d). pose proof (lenZ_nonneg rest). rewrite E. cbn [vsm_size]. rewrite E in Hl. unfold NN_CHUNKREF_MAX in *.
    autorewrite with len in Hl. rewrite (proj2 (Z.leb_le n (lenZ d))) by lia. cbn [nn_assert obind].
    assert (Er : blk_read (lenZ d :: d ++ rest) (1 + n) (lenZ d - n) = Done (dropZ n d)).
    { replace (d ++ rest) with (takeZ n d ++ dropZ n d ++ rest) by (by rewrite app_assoc, takeZ_dropZ). replace (1 + n) with (lenZ (lenZ d :: takeZ n d)) by (rewrite lenZ_cons, lenZ_takeZ; lia).
      apply (blk_read_mid (lenZ d :: takeZ n d)). rewrite lenZ_dropZ; lia. }
    rewrite Er. cbn [obind]. replace (d ++ rest) with (takeZ (lenZ d - n) d ++ dropZ (lenZ d - n) d ++ rest) by (by rewrite app_assoc, takeZ_dropZ).
    rewrite write_1 by (rewrite lenZ_takeZ, lenZ_dropZ; lia). cbn [obind].
    change (lenZ d :: ?l) with ([lenZ d] ++ l). rewrite write_0 by done. cbn [obind]. eexists. split; [done|].
    cbn [fst snd]. rewrite <- (insert_delete_eq (cs_refs s)), <- (insert_delete_eq (as_map A)).
    apply (cinv_add_vsm (without_ref x (cs_heap s) s) (without_val x A) x); [by eapply cinv_del_vsm|by apply lookup_delete_eq| |done|cbn; lia].
    split; [cbn [app]; unfold NN_CHUNKREF_MAX; rewrite lenZ_cons, !lenZ_app, !lenZ_dropZ by lia; lia|].
    eexists. rewrite lenZ_dropZ, (wrap_small 8) by lia. done.
  - destruct Hc as (c & Hc). unfold nn_chunk_trim. rewrite (getptr_ok _ _ _ _ Hc). destruct Hc as (pre & Hc & Hs & Ht & Hk & Hl). cbn [obind fst snd] in *.
    rewrite Hs, (proj2 (Z.leb_le n (lenZ d))) by lia. cbn [nn_assert obind]. destruct (trim_tail pre d n Hn Hl) as (pre' & Hp' & E). rewrite Ht. subst k.
    destruct (nn_putl (tail_of pre d) _ _) as [t|] eqn:Et; [|done]. cbn [obind] in *. rewrite E. cbn [obind]. eexists. split; [done|]. cbn [fst snd].
    destruct (ci_count _ _ H _ _ Hc) as (C1 & C2 & C3).
    assert (R1 : refs_to a (delete x (cs_refs s)) = 0%nat).
    { unfold refs_to. apply map_size_empty_iff, map_eq. intros y. rewrite lookup_empty. apply map_lookup_filter_None. right.
      intros r [Hne Hy]%lookup_delete_Some. cbn [snd]. destruct r as [|[b kb]]; [done|]. intros Eb%Z.eqb_eq. subst b.
      destruct (proj1 (ci_dom _ _ H y)) as [[g' d'] Ay]; [by eexists|]. destruct (ci_share _ _ H _ _ _ _ _ _ _ _ _ Hr Hy Ax Ay) as [_ <-].
      by rewrite (Huniq _ _ Ay) in Hne. }
    pose proof (refs_to_delete a _ _ _ Hr) as R2. cbn [points] in R2. rewrite Z.eqb_refl, R1 in R2.
    pose proof (cinv_del_ref _ _ _ _ _ H Hr) as H2. unfold drop in H2. rewrite Hc, (proj2 (Z.leb_le (ck_refcount c) 1)) in H2 by lia.
    pose proof (cinv_add_ref _ _ x a (lenZ pre + 8 + n) {| ck_refcount := ck_refcount c; ck_size := lenZ d - n; ck_tail := tail_of pre' (dropZ n d) |}
      g (dropZ n d) (as_next A) (ch_brk (cs_heap s)) H2) as G.
    unfold with_ref, with_val, without_ref, without_val in G. cbn [cs_refs cs_heap as_map as_next ch_chunks ch_brk] in G. rewrite !insert_delete_eq in G. unfold ck_write. apply G; clear G.
    + apply lookup_delete_eq.
    + apply lookup_delete_eq.
    + cbn. lia.
    + by apply (ci_brk _ _ H _ _ Hc).
    + lia.
    + exists pre'. cbn [fst snd ch_chunks ck_size ck_tail]. rewrite lookup_insert_eq, lenZ_dropZ by lia. repeat split; lia.
    + done.
    + lia.
Qed.
Lemma cterm_ok s A x : cinv s A -> cvalid (Cterm x) A -> refines_step (Cterm x) s A.
Proof.
  intros H [[g d] Ax]. unfold refines_step. cbn [cstep astep]. destruct (cinv_live _ _ _ _ _ H Ax) as (r & Hr & _).
  unfold ref_of. rewrite Hr. cbn [obind]. destruct r as [ref|[a k]]; cbn [nn_chunkref_term].
  - eexists. split; [done|]. by eapply cinv_del_vsm.
  - rewrite (free_ok _ _ _ _ _ H Hr). cbn [obind]. eexists. split; [done|]. by eapply cinv_del_ref.
Qed.
Lemma cread_ok s A x : cinv s A -> cvalid (Cread x) A -> refines_step (Cread x) s A.
Proof.
  intros H [[g d] Ax]. unfold refines_step. cbn [cstep astep]. destruct (cinv_live _ _ _ _ _ H Ax) as (r & Hr & Hc).
  unfold ref_of. rewrite Hr, Ax. cbn [obind]. rewrite (proj2 (cdata_ok _ _ _ Hc)). by eexists.
Qed.
Lemma rewrap_ok s A x y junk : cinv s A -> cvalid (Crewrap x y junk) A -> refines_step (Crewrap x y junk) s A.
Proof.
  intros H ([[g d] Ax] & Hy & Hj & Hsz). unfold refines_step. cbn [cstep astep]. destruct (cinv_live _ _ _ _ _ H Ax) as (r & Hr & Hc).
  unfold ref_of. rewrite Hr, Ax. cbn [obind]. unfold NN_CHUNKREF_MAX in *. assert (Hxy : x <> y) by (intros ->; congruence). pose proof (ci_next _ _ H _ _ _ Ax) as Hg.
  assert (Empty : forall h l, lenZ l = 31 -> crep h (Vsm (0 :: l)) []).
  { intros h l Hl. split; [rewrite lenZ_cons; unfold NN_CHUNKREF_MAX; lia|]. by exists l. }
  destruct r as [ref|[a k]]; cbn [nn_chunkref_getchunk].
  - destruct Hc as [Hl [rest E]]. pose proof (lenZ_nonneg d). pose proof (lenZ_nonneg rest). rewrite E. cbn [vsm_size]. rewrite E in Hl. unfold NN_CHUNKREF_MAX in *. autorewrite with len in Hl.
    rewrite calloc_ok. cbn [obind]. replace (blk_read _ 1 _) with (Done (A := bytes) d) by (symmetry; by apply (blk_read_mid [lenZ d] d rest)). cbn [obind fst snd].
    unfold ck_read. cbn [ch_chunks]. rewrite lookup_insert_eq. cbn [obind ck_tail]. rewrite write_new by (rewrite lenZ_takeZ; lia). cbn [obind].
    change (lenZ d :: ?l) with ([lenZ d] ++ l). rewrite write_0 by done. cbn [obind]. eexists. split; [done|]. cbn [fst snd nn_chunkref_init_chunk]. unfold nn_chunkref_init_chunk, ck_write.
    cbn [ch_chunks ch_brk ck_refcount ck_size]. rewrite insert_insert_eq. pose proof (cinv_del_vsm _ _ _ _ H Hr) as HV1.
    assert (HV2 : cinv _ _) by (eapply (cinv_add_vsm _ _ x (0 :: d ++ rest) (as_next A) [] (as_next A + 1) HV1); [apply lookup_delete_eq|by apply Empty; rewrite lenZ_app; lia|lia|cbn; lia]).
    assert (HV3 : cinv _ _) by (eapply (cinv_alloc _ _ y g d (as_next A + 1) HV2); [cbn; rewrite lookup_insert_ne, lookup_delete_ne by done; done|lia|lia|cbn; lia]).
    unfold with_ref, with_val, without_ref, without_val in HV3. cbn [cs_refs cs_heap as_map as_next] in HV3. rewrite !insert_delete_eq in HV3. exact HV3.
  - destruct junk as [|j0 junk]; [done|]. change (j0 :: junk) with ([j0] ++ junk). rewrite write_0 by done. cbn [obind]. eexists. split; [done|].
    pose proof (cinv_move _ _ _ _ _ _ _ _ H Hsz Hy Hr Ax) as HV1.
    assert (HV2 : cinv _ _) by (eapply (cinv_add_vsm _ _ x (0 :: junk) (as_next A) [] (as_next A + 1) HV1);
      [cbn; rewrite lookup_insert_ne by done; apply lookup_delete_eq|by apply Empty; rewrite lenZ_cons in Hj; lia|lia|cbn; lia]).
    unfold with_ref, with_val, without_ref, without_val in HV2. cbn [cs_refs cs_heap as_map as_next] in HV2.
    rewrite !(insert_insert_ne _ x y), !insert_delete_eq in HV2 by done. exact HV2.
Qed.

Lemma cstep_refines o s A : cinv s A -> cvalid o A -> refines_step o s A.
Proof. destruct o; eauto using new_ok, cp_ok, mv_ok, bulk_ok, trim_ok, rewrap_ok, cterm_ok, cread_ok. Qed.
Lemma crun_refines os : forall s A, cinv s A -> cvalid_run os A -> exists s', crun os s = Done (fst (arun os A), s') /\ cinv s' (snd (arun os A)).
Proof.
  induction os as [|o os IH]; intros s A H Hv; cbn [crun arun]; [by exists s|]. destruct Hv as [Ho Hv].
  destruct (cstep_refines _ _ _ H Ho) as (s1 & -> & H1). cbn [obind]. destruct (IH _ _ H1 Hv) as (s2 & -> & H2). cbn [obind].
  destruct (astep o A) as [d A1]. cbn [fst snd] in *. destruct (arun os A1). by exists s2.
Qed.
Definition cstate0 : cstate := {| cs_refs := ∅; cs_heap := {| ch_chunks := ∅; ch_brk := 1 |} |}.
Definition astate0 : astate := {| as_map := ∅; as_next := 0 |}.
Lemma cinv_0 : cinv cstate0 astate0.
Proof. constructor; cbn; intros *; rewrite ?lookup_empty; try done. Qed.

(** The parts of a message are two references, and the operations of msg.c two
    operations of chunkref.c. *)
Lemma msg_ops s xh xb m :
  cs_refs s !! xh = Some (m_hdr m) -> cs_refs s !! xb = Some (m_body m) -> xh <> xb ->
  (forall yh yb, yh <> xb ->
    crun [Ccp xh yh; Ccp xb yb] s =
    olet! '(m', h) := nn_msg_cp m (cs_heap s) in
    Done ([[]; []], {| cs_refs := <[yb := m_body m']> (<[yh := m_hdr m']> (cs_refs s)); cs_heap := h |})) /\
  (forall yh yb oh ob, yh <> xb ->
    crun [Cmv xh yh oh; Cmv xb yb ob] s =
    olet! m' := nn_msg_mv oh ob m in
    Done ([[]; []], {| cs_refs := <[yb := m_body m']> (delete xb (<[yh := m_hdr m']> (delete xh (cs_refs s)))); cs_heap := cs_heap s |})) /\
  crun [Cterm xh; Cterm xb] s =
    olet! h := nn_msg_term m (cs_heap s) in Done ([[]; []], {| cs_refs := delete xb (delete xh (cs_refs s)); cs_heap := h |}).
Proof.
  intros Hh Hb Hne. cbn [crun cstep]. unfold ref_of, nn_msg_cp, nn_msg_mv, nn_msg_term. rewrite Hh. cbn [obind]. split_and!.
  - intros yh yb Hy. destruct (nn_chunkref_cp (m_hdr m) _) as [[r h]|]; [|done]. cbn [obind cs_refs cs_heap]. rewrite lookup_insert_ne, Hb by done.
    cbn [obind]. by destruct (nn_chunkref_cp (m_body m) _) as [[r' h']|].
  - intros yh yb oh ob Hy. destruct (nn_chunkref_mv oh _) as [r|]; [|done]. cbn [obind cs_refs cs_heap]. rewrite lookup_insert_ne, lookup_delete_ne, Hb by done.
    cbn [obind]. by destruct (nn_chunkref_mv ob _) as [r'|].
  - destruct (nn_chunkref_term (m_hdr m) _) as [h|]; [|done]. cbn [obind cs_refs cs_heap]. rewrite lookup_delete_ne, Hb by done.
    cbn [obind]. by destruct (nn_chunkref_term (m_body m) _) as [h'|].
Qed.

(** C24: references to message data behave as values: in every sequence of
    initialisations, copies, moves, bulk copies, trims, extractions of the chunk,
    terminations and reads in which sources are initialised, destinations are
    not and only unshared data is trimmed, no check of chunk.c fails, no memory
    is used after it was freed, every read returns the data the reference was
    given (less what was trimmed) whatever happened to the other references,
    and the chunks left are the ones some reference points to, each with the
    number of its references as its count; none is left when no reference is. *)
Theorem chunkrefs_are_values (os : list cop) :
  cvalid_run os astate0 ->
  exists s, crun os cstate0 = Done (fst (arun os astate0), s) /\
    (forall a c, ch_chunks (cs_heap s) !! a = Some c -> ck_refcount c = Z.of_nat (refs_to a (cs_refs s)) /\ 0 < ck_refcount c) /\
    (as_map (snd (arun os astate0)) = ∅ -> ch_chunks (cs_heap s) = ∅).
Proof.
  intros Hv. destruct (crun_refines _ _ _ cinv_0 Hv) as (s & E & H). exists s. split; [done|].
  assert (Hc : forall a c, ch_chunks (cs_heap s) !! a = Some c -> ck_refcount c = Z.of_nat (refs_to a (cs_refs s)) /\ 0 < ck_refcount c).
  { intros a c Ha. destruct (ci_count _ _ H _ _ Ha) as (? & ? & _). lia. }
  split; [done|]. intros He. apply map_empty. intros a. destruct (ch_chunks (cs_heap s) !! a) as [c|] eqn:Ha; [|done].
  destruct (ci_count _ _ H _ _ Ha) as (_ & Hp & _). pose proof (refs_to_bound a (cs_refs s)) as Hb. rewrite (cinv_size _ _ H), He, map_size_empty in Hb. lia.
Qed.
Definition sample_ops : list cop :=
  [Cnew 0 (seqZ 0 40) (zeros 40); Ccp 0 1; Cterm 0; Ctrim 1 8; Cread 1; Cmv 1 2 (zeros 32); Cbulk 2 [3; 4]; Cterm 2; Cread 4;
   Crewrap 3 5 (zeros 32); Cread 3; Cterm 3; Cterm 4; Cread 5; Cterm 5].
Lemma chunkrefs_are_values_witness :
  cvalid_run sample_ops astate0 /\
  exists s, crun sample_ops cstate0 = Done (fst (arun sample_ops astate0), s) /\
    (forall a c, ch_chunks (cs_heap s) !! a = Some c -> ck_refcount c = Z.of_nat (refs_to a (cs_refs s)) /\ 0 < ck_refcount c) /\
    (as_map (snd (arun sample_ops astate0)) = ∅ -> ch_chunks (cs_heap s) = ∅).
Proof.
  assert (H : cvalid_run sample_ops astate0).
  { repeat split; try (by eexists); try done.
    - exists 0, (seqZ 0 40). split; [reflexivity|]. split; [vm_compute; split; discriminate|]. intros y e Hl. cbn [astep fst snd as_map astate0] in Hl.
      apply lookup_delete_Some in Hl as [Hy Hl].
      apply lookup_insert_Some in Hl as [[<- _]|[_ Hl]]; [done|]. by apply lookup_insert_Some in Hl as [[<- _]|[_ Hl]].
    - apply list.NoDup_cons. split; [set_solver|]. apply list.NoDup_singleton.
    - intros y Hy. assert (y = 3 \/ y = 4) as [-> | ->] by set_solver; reflexivity. }
  split; [exact H|]. apply (chunkrefs_are_values sample_ops). exact H.
Defined.
(** Trimming data that is shared writes into what the other reference reads. *)
Example trim_of_shared_data :
  crun [Cnew 0 (seqZ 0 40) (zeros 40); Ccp 0 1; Ctrim 0 8; Cread 1] cstate0 =
    (match crun [Cnew 0 (seqZ 0 40) (zeros 40); Ccp 0 1; Ctrim 0 8; Cread 1] cstate0 with Done (_, s) => Done ([[]; []; []; be_bytes 4 8 ++ be_bytes 4 NN_CHUNK_TAG ++ seqZ 8 24], s) | Fault e => Fault e end) /\
  crun [Cnew 0 (seqZ 0 40) (zeros 40); Ccp 0 1; Ctrim 0 4; Cread 1] cstate0 = Fault AssertFailed.
Proof. vm_compute. by split. Qed.
