(* ===== verification/Hash.v ===== *)
(** * Hash: the hash table of nanomsg (lib/nanomsg/src/utils/hash.c)

    An array of lists of items; an item holds its key and the links of the list
    it is in.  [ha_heap] has the links of the items and [ha_keys] their keys;
    the array doubles when it is half full.  The table refines a finite map
    from keys to items. *)
From S2P Require Import Prelude.
From S2P Require Import NnList.

Definition NN_HASH_INITIAL_SLOTS : Z := 32.
Record nn_hash := {
  ha_slots : Z; ha_items : Z; ha_array : list nn_list;
  ha_heap : lheap; ha_keys : gmap Z Z
}.
Definition with_lists (array : list nn_list) (h : lheap) (t : nn_hash) : nn_hash :=
  {| ha_slots := ha_slots t; ha_items := ha_items t; ha_array := array; ha_heap := h; ha_keys := ha_keys t |}.
Definition nn_hash_key (key : Z) : Z :=
  let key := Z.lxor (Z.lxor key 61) (Z.shiftr key 16) in
  let key := u32 (key + u32 (Z.shiftl key 3)) in
  let key := Z.lxor key (Z.shiftr key 4) in
  let key := u32 (key * 0x27d4eb2d) in
  Z.lxor key (Z.shiftr key 15).
Definition list_at (array : list nn_list) (i : Z) : outcome nn_list :=
  match array !! Z.to_nat i with Some l => Done l | None => Fault HeapOverflow end.
Definition key_of (keys : gmap Z Z) (x : Z) : outcome Z :=
  match keys !! x with Some k => Done k | None => Fault UseAfterFree end.

Definition nn_hash_init (h : lheap) (keys : gmap Z Z) : nn_hash :=
  {| ha_slots := NN_HASH_INITIAL_SLOTS; ha_items := 0;
     ha_array := replicate (Z.to_nat NN_HASH_INITIAL_SLOTS) nn_list_init; ha_heap := h; ha_keys := keys |}.
Fixpoint lists_term (array : list nn_list) : outcome unit :=
  match array with [] => Done tt | l :: array => olet! _ := nn_list_term l in lists_term array end.
Definition nn_hash_term (t : nn_hash) : outcome unit := lists_term (ha_array t).
(** No item from [it] on has the key. *)
Fixpoint assert_absent (fuel : nat) (l : nn_list) (h : lheap) (keys : gmap Z Z) (it : link) (key : Z) : outcome unit :=
  if bool_decide (it = nn_list_end l) then Done tt
  else match fuel with
  | O => Fault OutOfFuel
  | S fuel =>
      olet! x := follow it in
      olet! k := key_of keys x in
      olet! _ := nn_assert (negb (k =? key)) in
      olet! it := nn_list_next l h it in assert_absent fuel l h keys it key
  end.
(** The items of an old slot, each to its place in the new array *)
Fixpoint move_slot (fuel : nat) (old : nn_list) (h : lheap) (keys : gmap Z Z) (array : list nn_list) (slots : Z)
    : outcome (nn_list * lheap * list nn_list) :=
  if nn_list_empty old then Done (old, h, array)
  else match fuel with
  | O => Fault OutOfFuel
  | S fuel =>
      olet! x := follow (nn_list_begin old) in
      olet! '(_, old, h) := nn_list_erase old h x in
      olet! k := key_of keys x in
      let newslot := nn_hash_key k mod slots in
      olet! l := list_at array newslot in
      olet! '(l, h) := nn_list_insert l h x (nn_list_end l) in
      move_slot fuel old h keys (<[Z.to_nat newslot := l]> array) slots
  end.
Fixpoint move_slots (olds : list nn_list) (h : lheap) (keys : gmap Z Z) (array : list nn_list) (slots : Z)
    : outcome (lheap * list nn_list) :=
  match olds with
  | [] => Done (h, array)
  | old :: olds =>
      olet! '(old, h, array) := move_slot (size h) old h keys array slots in
      olet! _ := nn_list_term old in
      move_slots olds h keys array slots
  end.
Definition grow (t : nn_hash) : outcome nn_hash :=
  let slots := u32 (ha_slots t * 2) in
  olet! '(h, array) := move_slots (ha_array t) (ha_heap t) (ha_keys t) (replicate (Z.to_nat slots) nn_list_init) slots in
  Done {| ha_slots := slots; ha_items := ha_items t; ha_array := array; ha_heap := h; ha_keys := ha_keys t |}.
Definition nn_hash_insert (key item : Z) (t : nn_hash) : outcome nn_hash :=
  let i := nn_hash_key key mod ha_slots t in
  olet! l := list_at (ha_array t) i in
  olet! _ := assert_absent (size (ha_heap t)) l (ha_heap t) (ha_keys t) (nn_list_begin l) key in
  let keys := <[item := key]> (ha_keys t) in
  olet! '(l, h) := nn_list_insert l (ha_heap t) item (nn_list_end l) in
  let t := {| ha_slots := ha_slots t; ha_items := u32 (ha_items t + 1);
              ha_array := <[Z.to_nat i := l]> (ha_array t); ha_heap := h; ha_keys := keys |} in
  if (ha_slots t <? u32 (ha_items t * 2)) && (ha_slots t <? 0x80000000) then grow t else Done t.
Definition nn_hash_erase (item : Z) (t : nn_hash) : outcome nn_hash :=
  olet! k := key_of (ha_keys t) item in
  let slot := nn_hash_key k mod ha_slots t in
  olet! l := list_at (ha_array t) slot in
  olet! '(_, l, h) := nn_list_erase l (ha_heap t) item in
  Done (with_lists (<[Z.to_nat slot := l]> (ha_array t)) h t).
Fixpoint find_key (fuel : nat) (l : nn_list) (h : lheap) (keys : gmap Z Z) (it : link) (key : Z) : outcome (option Z) :=
  if bool_decide (it = nn_list_end l) then Done None
  else match fuel with
  | O => Fault OutOfFuel
  | S fuel =>
      olet! x := follow it in
      olet! k := key_of keys x in
      if k =? key then Done (Some x)
      else olet! it := nn_list_next l h it in find_key fuel l h keys it key
  end.
Definition nn_hash_get (key : Z) (t : nn_hash) : outcome (option Z) :=
  olet! l := list_at (ha_array t) (nn_hash_key key mod ha_slots t) in
  find_key (size (ha_heap t)) l (ha_heap t) (ha_keys t) (nn_list_begin l) key.
Definition nn_hash_item_init (item : Z) (t : nn_hash) : nn_hash := with_lists (ha_array t) (nn_list_item_init item (ha_heap t)) t.
Definition nn_hash_item_term (item : Z) (t : nn_hash) : outcome unit := nn_list_item_term item (ha_heap t).

(** ** The lists hold the items of a set, each in the slot of its key. *)
Definition slot_of (slots k : Z) : nat := Z.to_nat (nn_hash_key k mod slots).
Record placed (h : lheap) (keys : gmap Z Z) (array : list nn_list) (slots : Z) (S : gset Z) : Prop := {
  pl_len : lenZ array = slots;
  pl_pos : 0 < slots;
  pl_keys : forall x, x ∈ S -> is_Some (keys !! x);
  pl_lists : forall i l, array !! i = Some l -> exists xs, lrep h l xs /\
    forall x, x ∈ xs <-> x ∈ S /\ exists k, keys !! x = Some k /\ slot_of slots k = i
}.
Lemma slot_lookup h keys array slots S k : placed h keys array slots S -> exists l, array !! slot_of slots k = Some l /\ list_at array (nn_hash_key k mod slots) = Done l.
Proof.
  intros H. pose proof (pl_pos _ _ _ _ _ H). pose proof (pl_len _ _ _ _ _ H) as Hl. unfold list_at, slot_of.
  destruct (array !! Z.to_nat (nn_hash_key k mod slots)) as [l|] eqn:E; [by exists l|]. apply lookup_ge_None in E.
  pose proof (Z.mod_pos_bound (nn_hash_key k) slots ltac:(lia)). unfold lenZ in Hl. lia.
Qed.
Lemma placed_insert h keys array slots S x k l :
  placed h keys array slots S -> x ∉ S -> loose h x -> keys !! x = Some k -> array !! slot_of slots k = Some l ->
  exists l' h', nn_list_insert l h x (nn_list_end l) = Done (l', h') /\
    placed h' keys (<[slot_of slots k := l']> array) slots (S ∪ {[x]}) /\ forall a, a ∉ S -> a <> x -> h' !! a = h !! a.
Proof.
  intros H Hx Hlo Hk Hl. destruct (pl_lists _ _ _ _ _ H _ _ Hl) as (xs & Hr & Hxs).
  destruct (list_insert_ok h l xs [] x) as (l' & h' & E & Hr' & Hf); [by rewrite app_nil_r|..|].
  { rewrite app_nil_r. intros Hin%Hxs. tauto. }
  { done. }
  exists l', h'. split; [done|]. split.
  - constructor.
    + rewrite <- (pl_len _ _ _ _ _ H). unfold lenZ. by rewrite length_insert.
    + apply H.
    + intros y [Hy| ->%elem_of_singleton]%elem_of_union; [by apply H|by eexists].
    + intros i m [(<- & <- & Hlt)|[Hne Hi]]%list_lookup_insert_Some.
      * exists (xs ++ [x]). split; [done|]. intros y. rewrite elem_of_app, Hxs, list_elem_of_singleton, elem_of_union, elem_of_singleton. split.
        -- intros [[Hy Hk']| ->]; [tauto|]. split; [by right|]. by exists k.
        -- intros [[Hy| ->] Hk']; [by left|by right].
      * destruct (pl_lists _ _ _ _ _ H _ _ Hi) as (ys & Hry & Hys). exists ys. split.
        -- eapply lrep_ext; [done|]. intros a Ha. apply Hf. intros Hin. apply Hys in Ha as (HaS & ka & Hka & Hia).
           rewrite elem_of_app, list_elem_of_singleton, Hxs in Hin. destruct Hin as [(_ & kb & Hkb & Hib)| ->]; [|done]. congruence.
        -- intros y. rewrite Hys, elem_of_union, elem_of_singleton. split; [tauto|]. intros [[Hy| ->] Hk']; [done|].
           destruct Hk' as (k' & Hk' & Ei). exfalso. congruence.
  - intros a Ha Hax. apply Hf. rewrite elem_of_app, list_elem_of_singleton, Hxs. tauto.
Qed.
Lemma placed_erase h keys array slots S x k l :
  placed h keys array slots S -> x ∈ S -> keys !! x = Some k -> array !! slot_of slots k = Some l ->
  exists nx l' h', nn_list_erase l h x = Done (nx, l', h') /\
    placed h' keys (<[slot_of slots k := l']> array) slots (S ∖ {[x]}) /\ loose h' x /\ forall a, a ∉ S -> h' !! a = h !! a.
Proof.
  intros H Hx Hk Hl. destruct (pl_lists _ _ _ _ _ H _ _ Hl) as (xs & Hr & Hxs).
  assert (Hin : x ∈ xs) by (apply Hxs; split; [done|by exists k]). apply list_elem_of_split in Hin as (p & q & ->).
  destruct (list_erase_ok h l p x q Hr) as (l' & h' & E & Hr' & Hlo & Hf). exists (hlink q), l', h'. split; [done|].
  assert (Hnd : x ∉ p ++ q).
  { pose proof (lp_nodup _ _ _ Hr) as Hnd. rewrite <- Permutation_middle in Hnd. by apply list.NoDup_cons in Hnd as [? _]. }
  split; [|split; [done|]].
  - constructor.
    + rewrite <- (pl_len _ _ _ _ _ H). unfold lenZ. by rewrite length_insert.
    + apply H.
    + intros y [Hy _]%elem_of_difference. by apply H.
    + intros i m [(<- & <- & Hlt)|[Hne Hi]]%list_lookup_insert_Some.
      * exists (p ++ q). split; [done|]. intros y. specialize (Hxs y). rewrite elem_of_difference, elem_of_singleton. split.
        -- intros Hy. assert (y <> x) by (intros ->; done). assert (Hy' : y ∈ p ++ x :: q) by set_solver. apply Hxs in Hy'. tauto.
        -- intros [[HyS Hyx] Hk']. assert (y ∈ p ++ x :: q) by (apply Hxs; tauto). set_solver.
      * destruct (pl_lists _ _ _ _ _ H _ _ Hi) as (ys & Hry & Hys). exists ys. split.
        -- eapply lrep_ext; [done|]. intros a Ha. apply Hf. intros Hin. apply Hys in Ha as (HaS & ka & Hka & Hia).
           apply Hxs in Hin as (_ & kb & Hkb & Hib). congruence.
        -- intros y. rewrite Hys, elem_of_difference, elem_of_singleton. split; [|tauto]. intros [Hy Hk']. split; [split; [done|]|done].
           intros ->. destruct Hk' as (k' & Hk' & Ei). congruence.
  - intros a Ha. apply Hf. rewrite Hxs. tauto.
Qed.
Lemma lrep_size h l xs : lrep h l xs -> (length xs <= size h)%nat.
Proof.
  intros Hr. rewrite <- size_dom, <- (size_list_to_set (C := gset Z) xs) by apply Hr. apply subseteq_size. intros a Ha%elem_of_list_to_set.
  apply list_elem_of_split in Ha as (p & q & ->). apply elem_of_dom. rewrite (lp_links _ _ _ Hr p a q eq_refl). by eexists.
Qed.
(** Moving the items of one old slot *)
Lemma move_slot_ok fuel : forall xs old h keys array slots T,
  (length xs <= fuel)%nat -> lrep h old xs -> placed h keys array slots T ->
  (forall x, x ∈ xs -> x ∉ T /\ is_Some (keys !! x)) ->
  exists old' h' array', move_slot fuel old h keys array slots = Done (old', h', array') /\ nn_list_term old' = Done tt /\
    placed h' keys array' slots (T ∪ list_to_set xs) /\ (forall a, a ∉ T -> a ∉ xs -> h' !! a = h !! a).
Proof.
  induction fuel as [|fuel IH]; intros xs old h keys array slots T Hfuel Hr Hp Hxs.
  - destruct xs; [|cbn in Hfuel; lia]. cbn [move_slot]. rewrite (list_empty_ok _ _ _ Hr), bool_decide_true by done. do 3 eexists. split; [done|].
    split; [|split; [|done]]; [|by rewrite list_to_set_nil, union_empty_r_L]. unfold nn_list_term. by rewrite (lp_first _ _ _ Hr), (lp_last _ _ _ Hr).
  - cbn [move_slot]. rewrite (list_empty_ok _ _ _ Hr). destruct xs as [|x xs].
    + rewrite bool_decide_true by done. do 3 eexists. split; [done|]. split; [|split; [|done]]; [|by rewrite list_to_set_nil, union_empty_r_L].
      unfold nn_list_term. by rewrite (lp_first _ _ _ Hr), (lp_last _ _ _ Hr).
    + rewrite bool_decide_false by done. unfold nn_list_begin. rewrite (lp_first _ _ _ Hr). cbn [hlink follow obind].
      destruct (list_erase_ok h old [] x xs Hr) as (old1 & h1 & E1 & Hr1 & Hlo & Hf1). rewrite E1. cbn [obind app] in *.
      destruct (Hxs x ltac:(set_solver)) as [HxT [k Hk]]. unfold key_of. rewrite Hk. cbn [obind].
      assert (Hp1 : placed h1 keys array slots T).
      { destruct Hp as [P1 P2 P3 P4]. constructor; try done. intros i l Hi. destruct (P4 i l Hi) as (ys & Hy & Hys). exists ys. split; [|done].
        eapply lrep_ext; [done|]. intros a Ha. apply Hf1. intros Hin. destruct (Hxs a Hin) as [HaT _]. apply Hys in Ha. tauto. }
      destruct (slot_lookup _ _ _ _ _ k Hp1) as (l & Hl & El). rewrite El. cbn [obind].
      destruct (placed_insert h1 keys array slots T x k l Hp1 HxT Hlo Hk Hl) as (l' & h2 & E2 & Hp2 & Hf2). rewrite E2. cbn [obind].
      pose proof (lp_nodup _ _ _ Hr) as Hnd. apply list.NoDup_cons in Hnd as [Hnx Hnd].
      destruct (IH xs old1 h2 keys (<[slot_of slots k := l']> array) slots (T ∪ {[x]}) ltac:(cbn in Hfuel; lia)) as (old' & h' & array' & E & Ht & Hp' & Hf').
      * eapply lrep_ext; [done|]. intros a Ha. apply Hf2; [by apply Hxs; set_solver|by intros ->].
      * exact Hp2.
      * intros y Hy. destruct (Hxs y ltac:(set_solver)) as [HyT HyK]. split; [|done]. set_solver.
      * exists old', h', array'. split; [done|]. split; [done|]. split.
        -- rewrite list_to_set_cons, union_assoc_L. exact Hp'.
        -- intros a HaT Hax. rewrite Hf' by set_solver. rewrite Hf2 by set_solver. apply Hf1. set_solver.
Qed.
Lemma Forall2_lrep_ext h h' olds xss :
  Forall2 (lrep h) olds xss -> (forall a, a ∈ concat xss -> h' !! a = h !! a) -> Forall2 (lrep h') olds xss.
Proof.
  induction 1 as [|o xs olds xss Hr Hl IH]; intros He; [constructor|]. cbn [concat] in He. constructor.
  - eapply lrep_ext; [exact Hr|]. intros a Ha. apply He, elem_of_app. by left.
  - apply IH. intros a Ha. apply He, elem_of_app. by right.
Qed.
(** and of all of them *)
Lemma move_slots_ok : forall xss olds h keys array slots T,
  Forall2 (lrep h) olds xss -> NoDup (concat xss) -> placed h keys array slots T ->
  (forall x, x ∈ concat xss -> x ∉ T /\ is_Some (keys !! x)) ->
  exists h' array', move_slots olds h keys array slots = Done (h', array') /\
    placed h' keys array' slots (T ∪ list_to_set (concat xss)) /\ (forall a, a ∉ T -> a ∉ concat xss -> h' !! a = h !! a).
Proof.
  induction xss as [|xs xss IH]; intros olds h keys array slots T Hl Hnd Hp Hxs.
  - apply Forall2_nil_inv_r in Hl as ->. do 2 eexists. split; [done|]. split; [|done]. cbn. by rewrite union_empty_r_L.
  - apply Forall2_cons_inv_r in Hl as (old & olds' & Hr & Hl & ->). cbn [concat] in *. apply list.NoDup_app in Hnd as (Hnd1 & Hd & Hnd2).
    cbn [move_slots]. destruct (move_slot_ok (size h) xs old h keys array slots T) as (old' & h1 & array1 & E1 & Ht & Hp1 & Hf1).
    { by eapply lrep_size. }
    { done. }
    { done. }
    { intros x Hx. apply Hxs. set_solver. }
    rewrite E1. cbn [obind]. rewrite Ht. cbn [obind].
    destruct (IH olds' h1 keys array1 slots (T ∪ list_to_set xs)) as (h' & array' & E & Hp' & Hf').
    { eapply Forall2_lrep_ext; [exact Hl|]. intros a Ha. apply Hf1; [apply Hxs; apply elem_of_app; by right|]. intros Hax. by apply (Hd a Hax). }
    { done. }
    { done. }
    { intros x Hx. destruct (Hxs x ltac:(set_solver)) as [HxT HxK]. split; [|done]. rewrite elem_of_union, elem_of_list_to_set. intros [?|Hx']; [done|]. by apply (Hd x Hx'). }
    exists h', array'. split; [done|]. split.
    + rewrite list_to_set_app_L, union_assoc_L. exact Hp'.
    + intros a HaT Hax. rewrite Hf' by set_solver. apply Hf1; set_solver.
Qed.
Lemma placed_lists h (keys : gmap Z Z) slots (S : gset Z) : forall array off,
  (forall i l, array !! i = Some l -> exists xs, lrep h l xs /\ forall x, x ∈ xs <-> x ∈ S /\ exists k, keys !! x = Some k /\ slot_of slots k = (off + i)%nat) ->
  exists xss, Forall2 (lrep h) array xss /\ NoDup (concat xss) /\
    forall x, x ∈ concat xss <-> x ∈ S /\ exists k, keys !! x = Some k /\ (off <= slot_of slots k < off + length array)%nat.
Proof.
  induction array as [|l array IH]; intros off H.
  - exists []. split; [constructor|]. split; [constructor|]. intros x. cbn [concat length]. split; [by intros ?%elem_of_nil|]. intros (_ & k & _ & ?). lia.
  - destruct (H 0%nat l eq_refl) as (xs & Hr & Hxs). destruct (IH (Datatypes.S off)) as (xss & Hl & Hnd & Hc).
    { intros i m Hi. destruct (H (Datatypes.S i) m Hi) as (ys & Hy & Hys). exists ys. split; [done|]. intros x. rewrite Hys.
      by replace (off + Datatypes.S i)%nat with (Datatypes.S off + i)%nat by lia. }
    exists (xs :: xss). split; [by constructor|]. cbn [concat length]. split.
    + apply list.NoDup_app. split; [apply Hr|]. split; [|done]. intros x (_ & k & Hk & Ek)%Hxs (_ & k' & Hk' & Ek')%Hc.
      assert (k = k') by congruence. subst k'. lia.
    + intros x. rewrite elem_of_app, Hxs, Hc. split.
      * intros [(Hx & k & Hk & Ek)|(Hx & k & Hk & Ek)]; (split; [done|]); exists k; (split; [done|]); lia.
      * intros (Hx & k & Hk & Ek). destruct (decide (slot_of slots k = off)) as [E|E]; [left|right]; (split; [done|]); exists k; (split; [done|]); lia.
Qed.
Lemma placed_empty h keys slots : 0 < slots -> placed h keys (replicate (Z.to_nat slots) nn_list_init) slots ∅.
Proof.
  intros Hs. constructor; [rewrite lenZ_replicate; lia|done|set_solver|]. intros i l [-> _]%lookup_replicate. exists []. split; [apply list_init_ok|]. set_solver.
Qed.
Lemma placed_keys h keys keys' array slots S :
  placed h keys array slots S -> (forall x, x ∈ S -> keys' !! x = keys !! x) -> placed h keys' array slots S.
Proof.
  intros [P1 P2 P3 P4] He. constructor; [done..| |].
  - intros x Hx. rewrite He by done. by apply P3.
  - intros i l Hi. destruct (P4 i l Hi) as (xs & Hr & Hxs). exists xs. split; [done|]. intros x. rewrite Hxs. split; intros [Hx Hk]; (split; [done|]).
    + by rewrite He.
    + by rewrite He in Hk.
Qed.
Lemma placed_heap h h' keys array slots S :
  placed h keys array slots S -> (forall a, a ∈ S -> h' !! a = h !! a) -> placed h' keys array slots S.
Proof.
  intros [P1 P2 P3 P4] He. constructor; [done..|]. intros i l Hi. destruct (P4 i l Hi) as (xs & Hr & Hxs). exists xs. split; [|done].
  eapply lrep_ext; [exact Hr|]. intros a [Ha _]%Hxs. by apply He.
Qed.
Lemma grow_ok t S :
  placed (ha_heap t) (ha_keys t) (ha_array t) (ha_slots t) S -> ha_slots t < 0x80000000 ->
  exists t', grow t = Done t' /\ placed (ha_heap t') (ha_keys t') (ha_array t') (ha_slots t') S /\ ha_keys t' = ha_keys t /\
    ha_items t' = ha_items t /\ ha_slots t' = ha_slots t * 2 /\ (forall a, a ∉ S -> ha_heap t' !! a = ha_heap t !! a).
Proof.
  intros Hp Hs. pose proof (pl_pos _ _ _ _ _ Hp) as Hpos. unfold grow. rewrite (wrap_small 32) by lia.
  destruct (placed_lists (ha_heap t) (ha_keys t) (ha_slots t) S (ha_array t) 0%nat (pl_lists _ _ _ _ _ Hp)) as (xss & Hl & Hnd & Hc).
  assert (HcS : list_to_set (concat xss) = S).
  { apply set_eq. intros x. rewrite elem_of_list_to_set, Hc. split; [tauto|]. intros Hx. split; [done|].
    destruct (pl_keys _ _ _ _ _ Hp x Hx) as [k Hk]. exists k. split; [done|]. unfold slot_of.
    pose proof (Z.mod_pos_bound (nn_hash_key k) (ha_slots t) Hpos). pose proof (pl_len _ _ _ _ _ Hp). unfold lenZ in *. lia. }
  destruct (move_slots_ok xss (ha_array t) (ha_heap t) (ha_keys t) (replicate (Z.to_nat (ha_slots t * 2)) nn_list_init) (ha_slots t * 2) ∅)
    as (h' & array' & E & Hp' & Hf); [done|done|apply placed_empty; lia| |].
  { intros x Hx. split; [set_solver|]. apply Hp. rewrite <- HcS. by apply elem_of_list_to_set. }
  rewrite E. cbn [obind]. eexists. split; [done|]. cbn [ha_heap ha_keys ha_array ha_slots ha_items]. rewrite union_empty_l_L, HcS in Hp'.
  split_and!; try done. intros a Ha. apply Hf; [set_solver|]. intros Hax. apply Ha. rewrite <- HcS. by apply elem_of_list_to_set.
Qed.
(** The walks along a list *)
Lemma find_key_ok h l (keys : gmap Z Z) key : forall fuel p q, (length q <= fuel)%nat -> lrep h l (p ++ q) -> (forall x, x ∈ q -> is_Some (keys !! x)) ->
  exists r, find_key fuel l h keys (hlink q) key = Done r /\
    match r with Some x => x ∈ q /\ keys !! x = Some key | None => forall x, x ∈ q -> keys !! x <> Some key end.
Proof.
  induction fuel as [|fuel IH]; intros p q Hf Hr Hk; (destruct q as [|x q]; [exists None; split; [done|set_solver]|]); [cbn in Hf; lia|].
  cbn [find_key hlink]. rewrite bool_decide_false by done. cbn [follow obind]. destruct (Hk x ltac:(set_solver)) as [k Ek]. unfold key_of. rewrite Ek. cbn [obind].
  destruct (Z.eqb_spec k key) as [->|Hne]; [exists (Some x); split; [done|]; split; [set_solver|done]|].
  rewrite (list_next_ok _ _ _ _ _ Hr). cbn [obind]. destruct (IH (p ++ [x]) q) as (r & E & Hr').
  { cbn in Hf. lia. } { by rewrite <- app_assoc. } { intros y Hy. apply Hk. set_solver. }
  exists r. split; [done|]. destruct r as [y|]; [set_solver|]. intros y [->|Hy]%elem_of_cons; [congruence|by apply Hr'].
Qed.
Lemma assert_absent_ok h l (keys : gmap Z Z) key : forall fuel p q, (length q <= fuel)%nat -> lrep h l (p ++ q) ->
  (forall x, x ∈ q -> is_Some (keys !! x) /\ keys !! x <> Some key) -> assert_absent fuel l h keys (hlink q) key = Done tt.
Proof.
  induction fuel as [|fuel IH]; intros p q Hf Hr Hk; (destruct q as [|x q]; [done|]); [cbn in Hf; lia|].
  cbn [assert_absent hlink]. rewrite bool_decide_false by done. cbn [follow obind]. destruct (Hk x ltac:(set_solver)) as [[k Ek] Hne]. unfold key_of. rewrite Ek. cbn [obind].
  rewrite (proj2 (Z.eqb_neq k key)) by congruence. cbn [negb nn_assert obind]. rewrite (list_next_ok _ _ _ _ _ Hr). cbn [obind].
  apply (IH (p ++ [x])); [cbn in Hf; lia|by rewrite <- app_assoc|]. intros y Hy. apply Hk. set_solver.
Qed.

(** ** The table refines a map *)
Inductive hop :=
  | Hinit (x : Z) | Hterm (x : Z)
  | Hinsert (k x : Z) | Herase (x : Z) | Hget (k : Z).
Definition hstep (o : hop) (t : nn_hash) : outcome (option Z * nn_hash) :=
  match o with
  | Hinit x => Done (None, nn_hash_item_init x t)
  | Hterm x => olet! _ := nn_hash_item_term x t in Done (None, t)
  | Hinsert k x => olet! t := nn_hash_insert k x t in Done (None, t)
  | Herase x => olet! t := nn_hash_erase x t in Done (None, t)
  | Hget k => olet! r := nn_hash_get k t in Done (r, t)
  end.
Fixpoint hrun (os : list hop) (t : nn_hash) : outcome (list (option Z) * nn_hash) :=
  match os with
  | [] => Done ([], t)
  | o :: os => olet! '(r, t) := hstep o t in olet! '(rs, t) := hrun os t in Done (r :: rs, t)
  end.
(** The map from keys to items, and the items that are initialised *)
Record kmap := { km_map : gmap Z Z; km_items : gset Z }.
Definition kstep (o : hop) (A : kmap) : option Z * kmap :=
  let M := km_map A in
  match o with
  | Hinit x => (None, {| km_map := M; km_items := km_items A ∪ {[x]} |})
  | Hterm x => (None, {| km_map := M; km_items := km_items A ∖ {[x]} |})
  | Hinsert k x => (None, {| km_map := <[k := x]> M; km_items := km_items A |})
  | Herase x => (None, {| km_map := filter (fun p => snd p <> x) M; km_items := km_items A |})
  | Hget k => (M !! k, A)
  end.
Fixpoint krun (os : list hop) (A : kmap) : list (option Z) * kmap :=
  match os with
  | [] => ([], A)
  | o :: os => let '(r, A) := kstep o A in let '(rs, A) := krun os A in (r :: rs, A)
  end.
(** A key is in the table once, and so is an item. *)
Definition kvalid (o : hop) (A : kmap) : Prop :=
  let M := km_map A in
  match o with
  | Hinit x => x ∉ km_items A
  | Hterm x => x ∈ km_items A /\ x ∉ (map_img M : gset Z)
  | Hinsert k x => M !! k = None /\ x ∈ km_items A /\ x ∉ (map_img M : gset Z)
  | Herase x => x ∈ (map_img M : gset Z)
  | Hget k => True
  end.
Fixpoint kvalid_run (os : list hop) (A : kmap) : Prop :=
  match os with [] => True | o :: os => kvalid o A /\ kvalid_run os (snd (kstep o A)) end.

Record hrep (t : nn_hash) (A : kmap) : Prop := {
  hr_placed : placed (ha_heap t) (ha_keys t) (ha_array t) (ha_slots t) (map_img (km_map A));
  hr_keys : forall k x, km_map A !! k = Some x -> ha_keys t !! x = Some k /\ x ∈ km_items A;
  hr_loose : forall x, x ∈ km_items A -> x ∉ (map_img (km_map A) : gset Z) -> loose (ha_heap t) x
}.
Lemma img_elem (M : gmap Z Z) x : x ∈ (map_img M : gset Z) <-> exists k, M !! k = Some x.
Proof. apply elem_of_map_img. Qed.
Lemma insert_refines k x t A : hrep t A -> kvalid (Hinsert k x) A ->
  exists t', nn_hash_insert k x t = Done t' /\ hrep t' (snd (kstep (Hinsert k x) A)).
Proof.
  intros [Hp Hk Hl] (HM & HxL & HxM). unfold nn_hash_insert. destruct (slot_lookup _ _ _ _ _ k Hp) as (l & El & Hat). rewrite Hat. cbn [obind].
  destruct (pl_lists _ _ _ _ _ Hp _ _ El) as (xs & Hr & Hxs). unfold nn_list_begin. rewrite (lp_first _ _ _ Hr).
  rewrite (assert_absent_ok _ _ _ _ _ [] xs); [|by eapply lrep_size|done|]; cycle 1.
  { intros y Hy. apply Hxs in Hy as [Hy%img_elem _]. destruct Hy as [k' Hk']. destruct (Hk _ _ Hk') as [E _]. rewrite E. split; [by eexists|congruence]. }
  cbn [obind]. set (keys' := <[x := k]> (ha_keys t)).
  assert (Hp0 : placed (ha_heap t) keys' (ha_array t) (ha_slots t) (map_img (km_map A))).
  { eapply placed_keys; [done|]. intros y Hy. unfold keys'. rewrite lookup_insert_ne; [done|]. by intros ->. }
  destruct (placed_insert _ _ _ _ _ x k l Hp0 HxM (Hl _ HxL HxM)) as (l' & h' & E & Hp' & Hf); [by apply lookup_insert_eq|done|].
  rewrite E. cbn [obind]. cbn [kstep snd]. change (Z.to_nat (nn_hash_key k mod ha_slots t)) with (slot_of (ha_slots t) k).
  set (t1 := {| ha_slots := _ |}).
  assert (Himg : map_img (<[k := x]> (km_map A)) = (map_img (km_map A) ∪ {[x]} : gset Z)).
  { apply set_eq. intros y. rewrite elem_of_union, elem_of_singleton, !img_elem. split.
    - intros [k' [[_ <-]|[_ Hy]]%lookup_insert_Some]; [by right|left; by exists k'].
    - intros [[k' Hy]| ->]; [exists k'; rewrite lookup_insert_ne; [done|congruence]|exists k; apply lookup_insert_eq]. }
  assert (H1 : hrep t1 {| km_map := <[k := x]> (km_map A); km_items := km_items A |}).
  { constructor; cbn [km_map km_items t1 ha_heap ha_keys ha_array ha_slots].
    - rewrite Himg. exact Hp'.
    - intros k' y [[<- <-]|[Hne Hy]]%lookup_insert_Some; [split; [by apply lookup_insert_eq|done]|]. destruct (Hk _ _ Hy) as [Ey HyL]. split; [|done].
      unfold keys'. rewrite lookup_insert_ne; [done|]. intros ->. apply HxM, img_elem. by exists k'.
    - intros y HyL. rewrite Himg. intros Hy. unfold loose. rewrite Hf by set_solver. apply Hl; set_solver. }
  destruct (Z.ltb_spec (ha_slots t1) (u32 (ha_items t1 * 2))); cbn [andb]; [|by exists t1].
  destruct (Z.ltb_spec (ha_slots t1) 0x80000000); [|by exists t1]. destruct H1 as [Q1 Q2 Q3]. cbn [km_map km_items] in *.
  destruct (grow_ok t1 _ Q1) as (t' & Eg & Hp2 & Hk2 & _ & _ & Hf2); [done|]. exists t'. split; [done|]. constructor; cbn [km_map km_items].
  - done.
  - by rewrite Hk2.
  - intros y HyL HyM. unfold loose. rewrite Hf2 by done. by apply Q3.
Qed.
Lemma erase_refines x t A : hrep t A -> kvalid (Herase x) A ->
  exists t', nn_hash_erase x t = Done t' /\ hrep t' (snd (kstep (Herase x) A)).
Proof.
  intros [Hp Hk Hl] Hx. pose proof (proj1 (img_elem _ _) Hx) as [k HM]. destruct (Hk _ _ HM) as [Ek HxL]. unfold nn_hash_erase, key_of. rewrite Ek. cbn [obind].
  destruct (slot_lookup _ _ _ _ _ k Hp) as (l & El & Hat). rewrite Hat. cbn [obind].
  destruct (placed_erase _ _ _ _ _ x k l Hp Hx Ek El) as (nx & l' & h' & E & Hp' & Hlo & Hf). rewrite E. cbn [obind]. eexists. split; [done|].
  assert (Himg : map_img (filter (fun p => snd p <> x) (km_map A)) = (map_img (km_map A) ∖ {[x]} : gset Z)).
  { apply set_eq. intros y. rewrite elem_of_difference, elem_of_singleton, !img_elem. split.
    - intros [k' [Hy Hne]%map_lookup_filter_Some]. split; [by exists k'|done].
    - intros [[k' Hy] Hne]. exists k'. by apply map_lookup_filter_Some. }
  constructor; cbn [kstep snd km_map km_items with_lists ha_heap ha_keys ha_array ha_slots].
  - rewrite Himg. exact Hp'.
  - intros k' y [Hy _]%map_lookup_filter_Some. by apply Hk.
  - intros y HyL. rewrite Himg, elem_of_difference, elem_of_singleton. intros Hy. destruct (decide (y = x)) as [->|Hne]; [done|].
    assert (y ∉ (map_img (km_map A) : gset Z)) by tauto. unfold loose. rewrite Hf by done. by apply Hl.
Qed.
Lemma get_refines k t A : hrep t A -> nn_hash_get k t = Done (km_map A !! k).
Proof.
  intros [Hp Hk Hl]. unfold nn_hash_get. destruct (slot_lookup _ _ _ _ _ k Hp) as (l & El & Hat). rewrite Hat. cbn [obind].
  destruct (pl_lists _ _ _ _ _ Hp _ _ El) as (xs & Hr & Hxs). unfold nn_list_begin. rewrite (lp_first _ _ _ Hr).
  destruct (find_key_ok (ha_heap t) l (ha_keys t) k (size (ha_heap t)) [] xs) as (r & E & H); [by eapply lrep_size|done| |].
  { intros x Hx. apply Hp, Hxs, Hx. }
  rewrite E. f_equal. destruct r as [x|].
  - destruct H as [Hx Ex]. apply Hxs in Hx as [Hx%img_elem _]. destruct Hx as [k' Hk']. destruct (Hk _ _ Hk') as [E' _]. congruence.
  - destruct (km_map A !! k) as [x|] eqn:EM; [|done]. destruct (Hk _ _ EM) as [Ex _]. exfalso. apply (H x); [|done]. apply Hxs. split; [apply img_elem; by exists k|].
    by exists k.
Qed.
Lemma hstep_refines o t A : hrep t A -> kvalid o A -> exists t', hstep o t = Done (fst (kstep o A), t') /\ hrep t' (snd (kstep o A)).
Proof.
  intros H Hv. destruct o as [x|x|k x|x|k]; cbn [hstep].
  - eexists. split; [done|]. destruct H as [Hp Hk Hl]. cbn [kvalid] in Hv.
    assert (Hx : x ∉ (map_img (km_map A) : gset Z)) by (intros [k Hx]%img_elem; destruct (Hk _ _ Hx); done).
    constructor; cbn [kstep snd km_map km_items nn_hash_item_init with_lists ha_heap ha_keys ha_array ha_slots]; unfold nn_hash_item_init, nn_list_item_init; cbn.
    + eapply placed_heap; [done|]. intros a Ha. rewrite lookup_insert_ne; [done|]. by intros ->.
    + intros k y Hy. destruct (Hk _ _ Hy). split; [done|set_solver].
    + intros y Hy Hn. unfold loose. destruct (decide (y = x)) as [->|Hne]; [by rewrite lookup_insert_eq|]. rewrite lookup_insert_ne by done. apply Hl; set_solver.
  - destruct Hv as [HxL HxM]. destruct H as [Hp Hk Hl]. unfold nn_hash_item_term, nn_list_item_term, lread. rewrite (Hl _ HxL HxM). cbn. eexists. split; [done|].
    constructor; cbn; [done| |].
    + intros k y Hy. destruct (Hk _ _ Hy). split; [done|]. apply elem_of_difference. split; [done|]. intros ->%elem_of_singleton. apply HxM, img_elem. by exists k.
    + intros y [Hy _]%elem_of_difference Hn. by apply Hl.
  - destruct (insert_refines _ _ _ _ H Hv) as (t' & -> & H'). by exists t'.
  - destruct (erase_refines _ _ _ H Hv) as (t' & -> & H'). by exists t'.
  - rewrite (get_refines _ _ _ H). by exists t.
Qed.
Lemma hrep_init h keys : hrep (nn_hash_init h keys) {| km_map := ∅; km_items := ∅ |}.
Proof.
  constructor; cbn [km_map km_items nn_hash_init ha_heap ha_keys ha_array ha_slots].
  - rewrite map_img_empty_L. by apply placed_empty.
  - intros k x. by rewrite lookup_empty.
  - set_solver.
Qed.
Lemma term_empty t A : hrep t A -> km_map A = ∅ -> nn_hash_term t = Done tt.
Proof.
  intros [Hp _ _] HA. unfold nn_hash_term. rewrite HA, map_img_empty_L in Hp. pose proof (pl_lists _ _ _ _ _ Hp) as Hl. clear Hp.
  assert (Hall : forall l, l ∈ ha_array t -> nn_list_term l = Done tt).
  { intros l [i Hi]%list_elem_of_lookup. destruct (Hl i l Hi) as (xs & Hr & Hxs). destruct xs as [|x xs]; [|destruct (proj1 (Hxs x)); set_solver].
    unfold nn_list_term. by rewrite (lp_first _ _ _ Hr), (lp_last _ _ _ Hr). }
  clear Hl. induction (ha_array t) as [|l array IH]; [done|]. cbn [lists_term]. rewrite Hall by set_solver. apply IH. intros m Hm. apply Hall. set_solver.
Qed.

(** C25: the hash table is a map from keys to items: in every sequence of
    initialisations of items, insertions of new keys, removals, lookups and
    ends of items no assertion of the code fails, the loops end and every
    lookup returns the item of the key or nothing, through every doubling of
    the array; and an empty table can be released. *)
Theorem hash_refines_map (os : list hop) (h : lheap) (keys : gmap Z Z) :
  kvalid_run os {| km_map := ∅; km_items := ∅ |} ->
  exists t, hrun os (nn_hash_init h keys) = Done (fst (krun os {| km_map := ∅; km_items := ∅ |}), t) /\
    (km_map (snd (krun os {| km_map := ∅; km_items := ∅ |})) = ∅ -> nn_hash_term t = Done tt).
Proof.
  assert (G : forall os t A, hrep t A -> kvalid_run os A -> exists t', hrun os t = Done (fst (krun os A), t') /\ hrep t' (snd (krun os A))).
  { clear. intros os. induction os as [|o os IH]; intros t A H Hv; [by exists t|]. destruct Hv as [Ho Hv]. cbn [hrun krun].
    destruct (hstep_refines _ _ _ H Ho) as (t1 & -> & H1). cbn [obind]. destruct (IH _ _ H1 Hv) as (t2 & -> & H2). cbn [obind].
    destruct (kstep o A) as [r A1]. cbn [fst snd] in *. destruct (krun os A1). by exists t2. }
  intros Hv. destruct (G _ _ _ (hrep_init h keys) Hv) as (t & E & H). exists t. split; [done|]. by apply term_empty.
Qed.
Definition sample_table : list hop := [Hinit 1; Hinit 2; Hinsert 7 1; Hinsert 8 2; Hget 8; Herase 1; Hget 7; Hterm 1; Herase 2].
Lemma hash_refines_map_witness :
  exists t, hrun sample_table (nn_hash_init ∅ ∅) = Done ([None; None; None; None; Some 2; None; None; None; None], t) /\ nn_hash_term t = Done tt.
Proof.
  destruct (hash_refines_map sample_table ∅ ∅) as (t & E & Ht).
  - cbn [kvalid_run sample_table kstep snd kvalid km_map km_items]. repeat split; try set_solver; by apply (bool_decide_unpack _).
  - exists t. split; [rewrite E; vm_compute; done|]. apply Ht. by apply (bool_decide_unpack _).
Defined.
(** Removing an item does not decrease the number of items: an empty table
    grows. *)
Fixpoint cycles (n : nat) (t : nn_hash) : outcome nn_hash :=
  match n with O => Done t | S n => olet! t := nn_hash_insert 5 1 t in olet! t := nn_hash_erase 1 t in cycles n t end.
Example empty_table_grows :
  exists t, cycles 17 (nn_hash_item_init 1 (nn_hash_init ∅ ∅)) = Done t /\ ha_slots t = 64 /\ ha_items t = 17 /\ nn_hash_term t = Done tt.
Proof. eexists. split; [vm_compute; reflexivity|]. vm_compute. done. Qed.
