(* ===== verification/PubSub.v ===== *)
(** * PubSub: publishing and subscribing
    (lib/nanomsg/src/protocols: utils/dist.c, utils/excl.c, pubsub/pub.c,
    pubsub/sub.c, pair/xpair.c)

    A distributor sends a message to every pipe that can take one; [di_items]
    has the links of the data of the pipes and [di_data] their pipes.  A
    publisher is a distributor, a subscriber takes messages from one pipe
    ([nn_excl]) and keeps those its trie matches.  Pipes are those of the class
    [PipeOps]; a copy of a message is the message (Chunk). *)
From stdpp Require Import gmultiset.
From S2P Require Import Prelude.
From S2P Require Import NnList.
From S2P Require Import Msgqueue.
From S2P Require Import Inproc.
From S2P Require Import Pipeline.
From S2P Require Import Trie.

Definition ENOPROTOOPT : Z := 92.
Definition EISCONN : Z := 106.

(** ** The distributor *)
Record nn_dist := { di_count : Z; di_pipes : nn_list; di_items : lheap; di_data : gmap Z Z }.
Definition with_pipes (count : Z) (l : nn_list) (h : lheap) (s : nn_dist) : nn_dist :=
  {| di_count := count; di_pipes := l; di_items := h; di_data := di_data s |}.
Definition nn_dist_init (h : lheap) (data : gmap Z Z) : nn_dist :=
  {| di_count := 0; di_pipes := nn_list_init; di_items := h; di_data := data |}.
Definition nn_dist_term (s : nn_dist) : outcome unit :=
  olet! _ := nn_assert (di_count s =? 0) in nn_list_term (di_pipes s).
Definition nn_dist_add (pipe d : Z) (s : nn_dist) : nn_dist :=
  {| di_count := di_count s; di_pipes := di_pipes s; di_items := nn_list_item_init d (di_items s); di_data := <[d := pipe]> (di_data s) |}.
Definition nn_dist_rm (d : Z) (s : nn_dist) : outcome nn_dist :=
  olet! i := lread (di_items s) d in
  olet! s := (if nn_list_item_isinlist i then
                olet! '(_, l, h) := nn_list_erase (di_pipes s) (di_items s) d in Done (with_pipes (u64 (di_count s - 1)) l h s)
              else Done s) in
  olet! _ := nn_list_item_term d (di_items s) in Done s.
Definition nn_dist_out (d : Z) (s : nn_dist) : outcome nn_dist :=
  olet! '(l, h) := nn_list_insert (di_pipes s) (di_items s) d (nn_list_end (di_pipes s)) in
  Done (with_pipes (u64 (di_count s + 1)) l h s).
Definition pipe_of (d : Z) (s : nn_dist) : outcome Z :=
  match di_data s !! d with Some p => Done p | None => Fault UseAfterFree end.

Section dist.
Context {P : Type} `{PipeOps P}.
Fixpoint dist_loop (fuel : nat) (m : nn_msg) (exclude : option Z) (it : link) (s : nn_dist) (ps : P) : outcome (nn_dist * P) :=
  if bool_decide (it = nn_list_end (di_pipes s)) then Done (s, ps)
  else match fuel with
  | O => Fault OutOfFuel
  | S fuel =>
      olet! d := follow it in
      olet! pipe := pipe_of d s in
      if bool_decide (Some pipe = exclude) then
        olet! it := nn_list_next (di_pipes s) (di_items s) it in dist_loop fuel m exclude it s ps
      else
        olet! '(rc, ps) := pipe_send pipe m ps in
        olet! _ := nn_assert (0 <=? rc) in
        if Z.testbit rc 0 then
          olet! '(it, l, h) := nn_list_erase (di_pipes s) (di_items s) d in
          dist_loop fuel m exclude it (with_pipes (u64 (di_count s - 1)) l h s) ps
        else olet! it := nn_list_next (di_pipes s) (di_items s) it in dist_loop fuel m exclude it s ps
  end.
Definition nn_dist_send (m : nn_msg) (exclude : option Z) (x : nn_dist * P) : outcome (Z * (nn_dist * P)) :=
  let '(s, ps) := x in
  if di_count s =? 0 then Done (0, (s, ps))
  else olet! x := dist_loop (size (di_items s)) m exclude (nn_list_begin (di_pipes s)) s ps in Done (0, x).
End dist.

(** ** One pipe at a time *)
Record nn_excl := { ex_pipe : option Z; ex_inpipe : option Z; ex_outpipe : option Z }.
Definition nn_excl_init : nn_excl := {| ex_pipe := None; ex_inpipe := None; ex_outpipe := None |}.
Definition nn_excl_term (e : nn_excl) : outcome unit :=
  olet! _ := nn_assert (bool_decide (ex_pipe e = None)) in
  olet! _ := nn_assert (bool_decide (ex_inpipe e = None)) in
  nn_assert (bool_decide (ex_outpipe e = None)).
Definition nn_excl_add (pipe : Z) (e : nn_excl) : Z * nn_excl :=
  match ex_pipe e with
  | Some _ => (- EISCONN, e)
  | None => (0, {| ex_pipe := Some pipe; ex_inpipe := ex_inpipe e; ex_outpipe := ex_outpipe e |})
  end.
Definition nn_excl_rm (pipe : Z) (e : nn_excl) : outcome nn_excl :=
  olet! _ := nn_assert (bool_decide (ex_pipe e <> None)) in Done nn_excl_init.
Definition nn_excl_in (pipe : Z) (e : nn_excl) : outcome nn_excl :=
  olet! _ := nn_assert (bool_decide (ex_inpipe e = None)) in
  olet! _ := nn_assert (bool_decide (Some pipe = ex_pipe e)) in
  Done {| ex_pipe := ex_pipe e; ex_inpipe := Some pipe; ex_outpipe := ex_outpipe e |}.
Definition nn_excl_out (pipe : Z) (e : nn_excl) : outcome nn_excl :=
  olet! _ := nn_assert (bool_decide (ex_outpipe e = None)) in
  olet! _ := nn_assert (bool_decide (Some pipe = ex_pipe e)) in
  Done {| ex_pipe := ex_pipe e; ex_inpipe := ex_inpipe e; ex_outpipe := Some pipe |}.
Definition nn_excl_can_send (e : nn_excl) : Z := match ex_outpipe e with Some _ => 1 | None => 0 end.
Definition nn_excl_can_recv (e : nn_excl) : Z := match ex_inpipe e with Some _ => 1 | None => 0 end.

Section sockets.
Context {P : Type} `{PipeOps P}.
Definition nn_excl_send (m : nn_msg) (x : nn_excl * P) : outcome (Z * (nn_excl * P)) :=
  let '(e, ps) := x in
  match ex_outpipe e with
  | None => Done (- EAGAIN, (e, ps))
  | Some a =>
      olet! '(rc, ps) := pipe_send a m ps in
      olet! _ := nn_assert (0 <=? rc) in
      let e := if Z.testbit rc 0 then {| ex_pipe := ex_pipe e; ex_inpipe := ex_inpipe e; ex_outpipe := None |} else e in
      Done (Z.ldiff rc NN_PIPE_RELEASE, (e, ps))
  end.
Definition nn_excl_recv (x : nn_excl * P) : outcome (Z * option nn_msg * (nn_excl * P)) :=
  let '(e, ps) := x in
  match ex_inpipe e with
  | None => Done (- EAGAIN, None, (e, ps))
  | Some a =>
      olet! '(rc, m, ps) := pipe_recv a ps in
      olet! _ := nn_assert (0 <=? rc) in
      let e := if Z.testbit rc 0 then {| ex_pipe := ex_pipe e; ex_inpipe := None; ex_outpipe := ex_outpipe e |} else e in
      Done (Z.ldiff rc NN_PIPE_RELEASE, Some m, (e, ps))
  end.

(** *** The pub socket: the data of a pipe is at address [d]. *)
Definition nn_pub_init := nn_dist_init.
Definition nn_pub_term := nn_dist_term.
Definition nn_pub_add (pipe d : Z) (s : nn_dist) : nn_dist := nn_dist_add pipe d s.
Definition nn_pub_rm (d : Z) (s : nn_dist) : outcome nn_dist :=
  olet! s := nn_dist_rm d s in
  Done {| di_count := di_count s; di_pipes := di_pipes s; di_items := delete d (di_items s); di_data := delete d (di_data s) |}.
Definition nn_pub_in : outcome unit := nn_assert false.
Definition nn_pub_out (d : Z) (s : nn_dist) : outcome nn_dist := nn_dist_out d s.
Definition nn_pub_events : Z := NN_SOCKBASE_EVENT_OUT.
Definition nn_pub_send (m : nn_msg) (x : nn_dist * P) : outcome (Z * (nn_dist * P)) := nn_dist_send m None x.

(** *** The sub socket *)
Record nn_sub := { su_excl : nn_excl; su_trie : nn_trie }.
Definition nn_sub_init : nn_sub := {| su_excl := nn_excl_init; su_trie := nn_trie_init |}.
Definition nn_sub_term (s : nn_sub) : outcome unit := nn_excl_term (su_excl s).
Definition with_excl (e : nn_excl) (s : nn_sub) : nn_sub := {| su_excl := e; su_trie := su_trie s |}.
Definition nn_sub_add (pipe : Z) (s : nn_sub) : Z * nn_sub :=
  let '(rc, e) := nn_excl_add pipe (su_excl s) in (rc, with_excl e s).
Definition nn_sub_rm (pipe : Z) (s : nn_sub) : outcome nn_sub := olet! e := nn_excl_rm pipe (su_excl s) in Done (with_excl e s).
Definition nn_sub_in (pipe : Z) (s : nn_sub) : outcome nn_sub := olet! e := nn_excl_in pipe (su_excl s) in Done (with_excl e s).
Definition nn_sub_out (pipe : Z) (s : nn_sub) : outcome nn_sub := olet! e := nn_excl_out pipe (su_excl s) in Done (with_excl e s).
Definition nn_sub_events (s : nn_sub) : Z := if nn_excl_can_recv (su_excl s) =? 0 then 0 else NN_SOCKBASE_EVENT_IN.
Fixpoint nn_sub_recv (fuel : nat) (x : nn_sub * P) : outcome (Z * option nn_msg * (nn_sub * P)) :=
  let '(s, ps) := x in
  match fuel with
  | O => Fault OutOfFuel
  | S fuel =>
      olet! '(rc, m, (e, ps)) := nn_excl_recv (su_excl s, ps) in
      let s := with_excl e s in
      if rc =? - EAGAIN then Done (- EAGAIN, None, (s, ps))
      else
        olet! _ := nn_assert (0 <=? rc) in
        match m with
        | None => Fault UseAfterFree
        | Some m =>
            olet! rc := nn_trie_match (su_trie s) (msg_body m) in
            if rc =? 0 then nn_sub_recv fuel (s, ps)
            else if rc =? 1 then Done (0, Some m, (s, ps))
            else Fault AssertFailed
        end
  end.
Definition NN_SUB : Z := 2 * 16 + 1.
Definition NN_SUB_SUBSCRIBE : Z := 1.
Definition NN_SUB_UNSUBSCRIBE : Z := 2.
Definition nn_sub_setopt (level option : Z) (optval : bytes) (s : nn_sub) : outcome (Z * nn_sub) :=
  if negb (level =? NN_SUB) then Done (- ENOPROTOOPT, s)
  else if option =? NN_SUB_SUBSCRIBE then
    olet! '(rc, t) := nn_trie_subscribe (su_trie s) optval in
    Done (if 0 <=? rc then 0 else rc, {| su_excl := su_excl s; su_trie := t |})
  else if option =? NN_SUB_UNSUBSCRIBE then
    olet! '(rc, t) := nn_trie_unsubscribe (su_trie s) optval in
    Done (if 0 <=? rc then 0 else rc, {| su_excl := su_excl s; su_trie := t |})
  else Done (- ENOPROTOOPT, s).

(** *** The pair socket *)
Definition nn_xpair_init := nn_excl_init.
Definition nn_xpair_term := nn_excl_term.
Definition nn_xpair_add := nn_excl_add.
Definition nn_xpair_rm := nn_excl_rm.
Definition nn_xpair_in := nn_excl_in.
Definition nn_xpair_out := nn_excl_out.
Definition nn_xpair_events (e : nn_excl) : Z :=
  Z.lor (if nn_excl_can_recv e =? 0 then 0 else NN_SOCKBASE_EVENT_IN) (if nn_excl_can_send e =? 0 then 0 else NN_SOCKBASE_EVENT_OUT).
Definition nn_xpair_send := nn_excl_send.
Definition nn_xpair_recv (x : nn_excl * P) : outcome (Z * option nn_msg * (nn_excl * P)) :=
  olet! '(rc, m, x) := nn_excl_recv x in Done (if rc <? 0 then rc else 0, m, x).
End sockets.

(** ** A publisher, its connections and their subscribers

    Connection [a] has the publisher at its left end and a subscriber at its
    right end; [topics a] is what the latter subscribes to.  The data of a pipe
    has the address of the pipe.  The sockets are told what the ends of a
    connection tell them, in that order. *)
Record rights := { rt_conns : gmap Z conn }.
#[export] Instance right_pipes : PipeOps rights := {|
  pipe_send a m ps :=
    match rt_conns ps !! a with
    | None => Fault UseAfterFree
    | Some c => olet! '(rc, c) := nn_pipe_send Rgt m c in Done (rc, {| rt_conns := <[a := c]> (rt_conns ps) |})
    end;
  pipe_recv a ps :=
    match rt_conns ps !! a with
    | None => Fault UseAfterFree
    | Some c =>
        olet! '(rc, m, c) := nn_pipe_recv Rgt c in
        match m with Some m => Done (rc, m, {| rt_conns := <[a := c]> (rt_conns ps) |}) | None => Fault UseAfterFree end
    end
|}.
Record world := { w_dist : nn_dist; w_conns : gmap Z conn; w_subs : gmap Z nn_sub }.
Definition w_with_dist (d : nn_dist) (w : world) : world := {| w_dist := d; w_conns := w_conns w; w_subs := w_subs w |}.
Definition w_with_conn (a : Z) (c : conn) (w : world) : world := {| w_dist := w_dist w; w_conns := <[a := c]> (w_conns w); w_subs := w_subs w |}.
Definition w_with_sub (a : Z) (s : nn_sub) (w : world) : world := {| w_dist := w_dist w; w_conns := w_conns w; w_subs := <[a := s]> (w_subs w) |}.
Definition sub_at (a : Z) (w : world) : outcome nn_sub :=
  match w_subs w !! a with Some s => Done s | None => Fault UseAfterFree end.
Definition on_sub (a : Z) (f : nn_sub -> outcome nn_sub) (w : world) : outcome world :=
  olet! s := sub_at a w in olet! s := f s in Done (w_with_sub a s w).
Definition tell (a : Z) (x : side * notice) (w : world) : outcome world :=
  match x with
  | (Lft, SOCK_ADD) => Done (w_with_dist (nn_pub_add a a (w_dist w)) w)
  | (Lft, SOCK_RM) => olet! d := nn_pub_rm a (w_dist w) in Done (w_with_dist d w)
  | (Lft, PIPE_IN) => olet! _ := nn_pub_in in Done w
  | (Lft, PIPE_OUT) => olet! d := nn_pub_out a (w_dist w) in Done (w_with_dist d w)
  | (Rgt, SOCK_ADD) => on_sub a (fun s => let '(rc, s) := nn_sub_add a s in olet! _ := nn_assert (0 <=? rc) in Done s) w
  | (Rgt, SOCK_RM) => on_sub a (nn_sub_rm a) w
  | (Rgt, PIPE_IN) => on_sub a (nn_sub_in a) w
  | (Rgt, PIPE_OUT) => on_sub a (nn_sub_out a) w
  | (_, STOPPED) => Done w
  end.
Fixpoint tell_all (a : Z) (xs : list (side * notice)) (w : world) : outcome world :=
  match xs with [] => Done w | x :: xs => olet! w := tell a x w in tell_all a xs w end.
Fixpoint subscribe_all (l : list bytes) (s : nn_sub) : outcome nn_sub :=
  match l with
  | [] => Done s
  | x :: l => olet! '(rc, s) := nn_sub_setopt NN_SUB NN_SUB_SUBSCRIBE x s in olet! _ := nn_assert (rc =? 0) in subscribe_all l s
  end.

(** ** One connection, used from left to right *)
Definition still (c : conn) : Prop := dv_sending (view Rgt c) = false /\ dv_sent (view Rgt c) = false /\ dv_received (view Rgt c) = false.
Lemma connected_up lbuf rbuf c :
  connected lbuf rbuf = Done c ->
  cn_up c = [(Rgt, SOCK_ADD); (Rgt, PIPE_OUT); (Lft, SOCK_ADD); (Lft, PIPE_OUT)] /\ still c /\ dv_in (view Lft c) = IN_ASYNC /\ dv_out (view Lft c) = OUT_IDLE.
Proof.
  destruct (mq_init_ok lbuf) as (ql & hl & Hil & _), (mq_init_ok rbuf) as (qr & hr & Hir & _).
  unfold connected, nn_sinproc_init. rewrite Hil, Hir. lazy. by intros [= <-].
Qed.
Lemma accept_up n c q :
  active c -> cn_events c !! n = Some (Rgt, SENT) -> dv_received (view Lft c) = false ->
  nn_msgqueue_send (dv_msg (view Lft c)) (dv_queue (view Lft c)) = Done (0, q) ->
  (is_empty (dv_queue (view Lft c)) = true -> dv_in (view Lft c) = IN_ASYNC) ->
  exists c', do_step (Sevent n) c = Done (None, c') /\ cn_up c' = cn_up c ++ if is_empty (dv_queue (view Lft c)) then [(Rgt, PIPE_IN)] else [].
Proof.
  intros Ha Hn Hrecv Hq Hin. destruct Ha as [[Hl1 Hl2] [Hr1 Hr2] Hnd Hev].
  known c. cbn in *; subst; unfold pending in *; cbn in *;
    (destruct (is_empty _) eqn:He; [rewrite Hin in * by done|]);
    (eexists; split; [run_event Hn; rewrite Hq; run_conn; rewrite ?He, (queued_delete n _ _ ev Hnd Hn), Hrecv; reflexivity|]); cbn; by rewrite ?app_nil_r.
Qed.
Lemma refuse_up n c q :
  active c -> cn_events c !! n = Some (Rgt, SENT) ->
  nn_msgqueue_send (dv_msg (view Lft c)) (dv_queue (view Lft c)) = Done (- EAGAIN, q) ->
  exists c', do_step (Sevent n) c = Done (None, c') /\ cn_up c' = cn_up c.
Proof.
  intros Ha Hn Hq. destruct Ha as [[Hl1 Hl2] [Hr1 Hr2] Hnd Hev].
  known c. cbn in *; subst; unfold pending in *; cbn in *. by (eexists; split; [run_event Hn; rewrite Hq; run_conn; reflexivity|]).
Qed.
Lemma received_up n c :
  active c -> cn_events c !! n = Some (Lft, RECEIVED) -> dv_sending (view Lft c) = true -> dv_out (view Lft c) = OUT_ASYNC ->
  exists c', do_step (Sevent n) c = Done (None, c') /\ cn_up c' = cn_up c ++ [(Lft, PIPE_OUT)].
Proof.
  intros Ha Hn Hs Hout. destruct Ha as [[Hl1 Hl2] [Hr1 Hr2] Hnd Hev]. known c. cbn in *; subst; unfold pending in *; cbn in *.
  by (eexists; split; [run_event Hn; run_conn; reflexivity|]).
Qed.
(** What an event changes, and what the sockets are told *)
Definition told_event (c c' : conn) (new : list (side * notice)) : Prop :=
  (new = [] /\ dv_out (view Lft c') = dv_out (view Lft c) /\ dv_in (view Lft c') = dv_in (view Lft c)) \/
  (new = [(Lft, PIPE_OUT)] /\ dv_out (view Lft c) = OUT_ASYNC /\ dv_out (view Lft c') = OUT_IDLE /\ dv_in (view Lft c') = dv_in (view Lft c)) \/
  (new = [(Rgt, PIPE_IN)] /\ dv_out (view Lft c') = dv_out (view Lft c) /\ dv_in (view Lft c) = IN_ASYNC /\ dv_in (view Lft c') = IN_IDLE).
Lemma event_ok n c sn gt :
  conn_ok c sn gt -> still c ->
  exists c' new, do_step (Sevent n) c = Done (None, c') /\ cn_up c' = cn_up c ++ new /\ conn_ok c' sn gt /\ still c' /\ told_event c c' new.
Proof.
  intros Hc (St1 & St2 & St3). pose proof Hc as [Ha Hd].
  destruct (step_ok (Sevent n) c sn gt Hc I) as (r0 & c0 & Hrun & Hc0 & _).
  assert (Hr0 : r0 = None -> conn_ok c0 sn gt).
  { intros ->. eapply conn_ok_ext; [exact Hc0|..]; intros t; apply add_nil; done. }
  destruct (cn_events c !! n) as [[t e]|] eqn:E; cycle 1.
  { exists c, []. unfold do_step, cbind at 1, take_event. rewrite E. rewrite app_nil_r. split_and!; try done. by left. }
  destruct (proj1 (Forall_lookup _ _) (ac_events _ Ha) n _ E) as [He|He]; cbn in He; subst e; destruct t.
  - exfalso. revert St2. cbn. unfold pending, queued. rewrite bool_decide_eq_true_2; [done|]. by eapply list_elem_of_lookup_2.
  - destruct (Hd Lft) as [(xs & Hq & Hin & Hph) Hmax Hmsg].
    assert (Hse : dv_sent (view Lft c) = true) by (cbn; apply bool_decide_eq_true_2; by eapply list_elem_of_lookup_2).
    destruct Hph as [ |Hs Hr _ Hre Ho Hsnt| | ]; try congruence.
    destruct (qsend_cases _ _ _ Hq Hmax Hmsg) as [(q & Hsend & Hq' & Hm)|[Hne Hsend]].
    + assert (Hemp : is_empty (dv_queue (view Lft c)) = true -> dv_in (view Lft c) = IN_ASYNC) by (rewrite (is_empty_ok _ _ Hq), Hin; by destruct xs).
      destruct (accept_up n c q Ha E Hre Hsend Hemp) as (c1 & R1 & Hup). destruct (accept_turns Lft n c q Ha E Hre Hsend Hemp) as (c2 & R2 & _ & V & Vo).
      rewrite Hrun in R1, R2. injection R1 as -> <-. injection R2 as <-. exists c0, (if is_empty (dv_queue (view Lft c)) then [(Rgt, PIPE_IN)] else []).
      split; [done|]. split; [done|]. split; [by apply Hr0|]. split; [unfold still; change Rgt with (other Lft); by rewrite Vo|]. unfold told_event. rewrite V. cbn [dv_out dv_in].
      destruct (is_empty (dv_queue (view Lft c))) eqn:Ee; [right; right|left; done]. split; [done|]. split; [done|]. split; [by apply Hemp|done].
    + destruct (refuse_up n c _ Ha E Hsend) as (c1 & R1 & Hup). destruct (refuse_turns Lft n c _ Ha E Hsend) as (c2 & R2 & _ & V & Vo).
      rewrite Hrun in R1, R2. injection R1 as -> <-. injection R2 as <-. exists c0, []. rewrite app_nil_r. split; [done|]. split; [done|]. split; [by apply Hr0|].
      split; [unfold still; change Rgt with (other Lft); by rewrite Vo|]. left. by rewrite V.
  - destruct (Hd Lft) as [(xs & Hq & Hin & Hph) Hmax Hmsg].
    assert (Hre : dv_received (view Lft c) = true) by (cbn; apply bool_decide_eq_true_2; by eapply list_elem_of_lookup_2).
    destruct Hph as [ | | |Hs Hr Hse _ Ho Hsnt]; try congruence.
    destruct (received_up n c Ha E Hs Ho) as (c1 & R1 & Hup). destruct (received_turns Lft n c Ha E Hs Ho) as (c2 & R2 & _ & V & Vo).
    rewrite Hrun in R1, R2. injection R1 as -> <-. injection R2 as <-. exists c0, [(Lft, PIPE_OUT)]. split; [done|]. split; [done|]. split; [by apply Hr0|].
    split; [unfold still; change Rgt with (other Lft); by rewrite Vo|]. right. left. by rewrite V.
  - exfalso. revert St3. cbn. unfold pending, queued. rewrite bool_decide_eq_true_2; [done|]. by eapply list_elem_of_lookup_2.
Qed.
(** The flags of a receive say whether the pipe has more. *)
Lemma pipe_recv_flags t c rc m c' :
  nn_pipe_recv t c = Done (rc, m, c') ->
  (rc = 2 /\ pb_in (sp_pipe (sess t c')) = IN_IDLE) \/ (rc = 3 /\ pb_in (sp_pipe (sess t c')) = IN_ASYNC).
Proof.
  unfold nn_pipe_recv. intros H.
  apply cbind_done in H as (s & c1 & _ & H). apply cbind_done in H as (? & c2 & _ & H). apply cbind_done in H as (? & c3 & _ & H).
  apply cbind_done in H as ([rc0 m0] & c4 & Hr & H).
  assert (rc0 = 2) as ->.
  { unfold nn_sinproc_recv in Hr. do 2 apply cbind_done in Hr as (? & ? & _ & Hr). apply cbind_done in Hr as ([] & ? & _ & Hr).
    do 4 apply cbind_done in Hr as (? & ? & _ & Hr). by injection Hr as <- _ _. }
  apply cbind_done in H as (? & c5 & _ & H). apply cbind_done in H as (s6 & c6 & _ & H). destruct (bool_decide _).
  - apply cbind_done in H as (? & c7 & Hp & H). injection H as <- <- <-. injection Hp as _ <-. left. split; [done|]. by destruct t.
  - apply cbind_done in H as (? & c7 & _ & H). apply cbind_done in H as (? & c8 & Hp & H). injection H as <- <- <-. injection Hp as _ <-. right. split; [done|]. by destruct t.
Qed.
Lemma conn_prefix c sn gt t : conn_ok c sn gt -> gt t `prefix_of` sn t.
Proof.
  intros [_ Hd]. destruct (do_queue _ _ _ (Hd t)) as (xs & _ & _ & Hph).
  destruct Hph as [_ _ _ _ _ E|_ _ _ _ _ E|_ _ _ _ _ _ E|_ _ _ _ _ E]; rewrite E; by eexists.
Qed.
Lemma pipe_recv_ok c sn gt :
  conn_ok c sn gt -> still c -> dv_in (view Lft c) = IN_IDLE ->
  exists rc m c' gt', nn_pipe_recv Rgt c = Done (rc, Some m, c') /\ 0 <= rc /\ Z.ldiff rc NN_PIPE_RELEASE = 2 /\
    Z.testbit rc 0 = negb (bool_decide (dv_in (view Lft c') = IN_IDLE)) /\
    conn_ok c' sn gt' /\ gt' Lft = gt Lft ++ [m] /\ still c' /\ dv_out (view Lft c') = dv_out (view Lft c) /\ dv_sent (view Lft c') = dv_sent (view Lft c).
Proof.
  intros Hc (St1 & St2 & St3) Hidle. pose proof Hc as [Ha Hd].
  destruct (recv_keeps Rgt c sn gt Hc) as (r0 & c' & Hrun & Hc' & _).
  assert (Hview : exists m, r0 = Some m /\ view Rgt c' = view Rgt c /\ dv_out (view Lft c') = dv_out (view Lft c) /\ dv_sent (view Lft c') = dv_sent (view Lft c)).
  { destruct (Hd Lft) as [(xs & Hq & Hin & Hph) Hmax Hmsg]. destruct xs as [|m xs]; cbn [in_of] in Hin; [congruence|].
    destruct (dv_queue (view Lft c)) as [q h] eqn:Eq. destruct (recv_ok q h m xs Hq) as (q1 & Hrecv & Hq1 & Hm1). rewrite <- Eq in Hrecv, Hq. cbn [fst] in Hmax.
    exists m. destruct (dv_receiving (view Lft c)) eqn:Er.
    - destruct Hph as [ | |Hs _ Hse Hre Ho Hne Hsnt| ]; try congruence.
      destruct (qsend_cases q1 xs (dv_msg (view Lft c)) Hq1) as [(q2 & Hsend & _)|[_ Hsend]]; [by rewrite Hm1|done|..].
      + destruct (recv_held_turns Lft c m q1 q2 0 Ha Hidle Er Hre Hrecv Hsend) as (c2 & R & _ & V & Vo); [by left|]. cbn [other] in *.
        rewrite Hrun in R. injection R as -> <-. by rewrite V.
      + destruct (recv_held_turns Lft c m q1 q1 (- EAGAIN) Ha Hidle Er Hre Hrecv Hsend) as (c2 & R & _ & V & Vo); [by right|]. cbn [other] in *.
        rewrite Hrun in R. injection R as -> <-. by rewrite V.
    - destruct (recv_turns Lft c m q1 Ha Hidle Er Hrecv) as (c2 & R & _ & V & Vo). cbn [other] in *. rewrite Hrun in R. injection R as -> <-. by rewrite V. }
  destruct Hview as (m & -> & Vo & Hout & Hsent).
  assert (Hp : exists rc, nn_pipe_recv Rgt c = Done (rc, Some m, c')).
  { cbn [do_step] in Hrun. apply cbind_done in Hrun as (s & c1 & Hs & Hrun). injection Hs as <- <-. change (pb_in (sp_pipe (sess Rgt c))) with (dv_in (view Lft c)) in Hrun.
    rewrite bool_decide_true in Hrun by done. apply cbind_done in Hrun as ([rc m0] & c1 & Hr & Hm). injection Hm as -> ->. by exists rc. }
  destruct Hp as [rc Hp]. exists rc, m, c', (add_to gt (step_got (Srecv Rgt) (Some m))). split; [done|].
  assert (Hf : (rc = 2 /\ dv_in (view Lft c') = IN_IDLE) \/ (rc = 3 /\ dv_in (view Lft c') = IN_ASYNC)) by exact (pipe_recv_flags _ _ _ _ _ Hp).
  split; [destruct Hf as [[-> _]|[-> _]]; lia|]. split; [by destruct Hf as [[-> _]|[-> _]]|]. split; [by destruct Hf as [[-> ->]|[-> ->]]|].
  split; [|split; [done|split; [by unfold still; rewrite Vo|done]]].
  eapply conn_ok_ext; [exact Hc'|..]; [|done]. intros t. by apply add_nil.
Qed.

(** ** The loop of a subscriber *)
Definition excl_of (a : Z) (c : conn) : nn_excl :=
  {| ex_pipe := Some a; ex_inpipe := if bool_decide (dv_in (view Lft c) = IN_IDLE) then Some a else None; ex_outpipe := Some a |}.
Lemma match_ok t M d : holds t M -> allowed (Match d) M -> nn_trie_match t d = Done (if some_prefix d M then 1 else 0).
Proof.
  intros Ht Hm. destruct (trie_step_ok (Match d) t M Ht Hm) as (t' & E & _). cbn [trie_step strings_step fst] in E.
  destruct (nn_trie_match t d) as [r|]; [|done]. by injection E as ->.
Qed.
Lemma sub_recv_ok a t M : holds t M -> forall fuel (cs : gmap Z conn) c sn gt,
  cs !! a = Some c -> conn_ok c sn gt -> still c -> Forall (fun m => allowed (Match (msg_body m)) M) (sn Lft) ->
  (length (sn Lft) < fuel + length (gt Lft))%nat ->
  exists rc r c' gt' dropped,
    nn_sub_recv fuel ({| su_excl := excl_of a c; su_trie := t |}, {| rt_conns := cs |}) =
      Done (rc, r, ({| su_excl := excl_of a c'; su_trie := t |}, {| rt_conns := <[a := c']> cs |})) /\
    conn_ok c' sn gt' /\ still c' /\ dv_out (view Lft c') = dv_out (view Lft c) /\ dv_sent (view Lft c') = dv_sent (view Lft c) /\
    gt' Lft = gt Lft ++ dropped ++ option_list r /\
    Forall (fun m => some_prefix (msg_body m) M = false) dropped /\
    match r with
    | Some m => rc = 0 /\ some_prefix (msg_body m) M = true
    | None => rc = - EAGAIN /\ dv_in (view Lft c') <> IN_IDLE
    end.
Proof.
  intros Ht. induction fuel as [|fuel IH]; intros cs c sn gt Hcs Hc St Hall Hf.
  { pose proof (prefix_length _ _ (conn_prefix _ _ _ Lft Hc)). lia. }
  cbn [nn_sub_recv su_excl su_trie]. unfold nn_excl_recv, excl_of at 1. cbn [ex_inpipe]. destruct (bool_decide_reflect (dv_in (view Lft c) = IN_IDLE)) as [Hi|Hi]; cycle 1.
  { cbn [obind]. change (- EAGAIN =? - EAGAIN) with true. cbn iota. exists (- EAGAIN), None, c, gt, []. rewrite insert_id by done.
    split; [unfold with_excl, excl_of; by rewrite bool_decide_false|]. cbn. rewrite app_nil_r. split_and!; try done. }
  destruct (pipe_recv_ok c sn gt Hc St Hi) as (rc & m & c1 & gt1 & Er & Hrc & Hld & Hbit & Hc1 & Hg1 & St1 & Ho1 & Hd1).
  cbn [pipe_recv right_pipes rt_conns]. rewrite Hcs, Er. cbn [obind]. rewrite (proj2 (Z.leb_le 0 rc)) by done. cbn [nn_assert obind]. rewrite Hld.
  change (2 =? - EAGAIN) with false. cbn iota. change (0 <=? 2) with true. cbn [nn_assert obind su_trie with_excl].
  assert (Hm : allowed (Match (msg_body m)) M).
  { pose proof (conn_prefix _ _ _ Lft Hc1) as [k Hk]. rewrite Hg1 in Hk. rewrite Hk in Hall. apply Forall_app in Hall as [Hall _]. apply Forall_app in Hall as [_ Hall].
    by apply (proj1 (Forall_singleton _ _)) in Hall. }
  rewrite (match_ok _ _ _ Ht Hm). cbn [obind].
  assert (Ex : with_excl (if Z.testbit rc 0 then {| ex_pipe := Some a; ex_inpipe := None; ex_outpipe := Some a |} else excl_of a c)
    {| su_excl := excl_of a c; su_trie := t |} = {| su_excl := excl_of a c1; su_trie := t |}).
  { unfold with_excl, excl_of. rewrite Hbit. cbn [su_trie]. rewrite (bool_decide_true (dv_in (view Lft c) = IN_IDLE)) by done. by destruct (bool_decide (dv_in (view Lft c1) = IN_IDLE)). }
  cbn [ex_pipe ex_outpipe excl_of]. rewrite Ex. destruct (some_prefix (msg_body m) M) eqn:Em.
  - change (1 =? 0) with false. change (1 =? 1) with true. cbn iota. exists 0, (Some m), c1, gt1, []. split; [done|]. split_and!; try done.
  - change (0 =? 0) with true. cbn iota. destruct (IH (<[a := c1]> cs) c1 sn gt1) as (rc' & r & c' & gt' & dropped & E & K1 & K2 & K3 & K7 & K4 & K5 & K6).
    { by apply lookup_insert_eq. } { done. } { done. } { done. } { rewrite Hg1, length_app. cbn. lia. }
    exists rc', r, c', gt', (m :: dropped). rewrite E, insert_insert_eq. split; [done|]. split; [done|]. split; [done|]. split; [congruence|]. split; [congruence|].
    split; [rewrite K4, Hg1, <- app_assoc; done|]. split; [by constructor|]. done.
Qed.

Section pubsub.
Variable topics : Z -> list bytes.
(** A connection is made, a message is published, an event of a connection is
    processed, or a subscriber receives. *)
Inductive bstep := Battach (a lbuf rbuf : Z) | Bpub (m : nn_msg) | Bevent (a : Z) (n : nat) | Brecv (a : Z).
Inductive bres := Rnone | Rpub (m : nn_msg) (to : list Z) | Rrecv (a : Z) (m : nn_msg).
Definition answer (a : Z) (m : option nn_msg) : bres := match m with Some m => Rrecv a m | None => Rnone end.
(** The message of connection [c] that the session of the subscriber keeps until
    its queue has room, and the one that its queue does not have yet *)
Definition held_msg (c : conn) : list nn_msg := if sp_receiving (cn_r c) then [sp_msg (cn_l c)] else [].
Definition late_msg (c : conn) : list nn_msg := if pending Rgt SENT c || sp_receiving (cn_r c) then [sp_msg (cn_l c)] else [].
Definition can_take (c : conn) : bool := bool_decide (pb_out (sp_pipe (cn_l c)) = OUT_IDLE).
(** The connections that can take a message *)
Definition takers_of (cs : gmap Z conn) : list Z := map fst (map_to_list (filter (fun p => can_take (snd p) = true) cs)).
Definition bstep_run (x : bstep) (w : world) : outcome (bres * world) :=
  match x with
  | Battach a lbuf rbuf =>
      match w_conns w !! a with
      | Some _ => Done (Rnone, w)
      | None =>
          olet! c := connected lbuf rbuf in
          olet! s := subscribe_all (topics a) nn_sub_init in
          olet! w := tell_all a (cn_up c) (w_with_sub a s (w_with_conn a c w)) in Done (Rnone, w)
      end
  | Bpub m =>
      olet! '(rc, (d, cs)) := nn_pub_send m (w_dist w, w_conns w) in
      olet! _ := nn_assert (rc =? 0) in
      Done (Rpub m (takers_of (w_conns w)), {| w_dist := d; w_conns := cs; w_subs := w_subs w |})
  | Bevent a n =>
      match w_conns w !! a with
      | None => Done (Rnone, w)
      | Some c =>
          olet! '(_, c') := do_step (Sevent n) c in
          olet! w := tell_all a (drop (length (cn_up c)) (cn_up c')) (w_with_conn a c' w) in Done (Rnone, w)
      end
  | Brecv a =>
      match w_conns w !! a with
      | None => Done (Rnone, w)
      | Some c =>
          olet! s := sub_at a w in
          olet! '(rc, m, (s, ps)) := nn_sub_recv (S (S (Z.to_nat (mq_count (fst (sp_queue (cn_r c))))))) (s, {| rt_conns := w_conns w |}) in
          Done (answer a m, {| w_dist := w_dist w; w_conns := rt_conns ps; w_subs := <[a := s]> (w_subs w) |})
      end
  end.
Fixpoint brun (xs : list bstep) (w : world) : outcome (list bres * world) :=
  match xs with
  | [] => Done ([], w)
  | x :: xs => olet! '(r, w) := bstep_run x w in olet! '(rs, w) := brun xs w in Done (r :: rs, w)
  end.
(** What was sent to connection [a], and what its subscriber received *)
Definition sent_to (a : Z) (rs : list bres) : list nn_msg :=
  omap (fun r => match r with Rpub m to => if bool_decide (a ∈ to) then Some m else None | _ => None end) rs.
Definition received (a : Z) (rs : list bres) : list nn_msg :=
  omap (fun r => match r with Rrecv b m => if b =? a then Some m else None | _ => None end) rs.
Definition subscriptions (a : Z) : strings := list_to_set_disj (topics a).
Definition wanted (a : Z) (m : nn_msg) : bool := some_prefix (msg_body m) (subscriptions a).
(** Buffers and messages are of ordinary size, and the subscriptions and the
    messages are such as the trie handles. *)
Definition bvalid (x : bstep) : Prop :=
  match x with
  | Battach a lbuf rbuf => lbuf < 2 ^ 63 /\ rbuf < 2 ^ 63 /\ allowed_run (map Subscribe (topics a)) ∅
  | Bpub m => msg_size m < 2 ^ 62 /\ forall a, allowed (Match (msg_body m)) (subscriptions a)
  | _ => True
  end.

(** ** Invariant *)
Definition wfact (d : nn_dist) (subs : gmap Z nn_sub) (ds : list Z) (snt got : Z -> list nn_msg) (a : Z) (c : conn) : Prop :=
  (exists sn gt, conn_ok c sn gt /\ sn Lft = snt a /\ gt Lft = got a) /\ still c /\ di_data d !! a = Some a /\
  (a ∈ ds <-> dv_out (view Lft c) = OUT_IDLE) /\ (a ∉ ds -> loose (di_items d) a) /\
  Forall (fun m => allowed (Match (msg_body m)) (subscriptions a)) (snt a) /\
  exists t, subs !! a = Some {| su_excl := excl_of a c; su_trie := t |} /\ holds t (subscriptions a).
Record wok (w : world) (ds : list Z) (snt got : Z -> list nn_msg) : Prop := {
  wo_list : lrep (di_items (w_dist w)) (di_pipes (w_dist w)) ds;
  wo_count : di_count (w_dist w) = lenZ ds;
  wo_conn : forall a c, w_conns w !! a = Some c -> wfact (w_dist w) (w_subs w) ds snt got a c;
  wo_in : forall a, a ∈ ds -> is_Some (w_conns w !! a);
  wo_none : forall a, w_conns w !! a = None -> snt a = [] /\ got a = []
}.
Lemma wok_set w ds snt got d' ds' a c' sub' snt' got' :
  wok w ds snt got -> lrep (di_items d') (di_pipes d') ds' -> di_count d' = lenZ ds' ->
  (forall b, b <> a -> di_data d' !! b = di_data (w_dist w) !! b) -> (forall b, b <> a -> (b ∈ ds' <-> b ∈ ds)) ->
  (forall b, b <> a -> b ∉ ds -> loose (di_items (w_dist w)) b -> loose (di_items d') b) ->
  (forall b, b <> a -> snt' b = snt b /\ got' b = got b) ->
  wfact d' (<[a := sub']> (w_subs w)) ds' snt' got' a c' ->
  wok {| w_dist := d'; w_conns := <[a := c']> (w_conns w); w_subs := <[a := sub']> (w_subs w) |} ds' snt' got'.
Proof.
  intros [W1 W2 W3 W4 W5] Hl Hcnt Hdata Hds Hloose Hlog Ha. constructor; cbn [w_dist w_conns w_subs]; [done|done|..].
  - intros b c [[<- <-]|[Hne Hb]]%lookup_insert_Some; [done|]. destruct (W3 b c Hb) as (F1 & F2 & F3 & F4 & F5 & F6 & t & F7 & F8).
    unfold wfact. destruct (Hlog b ltac:(done)) as [-> ->]. rewrite Hdata, Hds, lookup_insert_ne by done. split_and!; try done; [|by exists t].
    intros Hn. apply Hloose; [done|done|by apply F5].
  - intros b Hb. destruct (decide (b = a)) as [->|Hne]; [rewrite lookup_insert_eq; by eexists|]. rewrite lookup_insert_ne by done. by apply W4, Hds.
  - intros b Hb. destruct (decide (b = a)) as [->|Hne]; [by rewrite lookup_insert_eq in Hb|]. rewrite lookup_insert_ne in Hb by done.
    destruct (Hlog b Hne) as [-> ->]. by apply W5.
Qed.
Lemma wok_ext w ds snt got snt' got' :
  wok w ds snt got -> (forall a, snt a = snt' a) -> (forall a, got a = got' a) -> wok w ds snt' got'.
Proof.
  intros [W1 W2 W3 W4 W5] Hs Hg. constructor; try done.
  - intros a c Ha. unfold wfact. rewrite <- Hs, <- Hg. by apply W3.
  - intros a Ha. rewrite <- Hs, <- Hg. by apply W5.
Qed.
Lemma wok_size w ds snt got : wok w ds snt got -> lenZ ds <= Z.of_nat (size (w_conns w)).
Proof.
  intros [W1 _ _ W4 _]. rewrite <- size_dom. unfold lenZ. rewrite <- (size_list_to_set (C := gset Z) ds) by apply W1. apply inj_le, subseteq_size.
  intros a Ha%elem_of_list_to_set. by apply elem_of_dom, W4.
Qed.
Lemma dist_out_ok d ds a :
  lrep (di_items d) (di_pipes d) ds -> di_count d = lenZ ds -> lenZ ds + 1 < 2 ^ 64 -> a ∉ ds -> loose (di_items d) a ->
  exists d', nn_dist_out a d = Done d' /\ lrep (di_items d') (di_pipes d') (ds ++ [a]) /\ di_count d' = lenZ (ds ++ [a]) /\ di_data d' = di_data d /\
    forall b, b <> a -> b ∉ ds -> loose (di_items d) b -> loose (di_items d') b.
Proof.
  intros Hl Hc Hsz Ha Hlo. unfold nn_dist_out. destruct (list_insert_ok (di_items d) (di_pipes d) ds [] a) as (l & h & E & Hl' & Hf); [by rewrite app_nil_r..|done|].
  cbn [hlink] in E. change (nn_list_end (di_pipes d)) with Null. rewrite E. cbn [obind]. eexists. split; [done|]. cbn. split; [done|]. split; [|split; [done|]].
  - rewrite Hc, wrap_small by (pose proof (lenZ_nonneg ds); lia). rewrite lenZ_app. done.
  - intros b Hb Hbd Hlb. unfold loose. rewrite Hf; [done|]. set_solver.
Qed.
(** ** Publishing: the loop over the pipes *)
Lemma dist_loop_ok m ex : msg_size m < 2 ^ 62 -> forall fuel q p (w : world) snt got,
  (forall a, allowed (Match (msg_body m)) (subscriptions a)) ->
  (length q <= fuel)%nat -> wok w (p ++ q) snt got -> lenZ (p ++ q) < 2 ^ 64 ->
  exists d' cs', dist_loop fuel m ex (hlink q) (w_dist w) (w_conns w) = Done (d', cs') /\ size cs' = size (w_conns w) /\
    wok {| w_dist := d'; w_conns := cs'; w_subs := w_subs w |} (p ++ filter (fun a => Some a = ex) q)
      (fun b => snt b ++ if decide (b ∈ q /\ Some b <> ex) then [m] else []) got.
Proof.
  intros Hm. induction fuel as [|fuel IH]; intros q p w snt got Hall Hf Hw Hsz; (destruct q as [|a q]; [
    do 2 eexists; split; [done|]; split; [done|]; destruct w; eapply wok_ext; [exact Hw| |done]; intros b; by rewrite decide_False, app_nil_r by set_solver |]).
  { cbn in Hf. lia. }
  pose proof Hw as [W1 W2 W3 W4 W5]. destruct (W4 a ltac:(set_solver)) as [c Hc]. pose proof (W3 a c Hc) as ((sn & gt & Hok & Es & Eg) & St & Hdata & Hidle & _ & Hfa & t & Hsub & Ht).
  assert (Hnd : a ∉ p ++ q /\ NoDup (p ++ q)).
  { pose proof (lp_nodup _ _ _ W1) as Hnd. rewrite <- Permutation_middle in Hnd. by apply list.NoDup_cons in Hnd. } destruct Hnd as [Hna _].
  cbn [dist_loop hlink]. change (bool_decide (Item a = nn_list_end (di_pipes (w_dist w)))) with false. cbn iota. cbn [follow obind]. unfold pipe_of. rewrite Hdata. cbn [obind].
  destruct (bool_decide_reflect (Some a = ex)) as [Hex|Hex].
  - rewrite (list_next_ok _ _ _ _ _ W1). cbn [obind]. destruct (IH q (p ++ [a]) w snt got Hall) as (d' & cs' & E & Hs & Hw').
    { cbn in Hf. lia. } { by rewrite <- app_assoc. } { by rewrite <- app_assoc. }
    exists d', cs'. split; [done|]. split; [done|]. rewrite filter_cons_True by done. rewrite <- app_assoc in Hw'. eapply wok_ext; [exact Hw'| |done].
    intros b. f_equal. destruct (decide (b = a)) as [->|Hne]; [rewrite !decide_False by tauto; done|].
    destruct (decide (b ∈ q /\ Some b <> ex)) as [Hb|Hb]; [rewrite decide_True by set_solver; done|rewrite decide_False by set_solver; done].
  - pose proof (proj1 Hidle ltac:(set_solver)) as Ho. pose proof Hok as [Hact Hdirs]. destruct (do_queue _ _ _ (Hdirs Lft)) as (xs & _ & _ & Hph).
    destruct Hph as [Hs1 _ Hs2 _ _ _| | | ]; try congruence.
    destruct (pipe_send_release Lft m c Hact Ho Hs1 Hs2) as (c' & Hsend & Hstep). destruct (send_step Lft m c sn gt Hok Hm) as (r1 & c1 & Hstep1 & Hok1 & _).
    destruct (send_turns Lft m c Hact Ho Hs1 Hs2) as (c2 & Hstep2 & _ & Hview & Hvo). rewrite Hstep in Hstep1, Hstep2. injection Hstep1 as <- <-. injection Hstep2 as <-. cbn [other] in Hvo.
    cbn [pipe_send inproc_pipes]. rewrite Hc, Hsend. cbn [obind]. change (0 <=? NN_PIPEBASE_RELEASE) with true. change (Z.testbit NN_PIPEBASE_RELEASE 0) with true. cbn [nn_assert obind]. cbn iota.
    destruct (list_erase_ok _ _ _ _ _ W1) as (l' & h' & E & Hl' & Hlo & Hfr). rewrite E. cbn [obind].
    set (d1 := with_pipes (u64 (di_count (w_dist w) - 1)) l' h' (w_dist w)).
    assert (Hw1 : wok {| w_dist := d1; w_conns := <[a := c']> (w_conns w); w_subs := <[a := {| su_excl := excl_of a c; su_trie := t |}]> (w_subs w) |} (p ++ q)
      (fun b => snt b ++ if decide (b = a) then [m] else []) got).
    { eapply wok_set; [exact Hw|..]; try done.
      - cbn. rewrite W2, wrap_small by (rewrite !lenZ_app, !lenZ_cons in *; pose proof (lenZ_nonneg p); pose proof (lenZ_nonneg q); lia). rewrite !lenZ_app, lenZ_cons. lia.
      - intros b Hb. set_solver.
      - intros b Hb Hbd Hlb. cbn. unfold loose. by rewrite Hfr.
      - intros b Hb. by rewrite decide_False, app_nil_r.
      - split_and!.
        + do 2 eexists. split; [exact Hok1|]. unfold add_to, step_sent, step_got. cbn. rewrite Es, Eg, decide_True, app_nil_r by done. done.
        + unfold still. by rewrite Hvo.
        + done.
        + rewrite Hview. cbn. set_solver.
        + intros _. exact Hlo.
        + rewrite decide_True by done. apply Forall_app. split; [done|]. apply Forall_singleton. apply Hall.
        + exists t. rewrite lookup_insert_eq. split; [|done]. do 2 f_equal. unfold excl_of. by rewrite Hview. }
    rewrite (insert_id (w_subs w)) in Hw1 by done.
    destruct (IH q p _ _ _ Hall ltac:(cbn in Hf; lia) Hw1) as (d' & cs' & E' & Hs & Hw').
    { rewrite !lenZ_app, lenZ_cons in *. lia. }
    cbn [w_dist w_conns w_subs] in *. exists d', cs'. split; [done|]. split; [rewrite Hs; by apply map_size_insert_Some; eexists|].
    rewrite filter_cons_False by done. eapply wok_ext; [exact Hw'| |done]. intros b. cbn beta. rewrite <- app_assoc. f_equal.
    destruct (decide (b = a)) as [->|Hne].
    + rewrite decide_False by set_solver. by rewrite decide_True by set_solver.
    + destruct (decide (b ∈ q /\ Some b <> ex)) as [Hb|Hb]; [rewrite decide_True by set_solver; done|rewrite decide_False by set_solver; done].
Qed.
Lemma subscribe_all_ok e : forall l t M, holds t M -> allowed_run (map Subscribe l) M ->
  exists t', subscribe_all l {| su_excl := e; su_trie := t |} = Done {| su_excl := e; su_trie := t' |} /\ holds t' (M ⊎ list_to_set_disj l).
Proof.
  induction l as [|x l IH]; intros t M Ht Hl; [exists t; split; [done|]; change (list_to_set_disj []) with (∅ : strings); by rewrite gmultiset_disj_union_right_id|]. destruct Hl as [Hx Hl].
  destruct (trie_step_ok (Subscribe x) t M Ht Hx) as (t1 & E & Ht1). cbn [trie_step strings_step fst snd] in *.
  cbn [subscribe_all]. unfold nn_sub_setopt. change (negb (NN_SUB =? NN_SUB)) with false. change (NN_SUB_SUBSCRIBE =? NN_SUB_SUBSCRIBE) with true. cbn iota. cbn [su_trie su_excl].
  rewrite E. cbn [obind]. assert (Hrc : (if 0 <=? (if decide (x ∈ M) then 0 else 1) then 0 else if decide (x ∈ M) then 0 else 1) = 0) by (by destruct (decide (x ∈ M))).
  rewrite Hrc. cbn [obind nn_assert Z.eqb]. destruct (IH t1 _ Ht1 Hl) as (t' & E' & Ht'). exists t'. split; [done|].
  change (list_to_set_disj (x :: l)) with ({[+ x +]} ⊎ list_to_set_disj l : strings). by rewrite gmultiset_disj_union_assoc.
Qed.
Definition got_all (got got' : Z -> list nn_msg) (r : bres) : Prop :=
  forall b, filter (fun m => wanted b m = true) (got' b) = filter (fun m => wanted b m = true) (got b) ++ received b [r].
Definition wkeeps (x : bstep) (w : world) (snt got : Z -> list nn_msg) : Prop :=
  exists r w' ds' got', bstep_run x w = Done (r, w') /\ (size (w_conns w') <= S (size (w_conns w)))%nat /\
    wok w' ds' (fun b => snt b ++ sent_to b [r]) got' /\ got_all got got' r.
Lemma wkeeps_same x w ds snt got : wok w ds snt got -> bstep_run x w = Done (Rnone, w) -> wkeeps x w snt got.
Proof.
  intros Hw E. exists Rnone, w, ds, got. split; [done|]. split; [lia|]. split; [|intros b; by rewrite app_nil_r].
  eapply wok_ext; [exact Hw| |done]. intros b. symmetry. apply app_nil_r.
Qed.
Lemma attach_wkeeps a lbuf rbuf w ds snt got :
  wok w ds snt got -> bvalid (Battach a lbuf rbuf) -> Z.of_nat (size (w_conns w)) + 1 < 2 ^ 64 -> wkeeps (Battach a lbuf rbuf) w snt got.
Proof.
  intros Hw (Hl & Hr & Hsubs) Hsz. destruct (w_conns w !! a) as [c0|] eqn:E; [apply (wkeeps_same _ _ ds); [done|]; cbn; by rewrite E|].
  destruct (connected_ok lbuf rbuf Hl Hr) as (c & Hc & Hok). destruct (connected_up _ _ _ Hc) as (Hup & St & Hin & Hout).
  destruct (subscribe_all_ok nn_excl_init (topics a) nn_trie_init ∅ holds_init Hsubs) as (t & Hsub & Ht). rewrite gmultiset_disj_union_left_id in Ht.
  pose proof Hw as [W1 W2 W3 W4 W5]. destruct (W5 a E) as [Es Eg].
  assert (Hna : a ∉ ds) by (intros Ha%W4; rewrite E in Ha; by destruct Ha).
  set (d1 := nn_pub_add a a (w_dist w)).
  destruct (dist_out_ok d1 ds a) as (d2 & Ho & Hl2 & Hc2 & Hd2 & Hlo2).
  { unfold d1. cbn. eapply lrep_ext; [exact W1|]. intros b Hb. unfold nn_list_item_init. rewrite lookup_insert_ne; [done|]. intros ->. done. }
  { done. } { pose proof (wok_size _ _ _ _ Hw). lia. } { done. } { unfold d1, loose. cbn. unfold nn_list_item_init. by rewrite lookup_insert_eq. }
  exists Rnone, {| w_dist := d2; w_conns := <[a := c]> (w_conns w); w_subs := <[a := {| su_excl := excl_of a c; su_trie := t |}]> (w_subs w) |}, (ds ++ [a]), got. split.
  { cbn [bstep_run]. rewrite E, Hc. cbn [obind]. unfold nn_sub_init. rewrite Hsub. cbn [obind]. rewrite Hup.
    cbn [tell_all tell]. unfold on_sub, sub_at, w_with_sub, w_with_conn. cbn [w_subs w_conns w_dist]. rewrite lookup_insert_eq. cbn [obind w_subs w_conns w_dist].
    assert (Ea : nn_sub_add a {| su_excl := nn_excl_init; su_trie := t |} = (0, {| su_excl := {| ex_pipe := Some a; ex_inpipe := None; ex_outpipe := None |}; su_trie := t |})) by done.
    rewrite Ea. cbn [obind nn_assert Z.leb Z.compare w_subs]. rewrite lookup_insert_eq. cbn [obind].
    assert (Eo : nn_sub_out a {| su_excl := {| ex_pipe := Some a; ex_inpipe := None; ex_outpipe := None |}; su_trie := t |} =
      Done {| su_excl := excl_of a c; su_trie := t |}).
    { unfold nn_sub_out, nn_excl_out, excl_of. cbn [su_excl ex_outpipe ex_pipe]. rewrite !bool_decide_true by done.
      by rewrite (bool_decide_false (dv_in (view Lft c) = IN_IDLE)) by (by rewrite Hin). }
    rewrite Eo. cbn [obind w_dist w_conns w_subs w_with_dist]. unfold w_with_dist, nn_pub_out. cbn [w_dist w_conns w_subs]. fold d1. rewrite Ho. cbn [obind].
    by rewrite !insert_insert_eq. }
  split; [cbn; rewrite map_size_insert_None by done; lia|]. split; [|intros b; by rewrite app_nil_r].
  eapply wok_ext with (snt := snt) (got := got); [|intros b; symmetry; apply app_nil_r|done].
  eapply wok_set; [exact Hw|done|done|..].
  - intros b Hb. rewrite Hd2. cbn. by rewrite lookup_insert_ne.
  - intros b Hb. rewrite elem_of_app, list_elem_of_singleton. tauto.
  - intros b Hb Hbd Hlb. apply Hlo2; [done|done|]. unfold d1, loose. cbn. unfold nn_list_item_init. by rewrite lookup_insert_ne.
  - done.
  - split_and!; [|done|rewrite Hd2; cbn; by rewrite lookup_insert_eq|rewrite Hout, elem_of_app, list_elem_of_singleton; tauto|intros Hn; exfalso; apply Hn, elem_of_app; right; by apply list_elem_of_singleton|rewrite Es; constructor|].
    + exists (fun _ => []), (fun _ => []). by rewrite Es, Eg.
    + exists t. by rewrite lookup_insert_eq.
Qed.
Lemma takers_elem cs a : a ∈ takers_of cs <-> exists c, cs !! a = Some c /\ dv_out (view Lft c) = OUT_IDLE.
Proof.
  unfold takers_of. rewrite list_elem_of_fmap. split.
  - intros ([b c] & -> & Hb). apply elem_of_map_to_list, map_lookup_filter_Some in Hb as [Hb Ht]. exists c. split; [done|]. by apply bool_decide_eq_true in Ht.
  - intros (c & Hc & Ho). exists (a, c). split; [done|]. apply elem_of_map_to_list, map_lookup_filter_Some. split; [done|]. by apply bool_decide_eq_true.
Qed.
Lemma pub_wkeeps m w ds snt got :
  wok w ds snt got -> bvalid (Bpub m) -> Z.of_nat (size (w_conns w)) + 1 < 2 ^ 64 -> wkeeps (Bpub m) w snt got.
Proof.
  intros Hw (Hm & Hall) Hsz. pose proof (wok_size _ _ _ _ Hw) as Hlen. pose proof Hw as [W1 W2 W3 W4 W5].
  assert (Htk : forall b, b ∈ takers_of (w_conns w) <-> b ∈ ds).
  { intros b. rewrite takers_elem. split.
    - intros (c & Hc & Ho). by apply (W3 b c Hc).
    - intros Hb. destruct (W4 b Hb) as [c Hc]. exists c. split; [done|]. by apply (W3 b c Hc). }
  destruct (dist_loop_ok m None Hm (size (di_items (w_dist w))) ds [] w snt got Hall) as (d' & cs' & E & Hs & Hw').
  { unfold lenZ in *. rewrite <- size_dom, <- (size_list_to_set (C := gset Z) ds) by apply W1. apply subseteq_size. intros a Ha%elem_of_list_to_set.
    apply list_elem_of_split in Ha as (p & q & ->). apply elem_of_dom. rewrite (lp_links _ _ _ W1 p a q eq_refl). by eexists. }
  { done. } { cbn [app]. lia. }
  exists (Rpub m (takers_of (w_conns w))). destruct (Z.eqb_spec (di_count (w_dist w)) 0) as [H0|H0].
  - exists w, ds, got. assert (ds = []) as -> by (apply lenZ_zero_nil; congruence). split.
    { cbn [bstep_run]. unfold nn_pub_send, nn_dist_send. rewrite H0. cbn [Z.eqb obind nn_assert]. by destruct w. }
    split; [lia|]. split; [|intros b; by rewrite app_nil_r]. eapply wok_ext; [exact Hw| |done]. intros b. cbn. rewrite bool_decide_false; [by rewrite app_nil_r|]. rewrite Htk. set_solver.
  - exists {| w_dist := d'; w_conns := cs'; w_subs := w_subs w |}. eexists. exists got. split.
    { cbn [bstep_run]. unfold nn_pub_send, nn_dist_send. rewrite (proj2 (Z.eqb_neq _ _) H0). unfold nn_list_begin. rewrite (lp_first _ _ _ W1), E. done. }
    split; [cbn; lia|]. split; [|intros b; by rewrite app_nil_r]. eapply wok_ext; [exact Hw'| |done]. intros b. cbn. f_equal.
    destruct (decide (b ∈ ds)) as [Hb|Hb]; [rewrite decide_True by done; by rewrite bool_decide_true by (by apply Htk)|].
    rewrite decide_False by tauto. by rewrite bool_decide_false by (by rewrite Htk).
Qed.
Lemma event_wkeeps a n w ds snt got :
  wok w ds snt got -> Z.of_nat (size (w_conns w)) + 1 < 2 ^ 64 -> wkeeps (Bevent a n) w snt got.
Proof.
  intros Hw Hsz. destruct (w_conns w !! a) as [c|] eqn:E; [|apply (wkeeps_same _ _ ds); [done|]; cbn; by rewrite E].
  pose proof (wok_size _ _ _ _ Hw) as Hlen. pose proof Hw as [W1 W2 W3 W4 W5].
  pose proof (W3 a c E) as ((sn & gt & Hok & Es & Eg) & St & Hdata & Hidle & Hlo & Hfa & t & Hsub & Ht).
  destruct (event_ok n c sn gt Hok St) as (c' & new & Hrun & Hup & Hok' & St' & Htold).
  cut (exists d' ds' sub', tell_all a new (w_with_conn a c' w) = Done {| w_dist := d'; w_conns := <[a := c']> (w_conns w); w_subs := <[a := sub']> (w_subs w) |} /\
    wok {| w_dist := d'; w_conns := <[a := c']> (w_conns w); w_subs := <[a := sub']> (w_subs w) |} ds' snt got).
  { intros (d' & ds' & sub' & Ht' & Hw'). exists Rnone. eexists. exists ds', got. split.
    { cbn [bstep_run]. rewrite E, Hrun. cbn [obind]. rewrite Hup, drop_app_length, Ht'. done. }
    split; [cbn; rewrite map_size_insert_Some by (by eexists); lia|]. split; [|intros b; by rewrite app_nil_r].
    eapply wok_ext; [exact Hw'| |done]. intros b. symmetry. apply app_nil_r. }
  assert (Hbase : forall d' ds' sub', lrep (di_items d') (di_pipes d') ds' -> di_count d' = lenZ ds' -> di_data d' = di_data (w_dist w) ->
    (forall b, b <> a -> (b ∈ ds' <-> b ∈ ds)) -> (forall b, b <> a -> b ∉ ds -> loose (di_items (w_dist w)) b -> loose (di_items d') b) ->
    (a ∈ ds' <-> dv_out (view Lft c') = OUT_IDLE) -> (a ∉ ds' -> loose (di_items d') a) -> sub' = {| su_excl := excl_of a c'; su_trie := t |} ->
    wok {| w_dist := d'; w_conns := <[a := c']> (w_conns w); w_subs := <[a := sub']> (w_subs w) |} ds' snt got).
  { intros d' ds' sub' B1 B2 B3 B4 B5 B6 B7 ->. eapply wok_set; [exact Hw|done|done|intros; by rewrite B3|done|done|done|].
    split_and!; try done; [by exists sn, gt|by rewrite B3|]. exists t. by rewrite lookup_insert_eq. }
  destruct Htold as [(-> & Ho & Hi)|[(-> & Ho & Ho' & Hi)|(-> & Ho & Hi & Hi')]].
  - exists (w_dist w), ds, {| su_excl := excl_of a c'; su_trie := t |}. split.
    + cbn [tell_all]. unfold w_with_conn. do 2 f_equal. symmetry. apply insert_id. rewrite Hsub. unfold excl_of. by rewrite Hi.
    + apply Hbase; try done. by rewrite Ho.
  - assert (Hn : a ∉ ds) by (rewrite Hidle, Ho; done).
    destruct (dist_out_ok (w_dist w) ds a W1 W2 ltac:(lia) Hn (Hlo Hn)) as (d' & Hout & D1 & D2 & D3 & D4).
    exists d', (ds ++ [a]), {| su_excl := excl_of a c'; su_trie := t |}. split.
    + cbn [tell_all tell]. unfold w_with_conn, w_with_dist, nn_pub_out. cbn [w_dist w_conns w_subs]. rewrite Hout. cbn [obind]. do 2 f_equal. symmetry. apply insert_id. rewrite Hsub. unfold excl_of. by rewrite Hi.
    + apply Hbase; try done.
      * intros b Hb. rewrite elem_of_app, list_elem_of_singleton. tauto.
      * rewrite Ho', elem_of_app, list_elem_of_singleton. tauto.
      * intros Hc. exfalso. apply Hc, elem_of_app. right. by apply list_elem_of_singleton.
  - exists (w_dist w), ds, {| su_excl := excl_of a c'; su_trie := t |}. split.
    + cbn [tell_all tell]. unfold on_sub, sub_at, w_with_conn, w_with_sub. cbn [w_dist w_conns w_subs]. rewrite Hsub. cbn [obind].
      unfold nn_sub_in, nn_excl_in, excl_of. rewrite Hi, Hi'. cbn [su_excl ex_inpipe ex_pipe ex_outpipe su_trie with_excl].
      rewrite (bool_decide_false (IN_ASYNC = IN_IDLE)) by done. rewrite !(bool_decide_true (IN_IDLE = IN_IDLE)) by done. rewrite (bool_decide_true (@None Z = None)) by done.
      rewrite (bool_decide_true (Some a = Some a)) by done. done.
    + apply Hbase; try done. by rewrite Ho.
Qed.
Lemma filter_wanted_none a l : Forall (fun m => some_prefix (msg_body m) (subscriptions a) = false) l -> filter (fun m => wanted a m = true) l = [].
Proof. induction 1 as [|m l Hm Hl IH]; [done|]. rewrite filter_cons_False; [done|]. unfold wanted. by rewrite Hm. Qed.
Lemma recv_fuel c sn gt : conn_ok c sn gt -> (length (sn Lft) < S (S (Z.to_nat (mq_count (fst (sp_queue (cn_r c)))))) + length (gt Lft))%nat.
Proof.
  intros Hok. destruct (do_queue _ _ _ (proj2 Hok Lft)) as (xs & Hq & _ & Hph). pose proof (mr_count _ _ Hq) as Hn. cbn [view dv_queue sess other] in Hn. rewrite Hn. unfold lenZ.
  destruct Hph as [_ _ _ _ _ E'|_ _ _ _ _ E'|_ _ _ _ _ _ E'|_ _ _ _ _ E']; rewrite E', ?length_app; cbn [length]; lia.
Qed.
(** What a connection has for its subscriber: what is in the queue, the message
    that is kept, and the message that is only offered *)
Lemma transit_ok c sn gt :
  conn_ok c sn gt -> exists q, mrep (sp_queue (cn_r c)) q /\ dv_in (view Lft c) = in_of q /\ sn Lft = gt Lft ++ q ++ late_msg c /\
    (q = [] -> held_msg c = []) /\ sn Lft = gt Lft ++ (q ++ held_msg c) ++ if dv_sent (view Lft c) then late_msg c else [].
Proof.
  intros [_ Hd]. destruct (do_queue _ _ _ (Hd Lft)) as (q & Hq & Hi & Hph). exists q. split; [done|]. split; [done|].
  unfold late_msg, held_msg. change (pending Rgt SENT c) with (dv_sent (view Lft c)). change (sp_receiving (cn_r c)) with (dv_receiving (view Lft c)).
  change (sp_msg (cn_l c)) with (dv_msg (view Lft c)).
  destruct Hph as [_ -> -> _ _ E|_ -> -> _ _ E|_ -> -> _ _ Hne E|_ -> -> _ _ E]; rewrite E; cbn [orb]; rewrite ?app_nil_r; done.
Qed.
Lemma recv_first a w ds snt got c :
  wok w ds snt got -> w_conns w !! a = Some c ->
  exists q w', mrep (sp_queue (cn_r c)) q /\ snt a = got a ++ q ++ late_msg c /\
    bstep_run (Brecv a) w = Done (answer a (head (filter (fun m => wanted a m = true) (q ++ held_msg c))), w').
Proof.
  intros Hw E. pose proof Hw as [W1 W2 W3 W4 W5]. pose proof (W3 a c E) as ((sn & gt & Hok & Es & Eg) & St & Hdata & Hidle & Hlo & Hfa & t & Hsub & Ht).
  rewrite <- Es in Hfa. destruct (sub_recv_ok a t (subscriptions a) Ht _ (w_conns w) c sn gt E Hok St Hfa (recv_fuel _ _ _ Hok))
    as (rc & r & c' & gt' & dropped & Hrun & Hok' & St' & _ & Hsent & Hgt & Hdrop & Hr).
  destruct (transit_ok _ _ _ Hok) as (q & Hq & _ & Hsn & _ & Hav), (transit_ok _ _ _ Hok') as (q' & _ & Hi' & _ & Hh' & Hav').
  exists q. eexists. split; [done|]. split; [by rewrite <- Es, <- Eg|]. cbn [bstep_run]. rewrite E. unfold sub_at. rewrite Hsub. cbn [obind]. rewrite Hrun. cbn [obind].
  do 3 f_equal. assert (Hpart : q ++ held_msg c = dropped ++ option_list r ++ q' ++ held_msg c').
  { rewrite Hav, Hgt, Hsent, <- !app_assoc in Hav'. apply app_inv_head in Hav'. unfold late_msg in Hav'. destruct (dv_sent (view Lft c)) eqn:Ec.
    - change (pending Rgt SENT c) with (dv_sent (view Lft c)) in Hav'. change (pending Rgt SENT c') with (dv_sent (view Lft c')) in Hav'. rewrite Hsent, Ec in Hav'. cbn [orb] in Hav'.
      rewrite !app_assoc in Hav'. apply app_inj_tail in Hav' as [-> _]. by rewrite !app_assoc.
    - by rewrite !app_nil_r in Hav'. }
  rewrite Hpart, filter_app, (filter_wanted_none _ _ Hdrop). destruct r as [m|].
  - change (option_list (Some m) ++ ?l) with (m :: l). by rewrite filter_cons_True by apply Hr.
  - destruct q' as [|m q']; [by rewrite Hh'|]. exfalso. by apply Hr.
Qed.
Lemma recv_wkeeps a w ds snt got : wok w ds snt got -> wkeeps (Brecv a) w snt got.
Proof.
  intros Hw. destruct (w_conns w !! a) as [c|] eqn:E; [|apply (wkeeps_same _ _ ds); [done|]; cbn; by rewrite E].
  pose proof Hw as [W1 W2 W3 W4 W5]. pose proof (W3 a c E) as ((sn & gt & Hok & Es & Eg) & St & Hdata & Hidle & Hlo & Hfa & t & Hsub & Ht).
  pose proof (recv_fuel _ _ _ Hok) as Hf. set (fuel := S (S _)) in Hf.
  rewrite <- Es in Hfa. destruct (sub_recv_ok a t (subscriptions a) Ht fuel (w_conns w) c sn gt E Hok St Hfa Hf)
    as (rc & r & c' & gt' & dropped & Hrun & Hok' & St' & Hout & _ & Hgt & Hdrop & Hr).
  exists (answer a r). eexists. exists ds, (fun b => if decide (b = a) then gt' Lft else got b). split.
  { cbn [bstep_run]. rewrite E. unfold sub_at. rewrite Hsub. cbn [obind]. fold fuel. rewrite Hrun. cbn [obind rt_conns]. done. }
  split; [cbn; rewrite map_size_insert_Some by (by eexists); lia|]. split.
  - eapply wok_ext with (snt := snt); [|intros b; destruct r; symmetry; apply app_nil_r|done].
    eapply wok_set; [exact Hw|done|done|done|done|done|intros b Hb; by rewrite decide_False|].
    split_and!; try done; [exists sn, gt'; by rewrite decide_True|by rewrite Hout|by rewrite Es in Hfa|]. exists t. by rewrite lookup_insert_eq.
  - intros b. destruct (decide (b = a)) as [->|Hne].
    + rewrite Hgt, Eg, !filter_app, (filter_wanted_none _ _ Hdrop). cbn [app]. f_equal. destruct r as [m|]; cbn; [|done]. rewrite Z.eqb_refl. rewrite decide_True; [done|]. apply Hr.
    + destruct r as [m|]; cbn; [rewrite (proj2 (Z.eqb_neq a b)) by done|]; by rewrite app_nil_r.
Qed.
Lemma brun_ok xs : forall w ds snt got, wok w ds snt got -> Forall bvalid xs -> Z.of_nat (size (w_conns w)) + lenZ xs < 2 ^ 64 ->
  exists rs w' ds' got', brun xs w = Done (rs, w') /\ wok w' ds' (fun b => snt b ++ sent_to b rs) got' /\
    forall b, filter (fun m => wanted b m = true) (got' b) = filter (fun m => wanted b m = true) (got b) ++ received b rs.
Proof.
  induction xs as [|x xs IH]; intros w ds snt got Hw Hv Hsz.
  - exists [], w, ds, got. split; [done|]. split; [|intros b; by rewrite app_nil_r]. eapply wok_ext; [exact Hw| |done]. intros b. symmetry. apply app_nil_r.
  - apply Forall_cons in Hv as [Hx Hv]. rewrite lenZ_cons in Hsz. pose proof (lenZ_nonneg xs).
    assert (Hk : wkeeps x w snt got).
    { destruct x as [a l r|m|a n|a]; [eapply attach_wkeeps|eapply pub_wkeeps|eapply event_wkeeps|eapply recv_wkeeps]; try done; lia. }
    destruct Hk as (r & w1 & ds1 & got1 & E1 & Hs1 & Hw1 & Hg1). destruct (IH w1 ds1 _ got1 Hw1 Hv ltac:(lia)) as (rs & w' & ds' & got' & E & Hw' & Hg').
    exists (r :: rs), w', ds', got'. cbn [brun]. rewrite E1. cbn [obind]. rewrite E. split; [done|]. split.
    + eapply wok_ext; [exact Hw'| |done]. intros b. cbn beta. rewrite <- app_assoc. f_equal. symmetry. exact (omap_app _ [r] rs).
    + intros b. rewrite Hg', Hg1, <- app_assoc. f_equal. symmetry. exact (omap_app _ [r] rs).
Qed.
Definition world0 : world := {| w_dist := nn_dist_init ∅ ∅; w_conns := ∅; w_subs := ∅ |}.
Lemma world0_ok : wok world0 [] (fun _ => []) (fun _ => []).
Proof. constructor; cbn; try done; [apply list_init_ok|intros a Ha; by apply elem_of_nil in Ha]. Qed.
(** C21: publish and subscribe.  Connections are made, messages published,
    events processed and messages received in any order: nothing faults, and
    every message published while the pipe of a connection could take one
    ([takers_of]) is accounted for once and in order at that connection.  What
    was sent to it is what its subscriber has read, then what is in the queue of
    its session, then the message the queue does not have yet; of what it has
    read the subscriber has received exactly the messages of which a beginning
    is one of its topics.  The next receive answers the first such message the
    connection has for it, in the queue or kept until the queue has room, and
    nothing only if there is none.  Buffers and messages are of ordinary size;
    the topics and the messages are such as the trie handles: no message is a
    proper beginning of a topic unless it matches ([bvalid]). *)
Theorem subscribers_get_topics (xs : list bstep) :
  Forall bvalid xs -> lenZ xs < 2 ^ 64 ->
  exists rs w, brun xs world0 = Done (rs, w) /\
    forall a, match w_conns w !! a with
              | None => sent_to a rs = [] /\ received a rs = []
              | Some c =>
                  exists read q w', mrep (sp_queue (cn_r c)) q /\ sent_to a rs = read ++ q ++ late_msg c /\
                    received a rs = filter (fun m => wanted a m = true) read /\
                    bstep_run (Brecv a) w = Done (answer a (head (filter (fun m => wanted a m = true) (q ++ held_msg c))), w')
              end.
Proof.
  intros Hv Hsz. destruct (brun_ok xs world0 [] (fun _ => []) (fun _ => []) world0_ok Hv) as (rs & w & ds & got & E & Hw & Hg).
  { change (size (w_conns world0)) with 0%nat. lia. }
  exists rs, w. split; [done|]. intros a. specialize (Hg a). rewrite filter_nil, app_nil_l in Hg. destruct (w_conns w !! a) as [c|] eqn:Ea.
  - destruct (recv_first a w _ _ _ c Hw Ea) as (q & w' & Hq & Hs & Hrun). exists (got a), q, w'. by rewrite Hg.
  - destruct (wo_none _ _ _ _ Hw a Ea) as [Es Eg]. rewrite Eg in Hg. done.
Qed.
End pubsub.
Definition sample_topics (a : Z) : list bytes := if a =? 1 then [[1]] else if a =? 2 then [[2]] else [].
Definition sample_message (b : bytes) : nn_msg := {| msg_hdr := []; msg_body := b |}.
Definition sample_traffic : list bstep :=
  [Battach 1 100 100; Battach 2 100 100; Bpub (sample_message [1; 5]); Bevent 1 0; Bevent 1 0; Bevent 2 0; Bevent 2 0;
   Bpub (sample_message [2; 5]); Bevent 1 0; Bevent 2 0; Bpub (sample_message [1; 6]); Brecv 1; Brecv 2; Brecv 1].
Lemma sample_allowed b c : b = 1 \/ b = 2 -> forall a, allowed (Match [b; c]) (subscriptions sample_topics a).
Proof.
  intros Hb a. unfold subscriptions, sample_topics. destruct (a =? 1); [|destruct (a =? 2)]; cbn [allowed].
  3: { right. intros y. change (list_to_set_disj []) with (∅ : strings). multiset_solver. }
  all: change (list_to_set_disj [?x]) with ({[+ x +]} ⊎ ∅ : strings); rewrite gmultiset_disj_union_right_id.
  all: destruct Hb as [-> | ->]; first [left; apply some_prefix_spec; exists [1], [c]; split; [reflexivity|by apply gmultiset_elem_of_singleton]
                                       |left; apply some_prefix_spec; exists [2], [c]; split; [reflexivity|by apply gmultiset_elem_of_singleton]
                                       |right; intros y; rewrite ?gmultiset_disj_union_right_id; intros Hy; apply gmultiset_elem_of_singleton in Hy; discriminate Hy].
Qed.
Lemma sample_subscription b : (b = 1 \/ b = 2) -> allowed_run [Subscribe [b]] ∅.
Proof. intros Hb. split; [|done]. split; [by destruct Hb as [-> | ->]; repeat constructor|]. split; [apply small_narrow; vm_compute; destruct Hb; subst; lia|done]. Qed.
Lemma sample_valid : Forall (bvalid sample_topics) sample_traffic.
Proof.
  unfold sample_traffic. repeat (apply Forall_cons; split); try apply Forall_nil; try exact I.
  1,2: split; [reflexivity|split; [reflexivity|apply sample_subscription; auto]].
  all: split; [reflexivity|apply sample_allowed; auto].
Qed.
Lemma subscribers_get_topics_witness :
  exists rs w, brun sample_topics sample_traffic world0 = Done (rs, w) /\
    forall a, match w_conns w !! a with
              | None => sent_to a rs = [] /\ received a rs = []
              | Some c =>
                  exists read q w', mrep (sp_queue (cn_r c)) q /\ sent_to a rs = read ++ q ++ late_msg c /\
                    received a rs = filter (fun m => wanted sample_topics a m = true) read /\
                    bstep_run sample_topics (Brecv a) w = Done (answer a (head (filter (fun m => wanted sample_topics a m = true) (q ++ held_msg c))), w')
              end.
Proof.
  apply (subscribers_get_topics sample_topics sample_traffic); [exact sample_valid|reflexivity].
Defined.
Example sample_run :
  exists rs w, brun sample_topics sample_traffic world0 = Done (rs, w) /\
    sent_to 1 rs = [sample_message [1; 5]; sample_message [2; 5]] /\ received 1 rs = [sample_message [1; 5]] /\ received 2 rs = [sample_message [2; 5]].
Proof. do 2 eexists. split; [vm_compute; reflexivity|]. by vm_compute. Qed.
