(* ===== verification/Pipes.v ===== *)
(** * Pipes: what a socket may rely on

    The sockets of nanomsg use the pipes of their connections through
    [PipeOps] (Pipeline).  [PipeLaws] says what they rely on: a pipe that can
    take a message takes it, one that has messages gives them.  The load
    balancer and the fair queue keep the pipes that can; for any pipes with
    these laws they send to one of them, and receive from one of them. *)
From S2P Require Import Prelude.
From S2P Require Import NnList Msgqueue Inproc Pipeline.

(** [can_out], [can_in]: a send, a receive is possible; [arrived]: a message waits
    to be received; [waits]: how many do *)
Class PipeLaws (P : Type) `{PipeOps P} := {
  can_out : P -> Z -> Prop;
  can_in : P -> Z -> Prop;
  arrived : P -> nn_msg -> Prop;
  waits : P -> nat;
  send_law ps a m :
    can_out ps a ->
    exists rc ps', pipe_send a m ps = Done (rc, ps') /\ (rc = 0 /\ can_out ps' a \/ rc = NN_PIPE_RELEASE) /\
      (forall b, b <> a -> can_out ps b -> can_out ps' b) /\ (forall b, can_in ps b -> can_in ps' b) /\
      (forall x, arrived ps' x -> arrived ps x) /\ waits ps' = waits ps;
  recv_law ps a :
    can_in ps a ->
    exists rc m ps', pipe_recv a ps = Done (rc, m, ps') /\ 0 <= rc < 4 /\ (Z.testbit rc 0 = false -> can_in ps' a) /\
      (Z.testbit rc 1 = false -> msg_hdr m = []) /\
      (forall b, b <> a -> can_in ps b -> can_in ps' b) /\ (forall b, can_out ps b -> can_out ps' b) /\
      arrived ps m /\ (forall x, arrived ps' x -> arrived ps x) /\ (waits ps' < waits ps)%nat
}.

(** ** The pipes in a prioritised list satisfy [Q] *)
Record ringed (p : nn_priolist) (rs : list ring) (Q : Z -> Prop) : Prop := {
  rg_prep : prep p rs;
  rg_data : forall a d, pl_data p !! a = Some d -> pd_pipe d = a /\ 1 <= pd_priority d <= NN_PRIOLIST_SLOTS;
  rg_in : forall a, in_rings rs a -> is_Some (pl_data p !! a) /\ Q a;
  rg_loose : forall a d, pl_data p !! a = Some d -> ~ in_rings rs a -> loose (pl_items p) a
}.
Lemma ringed_mono p rs (Q R : Z -> Prop) : (forall a, in_rings rs a -> Q a -> R a) -> ringed p rs Q -> ringed p rs R.
Proof. intros Hqr [H1 H2 H3 H4]. constructor; [done|done| |done]. intros a Ha. destruct (H3 a Ha). split; auto. Qed.
Lemma ringed_init h Q : ringed (nn_priolist_init h ∅) no_rings Q.
Proof.
  constructor; cbn [nn_priolist_init pl_data]; [| |intros a (i & r & Hi & Hr)|]; try (intros ? ? Hd; by rewrite lookup_empty in Hd).
  - constructor; cbn [nn_priolist_init pl_slots pl_current pl_items pl_data].
    + apply Forall2_same_length_lookup_2; [by rewrite !length_replicate|]. intros i s r Hs Hr. apply lookup_replicate in Hs as [-> _]. rewrite (no_rings_empty i r Hr).
      split; [|done]. by apply list_init_ok.
    + done.
    + intros i j r r' d Hi _ Hd _. rewrite (no_rings_empty i r Hi) in Hd. by apply elem_of_nil in Hd.
    + intros i r d Hi Hd. rewrite (no_rings_empty i r Hi) in Hd. by apply elem_of_nil in Hd.
    + rewrite first_slot_none_intro; [done|]. intros j r Hj. by rewrite (no_rings_empty j r Hj).
  - rewrite (no_rings_empty i r Hi) in Hr. by apply elem_of_nil in Hr.
Qed.
Lemma ringed_add p rs Q a prio :
  ringed p rs Q -> pl_data p !! a = None -> 1 <= prio <= NN_PRIOLIST_SLOTS -> ringed (nn_priolist_add a a prio p) rs Q.
Proof.
  intros [H1 H2 H3 H4] Hn Hprio.
  assert (Hout : ~ in_rings rs a) by (intros Hr; destruct (H3 a Hr) as [[x Hx] _]; congruence).
  destruct (add_ok p rs a a prio H1 Hout) as (Hp & Hl & Hlo). constructor; [done|..]; cbn [nn_priolist_add pl_data].
  - intros b d Hd. apply lookup_insert_Some in Hd as [[-> <-]|[_ Hd]]; [done|by apply H2].
  - intros b Hb. destruct (H3 b Hb) as [Hs Hq]. split; [|done]. rewrite lookup_insert_ne; [done|]. by intros ->.
  - intros b d Hd Hb. apply lookup_insert_Some in Hd as [[<- <-]|[Hne Hd]]; [done|]. apply Hlo; [done|]. by eapply H4.
Qed.
Lemma ringed_activate p rs (Q : Z -> Prop) a :
  ringed p rs Q -> is_Some (pl_data p !! a) -> ~ in_rings rs a -> Q a ->
  exists p' rs', nn_priolist_activate a p = Done p' /\ ringed p' rs' Q /\ pl_data p' = pl_data p /\ (forall b, in_rings rs' b <-> in_rings rs b \/ b = a).
Proof.
  intros [H1 H2 H3 H4] [x Hx] Hn Hq. destruct (H2 a x Hx) as [Hpipe Hprio]. pose proof (pp_len _ _ H1) as Hlen.
  destruct (lookup_lt_is_Some_2 rs (Z.to_nat (pd_priority x - 1))) as [r Hr]; [lia|].
  destruct (activate_ok p rs _ r a x H1 Hr Hx) as (p' & Ha & Hp' & Hd & Hlo); [lia|by eapply H4| |].
  { intros j r0 Hj Hin. apply Hn. by exists j, r0. }
  assert (Hiff : forall b, in_rings (<[Z.to_nat (pd_priority x - 1) := r_add a r]> rs) b <-> in_rings rs b \/ b = a) by (intros b; by apply in_rings_add).
  eexists p', _. split; [done|]. split; [|done]. constructor; [done|..]; rewrite Hd; [done|..].
  - intros b Hb. apply Hiff in Hb as [Hb| ->]; [by apply H3|by eauto].
  - intros b d Hbd Hb. apply Hlo; [eapply H4; [done|]|]; rewrite Hiff in Hb; tauto.
Qed.
Lemma in_rings_keep rs x : in_rings (a_advance false rs) x <-> in_rings rs x.
Proof.
  unfold a_advance. destruct (first_slot rs) as [[i r]|] eqn:Hf; [|done]. pose proof (first_slot_some _ _ _ Hf) as (Hi & _).
  assert (Hall : r_all (r_advance false r) = r_all r).
  { unfold r_advance. destruct (r_after r) as [|d a] eqn:Ea; [done|]. rewrite wrapped_all. unfold r_all. by rewrite Ea, <- app_assoc. }
  split; intros (j & r1 & Hj & Hx).
  - destruct (decide (j = i)) as [->|Hne]; [|rewrite list_lookup_insert_ne in Hj by done; by exists j, r1].
    rewrite list_lookup_insert_eq in Hj by (by eapply lookup_lt_Some). injection Hj as <-. rewrite Hall in Hx. by exists i, r.
  - destruct (decide (j = i)) as [->|Hne]; [|exists j, r1; by rewrite list_lookup_insert_ne].
    simplify_eq. exists i, (r_advance false r). rewrite list_lookup_insert_eq, Hall by (by eapply lookup_lt_Some). done.
Qed.
(** The turn passes on; a pipe that is done leaves the rings. *)
Lemma ringed_advance p rs (Q R : Z -> Prop) d release :
  ringed p rs Q -> a_current rs = Some d -> (forall b, b <> d -> Q b -> R b) -> (release = false -> R d) ->
  exists p' rs', nn_priolist_advance release p = Done p' /\ ringed p' rs' R /\ pl_data p' = pl_data p /\ (forall b, in_rings rs' b <-> in_rings rs b /\ (release = true -> b <> d)).
Proof.
  intros [H1 H2 H3 H4] Hcur Hqr Hr. destruct (current_in rs d Hcur) as (i & r & a & Hf & Ha & Hd).
  destruct (advance_ok release p rs i r d a H1 Hf Ha) as (p' & Hadv & Hp' & Hdata & Hloose & Hlo).
  assert (Hiff : forall b, in_rings (a_advance release rs) b <-> in_rings rs b /\ (release = true -> b <> d)).
  { intros b. destruct release; [rewrite (in_rings_release p rs i r d a b) by done|rewrite in_rings_keep]; naive_solver. }
  eexists p', _. split; [done|]. split; [|done]. constructor; [done|..]; rewrite Hdata; [done|..].
  - intros b Hb. apply Hiff in Hb as [Hb Hne]. destruct (H3 b Hb) as [Hs Hq]. split; [done|].
    destruct (decide (b = d)) as [->|Hbd]; [|auto]. destruct release; [by destruct Hne|auto].
  - intros b x Hbx Hb. rewrite Hiff in Hb. destruct (decide (b = d)) as [->|Hbd].
    + destruct release; [by apply Hloose|]. exfalso. apply Hb. done.
    + apply Hlo. eapply H4; [done|]. tauto.
Qed.
Lemma ringed_getpipe p rs Q :
  ringed p rs Q ->
  match a_current rs with
  | None => nn_priolist_getpipe p = Done None /\ forall b, ~ in_rings rs b
  | Some d => nn_priolist_getpipe p = Done (Some (d, d)) /\ in_rings rs d /\ Q d
  end.
Proof.
  intros [H1 H2 H3 _]. pose proof (getpipe_ok p rs H1) as Hg. destruct (a_current rs) as [d|] eqn:E.
  - destruct Hg as (x & Hx & ->). destruct (H2 d x Hx) as [-> _]. destruct (current_in rs d E) as (_ & _ & _ & _ & _ & Hd). split; [done|]. split; [done|]. by apply H3.
  - split; [done|]. intros b. by apply (current_none p).
Qed.

Section laws.
Context {P : Type} `{PipeLaws P}.
(** Between uses, pipes only become more able. *)
Definition abler (ps ps' : P) : Prop := (forall a, can_out ps a -> can_out ps' a) /\ (forall a, can_in ps a -> can_in ps' a).
Lemma lb_send_ok p rs ps m :
  ringed p rs (can_out ps) ->
  exists rc p' ps' rs', nn_lb_send m (p, ps) = Done (rc, (p', ps')) /\ ringed p' rs' (can_out ps') /\ pl_data p' = pl_data p /\
    (forall b, can_in ps b -> can_in ps' b) /\ (forall x, arrived ps' x -> arrived ps x) /\ waits ps' = waits ps /\
    (rc = - EAGAIN /\ ps' = ps /\ (forall b, ~ in_rings rs b) \/
     rc = 0 /\ exists a fl, in_rings rs a /\ pipe_send a m ps = Done (fl, ps')).
Proof.
  intros Hr. pose proof (ringed_getpipe _ _ _ Hr) as Hg. unfold nn_lb_send. destruct (a_current rs) as [d|] eqn:Ecur.
  2: { destruct Hg as [-> Hno]. exists (- EAGAIN), p, ps, rs. split_and!; auto. }
  destruct Hg as (-> & Hd & Hq). cbn [obind]. destruct (send_law ps d m Hq) as (rc & ps' & Hs & Hrc & Hb & Hi & Har & Hw). rewrite Hs. cbn [obind].
  destruct (ringed_advance p rs (can_out ps) (can_out ps') d (Z.testbit rc 0) Hr Ecur Hb) as (p' & rs' & Hadv & Hr' & Hdata & _).
  { intros Hf. destruct Hrc as [[_ Ho]| ->]; [done|]. discriminate. }
  assert (E : (0 <=? rc) = true /\ Z.ldiff rc NN_PIPE_RELEASE = 0) by (destruct Hrc as [[-> _]| ->]; done). destruct E as [-> E].
  cbn [nn_assert obind]. rewrite Hadv. cbn [obind]. rewrite E. exists 0, p', ps', rs'. split_and!; try done. right. eauto.
Qed.
Lemma fq_recv_ok p rs ps :
  ringed p rs (can_in ps) ->
  exists rc r p' ps' rs', nn_fq_recv (p, ps) = Done (rc, r, (p', ps')) /\ ringed p' rs' (can_in ps') /\ pl_data p' = pl_data p /\
    (forall b, can_out ps b -> can_out ps' b) /\ (forall x, arrived ps' x -> arrived ps x) /\
    match r with
    | None => rc = - EAGAIN /\ ps' = ps /\ p' = p /\ (forall b, ~ in_rings rs b)
    | Some (m, a) => (rc = 0 /\ msg_hdr m = [] \/ rc = 2) /\ arrived ps m /\ (waits ps' < waits ps)%nat /\ in_rings rs a /\
        (forall b, in_rings rs' b -> in_rings rs b) /\ exists fl, pipe_recv a ps = Done (fl, m, ps')
    end.
Proof.
  intros Hr. pose proof (ringed_getpipe _ _ _ Hr) as Hg. unfold nn_fq_recv. destruct (a_current rs) as [d|] eqn:Ecur.
  2: { destruct Hg as [-> Hno]. exists (- EAGAIN), None, p, ps, rs. split_and!; auto. }
  destruct Hg as (-> & Hd & Hq). cbn [obind]. destruct (recv_law ps d Hq) as (rc & m & ps' & Hs & Hrc & Hk & Hp & Hb & Ho & Ha & Har & Hw). rewrite Hs. cbn [obind].
  destruct (ringed_advance p rs (can_in ps) (can_in ps') d (Z.testbit rc 0) Hr Ecur Hb Hk) as (p' & rs' & Hadv & Hr' & Hdata & Hiff).
  rewrite (proj2 (Z.leb_le _ _)) by lia. cbn [nn_assert obind]. rewrite Hadv. cbn [obind]. eexists _, _, p', ps', rs'. split; [done|].
  split; [done|]. split; [done|]. split; [done|]. split; [done|]. split; [|split_and!; try done; [intros b Hin; by apply Hiff|eauto]].
  assert (Hcase : rc = 0 \/ rc = 1 \/ rc = 2 \/ rc = 3) by lia. destruct Hcase as [->|[->|[->| ->]]]; cbn in *; auto.
Qed.
End laws.

(** ** Pipes that are lists: what has arrived on each, and what was sent *)
Record mailboxes := { mb_in : gmap Z (list nn_msg); mb_out : list (Z * nn_msg) }.
#[export] Instance mailbox_pipes : PipeOps mailboxes := {|
  pipe_send a m ps := Done (0, {| mb_in := mb_in ps; mb_out := mb_out ps ++ [(a, m)] |});
  pipe_recv a ps :=
    match mb_in ps !! a with
    | Some (m :: l) => Done (if bool_decide (l = []) then 3 else 2, m, {| mb_in := <[a := l]> (mb_in ps); mb_out := mb_out ps |})
    | _ => Fault UseAfterFree
    end
|}.
Definition all_waiting (ps : mailboxes) : nat := map_fold (fun _ l n => (length l + n)%nat) O (mb_in ps).
Lemma all_waiting_insert ps a m l : mb_in ps !! a = Some (m :: l) -> (all_waiting {| mb_in := <[a := l]> (mb_in ps); mb_out := mb_out ps |} < all_waiting ps)%nat.
Proof.
  intros Ha. unfold all_waiting. cbn [mb_in]. rewrite <- (insert_id _ _ _ Ha) at 2. rewrite <- insert_delete_eq, <- (insert_delete_eq (mb_in ps) a (m :: l)).
  rewrite !map_fold_insert_L; [|lia..|apply lookup_delete_eq| |apply lookup_delete_eq]; cbn; lia.
Qed.
#[export] Instance mailbox_laws : PipeLaws mailboxes.
Proof.
  refine {| can_out := fun _ _ => True; can_in := fun ps a => exists m l, mb_in ps !! a = Some (m :: l);
            arrived := fun ps x => exists a l, mb_in ps !! a = Some l /\ x ∈ l; waits := all_waiting |}.
  - intros ps a m _. do 2 eexists. split; [reflexivity|]. split; [by left|]. done.
  - intros ps a (m & l & Ha). cbn [pipe_recv mailbox_pipes]. rewrite Ha. do 3 eexists. split; [reflexivity|].
    split; [case_bool_decide; lia|]. split; [|split; [by case_bool_decide|]].
    { case_bool_decide; [done|]. intros _. cbn [mb_in]. destruct l as [|m' l]; [done|]. exists m', l. apply lookup_insert_eq. }
    split; [intros b Hb (m' & l' & Hl); exists m', l'; cbn [mb_in]; by rewrite lookup_insert_ne|]. split; [done|].
    split; [exists a, (m :: l); split; [done|left]|]. split; [|by apply all_waiting_insert with m].
    intros x (b & l' & Hb & Hx). cbn [mb_in] in Hb. apply lookup_insert_Some in Hb as [[<- <-]|[_ Hb]]; [exists a, (m :: l); split; [done|by right]|by exists b, l'].
Defined.
