(* ===== verification/Req.v ===== *)
(** * Req: requests with an answer (lib/nanomsg/src/protocols/reqrep/xreq.c,
    req.c; aio/timer.c)

    A raw request socket sends through a load balancer and receives through a
    fair queue; the request socket on top of it keeps the request, sends it again
    when no answer comes in time, and gives the answer to the user.  Its timer
    runs in a worker thread: starting and stopping it are tasks for that thread,
    and the socket is told when it has expired and when it has stopped.  The
    events a timer raises are processed before anything else (nn_ctx_leave).

    The place of a message in the socket remembers whether the message has been
    terminated: ending it again frees its chunks twice, if it has any; messages
    below 32 bytes have none and stay readable. *)
From S2P Require Import Prelude.
From S2P Require Import NnList Msgqueue Inproc Pipeline Chunk Trie PubSub Pipes.

Definition NN_PIPE_PARSED : Z := 2.
Definition EFSM : Z := 156384712 + 54.

(** ** Places of messages *)
Record mslot := { sl_msg : nn_msg; sl_live : bool }.
Definition no_msg : nn_msg := {| msg_hdr := []; msg_body := [] |}.
Definition filled (m : nn_msg) : mslot := {| sl_msg := m; sl_live := true |}.
Definition has_chunk (m : nn_msg) : bool := (NN_CHUNKREF_MAX <=? lenZ (msg_hdr m)) || (NN_CHUNKREF_MAX <=? lenZ (msg_body m)).
Definition slot_term (s : mslot) : outcome mslot :=
  if sl_live s then Done {| sl_msg := sl_msg s; sl_live := false |}
  else if has_chunk (sl_msg s) then Fault UseAfterFree else Done s.
Definition slot_take (s : mslot) : outcome nn_msg :=
  if negb (sl_live s) && has_chunk (sl_msg s) then Fault UseAfterFree else Done (sl_msg s).

(** ** The timer *)
Inductive timer_state := TIMER_IDLE | TIMER_ACTIVE | TIMER_STOPPING.
#[export] Instance timer_state_eq_dec : EqDecision timer_state.
Proof. solve_decision. Defined.
Inductive timer_task := START_TASK | STOP_TASK.
(** What it tells its owner *)
Inductive timer_event := NN_TIMER_TIMEOUT | NN_TIMER_STOPPED.
(** [tm_tasks] are the tasks the worker has yet to execute; [tm_armed] says
    whether the timer is in the worker's set. *)
Record nn_timer := { tm_fsm : fsm_state; tm_state : timer_state; tm_timeout : Z; tm_tasks : list timer_task; tm_armed : bool }.
Definition nn_timer_init : nn_timer := {| tm_fsm := FSM_IDLE; tm_state := TIMER_IDLE; tm_timeout := -1; tm_tasks := []; tm_armed := false |}.
Definition nn_timer_isidle (t : nn_timer) : bool := bool_decide (tm_fsm t = FSM_IDLE).
Definition nn_timer_start (timeout : Z) (t : nn_timer) : outcome nn_timer :=
  olet! _ := nn_assert (0 <=? timeout) in
  olet! _ := nn_assert (nn_timer_isidle t) in
  olet! _ := nn_assert (bool_decide (tm_state t = TIMER_IDLE)) in
  Done {| tm_fsm := FSM_ACTIVE; tm_state := TIMER_ACTIVE; tm_timeout := timeout; tm_tasks := tm_tasks t ++ [START_TASK]; tm_armed := tm_armed t |}.
Definition nn_timer_stop (t : nn_timer) : nn_timer :=
  if bool_decide (tm_fsm t = FSM_ACTIVE) then
    {| tm_fsm := FSM_STOPPING; tm_state := TIMER_STOPPING; tm_timeout := tm_timeout t; tm_tasks := tm_tasks t ++ [STOP_TASK]; tm_armed := tm_armed t |}
  else t.
(** The worker executes a task, or the time is over *)
Inductive worker_step := EXECUTE | EXPIRE.
Definition nn_timer_handler (w : worker_step) (t : nn_timer) : outcome (option timer_event * nn_timer) :=
  match w, tm_tasks t with
  | EXECUTE, [] => Done (None, t)
  | EXECUTE, task :: tasks =>
      let t := {| tm_fsm := tm_fsm t; tm_state := tm_state t; tm_timeout := tm_timeout t; tm_tasks := tasks; tm_armed := tm_armed t |} in
      match tm_state t, task with
      | TIMER_STOPPING, START_TASK => Done (None, t)
      | TIMER_STOPPING, STOP_TASK =>
          olet! _ := nn_assert (bool_decide (tm_fsm t = FSM_STOPPING)) in
          Done (Some NN_TIMER_STOPPED, {| tm_fsm := FSM_IDLE; tm_state := TIMER_IDLE; tm_timeout := tm_timeout t; tm_tasks := tasks; tm_armed := false |})
      | TIMER_ACTIVE, START_TASK =>
          olet! _ := nn_assert (0 <=? tm_timeout t) in
          Done (None, {| tm_fsm := tm_fsm t; tm_state := tm_state t; tm_timeout := -1; tm_tasks := tasks; tm_armed := true |})
      | _, _ => Fault AssertFailed
      end
  | EXPIRE, _ =>
      if tm_armed t then
        let t' := {| tm_fsm := tm_fsm t; tm_state := tm_state t; tm_timeout := tm_timeout t; tm_tasks := tm_tasks t; tm_armed := false |} in
        match tm_state t with
        | TIMER_STOPPING => Done (None, t')
        | TIMER_ACTIVE => olet! _ := nn_assert (tm_timeout t =? -1) in Done (Some NN_TIMER_TIMEOUT, t')
        | TIMER_IDLE => Fault AssertFailed
        end
      else Done (None, t)
  end.

(** ** The raw request socket; the data of pipe [a] is at address [a]. *)
Record nn_xreq := { xq_lb : nn_priolist; xq_fq : nn_priolist }.
Definition nn_xreq_init (h : lheap) : nn_xreq := {| xq_lb := nn_lb_init h ∅; xq_fq := nn_fq_init h ∅ |}.
Definition nn_xreq_term (x : nn_xreq) : outcome unit := olet! _ := nn_fq_term (xq_fq x) in nn_lb_term (xq_lb x).
Definition nn_xreq_add (a sndprio : Z) (x : nn_xreq) : nn_xreq :=
  {| xq_lb := nn_lb_add a a sndprio (xq_lb x); xq_fq := nn_fq_add a a 8 (xq_fq x) |}.
Definition nn_xreq_rm (a : Z) (x : nn_xreq) : outcome nn_xreq :=
  olet! lb := nn_lb_rm a (xq_lb x) in
  olet! fq := nn_fq_rm a (xq_fq x) in
  Done {| xq_lb := data_free a lb; xq_fq := data_free a fq |}.
Definition nn_xreq_in (a : Z) (x : nn_xreq) : outcome nn_xreq := olet! fq := nn_fq_in a (xq_fq x) in Done {| xq_lb := xq_lb x; xq_fq := fq |}.
Definition nn_xreq_out (a : Z) (x : nn_xreq) : outcome nn_xreq := olet! lb := nn_lb_out a (xq_lb x) in Done {| xq_lb := lb; xq_fq := xq_fq x |}.
Definition nn_xreq_events (x : nn_xreq) : Z :=
  Z.lor (if nn_fq_can_recv (xq_fq x) =? 0 then 0 else NN_SOCKBASE_EVENT_IN) (if nn_lb_can_send (xq_lb x) =? 0 then 0 else NN_SOCKBASE_EVENT_OUT).

Section req.
Context {P : Type} `{PipeOps P}.
Definition nn_xreq_send (m : nn_msg) (s : nn_xreq * P) : outcome (Z * (nn_xreq * P)) :=
  let '(x, ps) := s in
  olet! '(rc, (lb, ps)) := nn_lb_send m (xq_lb x, ps) in
  let s := ({| xq_lb := lb; xq_fq := xq_fq x |}, ps) in
  if rc =? - EAGAIN then Done (- EAGAIN, s)
  else olet! _ := nn_assert (0 <=? rc) in Done (0, s).
(** What has become of the place for the message: [None] if it is as it was *)
Definition nn_xreq_recv (s : nn_xreq * P) : outcome (Z * option mslot * (nn_xreq * P)) :=
  let '(x, ps) := s in
  olet! '(rc, r, (fq, ps)) := nn_fq_recv (xq_fq x, ps) in
  let s := ({| xq_lb := xq_lb x; xq_fq := fq |}, ps) in
  match r with
  | None => Done (rc, None, s)
  | Some (m, _) =>
      olet! _ := nn_assert (0 <=? rc) in
      if negb (Z.testbit rc 1) then
        if lenZ (msg_body m) <? 4 then
          olet! d := slot_term (filled m) in Done (- EAGAIN, Some d, s)
        else
          olet! _ := nn_assert (lenZ (msg_hdr m) =? 0) in
          Done (0, Some (filled {| msg_hdr := takeZ 4 (msg_body m); msg_body := dropZ 4 (msg_body m) |}), s)
      else Done (0, Some (filled m), s)
  end.

(** ** The request socket *)
Inductive req_state :=
  RQ_IDLE | RQ_PASSIVE | RQ_DELAYED | RQ_ACTIVE | RQ_TIMED_OUT | RQ_CANCELLING | RQ_STOPPING_TIMER | RQ_DONE | RQ_STOPPING.
#[export] Instance req_state_eq_dec : EqDecision req_state.
Proof. solve_decision. Defined.
Inductive req_action := RQ_STOP | RQ_START | RQ_IN | RQ_OUT | RQ_SENT | RQ_RECEIVED.
Definition NN_REQ_DEFAULT_RESEND_IVL : Z := 60000.
Record nn_req := { rq_xreq : nn_xreq; rq_fsm : fsm_state; rq_state : req_state; rq_reqid : Z; rq_request : mslot; rq_reply : mslot; rq_timer : nn_timer; rq_resend_ivl : Z }.
Definition to_state (st : req_state) (s : nn_req * P) : nn_req * P :=
  let '(r, ps) := s in
  ({| rq_xreq := rq_xreq r; rq_fsm := rq_fsm r; rq_state := st; rq_reqid := rq_reqid r; rq_request := rq_request r; rq_reply := rq_reply r; rq_timer := rq_timer r; rq_resend_ivl := rq_resend_ivl r |}, ps).
Definition set_timer (t : nn_timer) (s : nn_req * P) : nn_req * P :=
  let '(r, ps) := s in
  ({| rq_xreq := rq_xreq r; rq_fsm := rq_fsm r; rq_state := rq_state r; rq_reqid := rq_reqid r; rq_request := rq_request r; rq_reply := rq_reply r; rq_timer := t; rq_resend_ivl := rq_resend_ivl r |}, ps).
Definition set_reply (m : mslot) (s : nn_req * P) : nn_req * P :=
  let '(r, ps) := s in
  ({| rq_xreq := rq_xreq r; rq_fsm := rq_fsm r; rq_state := rq_state r; rq_reqid := rq_reqid r; rq_request := rq_request r; rq_reply := m; rq_timer := rq_timer r; rq_resend_ivl := rq_resend_ivl r |}, ps).
Definition set_xreq (x : nn_xreq) (ps : P) (s : nn_req * P) : nn_req * P :=
  let r := fst s in
  ({| rq_xreq := x; rq_fsm := rq_fsm r; rq_state := rq_state r; rq_reqid := rq_reqid r; rq_request := rq_request r; rq_reply := rq_reply r; rq_timer := rq_timer r; rq_resend_ivl := rq_resend_ivl r |}, ps).
Definition stop_timer (s : nn_req * P) : nn_req * P := set_timer (nn_timer_stop (rq_timer (fst s))) s.
Definition nn_req_inprogress (r : nn_req) : bool :=
  negb (bool_decide (rq_state r = RQ_IDLE) || bool_decide (rq_state r = RQ_PASSIVE) || bool_decide (rq_state r = RQ_STOPPING)).
Definition nn_req_action_send (s : nn_req * P) : outcome (nn_req * P) :=
  let '(r, ps) := s in
  olet! m := slot_take (rq_request r) in
  olet! '(rc, (x, ps)) := nn_xreq_send m (rq_xreq r, ps) in
  let s := set_xreq x ps s in
  if rc =? - EAGAIN then Done (to_state RQ_DELAYED s)
  else if rc =? 0 then
    olet! t := nn_timer_start (rq_resend_ivl r) (rq_timer r) in
    Done (to_state RQ_ACTIVE (set_timer t s))
  else Fault AssertFailed.
(** An event that the state does not expect fails [nn_assert (0)]. *)
Definition on_action (a : req_action) (s : nn_req * P) : outcome (nn_req * P) :=
  match rq_state (fst s), a with
  | RQ_IDLE, RQ_START => Done (to_state RQ_PASSIVE s)
  | RQ_PASSIVE, RQ_SENT => nn_req_action_send s
  | RQ_DELAYED, RQ_OUT => nn_req_action_send s
  | RQ_DELAYED, RQ_SENT => Done (to_state RQ_CANCELLING (stop_timer s))
  | RQ_ACTIVE, RQ_IN => Done (to_state RQ_STOPPING_TIMER (stop_timer s))
  | RQ_ACTIVE, RQ_SENT => Done (to_state RQ_CANCELLING (stop_timer s))
  | RQ_TIMED_OUT, RQ_SENT => Done (to_state RQ_CANCELLING s)
  | RQ_CANCELLING, RQ_SENT => Done s
  | RQ_STOPPING_TIMER, RQ_SENT => Done (to_state RQ_CANCELLING s)
  | RQ_DONE, RQ_RECEIVED => Done (to_state RQ_PASSIVE s)
  | RQ_DONE, RQ_SENT => nn_req_action_send s
  | _, _ => Fault AssertFailed
  end.
Definition on_timer (e : timer_event) (s : nn_req * P) : outcome (nn_req * P) :=
  match rq_state (fst s), e with
  | RQ_ACTIVE, NN_TIMER_TIMEOUT => Done (to_state RQ_TIMED_OUT (stop_timer s))
  | RQ_TIMED_OUT, NN_TIMER_STOPPED => nn_req_action_send s
  | RQ_CANCELLING, NN_TIMER_STOPPED => nn_req_action_send s
  | RQ_STOPPING_TIMER, NN_TIMER_STOPPED => Done (to_state RQ_DONE s)
  | _, _ => Fault AssertFailed
  end.
(** The end of the stop procedure: the machine is idle again *)
Definition req_stopped (s : nn_req * P) : outcome (nn_req * P) :=
  let '(r, ps) := s in
  if nn_timer_isidle (rq_timer r) then
    olet! _ := nn_assert (bool_decide (rq_fsm r = FSM_STOPPING)) in
    Done ({| rq_xreq := rq_xreq r; rq_fsm := FSM_IDLE; rq_state := RQ_IDLE; rq_reqid := rq_reqid r; rq_request := rq_request r; rq_reply := rq_reply r; rq_timer := rq_timer r; rq_resend_ivl := rq_resend_ivl r |}, ps)
  else Done s.
Definition nn_req_handler (e : req_action + timer_event) (s : nn_req * P) : outcome (nn_req * P) :=
  match e with
  | inl RQ_STOP => req_stopped (to_state RQ_STOPPING (stop_timer s))
  | inl a => if bool_decide (rq_state (fst s) = RQ_STOPPING) then req_stopped s else on_action a s
  | inr t => if bool_decide (rq_state (fst s) = RQ_STOPPING) then req_stopped s else on_timer t s
  end.
Definition with_fsm_req (f : fsm_state) (s : nn_req * P) : nn_req * P :=
  let '(r, ps) := s in
  ({| rq_xreq := rq_xreq r; rq_fsm := f; rq_state := rq_state r; rq_reqid := rq_reqid r; rq_request := rq_request r; rq_reply := rq_reply r; rq_timer := rq_timer r; rq_resend_ivl := rq_resend_ivl r |}, ps).
(** [reqid] is random. *)
Definition nn_req_init (h : lheap) (reqid : Z) (ps : P) : outcome (nn_req * P) :=
  let s := ({| rq_xreq := nn_xreq_init h; rq_fsm := FSM_IDLE; rq_state := RQ_IDLE; rq_reqid := reqid; rq_request := filled no_msg; rq_reply := filled no_msg; rq_timer := nn_timer_init; rq_resend_ivl := NN_REQ_DEFAULT_RESEND_IVL |}, ps) in
  olet! s := nn_req_handler (inl RQ_START) s in
  Done (with_fsm_req FSM_ACTIVE s).
Definition nn_req_term (s : nn_req * P) : outcome unit :=
  let '(r, ps) := s in
  olet! _ := nn_assert (bool_decide (tm_state (rq_timer r) = TIMER_IDLE)) in
  olet! _ := slot_term (rq_reply r) in
  olet! _ := slot_term (rq_request r) in
  olet! _ := nn_assert (bool_decide (rq_fsm r = FSM_IDLE)) in
  nn_xreq_term (rq_xreq r).
Definition nn_req_stop (s : nn_req * P) : outcome (nn_req * P) :=
  if bool_decide (rq_fsm (fst s) = FSM_ACTIVE) then nn_req_handler (inl RQ_STOP) (with_fsm_req FSM_STOPPING s) else Done s.

(** Replies are read until there is none or one fits. *)
Fixpoint in_loop (fuel : nat) (s : nn_req * P) : outcome (nn_req * P) :=
  olet! '(rc, m, (x, ps)) := nn_xreq_recv (rq_xreq (fst s), snd s) in
  let s := set_xreq x ps s in
  let s := match m with Some m => set_reply m s | None => s end in
  if rc =? - EAGAIN then Done s
  else
    olet! _ := nn_assert (rc =? 0) in
    let drop s := (match fuel with
                   | O => Fault OutOfFuel
                   | S fuel => olet! d := slot_term (rq_reply (fst s)) in in_loop fuel (set_reply d s)
                   end) in
    let hdr := msg_hdr (sl_msg (rq_reply (fst s))) in
    if negb (nn_req_inprogress (fst s)) then drop s
    else if negb (lenZ hdr =? 4) then drop s
    else
      olet! reqid := nn_getl hdr 0 in
      if negb (Z.testbit reqid 31) then drop s
      else if negb (reqid =? Z.lor (rq_reqid (fst s)) 0x80000000) then drop s
      else
        let s := set_reply (filled {| msg_hdr := []; msg_body := msg_body (sl_msg (rq_reply (fst s))) |}) s in
        if bool_decide (rq_state (fst s) = RQ_ACTIVE) then nn_req_handler (inl RQ_IN) s else Done s.
Definition nn_req_in (fuel : nat) (a : Z) (s : nn_req * P) : outcome (nn_req * P) :=
  olet! x := nn_xreq_in a (rq_xreq (fst s)) in in_loop fuel (set_xreq x (snd s) s).
Definition nn_req_out (a : Z) (s : nn_req * P) : outcome (nn_req * P) :=
  olet! x := nn_xreq_out a (rq_xreq (fst s)) in
  let s := set_xreq x (snd s) s in
  if bool_decide (rq_state (fst s) = RQ_DELAYED) then nn_req_handler (inl RQ_OUT) s else Done s.
Definition nn_req_events (s : nn_req * P) : Z :=
  Z.lor NN_SOCKBASE_EVENT_OUT (if bool_decide (rq_state (fst s) = RQ_DONE) then NN_SOCKBASE_EVENT_IN else 0).
Definition nn_req_send (m : nn_msg) (s : nn_req * P) : outcome (Z * (nn_req * P)) :=
  let '(r, ps) := s in
  let reqid := u32 (rq_reqid r + 1) in
  olet! _ := nn_assert (lenZ (msg_hdr m) =? 0) in
  olet! hdr := nn_putl (zeros 4) 0 (Z.lor reqid 0x80000000) in
  olet! _ := slot_term (rq_request r) in
  let s := ({| rq_xreq := rq_xreq r; rq_fsm := rq_fsm r; rq_state := rq_state r; rq_reqid := reqid; rq_request := filled {| msg_hdr := hdr; msg_body := msg_body m |};
               rq_reply := rq_reply r; rq_timer := rq_timer r; rq_resend_ivl := rq_resend_ivl r |}, ps) in
  olet! s := nn_req_handler (inl RQ_SENT) s in
  Done (0, s).
Definition nn_req_recv (s : nn_req * P) : outcome (Z * option nn_msg * (nn_req * P)) :=
  if negb (nn_req_inprogress (fst s)) then Done (- EFSM, None, s)
  else if negb (bool_decide (rq_state (fst s) = RQ_DONE)) then Done (- EAGAIN, None, s)
  else
    olet! m := slot_take (rq_reply (fst s)) in
    olet! s := nn_req_handler (inl RQ_RECEIVED) (set_reply (filled no_msg) s) in
    Done (0, Some m, s).
Definition NN_REQ : Z := 3 * 16 + 0.
Definition NN_REQ_RESEND_IVL : Z := 1.
Definition nn_req_setopt (level option optvallen value : Z) (s : nn_req * P) : Z * (nn_req * P) :=
  let '(r, ps) := s in
  if negb (level =? NN_REQ) then (- ENOPROTOOPT, s)
  else if option =? NN_REQ_RESEND_IVL then
    if negb (optvallen =? 4) then (- EINVAL, s)
    else (0, ({| rq_xreq := rq_xreq r; rq_fsm := rq_fsm r; rq_state := rq_state r; rq_reqid := rq_reqid r; rq_request := rq_request r; rq_reply := rq_reply r; rq_timer := rq_timer r; rq_resend_ivl := value |}, ps))
  else (- ENOPROTOOPT, s).
(** The result, the value and its length *)
Definition nn_req_getopt (level option optvallen : Z) (s : nn_req * P) : Z * Z * Z :=
  if negb (level =? NN_REQ) then (- ENOPROTOOPT, 0, optvallen)
  else if option =? NN_REQ_RESEND_IVL then
    if optvallen <? 4 then (- EINVAL, 0, optvallen) else (0, rq_resend_ivl (fst s), 4)
  else (- ENOPROTOOPT, 0, optvallen).
(** The worker of the timer takes a step, and what it raises is handled. *)
Definition timer_step (w : worker_step) (s : nn_req * P) : outcome (nn_req * P) :=
  olet! '(e, t) := nn_timer_handler w (rq_timer (fst s)) in
  let s := set_timer t s in
  match e with None => Done s | Some e => nn_req_handler (inr e) s end.
End req.

(** ** The timer between two events *)
Definition t_idle (t : nn_timer) : Prop := tm_fsm t = FSM_IDLE /\ tm_state t = TIMER_IDLE /\ tm_tasks t = [] /\ tm_armed t = false.
Definition t_active (t : nn_timer) : Prop :=
  tm_fsm t = FSM_ACTIVE /\ tm_state t = TIMER_ACTIVE /\
  (tm_tasks t = [START_TASK] /\ 0 <= tm_timeout t /\ tm_armed t = false \/ tm_tasks t = [] /\ tm_timeout t = -1 /\ tm_armed t = true).
Definition t_expired (t : nn_timer) : Prop := tm_fsm t = FSM_ACTIVE /\ tm_state t = TIMER_ACTIVE /\ tm_tasks t = [].
Definition t_stopping (t : nn_timer) : Prop :=
  tm_fsm t = FSM_STOPPING /\ tm_state t = TIMER_STOPPING /\ (tm_tasks t = [START_TASK; STOP_TASK] \/ tm_tasks t = [STOP_TASK]).
Lemma timer_start_ok t v : t_idle t -> 0 <= v -> exists t', nn_timer_start v t = Done t' /\ t_active t'.
Proof.
  intros (E1 & E2 & E3 & E4) Hv. unfold nn_timer_start, nn_timer_isidle. rewrite E1, E2, E3, E4, (proj2 (Z.leb_le _ _)) by done. cbn. eexists. split; [done|].
  split; [done|]. split; [done|]. by left.
Qed.
Lemma timer_stop_active t : t_active t \/ t_expired t -> t_stopping (nn_timer_stop t).
Proof.
  unfold nn_timer_stop. intros [(E1 & E2 & [(E3 & _)|(E3 & _)])|(E1 & E2 & E3)]; rewrite E1, E3; cbn; (split; [done|split; [done|]]); auto.
Qed.
Lemma timer_stop_other t : t_idle t \/ t_stopping t -> nn_timer_stop t = t.
Proof. unfold nn_timer_stop. intros [(E1 & _)|(E1 & _)]; by rewrite E1. Qed.
Lemma timer_idle_step w t : t_idle t -> nn_timer_handler w t = Done (None, t).
Proof. intros (E1 & E2 & E3 & E4). unfold nn_timer_handler. destruct w; by rewrite ?E3, ?E4. Qed.
Lemma timer_active_step w t :
  t_active t -> exists e t', nn_timer_handler w t = Done (e, t') /\ (e = None /\ t_active t' \/ e = Some NN_TIMER_TIMEOUT /\ t_expired t').
Proof.
  intros (E1 & E2 & [(E3 & E4 & E5)|(E3 & E4 & E5)]); unfold nn_timer_handler; destruct w; rewrite ?E2, ?E3, ?E5; cbn [tm_timeout tm_state];
    rewrite ?E2, ?E4, ?(proj2 (Z.leb_le _ _)) by done; cbn; do 2 eexists; (split; [done|]).
  - left. split; [done|]. split; [done|]. split; [done|]. by right.
  - left. split; [done|]. split; [done|]. split; [done|]. by left.
  - left. split; [done|]. split; [done|]. split; [done|]. by right.
  - by right.
Qed.
Lemma timer_stopping_step w t :
  t_stopping t -> exists e t', nn_timer_handler w t = Done (e, t') /\ (e = None /\ t_stopping t' \/ e = Some NN_TIMER_STOPPED /\ t_idle t').
Proof.
  intros (E1 & E2 & E3). unfold nn_timer_handler. destruct w.
  - destruct E3 as [E3|E3]; rewrite E3; cbn; rewrite E2; cbn; rewrite ?E1; do 2 eexists; (split; [done|]).
    + left. split; [done|]. split; [done|]. split; [done|]. by right.
    + by right.
  - rewrite E2. destruct (tm_armed t); do 2 eexists; (split; [done|]); left; done.
Qed.
Lemma t_idle_isidle t : t_idle t -> nn_timer_isidle t = true.
Proof. intros (E & _). unfold nn_timer_isidle. by rewrite E. Qed.
Lemma t_stopping_isidle t : t_stopping t -> nn_timer_isidle t = false.
Proof. intros (E & _). unfold nn_timer_isidle. by rewrite E. Qed.
Lemma not_loose p rs x : prep p rs -> in_rings rs x -> ~ loose (pl_items p) x.
Proof.
  intros Hp (i & r & Hi & Hx) Hl. destruct (slot_at_ok p rs i r Hp Hi) as (s & _ & [Hr _] & _).
  apply list_elem_of_split in Hx as (p1 & p2 & E). unfold loose in Hl. rewrite (lp_links _ _ _ Hr p1 x p2 E) in Hl. injection Hl as Hl _. by destruct (tlink_in p1).
Qed.

Section runs.
Context {P : Type} `{PipeLaws P}.

(** ** Events *)
Inductive rq_event :=
  | Eadd (a prio : Z)               (* a pipe is attached *)
  | Ein (a : Z)                     (* it has messages *)
  | Eout (a : Z)                    (* it can take one *)
  | Esend (m : nn_msg)
  | Erecv
  | Etimer (w : worker_step)
  | Eivl (v : Z)
  | Estop
  | Eworld (ps : P).                (* the other ends of the pipes act *)
Definition rq_do (e : rq_event) (s : nn_req * P) : outcome (option nn_msg * (nn_req * P)) :=
  let quiet r := olet! s := r in Done (None, s) in
  match e with
  | Eadd a prio => Done (None, set_xreq (nn_xreq_add a prio (rq_xreq (fst s))) (snd s) s)
  | Ein a => quiet (nn_req_in (waits (snd s)) a s)
  | Eout a => quiet (nn_req_out a s)
  | Esend m => olet! '(_, s) := nn_req_send m s in Done (None, s)
  | Erecv => olet! '(_, m, s) := nn_req_recv s in Done (m, s)
  | Etimer w => quiet (timer_step w s)
  | Eivl v => Done (None, snd (nn_req_setopt NN_REQ NN_REQ_RESEND_IVL 4 v s))
  | Estop => quiet (nn_req_stop s)
  | Eworld ps => Done (None, (fst s, ps))
  end.
(** The answer has been accepted and is not yet with the user. *)
Definition answer_kept (r : nn_req) : Prop := rq_state r = RQ_STOPPING_TIMER \/ rq_state r = RQ_DONE.
(** When an event can come: pipes are attached once, tell once that they can, and
    do nothing else in between; the messages that arrive are those of [A]; none
    is read while an answer is kept. *)
Definition allowed_event (A : nn_msg -> Prop) (e : rq_event) (s : nn_req * P) : Prop :=
  let x := rq_xreq (fst s) in
  match e with
  | Eadd a prio => pl_data (xq_lb x) !! a = None /\ pl_data (xq_fq x) !! a = None /\ 1 <= prio <= NN_PRIOLIST_SLOTS
  | Ein a => is_Some (pl_data (xq_fq x) !! a) /\ loose (pl_items (xq_fq x)) a /\ can_in (snd s) a /\ ~ answer_kept (fst s)
  | Eout a => is_Some (pl_data (xq_lb x) !! a) /\ loose (pl_items (xq_lb x)) a /\ can_out (snd s) a
  | Esend m => rq_fsm (fst s) = FSM_ACTIVE /\ msg_hdr m = []
  | Eivl v => 0 <= v
  | Eworld ps => abler (snd s) ps /\ forall m, arrived ps m -> A m
  | _ => True
  end.
Inductive rq_runs (A : nn_msg -> Prop) : nn_req * P -> list (rq_event * option nn_msg) -> nn_req * P -> Prop :=
  | runs_nil s : rq_runs A s [] s
  | runs_cons s e r s' l s'' : allowed_event A e s -> rq_do e s = Done (r, s') -> rq_runs A s' l s'' -> rq_runs A s ((e, r) :: l) s''.
(** A message that answers request [id] *)
Definition answers (id : Z) (b : bytes) (m : nn_msg) : Prop :=
  let hdr id h := lenZ h = 4 /\ be_val h = Z.lor id 0x80000000 in
  hdr id (msg_hdr m) /\ msg_body m = b \/ msg_hdr m = [] /\ exists h, hdr id h /\ msg_body m = h ++ b.
Definition in_sync (r : nn_req) : Prop :=
  match rq_state r with
  | RQ_PASSIVE | RQ_DELAYED | RQ_DONE => rq_fsm r = FSM_ACTIVE /\ t_idle (rq_timer r)
  | RQ_ACTIVE => rq_fsm r = FSM_ACTIVE /\ t_active (rq_timer r)
  | RQ_TIMED_OUT | RQ_STOPPING_TIMER => rq_fsm r = FSM_ACTIVE /\ t_stopping (rq_timer r)
  | RQ_CANCELLING => rq_fsm r = FSM_ACTIVE /\ (t_stopping (rq_timer r) \/ t_idle (rq_timer r))
  | RQ_STOPPING => rq_fsm r = FSM_STOPPING /\ t_stopping (rq_timer r)
  | RQ_IDLE => rq_fsm r = FSM_IDLE /\ t_idle (rq_timer r)
  end.
Definition answered (A : nn_msg -> Prop) (r : nn_req) : Prop :=
  answer_kept r -> sl_live (rq_reply r) = true /\ msg_hdr (sl_msg (rq_reply r)) = [] /\ exists m, A m /\ answers (rq_reqid r) (msg_body (sl_msg (rq_reply r))) m.
(** The raw socket and the pipes *)
Definition raw_ok (A : nn_msg -> Prop) (x : nn_xreq) (ps : P) : Prop :=
  (exists lo, ringed (xq_lb x) lo (can_out ps)) /\ (exists li, ringed (xq_fq x) li (can_in ps)) /\ forall m, arrived ps m -> A m.
Record rq_ok (A : nn_msg -> Prop) (s : nn_req * P) : Prop := {
  qo_raw : raw_ok A (rq_xreq (fst s)) (snd s);
  qo_ivl : 0 <= rq_resend_ivl (fst s);
  qo_request : sl_live (rq_request (fst s)) = true;
  qo_sync : in_sync (fst s);
  qo_answer : answered A (fst s)
}.
Lemma xreq_send_ok A x ps m :
  raw_ok A x ps ->
  exists rc x' ps', nn_xreq_send m (x, ps) = Done (rc, (x', ps')) /\ raw_ok A x' ps' /\ (rc = - EAGAIN \/ rc = 0).
Proof.
  intros ([lo Hlo] & [li Hli] & Ha). unfold nn_xreq_send. destruct (lb_send_ok _ _ _ m Hlo) as (rc & lb & ps' & lo' & -> & Hlo' & _ & Hin & Har & _ & Hrc). cbn [obind].
  assert (Hraw : raw_ok A {| xq_lb := lb; xq_fq := xq_fq x |} ps').
  { split; [by exists lo'|]. split; [exists li; eapply ringed_mono, Hli; auto|auto]. }
  destruct Hrc as [(-> & _)|(-> & _)]; cbn; do 3 eexists; (split; [done|]); auto.
Qed.
Lemma xreq_recv_ok A x ps :
  raw_ok A x ps ->
  exists rc m x' ps', nn_xreq_recv (x, ps) = Done (rc, m, (x', ps')) /\ raw_ok A x' ps' /\
    (rc = - EAGAIN \/ rc = 0 /\ (waits ps' < waits ps)%nat /\ exists m0 r, m = Some (filled r) /\ A m0 /\
       (m0 = r \/ msg_hdr m0 = [] /\ msg_body m0 = msg_hdr r ++ msg_body r)).
Proof.
  intros ([lo Hlo] & [li Hli] & Ha). unfold nn_xreq_recv. destruct (fq_recv_ok _ _ _ Hli) as (rc & r & fq & ps' & li' & -> & Hli' & _ & Hout & Har & Hr). cbn [obind].
  assert (Hraw : raw_ok A {| xq_lb := xq_lb x; xq_fq := fq |} ps').
  { split; [exists lo; eapply ringed_mono, Hlo; auto|]. split; [by exists li'|auto]. }
  destruct r as [[m a]|]; [|destruct Hr as (-> & _); do 4 eexists; (split; [done|]); split; [done|by left]].
  destruct Hr as (Hrc & Hm & Hw & _). destruct Hrc as [(-> & Hh)| ->]; cbn [Z.leb Z.compare nn_assert obind].
  - change (negb (Z.testbit 0 1)) with true. cbn iota. destruct (Z.ltb_spec (lenZ (msg_body m)) 4) as [Hs|Hs]; [cbn; do 4 eexists; (split; [done|]); split; [done|by left]|].
    rewrite Hh. cbn [lenZ length Z.of_nat Z.eqb nn_assert obind]. do 4 eexists. split; [done|]. split; [done|]. right. split; [done|]. split; [done|].
    do 2 eexists. split; [done|]. split; [by apply Ha|]. right. split; [done|]. cbn. by rewrite takeZ_dropZ.
  - change (negb (Z.testbit 2 1)) with false. cbn iota. do 4 eexists. split; [done|]. split; [done|]. right. split; [done|]. split; [done|]. do 2 eexists. split; [done|]. split; [by apply Ha|by left].
Qed.
Lemma rq_ok_reply A s m : rq_ok A s -> ~ answer_kept (fst s) -> rq_ok A (set_reply m s).
Proof. destruct s as [r ps]. intros [H1 H2 H3 H4 H5] Hn. constructor; try done; intros Hk; by destruct Hn. Qed.
Lemma rq_ok_xreq A s x ps : rq_ok A s -> raw_ok A x ps -> rq_ok A (set_xreq x ps s).
Proof. destruct s as [r ps0]. intros [H1 H2 H3 H4 H5] Hr. by constructor. Qed.
(** Another state and another timer *)
Lemma rq_ok_timer A s st t :
  rq_ok A s -> ~ (st = RQ_STOPPING_TIMER \/ st = RQ_DONE) ->
  in_sync (fst (to_state st (set_timer t s))) -> rq_ok A (to_state st (set_timer t s)).
Proof. destruct s as [r ps]. intros [H1 H2 H3 H4 H5] Hn Hs. constructor; try done; intros Hk; by destruct Hn. Qed.
Lemma same_timer {st} (s : nn_req * P) : to_state st s = to_state st (set_timer (rq_timer (fst s)) s).
Proof. by destruct s. Qed.
Lemma action_send_ok A s :
  rq_ok A s -> rq_fsm (fst s) = FSM_ACTIVE -> t_idle (rq_timer (fst s)) ->
  exists s', nn_req_action_send s = Done s' /\ rq_ok A s' /\ rq_reqid (fst s') = rq_reqid (fst s).
Proof.
  intros Hok Hf Ht. destruct s as [r ps]. pose proof Hok as [Hraw Hivl Hreq _ _]. cbn [fst snd] in *. unfold nn_req_action_send, slot_take. rewrite Hreq. cbn [negb andb obind].
  destruct (xreq_send_ok A _ _ (sl_msg (rq_request r)) Hraw) as (rc & x & ps' & -> & Hraw' & Hrc). cbn [obind].
  pose proof (rq_ok_xreq A (r, ps) x ps' Hok Hraw') as Hok'. destruct Hrc as [-> | ->].
  - cbn [Z.eqb Z.opp EAGAIN Pos.eqb]. eexists. split; [done|]. split; [|done]. rewrite same_timer. apply rq_ok_timer; [done|intuition discriminate|done].
  - change (0 =? - EAGAIN) with false. cbn [Z.eqb]. destruct (timer_start_ok _ _ Ht Hivl) as (t & -> & Ht'). cbn [obind]. eexists. split; [done|]. split; [|done].
    apply rq_ok_timer; [done|intuition discriminate|done].
Qed.
Lemma req_stopped_ok A s :
  rq_ok A s \/ raw_ok A (rq_xreq (fst s)) (snd s) /\ 0 <= rq_resend_ivl (fst s) /\ sl_live (rq_request (fst s)) = true ->
  rq_state (fst s) = RQ_STOPPING -> rq_fsm (fst s) = FSM_STOPPING -> t_stopping (rq_timer (fst s)) \/ t_idle (rq_timer (fst s)) ->
  exists s', req_stopped s = Done s' /\ rq_ok A s' /\ rq_reqid (fst s') = rq_reqid (fst s).
Proof.
  intros Hok Hst Hf Ht. assert (Hb : raw_ok A (rq_xreq (fst s)) (snd s) /\ 0 <= rq_resend_ivl (fst s) /\ sl_live (rq_request (fst s)) = true) by (destruct Hok as [[? ? ? _ _]|?]; done).
  clear Hok. destruct Hb as (H1 & H2 & H3). destruct s as [r ps]. cbn [fst snd] in *. unfold req_stopped. destruct Ht as [Ht|Ht].
  - rewrite (t_stopping_isidle _ Ht). eexists. split; [done|]. split; [|done]. constructor; try done; unfold in_sync, answered, answer_kept; cbn [fst]; rewrite Hst; [done|].
    intros [|]; discriminate.
  - rewrite (t_idle_isidle _ Ht), Hf. cbn. eexists. split; [done|]. split; [|done]. constructor; try done; intros [|]; discriminate.
Qed.
(** A step keeps the invariant; an answer is right, and only a new request changes
    the ID. *)
Definition good_step (A : nn_msg -> Prop) (e : rq_event) (s : nn_req * P) (r : option nn_msg) (s' : nn_req * P) : Prop :=
  rq_ok A s' /\ rq_reqid (fst s') = match e with Esend _ => u32 (rq_reqid (fst s) + 1) | _ => rq_reqid (fst s) end /\
  match r with None => True | Some m => msg_hdr m = [] /\ exists m0, A m0 /\ answers (rq_reqid (fst s)) (msg_body m) m0 end.
(** The invariant in a state where only the timer may be new *)
Ltac keep_ok Est :=
  constructor; try done; unfold in_sync, answered, answer_kept; cbn [set_timer fst rq_state]; rewrite ?Est; try done; try (by auto); try (intros [|]; discriminate).
Lemma good_quiet A e s s' : rq_ok A s' -> rq_reqid (fst s') = rq_reqid (fst s) -> match e with Esend _ => False | _ => True end -> good_step A e s None s'.
Proof. intros Hok Hid He. split; [done|]. split; [by destruct e|done]. Qed.
(** What the socket does with an event that its state expects *)
Lemma handler_sent_ok A s :
  rq_ok A s \/ raw_ok A (rq_xreq (fst s)) (snd s) /\ 0 <= rq_resend_ivl (fst s) /\ sl_live (rq_request (fst s)) = true /\ in_sync (fst s) ->
  rq_fsm (fst s) = FSM_ACTIVE ->
  exists s', nn_req_handler (inl RQ_SENT) s = Done s' /\ rq_ok A s' /\ rq_reqid (fst s') = rq_reqid (fst s).
Proof.
  intros Hok Hf. destruct s as [r ps].
  assert (Hb : raw_ok A (rq_xreq r) ps /\ 0 <= rq_resend_ivl r /\ sl_live (rq_request r) = true /\ in_sync r) by (destruct Hok as [[? ? ? ? _]|?]; done).
  clear Hok. destruct Hb as (H1 & H2 & H3 & Hs). cbn [fst snd] in *.
  assert (Hpass : t_idle (rq_timer r) -> rq_ok A (to_state RQ_PASSIVE (r, ps))) by (intros Ht; constructor; try done; intros [|]; discriminate).
  assert (Hcan : forall t, t_stopping t \/ t_idle t -> rq_ok A (to_state RQ_CANCELLING (set_timer t (r, ps)))) by (intros t Ht; constructor; try done; intros [|]; discriminate).
  assert (Hsend : t_idle (rq_timer r) -> exists s', nn_req_action_send (r, ps) = Done s' /\ rq_ok A s' /\ rq_reqid (fst s') = rq_reqid r).
  { intros Ht. destruct (action_send_ok A (to_state RQ_PASSIVE (r, ps)) (Hpass Ht) Hf Ht) as (s' & E & Hs' & Hid).
    exists s'. split; [|done]. rewrite <- E. reflexivity. }
  unfold in_sync in Hs. unfold nn_req_handler, on_action. cbn [fst].
  destruct (rq_state r) eqn:Est; cbn [bool_decide decide]; rewrite ?bool_decide_false by done; try (destruct Hs as [Hs' _]; congruence).
  - apply Hsend, Hs.
  - eexists. split; [done|]. split; [|done]. apply Hcan. unfold stop_timer. cbn [fst]. rewrite timer_stop_other by tauto. right. tauto.
  - eexists. split; [done|]. split; [|done]. apply Hcan. left. apply timer_stop_active. tauto.
  - eexists. split; [done|]. split; [|done]. rewrite same_timer. apply Hcan. tauto.
  - eexists. split; [done|]. split; [|done]. keep_ok Est.
  - eexists. split; [done|]. split; [|done]. rewrite same_timer. apply Hcan. tauto.
  - apply Hsend, Hs.
Qed.
Lemma send_good A m s : rq_ok A s -> allowed_event A (Esend m) s -> exists r s', rq_do (Esend m) s = Done (r, s') /\ good_step A (Esend m) s r s'.
Proof.
  intros [H1 H2 H3 H4 H5] [Hf Hm]. destruct s as [r ps]. cbn [fst snd rq_do] in *. unfold nn_req_send. rewrite Hm. cbn [lenZ length Z.of_nat Z.eqb nn_assert obind].
  unfold nn_putl. change (blk_write (zeros 4) 0 (be_bytes 4 (Z.lor (u32 (rq_reqid r + 1)) 2147483648))) with (Done (be_bytes 4 (Z.lor (u32 (rq_reqid r + 1)) 2147483648))).
  unfold slot_term. rewrite H3. cbn [obind].
  match goal with |- context [nn_req_handler _ ?s] => destruct (handler_sent_ok A s) as (s' & E & Hok & Hid) end.
  - right. done.
  - done.
  - rewrite E. cbn [obind]. do 2 eexists. split; [done|]. split; [done|]. done.
Qed.
Lemma recv_good A s : rq_ok A s -> exists r s', rq_do Erecv s = Done (r, s') /\ good_step A Erecv s r s'.
Proof.
  intros Hok. destruct s as [r ps]. pose proof Hok as [H1 H2 H3 H4 H5]. cbn [fst snd rq_do] in *. unfold nn_req_recv. cbn [fst].
  destruct (nn_req_inprogress r); cbn [negb]; [|do 2 eexists; (split; [done|]); by apply good_quiet].
  case_bool_decide as Est; cbn [negb]; [|do 2 eexists; (split; [done|]); by apply good_quiet].
  destruct H5 as (Hl & Hh & m0 & Ha & Hm0); [by right|]. unfold slot_take. rewrite Hl. cbn [negb andb obind].
  unfold nn_req_handler, on_action. cbn [set_reply fst rq_state]. rewrite Est, bool_decide_false by done. cbn [obind].
  do 2 eexists. split; [done|]. split; [|split; [done|eauto]]. unfold in_sync in H4. rewrite Est in H4. constructor; try done; intros [|]; discriminate.
Qed.
(** The outcome is a good state, with the same ID *)
Definition goes (A : nn_msg -> Prop) (id : Z) (o : outcome (nn_req * P)) : Prop := exists s', o = Done s' /\ rq_ok A s' /\ rq_reqid (fst s') = id.
Lemma resend_goes A r ps t :
  rq_ok A (r, ps) -> t_idle t -> rq_fsm r = FSM_ACTIVE -> rq_state r = RQ_TIMED_OUT \/ rq_state r = RQ_CANCELLING ->
  goes A (rq_reqid r) (on_timer NN_TIMER_STOPPED (set_timer t (r, ps))).
Proof.
  intros [H1 H2 H3 _ _] Ht Hf Hst. assert (Hpass : rq_ok A (to_state RQ_PASSIVE (set_timer t (r, ps)))) by (constructor; try done; intros [|]; discriminate).
  destruct (action_send_ok A _ Hpass Hf Ht) as (s' & E & Hok' & Hid). exists s'. split; [|done]. unfold on_timer. cbn [set_timer fst rq_state]. rewrite <- E.
  destruct Hst as [-> | ->]; reflexivity.
Qed.
(** A state that waits for the timer to stop *)
Lemma waiting_goes A w r ps :
  t_stopping (rq_timer r) -> rq_state r <> RQ_STOPPING -> (forall t, t_stopping t -> rq_ok A (set_timer t (r, ps))) ->
  (forall t, t_idle t -> goes A (rq_reqid r) (on_timer NN_TIMER_STOPPED (set_timer t (r, ps)))) -> goes A (rq_reqid r) (timer_step w (r, ps)).
Proof.
  intros Ht Hst Hk Hn. unfold timer_step. cbn [fst]. destruct (timer_stopping_step w _ Ht) as (e & t & -> & [[-> Ht']|[-> Ht']]); cbn [obind].
  - eexists. split; [done|]. split; [by apply Hk|done].
  - unfold nn_req_handler. cbn [set_timer fst rq_state]. rewrite bool_decide_false by done. exact (Hn t Ht').
Qed.
Lemma timer_goes A w s : rq_ok A s -> goes A (rq_reqid (fst s)) (timer_step w s).
Proof.
  intros Hok. destruct s as [r ps]. pose proof Hok as [H1 H2 H3 H4 H5]. cbn [fst snd] in *.
  assert (Hsame : t_idle (rq_timer r) -> goes A (rq_reqid r) (timer_step w (r, ps))).
  { intros Ht. unfold timer_step. cbn [fst]. rewrite (timer_idle_step w _ Ht). cbn [obind]. eexists. split; [done|]. by destruct r. }
  unfold in_sync in H4. destruct (rq_state r) eqn:Est; destruct H4 as [Hf Ht]; try (by apply Hsame).
  - unfold timer_step. cbn [fst]. destruct (timer_active_step w _ Ht) as (e & t & -> & [[-> Ht']|[-> Ht']]); cbn [obind].
    + eexists. split; [done|]. split; [|done]. keep_ok Est.
    + unfold nn_req_handler, on_timer. cbn [set_timer fst rq_state]. rewrite Est, bool_decide_false by done. eexists. split; [done|]. split; [|done].
      pose proof (timer_stop_active t (or_intror Ht')). constructor; try done; intros [|]; discriminate.
  - apply waiting_goes; [done|congruence|intros t Ht'; keep_ok Est|]. intros t Ht'. by apply resend_goes; auto.
  - destruct Ht as [Ht|Ht]; [|by apply Hsame]. apply waiting_goes; [done|congruence|intros t Ht'; keep_ok Est|]. intros t Ht'. by apply resend_goes; auto.
  - apply waiting_goes; [done|congruence|intros t Ht'; keep_ok Est; intros _; apply H5; by left|].
    intros t Ht'. eexists. split; [unfold on_timer; cbn [set_timer fst rq_state]; by rewrite Est|]. split; [|done]. constructor; try done. intros _. apply H5. by left.
  - unfold timer_step. cbn [fst]. destruct (timer_stopping_step w _ Ht) as (e & t & -> & [[-> Ht']|[-> Ht']]); cbn [obind].
    + eexists. split; [done|]. split; [|done]. keep_ok Est.
    + unfold nn_req_handler. cbn [set_timer fst rq_state]. rewrite Est, bool_decide_true by done. apply req_stopped_ok; cbn [fst rq_state rq_fsm rq_timer]; auto.
Qed.
(** The machine is stopped. *)
Lemma stop_goes A s : rq_ok A s -> goes A (rq_reqid (fst s)) (nn_req_stop s).
Proof.
  intros Hok. destruct s as [r ps]. pose proof Hok as [H1 H2 H3 H4 H5]. cbn [fst snd] in *. unfold nn_req_stop. cbn [fst].
  case_bool_decide as Hf; [|by eexists]. unfold nn_req_handler.
  match goal with |- context [req_stopped ?s] => destruct (req_stopped_ok A s) as (s' & E & Hok' & Hid) end; [by right|done|done| |exists s'; done].
  cbn. unfold in_sync in H4. destruct (rq_state r); destruct H4 as [Hf' Ht]; try congruence; try (rewrite timer_stop_other by tauto; tauto); left; apply timer_stop_active; tauto.
Qed.
(** A pipe can take messages. *)
Lemma out_goes A a s : rq_ok A s -> allowed_event A (Eout a) s -> goes A (rq_reqid (fst s)) (nn_req_out a s).
Proof.
  intros Hok (Hd & Hl & Hc). destruct s as [r ps]. pose proof Hok as [((lo & Hlo) & Hfq & Har) H2 H3 H4 H5]. cbn [fst snd] in *.
  unfold nn_req_out, nn_xreq_out. cbn [fst snd]. assert (Hn : ~ in_rings lo a) by (intros Hr; by apply (not_loose _ _ _ (rg_prep _ _ _ Hlo) Hr)).
  destruct (ringed_activate _ _ _ a Hlo Hd Hn Hc) as (lb & lo' & Ea & Hlo' & _). unfold nn_lb_out. rewrite Ea. cbn [obind].
  assert (Hok' : rq_ok A (set_xreq {| xq_lb := lb; xq_fq := xq_fq (rq_xreq r) |} ps (r, ps))) by (apply rq_ok_xreq; [done|]; split; [by exists lo'|done]).
  unfold set_xreq in *. cbn [fst rq_state] in *. case_bool_decide as Est; [|by eexists]. unfold nn_req_handler, on_action. cbn [fst rq_state]. rewrite Est, bool_decide_false by done.
  unfold in_sync in H4. rewrite Est in H4. exact (action_send_ok A _ Hok' (proj1 H4) (proj2 H4)).
Qed.
(** Replies are read. *)
Lemma in_loop_goes A fuel : forall s, rq_ok A s -> ~ answer_kept (fst s) -> (waits (snd s) <= fuel)%nat -> goes A (rq_reqid (fst s)) (in_loop fuel s).
Proof.
  induction fuel as [|fuel IH]; intros s Hok Hn Hw; cbn [in_loop];
    destruct (xreq_recv_ok A _ _ (qo_raw _ _ Hok)) as (rc & m & x & ps' & -> & Hraw & Hcase); cbn [obind];
    pose proof (rq_ok_xreq A s x ps' Hok Hraw) as Hok'; destruct s as [r ps]; unfold set_xreq in *; cbn [fst snd] in *.
  all: set (r' := {| rq_xreq := x; rq_fsm := _; rq_state := _; rq_reqid := _; rq_request := _; rq_reply := _; rq_timer := _; rq_resend_ivl := _ |}) in *.
  all: destruct Hcase as [-> |(-> & Hless & m0 & ans & -> & Ha & Hm0)]; [rewrite Z.eqb_refl; destruct m as [m|]; (eexists; split; [done|]; split; [|done]); [by apply (rq_ok_reply A (r', ps'))|done]|].
  1: lia.
  change (0 =? - EAGAIN) with false. cbn [Z.eqb nn_assert obind set_reply fst rq_reply filled sl_msg sl_live rq_state rq_reqid].
  pose proof (rq_ok_reply A (r', ps') (filled ans) Hok' Hn) as Hok1. cbn [set_reply] in Hok1.
  assert (Hdrop : goes A (rq_reqid r) (olet! d := slot_term (filled ans) in in_loop fuel (set_reply d (set_reply (filled ans) (r', ps'))))).
  { cbn [slot_term filled sl_live obind]. apply (IH (set_reply _ (set_reply _ (r', ps')))); [by apply rq_ok_reply|done|cbn [set_reply snd]; lia]. }
  cbn [set_reply slot_term filled sl_live] in Hdrop |- *.
  destruct (nn_req_inprogress _) eqn:Hp; cbn [negb]; [|exact Hdrop]. destruct (Z.eqb_spec (lenZ (msg_hdr ans)) 4) as [Hlen|]; cbn [negb]; [|exact Hdrop].
  assert (Eget : nn_getl (msg_hdr ans) 0 = Done (be_val (msg_hdr ans))).
  { unfold nn_getl, blk_read. rewrite Hlen. change ((0 <=? 0) && (0 <=? 4) && (0 + 4 <=? 4)) with true. cbn [obind]. change (dropZ 0 (msg_hdr ans)) with (msg_hdr ans). by rewrite takeZ_all by lia. }
  rewrite Eget. cbn [obind]. destruct (Z.testbit _ 31); cbn [negb]; [|exact Hdrop]. destruct (Z.eqb_spec (be_val (msg_hdr ans)) (Z.lor (rq_reqid r') 2147483648)) as [Hid|]; cbn [negb]; [|exact Hdrop].
  set (good := filled {| msg_hdr := []; msg_body := msg_body ans |}). pose proof (rq_ok_reply A _ good Hok1 Hn) as Hok2. cbn [set_reply] in Hok2.
  case_bool_decide as Est; [|by eexists]. unfold nn_req_handler, on_action. cbn [fst rq_state]. rewrite Est, bool_decide_false by done. eexists. split; [done|]. split; [|done].
  pose proof (qo_sync _ _ Hok) as Hs. unfold in_sync in Hs. cbn [fst] in Hs. change (rq_state r') with (rq_state r) in Est. rewrite Est in Hs. destruct Hs as [Hf Ht].
  destruct Hok as [_ H2 H3 _ _]. constructor; try done; [split; [done|]; apply timer_stop_active; by left|].
  intros _. split; [done|]. split; [done|]. exists m0. split; [done|]. cbn. unfold answers. destruct Hm0 as [-> |[Eh Eb]]; [left; done|right; split; [done|]; exists (msg_hdr ans); done].
Qed.
Lemma add_good A a prio s : rq_ok A s -> allowed_event A (Eadd a prio) s -> rq_ok A (set_xreq (nn_xreq_add a prio (rq_xreq (fst s))) (snd s) s).
Proof.
  intros Hok (Hl & Hf & Hp). pose proof (qo_raw _ _ Hok) as ((lo & Hlo) & (li & Hli) & Har). apply rq_ok_xreq; [done|].
  split; [exists lo; by apply ringed_add|]. split; [exists li; by apply ringed_add|done].
Qed.
Lemma in_good A a s : rq_ok A s -> allowed_event A (Ein a) s -> goes A (rq_reqid (fst s)) (nn_req_in (waits (snd s)) a s).
Proof.
  intros Hok (Hd & Hl & Hc & Hn). pose proof (qo_raw _ _ Hok) as (Hlb & (li & Hli) & Har). unfold nn_req_in, nn_xreq_in.
  assert (Hout : ~ in_rings li a) by (intros Hr; by apply (not_loose _ _ _ (rg_prep _ _ _ Hli) Hr)).
  destruct (ringed_activate _ _ _ a Hli Hd Hout Hc) as (fq & li' & Ea & Hli' & _). unfold nn_fq_in. rewrite Ea. cbn [obind].
  apply (in_loop_goes A _ (set_xreq _ _ s)); [|done|done]. apply rq_ok_xreq; [done|]. split; [done|]. split; [by exists li'|done].
Qed.
Lemma step_good A e s : rq_ok A s -> allowed_event A e s -> exists r s', rq_do e s = Done (r, s') /\ good_step A e s r s'.
Proof.
  intros Hok Ha.
  assert (Hq : forall o, match e with Esend _ => False | _ => True end -> goes A (rq_reqid (fst s)) o -> exists r s', (olet! s := o in Done (None, s)) = Done (r, s') /\ good_step A e s r s').
  { intros o He (s' & -> & Hok' & Hid). do 2 eexists. split; [done|]. by apply good_quiet. }
  destruct e; cbn [rq_do].
  - do 2 eexists. split; [done|]. apply good_quiet; [by apply add_good|done|done].
  - apply Hq; [done|]. by apply in_good.
  - apply Hq; [done|]. by apply out_goes.
  - by apply send_good.
  - by apply recv_good.
  - apply Hq; [done|]. by apply timer_goes.
  - do 2 eexists. split; [done|]. destruct s as [r ps]. apply good_quiet; [|done|done]. destruct Hok as [H1 H2 H3 H4 H5]. by constructor.
  - apply Hq; [done|]. by apply stop_goes.
  - do 2 eexists. split; [done|]. apply good_quiet; [|done|done]. destruct s as [r ps0]. destruct Ha as [[Hab1 Hab2] Har]. destruct Hok as [((lo & Hlo) & (li & Hli) & _) H2 H3 H4 H5].
    cbn [fst snd] in *. constructor; try done. split; [exists lo; eapply ringed_mono, Hlo; auto|]. split; [exists li; eapply ringed_mono, Hli; auto|done].
Qed.
(** The number of requests *)
Fixpoint requests (l : list (rq_event * option nn_msg)) : Z :=
  match l with [] => 0 | (e, _) :: l => match e with Esend _ => 1 | _ => 0 end + requests l end.
Lemma runs_ok A s l s' :
  rq_runs A s l s' -> rq_ok A s -> 0 <= rq_reqid (fst s) < 2 ^ 32 -> rq_ok A s' /\ rq_reqid (fst s') = u32 (rq_reqid (fst s) + requests l).
Proof.
  intros Hr. induction Hr as [s|s e r s' l s'' Ha E Hr IH]; intros Hok Hid.
  - split; [done|]. cbn [requests]. rewrite Z.add_0_r, wrap_small; [done|lia].
  - destruct (step_good A e s Hok Ha) as (r0 & s0 & E0 & Hok' & Hid' & _). rewrite E in E0. injection E0 as <- <-.
    destruct IH as [Hok'' Hid'']; [done|rewrite Hid'; destruct e; try done; apply Z.mod_pos_bound; lia|]. split; [done|]. rewrite Hid'', Hid'. cbn [requests]. destruct e; try (f_equal; lia).
    unfold u32, wrap. rewrite Zplus_mod_idemp_l. f_equal. lia.
Qed.
Lemma init_ok (A : nn_msg -> Prop) h id ps : (forall m, arrived ps m -> A m) -> exists s, nn_req_init h id ps = Done s /\ rq_ok A s /\ rq_reqid (fst s) = id /\ rq_state (fst s) = RQ_PASSIVE.
Proof.
  intros Ha. eexists. split; [reflexivity|]. split; [|done]. constructor; try done.
  - split; [eexists; apply ringed_init|]. split; [eexists; apply ringed_init|done].
  - intros [|]; discriminate.
Qed.

(** A request socket never aborts and gives right answers: in any order of
    pipes that come and get ready, requests, calls for the answer, steps of the
    timer's thread, changes of the interval and messages that arrive, no
    assertion of xreq.c, req.c, timer.c or the lists of pipes fails, all loops
    end, and the user gets an answer only if a message with the ID of the last
    request has arrived, whose body it is; replies to earlier requests, late
    ones and malformed ones are skipped.  (No message may be read while an answer
    waits for the user: see [stale_answer].) *)
Theorem req_answers (A : nn_msg -> Prop) (h : lheap) (id : Z) (ps : P) (s s' : nn_req * P) (l : list (rq_event * option nn_msg)) (e : rq_event) :
  0 <= id < 2 ^ 32 -> (forall m, arrived ps m -> A m) -> nn_req_init h id ps = Done s -> rq_runs A s l s' -> allowed_event A e s' ->
  exists r s'', rq_do e s' = Done (r, s'') /\
    match r with None => True | Some m => msg_hdr m = [] /\ exists m0, A m0 /\ answers (u32 (id + requests l)) (msg_body m) m0 end.
Proof.
  intros Hid Ha Hi Hr He. destruct (init_ok A h id ps Ha) as (s0 & E & Hok & Eid & _). rewrite Hi in E. injection E as <-.
  destruct (runs_ok A s l s' Hr Hok) as [Hok' Hid']; [by rewrite Eid|]. destruct (step_good A e s' Hok' He) as (r & s'' & E & _ & _ & Hm).
  exists r, s''. split; [done|]. by rewrite Hid', Eid in Hm.
Qed.

End runs.

(** ** Examples, on mailboxes *)
Definition mail0 : mailboxes := {| mb_in := ∅; mb_out := [] |}.
Definition text (b : bytes) : nn_msg := {| msg_hdr := []; msg_body := b |}.
Definition reply_to (id : Z) (b : bytes) : nn_msg := {| msg_hdr := be_bytes 4 (Z.lor id 0x80000000); msg_body := b |}.
Definition mail (l : list nn_msg) (out : list (Z * nn_msg)) : mailboxes := {| mb_in := {[1 := l]}; mb_out := out |}.
Fixpoint rq_all (es : list rq_event) (s : nn_req * mailboxes) : outcome (list (rq_event * option nn_msg) * (nn_req * mailboxes)) :=
  match es with
  | [] => Done ([], s)
  | e :: es => olet! '(r, s) := rq_do e s in olet! '(l, s) := rq_all es s in Done ((e, r) :: l, s)
  end.
(** A request, its replacement while the first is being processed, the steps of
    the timer, the answer *)
Definition asked : list (Z * nn_msg) := [(1, reply_to 7 [65]); (1, reply_to 8 [66])].
Definition ask_twice : list rq_event :=
  [Eadd 1 8; Eout 1; Esend (text [65]); Esend (text [66]); Etimer EXECUTE; Etimer EXECUTE; Eworld (mail [reply_to 8 [98]] asked); Ein 1; Etimer EXECUTE; Etimer EXECUTE].
Definition started : nn_req * mailboxes := match nn_req_init ∅ 6 mail0 with Done s => s | Fault _ => ({| rq_xreq := nn_xreq_init ∅; rq_fsm := FSM_IDLE; rq_state := RQ_IDLE; rq_reqid := 0; rq_request := filled no_msg; rq_reply := filled no_msg; rq_timer := nn_timer_init; rq_resend_ivl := 0 |}, mail0) end.
Example answer_after_two :
  match rq_all (ask_twice ++ [Erecv]) started with Done (l, s) => (last (map snd l), rq_state (fst s), mb_out (snd s)) | _ => (None, RQ_IDLE, []) end =
  (Some (Some (text [98])), RQ_PASSIVE, asked).
Proof. vm_compute. reflexivity. Qed.
(** The answer to the first request comes late, while that to the second waits for
    the user: it is read into the same place, found to be stale and terminated,
    but the place keeps it, and the user gets it. *)
Example stale_answer :
  match rq_all (ask_twice ++ [Eworld (mail [reply_to 7 [97]] asked); Ein 1; Erecv]) started with Done (l, s) => last (map snd l) | _ => None end =
  Some (Some (reply_to 7 [97])).
Proof. vm_compute. reflexivity. Qed.
(** A longer one has been freed when the user gets it. *)
Example stale_answer_freed :
  rq_all (ask_twice ++ [Eworld (mail [reply_to 7 (zeros 40)] asked); Ein 1; Erecv]) started = Fault UseAfterFree.
Proof. vm_compute. reflexivity. Qed.

Definition some_reply (m : nn_msg) : Prop := m = reply_to 8 [98].
Definition run_from (s : nn_req * mailboxes) (es : list rq_event) : list (rq_event * option nn_msg) * (nn_req * mailboxes) :=
  match rq_all es s with Done x => x | Fault _ => ([], s) end.
(** Computes a run and leaves the conditions of its events *)
Ltac run_steps r :=
  let x := eval vm_compute in r in replace r with x by (vm_compute; reflexivity); cbn [fst snd]; repeat (eapply runs_cons; [|vm_compute; reflexivity|]); [..|apply runs_nil].
Lemma ask_twice_runs : rq_runs some_reply started (fst (run_from started ask_twice)) (snd (run_from started ask_twice)).
Proof.
  run_steps (run_from started ask_twice); try done; try (vm_compute; by eauto).
  - split; [split; [done|]; intros a (m & l & E); by vm_compute in E|]. intros m (a & l & E & Hm). change (({[1 := [reply_to 8 [98]]]} : gmap Z (list nn_msg)) !! a = Some l) in E. apply lookup_singleton_Some in E as [_ <-]. by apply list_elem_of_singleton in Hm.
  - split; [vm_compute; eauto|]. split; [by vm_compute|]. split; [vm_compute; eauto|]. by intros [E|E]; vm_compute in E.
Qed.
Lemma req_answers_witness :
  exists r s'', rq_do Erecv (snd (run_from started ask_twice)) = Done (r, s'') /\
    match r with None => True | Some m => msg_hdr m = [] /\ exists m0, some_reply m0 /\ answers (u32 (6 + requests (fst (run_from started ask_twice)))) (msg_body m) m0 end.
Proof.
  apply (req_answers some_reply ∅ 6 mail0 started (snd (run_from started ask_twice)) (fst (run_from started ask_twice)) Erecv); [lia| |reflexivity|apply ask_twice_runs|exact I].
  intros m (a & l & E & _). by vm_compute in E.
Defined.
