(* ===== verification/Rep.v ===== *)
(** * Rep: requests answered (lib/nanomsg/src/protocols/reqrep/xrep.c, rep.c)

    A raw reply socket receives from its pipes in turns and puts the key of the
    pipe in front of the header of a request; a reply is sent to the pipe whose
    key is the first of its header.  The reply socket keeps the header of the
    request it works on, and gives it to the reply.  The data of pipe [a] is at
    address [a]: its items in the hash table and in the fair queue, its flags. *)
From S2P Require Import Prelude.
From S2P Require Import NnList Msgqueue Inproc Pipeline Chunk Hash Pipes Req.

Definition NN_XREP_OUT : Z := 1.
Record nn_xrep := { xr_next_key : Z; xr_outpipes : nn_hash; xr_inpipes : nn_priolist; xr_flags : gmap Z Z }.
(** [next_key] is random. *)
Definition nn_xrep_init (h : lheap) (next_key : Z) : nn_xrep :=
  {| xr_next_key := next_key; xr_outpipes := nn_hash_init h ∅; xr_inpipes := nn_fq_init h ∅; xr_flags := ∅ |}.
Definition nn_xrep_term (x : nn_xrep) : outcome unit := olet! _ := nn_fq_term (xr_inpipes x) in nn_hash_term (xr_outpipes x).
Definition nn_xrep_add (a : Z) (x : nn_xrep) : outcome nn_xrep :=
  let out := nn_hash_item_init a (xr_outpipes x) in
  olet! out := nn_hash_insert (Z.land (xr_next_key x) 0x7fffffff) a out in
  Done {| xr_next_key := u32 (xr_next_key x + 1); xr_outpipes := out; xr_inpipes := nn_fq_add a a 8 (xr_inpipes x); xr_flags := <[a := 0]> (xr_flags x) |}.
Definition nn_xrep_rm (a : Z) (x : nn_xrep) : outcome nn_xrep :=
  olet! fq := nn_fq_rm a (xr_inpipes x) in
  olet! out := nn_hash_erase a (xr_outpipes x) in
  olet! _ := nn_hash_item_term a out in
  Done {| xr_next_key := xr_next_key x; xr_outpipes := out; xr_inpipes := data_free a fq; xr_flags := delete a (xr_flags x) |}.
Definition nn_xrep_in (a : Z) (x : nn_xrep) : outcome nn_xrep :=
  olet! fq := nn_fq_in a (xr_inpipes x) in
  Done {| xr_next_key := xr_next_key x; xr_outpipes := xr_outpipes x; xr_inpipes := fq; xr_flags := xr_flags x |}.
Definition flags_of (a : Z) (x : nn_xrep) : outcome Z := match xr_flags x !! a with Some f => Done f | None => Fault UseAfterFree end.
Definition with_flags_of (a f : Z) (x : nn_xrep) : nn_xrep :=
  {| xr_next_key := xr_next_key x; xr_outpipes := xr_outpipes x; xr_inpipes := xr_inpipes x; xr_flags := <[a := f]> (xr_flags x) |}.
Definition nn_xrep_out (a : Z) (x : nn_xrep) : outcome nn_xrep :=
  olet! f := flags_of a x in Done (with_flags_of a (Z.lor f NN_XREP_OUT) x).
Definition nn_xrep_events (x : nn_xrep) : Z := Z.lor (if nn_fq_can_recv (xr_inpipes x) =? 0 then 0 else NN_SOCKBASE_EVENT_IN) NN_SOCKBASE_EVENT_OUT.
(** The number of words up to the bottom of the stack, the first one with the
    highest bit; [None] if there is none *)
Fixpoint bottom (fuel : nat) (i : Z) (data : bytes) : outcome (option Z) :=
  if lenZ data <? (i + 1) * 4 then Done None
  else
    olet! w := nn_getl data (i * 4) in
    if Z.testbit w 31 then Done (Some (i + 1))
    else match fuel with O => Fault OutOfFuel | S fuel => bottom fuel (i + 1) data end.

Section rep.
Context {P : Type} `{PipeOps P}.
Definition nn_xrep_send (m : nn_msg) (s : nn_xrep * P) : outcome (Z * (nn_xrep * P)) :=
  let '(x, ps) := s in
  if lenZ (msg_hdr m) <? 4 then Done (0, s)
  else
    olet! key := nn_getl (msg_hdr m) 0 in
    let m := {| msg_hdr := dropZ 4 (msg_hdr m); msg_body := msg_body m |} in
    olet! d := nn_hash_get key (xr_outpipes x) in
    match d with
    | None => Done (0, s)
    | Some a =>
        olet! f := flags_of a x in
        if negb (Z.testbit f 0) then Done (0, s)
        else
          olet! '(rc, ps) := pipe_send a m ps in
          olet! _ := nn_assert (0 <=? rc) in
          Done (0, (if Z.testbit rc 0 then with_flags_of a (Z.ldiff f NN_XREP_OUT) x else x, ps))
    end.
Definition nn_xrep_recv (s : nn_xrep * P) : outcome (Z * option nn_msg * (nn_xrep * P)) :=
  let '(x, ps) := s in
  olet! '(rc, r, (fq, ps)) := nn_fq_recv (xr_inpipes x, ps) in
  let x := {| xr_next_key := xr_next_key x; xr_outpipes := xr_outpipes x; xr_inpipes := fq; xr_flags := xr_flags x |} in
  match r with
  | None => Done (rc, None, (x, ps))
  | Some (m, a) =>
      olet! split :=
        (if negb (Z.testbit rc 1) then
           olet! i := bottom (length (msg_body m)) 0 (msg_body m) in
           match i with
           | None => Done None
           | Some i =>
               olet! _ := nn_assert (lenZ (msg_hdr m) =? 0) in
               Done (Some {| msg_hdr := takeZ (i * 4) (msg_body m); msg_body := dropZ (i * 4) (msg_body m) |})
           end
         else Done (Some m)) in
      match split with
      | None => Done (- EAGAIN, None, (x, ps))
      | Some m =>
          olet! key := key_of (ha_keys (xr_outpipes x)) a in
          olet! ref := nn_putl (zeros (lenZ (msg_hdr m) + 4)) 0 key in
          olet! ref := blk_write ref 4 (msg_hdr m) in
          Done (0, Some {| msg_hdr := ref; msg_body := msg_body m |}, (x, ps))
      end
  end.

(** ** The reply socket: the header of the request in progress *)
Record nn_rep := { rp_xrep : nn_xrep; rp_backtrace : option bytes }.
Definition nn_rep_init (h : lheap) (next_key : Z) : nn_rep := {| rp_xrep := nn_xrep_init h next_key; rp_backtrace := None |}.
Definition nn_rep_term (r : nn_rep) : outcome unit := nn_xrep_term (rp_xrep r).
Definition nn_rep_events (r : nn_rep) : Z :=
  let events := nn_xrep_events (rp_xrep r) in match rp_backtrace r with Some _ => events | None => Z.ldiff events NN_SOCKBASE_EVENT_OUT end.
Definition nn_rep_send (m : nn_msg) (s : nn_rep * P) : outcome (Z * (nn_rep * P)) :=
  let '(r, ps) := s in
  match rp_backtrace r with
  | None => Done (- EFSM, s)
  | Some b =>
      olet! _ := nn_assert (lenZ (msg_hdr m) =? 0) in
      olet! '(rc, (x, ps)) := nn_xrep_send {| msg_hdr := b; msg_body := msg_body m |} (rp_xrep r, ps) in
      olet! _ := nn_assert ((rc =? 0) || (rc =? - EAGAIN)) in
      Done (0, ({| rp_xrep := x; rp_backtrace := None |}, ps))
  end.
Definition nn_rep_recv (s : nn_rep * P) : outcome (Z * option nn_msg * (nn_rep * P)) :=
  let '(r, ps) := s in
  olet! '(rc, m, (x, ps)) := nn_xrep_recv (rp_xrep r, ps) in
  if rc =? - EAGAIN then Done (- EAGAIN, None, ({| rp_xrep := x; rp_backtrace := None |}, ps))
  else
    olet! _ := nn_assert (rc =? 0) in
    match m with
    | None => Fault AssertFailed
    | Some m => Done (0, Some {| msg_hdr := []; msg_body := msg_body m |}, ({| rp_xrep := x; rp_backtrace := Some (msg_hdr m) |}, ps))
    end.
End rep.


Section runs.
Context {P : Type} `{PipeLaws P}.
Inductive rp_event := Padd (a : Z) | Prm (a : Z) | Pin (a : Z) | Pout (a : Z) | Precv | Psend (m : nn_msg) | Pworld (ps : P).
Definition on_xrep (o : outcome nn_xrep) (s : nn_rep * P) : outcome (Z * option nn_msg * (nn_rep * P)) :=
  olet! x := o in Done (0, None, ({| rp_xrep := x; rp_backtrace := rp_backtrace (fst s) |}, snd s)).
Definition rp_do (e : rp_event) (s : nn_rep * P) : outcome (Z * option nn_msg * (nn_rep * P)) :=
  match e with
  | Padd a => on_xrep (nn_xrep_add a (rp_xrep (fst s))) s
  | Prm a => on_xrep (nn_xrep_rm a (rp_xrep (fst s))) s
  | Pin a => on_xrep (nn_xrep_in a (rp_xrep (fst s))) s
  | Pout a => on_xrep (nn_xrep_out a (rp_xrep (fst s))) s
  | Precv => nn_rep_recv s
  | Psend m => olet! '(rc, s) := nn_rep_send m s in Done (rc, None, s)
  | Pworld ps => Done (0, None, (fst s, ps))
  end.
Lemma hash_map t A B : hrep t A -> hrep t B -> km_map A = km_map B.
Proof. intros HA HB. apply map_eq. intros k. pose proof (get_refines k _ _ HA) as E. rewrite (get_refines k _ _ HB) in E. by injection E. Qed.
End runs.

(** ** A request from the second of two peers, answered after the first has left *)
Definition asked_by (a : Z) (m : nn_msg) : mailboxes := {| mb_in := {[a := [m]]}; mb_out := [] |}.
Fixpoint rp_all (es : list rp_event) (s : nn_rep * mailboxes) : outcome (nn_rep * mailboxes) :=
  match es with [] => Done s | e :: es => olet! '(_, _, s) := rp_do e s in rp_all es s end.
Definition after (es : list rp_event) (s : nn_rep * mailboxes) : nn_rep * mailboxes := match rp_all es s with Done s => s | Fault _ => s end.
Definition the_request : nn_msg := reply_to 7 [65].
Definition rep0 : nn_rep * mailboxes := (nn_rep_init ∅ 5, mail0).
Definition before_request : list rp_event := [Padd 1; Pout 1; Padd 2; Pout 2; Pworld (asked_by 2 the_request); Pin 2].
Definition before_reply : list (rp_event (P := mailboxes)) := [Prm 1; Padd 3].
Definition received_one : nn_rep * mailboxes := match nn_rep_recv (after before_request rep0) with Done (_, _, s) => s | Fault _ => rep0 end.
Example reply_sent :
  match nn_rep_send (text [66]) (after before_reply received_one) with Done (_, s) => mb_out (snd s) | Fault _ => [] end = [(2, reply_to 7 [66])].
Proof. vm_compute. reflexivity. Qed.
