(* ===== verification/Lmdb.v ===== *)
(** * Lmdb: the transaction and handle layer of lib/lmdb/mdb.c

    FineDB stores its data in an LMDB environment.  This file models the part
    of mdb.c the server relies on: opening and closing transactions and
    database handles, and the guards of the data operations.  What LMDB keeps
    in its B+trees is a finite map; what can fail inside the page layer (disk
    full, no memory, I/O) is a script of return codes, one entry per call that
    reaches it, so every theorem holds for every pattern of failures.

    Named databases are records of the main database: [node] distinguishes an
    ordinary value from such a record.  Transactions are heap objects: an
    operation on a transaction that was already released is a
    [UseAfterFree]. *)
From S2P Require Import Prelude.

(** ** Return codes (lmdb.h) *)
Definition MDB_SUCCESS : Z := 0.
Definition MDB_KEYEXIST : Z := -30799.
Definition MDB_NOTFOUND : Z := -30798.
Definition MDB_DBS_FULL : Z := -30791.
Definition MDB_READERS_FULL : Z := -30790.
Definition EINVAL : Z := 22.
Definition EACCES : Z := 13.
Definition MDB_MAXKEYSIZE : Z := 511.
Definition MAXDATASIZE : Z := 0xffffffff.

(** ** Data *)
Inductive node :=
  | NData (d : bytes)
  | NSub (m : gmap bytes bytes).

(** Flags of a handle in a transaction: DB_DIRTY, DB_STALE, DB_NEW, DB_VALID. *)
Record dbflag := { db_dirty : bool; db_stale : bool; db_new : bool; db_valid : bool }.
Definition no_flag : dbflag :=
  {| db_dirty := false; db_stale := false; db_new := false; db_valid := false |}.
Definition stale_flag : dbflag :=
  {| db_dirty := false; db_stale := true; db_new := false; db_valid := true |}.

(** Handles are numbers: 0 is the free list, 1 the main database. *)
Abbreviation dbi := nat.
Definition MAIN_DBI : dbi := 1%nat.

Record MDB_txn := {
  mt_rdonly : bool;
  mt_numdbs : nat;
  mt_main : gmap bytes node;              (* the main database as the txn sees it *)
  mt_dbs : gmap dbi (gmap bytes bytes);   (* the named databases it has loaded *)
  mt_dbflags : gmap dbi dbflag;           (* flags of the handles from 2 on *)
  mt_dirty : bool                         (* some page was written *)
}.

Record MDB_env := {
  me_maxdbs : nat;
  me_numdbs : nat;
  me_maxreaders : nat;
  me_dbxs : gmap dbi bytes;               (* names of the open handles from 2 on *)
  me_valid : gset dbi;                    (* handles whose me_dbflags has MDB_VALID *)
  me_main : gmap bytes node;              (* the committed main database *)
  me_live : gmap nat MDB_txn;             (* allocated transactions *)
  me_txn : option nat;                    (* holder of the writer lock *)
  me_next : nat;                          (* next transaction address *)
  me_script : list Z                      (* results of the page layer *)
}.

(** Functional updates. *)
Definition env_set_script (s : list Z) (e : MDB_env) : MDB_env :=
  {| me_maxdbs := me_maxdbs e; me_numdbs := me_numdbs e; me_maxreaders := me_maxreaders e;
     me_dbxs := me_dbxs e; me_valid := me_valid e; me_main := me_main e;
     me_live := me_live e; me_txn := me_txn e; me_next := me_next e; me_script := s |}.
Definition env_set_handles (x : gmap dbi bytes) (v : gset dbi) (e : MDB_env) : MDB_env :=
  {| me_maxdbs := me_maxdbs e; me_numdbs := me_numdbs e; me_maxreaders := me_maxreaders e;
     me_dbxs := x; me_valid := v; me_main := me_main e;
     me_live := me_live e; me_txn := me_txn e; me_next := me_next e;
     me_script := me_script e |}.
Definition env_set_live (l : gmap nat MDB_txn) (e : MDB_env) : MDB_env :=
  {| me_maxdbs := me_maxdbs e; me_numdbs := me_numdbs e; me_maxreaders := me_maxreaders e;
     me_dbxs := me_dbxs e; me_valid := me_valid e; me_main := me_main e;
     me_live := l; me_txn := me_txn e; me_next := me_next e; me_script := me_script e |}.
Definition env_set_writer (w : option nat) (e : MDB_env) : MDB_env :=
  {| me_maxdbs := me_maxdbs e; me_numdbs := me_numdbs e; me_maxreaders := me_maxreaders e;
     me_dbxs := me_dbxs e; me_valid := me_valid e; me_main := me_main e;
     me_live := me_live e; me_txn := w; me_next := me_next e; me_script := me_script e |}.
Definition env_set_main (m : gmap bytes node) (e : MDB_env) : MDB_env :=
  {| me_maxdbs := me_maxdbs e; me_numdbs := me_numdbs e; me_maxreaders := me_maxreaders e;
     me_dbxs := me_dbxs e; me_valid := me_valid e; me_main := m;
     me_live := me_live e; me_txn := me_txn e; me_next := me_next e;
     me_script := me_script e |}.
Definition env_set_numdbs (n : nat) (e : MDB_env) : MDB_env :=
  {| me_maxdbs := me_maxdbs e; me_numdbs := n; me_maxreaders := me_maxreaders e;
     me_dbxs := me_dbxs e; me_valid := me_valid e; me_main := me_main e;
     me_live := me_live e; me_txn := me_txn e; me_next := me_next e;
     me_script := me_script e |}.
Definition txn_set_main (m : gmap bytes node) (t : MDB_txn) : MDB_txn :=
  {| mt_rdonly := mt_rdonly t; mt_numdbs := mt_numdbs t; mt_main := m;
     mt_dbs := mt_dbs t; mt_dbflags := mt_dbflags t; mt_dirty := true |}.
Definition txn_set_db (i : dbi) (m : gmap bytes bytes) (f : dbflag) (dirty : bool)
    (t : MDB_txn) : MDB_txn :=
  {| mt_rdonly := mt_rdonly t; mt_numdbs := mt_numdbs t; mt_main := mt_main t;
     mt_dbs := <[i := m]> (mt_dbs t); mt_dbflags := <[i := f]> (mt_dbflags t);
     mt_dirty := mt_dirty t || dirty |}.
Definition txn_set_numdbs (n : nat) (t : MDB_txn) : MDB_txn :=
  {| mt_rdonly := mt_rdonly t; mt_numdbs := n; mt_main := mt_main t;
     mt_dbs := mt_dbs t; mt_dbflags := mt_dbflags t; mt_dirty := mt_dirty t |}.

(** The next result of the page layer. *)
Definition page_result : CM MDB_env Z := fun e =>
  let '(rc, s) := script_next 0 (me_script e) in
  Done (rc, env_set_script s e).

(** Read and write a transaction object through its pointer. *)
Definition txn_load (t : nat) : CM MDB_env MDB_txn := fun e =>
  match me_live e !! t with
  | Some txn => Done (txn, e)
  | None => Fault UseAfterFree
  end.
Definition txn_store (t : nat) (txn : MDB_txn) : CM MDB_env unit := fun e =>
  Done (tt, env_set_live (<[t := txn]> (me_live e)) e).

(** ** Transactions *)
Definition readers (e : MDB_env) : nat :=
  size (filter (fun p : nat * MDB_txn => mt_rdonly p.2 = true) (me_live e)).

(** A transaction sees the committed main database; handles that were left
    open are valid but stale. *)
Definition mdb_txn_renew0 (rdonly : bool) (e : MDB_env) : MDB_txn :=
  {| mt_rdonly := rdonly; mt_numdbs := me_numdbs e; mt_main := me_main e;
     mt_dbs := ∅; mt_dbflags := gset_to_gmap stale_flag (me_valid e); mt_dirty := false |}.

Definition mdb_txn_begin (rdonly : bool) : CM MDB_env (Z * option nat) :=
  let! rc := page_result in
  if negb (rc =? 0) then cret (rc, None) else
  fun e =>
    if rdonly then
      if (me_maxreaders e <=? readers e)%nat then Done ((MDB_READERS_FULL, None), e)
      else
        let e' := env_set_live (<[me_next e := mdb_txn_renew0 true e]> (me_live e)) e in
        Done ((MDB_SUCCESS, Some (me_next e)),
              {| me_maxdbs := me_maxdbs e'; me_numdbs := me_numdbs e';
                 me_maxreaders := me_maxreaders e'; me_dbxs := me_dbxs e';
                 me_valid := me_valid e'; me_main := me_main e'; me_live := me_live e';
                 me_txn := me_txn e'; me_next := S (me_next e'); me_script := me_script e' |})
    else
      match me_txn e with
      | Some _ => Fault WriterBlocked
      | None =>
        let e' := env_set_live (<[me_next e := mdb_txn_renew0 false e]> (me_live e)) e in
        Done ((MDB_SUCCESS, Some (me_next e)),
              {| me_maxdbs := me_maxdbs e'; me_numdbs := me_numdbs e';
                 me_maxreaders := me_maxreaders e'; me_dbxs := me_dbxs e';
                 me_valid := me_valid e'; me_main := me_main e'; me_live := me_live e';
                 me_txn := Some (me_next e'); me_next := S (me_next e');
                 me_script := me_script e' |})
      end.

(** Handles opened by the transaction are kept, or closed when it is
    abandoned. *)
Definition new_handles (t : MDB_txn) : gset dbi :=
  dom (filter (fun p : dbi * dbflag => db_new p.2 = true) (mt_dbflags t)).
Definition mdb_dbis_update (t : MDB_txn) (keep : bool) (e : MDB_env) : MDB_env :=
  if keep
  then env_set_numdbs (Nat.max (me_numdbs e) (mt_numdbs t))
         (env_set_handles (me_dbxs e) (me_valid e ∪ new_handles t) e)
  else env_set_handles
         (filter (fun p : dbi * bytes => p.1 ∉ new_handles t) (me_dbxs e))
         (me_valid e ∖ new_handles t) e.

Definition mdb_txn_reset0 (t : MDB_txn) (e : MDB_env) : MDB_env :=
  let e := mdb_dbis_update t false e in
  if mt_rdonly t then e else env_set_writer None e.

Definition mdb_txn_abort (t : nat) : CM MDB_env unit :=
  let! txn := txn_load t in
  fun e =>
    let e := mdb_txn_reset0 txn e in
    Done (tt, env_set_live (delete t (me_live e)) e).

(** The records of the dirty named databases are written to the main
    database under the name of their handle, which a closed handle no longer
    has. *)
Definition commit_root (e : MDB_env) (t : MDB_txn) (i : dbi)
    (main : option (gmap bytes node)) : option (gmap bytes node) :=
  match main with
  | None => None
  | Some main =>
      if db_dirty (default no_flag (mt_dbflags t !! i)) then
        match me_dbxs e !! i with
        | None => None
        | Some name => Some (<[name := NSub (default ∅ (mt_dbs t !! i))]> main)
        end
      else Some main
  end.
Definition commit_roots (e : MDB_env) (t : MDB_txn) : option (gmap bytes node) :=
  fold_left (fun main i => commit_root e t i main) (seq 2 (mt_numdbs t - 2))
            (Some (mt_main t)).

(** Drop a released transaction that keeps its handles. *)
Definition txn_done (t : nat) (txn : MDB_txn) (e : MDB_env) : MDB_env :=
  let e := mdb_dbis_update txn true e in
  env_set_live (delete t (me_live e)) e.

Definition mdb_txn_commit (t : nat) : CM MDB_env Z :=
  let! txn := txn_load t in
  if mt_rdonly txn then
    fun e => Done (MDB_SUCCESS, txn_done t txn e)
  else if negb (mt_dirty txn) then
    fun e => Done (MDB_SUCCESS, env_set_writer None (txn_done t txn e))
  else
    let! e := cget in
    match commit_roots e txn with
    | None => do! mdb_txn_abort t in cret EINVAL
    | Some main =>
        let! rc := page_result in
        if negb (rc =? 0) then do! mdb_txn_abort t in cret rc
        else fun e =>
          Done (MDB_SUCCESS, env_set_main main (env_set_writer None (txn_done t txn e)))
    end.

(** ** Handles *)
Fixpoint find_slot (p : dbi -> bool) (i : dbi) (n : nat) : option dbi :=
  match n with
  | O => None
  | S n => if p i then Some i else find_slot p (S i) n
  end.

(** Register the handle of a named database in slot [slot]. *)
Definition dbi_register (t : nat) (name : bytes) (m : gmap bytes bytes) (created : bool)
    (unused : option dbi) : CM MDB_env (Z * option dbi) :=
  let! txn := txn_load t in
  let slot := default (mt_numdbs txn) unused in
  let f := {| db_dirty := created; db_stale := false; db_new := true; db_valid := true |} in
  let txn := txn_set_db slot m f created txn in
  let txn := match unused with
             | Some _ => txn
             | None => txn_set_numdbs (S (mt_numdbs txn)) txn
             end in
  do! txn_store t txn in
  fun e => Done ((MDB_SUCCESS, Some slot),
                 env_set_handles (<[slot := name]> (me_dbxs e)) (me_valid e ∖ {[slot]}) e).

Definition mdb_dbi_open (t : nat) (name : option bytes) (create : bool)
    : CM MDB_env (Z * option dbi) :=
  let! txn := txn_load t in
  match name with
  | None => cret (MDB_SUCCESS, Some MAIN_DBI)
  | Some name =>
      let! e := cget in
      let slots := (mt_numdbs txn - 2)%nat in
      match find_slot (fun i => bool_decide (me_dbxs e !! i = Some name)) 2 slots with
      | Some i => cret (MDB_SUCCESS, Some i)
      | None =>
          let unused := find_slot (fun i => bool_decide (me_dbxs e !! i = None)) 2 slots in
          if bool_decide (unused = None) && (me_maxdbs e <=? mt_numdbs txn)%nat
          then cret (MDB_DBS_FULL, None)
          else if lenZ name =? 0 then cfault AssertFailed
          else
          match mt_main txn !! name with
          | Some (NSub m) => dbi_register t name m false unused
          | Some (NData _) => cret (EINVAL, None)
          | None =>
              if negb create then cret (MDB_NOTFOUND, None)
              else if mt_rdonly txn then cret (EACCES, None)
              else if MDB_MAXKEYSIZE <? lenZ name then cret (EINVAL, None)
              else
                let! rc := page_result in
                if negb (rc =? 0) then cret (rc, None) else
                do! txn_store t (txn_set_main (<[name := NSub ∅]> (mt_main txn)) txn) in
                dbi_register t name ∅ true unused
          end
      end
  end.

Definition mdb_dbi_close (i : dbi) : CM MDB_env unit := fun e =>
  if (i <=? MAIN_DBI)%nat || (me_maxdbs e <=? i)%nat then Done (tt, e)
  else Done (tt, env_set_handles (delete i (me_dbxs e)) (me_valid e ∖ {[i]}) e).

(** ** Data operations *)

(** The guard of every operation on a handle. *)
Definition dbi_bad (txn : MDB_txn) (i : dbi) : bool :=
  (i =? 0)%nat || (mt_numdbs txn <=? i)%nat ||
  (negb (i =? MAIN_DBI)%nat && negb (db_valid (default no_flag (mt_dbflags txn !! i)))).
Definition key_bad (key : bytes) : bool :=
  (lenZ key =? 0) || (MDB_MAXKEYSIZE <? lenZ key).

(** Contents of a named database; a stale handle is looked up again by name. *)
Definition db_contents (e : MDB_env) (txn : MDB_txn) (i : dbi) : option (gmap bytes bytes) :=
  if db_stale (default no_flag (mt_dbflags txn !! i)) then
    match me_dbxs e !! i with
    | Some name => match mt_main txn !! name with
                   | Some (NSub m) => Some m
                   | _ => None
                   end
    | None => None
    end
  else Some (default ∅ (mt_dbs txn !! i)).

(** Value of a key, [None] when it is absent. *)
Definition db_find (e : MDB_env) (txn : MDB_txn) (i : dbi) (key : bytes)
    : outcome (option bytes) :=
  if (i =? MAIN_DBI)%nat then
    match mt_main txn !! key with
    | Some (NData d) => Done (Some d)
    | Some (NSub _) => Fault SubdataAccess
    | None => Done None
    end
  else Done (match db_contents e txn i with
             | Some m => m !! key
             | None => None
             end).

Definition mdb_get (t : nat) (i : dbi) (key : bytes) : CM MDB_env (Z * option bytes) :=
  let! txn := txn_load t in
  if dbi_bad txn i then cret (EINVAL, None)
  else if key_bad key then cret (EINVAL, None)
  else
    let! e := cget in
    let! r := clift (db_find e txn i key) in
    cret (match r with
          | Some d => (MDB_SUCCESS, Some d)
          | None => (MDB_NOTFOUND, None)
          end).

(** Write or remove a key in the database of a handle. *)
Definition db_update (f : option bytes) (key : bytes) (i : dbi) (e : MDB_env)
    (txn : MDB_txn) : MDB_txn :=
  if (i =? MAIN_DBI)%nat then
    txn_set_main (match f with
                  | Some d => <[key := NData d]> (mt_main txn)
                  | None => delete key (mt_main txn)
                  end) txn
  else
    let m := default ∅ (db_contents e txn i) in
    let fl := default no_flag (mt_dbflags txn !! i) in
    txn_set_db i (match f with Some d => <[key := d]> m | None => delete key m end)
      {| db_dirty := true; db_stale := false; db_new := db_new fl; db_valid := db_valid fl |}
      true txn.

Definition mdb_put (t : nat) (i : dbi) (key data : bytes) (nooverwrite : bool)
    : CM MDB_env Z :=
  let! txn := txn_load t in
  if dbi_bad txn i then cret EINVAL
  else if mt_rdonly txn then cret EACCES
  else if key_bad key then cret EINVAL
  else if MAXDATASIZE <? lenZ data then cret EINVAL
  else
    let! e := cget in
    let! old := clift (db_find e txn i key) in
    if nooverwrite && bool_decide (is_Some old) then cret MDB_KEYEXIST else
    let! rc := page_result in
    if negb (rc =? 0) then cret rc else
    do! txn_store t (db_update (Some data) key i e txn) in
    cret MDB_SUCCESS.

Definition mdb_del (t : nat) (i : dbi) (key : bytes) : CM MDB_env Z :=
  let! txn := txn_load t in
  if dbi_bad txn i then cret EINVAL
  else if mt_rdonly txn then cret EACCES
  else if key_bad key then cret EINVAL
  else
    let! e := cget in
    let! old := clift (db_find e txn i key) in
    match old with
    | None => cret MDB_NOTFOUND
    | Some _ =>
        let! rc := page_result in
        if negb (rc =? 0) then cret rc else
        do! txn_store t (db_update None key i e txn) in
        cret MDB_SUCCESS
    end.

(** [mdb_drop] with [del = 1]: a named database loses its record and its
    handle, the main database is emptied. *)
Definition mdb_drop (t : nat) (i : dbi) : CM MDB_env Z :=
  let! txn := txn_load t in
  if dbi_bad txn i then cret EINVAL
  else if mt_rdonly txn then cret EACCES
  else
    let! rc := page_result in
    if negb (rc =? 0) then cret rc
    else if (MAIN_DBI <? i)%nat then
      let! e := cget in
      match me_dbxs e !! i with
      | None => cret EINVAL
      | Some name =>
          if key_bad name then cret EINVAL else
          match mt_main txn !! name with
          | None => cret MDB_NOTFOUND
          | Some _ =>
              let! rc := page_result in
              if negb (rc =? 0) then cret rc else
              let txn := txn_set_main (delete name (mt_main txn)) txn in
              let fl := {| db_dirty := false; db_stale := true;
                           db_new := false; db_valid := false |} in
              do! txn_store t (txn_set_db i (default ∅ (mt_dbs txn !! i)) fl true txn) in
              do! mdb_dbi_close i in
              cret MDB_SUCCESS
          end
      end
    else
      do! txn_store t (txn_set_main ∅ txn) in
      cret MDB_SUCCESS.

(** ** Cursors

    A cursor is a place in a database: the key it is on, or none, and whether it
    has come to the end.  [mdb_cursor_open] only makes one; [mdb_cursor_get] moves
    it to a neighbouring key of what the transaction sees at that moment.  How
    this is done on the pages of a tree is the subject of Cursor, Tree and Walk
    ([Walk.cursor_refines_zipper]).  The free list (handle 0) is left out. *)
Fixpoint key_leb (a b : bytes) : bool :=
  match a, b with
  | [], _ => true
  | _ :: _, [] => false
  | x :: a, y :: b => if x =? y then key_leb a b else x <? y
  end.
Definition entry_le {A} (p q : bytes * A) : Prop := key_leb p.1 q.1 = true.
#[export] Instance entry_le_dec {A} : RelDecision (@entry_le A).
Proof. intros p q. unfold entry_le. apply _. Defined.

(** The entry with the least, and with the greatest key *)
Fixpoint least {A} (l : list (bytes * A)) : option (bytes * A) :=
  match l with
  | [] => None
  | p :: l => match least l with Some q => if key_leb q.1 p.1 then Some q else Some p | None => Some p end
  end.
Fixpoint greatest {A} (l : list (bytes * A)) : option (bytes * A) :=
  match l with
  | [] => None
  | p :: l => match greatest l with Some q => if key_leb p.1 q.1 then Some q else Some p | None => Some p end
  end.
Definition entries_above {A} (k : bytes) (l : list (bytes * A)) : list (bytes * A) := filter (fun p => key_leb p.1 k = false) l.
Definition entries_below {A} (k : bytes) (l : list (bytes * A)) : list (bytes * A) := filter (fun p => key_leb k p.1 = false) l.

Record cursor := { cu_txn : nat; cu_dbi : dbi; cu_pos : option bytes; cu_eof : bool }.
Definition at_pos (pos : option bytes) (eof : bool) (cu : cursor) : cursor :=
  {| cu_txn := cu_txn cu; cu_dbi := cu_dbi cu; cu_pos := pos; cu_eof := eof |}.
Definition mdb_cursor_open (t : nat) (i : dbi) : CM MDB_env (Z * option cursor) :=
  let! txn := txn_load t in
  if (mt_numdbs txn <=? i)%nat || (2 <=? i)%nat && dbi_bad txn i then cret (EINVAL, None)
  else if (i =? 0)%nat then cret (EINVAL, None)
  else
    let! rc := page_result in
    if negb (rc =? 0) then cret (rc, None)
    else cret (MDB_SUCCESS, Some {| cu_txn := t; cu_dbi := i; cu_pos := None; cu_eof := false |}).
(** What the transaction sees of the database *)
Definition cursor_entries (e : MDB_env) (txn : MDB_txn) (i : dbi) : list (bytes * node) :=
  if (i =? MAIN_DBI)%nat then map_to_list (mt_main txn)
  else (fun p => (p.1, NData p.2)) <$> map_to_list (default ∅ (db_contents e txn i)).
(** The moves of [mdb_cursor_get]: MDB_FIRST, MDB_LAST, MDB_NEXT, MDB_PREV.  On a
    cursor without a place MDB_NEXT is MDB_FIRST and MDB_PREV is MDB_LAST (which
    in an empty database goes on with a page that is not there). *)
Inductive cursor_move := CurFirst | CurLast | CurNext | CurPrev.
Definition cursor_to (cu : cursor) (found : option (bytes * node)) (eof : bool) (missing : cursor)
    : CM MDB_env (Z * option (bytes * bytes) * cursor) :=
  match found with
  | None => cret (MDB_NOTFOUND, None, missing)
  | Some (k, NData d) => cret (MDB_SUCCESS, Some (k, d), at_pos (Some k) eof cu)
  | Some (_, NSub _) => cfault SubdataAccess
  end.
Definition mdb_cursor_get (op : cursor_move) (cu : cursor) : CM MDB_env (Z * option (bytes * bytes) * cursor) :=
  let! txn := txn_load (cu_txn cu) in
  let! rc := page_result in
  if negb (rc =? 0) then cret (rc, None, cu)
  else
    let! e := cget in
    let l := cursor_entries e txn (cu_dbi cu) in
    match op, cu_pos cu with
    | CurFirst, _ | CurNext, None => cursor_to cu (least l) false cu
    | CurLast, _ => cursor_to cu (greatest l) true cu
    | CurPrev, None => match l with [] => cfault NullDeref | _ => cursor_to cu (greatest l) false cu end
    | CurNext, Some k =>
        if cu_eof cu then cret (MDB_NOTFOUND, None, cu)
        else cursor_to cu (least (entries_above k l)) false (at_pos None true cu)
    | CurPrev, Some k => cursor_to cu (greatest (entries_below k l)) false (at_pos None (cu_eof cu) cu)
    end.

(** ** Environments *)
Definition DEFAULT_READERS : nat := 126.
(** A new environment over the files whose committed main database is [m]. *)
Definition mdb_env_create (script : list Z) : MDB_env :=
  {| me_maxdbs := 2; me_numdbs := 2; me_maxreaders := DEFAULT_READERS;
     me_dbxs := ∅; me_valid := ∅; me_main := ∅; me_live := ∅; me_txn := None;
     me_next := 0; me_script := script |}.
Definition mdb_env_set_maxreaders (n : Z) (e : MDB_env) : Z * MDB_env :=
  if n <? 1 then (EINVAL, e)
  else (MDB_SUCCESS,
        {| me_maxdbs := me_maxdbs e; me_numdbs := me_numdbs e; me_maxreaders := Z.to_nat n;
           me_dbxs := me_dbxs e; me_valid := me_valid e; me_main := me_main e;
           me_live := me_live e; me_txn := me_txn e; me_next := me_next e;
           me_script := me_script e |}).
Definition mdb_env_set_maxdbs (n : Z) (e : MDB_env) : Z * MDB_env :=
  (MDB_SUCCESS,
   {| me_maxdbs := Z.to_nat (u32 (n + 2)); me_numdbs := me_numdbs e;
      me_maxreaders := me_maxreaders e;
      me_dbxs := me_dbxs e; me_valid := me_valid e; me_main := me_main e;
      me_live := me_live e; me_txn := me_txn e; me_next := me_next e;
      me_script := me_script e |}).

(** ** The order of the keys *)
Lemma key_leb_refl a : key_leb a a = true.
Proof. induction a as [|x a IH]; simpl; [done|]. by rewrite Z.eqb_refl. Qed.
Lemma key_leb_total a b : key_leb a b = true \/ key_leb b a = true.
Proof.
  revert b. induction a as [|x a IH]; intros [|y b]; simpl; auto.
  rewrite (Z.eqb_sym y x). destruct (Z.eqb_spec x y); [apply IH|].
  destruct (Z.ltb_spec x y); [by left|right; apply Z.ltb_lt; lia].
Qed.
Lemma key_leb_trans a b c : key_leb a b = true -> key_leb b c = true -> key_leb a c = true.
Proof.
  revert b c. induction a as [|x a IH]; intros [|y b] [|z c]; simpl; try done.
  destruct (Z.eqb_spec x y) as [->|Hxy].
  - destruct (Z.eqb_spec y z); [apply IH|done].
  - intros H1%Z.ltb_lt. destruct (Z.eqb_spec y z) as [->|Hyz].
    + intros _. rewrite (proj2 (Z.eqb_neq x z)) by lia. by apply Z.ltb_lt.
    + intros H2%Z.ltb_lt. rewrite (proj2 (Z.eqb_neq x z)) by lia. apply Z.ltb_lt. lia.
Qed.
Lemma key_leb_antisym a b : key_leb a b = true -> key_leb b a = true -> a = b.
Proof.
  revert b. induction a as [|x a IH]; intros [|y b]; simpl; try done.
  rewrite (Z.eqb_sym y x). destruct (Z.eqb_spec x y) as [->|Hne]; [intros; f_equal; by apply IH|].
  intros H1%Z.ltb_lt H2%Z.ltb_lt. lia.
Qed.
#[export] Instance entry_le_total {A} : Total (@entry_le A).
Proof. intros p q. apply key_leb_total. Qed.
#[export] Instance entry_le_trans {A} : Transitive (@entry_le A).
Proof. intros p q r. apply key_leb_trans. Qed.
(** The least entry of a list without equal keys *)
Lemma least_spec {A} (l : list (bytes * A)) p : p ∈ l -> NoDup l.*1 -> (forall q, q ∈ l -> key_leb p.1 q.1 = true) -> least l = Some p.
Proof.
  induction l as [|x l IH]; [by intros Hp%not_elem_of_nil|]. intros Hp Hn Hle. cbn [fmap list_fmap] in Hn. apply NoDup_cons in Hn as [Hx Hn]. cbn [least].
  apply elem_of_cons in Hp as [<-|Hp].
  - assert (Hl : forall q, least l = Some q -> q ∈ l).
    { clear. induction l as [|y l IH]; [done|]. intros q. cbn [least]. destruct (least l) as [z|]; [|intros [= <-]; by left].
      destruct (key_leb z.1 y.1); intros [= <-]; [right; by apply IH|by left]. }
    destruct (least l) as [q|]; [|done]. specialize (Hl q eq_refl). destruct (key_leb q.1 p.1) eqn:E; [|done]. exfalso. apply Hx.
    rewrite (key_leb_antisym p.1 q.1 (Hle q ltac:(by right)) E). by apply list_elem_of_fmap_2.
  - rewrite (IH Hp Hn) by (intros q Hq; apply Hle; by right). by rewrite Hle by (by left).
Qed.
Lemma least_none {A} (l : list (bytes * A)) : (forall q, q ∉ l) -> least l = None.
Proof. destruct l as [|p l]; [done|]. intros H. destruct (H p). by left. Qed.

(** ** Environments between operations

    Between two calls from the server no write transaction is open, no handle
    is open, and the live transactions are read-only snapshots. *)
Record env_quiet (e : MDB_env) : Prop := {
  q_writer : me_txn e = None;
  q_handles : me_dbxs e = ∅;
  q_numdbs : (2 <= me_numdbs e <= me_maxdbs e)%nat;
  q_fresh : forall t, (me_next e <= t)%nat -> me_live e !! t = None;
  q_rdonly : forall t txn, me_live e !! t = Some txn -> mt_rdonly txn = true;
  q_snap : forall t txn, me_live e !! t = Some txn ->
             (2 <= mt_numdbs txn <= me_maxdbs e)%nat
}.

(** The environment once a transaction has come and gone. *)
Definition after_txn (s : list Z) (e : MDB_env) : MDB_env :=
  {| me_maxdbs := me_maxdbs e; me_numdbs := me_numdbs e; me_maxreaders := me_maxreaders e;
     me_dbxs := me_dbxs e; me_valid := me_valid e; me_main := me_main e;
     me_live := me_live e; me_txn := me_txn e; me_next := S (me_next e); me_script := s |}.
(** The environment during a transaction [t] begun in [e]. *)
Definition during (s : list Z) (t : MDB_txn) (e : MDB_env) : MDB_env :=
  {| me_maxdbs := me_maxdbs e; me_numdbs := me_numdbs e; me_maxreaders := me_maxreaders e;
     me_dbxs := me_dbxs e; me_valid := me_valid e; me_main := me_main e;
     me_live := <[me_next e := t]> (me_live e);
     me_txn := if mt_rdonly t then me_txn e else Some (me_next e);
     me_next := S (me_next e); me_script := s |}.

(** A transaction that opened no named database. *)
Definition txn_plain (e : MDB_env) (t : MDB_txn) : Prop :=
  mt_numdbs t = me_numdbs e /\ mt_dbflags t = gset_to_gmap stale_flag (me_valid e).

Lemma script_next_nil {A} (d : A) : script_next d [] = (d, []).
Proof. done. Qed.

Lemma env_ext e e' :
  me_maxdbs e = me_maxdbs e' -> me_numdbs e = me_numdbs e' ->
  me_maxreaders e = me_maxreaders e' -> me_dbxs e = me_dbxs e' ->
  me_valid e = me_valid e' -> me_main e = me_main e' -> me_live e = me_live e' ->
  me_txn e = me_txn e' -> me_next e = me_next e' -> me_script e = me_script e' -> e = e'.
Proof. destruct e, e'; simpl; intros; by subst. Qed.

Lemma plain_new_handles e t : txn_plain e t -> new_handles t = ∅.
Proof.
  intros [_ Hfl]. unfold new_handles. rewrite Hfl. apply dom_empty_iff_L, map_empty. intros i.
  apply map_lookup_filter_None_2. right. intros f Hf.
  apply lookup_gset_to_gmap_Some in Hf as [_ <-]. done.
Qed.

Lemma plain_commit_roots e e' t : txn_plain e t -> commit_roots e' t = Some (mt_main t).
Proof.
  intros [_ Hf]. unfold commit_roots.
  assert (Hr : forall i, commit_root e' t i (Some (mt_main t)) = Some (mt_main t)).
  { intros i. unfold commit_root. rewrite Hf.
    destruct (gset_to_gmap stale_flag (me_valid e) !! i) eqn:E; [|done].
    by apply lookup_gset_to_gmap_Some in E as [_ <-]. }
  generalize (seq 2 (mt_numdbs t - 2)). intros l.
  induction l as [|i l IH]; [done|]. cbn [fold_left]. by rewrite Hr.
Qed.

Lemma renew0_plain rd e : txn_plain e (mdb_txn_renew0 rd e).
Proof. done. Qed.
Lemma set_main_plain e m t : txn_plain e t -> txn_plain e (txn_set_main m t).
Proof. done. Qed.
#[export] Hint Resolve renew0_plain set_main_plain : finedb.

Lemma txn_load_during s t e : txn_load (me_next e) (during s t e) = Done (t, during s t e).
Proof. unfold txn_load, during. simpl. by rewrite lookup_insert_eq. Qed.
Lemma txn_store_during s t t' e :
  mt_rdonly t' = mt_rdonly t ->
  txn_store (me_next e) t' (during s t e) = Done (tt, during s t' e).
Proof.
  intros H. unfold txn_store, during, env_set_live. simpl. rewrite insert_insert_eq.
  by rewrite H.
Qed.
Lemma page_result_during s t e :
  page_result (during s t e) =
    Done (fst (script_next 0 s), during (snd (script_next 0 s)) t e).
Proof. unfold page_result. simpl. by destruct (script_next 0 s). Qed.

Lemma begin_write e s :
  me_txn e = None -> script_next 0 (me_script e) = (0, s) ->
  mdb_txn_begin false e =
    Done ((MDB_SUCCESS, Some (me_next e)), during s (mdb_txn_renew0 false e) e).
Proof.
  intros Hw Hs. unfold mdb_txn_begin, cbind, page_result. rewrite Hs. simpl.
  rewrite Hw. done.
Qed.
Lemma begin_read e s :
  (readers e < me_maxreaders e)%nat -> script_next 0 (me_script e) = (0, s) ->
  mdb_txn_begin true e =
    Done ((MDB_SUCCESS, Some (me_next e)), during s (mdb_txn_renew0 true e) e).
Proof.
  intros Hr Hs. unfold mdb_txn_begin, cbind, page_result. rewrite Hs. simpl.
  unfold readers in *. simpl. by rewrite (proj2 (Nat.leb_gt _ _)).
Qed.
Lemma begin_failed rd e rc s :
  rc <> 0 -> script_next 0 (me_script e) = (rc, s) ->
  mdb_txn_begin rd e = Done ((rc, None), env_set_script s e).
Proof.
  intros Hr Hs. unfold mdb_txn_begin, cbind, page_result. rewrite Hs.
  by rewrite (proj2 (Z.eqb_neq _ _) Hr).
Qed.

Lemma delete_insert_fresh {A} (m : gmap nat A) i x :
  m !! i = None -> delete i (<[i := x]> m) = m.
Proof. intros H. rewrite delete_insert_eq. by apply delete_id. Qed.

Lemma abort_during e s t :
  env_quiet e -> txn_plain e t ->
  mdb_txn_abort (me_next e) (during s t e) = Done (tt, after_txn s e).
Proof.
  intros [Hw Hh _ Hf _ _] Hp. unfold mdb_txn_abort, cbind. rewrite txn_load_during.
  f_equal. f_equal. pose proof (plain_new_handles e t Hp) as Hn.
  apply env_ext; unfold mdb_txn_reset0, mdb_dbis_update; rewrite Hn;
    destruct (mt_rdonly t) eqn:Hr; simpl; rewrite ?Hr; try done.
  all: try (rewrite Hh; apply map_filter_empty).
  all: try (by rewrite difference_empty_L).
  all: rewrite delete_insert_fresh; auto.
Qed.

Lemma txn_done_during e s t :
  env_quiet e -> txn_plain e t ->
  env_set_writer None (txn_done (me_next e) t (during s t e)) = after_txn s e.
Proof.
  intros [Hw Hh _ Hf _ _] Hp. pose proof (plain_new_handles e t Hp) as Hn.
  apply env_ext; unfold txn_done, mdb_dbis_update; rewrite ?Hn; simpl; try done.
  - destruct Hp as [-> _]. lia.
  - by rewrite union_empty_r_L.
  - rewrite delete_insert_fresh; auto.
Qed.

(** Committing a write transaction that changed only the main database. *)
Lemma commit_during e s t :
  env_quiet e -> txn_plain e t -> mt_rdonly t = false -> mt_dirty t = true ->
  mdb_txn_commit (me_next e) (during s t e) =
    let '(rc, s') := script_next 0 s in
    if negb (rc =? 0) then Done (rc, after_txn s' e)
    else Done (MDB_SUCCESS, env_set_main (mt_main t) (after_txn s' e)).
Proof.
  intros Hq Hp Hr Hd. unfold mdb_txn_commit. cstep (txn_load_during s t e).
  rewrite Hr, Hd. cbn [negb]. unfold cget, cbind at 1.
  rewrite (plain_commit_roots e _ t Hp). cstep (page_result_during s t e).
  destruct (script_next 0 s) as [rc s'] eqn:Es. simpl.
  destruct (rc =? 0) eqn:Erc; simpl.
  - by rewrite txn_done_during.
  - unfold cbind. by rewrite abort_during.
Qed.

Lemma env_quiet_script s e : env_quiet e -> env_quiet (env_set_script s e).
Proof. intros [? ? ? ? ?]. by constructor. Qed.
Lemma env_quiet_after s e : env_quiet e -> env_quiet (after_txn s e).
Proof. intros [? ? ? Hf ? ?]. constructor; simpl; auto. intros. apply Hf. lia. Qed.
Lemma env_quiet_main m e : env_quiet e -> env_quiet (env_set_main m e).
Proof. intros [? ? ? ? ? ?]. by constructor. Qed.
#[export] Hint Resolve env_quiet_script env_quiet_after env_quiet_main : finedb.

(** The main database is always a valid handle. *)
Lemma dbi_bad_main e t : env_quiet e -> txn_plain e t -> dbi_bad t MAIN_DBI = false.
Proof.
  intros [_ _ Hn _ _ _] [Ht _]. unfold dbi_bad, MAIN_DBI. simpl.
  rewrite Ht. by rewrite (proj2 (Nat.leb_gt _ _)) by lia.
Qed.
Lemma snap_dbi_bad_main e i t :
  env_quiet e -> me_live e !! i = Some t -> dbi_bad t MAIN_DBI = false.
Proof.
  intros [_ _ _ _ _ Hn] Ht. apply Hn in Ht. unfold dbi_bad, MAIN_DBI. simpl.
  by rewrite (proj2 (Nat.leb_gt _ _)) by lia.
Qed.
Lemma dbi_close_main e : mdb_dbi_close MAIN_DBI e = Done (tt, e).
Proof. done. Qed.
