(* ===== verification/Pages.v ===== *)
(** * Pages: the nodes on the pages of lib/lmdb/mdb.c

    A page of the B+tree is a block of [me_psize] bytes: a header, an array of
    16-bit offsets that grows upwards from byte 16, and the nodes, which grow
    downwards from the end.  The header's fields are those of the record, the
    rest of the block is [mp_raw], whose first 16 bytes stand for the header;
    every access to it is checked against its bounds, so a pointer that leaves
    the page is a [HeapOverflow], and a C [assert] that fails is
    [AssertFailed].  What the page allocator answers is an argument. *)
From S2P Require Import Prelude.
From S2P Require Import Lmdb.

Definition PAGEHDRSZ : Z := 16.
Definition NODESIZE : Z := 8.
Definition P_BRANCH : Z := 0x01.
Definition P_LEAF : Z := 0x02.
Definition P_OVERFLOW : Z := 0x04.
Definition P_DIRTY : Z := 0x10.
Definition P_LEAF2 : Z := 0x20.
Definition F_BIGDATA : Z := 0x01.
Definition MDB_RESERVE : Z := 0x10000.
Definition MDB_PAGE_FULL : Z := -30786.

Record MDB_page := {
  mp_pgno : Z;
  mp_flags : Z;
  mp_lower : Z;
  mp_upper : Z;
  mp_raw : bytes
}.
Record MDB_val := { mv_size : Z; mv_data : bytes }.

Definition F_ISSET (w f : Z) : bool := Z.land w f =? f.
Definition IS_LEAF (p : MDB_page) : bool := F_ISSET (mp_flags p) P_LEAF.
Definition IS_LEAF2 (p : MDB_page) : bool := F_ISSET (mp_flags p) P_LEAF2.
Definition IS_BRANCH (p : MDB_page) : bool := F_ISSET (mp_flags p) P_BRANCH.
Definition IS_OVERFLOW (p : MDB_page) : bool := F_ISSET (mp_flags p) P_OVERFLOW.
Definition NUMKEYS (p : MDB_page) : Z := Z.shiftr (mp_lower p - PAGEHDRSZ) 1.
Definition SIZELEFT (p : MDB_page) : Z := u16 (mp_upper p - mp_lower p).
Definition OVPAGES (size psize : Z) : Z := (PAGEHDRSZ - 1 + size) / psize + 1.
Definition LEAF2KEY (i ks : Z) : Z := PAGEHDRSZ + i * ks.

(** ** 16-bit fields of a page *)
Definition le2 (v : Z) : bytes := [v mod 256; v / 256 mod 256].
Definition ld16 (raw : bytes) (pos : Z) : outcome Z :=
  olet! b := blk_read raw pos 2 in Done (le_val b).
Definition st16 (raw : bytes) (pos v : Z) : outcome bytes := blk_write raw pos (le2 v).

(** [mp_ptrs[i]]: the offset of node [i] *)
Definition ptr_pos (i : Z) : Z := PAGEHDRSZ + 2 * i.
Definition mp_ptr (raw : bytes) (i : Z) : outcome Z := ld16 raw (ptr_pos i).
Definition set_ptr (raw : bytes) (i v : Z) : outcome bytes := st16 raw (ptr_pos i) v.

(** The fields of the node at offset [ofs]. *)
Definition mn_lo (raw : bytes) (ofs : Z) : outcome Z := ld16 raw ofs.
Definition mn_hi (raw : bytes) (ofs : Z) : outcome Z := ld16 raw (ofs + 2).
Definition mn_flags (raw : bytes) (ofs : Z) : outcome Z := ld16 raw (ofs + 4).
Definition mn_ksize (raw : bytes) (ofs : Z) : outcome Z := ld16 raw (ofs + 6).
Definition NODEKEY (raw : bytes) (ofs : Z) : outcome bytes :=
  olet! k := mn_ksize raw ofs in blk_read raw (ofs + NODESIZE) k.
Definition NODEDSZ (raw : bytes) (ofs : Z) : outcome Z :=
  olet! lo := mn_lo raw ofs in olet! hi := mn_hi raw ofs in
  Done (Z.lor lo (Z.shiftl hi 16)).
Definition NODEPGNO (raw : bytes) (ofs : Z) : outcome Z :=
  olet! lo := mn_lo raw ofs in olet! hi := mn_hi raw ofs in olet! fl := mn_flags raw ofs in
  Done (Z.lor (Z.lor lo (Z.shiftl hi 16)) (Z.shiftl fl 32)).
Definition SETDSZ (raw : bytes) (ofs size : Z) : outcome bytes :=
  olet! raw := st16 raw ofs (Z.land size 0xffff) in
  st16 raw (ofs + 2) (u16 (Z.shiftr size 16)).
Definition SETPGNO (raw : bytes) (ofs pgno : Z) : outcome bytes :=
  olet! raw := st16 raw ofs (Z.land pgno 0xffff) in
  olet! raw := st16 raw (ofs + 2) (u16 (Z.shiftr pgno 16)) in
  st16 raw (ofs + 4) (u16 (Z.shiftr pgno 32)).

(** ** Comparison functions *)

(** [memcmp] of two areas of the same length *)
Fixpoint memcmp (a b : bytes) : Z :=
  match a, b with
  | x :: a, y :: b => if x =? y then memcmp a b else x - y
  | _, _ => 0
  end.
Definition len_result (len_diff : Z) : Z := if len_diff <? 0 then -1 else len_diff.

Definition mdb_cmp_long (a b : bytes) : outcome Z :=
  olet! x := blk_read a 0 8 in olet! y := blk_read b 0 8 in
  Done (if le_val x <? le_val y then -1 else if le_val y <? le_val x then 1 else 0).
Definition mdb_cmp_int (a b : bytes) : outcome Z :=
  olet! x := blk_read a 0 4 in olet! y := blk_read b 0 4 in
  Done (if le_val x <? le_val y then -1 else if le_val y <? le_val x then 1 else 0).
(** From the last 16-bit word downwards; the loop runs at least once. *)
Fixpoint cint_loop (n : nat) (u : Z) (a b : bytes) : outcome Z :=
  olet! x := ld16 a (u - 2) in olet! y := ld16 b (u - 2) in
  let x := x - y in
  if negb (x =? 0) then Done x
  else if 0 <? u - 2 then match n with O => Fault OutOfFuel | S n => cint_loop n (u - 2) a b end
  else Done x.
Definition mdb_cmp_cint (a b : bytes) : outcome Z := cint_loop (length a) (lenZ a) a b.
Definition mdb_cmp_memn (a b : bytes) : outcome Z :=
  let d := lenZ a - lenZ b in
  let len := u32 (if 0 <? d then lenZ b else lenZ a) in
  let len_diff := if 0 <? d then 1 else d in
  olet! x := blk_read a 0 len in olet! y := blk_read b 0 len in
  let diff := memcmp x y in
  Done (if negb (diff =? 0) then diff else len_result len_diff).
(** The bytes from the ends, as many as the shorter item has. *)
Definition mdb_cmp_memnr (a b : bytes) : outcome Z :=
  let d := lenZ a - lenZ b in
  let len_diff := if 0 <? d then 1 else d in
  let n := if 0 <? d then lenZ b else lenZ a in
  let diff := memcmp (takeZ n (rev a)) (takeZ n (rev b)) in
  Done (if negb (diff =? 0) then diff else len_result len_diff).

(** [md_cmp]: the functions a database can have. *)
Inductive cmp_func := CmpLong | CmpInt | CmpCint | CmpMemn | CmpMemnr.
#[export] Instance cmp_func_eq_dec : EqDecision cmp_func.
Proof. solve_decision. Defined.
Definition run_cmp (c : cmp_func) : bytes -> bytes -> outcome Z :=
  match c with
  | CmpLong => mdb_cmp_long
  | CmpInt => mdb_cmp_int
  | CmpCint => mdb_cmp_cint
  | CmpMemn => mdb_cmp_memn
  | CmpMemnr => mdb_cmp_memnr
  end.

(** ** Search *)

(** The loop: [i] and [rc] are the last index looked at and what the
    comparison gave; [nodekey i] reads the key at [i]. *)
Fixpoint node_search_loop (fuel : nat) (nodekey : Z -> outcome bytes)
    (cmp : bytes -> bytes -> outcome Z) (key : bytes) (low high i rc : Z) : outcome (Z * Z) :=
  if high <? low then Done (i, rc) else
  match fuel with
  | O => Fault OutOfFuel
  | S fuel =>
      let i := Z.shiftr (low + high) 1 in
      olet! k := nodekey i in
      olet! rc := cmp key k in
      if rc =? 0 then Done (i, rc)
      else if 0 <? rc then node_search_loop fuel nodekey cmp key (i + 1) high i rc
      else node_search_loop fuel nodekey cmp key low (i - 1) i rc
  end.

(** The index, the offset of the node there ([None] where the code returns
    null) and whether it was an exact match. *)
Definition mdb_node_search (mp : MDB_page) (md_cmp : cmp_func) (md_pad : Z) (key : bytes)
    : outcome (option Z * Z * bool) :=
  let nkeys := NUMKEYS mp in
  if nkeys <=? 0 then Fault AssertFailed else
  let low := if IS_LEAF mp then 0 else 1 in
  let high := nkeys - 1 in
  olet! cmp :=
    (if bool_decide (md_cmp = CmpCint) && IS_BRANCH mp then
       olet! ofs := mp_ptr (mp_raw mp) 1 in
       olet! ks := mn_ksize (mp_raw mp) ofs in
       Done (if ks =? 8 then CmpLong else CmpInt)
     else Done md_cmp) in
  let nodekey i :=
    if IS_LEAF2 mp then blk_read (mp_raw mp) (LEAF2KEY i md_pad) md_pad
    else olet! ofs := mp_ptr (mp_raw mp) i in NODEKEY (mp_raw mp) ofs in
  olet! '(i, rc) := node_search_loop (Z.to_nat nkeys) nodekey (run_cmp cmp) key low high 0 0 in
  let i := if 0 <? rc then i + 1 else i in
  olet! node :=
    (if IS_LEAF2 mp then olet! o := mp_ptr (mp_raw mp) 0 in Done (Some o)
     else if (high <? low) && negb (0 <? rc) then Done None
     else olet! o := mp_ptr (mp_raw mp) i in Done (Some o)) in
  Done (if nkeys <=? i then None else node, i, rc =? 0).

(** ** Sizes *)
Definition even_up (sz : Z) : Z := sz + Z.land sz 1.
Definition mdb_leaf_size (me_nodemax : Z) (key data : MDB_val) : Z :=
  let sz := NODESIZE + mv_size key + mv_size data in
  let sz := if me_nodemax <=? sz then sz - (mv_size data - 8) else sz in
  even_up sz + 2.
Definition mdb_branch_size (key : option MDB_val) : Z :=
  NODESIZE + match key with None => 0 | Some k => mv_size k end + 2.

(** A page the allocator returned, made ready for nodes. *)
Definition mdb_page_new (me_psize flags pgno : Z) (raw : bytes) : MDB_page :=
  {| mp_pgno := pgno; mp_flags := Z.lor flags P_DIRTY; mp_lower := PAGEHDRSZ; mp_upper := u16 me_psize;
     mp_raw := raw |}.

(** ** Adding a node *)

(** [for (i = n; i > indx; i--) mp_ptrs[i] = mp_ptrs[i - 1]] *)
Fixpoint ptrs_up (n : nat) (indx : Z) (raw : bytes) : outcome bytes :=
  match n with
  | O => Done raw
  | S n' =>
      if Z.of_nat n <=? indx then Done raw
      else
        olet! p := mp_ptr raw (Z.of_nat n') in
        olet! raw := set_ptr raw (Z.of_nat n) p in
        ptrs_up n' indx raw
  end.

Definition page_with (lower upper : Z) (raw : bytes) (mp : MDB_page) : MDB_page :=
  {| mp_pgno := mp_pgno mp; mp_flags := mp_flags mp; mp_lower := u16 lower; mp_upper := u16 upper; mp_raw := raw |}.

(** The branch for pages of fixed-size keys. *)
Definition leaf2_add (mp : MDB_page) (indx ksize : Z) (key : MDB_val) : outcome MDB_page :=
  let pos := LEAF2KEY indx ksize in
  let dif := NUMKEYS mp - indx in
  olet! raw := (if 0 <? dif then
                  olet! d := blk_read (mp_raw mp) pos (dif * ksize) in
                  blk_write (mp_raw mp) (pos + ksize) d
                else Done (mp_raw mp)) in
  olet! k := blk_read (mv_data key) 0 ksize in
  olet! raw := blk_write raw pos k in
  Done (page_with (mp_lower mp + 2) (mp_upper mp - (ksize - 2)) raw mp).

(** The size of the node, the flags and the overflow page: a leaf's data that
    makes the node too large goes to pages of its own.  [page_new] is the answer
    of the page allocator to a request for pages: an error or a page number. *)
Definition add_plan (me_nodemax me_psize : Z) (page_new : Z -> Z + Z) (leaf : bool)
    (node_size : Z) (data : option MDB_val) (flags : Z) : outcome (Z + Z * Z * option Z) :=
  if leaf then
    match data with
    | None => Fault AssertFailed
    | Some d =>
        if F_ISSET flags F_BIGDATA then Done (inr (node_size + 8, flags, None))
        else if me_nodemax <=? node_size + mv_size d then
          match page_new (i32 (OVPAGES (mv_size d) me_psize)) with
          | inl rc => Done (inl rc)
          | inr pg => Done (inr (node_size + 8, Z.lor flags F_BIGDATA, Some pg))
          end
        else Done (inr (node_size + mv_size d, flags, None))
    end
  else Done (inr (node_size, flags, None)).

(** The node's header and key, at offset [ofs]. *)
Definition write_head (raw : bytes) (ofs : Z) (leaf : bool) (key : option MDB_val)
    (data : option MDB_val) (pgno flags : Z) : outcome bytes :=
  olet! raw := st16 raw (ofs + 6) (u16 (match key with None => 0 | Some k => mv_size k end)) in
  olet! raw := st16 raw (ofs + 4) (u16 flags) in
  olet! raw := (if leaf then SETDSZ raw ofs (match data with None => 0 | Some d => mv_size d end)
                else SETPGNO raw ofs pgno) in
  match key with
  | None => Done raw
  | Some k => olet! d := blk_read (mv_data k) 0 (mv_size k) in blk_write raw (ofs + NODESIZE) d
  end.
(** The node's data, and what is written to the overflow page. *)
Definition write_body (raw : bytes) (ofs : Z) (key data : MDB_val) (flags : Z) (ofp : option Z)
    : outcome (bytes * option (Z * bytes)) :=
  let pos := ofs + NODESIZE + mv_size key in
  match ofp with
  | None =>
      if F_ISSET flags F_BIGDATA then
        olet! d := blk_read (mv_data data) 0 8 in olet! raw := blk_write raw pos d in Done (raw, None)
      else if F_ISSET flags MDB_RESERVE then Done (raw, None)
      else
        olet! d := blk_read (mv_data data) 0 (mv_size data) in
        olet! raw := blk_write raw pos d in Done (raw, None)
  | Some pg =>
      olet! raw := blk_write raw pos (rev (be_bytes 8 pg)) in
      if F_ISSET flags MDB_RESERVE then Done (raw, Some (pg, []))
      else olet! d := blk_read (mv_data data) 0 (mv_size data) in Done (raw, Some (pg, d))
  end.

Definition mdb_node_add (me_nodemax me_psize md_pad : Z) (page_new : Z -> Z + Z)
    (mp : MDB_page) (indx : Z) (key data : option MDB_val) (pgno flags : Z)
    : outcome (Z * MDB_page * option (Z * bytes)) :=
  if mp_upper mp <? mp_lower mp then Fault AssertFailed
  else if IS_LEAF2 mp then
    match key with
    | None => Fault NullDeref
    | Some k => olet! mp := leaf2_add mp indx md_pad k in Done (MDB_SUCCESS, mp, None)
    end
  else
    let node_size := NODESIZE + match key with None => 0 | Some k => mv_size k end in
    olet! plan := add_plan me_nodemax me_psize page_new (IS_LEAF mp) node_size data flags in
    match plan with
    | inl rc => Done (rc, mp, None)
    | inr (node_size, flags, ofp) =>
        let node_size := even_up node_size in
        if SIZELEFT mp <? node_size + 2 then Done (MDB_PAGE_FULL, mp, None)
        else
          olet! raw := ptrs_up (Z.to_nat (NUMKEYS mp)) indx (mp_raw mp) in
          let ofs := u16 (mp_upper mp - node_size) in
          if ofs <? mp_lower mp + 2 then Fault AssertFailed
          else
            olet! raw := set_ptr raw indx ofs in
            olet! raw := write_head raw ofs (IS_LEAF mp) key data pgno flags in
            olet! '(raw, ovf) :=
              (if IS_LEAF mp then
                 match key, data with
                 | Some k, Some d => write_body raw ofs k d flags ofp
                 | _, _ => Fault AssertFailed
                 end
               else Done (raw, None)) in
            Done (MDB_SUCCESS, page_with (mp_lower mp + 2) ofs raw mp, ovf)
    end.

(** ** Deleting a node *)

(** [for (i = j = 0; i < numkeys; i++)]: [n] turns are left *)
Fixpoint del_loop (n : nat) (i j indx ptr sz : Z) (raw : bytes) : outcome bytes :=
  match n with
  | O => Done raw
  | S n =>
      if i =? indx then del_loop n (i + 1) j indx ptr sz raw
      else
        olet! p := mp_ptr raw i in
        olet! raw := set_ptr raw j p in
        olet! p := mp_ptr raw i in
        olet! raw := (if p <? ptr then
                        olet! q := mp_ptr raw j in set_ptr raw j (u16 (q + sz))
                      else Done raw) in
        del_loop n (i + 1) (j + 1) indx ptr sz raw
  end.
Definition leaf2_del (mp : MDB_page) (indx ksize : Z) : outcome MDB_page :=
  let x := NUMKEYS mp - 1 - indx in
  let base := LEAF2KEY indx ksize in
  olet! raw := (if negb (x =? 0) then
                  olet! d := blk_read (mp_raw mp) (base + ksize) (x * ksize) in
                  blk_write (mp_raw mp) base d
                else Done (mp_raw mp)) in
  Done (page_with (mp_lower mp - 2) (mp_upper mp + (ksize - 2)) raw mp).
(** The bytes a node takes on its page. *)
Definition node_bytes (leaf : bool) (raw : bytes) (ofs : Z) : outcome Z :=
  olet! ks := mn_ksize raw ofs in
  olet! sz :=
    (if leaf then
       olet! fl := mn_flags raw ofs in
       if F_ISSET fl F_BIGDATA then Done (NODESIZE + ks + 8)
       else olet! ds := NODEDSZ raw ofs in Done (NODESIZE + ks + ds)
     else Done (NODESIZE + ks)) in
  Done (even_up sz).
Definition mdb_node_del (mp : MDB_page) (indx ksize : Z) : outcome MDB_page :=
  if NUMKEYS mp <=? indx then Fault AssertFailed
  else if IS_LEAF2 mp then leaf2_del mp indx ksize
  else
    olet! ptr := mp_ptr (mp_raw mp) indx in
    olet! sz := node_bytes (IS_LEAF mp) (mp_raw mp) ptr in
    olet! raw := del_loop (Z.to_nat (NUMKEYS mp)) 0 0 indx ptr sz (mp_raw mp) in
    olet! d := blk_read raw (mp_upper mp) (ptr - mp_upper mp) in
    olet! raw := blk_write raw (mp_upper mp + sz) d in
    Done (page_with (mp_lower mp - 2) (mp_upper mp + sz) raw mp).

(** ** Lemmas: bytes of a block *)
Lemma blk_read_done raw p n d :
  blk_read raw p n = Done d <->
  0 <= p /\ 0 <= n /\ p + n <= lenZ raw /\ d = takeZ n (dropZ p raw).
Proof.
  unfold blk_read. split.
  - destruct (_ && _) eqn:E; [|done]. intros [= <-]. rewrite !andb_true_iff, !Z.leb_le in E. naive_solver.
  - intros (? & ? & ? & ->). by rewrite !(proj2 (Z.leb_le _ _)) by lia.
Qed.
Lemma lenZ_blk_read raw p n d : blk_read raw p n = Done d -> lenZ d = n.
Proof.
  intros (? & ? & ? & ->)%blk_read_done. rewrite lenZ_takeZ; [done|]. rewrite lenZ_dropZ; lia.
Qed.
Lemma lookup_window (raw : bytes) p n i :
  0 <= p -> 0 <= i < n -> takeZ n (dropZ p raw) !! Z.to_nat i = raw !! Z.to_nat (p + i).
Proof.
  intros Hp Hi. unfold takeZ, dropZ. rewrite lookup_take_lt by lia. rewrite lookup_drop. f_equal. lia.
Qed.
(** Two areas with the same bytes read the same. *)
Lemma blk_read_same a b p q n :
  0 <= p -> 0 <= q -> p + n <= lenZ a -> q + n <= lenZ b ->
  (forall i, 0 <= i < n -> a !! Z.to_nat (p + i) = b !! Z.to_nat (q + i)) ->
  blk_read a p n = blk_read b q n.
Proof.
  intros Hp Hq Ha Hb H. destruct (Z.lt_ge_cases n 0) as [Hn|Hn].
  { unfold blk_read. rewrite (proj2 (Z.leb_gt 0 n)) by lia. by rewrite !andb_false_r. }
  rewrite !blk_read_ok by lia. f_equal. apply list_eq. intros i.
  destruct (decide (Z.of_nat i < n)) as [Hi|Hi].
  - specialize (H (Z.of_nat i) ltac:(lia)).
    rewrite <- !(lookup_window _ _ n) in H by lia. by rewrite !Nat2Z.id in H.
  - rewrite !lookup_ge_None_2; [done| |]; unfold takeZ; rewrite length_take; lia.
Qed.
Lemma lookup_write raw p d raw' i :
  blk_write raw p d = Done raw' -> 0 <= i ->
  raw' !! Z.to_nat i = if decide (p <= i < p + lenZ d) then d !! Z.to_nat (i - p) else raw !! Z.to_nat i.
Proof.
  unfold blk_write. destruct (_ && _) eqn:E; [|done]. intros [= <-] Hi.
  apply andb_prop in E as [Hp%Z.leb_le Hl%Z.leb_le]. unfold takeZ, dropZ, lenZ in *.
  destruct (decide _) as [Hin|Hout].
  - rewrite lookup_app_r by (rewrite length_take; lia). rewrite lookup_app_l by (rewrite length_take; lia).
    f_equal. rewrite length_take. lia.
  - destruct (decide (i < p)) as [Hlt|Hge].
    + rewrite lookup_app_l by (rewrite length_take; lia). apply lookup_take_lt. lia.
    + rewrite lookup_app_r by (rewrite length_take; lia). rewrite lookup_app_r by (rewrite length_take; lia).
      rewrite lookup_drop. f_equal. rewrite length_take. lia.
Qed.
Lemma blk_write_inv raw p d raw' :
  blk_write raw p d = Done raw' -> 0 <= p /\ p + lenZ d <= lenZ raw /\ lenZ raw' = lenZ raw.
Proof.
  intros H. pose proof (lenZ_blk_write _ _ _ _ H) as Hl. unfold blk_write in H.
  destruct (_ && _) eqn:E; [|done]. apply andb_prop in E as [?%Z.leb_le ?%Z.leb_le]. lia.
Qed.
(** A read beside what was written, and one inside it. *)
Lemma read_beside raw p d raw' q n :
  blk_write raw p d = Done raw' -> q + n <= p \/ p + lenZ d <= q ->
  blk_read raw' q n = blk_read raw q n.
Proof.
  intros H Ho. pose proof (blk_write_inv _ _ _ _ H) as (Hp & Hd & Hl).
  destruct (decide (0 <= q /\ q + n <= lenZ raw)) as [[Hq Hn]|Hout].
  - apply blk_read_same; [lia..|]. intros i Hi. rewrite (lookup_write _ _ _ _ _ H) by lia.
    rewrite decide_False by lia. done.
  - unfold blk_read. rewrite Hl. destruct (Z.leb_spec 0 q); [|done].
    rewrite (proj2 (Z.leb_gt (q + n) (lenZ raw))) by lia. by rewrite !andb_false_r.
Qed.
Lemma read_inside raw p d raw' q n :
  blk_write raw p d = Done raw' -> p <= q -> 0 <= n -> q + n <= p + lenZ d ->
  blk_read raw' q n = blk_read d (q - p) n.
Proof.
  intros H Hq Hn Hd. pose proof (blk_write_inv _ _ _ _ H) as (Hp & Hle & Hl).
  apply blk_read_same; [lia..|]. intros i Hi. rewrite (lookup_write _ _ _ _ _ H) by lia.
  rewrite decide_True by lia. f_equal. lia.
Qed.
(** A read inside an area that is known. *)
Lemma read_part raw p n d q m :
  blk_read raw p n = Done d -> 0 <= q -> 0 <= m -> q + m <= n ->
  blk_read raw (p + q) m = blk_read d q m.
Proof.
  intros H Hq Hm Hle. pose proof (lenZ_blk_read _ _ _ _ H) as Hl.
  apply blk_read_done in H as (Hp & Hn & Hr & ->).
  apply blk_read_same; [lia..|]. intros i Hi. rewrite lookup_window by lia. f_equal. lia.
Qed.

(** *** 16-bit fields *)
Lemma le_val_le2 v : 0 <= v < 2 ^ 16 -> le_val (le2 v) = v.
Proof. intros H. unfold le2. cbn [le_val]. dlia. Qed.
Lemma ld16_beside raw p d raw' q :
  blk_write raw p d = Done raw' -> q + 2 <= p \/ p + lenZ d <= q -> ld16 raw' q = ld16 raw q.
Proof. intros H Ho. unfold ld16. by rewrite (read_beside _ _ _ _ _ _ H Ho). Qed.
Lemma ld16_st16 raw p v raw' : st16 raw p v = Done raw' -> 0 <= v < 2 ^ 16 -> ld16 raw' p = Done v.
Proof.
  intros H Hv. unfold ld16. unfold st16 in H. rewrite (read_inside _ _ _ _ p 2 H) by (unfold le2; lens).
  rewrite Z.sub_diag. change (blk_read (le2 v) 0 2) with (Done (le2 v)).
  cbn [obind]. by rewrite le_val_le2.
Qed.
Lemma ld16_part raw p n d q :
  blk_read raw p n = Done d -> 0 <= q -> q + 2 <= n -> ld16 raw (p + q) = ld16 d q.
Proof. intros H Hq Hn. unfold ld16. by rewrite (read_part _ _ _ _ _ _ H). Qed.

(** ** Lemmas: the order of the keys *)

(** Bytes from the first on, then length. *)
Fixpoint lex (a b : bytes) : Z :=
  match a, b with
  | [], [] => 0
  | [], _ :: _ => -1
  | _ :: _, [] => 1
  | x :: a, y :: b => if x =? y then lex a b else x - y
  end.
Lemma lex_refl a : lex a a = 0.
Proof. induction a as [|x a IH]; [done|]. cbn [lex]. by rewrite Z.eqb_refl. Qed.
Lemma lex_zero a b : lex a b = 0 -> a = b.
Proof.
  revert b. induction a as [|x a IH]; intros [|y b]; cbn [lex]; try done.
  destruct (Z.eqb_spec x y) as [->|]; [intros; f_equal; by apply IH|lia].
Qed.
Lemma lex_le a b : lex a b <= 0 <-> key_leb a b = true.
Proof.
  revert b. induction a as [|x a IH]; intros [|y b]; cbn [lex key_leb]; try (split; intros; (lia || done)).
  destruct (Z.eqb_spec x y); [apply IH|]. rewrite Z.ltb_lt. lia.
Qed.
Lemma lex_sym a b : 0 < lex a b <-> lex b a < 0.
Proof.
  revert b. induction a as [|x a IH]; intros [|y b]; cbn [lex]; try lia.
  rewrite (Z.eqb_sym y x). destruct (Z.eqb_spec x y); [apply IH|lia].
Qed.
Lemma lex_trans a b c : lex a b <= 0 -> lex b c < 0 -> lex a c < 0.
Proof.
  intros H1 H2. assert (H3 : lex a c <= 0).
  { apply lex_le. apply (key_leb_trans a b c); apply lex_le; lia. }
  destruct (Z.eq_dec (lex a c) 0) as [E%lex_zero|]; [|lia]. subst c. apply lex_sym in H2. lia.
Qed.

Lemma lex_ne a b : lex a b < 0 -> a <> b.
Proof. intros H ->. rewrite lex_refl in H. lia. Qed.
Lemma lex_trans' a b c : lex a b < 0 -> lex b c <= 0 -> lex a c < 0.
Proof.
  intros H1 H2. destruct (Z.eq_dec (lex b c) 0) as [E%lex_zero|]; [by subst|]. apply (lex_trans a b c); lia.
Qed.
Lemma memcmp_lex a b n :
  n = Z.min (lenZ a) (lenZ b) ->
  (if negb (memcmp (takeZ n a) (takeZ n b) =? 0) then memcmp (takeZ n a) (takeZ n b)
   else len_result (if 0 <? lenZ a - lenZ b then 1 else lenZ a - lenZ b)) = lex a b.
Proof.
  revert b n. induction a as [|x a IH]; intros [|y b] n Hn; autorewrite with len in *;
    pose proof (lenZ_nonneg a) as Ha0 || idtac; pose proof (lenZ_nonneg b) as Hb0 || idtac.
  - by subst n.
  - rewrite !takeZ_0 by lia. cbn [memcmp Z.eqb negb lex]. rewrite (proj2 (Z.ltb_ge 0 _)) by lia.
    unfold len_result. by rewrite (proj2 (Z.ltb_lt _ 0)) by lia.
  - rewrite !takeZ_0 by lia. cbn [memcmp Z.eqb negb lex]. by rewrite (proj2 (Z.ltb_lt 0 _)) by lia.
  - specialize (IH b (n - 1) ltac:(lia)).
    assert (Ht : forall (z : Z) l, takeZ n (z :: l) = z :: takeZ (n - 1) l).
    { intros z l. unfold takeZ. replace (Z.to_nat n) with (S (Z.to_nat (n - 1))) by lia. done. }
    rewrite !Ht. cbn [memcmp lex]. destruct (Z.eqb_spec x y) as [->|Hne].
    + by replace (1 + lenZ a - (1 + lenZ b)) with (lenZ a - lenZ b) by lia.
    + by rewrite (proj2 (Z.eqb_neq (x - y) 0)) by lia.
Qed.
(** The comparison of keys is the lexicographic one. *)
Lemma mdb_cmp_memn_lex a b :
  lenZ a < 2 ^ 32 -> lenZ b < 2 ^ 32 -> mdb_cmp_memn a b = Done (lex a b).
Proof.
  intros Ha Hb. pose proof (lenZ_nonneg a). pose proof (lenZ_nonneg b). unfold mdb_cmp_memn.
  replace (if 0 <? lenZ a - lenZ b then lenZ b else lenZ a) with (Z.min (lenZ a) (lenZ b))
    by (destruct (Z.ltb_spec 0 (lenZ a - lenZ b)); lia).
  rewrite wrap_small by lia. rewrite !blk_read_ok by lia. cbn [obind]. rewrite !dropZ_0 by lia.
  by rewrite (memcmp_lex a b _ eq_refl).
Qed.

(** ** Lemmas: binary search *)
Section search.
Context (base n : Z) (nodekey : Z -> outcome bytes) (key_at : Z -> bytes) (cmp : bytes -> bytes -> outcome Z) (key : bytes).
Hypothesis key_read : forall i, base <= i < n -> nodekey i = Done (key_at i).
Hypothesis cmp_lex : forall i, base <= i < n -> cmp key (key_at i) = Done (lex key (key_at i)).
Hypothesis sorted : forall i j, base <= i < j -> j < n -> lex (key_at i) (key_at j) < 0.

(** [r] splits the keys: smaller ones before it, the others from it on. *)
Definition splits (r : Z) : Prop :=
  (forall j, base <= j < r -> 0 < lex key (key_at j)) /\
  (forall j, r < j < n -> lex key (key_at j) < 0).

Lemma smaller_before i j : base <= j <= i -> i < n -> 0 < lex key (key_at i) -> 0 < lex key (key_at j).
Proof.
  intros Hj Hi H. destruct (decide (j = i)) as [->|Hne]; [done|]. apply lex_sym.
  eapply lex_trans; [apply Z.lt_le_incl, (sorted j i); lia|]. by apply lex_sym.
Qed.
Lemma larger_after i j : base <= i -> i < j < n -> lex key (key_at i) <= 0 -> lex key (key_at j) < 0.
Proof. intros Hi Hj H. eapply lex_trans; [done|]. apply sorted; lia. Qed.

Lemma node_search_loop_ok fuel low high i rc :
  base <= low -> low <= high + 1 -> high < n -> high - low < Z.of_nat fuel ->
  (forall j, base <= j < low -> 0 < lex key (key_at j)) ->
  (forall j, high < j < n -> lex key (key_at j) < 0) ->
  low <= high \/ 0 < rc /\ i + 1 = low \/ rc < 0 /\ i = low ->
  (0 < rc -> i + 1 = low) -> (rc < 0 -> i - 1 = high) ->
  exists i' rc', node_search_loop fuel nodekey cmp key low high i rc = Done (i', rc') /\
    let r := if 0 <? rc' then i' + 1 else i' in
    base <= r <= n /\ splits r /\
    (rc' = 0 -> r < n /\ key_at r = key) /\
    (rc' <> 0 -> r < n -> lex key (key_at r) < 0).
Proof.
  revert low high i rc. induction fuel as [|fuel IH]; intros low high i rc Hl Hlh Hh Hf Hlo Hhi Hst Hpos Hneg.
  all: cbn [node_search_loop]; destruct (Z.ltb_spec high low) as [Hend|Hgo]; [|try lia].
  1, 2: exists i, rc; (split; [done|]); assert (high = low - 1) as -> by lia;
    assert (Hr : (if 0 <? rc then i + 1 else i) = low) by (destruct (Z.ltb_spec 0 rc); lia);
    cbn zeta; rewrite Hr; (split; [lia|]); (split; [split; [done|intros j Hj; apply Hhi; lia]|]);
    (split; [lia|intros _ Hn; apply Hhi; lia]).
  set (m := Z.shiftr (low + high) 1).
  assert (Hm : low <= m <= high) by (unfold m; rewrite Z.shiftr_div_pow2 by lia; change (2 ^ 1) with 2; dlia).
  rewrite (key_read m) by lia. cbn [obind]. rewrite (cmp_lex m) by lia. cbn [obind].
  destruct (Z.eqb_spec (lex key (key_at m)) 0) as [E|E].
  { exists m, 0. rewrite E. split; [done|]. cbn [Z.ltb Z.compare]. cbn zeta. apply lex_zero in E.
    split; [lia|]. split; [|split; [intros _; split; [lia|done]|done]]. split; intros j Hj.
    - apply lex_sym. rewrite E. apply sorted; lia.
    - rewrite E. apply sorted; lia. }
  destruct (Z.ltb_spec 0 (lex key (key_at m))) as [Hp|Hn].
  - apply IH; try lia; [|done]. intros j Hj. apply (smaller_before m); lia || done.
  - apply IH; try lia; [done|]. intros j Hj.
    destruct (decide (j = m)) as [->|]; [lia|]. apply (larger_after m); lia.
Qed.
End search.

(** ** Nodes and pages *)

(** The contents of a node: the word in [mn_lo] and [mn_hi], the flags, the key,
    what is stored of the data and the byte that makes its size even. *)
Record pnode := { pn_val : Z; pn_flags : Z; pn_key : bytes; pn_data : bytes; pn_pad : bytes }.
Definition image (nd : pnode) : bytes :=
  le2 (pn_val nd mod 65536) ++ le2 (pn_val nd / 65536) ++ le2 (pn_flags nd) ++ le2 (lenZ (pn_key nd)) ++
  pn_key nd ++ pn_data nd ++ pn_pad nd.
Definition isize (nd : pnode) : Z := lenZ (image nd).
(** On a leaf the word is the size of the data, on a branch page a part of the
    page number. *)
Record pnode_ok (leaf : bool) (nd : pnode) : Prop := {
  po_val : 0 <= pn_val nd < 2 ^ 32;
  po_flags : 0 <= pn_flags nd < 2 ^ 16;
  po_key : lenZ (pn_key nd) < 2 ^ 16;
  po_data : lenZ (pn_data nd) =
    if leaf then if F_ISSET (pn_flags nd) F_BIGDATA then 8 else pn_val nd else 0;
  po_pad : lenZ (pn_pad nd) = Z.land (lenZ (pn_key nd) + lenZ (pn_data nd)) 1
}.

(** The page holds the nodes [ns], each given with its offset: the offsets are
    in the array, in order, the nodes do not overlap, and together they fill
    the page from [mp_upper] to its end. *)
Record page_rep (mp : MDB_page) (ns : list (Z * pnode)) : Prop := {
  pr_kind : IS_LEAF2 mp = false;
  pr_size : lenZ (mp_raw mp) < 2 ^ 16;
  pr_lower : mp_lower mp = 16 + 2 * lenZ ns;
  pr_room : mp_lower mp <= mp_upper mp;
  pr_ptr : forall i p nd, ns !! i = Some (p, nd) -> mp_ptr (mp_raw mp) (Z.of_nat i) = Done p;
  pr_ok : forall i p nd, ns !! i = Some (p, nd) -> pnode_ok (IS_LEAF mp) nd /\ mp_upper mp <= p;
  pr_node : forall i p nd, ns !! i = Some (p, nd) -> blk_read (mp_raw mp) p (isize nd) = Done (image nd);
  pr_apart : forall i j p q nd ne, i <> j -> ns !! i = Some (p, nd) -> ns !! j = Some (q, ne) ->
    p + isize nd <= q \/ q + isize ne <= p;
  pr_total : foldr (fun x t => isize x.2 + t) 0 ns = lenZ (mp_raw mp) - mp_upper mp
}.

Lemma lenZ_le2 v : lenZ (le2 v) = 2.
Proof. done. Qed.
#[export] Hint Rewrite lenZ_le2 : len.
Lemma isize_eq nd : isize nd = 8 + lenZ (pn_key nd) + lenZ (pn_data nd) + lenZ (pn_pad nd).
Proof. unfold isize, image. autorewrite with len. lia. Qed.
Lemma land_1 x : Z.land x 1 = x mod 2.
Proof. apply (Z.land_ones x 1). lia. Qed.
Lemma even_up_size leaf nd :
  pnode_ok leaf nd -> isize nd = even_up (8 + lenZ (pn_key nd) + lenZ (pn_data nd)).
Proof.
  intros [_ _ _ _ Hp]. rewrite isize_eq, Hp. unfold even_up. rewrite !land_1. dlia.
Qed.

(** Fields of an image. *)
Lemma ld16_app (a b : bytes) q : 0 <= q -> q + 2 <= lenZ b -> ld16 (a ++ b) (lenZ a + q) = ld16 b q.
Proof.
  intros Hq Hb. unfold ld16. rewrite !blk_read_ok by lens. do 2 f_equal. unfold takeZ, dropZ, lenZ.
  replace (Z.to_nat (Z.of_nat (length a) + q)) with (length a + Z.to_nat q)%nat by lia.
  by rewrite drop_app_add.
Qed.
Lemma ld16_head v (b : bytes) : 0 <= v < 2 ^ 16 -> ld16 (le2 v ++ b) 0 = Done v.
Proof.
  intros Hv. unfold ld16. rewrite blk_read_ok by (rewrite ?lenZ_app, ?lenZ_le2; lens).
  rewrite dropZ_0 by lia. rewrite takeZ_app_eq by done. cbn [obind]. by rewrite le_val_le2.
Qed.
Lemma read_app (a b c : bytes) : blk_read (a ++ b ++ c) (lenZ a) (lenZ b) = Done b.
Proof. rewrite blk_read_ok by lens. rewrite dropZ_app_eq by done. by rewrite takeZ_app_eq. Qed.

Lemma image_fields leaf nd :
  pnode_ok leaf nd ->
  ld16 (image nd) 0 = Done (pn_val nd mod 65536) /\ ld16 (image nd) 2 = Done (pn_val nd / 65536) /\
  ld16 (image nd) 4 = Done (pn_flags nd) /\ ld16 (image nd) 6 = Done (lenZ (pn_key nd)).
Proof.
  intros [Hv Hf Hk _ _]. pose proof (lenZ_nonneg (pn_key nd)). unfold image.
  set (x0 := le2 (pn_val nd mod 65536)). set (x1 := le2 (pn_val nd / 65536)). set (x2 := le2 (pn_flags nd)).
  set (t := pn_key nd ++ _). split; [apply ld16_head; dlia|].
  split; [change 2 with (lenZ x0 + 0); rewrite ld16_app by (unfold x1; lens); apply ld16_head; dlia|].
  split; [rewrite app_assoc; change 4 with (lenZ (x0 ++ x1) + 0); rewrite ld16_app by (unfold x2; lens);
          apply ld16_head; lia|].
  rewrite !app_assoc, <- (app_assoc _ _ t). change 6 with (lenZ ((x0 ++ x1) ++ x2) + 0).
  rewrite ld16_app by lens. apply ld16_head. lia.
Qed.

Section fields.
Context (mp : MDB_page) (ns : list (Z * pnode)) (Hmp : page_rep mp ns).
Context (i : nat) (p : Z) (nd : pnode) (Hi : ns !! i = Some (p, nd)).

Lemma field_read q : 0 <= q -> q + 2 <= isize nd -> ld16 (mp_raw mp) (p + q) = ld16 (image nd) q.
Proof. intros Hq Hs. eapply ld16_part; [by eapply pr_node|done|done]. Qed.
Lemma node_fields :
  mn_lo (mp_raw mp) p = Done (pn_val nd mod 65536) /\ mn_hi (mp_raw mp) p = Done (pn_val nd / 65536) /\
  mn_flags (mp_raw mp) p = Done (pn_flags nd) /\ mn_ksize (mp_raw mp) p = Done (lenZ (pn_key nd)).
Proof.
  destruct (pr_ok _ _ Hmp _ _ _ Hi) as [Hok _]. destruct (image_fields _ _ Hok) as (H0 & H1 & H2 & H3).
  pose proof (isize_eq nd) as Hs. pose proof (lenZ_nonneg (pn_key nd)). pose proof (lenZ_nonneg (pn_data nd)).
  pose proof (lenZ_nonneg (pn_pad nd)). unfold mn_lo, mn_hi, mn_flags, mn_ksize.
  rewrite <- (Z.add_0_r p) at 1. rewrite !field_read by lia. done.
Qed.
Lemma node_key : NODEKEY (mp_raw mp) p = Done (pn_key nd).
Proof.
  destruct node_fields as (_ & _ & _ & Hk). unfold NODEKEY. rewrite Hk. cbn [obind].
  pose proof (isize_eq nd) as Hs. pose proof (lenZ_nonneg (pn_key nd)). pose proof (lenZ_nonneg (pn_data nd)).
  pose proof (lenZ_nonneg (pn_pad nd)).
  rewrite (read_part _ _ _ _ NODESIZE _ (pr_node _ _ Hmp _ _ _ Hi)) by (unfold NODESIZE; lia).
  unfold image. rewrite 3!app_assoc. apply read_app.
Qed.
Lemma node_dsz : NODEDSZ (mp_raw mp) p = Done (pn_val nd).
Proof.
  destruct node_fields as (H0 & H1 & _). destruct (pr_ok _ _ Hmp _ _ _ Hi) as [[Hv _ _ _ _] _].
  unfold NODEDSZ. rewrite H0, H1. cbn [obind]. rewrite lor_shiftl by dlia. f_equal. dlia.
Qed.
Lemma node_bytes_ok : node_bytes (IS_LEAF mp) (mp_raw mp) p = Done (isize nd).
Proof.
  destruct node_fields as (_ & _ & Hf & Hk). destruct (pr_ok _ _ Hmp _ _ _ Hi) as [Hok _].
  rewrite (even_up_size _ _ Hok). unfold node_bytes. rewrite Hk, Hf. cbn [obind].
  pose proof (po_data _ _ Hok) as Hd. destruct (IS_LEAF mp); [destruct (F_ISSET _ _)|];
    rewrite ?node_dsz; cbn [obind]; rewrite Hd; unfold NODESIZE; do 2 f_equal; lia.
Qed.
End fields.

(** ** Searching a page *)
Definition first_key (mp : MDB_page) : Z := if IS_LEAF mp then 0 else 1.
Definition page_key (ns : list (Z * pnode)) (i : Z) : bytes :=
  match ns !! Z.to_nat i with Some (_, nd) => pn_key nd | None => [] end.
(** The keys are in strictly increasing order; the first key of a branch page
    is never looked at. *)
Definition page_sorted (mp : MDB_page) (ns : list (Z * pnode)) : Prop :=
  forall i j, first_key mp <= i < j -> j < lenZ ns -> lex (page_key ns i) (page_key ns j) < 0.

Lemma NUMKEYS_rep mp ns : page_rep mp ns -> NUMKEYS mp = lenZ ns.
Proof.
  intros H. unfold NUMKEYS. rewrite (pr_lower _ _ H). unfold PAGEHDRSZ. rewrite Z.shiftr_div_pow2 by lia.
  change (2 ^ 1) with 2. dlia.
Qed.
Lemma lookup_page (ns : list (Z * pnode)) i :
  0 <= i < lenZ ns -> exists p nd, ns !! Z.to_nat i = Some (p, nd).
Proof.
  intros Hi. destruct (lookup_lt_is_Some_2 ns (Z.to_nat i)) as [[p nd] H]; [unfold lenZ in Hi; lia|]. by exists p, nd.
Qed.
Lemma page_key_read mp ns i :
  page_rep mp ns -> 0 <= i < lenZ ns ->
  (olet! ofs := mp_ptr (mp_raw mp) i in NODEKEY (mp_raw mp) ofs) = Done (page_key ns i) /\
  lenZ (page_key ns i) < 2 ^ 16.
Proof.
  intros H Hi. destruct (lookup_page ns i Hi) as (p & nd & Hp). unfold page_key. rewrite Hp.
  pose proof (pr_ptr _ _ H _ _ _ Hp) as Hptr. rewrite Z2Nat.id in Hptr by lia. rewrite Hptr. cbn [obind].
  split; [by eapply node_key|]. by destruct (pr_ok _ _ H _ _ _ Hp) as [[_ _ Hk _ _] _].
Qed.
(** There are two bytes behind the array of a page that has a node. *)
Lemma ptr_readable mp ns i :
  page_rep mp ns -> ns <> [] -> 0 <= i <= lenZ ns -> exists o, mp_ptr (mp_raw mp) i = Done o.
Proof.
  intros H Hne Hi. destruct ns as [|[p nd] ns]; [done|].
  destruct (pr_ok _ _ H O _ _ eq_refl) as [_ Hu]. pose proof (pr_node _ _ H O _ _ eq_refl) as Hr.
  apply blk_read_done in Hr as (_ & _ & Hr & _). pose proof (isize_eq nd).
  pose proof (pr_lower _ _ H). pose proof (pr_room _ _ H). unfold mp_ptr, ld16, ptr_pos, PAGEHDRSZ.
  rewrite blk_read_ok by lens. by eexists.
Qed.

Lemma node_search_ok (mp : MDB_page) (ns : list (Z * pnode)) (md_pad : Z) (key : bytes) :
  page_rep mp ns -> page_sorted mp ns -> first_key mp < lenZ ns -> lenZ key < 2 ^ 32 ->
  exists node r exact,
    mdb_node_search mp CmpMemn md_pad key = Done (node, r, exact) /\
    first_key mp <= r <= lenZ ns /\
    node = fst <$> ns !! Z.to_nat r /\
    (forall j, first_key mp <= j < r -> lex (page_key ns j) key < 0) /\
    (forall j, r < j < lenZ ns -> lex key (page_key ns j) < 0) /\
    (exact = false -> r < lenZ ns -> lex key (page_key ns r) < 0) /\
    (exact = true -> r < lenZ ns /\ page_key ns r = key) /\
    (exact = false -> forall j, first_key mp <= j < lenZ ns -> page_key ns j <> key).
Proof.
  intros H Hs Hn Hk. unfold mdb_node_search. rewrite (NUMKEYS_rep _ _ H), (pr_kind _ _ H).
  assert (Hf : 0 <= first_key mp) by (unfold first_key; destruct (IS_LEAF mp); lia).
  fold (first_key mp). rewrite (proj2 (Z.leb_gt (lenZ ns) 0)) by lia.
  rewrite bool_decide_eq_false_2 by done. cbn [andb obind].
  destruct (node_search_loop_ok (first_key mp) (lenZ ns)
    (fun i => olet! ofs := mp_ptr (mp_raw mp) i in NODEKEY (mp_raw mp) ofs) (page_key ns) mdb_cmp_memn key)
    with (fuel := Z.to_nat (lenZ ns)) (low := first_key mp) (high := lenZ ns - 1) (i := 0) (rc := 0)
    as (i & rc & E & Hr & [Hlo Hhi] & Hex & Hnx); try lia.
  { intros j Hj. by destruct (page_key_read mp ns j H ltac:(lia)). }
  { intros j Hj. apply mdb_cmp_memn_lex; [done|]. destruct (page_key_read mp ns j H ltac:(lia)); lia. }
  { exact Hs. }
  cbn [run_cmp]. rewrite E. cbn [obind]. rewrite (proj2 (Z.ltb_ge (lenZ ns - 1) _)) by lia. cbn [andb].
  set (r := if 0 <? rc then i + 1 else i) in *.
  destruct (ptr_readable mp ns r H) as [o Ho]; [by intros ->; unfold lenZ in Hn; simpl in Hn; lia|lia|]. rewrite Ho. cbn [obind].
  do 3 eexists. split; [done|]. split; [done|]. split; [|split; [|split; [|split; [|split]]]].
  - destruct (Z.leb_spec (lenZ ns) r) as [Hge|Hlt].
    + rewrite lookup_ge_None_2 by (unfold lenZ in Hge; lia). done.
    + destruct (lookup_page ns r ltac:(lia)) as (p & nd & Hp). rewrite Hp.
      pose proof (pr_ptr _ _ H _ _ _ Hp) as Hptr. rewrite Z2Nat.id in Hptr by lia. rewrite Ho in Hptr.
      by injection Hptr as ->.
  - intros j Hj. by apply lex_sym, Hlo.
  - done.
  - intros E0%Z.eqb_neq. by apply Hnx.
  - intros E0%Z.eqb_eq. by apply Hex.
  - intros E0%Z.eqb_neq j Hj Hjk. destruct (Z.lt_trichotomy j r) as [?|[->|?]].
    + specialize (Hlo j ltac:(lia)). rewrite Hjk, lex_refl in Hlo. lia.
    + specialize (Hnx E0 ltac:(lia)). rewrite Hjk, lex_refl in Hnx. lia.
    + specialize (Hhi j ltac:(lia)). rewrite Hjk, lex_refl in Hhi. lia.
Qed.

(** ** Adding a node to a page *)
Lemma ptrs_up_ok n indx raw :
  0 <= indx <= Z.of_nat n -> ptr_pos (Z.of_nat n) + 2 <= lenZ raw ->
  (forall i, 0 <= i < Z.of_nat n -> exists p, mp_ptr raw i = Done p /\ 0 <= p < 2 ^ 16) ->
  exists raw', ptrs_up n indx raw = Done raw' /\ lenZ raw' = lenZ raw /\
    (forall i, 0 <= i < indx -> mp_ptr raw' i = mp_ptr raw i) /\
    (forall i, indx <= i < Z.of_nat n -> mp_ptr raw' (i + 1) = mp_ptr raw i) /\
    (forall q m, ptr_pos (Z.of_nat n) + 2 <= q -> blk_read raw' q m = blk_read raw q m).
Proof.
  revert raw. induction n as [|n IH]; intros raw Hi Hl Hp.
  { exists raw. split; [done|]. split; [done|]. split; [done|]. split; [lia|done]. }
  cbn [ptrs_up]. destruct (Z.leb_spec (Z.of_nat (S n)) indx) as [Hle|Hgt].
  { exists raw. split; [done|]. split; [done|]. split; [done|]. split; [lia|done]. }
  unfold ptr_pos, PAGEHDRSZ in Hl. destruct (Hp (Z.of_nat n)) as (p & Ep & Hpr); [lia|]. rewrite Ep. cbn [obind].
  unfold set_ptr, st16, ptr_pos, PAGEHDRSZ. rewrite blk_write_ok by lens.
  set (raw1 := takeZ _ raw ++ _). cbn [obind].
  assert (Hw : st16 raw (16 + 2 * Z.of_nat (S n)) p = Done raw1) by (apply blk_write_ok; lens).
  pose proof (blk_write_inv _ _ _ _ Hw) as (_ & _ & Hl1).
  assert (Hb : forall i, 0 <= i <= Z.of_nat n -> mp_ptr raw1 i = mp_ptr raw i).
  { intros i Hi0. unfold mp_ptr, ptr_pos, PAGEHDRSZ. eapply ld16_beside; [exact Hw|lia]. }
  destruct (IH raw1) as (raw' & E & Hl' & Hlow & Hup & Hfar); [lia|unfold ptr_pos, PAGEHDRSZ; lia| |].
  { intros i Hi0. rewrite Hb by lia. apply Hp. lia. }
  unfold ptr_pos, PAGEHDRSZ in *. exists raw'. split; [done|]. split; [lia|].
  split; [intros i Hi0; rewrite Hlow, Hb by lia; done|]. split.
  - intros i Hi0. destruct (decide (i = Z.of_nat n)) as [->|Hne]; [|rewrite Hup, Hb by lia; done].
    unfold mp_ptr, ptr_pos, PAGEHDRSZ, ld16 in *. rewrite Hfar by lia. rewrite Ep.
    change (ld16 raw1 (16 + 2 * (Z.of_nat n + 1)) = Done p). replace (Z.of_nat n + 1) with (Z.of_nat (S n)) by lia.
    by eapply ld16_st16.
  - intros q m Hq. rewrite Hfar by lia. eapply read_beside; [exact Hw|]. right. lens.
Qed.

(** A list with one more element. *)
Definition insert_at {A} (i : Z) (x : A) (l : list A) : list A := takeZ i l ++ x :: dropZ i l.
Lemma lookup_insert_at {A} i (x : A) l (j : nat) :
  0 <= i <= lenZ l ->
  insert_at i x l !! j =
    if decide (Z.of_nat j < i) then l !! j else if decide (Z.of_nat j = i) then Some x else l !! pred j.
Proof.
  intros Hi. unfold insert_at, takeZ, dropZ, lenZ in *. destruct (decide _) as [Hlt|Hge].
  - rewrite lookup_app_l by (rewrite length_take; lia). apply lookup_take_lt. lia.
  - rewrite lookup_app_r by (rewrite length_take; lia). rewrite length_take, Nat.min_l by lia.
    destruct (decide _) as [He|Hne].
    + by replace (j - Z.to_nat i)%nat with O by lia.
    + replace (j - Z.to_nat i)%nat with (S (pred j - Z.to_nat i)) by lia. cbn [lookup list_lookup].
      change (drop (Z.to_nat i) l !! (pred j - Z.to_nat i)%nat = l !! pred j). rewrite lookup_drop. f_equal. lia.
Qed.
Lemma lenZ_insert_at {A} i (x : A) l : lenZ (insert_at i x l) = lenZ l + 1.
Proof.
  unfold insert_at. rewrite lenZ_app, lenZ_cons. rewrite <- (takeZ_dropZ i l) at 3. rewrite lenZ_app. lia.
Qed.
Lemma sizes_insert_at i x (ns : list (Z * pnode)) :
  foldr (fun x t => isize x.2 + t) 0 (insert_at i x ns) = isize x.2 + foldr (fun x t => isize x.2 + t) 0 ns.
Proof.
  unfold insert_at. rewrite <- (takeZ_dropZ i ns) at 3. induction (takeZ i ns) as [|y l IH]; cbn [app foldr]; [done|].
  rewrite IH. lia.
Qed.
(** An element of the longer list is the new one or stood before in the other. *)
Lemma insert_at_inv {A} i (x : A) l (j : nat) y :
  0 <= i <= lenZ l -> insert_at i x l !! j = Some y ->
  Z.of_nat j = i /\ y = x \/
  exists k, l !! k = Some y /\ (Z.of_nat k < i /\ j = k \/ i <= Z.of_nat k /\ j = S k).
Proof.
  intros Hi. rewrite lookup_insert_at by done. destruct (decide _) as [Hlt|Hge].
  - intros Hj. right. exists j. split; [done|]. by left.
  - destruct (decide _) as [He|Hne]; [intros [= <-]; by left|]. intros Hj. right. exists (pred j).
    split; [done|]. right. lia.
Qed.

Lemma rep_ptr_range mp ns i p nd :
  page_rep mp ns -> ns !! i = Some (p, nd) ->
  16 + 2 * lenZ ns <= mp_upper mp <= p /\ p + isize nd <= lenZ (mp_raw mp) /\ 8 <= isize nd.
Proof.
  intros H Hi. destruct (pr_ok _ _ H _ _ _ Hi) as [_ Hu]. pose proof (pr_node _ _ H _ _ _ Hi) as Hr.
  apply blk_read_done in Hr as (_ & _ & Hr & _). pose proof (pr_lower _ _ H). pose proof (pr_room _ _ H).
  rewrite isize_eq in *. lens.
Qed.

Lemma rep_upper mp ns : page_rep mp ns -> mp_upper mp <= lenZ (mp_raw mp).
Proof.
  intros H. pose proof (pr_total _ _ H) as Ht. enough (0 <= foldr (fun x t => isize x.2 + t) 0 ns) by lia.
  clear. induction ns as [|x ns IH]; cbn [foldr]; [done|]. pose proof (lenZ_nonneg (image x.2)). unfold isize in *. lia.
Qed.

(** The array after the insertion of a pointer. *)
Lemma insert_ptr_ok mp ns indx ofs :
  page_rep mp ns -> 0 <= indx <= lenZ ns -> mp_lower mp + 2 <= mp_upper mp -> 0 <= ofs < 2 ^ 16 ->
  exists raw1 raw1', ptrs_up (length ns) indx (mp_raw mp) = Done raw1 /\ set_ptr raw1 indx ofs = Done raw1' /\
    lenZ raw1' = lenZ (mp_raw mp) /\
    (forall q m, mp_lower mp + 2 <= q -> blk_read raw1' q m = blk_read (mp_raw mp) q m) /\
    mp_ptr raw1' indx = Done ofs /\
    (forall i, 0 <= i < indx -> mp_ptr raw1' i = mp_ptr (mp_raw mp) i) /\
    (forall i, indx <= i < lenZ ns -> mp_ptr raw1' (i + 1) = mp_ptr (mp_raw mp) i).
Proof.
  intros H Hi Hroom Hofs. pose proof (rep_upper _ _ H) as Hu. pose proof (pr_lower _ _ H) as Hlo.
  pose proof (pr_size _ _ H) as Hsz.
  destruct (ptrs_up_ok (length ns) indx (mp_raw mp)) as (raw1 & E1 & Hl1 & Hlow & Hup & Hfar);
    [exact Hi|unfold ptr_pos, PAGEHDRSZ, lenZ in *; lia| |].
  { intros i Hj. destruct (lookup_page ns i Hj) as (p & nd & Hp). exists p.
    pose proof (pr_ptr _ _ H _ _ _ Hp) as Hptr. rewrite Z2Nat.id in Hptr by lia. split; [done|].
    pose proof (rep_ptr_range _ _ _ _ _ H Hp). lens. }
  fold (lenZ ns) in *. unfold ptr_pos, PAGEHDRSZ in Hfar.
  assert (E2 : exists raw1', set_ptr raw1 indx ofs = Done raw1').
  { unfold set_ptr, st16, ptr_pos, PAGEHDRSZ. rewrite blk_write_ok by lens. by eexists. }
  destruct E2 as [raw1' E2]. pose proof (blk_write_inv _ _ _ _ E2) as (_ & _ & Hl2).
  exists raw1, raw1'. split; [done|]. split; [done|]. split; [lia|]. unfold set_ptr, st16, ptr_pos, PAGEHDRSZ in E2.
  split; [|split; [|split]].
  - intros q m Hq. rewrite (read_beside _ _ _ _ q m E2) by (right; rewrite lenZ_le2; lia). apply Hfar. lia.
  - eapply ld16_st16; [exact E2|done].
  - intros i Hj. rewrite <- Hlow by done. eapply ld16_beside; [exact E2|]. unfold ptr_pos, PAGEHDRSZ. lia.
  - intros i Hj. rewrite <- Hup by done. eapply ld16_beside; [exact E2|]. unfold ptr_pos, PAGEHDRSZ.
    rewrite lenZ_le2. lia.
Qed.

(** The page that holds one node more, given what was written. *)
Lemma add_core mp ns indx nd raw1' raw2 :
  page_rep mp ns -> 0 <= indx <= lenZ ns -> pnode_ok (IS_LEAF mp) nd ->
  isize nd + 2 <= mp_upper mp - mp_lower mp ->
  let ofs := mp_upper mp - isize nd in
  lenZ raw1' = lenZ (mp_raw mp) ->
  (forall q m, mp_lower mp + 2 <= q -> blk_read raw1' q m = blk_read (mp_raw mp) q m) ->
  mp_ptr raw1' indx = Done ofs ->
  (forall i, 0 <= i < indx -> mp_ptr raw1' i = mp_ptr (mp_raw mp) i) ->
  (forall i, indx <= i < lenZ ns -> mp_ptr raw1' (i + 1) = mp_ptr (mp_raw mp) i) ->
  lenZ raw2 = lenZ raw1' ->
  (forall q m, q + m <= ofs \/ ofs + isize nd <= q -> blk_read raw2 q m = blk_read raw1' q m) ->
  blk_read raw2 ofs (isize nd) = Done (image nd) ->
  page_rep (page_with (mp_lower mp + 2) ofs raw2 mp) (insert_at indx (ofs, nd) ns).
Proof.
  intros H Hi Hok Hroom ofs Hl1 Hfar1 Hnew Hlow Hup Hl2 Hfar2 Hread.
  pose proof (rep_upper _ _ H) as Hu. pose proof (pr_lower _ _ H) as Hlo. pose proof (pr_size _ _ H) as Hsz.
  pose proof (lenZ_nonneg ns) as Hn. assert (Hs8 : 8 <= isize nd) by (rewrite isize_eq; lens).
  assert (Hptr : forall i, 0 <= i <= lenZ ns -> mp_ptr raw2 i = mp_ptr raw1' i).
  { intros i Hj. unfold mp_ptr, ld16, ptr_pos, PAGEHDRSZ. by rewrite Hfar2 by lia. }
  assert (Hlo' : u16 (mp_lower mp + 2) = mp_lower mp + 2) by (apply wrap_small; lia).
  assert (Hof' : u16 ofs = ofs) by (apply wrap_small; unfold ofs; lens).
  constructor; cbn [mp_raw mp_lower mp_upper page_with]; rewrite ?Hlo', ?Hof'.
  - exact (pr_kind _ _ H).
  - lia.
  - rewrite lenZ_insert_at. lia.
  - unfold ofs. lia.
  - intros i p ne Hj. apply insert_at_inv in Hj as [[<- [= -> ->]]|(k & Hk & Hc)]; [rewrite Hptr by lia; done| |done].
    pose proof (lookup_lt_Some _ _ _ Hk) as Hkl. rewrite <- (pr_ptr _ _ H _ _ _ Hk).
    assert (Hkl' : Z.of_nat k < lenZ ns) by (unfold lenZ; lia).
    destruct Hc as [[Hc ->]|[Hc ->]]; [rewrite Hptr by lia; apply Hlow; lia|].
    replace (Z.of_nat (S k)) with (Z.of_nat k + 1) by lia. rewrite Hptr by lia. apply Hup. lia.
  - intros i p ne Hj. apply insert_at_inv in Hj as [[_ [= -> ->]]|(k & Hk & _)]; [by split| |done].
    destruct (pr_ok _ _ H _ _ _ Hk) as [Hk1 Hk2]. split; [done|]. unfold ofs. lens.
  - intros i p ne Hj. apply insert_at_inv in Hj as [[_ [= -> ->]]|(k & Hk & _)]; [done| |done].
    pose proof (rep_ptr_range _ _ _ _ _ H Hk) as Hr. rewrite Hfar2 by (right; unfold ofs; lia).
    rewrite Hfar1 by lia. by eapply pr_node.
  - intros i j p q ne nf Hij Hi1 Hj1.
    apply insert_at_inv in Hi1 as [[Ei [= -> ->]]|(k & Hk & Hkc)]; [| |done];
      apply insert_at_inv in Hj1 as [[Ej [= -> ->]]|(m & Hm & Hmc)]; try done.
    + lia.
    + left. pose proof (rep_ptr_range _ _ _ _ _ H Hm). unfold ofs. lia.
    + right. pose proof (rep_ptr_range _ _ _ _ _ H Hk). unfold ofs. lia.
    + eapply (pr_apart _ _ H k m); [|done|done]. lia.
  - rewrite sizes_insert_at, (pr_total _ _ H). cbn [snd]. unfold ofs. lia.
Qed.

(** *** Sequences of copies *)
Definition beside (q m : Z) (w : Z * bytes) : Prop := q + m <= w.1 \/ w.1 + lenZ w.2 <= q.
Lemma parts_len ws raw raw' : write_parts ws raw = Done raw' -> lenZ raw' = lenZ raw.
Proof.
  revert raw. induction ws as [|[p d] ws IH]; intros raw; cbn [write_parts]; [by intros [= <-]|].
  destruct (blk_write raw p d) as [r|] eqn:E; [|done]. cbn [obind]. intros H. rewrite (IH _ H).
  by eapply lenZ_blk_write.
Qed.
Lemma parts_ok ws raw :
  Forall (fun w => 0 <= w.1 /\ w.1 + lenZ w.2 <= lenZ raw) ws -> exists raw', write_parts ws raw = Done raw'.
Proof.
  revert raw. induction ws as [|[p d] ws IH]; intros raw H; cbn [write_parts]; [by exists raw|].
  apply Forall_cons in H as [[Hp Hd] H]. cbn [fst snd] in *. rewrite blk_write_ok by done. cbn [obind].
  apply IH. rewrite (lenZ_blk_write raw p d) by (by apply blk_write_ok). done.
Qed.
Lemma parts_beside ws raw raw' q m :
  write_parts ws raw = Done raw' -> Forall (beside q m) ws -> blk_read raw' q m = blk_read raw q m.
Proof.
  revert raw. induction ws as [|[p d] ws IH]; intros raw E H; cbn [write_parts] in E; [by injection E as <-|].
  apply Forall_cons in H as [Hb H]. destruct (blk_write raw p d) as [r|] eqn:Ew; [|done].
  rewrite (IH r E H). by eapply read_beside.
Qed.
Lemma parts_read ws1 ws2 p d raw raw' :
  write_parts (ws1 ++ (p, d) :: ws2) raw = Done raw' -> Forall (beside p (lenZ d)) ws2 ->
  blk_read raw' p (lenZ d) = Done d.
Proof.
  revert raw. induction ws1 as [|[q e] ws1 IH]; intros raw E H; cbn [app write_parts] in E.
  - destruct (blk_write raw p d) as [r|] eqn:Ew; [|done]. rewrite (parts_beside _ _ _ _ _ E H).
    rewrite (read_inside _ _ _ _ p (lenZ d) Ew) by lens. rewrite Z.sub_diag. rewrite blk_read_ok by lens.
    rewrite dropZ_0 by lia. by rewrite takeZ_all by lia.
  - destruct (blk_write raw q e) as [r|]; [|done]. by eapply IH.
Qed.
Lemma read_join raw p n m a b :
  blk_read raw p n = Done a -> blk_read raw (p + n) m = Done b -> blk_read raw p (n + m) = Done (a ++ b).
Proof.
  intros Ha Hb. pose proof (lenZ_blk_read _ _ _ _ Ha) as La. pose proof (lenZ_blk_read _ _ _ _ Hb) as Lb.
  pose proof Ha as (Hp & Hn & Hr & Ea)%blk_read_done. pose proof Hb as (_ & Hm & Hr' & Eb)%blk_read_done.
  rewrite blk_read_ok by lia. f_equal. subst a b. unfold takeZ, dropZ.
  rewrite Z2Nat.inj_add by lia. rewrite <- take_take_drop. rewrite drop_drop, <- Z2Nat.inj_add by lia. done.
Qed.

(** The fields of the node at [ofs], one after the other. *)
Lemma image_read raw ofs nd pad :
  blk_read raw ofs 2 = Done (le2 (pn_val nd mod 65536)) ->
  blk_read raw (ofs + 2) 2 = Done (le2 (pn_val nd / 65536)) ->
  blk_read raw (ofs + 4) 2 = Done (le2 (pn_flags nd)) ->
  blk_read raw (ofs + 6) 2 = Done (le2 (lenZ (pn_key nd))) ->
  blk_read raw (ofs + 8) (lenZ (pn_key nd)) = Done (pn_key nd) ->
  blk_read raw (ofs + 8 + lenZ (pn_key nd)) (lenZ (pn_data nd)) = Done (pn_data nd) ->
  blk_read raw (ofs + 8 + lenZ (pn_key nd) + lenZ (pn_data nd)) (lenZ pad) = Done pad ->
  pn_pad nd = pad ->
  blk_read raw ofs (isize nd) = Done (image nd).
Proof.
  intros H0 H2 H4 H6 H8 Hd Hp <-. rewrite isize_eq. unfold image. rewrite !app_assoc.
  replace (8 + lenZ (pn_key nd) + lenZ (pn_data nd) + lenZ (pn_pad nd))
    with (2 + 2 + 2 + 2 + lenZ (pn_key nd) + lenZ (pn_data nd) + lenZ (pn_pad nd)) by lia.
  repeat apply read_join; [done|done|..];
    [by replace (ofs + (2 + 2)) with (ofs + 4) by lia
    |by replace (ofs + (2 + 2 + 2)) with (ofs + 6) by lia
    |by replace (ofs + (2 + 2 + 2 + 2)) with (ofs + 8) by lia
    |by replace (ofs + (2 + 2 + 2 + 2 + lenZ (pn_key nd))) with (ofs + 8 + lenZ (pn_key nd)) by lia
    |].
  by replace (ofs + (2 + 2 + 2 + 2 + lenZ (pn_key nd) + lenZ (pn_data nd)))
    with (ofs + 8 + lenZ (pn_key nd) + lenZ (pn_data nd)) by lia.
Qed.

(** [part k]: read back the [k]-th of the parts that were written. *)
Ltac part E ws1 :=
  refine (parts_read ws1 _ _ _ _ _ E _); repeat constructor; unfold beside; cbn [fst snd]; rewrite ?lenZ_le2; lens.

Lemma pad_read raw ofs n k :
  0 <= k <= 1 -> 0 <= ofs -> 0 <= n -> ofs + n + k <= lenZ raw ->
  exists pad, lenZ pad = k /\ blk_read raw (ofs + n) (lenZ pad) = Done pad.
Proof.
  intros Hk Ho Hn Hl. assert (E : blk_read raw (ofs + n) k = Done (takeZ k (dropZ (ofs + n) raw)))
    by (apply blk_read_ok; lia).
  exists (takeZ k (dropZ (ofs + n) raw)). pose proof (lenZ_blk_read _ _ _ _ E) as ->. done.
Qed.

Definition leaf_parts (ofs v fl : Z) (key data : bytes) : list (Z * bytes) :=
  [(ofs + 6, le2 (lenZ key)); (ofs + 4, le2 fl); (ofs, le2 (v mod 65536)); (ofs + 2, le2 (v / 65536));
   (ofs + 8, key); (ofs + 8 + lenZ key, data)].
Definition branch_parts (ofs v fl f0 : Z) (key : bytes) : list (Z * bytes) :=
  [(ofs + 6, le2 (lenZ key)); (ofs + 4, le2 f0); (ofs, le2 (v mod 65536)); (ofs + 2, le2 (v / 65536));
   (ofs + 4, le2 fl); (ofs + 8, key)].

Lemma land_1_range x : 0 <= Z.land x 1 <= 1.
Proof. rewrite land_1. dlia. Qed.
(** The bytes a node takes. *)
Definition esize (key data : bytes) : Z := even_up (8 + lenZ key + lenZ data).
Lemma esize_pad key data :
  esize key data = 8 + lenZ key + lenZ data + Z.land (lenZ key + lenZ data) 1.
Proof. unfold esize, even_up. rewrite !land_1. dlia. Qed.

Lemma leaf_written raw raw' ofs v fl key data :
  write_parts (leaf_parts ofs v fl key data) raw = Done raw' ->
  0 <= ofs -> ofs + esize key data <= lenZ raw ->
  exists pad, lenZ pad = Z.land (lenZ key + lenZ data) 1 /\
    let nd := {| pn_val := v; pn_flags := fl; pn_key := key; pn_data := data; pn_pad := pad |} in
    blk_read raw' ofs (isize nd) = Done (image nd).
Proof.
  intros E Ho Hl. pose proof (parts_len _ _ _ E) as Hl'. rewrite esize_pad in Hl.
  pose proof (land_1_range (lenZ key + lenZ data)) as Hk. unfold leaf_parts in E.
  destruct (pad_read raw' ofs (8 + lenZ key + lenZ data) _ Hk) as (pad & Hp & Hr); [lens..|].
  exists pad. split; [done|]. apply (image_read _ _ _ pad); cbn [pn_val pn_flags pn_key pn_data pn_pad];
    [part E [(ofs + 6, le2 (lenZ key)); (ofs + 4, le2 fl)]
    |part E [(ofs + 6, le2 (lenZ key)); (ofs + 4, le2 fl); (ofs, le2 (v mod 65536))]
    |part E [(ofs + 6, le2 (lenZ key))]
    |part E (@nil (Z * bytes))
    |part E [(ofs + 6, le2 (lenZ key)); (ofs + 4, le2 fl); (ofs, le2 (v mod 65536)); (ofs + 2, le2 (v / 65536))]
    |part E [(ofs + 6, le2 (lenZ key)); (ofs + 4, le2 fl); (ofs, le2 (v mod 65536)); (ofs + 2, le2 (v / 65536)); (ofs + 8, key)]
    | |done].
  by rewrite !Z.add_assoc in Hr.
Qed.
Lemma branch_written raw raw' ofs v fl f0 key :
  write_parts (branch_parts ofs v fl f0 key) raw = Done raw' ->
  0 <= ofs -> ofs + esize key [] <= lenZ raw ->
  exists pad, lenZ pad = Z.land (lenZ key + lenZ (@nil Z)) 1 /\
    let nd := {| pn_val := v; pn_flags := fl; pn_key := key; pn_data := []; pn_pad := pad |} in
    blk_read raw' ofs (isize nd) = Done (image nd).
Proof.
  intros E Ho Hl. pose proof (parts_len _ _ _ E) as Hl'. rewrite esize_pad in Hl.
  pose proof (land_1_range (lenZ key + lenZ (@nil Z))) as Hk. unfold branch_parts in E.
  destruct (pad_read raw' ofs (8 + lenZ key + lenZ (@nil Z)) _ Hk) as (pad & Hp & Hr); [lens..|].
  exists pad. split; [done|]. apply (image_read _ _ _ pad); cbn [pn_val pn_flags pn_key pn_data pn_pad];
    [part E [(ofs + 6, le2 (lenZ key)); (ofs + 4, le2 f0)]
    |part E [(ofs + 6, le2 (lenZ key)); (ofs + 4, le2 f0); (ofs, le2 (v mod 65536))]
    |part E [(ofs + 6, le2 (lenZ key)); (ofs + 4, le2 f0); (ofs, le2 (v mod 65536)); (ofs + 2, le2 (v / 65536))]
    |part E (@nil (Z * bytes))
    |part E [(ofs + 6, le2 (lenZ key)); (ofs + 4, le2 f0); (ofs, le2 (v mod 65536)); (ofs + 2, le2 (v / 65536)); (ofs + 4, le2 fl)]
    | | |done].
  - rewrite lenZ_nil in *. rewrite blk_read_ok by lens. by rewrite takeZ_0.
  - by rewrite !Z.add_assoc in Hr.
Qed.

(** *** Nodes of a leaf *)
Definition val_of (d : bytes) : MDB_val := {| mv_size := lenZ d; mv_data := d |}.
Lemma read_val d : blk_read (mv_data (val_of d)) 0 (mv_size (val_of d)) = Done d.
Proof. simpl. rewrite blk_read_ok by lens. rewrite dropZ_0 by lia. by rewrite takeZ_all by lia. Qed.
Lemma split_word v : 0 <= v < 2 ^ 32 -> Z.land v 65535 = v mod 65536 /\ u16 (Z.shiftr v 16) = v / 65536.
Proof.
  intros Hv. split; [exact (Z.land_ones v 16 ltac:(lia))|]. rewrite Z.shiftr_div_pow2 by lia.
  change (2 ^ 16) with 65536. apply wrap_small. change (2 ^ 16) with 65536. dlia.
Qed.

(** Is the data put on overflow pages, the flags of the node and what it stores
    of the data, [pg] being the page the allocator gives. *)
Definition on_overflow (nodemax : Z) (key data : bytes) : bool := nodemax <=? 8 + lenZ key + lenZ data.
Definition leaf_flags (nodemax flags : Z) (key data : bytes) : Z :=
  if on_overflow nodemax key data then Z.lor flags F_BIGDATA else flags.
Definition leaf_stored (nodemax pg : Z) (key data : bytes) : bytes :=
  if on_overflow nodemax key data then rev (be_bytes 8 pg) else data.
Definition leaf_node (nodemax pg flags : Z) (key data pad : bytes) : pnode :=
  {| pn_val := lenZ data; pn_flags := leaf_flags nodemax flags key data; pn_key := key;
     pn_data := leaf_stored nodemax pg key data; pn_pad := pad |}.

Lemma bigdata_set flags : F_ISSET (Z.lor flags F_BIGDATA) F_BIGDATA = true.
Proof.
  unfold F_ISSET, F_BIGDATA. rewrite Z.land_lor_distr_l. apply Z.eqb_eq. rewrite Z.land_diag.
  apply Z.bits_inj'. intros n Hn. rewrite Z.lor_spec, Z.land_spec. by destruct (Z.testbit flags n), (Z.testbit 1 n).
Qed.
Lemma reserve_unset flags : 0 <= flags < 2 ^ 16 -> F_ISSET flags MDB_RESERVE = false.
Proof.
  intros H. unfold F_ISSET, MDB_RESERVE. apply Z.eqb_neq. intros E.
  apply (f_equal (fun x => Z.testbit x 16)) in E. rewrite Z.land_spec in E.
  rewrite <- (Z.mod_small flags (2 ^ 16)), Z.mod_pow2_bits_high in E by lia. done.
Qed.
Lemma lor_16bit flags : 0 <= flags < 2 ^ 16 -> 0 <= Z.lor flags F_BIGDATA < 2 ^ 16.
Proof.
  intros H. split; [by apply Z.lor_nonneg; unfold F_BIGDATA; lia|].
  destruct (Z.eq_dec (Z.lor flags F_BIGDATA) 0) as [->|Hne]; [lia|].
  apply Z.log2_lt_pow2; [pose proof (proj2 (Z.lor_nonneg flags F_BIGDATA)); unfold F_BIGDATA in *; lia|].
  rewrite Z.log2_lor by (unfold F_BIGDATA; lia). apply Z.max_lub_lt; [|done].
  destruct (Z.eq_dec flags 0) as [->|]; [done|]. apply Z.log2_lt_pow2; lia.
Qed.
Lemma lenZ_leaf_stored nodemax pg key data :
  lenZ (leaf_stored nodemax pg key data) = if on_overflow nodemax key data then 8 else lenZ data.
Proof. unfold leaf_stored. destruct (on_overflow _ _ _); [|done]. unfold lenZ. by rewrite length_rev, length_be_bytes. Qed.
Lemma leaf_node_ok nodemax pg flags key data pad :
  0 <= flags < 2 ^ 16 -> F_ISSET flags F_BIGDATA = false -> lenZ key < 2 ^ 16 -> lenZ data < 2 ^ 32 ->
  lenZ pad = Z.land (lenZ key + lenZ (leaf_stored nodemax pg key data)) 1 ->
  pnode_ok true (leaf_node nodemax pg flags key data pad).
Proof.
  intros Hf Hb Hk Hd Hp. constructor; cbn [leaf_node pn_val pn_flags pn_key pn_data pn_pad]; [lens| |done| |done].
  - unfold leaf_flags. destruct (on_overflow _ _ _); [by apply lor_16bit|done].
  - rewrite lenZ_leaf_stored. unfold leaf_flags. destruct (on_overflow _ _ _); [by rewrite bigdata_set|by rewrite Hb].
Qed.

(** The header, the key and the data of a leaf's node are six copies. *)
Lemma write_leaf nodemax pg flags key data raw ofs pgno :
  0 <= flags < 2 ^ 16 -> F_ISSET flags F_BIGDATA = false -> lenZ key < 2 ^ 16 -> lenZ data < 2 ^ 32 ->
  let big := on_overflow nodemax key data in
  (olet! raw := write_head raw ofs true (Some (val_of key)) (Some (val_of data)) pgno (leaf_flags nodemax flags key data) in
   write_body raw ofs (val_of key) (val_of data) (leaf_flags nodemax flags key data) (if big then Some pg else None))
  = (olet! raw := write_parts (leaf_parts ofs (lenZ data) (leaf_flags nodemax flags key data) key
                                 (leaf_stored nodemax pg key data)) raw in
     Done (raw, if big then Some (pg, data) else None)).
Proof.
  intros Hf Hb Hk Hd. cbn zeta. assert (Hfl : 0 <= leaf_flags nodemax flags key data < 2 ^ 16).
  { unfold leaf_flags. destruct (on_overflow _ _ _); [by apply lor_16bit|done]. }
  destruct (split_word (lenZ data)) as [Hlo Hhi]; [lens|].
  unfold write_head, SETDSZ, st16, leaf_parts, write_parts. cbn [mv_size val_of].
  rewrite (wrap_small 16 (lenZ key)) by lens. rewrite (wrap_small 16 _ Hfl), Hlo, Hhi.
  destruct (blk_write raw _ _) as [r1|]; [|done]. cbn [obind].
  destruct (blk_write r1 _ _) as [r2|]; [|done]. cbn [obind].
  destruct (blk_write r2 _ _) as [r3|]; [|done]. cbn [obind].
  destruct (blk_write r3 _ _) as [r4|]; [|done]. cbn [obind]. change (lenZ key) with (mv_size (val_of key)) at 1.
  rewrite read_val. cbn [obind]. unfold NODESIZE. destruct (blk_write r4 _ _) as [r5|]; [|done]. cbn [obind].
  unfold write_body, leaf_stored. cbn [mv_size val_of mv_data]. unfold NODESIZE.
  destruct (on_overflow _ _ _) eqn:Eo.
  - destruct (blk_write r5 _ _) as [r6|]; [|done]. cbn [obind].
    rewrite reserve_unset by done. pose proof (read_val data) as Hr. simpl in Hr. rewrite Hr. done.
  - rewrite (reserve_unset _ Hfl). unfold leaf_flags. rewrite Eo, Hb.
    pose proof (read_val data) as Hr. simpl in Hr. rewrite Hr. cbn [obind]. by destruct (blk_write r5 _ _).
Qed.

Lemma leaf_size_eq nodemax pg key data :
  mdb_leaf_size nodemax (val_of key) (val_of data) = esize key (leaf_stored nodemax pg key data) + 2.
Proof.
  unfold mdb_leaf_size, esize. rewrite lenZ_leaf_stored. unfold on_overflow, NODESIZE. cbn [mv_size val_of].
  destruct (_ <=? _); do 2 f_equal; lia.
Qed.
Lemma SIZELEFT_rep mp ns : page_rep mp ns -> SIZELEFT mp = mp_upper mp - mp_lower mp.
Proof.
  intros H. apply wrap_small. pose proof (rep_upper _ _ H). pose proof (pr_size _ _ H).
  pose proof (pr_lower _ _ H). pose proof (pr_room _ _ H). lens.
Qed.
Lemma leaf_plan nodemax psize pg flags page_new key data :
  F_ISSET flags F_BIGDATA = false -> (forall n, page_new n = inr pg) ->
  add_plan nodemax psize page_new true (8 + lenZ key) (Some (val_of data)) flags
  = Done (inr (8 + lenZ key + lenZ (leaf_stored nodemax pg key data), leaf_flags nodemax flags key data,
               if on_overflow nodemax key data then Some pg else None)).
Proof.
  intros Hb Hnew. unfold add_plan. rewrite Hb, lenZ_leaf_stored. unfold leaf_flags, on_overflow.
  cbn [mv_size val_of]. destruct (_ <=? _); [by rewrite Hnew|done].
Qed.
(** From the pointer array to the page: [ws] are the copies that write the node. *)
Lemma add_finish mp ns indx sz ws (mk : bytes -> pnode) :
  page_rep mp ns -> 0 <= indx <= lenZ ns -> 8 <= sz -> sz + 2 <= mp_upper mp - mp_lower mp ->
  let ofs := mp_upper mp - sz in
  Forall (fun w => ofs <= w.1 /\ w.1 + lenZ w.2 <= ofs + sz) ws ->
  (forall raw raw', lenZ raw = lenZ (mp_raw mp) -> write_parts ws raw = Done raw' ->
     exists pad, pnode_ok (IS_LEAF mp) (mk pad) /\ isize (mk pad) = sz /\
       blk_read raw' ofs sz = Done (image (mk pad))) ->
  exists raw1 raw1' raw2 pad,
    ptrs_up (length ns) indx (mp_raw mp) = Done raw1 /\ set_ptr raw1 indx ofs = Done raw1' /\
    write_parts ws raw1' = Done raw2 /\ lenZ raw1' = lenZ (mp_raw mp) /\
    page_rep (page_with (mp_lower mp + 2) ofs raw2 mp) (insert_at indx (ofs, mk pad) ns).
Proof.
  intros H Hi Hsz Hroom ofs Hws Hread. pose proof (rep_upper _ _ H) as Hu. pose proof (pr_lower _ _ H) as Hlo.
  pose proof (pr_size _ _ H) as Hps. pose proof (lenZ_nonneg ns) as Hn.
  destruct (insert_ptr_ok mp ns indx ofs H Hi) as (raw1 & raw1' & E1 & E2 & Hl & Hfar & Hnew & Hlow & Hup);
    [unfold ofs; lia..|].
  destruct (parts_ok ws raw1') as [raw2 E3].
  { eapply Forall_impl; [exact Hws|]. intros w Hw. unfold ofs in *. cbn beta in *. lia. }
  destruct (Hread raw1' raw2 Hl E3) as (pad & Hok & His & Hr). exists raw1, raw1', raw2, pad.
  split; [done|]. split; [done|]. split; [done|]. split; [done|].
  pose proof (add_core mp ns indx (mk pad) raw1' raw2 H Hi Hok) as HC. rewrite His in HC.
  apply HC; try done; [by eapply parts_len|].
  intros q m Hq. eapply parts_beside; [exact E3|]. eapply Forall_impl; [exact Hws|].
  intros w Hw. unfold beside. cbn beta in *. fold ofs in Hq. lia.
Qed.

(** A node of a leaf, given what the plan says and that header and body are
    the copies of its parts: the page before is only read through [page_rep]. *)
Lemma leaf_add_core nodemax psize md_pad page_new mp ns indx (key : bytes) (data : MDB_val) pgno flags v fl ofp st ovf :
  page_rep mp ns -> IS_LEAF mp = true -> 0 <= indx <= lenZ ns ->
  add_plan nodemax psize page_new true (8 + lenZ key) (Some data) flags = Done (inr (8 + lenZ key + lenZ st, fl, ofp)) ->
  (forall raw ofs,
     (olet! raw := write_head raw ofs true (Some (val_of key)) (Some data) pgno fl in
      write_body raw ofs (val_of key) data fl ofp)
     = olet! raw := write_parts (leaf_parts ofs v fl key st) raw in Done (raw, ovf)) ->
  (forall pad, lenZ pad = Z.land (lenZ key + lenZ st) 1 ->
     pnode_ok true {| pn_val := v; pn_flags := fl; pn_key := key; pn_data := st; pn_pad := pad |}) ->
  let ofs := mp_upper mp - esize key st in
  let r := mdb_node_add nodemax psize md_pad page_new mp indx (Some (val_of key)) (Some data) pgno flags in
  (SIZELEFT mp < esize key st + 2 -> r = Done (MDB_PAGE_FULL, mp, None)) /\
  (esize key st + 2 <= SIZELEFT mp -> exists raw pad,
     r = Done (MDB_SUCCESS, page_with (mp_lower mp + 2) ofs raw mp, ovf) /\ lenZ raw = lenZ (mp_raw mp) /\
     page_rep (page_with (mp_lower mp + 2) ofs raw mp)
       (insert_at indx (ofs, {| pn_val := v; pn_flags := fl; pn_key := key; pn_data := st; pn_pad := pad |}) ns)).
Proof.
  intros H Hleaf Hi Hplan Hwrite Hnode ofs r. pose proof (SIZELEFT_rep _ _ H) as HS. pose proof (pr_room _ _ H) as Hroom.
  pose proof (esize_pad key st) as Hes. pose proof (land_1_range (lenZ key + lenZ st)) as Hl1.
  unfold r, mdb_node_add. rewrite (proj2 (Z.ltb_ge (mp_upper mp) _)) by lia.
  rewrite (pr_kind _ _ H), Hleaf. cbn [mv_size val_of]. unfold NODESIZE. rewrite Hplan. cbn [obind].
  change (even_up (8 + lenZ key + lenZ st)) with (esize key st).
  split; intros Hcmp; [by rewrite (proj2 (Z.ltb_lt (SIZELEFT mp) _))|].
  rewrite (proj2 (Z.ltb_ge (SIZELEFT mp) _)) by lia. rewrite (NUMKEYS_rep _ _ H). unfold lenZ at 1. rewrite Nat2Z.id.
  pose proof (rep_upper _ _ H) as Hu. pose proof (pr_size _ _ H) as Hps. pose proof (pr_lower _ _ H) as Hlo.
  pose proof (lenZ_nonneg ns) as Hn0. assert (Hofs : u16 ofs = ofs) by (apply wrap_small; unfold ofs; lens).
  destruct (add_finish mp ns indx (esize key st) (leaf_parts ofs v fl key st)
    (fun pad => {| pn_val := v; pn_flags := fl; pn_key := key; pn_data := st; pn_pad := pad |}))
    as (raw1 & raw1' & raw2 & pad & E1 & E2 & E3 & Hl' & Hrep); [done|done|lens|lia| | |].
  { fold ofs. repeat constructor; cbn [fst snd]; rewrite ?lenZ_le2; lens. }
  { fold ofs. intros raw raw' Hl E. destruct (leaf_written _ _ _ _ _ _ _ E) as (pad & Hp & Hr); [unfold ofs; lens|unfold ofs; lia|].
    exists pad. rewrite Hleaf. split; [by apply Hnode|]. pose proof (even_up_size _ _ (Hnode pad Hp)) as His.
    change (even_up _) with (esize key st) in His. split; [done|]. cbn zeta in Hr. by rewrite His in Hr. }
  fold ofs in E2, Hrep. rewrite E1. cbn [obind]. fold ofs. rewrite Hofs, (proj2 (Z.ltb_ge ofs (mp_lower mp + 2))) by (unfold ofs; lia).
  rewrite E2. cbn [obind]. pose proof (Hwrite raw1' ofs) as W. rewrite E3 in W.
  destruct (write_head raw1' _ _ _ _ _ _) as [rh|]; [|done]. cbn [obind] in W |- *. rewrite W. cbn [obind].
  exists raw2, pad. split; [done|]. split; [|exact Hrep]. rewrite (parts_len _ _ _ E3). done.
Qed.
Lemma leaf_add_ok (nodemax psize md_pad pg indx pgno flags : Z) (page_new : Z -> Z + Z)
    (mp : MDB_page) (ns : list (Z * pnode)) (key data : bytes) :
  page_rep mp ns -> IS_LEAF mp = true -> 0 <= indx <= lenZ ns ->
  lenZ key < 2 ^ 16 -> lenZ data < 2 ^ 32 -> 0 <= flags < 2 ^ 16 -> F_ISSET flags F_BIGDATA = false ->
  (forall n, page_new n = inr pg) ->
  let need := mdb_leaf_size nodemax (val_of key) (val_of data) in
  let r := mdb_node_add nodemax psize md_pad page_new mp indx (Some (val_of key)) (Some (val_of data)) pgno flags in
  (SIZELEFT mp < need -> r = Done (MDB_PAGE_FULL, mp, None)) /\
  (need <= SIZELEFT mp -> exists mp' pad,
     r = Done (MDB_SUCCESS, mp', if on_overflow nodemax key data then Some (pg, data) else None) /\
     IS_LEAF mp' = true /\ SIZELEFT mp' = SIZELEFT mp - need /\
     page_rep mp' (insert_at indx (mp_upper mp - (need - 2), leaf_node nodemax pg flags key data pad) ns)).
Proof.
  intros H Hleaf Hi Hk Hd Hf Hb Hnew need r.
  pose proof (leaf_size_eq nodemax pg key data) as Hneed. fold need in Hneed.
  pose proof (SIZELEFT_rep _ _ H) as HS. pose proof (pr_lower _ _ H) as Hlo. pose proof (pr_size _ _ H) as Hps.
  pose proof (rep_upper _ _ H) as Hu. pose proof (lenZ_nonneg ns) as Hn0.
  set (st := leaf_stored nodemax pg key data) in *. assert (Hs8 : 8 <= esize key st) by (rewrite esize_pad; pose proof (land_1_range (lenZ key + lenZ st)); lens).
  destruct (leaf_add_core nodemax psize md_pad page_new mp ns indx key (val_of data) pgno flags (lenZ data)
    (leaf_flags nodemax flags key data) (if on_overflow nodemax key data then Some pg else None) st
    (if on_overflow nodemax key data then Some (pg, data) else None)) as [Hfull Hadd]; [done..| | | |].
  { by apply leaf_plan. }
  { intros raw ofs. by apply write_leaf. }
  { intros pad Hp. by apply (leaf_node_ok nodemax pg flags key data pad). }
  rewrite <- Hneed in Hfull, Hadd. split; [exact Hfull|]. intros Hcmp. destruct (Hadd Hcmp) as (raw & pad & E & _ & Hrep).
  replace (need - 2) with (esize key st) by lia. do 2 eexists. split; [exact E|]. split; [exact Hleaf|]. split; [|exact Hrep].
  rewrite (SIZELEFT_rep _ _ Hrep). cbn [mp_upper mp_lower page_with]. rewrite !wrap_small by lens. lia.
Qed.

(** *** Nodes of a branch page *)
Definition branch_node (pgno : Z) (key pad : bytes) : pnode :=
  {| pn_val := pgno mod 2 ^ 32; pn_flags := pgno / 2 ^ 32; pn_key := key; pn_data := []; pn_pad := pad |}.
Lemma branch_node_ok pgno key pad :
  0 <= pgno < 2 ^ 48 -> lenZ key < 2 ^ 16 -> lenZ pad = Z.land (lenZ key + lenZ (@nil Z)) 1 ->
  pnode_ok false (branch_node pgno key pad).
Proof. intros Hg Hk Hp. constructor; cbn [branch_node pn_val pn_flags pn_key pn_data pn_pad]; [dlia|dlia|done..]. Qed.

(** The key argument: null, or a value with its bytes. *)
Definition key_arg (k : option MDB_val) (key : bytes) : Prop :=
  k = Some (val_of key) \/ k = None /\ key = [].
Lemma write_branch raw ofs k key pgno flags :
  key_arg k key -> 0 <= flags < 2 ^ 16 -> lenZ key < 2 ^ 16 -> 0 <= pgno < 2 ^ 48 ->
  0 <= ofs -> ofs + 8 <= lenZ raw ->
  write_head raw ofs false k None pgno flags
  = write_parts (branch_parts ofs (pgno mod 2 ^ 32) (pgno / 2 ^ 32) flags key) raw.
Proof.
  intros Hk Hf Hkl Hg Ho Hr. unfold write_head, SETPGNO, st16, branch_parts, write_parts.
  assert (Hlo : Z.land pgno 0xffff = pgno mod 2 ^ 32 mod 65536) by (rewrite (Z.land_ones _ 16) by lia; dlia).
  assert (Hhi : u16 (Z.shiftr pgno 16) = pgno mod 2 ^ 32 / 65536)
    by (rewrite Z.shiftr_div_pow2 by lia; unfold wrap; dlia).
  assert (Htop : u16 (Z.shiftr pgno 32) = pgno / 2 ^ 32)
    by (rewrite Z.shiftr_div_pow2 by lia; apply wrap_small; dlia).
  assert (Hks : u16 (match k with Some k => mv_size k | None => 0 end) = lenZ key).
  { destruct Hk as [->|[-> ->]]; [|done]. apply wrap_small. cbn [mv_size val_of]. lens. }
  rewrite Hlo, Hhi, Htop, Hks, (wrap_small 16 _ Hf).
  destruct (blk_write raw _ _) as [r1|] eqn:E1; [|done]. cbn [obind].
  destruct (blk_write r1 _ _) as [r2|] eqn:E2; [|done]. cbn [obind].
  destruct (blk_write r2 _ _) as [r3|] eqn:E3; [|done]. cbn [obind].
  destruct (blk_write r3 _ _) as [r4|] eqn:E4; [|done]. cbn [obind].
  destruct (blk_write r4 _ _) as [r5|] eqn:E5; [|done]. cbn [obind]. unfold NODESIZE.
  destruct Hk as [->|[-> ->]].
  - rewrite read_val. cbn [obind]. by destruct (blk_write r5 _ _).
  - pose proof (lenZ_blk_write _ _ _ _ E1). pose proof (lenZ_blk_write _ _ _ _ E2).
    pose proof (lenZ_blk_write _ _ _ _ E3). pose proof (lenZ_blk_write _ _ _ _ E4). pose proof (lenZ_blk_write _ _ _ _ E5).
    rewrite blk_write_ok by lens. cbn [obind app]. rewrite lenZ_nil, Z.add_0_r. by rewrite takeZ_dropZ.
Qed.

Lemma sizes_even mp ns :
  page_rep mp ns -> lenZ (mp_raw mp) mod 2 = 0 -> SIZELEFT mp mod 2 = 0.
Proof.
  intros H Hp. rewrite (SIZELEFT_rep _ _ H). pose proof (pr_total _ _ H) as Ht. pose proof (pr_lower _ _ H) as Hl.
  enough (foldr (fun x t => isize x.2 + t) 0 ns mod 2 = 0) by dlia.
  assert (Hev : Forall (fun x => isize x.2 mod 2 = 0) ns).
  { apply Forall_lookup. intros i [p nd] Hi. destruct (pr_ok _ _ H _ _ _ Hi) as [Hok _]. cbn [snd].
    rewrite (even_up_size _ _ Hok). unfold even_up. rewrite land_1. dlia. }
  clear - Hev. induction Hev as [|x ns Hx _ IH]; cbn [foldr]; [done|]. dlia.
Qed.


(** ** Deleting a node from a page *)
Definition moved (ptr sz p : Z) : Z := if p <? ptr then p + sz else p.

Section del_loop.
Context (n0 indx ptr sz : Z) (ps : Z -> Z).
Hypothesis indx_range : 0 <= indx < n0.
Hypothesis ps_range : forall t, 0 <= t < n0 -> 0 <= ps t < 2 ^ 16 /\ 0 <= moved ptr sz (ps t) < 2 ^ 16.

(** Where the pointer at [t] goes. *)
Definition slot (t : Z) : Z := if t <=? indx then t else t - 1.

Lemma set_ptr_ok raw j v :
  0 <= j < n0 -> 16 + 2 * n0 <= lenZ raw -> 0 <= v < 2 ^ 16 ->
  exists raw', set_ptr raw j v = Done raw' /\ lenZ raw' = lenZ raw /\ mp_ptr raw' j = Done v /\
    (forall t, 0 <= t -> t <> j -> mp_ptr raw' t = mp_ptr raw t) /\
    (forall q m, 16 + 2 * n0 <= q -> blk_read raw' q m = blk_read raw q m).
Proof.
  intros Hj Hl Hv. assert (E : exists raw', set_ptr raw j v = Done raw').
  { unfold set_ptr, st16, ptr_pos, PAGEHDRSZ. rewrite blk_write_ok by lens. by eexists. }
  destruct E as [raw' E]. exists raw'. split; [done|]. split; [by eapply lenZ_blk_write|].
  split; [by eapply ld16_st16|]. unfold set_ptr, st16, ptr_pos, PAGEHDRSZ in E. split.
  - intros t Ht Hne. eapply ld16_beside; [exact E|]. unfold ptr_pos, PAGEHDRSZ. rewrite lenZ_le2. lia.
  - intros q m Hq. eapply read_beside; [exact E|]. rewrite lenZ_le2. lia.
Qed.

(** One turn of the loop. *)
Lemma del_turn raw i :
  0 <= i < n0 -> i <> indx -> 16 + 2 * n0 <= lenZ raw -> mp_ptr raw i = Done (ps i) ->
  exists raw', (olet! p := mp_ptr raw i in olet! raw := set_ptr raw (slot i) p in olet! p := mp_ptr raw i in
                if p <? ptr then olet! q := mp_ptr raw (slot i) in set_ptr raw (slot i) (u16 (q + sz)) else Done raw)
               = Done raw' /\ lenZ raw' = lenZ raw /\ mp_ptr raw' (slot i) = Done (moved ptr sz (ps i)) /\
    (forall t, 0 <= t -> t <> slot i -> mp_ptr raw' t = mp_ptr raw t) /\
    (forall q m, 16 + 2 * n0 <= q -> blk_read raw' q m = blk_read raw q m).
Proof.
  intros Hi Hne Hl Hp. destruct (ps_range i Hi) as [Hr Hm].
  assert (Hs : 0 <= slot i < n0) by (unfold slot; destruct (Z.leb_spec i indx); lia).
  rewrite Hp. cbn [obind]. destruct (set_ptr_ok raw (slot i) (ps i) Hs Hl Hr) as (r1 & -> & L1 & P1 & O1 & F1).
  cbn [obind]. assert (Hp1 : mp_ptr r1 i = Done (ps i)).
  { destruct (decide (i = slot i)) as [E|E]; [by rewrite E at 1|]. rewrite O1 by lia. done. }
  rewrite Hp1. cbn [obind]. unfold moved in *. destruct (ps i <? ptr).
  - rewrite P1. cbn [obind]. rewrite wrap_small by lia.
    destruct (set_ptr_ok r1 (slot i) (ps i + sz) Hs) as (r2 & -> & L2 & P2 & O2 & F2); [lia|lia|].
    exists r2. split; [done|]. split; [lia|]. split; [done|]. split; intros; [rewrite O2, O1 by done|rewrite F2, F1 by done]; done.
  - by exists r1.
Qed.

Lemma del_loop_ok n i raw :
  Z.of_nat n + i = n0 -> 0 <= i -> 16 + 2 * n0 <= lenZ raw ->
  (forall t, i <= t < n0 -> mp_ptr raw t = Done (ps t)) ->
  exists raw', del_loop n i (slot i) indx ptr sz raw = Done raw' /\ lenZ raw' = lenZ raw /\
    (forall t, 0 <= t < slot i -> mp_ptr raw' t = mp_ptr raw t) /\
    (forall t, i <= t < n0 -> t <> indx -> mp_ptr raw' (slot t) = Done (moved ptr sz (ps t))) /\
    (forall q m, 16 + 2 * n0 <= q -> blk_read raw' q m = blk_read raw q m).
Proof.
  revert i raw. induction n as [|n IH]; intros i raw Hn Hi Hl Hp.
  { exists raw. split; [done|]. split; [done|]. split; [done|]. split; [lia|done]. }
  cbn [del_loop]. destruct (Z.eqb_spec i indx) as [->|Hne].
  - assert (Hs : slot indx = slot (indx + 1)).
    { unfold slot. rewrite Z.leb_refl, (proj2 (Z.leb_gt _ _)) by lia. lia. }
    rewrite Hs. destruct (IH (indx + 1) raw) as (raw' & E & L & P & O & F); [lia..|intros; apply Hp; lia|].
    exists raw'. split; [done|]. split; [done|]. split; [done|]. split; [|done].
    intros t Ht Htn. apply O; lia.
  - destruct (del_turn raw i) as (r1 & E1 & L1 & P1 & O1 & F1); [lia|done|done|apply Hp; lia|].
    assert (Hs : slot (i + 1) = slot i + 1).
    { unfold slot. destruct (Z.leb_spec i indx), (Z.leb_spec (i + 1) indx); lia. }
    assert (Hs0 : 0 <= slot i <= i) by (unfold slot; destruct (Z.leb_spec i indx); lia).
    destruct (IH (i + 1) r1) as (raw' & E & L & P & O & F); [lia..| |].
    { intros t Ht. rewrite O1 by lia. apply Hp. lia. }
    exists raw'. split.
    { rewrite <- E, Hs. destruct (mp_ptr raw i) as [p|]; [|done]. cbn [obind] in *.
      destruct (set_ptr raw (slot i) p) as [r|]; [|done]. cbn [obind] in *.
      destruct (mp_ptr r i) as [p2|]; [|done]. cbn [obind] in *. by rewrite E1. }
    split; [lia|]. split; [intros t Ht; rewrite P, O1 by lia; done|]. split.
    + intros t Ht Htn. destruct (decide (t = i)) as [->|]; [|apply O; lia]. rewrite P by lia. done.
    + intros q m Hq. rewrite F, F1 by done. done.
Qed.
End del_loop.

Definition delete_at {A} (i : Z) (l : list A) : list A := takeZ i l ++ dropZ (i + 1) l.
Lemma lookup_delete_at {A} i (l : list A) (j : nat) :
  0 <= i < lenZ l -> delete_at i l !! j = if decide (Z.of_nat j < i) then l !! j else l !! S j.
Proof.
  intros Hi. unfold delete_at, takeZ, dropZ, lenZ in *. destruct (decide _) as [Hlt|Hge].
  - rewrite lookup_app_l by (rewrite length_take; lia). apply lookup_take_lt. lia.
  - rewrite lookup_app_r by (rewrite length_take; lia). rewrite length_take, Nat.min_l by lia.
    rewrite lookup_drop. f_equal. lia.
Qed.
Lemma lenZ_delete_at {A} i (l : list A) : 0 <= i < lenZ l -> lenZ (delete_at i l) = lenZ l - 1.
Proof. intros Hi. unfold delete_at. rewrite lenZ_app, lenZ_takeZ, lenZ_dropZ by lia. lia. Qed.
Lemma sizes_delete_at i p nd (ns : list (Z * pnode)) :
  0 <= i -> ns !! Z.to_nat i = Some (p, nd) ->
  foldr (fun x t => isize x.2 + t) 0 (delete_at i ns) = foldr (fun x t => isize x.2 + t) 0 ns - isize nd.
Proof.
  intros Hi Hl. unfold delete_at, takeZ, dropZ. replace (Z.to_nat (i + 1)) with (S (Z.to_nat i)) by lia.
  rewrite <- (take_drop_middle _ _ _ Hl) at 3. set (k := Z.to_nat i).
  induction (take k ns) as [|y l IH]; cbn [app foldr]; [cbn [snd]; lia|]. rewrite IH. lia.
Qed.

(** The nodes after the deletion of the one at [indx], and their offsets. *)
Definition deleted (indx ptr sz : Z) (ns : list (Z * pnode)) : list (Z * pnode) :=
  delete_at indx (map (fun x => (moved ptr sz x.1, x.2)) ns).
Lemma deleted_inv indx ptr sz ns (j : nat) q ne :
  0 <= indx < lenZ ns -> deleted indx ptr sz ns !! j = Some (q, ne) ->
  exists k p, ns !! k = Some (p, ne) /\ q = moved ptr sz p /\ Z.of_nat k <> indx /\ Z.of_nat j = slot indx (Z.of_nat k).
Proof.
  intros Hi. unfold deleted. rewrite lookup_delete_at by (unfold lenZ in *; rewrite length_map; done).
  destruct (decide _) as [Hlt|Hge]; rewrite list_lookup_fmap; intros H;
    apply fmap_Some in H as ([p nd] & Hp & [= -> ->]).
  - exists j, p. split; [done|]. split; [done|]. unfold slot. destruct (Z.leb_spec (Z.of_nat j) indx); lia.
  - exists (S j), p. split; [done|]. split; [done|]. unfold slot. destruct (Z.leb_spec (Z.of_nat (S j)) indx); lia.
Qed.
Lemma lenZ_deleted indx ptr sz ns : 0 <= indx < lenZ ns -> lenZ (deleted indx ptr sz ns) = lenZ ns - 1.
Proof.
  intros Hi. unfold deleted. rewrite lenZ_delete_at; unfold lenZ in *; rewrite length_map; lia.
Qed.
Lemma sizes_deleted indx ptr sz ns nd :
  0 <= indx -> ns !! Z.to_nat indx = Some (ptr, nd) ->
  foldr (fun x t => isize x.2 + t) 0 (deleted indx ptr sz ns) = foldr (fun x t => isize x.2 + t) 0 ns - isize nd.
Proof.
  intros Hi Hl. unfold deleted. rewrite (sizes_delete_at _ (moved ptr sz ptr) nd) by (done || by rewrite list_lookup_fmap, Hl).
  f_equal. clear. induction ns as [|x ns IH]; cbn [map foldr]; [done|]. by rewrite IH.
Qed.
(** Where the other nodes lie. *)
Lemma other_node mp ns i j ptr p nd ne :
  page_rep mp ns -> ns !! i = Some (ptr, nd) -> ns !! j = Some (p, ne) -> j <> i ->
  p < ptr /\ p + isize ne <= ptr \/ ptr + isize nd <= p.
Proof.
  intros H Hi Hj Hne. destruct (rep_ptr_range _ _ _ _ _ H Hi) as (_ & _ & Hn).
  destruct (rep_ptr_range _ _ _ _ _ H Hj) as (_ & _ & He).
  destruct (pr_apart _ _ H _ _ _ _ _ _ Hne Hj Hi); [left|right]; lia.
Qed.

Section del_core.
Context (mp : MDB_page) (ns : list (Z * pnode)) (indx ptr : Z) (nd : pnode).
Hypothesis Hmp : page_rep mp ns.
Hypothesis Hi0 : 0 <= indx.
Hypothesis Hi : ns !! Z.to_nat indx = Some (ptr, nd).
Context (raw1 raw2 : bytes).
Hypothesis Hl1 : lenZ raw1 = lenZ (mp_raw mp).
Hypothesis Hptr1 : forall i p ne, ns !! i = Some (p, ne) -> Z.of_nat i <> indx ->
  mp_ptr raw1 (slot indx (Z.of_nat i)) = Done (moved ptr (isize nd) p).
Hypothesis Hfar1 : forall q m, mp_lower mp <= q -> blk_read raw1 q m = blk_read (mp_raw mp) q m.
Context (d : bytes).
Hypothesis Hd : blk_read raw1 (mp_upper mp) (ptr - mp_upper mp) = Done d.
Hypothesis Hw : blk_write raw1 (mp_upper mp + isize nd) d = Done raw2.

Lemma indx_lt : indx < lenZ ns.
Proof. pose proof (lookup_lt_Some _ _ _ Hi). unfold lenZ. lia. Qed.
(** The other nodes are found at their new places. *)
Lemma moved_read i p ne :
  ns !! i = Some (p, ne) -> Z.of_nat i <> indx ->
  blk_read raw2 (moved ptr (isize nd) p) (isize ne) = Done (image ne).
Proof.
  intros Hn Hne. pose proof (pr_node _ _ Hmp _ _ _ Hn) as Hr.
  pose proof (rep_ptr_range _ _ _ _ _ Hmp Hn) as (Hp & _ & Hs).
  pose proof (pr_lower _ _ Hmp) as Hlo. pose proof (pr_room _ _ Hmp) as Hroom.
  pose proof (lenZ_blk_read _ _ _ _ Hd) as Hld.
  destruct (other_node mp ns _ i ptr p nd ne Hmp Hi Hn ltac:(lia)) as [[Hlt Hle]|Hge]; unfold moved.
  - rewrite (proj2 (Z.ltb_lt p ptr)) by lia. rewrite (read_inside _ _ _ _ _ _ Hw) by lia.
    replace (p + isize nd - (mp_upper mp + isize nd)) with (p - mp_upper mp) by lia.
    rewrite <- (read_part _ _ _ _ _ _ Hd) by lia. rewrite Hfar1 by lia.
    by replace (mp_upper mp + (p - mp_upper mp)) with p by lia.
  - pose proof (rep_ptr_range _ _ _ _ _ Hmp Hi) as (_ & _ & Hsn).
    rewrite (proj2 (Z.ltb_ge p ptr)) by lia. rewrite (read_beside _ _ _ _ _ _ Hw) by (right; lia).
    by rewrite Hfar1 by lia.
Qed.

Lemma del_core :
  page_rep (page_with (mp_lower mp - 2) (mp_upper mp + isize nd) raw2 mp) (deleted indx ptr (isize nd) ns).
Proof.
  pose proof indx_lt as Hlt. pose proof (rep_ptr_range _ _ _ _ _ Hmp Hi) as (Hp & Hpe & Hs).
  pose proof (pr_lower _ _ Hmp) as Hlo. pose proof (pr_room _ _ Hmp) as Hroom. pose proof (pr_size _ _ Hmp) as Hsz.
  pose proof (lenZ_blk_write _ _ _ _ Hw) as Hl2. pose proof (lenZ_nonneg ns) as Hn0.
  assert (Hlo' : u16 (mp_lower mp - 2) = mp_lower mp - 2) by (apply wrap_small; lia).
  assert (Hup' : u16 (mp_upper mp + isize nd) = mp_upper mp + isize nd) by (apply wrap_small; lia).
  constructor; cbn [mp_raw mp_lower mp_upper page_with]; rewrite ?Hlo', ?Hup'.
  - exact (pr_kind _ _ Hmp).
  - lia.
  - rewrite lenZ_deleted by lia. lia.
  - lia.
  - intros j q ne Hj. apply deleted_inv in Hj as (k & p & Hk & -> & Hkn & ->); [|lia].
    rewrite <- (Hptr1 k p ne Hk Hkn). pose proof (lookup_lt_Some _ _ _ Hk) as Hkl. eapply ld16_beside; [exact Hw|].
    left. unfold ptr_pos, PAGEHDRSZ, slot, lenZ in *. destruct (Z.leb_spec (Z.of_nat k) indx); lia.
  - intros j q ne Hj. apply deleted_inv in Hj as (k & p & Hk & -> & Hkn & _); [|lia].
    destruct (pr_ok _ _ Hmp _ _ _ Hk) as [Hok Hu]. split; [exact Hok|].
    destruct (other_node mp ns _ k ptr p nd ne Hmp Hi Hk ltac:(lia)) as [[? ?]|?]; unfold moved;
      destruct (Z.ltb_spec p ptr); lia.
  - intros j q ne Hj. apply deleted_inv in Hj as (k & p & Hk & -> & Hkn & _); [|lia]. by eapply moved_read.
  - intros j1 j2 q1 q2 n1 n2 Hj Hj1 Hj2.
    apply deleted_inv in Hj1 as (k1 & p1 & Hk1 & -> & Hn1 & E1); [|lia].
    apply deleted_inv in Hj2 as (k2 & p2 & Hk2 & -> & Hn2 & E2); [|lia].
    assert (Hk : k1 <> k2) by (intros ->; apply Hj; lia).
    destruct (pr_apart _ _ Hmp _ _ _ _ _ _ Hk Hk1 Hk2), (other_node mp ns _ k1 ptr p1 nd n1 Hmp Hi Hk1 ltac:(lia)) as [[? ?]|?],
      (other_node mp ns _ k2 ptr p2 nd n2 Hmp Hi Hk2 ltac:(lia)) as [[? ?]|?]; unfold moved;
      destruct (Z.ltb_spec p1 ptr), (Z.ltb_spec p2 ptr); lia.
  - rewrite (sizes_deleted _ _ _ _ _ Hi0 Hi), (pr_total _ _ Hmp). lia.
Qed.
End del_core.

Lemma node_del_ok (mp : MDB_page) (ns : list (Z * pnode)) (indx ksize ptr : Z) (nd : pnode) :
  page_rep mp ns -> 0 <= indx -> ns !! Z.to_nat indx = Some (ptr, nd) ->
  exists mp', mdb_node_del mp indx ksize = Done mp' /\
    page_rep mp' (deleted indx ptr (isize nd) ns) /\
    SIZELEFT mp' = SIZELEFT mp + isize nd + 2 /\ mp_flags mp' = mp_flags mp.
Proof.
  intros H Hi0 Hi. pose proof (indx_lt ns indx ptr nd Hi) as Hlt.
  pose proof (rep_ptr_range _ _ _ _ _ H Hi) as (Hp & Hpe & Hs).
  pose proof (pr_lower _ _ H) as Hlo. pose proof (pr_room _ _ H) as Hroom. pose proof (pr_size _ _ H) as Hsz.
  unfold mdb_node_del. rewrite (NUMKEYS_rep _ _ H), (pr_kind _ _ H).
  rewrite (proj2 (Z.leb_gt (lenZ ns) indx)) by lia.
  pose proof (pr_ptr _ _ H _ _ _ Hi) as Hptr. rewrite Z2Nat.id in Hptr by lia. rewrite Hptr. cbn [obind].
  rewrite (node_bytes_ok _ _ H _ _ _ Hi). cbn [obind].
  set (ps := fun t => match ns !! Z.to_nat t with Some (p, _) => p | None => 0 end).
  assert (Hps : forall i p ne, ns !! i = Some (p, ne) -> ps (Z.of_nat i) = p).
  { intros i p ne Hn. unfold ps. by rewrite Nat2Z.id, Hn. }
  destruct (del_loop_ok (lenZ ns) indx ptr (isize nd) ps) with (n := Z.to_nat (lenZ ns)) (i := 0) (raw := mp_raw mp)
    as (raw1 & E1 & L1 & _ & P1 & F1); [lia| |lia|lia|pose proof (rep_upper _ _ H); lia| |].
  { intros t Ht. destruct (lookup_page ns t Ht) as (p & ne & Hn). unfold ps. rewrite Hn.
    pose proof (rep_ptr_range _ _ _ _ _ H Hn) as (? & ? & ?). pose proof (lenZ_nonneg ns). split; [lia|].
    unfold moved. destruct (Z.ltb_spec p ptr); lia. }
  { intros t Ht. destruct (lookup_page ns t Ht) as (p & ne & Hn). unfold ps. rewrite Hn.
    rewrite <- (pr_ptr _ _ H _ _ _ Hn). f_equal. lia. }
  change (slot indx 0) with (if 0 <=? indx then 0 else 0 - 1) in E1. rewrite (proj2 (Z.leb_le 0 indx)) in E1 by lia.
  rewrite E1. cbn [obind]. rewrite <- Hlo in F1.
  assert (Hd : exists d, blk_read raw1 (mp_upper mp) (ptr - mp_upper mp) = Done d).
  { rewrite blk_read_ok by (pose proof (lenZ_nonneg ns); lia). by eexists. }
  destruct Hd as [d Hd]. rewrite Hd. cbn [obind]. pose proof (lenZ_blk_read _ _ _ _ Hd) as Ld.
  assert (Hw : exists raw2, blk_write raw1 (mp_upper mp + isize nd) d = Done raw2).
  { rewrite blk_write_ok by (pose proof (lenZ_nonneg ns); lia). by eexists. }
  destruct Hw as [raw2 Hw]. rewrite Hw. cbn [obind]. eexists. split; [done|].
  assert (Hrep := del_core mp ns indx ptr nd H Hi0 Hi raw1 raw2 L1).
  match type of Hrep with ?A -> _ => assert (HA : A) end.
  { intros i p ne Hn Hne. rewrite (P1 (Z.of_nat i)); [by erewrite Hps| |done].
    pose proof (lookup_lt_Some _ _ _ Hn). unfold lenZ. lia. }
  specialize (Hrep HA F1 d Hd Hw). split; [exact Hrep|]. split; [|done].
  rewrite (SIZELEFT_rep _ _ Hrep), (SIZELEFT_rep _ _ H). cbn [mp_upper mp_lower page_with].
  pose proof (lenZ_nonneg ns). rewrite !wrap_small by lia. lia.
Qed.

(** A new page holds nothing. *)
Lemma page_new_rep psize flags pgno raw :
  lenZ raw = psize -> 16 <= psize < 2 ^ 16 -> F_ISSET (Z.lor flags P_DIRTY) P_LEAF2 = false ->
  page_rep (mdb_page_new psize flags pgno raw) [].
Proof.
  intros Hl Hp Hf. assert (Hw : u16 psize = psize) by (apply wrap_small; lia).
  constructor; cbn [mdb_page_new mp_raw mp_lower mp_upper]; rewrite ?Hw; try done; [lia|unfold PAGEHDRSZ; lia|].
  cbn [foldr]. lia.
Qed.
(** A page of 64 bytes with two nodes, the second one of which was added first. *)
Definition demo_node (key data pad : bytes) : pnode :=
  {| pn_val := lenZ data; pn_flags := 0; pn_key := key; pn_data := data; pn_pad := pad |}.
Definition demo_nodes : list (Z * pnode) :=
  [(40, demo_node [97] [1; 2; 3] []); (52, demo_node [98; 99] [7] [0])].
Definition demo_page : MDB_page :=
  {| mp_pgno := 5; mp_flags := 18; mp_lower := 20; mp_upper := 40;
     mp_raw := zeros 16 ++ le2 40 ++ le2 52 ++ zeros 20 ++ image (demo_node [97] [1; 2; 3] []) ++
               image (demo_node [98; 99] [7] [0]) |}.
Lemma demo_rep : page_rep demo_page demo_nodes.
Proof.
  constructor; try done.
  - intros [|[|i]] p nd; [intros [= <- <-]; done..|destruct i; done].
  - intros [|[|i]] p nd; [intros [= <- <-]; split; [constructor|]; done..|destruct i; done].
  - intros [|[|i]] p nd; [intros [= <- <-]; done..|destruct i; done].
  - intros [|[|i]] [|[|j]] p q nd ne Hij; try done; intros Hi Hj; try (by destruct i); try (by destruct j);
      injection Hi as <- <-; injection Hj as <- <-; vm_compute; intuition discriminate.
Qed.
Lemma demo_sorted : page_sorted demo_page demo_nodes.
Proof.
  intros i j Hi Hj. change (first_key demo_page) with 0 in Hi. change (lenZ demo_nodes) with 2 in Hj.
  assert (i = 0) as -> by lia. assert (j = 1) as -> by lia. done.
Qed.

(** ** The operations on a page *)

(** Binary search on a page is correct: on every well-formed page of nodes
    (leaf or branch, any size below 64K) with keys in increasing order and at
    least one key to look at, [mdb_node_search] ends without an access outside
    the page and finds the place of any key: every key before the index it
    returns is smaller, every key behind it is larger, the key at it is larger
    or the key itself, the match is exact
    precisely when the key is on the page, and the node it returns is the one
    at the index, none if the key is larger than all of them. *)
Theorem node_search_correct (mp : MDB_page) (ns : list (Z * pnode)) (md_pad : Z) (key : bytes) :
  page_rep mp ns -> page_sorted mp ns -> first_key mp < lenZ ns -> lenZ key < 2 ^ 32 ->
  exists node r exact,
    mdb_node_search mp CmpMemn md_pad key = Done (node, r, exact) /\
    first_key mp <= r <= lenZ ns /\
    node = fst <$> ns !! Z.to_nat r /\
    (forall j, first_key mp <= j < r -> lex (page_key ns j) key < 0) /\
    (forall j, r < j < lenZ ns -> lex key (page_key ns j) < 0) /\
    (exact = false -> r < lenZ ns -> lex key (page_key ns r) < 0) /\
    (exact = true -> r < lenZ ns /\ page_key ns r = key) /\
    (exact = false -> forall j, first_key mp <= j < lenZ ns -> page_key ns j <> key).
Proof. apply node_search_ok. Qed.
Lemma node_search_correct_witness :
  exists node r exact,
    mdb_node_search demo_page CmpMemn 0 [98; 99] = Done (node, r, exact) /\
    first_key demo_page <= r <= lenZ demo_nodes /\
    node = fst <$> demo_nodes !! Z.to_nat r /\
    (forall j, first_key demo_page <= j < r -> lex (page_key demo_nodes j) [98; 99] < 0) /\
    (forall j, r < j < lenZ demo_nodes -> lex [98; 99] (page_key demo_nodes j) < 0) /\
    (exact = false -> r < lenZ demo_nodes -> lex [98; 99] (page_key demo_nodes r) < 0) /\
    (exact = true -> r < lenZ demo_nodes /\ page_key demo_nodes r = [98; 99]) /\
    (exact = false -> forall j, first_key demo_page <= j < lenZ demo_nodes -> page_key demo_nodes j <> [98; 99]).
Proof. apply node_search_correct; [apply demo_rep|apply demo_sorted|done|done]. Defined.

(** Adding a node to a leaf is correct: for every well-formed leaf page, any
    index, key below 64K and data below 4G, [mdb_node_add] reports a full page
    exactly when the room left is smaller than what [mdb_leaf_size] announces
    to the callers, and leaves the page alone; otherwise it returns success,
    without an access outside the page, and the page then holds the old nodes
    and the new one at the index, none of them overlapping, with the new node
    taking its room from the free space only.  Data that would make the node
    reach [me_nodemax] goes to the overflow page the allocator gave, whole, and
    the node stores that page's number. *)
Theorem leaf_add_correct (nodemax psize md_pad pg indx pgno flags : Z) (page_new : Z -> Z + Z)
    (mp : MDB_page) (ns : list (Z * pnode)) (key data : bytes) :
  page_rep mp ns -> IS_LEAF mp = true -> 0 <= indx <= lenZ ns ->
  lenZ key < 2 ^ 16 -> lenZ data < 2 ^ 32 -> 0 <= flags < 2 ^ 16 -> F_ISSET flags F_BIGDATA = false ->
  (forall n, page_new n = inr pg) ->
  let need := mdb_leaf_size nodemax (val_of key) (val_of data) in
  let r := mdb_node_add nodemax psize md_pad page_new mp indx (Some (val_of key)) (Some (val_of data)) pgno flags in
  (SIZELEFT mp < need -> r = Done (MDB_PAGE_FULL, mp, None)) /\
  (need <= SIZELEFT mp -> exists mp' pad,
     r = Done (MDB_SUCCESS, mp', if on_overflow nodemax key data then Some (pg, data) else None) /\
     IS_LEAF mp' = true /\ SIZELEFT mp' = SIZELEFT mp - need /\
     page_rep mp' (insert_at indx (mp_upper mp - (need - 2), leaf_node nodemax pg flags key data pad) ns)).
Proof. apply leaf_add_ok. Qed.
Lemma leaf_add_correct_witness :
  exists mp' pad,
    mdb_node_add 24 64 0 (fun _ => inr 9) demo_page 1 (Some (val_of [97; 97])) (Some (val_of [5])) 0 0
      = Done (MDB_SUCCESS, mp', None) /\
    IS_LEAF mp' = true /\ SIZELEFT mp' = 6 /\
    page_rep mp' (insert_at 1 (28, leaf_node 24 9 0 [97; 97] [5] pad) demo_nodes).
Proof.
  apply (leaf_add_correct 24 64 0 9 1 0 0 (fun _ => inr 9) demo_page demo_nodes [97; 97] [5]);
    [apply demo_rep|done..].
Defined.

(** C27: deleting a node is correct: on every well-formed page, [mdb_node_del]
    at the index of a node ends without an access outside the page; the page
    then holds the other nodes, in the same order and with the same contents,
    those that lay below the deleted one moved up by its size, and all of its
    room, the pointer included, is free again. *)
Theorem node_del_correct (mp : MDB_page) (ns : list (Z * pnode)) (indx ksize ptr : Z) (nd : pnode) :
  page_rep mp ns -> 0 <= indx -> ns !! Z.to_nat indx = Some (ptr, nd) ->
  exists mp', mdb_node_del mp indx ksize = Done mp' /\
    page_rep mp' (deleted indx ptr (isize nd) ns) /\
    SIZELEFT mp' = SIZELEFT mp + isize nd + 2 /\ mp_flags mp' = mp_flags mp.
Proof. apply node_del_ok. Qed.
Lemma node_del_correct_witness :
  exists mp', mdb_node_del demo_page 1 0 = Done mp' /\
    page_rep mp' [(52, demo_node [97] [1; 2; 3] [])] /\
    SIZELEFT mp' = SIZELEFT demo_page + 12 + 2 /\ mp_flags mp' = mp_flags demo_page.
Proof. apply (node_del_correct demo_page demo_nodes 1 0 52 (demo_node [98; 99] [7] [0])); [apply demo_rep|done|done]. Defined.

(** Adding a node to a branch page is correct, and the size the callers
    check against is exact: although [mdb_branch_size] does not round up to an
    even number, on a well-formed page of even size [mdb_node_add] reports a
    full page precisely when the room left is smaller than that size, and then
    leaves the page alone; otherwise the page holds the old nodes and, at the
    index, a node with the key (none for a null key) from which the page number
    is read back unchanged. *)
Theorem branch_add_correct (nodemax psize md_pad indx pgno flags : Z) (page_new : Z -> Z + Z)
    (mp : MDB_page) (ns : list (Z * pnode)) (k : option MDB_val) (key : bytes) :
  page_rep mp ns -> IS_LEAF mp = false -> lenZ (mp_raw mp) mod 2 = 0 -> 0 <= indx <= lenZ ns ->
  key_arg k key -> lenZ key < 2 ^ 16 -> 0 <= flags < 2 ^ 16 -> 0 <= pgno < 2 ^ 48 ->
  let r := mdb_node_add nodemax psize md_pad page_new mp indx k None pgno flags in
  (SIZELEFT mp < mdb_branch_size k -> r = Done (MDB_PAGE_FULL, mp, None)) /\
  (mdb_branch_size k <= SIZELEFT mp -> exists mp' ofs pad,
     r = Done (MDB_SUCCESS, mp', None) /\ IS_LEAF mp' = false /\
     NODEPGNO (mp_raw mp') ofs = Done pgno /\
     page_rep mp' (insert_at indx (ofs, branch_node pgno key pad) ns)).
Proof.
  intros H Hleaf Heven Hi Hk Hkl Hf Hg r.
  pose proof (SIZELEFT_rep _ _ H) as HS. pose proof (pr_room _ _ H) as Hroom. pose proof (sizes_even _ _ H Heven) as Hse.
  pose proof (esize_pad key []) as Hes. pose proof (land_1_range (lenZ key + lenZ (@nil Z))) as Hl1.
  assert (Hks : match k with Some v => mv_size v | None => 0 end = lenZ key) by (by destruct Hk as [->|[-> ->]]).
  assert (Hsize : mdb_branch_size k = 8 + lenZ key + 2) by (unfold mdb_branch_size, NODESIZE; lia).
  unfold r, mdb_node_add. rewrite (proj2 (Z.ltb_ge (mp_upper mp) _)) by lia.
  rewrite (pr_kind _ _ H), Hleaf, Hks. unfold add_plan, NODESIZE. cbn [obind].
  replace (even_up (8 + lenZ key)) with (esize key []) by (unfold esize; f_equal; lens).
  assert (Hcmp : (SIZELEFT mp <? esize key [] + 2) = (SIZELEFT mp <? mdb_branch_size k)).
  { rewrite Hsize, Hes, land_1. change (lenZ (@nil Z)) with 0. rewrite !Z.add_0_r.
    destruct (Z.ltb_spec (SIZELEFT mp) (8 + lenZ key + 2)); [apply Z.ltb_lt|apply Z.ltb_ge]; dlia. }
  rewrite Hcmp. split; intros Hc; [by rewrite (proj2 (Z.ltb_lt _ _) Hc)|].
  rewrite (proj2 (Z.ltb_ge _ _) Hc) in Hcmp |- *. apply Z.ltb_ge in Hcmp.
  rewrite (NUMKEYS_rep _ _ H). unfold lenZ at 1. rewrite Nat2Z.id.
  pose proof (rep_upper _ _ H) as Hu. pose proof (pr_size _ _ H) as Hps. pose proof (pr_lower _ _ H) as Hlo.
  pose proof (lenZ_nonneg ns) as Hn0. pose proof (lenZ_nonneg key) as Hk0.
  change (lenZ (@nil Z)) with 0 in Hes, Hl1.
  assert (Hofs : u16 (mp_upper mp - esize key []) = mp_upper mp - esize key []) by (apply wrap_small; lia).
  destruct (add_finish mp ns indx (esize key [])
    (branch_parts (mp_upper mp - esize key []) (pgno mod 2 ^ 32) (pgno / 2 ^ 32) flags key)
    (branch_node pgno key)) as (raw1 & raw1' & raw2 & pad & E1 & E2 & E3 & Hl2 & Hrep);
    [done|done|lia|lia| | |].
  { repeat constructor; cbn [fst snd]; rewrite ?lenZ_le2; lia. }
  { intros raw raw' Hl E. destruct (branch_written _ _ _ _ _ _ _ E) as (pad & Hp & Hr); [lia|lia|].
    assert (Hok : pnode_ok false (branch_node pgno key pad)) by (by apply branch_node_ok).
    exists pad. rewrite Hleaf. split; [done|]. pose proof (even_up_size _ _ Hok) as His.
    change (even_up _) with (esize key []) in His. split; [done|].
    change (blk_read raw' (mp_upper mp - esize key []) (isize (branch_node pgno key pad))
            = Done (image (branch_node pgno key pad))) in Hr. by rewrite His in Hr. }
  rewrite E1. cbn [obind]. rewrite Hofs, (proj2 (Z.ltb_ge _ (mp_lower mp + 2))) by lia. rewrite E2. cbn [obind].
  rewrite (write_branch _ _ k key) by (done || lia). rewrite E3. cbn [obind].
  exists (page_with (mp_lower mp + 2) (mp_upper mp - esize key []) raw2 mp), (mp_upper mp - esize key []), pad.
  split; [done|]. split; [done|]. split; [|done].
  destruct (node_fields _ _ Hrep (Z.to_nat indx) (mp_upper mp - esize key []) (branch_node pgno key pad))
    as (H0 & H1 & H2 & _).
  { rewrite lookup_insert_at by done. rewrite decide_False by lia. by rewrite decide_True by lia. }
  unfold NODEPGNO. rewrite H0, H1, H2. cbn [obind branch_node pn_val pn_flags].
  rewrite (lor_shiftl (_ mod 65536)) by dlia. rewrite lor_shiftl by dlia. f_equal. dlia.
Qed.
Lemma branch_add_correct_witness :
  exists mp' ofs pad,
    mdb_node_add 24 64 0 (fun _ => inl 12) (mdb_page_new 64 P_BRANCH 3 (zeros 64)) 0
      (Some (val_of [97; 98; 99])) None 70000000000 0 = Done (MDB_SUCCESS, mp', None) /\
    IS_LEAF mp' = false /\ NODEPGNO (mp_raw mp') ofs = Done 70000000000 /\
    page_rep mp' (insert_at 0 (ofs, branch_node 70000000000 [97; 98; 99] pad) []).
Proof.
  apply (branch_add_correct 24 64 0 0 70000000000 0 (fun _ => inl 12) (mdb_page_new 64 P_BRANCH 3 (zeros 64)) []
           (Some (val_of [97; 98; 99])) [97; 98; 99]);
    [by apply page_new_rep|done|done|done|by left|done..].
Defined.
