(* ===== verification/LeafMap.v ===== *)
(** * LeafMap: a leaf page of LMDB as a finite map

    What [mdb_get], [mdb_put] and [mdb_del] do once their cursor has reached the
    leaf of a key, in a database without duplicates: the search on the page, the
    read of a node, the replacement of data in place or by deletion and
    insertion, and the decision to split the page.  Splitting and the
    replacement of data on overflow pages are not modelled: [put_leaf] says when
    they are needed.

    The leaf is shown to be a finite map from keys to data: [set_leaf] is its
    lookup, [put_leaf] its insertion and [del_leaf] its deletion. *)
From S2P Require Import Prelude.
From S2P Require Import Lmdb.
From S2P Require Import Pages.

Definition NODEDATA (raw : bytes) (ofs : Z) : outcome Z :=
  olet! ks := mn_ksize raw ofs in Done (ofs + NODESIZE + ks).

(** [page_get] is the answer of [mdb_page_get] for an overflow page: an error or
    the bytes behind its header. *)
Definition mdb_node_read (page_get : Z -> outcome (Z + bytes)) (raw : bytes) (ofs : Z) : outcome (Z * bytes) :=
  olet! fl := mn_flags raw ofs in
  olet! ds := NODEDSZ raw ofs in
  olet! pos := NODEDATA raw ofs in
  if negb (F_ISSET fl F_BIGDATA) then
    olet! d := blk_read raw pos ds in Done (MDB_SUCCESS, d)
  else
    olet! pg := blk_read raw pos 8 in
    olet! r := page_get (le_val pg) in
    match r with
    | inl rc => Done (rc, [])
    | inr omp => olet! d := blk_read omp 0 ds in Done (MDB_SUCCESS, d)
    end.

(** The cursor on the leaf of [key]: the result, the index and the data. *)
Definition set_leaf (page_get : Z -> outcome (Z + bytes)) (mp : MDB_page) (key : bytes) : outcome (Z * Z * bytes) :=
  olet! '(node, i, exact) := mdb_node_search mp CmpMemn 0 key in
  if negb exact then Done (MDB_NOTFOUND, i, [])
  else match node with
  | None => Fault NullDeref
  | Some ofs => olet! '(rc, d) := mdb_node_read page_get (mp_raw mp) ofs in Done (rc, i, d)
  end.

Inductive put_result :=
  | PutDone (rc : Z) (mp : MDB_page) (ovf : option (Z * bytes))
  | PutSplit (mp : MDB_page)       (* no room: the page is to be split *)
  | PutOverflow.                   (* the old data is on overflow pages *)

Definition page_set_raw (raw : bytes) (mp : MDB_page) : MDB_page :=
  {| mp_pgno := mp_pgno mp; mp_flags := mp_flags mp; mp_lower := mp_lower mp; mp_upper := mp_upper mp; mp_raw := raw |}.

(** From the label [new_sub] on: the node goes to index [i]. *)
Definition put_new (nodemax psize : Z) (page_new : Z -> Z + Z) (mp : MDB_page) (i : Z) (key data : MDB_val)
    : outcome put_result :=
  if SIZELEFT mp <? mdb_leaf_size nodemax key data then Done (PutSplit mp)
  else
    olet! '(rc, mp, ovf) := mdb_node_add nodemax psize 0 page_new mp i (Some key) (Some data) 0 0 in
    Done (PutDone rc mp ovf).
Definition put_leaf (nodemax psize : Z) (page_new : Z -> Z + Z) (mp : MDB_page) (key data : MDB_val)
    : outcome put_result :=
  if NUMKEYS mp =? 0 then put_new nodemax psize page_new mp 0 key data
  else
    olet! '(node, i, exact) := mdb_node_search mp CmpMemn 0 (mv_data key) in
    if negb exact then put_new nodemax psize page_new mp i key data
    else
      olet! leaf := mp_ptr (mp_raw mp) i in
      olet! fl := mn_flags (mp_raw mp) leaf in
      if F_ISSET fl F_BIGDATA then Done PutOverflow
      else
        olet! ds := NODEDSZ (mp_raw mp) leaf in
        if ds =? mv_size data then
          olet! pos := NODEDATA (mp_raw mp) leaf in
          olet! raw := (if negb (mv_size data =? 0) then
                          olet! d := blk_read (mv_data data) 0 (mv_size data) in blk_write (mp_raw mp) pos d
                        else
                          olet! k := blk_read (mv_data key) 0 (mv_size key) in
                          blk_write (mp_raw mp) (leaf + NODESIZE) k) in
          Done (PutDone MDB_SUCCESS (page_set_raw raw mp) None)
        else
          olet! mp := mdb_node_del mp i 0 in
          put_new nodemax psize page_new mp i key data.

(** The deletion: the page and the overflow page that is freed; [page_get] is
    asked for that page first. *)
Definition del_leaf (page_get : Z -> outcome (Z + bytes)) (mp : MDB_page) (key : bytes) : outcome (Z * MDB_page * option Z) :=
  olet! '(node, i, exact) := mdb_node_search mp CmpMemn 0 key in
  if negb exact then Done (MDB_NOTFOUND, mp, None)
  else match node with
  | None => Fault NullDeref
  | Some leaf =>
      olet! fl := mn_flags (mp_raw mp) leaf in
      olet! ovf := (if F_ISSET fl F_BIGDATA then
                      olet! pos := NODEDATA (mp_raw mp) leaf in
                      olet! b := blk_read (mp_raw mp) pos 8 in
                      olet! r := page_get (le_val b) in
                      Done (match r with inl rc => inl rc | inr _ => inr (Some (le_val b)) end)
                    else Done (inr None)) in
      match ovf with
      | inl rc => Done (rc, mp, None)
      | inr ovf => olet! mp := mdb_node_del mp i 0 in Done (MDB_SUCCESS, mp, ovf)
      end
  end.

(** ** Lemmas *)

(** A leaf with keys in order and no data on overflow pages. *)
Record leaf_rep (mp : MDB_page) (ns : list (Z * pnode)) : Prop := {
  lr_rep : page_rep mp ns;
  lr_leaf : IS_LEAF mp = true;
  lr_sorted : page_sorted mp ns;
  lr_plain : Forall (fun x => pn_flags x.2 = 0) ns
}.
Definition entries (ns : list (Z * pnode)) : list (bytes * bytes) :=
  map (fun x => (pn_key x.2, pn_data x.2)) ns.
(** The map a leaf holds. *)
Definition leaf_map (ns : list (Z * pnode)) : gmap bytes bytes := list_to_map (entries ns).

Lemma page_key_lookup ns (i : nat) p nd : ns !! i = Some (p, nd) -> page_key ns (Z.of_nat i) = pn_key nd.
Proof. intros H. unfold page_key. by rewrite Nat2Z.id, H. Qed.
Lemma sorted_lookup mp ns (i j : nat) p q nd ne :
  IS_LEAF mp = true -> page_sorted mp ns -> ns !! i = Some (p, nd) -> ns !! j = Some (q, ne) -> (i < j)%nat ->
  lex (pn_key nd) (pn_key ne) < 0.
Proof.
  intros Hl Hs Hi Hj Hij. rewrite <- (page_key_lookup _ _ _ _ Hi), <- (page_key_lookup _ _ _ _ Hj).
  apply Hs; [unfold first_key; rewrite Hl; lia|]. pose proof (lookup_lt_Some _ _ _ Hj). unfold lenZ. lia.
Qed.
Lemma entries_NoDup mp ns : IS_LEAF mp = true -> page_sorted mp ns -> NoDup (entries ns).*1.
Proof.
  intros Hl Hs. apply NoDup_alt. intros i j k Hi Hj. unfold entries in *.
  rewrite !list_lookup_fmap in Hi, Hj.
  apply fmap_Some in Hi as (x & Hx & ->). apply fmap_Some in Hx as ([p nd] & Hi & ->).
  apply fmap_Some in Hj as (y & Hy & Ek). apply fmap_Some in Hy as ([q ne] & Hj & ->). cbn [fst snd] in Ek.
  destruct (Nat.lt_trichotomy i j) as [Hlt|[->|Hlt]]; [|done|].
  - pose proof (sorted_lookup _ _ _ _ _ _ _ _ Hl Hs Hi Hj Hlt) as H. rewrite Ek, lex_refl in H. lia.
  - pose proof (sorted_lookup _ _ _ _ _ _ _ _ Hl Hs Hj Hi Hlt) as H. rewrite Ek, lex_refl in H. lia.
Qed.
Lemma leaf_map_lookup mp ns (i : nat) p nd :
  IS_LEAF mp = true -> page_sorted mp ns -> ns !! i = Some (p, nd) -> leaf_map ns !! pn_key nd = Some (pn_data nd).
Proof.
  intros Hl Hs Hi. apply elem_of_list_to_map; [by eapply entries_NoDup|].
  eapply list_elem_of_lookup_2. unfold entries. by rewrite list_lookup_fmap, Hi.
Qed.
Lemma leaf_map_absent ns key :
  (forall j, 0 <= j < lenZ ns -> page_key ns j <> key) -> leaf_map ns !! key = None.
Proof.
  intros H. apply not_elem_of_list_to_map. unfold entries.
  intros ([k d] & -> & Hx)%list_elem_of_fmap. apply list_elem_of_fmap in Hx as ([p nd] & [= -> ->] & Hn).
  apply list_elem_of_lookup_1 in Hn as [i Hi]. apply (H (Z.of_nat i)).
  - pose proof (lookup_lt_Some _ _ _ Hi). unfold lenZ. lia.
  - by eapply page_key_lookup.
Qed.

(** *** The order of the keys, by position *)
Definition keys_sorted (ns : list (Z * pnode)) : Prop :=
  forall (i j : nat) p q nd ne, (i < j)%nat -> ns !! i = Some (p, nd) -> ns !! j = Some (q, ne) ->
  lex (pn_key nd) (pn_key ne) < 0.
Lemma page_sorted_keys mp ns : IS_LEAF mp = true -> page_sorted mp ns <-> keys_sorted ns.
Proof.
  intros Hl. split.
  - intros Hs i j p q nd ne Hij Hi Hj. by eapply sorted_lookup.
  - intros Hs i j Hi Hj. unfold first_key in Hi. rewrite Hl in Hi.
    destruct (lookup_page ns i ltac:(lia)) as (p & nd & Hp). destruct (lookup_page ns j ltac:(lia)) as (q & ne & Hq).
    unfold page_key. rewrite Hp, Hq. eapply Hs; [|exact Hp|exact Hq]. lia.
Qed.

(** *** What the changes of a page do to its map *)
Lemma map_perm ns es : NoDup es.*1 -> entries ns ≡ₚ es -> leaf_map ns = list_to_map es.
Proof. intros Hn Hp. unfold leaf_map. apply list_to_map_proper; [by rewrite Hp|done]. Qed.
Lemma insert_at_perm {A} i (x : A) l : insert_at i x l ≡ₚ x :: l.
Proof. unfold insert_at. rewrite <- Permutation_middle. by rewrite takeZ_dropZ. Qed.
Lemma delete_at_eq {A} i (l : list A) : 0 <= i -> delete_at i l = delete (Z.to_nat i) l.
Proof.
  intros Hi. unfold delete_at, takeZ, dropZ. rewrite delete_take_drop. by replace (Z.to_nat (i + 1)) with (S (Z.to_nat i)) by lia.
Qed.
Lemma entries_deleted indx ptr sz ns : entries (deleted indx ptr sz ns) = delete_at indx (entries ns).
Proof.
  unfold deleted, entries, delete_at, takeZ, dropZ. rewrite map_app, !firstn_map, !skipn_map, !map_map. done.
Qed.
(** Without the entry at [i] the key is gone, and with it the map is as before. *)
Lemma leaf_map_split ns (i : nat) p nd :
  keys_sorted ns -> ns !! i = Some (p, nd) ->
  leaf_map ns = <[pn_key nd := pn_data nd]> (list_to_map (delete i (entries ns))) /\
  (list_to_map (delete i (entries ns)) : gmap bytes bytes) !! pn_key nd = None.
Proof.
  intros Hs Hi. assert (Hp : entries ns ≡ₚ (pn_key nd, pn_data nd) :: delete i (entries ns)).
  { apply delete_Permutation. unfold entries. by rewrite list_lookup_fmap, Hi. }
  set (mp := {| mp_pgno := 0; mp_flags := P_LEAF; mp_lower := 0; mp_upper := 0; mp_raw := [] |}).
  assert (Hn : NoDup (entries ns).*1).
  { apply (entries_NoDup mp); [done|]. by apply page_sorted_keys. }
  rewrite Hp in Hn. rewrite (map_perm ns _ Hn Hp). split; [done|].
  cbn [fmap list_fmap fst] in Hn. apply NoDup_cons in Hn as [Hn _]. by apply not_elem_of_list_to_map.
Qed.
Lemma leaf_map_deleted indx ptr sz ns p nd :
  0 <= indx -> keys_sorted ns -> ns !! Z.to_nat indx = Some (p, nd) ->
  leaf_map (deleted indx ptr sz ns) = delete (pn_key nd) (leaf_map ns).
Proof.
  intros Hi Hs Hn. destruct (leaf_map_split ns _ _ _ Hs Hn) as [-> Hk].
  rewrite delete_insert_id by done. unfold leaf_map. by rewrite entries_deleted, delete_at_eq.
Qed.
Lemma leaf_map_insert indx ofs nd ns :
  keys_sorted (insert_at indx (ofs, nd) ns) -> leaf_map (insert_at indx (ofs, nd) ns) = <[pn_key nd := pn_data nd]> (leaf_map ns).
Proof.
  intros Hs. set (mp := {| mp_pgno := 0; mp_flags := P_LEAF; mp_lower := 0; mp_upper := 0; mp_raw := [] |}).
  assert (Hn : NoDup (entries (insert_at indx (ofs, nd) ns)).*1).
  { apply (entries_NoDup mp); [done|]. by apply page_sorted_keys. }
  assert (Hp : entries (insert_at indx (ofs, nd) ns) ≡ₚ (pn_key nd, pn_data nd) :: entries ns).
  { unfold entries. by rewrite insert_at_perm. }
  rewrite (map_perm _ _ ltac:(by rewrite Hp in Hn) Hp). done.
Qed.
(** The same page with the data of one node replaced. *)
Definition set_data (d : bytes) (nd : pnode) : pnode :=
  {| pn_val := pn_val nd; pn_flags := pn_flags nd; pn_key := pn_key nd; pn_data := d; pn_pad := pn_pad nd |}.
Lemma leaf_map_replace ns (i : nat) p nd d :
  keys_sorted ns -> ns !! i = Some (p, nd) ->
  keys_sorted (<[i := (p, set_data d nd)]> ns) /\
  leaf_map (<[i := (p, set_data d nd)]> ns) = <[pn_key nd := d]> (leaf_map ns).
Proof.
  intros Hs Hi. pose proof (lookup_lt_Some _ _ _ Hi) as Hl.
  assert (Hinv : forall j q ne, <[i := (p, set_data d nd)]> ns !! j = Some (q, ne) ->
    exists q' nf, ns !! j = Some (q', nf) /\ pn_key ne = pn_key nf).
  { intros j q ne Hj. destruct (decide (i = j)) as [<-|Hne].
    - rewrite list_lookup_insert_eq in Hj by done. injection Hj as <- <-. by exists p, nd.
    - rewrite list_lookup_insert_ne in Hj by done. by exists q, ne. }
  assert (Hs' : keys_sorted (<[i := (p, set_data d nd)]> ns)).
  { intros j k q r ne nf Hjk (q' & ne' & Hj & ->)%Hinv (r' & nf' & Hk & ->)%Hinv. by eapply Hs. }
  split; [done|]. destruct (leaf_map_split ns i p nd Hs Hi) as [-> _].
  destruct (leaf_map_split _ i p (set_data d nd) Hs') as [-> _]; [by apply list_lookup_insert_eq|].
  cbn [set_data pn_key pn_data]. rewrite insert_insert_eq. f_equal. f_equal.
  unfold entries. rewrite list_fmap_insert. by rewrite !delete_take_drop, take_insert_ge, drop_insert_lt by lia.
Qed.

(** *** Searching a leaf *)
Lemma leaf_search mp ns key :
  leaf_rep mp ns -> ns <> [] -> lenZ key < 2 ^ 32 ->
  (exists (i : nat) p nd, mdb_node_search mp CmpMemn 0 key = Done (Some p, Z.of_nat i, true) /\
     ns !! i = Some (p, nd) /\ pn_key nd = key) \/
  (exists node r, mdb_node_search mp CmpMemn 0 key = Done (node, r, false) /\ 0 <= r <= lenZ ns /\
     (forall j, 0 <= j < r -> lex (page_key ns j) key < 0) /\
     (forall j, r <= j < lenZ ns -> lex key (page_key ns j) < 0) /\ leaf_map ns !! key = None).
Proof.
  intros [H Hl Hs _] Hne Hk. assert (Hf : first_key mp = 0) by (unfold first_key; by rewrite Hl).
  assert (Hn : 0 < lenZ ns) by (destruct ns; [done|lens]).
  destruct (node_search_ok mp ns 0 key H Hs ltac:(lia) Hk) as (node & r & ex & E & Hr & Hnode & Hlo & Hhi & Hat & Hex & Hno).
  rewrite Hf in *. destruct ex.
  - left. destruct (Hex eq_refl) as [Hrn Hkey]. destruct (lookup_page ns r ltac:(lia)) as (p & nd & Hp).
    exists (Z.to_nat r), p, nd. rewrite Z2Nat.id by lia. rewrite Hp in Hnode. cbn in Hnode. subst node.
    split; [done|]. split; [done|]. unfold page_key in Hkey. by rewrite Hp in Hkey.
  - right. exists node, r. split; [done|]. split; [lia|]. split; [done|]. split.
    + intros j Hj. destruct (decide (j = r)) as [->|]; [apply Hat; [done|lia]|apply Hhi; lia].
    + apply leaf_map_absent. intros j Hj. apply Hno; [done|lia].
Qed.
Lemma plain_lookup mp ns (i : nat) p nd :
  leaf_rep mp ns -> ns !! i = Some (p, nd) ->
  pn_flags nd = 0 /\ pn_val nd = lenZ (pn_data nd) /\ pnode_ok true nd.
Proof.
  intros [H Hl _ Hp] Hi. rewrite Forall_lookup in Hp. specialize (Hp _ _ Hi). cbn [snd] in Hp.
  destruct (pr_ok _ _ H _ _ _ Hi) as [Hok _]. rewrite Hl in Hok. split; [done|]. split; [|done].
  pose proof (po_data _ _ Hok) as Hd. rewrite Hp in Hd. done.
Qed.
(** The place of a node's data, and the data. *)
Lemma node_data mp ns (i : nat) p nd :
  page_rep mp ns -> ns !! i = Some (p, nd) ->
  NODEDATA (mp_raw mp) p = Done (p + 8 + lenZ (pn_key nd)) /\
  blk_read (mp_raw mp) (p + 8 + lenZ (pn_key nd)) (lenZ (pn_data nd)) = Done (pn_data nd).
Proof.
  intros H Hi. destruct (node_fields _ _ H _ _ _ Hi) as (_ & _ & _ & Hk). split; [unfold NODEDATA; by rewrite Hk|].
  pose proof (isize_eq nd). pose proof (lenZ_nonneg (pn_key nd)). pose proof (lenZ_nonneg (pn_data nd)).
  pose proof (lenZ_nonneg (pn_pad nd)). rewrite <- Z.add_assoc.
  rewrite (read_part _ _ _ _ (8 + lenZ (pn_key nd)) _ (pr_node _ _ H _ _ _ Hi)) by lia.
  unfold image. rewrite 4!app_assoc.
  replace (8 + lenZ (pn_key nd)) with (lenZ ((((le2 (pn_val nd mod 65536) ++ le2 (pn_val nd / 65536)) ++
    le2 (pn_flags nd)) ++ le2 (lenZ (pn_key nd))) ++ pn_key nd)) by (rewrite !lenZ_app, !lenZ_le2; lia).
  apply read_app.
Qed.
Lemma node_read_plain page_get mp ns (i : nat) p nd :
  leaf_rep mp ns -> ns !! i = Some (p, nd) ->
  mdb_node_read page_get (mp_raw mp) p = Done (MDB_SUCCESS, pn_data nd).
Proof.
  intros Hr Hi. pose proof (lr_rep _ _ Hr) as H. destruct (plain_lookup _ _ _ _ _ Hr Hi) as (Hf & Hv & _).
  destruct (node_fields _ _ H _ _ _ Hi) as (_ & _ & Hfl & _). destruct (node_data _ _ _ _ _ H Hi) as [Hpos Hd].
  unfold mdb_node_read. rewrite Hfl, (node_dsz _ _ H _ _ _ Hi), Hpos, Hf. cbn [obind].
  change (negb (F_ISSET 0 F_BIGDATA)) with true. rewrite Hv, Hd. done.
Qed.

Lemma set_leaf_ok page_get mp ns key :
  leaf_rep mp ns -> ns <> [] -> lenZ key < 2 ^ 32 ->
  exists i, set_leaf page_get mp key =
    Done (match leaf_map ns !! key with Some d => (MDB_SUCCESS, i, d) | None => (MDB_NOTFOUND, i, []) end).
Proof.
  intros Hr Hne Hk. unfold set_leaf.
  destruct (leaf_search mp ns key Hr Hne Hk) as [(i & p & nd & -> & Hi & <-)|(node & r & -> & _ & _ & _ & Hno)];
    cbn [obind negb].
  - rewrite (node_read_plain page_get _ _ _ _ _ Hr Hi). cbn [obind]. exists (Z.of_nat i).
    by rewrite (leaf_map_lookup mp ns i p nd (lr_leaf _ _ Hr) (lr_sorted _ _ Hr) Hi).
  - exists r. by rewrite Hno.
Qed.

(** *** Inserting *)
Lemma insert_sorted ns r ofs nd :
  keys_sorted ns -> 0 <= r <= lenZ ns ->
  (forall j, 0 <= j < r -> lex (page_key ns j) (pn_key nd) < 0) ->
  (forall j, r <= j < lenZ ns -> lex (pn_key nd) (page_key ns j) < 0) ->
  keys_sorted (insert_at r (ofs, nd) ns).
Proof.
  intros Hs Hr Hlo Hhi i j p q n1 n2 Hij Hi Hj.
  assert (Hlen : forall (k : nat) x, ns !! k = Some x -> Z.of_nat k < lenZ ns).
  { intros k x Hx%lookup_lt_Some. unfold lenZ. lia. }
  apply insert_at_inv in Hi as [[Ei [= -> ->]]|(k & Hk & Hkc)]; [| |done];
    apply insert_at_inv in Hj as [[Ej [= -> ->]]|(m & Hm & Hmc)]; try done.
  - lia.
  - rewrite <- (page_key_lookup _ _ _ _ Hm). apply Hhi. pose proof (Hlen _ _ Hm). lia.
  - rewrite <- (page_key_lookup _ _ _ _ Hk). apply Hlo. lia.
  - eapply (Hs k m); [lia|done|done].
Qed.
Lemma deleted_sorted indx ptr sz ns :
  keys_sorted ns -> 0 <= indx < lenZ ns -> keys_sorted (deleted indx ptr sz ns).
Proof.
  intros Hs Hi i j p q n1 n2 Hij H1 H2. apply deleted_inv in H1 as (k & p' & Hk & _ & Hkn & Ek); [|done].
  apply deleted_inv in H2 as (m & q' & Hm & _ & Hmn & Em); [|done]. eapply (Hs k m); [|done|done].
  unfold slot in *. destruct (Z.leb_spec (Z.of_nat k) indx), (Z.leb_spec (Z.of_nat m) indx); lia.
Qed.

(** *** Replacing data in place *)
Definition head_bytes (nd : pnode) : bytes :=
  le2 (pn_val nd mod 65536) ++ le2 (pn_val nd / 65536) ++ le2 (pn_flags nd) ++ le2 (lenZ (pn_key nd)) ++ pn_key nd.
Lemma image_head nd : image nd = head_bytes nd ++ pn_data nd ++ pn_pad nd.
Proof. unfold image, head_bytes. by rewrite <- !app_assoc. Qed.
Lemma lenZ_head nd : lenZ (head_bytes nd) = 8 + lenZ (pn_key nd).
Proof. unfold head_bytes. rewrite !lenZ_app, !lenZ_le2. lia. Qed.

(** The node whose data was replaced, read back. *)
Lemma overwrite_read raw p nd d raw' :
  blk_read raw p (isize nd) = Done (image nd) -> lenZ d = lenZ (pn_data nd) ->
  blk_write raw (p + 8 + lenZ (pn_key nd)) d = Done raw' ->
  blk_read raw' p (isize nd) = Done (image (set_data d nd)).
Proof.
  intros Hr Hd Hw. pose proof (isize_eq nd) as Hs. pose proof (lenZ_head nd) as Hh.
  pose proof (lenZ_nonneg (pn_key nd)). pose proof (lenZ_nonneg (pn_data nd)). pose proof (lenZ_nonneg (pn_pad nd)).
  rewrite image_head in Hr |- *. cbn [set_data pn_data pn_pad]. change (head_bytes (set_data d nd)) with (head_bytes nd).
  replace (isize nd) with (lenZ (head_bytes nd) + (lenZ d + lenZ (pn_pad nd))) by lia.
  apply read_join; [|apply read_join].
  - rewrite (read_beside _ _ _ _ _ _ Hw) by lia.
    rewrite <- (Z.add_0_r p). rewrite (read_part _ _ _ _ 0 (lenZ (head_bytes nd)) Hr) by lia.
    exact (read_app [] (head_bytes nd) _).
  - rewrite (read_inside _ _ _ _ _ _ Hw) by lia.
    replace (p + lenZ (head_bytes nd) - (p + 8 + lenZ (pn_key nd))) with 0 by lia.
    pose proof (read_app [] d []) as Hr0. by rewrite app_nil_r in Hr0.
  - rewrite (read_beside _ _ _ _ _ _ Hw) by lia.
    replace (p + lenZ (head_bytes nd) + lenZ d) with (p + lenZ (head_bytes nd ++ pn_data nd)) by (rewrite lenZ_app; lia).
    rewrite (read_part _ _ _ _ (lenZ (head_bytes nd ++ pn_data nd)) (lenZ (pn_pad nd)) Hr) by (rewrite ?lenZ_app; lia).
    pose proof (read_app (head_bytes nd ++ pn_data nd) (pn_pad nd) []) as Hr0.
    by rewrite app_nil_r, <- app_assoc in Hr0.
Qed.
Lemma overwrite_rep mp ns (i : nat) p nd d raw' :
  page_rep mp ns -> ns !! i = Some (p, nd) -> lenZ d = lenZ (pn_data nd) ->
  blk_write (mp_raw mp) (p + 8 + lenZ (pn_key nd)) d = Done raw' ->
  page_rep (page_set_raw raw' mp) (<[i := (p, set_data d nd)]> ns).
Proof.
  intros H Hi Hd Hw. pose proof (lookup_lt_Some _ _ _ Hi) as Hil. pose proof (rep_ptr_range _ _ _ _ _ H Hi) as Hrg.
  assert (Hsz : isize (set_data d nd) = isize nd) by (rewrite !isize_eq; simpl; lia).
  pose proof (isize_eq nd) as Hs. pose proof (lenZ_nonneg (pn_key nd)). pose proof (lenZ_nonneg (pn_data nd)).
  pose proof (lenZ_nonneg (pn_pad nd)). pose proof (lenZ_blk_write _ _ _ _ Hw) as Hl.
  pose proof (pr_lower _ _ H) as Hlo. pose proof (pr_room _ _ H) as Hroom. pose proof (lenZ_nonneg ns) as Hn0.
  assert (Hinv : forall j q ne, <[i := (p, set_data d nd)]> ns !! j = Some (q, ne) ->
    j = i /\ q = p /\ ne = set_data d nd \/ j <> i /\ ns !! j = Some (q, ne)).
  { intros j q ne Hj. destruct (decide (i = j)) as [<-|Hne].
    - rewrite list_lookup_insert_eq in Hj by done. injection Hj as <- <-. by left.
    - rewrite list_lookup_insert_ne in Hj by done. right. split; [congruence|done]. }
  assert (Hold : forall j q ne, <[i := (p, set_data d nd)]> ns !! j = Some (q, ne) ->
    exists nf, ns !! j = Some (q, nf) /\ isize nf = isize ne).
  { intros j q ne [(-> & -> & ->)|[_ Hj]]%Hinv; [by exists nd|by exists ne]. }
  assert (Hlen : lenZ (<[i := (p, set_data d nd)]> ns) = lenZ ns) by (unfold lenZ; by rewrite length_insert).
  constructor; cbn [page_set_raw mp_raw mp_lower mp_upper].
  - exact (pr_kind _ _ H).
  - rewrite Hl. exact (pr_size _ _ H).
  - by rewrite Hlen.
  - done.
  - intros j q ne (nf & Hj & _)%Hold. rewrite <- (pr_ptr _ _ H _ _ _ Hj). eapply ld16_beside; [exact Hw|].
    left. pose proof (lookup_lt_Some _ _ _ Hj). unfold ptr_pos, PAGEHDRSZ, lenZ in *. lia.
  - intros j q ne [(-> & -> & ->)|[_ Hj]]%Hinv; [|by eapply (pr_ok _ _ H)].
    destruct (pr_ok _ _ H _ _ _ Hi) as [[Hv Hf Hk Hdd Hp] Hu]. split; [|done]. constructor; simpl; rewrite ?Hd; done.
  - intros j q ne [(-> & -> & ->)|[Hne Hj]]%Hinv.
    + rewrite Hsz. by eapply overwrite_read; [eapply (pr_node _ _ H)| |].
    + rewrite (read_beside _ _ _ _ _ _ Hw); [by eapply (pr_node _ _ H)|].
      pose proof (other_node mp ns i j p q nd ne H Hi Hj Hne). lia.
  - intros j k q r ne nf Hjk (ne' & Hj & Ej)%Hold (nf' & Hk & Ek)%Hold. rewrite <- Ej, <- Ek. by eapply (pr_apart _ _ H).
  - rewrite Hl, <- (pr_total _ _ H). clear - Hi Hsz. revert i Hi.
    induction ns as [|x ns IH]; intros [|i] Hi; cbn [foldr]; try done.
    + injection Hi as ->. cbn [list_insert insert foldr snd]. rewrite Hsz. done.
    + cbn [insert list_insert foldr]. f_equal. by apply IH.
Qed.

(** *** Deleting *)
Lemma page_key_deleted indx ptr sz ns j :
  0 <= indx < lenZ ns -> 0 <= j ->
  page_key (deleted indx ptr sz ns) j = page_key ns (if decide (j < indx) then j else j + 1).
Proof.
  intros Hi Hj. unfold page_key, deleted. rewrite lookup_delete_at by (unfold lenZ in *; rewrite length_map; done).
  rewrite Z2Nat.id by lia. destruct (decide _).
  - rewrite list_lookup_fmap. by destruct (ns !! Z.to_nat j) as [[? ?]|].
  - replace (S (Z.to_nat j)) with (Z.to_nat (j + 1)) by lia. rewrite list_lookup_fmap.
    by destruct (ns !! Z.to_nat (j + 1)) as [[? ?]|].
Qed.
(** The room an entry takes, its pointer included. *)
Definition freed (m : gmap bytes bytes) (key : bytes) : Z :=
  match m !! key with Some d => esize key d + 2 | None => 0 end.
(** The leaf without a node, and where its key would go. *)
Lemma delete_node mp ns (i : nat) p nd :
  leaf_rep mp ns -> ns !! i = Some (p, nd) ->
  exists mp' ns', mdb_node_del mp (Z.of_nat i) 0 = Done mp' /\ leaf_rep mp' ns' /\
    leaf_map ns' = delete (pn_key nd) (leaf_map ns) /\
    SIZELEFT mp' = SIZELEFT mp + freed (leaf_map ns) (pn_key nd) /\ 0 <= Z.of_nat i <= lenZ ns' /\
    (forall j, 0 <= j < Z.of_nat i -> lex (page_key ns' j) (pn_key nd) < 0) /\
    (forall j, Z.of_nat i <= j < lenZ ns' -> lex (pn_key nd) (page_key ns' j) < 0).
Proof.
  intros [H Hl Hs Hp] Hi. pose proof (proj1 (page_sorted_keys mp ns Hl) Hs) as Hk.
  assert (Hil : 0 <= Z.of_nat i < lenZ ns) by (pose proof (lookup_lt_Some _ _ _ Hi); unfold lenZ; lia).
  assert (Hi' : ns !! Z.to_nat (Z.of_nat i) = Some (p, nd)) by (by rewrite Nat2Z.id).
  destruct (node_del_ok mp ns (Z.of_nat i) 0 p nd H ltac:(lia) Hi') as (mp' & E & Hrep & Hsz & Hfl).
  exists mp', (deleted (Z.of_nat i) p (isize nd) ns). rewrite lenZ_deleted by lia.
  assert (Hf : first_key mp = 0) by (unfold first_key; by rewrite Hl).
  split; [done|]. split; [|split; [by eapply leaf_map_deleted; [lia|..]|split; [|split; [lia|split]]]].
  - assert (Hl' : IS_LEAF mp' = true) by (unfold IS_LEAF; by rewrite Hfl). constructor; [done|done| |].
    + apply (page_sorted_keys mp'); [done|]. by apply deleted_sorted.
    + apply Forall_lookup. intros j [q ne] (k & q' & Hkk & _)%deleted_inv; [|done].
      rewrite Forall_lookup in Hp. exact (Hp _ _ Hkk).
  - unfold freed. rewrite (leaf_map_lookup mp ns i p nd Hl Hs Hi), Hsz.
    destruct (pr_ok _ _ H _ _ _ Hi) as [Hok _]. rewrite (even_up_size _ _ Hok). unfold esize. lia.
  - intros j Hj. rewrite page_key_deleted, decide_True by lia.
    rewrite <- (page_key_lookup _ _ _ _ Hi). apply Hs; lia.
  - intros j Hj. rewrite page_key_deleted, decide_False by lia.
    rewrite <- (page_key_lookup _ _ _ _ Hi). apply Hs; lia.
Qed.
Lemma write_same raw p n d : blk_read raw p n = Done d -> blk_write raw p d = Done raw.
Proof.
  intros Hr. pose proof (lenZ_blk_read _ _ _ _ Hr) as Hn. apply blk_read_done in Hr as (Hp & Hn0 & Hl & Hd).
  rewrite blk_write_ok by lia. f_equal. rewrite Hn. subst d. unfold takeZ, dropZ.
  rewrite Z2Nat.inj_add by lia. rewrite <- drop_drop, take_drop. apply take_drop.
Qed.

(** ** The operations on a leaf *)
Section put.
Context (nodemax psize pg : Z) (page_new : Z -> Z + Z) (key data : bytes).
Hypothesis Hnew : forall n, page_new n = inr pg.
Hypothesis Hkey : lenZ key < 2 ^ 16.
Hypothesis Hdata : lenZ data < 2 ^ 32.
Hypothesis Hsmall : 8 + lenZ key + lenZ data < nodemax.

Lemma small_node pad : leaf_node nodemax pg 0 key data pad =
  {| pn_val := lenZ data; pn_flags := 0; pn_key := key; pn_data := data; pn_pad := pad |}.
Proof.
  unfold leaf_node, leaf_flags, leaf_stored, on_overflow. by rewrite (proj2 (Z.leb_gt nodemax _)) by lia.
Qed.
Lemma put_new_ok mp ns r :
  leaf_rep mp ns -> 0 <= r <= lenZ ns ->
  (forall j, 0 <= j < r -> lex (page_key ns j) key < 0) ->
  (forall j, r <= j < lenZ ns -> lex key (page_key ns j) < 0) ->
  let need := mdb_leaf_size nodemax (val_of key) (val_of data) in
  (SIZELEFT mp < need -> put_new nodemax psize page_new mp r (val_of key) (val_of data) = Done (PutSplit mp)) /\
  (need <= SIZELEFT mp -> exists mp' ns',
     put_new nodemax psize page_new mp r (val_of key) (val_of data) = Done (PutDone MDB_SUCCESS mp' None) /\
     leaf_rep mp' ns' /\ leaf_map ns' = <[key := data]> (leaf_map ns)).
Proof.
  intros Hr Hpos Hlo Hhi need. split; [intros Hf; unfold put_new; fold need; by rewrite (proj2 (Z.ltb_lt _ _) Hf)|]. intros Hroom.
  destruct Hr as [H Hl Hs Hp]. apply (page_sorted_keys mp ns Hl) in Hs.
  destruct (leaf_add_ok nodemax psize 0 pg r 0 0 page_new mp ns key data) as [_ Hadd]; try done.
  destruct (Hadd Hroom) as (mp' & pad & E & Hl' & _ & Hrep). fold need in E, Hrep.
  unfold put_new. fold need. rewrite (proj2 (Z.ltb_ge (SIZELEFT mp) need)) by lia. rewrite E. cbn [obind].
  unfold on_overflow. rewrite (proj2 (Z.leb_gt nodemax _)) by lia.
  rewrite small_node in Hrep. do 2 eexists. split; [done|].
  assert (Hs' := insert_sorted ns r (mp_upper mp - (need - 2))
    {| pn_val := lenZ data; pn_flags := 0; pn_key := key; pn_data := data; pn_pad := pad |} Hs Hpos Hlo Hhi).
  split; [|by rewrite (leaf_map_insert _ _ _ _ Hs')]. constructor; [exact Hrep|done|by apply page_sorted_keys|].
  unfold insert_at. rewrite <- (takeZ_dropZ r ns) in Hp. apply Forall_app in Hp as [Hp1 Hp2].
  apply Forall_app. split; [done|]. by constructor.
Qed.

(** What an insertion leads to: the map with the entry, or a page that has no
    room, not even with what the old entry of the key gives back. *)
Definition put_outcome (mp : MDB_page) (ns : list (Z * pnode)) (r : put_result) : Prop :=
  match r with
  | PutDone rc mp' ovf => rc = MDB_SUCCESS /\ ovf = None /\
      exists ns', leaf_rep mp' ns' /\ leaf_map ns' = <[key := data]> (leaf_map ns)
  | PutSplit mp' => SIZELEFT mp + freed (leaf_map ns) key < mdb_leaf_size nodemax (val_of key) (val_of data) /\
      exists ns', leaf_rep mp' ns' /\ leaf_map ns' = delete key (leaf_map ns)
  | PutOverflow => False
  end.
Lemma put_new_outcome mp ns mp0 ns0 r :
  leaf_rep mp ns -> 0 <= r <= lenZ ns ->
  (forall j, 0 <= j < r -> lex (page_key ns j) key < 0) ->
  (forall j, r <= j < lenZ ns -> lex key (page_key ns j) < 0) ->
  leaf_map ns = delete key (leaf_map ns0) -> SIZELEFT mp = SIZELEFT mp0 + freed (leaf_map ns0) key ->
  exists res, put_new nodemax psize page_new mp r (val_of key) (val_of data) = Done res /\ put_outcome mp0 ns0 res.
Proof.
  intros Hr Hpos Hlo Hhi Hm Hsz. destruct (put_new_ok mp ns r Hr Hpos Hlo Hhi) as [Hfull Hdone].
  destruct (Z.lt_ge_cases (SIZELEFT mp) (mdb_leaf_size nodemax (val_of key) (val_of data))) as [Hlt|Hge].
  - exists (PutSplit mp). split; [by apply Hfull|]. split; [lia|]. by exists ns.
  - destruct (Hdone Hge) as (mp' & ns' & E & Hr' & Hm'). exists (PutDone MDB_SUCCESS mp' None).
    split; [done|]. split; [done|]. split; [done|]. exists ns'. split; [done|].
    rewrite Hm', Hm. apply insert_delete_eq.
Qed.
(** The same size: the new data over the old, or nothing new to write. *)
Lemma put_in_place mp ns (i : nat) p nd :
  leaf_rep mp ns -> ns !! i = Some (p, nd) -> pn_key nd = key -> lenZ (pn_data nd) = lenZ data ->
  exists raw', (if negb (lenZ data =? 0) then
                  olet! d := blk_read data 0 (lenZ data) in blk_write (mp_raw mp) (p + 8 + lenZ (pn_key nd)) d
                else olet! k := blk_read key 0 (lenZ key) in blk_write (mp_raw mp) (p + NODESIZE) k) = Done raw' /\
    exists ns', leaf_rep (page_set_raw raw' mp) ns' /\ leaf_map ns' = <[key := data]> (leaf_map ns).
Proof.
  intros Hr Hi Ek Hd. pose proof (lr_rep _ _ Hr) as H. pose proof (proj1 (page_sorted_keys mp ns (lr_leaf _ _ Hr)) (lr_sorted _ _ Hr)) as Hs.
  pose proof (rep_ptr_range _ _ _ _ _ H Hi) as (Hp & Hpe & _). rewrite isize_eq in Hpe.
  pose proof (lenZ_nonneg (pn_pad nd)). pose proof (lenZ_nonneg (pn_key nd)). pose proof (lenZ_nonneg ns).
  destruct (Z.eqb_spec (lenZ data) 0) as [Hz|Hz]; cbn [negb].
  - pose proof (read_val key) as Hv. simpl in Hv. rewrite Hv. cbn [obind]. exists (mp_raw mp).
    destruct (node_fields _ _ H _ _ _ Hi) as (_ & _ & _ & Hks). pose proof (node_key _ _ H _ _ _ Hi) as Hk.
    unfold NODEKEY in Hk. rewrite Hks in Hk. cbn [obind] in Hk. rewrite Ek in Hk.
    rewrite (write_same _ _ _ _ Hk). split; [done|]. exists ns. split; [by destruct mp|].
    symmetry. apply insert_id. rewrite (lenZ_zero_nil data Hz), <- Ek.
    replace [] with (pn_data nd) by (apply lenZ_zero_nil; lia).
    by eapply leaf_map_lookup; [apply Hr|apply Hr|].
  - pose proof (read_val data) as Hv. simpl in Hv. rewrite Hv. cbn [obind].
    assert (Hw : exists raw', blk_write (mp_raw mp) (p + 8 + lenZ (pn_key nd)) data = Done raw')
      by (rewrite blk_write_ok by lia; by eexists).
    destruct Hw as [raw' Hw]. exists raw'. split; [done|]. exists (<[i := (p, set_data data nd)]> ns).
    destruct (leaf_map_replace ns i p nd data Hs Hi) as [Hs' Hm]. rewrite Ek in Hm. split; [|done].
    constructor; [by eapply overwrite_rep|exact (lr_leaf _ _ Hr)| |].
    + by apply (page_sorted_keys (page_set_raw raw' mp)); [exact (lr_leaf _ _ Hr)|].
    + apply Forall_insert; [exact (lr_plain _ _ Hr)|]. by destruct (plain_lookup _ _ _ _ _ Hr Hi).
Qed.
Lemma put_leaf_ok mp ns :
  leaf_rep mp ns ->
  exists res, put_leaf nodemax psize page_new mp (val_of key) (val_of data) = Done res /\ put_outcome mp ns res.
Proof.
  intros Hr. pose proof (lr_rep _ _ Hr) as H. unfold put_leaf. rewrite (NUMKEYS_rep _ _ H).
  destruct (Z.eqb_spec (lenZ ns) 0) as [He|Hne].
  { apply (put_new_outcome mp ns); [done|lia|lia|lia|..]; rewrite (lenZ_zero_nil ns He); [done|].
    unfold freed, leaf_map. simpl. rewrite lookup_empty. lia. }
  assert (Hns : ns <> []) by (by intros ->). cbn [val_of mv_data mv_size].
  destruct (leaf_search mp ns key Hr Hns ltac:(lia)) as [(i & p & nd & -> & Hi & Ek)|(node & r & -> & Hpos & Hlo & Hhi & Hno)];
    cbn [obind negb].
  2: { apply (put_new_outcome mp ns); [done..| |]; [by rewrite delete_id|]. unfold freed. rewrite Hno. lia. }
  rewrite (pr_ptr _ _ H _ _ _ Hi). cbn [obind]. destruct (plain_lookup _ _ _ _ _ Hr Hi) as (Hf & Hv & _).
  destruct (node_fields _ _ H _ _ _ Hi) as (_ & _ & -> & _). rewrite Hf. cbn [obind].
  change (F_ISSET 0 F_BIGDATA) with false. cbn iota. rewrite (node_dsz _ _ H _ _ _ Hi). cbn [obind]. rewrite Hv.
  destruct (Z.eqb_spec (lenZ (pn_data nd)) (lenZ data)) as [Hsame|Hdiff].
  - destruct (node_data _ _ _ _ _ H Hi) as [-> Hd]. cbn [obind].
    destruct (put_in_place mp ns i p nd Hr Hi Ek Hsame) as (raw' & -> & ns' & Hr' & Hm'). cbn [obind].
    eexists. split; [done|]. split; [done|]. split; [done|]. by exists ns'.
  - destruct (delete_node mp ns i p nd Hr Hi) as (mp' & ns' & -> & Hr' & Hm' & Hfree & Hpos & Hlo & Hhi). cbn [obind].
    rewrite Ek in *. by apply (put_new_outcome mp' ns').
Qed.
End put.

Lemma del_leaf_ok page_get mp ns key :
  leaf_rep mp ns -> ns <> [] -> lenZ key < 2 ^ 32 ->
  exists mp' ns', leaf_rep mp' ns' /\ leaf_map ns' = delete key (leaf_map ns) /\
    del_leaf page_get mp key = Done (match leaf_map ns !! key with Some _ => MDB_SUCCESS | None => MDB_NOTFOUND end, mp', None).
Proof.
  intros Hr Hne Hk. pose proof (lr_rep _ _ Hr) as H. unfold del_leaf.
  destruct (leaf_search mp ns key Hr Hne Hk) as [(i & p & nd & -> & Hi & <-)|(node & r & -> & _ & _ & _ & Hno)];
    cbn [obind negb].
  - destruct (plain_lookup _ _ _ _ _ Hr Hi) as (Hf & _). destruct (node_fields _ _ H _ _ _ Hi) as (_ & _ & -> & _).
    rewrite Hf. cbn [obind]. change (F_ISSET 0 F_BIGDATA) with false. cbn iota beta.
    destruct (delete_node mp ns i p nd Hr Hi) as (mp' & ns' & -> & Hr' & Hm' & _). exists mp', ns'.
    split; [done|]. split; [done|]. by rewrite (leaf_map_lookup mp ns i p nd (lr_leaf _ _ Hr) (lr_sorted _ _ Hr) Hi).
  - exists mp, ns. rewrite Hno. split; [done|]. split; [by rewrite delete_id|done].
Qed.

(** ** Sequences of operations

    An empty tree has no root page, and the search for a key there ends before
    it reaches a page. *)
Inductive leaf_op :=
  | LGet (key : bytes)
  | LPut (key data : bytes)
  | LDel (key : bytes).

Section run.
Context (nodemax psize : Z) (page_new : Z -> Z + Z) (page_get : Z -> outcome (Z + bytes)).

(** The result, the data and the page; [None]: the page has to be split. *)
Definition leaf_step (op : leaf_op) (mp : MDB_page) : outcome (option (Z * bytes * MDB_page)) :=
  match op with
  | LGet key =>
      if NUMKEYS mp =? 0 then Done (Some (MDB_NOTFOUND, [], mp))
      else olet! '(rc, _, d) := set_leaf page_get mp key in Done (Some (rc, d, mp))
  | LPut key data =>
      olet! r := put_leaf nodemax psize page_new mp (val_of key) (val_of data) in
      Done (match r with PutDone rc mp _ => Some (rc, [], mp) | _ => None end)
  | LDel key =>
      if NUMKEYS mp =? 0 then Done (Some (MDB_NOTFOUND, [], mp))
      else olet! '(rc, mp, _) := del_leaf page_get mp key in Done (Some (rc, [], mp))
  end.
(** The results of the operations that were done, the page, and the rest, which
    begins with the insertion that needs a split. *)
Fixpoint leaf_run (ops : list leaf_op) (mp : MDB_page)
    : outcome (list (Z * bytes) * MDB_page * list leaf_op) :=
  match ops with
  | [] => Done ([], mp, [])
  | op :: ops' =>
      olet! r := leaf_step op mp in
      match r with
      | None => Done ([], mp, ops)
      | Some (rc, d, mp) =>
          olet! '(rs, mp, rest) := leaf_run ops' mp in Done ((rc, d) :: rs, mp, rest)
      end
  end.

(** The same on maps. *)
Definition map_step (op : leaf_op) (m : gmap bytes bytes) : Z * bytes * gmap bytes bytes :=
  match op with
  | LGet key => match m !! key with Some d => (MDB_SUCCESS, d, m) | None => (MDB_NOTFOUND, [], m) end
  | LPut key data => (MDB_SUCCESS, [], <[key := data]> m)
  | LDel key => (match m !! key with Some _ => MDB_SUCCESS | None => MDB_NOTFOUND end, [], delete key m)
  end.
Fixpoint map_run (ops : list leaf_op) (m : gmap bytes bytes) : list (Z * bytes) * gmap bytes bytes :=
  match ops with
  | [] => ([], m)
  | op :: ops =>
      let '(rc, d, m) := map_step op m in
      let '(rs, m) := map_run ops m in ((rc, d) :: rs, m)
  end.

(** Keys and data that fit on a page. *)
Definition op_small (op : leaf_op) : Prop :=
  match op with
  | LPut key data => lenZ key < 2 ^ 16 /\ lenZ data < 2 ^ 32 /\ 8 + lenZ key + lenZ data < nodemax
  | LGet key | LDel key => lenZ key < 2 ^ 32
  end.
(** The rest of the operations begins with an insertion for which there is no
    room, even without the entry it replaces. *)
Definition stuck (mp : MDB_page) (m : gmap bytes bytes) (rest : list leaf_op) : Prop :=
  match rest with
  | [] => True
  | LPut key data :: _ =>
      SIZELEFT mp + freed m key < mdb_leaf_size nodemax (val_of key) (val_of data)
  | _ => False
  end.

Lemma leaf_step_ok op mp ns pg :
  leaf_rep mp ns -> op_small op -> (forall n, page_new n = inr pg) ->
  (exists rc d mp' ns', leaf_step op mp = Done (Some (rc, d, mp')) /\ leaf_rep mp' ns' /\
     map_step op (leaf_map ns) = (rc, d, leaf_map ns')) \/
  (leaf_step op mp = Done None /\ forall ops, stuck mp (leaf_map ns) (op :: ops)).
Proof.
  intros Hr Hop Hnew. pose proof (lr_rep _ _ Hr) as H. destruct op as [key|key data|key]; cbn [leaf_step map_step op_small] in *.
  - left. rewrite (NUMKEYS_rep _ _ H). destruct (Z.eqb_spec (lenZ ns) 0) as [He|Hne].
    { exists MDB_NOTFOUND, [], mp, ns. split; [done|]. split; [done|]. by rewrite (lenZ_zero_nil ns He). }
    destruct (set_leaf_ok page_get mp ns key Hr) as [i ->]; [by intros ->|done|]. cbn [obind].
    destruct (leaf_map ns !! key) as [d|]; do 4 eexists; (split; [done|]); (split; [exact Hr|done]).
  - destruct Hop as (Hk & Hd & Hs).
    destruct (put_leaf_ok nodemax psize pg page_new key data Hnew Hk Hd Hs mp ns Hr) as (res & -> & Hres). cbn [obind].
    destruct res as [rc mp' ovf|mp'|]; cbn [put_outcome] in Hres; [|right|done].
    + left. destruct Hres as (-> & -> & ns' & Hr' & Hm). do 4 eexists. split; [done|]. split; [exact Hr'|]. by rewrite Hm.
    + by destruct Hres as (Hfull & _).
  - left. rewrite (NUMKEYS_rep _ _ H). destruct (Z.eqb_spec (lenZ ns) 0) as [He|Hne].
    { exists MDB_NOTFOUND, [], mp, ns. split; [done|]. split; [done|]. rewrite (lenZ_zero_nil ns He).
      unfold leaf_map. simpl. by rewrite delete_empty. }
    destruct (del_leaf_ok page_get mp ns key Hr) as (mp' & ns' & Hr' & Hm & ->); [by intros ->|done|]. cbn [obind].
    do 4 eexists. split; [done|]. split; [exact Hr'|]. by rewrite Hm.
Qed.

(** C6: a leaf page of LMDB is a finite map: starting from any well-formed leaf
    with its keys in order, every sequence of lookups, insertions (replacements
    included) and deletions of items that fit on a page runs without an access
    outside the page or a failed assertion, returns exactly what the operations
    on the map of its entries return, and leaves a well-formed leaf with that
    map's entries, up to the end or up to an insertion that does not fit into
    the room left on the page together with that of the entry it replaces. *)
Theorem leaf_refines_map (ops : list leaf_op) (mp : MDB_page) (ns : list (Z * pnode)) (pg : Z) :
  leaf_rep mp ns -> Forall op_small ops -> (forall n, page_new n = inr pg) ->
  exists done_ops rest mp' ns',
    ops = done_ops ++ rest /\ leaf_rep mp' ns' /\ stuck mp' (leaf_map ns') rest /\
    leaf_run ops mp = Done (fst (map_run done_ops (leaf_map ns)), mp', rest) /\
    leaf_map ns' = snd (map_run done_ops (leaf_map ns)).
Proof.
  intros Hr Hops Hnew. revert mp ns Hr. induction Hops as [|op ops Hop Hops IH]; intros mp ns Hr.
  { by exists [], [], mp, ns. }
  cbn [leaf_run]. destruct (leaf_step_ok op mp ns pg Hr Hop Hnew) as [(rc & d & mp1 & ns1 & -> & Hr1 & Hm)|[-> Hst]];
    cbn [obind].
  - destruct (IH mp1 ns1 Hr1) as (ds & rest & mp' & ns' & -> & Hr' & Hst & -> & Hm'). cbn [obind].
    exists (op :: ds), rest, mp', ns'. split; [done|]. split; [done|]. split; [done|]. cbn [map_run]. rewrite Hm.
    destruct (map_run ds (leaf_map ns1)) as [rs m]. done.
  - exists [], (op :: ops), mp, ns. split; [done|]. split; [done|]. split; [apply Hst|done].
Qed.
End run.

Lemma leaf_refines_map_witness :
  exists done_ops rest mp' ns',
    [LPut [98] [1; 2]; LPut [97] [3]; LGet [98]; LPut [98] [9]; LDel [97]; LGet [97]; LPut [99] (zeros 20)]
      = done_ops ++ rest /\ leaf_rep mp' ns' /\ stuck 40 mp' (leaf_map ns') rest /\
    leaf_run 40 64 (fun _ => inr 9) (fun _ => Done (inl 5))
      [LPut [98] [1; 2]; LPut [97] [3]; LGet [98]; LPut [98] [9]; LDel [97]; LGet [97]; LPut [99] (zeros 20)]
      (mdb_page_new 64 P_LEAF 3 (zeros 64)) = Done (fst (map_run done_ops (leaf_map [])), mp', rest) /\
    leaf_map ns' = snd (map_run done_ops (leaf_map [])).
Proof.
  apply (leaf_refines_map 40 64 (fun _ => inr 9) (fun _ => Done (inl 5)) _ _ [] 9); [|by repeat constructor|done].
  constructor; [by apply page_new_rep|done| |constructor].
  intros i j Hi Hj. change (lenZ []) with 0 in Hj. unfold first_key in Hi. simpl in Hi. lia.
Defined.
