(* ===== verification/Split.v ===== *)
(** * Split: dividing a full page (mdb_page_split of lib/lmdb/mdb.c)

    What happens to the two pages when a node does not fit: the choice of the
    place where the page is divided, the separator for the parent, the
    distribution of the nodes and of the new one over a copy of the page and
    its right sibling, and the copy back.  The parent is updated between the
    second and the third step; the sibling and the temporary page are
    arguments.  Pages of fixed-size keys (LEAF2) and the append mode, which the
    databases of FineDB do not use, are left out. *)
From S2P Require Import Prelude.
From S2P Require Import Lmdb.
From S2P Require Import Pages LeafMap.

Section split.
(** The page size, the size from which data goes to overflow pages, and the
    answer of the page allocator. *)
Context (me_psize me_nodemax : Z) (page_new : Z -> Z + Z).

(** ** The place *)

(** What the node at index [i] takes in [psize] *)
Definition node_room (mp : MDB_page) (i psize : Z) : outcome Z :=
  olet! ofs := mp_ptr (mp_raw mp) i in
  olet! ks := mn_ksize (mp_raw mp) ofs in
  let psize := u32 (psize + (NODESIZE + ks + 2)) in
  olet! fl := mn_flags (mp_raw mp) ofs in
  olet! psize := (if F_ISSET fl F_BIGDATA then Done (u32 (psize + 8))
                  else olet! ds := NODEDSZ (mp_raw mp) ofs in Done (u32 (psize + ds))) in
  Done (u32 (psize + Z.land psize 1)).
(** [for (i=0; i<split_indx; i++)], up to the first node that is too much *)
Fixpoint scan_left (n : nat) (mp : MDB_page) (i psize pmax : Z) : outcome (option Z) :=
  match n with
  | O => Done None
  | S n =>
      olet! psize := node_room mp i psize in
      if pmax <? psize then Done (Some i) else scan_left n mp (i + 1) psize pmax
  end.
(** [for (i=nkeys-1; i>=split_indx; i--)], with an unsigned [i] *)
Fixpoint scan_right (fuel : nat) (mp : MDB_page) (i split_indx psize pmax : Z) : outcome (option Z) :=
  if i <? split_indx then Done None
  else match fuel with
  | O => Fault OutOfFuel
  | S fuel =>
      olet! psize := node_room mp i psize in
      if pmax <? psize then Done (Some i) else scan_right fuel mp (u32 (i - 1)) split_indx psize pmax
  end.
(** The index where the right page starts, and whether a new node at that index
    goes to the right page ([newpos]) *)
Definition split_point (mp : MDB_page) (newindx : Z) (newkey newdata : MDB_val) : outcome (Z * bool) :=
  let nkeys := NUMKEYS mp in
  let split_indx := nkeys / 2 in
  let newpos := negb (newindx <? split_indx) in
  if IS_LEAF mp then
    let pmax := u32 (me_psize - PAGEHDRSZ) in
    let nsize := mdb_leaf_size me_nodemax newkey newdata in
    if (nkeys <? 20) || (pmax / 16 <? nsize) then
      if newindx <=? split_indx then
        olet! r := scan_left (Z.to_nat split_indx) mp 0 nsize pmax in
        Done (match r with
              | None => (split_indx, false)
              | Some i => if i <=? newindx then (newindx, i <? newindx) else (i, false)
              end)
      else
        olet! r := scan_right (Z.to_nat nkeys) mp (u32 (nkeys - 1)) split_indx nsize pmax in
        Done (match r with
              | None => (split_indx, newpos)
              | Some i => if newindx <=? i then (newindx, false) else (i + 1, newpos)
              end)
    else Done (split_indx, newpos)
  else Done (split_indx, newpos).
(** The key that separates the pages in their parent *)
Definition separator (mp : MDB_page) (newindx : Z) (newkey : MDB_val) (split_indx : Z) (newpos : bool) : outcome bytes :=
  if (newindx =? split_indx) && newpos then blk_read (mv_data newkey) 0 (mv_size newkey)
  else olet! ofs := mp_ptr (mp_raw mp) split_indx in NODEKEY (mp_raw mp) ofs.

(** ** The distribution *)

(** What is added next: the key, the data, the page number and the flags *)
Record entry := { en_key : MDB_val; en_data : option MDB_val; en_pgno : Z; en_flags : Z }.
Definition node_entry (mp : MDB_page) (i : Z) : outcome entry :=
  let raw := mp_raw mp in
  olet! ofs := mp_ptr raw i in
  olet! key := NODEKEY raw ofs in
  olet! fl := mn_flags raw ofs in
  if IS_LEAF mp then
    olet! pos := NODEDATA raw ofs in
    olet! ds := NODEDSZ raw ofs in
    Done {| en_key := {| mv_size := lenZ key; mv_data := key |};
            en_data := Some {| mv_size := ds; mv_data := dropZ pos raw |}; en_pgno := 0; en_flags := fl |}
  else
    olet! pg := NODEPGNO raw ofs in
    Done {| en_key := {| mv_size := lenZ key; mv_data := key |}; en_data := None; en_pgno := pg; en_flags := fl |}.
(** The two pages being filled; [sp_right] says which one is the cursor's, and
    [sp_ki] is the index of the new node. *)
Record spages := { sp_copy : MDB_page; sp_rp : MDB_page; sp_right : bool; sp_ki : Z; sp_ovf : option (Z * bytes) }.
Definition add_entry (j : Z) (leaf : bool) (e : entry) (s : spages) : outcome (Z * spages) :=
  let key := if negb leaf && (j =? 0) then {| mv_size := 0; mv_data := mv_data (en_key e) |} else en_key e in
  olet! '(rc, p, ovf) := mdb_node_add me_nodemax me_psize 0 page_new (if sp_right s then sp_rp s else sp_copy s)
                           j (Some key) (en_data e) (en_pgno e) (en_flags e) in
  Done (rc, {| sp_copy := if sp_right s then sp_copy s else p; sp_rp := if sp_right s then p else sp_rp s;
               sp_right := sp_right s; sp_ki := sp_ki s; sp_ovf := match ovf with Some _ => ovf | None => sp_ovf s end |}).
Definition to_right (s : spages) : spages :=
  {| sp_copy := sp_copy s; sp_rp := sp_rp s; sp_right := true; sp_ki := sp_ki s; sp_ovf := sp_ovf s |}.
Definition set_ki (j : Z) (s : spages) : spages :=
  {| sp_copy := sp_copy s; sp_rp := sp_rp s; sp_right := sp_right s; sp_ki := j; sp_ovf := sp_ovf s |}.
(** [for (i = j = 0; i <= nkeys; j++)] *)
Fixpoint split_loop (fuel : nat) (mp : MDB_page) (newindx : Z) (new : entry) (split_indx : Z) (newpos : bool)
    (i j : Z) (ins_new : bool) (s : spages) : outcome (Z * spages) :=
  if NUMKEYS mp <? i then Done (MDB_SUCCESS, s)
  else
    let switch := (i =? split_indx) && (negb (i =? newindx) || xorb newpos ins_new) in
    let j := if switch then 0 else j in
    let s := if switch then to_right s else s in
    if (i =? newindx) && negb ins_new then
      olet! '(rc, s) := add_entry j (IS_LEAF mp) new (set_ki j s) in
      if negb (rc =? 0) then Done (rc, s)
      else match fuel with
           | O => Fault OutOfFuel
           | S fuel => split_loop fuel mp newindx new split_indx newpos i (j + 1) true s
           end
    else if i =? NUMKEYS mp then Done (MDB_SUCCESS, s)
    else
      olet! e := node_entry mp i in
      olet! '(rc, s) := add_entry j (IS_LEAF mp) e s in
      if negb (rc =? 0) then Done (rc, s)
      else match fuel with
           | O => Fault OutOfFuel
           | S fuel => split_loop fuel mp newindx new split_indx newpos (i + 1) (j + 1) ins_new s
           end.

(** [for (i=0; i<nkeys; i++) mp->mp_ptrs[i] = copy->mp_ptrs[i]] *)
Fixpoint copy_ptrs (n : nat) (i : Z) (src dst : bytes) : outcome bytes :=
  match n with
  | O => Done dst
  | S n => olet! p := mp_ptr src i in olet! dst := set_ptr dst i p in copy_ptrs n (i + 1) src dst
  end.
Definition copy_back (copy mp : MDB_page) : outcome MDB_page :=
  let nkeys := NUMKEYS copy in
  olet! raw := copy_ptrs (Z.to_nat nkeys) 0 (mp_raw copy) (mp_raw mp) in
  olet! dst := mp_ptr raw (nkeys - 1) in
  olet! src := mp_ptr (mp_raw copy) (nkeys - 1) in
  olet! d := blk_read (mp_raw copy) src (me_psize - mp_upper copy) in
  olet! raw := blk_write raw dst d in
  Done {| mp_pgno := mp_pgno mp; mp_flags := mp_flags mp; mp_lower := mp_lower copy; mp_upper := mp_upper copy; mp_raw := raw |}.

(** The result code, the left and the right page, the separator, and where the
    new node is; [tmp] is what the temporary page holds. *)
Record split_result := {
  sr_rc : Z; sr_left : MDB_page; sr_right : MDB_page; sr_sep : bytes; sr_on_right : bool; sr_ki : Z; sr_ovf : option (Z * bytes)
}.
Definition split_page (mp : MDB_page) (newindx : Z) (newkey : MDB_val) (newdata : option MDB_val) (newpgno nflags : Z)
    (rp : MDB_page) (tmp : bytes) : outcome split_result :=
  olet! '(split_indx, newpos) :=
    split_point mp newindx newkey (match newdata with Some d => d | None => {| mv_size := 0; mv_data := [] |} end) in
  olet! sep := separator mp newindx newkey split_indx newpos in
  let copy := {| mp_pgno := mp_pgno mp; mp_flags := mp_flags mp; mp_lower := PAGEHDRSZ; mp_upper := u16 me_psize; mp_raw := tmp |} in
  let new := {| en_key := newkey; en_data := newdata; en_pgno := newpgno; en_flags := nflags |} in
  olet! '(rc, s) := split_loop (S (Z.to_nat (NUMKEYS mp))) mp newindx new split_indx newpos 0 0 false
                      {| sp_copy := copy; sp_rp := rp; sp_right := false; sp_ki := 0; sp_ovf := None |} in
  olet! left := copy_back (sp_copy s) mp in
  Done {| sr_rc := rc; sr_left := left; sr_right := sp_rp s; sr_sep := sep;
          sr_on_right := negb ((newindx <? split_indx) || negb newpos && (newindx =? split_indx));
          sr_ki := sp_ki s; sr_ovf := sp_ovf s |}.
End split.

(** ** Lemmas: filling a page *)

(** A node without the byte that makes its size even, and what it takes. *)
Definition bare (nd : pnode) : pnode :=
  {| pn_val := pn_val nd; pn_flags := pn_flags nd; pn_key := pn_key nd; pn_data := pn_data nd; pn_pad := [] |}.
Definition contents (ns : list (Z * pnode)) : list pnode := map (fun x => bare x.2) ns.
Definition room (nd : pnode) : Z := esize (pn_key nd) (pn_data nd) + 2.
Definition rooms (bs : list pnode) : Z := foldr (fun b t => room b + t) 0 bs.

Lemma room_pos nd : 10 <= room nd.
Proof. unfold room. rewrite esize_pad. pose proof (land_1_range (lenZ (pn_key nd) + lenZ (pn_data nd))). lens. Qed.
Lemma room_even nd : room nd mod 2 = 0.
Proof. unfold room, esize, even_up. rewrite land_1. dlia. Qed.
Lemma rooms_app a b : rooms (a ++ b) = rooms a + rooms b.
Proof. induction a as [|x a IH]; cbn [app rooms foldr]; [done|]. unfold rooms in IH |- *. rewrite IH. lia. Qed.
Lemma rooms_nonneg bs : 0 <= rooms bs.
Proof. induction bs as [|b bs IH]; cbn [rooms foldr]; [done|]. pose proof (room_pos b). unfold rooms in IH. lia. Qed.
Lemma rooms_insert i b bs : rooms (insert_at i b bs) = room b + rooms bs.
Proof. unfold insert_at. rewrite <- (takeZ_dropZ i bs) at 3. rewrite !rooms_app. cbn [rooms foldr]. unfold rooms. lia. Qed.
Lemma rooms_take_drop i bs : rooms (takeZ i bs) + rooms (dropZ i bs) = rooms bs.
Proof. by rewrite <- rooms_app, takeZ_dropZ. Qed.
Lemma lenZ_contents ns : lenZ (contents ns) = lenZ ns.
Proof. unfold lenZ, contents. by rewrite length_map. Qed.
Lemma contents_app ns ms : contents (ns ++ ms) = contents ns ++ contents ms.
Proof. apply map_app. Qed.
Lemma rooms_rep mp ns :
  page_rep mp ns -> rooms (contents ns) = lenZ (mp_raw mp) - mp_upper mp + 2 * lenZ ns.
Proof.
  intros H. rewrite <- (pr_total _ _ H). assert (Hok : Forall (fun x => pnode_ok (IS_LEAF mp) x.2) ns).
  { apply Forall_lookup. intros i [p nd] Hi. by destruct (pr_ok _ _ H _ _ _ Hi). }
  clear H. induction Hok as [|[p nd] ns Hx _ IH]; [done|]. cbn [contents map rooms foldr snd] in *.
  rewrite lenZ_cons. change (foldr _ 0 (map _ ns)) with (rooms (contents ns)). rewrite IH.
  rewrite (even_up_size _ _ Hx). unfold room, esize. cbn [bare pn_key pn_data]. lia.
Qed.

(** A leaf of [psize] bytes to which the nodes [bs] were added one after the
    other: the last one is the lowest. *)
Record filled (psize : Z) (mp : MDB_page) (ns : list (Z * pnode)) (bs : list pnode) : Prop := {
  fl_rep : page_rep mp ns;
  fl_leaf : IS_LEAF mp = true;
  fl_size : lenZ (mp_raw mp) = psize;
  fl_contents : contents ns = bs;
  fl_last : forall x, last ns = Some x -> x.1 = mp_upper mp
}.
Lemma filled_len psize mp ns bs : filled psize mp ns bs -> lenZ ns = lenZ bs.
Proof. intros H. by rewrite <- (fl_contents _ _ _ _ H), lenZ_contents. Qed.
Lemma filled_left psize mp ns bs : filled psize mp ns bs -> SIZELEFT mp = psize - 16 - rooms bs.
Proof.
  intros H. pose proof (fl_rep _ _ _ _ H) as Hr. rewrite (SIZELEFT_rep _ _ Hr), <- (fl_contents _ _ _ _ H), (rooms_rep _ _ Hr).
  rewrite (fl_size _ _ _ _ H), (pr_lower _ _ Hr). lia.
Qed.
Lemma filled_nil psize pgno fl raw :
  F_ISSET fl P_LEAF = true -> F_ISSET fl P_LEAF2 = false -> lenZ raw = psize -> 16 <= psize < 2 ^ 16 ->
  filled psize {| mp_pgno := pgno; mp_flags := fl; mp_lower := PAGEHDRSZ; mp_upper := u16 psize; mp_raw := raw |} [] [].
Proof.
  intros Hl Hl2 Hs Hp. assert (Hu : u16 psize = psize) by (apply wrap_small; lia).
  constructor; [|done..]. constructor; cbn [mp_raw mp_lower mp_upper]; rewrite ?Hu; try done; unfold PAGEHDRSZ; try lia.
  cbn [foldr]. lia.
Qed.

Section filling.
Context (nodemax psize pg : Z) (page_new : Z -> Z + Z).
Hypothesis Hnew : forall n, page_new n = inr pg.

(** Adding [e] behind the other nodes gives the node [b], and what is written
    to an overflow page is [o]. *)
Definition adds (e : entry) (b : pnode) (o : option (Z * bytes)) : Prop :=
  forall mp ns bs, filled psize mp ns bs -> rooms bs + room b <= psize - 16 ->
  exists mp' ns',
    mdb_node_add nodemax psize 0 page_new mp (lenZ bs) (Some (en_key e)) (en_data e) (en_pgno e) (en_flags e)
    = Done (MDB_SUCCESS, mp', o) /\
    filled psize mp' ns' (bs ++ [b]) /\ mp_flags mp' = mp_flags mp /\ mp_pgno mp' = mp_pgno mp.

Lemma insert_at_end {A} (x : A) l n : n = lenZ l -> insert_at n x l = l ++ [x].
Proof. intros ->. unfold insert_at, takeZ, dropZ, lenZ. by rewrite Nat2Z.id, firstn_all, drop_all. Qed.
Lemma adds_core key data pgno flags v fl ofp st ovf :
  add_plan nodemax psize page_new true (8 + lenZ key) (Some data) flags = Done (inr (8 + lenZ key + lenZ st, fl, ofp)) ->
  (forall raw ofs,
     (olet! raw := write_head raw ofs true (Some (val_of key)) (Some data) pgno fl in
      write_body raw ofs (val_of key) data fl ofp)
     = olet! raw := write_parts (leaf_parts ofs v fl key st) raw in Done (raw, ovf)) ->
  (forall pad, lenZ pad = Z.land (lenZ key + lenZ st) 1 ->
     pnode_ok true {| pn_val := v; pn_flags := fl; pn_key := key; pn_data := st; pn_pad := pad |}) ->
  adds {| en_key := val_of key; en_data := Some data; en_pgno := pgno; en_flags := flags |}
    {| pn_val := v; pn_flags := fl; pn_key := key; pn_data := st; pn_pad := [] |} ovf.
Proof.
  intros Hplan Hwrite Hnode mp ns bs H Hroom. unfold room in Hroom. cbn [pn_key pn_data] in Hroom.
  pose proof (filled_left _ _ _ _ H) as HL. pose proof (filled_len _ _ _ _ H) as Hlen.
  pose proof (fl_rep _ _ _ _ H) as Hr. pose proof (pr_lower _ _ Hr) as Hlo. pose proof (rep_upper _ _ Hr) as Hu.
  pose proof (pr_size _ _ Hr) as Hps. pose proof (SIZELEFT_rep _ _ Hr) as HS. pose proof (lenZ_nonneg ns) as Hn0.
  assert (Hs8 : 8 <= esize key st) by (rewrite esize_pad; pose proof (land_1_range (lenZ key + lenZ st)); lens).
  destruct (leaf_add_core nodemax psize 0 page_new mp ns (lenZ bs) key data pgno flags v fl ofp st ovf Hr (fl_leaf _ _ _ _ H)
    ltac:(lia) Hplan Hwrite Hnode) as [_ Hadd].
  destruct (Hadd ltac:(lia)) as (raw & pad & E & Hraw & Hrep). rewrite insert_at_end in Hrep by lia.
  do 2 eexists. cbn [en_key en_data en_pgno en_flags]. split; [exact E|]. split; [|done].
  constructor; [exact Hrep|exact (fl_leaf _ _ _ _ H)| | |].
  - cbn [page_with mp_raw]. rewrite Hraw. apply (fl_size _ _ _ _ H).
  - rewrite contents_app, (fl_contents _ _ _ _ H). done.
  - intros x. rewrite last_snoc. intros [= <-]. cbn [fst page_with mp_upper]. rewrite wrap_small by lens. done.
Qed.
(** The copies that write a node whose stored data is at the head of [data]. *)
Lemma write_stored raw ofs key data pgno v fl st :
  0 <= fl < 2 ^ 16 -> 0 <= v < 2 ^ 32 -> lenZ key < 2 ^ 16 -> mv_size data = v ->
  blk_read (mv_data data) 0 (if F_ISSET fl F_BIGDATA then 8 else v) = Done st ->
  (olet! raw := write_head raw ofs true (Some (val_of key)) (Some data) pgno fl in
   write_body raw ofs (val_of key) data fl None)
  = olet! raw := write_parts (leaf_parts ofs v fl key st) raw in Done (raw, None).
Proof.
  intros Hf Hv Hk Hd Hst. destruct (split_word v) as [Hlo Hhi]; [done|].
  unfold write_head, SETDSZ, st16, leaf_parts, write_parts. rewrite Hd. cbn [mv_size val_of].
  rewrite (wrap_small 16 (lenZ key)) by lens. rewrite (wrap_small 16 fl Hf), Hlo, Hhi.
  destruct (blk_write raw _ _) as [r1|]; [|done]. cbn [obind].
  destruct (blk_write r1 _ _) as [r2|]; [|done]. cbn [obind].
  destruct (blk_write r2 _ _) as [r3|]; [|done]. cbn [obind].
  destruct (blk_write r3 _ _) as [r4|]; [|done]. cbn [obind]. change (lenZ key) with (mv_size (val_of key)) at 1.
  rewrite read_val. cbn [obind]. unfold NODESIZE. destruct (blk_write r4 _ _) as [r5|]; [|done]. cbn [obind].
  unfold write_body. cbn [mv_size val_of]. rewrite Hd, (reserve_unset _ Hf). unfold NODESIZE.
  destruct (F_ISSET fl F_BIGDATA); rewrite Hst; cbn [obind]; by destruct (blk_write r5 _ _).
Qed.
(** A node of a page that holds no data larger than a node may: what is read of
    it gives it back. *)
Definition node_fits (nd : pnode) : Prop :=
  F_ISSET (pn_flags nd) F_BIGDATA = true \/ 8 + lenZ (pn_key nd) + pn_val nd < nodemax.
Lemma node_plan mp ns (i : nat) p nd :
  page_rep mp ns -> IS_LEAF mp = true -> ns !! i = Some (p, nd) -> node_fits nd ->
  exists data, node_entry mp (Z.of_nat i) = Done {| en_key := val_of (pn_key nd); en_data := Some data; en_pgno := 0; en_flags := pn_flags nd |} /\
    add_plan nodemax psize page_new true (8 + lenZ (pn_key nd)) (Some data) (pn_flags nd) = Done (inr (8 + lenZ (pn_key nd) + lenZ (pn_data nd), pn_flags nd, None)) /\
    (forall raw ofs,
       (olet! raw := write_head raw ofs true (Some (val_of (pn_key nd))) (Some data) 0 (pn_flags nd) in
        write_body raw ofs (val_of (pn_key nd)) data (pn_flags nd) None)
       = olet! raw := write_parts (leaf_parts ofs (pn_val nd) (pn_flags nd) (pn_key nd) (pn_data nd)) raw in Done (raw, None)) /\
    (forall pad, lenZ pad = Z.land (lenZ (pn_key nd) + lenZ (pn_data nd)) 1 ->
       pnode_ok true {| pn_val := pn_val nd; pn_flags := pn_flags nd; pn_key := pn_key nd; pn_data := pn_data nd; pn_pad := pad |}).
Proof.
  intros H Hl Hi Hfit. destruct (pr_ok _ _ H _ _ _ Hi) as [Hok _]. rewrite Hl in Hok.
  destruct (node_fields _ _ H _ _ _ Hi) as (_ & _ & Hfl & _). destruct (node_data _ _ _ _ _ H Hi) as [Hpos Hd].
  unfold node_entry. rewrite (pr_ptr _ _ H _ _ _ Hi). cbn [obind]. rewrite (node_key _ _ H _ _ _ Hi), Hfl. cbn [obind].
  rewrite Hl, Hpos, (node_dsz _ _ H _ _ _ Hi). cbn [obind]. eexists. split; [done|].
  pose proof (po_data _ _ Hok) as Hdl. cbn iota in Hdl. split; [|split].
  - unfold add_plan. rewrite Hdl. cbn [mv_size]. destruct (F_ISSET _ _) eqn:Eb; [done|].
    destruct Hfit as [?|Hfit]; [congruence|]. by rewrite (proj2 (Z.leb_gt nodemax _)) by lia.
  - intros raw ofs. apply write_stored; [apply Hok|apply Hok|apply Hok|done|]. cbn [mv_data]. rewrite <- Hdl.
    pose proof Hd as (Hp0 & _ & Hle & E)%blk_read_done. rewrite blk_read_ok; [|lens..|].
    + rewrite dropZ_0 by lia. by rewrite <- E.
    + rewrite Z.add_0_l. unfold dropZ, lenZ in *. rewrite length_drop. lia.
  - intros pad Hp. destruct Hok as [Hv Hf Hk Hdd _]. by constructor.
Qed.
Lemma adds_node mp ns (i : nat) p nd :
  page_rep mp ns -> IS_LEAF mp = true -> ns !! i = Some (p, nd) -> node_fits nd ->
  exists e, node_entry mp (Z.of_nat i) = Done e /\ adds e (bare nd) None.
Proof.
  intros H Hl Hi Hfit. destruct (node_plan mp ns i p nd H Hl Hi Hfit) as (data & E & H1 & H2 & H3). eexists. split; [exact E|]. by apply adds_core with (ofp := None).
Qed.
Lemma adds_new key data flags :
  lenZ key < 2 ^ 16 -> lenZ data < 2 ^ 32 -> 0 <= flags < 2 ^ 16 -> F_ISSET flags F_BIGDATA = false ->
  adds {| en_key := val_of key; en_data := Some (val_of data); en_pgno := 0; en_flags := flags |}
    (leaf_node nodemax pg flags key data []) (if on_overflow nodemax key data then Some (pg, data) else None).
Proof.
  intros Hk Hd Hf Hb. apply adds_core with (ofp := if on_overflow nodemax key data then Some pg else None).
  - by apply leaf_plan.
  - intros raw ofs. by apply write_leaf.
  - intros pad Hp. by apply leaf_node_ok.
Qed.
End filling.

(** ** Lemmas: the distribution *)
Section loop.
Context (nodemax psize pg : Z) (page_new : Z -> Z + Z).
Context (mp : MDB_page) (ns : list (Z * pnode)) (newindx split_indx : Z) (newpos : bool).
Context (new : entry) (nb : pnode) (no : option (Z * bytes)).
Hypothesis Hmp : page_rep mp ns.
Hypothesis Hleaf : IS_LEAF mp = true.
Hypothesis Hfit : Forall (fun x => node_fits nodemax x.2) ns.
Hypothesis Hadds : adds nodemax psize page_new new nb no.
Hypothesis Hindx : 0 <= newindx <= lenZ ns.
Hypothesis Hsplit : 0 <= split_indx <= lenZ ns.

(** Does the new node stay on the left page; the nodes in order; how many of
    them the left page gets. *)
Definition goes_left : bool := (newindx <? split_indx) || negb newpos && (newindx =? split_indx).
Definition nodes : list pnode := insert_at newindx nb (contents ns).
Definition cut : Z := split_indx + Z.b2z goes_left.
Hypothesis Hroom_l : rooms (takeZ cut nodes) <= psize - 16.
Hypothesis Hroom_r : rooms (dropZ cut nodes) <= psize - 16.
Local Notation n := (lenZ ns).

Lemma cut_range : 0 <= cut <= n + 1.
Proof. unfold cut. destruct goes_left; cbn [Z.b2z]; lia. Qed.
Lemma lenZ_nodes : lenZ nodes = n + 1.
Proof. unfold nodes. by rewrite lenZ_insert_at, lenZ_contents. Qed.
(** After [m] nodes the loop's [i] is [m], or [m - 1] when the new one is among
    them; the switch to the right page is at [cut]. *)
Definition index_at (m : Z) : Z := m - Z.b2z (newindx <? m).
Lemma switch_at m :
  (index_at m =? split_indx) && (negb (index_at m =? newindx) || xorb newpos (newindx <? m)) = (m =? cut).
Proof.
  unfold index_at, cut, goes_left.
  destruct newpos, (Z.ltb_spec newindx m), (Z.ltb_spec newindx split_indx), (Z.eqb_spec newindx split_indx);
    cbn [Z.b2z xorb negb andb orb];
    repeat match goal with |- context [Z.eqb ?a ?b] => destruct (Z.eqb_spec a b) end; cbn [negb andb orb]; lia || done.
Qed.
Lemma node_at m : 0 <= m <= n -> exists b, nodes !! Z.to_nat m = Some b /\
  (m = newindx /\ b = nb \/ m <> newindx /\ exists p nd, ns !! Z.to_nat (index_at m) = Some (p, nd) /\ b = bare nd /\ index_at m < n).
Proof.
  intros Hm. unfold nodes. rewrite lookup_insert_at by (rewrite lenZ_contents; lia). unfold index_at.
  destruct (decide (Z.of_nat (Z.to_nat m) < newindx)) as [Hlt|Hge]; [|destruct (decide (Z.of_nat (Z.to_nat m) = newindx)) as [He|Hne]].
  - destruct (lookup_page ns m ltac:(lia)) as (p & nd & Hp). exists (bare nd). unfold contents. rewrite list_lookup_fmap, Hp.
    split; [done|]. right. split; [lia|]. exists p, nd. rewrite (proj2 (Z.ltb_ge newindx m)) by lia. cbn [Z.b2z].
    rewrite Z.sub_0_r. split; [done|]. split; [done|lia].
  - exists nb. split; [done|]. left. split; [lia|done].
  - destruct (lookup_page ns (m - 1) ltac:(lia)) as (p & nd & Hp). exists (bare nd). unfold contents.
    replace (pred (Z.to_nat m)) with (Z.to_nat (m - 1)) by lia. rewrite list_lookup_fmap, Hp. split; [done|].
    right. split; [lia|]. exists p, nd. rewrite (proj2 (Z.ltb_lt newindx m)) by lia. cbn [Z.b2z]. split; [done|]. split; [done|lia].
Qed.
Lemma takeZ_snoc {A} (l : list A) m x : 0 <= m -> l !! Z.to_nat m = Some x -> takeZ (m + 1) l = takeZ m l ++ [x].
Proof. intros Hm Hx. unfold takeZ. replace (Z.to_nat (m + 1)) with (S (Z.to_nat m)) by lia. by apply take_S_r. Qed.
Lemma rooms_part l1 l2 : rooms l1 <= rooms (l1 ++ l2).
Proof. rewrite rooms_app. pose proof (rooms_nonneg l2). lia. Qed.

(** What the two pages hold. *)
Definition pages (s : spages) (lb rb : list pnode) : Prop :=
  (exists L, filled psize (sp_copy s) L lb) /\ (exists R, filled psize (sp_rp s) R rb) /\
  mp_flags (sp_copy s) = mp_flags mp.
Lemma add_entry_ok s lb rb e b o :
  pages s lb rb -> adds nodemax psize page_new e b o ->
  rooms (if sp_right s then rb else lb) + room b <= psize - 16 ->
  exists s', add_entry psize nodemax page_new (lenZ (if sp_right s then rb else lb)) true e s = Done (MDB_SUCCESS, s') /\
    pages s' (if sp_right s then lb else lb ++ [b]) (if sp_right s then rb ++ [b] else rb) /\
    sp_right s' = sp_right s /\ sp_ki s' = sp_ki s /\ sp_ovf s' = match o with Some _ => o | None => sp_ovf s end.
Proof.
  intros ((L & HL) & (R & HR) & Hf) Ha Hroom. unfold add_entry. cbn [negb andb].
  destruct (sp_right s).
  - destruct (Ha _ _ _ HR Hroom) as (p & ns' & -> & Hp & _). cbn [obind]. eexists. split; [done|]. cbn. split; [|done].
    split; [by exists L|]. split; [by exists ns'|done].
  - destruct (Ha _ _ _ HL Hroom) as (p & ns' & -> & Hp & Hf' & _). cbn [obind]. eexists. split; [done|]. cbn. split; [|done].
    split; [by exists ns'|]. split; [by exists R|]. by etransitivity.
Qed.
(** The state after [m] nodes. *)
Record turn (m : Z) (s : spages) : Prop := {
  tn_pages : pages s (takeZ (Z.min m cut) nodes) (dropZ cut (takeZ m nodes));
  tn_right : sp_right s = (cut <? m);
  tn_ki : newindx < m -> sp_ki s = if newindx <? cut then newindx else newindx - cut;
  tn_ovf : sp_ovf s = if newindx <? m then no else None
}.
Definition place (m : Z) : Z := if m <? cut then m else m - cut.
Lemma turn_lists m b :
  0 <= m <= n -> nodes !! Z.to_nat m = Some b ->
  let lb := takeZ (Z.min m cut) nodes in
  let rb := dropZ cut (takeZ m nodes) in
  takeZ (Z.min (m + 1) cut) nodes = (if cut <=? m then lb else lb ++ [b]) /\
  dropZ cut (takeZ (m + 1) nodes) = (if cut <=? m then rb ++ [b] else rb) /\
  lenZ (if cut <=? m then rb else lb) = place m /\
  rooms (if cut <=? m then rb else lb) + room b <= psize - 16.
Proof.
  intros Hm Hb lb rb. pose proof cut_range as Hc. pose proof lenZ_nodes as Hn. unfold lb, rb, place.
  assert (Hone : rooms [b] = room b) by (cbn [rooms foldr]; lia).
  assert (Hlen : forall k, 0 <= k <= n + 1 -> lenZ (takeZ k nodes) = k).
  { intros k Hk. unfold takeZ, lenZ in *. rewrite length_take. lia. }
  rewrite (takeZ_snoc nodes m b) by (lia || done). destruct (Z.leb_spec cut m) as [Hge|Hlt].
  - rewrite (proj2 (Z.ltb_ge m cut)), !Z.min_r by lia. split; [done|].
    assert (E : dropZ cut (takeZ m nodes ++ [b]) = dropZ cut (takeZ m nodes) ++ [b]).
    { unfold dropZ. apply drop_app_le. specialize (Hlen m ltac:(lia)). unfold lenZ in Hlen. lia. }
    split; [done|]. split; [unfold dropZ, lenZ; rewrite length_drop; specialize (Hlen m ltac:(lia)); unfold lenZ in Hlen; lia|].
    rewrite <- Hone, <- rooms_app, <- E, <- (takeZ_snoc nodes m b) by (lia || done).
    etransitivity; [apply (rooms_part _ (dropZ (m + 1) nodes))|]. etransitivity; [|exact Hroom_r]. apply Z.eq_le_incl. f_equal.
    rewrite <- (takeZ_dropZ (m + 1) nodes) at 3. unfold dropZ. rewrite drop_app_le; [done|].
    specialize (Hlen (m + 1) ltac:(lia)). unfold lenZ in Hlen. lia.
  - rewrite (proj2 (Z.ltb_lt m cut)), !Z.min_l by lia. rewrite (takeZ_snoc nodes m b) by (lia || done). split; [done|].
    assert (Hd : forall k, 0 <= k <= cut -> dropZ cut (takeZ k nodes) = []).
    { intros k Hk. unfold dropZ. apply drop_ge. specialize (Hlen k ltac:(lia)). unfold lenZ in Hlen. lia. }
    split; [by rewrite <- (takeZ_snoc nodes m b), !Hd by (lia || done)|]. split; [apply Hlen; lia|].
    rewrite <- Hone, <- rooms_app, <- (takeZ_snoc nodes m b) by (lia || done).
    etransitivity; [apply (rooms_part _ (dropZ (m + 1) (takeZ cut nodes)))|]. etransitivity; [|exact Hroom_l]. apply Z.eq_le_incl. f_equal.
    rewrite <- (takeZ_dropZ (m + 1) (takeZ cut nodes)) at 2. f_equal. unfold takeZ. rewrite take_take. f_equal. lia.
Qed.
Lemma turn_step m s e b :
  0 <= m <= n -> nodes !! Z.to_nat m = Some b -> turn m s ->
  adds nodemax psize page_new e b (if m =? newindx then no else None) ->
  let s1 := if m =? cut then to_right s else s in
  let s2 := if m =? newindx then set_ki (place m) s1 else s1 in
  exists s', add_entry psize nodemax page_new (place m) true e s2 = Done (MDB_SUCCESS, s') /\ turn (m + 1) s'.
Proof.
  intros Hm Hb [Hp Hr Hk Ho] Ha s1 s2. destruct (turn_lists m b Hm Hb) as (E1 & E2 & Hlen & Hroom).
  assert (Hr1 : sp_right s1 = (cut <=? m)).
  { unfold s1. destruct (Z.eqb_spec m cut) as [->|Hne]; [by rewrite Z.leb_refl|]. rewrite Hr.
    destruct (Z.ltb_spec cut m), (Z.leb_spec cut m); lia || done. }
  assert (H1 : pages s1 (takeZ (Z.min m cut) nodes) (dropZ cut (takeZ m nodes)) /\ sp_ki s1 = sp_ki s /\ sp_ovf s1 = sp_ovf s)
    by (unfold s1; destruct (m =? cut); (split; [exact Hp|done])).
  assert (H2 : pages s2 (takeZ (Z.min m cut) nodes) (dropZ cut (takeZ m nodes)) /\ sp_right s2 = (cut <=? m) /\ sp_ovf s2 = sp_ovf s /\
    sp_ki s2 = if m =? newindx then place m else sp_ki s) by (unfold s2; destruct H1 as (Hp1 & Hk1 & Ho1); destruct (m =? newindx); (split; [exact Hp1|done])).
  destruct H2 as (Hp2 & Hr2 & Ho2 & Hk2).
  destruct (add_entry_ok s2 _ _ e b _ Hp2 Ha) as (s' & E & Hp' & Hr' & Hk' & Ho'); rewrite ?Hr2 in *; [done|].
  rewrite Hlen in E. exists s'. split; [done|]. constructor.
  - rewrite E1, E2. exact Hp'.
  - rewrite Hr'. destruct (Z.leb_spec cut m), (Z.ltb_spec cut (m + 1)); lia || done.
  - intros Hlt. rewrite Hk', Hk2. destruct (Z.eqb_spec m newindx) as [->|Hne]; [done|]. apply Hk. lia.
  - rewrite Ho', Ho2, Ho. destruct (Z.eqb_spec m newindx) as [->|Hne].
    + rewrite Z.ltb_irrefl, (proj2 (Z.ltb_lt newindx (newindx + 1))) by lia. by destruct no.
    + by destruct (Z.ltb_spec newindx m), (Z.ltb_spec newindx (m + 1)); try lia.
Qed.
Hypothesis Hcut : 0 < cut <= n.
Lemma split_loop_ok k m j s :
  Z.of_nat k = n + 1 - m -> 0 <= m -> turn m s -> (m <> cut -> j = place m) ->
  exists s', split_loop psize nodemax page_new k mp newindx new split_indx newpos (index_at m) j (newindx <? m) s
    = Done (MDB_SUCCESS, s') /\ turn (n + 1) s'.
Proof.
  revert m j s. induction k as [|k IH]; intros m j s Hk Hm Ht Hj; cbn [split_loop];
    rewrite (NUMKEYS_rep _ _ Hmp), switch_at, Hleaf; unfold index_at at 1.
  { replace m with (n + 1) in * by lia. unfold index_at. rewrite (proj2 (Z.ltb_lt newindx (n + 1))) by lia. cbn [Z.b2z].
    rewrite (proj2 (Z.ltb_ge n _)), (proj2 (Z.eqb_neq (n + 1) cut)), andb_false_r, (proj2 (Z.eqb_eq _ n)) by lia. by exists s. }
  rewrite (proj2 (Z.ltb_ge n _)) by (destruct (newindx <? m) eqn:E; cbn [Z.b2z]; lia).
  assert (Ej : (if m =? cut then 0 else j) = place m).
  { destruct (Z.eqb_spec m cut) as [->|Hne]; [|by apply Hj]. unfold place. rewrite Z.ltb_irrefl. lia. }
  rewrite Ej. destruct (node_at m ltac:(lia)) as (b & Hb & Hcase).
  assert (Hnext : m + 1 <> cut -> place m + 1 = place (m + 1)).
  { intros Hne. unfold place. destruct (Z.ltb_spec m cut), (Z.ltb_spec (m + 1) cut); lia. }
  destruct Hcase as [[Em ->]|(Hne & p & nd & Hp & -> & Hlt)].
  - destruct (turn_step m s new nb) as (s' & E & Ht'); [lia|done|done|by rewrite (proj2 (Z.eqb_eq m newindx))|].
    rewrite (proj2 (Z.eqb_eq m newindx)) in E by done.
    assert (Hi : index_at m = m /\ (newindx <? m) = false) by (unfold index_at; rewrite (proj2 (Z.ltb_ge newindx m)) by lia; cbn [Z.b2z]; lia).
    destruct Hi as [-> ->]. rewrite (proj2 (Z.eqb_eq m newindx)) by done. cbn [negb andb]. rewrite E. cbn [obind Z.eqb negb].
    assert (Hi : index_at (m + 1) = m /\ (newindx <? m + 1) = true) by (unfold index_at; rewrite (proj2 (Z.ltb_lt newindx (m + 1))) by lia; cbn [Z.b2z]; lia).
    specialize (IH (m + 1) (place m + 1) s'). destruct Hi as [Hi1 Hi2]. rewrite Hi1, Hi2 in IH.
    apply IH; lia || done.
  - destruct (adds_node nodemax psize page_new mp ns (Z.to_nat (index_at m)) p nd Hmp Hleaf Hp) as (e & Ee & He).
    { rewrite Forall_lookup in Hfit. exact (Hfit _ _ Hp). }
    assert (Hi0 : 0 <= index_at m) by (unfold index_at; destruct (Z.ltb_spec newindx m); cbn [Z.b2z]; lia).
    rewrite Z2Nat.id in Ee by done.
    destruct (turn_step m s e (bare nd)) as (s' & E & Ht'); [lia|done|done|by rewrite (proj2 (Z.eqb_neq m newindx))|].
    rewrite (proj2 (Z.eqb_neq m newindx)) in E by done.
    replace ((index_at m =? newindx) && negb (newindx <? m)) with false
      by (unfold index_at; destruct (Z.ltb_spec newindx m); cbn [Z.b2z negb]; [by rewrite andb_false_r|];
          rewrite Z.sub_0_r, (proj2 (Z.eqb_neq m newindx)) by done; done).
    rewrite (proj2 (Z.eqb_neq (index_at m) n)), Ee by lia. cbn [obind]. rewrite E. cbn [obind Z.eqb negb].
    assert (Hb' : (newindx <? m) = (newindx <? m + 1)) by (destruct (Z.ltb_spec newindx m), (Z.ltb_spec newindx (m + 1)); lia || done).
    replace (index_at m + 1) with (index_at (m + 1)) by (unfold index_at; rewrite <- Hb'; lia). rewrite Hb'.
    apply IH; lia || done.
Qed.
End loop.

(** ** Lemmas: the copy back *)
Lemma copy_ptrs_ok k i src dst :
  0 <= i -> ptr_pos (i + Z.of_nat k) <= lenZ dst ->
  (forall q, i <= q < i + Z.of_nat k -> exists p, mp_ptr src q = Done p /\ 0 <= p < 2 ^ 16) ->
  exists dst', copy_ptrs k i src dst = Done dst' /\ lenZ dst' = lenZ dst /\
    (forall q, i <= q < i + Z.of_nat k -> mp_ptr dst' q = mp_ptr src q) /\
    (forall q, 0 <= q < i -> mp_ptr dst' q = mp_ptr dst q).
Proof.
  revert i dst. induction k as [|k IH]; intros i dst Hi Hl Hp; cbn [copy_ptrs].
  { exists dst. split; [done|]. split; [done|]. split; [lia|done]. }
  unfold ptr_pos, PAGEHDRSZ in Hl. destruct (Hp i) as (p & Ep & Hr); [lia|]. rewrite Ep. cbn [obind].
  assert (Hw : exists d1, set_ptr dst i p = Done d1)
    by (unfold set_ptr, st16, ptr_pos, PAGEHDRSZ; rewrite blk_write_ok by lens; by eexists).
  destruct Hw as [d1 Hw]. rewrite Hw. cbn [obind]. pose proof (lenZ_blk_write _ _ _ _ Hw) as Hl1.
  destruct (IH (i + 1) d1) as (d2 & E & Hl2 & Hin & Hlow); [lia|unfold ptr_pos, PAGEHDRSZ; lia|intros q Hq; apply Hp; lia|].
  exists d2. split; [done|]. split; [lia|]. unfold set_ptr, ptr_pos, PAGEHDRSZ in Hw. split.
  - intros q Hq. destruct (decide (q = i)) as [->|Hne]; [|apply Hin; lia]. rewrite Hlow, Ep by lia.
    by eapply ld16_st16.
  - intros q Hq. rewrite Hlow by lia. unfold mp_ptr, ptr_pos, PAGEHDRSZ. eapply ld16_beside; [exact Hw|]. lia.
Qed.
Lemma copy_back_ok psize copy mp ns bs :
  filled psize copy ns bs -> bs <> [] -> lenZ (mp_raw mp) = psize -> mp_flags copy = mp_flags mp ->
  exists mp', copy_back psize copy mp = Done mp' /\ page_rep mp' ns /\ mp_flags mp' = mp_flags mp /\ lenZ (mp_raw mp') = psize.
Proof.
  intros H Hne Hsz Hfl. pose proof (fl_rep _ _ _ _ H) as Hr. pose proof (pr_lower _ _ Hr) as Hlo. pose proof (pr_room _ _ Hr) as Hroom.
  pose proof (rep_upper _ _ Hr) as Hu. pose proof (pr_size _ _ Hr) as Hps. pose proof (fl_size _ _ _ _ H) as Hs.
  unfold copy_back. rewrite (NUMKEYS_rep _ _ Hr). unfold lenZ at 1. rewrite Nat2Z.id.
  assert (Hptr : forall q, 0 <= q < lenZ ns -> exists p nd, ns !! Z.to_nat q = Some (p, nd) /\ mp_ptr (mp_raw copy) q = Done p /\ 0 <= p < 2 ^ 16).
  { intros q Hq. destruct (lookup_page ns q Hq) as (p & nd & Hp). exists p, nd. split; [done|].
    pose proof (pr_ptr _ _ Hr _ _ _ Hp) as E. rewrite Z2Nat.id in E by lia. split; [done|].
    pose proof (rep_ptr_range _ _ _ _ _ Hr Hp). lens. }
  destruct (copy_ptrs_ok (length ns) 0 (mp_raw copy) (mp_raw mp)) as (raw & -> & Hl & Hin & _); fold (lenZ ns);
    [lia|unfold ptr_pos, PAGEHDRSZ; lia|intros q Hq; destruct (Hptr q ltac:(lia)) as (p & _ & _ & ?); by exists p|].
  fold (lenZ ns) in Hin. cbn [obind]. assert (Hn : 0 < lenZ ns).
  { pose proof (filled_len _ _ _ _ H) as E. destruct bs; [done|]. rewrite E. lens. }
  destruct (Hptr (lenZ ns - 1)) as (p & nd & Hp & Ep & _); [lia|]. rewrite Hin, Ep by lia. cbn [obind].
  assert (p = mp_upper copy) as ->.
  { apply (fl_last _ _ _ _ H (p, nd)). rewrite last_lookup. unfold lenZ in Hp. by replace (pred (length ns)) with (Z.to_nat (Z.of_nat (length ns) - 1)) by lia. }
  rewrite blk_read_ok by lia. cbn [obind]. set (d := takeZ _ _).
  assert (Hrd : blk_read (mp_raw copy) (mp_upper copy) (psize - mp_upper copy) = Done d) by (apply blk_read_ok; lia).
  pose proof (lenZ_blk_read _ _ _ _ Hrd) as Hdl. pose proof (lenZ_nonneg ns) as Hn0.
  assert (Hw : exists raw', blk_write raw (mp_upper copy) d = Done raw') by (rewrite blk_write_ok by lia; by eexists).
  destruct Hw as [raw' Hw]. rewrite Hw. cbn [obind]. pose proof (lenZ_blk_write _ _ _ _ Hw) as Hl'.
  eexists. split; [done|]. split; [|split; [done|cbn [mp_raw]; lia]].
  constructor; cbn [mp_raw mp_lower mp_upper]; [|lia|done|done| | | |exact (pr_apart _ _ Hr)|].
  - unfold IS_LEAF2. cbn [mp_flags]. rewrite <- Hfl. exact (pr_kind _ _ Hr).
  - intros i q ne Hi. rewrite <- (pr_ptr _ _ Hr _ _ _ Hi). pose proof (lookup_lt_Some _ _ _ Hi) as Hil.
    rewrite <- (Hin (Z.of_nat i)) by (unfold lenZ; lia). eapply ld16_beside; [exact Hw|]. unfold ptr_pos, PAGEHDRSZ, lenZ in *. lia.
  - intros i q ne Hi. destruct (pr_ok _ _ Hr _ _ _ Hi) as [Hok Hq]. split; [|done]. unfold IS_LEAF in *. cbn [mp_flags]. by rewrite <- Hfl.
  - intros i q ne Hi. rewrite <- (pr_node _ _ Hr _ _ _ Hi). pose proof (rep_ptr_range _ _ _ _ _ Hr Hi) as (Hq & Hqe & _).
    rewrite (read_inside _ _ _ _ _ _ Hw) by (pose proof (lenZ_nonneg (image ne)); unfold isize in *; lia).
    replace q with (mp_upper copy + (q - mp_upper copy)) at 2 by lia. symmetry.
    apply (read_part _ _ _ _ _ _ Hrd); pose proof (lenZ_nonneg (image ne)); unfold isize in *; lia.
  - rewrite (pr_total _ _ Hr). lia.
Qed.

(** ** Lemmas: the place *)
Section point.
Context (mp : MDB_page) (ns : list (Z * pnode)) (nsize pmax : Z).
Hypothesis Hmp : page_rep mp ns.
Hypothesis Hleaf : IS_LEAF mp = true.
Hypothesis Hpmax : 0 <= pmax < 2 ^ 16.
Hypothesis Hns : 0 <= nsize <= pmax.
Hypothesis Heven : nsize mod 2 = 0.
Local Notation bs := (contents ns).

Lemma node_room_ok i p nd ps :
  0 <= i -> ns !! Z.to_nat i = Some (p, nd) -> 0 <= ps < 2 ^ 16 -> ps mod 2 = 0 -> node_room mp i ps = Done (ps + room (bare nd)).
Proof.
  intros Hi Hp Hps Hev. destruct (node_fields _ _ Hmp _ _ _ Hp) as (_ & _ & Hfl & Hks).
  destruct (pr_ok _ _ Hmp _ _ _ Hp) as [Hok _]. rewrite Hleaf in Hok. pose proof (po_data _ _ Hok) as Hd. cbn iota in Hd.
  pose proof (rep_ptr_range _ _ _ _ _ Hmp Hp) as (_ & Hr & _). pose proof (pr_size _ _ Hmp) as Hsz.
  pose proof (rep_ptr_range _ _ _ _ _ Hmp Hp) as (Hp0 & _ & _). pose proof (lenZ_nonneg ns).
  rewrite isize_eq in Hr. pose proof (lenZ_nonneg (pn_pad nd)). pose proof (lenZ_nonneg (pn_key nd)). pose proof (lenZ_nonneg (pn_data nd)).
  unfold node_room. pose proof (pr_ptr _ _ Hmp _ _ _ Hp) as E. rewrite Z2Nat.id in E by lia. rewrite E. cbn [obind].
  rewrite Hks, Hfl. cbn [obind]. unfold NODESIZE. rewrite (wrap_small 32 (ps + _)) by lia.
  assert (Hx : (if F_ISSET (pn_flags nd) F_BIGDATA then Done (u32 (ps + (8 + lenZ (pn_key nd) + 2) + 8))
     else olet! ds := NODEDSZ (mp_raw mp) p in Done (u32 (ps + (8 + lenZ (pn_key nd) + 2) + ds)))
     = Done (ps + (8 + lenZ (pn_key nd) + 2) + lenZ (pn_data nd))).
  { rewrite (node_dsz _ _ Hmp _ _ _ Hp). cbn [obind]. destruct (F_ISSET _ _); rewrite Hd, wrap_small by lia; done. }
  rewrite Hx. cbn [obind]. f_equal. unfold room, esize, even_up. cbn [bare pn_key pn_data]. rewrite !land_1.
  rewrite wrap_small by dlia. dlia.
Qed.
Lemma rooms_take_next i p nd : 0 <= i -> ns !! Z.to_nat i = Some (p, nd) -> rooms (takeZ (i + 1) bs) = rooms (takeZ i bs) + room (bare nd).
Proof.
  intros Hi Hp. rewrite (takeZ_snoc bs i (bare nd)); [rewrite rooms_app; cbn [rooms foldr]; lia|done|].
  unfold contents. by rewrite list_lookup_fmap, Hp.
Qed.
Lemma rooms_even l : rooms l mod 2 = 0.
Proof. induction l as [|b l IH]; [done|]. cbn [rooms foldr]. pose proof (room_even b). unfold rooms in IH. dlia. Qed.

(** Up to the first node that does not fit on the left page with the new one. *)
Lemma scan_left_ok k i :
  0 <= i -> i + Z.of_nat k <= lenZ ns -> nsize + rooms (takeZ i bs) <= pmax ->
  exists r, scan_left k mp i (nsize + rooms (takeZ i bs)) pmax = Done r /\
    match r with
    | None => nsize + rooms (takeZ (i + Z.of_nat k) bs) <= pmax
    | Some x => i <= x < i + Z.of_nat k /\ nsize + rooms (takeZ x bs) <= pmax /\ pmax < nsize + rooms (takeZ (x + 1) bs)
    end.
Proof.
  revert i. induction k as [|k IH]; intros i Hi Hk Hfit; cbn [scan_left]; [exists None; by rewrite Z.add_0_r|].
  destruct (lookup_page ns i ltac:(lia)) as (p & nd & Hp).
  pose proof (rooms_nonneg (takeZ i bs)). pose proof (rooms_even (takeZ i bs)).
  rewrite (node_room_ok i p nd) by (lia || done || dlia). cbn [obind].
  rewrite <- Z.add_assoc, <- (rooms_take_next i p nd) by done.
  destruct (Z.ltb_spec pmax (nsize + rooms (takeZ (i + 1) bs))) as [Hgt|Hle].
  - exists (Some i). split; [done|]. split; [lia|]. done.
  - destruct (IH (i + 1) ltac:(lia) ltac:(lia) Hle) as (r & E & Hr). exists r. split; [done|].
    destruct r as [x|]; [split; [lia|apply Hr]|]. by replace (i + Z.of_nat (S k)) with (i + 1 + Z.of_nat k) by lia.
Qed.
(** The same from the right end; the page is full, so it ends at 0 at the latest. *)
Lemma scan_right_ok k i split_indx :
  0 <= split_indx <= i + 1 -> i < lenZ ns -> i < Z.of_nat k -> 
  nsize + rooms (dropZ (i + 1) bs) <= pmax -> pmax < nsize + rooms bs ->
  exists r, scan_right k mp (u32 i) split_indx (nsize + rooms (dropZ (i + 1) bs)) pmax = Done r /\
    match r with
    | None => nsize + rooms (dropZ split_indx bs) <= pmax
    | Some x => split_indx <= x <= i /\ nsize + rooms (dropZ (x + 1) bs) <= pmax /\ pmax < nsize + rooms (dropZ x bs)
    end.
Proof.
  revert i. induction k as [|k IH]; intros i Hi Hn Hk Hfit Hfull.
  { assert (i = -1) as -> by lia. replace (-1 + 1) with 0 in Hfit by lia. rewrite dropZ_0 in Hfit by lia. lia. }
  assert (0 <= i) by (destruct (decide (i = -1)) as [->|]; [|lia]; replace (-1 + 1) with 0 in Hfit by lia; rewrite dropZ_0 in Hfit by lia; lia).
  pose proof (pr_lower _ _ Hmp). pose proof (pr_room _ _ Hmp). pose proof (rep_upper _ _ Hmp). pose proof (pr_size _ _ Hmp).
  rewrite wrap_small by lia. cbn [scan_right]. destruct (Z.ltb_spec i split_indx) as [Hlt|Hge].
  { exists None. split; [done|]. by replace split_indx with (i + 1) by lia. }
  destruct (lookup_page ns i ltac:(lia)) as (p & nd & Hp).
  pose proof (rooms_nonneg (dropZ (i + 1) bs)). pose proof (rooms_even (dropZ (i + 1) bs)).
  rewrite (node_room_ok i p nd) by (lia || done || dlia). cbn [obind].
  assert (Hd : nsize + rooms (dropZ (i + 1) bs) + room (bare nd) = nsize + rooms (dropZ i bs)).
  { pose proof (rooms_take_drop i bs). pose proof (rooms_take_drop (i + 1) bs). pose proof (rooms_take_next i p nd ltac:(lia) Hp). lia. }
  rewrite Hd. destruct (Z.ltb_spec pmax (nsize + rooms (dropZ i bs))) as [Hgt|Hle].
  - exists (Some i). split; [done|]. split; [lia|]. done.
  - specialize (IH (i - 1)). replace (i - 1 + 1) with i in IH by lia.
    destruct (IH ltac:(lia) ltac:(lia) ltac:(lia) Hle Hfull) as (r & E & Hr). exists r. split; [done|].
    destruct r as [x|]; [split; [lia|apply Hr]|done].
Qed.
End point.

(** What the two pages get. *)
Lemma cut_rooms ns newindx split_indx newpos nb :
  0 <= newindx <= lenZ ns -> 0 <= split_indx <= lenZ ns ->
  let left := goes_left newindx split_indx newpos in
  let k := cut newindx split_indx newpos in
  rooms (takeZ k (nodes ns newindx nb)) = (if left then room nb else 0) + rooms (takeZ split_indx (contents ns)) /\
  rooms (dropZ k (nodes ns newindx nb)) = (if left then 0 else room nb) + rooms (dropZ split_indx (contents ns)).
Proof.
  intros Hi Hs left k. pose proof (rooms_take_drop k (nodes ns newindx nb)) as Hk. pose proof (rooms_take_drop split_indx (contents ns)) as Hc.
  assert (Ht : rooms (nodes ns newindx nb) = room nb + rooms (contents ns)) by apply rooms_insert. rewrite Ht in Hk.
  enough (rooms (takeZ k (nodes ns newindx nb)) = (if left then room nb else 0) + rooms (takeZ split_indx (contents ns)))
    by (destruct left; lia).
  pose proof (lenZ_contents ns) as Hl. unfold nodes, insert_at. set (bs := contents ns) in *.
  assert (Hlen : length (takeZ newindx bs) = Z.to_nat newindx) by (unfold takeZ, lenZ in *; rewrite length_take; lia).
  unfold left, k, cut, goes_left. destruct (_ || _) eqn:E; cbn [Z.b2z].
  - assert (newindx <= split_indx) by (apply orb_true_iff in E as [E%Z.ltb_lt|[_ E%Z.eqb_eq]%andb_true_iff]; lia).
    rewrite <- (takeZ_dropZ newindx (takeZ split_indx bs)).
    replace (takeZ newindx (takeZ split_indx bs)) with (takeZ newindx bs) by (unfold takeZ; rewrite take_take; f_equal; lia).
    assert (Et : takeZ (split_indx + 1) (takeZ newindx bs ++ nb :: dropZ newindx bs) = takeZ newindx bs ++ nb :: dropZ newindx (takeZ split_indx bs)).
    { unfold takeZ at 1. rewrite take_app_ge by lia. f_equal. rewrite Hlen.
      replace (Z.to_nat (split_indx + 1) - Z.to_nat newindx)%nat with (S (Z.to_nat split_indx - Z.to_nat newindx)) by lia.
      cbn [take]. f_equal. unfold takeZ, dropZ. by rewrite skipn_firstn_comm. }
    rewrite Et, !rooms_app. cbn [rooms foldr]. unfold rooms. lia.
  - assert (split_indx <= newindx) by (apply orb_false_iff in E as [E%Z.ltb_ge _]; lia). rewrite Z.add_0_r, Z.add_0_l. f_equal.
    unfold takeZ at 1. rewrite take_app_le by lia. unfold takeZ. rewrite take_take. f_equal. lia.
Qed.

(** Both pages have room for what they get, and neither gets nothing. *)
Record good_point (psize : Z) (ns : list (Z * pnode)) (newindx : Z) (nb : pnode) (split_indx : Z) (newpos : bool) : Prop := {
  gp_range : 0 <= split_indx <= lenZ ns;
  gp_cut : 0 < cut newindx split_indx newpos <= lenZ ns;
  gp_left : rooms (takeZ (cut newindx split_indx newpos) (nodes ns newindx nb)) <= psize - 16;
  gp_right : rooms (dropZ (cut newindx split_indx newpos) (nodes ns newindx nb)) <= psize - 16
}.
(** The page without the new node has room anyway. *)
Lemma good_point_intro psize ns newindx nb split_indx newpos :
  0 <= newindx <= lenZ ns -> rooms (contents ns) <= psize - 16 ->
  0 <= split_indx <= lenZ ns -> 0 < cut newindx split_indx newpos <= lenZ ns ->
  (if goes_left newindx split_indx newpos then room nb + rooms (takeZ split_indx (contents ns))
   else room nb + rooms (dropZ split_indx (contents ns))) <= psize - 16 ->
  good_point psize ns newindx nb split_indx newpos.
Proof.
  intros Hi Hr Hsp Hcut Hfit. destruct (cut_rooms ns newindx split_indx newpos nb Hi Hsp) as [El Er].
  pose proof (rooms_take_drop split_indx (contents ns)). pose proof (rooms_nonneg (takeZ split_indx (contents ns))).
  pose proof (rooms_nonneg (dropZ split_indx (contents ns))).
  constructor; [done|done|rewrite El|rewrite Er]; destruct (goes_left _ _ _); lia.
Qed.
(** The cases of the two scans. *)
Ltac point_cases :=
  unfold cut, goes_left; cbn [negb andb orb];
  repeat match goal with
    | |- context [Z.ltb ?a ?b] => destruct (Z.ltb_spec a b)
    | |- context [Z.eqb ?a ?b] => destruct (Z.eqb_spec a b)
    end; cbn [negb andb orb Z.b2z].
Lemma rooms_mono i j bs : i <= j -> rooms (takeZ i bs) <= rooms (takeZ j bs).
Proof.
  intros Hij. rewrite <- (takeZ_dropZ i (takeZ j bs)). replace (takeZ i (takeZ j bs)) with (takeZ i bs); [apply rooms_part|].
  unfold takeZ. rewrite take_take. f_equal. lia.
Qed.
Lemma left_point psize ns newindx nb r :
  0 <= newindx <= lenZ ns / 2 -> 1 <= lenZ ns -> rooms (contents ns) <= psize - 16 -> 2 * room nb <= psize - 16 ->
  match r with
  | None => room nb + rooms (takeZ (lenZ ns / 2) (contents ns)) <= psize - 16
  | Some x => 0 <= x < lenZ ns / 2 /\ room nb + rooms (takeZ x (contents ns)) <= psize - 16 /\
      psize - 16 < room nb + rooms (takeZ (x + 1) (contents ns))
  end ->
  let '(sp, np) := match r with
    | None => (lenZ ns / 2, false)
    | Some i => if i <=? newindx then (newindx, i <? newindx) else (i, false)
    end in good_point psize ns newindx nb sp np.
Proof.
  intros Hi Hn Hold Hhalf Hr. destruct r as [x|].
  - destruct Hr as (Hx & Hfit & Hgt). pose proof (rooms_take_drop newindx (contents ns)) as Ht.
    destruct (Z.leb_spec x newindx) as [Hle|Hlt]; [destruct (Z.ltb_spec x newindx)|];
      (apply good_point_intro; [dlia|done|dlia|point_cases; dlia|]); point_cases; try lia.
    + pose proof (rooms_mono (x + 1) newindx (contents ns) ltac:(lia)). lia.
    + by replace newindx with x by lia.
  - apply good_point_intro; [dlia|done|dlia|point_cases; dlia|]. point_cases; lia.
Qed.
Lemma right_point psize ns newindx nb r :
  lenZ ns / 2 < newindx <= lenZ ns -> 1 <= lenZ ns -> rooms (contents ns) <= psize - 16 -> 2 * room nb <= psize - 16 ->
  psize - 16 < room nb + rooms (contents ns) ->
  match r with
  | None => room nb + rooms (dropZ (lenZ ns / 2) (contents ns)) <= psize - 16
  | Some x => lenZ ns / 2 <= x <= lenZ ns - 1 /\ room nb + rooms (dropZ (x + 1) (contents ns)) <= psize - 16 /\
      psize - 16 < room nb + rooms (dropZ x (contents ns))
  end ->
  let '(sp, np) := match r with
    | None => (lenZ ns / 2, negb (newindx <? lenZ ns / 2))
    | Some i => if newindx <=? i then (newindx, false) else (i + 1, negb (newindx <? lenZ ns / 2))
    end in good_point psize ns newindx nb sp np.
Proof.
  intros Hi Hn Hold Hhalf Hfull Hr. rewrite (proj2 (Z.ltb_ge newindx _)) by lia. cbn [negb].
  destruct r as [x|].
  - destruct Hr as (Hx & Hfit & Hgt). pose proof (rooms_take_drop x (contents ns)) as Ht.
    destruct (Z.leb_spec newindx x) as [Hle|Hlt];
      (apply good_point_intro; [dlia|done|dlia|point_cases; dlia|]); point_cases; try lia.
    pose proof (rooms_mono newindx x (contents ns) ltac:(lia)). lia.
  - assert (lenZ ns <> 1) by (intros E; rewrite E in Hr; change (1 / 2) with 0 in Hr; rewrite dropZ_0 in Hr by lia; lia).
    apply good_point_intro; [dlia|done|dlia|point_cases; dlia|]. point_cases; lia.
Qed.
(** Where the code looks at the sizes, the place is a good one for a node that
    takes at most half a page. *)
Lemma split_point_ok nodemax psize pg flags mp ns newindx key data :
  page_rep mp ns -> IS_LEAF mp = true -> lenZ (mp_raw mp) = psize -> 0 <= newindx <= lenZ ns ->
  let nb := leaf_node nodemax pg flags key data [] in
  2 * room nb <= psize - 16 -> psize - 16 < room nb + rooms (contents ns) ->
  lenZ ns < 20 \/ (psize - 16) / 16 < room nb ->
  exists split_indx newpos,
    split_point psize nodemax mp newindx (val_of key) (val_of data) = Done (split_indx, newpos) /\
    good_point psize ns newindx nb split_indx newpos.
Proof.
  intros H Hl Hsz Hi nb Hhalf Hfull Hchk. pose proof (room_pos nb) as Hnb. pose proof (room_even nb) as Hev.
  assert (Hsize : mdb_leaf_size nodemax (val_of key) (val_of data) = room nb) by (rewrite (leaf_size_eq nodemax pg); done).
  pose proof (pr_size _ _ H) as Hps. pose proof (pr_lower _ _ H) as Hlo. pose proof (pr_room _ _ H) as Hroom.
  pose proof (rep_upper _ _ H) as Hu.
  assert (Hold : rooms (contents ns) <= psize - 16) by (rewrite (rooms_rep _ _ H); lia).
  assert (Hn : 1 <= lenZ ns). { destruct ns; [cbn [contents map rooms foldr] in Hfull; lia|lens]. }
  unfold split_point. rewrite (NUMKEYS_rep _ _ H), Hl, Hsize. unfold PAGEHDRSZ. rewrite (wrap_small 32 (psize - 16)) by lia.
  replace ((lenZ ns <? 20) || _) with true
    by (symmetry; apply orb_true_iff; destruct Hchk; [left|right]; by apply Z.ltb_lt).
  destruct (Z.leb_spec newindx (lenZ ns / 2)) as [Hle|Hgt].
  - destruct (scan_left_ok mp ns (room nb) (psize - 16) H Hl ltac:(lia) ltac:(lia) Hev (Z.to_nat (lenZ ns / 2)) 0) as (r & E & Hr);
      [lia|dlia|rewrite takeZ_0 by lia; cbn [rooms foldr]; lia|].
    rewrite takeZ_0 in E by lia. cbn [rooms foldr] in E. rewrite Z.add_0_r in E. rewrite E. cbn [obind].
    pose proof (left_point psize ns newindx nb r) as Hgood. rewrite !Z.add_0_l, Z2Nat.id in Hr by dlia.
    specialize (Hgood ltac:(lia) Hn Hold Hhalf Hr). destruct (match r with None => _ | Some _ => _ end) as [sp np].
    by exists sp, np.
  - destruct (scan_right_ok mp ns (room nb) (psize - 16) H Hl ltac:(lia) ltac:(lia) Hev (Z.to_nat (lenZ ns)) (lenZ ns - 1) (lenZ ns / 2))
      as (r & E & Hr); [dlia|lia|lia| |lia|].
    { unfold dropZ. rewrite drop_ge; [cbn [rooms foldr]; lia|]. pose proof (lenZ_contents ns) as Hlc. unfold lenZ in *. lia. }
    replace (rooms (dropZ (lenZ ns - 1 + 1) (contents ns))) with 0 in E
      by (unfold dropZ; rewrite drop_ge; [done|]; pose proof (lenZ_contents ns) as Hlc; unfold lenZ in *; lia).
    rewrite Z.add_0_r in E. rewrite E. cbn [obind]. pose proof (right_point psize ns newindx nb r) as Hgood.
    specialize (Hgood ltac:(lia) Hn Hold Hhalf Hfull Hr). destruct (match r with None => _ | Some _ => _ end) as [sp np].
    by exists sp, np.
Qed.

(** ** Splitting a leaf *)
Section split_page.
Context (nodemax psize pg flags newindx : Z) (page_new : Z -> Z + Z).
Context (mp : MDB_page) (ns : list (Z * pnode)) (key data : bytes) (rp : MDB_page) (tmp : bytes).
Hypothesis Hnew : forall n, page_new n = inr pg.
Hypothesis Hmp : page_rep mp ns.
Hypothesis Hleaf : IS_LEAF mp = true.
Hypothesis Hsize : lenZ (mp_raw mp) = psize.
Hypothesis Hfit : Forall (fun x => node_fits nodemax x.2) ns.
Hypothesis Hkey : lenZ key < 2 ^ 16.
Hypothesis Hdata : lenZ data < 2 ^ 32.
Hypothesis Hflags : 0 <= flags < 2 ^ 16.
Hypothesis Hbig : F_ISSET flags F_BIGDATA = false.
Hypothesis Hindx : 0 <= newindx <= lenZ ns.
Hypothesis Hrp : filled psize rp [] [].
Hypothesis Htmp : lenZ tmp = psize.
Local Notation nb := (leaf_node nodemax pg flags key data []).

(** The first key of the right page. *)
Lemma separator_ok split_indx newpos :
  good_point psize ns newindx nb split_indx newpos ->
  exists b, nodes ns newindx nb !! Z.to_nat (cut newindx split_indx newpos) = Some b /\
    separator mp newindx (val_of key) split_indx newpos = Done (pn_key b).
Proof.
  intros [Hr Hc _ _]. destruct (node_at ns newindx nb Hindx (cut newindx split_indx newpos)) as (b & Hb & Hcase); [lia|].
  exists b. split; [done|]. unfold separator. destruct ((newindx =? split_indx) && newpos) eqn:E.
  - apply andb_true_iff in E as [E%Z.eqb_eq ->]. destruct Hcase as [[_ ->]|[Hne _]]; [apply read_val|].
    exfalso. apply Hne. unfold cut, goes_left. rewrite E, Z.ltb_irrefl. cbn [negb andb orb Z.b2z]. lia.
  - assert (Hix : cut newindx split_indx newpos <> newindx /\ index_at newindx (cut newindx split_indx newpos) = split_indx).
    { revert E. unfold index_at, cut, goes_left.
      destruct newpos, (Z.ltb_spec newindx split_indx), (Z.eqb_spec newindx split_indx); cbn [negb andb orb Z.b2z]; try done; intros _;
        match goal with |- context [Z.ltb ?a ?b] => destruct (Z.ltb_spec a b) end; cbn [Z.b2z]; lia. }
    destruct Hcase as [[? _]|(_ & p & nd & Hp & -> & Hlt)]; [lia|]. destruct Hix as [_ Hix]. rewrite Hix in *.
    destruct (page_key_read mp ns split_indx Hmp ltac:(lia)) as [-> _]. unfold page_key. by rewrite Hp.
Qed.
Lemma split_page_ok split_indx newpos :
  split_point psize nodemax mp newindx (val_of key) (val_of data) = Done (split_indx, newpos) ->
  good_point psize ns newindx nb split_indx newpos ->
  let k := cut newindx split_indx newpos in
  exists left right L R b,
    split_page psize nodemax page_new mp newindx (val_of key) (Some (val_of data)) 0 flags rp tmp
    = Done {| sr_rc := MDB_SUCCESS; sr_left := left; sr_right := right; sr_sep := pn_key b;
              sr_on_right := k <=? newindx; sr_ki := if newindx <? k then newindx else newindx - k;
              sr_ovf := if on_overflow nodemax key data then Some (pg, data) else None |} /\
    nodes ns newindx nb !! Z.to_nat k = Some b /\
    page_rep left L /\ mp_flags left = mp_flags mp /\ contents L = takeZ k (nodes ns newindx nb) /\
    page_rep right R /\ IS_LEAF right = true /\ contents R = dropZ k (nodes ns newindx nb).
Proof.
  intros Hpoint Hg k. unfold split_page. rewrite Hpoint. cbn [obind].
  destruct (separator_ok split_indx newpos Hg) as (b & Hb & ->). cbn [obind]. destruct Hg as [Hr Hc Hrl Hrr].
  pose proof (pr_size _ _ Hmp) as Hps. pose proof (pr_lower _ _ Hmp) as Hlo. pose proof (pr_room _ _ Hmp) as Hroom.
  pose proof (rep_upper _ _ Hmp) as Hu. pose proof (lenZ_nonneg ns) as Hn0.
  set (no := if on_overflow nodemax key data then Some (pg, data) else None).
  set (new := {| en_key := val_of key; en_data := Some (val_of data); en_pgno := 0; en_flags := flags |}).
  set (s0 := {| sp_copy := _; sp_rp := _; sp_right := _; sp_ki := _; sp_ovf := _ |}).
  assert (Hadds : adds nodemax psize page_new new nb no) by (by apply adds_new).
  assert (H0 : turn psize mp ns newindx split_indx newpos nb no 0 s0).
  { constructor; cbn [sp_right sp_ki sp_ovf s0].
    - rewrite Z.min_l, !takeZ_0 by lia. unfold dropZ. rewrite drop_nil. split; [|split; [by exists []|done]].
      exists []. apply filled_nil; [exact Hleaf|exact (pr_kind _ _ Hmp)|done|lia].
    - by rewrite (proj2 (Z.ltb_ge _ 0)) by lia.
    - lia.
    - by rewrite (proj2 (Z.ltb_ge newindx 0)) by lia. }
  destruct (split_loop_ok nodemax psize page_new mp ns newindx split_indx newpos new nb no Hmp Hleaf Hfit Hadds Hindx Hr Hrl Hrr Hc
    (S (Z.to_nat (lenZ ns))) 0 0 s0) as (s' & E & Ht); [lia|lia|done|intros _; unfold place; rewrite (proj2 (Z.ltb_lt 0 _)) by lia; done|].
  rewrite (NUMKEYS_rep _ _ Hmp). unfold index_at in E. rewrite (proj2 (Z.ltb_ge newindx 0)) in E by lia. change (0 - Z.b2z false) with 0 in E.
  rewrite E. cbn [obind].
  destruct Ht as [((L & HL) & (R & HR) & Hfl) _ Hki Hov]. rewrite Z.min_r in HL by lia. fold k in HL, HR, Hki.
  pose proof (lenZ_nodes ns newindx nb) as Hln.
  replace (takeZ (lenZ ns + 1) (nodes ns newindx nb)) with (nodes ns newindx nb) in HR
    by (unfold takeZ; rewrite firstn_all2; [done|unfold lenZ in *; lia]).
  destruct (copy_back_ok psize (sp_copy s') mp L _ HL) as (left & -> & Hrep & Hlf & _); [|done|done|].
  { intros E0. apply (f_equal lenZ) in E0. unfold takeZ, lenZ in *. rewrite length_take in E0. simpl in E0. fold k in Hc. lia. }
  cbn [obind]. exists left, (sp_rp s'), L, R, b. split; [|split; [done|]].
  - f_equal. rewrite Hki, Hov by lia. rewrite (proj2 (Z.ltb_lt newindx (lenZ ns + 1))) by lia. f_equal.
    unfold k, cut, goes_left.
    destruct newpos, (Z.ltb_spec newindx split_indx), (Z.eqb_spec newindx split_indx); cbn [negb andb orb Z.b2z];
      match goal with |- context [Z.leb ?a ?b] => destruct (Z.leb_spec a b) end; lia || done.
  - split; [done|]. split; [done|]. split; [apply (fl_contents _ _ _ _ HL)|]. split; [apply (fl_rep _ _ _ _ HR)|].
    split; [apply (fl_leaf _ _ _ _ HR)|apply (fl_contents _ _ _ _ HR)].
Qed.
End split_page.

(** *** Keys and maps of the two pages *)
Lemma contents_lookup ns (i : nat) : contents ns !! i = (fun x => bare x.2) <$> ns !! i.
Proof. unfold contents. apply list_lookup_fmap. Qed.
Lemma keys_sorted_contents ns ms : contents ns = contents ms -> keys_sorted ns -> keys_sorted ms.
Proof.
  intros E Hs. assert (Hk : forall i p nd, ms !! i = Some (p, nd) -> exists q ne, ns !! i = Some (q, ne) /\ pn_key ne = pn_key nd).
  { intros i p nd Hi. apply (f_equal (lookup i)) in E. rewrite !contents_lookup, Hi in E. destruct (ns !! i) as [[q ne]|]; [|done].
    injection E as _ _ Ek _. by exists q, ne. }
  intros i j p q nd ne Hij (? & ? & Hi & <-)%Hk (? & ? & Hj & <-)%Hk. by eapply Hs.
Qed.
Lemma entries_contents ns ms : contents ns = contents ms -> entries ns = entries ms.
Proof.
  intros E. assert (Hc : forall l, entries l = map (fun b => (pn_key b, pn_data b)) (contents l)).
  { intros l. unfold entries, contents. rewrite map_map. done. }
  by rewrite !Hc, E.
Qed.
Lemma contents_insert i p nd ns : contents (insert_at i (p, nd) ns) = insert_at i (bare nd) (contents ns).
Proof. unfold insert_at, takeZ, dropZ. rewrite contents_app. unfold contents. cbn [map snd]. by rewrite firstn_map, skipn_map. Qed.

(** The nodes [ns] with [nb] at index [r], divided over two pages: both hold
    nodes, the keys are in order, the separator is the first key on the right,
    the new node is where the cursor is left, and together the pages are the
    map with the new entry. *)
Record divided (ns : list (Z * pnode)) (r : Z) (nb : pnode) (res : split_result) (L R : list (Z * pnode)) : Prop := {
  dv_left : page_rep (sr_left res) L /\ IS_LEAF (sr_left res) = true /\ L <> [];
  dv_right : page_rep (sr_right res) R /\ IS_LEAF (sr_right res) = true /\ R <> [];
  dv_nodes : contents L ++ contents R = insert_at r nb (contents ns);
  dv_sorted : keys_sorted (L ++ R);
  dv_sep : page_key R 0 = sr_sep res;
  dv_new : contents (if sr_on_right res then R else L) !! Z.to_nat (sr_ki res) = Some nb;
  dv_map : leaf_map L ∪ leaf_map R = <[pn_key nb := pn_data nb]> (leaf_map ns)
}.
Lemma divided_intro ns r nb res L R k b :
  bare nb = nb -> 0 <= r <= lenZ ns -> keys_sorted ns ->
  (forall j, 0 <= j < r -> lex (page_key ns j) (pn_key nb) < 0) ->
  (forall j, r <= j < lenZ ns -> lex (pn_key nb) (page_key ns j) < 0) ->
  0 < k <= lenZ ns -> page_rep (sr_left res) L -> IS_LEAF (sr_left res) = true ->
  page_rep (sr_right res) R -> IS_LEAF (sr_right res) = true ->
  contents L = takeZ k (insert_at r nb (contents ns)) -> contents R = dropZ k (insert_at r nb (contents ns)) ->
  insert_at r nb (contents ns) !! Z.to_nat k = Some b -> sr_sep res = pn_key b ->
  sr_on_right res = (k <=? r) -> sr_ki res = (if r <? k then r else r - k) ->
  divided ns r nb res L R.
Proof.
  intros Hbare Hr Hs Hlo Hhi Hk HL HLl HR HRl EL ER Hb Hsep Hon Hki.
  assert (Hall : contents (L ++ R) = contents (insert_at r (0, nb) ns)) by (rewrite contents_app, EL, ER, contents_insert, Hbare; apply takeZ_dropZ).
  assert (Hins : keys_sorted (insert_at r (0, nb) ns)) by (by apply insert_sorted).
  pose proof (lenZ_insert_at r nb (contents ns)) as Hn. rewrite lenZ_contents in Hn.
  assert (Hnb : insert_at r nb (contents ns) !! Z.to_nat r = Some nb).
  { rewrite lookup_insert_at by (rewrite lenZ_contents; lia). rewrite Z2Nat.id by lia. by rewrite decide_False, decide_True by lia. }
  constructor.
  - split; [done|]. split; [done|]. intros ->. apply (f_equal lenZ) in EL. unfold takeZ, lenZ in *. rewrite length_take in EL. simpl in EL. lia.
  - split; [done|]. split; [done|]. intros ->. apply (f_equal lenZ) in ER. unfold dropZ, lenZ in *. rewrite length_drop in ER. simpl in ER. lia.
  - rewrite EL, ER. apply takeZ_dropZ.
  - by eapply keys_sorted_contents.
  - rewrite Hsep. apply (f_equal (lookup O)) in ER. unfold dropZ in ER. rewrite contents_lookup, lookup_drop, Nat.add_0_r, Hb in ER.
    unfold page_key. change (Z.to_nat 0) with O. destruct (R !! O) as [[q ne]|]; [|done]. cbn in ER. by injection ER as <-.
  - rewrite Hon, Hki. destruct (Z.leb_spec k r), (Z.ltb_spec r k); try lia.
    + rewrite ER. unfold dropZ. rewrite lookup_drop, <- Hnb. f_equal. lia.
    + rewrite EL. unfold takeZ. rewrite lookup_take_lt, <- Hnb by lia. done.
  - rewrite <- (leaf_map_insert r 0 nb ns Hins). unfold leaf_map. rewrite <- (entries_contents _ _ Hall).
    unfold entries. by rewrite map_app, list_to_map_app.
Qed.

(** C9: splitting a leaf is correct: for every well-formed leaf with its keys in
    order (data on overflow pages included) that has no room for a new item, if
    the item takes at most half of a page and the code looks at the sizes (fewer
    than 20 nodes, or an item of more than a sixteenth of the page), then
    choosing the place, distributing the nodes and copying back run without an
    access outside the pages or a failed assertion and succeed; both pages are
    well-formed leaves and hold nodes, together exactly the old ones and the new
    one in the order of the keys; the separator is the first key of the right
    page; the cursor is on the new item; and the maps of the two pages together
    are the map of the old page with the new item. *)
Theorem split_leaf_correct (nodemax psize pg r pgno : Z) (page_new : Z -> Z + Z) (mp : MDB_page) (ns : list (Z * pnode))
    (key data raw tmp : bytes) :
  page_rep mp ns -> IS_LEAF mp = true -> page_sorted mp ns -> lenZ (mp_raw mp) = psize ->
  Forall (fun x => node_fits nodemax x.2) ns -> lenZ key < 2 ^ 16 -> lenZ data < 2 ^ 32 -> (forall n, page_new n = inr pg) ->
  0 <= r <= lenZ ns ->
  (forall j, 0 <= j < r -> lex (page_key ns j) key < 0) -> (forall j, r <= j < lenZ ns -> lex key (page_key ns j) < 0) ->
  lenZ raw = psize -> lenZ tmp = psize ->
  let need := mdb_leaf_size nodemax (val_of key) (val_of data) in
  SIZELEFT mp < need -> 2 * need <= psize - PAGEHDRSZ -> NUMKEYS mp < 20 \/ (psize - PAGEHDRSZ) / 16 < need ->
  exists res L R,
    split_page psize nodemax page_new mp r (val_of key) (Some (val_of data)) 0 0 (mdb_page_new psize P_LEAF pgno raw) tmp = Done res /\
    sr_rc res = MDB_SUCCESS /\ divided ns r (leaf_node nodemax pg 0 key data []) res L R /\
    sr_ovf res = if on_overflow nodemax key data then Some (pg, data) else None.
Proof.
  intros H Hl Hs Hsz Hfit Hk Hd Hnew Hr Hlo Hhi Hraw Htmp need Hfull Hhalf Hchk.
  set (nb := leaf_node nodemax pg 0 key data []). assert (Hneed : need = room nb) by (apply leaf_size_eq).
  rewrite (NUMKEYS_rep _ _ H) in Hchk. unfold PAGEHDRSZ in *. pose proof (pr_size _ _ H) as Hps.
  rewrite (SIZELEFT_rep _ _ H), (pr_lower _ _ H) in Hfull. pose proof (rooms_rep _ _ H) as Hrooms. rewrite Hsz in Hrooms.
  pose proof (room_pos nb) as Hpos. rewrite Hneed in *. pose proof (lenZ_nonneg ns) as Hn0.
  destruct (split_point_ok nodemax psize pg 0 mp ns r key data H Hl Hsz Hr Hhalf ltac:(fold nb; lia) Hchk) as (sp & np & Ep & Hg).
  assert (Hrp : filled psize (mdb_page_new psize P_LEAF pgno raw) [] []) by (apply filled_nil; [done|done|done|lia]).
  destruct (split_page_ok nodemax psize pg 0 r page_new mp ns key data _ tmp Hnew H Hl Hsz Hfit Hk Hd ltac:(lia) eq_refl Hr Hrp Htmp sp np Ep Hg)
    as (left & right & L & R & b & E & Hb & HL & Hlf & EL & HR & HRl & ER).
  eexists _, L, R. split; [exact E|]. split; [done|]. split; [|done].
  apply (divided_intro ns r nb _ L R (cut r sp np) b); cbn [sr_left sr_right sr_sep sr_on_right sr_ki]; try done.
  - by apply (page_sorted_keys mp).
  - apply (gp_cut _ _ _ _ _ _ Hg).
  - unfold IS_LEAF in *. by rewrite Hlf.
Qed.

Lemma split_leaf_correct_witness :
  exists res L R,
    split_page 64 24 (fun _ => inr 9) demo_page 1 (val_of [97; 97]) (Some (val_of (zeros 12))) 0 0
      (mdb_page_new 64 P_LEAF 8 (zeros 64)) (zeros 64) = Done res /\
    sr_rc res = MDB_SUCCESS /\ divided demo_nodes 1 (leaf_node 24 9 0 [97; 97] (zeros 12) []) res L R /\
    sr_ovf res = if on_overflow 24 [97; 97] (zeros 12) then Some (9, zeros 12) else None.
Proof.
  apply (split_leaf_correct 24 64 9 1 8 (fun _ => inr 9) demo_page demo_nodes [97; 97] (zeros 12) (zeros 64) (zeros 64));
    [apply demo_rep|done|apply demo_sorted|done| |done..| | |done|done|done|done|by left].
  - repeat constructor; right; done.
  - intros j Hj. assert (j = 0) as -> by lia. done.
  - intros j Hj. change (lenZ demo_nodes) with 2 in Hj. assert (j = 1) as -> by lia. done.
Defined.

(** ** When the split fails *)

(** [me_nodemax] for the page size, a page with the items in order, and the keys
    on a page. *)
Definition me_nodemax_of (psize : Z) : Z := (psize - PAGEHDRSZ) / 2.
Fixpoint fill (psize : Z) (items : list (bytes * bytes)) (mp : MDB_page) : outcome MDB_page :=
  match items with
  | [] => Done mp
  | (k, d) :: items =>
      olet! '(rc, mp, _) := mdb_node_add (me_nodemax_of psize) psize 0 (fun _ => inr 9) mp (NUMKEYS mp)
                              (Some (val_of k)) (Some (val_of d)) 0 0 in
      if rc =? MDB_SUCCESS then fill psize items mp else Fault AssertFailed
  end.
Fixpoint keys_from (n : nat) (i : Z) (mp : MDB_page) : outcome (list bytes) :=
  match n with
  | O => Done []
  | S n =>
      olet! ofs := mp_ptr (mp_raw mp) i in
      olet! k := NODEKEY (mp_raw mp) ofs in
      olet! ks := keys_from n (i + 1) mp in Done (k :: ks)
  end.
(** The items, an item that goes to index [i], the result of the split and the
    keys on the two pages. *)
Definition split_run (psize : Z) (items : list (bytes * bytes)) (i : Z) (key data : bytes) : outcome (Z * list bytes * list bytes) :=
  let empty pgno := mdb_page_new psize P_LEAF pgno (zeros psize) in
  olet! mp := fill psize items (empty 3) in
  olet! r := split_page psize (me_nodemax_of psize) (fun _ => inr 9) mp i (val_of key) (Some (val_of data)) 0 0 (empty 4) (zeros psize) in
  olet! l := keys_from (Z.to_nat (NUMKEYS (sr_left r))) 0 (sr_left r) in
  olet! rt := keys_from (Z.to_nat (NUMKEYS (sr_right r))) 0 (sr_right r) in
  Done (sr_rc r, l, rt).


(** A split can fail and lose entries.  On a page of 4096 bytes whose two
    nodes leave no room, an item between them that [me_nodemax] still lets on a
    page, because it does not count the two bytes of the pointer, fits on
    neither page: the split ends with [MDB_PAGE_FULL], and the entry behind it
    is on none of the pages.  On a page with 20 nodes, ten large and ten small
    ones, the sizes are not looked at for an item of less than a sixteenth of
    the page: it goes to the large ones and the same happens. *)
Example split_page_full :
  split_run 4096 [([1], zeros 2029); ([3], zeros 2029)] 1 [2] (zeros 2030) = Done (MDB_PAGE_FULL, [[1]], [[2]]) /\
  split_run 4096 (map (fun n => ([n], zeros 379)) (seqZ 1 10) ++ map (fun n => ([n], [])) (seqZ 21 10)) 3 [3; 1] (zeros 240)
    = Done (MDB_PAGE_FULL, [[1]; [2]; [3]; [3; 1]; [4]; [5]; [6]; [7]; [8]; [9]], []).
Proof. split; vm_compute; reflexivity. Qed.
