(* ===== verification/Merge.v ===== *)
(** * Merge: pages that have become too empty
    (lib/lmdb/mdb.c: mdb_update_key, mdb_node_move, mdb_page_merge,
    mdb_rebalance)

    After a deletion a page below a quarter full takes a node from a neighbour,
    or is merged with it.  The functions are on the pages involved: the page,
    its neighbour and their parent, which are writable (mdb_page_touch is not
    modelled); what they do to other cursors and to the page counts of the
    database is left out, and so is the parent's own rebalancing after a merge.
    [get] is mdb_page_get, [lowest] the
    lowest key below a branch page, which mdb_page_search_lowest finds (Cursor);
    pages of LEAF2 are left out. *)
From S2P Require Import Prelude.
From S2P Require Import Lmdb.
From S2P Require Import Pages.
From S2P Require Import LeafMap.
From S2P Require Import Split.

(** ** The key of a node *)

(** [for (i = 0; i < numkeys; i++)] *)
Fixpoint shift_ptrs (n : nat) (i ptr delta : Z) (raw : bytes) : outcome bytes :=
  match n with
  | O => Done raw
  | S n =>
      olet! p := mp_ptr raw i in
      olet! raw := (if p <=? ptr then set_ptr raw i (u16 (p - delta)) else Done raw) in
      shift_ptrs n (i + 1) ptr delta raw
  end.
Inductive update_result :=
  | Updated (mp : MDB_page)
  | Resplit (mp : MDB_page) (pgno : Z).     (* the node is removed; mdb_page_split goes on *)
Definition mdb_update_key (mp : MDB_page) (indx : Z) (key : bytes) : outcome update_result :=
  let raw := mp_raw mp in
  olet! ptr := mp_ptr raw indx in
  olet! ksize := mn_ksize raw ptr in
  let delta0 := lenZ key - ksize in
  let delta := delta0 + Z.land delta0 1 in
  if (0 <? delta) && (SIZELEFT mp <? delta) then
    olet! pgno := NODEPGNO raw ptr in
    olet! mp := mdb_node_del mp indx 0 in Done (Resplit mp pgno)
  else
    olet! '(raw, upper) :=
      (if delta =? 0 then Done (raw, mp_upper mp)
       else
         olet! raw := shift_ptrs (Z.to_nat (NUMKEYS mp)) 0 ptr delta raw in
         olet! d := blk_read raw (mp_upper mp) (ptr - mp_upper mp + NODESIZE) in
         olet! raw := blk_write raw (mp_upper mp - delta) d in
         Done (raw, u16 (mp_upper mp - delta))) in
    olet! node := mp_ptr raw indx in
    olet! raw := (if delta0 =? 0 then Done raw else st16 raw (node + 6) (u16 (lenZ key))) in
    olet! raw := (if lenZ key =? 0 then Done raw else blk_write raw (node + NODESIZE) key) in
    Done (Updated (page_with (mp_lower mp) upper raw mp)).

Section pages.
Context (me_nodemax me_psize : Z) (page_new : Z -> Z + Z).

(** A node of [src] to be added elsewhere; the first key of a branch page is
    not stored. *)
Definition moved_entry (src : MDB_page) (i : Z) (lowest : bytes) : outcome entry :=
  olet! e := node_entry src i in
  Done (if (i =? 0) && IS_BRANCH src then
          {| en_key := val_of lowest; en_data := en_data e; en_pgno := en_pgno e; en_flags := en_flags e |}
        else e).
Definition add_to_page (dst : MDB_page) (j : Z) (e : entry) : outcome (Z * MDB_page) :=
  olet! '(rc, dst, _) := mdb_node_add me_nodemax me_psize 0 page_new dst j (Some (en_key e)) (en_data e) (en_pgno e) (en_flags e) in
  Done (rc, dst).

(** ** Merging: all nodes of [src] go behind those of [dst] *)
Fixpoint merge_loop (n : nat) (i j : Z) (src dst : MDB_page) (lowest : bytes) : outcome (Z * MDB_page) :=
  match n with
  | O => Done (MDB_SUCCESS, dst)
  | S n =>
      olet! e := moved_entry src i lowest in
      olet! '(rc, dst) := add_to_page dst j e in
      if negb (rc =? 0) then Done (rc, dst) else merge_loop n (i + 1) (j + 1) src dst lowest
  end.
Inductive merge_result :=
  | MergeError (rc : Z)
  | Merged (dst : MDB_page) (parent : update_result) (freed : Z).
(** [ki] is the index of [src] in the parent. *)
Definition mdb_page_merge (src dst parent : MDB_page) (ki : Z) (lowest : bytes) : outcome merge_result :=
  olet! '(rc, dst) := merge_loop (Z.to_nat (NUMKEYS src)) 0 (NUMKEYS dst) src dst lowest in
  if negb (rc =? 0) then Done (MergeError rc)
  else
    olet! parent := mdb_node_del parent ki 0 in
    olet! parent := (if ki =? 0 then mdb_update_key parent 0 [] else Done (Updated parent)) in
    Done (Merged dst parent (mp_pgno src)).

(** ** Moving one node, from index [i] of [src] to index [j] of [dst]; [ks] and
    [kd] are the indices of the pages in the parent. *)
Inductive move_result :=
  | MoveError (rc : Z)
  | MoveSplit (dst : MDB_page) (pgno : Z)         (* the destination is split first *)
  | Moved (src dst : MDB_page) (parent : update_result).
Definition first_key_of (mp : MDB_page) : outcome bytes := olet! ofs := mp_ptr (mp_raw mp) 0 in NODEKEY (mp_raw mp) ofs.
(** The key of [mp] in its parent, and no key in its first node if it is a
    branch page *)
Definition new_separator (k : Z) (mp : MDB_page) (parent : update_result) : outcome (MDB_page * update_result) :=
  olet! parent :=
    (match parent with
     | Updated p =>
         if k =? 0 then Done parent
         else olet! key := first_key_of mp in mdb_update_key p k key
     | Resplit _ _ => Done parent
     end) in
  olet! mp := (if IS_BRANCH mp then
                 olet! r := mdb_update_key mp 0 [] in match r with Updated mp => Done mp | Resplit _ _ => Fault AssertFailed end
               else Done mp) in
  Done (mp, parent).
Definition mdb_node_move (src dst parent : MDB_page) (i j ks kd : Z) (lowest_src lowest_dst : bytes) : outcome move_result :=
  olet! e := moved_entry src i lowest_src in
  olet! dst := (if IS_BRANCH dst && (j =? 0) then mdb_update_key dst 0 lowest_dst else Done (Updated dst)) in
  match dst with
  | Resplit dst pgno => Done (MoveSplit dst pgno)
  | Updated dst =>
      olet! '(rc, dst) := add_to_page dst j e in
      if negb (rc =? 0) then Done (MoveError rc)
      else
        olet! src := mdb_node_del src i (mv_size (en_key e)) in
        olet! '(src, parent) := (if i =? 0 then new_separator ks src (Updated parent) else Done (src, Updated parent)) in
        olet! '(dst, parent) := (if j =? 0 then new_separator kd dst parent else Done (dst, parent)) in
        Done (Moved src dst parent)
  end.

(** ** Rebalancing a page.  [above] is the parent and the page's index there,
    [None] for the root. *)
Definition P_SUBP : Z := 0x40.
Definition IS_SUBP (p : MDB_page) : bool := F_ISSET (mp_flags p) P_SUBP.
Definition FILL_THRESHOLD : Z := 250.
Definition PAGEFILL (p : MDB_page) : Z := 1000 * (me_psize - PAGEHDRSZ - SIZELEFT p) / (me_psize - PAGEHDRSZ).
Definition minkeys (mp : MDB_page) : Z := 1 + (if IS_BRANCH mp then 1 else 0).
Inductive rebalance_result :=
  | Enough
  | TreeEmpty (freed : Z)                         (* no root any more *)
  | Collapsed (freed root : Z)                    (* the only child is the new root *)
  | ByMove (right : bool) (r : move_result)       (* a node from the right or the left neighbour *)
  | ByMerge (right : bool) (r : merge_result).
Definition rebalance_root (mp : MDB_page) : outcome rebalance_result :=
  if IS_SUBP mp then Done Enough
  else if NUMKEYS mp =? 0 then Done (TreeEmpty (mp_pgno mp))
  else if IS_BRANCH mp && (NUMKEYS mp =? 1) then
    olet! ofs := mp_ptr (mp_raw mp) 0 in
    olet! root := NODEPGNO (mp_raw mp) ofs in Done (Collapsed (mp_pgno mp) root)
  else Done Enough.
Definition mdb_rebalance (mp : MDB_page) (above : option (MDB_page * Z)) (get : Z -> outcome MDB_page) (lowest : Z -> bytes)
    : outcome rebalance_result :=
  if (FILL_THRESHOLD <=? PAGEFILL mp) && (minkeys mp <=? NUMKEYS mp) then Done Enough
  else
    match above with
    | None => rebalance_root mp
    | Some (parent, ki) =>
        if negb (1 <? NUMKEYS parent) then Fault AssertFailed
        else
          let kn := if ki =? 0 then ki + 1 else ki - 1 in
          olet! ofs := mp_ptr (mp_raw parent) kn in
          olet! pg := NODEPGNO (mp_raw parent) ofs in
          olet! mn := get pg in
          let in_ := if ki =? 0 then 0 else NUMKEYS mn - 1 in
          let im := if ki =? 0 then NUMKEYS mp else 0 in
          if (FILL_THRESHOLD <=? PAGEFILL mn) && (minkeys mn <? NUMKEYS mn) then
            olet! r := mdb_node_move mn mp parent in_ im kn ki (lowest (mp_pgno mn)) (lowest (mp_pgno mp)) in Done (ByMove (ki =? 0) r)
          else if ki =? 0 then
            olet! r := mdb_page_merge mn mp parent kn (lowest (mp_pgno mn)) in Done (ByMerge true r)
          else
            olet! r := mdb_page_merge mp mn parent ki (lowest (mp_pgno mp)) in Done (ByMerge false r)
    end.
End pages.

(** ** Lemmas: adding nodes of a leaf to another *)
Lemma left_rooms psize mp ns : page_rep mp ns -> lenZ (mp_raw mp) = psize -> SIZELEFT mp = psize - 16 - rooms (contents ns).
Proof. intros Hr Hs. rewrite (SIZELEFT_rep _ _ Hr), (rooms_rep _ _ Hr), Hs, (pr_lower _ _ Hr). lia. Qed.
(** A leaf of [psize] bytes whose nodes can be added to another page *)
Record leaf_page (nodemax psize : Z) (mp : MDB_page) (ns : list (Z * pnode)) : Prop := {
  lg_rep : page_rep mp ns;
  lg_leaf : IS_LEAF mp = true;
  lg_branch : IS_BRANCH mp = false;
  lg_size : lenZ (mp_raw mp) = psize;
  lg_fits : Forall (fun x => node_fits nodemax x.2) ns
}.
Lemma fits_contents nodemax ns bs : contents ns = bs -> Forall (fun x => node_fits nodemax x.2) ns <-> Forall (node_fits nodemax) bs.
Proof. intros <-. unfold contents. rewrite Forall_map. done. Qed.
Lemma flags_kind mp mp' : mp_flags mp' = mp_flags mp -> IS_LEAF mp' = IS_LEAF mp /\ IS_BRANCH mp' = IS_BRANCH mp.
Proof. intros E. unfold IS_LEAF, IS_BRANCH. by rewrite E. Qed.

Section lemmas.
Context (nodemax psize : Z) (page_new : Z -> Z + Z).
Lemma add_node_ok dst ns src ms (i : nat) p nd j lowest :
  leaf_page nodemax psize dst ns -> leaf_page nodemax psize src ms -> ms !! i = Some (p, nd) -> 0 <= j <= lenZ ns ->
  rooms (contents ns) + room (bare nd) <= psize - 16 ->
  exists e dst' ns', moved_entry src (Z.of_nat i) lowest = Done e /\ add_to_page nodemax psize page_new dst j e = Done (MDB_SUCCESS, dst') /\
    leaf_page nodemax psize dst' ns' /\ contents ns' = insert_at j (bare nd) (contents ns) /\ mp_pgno dst' = mp_pgno dst.
Proof.
  intros [D1 D2 D3 D4 D5] [S1 S2 S3 S4 S5] Hi Hj Hroom.
  pose proof (proj1 (Forall_lookup _ _) S5 _ _ Hi) as Hfit. cbn [snd] in Hfit.
  destruct (node_plan nodemax psize page_new src ms i p nd S1 S2 Hi Hfit) as (data & E & H1 & H2 & H3).
  unfold moved_entry. rewrite E, S3, andb_false_r. cbn [obind].
  destruct (leaf_add_core nodemax psize 0 page_new dst ns j (pn_key nd) data 0 (pn_flags nd) (pn_val nd) (pn_flags nd) None (pn_data nd) None D1 D2 Hj H1 H2 H3) as [_ Hadd].
  destruct Hadd as (raw & pad & Er & Hl & Hrep).
  { rewrite (left_rooms psize dst ns D1 D4). unfold room in Hroom. cbn [bare pn_key pn_data] in Hroom. lia. }
  do 3 eexists. split; [done|]. unfold add_to_page. cbn [en_key en_data en_pgno en_flags]. rewrite Er. cbn [obind]. split; [done|].
  assert (Ec : contents (insert_at j (mp_upper dst - esize (pn_key nd) (pn_data nd), {| pn_val := pn_val nd; pn_flags := pn_flags nd; pn_key := pn_key nd; pn_data := pn_data nd; pn_pad := pad |}) ns)
    = insert_at j (bare nd) (contents ns)) by (by rewrite contents_insert).
  split; [|split; [exact Ec|done]]. constructor; [exact Hrep|done|done|cbn; lia|]. apply (fits_contents _ _ _ Ec).
  apply (fits_contents _ _ _ eq_refl) in D5. unfold insert_at. apply Forall_app. split; [by apply Forall_take|]. constructor; [exact Hfit|by apply Forall_drop].
Qed.
Lemma merge_loop_ok src ms lowest : leaf_page nodemax psize src ms -> forall n (i : nat) dst ns,
  (i + n)%nat = length ms -> leaf_page nodemax psize dst ns -> rooms (contents ns) + rooms (contents (drop i ms)) <= psize - 16 ->
  exists dst' ns', merge_loop nodemax psize page_new n (Z.of_nat i) (lenZ ns) src dst lowest = Done (MDB_SUCCESS, dst') /\
    leaf_page nodemax psize dst' ns' /\ contents ns' = contents ns ++ contents (drop i ms) /\ mp_pgno dst' = mp_pgno dst.
Proof.
  intros Hs. induction n as [|n IH]; intros i dst ns Hn Hd Hroom; cbn [merge_loop].
  { exists dst, ns. rewrite drop_ge by lia. cbn. by rewrite app_nil_r. }
  destruct (lookup_lt_is_Some_2 ms i) as [[p nd] Hi]; [lia|]. rewrite (drop_S _ _ _ Hi) in Hroom |- *. cbn [contents map rooms foldr snd] in Hroom.
  change (foldr _ 0 (map _ (drop (S i) ms))) with (rooms (contents (drop (S i) ms))) in Hroom. pose proof (rooms_nonneg (contents (drop (S i) ms))) as Hnn.
  destruct (add_node_ok dst ns src ms i p nd (lenZ ns) lowest Hd Hs Hi) as (e & dst1 & ns1 & E1 & E2 & Hd1 & Ec1 & Epg); [pose proof (lenZ_nonneg ns); lia|lia|].
  rewrite E1. cbn [obind]. rewrite E2. cbn [obind]. change (MDB_SUCCESS =? 0) with true. cbn [negb]. rewrite insert_at_end in Ec1 by (by rewrite lenZ_contents).
  assert (El : lenZ ns1 = lenZ ns + 1) by (rewrite <- (lenZ_contents ns1), Ec1, lenZ_app, lenZ_contents; done).
  destruct (IH (S i) dst1 ns1) as (dst' & ns' & E' & Hd' & Ec' & Epg').
  { lia. } { done. } { rewrite Ec1, rooms_app. cbn [rooms foldr]. unfold rooms in *. lia. }
  exists dst', ns'. rewrite El in E'. replace (Z.of_nat i + 1) with (Z.of_nat (S i)) by lia. split; [done|]. split; [done|]. split; [|congruence].
  rewrite Ec', Ec1, <- app_assoc. done.
Qed.
Lemma del_leaf_page mp ns (i : nat) p nd ks :
  leaf_page nodemax psize mp ns -> ns !! i = Some (p, nd) ->
  exists mp' ns', mdb_node_del mp (Z.of_nat i) ks = Done mp' /\ leaf_page nodemax psize mp' ns' /\ contents ns' = delete_at (Z.of_nat i) (contents ns).
Proof.
  intros [D1 D2 D3 D4 D5] Hi. destruct (node_del_ok mp ns (Z.of_nat i) ks p nd D1) as (mp' & E & Hr & Hs & Hf); [lia|by rewrite Nat2Z.id|].
  exists mp', (deleted (Z.of_nat i) p (isize nd) ns). split; [done|].
  assert (Ec : contents (deleted (Z.of_nat i) p (isize nd) ns) = delete_at (Z.of_nat i) (contents ns)).
  { unfold deleted, delete_at, contents, takeZ, dropZ. by rewrite map_app, firstn_map, skipn_map, !firstn_map, !skipn_map, !map_map. }
  split; [|exact Ec]. destruct (flags_kind _ _ Hf) as [K1 K2]. constructor; [done|by rewrite K1|by rewrite K2| |].
  - pose proof (left_rooms _ _ _ Hr eq_refl) as L1. pose proof (left_rooms _ _ _ D1 D4) as L2.
    assert (Hro : rooms (contents ns) = rooms (delete_at (Z.of_nat i) (contents ns)) + room (bare nd)).
    { assert (Hc : contents ns !! i = Some (bare nd)) by (rewrite contents_lookup, Hi; done). rewrite <- (take_drop_middle _ _ _ Hc) at 1.
      unfold delete_at, takeZ, dropZ. rewrite !rooms_app. cbn [rooms foldr]. rewrite !Nat2Z.id. replace (Z.to_nat (Z.of_nat i + 1)) with (S i) by lia. unfold rooms. lia. }
    rewrite Ec in L1. destruct (pr_ok _ _ D1 _ _ _ Hi) as [Hok _]. pose proof (even_up_size _ _ Hok) as He. unfold room, esize in Hro. cbn [bare pn_key pn_data] in Hro. lia.
  - apply (fits_contents _ _ _ Ec). apply (fits_contents _ _ _ eq_refl) in D5. unfold delete_at. apply Forall_app. split; [by apply Forall_take|by apply Forall_drop].
Qed.
End lemmas.

(** ** Lemmas: the key of a node *)
Definition grown (ptr delta p : Z) : Z := if p <=? ptr then p - delta else p.
Lemma shift_ptrs_ok n0 ptr delta (ps : Z -> Z) :
  (forall t, 0 <= t < n0 -> 0 <= ps t < 2 ^ 16 /\ 0 <= grown ptr delta (ps t) < 2 ^ 16) -> forall n i raw,
  Z.of_nat n + i = n0 -> 0 <= i -> 16 + 2 * n0 <= lenZ raw -> (forall t, i <= t < n0 -> mp_ptr raw t = Done (ps t)) ->
  exists raw', shift_ptrs n i ptr delta raw = Done raw' /\ lenZ raw' = lenZ raw /\
    (forall t, 0 <= t < i -> mp_ptr raw' t = mp_ptr raw t) /\
    (forall t, i <= t < n0 -> mp_ptr raw' t = Done (grown ptr delta (ps t))) /\
    (forall q m, 16 + 2 * n0 <= q -> blk_read raw' q m = blk_read raw q m).
Proof.
  intros Hps. induction n as [|n IH]; intros i raw Hn Hi Hl Hp; cbn [shift_ptrs].
  { exists raw. split; [done|]. split; [done|]. split; [done|]. split; [lia|done]. }
  rewrite (Hp i) by lia. cbn [obind]. destruct (Hps i ltac:(lia)) as [Hr Hg].
  assert (H1 : exists r1, (if ps i <=? ptr then set_ptr raw i (u16 (ps i - delta)) else Done raw) = Done r1 /\ lenZ r1 = lenZ raw /\
    mp_ptr r1 i = Done (grown ptr delta (ps i)) /\ (forall t, 0 <= t -> t <> i -> mp_ptr r1 t = mp_ptr raw t) /\
    (forall q m, 16 + 2 * n0 <= q -> blk_read r1 q m = blk_read raw q m)).
  { unfold grown in *. destruct (ps i <=? ptr).
    - rewrite wrap_small by lia. apply set_ptr_ok; lia.
    - exists raw. split; [done|]. split; [done|]. split; [apply Hp; lia|done]. }
  destruct H1 as (r1 & -> & L1 & P1 & O1 & F1). cbn [obind].
  destruct (IH (i + 1) r1) as (raw' & E & L & P & O & F); [lia..|intros t Ht; rewrite O1 by lia; apply Hp; lia|].
  exists raw'. split; [done|]. split; [lia|]. split; [intros t Ht; rewrite P, O1 by lia; done|]. split.
  - intros t Ht. destruct (decide (t = i)) as [->|]; [|apply O; lia]. rewrite P by lia. done.
  - intros q m Hq. rewrite F, F1 by done. done.
Qed.

(** The key and the page number of node [i] as the search reads them *)
Definition child_of (nd : pnode) : Z := Z.lor (Z.lor (pn_val nd mod 65536) (Z.shiftl (pn_val nd / 65536) 16)) (Z.shiftl (pn_flags nd) 32).
Definition reads_node (raw : bytes) (i : Z) (key : bytes) (pgno : Z) : Prop :=
  exists ofs, mp_ptr raw i = Done ofs /\ NODEKEY raw ofs = Done key /\ NODEPGNO raw ofs = Done pgno.
Lemma image_reads raw p leaf nd :
  blk_read raw p (isize nd) = Done (image nd) -> pnode_ok leaf nd -> NODEKEY raw p = Done (pn_key nd) /\ NODEPGNO raw p = Done (child_of nd).
Proof.
  intros Hr Hok. destruct (image_fields _ _ Hok) as (H0 & H1 & H2 & H3). pose proof (isize_eq nd) as Hs.
  pose proof (lenZ_nonneg (pn_key nd)). pose proof (lenZ_nonneg (pn_data nd)). pose proof (lenZ_nonneg (pn_pad nd)).
  unfold NODEKEY, NODEPGNO, mn_lo, mn_hi, mn_flags, mn_ksize. split.
  - rewrite (ld16_part _ _ _ _ _ Hr), H3 by lia. cbn [obind]. rewrite (read_part _ _ _ _ NODESIZE _ Hr) by (unfold NODESIZE; lia).
    unfold image. rewrite 3!app_assoc. apply read_app.
  - rewrite <- (Z.add_0_r p) at 1. rewrite !(ld16_part _ _ _ _ _ Hr), H0, H1, H2 by lia. done.
Qed.

Section update_key.
Context (mp : MDB_page) (ns : list (Z * pnode)) (indx ptr : Z) (nd : pnode) (delta : Z).
Hypothesis Hmp : page_rep mp ns.
Hypothesis Hi0 : 0 <= indx.
Hypothesis Hi : ns !! Z.to_nat indx = Some (ptr, nd).
Hypothesis Hdelta : - lenZ (pn_key nd) <= delta <= SIZELEFT mp.

(** The nodes up to the changed one have moved. *)
Record shifted (raw : bytes) : Prop := {
  sh_len : lenZ raw = lenZ (mp_raw mp);
  sh_ptr : forall i p ne, ns !! i = Some (p, ne) -> mp_ptr raw (Z.of_nat i) = Done (grown ptr delta p);
  sh_node : forall i p ne, ns !! i = Some (p, ne) -> Z.of_nat i <> indx ->
    blk_read raw (grown ptr delta p) (isize ne) = Done (image ne);
  sh_head : blk_read raw (ptr - delta) 8 = blk_read (mp_raw mp) ptr 8
}.
Lemma shift_nodes_ok :
  exists raw, (if delta =? 0 then Done (mp_raw mp, mp_upper mp)
     else
       olet! raw := shift_ptrs (Z.to_nat (NUMKEYS mp)) 0 ptr delta (mp_raw mp) in
       olet! d := blk_read raw (mp_upper mp) (ptr - mp_upper mp + NODESIZE) in
       olet! raw := blk_write raw (mp_upper mp - delta) d in
       Done (raw, u16 (mp_upper mp - delta))) = Done (raw, mp_upper mp - delta) /\ shifted raw.
Proof.
  pose proof (rep_ptr_range _ _ _ _ _ Hmp Hi) as (Hp & Hpe & Hs). pose proof (isize_eq nd) as His.
  pose proof (lenZ_nonneg (pn_data nd)) as N1. pose proof (lenZ_nonneg (pn_pad nd)) as N2. pose proof (lenZ_nonneg ns) as N3.
  pose proof (pr_lower _ _ Hmp) as Hlo. pose proof (pr_room _ _ Hmp) as Hroom. pose proof (pr_size _ _ Hmp) as Hsz.
  rewrite (SIZELEFT_rep _ _ Hmp) in Hdelta. rewrite (NUMKEYS_rep _ _ Hmp). destruct (Z.eqb_spec delta 0) as [E0|Hne].
  { exists (mp_raw mp). rewrite E0, Z.sub_0_r. split; [done|].
    constructor; rewrite ?E0, ?Z.sub_0_r; try done; intros i p ne Hn.
    - unfold grown. rewrite Z.sub_0_r, (pr_ptr _ _ Hmp _ _ _ Hn). by destruct (_ <=? _).
    - intros _. unfold grown. rewrite Z.sub_0_r. destruct (_ <=? _); by eapply pr_node. }
  set (ps := fun t => match ns !! Z.to_nat t with Some (p, _) => p | None => 0 end).
  destruct (shift_ptrs_ok (lenZ ns) ptr delta ps) with (n := Z.to_nat (lenZ ns)) (i := 0) (raw := mp_raw mp)
    as (raw1 & -> & L1 & _ & P1 & F1); [|lia|lia|pose proof (rep_upper _ _ Hmp); lia| |].
  { intros t Ht. destruct (lookup_page ns t Ht) as (p & ne & Hn). unfold ps. rewrite Hn.
    pose proof (rep_ptr_range _ _ _ _ _ Hmp Hn) as (? & ? & ?). split; [lia|].
    unfold grown. destruct (Z.leb_spec p ptr); lia. }
  { intros t Ht. destruct (lookup_page ns t Ht) as (p & ne & Hn). unfold ps. rewrite Hn.
    rewrite <- (pr_ptr _ _ Hmp _ _ _ Hn). f_equal. lia. }
  cbn [obind]. unfold NODESIZE.
  assert (Hd : exists d, blk_read raw1 (mp_upper mp) (ptr - mp_upper mp + 8) = Done d) by (rewrite blk_read_ok by lia; by eexists).
  destruct Hd as [d Hd]. rewrite Hd. cbn [obind]. pose proof (lenZ_blk_read _ _ _ _ Hd) as Ld.
  assert (Hw : exists raw2, blk_write raw1 (mp_upper mp - delta) d = Done raw2) by (rewrite blk_write_ok by lia; by eexists).
  destruct Hw as [raw2 Hw]. rewrite Hw. cbn [obind]. rewrite wrap_small by lia. exists raw2. split; [done|].
  assert (Hin : forall q m, mp_upper mp <= q -> 0 <= m -> q + m <= ptr + 8 -> blk_read raw2 (q - delta) m = blk_read (mp_raw mp) q m).
  { intros q m Hq Hm Hqm. rewrite (read_inside _ _ _ _ _ _ Hw) by lia.
    replace (q - delta - (mp_upper mp - delta)) with (q - mp_upper mp) by lia.
    rewrite <- (read_part _ _ _ _ _ _ Hd) by lia. rewrite F1 by lia. f_equal. lia. }
  constructor.
  - pose proof (lenZ_blk_write _ _ _ _ Hw). lia.
  - intros i p ne Hn. pose proof (lookup_lt_Some _ _ _ Hn) as Hlt.
    assert (Hil : Z.of_nat i < lenZ ns) by (unfold lenZ; lia).
    transitivity (mp_ptr raw1 (Z.of_nat i)); [eapply ld16_beside; [exact Hw|left; unfold ptr_pos, PAGEHDRSZ; lia]|].
    rewrite P1 by lia. unfold ps. by rewrite Nat2Z.id, Hn.
  - intros i p ne Hn Hni. pose proof (pr_node _ _ Hmp _ _ _ Hn) as Hr. pose proof (rep_ptr_range _ _ _ _ _ Hmp Hn) as (Hp' & _ & Hs').
    unfold grown. destruct (other_node mp ns _ i ptr p nd ne Hmp Hi Hn ltac:(lia)) as [[Hlt Hle]|Hge].
    + rewrite (proj2 (Z.leb_le p ptr)) by lia. by rewrite Hin by lia.
    + rewrite (proj2 (Z.leb_gt p ptr)) by lia. rewrite (read_beside _ _ _ _ _ _ Hw) by lia. by rewrite F1 by lia.
  - apply Hin; lia.
Qed.

(** The header of the changed node *)
Lemma head_field raw q : shifted raw -> 0 <= q -> q + 2 <= 8 -> ld16 raw (ptr - delta + q) = ld16 (image nd) q.
Proof.
  intros Hsh Hq Hq2. pose proof (rep_ptr_range _ _ _ _ _ Hmp Hi) as (Hp & Hpe & Hs). pose proof (lenZ_nonneg ns).
  assert (Hh : exists h, blk_read (mp_raw mp) ptr 8 = Done h) by (rewrite blk_read_ok by lia; by eexists). destruct Hh as [h Hh].
  pose proof (sh_head _ Hsh) as Hh'. rewrite Hh in Hh'. rewrite (ld16_part _ _ _ _ _ Hh') by done.
  rewrite <- (ld16_part _ _ _ _ _ Hh) by done. eapply field_read; [done|exact Hi|done|lia].
Qed.
Lemma write_key_ok raw key :
  shifted raw -> lenZ key < 2 ^ 16 -> delta = even_up (lenZ key - lenZ (pn_key nd)) ->
  exists raw', (olet! node := mp_ptr raw indx in
    olet! raw := (if lenZ key - lenZ (pn_key nd) =? 0 then Done raw else st16 raw (node + 6) (u16 (lenZ key))) in
    if lenZ key =? 0 then Done raw else blk_write raw (node + NODESIZE) key) = Done raw' /\ lenZ raw' = lenZ (mp_raw mp) /\
    forall i p ne, ns !! i = Some (p, ne) -> reads_node raw' (Z.of_nat i) (if bool_decide (Z.of_nat i = indx) then key else pn_key ne) (child_of ne).
Proof.
  intros Hsh Hk Ed. pose proof (rep_ptr_range _ _ _ _ _ Hmp Hi) as (Hp & Hpe & Hs). pose proof (isize_eq nd) as His.
  pose proof (lenZ_nonneg (pn_data nd)) as N1. pose proof (lenZ_nonneg (pn_pad nd)) as N2. pose proof (lenZ_nonneg ns) as N3.
  pose proof (pr_lower _ _ Hmp) as Hlo. rewrite (SIZELEFT_rep _ _ Hmp) in Hdelta. pose proof (sh_len _ Hsh) as L0.
  pose proof (lenZ_nonneg key) as N4. unfold even_up in Ed. pose proof (land_1_range (lenZ key - lenZ (pn_key nd))) as Hl1.
  pose proof (sh_ptr _ Hsh _ _ _ Hi) as Hptr. rewrite Z2Nat.id in Hptr by lia. unfold grown in Hptr. rewrite Z.leb_refl in Hptr.
  rewrite Hptr. cbn [obind]. set (node := ptr - delta) in *. destruct (pr_ok _ _ Hmp _ _ _ Hi) as [Hok _].
  assert (Hend : node + 8 + lenZ key <= ptr + isize nd) by (unfold node; lia).
  assert (H1 : exists r1, (if lenZ key - lenZ (pn_key nd) =? 0 then Done raw else st16 raw (node + 6) (u16 (lenZ key))) = Done r1 /\
    lenZ r1 = lenZ raw /\ mn_ksize r1 node = Done (lenZ key) /\ (forall q m, q + m <= node + 6 \/ node + 8 <= q -> blk_read r1 q m = blk_read raw q m)).
  { destruct (Z.eqb_spec (lenZ key - lenZ (pn_key nd)) 0) as [E|_].
    - exists raw. split; [done|]. split; [done|]. split; [|done]. destruct (image_fields _ _ Hok) as (_ & _ & _ & H3).
      unfold mn_ksize, node. rewrite head_field, H3 by (done || lia). f_equal. lia.
    - rewrite wrap_small by lia. assert (E : exists r1, st16 raw (node + 6) (lenZ key) = Done r1) by (unfold st16; rewrite blk_write_ok by (rewrite ?lenZ_le2; lia); by eexists).
      destruct E as [r1 E]. exists r1. split; [done|]. split; [by eapply lenZ_blk_write|]. split; [eapply ld16_st16; [exact E|lia]|].
      intros q m Hq. eapply read_beside; [exact E|]. rewrite lenZ_le2. lia. }
  destruct H1 as (r1 & -> & L1 & K1 & F1). cbn [obind]. unfold NODESIZE.
  assert (H2 : exists r2, (if lenZ key =? 0 then Done r1 else blk_write r1 (node + 8) key) = Done r2 /\ lenZ r2 = lenZ r1 /\
    blk_read r2 (node + 8) (lenZ key) = Done key /\ (forall q m, q + m <= node + 8 \/ node + 8 + lenZ key <= q -> blk_read r2 q m = blk_read r1 q m)).
  { destruct (Z.eqb_spec (lenZ key) 0) as [E|_].
    - exists r1. apply lenZ_zero_nil in E as ->. split; [done|]. split; [done|]. split; [rewrite blk_read_ok by (cbn; lia); done|done].
    - assert (E : exists r2, blk_write r1 (node + 8) key = Done r2) by (rewrite blk_write_ok by lia; by eexists).
      destruct E as [r2 E]. exists r2. split; [done|]. split; [by eapply lenZ_blk_write|]. split; [|intros q m Hq; by eapply read_beside].
      rewrite (read_inside _ _ _ _ _ _ E) by lia. rewrite Z.sub_diag. apply (read_val key). }
  destruct H2 as (r2 & -> & L2 & K2 & F2). exists r2. split; [done|]. split; [lia|]. intros i p ne Hn.
  assert (Hld : forall q, q + 2 <= node + 6 -> ld16 r2 q = ld16 raw q) by (intros q Hq; unfold ld16; by rewrite F2, F1 by lia).
  pose proof (lookup_lt_Some _ _ _ Hn) as Hlt. assert (Hil : Z.of_nat i < lenZ ns) by (unfold lenZ; lia).
  exists (grown ptr delta p). split.
  { unfold mp_ptr. rewrite Hld by (unfold ptr_pos, PAGEHDRSZ; lia). by eapply sh_ptr. } destruct (bool_decide_reflect (Z.of_nat i = indx)) as [Ei|Ei].
  - assert (Eq : ns !! Z.to_nat indx = Some (p, ne)) by (rewrite <- Ei, Nat2Z.id; done). rewrite Hi in Eq. injection Eq as <- <-.
    unfold grown. rewrite Z.leb_refl. fold node. unfold NODEKEY, NODEPGNO, mn_lo, mn_hi, mn_flags, mn_ksize, NODESIZE in *.
    rewrite (Hld node), (Hld (node + 2)), (Hld (node + 4)) by lia. destruct (image_fields _ _ Hok) as (H0 & H1 & H2 & _). split.
    + unfold ld16 at 1. rewrite F2 by lia. unfold ld16 in K1. rewrite K1. exact K2.
    + rewrite <- (Z.add_0_r node) at 1. unfold node. rewrite !head_field, H0, H1, H2 by (done || lia). done.
  - destruct (pr_ok _ _ Hmp _ _ _ Hn) as [Hokn _]. eapply image_reads; [|exact Hokn]. pose proof (sh_node _ Hsh _ _ _ Hn Ei) as Hr.
    rewrite F2, F1; [exact Hr|..]; destruct (other_node mp ns _ i ptr p nd ne Hmp Hi Hn ltac:(lia)) as [[Hlt' Hle]|Hge];
      unfold grown, node in *; destruct (Z.leb_spec p ptr); lia.
Qed.
End update_key.

(** What [mdb_update_key] answers: the page with the new key, every node read as
    before otherwise, or the page without the node if there is no room. *)
Definition updates (mp : MDB_page) (ns : list (Z * pnode)) (indx ptr : Z) (nd : pnode) (key : bytes) (u : update_result) : Prop :=
  match u with
  | Updated mp' =>
      even_up (lenZ key - lenZ (pn_key nd)) <= SIZELEFT mp /\ NUMKEYS mp' = NUMKEYS mp /\ mp_flags mp' = mp_flags mp /\
      forall i p ne, ns !! i = Some (p, ne) ->
        reads_node (mp_raw mp') (Z.of_nat i) (if bool_decide (Z.of_nat i = indx) then key else pn_key ne) (child_of ne)
  | Resplit mp' pgno =>
      SIZELEFT mp < even_up (lenZ key - lenZ (pn_key nd)) /\ pgno = child_of nd /\ page_rep mp' (deleted indx ptr (isize nd) ns)
  end.
Lemma update_key_ok mp ns indx ptr nd key :
  page_rep mp ns -> 0 <= indx -> ns !! Z.to_nat indx = Some (ptr, nd) -> lenZ key < 2 ^ 16 ->
  exists u, mdb_update_key mp indx key = Done u /\ updates mp ns indx ptr nd key u.
Proof.
  intros Hmp Hi0 Hi Hk. pose proof (pr_ptr _ _ Hmp _ _ _ Hi) as Hptr. rewrite Z2Nat.id in Hptr by lia.
  destruct (node_fields _ _ Hmp _ _ _ Hi) as (H0 & H1 & H2 & H3). unfold mdb_update_key. rewrite Hptr. cbn [obind]. rewrite H3. cbn [obind].
  set (delta0 := lenZ key - lenZ (pn_key nd)). change (delta0 + Z.land delta0 1) with (even_up delta0).
  assert (Hnn : 0 <= SIZELEFT mp) by (rewrite (SIZELEFT_rep _ _ Hmp); pose proof (pr_room _ _ Hmp); lia).
  destruct (Z.ltb_spec (SIZELEFT mp) (even_up delta0)) as [Hlt|Hge].
  - rewrite (proj2 (Z.ltb_lt 0 (even_up delta0))) by lia. cbn [andb]. unfold NODEPGNO. rewrite H0, H1, H2. cbn [obind].
    destruct (node_del_ok mp ns indx 0 ptr nd Hmp Hi0 Hi) as (mp' & -> & Hr & _). cbn [obind]. eexists. split; [done|]. by split.
  - rewrite andb_false_r. pose proof (land_1_range delta0). pose proof (lenZ_nonneg key).
    destruct (shift_nodes_ok mp ns indx ptr nd (even_up delta0) Hmp Hi0 Hi) as (raw1 & -> & Hsh); [unfold even_up, delta0 in *; lia|]. cbn [obind].
    destruct (write_key_ok mp ns indx ptr nd (even_up delta0) Hmp Hi0 Hi) with (raw := raw1) (key := key) as (raw2 & E & L & R);
      [unfold even_up, delta0 in *; lia|done|done|done|]. fold delta0 in E.
    destruct (mp_ptr raw1 indx) as [node|]; [|done]. cbn [obind] in E |- *. destruct (if delta0 =? 0 then _ else _) as [r|]; [|done]. cbn [obind] in E |- *.
    rewrite E. cbn [obind]. eexists. split; [done|]. cbn [updates page_with mp_raw mp_flags mp_lower]. fold delta0. split; [lia|].
    split; [|by split]. unfold NUMKEYS. cbn [page_with mp_lower]. rewrite wrap_small; [done|].
    pose proof (pr_lower _ _ Hmp). pose proof (pr_room _ _ Hmp). pose proof (rep_upper _ _ Hmp). pose proof (pr_size _ _ Hmp). pose proof (lenZ_nonneg ns). lia.
Qed.

(** ** Lemmas: two leaves side by side *)
Section leaves.
Context (nodemax psize : Z) (page_new : Z -> Z + Z).
Hypothesis Hpsize : 16 < psize.
Local Notation leaf := (leaf_page nodemax psize).

Lemma leaf_used mp ns : leaf mp ns -> PAGEFILL psize mp = 1000 * rooms (contents ns) / (psize - 16) /\ minkeys mp = 1 /\ NUMKEYS mp = lenZ ns.
Proof.
  intros [H1 _ H3 H4 _]. unfold PAGEFILL, minkeys, PAGEHDRSZ. rewrite (left_rooms _ _ _ H1 H4), H3, (NUMKEYS_rep _ _ H1).
  split; [|done]. do 2 f_equal. lia.
Qed.
Lemma fill_low mp ns : leaf mp ns -> PAGEFILL psize mp < FILL_THRESHOLD -> 4 * rooms (contents ns) < psize - 16.
Proof.
  intros H. destruct (leaf_used mp ns H) as (-> & _). unfold FILL_THRESHOLD. intros Hlt.
  assert (~ (psize - 16 <= 4 * rooms (contents ns))); [|lia]. intros Hge.
  assert (250 <= 1000 * rooms (contents ns) / (psize - 16)); [|lia]. apply Z.div_le_lower_bound; lia.
Qed.
Lemma too_empty mp ns :
  leaf mp ns -> (FILL_THRESHOLD <=? PAGEFILL psize mp) && (minkeys mp <=? NUMKEYS mp) = false -> 4 * rooms (contents ns) < psize - 16.
Proof.
  intros H. destruct (leaf_used mp ns H) as (_ & -> & ->). intros [Hf%Z.leb_gt|Hn%Z.leb_gt]%andb_false_iff; [by eapply fill_low|].
  pose proof (lenZ_nonneg ns). assert (ns = []) as -> by (apply lenZ_zero_nil; lia). cbn. lia.
Qed.
(** No node takes more than three quarters of a page. *)
Definition moderate (ns : list (Z * pnode)) : Prop := Forall (fun b => 4 * room b <= 3 * (psize - 16)) (contents ns).
Lemma mergeable mp ns :
  leaf mp ns -> moderate ns -> (FILL_THRESHOLD <=? PAGEFILL psize mp) && (minkeys mp <? NUMKEYS mp) = false -> 4 * rooms (contents ns) <= 3 * (psize - 16).
Proof.
  intros H Hm. destruct (leaf_used mp ns H) as (_ & -> & ->). intros [Hf%Z.leb_gt|Hn%Z.ltb_ge]%andb_false_iff.
  { pose proof (fill_low mp ns H Hf). pose proof (rooms_nonneg (contents ns)). lia. }
  unfold moderate in Hm. rewrite <- (lenZ_contents ns) in Hn. destruct (contents ns) as [|b [|c l]]; [cbn; lia| |rewrite !lenZ_cons in Hn; pose proof (lenZ_nonneg l); lia].
  apply Forall_cons_1 in Hm as [Hm _]. cbn. lia.
Qed.

Lemma merge_leaves src ms dst ns parent ps ki ptr nd lowest :
  leaf src ms -> leaf dst ns -> rooms (contents ns) + rooms (contents ms) <= psize - 16 ->
  page_rep parent ps -> 0 < ki -> ps !! Z.to_nat ki = Some (ptr, nd) ->
  exists dst' ns' parent', mdb_page_merge nodemax psize page_new src dst parent ki lowest = Done (Merged dst' (Updated parent') (mp_pgno src)) /\
    leaf dst' ns' /\ contents ns' = contents ns ++ contents ms /\ mp_pgno dst' = mp_pgno dst /\ page_rep parent' (deleted ki ptr (isize nd) ps).
Proof.
  intros Hs Hd Hroom Hp Hk Hi. unfold mdb_page_merge. rewrite (NUMKEYS_rep _ _ (lg_rep _ _ _ _ Hs)), (NUMKEYS_rep _ _ (lg_rep _ _ _ _ Hd)).
  unfold lenZ at 1. rewrite Nat2Z.id.
  destruct (merge_loop_ok nodemax psize page_new src ms lowest Hs (length ms) 0 dst ns) as (dst' & ns' & E & Hd' & Ec & Epg); [done|done|done|].
  change (Z.of_nat 0) with 0 in E. rewrite E. cbn [obind]. change (MDB_SUCCESS =? 0) with true. cbn [negb].
  destruct (node_del_ok parent ps ki 0 ptr nd Hp ltac:(lia) Hi) as (parent' & -> & Hr & _). cbn [obind].
  rewrite (proj2 (Z.eqb_neq ki 0)) by lia. cbn [obind]. by exists dst', ns', parent'.
Qed.

Lemma move_leaf src ms dst ns parent (i : nat) j ks kd p nd ls ld :
  leaf src ms -> leaf dst ns -> ms !! i = Some (p, nd) -> 0 <= j <= lenZ ns -> rooms (contents ns) + room (bare nd) <= psize - 16 ->
  exists src' ms' dst' ns', leaf src' ms' /\ leaf dst' ns' /\
    contents ms' = delete_at (Z.of_nat i) (contents ms) /\ contents ns' = insert_at j (bare nd) (contents ns) /\
    mdb_node_move nodemax psize page_new src dst parent (Z.of_nat i) j ks kd ls ld
    = olet! '(s, u) := (if Z.of_nat i =? 0 then new_separator ks src' (Updated parent) else Done (src', Updated parent)) in
      olet! '(d, u) := (if j =? 0 then new_separator kd dst' u else Done (dst', u)) in Done (Moved s d u).
Proof.
  intros Hs Hd Hi Hj Hroom. destruct (add_node_ok nodemax psize page_new dst ns src ms i p nd j ls Hd Hs Hi Hj Hroom)
    as (e & dst' & ns' & E1 & E2 & Hd' & Ec & _).
  destruct (del_leaf_page nodemax psize src ms i p nd (mv_size (en_key e)) Hs Hi) as (src' & ms' & E3 & Hs' & Ec').
  exists src', ms', dst', ns'. split; [done|]. split; [done|]. split; [done|]. split; [done|].
  unfold mdb_node_move. rewrite E1. cbn [obind]. rewrite (lg_branch _ _ _ _ Hd). cbn [andb obind]. rewrite E2. cbn [obind].
  change (MDB_SUCCESS =? 0) with true. cbn [negb]. rewrite E3. cbn [obind]. done.
Qed.
Lemma separator_none mp ns u : leaf mp ns -> new_separator 0 mp u = Done (mp, u).
Proof. intros H. unfold new_separator. rewrite (lg_branch _ _ _ _ H). by destruct u. Qed.
Lemma separator_leaf mp ns parent ps k ptr nd :
  leaf mp ns -> ns <> [] -> page_rep parent ps -> 0 < k -> ps !! Z.to_nat k = Some (ptr, nd) ->
  exists u, new_separator k mp (Updated parent) = Done (mp, u) /\ updates parent ps k ptr nd (page_key ns 0) u.
Proof.
  intros H Hne Hp Hk Hi. unfold new_separator, first_key_of. rewrite (proj2 (Z.eqb_neq k 0)), (lg_branch _ _ _ _ H) by lia.
  destruct (page_key_read mp ns 0 (lg_rep _ _ _ _ H)) as [-> Hl]; [destruct ns; [done|rewrite lenZ_cons; pose proof (lenZ_nonneg ns); lia]|].
  cbn [obind]. destruct (update_key_ok parent ps k ptr nd (page_key ns 0) Hp ltac:(lia) Hi Hl) as (u & -> & Hu). cbn [obind]. by exists u.
Qed.
End leaves.

(** Two leaves that are neighbours below [parent], the left one at [k] *)
Record siblings (nodemax psize : Z) (get : Z -> outcome MDB_page) (left right parent : MDB_page) (ls rs ps : list (Z * pnode)) (k : nat) (ptr : Z) (nr : pnode) : Prop := {
  sb_left : leaf_page nodemax psize left ls;
  sb_right : leaf_page nodemax psize right rs;
  sb_left_mod : moderate psize ls;
  sb_right_mod : moderate psize rs;
  sb_parent : page_rep parent ps;
  sb_entry_l : exists p nl, ps !! k = Some (p, nl) /\ get (child_of nl) = Done left;
  sb_entry_r : ps !! S k = Some (ptr, nr);
  sb_get_r : get (child_of nr) = Done right
}.
(** What rebalancing one of them leaves *)
Definition rebalanced (nodemax psize : Z) (right parent : MDB_page) (ls rs ps : list (Z * pnode)) (k : nat) (ptr : Z) (nr : pnode) (r : rebalance_result) : Prop :=
  match r with
  | ByMove from_right (Moved src dst u) =>
      exists ls' rs',
        leaf_page nodemax psize (if from_right then dst else src) ls' /\ leaf_page nodemax psize (if from_right then src else dst) rs' /\
        contents ls' ++ contents rs' = contents ls ++ contents rs /\ ls' <> [] /\ rs' <> [] /\
        updates parent ps (Z.of_nat k + 1) ptr nr (page_key rs' 0) u
  | ByMerge _ (Merged left' (Updated parent') freed) =>
      exists ls', leaf_page nodemax psize left' ls' /\ contents ls' = contents ls ++ contents rs /\
        page_rep parent' (deleted (Z.of_nat k + 1) ptr (isize nr) ps) /\ freed = mp_pgno right
  | _ => False
  end.
Lemma neighbour_read parent ps (i : nat) p nd (f : Z -> outcome rebalance_result) :
  page_rep parent ps -> ps !! i = Some (p, nd) ->
  (olet! ofs := mp_ptr (mp_raw parent) (Z.of_nat i) in olet! pg := NODEPGNO (mp_raw parent) ofs in f pg) = f (child_of nd).
Proof.
  intros H Hi. rewrite (pr_ptr _ _ H _ _ _ Hi). cbn [obind]. destruct (node_fields _ _ H _ _ _ Hi) as (H0 & H1 & H2 & _).
  unfold NODEPGNO. by rewrite H0, H1, H2.
Qed.
Lemma contents_nil ns : contents ns <> [] -> ns <> [].
Proof. by destruct ns. Qed.

Section rebalance.
Context (nodemax psize : Z) (page_new : Z -> Z + Z) (get : Z -> outcome MDB_page) (lowest : Z -> bytes).
Hypothesis Hpsize : 16 < psize.
Context (left right parent : MDB_page) (ls rs ps : list (Z * pnode)) (k : nat) (ptr : Z) (nr : pnode).
Hypothesis Hsib : siblings nodemax psize get left right parent ls rs ps k ptr nr.
Local Notation balance := (rebalanced nodemax psize right parent ls rs ps k ptr nr).
Local Notation low mp := ((FILL_THRESHOLD <=? PAGEFILL psize mp) && (minkeys mp <=? NUMKEYS mp) = false).

Lemma two_children : (1 <? NUMKEYS parent) = true.
Proof.
  destruct Hsib. rewrite (NUMKEYS_rep _ _ sb_parent0). pose proof (lookup_lt_Some _ _ _ sb_entry_r0). apply Z.ltb_lt. unfold lenZ. lia.
Qed.
(** The left page, the first of its parent, against its right neighbour *)
Lemma rebalance_first : k = 0%nat -> low left ->
  exists r, mdb_rebalance nodemax psize page_new left (Some (parent, 0)) get lowest = Done r /\ balance r.
Proof.
  intros Hk Hlow. unfold mdb_rebalance. rewrite Hlow, two_children. cbn [negb]. change (0 =? 0) with true. cbv iota.
  destruct Hsib as [HL HR ML MR HP _ HE HG]. subst k. change (0 + 1) with (Z.of_nat 1). rewrite (neighbour_read _ _ _ _ _ _ HP HE), HG. cbn [obind].
  pose proof (too_empty _ _ Hpsize _ _ HL Hlow) as Hl. destruct (_ && (_ <? _)) eqn:Hc.
  - destruct (leaf_used _ _ _ _ HR) as (_ & Em & En). rewrite Em, En in Hc. apply andb_prop in Hc as [_ Hc%Z.ltb_lt].
    destruct rs as [|[p nd] [|[p2 nd2] rs']]; [done|done|].
    assert (Hroom : rooms (contents ls) + room (bare nd) <= psize - 16) by (apply Forall_cons_1 in MR as [MR _]; cbn [snd] in MR; lia).
    destruct (move_leaf nodemax psize page_new right _ left ls parent 0 (NUMKEYS left) 1 0 p nd (lowest (mp_pgno right)) (lowest (mp_pgno left)) HR HL eq_refl)
      as (src' & ms' & dst' & ns' & Hs & Hd & Es & Ed & E); [destruct (leaf_used _ _ _ _ HL) as (_ & _ & ->); pose proof (lenZ_nonneg ls); lia|done|].
    change (Z.of_nat 0) with 0 in E. change (Z.of_nat 1) with 1. rewrite E. change (0 =? 0) with true. cbv iota.
    assert (Hne : ms' <> []) by (apply contents_nil; rewrite Es; done).
    destruct (separator_leaf nodemax psize src' ms' parent ps 1 ptr nr Hs Hne HP) as (u & -> & Hu); [lia|done|]. cbn [obind].
    assert (E2 : (if NUMKEYS left =? 0 then new_separator 0 dst' u else Done (dst', u)) = Done (dst', u)) by (destruct (NUMKEYS left =? 0); [exact (separator_none _ _ _ _ _ Hd)|done]).
    rewrite E2. cbn [obind]. eexists. split; [done|]. exists ns', ms'. split; [done|]. split; [done|].
    destruct (leaf_used _ _ _ _ HL) as (_ & _ & En'). rewrite En' in Ed. rewrite insert_at_end in Ed by (by rewrite lenZ_contents).
    split; [rewrite Ed, Es, <- app_assoc; done|]. split; [apply contents_nil; rewrite Ed; by destruct (contents ls)|by split].
  - pose proof (mergeable _ _ Hpsize _ _ HR MR Hc) as Hr.
    destruct (merge_leaves nodemax psize page_new right rs left ls parent ps 1 ptr nr (lowest (mp_pgno right)) HR HL) as (d & ns' & p' & E & Hd & Ec & _ & Hp');
      [lia|done|lia|done|]. change (Z.of_nat 1) with 1. rewrite E. cbn [obind]. eexists. split; [done|]. by exists ns'.
Qed.
(** The right page against its left neighbour *)
Lemma rebalance_other : low right ->
  exists r, mdb_rebalance nodemax psize page_new right (Some (parent, Z.of_nat k + 1)) get lowest = Done r /\ balance r.
Proof.
  intros Hlow. unfold mdb_rebalance. rewrite Hlow, two_children. cbn [negb]. rewrite (proj2 (Z.eqb_neq (Z.of_nat k + 1) 0)) by lia.
  destruct Hsib as [HL HR ML MR HP (pl & nl & HEl & HGl) HE HG]. replace (Z.of_nat k + 1 - 1) with (Z.of_nat k) by lia.
  rewrite (neighbour_read _ _ _ _ _ _ HP HEl), HGl. cbn [obind]. assert (Hk : Z.to_nat (Z.of_nat k + 1) = S k) by lia.
  pose proof (too_empty _ _ Hpsize _ _ HR Hlow) as Hr. destruct (_ && (_ <? _)) eqn:Hc.
  - destruct (leaf_used _ _ _ _ HL) as (_ & Em & En). rewrite Em, En in Hc. rewrite En. apply andb_prop in Hc as [_ Hc%Z.ltb_lt].
    destruct ls as [|[p nd] ls0 _] using rev_ind; [done|]. rewrite lenZ_app, lenZ_cons, lenZ_nil in Hc |- *. replace (lenZ ls0 + (1 + 0) - 1) with (Z.of_nat (length ls0)) by (unfold lenZ; lia).
    assert (Hroom : rooms (contents rs) + room (bare nd) <= psize - 16).
    { unfold moderate in ML. rewrite contents_app in ML. apply Forall_app in ML as [_ [ML _]%Forall_cons_1]. cbn [snd] in ML. lia. }
    destruct (move_leaf nodemax psize page_new left _ right rs parent (length ls0) 0 (Z.of_nat k) (Z.of_nat k + 1) p nd (lowest (mp_pgno left)) (lowest (mp_pgno right)) HL HR)
      as (src' & ms' & dst' & ns' & Hs & Hd & Es & Ed & E); [by apply list_lookup_middle|pose proof (lenZ_nonneg rs); lia|done|].
    rewrite E. change (0 =? 0) with true. cbv iota. rewrite (proj2 (Z.eqb_neq (Z.of_nat (length ls0)) 0)) by (unfold lenZ in Hc; lia). cbn [obind].
    assert (Hne : ns' <> []) by (apply contents_nil; rewrite Ed; done).
    destruct (separator_leaf nodemax psize dst' ns' parent ps (Z.of_nat k + 1) ptr nr Hd Hne HP) as (u & -> & Hu); [lia|by rewrite Hk|]. cbn [obind].
    assert (Es' : contents ms' = contents ls0).
    { rewrite Es, contents_app. assert (El : Z.of_nat (length ls0) = lenZ (contents ls0)) by (by rewrite lenZ_contents).
      unfold delete_at. rewrite takeZ_app_eq by done. unfold dropZ. rewrite drop_ge; [apply app_nil_r|]. rewrite El, length_app. cbn. unfold lenZ. lia. }
    eexists. split; [done|]. exists ms', ns'. split; [done|]. split; [done|]. split; [rewrite Es', Ed, contents_app, <- app_assoc; done|].
    split; [apply contents_nil; rewrite Es'|by split]. destruct ls0; [done|done].
  - pose proof (mergeable _ _ Hpsize _ _ HL ML Hc) as Hl.
    destruct (merge_leaves nodemax psize page_new right rs left ls parent ps (Z.of_nat k + 1) ptr nr (lowest (mp_pgno right)) HR HL) as (d & ns' & p' & E & Hd & Ec & _ & Hp');
      [lia|done|lia|by rewrite Hk|]. rewrite E. cbn [obind]. eexists. split; [done|]. by exists ns'.
Qed.
End rebalance.

(** ** Rebalancing *)

(** C10: rebalancing two leaves never loses, copies or reorders a record, and
    never fails: for every two leaves that are neighbours below a parent, with
    nodes of at most three quarters of a page (data that would take more than
    half of one goes to overflow pages), [mdb_rebalance] of either of them leaves the
    tree alone if the page is a quarter full and not empty; otherwise it moves
    one node over, after which both pages have nodes, the nodes from left to
    right are those from before and the parent's key for the right page is that
    page's first key (or the parent lost that entry and is to be split for want
    of room), or it puts all nodes on the left page, in order, removes the right
    page's entry from the parent and gives the right page's number to be freed.
    There is always room for what is moved, and no access outside a page. *)
Theorem rebalance_leaves_correct (nodemax psize : Z) (page_new : Z -> Z + Z) (get : Z -> outcome MDB_page) (lowest : Z -> bytes)
    (left right parent : MDB_page) (ls rs ps : list (Z * pnode)) (k : nat) (ptr : Z) (nr : pnode) (at_left : bool) :
  16 < psize -> siblings nodemax psize get left right parent ls rs ps k ptr nr -> (at_left = true -> k = 0%nat) ->
  let mp := if at_left then left else right in
  exists r, mdb_rebalance nodemax psize page_new mp (Some (parent, if at_left then 0 else Z.of_nat k + 1)) get lowest = Done r /\
    if (FILL_THRESHOLD <=? PAGEFILL psize mp) && (1 <=? NUMKEYS mp) then r = Enough
    else rebalanced nodemax psize right parent ls rs ps k ptr nr r.
Proof.
  intros Hp Hs Hk mp. assert (Hm : minkeys mp = 1).
  { destruct Hs as [HL HR _ _ _ _ _ _]. unfold mp. destruct at_left; eapply leaf_used; eassumption. }
  destruct (_ && (1 <=? _)) eqn:Hc.
  - exists Enough. split; [|done]. unfold mdb_rebalance. by rewrite Hm, Hc.
  - rewrite <- Hm in Hc. unfold mp in *. destruct at_left; [apply (rebalance_first _ _ _ _ _ Hp _ _ _ _ _ _ _ _ _ Hs); auto|exact (rebalance_other _ _ _ _ _ Hp _ _ _ _ _ _ _ _ _ Hs Hc)].
Qed.
(** A page with its nodes side by side at its end *)
Fixpoint offsets (ofs : Z) (l : list pnode) : list (Z * pnode) :=
  match l with [] => [] | nd :: l => (ofs, nd) :: offsets (ofs + isize nd) l end.
Definition laid_out (psize pgno flags : Z) (l : list pnode) : MDB_page :=
  let body := concat (map image l) in
  let upper := psize - lenZ body in
  let head := zeros 16 ++ concat (map (fun x => le2 x.1) (offsets upper l)) in
  {| mp_pgno := pgno; mp_flags := flags; mp_lower := lenZ head; mp_upper := upper; mp_raw := head ++ zeros (upper - lenZ head) ++ body |}.
Definition some_left : MDB_page := laid_out 96 10 18 [demo_node [97] [1] []].
Definition some_right : MDB_page := laid_out 96 11 18 [demo_node [98] [2] []; demo_node [99] [3] []].
Definition some_parent : MDB_page := laid_out 96 12 17 [branch_node 10 [] []; branch_node 11 [98] [0]].
Ltac solve_rep :=
  constructor; try done;
  [ intros [|[|i]] p nd; (by intros [= <- <-]) || done
  | intros [|[|i]] p nd; (by intros [= <- <-]; split; [constructor|]) || done
  | intros [|[|i]] p nd; (by intros [= <- <-]) || done
  | intros [|[|i]] [|[|j]] p q nd ne Hij; try done; intros Hi Hj; (by destruct i) || (by destruct j) ||
      (injection Hi as <- <-; injection Hj as <- <-; vm_compute; intuition discriminate) ].
Lemma some_siblings :
  siblings 40 96 (fun pg => Done (if pg =? 10 then some_left else some_right)) some_left some_right some_parent
    [(86, demo_node [97] [1] [])] [(76, demo_node [98] [2] []); (86, demo_node [99] [3] [])]
    [(78, branch_node 10 [] []); (86, branch_node 11 [98] [0])] 0 86 (branch_node 11 [98] [0]).
Proof.
  constructor; [constructor; [solve_rep|done|done|done|]|constructor; [solve_rep|done|done|done|]|..|solve_rep| |done|done].
  - by repeat constructor; right.
  - by repeat constructor; right.
  - by repeat constructor.
  - by repeat constructor.
  - by eexists 78, _.
Qed.
Lemma rebalance_leaves_correct_witness :
  exists r, mdb_rebalance 40 96 (fun _ => inl 12) some_left (Some (some_parent, 0)) (fun pg => Done (if pg =? 10 then some_left else some_right)) (fun _ => []) = Done r /\
    if (FILL_THRESHOLD <=? PAGEFILL 96 some_left) && (1 <=? NUMKEYS some_left) then r = Enough
    else rebalanced 40 96 some_right some_parent [(86, demo_node [97] [1] [])] [(76, demo_node [98] [2] []); (86, demo_node [99] [3] [])]
      [(78, branch_node 10 [] []); (86, branch_node 11 [98] [0])] 0 86 (branch_node 11 [98] [0]) r.
Proof. apply (rebalance_leaves_correct 40 96 (fun _ => inl 12) _ (fun _ => []) some_left some_right some_parent _ _ _ 0 86 _ true); [done|apply some_siblings|done]. Defined.

(** The move in the example: the parent's key becomes the right page's new first
    key. *)
Example rebalance_moves :
  match mdb_rebalance 40 96 (fun _ => inl 12) some_left (Some (some_parent, 0)) (fun pg => Done (if pg =? 10 then some_left else some_right)) (fun _ => []) with
  | Done (ByMove true (Moved src dst (Updated p))) => (first_key_of src, NUMKEYS dst, SIZELEFT p)
  | _ => (Done [], 0, 0)
  end = (Done [99], 2, SIZELEFT some_parent).
Proof. vm_compute. reflexivity. Qed.
(** The room of a key that goes from an odd to an even length is not given back,
    and comes off again when it grows: the same two keys, written in turn, take
    two more bytes of the page each time. *)
Example update_key_leaks :
  match mdb_update_key some_parent 1 [99; 99] with
  | Done (Updated p1) =>
      match mdb_update_key p1 1 [98] with
      | Done (Updated p2) =>
          match mdb_update_key p2 1 [99; 99] with
          | Done (Updated p3) =>
              match mdb_update_key p3 1 [98] with Done (Updated p4) => [SIZELEFT some_parent; SIZELEFT p1; SIZELEFT p2; SIZELEFT p3; SIZELEFT p4] | _ => [] end
          | _ => []
          end
      | _ => []
      end
  | _ => []
  end = [58; 56; 56; 54; 54].
Proof. vm_compute. reflexivity. Qed.
