(* ===== verification/Cursor.v ===== *)
(** * Cursor: moving through the B+tree of lib/lmdb/mdb.c

    A cursor is a stack of pages, from the root to a leaf, with an index into
    each of them.  This file models how a page number becomes a page
    ([mdb_page_get]), the descent from the root ([mdb_page_search]), the moves
    to a neighbouring page ([mdb_cursor_sibling]) and the operations of
    [mdb_cursor_get], for the databases FineDB uses: those without duplicates
    (no [mc_xcursor]), opened with an up-to-date root.

    A page is reached through a pointer into the memory map or to a block of
    its own (a page written by the transaction); both are kept in the state of
    the transaction.  The descent for writing makes each page it visits
    writable: that operation, [mdb_page_touch], is an argument here. *)
From S2P Require Import Prelude.
From S2P Require Import Lmdb Midl.
From S2P Require Import Pages LeafMap.

Definition P_INVALID : Z := 2 ^ 64 - 1.
Definition F_DUPDATA : Z := 0x04.
Definition MDB_CORRUPTED : Z := -30796.
Definition CURSOR_STACK : Z := 32.

(** ** State *)

(** A pointer to a page: into the memory map, or to an allocated block. *)
Inductive pref := Mapped (pgno : Z) | Malloced (a : Z).
#[export] Instance pref_eq_dec : EqDecision pref.
Proof. solve_decision. Defined.

(** What the page layer uses of the transaction and of its environment; the
    dirty lists are those of the transaction and of its parents, in order. *)
Record ptxn := {
  pt_rdonly : bool;
  pt_writemap : bool;
  pt_error : bool;
  pt_dirty : list (list MDB_ID2);
  pt_next_pgno : Z;
  pt_map : gmap Z MDB_page;
  pt_heap : gmap Z MDB_page
}.
Record MDB_db := {
  md_pad : Z;
  md_depth : Z;
  md_branch_pages : Z;
  md_leaf_pages : Z;
  md_overflow_pages : Z;
  md_entries : Z;
  md_root : Z
}.
Record MDB_cursor := {
  mc_snum : Z;
  mc_top : Z;
  mc_init : bool;              (* C_INITIALIZED *)
  mc_eof : bool;               (* C_EOF *)
  mc_pg : list (option pref);  (* CURSOR_STACK cells *)
  mc_ki : list Z
}.
(** The cursor with the transaction and the database it works on. *)
Record cstate := {
  cs_txn : ptxn;
  cs_db : MDB_db;
  cs_cmp : cmp_func;
  cs_mc : MDB_cursor
}.

Definition mdb_cursor_init (pg : list (option pref)) (ki : list Z) : MDB_cursor :=
  {| mc_snum := 0; mc_top := 0; mc_init := false; mc_eof := false; mc_pg := <[0%nat := None]> pg; mc_ki := ki |}.

Definition set_mc (mc : MDB_cursor) (s : cstate) : cstate :=
  {| cs_txn := cs_txn s; cs_db := cs_db s; cs_cmp := cs_cmp s; cs_mc := mc |}.
Definition modify_mc (f : MDB_cursor -> MDB_cursor) : CM cstate unit := fun s => Done (tt, set_mc (f (cs_mc s)) s).
Definition with_stack (snum top : Z) (mc : MDB_cursor) : MDB_cursor :=
  {| mc_snum := snum; mc_top := top; mc_init := mc_init mc; mc_eof := mc_eof mc; mc_pg := mc_pg mc; mc_ki := mc_ki mc |}.
Definition with_flags (init eof : bool) (mc : MDB_cursor) : MDB_cursor :=
  {| mc_snum := mc_snum mc; mc_top := mc_top mc; mc_init := init; mc_eof := eof; mc_pg := mc_pg mc; mc_ki := mc_ki mc |}.
Definition with_pg (pg : list (option pref)) (mc : MDB_cursor) : MDB_cursor :=
  {| mc_snum := mc_snum mc; mc_top := mc_top mc; mc_init := mc_init mc; mc_eof := mc_eof mc; mc_pg := pg; mc_ki := mc_ki mc |}.
Definition with_ki (ki : list Z) (mc : MDB_cursor) : MDB_cursor :=
  {| mc_snum := mc_snum mc; mc_top := mc_top mc; mc_init := mc_init mc; mc_eof := mc_eof mc; mc_pg := mc_pg mc; mc_ki := ki |}.

(** ** Pages *)

(** The page behind a pointer. *)
Definition page_at (t : ptxn) (p : pref) : outcome MDB_page :=
  match (match p with Mapped n => pt_map t !! n | Malloced a => pt_heap t !! a end) with
  | Some mp => Done mp
  | None => Fault HeapOverflow
  end.

(** The search in the dirty lists: the block and its level, from 1 on. *)
Fixpoint dirty_get (dls : list (list MDB_ID2)) (pgno level : Z) : outcome (option (pref * Z)) :=
  match dls with
  | [] => Done None
  | dl :: dls =>
      olet! h := get dl 0 in
      olet! hit :=
        (if negb (h.1 =? 0) then
           olet! x := mdb_mid2l_search dl pgno in
           if x <=? h.1 then olet! v := get dl x in Done (if v.1 =? pgno then Some v.2 else None)
           else Done None
         else Done None) in
      match hit with
      | Some a => Done (Some (Malloced a, level))
      | None => dirty_get dls pgno (level + 1)
      end
  end.
Definition mdb_page_get (t : ptxn) (pgno : Z) : outcome (pref * Z) :=
  olet! hit := (if pt_rdonly t || pt_writemap t then Done None else dirty_get (pt_dirty t) pgno 1) in
  match hit with
  | Some r => Done r
  | None => if pgno <? pt_next_pgno t then Done (Mapped pgno, 0) else Fault AssertFailed
  end.
(** The bytes of an overflow page, as [mdb_node_read] asks for them. *)
Definition overflow_bytes (t : ptxn) (pgno : Z) : outcome (Z + bytes) :=
  olet! '(p, _) := mdb_page_get t pgno in
  olet! mp := page_at t p in
  Done (inr (dropZ PAGEHDRSZ (mp_raw mp))).

(** ** The stack *)
Definition read_pg (i : Z) : CM cstate pref := fun s =>
  olet! p := get (mc_pg (cs_mc s)) i in
  match p with None => Fault NullDeref | Some p => Done (p, s) end.
Definition read_page (i : Z) : CM cstate MDB_page :=
  let! p := read_pg i in fun s => olet! mp := page_at (cs_txn s) p in Done (mp, s).
Definition read_ki (i : Z) : CM cstate Z := fun s => olet! v := get (mc_ki (cs_mc s)) i in Done (v, s).
Definition write_ki (i v : Z) : CM cstate unit := fun s =>
  olet! ki := put (mc_ki (cs_mc s)) i (u16 v) in Done (tt, set_mc (with_ki ki (cs_mc s)) s).
Definition write_pg (i : Z) (p : pref) : CM cstate unit := fun s =>
  olet! pg := put (mc_pg (cs_mc s)) i (Some p) in Done (tt, set_mc (with_pg pg (cs_mc s)) s).
Definition top : CM cstate Z := fun s => Done (mc_top (cs_mc s), s).
Definition top_page : CM cstate MDB_page := let! t := top in read_page t.
Definition top_ki : CM cstate Z := let! t := top in read_ki t.
Definition set_top_ki (v : Z) : CM cstate unit := let! t := top in write_ki t v.
Definition page_get (pgno : Z) : CM cstate pref := fun s =>
  olet! '(p, _) := mdb_page_get (cs_txn s) pgno in Done (p, s).

Definition mdb_cursor_pop : CM cstate unit :=
  modify_mc (fun mc =>
    if mc_snum mc =? 0 then mc
    else with_stack (mc_snum mc - 1) (if mc_snum mc - 1 =? 0 then mc_top mc else mc_top mc - 1) mc).
Definition mdb_cursor_push (p : pref) : CM cstate Z :=
  let! s := cget in
  let n := mc_snum (cs_mc s) in
  if CURSOR_STACK <=? n then cfault AssertFailed
  else
    do! modify_mc (with_stack (n + 1) n) in
    do! write_pg n p in
    do! write_ki n 0 in
    cret MDB_SUCCESS.

(** [mdb_node_search] on the top page: the index goes to the cursor. *)
Definition cursor_node_search (key : bytes) : CM cstate (option Z * bool) :=
  let! mp := top_page in
  let! s := cget in
  let! '(node, i, exact) := clift (mdb_node_search mp (cs_cmp s) (md_pad (cs_db s)) key) in
  do! set_top_ki i in
  cret (node, exact).

(** ** The descent *)

(** A null key asks for the first page, a key that is too long and has no bytes
    for the last one. *)
Inductive skey := KFirst | KLast | KKey (k : bytes).

Section search.
Variable mdb_page_touch : CM cstate Z.

Definition search_index (key : skey) (mp : MDB_page) : CM cstate Z :=
  match key with
  | KFirst => cret 0
  | KLast => cret (NUMKEYS mp - 1)
  | KKey k =>
      let! '(node, exact) := cursor_node_search k in
      match node with
      | None => cret (NUMKEYS mp - 1)
      | Some _ =>
          let! i := top_ki in
          if (exact : bool) then cret i else if i <=? 0 then cfault AssertFailed else cret (i - 1)
      end
  end.
(** [while (IS_BRANCH(mp))]; every turn pushes a page, so the stack bounds the
    number of turns. *)
Fixpoint search_loop (fuel : nat) (key : skey) (modify : bool) (mp : MDB_page) : CM cstate Z :=
  if negb (IS_BRANCH mp) then cret (if IS_LEAF mp then MDB_SUCCESS else MDB_CORRUPTED)
  else match fuel with
  | O => cfault OutOfFuel
  | S fuel =>
      if NUMKEYS mp <=? 1 then cfault AssertFailed
      else
        let! i := search_index key mp in
        if NUMKEYS mp <=? i then cfault AssertFailed
        else
          let! ofs := clift (mp_ptr (mp_raw mp) i) in
          let! pgno := clift (NODEPGNO (mp_raw mp) ofs) in
          let! p := page_get pgno in
          do! set_top_ki i in
          do! mdb_cursor_push p in
          let! rc := (if modify then mdb_page_touch else cret MDB_SUCCESS) in
          if negb (rc =? 0) then cret rc
          else let! mp := top_page in search_loop fuel key modify mp
  end.
Definition mdb_page_search_root (key : skey) (modify : bool) : CM cstate Z :=
  let! mp := top_page in search_loop (S (Z.to_nat CURSOR_STACK)) key modify mp.

Definition mdb_page_search_lowest : CM cstate Z :=
  let! mp := top_page in
  let! ofs := clift (mp_ptr (mp_raw mp) 0) in
  let! pgno := clift (NODEPGNO (mp_raw mp) ofs) in
  let! p := page_get pgno in
  do! set_top_ki 0 in
  do! mdb_cursor_push p in
  mdb_page_search_root KFirst false.

(** The root page is fetched unless the cursor has it already. *)
Definition fetch_root (root : Z) : CM cstate unit :=
  let! s := cget in
  let! p0 := clift (get (mc_pg (cs_mc s)) 0) in
  let! have := (match p0 with
                | None => cret false
                | Some p => let! mp := clift (page_at (cs_txn s) p) in cret (mp_pgno mp =? root)
                end) in
  if (have : bool) then cret tt else let! p := page_get root in write_pg 0 p.
Definition mdb_page_search (key : skey) (modify rootonly : bool) : CM cstate Z :=
  let! s := cget in
  if pt_error (cs_txn s) then cret EINVAL
  else
    let root := md_root (cs_db s) in
    if root =? P_INVALID then cret MDB_NOTFOUND
    else if root <=? 1 then cfault AssertFailed
    else
      do! fetch_root root in
      do! modify_mc (with_stack 1 0) in
      let! rc := (if modify then mdb_page_touch else cret MDB_SUCCESS) in
      if negb (rc =? 0) then cret rc
      else if rootonly then cret MDB_SUCCESS
      else mdb_page_search_root key modify.
End search.
(** Searches that do not write. *)
Definition no_touch : CM cstate Z := cret MDB_SUCCESS.

(** ** Neighbours *)
(** From the parent, whose index is set, into the neighbour. *)
Definition sibling_enter (move_right : bool) : CM cstate Z :=
  let! mp := top_page in
  if negb (IS_BRANCH mp) then cfault AssertFailed
  else
    let! i := top_ki in
    let! ofs := clift (mp_ptr (mp_raw mp) i) in
    let! pgno := clift (NODEPGNO (mp_raw mp) ofs) in
    let! p := page_get pgno in
    do! mdb_cursor_push p in
    do! (if move_right then cret tt
         else let! mp := top_page in set_top_ki (NUMKEYS mp - 1)) in
    cret MDB_SUCCESS.
Fixpoint sibling (fuel : nat) (move_right : bool) : CM cstate Z :=
  let! s := cget in
  if mc_snum (cs_mc s) <? 2 then cret MDB_NOTFOUND
  else match fuel with
  | O => cfault OutOfFuel
  | S fuel =>
      do! mdb_cursor_pop in
      let! i := top_ki in
      let! mp := top_page in
      let! rc :=
        (if (if move_right then NUMKEYS mp <=? i + 1 else i =? 0) then
           let! rc := sibling fuel move_right in
           if negb (rc =? MDB_SUCCESS) then
             do! modify_mc (fun mc => with_stack (mc_snum mc + 1) (mc_top mc + 1) mc) in cret rc
           else cret MDB_SUCCESS
         else do! set_top_ki (if move_right then i + 1 else i - 1) in cret MDB_SUCCESS) in
      if negb (rc =? MDB_SUCCESS) then cret rc else sibling_enter move_right
  end.
Definition mdb_cursor_sibling (move_right : bool) : CM cstate Z := sibling (Z.to_nat CURSOR_STACK) move_right.

(** ** Reading the current node *)

(** The key and the data that an operation returns; a caller that passes a null
    pointer for the data gets none. *)
Record item := { it_key : bytes; it_data : option bytes }.
Definition leaf2_key (mp : MDB_page) (i : Z) : CM cstate item :=
  let! s := cget in
  let! k := clift (blk_read (mp_raw mp) (LEAF2KEY i (md_pad (cs_db s))) (md_pad (cs_db s))) in
  cret {| it_key := k; it_data := None |}.
(** [mdb_node_read] through the pages of the transaction. *)
Definition node_read (mp : MDB_page) (ofs : Z) : CM cstate (Z * bytes) :=
  let! s := cget in clift (mdb_node_read (overflow_bytes (cs_txn s)) (mp_raw mp) ofs).
(** From the leaf node on: a node with duplicates is used with a sub-cursor,
    which such a database does not have.  [dup] says whether the code looks at
    the flag when the caller wants no data. *)
Definition read_leaf (mp : MDB_page) (ofs : Z) (want dup : bool) : CM cstate (Z * option item) :=
  let! fl := clift (mn_flags (mp_raw mp) ofs) in
  if F_ISSET fl F_DUPDATA && (want || dup) then cfault NullDeref
  else
    let! '(rc, d) := (if want then let! '(rc, d) := node_read mp ofs in cret (rc, Some d)
                      else cret (MDB_SUCCESS, None)) in
    if negb (rc =? MDB_SUCCESS) then cret (rc, None)
    else
      let! k := clift (NODEKEY (mp_raw mp) ofs) in
      cret (MDB_SUCCESS, Some {| it_key := k; it_data := d |}).
Definition read_current (want dup : bool) : CM cstate (Z * option item) :=
  let! mp := top_page in
  let! i := top_ki in
  if IS_LEAF2 mp then let! it := leaf2_key mp i in cret (MDB_SUCCESS, Some it)
  else let! ofs := clift (mp_ptr (mp_raw mp) i) in read_leaf mp ofs want dup.
(** [assert(IS_LEAF(mp))] on a page that is not [IS_LEAF2] *)
Definition check_leaf : CM cstate unit :=
  let! mp := top_page in
  if IS_LEAF2 mp || IS_LEAF mp then cret tt else cfault AssertFailed.

(** ** Operations of a cursor *)
Definition mdb_cursor_next (want : bool) : CM cstate (Z * option item) :=
  let! s := cget in
  if mc_eof (cs_mc s) then cret (MDB_NOTFOUND, None)
  else if negb (mc_init (cs_mc s)) then cfault AssertFailed
  else
    let! mp := top_page in
    let! i := top_ki in
    let! ok :=
      (if NUMKEYS mp <=? i + 1 then
         let! rc := mdb_cursor_sibling true in
         if negb (rc =? MDB_SUCCESS) then do! modify_mc (with_flags false true) in cret false
         else cret true
       else do! set_top_ki (i + 1) in cret true) in
    if (ok : bool) then do! check_leaf in read_current want true else cret (MDB_NOTFOUND, None).

Definition mdb_cursor_prev (want : bool) : CM cstate (Z * option item) :=
  let! s := cget in
  if negb (mc_init (cs_mc s)) then cfault AssertFailed
  else
    let! i := top_ki in
    let! ok :=
      (if i =? 0 then
         let! rc := mdb_cursor_sibling false in
         if negb (rc =? MDB_SUCCESS) then
           do! modify_mc (fun mc => with_flags false (mc_eof mc) mc) in cret false
         else let! mp := top_page in do! set_top_ki (NUMKEYS mp - 1) in cret true
       else do! set_top_ki (i - 1) in cret true) in
    if (ok : bool) then
      do! modify_mc (fun mc => with_flags (mc_init mc) false mc) in
      do! check_leaf in
      read_current want true
    else cret (MDB_NOTFOUND, None).

Definition mdb_cursor_first (want : bool) : CM cstate (Z * option item) :=
  let! s := cget in
  let! rc := (if negb (mc_init (cs_mc s)) || negb (mc_top (cs_mc s) =? 0)
              then mdb_page_search no_touch KFirst false false else cret MDB_SUCCESS) in
  if negb (rc =? MDB_SUCCESS) then cret (rc, None)
  else
    let! mp := top_page in
    if negb (IS_LEAF mp) then cfault AssertFailed
    else
      do! modify_mc (with_flags true false) in
      do! set_top_ki 0 in
      read_current want false.

Definition mdb_cursor_last (want : bool) : CM cstate (Z * option item) :=
  let! s := cget in
  let! rc :=
    (if negb (mc_eof (cs_mc s)) then
       let! rc := (if negb (mc_init (cs_mc s)) || negb (mc_top (cs_mc s) =? 0)
                   then mdb_page_search no_touch KLast false false else cret MDB_SUCCESS) in
       if negb (rc =? MDB_SUCCESS) then cret rc
       else let! mp := top_page in if negb (IS_LEAF mp) then cfault AssertFailed else cret MDB_SUCCESS
     else cret MDB_SUCCESS) in
  if negb (rc =? MDB_SUCCESS) then cret (rc, None)
  else
    let! mp := top_page in
    do! set_top_ki (NUMKEYS mp - 1) in
    do! modify_mc (with_flags true true) in
    read_current want false.

(** ** Setting a cursor on a key *)
Inductive MDB_cursor_op :=
  | MDB_FIRST | MDB_FIRST_DUP | MDB_GET_BOTH | MDB_GET_BOTH_RANGE | MDB_GET_CURRENT | MDB_GET_MULTIPLE
  | MDB_LAST | MDB_LAST_DUP | MDB_NEXT | MDB_NEXT_DUP | MDB_NEXT_MULTIPLE | MDB_NEXT_NODUP
  | MDB_PREV | MDB_PREV_DUP | MDB_PREV_NODUP | MDB_SET | MDB_SET_KEY | MDB_SET_RANGE.
#[export] Instance MDB_cursor_op_eq_dec : EqDecision MDB_cursor_op.
Proof. solve_decision. Defined.

(** Where the shortcut for a cursor that is already on a page leads to. *)
Inductive shortcut :=
  | GotoSet1            (* the index of the cursor is that of the key *)
  | GotoSet2            (* the page is the right one *)
  | Stop                (* the key is not there *)
  | Search.             (* from the root *)

(** The key at index [i] of the page, compared with [key]. *)
Definition compare_at (key : bytes) (mp : MDB_page) (i : Z) : CM cstate Z :=
  let! s := cget in
  let pad := md_pad (cs_db s) in
  let! k := clift (if F_ISSET (mp_flags mp) P_LEAF2 then blk_read (mp_raw mp) (LEAF2KEY i pad) pad
                   else olet! ofs := mp_ptr (mp_raw mp) i in NODEKEY (mp_raw mp) ofs) in
  clift (run_cmp (cs_cmp s) key k).
(** [for (i=0; i<mc_top; i++) if (mc_ki[i] < NUMKEYS(mc_pg[i])-1) break;] *)
Fixpoint right_sibs (n : nat) (i : Z) : CM cstate bool :=
  match n with
  | O => cret false
  | S n =>
      let! ki := read_ki i in
      let! mp := read_page i in
      if ki <? NUMKEYS mp - 1 then cret true else right_sibs n (i + 1)
  end.
Definition already_there (key : bytes) : CM cstate shortcut :=
  let! mp := top_page in
  let nkeys := NUMKEYS mp in
  if nkeys =? 0 then do! set_top_ki 0 in cret Stop
  else
    let! rc := compare_at key mp 0 in
    if rc =? 0 then do! set_top_ki 0 in cret GotoSet1
    else
      let! t := top in
      let only := if t =? 0 then do! set_top_ki 0 in cret Stop else cret Search in
      if 0 <? rc then
        let parents :=
          let! sibs := right_sibs (Z.to_nat t) 0 in
          if (sibs : bool) then only else do! set_top_ki nkeys in cret Stop in
        if 1 <? nkeys then
          let! rc := compare_at key mp (nkeys - 1) in
          if rc =? 0 then do! set_top_ki (nkeys - 1) in cret GotoSet1
          else if rc <? 0 then
            let! i := top_ki in
            if i <? nkeys then
              let! rc := compare_at key mp i in
              cret (if rc =? 0 then GotoSet1 else GotoSet2)
            else cret GotoSet2
          else parents
        else parents
      else only.

(** From the label [set2] on.  [exactp] says whether the caller asks for an
    exact match. *)
Definition set2 (key : bytes) (exactp : bool) : CM cstate (Z + Z) :=
  let! '(leaf, exact) := cursor_node_search key in
  if exactp && negb exact then cret (inl MDB_NOTFOUND)
  else match leaf with
  | Some ofs => cret (inr ofs)
  | None =>
      let! rc := mdb_cursor_sibling true in
      if negb (rc =? MDB_SUCCESS) then cret (inl rc)
      else
        let! mp := top_page in
        if negb (IS_LEAF mp) then cfault AssertFailed
        else let! ofs := clift (mp_ptr (mp_raw mp) 0) in cret (inr ofs)
  end.
(** From the label [set1] on.  [md_dcmp] is null in a database without
    duplicates. *)
Definition set1 (op : MDB_cursor_op) (key : bytes) (want : bool) (leaf : Z) : CM cstate (Z * option item) :=
  do! modify_mc (with_flags true false) in
  let! mp := top_page in
  let! i := top_ki in
  if IS_LEAF2 mp then let! it := leaf2_key mp i in cret (MDB_SUCCESS, Some it)
  else
    let! fl := clift (mn_flags (mp_raw mp) leaf) in
    if F_ISSET fl F_DUPDATA then cfault NullDeref
    else
      let! '(rc, d) :=
        (if want then
           let! '(rc, d) := node_read mp leaf in
           if bool_decide (op = MDB_GET_BOTH) || bool_decide (op = MDB_GET_BOTH_RANGE)
           then if negb (rc =? MDB_SUCCESS) then cret (rc, None) else cfault NullDeref
           else cret (rc, Some d)
         else cret (MDB_SUCCESS, None)) in
      if negb (rc =? MDB_SUCCESS) then cret (rc, None)
      else
        let! k := (if bool_decide (op = MDB_SET_RANGE) || bool_decide (op = MDB_SET_KEY)
                   then clift (NODEKEY (mp_raw mp) leaf) else cret key) in
        cret (MDB_SUCCESS, Some {| it_key := k; it_data := d |}).
Definition mdb_cursor_set (op : MDB_cursor_op) (key : bytes) (want exactp : bool) : CM cstate (Z * option item) :=
  if lenZ key <=? 0 then cfault AssertFailed
  else
    let! s := cget in
    let! way := (if mc_init (cs_mc s) then already_there key else cret Search) in
    let on_page :=
      let! r := set2 key exactp in
      match r with inl rc => cret (rc, None) | inr leaf => set1 op key want leaf end in
    match way with
    | Stop => cret (MDB_NOTFOUND, None)
    | GotoSet1 =>
        let! mp := top_page in
        let! i := top_ki in
        let! leaf := (if IS_LEAF2 mp then cret 0 else clift (mp_ptr (mp_raw mp) i)) in
        set1 op key want leaf
    | GotoSet2 => on_page
    | Search =>
        let! rc := mdb_page_search no_touch (KKey key) false false in
        if negb (rc =? MDB_SUCCESS) then cret (rc, None)
        else
          let! mp := top_page in
          if negb (IS_LEAF mp) then cfault AssertFailed else on_page
    end.

(** [mdb_get] on a database: a fresh cursor, an exact match. *)
Definition mdb_get (key : bytes) : CM cstate (Z * option item) :=
  if (lenZ key =? 0) || (MDB_MAXKEYSIZE <? lenZ key) then cret (EINVAL, None)
  else
    do! modify_mc (fun mc => mdb_cursor_init (mc_pg mc) (mc_ki mc)) in
    mdb_cursor_set MDB_SET key true true.

(** The operations that need a sub-cursor fail, since there is none. *)
Definition mdb_cursor_get (op : MDB_cursor_op) (key : option bytes) (want : bool) : CM cstate (Z * option item) :=
  let! s := cget in
  let init := mc_init (cs_mc s) in
  match op with
  | MDB_GET_CURRENT =>
      if negb init then cret (EINVAL, None)
      else
        let! mp := top_page in
        if NUMKEYS mp =? 0 then do! set_top_ki 0 in cret (MDB_NOTFOUND, None)
        else
          let! i := top_ki in
          if IS_LEAF2 mp then let! it := leaf2_key mp i in cret (MDB_SUCCESS, Some it)
          else
            let! ofs := clift (mp_ptr (mp_raw mp) i) in
            let! k := clift (NODEKEY (mp_raw mp) ofs) in
            if want then
              let! fl := clift (mn_flags (mp_raw mp) ofs) in
              if F_ISSET fl F_DUPDATA then cfault NullDeref
              else let! '(rc, d) := node_read mp ofs in cret (rc, Some {| it_key := k; it_data := Some d |})
            else cret (MDB_SUCCESS, Some {| it_key := k; it_data := None |})
  | MDB_GET_BOTH | MDB_GET_BOTH_RANGE => cret (EINVAL, None)
  | MDB_SET | MDB_SET_KEY | MDB_SET_RANGE =>
      match key with
      | None => cret (EINVAL, None)
      | Some k =>
          if (lenZ k =? 0) || (MDB_MAXKEYSIZE <? lenZ k) then cret (EINVAL, None)
          else mdb_cursor_set op k want (negb (bool_decide (op = MDB_SET_RANGE)))
      end
  | MDB_GET_MULTIPLE | MDB_NEXT_MULTIPLE | MDB_FIRST_DUP | MDB_LAST_DUP => cret (EINVAL, None)
  | MDB_NEXT | MDB_NEXT_DUP | MDB_NEXT_NODUP =>
      if negb init then mdb_cursor_first want else mdb_cursor_next want
  | MDB_PREV | MDB_PREV_DUP | MDB_PREV_NODUP =>
      do! (if negb init then
             do! mdb_cursor_last want in
             do! modify_mc (fun mc => with_flags true (mc_eof mc) mc) in
             let! i := top_ki in set_top_ki (i + 1)
           else cret tt) in
      mdb_cursor_prev want
  | MDB_FIRST => mdb_cursor_first want
  | MDB_LAST => mdb_cursor_last want
  end.
