(* ===== verification/Alloc.v ===== *)
(** * Alloc: page numbers for writing (lib/lmdb/mdb.c: mdb_find_oldest,
    mdb_page_malloc, mdb_page_alloc, mdb_page_copy, mdb_page_touch,
    mdb_ovpage_free)

    A transaction never writes to a page of the committed tree: it takes a page
    number that is free, or a new one at the end of the file.  The free numbers
    are those that earlier transactions have put into the free database, under
    their own number; those of a transaction can be used again when all readers
    are newer.  They are read into [me_pghead], a list in descending order, one
    record after another ([me_pglast] is the last one read).

    The free database is the sorted list of its records, each with the cells of
    its ID list; the search for the first record from a key on is what
    MDB_SET_RANGE of a cursor does on the tree (Walk).  Transactions have no
    parent. *)
From S2P Require Import Prelude Dynabin.
From S2P Require Import Lmdb Midl Pages LeafMap Cursor.

Definition MDB_MAP_FULL : Z := -30792.
Definition MDB_TXN_FULL : Z := -30788.

(** The number of the transaction, the table of readers (process and
    transaction), the free database, the size of the map in pages *)
Record penv := {
  pe_txnid : Z;
  pe_readers : list (Z * Z);
  pe_freedb : list (Z * list Z);
  pe_maxpg : Z;
  pe_psize : Z;
  pe_writemap : bool
}.
(** What allocation changes: [me_pghead], [me_pglast], [mt_next_pgno], the dirty
    list and the room left in it, [me_dpages] and the script of malloc *)
Record pgstate := {
  pg_head : option MDB_IDL;
  pg_last : Z;
  pg_next : Z;
  pg_dirty : list MDB_ID2;
  pg_room : Z;
  pg_dpages : list Z;
  pg_mem : alloc
}.
Definition with_head (head : option MDB_IDL) (last : Z) (s : pgstate) : pgstate :=
  {| pg_head := head; pg_last := last; pg_next := pg_next s; pg_dirty := pg_dirty s; pg_room := pg_room s; pg_dpages := pg_dpages s; pg_mem := pg_mem s |}.
Definition with_mem (mem : alloc) (s : pgstate) : pgstate :=
  {| pg_head := pg_head s; pg_last := pg_last s; pg_next := pg_next s; pg_dirty := pg_dirty s; pg_room := pg_room s; pg_dpages := pg_dpages s; pg_mem := mem |}.

Section alloc.
Context (e : penv) (junk : nat -> Z).

Definition mdb_find_oldest : Z :=
  foldr (fun r oldest => if negb (fst r =? 0) && (snd r <? oldest) then snd r else oldest) (u64 (pe_txnid e - 1)) (pe_readers e).
Fixpoint set_range (db : list (Z * list Z)) (key : Z) : option (Z * list Z) :=
  match db with [] => None | r :: db => if key <=? fst r then Some r else set_range db key end.

(** ** The next record of the free database, when there is no list *)
Definition copy_ids (idl : list Z) (n : Z) (mop : MDB_IDL) : outcome MDB_IDL :=
  olet! d := blk_read idl 0 (n + 1) in
  olet! c := blk_write (idl_cells mop) 0 d in
  Done {| idl_cap := idl_cap mop; idl_cells := c |}.
Fixpoint fetch (fuel : nat) (r : option (Z * list Z)) (s : pgstate) : outcome (Z * pgstate) :=
  match r with
  | None => Done (0, s)
  | Some (last, idl) =>
      if last <? mdb_find_oldest then
        olet! n := get idl 0 in
        if n =? 0 then
          match fuel with
          | O => Fault OutOfFuel
          | S fuel => fetch fuel (set_range (pe_freedb e) (u64 (last + 1))) (with_head (pg_head s) last s)
          end
        else
          olet! '(mop, mem) := mdb_midl_alloc n junk (pg_mem s) in
          let s := with_mem mem s in
          match mop with
          | None => Done (ENOMEM, s)
          | Some mop => olet! mop := copy_ids idl n mop in Done (0, with_head (Some mop) last s)
          end
      else Done (0, s)
  end.
Definition fetch_free (s : pgstate) : outcome (Z * pgstate) :=
  match pg_head s, pe_freedb e with
  | None, r :: _ =>
      fetch (length (pe_freedb e)) (if pg_last s =? 0 then Some r else set_range (pe_freedb e) (u64 (pg_last s + 1))) s
  | _, _ => Done (0, s)
  end.

(** ** Several pages in a row *)

(** [while (i>0 || j>0)]: two lists into one *)
Fixpoint merge_ids (fuel : nat) (i j k : Z) (idl mop mop2 : list Z) : outcome (list Z) :=
  if (0 <? i) || (0 <? j) then
    match fuel with
    | O => Fault OutOfFuel
    | S fuel =>
        olet! y := get mop j in
        olet! x := (if 0 <? i then get idl i else Done y) in
        if (0 <? i) && (x <? y) then olet! mop2 := put mop2 k x in merge_ids fuel (i - 1) j (k - 1) idl mop mop2
        else olet! mop2 := put mop2 k y in merge_ids fuel i (j - 1) (k - 1) idl mop mop2
    end
  else Done mop2.
(** Another record of the free database, merged with the list *)
Inductive more := NoMore | MoreError (rc : Z) | More (mop : MDB_IDL) (last : Z).
Definition read_more (mop : MDB_IDL) (s : pgstate) : outcome (more * pgstate) :=
  let last := u64 (pg_last s + 1) in
  if u64 (mdb_find_oldest - last) <? 1 then Done (NoMore, s)
  else match set_range (pe_freedb e) last with
  | None => Done (NoMore, s)
  | Some (last, idl) =>
      if mdb_find_oldest <=? last then Done (NoMore, s)
      else
        olet! i := get idl 0 in
        olet! j := get (idl_cells mop) 0 in
        olet! '(mop2, mem) := mdb_midl_alloc (i + j) junk (pg_mem s) in
        let s := with_mem mem s in
        match mop2 with
        | None => Done (MoreError ENOMEM, s)
        | Some mop2 =>
            olet! c2 := put (idl_cells mop2) 0 (i + j) in
            olet! c := put (idl_cells mop) 0 P_INVALID in
            olet! c2 := merge_ids (Z.to_nat (i + j)) i j (i + j) idl c c2 in
            let mop2 := {| idl_cap := idl_cap mop2; idl_cells := c2 |} in
            Done (More mop2 last, with_head (Some mop2) last s)
        end
  end.
(** [for (i=mop[0]; i>=num; i--)]: the place of the lowest of [num] pages in a row *)
Fixpoint find_run (n : nat) (i num : Z) (mop : list Z) : outcome (option Z) :=
  match n with
  | O => Done None
  | S n =>
      olet! a := get mop (i - (num - 1)) in
      olet! b := get mop i in
      if a =? b + (num - 1) then Done (Some i) else find_run n (i - 1) num mop
  end.
(** [for (j=i+num; j<=mop[0]; j++) mop[i++] = mop[j]] *)
Fixpoint close_gap (n : nat) (i j : Z) (mop : list Z) : outcome (list Z) :=
  match n with
  | O => Done mop
  | S n => olet! v := get mop j in olet! mop := put mop i v in close_gap n (i + 1) (j + 1) mop
  end.
Definition take_run (num : Z) (mop : list Z) : outcome (option Z * list Z) :=
  olet! n := get mop 0 in
  olet! r := find_run (Z.to_nat (n - num + 1)) n num mop in
  match r with
  | None => Done (None, mop)
  | Some i =>
      olet! pgno := get mop i in
      let i := i - (num - 1) in
      olet! mop := close_gap (Z.to_nat (n - (i + num) + 1)) i (i + num) mop in
      olet! mop := put mop 0 (n - num) in
      Done (Some pgno, mop)
  end.
Definition set_cells (c : list Z) (mop : MDB_IDL) (s : pgstate) : pgstate :=
  with_head (Some {| idl_cap := idl_cap mop; idl_cells := c |}) (pg_last s) s.
Fixpoint alloc_run (fuel : nat) (readit : bool) (num : Z) (mop : MDB_IDL) (s : pgstate) : outcome (Z * option Z * pgstate) :=
  let search mop s :=
    olet! '(pgno, c) := take_run num (idl_cells mop) in
    match pgno with
    | Some _ => Done (0, pgno, set_cells c mop s)
    | None => match fuel with O => Fault OutOfFuel | S fuel => alloc_run fuel true num mop s end
    end in
  if readit then
    olet! '(m, s) := read_more mop s in
    match m with
    | NoMore => Done (0, None, s)
    | MoreError rc => Done (rc, None, s)
    | More mop _ =>
        olet! n := get (idl_cells mop) 0 in
        if n <? num then match fuel with O => Fault OutOfFuel | S fuel => alloc_run fuel true num mop s end
        else search mop s
    end
  else search mop s.
(** ** One page, from the end of the list *)
Definition alloc_one (mop : MDB_IDL) (s : pgstate) : outcome (Z * option Z * pgstate) :=
  olet! n := get (idl_cells mop) 0 in
  olet! pgno := get (idl_cells mop) n in
  olet! c := put (idl_cells mop) 0 (n - 1) in
  Done (0, Some pgno, set_cells c mop s).
Definition from_list (num : Z) (s : pgstate) : outcome (Z * option Z * pgstate) :=
  match pg_head s with
  | None => Done (0, None, s)
  | Some mop =>
      olet! '(rc, pgno, s) :=
        (if 1 <? num then
           olet! n := get (idl_cells mop) 0 in
           alloc_run (S (length (pe_freedb e))) (n <? num) num mop s
         else alloc_one mop s) in
      if negb (rc =? 0) then Done (rc, None, s)
      else match pg_head s with
      | None => Fault NullDeref
      | Some mop =>
          olet! n := get (idl_cells mop) 0 in
          Done (0, pgno, if n =? 0 then with_head None (pg_last s) s else s)
      end
  end.

(** ** Memory for the pages; [np] is what malloc returns *)
Definition mdb_page_malloc (num np : Z) (s : pgstate) : option Z * pgstate :=
  match pg_dpages s with
  | p :: l =>
      if num =? 1 then
        (Some p, {| pg_head := pg_head s; pg_last := pg_last s; pg_next := pg_next s; pg_dirty := pg_dirty s; pg_room := pg_room s; pg_dpages := l; pg_mem := pg_mem s |})
      else let '(ok, mem) := script_next true (pg_mem s) in (if ok then Some np else None, with_mem mem s)
  | [] => let '(ok, mem) := script_next true (pg_mem s) in (if ok then Some np else None, with_mem mem s)
  end.
Definition mdb_page_free (mp : Z) (s : pgstate) : pgstate :=
  {| pg_head := pg_head s; pg_last := pg_last s; pg_next := pg_next s; pg_dirty := pg_dirty s; pg_room := pg_room s; pg_dpages := mp :: pg_dpages s; pg_mem := pg_mem s |}.
(** The page's entry in the dirty list; the result of the insertion is not
    looked at. *)
Definition add_dirty (next pgno np : Z) (s : pgstate) : outcome pgstate :=
  olet! '(_, dl) := (if pe_writemap e then mdb_mid2l_append (pg_dirty s) (pgno, np) else mdb_mid2l_insert (pg_dirty s) (pgno, np)) in
  Done {| pg_head := pg_head s; pg_last := pg_last s; pg_next := next; pg_dirty := dl; pg_room := u32 (pg_room s - 1); pg_dpages := pg_dpages s; pg_mem := pg_mem s |}.
(** A free page, if the transaction may use any *)
Definition choose (num : Z) (s : pgstate) : outcome (Z * option Z * pgstate) :=
  if 3 <? pe_txnid e then
    olet! '(rc, s) := fetch_free s in
    if negb (rc =? 0) then Done (rc, None, s) else from_list num s
  else Done (0, None, s).
(** The result, the page number and the address of the page *)
Definition mdb_page_alloc (num np : Z) (s : pgstate) : outcome (Z * option (Z * Z) * pgstate) :=
  if pg_room s =? 0 then Done (MDB_TXN_FULL, None, s)
  else
    olet! '(rc, pgno, s) := choose num s in
    if negb (rc =? 0) then Done (rc, None, s)
    else if bool_decide (pgno = None) && (pe_maxpg e <=? pg_next s + num) then Done (MDB_MAP_FULL, None, s)
    else
      let '(np, s) :=
        (if pe_writemap e then (Some (pe_psize e * default (pg_next s) pgno), s) else mdb_page_malloc num np s) in
      match np with
      | None => Done (ENOMEM, None, s)
      | Some np =>
          let next := match pgno with None => u64 (pg_next s + num) | Some _ => pg_next s end in
          let pgno := default (pg_next s) pgno in
          olet! s := add_dirty next pgno np s in
          Done (0, Some (pgno, np), s)
      end.
End alloc.

(** ** Lemmas: lists in descending order *)
Abbreviation descending := (StronglySorted Z.gt).
Lemma descending_snoc l v : descending l -> Forall (fun x => v < x) l -> descending (l ++ [v]).
Proof.
  induction 1 as [|x l Hs IH Hx]; intros Hv; cbn [app]; [repeat constructor|]. apply Forall_cons_1 in Hv as [Hv Hl].
  constructor; [by apply IH|]. apply Forall_app. split; [done|]. repeat constructor. lia.
Qed.
Lemma descending_app_inv l k : descending (l ++ k) -> descending l /\ descending k /\ forall x y, x ∈ l -> y ∈ k -> y < x.
Proof.
  induction l as [|a l IH]; cbn [app]; [intros H; repeat split; [constructor|done|]; intros x y Hx; by apply elem_of_nil in Hx|].
  intros H. inversion H as [|? ? Hs Hf]; subst. destruct (IH Hs) as (H1 & H2 & H3). apply Forall_app in Hf as [Hf1 Hf2].
  split; [by constructor|]. split; [done|]. intros x y [->|Hx]%elem_of_cons Hy; [|by apply H3]. rewrite Forall_forall in Hf2. specialize (Hf2 _ Hy). lia.
Qed.
Lemma descending_join l k : descending l -> descending k -> (forall x y, x ∈ l -> y ∈ k -> y < x) -> descending (l ++ k).
Proof.
  induction 1 as [|a l Hs IH Hf]; intros Hk Hlt; cbn [app]; [done|]. constructor.
  - apply IH; [done|]. intros x y Hx Hy. apply Hlt; [by right|done].
  - apply Forall_app. split; [done|]. apply Forall_forall. intros y Hy. specialize (Hlt a y ltac:(by left) Hy). lia.
Qed.
Lemma descending_nodup l : descending l -> NoDup l.
Proof.
  induction 1 as [|a l Hs IH Hf]; constructor; [|done]. intros Hin. rewrite Forall_forall in Hf. specialize (Hf _ Hin). lia.
Qed.
(** The numbers between two places of the list *)
Lemma descending_gap l (i j : nat) x y : descending l -> (i <= j)%nat -> l !! i = Some x -> l !! j = Some y -> y + Z.of_nat (j - i) <= x.
Proof.
  intros Hs Hij Hx. revert y. assert (Hd : forall d y, l !! (i + d)%nat = Some y -> y + Z.of_nat d <= x).
  2: { intros y Hy. apply (Hd (j - i)%nat). replace (i + (j - i))%nat with j by lia. done. }
  intros d.   induction d as [|d IH]; intros y Hy; [rewrite Nat.add_0_r, Hx in Hy; injection Hy as <-; lia|].
  destruct (lookup_lt_is_Some_2 l (i + d)) as [z Hz]; [apply lookup_lt_Some in Hy; lia|]. specialize (IH z Hz).
  assert (y < z); [|lia]. rewrite <- (take_drop_middle l (i + d) z Hz) in Hs, Hy.
  apply descending_app_inv in Hs as (_ & Hs & _). inversion Hs as [|? ? _ Hf]; subst.
  rewrite lookup_app_r in Hy by (rewrite length_take; apply lookup_lt_Some in Hz; lia).
  rewrite length_take_le in Hy by (apply lookup_lt_Some in Hz; lia). replace (i + S d - (i + d))%nat with 1%nat in Hy by lia.
  rewrite Forall_forall in Hf. specialize (Hf y). change ((z :: drop (S (i + d)) l) !! 1%nat) with (drop (S (i + d)) l !! 0%nat) in Hy.
  apply list_elem_of_lookup_2 in Hy. specialize (Hf Hy). lia.
Qed.
Lemma take_last (l : list Z) (n : nat) : descending l -> (0 < n <= length l)%nat ->
  exists x, l !! (n - 1)%nat = Some x /\ take n l = take (n - 1) l ++ [x] /\ forall y, y ∈ take (n - 1) l -> x < y.
Proof.
  intros Hl Hn. destruct (lookup_lt_is_Some_2 l (n - 1)) as [x Hx]; [lia|]. exists x. split; [done|].
  assert (Et : take n l = take (n - 1) l ++ [x]) by (rewrite <- (take_S_r _ _ _ Hx); f_equal; lia). split; [done|].
  intros y Hy. rewrite <- (take_drop n l), Et in Hl. apply descending_app_inv in Hl as (Hl & _). apply descending_app_inv in Hl as (_ & _ & Hl).
  apply Hl; [done|by left].
Qed.
(** Reading and writing the cells of a list *)
Lemma get_cell (l rest : list Z) h (i : nat) x : l !! i = Some x -> get (h :: l ++ rest) (Z.of_nat i + 1) = Done x.
Proof.
  intros Hi. unfold get. rewrite (proj2 (Z.ltb_ge _ 0)) by lia. replace (Z.to_nat (Z.of_nat i + 1)) with (S i) by lia. cbn [lookup list_lookup].
  change ((l ++ rest) !! i) with ((l ++ rest) !! i). rewrite lookup_app_l by (by eapply lookup_lt_Some). by rewrite Hi.
Qed.

(** ** Lemmas: merging two lists *)
Lemma merge_ids_ok (a b ra rb : list Z) (h : Z) : descending a -> descending b -> NoDup (a ++ b) -> Forall (fun x => x < P_INVALID) (a ++ b) ->
  forall fuel (i j : nat) pre post, (i <= length a)%nat -> (j <= length b)%nat -> (i + j <= fuel)%nat -> length pre = (i + j)%nat ->
  exists m, merge_ids fuel (Z.of_nat i) (Z.of_nat j) (Z.of_nat (i + j)) (lenZ a :: a ++ ra) (P_INVALID :: b ++ rb) (h :: pre ++ post) = Done (h :: m ++ post) /\
    m ≡ₚ take i a ++ take j b /\ descending m.
Proof.
  intros Ha Hb Hnd Hinv. induction fuel as [|fuel IH]; intros i j pre post Hi Hj Hf Hp; cbn [merge_ids].
  { assert (i = 0 /\ j = 0)%nat as [-> ->] by lia. destruct pre; [|done]. exists []. cbn. repeat split; constructor. }
  destruct (decide (i + j = 0)%nat) as [E0|Hne].
  { assert (i = 0 /\ j = 0)%nat as [-> ->] by lia. destruct pre; [|done]. exists []. cbn. repeat split; constructor. }
  replace ((0 <? Z.of_nat i) || (0 <? Z.of_nat j)) with true by (symmetry; apply orb_true_iff; rewrite !Z.ltb_lt; lia).
  assert (Hpre : exists pre0 z, pre = pre0 ++ [z] /\ length pre0 = (i + j - 1)%nat).
  { destruct pre as [|z pre0 _] using rev_ind; [cbn in Hp; lia|]. exists pre0, z. rewrite length_app in Hp. cbn in Hp. split; [done|lia]. }
  destruct Hpre as (pre0 & z & -> & Hp0).
  assert (Hput : forall v, put (h :: (pre0 ++ [z]) ++ post) (Z.of_nat (i + j)) v = Done (h :: pre0 ++ v :: post)).
  { intros v. rewrite <- app_assoc. cbn [app]. pose proof (put_mid (h :: pre0) post z v) as E. cbn [app] in E.
    replace (lenZ (h :: pre0)) with (Z.of_nat (i + j)) in E by (rewrite lenZ_cons; unfold lenZ; lia). exact E. }
  assert (Hfin : forall v (i' j' : nat), (i' + j' = i + j - 1)%nat -> (i' <= i)%nat -> (j' <= j)%nat ->
    take i a ++ take j b ≡ₚ (take i' a ++ take j' b) ++ [v] -> (forall x, x ∈ take i' a ++ take j' b -> v < x) ->
    exists m, merge_ids fuel (Z.of_nat i') (Z.of_nat j') (Z.of_nat (i + j) - 1) (lenZ a :: a ++ ra) (P_INVALID :: b ++ rb) (h :: pre0 ++ v :: post) = Done (h :: m ++ post) /\
      m ≡ₚ take i a ++ take j b /\ descending m).
  { intros v i' j' Hs Hi' Hj' Hperm Hmin. destruct (IH i' j' pre0 (v :: post)) as (m & E & Hm & Hd); [lia..|].
    exists (m ++ [v]). replace (Z.of_nat (i + j) - 1) with (Z.of_nat (i' + j')) by lia. rewrite <- app_assoc. cbn [app]. split; [done|].
    split; [by rewrite Hm, Hperm|]. apply descending_snoc; [done|]. apply Forall_forall. intros x Hx. apply Hmin. by rewrite <- Hm. }
  destruct (decide (i = 0)%nat) as [->|Hi0].
  { destruct (take_last b j Hb ltac:(lia)) as (y & Hy & Et & Hmin). pose proof (get_cell b rb P_INVALID _ _ Hy) as G.
    replace (Z.of_nat (j - 1) + 1) with (Z.of_nat j) in G by lia. rewrite G. cbn [obind Z.of_nat Z.ltb Z.compare andb]. rewrite Hput. cbn [obind].
    replace (Z.of_nat j - 1) with (Z.of_nat (j - 1)) by lia. apply (Hfin y 0%nat (j - 1)%nat); [lia..|by rewrite Et|exact Hmin]. }
  destruct (take_last a i Ha ltac:(lia)) as (x & Hx & Etx & Hminx). pose proof (get_cell a ra (lenZ a) _ _ Hx) as Gx.
  replace (Z.of_nat (i - 1) + 1) with (Z.of_nat i) in Gx by lia. rewrite (proj2 (Z.ltb_lt 0 (Z.of_nat i))) by lia. rewrite Gx.
  assert (Hxa : x ∈ a) by (by eapply list_elem_of_lookup_2). assert (Hmove : take i a ++ take j b ≡ₚ (take (i - 1) a ++ take j b) ++ [x]).
  { rewrite Etx, <- !app_assoc. by rewrite (Permutation_app_comm [x]). }
  destruct (decide (j = 0)%nat) as [->|Hj0].
  { change (get (P_INVALID :: b ++ rb) (Z.of_nat 0)) with (Done P_INVALID). cbn [obind andb].
    rewrite Forall_forall in Hinv. rewrite (proj2 (Z.ltb_lt x P_INVALID)) by (apply Hinv, elem_of_app; by left). rewrite Hput. cbn [obind].
    replace (Z.of_nat i - 1) with (Z.of_nat (i - 1)) by lia. apply (Hfin x (i - 1)%nat 0%nat); [lia..|exact Hmove|].
    intros y. rewrite take_0, app_nil_r. apply Hminx. }
  destruct (take_last b j Hb ltac:(lia)) as (y & Hy & Ety & Hminy). pose proof (get_cell b rb P_INVALID _ _ Hy) as Gy.
  replace (Z.of_nat (j - 1) + 1) with (Z.of_nat j) in Gy by lia. rewrite Gy. cbn [obind andb].
  assert (Hyb : y ∈ b) by (by eapply list_elem_of_lookup_2). assert (Hxy : x <> y) by (intros ->; by apply (NoDup_app a b) in Hnd as (_ & Hnd & _); specialize (Hnd _ Hxa)).
  destruct (Z.ltb_spec x y) as [Hlt|Hge]; rewrite Hput; cbn [obind].
  - replace (Z.of_nat i - 1) with (Z.of_nat (i - 1)) by lia. apply (Hfin x (i - 1)%nat j); [lia..|exact Hmove|].
    intros v [Hv|Hv]%elem_of_app; [by apply Hminx|]. rewrite Ety in Hv. apply elem_of_app in Hv as [Hv|Hv]; [|by apply list_elem_of_singleton in Hv as ->]. specialize (Hminy _ Hv). lia.
  - replace (Z.of_nat j - 1) with (Z.of_nat (j - 1)) by lia. apply (Hfin y i (j - 1)%nat); [lia..|by rewrite Ety, app_assoc|].
    intros v [Hv|Hv]%elem_of_app; [|by apply Hminy]. rewrite Etx in Hv. apply elem_of_app in Hv as [Hv|Hv]; [|apply list_elem_of_singleton in Hv as ->; lia]. specialize (Hminx _ Hv). lia.
Qed.

(** ** Lemmas: pages in a row *)
Lemma run_between (l : list Z) (i n : nat) x : descending l -> (0 < n)%nat ->
  l !! i = Some (x + Z.of_nat n - 1) -> l !! (i + n - 1)%nat = Some x -> take n (drop i l) = reverse (seqZ x (Z.of_nat n)).
Proof.
  intros Hl Hn Hi Hj. pose proof (lookup_lt_Some _ _ _ Hj) as Hlt. apply list_eq. intros t. destruct (decide (t < n)%nat) as [Ht|Ht].
  - rewrite lookup_take_lt, lookup_drop by done. destruct (lookup_lt_is_Some_2 l (i + t)) as [y Hy]; [lia|]. rewrite Hy.
    pose proof (descending_gap l i (i + t) _ _ Hl ltac:(lia) Hi Hy). pose proof (descending_gap l (i + t) (i + n - 1) _ _ Hl ltac:(lia) Hy Hj).
    rewrite reverse_lookup by (rewrite length_seqZ; lia). rewrite length_seqZ, lookup_seqZ_lt by lia. f_equal. lia.
  - rewrite !lookup_ge_None_2; [done|rewrite length_reverse, length_seqZ; lia|rewrite length_take; lia].
Qed.
(** A run starts at place [k]. *)
Definition run_at (l : list Z) (num k : Z) : Prop :=
  exists x, l !! Z.to_nat (k - num) = Some (x + num - 1) /\ l !! Z.to_nat (k - 1) = Some x.
Lemma find_run_ok (l rest : list Z) h num : 1 < num -> forall n i, Z.of_nat n + num - 1 = i -> i <= lenZ l ->
  exists r, find_run n i num (h :: l ++ rest) = Done r /\
    match r with Some k => num <= k <= i /\ run_at l num k | None => forall k, num <= k <= i -> ~ run_at l num k end.
Proof.
  intros Hnum. induction n as [|n IH]; intros i Hi Hle; cbn [find_run].
  { exists None. split; [done|]. intros k Hk. lia. }
  destruct (lookup_lt_is_Some_2 l (Z.to_nat (i - num))) as [a Ha]; [unfold lenZ in Hle; lia|].
  destruct (lookup_lt_is_Some_2 l (Z.to_nat (i - 1))) as [b Hb]; [unfold lenZ in Hle; lia|].
  pose proof (get_cell l rest h _ _ Ha) as Ga. replace (Z.of_nat (Z.to_nat (i - num)) + 1) with (i - (num - 1)) in Ga by lia.
  pose proof (get_cell l rest h _ _ Hb) as Gb. replace (Z.of_nat (Z.to_nat (i - 1)) + 1) with i in Gb by lia.
  rewrite Ga. cbn [obind]. rewrite Gb. cbn [obind]. destruct (Z.eqb_spec a (b + (num - 1))) as [E|E].
  - exists (Some i). split; [done|]. split; [lia|]. exists b. split; [rewrite Ha; f_equal; lia|done].
  - destruct (IH (i - 1)) as (r & Er & Hr); [lia|lia|]. exists r. split; [done|]. destruct r as [k|].
    + destruct Hr as [? ?]. split; [lia|done].
    + intros k Hk. destruct (decide (k = i)) as [->|]; [|apply Hr; lia]. intros (x & H1 & H2). rewrite Ha in H1. rewrite Hb in H2.
      injection H1 as ->. injection H2 as ->. lia.
Qed.
(** Pages in a row are at places in a row. *)
Lemma run_places (l : list Z) p : descending l -> forall n : nat, (forall t, p <= t < p + Z.of_nat (S n) -> t ∈ l) ->
  exists i j : nat, l !! i = Some (p + Z.of_nat n) /\ l !! j = Some p /\ (i + n <= j)%nat.
Proof.
  intros Hl. induction n as [|n IH]; intros Hin.
  { destruct (list_elem_of_lookup_1 l p) as [i Hi]; [apply Hin; lia|]. exists i, i. rewrite Z.add_0_r. split; [done|]. split; [done|lia]. }
  destruct IH as (i & j & Hi & Hj & Hij); [intros t Ht; apply Hin; lia|].
  destruct (list_elem_of_lookup_1 l (p + Z.of_nat (S n))) as [k Hk]; [apply Hin; lia|]. exists k, j. split; [done|]. split; [done|].
  destruct (decide (i <= k)%nat) as [Hik|Hik]; [|lia]. pose proof (descending_gap l i k _ _ Hl Hik Hi Hk). lia.
Qed.
Lemma no_run (l : list Z) num : descending l -> 1 < num -> (forall k, num <= k <= lenZ l -> ~ run_at l num k) -> forall p, ~ seqZ p num ⊆ l.
Proof.
  intros Hl Hnum Hno p Hsub. destruct (run_places l p Hl (Z.to_nat (num - 1))) as (i & j & Hi & Hj & Hij).
  { intros t Ht. apply Hsub, elem_of_seqZ. lia. }
  pose proof (descending_gap l i j _ _ Hl ltac:(lia) Hi Hj) as Hg. pose proof (lookup_lt_Some _ _ _ Hj) as Hlt.
  apply (Hno (Z.of_nat j + 1)); [unfold lenZ; lia|]. exists p. split.
  - replace (Z.to_nat (Z.of_nat j + 1 - num)) with i by lia. rewrite Hi. f_equal. lia.
  - replace (Z.to_nat (Z.of_nat j + 1 - 1)) with j by lia. done.
Qed.
Lemma close_gap_ok (q : list Z) h rest : forall p mid : list Z, mid <> [] ->
  exists r, close_gap (length q) (lenZ p + 1) (lenZ p + lenZ mid + 1) (h :: p ++ mid ++ q ++ rest) = Done (h :: p ++ q ++ r) /\ length r = length (mid ++ rest).
Proof.
  induction q as [|v q IH]; intros p mid Hm; cbn [close_gap length]; [by exists (mid ++ rest)|].
  destruct mid as [|m mid]; [done|]. pose proof (get_mid (h :: p ++ m :: mid) (q ++ rest) v) as G.
  replace (lenZ (h :: p ++ m :: mid)) with (lenZ p + lenZ (m :: mid) + 1) in G by lens.
  replace ((h :: p ++ m :: mid) ++ v :: q ++ rest) with (h :: p ++ (m :: mid) ++ (v :: q) ++ rest) in G by (cbn; by rewrite <- app_assoc).
  rewrite G. cbn [obind]. pose proof (put_mid (h :: p) (mid ++ (v :: q) ++ rest) m v) as E.
  replace (lenZ (h :: p)) with (lenZ p + 1) in E by lens. cbn [app] in E |- *. rewrite E. cbn [obind].
  destruct (IH (p ++ [v]) (mid ++ [v])) as (r & Er & Hr); [by destruct mid|]. exists r.
  replace (lenZ (p ++ [v]) + 1) with (lenZ p + 1 + 1) in Er by lens. replace (lenZ (p ++ [v]) + lenZ (mid ++ [v]) + 1) with (lenZ p + lenZ (m :: mid) + 1 + 1) in Er by lens.
  rewrite <- !app_assoc in Er. cbn [app] in Er. rewrite Er. split; [done|]. rewrite Hr, !length_app. cbn [length app]. rewrite length_app. lia.
Qed.
Lemma take_run_ok (l rest : list Z) num : descending l -> 1 < num ->
  exists r c, take_run num (lenZ l :: l ++ rest) = Done (r, c) /\
    match r with
    | None => c = lenZ l :: l ++ rest /\ forall p, ~ seqZ p num ⊆ l
    | Some p => exists l' rest', c = lenZ l' :: l' ++ rest' /\ lenZ c = lenZ (lenZ l :: l ++ rest) /\ descending l' /\ l ≡ₚ seqZ p num ++ l'
    end.
Proof.
  intros Hl Hnum. unfold take_run. change (get (lenZ l :: l ++ rest) 0) with (Done (lenZ l)). cbn [obind]. pose proof (lenZ_nonneg l) as Hnn.
  destruct (Z.lt_ge_cases (lenZ l) num) as [Hs|Hs].
  { replace (Z.to_nat (lenZ l - num + 1)) with 0%nat by lia. cbn [find_run obind]. exists None, (lenZ l :: l ++ rest). split; [done|]. split; [done|].
    apply no_run; [done|done|]. intros k Hk. lia. }
  destruct (find_run_ok l rest (lenZ l) num Hnum (Z.to_nat (lenZ l - num + 1)) (lenZ l)) as (r & -> & Hr); [lia|lia|]. cbn [obind].
  destruct r as [k|]; [|exists None, (lenZ l :: l ++ rest); split; [done|]; split; [done|by apply no_run]].
  destruct Hr as [Hk (x & H1 & H2)]. pose proof (get_cell l rest (lenZ l) _ _ H2) as G. replace (Z.of_nat (Z.to_nat (k - 1)) + 1) with k in G by lia.
  rewrite G. cbn [obind]. set (i := Z.to_nat (k - num)). set (n := Z.to_nat num).
  assert (Em : take n (drop i l) = reverse (seqZ x (Z.of_nat n))).
  { apply run_between; [done|unfold n; lia| |]; [unfold i; rewrite H1; f_equal; unfold n; lia|]. replace (i + n - 1)%nat with (Z.to_nat (k - 1)) by (unfold i, n; lia). done. }
  set (p := take i l) in *. set (q := drop (i + n) l).
  assert (El : l = p ++ take n (drop i l) ++ q) by (unfold p, q; rewrite <- drop_drop, take_drop, take_drop; done).
  assert (Ln : lenZ (take n (drop i l)) = num) by (rewrite Em; unfold lenZ; rewrite length_reverse, length_seqZ; unfold n; lia).
  assert (Lp : lenZ p = k - num) by (unfold p, lenZ; rewrite length_take; unfold lenZ in Hk; unfold i; lia).
  assert (Lq : lenZ q = lenZ l - k) by (pose proof (f_equal lenZ El) as E; rewrite !lenZ_app in E; lia).
  destruct (close_gap_ok q (lenZ l) rest p (take n (drop i l))) as (r & Er & Hlr); [intros E; rewrite E, lenZ_nil in Ln; lia|].
  replace (lenZ p + 1) with (k - (num - 1)) in Er by lia. replace (lenZ p + lenZ (take n (drop i l)) + 1) with (k - (num - 1) + num) in Er by lia.
  replace (length q) with (Z.to_nat (lenZ l - (k - (num - 1) + num) + 1)) in Er by (unfold lenZ in *; lia).
  assert (Ec : lenZ l :: p ++ take n (drop i l) ++ q ++ rest = lenZ l :: l ++ rest) by (f_equal; transitivity ((p ++ take n (drop i l) ++ q) ++ rest); [by rewrite <- !app_assoc|by rewrite <- El]).
  rewrite Ec in Er. rewrite Er. cbn [obind]. rewrite put_head. cbn [obind].
  exists (Some x). eexists. split; [done|]. exists (p ++ q), r. rewrite <- app_assoc. split; [f_equal; rewrite lenZ_app; lia|].
  split; [|split].
  - rewrite <- Ec, !lenZ_cons, !lenZ_app. unfold lenZ in *. rewrite Hlr, length_app. lia.
  - rewrite El in Hl. apply descending_app_inv in Hl as (D1 & D2 & D3). apply descending_app_inv in D2 as (_ & D2 & _).
    apply descending_join; [done|done|]. intros a b Ha Hb. apply D3; [done|]. apply elem_of_app. by right.
  - rewrite El at 1. rewrite Em, reverse_Permutation. replace (Z.of_nat n) with num by (unfold n; lia). apply Permutation_app_swap_app.
Qed.

(** ** The free pages *)
Definition ids_of (c : list Z) : list Z := match c with [] => [] | n :: c => takeZ n c end.
Definition pages_of (rs : list (Z * list Z)) : list Z := concat (map (fun r => ids_of (snd r)) rs).
(** The records not read yet, and those of them that can be used *)
Definition later (last : Z) (db : list (Z * list Z)) : list (Z * list Z) := filter (fun r => last < fst r) db.
Definition older (oldest : Z) (db : list (Z * list Z)) : list (Z * list Z) := filter (fun r => fst r < oldest) db.
Definition head_ids (s : pgstate) : list Z := match pg_head s with Some m => ids_of (idl_cells m) | None => [] end.
Definition all_free (e : penv) (s : pgstate) : list Z := head_ids s ++ pages_of (later (pg_last s) (pe_freedb e)).
Definition usable (e : penv) (s : pgstate) : list Z := head_ids s ++ pages_of (older (mdb_find_oldest e) (later (pg_last s) (pe_freedb e))).

Definition record_ok (r : Z * list Z) : Prop := 0 < fst r < 2 ^ 64 - 1 /\ exists l rest, snd r = lenZ l :: l ++ rest /\ descending l.
Record db_ok (e : penv) : Prop := {
  do_sorted : StronglySorted Z.lt (map fst (pe_freedb e));
  do_records : Forall record_ok (pe_freedb e);
  do_readers : Forall (fun r => 0 <= snd r) (pe_readers e)
}.
Definition head_wf (s : pgstate) : Prop := match pg_head s with None => True | Some m => exists l, idl_wf m l /\ descending l end.

Lemma ids_of_cells l rest : ids_of (lenZ l :: l ++ rest) = l.
Proof. cbn [ids_of]. by apply takeZ_app_eq. Qed.
Lemma head_ids_wf m l s : pg_head s = Some m -> idl_wf m l -> head_ids s = l.
Proof. intros E [[rest Hc] _]. unfold head_ids. rewrite E, Hc. apply ids_of_cells. Qed.

Lemma later_above last db : Forall (fun r => last < fst r) db -> later last db = db.
Proof. unfold later. induction 1 as [|r l Hr Hl IH]; [done|]. rewrite filter_cons_True by done. by rewrite IH. Qed.
Lemma older_above oldest db : Forall (fun r => oldest <= fst r) db -> older oldest db = [].
Proof. unfold older. induction 1 as [|r l Hr Hl IH]; [done|]. rewrite filter_cons_False by lia. done. Qed.
Lemma set_range_later db last : StronglySorted Z.lt (map fst db) -> set_range db (last + 1) = head (later last db).
Proof.
  intros Hs. induction db as [|r db IH]; [done|]. cbn [set_range map] in *. inversion Hs as [|? ? Hs' Hf]; subst. unfold later. rewrite filter_cons.
  destruct (decide (last < fst r)) as [H|H].
  - by rewrite (proj2 (Z.leb_le _ _)) by lia.
  - rewrite (proj2 (Z.leb_gt _ _)) by lia. by apply IH.
Qed.
Lemma later_sorted last db : StronglySorted Z.lt (map fst db) -> StronglySorted Z.lt (map fst (later last db)).
Proof.
  intros Hs. induction db as [|r db IH]; [constructor|]. cbn [map] in *. inversion Hs as [|? ? Hs' Hf]; subst. unfold later. rewrite filter_cons.
  destruct (decide (last < fst r)); [|by apply IH]. cbn [map]. constructor; [by apply IH|]. apply Forall_forall. intros x Hx.
  rewrite Forall_forall in Hf. apply Hf. apply list_elem_of_fmap in Hx as (y & -> & Hy). apply list_elem_of_filter in Hy as [_ Hy]. by apply list_elem_of_fmap_2.
Qed.
Lemma later_next last db r rs : StronglySorted Z.lt (map fst db) -> later last db = r :: rs -> later (fst r) db = rs /\ last < fst r.
Proof.
  intros Hs E. assert (Hr : last < fst r) by (assert (Hin : r ∈ later last db) by (rewrite E; by left); by apply list_elem_of_filter in Hin as [? _]).
  split; [|done]. assert (E2 : later (fst r) db = later (fst r) (later last db)).
  { unfold later. rewrite list_filter_filter. apply list_filter_iff. intros x. lia. }
  rewrite E2, E. pose proof (later_sorted last db Hs) as Hl. rewrite E in Hl. cbn [map] in Hl. inversion Hl as [|? ? _ Hf]; subst.
  unfold later. rewrite filter_cons_False by lia. apply later_above. apply Forall_forall. intros x Hx. rewrite Forall_forall in Hf. by apply Hf, list_elem_of_fmap_2.
Qed.
Lemma older_none oldest r rs : StronglySorted Z.lt (map fst (r :: rs)) -> oldest <= fst r -> older oldest (r :: rs) = [].
Proof.
  intros Hs Hr. cbn [map] in Hs. inversion Hs as [|? ? _ Hf]; subst. apply older_above. constructor; [done|].
  apply Forall_forall. intros x Hx. rewrite Forall_forall in Hf. specialize (Hf (fst x) ltac:(by apply list_elem_of_fmap_2)). lia.
Qed.
Lemma pages_cons r rs : pages_of (r :: rs) = ids_of (snd r) ++ pages_of rs.
Proof. done. Qed.

(** ** Lemmas: reading records *)
Record same_rest (s s' : pgstate) : Prop := {
  sr_next : pg_next s' = pg_next s;
  sr_dirty : pg_dirty s' = pg_dirty s;
  sr_room : pg_room s' = pg_room s
}.
(** Of the answers of malloc some were used: all of them blocks, or up to a refusal *)
Definition granted (s s' : pgstate) : Prop := exists u, Forall (eq true) u /\ pg_mem s = u ++ pg_mem s'.
Definition refused (s s' : pgstate) : Prop := exists u, Forall (eq true) u /\ pg_mem s = u ++ false :: pg_mem s'.
Definition mem_result (rc : Z) (s s' : pgstate) : Prop := rc = 0 /\ granted s s' \/ rc = ENOMEM /\ refused s s'.
Lemma granted_refl s s' : pg_mem s' = pg_mem s -> granted s s'.
Proof. intros E. exists []. by rewrite E. Qed.
Lemma granted_trans s1 s2 s3 : granted s1 s2 -> granted s2 s3 -> granted s1 s3.
Proof. intros (u & Hu & E1) (v & Hv & E). exists (u ++ v). split; [by apply Forall_app|]. by rewrite <- app_assoc, <- E. Qed.
Lemma granted_refused s1 s2 s3 : granted s1 s2 -> refused s2 s3 -> refused s1 s3.
Proof. intros (u & Hu & E1) (v & Hv & E). exists (u ++ v). split; [by apply Forall_app|]. by rewrite <- app_assoc, <- E. Qed.
Lemma mem_result_after rc s1 s2 s3 : granted s1 s2 -> mem_result rc s2 s3 -> mem_result rc s1 s3.
Proof. intros H [[-> H2]|[-> H2]]; [left|right]; (split; [done|]); [by eapply granted_trans|by eapply granted_refused]. Qed.
Lemma mem_result_refl s s' : pg_mem s' = pg_mem s -> mem_result 0 s s'.
Proof. intros E. left. split; [done|by apply granted_refl]. Qed.
Lemma refused_nonempty s s' : refused s s' -> false ∈ pg_mem s.
Proof. intros (u & _ & ->). apply elem_of_app. right. by left. Qed.
(** The next answer *)
Lemma script_granted s s' mem : script_next true (pg_mem s) = (true, mem) -> pg_mem s' = mem -> granted s s'.
Proof. unfold script_next, granted. destruct (pg_mem s) as [|[] l]; intros E ->; simplify_eq; [by exists []|exists [true]]. by repeat constructor. Qed.
Lemma script_refused s s' mem : script_next true (pg_mem s) = (false, mem) -> pg_mem s' = mem -> refused s s'.
Proof. unfold script_next, refused. destruct (pg_mem s) as [|[] l]; intros E ->; simplify_eq. by exists []. Qed.
(** Records are read, and no page gets lost. *)
Record keeps (e : penv) (s s' : pgstate) : Prop := {
  kp_rest : same_rest s s';
  kp_free : all_free e s' ≡ₚ all_free e s;
  kp_usable : usable e s' ≡ₚ usable e s;
  kp_head : head_wf s';
  kp_last : pg_last s <= pg_last s' < 2 ^ 64 - 1;
  kp_read : pg_last s' = pg_last s \/ pg_last s' < mdb_find_oldest e
}.
Lemma same_refl s : same_rest s s.
Proof. done. Qed.
Lemma same_trans s1 s2 s3 : same_rest s1 s2 -> same_rest s2 s3 -> same_rest s1 s3.
Proof. intros [] []. constructor; congruence. Qed.
Lemma keeps_refl e s : head_wf s -> 0 <= pg_last s < 2 ^ 64 - 1 -> keeps e s s.
Proof. intros Hw Hl. constructor; [apply same_refl|done|done|done|lia|by left]. Qed.
Lemma keeps_trans e s1 s2 s3 : keeps e s1 s2 -> keeps e s2 s3 -> keeps e s1 s3.
Proof.
  intros [] []. constructor; [by eapply same_trans|by etransitivity|by etransitivity|done|lia|].
  destruct kp_read0 as [E|E], kp_read1 as [E1|E1]; [left; lia|right; lia|right; lia|right; lia].
Qed.
Lemma head_with_mem mem s : head_ids (with_mem mem s) = head_ids s.
Proof. done. Qed.

Section reading.
Context (e : penv) (junk : nat -> Z).
Hypothesis Hdb : db_ok e.
Local Notation db := (pe_freedb e).
Local Notation oldest := (mdb_find_oldest e).

Lemma in_later last r rs : later last db = r :: rs -> r ∈ db.
Proof. intros E. assert (Hin : r ∈ later last db) by (rewrite E; by left). by apply list_elem_of_filter in Hin as [_ ?]. Qed.
Lemma next_record last r rs : later last db = r :: rs -> record_ok r /\ later (fst r) db = rs /\ last < fst r.
Proof.
  intros E. destruct (later_next _ _ _ _ (do_sorted _ Hdb) E) as [H1 H2]. split; [|done].
  eapply Forall_forall; [apply (do_records _ Hdb)|by eapply in_later].
Qed.
(** The first record not read is there, but too new. *)
Lemma usable_none s r rs : pg_head s = None -> later (pg_last s) db = r :: rs -> oldest <= fst r -> usable e s = [].
Proof.
  intros Hh E Hr. unfold usable, head_ids. rewrite Hh, E, older_none; [done| |done]. rewrite <- E. apply later_sorted, (do_sorted _ Hdb).
Qed.
Lemma copy_ids_ok (l rest : list Z) :
  copy_ids (lenZ l :: l ++ rest) (lenZ l) {| idl_cap := lenZ l; idl_cells := new_cells junk (lenZ l + 1) |}
  = Done {| idl_cap := lenZ l; idl_cells := lenZ l :: l |}.
Proof.
  unfold copy_ids. pose proof (lenZ_nonneg l). pose proof (lenZ_nonneg rest). rewrite blk_read_ok by lens. cbn [obind idl_cells idl_cap].
  rewrite dropZ_0 by lia. rewrite app_comm_cons, takeZ_app_eq by lens.
  rewrite blk_write_ok by (rewrite ?lenZ_new_cells; lens). cbn [obind]. rewrite takeZ_0 by lia. cbn [app].
  unfold dropZ. rewrite drop_ge; [by rewrite app_nil_r|]. pose proof (lenZ_new_cells junk (lenZ l + 1)) as Hn. unfold lenZ in *. cbn [length]. lia.
Qed.
Lemma fetch_ok : forall fuel s, pg_head s = None -> 0 <= pg_last s < 2 ^ 64 - 1 -> (length (later (pg_last s) db) <= fuel)%nat ->
  exists rc s', fetch e junk fuel (head (later (pg_last s) db)) s = Done (rc, s') /\ keeps e s s' /\ mem_result rc s s' /\
    (rc = 0 -> pg_head s' = None -> usable e s' = []) /\ (pg_head s' <> None -> head_ids s' <> []).
Proof.
  induction fuel as [|fuel IH]; intros s Hh Hl Hf; destruct (later (pg_last s) db) as [|[last idl] rs] eqn:E; cbn [length] in Hf; [|lia| |].
  1, 2: assert (Hw : head_wf s) by (unfold head_wf; by rewrite Hh); exists 0, s; split; [done|]; split; [by apply keeps_refl|]; split; [by apply mem_result_refl|];
    split; [|by rewrite Hh]; intros _ _; unfold usable, head_ids; by rewrite Hh, E.
  destruct (next_record _ _ _ E) as ([Hr (l & rest & Ec & Hd)] & En & Hlt). cbn [fst snd] in *. subst idl. cbn [head fetch].
  assert (Hw : head_wf s) by (unfold head_wf; by rewrite Hh).
  destruct (Z.ltb_spec last oldest) as [Hlo|Hhi].
  2: { exists 0, s. split; [done|]. split; [by apply keeps_refl|]. split; [by apply mem_result_refl|]. split; [|by rewrite Hh]. intros _ _. by eapply usable_none. }
  change (get (lenZ l :: l ++ rest) 0) with (Done (lenZ l)). cbn [obind].
  assert (Hfree : all_free e s = l ++ pages_of rs).
  { unfold all_free, head_ids. rewrite Hh, E, pages_cons. cbn [snd]. by rewrite ids_of_cells. }
  assert (Huse : usable e s = l ++ pages_of (older oldest rs)).
  { unfold usable, head_ids. rewrite Hh, E. unfold older. rewrite filter_cons_True by done. rewrite pages_cons. cbn [snd]. by rewrite ids_of_cells. }
  destruct (Z.eqb_spec (lenZ l) 0) as [E0|E0].
  - apply lenZ_zero_nil in E0 as ->. rewrite wrap_small by lia. rewrite (set_range_later _ _ (do_sorted _ Hdb)).
    destruct (IH (with_head (pg_head s) last s)) as (rc & s' & E' & Hk & Hrc & Hn & Hi); [done|cbn; lia|cbn [pg_last with_head]; rewrite En; lia|].
    cbn [pg_last with_head] in E'. exists rc, s'. split; [done|]. split; [|done]. eapply keeps_trans; [|exact Hk].
    constructor; [done| | |done|cbn; lia|right; cbn; lia]; [rewrite Hfree|rewrite Huse]; unfold all_free, usable, head_ids; cbn [pg_head pg_last with_head]; by rewrite Hh, En.
  - unfold mdb_midl_alloc. destruct (script_next true (pg_mem s)) as [[] mem] eqn:Em; cbn [obind].
    + rewrite copy_ids_ok. cbn [obind]. exists 0. eexists. split; [done|].
      assert (Hwf : idl_wf {| idl_cap := lenZ l; idl_cells := lenZ l :: l |} l) by (constructor; [exists []; cbn; by rewrite app_nil_r|cbn; lens]).
      assert (Hids : ids_of (lenZ l :: l) = l) by (by rewrite <- (app_nil_r l) at 2; rewrite ids_of_cells).
      split; [|split; [left; split; [done|by eapply script_granted]|split; [done|]]].
      * constructor; [done| | |by exists l|cbn; lia|right; cbn; lia]; [rewrite Hfree|rewrite Huse]; unfold all_free, usable, head_ids; cbn [pg_head pg_last with_head idl_cells];
          by rewrite Hids, En.
      * intros _. unfold head_ids. cbn [pg_head with_head idl_cells]. rewrite Hids. intros ->. by apply E0.
    + exists ENOMEM, (with_mem mem s). split; [done|]. split; [|split; [right; split; [done|by eapply script_refused]|split; [done|cbn; by rewrite Hh]]].
      constructor; [done|done|done|unfold head_wf; cbn; by rewrite Hh|cbn; lia|by left].
Qed.
End reading.

(** ** Lemmas: taking pages *)
Lemma oldest_range e : Forall (fun r => 0 <= snd r) (pe_readers e) -> 0 <= mdb_find_oldest e < 2 ^ 64.
Proof.
  unfold mdb_find_oldest. intros H. induction H as [|r l Hr Hl IH]; cbn [foldr]; [apply wrap_bound; lia|].
  destruct (_ && (snd r <? _)) eqn:E; [|done]. apply andb_prop in E as [_ E%Z.ltb_lt]. lia.
Qed.
(** It is at most the number of every reader and of the last transaction. *)
Lemma oldest_least e : Forall (fun r => fst r <> 0 -> mdb_find_oldest e <= snd r) (pe_readers e) /\ mdb_find_oldest e <= u64 (pe_txnid e - 1).
Proof.
  unfold mdb_find_oldest. induction (pe_readers e) as [|r l [IH1 IH2]]; cbn [foldr]; [split; [constructor|lia]|].
  set (o := foldr _ _ l) in *. destruct (Z.eqb_spec (fst r) 0) as [E0|E0]; cbn [negb andb]; [split; [|done]; constructor; [done|done]|].
  destruct (Z.ltb_spec (snd r) o) as [H|H]; split; [constructor; [lia|]|lia|constructor; [lia|done]|done].
  eapply Forall_impl; [exact IH1|]. cbn beta. intros x Hx Hn. specialize (Hx Hn). lia.
Qed.
Lemma short_no_run (l : list Z) num : lenZ l < num -> forall p, ~ seqZ p num ⊆ l.
Proof.
  intros Hl p Hs. pose proof (NoDup_seqZ p num) as Hnd. pose proof (submseteq_length _ _ (NoDup_submseteq _ _ Hnd Hs)) as Hle.
  rewrite length_seqZ in Hle. unfold lenZ in Hl. lia.
Qed.
Record takes (e : penv) (p num : Z) (s s' : pgstate) : Prop := {
  tk_rest : same_rest s s';
  tk_free : all_free e s ≡ₚ seqZ p num ++ all_free e s';
  tk_usable : usable e s ≡ₚ seqZ p num ++ usable e s';
  tk_head : head_wf s';
  tk_last : pg_last s <= pg_last s' < 2 ^ 64 - 1;
  tk_read : pg_last s' = pg_last s \/ pg_last s' < mdb_find_oldest e
}.
Lemma keeps_takes e p num s s1 s2 : keeps e s s1 -> takes e p num s1 s2 -> takes e p num s s2.
Proof.
  intros [] []. constructor; [by eapply same_trans|by rewrite <- kp_free0|by rewrite <- kp_usable0|done|lia|].
  destruct kp_read0, tk_read0; [left; lia|right; lia|right; lia|right; lia].
Qed.

Section taking.
Context (e : penv) (junk : nat -> Z).
Hypothesis Hdb : db_ok e.
Local Notation db := (pe_freedb e).
Local Notation oldest := (mdb_find_oldest e).
Definition distinct (s : pgstate) : Prop := NoDup (all_free e s) /\ Forall (fun p => p < P_INVALID) (all_free e s).
Lemma keeps_distinct s s' : keeps e s s' -> distinct s -> distinct s'.
Proof. intros [_ H _ _ _ _] [H1 H2]. split; by rewrite H. Qed.

Lemma read_more_ok mop l s : pg_head s = Some mop -> idl_wf mop l -> descending l -> distinct s -> 0 <= pg_last s < 2 ^ 64 - 1 ->
  exists m s', read_more e junk mop s = Done (m, s') /\
    match m with
    | NoMore => s' = s /\ usable e s = l
    | MoreError rc => rc = ENOMEM /\ refused s s' /\ keeps e s s' /\ pg_head s' = Some mop
    | More mop' _ => granted s s' /\ keeps e s s' /\ pg_head s' = Some mop' /\ (length (later (pg_last s') db) < length (later (pg_last s) db))%nat /\
        (exists l', idl_wf mop' l' /\ descending l')
    end.
Proof.
  intros Hh Hw Hd [Hnd Hinv] Hl. unfold read_more. rewrite (wrap_small 64 (pg_last s + 1)) by lia.
  pose proof (oldest_range e (do_readers _ Hdb)) as Ho. pose proof (head_ids_wf mop l s Hh Hw) as Hids. rewrite (set_range_later _ _ (do_sorted _ Hdb)).
  assert (Hnone : older oldest (later (pg_last s) db) = [] -> usable e s = l) by (intros E; unfold usable; rewrite Hids, E; apply app_nil_r).
  destruct (Z.ltb_spec (u64 (oldest - (pg_last s + 1))) 1) as [Hc|Hc].
  { exists NoMore, s. split; [done|]. split; [done|]. apply Hnone, older_above, Forall_forall. intros r [Hr _]%list_elem_of_filter.
    assert (oldest <= pg_last s + 1); [|lia]. unfold wrap in Hc. destruct (Z.lt_ge_cases (pg_last s + 1) oldest) as [Hlt|]; [|done].
    rewrite Z.mod_small in Hc by lia. lia. }
  clear Hc. destruct (later (pg_last s) db) as [|[last idl] rs] eqn:E; cbn [head].
  { exists NoMore, s. split; [done|]. split; [done|by apply Hnone]. }
  destruct (next_record e Hdb _ _ _ E) as ([Hr (k & rest & Ec & Hdk)] & En & Hlt). cbn [fst snd] in *. subst idl.
  destruct (Z.leb_spec oldest last) as [Hge|Hlo].
  { exists NoMore, s. split; [done|]. split; [done|]. apply Hnone, older_none; [|done]. rewrite <- E. apply later_sorted, (do_sorted _ Hdb). }
  change (get (lenZ k :: k ++ rest) 0) with (Done (lenZ k)). rewrite (iw_cells_get _ _ Hw). cbn [obind].
  unfold mdb_midl_alloc. destruct (script_next true (pg_mem s)) as [[] mem] eqn:Em; cbn [obind].
  2: { exists (MoreError ENOMEM), (with_mem mem s). split; [done|]. split; [done|]. split; [by eapply script_refused|]. split; [|done]. constructor; [done|done|done| |cbn; lia|by left].
       unfold head_wf. cbn. rewrite Hh. by exists l. }
  pose proof (lenZ_nonneg k) as Nk. pose proof (lenZ_nonneg l) as Nl. cbn [idl_cells idl_cap].
  assert (Hnew : exists z pre, new_cells junk (lenZ k + lenZ l + 1) = z :: pre /\ length pre = (length k + length l)%nat).
  { pose proof (lenZ_new_cells junk (lenZ k + lenZ l + 1)) as Hn. destruct (new_cells junk _) as [|z pre]; [rewrite lenZ_nil in Hn; lia|]. exists z, pre. split; [done|].
    rewrite lenZ_cons in Hn. unfold lenZ in *. lia. }
  destruct Hnew as (z & pre & -> & Hpre). rewrite put_head. cbn [obind]. destruct Hw as [[rest' Hc] Hcap]. rewrite Hc, put_head. cbn [obind].
  assert (Hfree : all_free e s = l ++ k ++ pages_of rs) by (unfold all_free; rewrite Hids, E, pages_cons; cbn [snd]; by rewrite ids_of_cells).
  rewrite Hfree in Hnd, Hinv. assert (Hnd2 : NoDup (k ++ l)).
  { rewrite app_assoc in Hnd. apply NoDup_app in Hnd as (Hnd & _). by rewrite (Permutation_app_comm k l). }
  assert (Hinv2 : Forall (fun p => p < P_INVALID) (k ++ l)).
  { rewrite app_assoc in Hinv. apply Forall_app in Hinv as [Hinv _]. by rewrite (Permutation_app_comm k l). }
  destruct (merge_ids_ok k l rest rest' (lenZ k + lenZ l) Hdk Hd Hnd2 Hinv2 (length k + length l) (length k) (length l) pre []) as (m & Emg & Hm & Hdm); [lia..|].
  rewrite !app_nil_r in Emg. unfold lenZ in Emg. rewrite !Nat2Z.inj_add in Emg. fold (lenZ k) (lenZ l) in Emg.
  replace (Z.to_nat (lenZ k + lenZ l)) with (length k + length l)%nat by (unfold lenZ; lia). rewrite Emg. cbn [obind]. rewrite !take_ge in Hm by lia.
  assert (Lm : lenZ m = lenZ k + lenZ l) by (rewrite <- lenZ_app; unfold lenZ; by rewrite Hm).
  assert (Hwm : idl_wf {| idl_cap := lenZ k + lenZ l; idl_cells := lenZ k + lenZ l :: m |} m).
  { constructor; cbn [idl_cells idl_cap]; [exists []; by rewrite app_nil_r, Lm|lens]. }
  eexists _, _. split; [done|]. cbn beta iota. assert (Hids' : ids_of (lenZ k + lenZ l :: m) = m) by (rewrite <- Lm; pose proof (ids_of_cells m []) as E1; by rewrite app_nil_r in E1).
  split; [by eapply script_granted|]. split; [|split; [done|split; [|by exists m]]].
  - constructor; [done| | |by exists m|cbn; lia|right; cbn; lia].
    + rewrite Hfree. unfold all_free, head_ids. cbn [pg_head pg_last with_head idl_cells]. rewrite Hids', En, Hm, app_assoc. by rewrite (Permutation_app_comm k l).
    + unfold usable at 2. rewrite Hids, E. unfold older at 1. rewrite filter_cons_True by done. rewrite pages_cons. cbn [snd]. rewrite ids_of_cells.
      unfold usable, head_ids. cbn [pg_head pg_last with_head idl_cells]. rewrite Hids', En, Hm, app_assoc. by rewrite (Permutation_app_comm k l).
  - cbn [pg_last with_head]. rewrite En. cbn [length]. lia.
Qed.
(** What [take_run] has removed from the list of the state *)
Lemma takes_cells num p mop l l' rest' c s :
  pg_head s = Some mop -> idl_wf mop l -> c = lenZ l' :: l' ++ rest' -> lenZ c = lenZ (idl_cells mop) -> descending l' -> l ≡ₚ seqZ p num ++ l' ->
  0 <= pg_last s < 2 ^ 64 - 1 -> takes e p num s (set_cells c mop s).
Proof.
  intros Hh Hw -> Hlen Hd Hp Hl. pose proof (head_ids_wf mop l s Hh Hw) as Hids.
  assert (Hids' : head_ids (set_cells (lenZ l' :: l' ++ rest') mop s) = l') by apply ids_of_cells.
  constructor; [done| | | |cbn; lia|by left].
  - unfold all_free. rewrite Hids', Hids. cbn [pg_last set_cells with_head]. by rewrite Hp, <- app_assoc.
  - unfold usable. rewrite Hids', Hids. cbn [pg_last set_cells with_head]. by rewrite Hp, <- app_assoc.
  - exists l'. split; [|done]. constructor; [by exists rest'|]. cbn [idl_cells idl_cap]. rewrite Hlen. by destruct Hw.
Qed.
Definition run_result (num : Z) (s : pgstate) (rc : Z) (pg : option Z) (s' : pgstate) : Prop :=
  match pg with
  | Some p => rc = 0 /\ granted s s' /\ takes e p num s s' /\ pg_head s' <> None
  | None => keeps e s s' /\ pg_head s' <> None /\ mem_result rc s s' /\ (rc = 0 -> forall p, ~ seqZ p num ⊆ usable e s')
  end.
Lemma run_result_after num s s1 rc pg s' : granted s s1 -> keeps e s s1 -> run_result num s1 rc pg s' -> run_result num s rc pg s'.
Proof.
  intros Hg Hk. destruct pg as [p|]; cbn [run_result].
  - intros (H1 & H2 & H3 & H4). split; [done|]. split; [by eapply granted_trans|]. split; [by eapply keeps_takes|done].
  - intros (H1 & H2 & H3 & H4). split; [by eapply keeps_trans|]. split; [done|]. split; [by eapply mem_result_after|done].
Qed.
Lemma search_ok num mop l s K : 1 < num ->
  pg_head s = Some mop -> idl_wf mop l -> descending l -> 0 <= pg_last s < 2 ^ 64 - 1 ->
  ((forall p, ~ seqZ p num ⊆ l) -> exists rc pg s', K = Done (rc, pg, s') /\ run_result num s rc pg s') ->
  exists rc pg s', (olet! '(pgno, c) := take_run num (idl_cells mop) in match pgno with Some _ => Done (0, pgno, set_cells c mop s) | None => K end) = Done (rc, pg, s') /\
    run_result num s rc pg s'.
Proof.
  intros Hnum Hh Hw Hd Hl HK. pose proof Hw as [[rest Hc] _]. rewrite Hc. destruct (take_run_ok l rest num Hd Hnum) as (r & c & -> & Hr). cbn [obind].
  destruct r as [p|]; [|by apply HK, Hr]. destruct Hr as (l' & rest' & Ec & Hlen & Hd' & Hp). exists 0, (Some p). eexists. split; [done|]. split; [done|].
  split; [by apply granted_refl|]. split; [|done]. eapply takes_cells; [done|done|exact Ec|by rewrite Hc|done|done|done].
Qed.
Lemma alloc_run_ok num : 1 < num -> forall fuel readit mop l s,
  pg_head s = Some mop -> idl_wf mop l -> descending l -> distinct s -> 0 <= pg_last s < 2 ^ 64 - 1 ->
  (length (later (pg_last s) db) + (if readit : bool then 0 else 1) <= fuel)%nat -> (readit = true -> forall p, ~ seqZ p num ⊆ l) ->
  exists rc pg s', alloc_run e junk fuel readit num mop s = Done (rc, pg, s') /\ run_result num s rc pg s'.
Proof.
  intros Hnum. induction fuel as [|fuel IH].
  all: intros readit mop l s Hh Hw Hd Hdist Hl Hf Hno; cbn [alloc_run].
  all: assert (Hkeep : keeps e s s) by (apply keeps_refl; [unfold head_wf; rewrite Hh; by exists l|done]).
  all: destruct readit; [|try lia].
  1, 2: destruct (read_more_ok mop l s Hh Hw Hd Hdist Hl) as ([|rc|mop' last'] & s' & -> & Hm); cbn [obind].
  1, 4: destruct Hm as [-> Hu]; exists 0, None, s; split; [done|]; split; [done|]; split; [by rewrite Hh|]; split; [by apply mem_result_refl|]; intros _ p; rewrite Hu; by apply Hno.
  1, 3: destruct Hm as (-> & Hrf & Hk & Hh'); exists ENOMEM, None, s'; split; [done|]; split; [done|]; split; [by rewrite Hh'|]; split; [by right|done].
  - destruct Hm as (_ & _ & _ & Hlt & _). lia.
  - destruct Hm as (Hg & Hk & Hh' & Hlt & l' & Hw' & Hd'). pose proof (keeps_distinct _ _ Hk Hdist) as Hdist'. pose proof (kp_last _ _ _ Hk) as Hl'.
    assert (Hnext : (forall p, ~ seqZ p num ⊆ l') -> exists rc pg s'', alloc_run e junk fuel true num mop' s' = Done (rc, pg, s'') /\ run_result num s' rc pg s'').
    { intros Hn. eapply IH; [done|done|done|done|lia|lia|done]. }
    assert (Hgo : exists rc pg s'', (olet! n := get (idl_cells mop') 0 in
        if n <? num then alloc_run e junk fuel true num mop' s'
        else olet! '(pgno, c) := take_run num (idl_cells mop') in match pgno with Some _ => Done (0, pgno, set_cells c mop' s') | None => alloc_run e junk fuel true num mop' s' end)
      = Done (rc, pg, s'') /\ run_result num s' rc pg s'').
    { rewrite (iw_cells_get _ _ Hw'). cbn [obind]. destruct (Z.ltb_spec (lenZ l') num) as [Hs|Hs]; [apply Hnext; by apply short_no_run|].
      eapply search_ok; [done|done|done|done|lia|exact Hnext]. }
    destruct Hgo as (rc & pg & s'' & E & Hr). exists rc, pg, s''. split; [exact E|by eapply run_result_after].
  - apply (search_ok num mop l s); [done..|]. intros Hn. eapply IH; [done..|lia|done].
Qed.
Lemma alloc_one_ok mop l s : pg_head s = Some mop -> idl_wf mop l -> l <> [] -> descending l -> 0 <= pg_last s < 2 ^ 64 - 1 ->
  exists p s', alloc_one mop s = Done (0, Some p, s') /\ granted s s' /\ takes e p 1 s s' /\ pg_head s' <> None.
Proof.
  intros Hh Hw Hne Hd Hl. pose proof Hw as [[rest Hc] _]. unfold alloc_one. rewrite (iw_cells_get _ _ Hw). cbn [obind].
  destruct l as [|p l' _] using rev_ind; [done|]. rewrite Hc. assert (Hlast : (l' ++ [p]) !! length l' = Some p) by (by apply list_lookup_middle).
  pose proof (get_cell _ rest (lenZ (l' ++ [p])) _ _ Hlast) as G. replace (Z.of_nat (length l') + 1) with (lenZ (l' ++ [p])) in G by (rewrite lenZ_app, lenZ_cons, lenZ_nil; unfold lenZ; lia).
  rewrite G. cbn [obind]. rewrite put_head. cbn [obind]. exists p. eexists. split; [done|]. split; [by apply granted_refl|]. split; [|done].
  apply descending_app_inv in Hd as (Hd & _). eapply (takes_cells 1 p mop _ l' (p :: rest)); [done|done| | |done| |done].
  - rewrite lenZ_app, lenZ_cons, lenZ_nil, <- app_assoc. f_equal. lia.
  - rewrite Hc. by rewrite !lenZ_cons.
  - change (seqZ p 1) with (map (fun i => Z.of_nat i + p) [0%nat]). cbn [map]. by rewrite Z.add_0_l, Permutation_app_comm.
Qed.
(** An empty list is dropped. *)
Lemma clean_ok s mop : pg_head s = Some mop -> head_wf s -> 0 <= pg_last s < 2 ^ 64 - 1 ->
  exists s', (forall pgno : option Z, (olet! n := get (idl_cells mop) 0 in Done (0, pgno, if n =? 0 then with_head None (pg_last s) s else s)) = Done (0, pgno, s')) /\
    same_rest s s' /\ all_free e s' = all_free e s /\ usable e s' = usable e s /\ head_wf s' /\ pg_last s' = pg_last s /\ pg_mem s' = pg_mem s /\ (pg_head s' <> None -> head_ids s' <> []).
Proof.
  intros Hh Hw Hl. unfold head_wf in Hw. rewrite Hh in Hw. destruct Hw as (l & Hw & Hd). pose proof (head_ids_wf mop l s Hh Hw) as Hids.
  rewrite (iw_cells_get _ _ Hw). cbn [obind]. destruct (Z.eqb_spec (lenZ l) 0) as [E|E].
  - exists (with_head None (pg_last s) s). apply lenZ_zero_nil in E as ->. unfold all_free, usable. rewrite Hids. cbn [head_ids pg_head pg_last with_head app].
    by repeat split.
  - exists s. split; [done|]. split; [done|]. split; [done|]. split; [done|]. split; [unfold head_wf; rewrite Hh; by exists l|]. split; [done|]. split; [done|].
    intros _. rewrite Hids. intros ->. by apply E.
Qed.
Lemma from_list_ok num s : 1 <= num -> head_wf s -> (pg_head s <> None -> head_ids s <> []) -> distinct s -> 0 <= pg_last s < 2 ^ 64 - 1 ->
  (pg_head s = None -> usable e s = []) ->
  exists rc pg s', from_list e junk num s = Done (rc, pg, s') /\
    match pg with
    | Some p => rc = 0 /\ granted s s' /\ takes e p num s s' /\ (pg_head s' <> None -> head_ids s' <> [])
    | None => mem_result rc s s' /\ (rc = 0 -> keeps e s s' /\ (pg_head s' <> None -> head_ids s' <> []) /\ forall p, ~ seqZ p num ⊆ usable e s')
    end.
Proof.
  intros Hnum Hw Hne Hdist Hl Hnone. unfold from_list. destruct (pg_head s) as [mop|] eqn:Hh.
  2: { exists 0, None, s. split; [done|]. split; [by apply mem_result_refl|]. intros _. split; [by apply keeps_refl|]. split; [by rewrite Hh|].
       intros p. rewrite Hnone by done. intros Hsub. specialize (Hsub p). apply (not_elem_of_nil p), Hsub, elem_of_seqZ. lia. }
  pose proof Hw as Hw'. unfold head_wf in Hw'. rewrite Hh in Hw'. destruct Hw' as (l & Hwl & Hd). pose proof (head_ids_wf mop l s Hh Hwl) as Hids.
  assert (Hres : exists rc pg s', (if 1 <? num then olet! n := get (idl_cells mop) 0 in alloc_run e junk (S (length db)) (n <? num) num mop s else alloc_one mop s)
      = Done (rc, pg, s') /\ run_result num s rc pg s').
  { destruct (Z.ltb_spec 1 num) as [H1|H1].
    - rewrite (iw_cells_get _ _ Hwl). cbn [obind]. eapply alloc_run_ok; [done|done|done|done|done|done| |].
      + assert (length (later (pg_last s) db) <= length db)%nat by (apply length_filter). destruct (lenZ l <? num); lia.
      + intros Hs%Z.ltb_lt. by apply short_no_run.
    - assert (num = 1) as -> by lia. destruct (alloc_one_ok mop l s Hh Hwl) as (p & s' & E & Hg & Ht & Hn); [rewrite <- Hids; by apply Hne|done|done|].
      exists 0, (Some p), s'. by split. }
  destruct Hres as (rc & pg & s' & -> & Hr). cbn [obind]. destruct pg as [p|]; cbn [run_result] in Hr.
  - destruct Hr as (-> & Hg & Ht & Hn). change (0 =? 0) with true. cbn [negb]. destruct (pg_head s') as [mop'|] eqn:Hh'; [|done].
    pose proof (tk_last _ _ _ _ _ Ht). destruct (clean_ok s' mop' Hh' (tk_head _ _ _ _ _ Ht) ltac:(lia)) as (s2 & E2 & R2 & A2 & U2 & W2 & L2 & M2 & N2).
    rewrite E2. exists 0, (Some p), s2. split; [done|]. split; [done|]. split; [eapply granted_trans; [exact Hg|by apply granted_refl]|]. split; [|done]. destruct Ht. constructor; rewrite ?A2, ?U2, ?L2; try done. by eapply same_trans.
  - destruct Hr as (Hk & Hn & [[-> Hg]|[-> Hg]] & Hrun); [|exists ENOMEM, None, s'; split; [done|]; split; [by right|done]].
    change (0 =? 0) with true. cbn [negb]. destruct (pg_head s') as [mop'|] eqn:Hh'; [|done].
    pose proof (kp_last _ _ _ Hk). destruct (clean_ok s' mop' Hh' (kp_head _ _ _ Hk) ltac:(lia)) as (s2 & E2 & R2 & A2 & U2 & W2 & L2 & M2 & N2).
    rewrite E2. exists 0, None, s2. split; [done|]. split; [left; split; [done|eapply granted_trans; [exact Hg|by apply granted_refl]]|]. intros _. split; [|split; [done|rewrite U2; by apply Hrun]].
    destruct Hk. constructor; rewrite ?A2, ?U2, ?L2; try done. by eapply same_trans.
Qed.
End taking.

(** ** Allocation *)

(** The state of a transaction: the free pages are different numbers below
    [mt_next_pgno], and none of them is one of the transaction's own pages.  The
    dirty list is kept in order, except in an environment with MDB_WRITEMAP. *)
Record dirty_ok (e : penv) (s : pgstate) (ds : list MDB_ID2) : Prop := {
  dy_cells : exists h rest, pg_dirty s = (lenZ ds, h) :: ds ++ rest /\ pg_room s <= lenZ rest;
  dy_room : pg_room s = MDB_IDL_UM_MAX - lenZ ds;
  dy_nodup : NoDup ds.*1;
  dy_sorted : pe_writemap e = false -> StronglySorted Z.lt ds.*1;
  dy_own : Forall (fun p => p < pg_next s /\ p ∉ all_free e s) ds.*1
}.
Record pool_ok (e : penv) (s : pgstate) : Prop := {
  pk_db : db_ok e;
  pk_head : head_wf s;
  pk_some : pg_head s <> None -> head_ids s <> [];
  pk_last : 0 <= pg_last s < 2 ^ 64 - 1;
  pk_free : NoDup (all_free e s);
  pk_below : Forall (fun p => 0 <= p < pg_next s) (all_free e s);
  pk_next : 0 <= pg_next s < P_INVALID;
  pk_size : pe_maxpg e < P_INVALID;
  pk_room : 0 <= pg_room s;
  pk_dirty : exists ds, dirty_ok e s ds
}.
Lemma pool_distinct e s : pool_ok e s -> distinct e s.
Proof. intros []. split; [done|]. eapply Forall_impl; [exact pk_below0|]. cbn. lia. Qed.
Lemma fetch_free_ok e junk s : pool_ok e s ->
  exists rc s', fetch_free e junk s = Done (rc, s') /\ keeps e s s' /\ mem_result rc s s' /\
    (rc = 0 -> pg_head s' = None -> usable e s' = []) /\ (pg_head s' <> None -> head_ids s' <> []).
Proof.
  intros H. unfold fetch_free. pose proof (keeps_refl e s (pk_head _ _ H) (pk_last _ _ H)) as Hk. destruct (pg_head s) as [mop|] eqn:Hh.
  { exists 0, s. split; [done|]. split; [done|]. split; [by apply mem_result_refl|]. split; [by rewrite Hh|apply (pk_some _ _ H)]. }
  destruct (pe_freedb e) as [|r db] eqn:Edb.
  { exists 0, s. split; [done|]. split; [done|]. split; [by apply mem_result_refl|]. split; [|by rewrite Hh]. intros _ _. unfold usable, head_ids. by rewrite Hh, Edb. }
  rewrite <- Edb. pose proof (pk_db _ _ H) as Hdb. pose proof (pk_last _ _ H) as Hl.
  assert (E : (if pg_last s =? 0 then Some r else set_range (pe_freedb e) (u64 (pg_last s + 1))) = head (later (pg_last s) (pe_freedb e))).
  { destruct (Z.eqb_spec (pg_last s) 0) as [E0|E0]; [|rewrite wrap_small by lia; by apply set_range_later, do_sorted].
    rewrite E0, later_above; [by rewrite Edb|]. eapply Forall_impl; [apply (do_records _ Hdb)|]. intros x [Hx _]. lia. }
  rewrite E. apply fetch_ok; [done|done|done|apply length_filter].
Qed.
(** The new page joins the transaction's own: in its place, or at the end. *)
Lemma join_list e (ds : list MDB_ID2) h z rest x : lenZ ds < MDB_IDL_UM_MAX -> NoDup ds.*1 -> (pe_writemap e = false -> StronglySorted Z.lt ds.*1) -> x.1 ∉ ds.*1 ->
  exists rc ds', (if pe_writemap e then mdb_mid2l_append ((lenZ ds, h) :: ds ++ z :: rest) x else mdb_mid2l_insert ((lenZ ds, h) :: ds ++ z :: rest) x) =
      Done (rc, (lenZ ds + 1, h) :: ds' ++ rest) /\ ds' ≡ₚ x :: ds /\ (pe_writemap e = false -> StronglySorted Z.lt ds'.*1).
Proof.
  intros Hl Hnd Hs Hx. change MDB_IDL_UM_MAX with 131071 in Hl. destruct (pe_writemap e).
  - exists 0, (ds ++ [x]). unfold mdb_mid2l_append. change (get ((lenZ ds, h) :: ds ++ z :: rest) 0) with (Done (lenZ ds, h)). cbn [obind fst snd].
    rewrite (proj2 (Z.leb_gt _ _)) by (change MDB_IDL_UM_MAX with 131071; lia). rewrite put_head. cbn [obind].
    pose proof (put_mid ((lenZ ds + 1, h) :: ds) rest z x) as E. rewrite lenZ_cons in E. cbn [app] in E. rewrite (Z.add_comm 1) in E || idtac. rewrite E. cbn [obind].
    rewrite <- app_assoc. split; [done|]. split; [|done]. by rewrite Permutation_app_comm.
  - specialize (Hs eq_refl).
    destruct (mid2l_insert_correct ds h z rest x) as [[Hin _]|[(_ & Hf & _)|(_ & _ & l1 & l2 & El & Ei & Hs' & _)]]; [lia|done|done|change MDB_IDL_UM_MAX with 131071 in Hf; lia|].
    rewrite Ei. exists 0, (l1 ++ x :: l2). split; [done|]. split; [|done]. rewrite El. symmetry. apply Permutation_middle.
Qed.
Lemma add_dirty_ok e s ds p np next : dirty_ok e s ds -> 0 < pg_room s -> p ∉ ds.*1 -> p ∉ all_free e s -> pg_next s <= next -> p < next ->
  exists s' ds', add_dirty e next p np s = Done s' /\ dirty_ok e s' ds' /\ ds' ≡ₚ (p, np) :: ds /\
    s' = {| pg_head := pg_head s; pg_last := pg_last s; pg_next := next; pg_dirty := pg_dirty s'; pg_room := pg_room s - 1; pg_dpages := pg_dpages s; pg_mem := pg_mem s |}.
Proof.
  intros [(h & rest & Hc & Hrest) Hroom Hnd Hs Hown] Hpos Hp Hpf Hnext Hlt. unfold add_dirty. rewrite Hc.
  pose proof (lenZ_nonneg ds) as Nd. destruct rest as [|z rest]; [rewrite lenZ_nil in Hrest; lia|].
  destruct (join_list e ds h z rest (p, np)) as (rc & ds' & -> & Hperm & Hs'); [lia|done..|]. change MDB_IDL_UM_MAX with 131071 in Hroom.
  cbn [obind]. rewrite (wrap_small 32 (pg_room s - 1)) by lia. eexists _, ds'. split; [done|].
  assert (Hlen : lenZ ds' = lenZ ds + 1) by (unfold lenZ; rewrite Hperm; cbn [length]; lia).
  split; [|split; [done|done]]. constructor; cbn [pg_dirty pg_room pg_next].
  - exists h, rest. rewrite Hlen. split; [done|]. rewrite lenZ_cons in Hrest. lia.
  - rewrite Hlen. change MDB_IDL_UM_MAX with 131071. lia.
  - rewrite Hperm. cbn [fmap list_fmap fst]. by constructor.
  - done.
  - rewrite Hperm. cbn [fmap list_fmap fst]. constructor; [done|]. eapply Forall_impl; [exact Hown|]. cbn beta. intros d [Hd1 Hd2]. split; [lia|done].
Qed.
Lemma dirty_same e s s' ds : same_rest s s' -> all_free e s' ⊆ all_free e s -> dirty_ok e s ds -> dirty_ok e s' ds.
Proof.
  intros [E1 E2 E3] Hsub [H1 H2 H3 H4 H5]. constructor; rewrite ?E1, ?E2, ?E3; try done. eapply Forall_impl; [exact H5|]. cbn beta. intros d [Hd1 Hd2].
  split; [done|]. intros Hin. by apply Hd2, Hsub.
Qed.
Lemma choose_ok e junk num s : pool_ok e s -> 1 <= num ->
  exists rc pg s1, choose e junk num s = Done (rc, pg, s1) /\
    match pg with
    | Some p => rc = 0 /\ granted s s1 /\ takes e p num s s1 /\ (pg_head s1 <> None -> head_ids s1 <> [])
    | None => mem_result rc s s1 /\
        (rc = 0 -> keeps e s s1 /\ (pg_head s1 <> None -> head_ids s1 <> []) /\ (3 < pe_txnid e -> forall p, ~ seqZ p num ⊆ usable e s))
    end.
Proof.
  intros H Hnum. unfold choose. destruct (Z.ltb_spec 3 (pe_txnid e)) as [Ht|Ht].
  2: { exists 0, None, s. split; [done|]. split; [by apply mem_result_refl|]. intros _. split; [apply keeps_refl; [apply (pk_head _ _ H)|apply (pk_last _ _ H)]|]. split; [apply (pk_some _ _ H)|lia]. }
  destruct (fetch_free_ok e junk s H) as (rc & s1 & -> & Hk & [[-> Hg]|[-> Hg]] & Hn & Hs); cbn [obind].
  2: { exists ENOMEM, None, s1. split; [done|]. split; [by right|done]. }
  change (0 =? 0) with true. cbn [negb]. pose proof (kp_last _ _ _ Hk) as Hl. pose proof (pk_last _ _ H) as Hl0.
  destruct (from_list_ok e junk (pk_db _ _ H) num s1 Hnum (kp_head _ _ _ Hk) Hs (keeps_distinct _ _ _ Hk (pool_distinct _ _ H)) ltac:(lia) (Hn eq_refl))
    as (rc & pg & s2 & -> & Hr). exists rc, pg, s2. split; [done|]. destruct pg as [p|].
  - destruct Hr as (-> & Hg2 & Htk & Hne). split; [done|]. split; [by eapply granted_trans|]. split; [by eapply keeps_takes|done].
  - destruct Hr as (Hrc & Hr). split; [by eapply mem_result_after|]. intros E. destruct (Hr E) as (Hk2 & Hne & Hno). pose proof (keeps_trans _ _ _ _ Hk Hk2) as Hk3.
    split; [done|]. split; [done|]. intros _ p. rewrite <- (kp_usable _ _ _ Hk3). apply Hno.
Qed.
(** Memory for a page: its place in the map, or a block *)
Definition page_memory (e : penv) (num np pgno : Z) (s : pgstate) : option Z * pgstate :=
  if pe_writemap e then (Some (pe_psize e * pgno), s) else mdb_page_malloc num np s.
Lemma memory_same e num np pgno s : exists a dp mem,
  let s' := {| pg_head := pg_head s; pg_last := pg_last s; pg_next := pg_next s; pg_dirty := pg_dirty s; pg_room := pg_room s; pg_dpages := dp; pg_mem := mem |} in
  page_memory e num np pgno s = (a, s') /\
  match a with Some a => granted s s' /\ (pe_writemap e = true -> a = pe_psize e * pgno) | None => refused s s' end.
Proof.
  unfold page_memory. destruct (pe_writemap e).
  { exists (Some (pe_psize e * pgno)), (pg_dpages s), (pg_mem s). cbn zeta. split; [by destruct s|]. split; [by apply granted_refl|done]. }
  unfold mdb_page_malloc. destruct (pg_dpages s) as [|p l] eqn:E; [|destruct (num =? 1)].
  1, 3: destruct (script_next true (pg_mem s)) as [ok mem] eqn:Em; exists (if ok then Some np else None), (pg_dpages s), mem; cbn zeta; rewrite <- ?E; (split; [done|]);
    destruct ok; [split; [by eapply script_granted|done]|by eapply script_refused].
  exists (Some p), l, (pg_mem s). cbn zeta. split; [done|]. split; [by apply granted_refl|done].
Qed.
(** Records may have been read, none of a transaction that a reader still needs. *)
Definition reads_on (e : penv) (s s' : pgstate) : Prop := pg_last s <= pg_last s' /\ (pg_last s' = pg_last s \/ pg_last s' < mdb_find_oldest e).
(** The pages [p ..] leave the free ones. *)
Definition reuses (e : penv) (p num : Z) (s s' : pgstate) : Prop :=
  all_free e s ≡ₚ seqZ p num ++ all_free e s' /\ usable e s ≡ₚ seqZ p num ++ usable e s' /\ pg_next s' = pg_next s.
(** The file grows. *)
Definition extends (e : penv) (p num : Z) (s s' : pgstate) : Prop :=
  p = pg_next s /\ pg_next s' = p + num /\ p + num < pe_maxpg e /\ all_free e s' ≡ₚ all_free e s /\ usable e s' ≡ₚ usable e s /\
  (3 < pe_txnid e -> forall q, ~ seqZ q num ⊆ usable e s).
(** The page number [p] was chosen, memory is there: the state after the call *)
Lemma join_ok e s s1 ds p a next dp mem :
  pool_ok e s -> dirty_ok e s ds -> pg_room s <> 0 -> same_rest s s1 -> head_wf s1 -> (pg_head s1 <> None -> head_ids s1 <> []) -> 0 <= pg_last s1 < 2 ^ 64 - 1 ->
  NoDup (all_free e s1) -> all_free e s1 ⊆ all_free e s -> p ∉ ds.*1 -> p ∉ all_free e s1 -> pg_next s <= next < P_INVALID -> p < next ->
  exists s', add_dirty e next p a {| pg_head := pg_head s1; pg_last := pg_last s1; pg_next := pg_next s1; pg_dirty := pg_dirty s1; pg_room := pg_room s1; pg_dpages := dp; pg_mem := mem |} = Done s' /\
    pool_ok e s' /\ pg_room s' = pg_room s - 1 /\ (exists ds', dirty_ok e s' ds' /\ (p, a) ∈ ds') /\
    all_free e s' = all_free e s1 /\ usable e s' = usable e s1 /\ pg_next s' = next /\ pg_last s' = pg_last s1 /\ pg_mem s' = mem.
Proof.
  intros H Hds E0 [R1 R2 R3] Hw Hne Hl Hnd Hsub Hp Hpf Hnext Hlt. pose proof H as [Hdb _ _ _ _ Hbelow Hnx Hsize Hroom _]. set (s2 := {| pg_head := pg_head s1 |}).
  assert (Hds2 : dirty_ok e s2 ds) by (apply (dirty_same e s); [by constructor|done|done]).
  destruct (add_dirty_ok e s2 ds p a next Hds2) as (s3 & ds' & E & Hds3 & Hperm & E3); [cbn; lia|done|done|cbn; lia|done|].
  exists s3. split; [done|]. assert (Ef : all_free e s3 = all_free e s1) by (rewrite E3; done). assert (Eu : usable e s3 = usable e s1) by (rewrite E3; done).
  assert (En : pg_next s3 = next) by (by rewrite E3). assert (Er : pg_room s3 = pg_room s - 1) by (rewrite E3; cbn; lia).
  split; [|split; [done|split; [exists ds'; split; [done|]; rewrite Hperm; by left|split; [done|split; [done|split; [done|split; by rewrite E3]]]]]].
  constructor; rewrite ?Ef, ?En, ?Er; try done; [rewrite E3; exact Hw|rewrite E3; exact Hne|rewrite E3; exact Hl| |lia|lia|by exists ds'].
  apply Forall_forall. intros x Hx. rewrite Forall_forall in Hbelow. apply Hsub, Hbelow in Hx. lia.
Qed.
(** What the call leaves *)
Definition alloc_result (e : penv) (num : Z) (s : pgstate) (rc : Z) (r : option (Z * Z)) (s' : pgstate) : Prop :=
  match r with
  | Some (p, a) => rc = 0 /\ granted s s' /\ pool_ok e s' /\ pg_room s' = pg_room s - 1 /\ (exists ds', dirty_ok e s' ds' /\ (p, a) ∈ ds') /\
      (pe_writemap e = true -> a = pe_psize e * p) /\ reads_on e s s' /\ (reuses e p num s s' \/ extends e p num s s')
  | None => rc = MDB_TXN_FULL /\ pg_room s = 0 \/
      rc = MDB_MAP_FULL /\ pe_maxpg e <= pg_next s + num /\ (3 < pe_txnid e -> forall q, ~ seqZ q num ⊆ usable e s) \/
      rc = ENOMEM /\ refused s s'
  end.
Lemma page_alloc_ok e junk num np s : pool_ok e s -> 1 <= num ->
  exists rc r s', mdb_page_alloc e junk num np s = Done (rc, r, s') /\ alloc_result e num s rc r s'.
Proof.
  intros H Hnum. unfold mdb_page_alloc. destruct (Z.eqb_spec (pg_room s) 0) as [E0|E0].
  { exists MDB_TXN_FULL, None, s. split; [done|]. by left. }
  destruct (choose_ok e junk num s H Hnum) as (rc & pg & s1 & -> & Hc). cbn [obind].
  pose proof H as [_ _ _ Hl0 Hnd Hbelow Hnext Hsize _ (ds & Hds)]. rewrite Forall_forall in Hbelow.
  assert (Hown : forall d, d ∈ ds.*1 -> d < pg_next s /\ d ∉ all_free e s) by (apply Forall_forall, (dy_own _ _ _ Hds)).
  fold (page_memory e num np (default (pg_next s1) pg) s1). destruct pg as [p|].
  - destruct Hc as (-> & Hg1 & Ht & Hne). change (0 =? 0) with true. cbn [negb]. rewrite bool_decide_eq_false_2 by done. cbn [andb from_option id].
    destruct (memory_same e num np p s1) as ([a|] & dp & mem & -> & Hm).
    2: { do 3 eexists. split; [done|]. right; right. split; [done|]. by eapply granted_refused. }
    destruct Hm as [Hg2 Ha]. lazy beta zeta iota delta [from_option id].
    pose proof (tk_free _ _ _ _ _ Ht) as Hf. pose proof (tk_last _ _ _ _ _ Ht) as Hl. pose proof (sr_next _ _ (tk_rest _ _ _ _ _ Ht)) as R1.
    assert (Hin : p ∈ all_free e s) by (rewrite Hf; apply elem_of_app; left; apply elem_of_seqZ; lia). pose proof (Hbelow _ Hin) as Hp.
    rewrite Hf in Hnd. apply NoDup_app in Hnd as (_ & Hout & Hnd).
    destruct (join_ok e s s1 ds p a (pg_next s1) dp mem H Hds E0 (tk_rest _ _ _ _ _ Ht) (tk_head _ _ _ _ _ Ht) Hne) as (s3 & E & Hp3 & Hr3 & Hd3 & Ef & Eu & En & El & Em);
      [lia|done|rewrite Hf; intros x Hx; apply elem_of_app; by right|intros Hd; by apply Hown in Hd as [_ Hd]|apply Hout, elem_of_seqZ; lia|lia|lia|].
    cbn [pg_next]. rewrite E. cbn [obind]. exists 0, (Some (p, a)), s3. do 2 (split; [done|]).
    split; [eapply granted_trans; [exact Hg1|]; eapply granted_trans; [exact Hg2|by apply granted_refl]|]. do 4 (split; [done|]).
    split; [unfold reads_on; rewrite El; split; [lia|apply (tk_read _ _ _ _ _ Ht)]|]. left. split; [by rewrite Ef|]. split; [rewrite Eu; apply (tk_usable _ _ _ _ _ Ht)|lia].
  - destruct Hc as ([[-> Hg1]|[-> Hg1]] & Hc); [|change (ENOMEM =? 0) with false; cbn [negb]; do 3 eexists; split; [done|]; by right; right].
    destruct (Hc eq_refl) as (Hk & Hne & Hno). clear Hc. change (0 =? 0) with true. cbn [negb]. rewrite bool_decide_eq_true_2 by done. cbn [andb from_option id].
    pose proof (sr_next _ _ (kp_rest _ _ _ Hk)) as R1. rewrite R1. destruct (Z.leb_spec (pe_maxpg e) (pg_next s + num)) as [Hfull|Hfits].
    { exists MDB_MAP_FULL, None, s1. split; [done|]. by right; left. }
    destruct (memory_same e num np (pg_next s) s1) as ([a|] & dp & mem & -> & Hm).
    2: { do 3 eexists. split; [done|]. right; right. split; [done|]. by eapply granted_refused. }
    destruct Hm as [Hg2 Ha]. lazy beta zeta iota delta [from_option id]. cbn [pg_next].
    pose proof (kp_free _ _ _ Hk) as Hf. pose proof (kp_last _ _ _ Hk) as Hl.
    destruct (join_ok e s s1 ds (pg_next s) a (pg_next s + num) dp mem H Hds E0 (kp_rest _ _ _ Hk) (kp_head _ _ _ Hk) Hne) as (s3 & E & Hp3 & Hr3 & Hd3 & Ef & Eu & En & El & Em);
      [lia|by rewrite Hf|intros x; by rewrite Hf|intros Hd; apply Hown in Hd; lia|rewrite Hf; intros Hd; apply Hbelow in Hd; lia|lia|lia|].
    rewrite R1 in E |- *. rewrite (wrap_small 64) by (unfold P_INVALID in *; lia). rewrite E. cbn [obind]. exists 0, (Some (pg_next s, a)), s3. do 2 (split; [done|]).
    split; [eapply granted_trans; [exact Hg1|]; eapply granted_trans; [exact Hg2|by apply granted_refl]|]. do 4 (split; [done|]).
    split; [unfold reads_on; rewrite El; split; [lia|apply (kp_read _ _ _ Hk)]|].
    right. split; [done|]. split; [done|]. split; [lia|]. split; [by rewrite Ef|]. split; [rewrite Eu; apply (kp_usable _ _ _ Hk)|done].
Qed.

(** ** Snapshots *)

(** [in_use t p]: the tree of transaction [t] has the page [p].  A page put into
    the free database by transaction [t] is in no tree from [t] on. *)
Record snapshots_ok (e : penv) (s : pgstate) (in_use : Z -> Z -> Prop) : Prop := {
  sn_file : forall t p, in_use t p -> p < pg_next s;
  sn_free : forall r p t, r ∈ pe_freedb e -> p ∈ ids_of (snd r) -> fst r <= t -> ~ in_use t p;
  sn_head : forall p t, p ∈ head_ids s -> pg_last s <= t -> ~ in_use t p;
  sn_read : head_ids s <> [] -> pg_last s < mdb_find_oldest e
}.
Lemma elem_of_pages p rs : p ∈ pages_of rs -> exists r, r ∈ rs /\ p ∈ ids_of (snd r).
Proof.
  unfold pages_of. intros Hp. apply list_elem_of_In, in_concat in Hp as (l & Hl & Hp%list_elem_of_In). apply list_elem_of_In, list_elem_of_fmap in Hl as (r & -> & Hr). by exists r.
Qed.
Lemma pages_elem_of p r rs : r ∈ rs -> p ∈ ids_of (snd r) -> p ∈ pages_of rs.
Proof.
  intros Hr Hp. unfold pages_of. apply list_elem_of_In, in_concat. exists (ids_of (snd r)). split; [|by apply list_elem_of_In]. apply list_elem_of_In. by apply (list_elem_of_fmap_2 (fun r => ids_of (snd r))).
Qed.
Lemma usable_unused e s in_use p t : snapshots_ok e s in_use -> p ∈ usable e s -> mdb_find_oldest e <= t -> ~ in_use t p.
Proof.
  intros H [Hp|Hp]%elem_of_app Ht.
  - apply (sn_head _ _ _ H); [done|]. pose proof (sn_read _ _ _ H) as Hr. assert (head_ids s <> []) as Hne by (intros E; rewrite E in Hp; by apply elem_of_nil in Hp).
    specialize (Hr Hne). lia.
  - apply elem_of_pages in Hp as (r & [Hr1 [_ Hr2]%list_elem_of_filter]%list_elem_of_filter & Hp). eapply sn_free; [done|done|done|lia].
Qed.
(** A page that is in the list now was there, or in a record read since. *)
Lemma head_origin e s s' p : NoDup (all_free e s') -> all_free e s' ⊆ all_free e s -> p ∈ head_ids s' ->
  p ∈ head_ids s \/ exists r, r ∈ pe_freedb e /\ p ∈ ids_of (snd r) /\ pg_last s < fst r <= pg_last s'.
Proof.
  intros Hnd Hsub Hp. assert (Hin : p ∈ all_free e s) by (apply Hsub, elem_of_app; by left). apply elem_of_app in Hin as [Hin|Hin]; [by left|right].
  apply elem_of_pages in Hin as (r & [Hr1 Hr2]%list_elem_of_filter & Hpr). exists r. split; [done|]. split; [done|]. split; [done|].
  destruct (Z.le_gt_cases (fst r) (pg_last s')) as [|Hgt]; [done|]. apply NoDup_app in Hnd as (_ & Hnd & _). exfalso. apply (Hnd _ Hp).
  apply (pages_elem_of p r); [|done]. by apply list_elem_of_filter.
Qed.
Lemma snapshots_kept e s s' in_use : snapshots_ok e s in_use -> NoDup (all_free e s') -> all_free e s' ⊆ all_free e s -> pg_next s <= pg_next s' -> reads_on e s s' ->
  snapshots_ok e s' in_use.
Proof.
  intros H Hnd Hsub Hnext [Hl Hr]. pose proof (head_origin e s s') as Ho. constructor.
  - intros t p Hp. apply (sn_file _ _ _ H) in Hp. lia.
  - apply (sn_free _ _ _ H).
  - intros p t Hp Ht. destruct (Ho p Hnd Hsub Hp) as [Hp'|(r & Hr1 & Hr2 & Hr3)]; [apply (sn_head _ _ _ H); [done|lia]|eapply sn_free; [done|done|done|lia]].
  - intros Hne. destruct Hr as [E|]; [|done]. destruct (head_ids s') as [|p l] eqn:El; [done|]. rewrite E. apply (sn_read _ _ _ H).
    destruct (Ho p Hnd Hsub ltac:(by left)) as [Hp'|(r & _ & _ & Hr3)]; [|lia]. intros E2. rewrite E2 in Hp'. by apply elem_of_nil in Hp'.
Qed.

(** ** Properties *)

(** C13: page allocation is exact: for every state of the free pages, with pages
    in memory or in the map (MDB_WRITEMAP, as FineDB opens its environments), any
    number of pages and any pattern of answers of malloc, [mdb_page_alloc] ends.
    If it returns pages, no allocation it made was refused; they are numbers in a
    row that were free and usable (and then exactly those leave the free pages),
    or new ones at the end of the file, below the limit of the map, and new ones
    only if no such row of usable pages exists, although the free database is
    read record by record; the first page joins the dirty list with its address,
    the place in the map with MDB_WRITEMAP; the room for dirty pages drops by one
    and the free pages stay distinct and apart from the transaction's own.  It
    fails only with MDB_TXN_FULL when the dirty list is full, with MDB_MAP_FULL
    when the file can not grow and no usable row exists, and with ENOMEM when an
    allocation it made was refused. *)
Theorem page_alloc_correct (e : penv) (junk : nat -> Z) (num np : Z) (s : pgstate) :
  pool_ok e s -> 1 <= num ->
  exists rc r s', mdb_page_alloc e junk num np s = Done (rc, r, s') /\
    match r with
    | Some (p, a) => rc = 0 /\ granted s s' /\ pool_ok e s' /\ pg_room s' = pg_room s - 1 /\ (exists ds', dirty_ok e s' ds' /\ (p, a) ∈ ds') /\
        (pe_writemap e = true -> a = pe_psize e * p) /\ reads_on e s s' /\ (reuses e p num s s' \/ extends e p num s s')
    | None => rc = MDB_TXN_FULL /\ pg_room s = 0 \/
        rc = MDB_MAP_FULL /\ pe_maxpg e <= pg_next s + num /\ (3 < pe_txnid e -> forall q, ~ seqZ q num ⊆ usable e s) \/
        rc = ENOMEM /\ refused s s'
    end.
Proof. apply page_alloc_ok. Qed.

(** An environment with two records in the free database, the second one too
    new for the reader of transaction 7 *)
Definition some_env_in (writemap : bool) : penv :=
  {| pe_txnid := 10; pe_readers := [(4021, 7); (0, 3)]; pe_freedb := [(5, [3; 21; 13; 12; 0]); (8, [1; 25])]; pe_maxpg := 100; pe_psize := 96; pe_writemap := writemap |}.
Abbreviation some_env := (some_env_in true).
Definition some_state : pgstate :=
  {| pg_head := None; pg_last := 0; pg_next := 30; pg_dirty := (0, 0) :: replicate (Z.to_nat MDB_IDL_UM_MAX) (0, 0); pg_room := MDB_IDL_UM_MAX; pg_dpages := []; pg_mem := [] |}.
Lemma some_pool writemap : pool_ok (some_env_in writemap) some_state.
Proof.
  constructor; [|done|done|done| | |done|done|done|].
  - constructor; [by repeat constructor| |by repeat constructor]. repeat constructor; [exists [21; 13; 12], [0]|exists [25], []]; (split; [done|by repeat constructor]).
  - vm_compute. repeat constructor; rewrite ?elem_of_cons, ?elem_of_nil; intuition discriminate.
  - vm_compute. repeat constructor; intuition discriminate.
  - exists []. constructor; [|done|constructor|constructor|constructor]. exists 0, (replicate (Z.to_nat MDB_IDL_UM_MAX) (0, 0)). split; [done|]. rewrite lenZ_replicate. cbn [some_state pg_room]. lia.
Qed.
Lemma page_alloc_correct_witness :
  exists rc r s', mdb_page_alloc some_env (fun _ => 0) 2 900 some_state = Done (rc, r, s') /\
    match r with
    | Some (p, a) => rc = 0 /\ granted some_state s' /\ pool_ok some_env s' /\ pg_room s' = pg_room some_state - 1 /\ (exists ds', dirty_ok some_env s' ds' /\ (p, a) ∈ ds') /\
        (pe_writemap some_env = true -> a = pe_psize some_env * p) /\
        reads_on some_env some_state s' /\ (reuses some_env p 2 some_state s' \/ extends some_env p 2 some_state s')
    | None => rc = MDB_TXN_FULL /\ pg_room some_state = 0 \/
        rc = MDB_MAP_FULL /\ pe_maxpg some_env <= pg_next some_state + 2 /\ (3 < pe_txnid some_env -> forall q, ~ seqZ q 2 ⊆ usable some_env some_state) \/
        rc = ENOMEM /\ refused some_state s'
    end.
Proof. apply (page_alloc_correct some_env (fun _ => 0) 2 900 some_state); [apply some_pool|lia]. Defined.
(** Two pages in a row are found in the record that can be used; three are not. *)
Example alloc_two :
  match choose some_env (fun _ => 0) 2 some_state with Done (0, Some p, s) => (p, head_ids s, pg_last s) | _ => (0, [], 0) end = (12, [21], 5).
Proof. vm_compute. reflexivity. Qed.
Example alloc_three :
  match choose some_env (fun _ => 0) 3 some_state with Done (0, None, s) => (head_ids s, pg_last s) | _ => ([], 0) end = ([21; 13; 12], 5).
Proof. vm_compute. reflexivity. Qed.

(** C12: a writer never touches a page that someone can read: whatever pages
    [mdb_page_alloc] returns, in memory or in the map itself (MDB_WRITEMAP, where
    a write to them is at once a write to the file), none of them is in the tree
    of a registered reader
    or in the last committed tree, which a crash would fall back to, provided
    that pages are freed by the transaction that takes them out of the tree; and
    this holds for the next call too. *)
Theorem alloc_never_overwrites (e : penv) (junk : nat -> Z) (num np : Z) (s : pgstate) (in_use : Z -> Z -> Prop) :
  pool_ok e s -> snapshots_ok e s in_use -> 1 <= num -> 0 < pe_txnid e < 2 ^ 64 ->
  exists rc r s', mdb_page_alloc e junk num np s = Done (rc, r, s') /\
    match r with
    | None => rc <> 0
    | Some (p, _) =>
        snapshots_ok e s' in_use /\
        forall q, p <= q < p + num -> ~ in_use (pe_txnid e - 1) q /\ Forall (fun rd => fst rd <> 0 -> ~ in_use (snd rd) q) (pe_readers e)
    end.
Proof.
  intros H Hs Hnum Ht. destruct (page_alloc_ok e junk num np s H Hnum) as (rc & r & s' & E & Hr). exists rc, r, s'. split; [done|].
  destruct r as [[p a]|]; [|destruct Hr as [[-> _]|[[-> _]|[-> _]]]; discriminate].
  destruct Hr as (_ & _ & Hp & _ & _ & _ & Hread & Hr). assert (Hsub : all_free e s' ⊆ all_free e s /\ pg_next s <= pg_next s').
  { destruct Hr as [(Hf & _ & En)|(-> & En & _ & Hf & _)]; [split; [rewrite Hf; intros x Hx; apply elem_of_app; by right|lia]|split; [intros x; by rewrite Hf|lia]]. }
  destruct Hsub as [Hsub1 Hsub2]. split; [apply (snapshots_kept e s); [done|apply (pk_free _ _ Hp)|done..]|]. intros q Hq.
  assert (Hfree : forall t, mdb_find_oldest e <= t -> ~ in_use t q).
  { intros t Hot. destruct Hr as [(_ & Hu & _)|(-> & _)].
    - eapply usable_unused; [done| |done]. rewrite Hu. apply elem_of_app. left. apply elem_of_seqZ. lia.
    - intros Hin. apply (sn_file _ _ _ Hs) in Hin. lia. }
  destruct (oldest_least e) as [Hold1 Hold2]. rewrite wrap_small in Hold2 by lia. split; [by apply Hfree|].
  eapply Forall_impl; [exact Hold1|]. cbn beta. intros rd Hrd Hn. by apply Hfree, Hrd.
Qed.
Lemma alloc_never_overwrites_witness :
  exists rc r s', mdb_page_alloc some_env (fun _ => 0) 1 900 some_state = Done (rc, r, s') /\
    match r with
    | None => rc <> 0
    | Some (p, _) =>
        snapshots_ok some_env s' (fun t p => p = 25 /\ t < 8) /\
        forall q, p <= q < p + 1 -> ~ (q = 25 /\ 10 - 1 < 8) /\ Forall (fun rd => fst rd <> 0 -> ~ (q = 25 /\ snd rd < 8)) (pe_readers some_env)
    end.
Proof.
  apply (alloc_never_overwrites some_env (fun _ => 0) 1 900 some_state (fun t p => p = 25 /\ t < 8)); [apply some_pool| |lia|done].
  constructor.
  - intros t p [-> _]. done.
  - intros r p t Hr Hp Ht [-> Hlt]. cbn [some_env pe_freedb] in Hr. apply elem_of_cons in Hr as [->|Hr].
    + change (ids_of (snd (5, [3; 21; 13; 12; 0]))) with [21; 13; 12] in Hp. rewrite !elem_of_cons, elem_of_nil in Hp. intuition discriminate.
    + apply list_elem_of_singleton in Hr as ->. cbn [fst] in Ht. lia.
  - intros p t Hp. by apply elem_of_nil in Hp.
  - done.
Defined.
