(* ===== verification/Touch.v ===== *)
(** * Touch: copy on write, and overflow pages given back
    (lib/lmdb/mdb.c: mdb_page_copy, mdb_page_touch, mdb_ovpage_free)

    Before a page of the committed tree is changed it is copied to a new one:
    the parent then points to the copy, and the old page is noted in the list of
    pages freed by the transaction.  Transactions have no parent; what
    mdb_page_touch does to the other cursors is left out. *)
From S2P Require Import Prelude Dynabin.
From S2P Require Import Lmdb Midl Pages LeafMap Split Merge Cursor Alloc.

(** ** Copying a page *)
Fixpoint copy_pointers (n : nat) (i : Z) (src dst : bytes) : outcome bytes :=
  match n with
  | O => Done dst
  | S n => olet! p := mp_ptr src i in olet! dst := set_ptr dst i p in copy_pointers n (i + 1) src dst
  end.
Definition mdb_page_copy (dst src : MDB_page) (psize : Z) : outcome MDB_page :=
  olet! raw :=
    (if IS_LEAF2 src then
       olet! d := blk_read (mp_raw src) PAGEHDRSZ (psize - PAGEHDRSZ - SIZELEFT src) in
       blk_write (mp_raw dst) PAGEHDRSZ d
     else
       olet! raw := copy_pointers (Z.to_nat (NUMKEYS src)) 0 (mp_raw src) (mp_raw dst) in
       olet! d := blk_read (mp_raw src) (mp_upper src) (psize - mp_upper src) in
       blk_write raw (mp_upper src) d) in
  Done {| mp_pgno := mp_pgno dst; mp_flags := Z.lor (mp_flags src) P_DIRTY; mp_lower := mp_lower src; mp_upper := mp_upper src; mp_raw := raw |}.

(** ** Making a page writable.  [above] is the parent with the index of the page,
    [None] for the root; [raw] is the memory of the new page and [np] its
    address. *)
Record touched := { to_page : MDB_page; to_parent : option MDB_page; to_root : option Z; to_free : MDB_IDL }.
Definition mdb_page_touch (e : penv) (junk : nat -> Z) (np : Z) (raw : bytes) (mp : MDB_page) (above : option (MDB_page * Z)) (free_pgs : MDB_IDL) (s : pgstate)
    : outcome (Z * touched * pgstate) :=
  let same := {| to_page := mp; to_parent := option_map fst above; to_root := None; to_free := free_pgs |} in
  if F_ISSET (mp_flags mp) P_DIRTY then Done (0, same, s)
  else
    olet! '(rc, r, s) := mdb_page_alloc e junk 1 np s in
    match r with
    | None => Done (rc, same, s)
    | Some (pgno, _) =>
        if mp_pgno mp =? pgno then Fault AssertFailed
        else
          olet! '((_, free_pgs), mem) := mdb_midl_append free_pgs (mp_pgno mp) junk (pg_mem s) in
          let s := with_mem mem s in
          olet! page :=
            (if negb (SIZELEFT mp =? 0) then mdb_page_copy {| mp_pgno := pgno; mp_flags := 0; mp_lower := 0; mp_upper := 0; mp_raw := raw |} mp (pe_psize e)
             else
               olet! d := blk_read (mp_raw mp) 0 (pe_psize e) in
               olet! raw := blk_write raw 0 d in
               Done {| mp_pgno := pgno; mp_flags := Z.lor (mp_flags mp) P_DIRTY; mp_lower := mp_lower mp; mp_upper := mp_upper mp; mp_raw := raw |}) in
          match above with
          | Some (parent, ki) =>
              olet! ofs := mp_ptr (mp_raw parent) ki in
              olet! praw := SETPGNO (mp_raw parent) ofs pgno in
              let parent := {| mp_pgno := mp_pgno parent; mp_flags := mp_flags parent; mp_lower := mp_lower parent; mp_upper := mp_upper parent; mp_raw := praw |} in
              Done (0, {| to_page := page; to_parent := Some parent; to_root := None; to_free := free_pgs |}, s)
          | None => Done (0, {| to_page := page; to_parent := None; to_root := Some pgno; to_free := free_pgs |}, s)
          end
    end.

(** ** Giving overflow pages back *)

(** [for (; x < dl[0].mid; x++) dl[x] = dl[x+1]] *)
Fixpoint dirty_shift (n : nat) (x : Z) (dl : list MDB_ID2) : outcome (list MDB_ID2) :=
  match n with
  | O => Done dl
  | S n => olet! v := get dl (x + 1) in olet! dl := put dl x v in dirty_shift n (x + 1) dl
  end.
(** [for (i = mop[0]; i>0; i--)]: the place of [pg] *)
Fixpoint make_gap (i : nat) (j pg : Z) (mop : list Z) : outcome (Z * Z * list Z) :=
  match i with
  | O => Done (0, j, mop)
  | S i' =>
      olet! v := get mop (Z.of_nat i) in
      if v <? pg then olet! mop := put mop j v in make_gap i' (j - 1) pg mop
      else Done (Z.of_nat i, j, mop)
  end.
(** [while (j>i) mop[j--] = pg++] *)
Fixpoint fill_gap (n : nat) (j pg : Z) (mop : list Z) : outcome (list Z) :=
  match n with
  | O => Done mop
  | S n => olet! mop := put mop j pg in fill_gap n (j - 1) (pg + 1) mop
  end.
Fixpoint append_pages (n : nat) (pg : Z) (junk : nat -> Z) (free_pgs : MDB_IDL) (mem : alloc) : outcome (MDB_IDL * alloc) :=
  match n with
  | O => Done (free_pgs, mem)
  | S n => olet! '((_, free_pgs), mem) := mdb_midl_append free_pgs pg junk mem in append_pages n (pg + 1) junk free_pgs mem
  end.
Definition remove_dirty (pg : Z) (dl : list MDB_ID2) : outcome (list MDB_ID2) :=
  olet! x := mdb_mid2l_search dl pg in
  olet! h := get dl 0 in
  olet! dl := dirty_shift (Z.to_nat (h.1 - x)) x dl in
  olet! h := get dl 0 in
  put dl 0 (h.1 - 1, h.2).
(** The pages [pg ..] into the list *)
Definition give_back (mop : MDB_IDL) (pg ovpages : Z) (junk : nat -> Z) (mem : alloc) : outcome (Z * MDB_IDL * alloc) :=
  olet! n := get (idl_cells mop) 0 in
  let j := n + ovpages in
  olet! '((rc, mop), mem) := (if idl_cap mop <? j then mdb_midl_grow mop ovpages junk mem else Done ((0, mop), mem)) in
  if negb (rc =? 0) then Done (rc, mop, mem)
  else
    olet! '(i, j, c) := make_gap (Z.to_nat n) j pg (idl_cells mop) in
    olet! c := fill_gap (Z.to_nat (j - i)) j pg c in
    olet! c := put c 0 (n + ovpages) in
    Done (0, {| idl_cap := idl_cap mop; idl_cells := c |}, mem).
(** The page is the number [pg], its count [ovpages] and whether it is dirty;
    [md_overflow_pages] is the caller's. *)
Definition mdb_ovpage_free (junk : nat -> Z) (pg ovpages : Z) (dirty : bool) (free_pgs : MDB_IDL) (s : pgstate) : outcome (Z * MDB_IDL * pgstate) :=
  match pg_head s with
  | Some mop =>
      if dirty then
        olet! dl := remove_dirty pg (pg_dirty s) in
        olet! '(rc, mop, mem) := give_back mop pg ovpages junk (pg_mem s) in
        Done (rc, free_pgs, {| pg_head := Some mop; pg_last := pg_last s; pg_next := pg_next s; pg_dirty := dl; pg_room := pg_room s; pg_dpages := pg_dpages s; pg_mem := mem |})
      else olet! '(free_pgs, mem) := append_pages (Z.to_nat ovpages) pg junk free_pgs (pg_mem s) in Done (0, free_pgs, with_mem mem s)
  | None => olet! '(free_pgs, mem) := append_pages (Z.to_nat ovpages) pg junk free_pgs (pg_mem s) in Done (0, free_pgs, with_mem mem s)
  end.

(** ** Lemmas: pages that read the same *)
Lemma rep_transfer mp mp' ns : page_rep mp ns ->
  IS_LEAF mp' = IS_LEAF mp -> IS_LEAF2 mp' = IS_LEAF2 mp -> mp_lower mp' = mp_lower mp -> mp_upper mp' = mp_upper mp -> lenZ (mp_raw mp') = lenZ (mp_raw mp) ->
  (forall i, 0 <= i < lenZ ns -> mp_ptr (mp_raw mp') i = mp_ptr (mp_raw mp) i) ->
  (forall q m, mp_upper mp <= q -> q + m <= lenZ (mp_raw mp) -> blk_read (mp_raw mp') q m = blk_read (mp_raw mp) q m) -> page_rep mp' ns.
Proof.
  intros H E1 E2 E3 E4 E5 Hp Hr. constructor.
  - rewrite E2. apply (pr_kind _ _ H).
  - rewrite E5. apply (pr_size _ _ H).
  - rewrite E3. apply (pr_lower _ _ H).
  - rewrite E3, E4. apply (pr_room _ _ H).
  - intros i p nd Hi. rewrite Hp; [by eapply pr_ptr|]. apply lookup_lt_Some in Hi. unfold lenZ. lia.
  - rewrite E1, E4. apply (pr_ok _ _ H).
  - intros i p nd Hi. destruct (rep_ptr_range _ _ _ _ _ H Hi) as (? & ? & ?). rewrite Hr by lia. by eapply pr_node.
  - apply (pr_apart _ _ H).
  - rewrite E4, E5. apply (pr_total _ _ H).
Qed.
Lemma dirty_kind flags b : b = P_LEAF \/ b = P_LEAF2 \/ b = P_BRANCH -> F_ISSET (Z.lor flags P_DIRTY) b = F_ISSET flags b.
Proof.
  intros Hb. unfold F_ISSET. rewrite Z.land_lor_distr_l. destruct Hb as [-> |[-> | ->]]; by rewrite Z.lor_0_r.
Qed.
Lemma copy_pointers_ok n0 src : forall n i dst, Z.of_nat n + i = n0 -> 0 <= i -> 16 + 2 * n0 <= lenZ dst -> lenZ dst = lenZ src ->
  (forall t, i <= t < n0 -> exists p, mp_ptr src t = Done p /\ 0 <= p < 2 ^ 16) ->
  exists dst', copy_pointers n i src dst = Done dst' /\ lenZ dst' = lenZ dst /\ (forall t, 0 <= t < i -> mp_ptr dst' t = mp_ptr dst t) /\
    (forall t, i <= t < n0 -> mp_ptr dst' t = mp_ptr src t).
Proof.
  induction n as [|n IH]; intros i dst Hn Hi Hl Hls Hp; cbn [copy_pointers].
  { exists dst. split; [done|]. split; [done|]. split; [done|]. lia. }
  destruct (Hp i) as (p & E & Hr); [lia|]. rewrite E. cbn [obind]. destruct (set_ptr_ok n0 dst i p) as (d1 & -> & L1 & P1 & O1 & _); [lia|lia|done|]. cbn [obind].
  destruct (IH (i + 1) d1) as (d2 & -> & L2 & P2 & O2); [lia|lia|lia|lia|intros t Ht; apply Hp; lia|]. exists d2. split; [done|]. split; [lia|]. split.
  - intros t Ht. rewrite P2, O1 by lia. done.
  - intros t Ht. destruct (decide (t = i)) as [->|]; [|apply O2; lia]. rewrite P2, P1 by lia. done.
Qed.
Lemma ptr_value mp ns t : page_rep mp ns -> 0 <= t < lenZ ns -> exists p, mp_ptr (mp_raw mp) t = Done p /\ 0 <= p < 2 ^ 16.
Proof.
  intros H Ht. destruct (lookup_page ns t Ht) as (p & nd & Hi). exists p. pose proof (pr_ptr _ _ H _ _ _ Hi) as E. rewrite Z2Nat.id in E by lia. split; [done|].
  destruct (rep_ptr_range _ _ _ _ _ H Hi) as (? & ? & ?). pose proof (pr_size _ _ H). pose proof (lenZ_nonneg ns). lia.
Qed.
(** A copy has the same nodes at the same places. *)
Lemma page_copy_ok dst src ns psize : page_rep src ns -> lenZ (mp_raw src) = psize -> lenZ (mp_raw dst) = psize ->
  exists mp', mdb_page_copy dst src psize = Done mp' /\ page_rep mp' ns /\ mp_pgno mp' = mp_pgno dst /\ mp_flags mp' = Z.lor (mp_flags src) P_DIRTY /\ lenZ (mp_raw mp') = psize.
Proof.
  intros H Hs Hd. unfold mdb_page_copy. rewrite (pr_kind _ _ H), (NUMKEYS_rep _ _ H). pose proof (lenZ_nonneg ns) as Hn.
  pose proof (pr_lower _ _ H) as Hlo. pose proof (pr_room _ _ H) as Hroom. pose proof (rep_upper _ _ H) as Hup.
  destruct (copy_pointers_ok (lenZ ns) (mp_raw src) (Z.to_nat (lenZ ns)) 0 (mp_raw dst)) as (d1 & -> & L1 & _ & O1); [lia|lia|lia|lia|intros t Ht; by apply (ptr_value _ _ _ H)|].
  cbn [obind]. rewrite blk_read_ok by lia. cbn [obind]. set (d := takeZ _ _). assert (Hr : blk_read (mp_raw src) (mp_upper src) (psize - mp_upper src) = Done d) by (by rewrite blk_read_ok by lia).
  pose proof (lenZ_blk_read _ _ _ _ Hr) as Ld. assert (Hw : exists d2, blk_write d1 (mp_upper src) d = Done d2) by (rewrite blk_write_ok by lia; by eexists).
  destruct Hw as [d2 Hw]. rewrite Hw. cbn [obind]. eexists. split; [done|]. pose proof (lenZ_blk_write _ _ _ _ Hw) as L2.
  split; [|split; [done|split; [done|cbn; lia]]]. apply (rep_transfer src); cbn [mp_raw mp_lower mp_upper mp_flags]; try done.
  - unfold IS_LEAF. cbn [mp_flags]. apply dirty_kind. by left.
  - unfold IS_LEAF2. cbn [mp_flags]. apply dirty_kind. by right; left.
  - lia.
  - intros i Hi. rewrite <- O1 by lia. eapply ld16_beside; [exact Hw|]. left. unfold ptr_pos, PAGEHDRSZ. lia.
  - intros q m Hq Hqm. destruct (Z.lt_ge_cases m 0) as [Hm|Hm].
    { unfold blk_read. rewrite (proj2 (Z.leb_gt 0 m)) by lia. by rewrite !andb_false_r. }
    rewrite (read_inside _ _ _ _ _ _ Hw) by lia. rewrite <- (read_part _ _ _ _ _ _ Hr) by lia. f_equal. lia.
Qed.
Lemma sizes_replace (ns : list (Z * pnode)) (i : nat) p q nd nd' : ns !! i = Some (p, nd) -> isize nd' = isize nd ->
  foldr (fun x t => isize x.2 + t) 0 (<[i := (q, nd')]> ns) = foldr (fun x t => isize x.2 + t) 0 ns.
Proof.
  intros Hi Hsz. revert i Hi. induction ns as [|x ns IH]; intros [|i] Hi; [done|done| |].
  - injection Hi as ->. change (<[0%nat := (q, nd')]> ((p, nd) :: ns)) with ((q, nd') :: ns). cbn [foldr snd]. lia.
  - change (<[S i := (q, nd')]> (x :: ns)) with (x :: <[i := (q, nd')]> ns). cbn [foldr]. rewrite (IH i) by done. done.
Qed.
(** A node whose image changes in place *)
Lemma rep_replace mp ns (i : nat) p nd nd' raw' : page_rep mp ns -> ns !! i = Some (p, nd) -> isize nd' = isize nd -> pnode_ok (IS_LEAF mp) nd' ->
  lenZ raw' = lenZ (mp_raw mp) -> blk_read raw' p (isize nd') = Done (image nd') ->
  (forall q m, q + m <= p \/ p + isize nd <= q -> blk_read raw' q m = blk_read (mp_raw mp) q m) ->
  page_rep {| mp_pgno := mp_pgno mp; mp_flags := mp_flags mp; mp_lower := mp_lower mp; mp_upper := mp_upper mp; mp_raw := raw' |} (<[i := (p, nd')]> ns).
Proof.
  intros H Hi Hsz Hok Hl Hr Ho. pose proof (lookup_lt_Some _ _ _ Hi) as Hlt. destruct (rep_ptr_range _ _ _ _ _ H Hi) as (Hp & Hpe & Hs).
  assert (Hlook : forall j q ne, <[i := (p, nd')]> ns !! j = Some (q, ne) -> exists nf, ns !! j = Some (q, nf) /\ isize ne = isize nf /\
    (j = i /\ ne = nd' \/ j <> i /\ ne = nf)).
  { intros j q ne. destruct (decide (j = i)) as [->|Hne]; [rewrite list_lookup_insert_eq by done; intros [= <- <-]; exists nd; by split; [|split; [|left]]|].
    rewrite list_lookup_insert_ne by done. intros Hj. exists ne. by split; [|split; [|right]]. }
  constructor; cbn [mp_raw mp_lower mp_upper]; try apply H.
  - rewrite Hl. apply H.
  - unfold lenZ. rewrite length_insert. apply H.
  - intros j q ne Hj. destruct (Hlook _ _ _ Hj) as (nf & Hj' & _). rewrite <- (pr_ptr _ _ H _ _ _ Hj'). unfold mp_ptr, ld16. rewrite Ho; [done|].
    left. apply lookup_lt_Some in Hj'. unfold ptr_pos, PAGEHDRSZ, lenZ in *. lia.
  - intros j q ne Hj. destruct (Hlook _ _ _ Hj) as (nf & Hj' & _ & [[-> ->]|[_ ->]]); [|exact (pr_ok _ _ H _ _ _ Hj')]. split; [done|]. rewrite Hi in Hj'. injection Hj' as <- <-. lia.
  - intros j q ne Hj. destruct (Hlook _ _ _ Hj) as (nf & Hj' & _ & [[-> ->]|[Hne ->]]); [rewrite Hi in Hj'; by injection Hj' as <- <-|].
    rewrite Ho; [by eapply pr_node|]. destruct (other_node _ _ _ _ _ _ _ _ H Hi Hj' Hne) as [[_ ?]|?]; [by left|by right].
  - intros j1 j2 q1 q2 n1 n2 Hne H1 H2. destruct (Hlook _ _ _ H1) as (f1 & H1' & -> & _). destruct (Hlook _ _ _ H2) as (f2 & H2' & -> & _). by eapply pr_apart.
  - rewrite Hl, <- (pr_total _ _ H). by eapply sizes_replace.
Qed.

(** ** Lemmas: the pointer in the parent *)
Lemma child_of_branch pgno key pad : 0 <= pgno < 2 ^ 48 -> child_of (branch_node pgno key pad) = pgno.
Proof. intros H. unfold child_of. cbn [branch_node pn_val pn_flags]. rewrite (lor_shiftl (_ mod 65536)) by dlia. rewrite lor_shiftl by dlia. dlia. Qed.
Lemma setpgno_parts raw ofs pgno : 0 <= pgno < 2 ^ 48 ->
  SETPGNO raw ofs pgno = write_parts [(ofs, le2 (pgno mod 2 ^ 32 mod 65536)); (ofs + 2, le2 (pgno mod 2 ^ 32 / 65536)); (ofs + 4, le2 (pgno / 2 ^ 32))] raw.
Proof.
  intros Hg. unfold SETPGNO, st16, write_parts.
  assert (Z.land pgno 0xffff = pgno mod 2 ^ 32 mod 65536) as -> by (rewrite (Z.land_ones _ 16) by lia; dlia).
  assert (u16 (Z.shiftr pgno 16) = pgno mod 2 ^ 32 / 65536) as -> by (rewrite Z.shiftr_div_pow2 by lia; unfold wrap; dlia).
  assert (u16 (Z.shiftr pgno 32) = pgno / 2 ^ 32) as -> by (rewrite Z.shiftr_div_pow2 by lia; apply wrap_small; dlia).
  destruct (blk_write raw _ _) as [r1|]; [|done]. cbn [obind]. destruct (blk_write r1 _ _) as [r2|]; [|done]. cbn [obind]. by destruct (blk_write r2 _ _).
Qed.
Lemma setpgno_ok mp ns (i : nat) p nd pgno : page_rep mp ns -> IS_LEAF mp = false -> ns !! i = Some (p, nd) -> 0 <= pgno < 2 ^ 48 ->
  exists raw', SETPGNO (mp_raw mp) p pgno = Done raw' /\
    page_rep {| mp_pgno := mp_pgno mp; mp_flags := mp_flags mp; mp_lower := mp_lower mp; mp_upper := mp_upper mp; mp_raw := raw' |}
      (<[i := (p, branch_node pgno (pn_key nd) (pn_pad nd))]> ns).
Proof.
  intros H Hleaf Hi Hg. rewrite setpgno_parts by done. destruct (rep_ptr_range _ _ _ _ _ H Hi) as (Hp & Hpe & Hs). destruct (pr_ok _ _ H _ _ _ Hi) as [Hok _].
  rewrite Hleaf in Hok. pose proof (po_data _ _ Hok) as Hd. cbn in Hd. apply lenZ_zero_nil in Hd. pose proof (isize_eq nd) as Hsz. rewrite Hd in Hsz.
  set (nd' := branch_node pgno (pn_key nd) (pn_pad nd)). assert (Hsz' : isize nd' = isize nd) by (rewrite isize_eq, Hsz; done).
  pose proof (lenZ_nonneg ns) as N1. pose proof (lenZ_nonneg (pn_key nd)) as N2. pose proof (lenZ_nonneg (pn_pad nd)) as N3. rewrite lenZ_nil in Hsz.
  destruct (parts_ok [(p, le2 (pgno mod 2 ^ 32 mod 65536)); (p + 2, le2 (pgno mod 2 ^ 32 / 65536)); (p + 4, le2 (pgno / 2 ^ 32))] (mp_raw mp)) as [raw' E].
  { repeat constructor; cbn [fst snd]; rewrite ?lenZ_le2; lia. }
  exists raw'. split; [done|]. pose proof (pr_node _ _ H _ _ _ Hi) as Hr. destruct (image_fields _ _ Hok) as (_ & _ & _ & F3).
  assert (Hrest : forall q m, q + m <= p \/ p + 6 <= q -> blk_read raw' q m = blk_read (mp_raw mp) q m).
  { intros q m Hq. apply (parts_beside _ _ _ _ _ E). rewrite !Forall_cons, Forall_nil. unfold beside. cbn [fst snd]. rewrite !lenZ_le2. lia. }
  apply (rep_replace mp ns i p nd nd'); [done|done|done| |by eapply parts_len| |intros q m Hq; apply Hrest; lia].
  - rewrite Hleaf. apply branch_node_ok; [done|by destruct Hok|]. rewrite <- Hd. by destruct Hok.
  - assert (Hkey : blk_read raw' (p + 6) (isize nd - 6) = Done (dropZ 6 (image nd))).
    { rewrite Hrest by lia. rewrite (read_part _ _ _ _ 6 (isize nd - 6) Hr) by lia. unfold isize in *. rewrite blk_read_ok by lia. f_equal. apply takeZ_all. rewrite lenZ_dropZ; lia. }
    assert (Him : image nd' = (le2 (pgno mod 2 ^ 32 mod 65536) ++ le2 (pgno mod 2 ^ 32 / 65536) ++ le2 (pgno / 2 ^ 32)) ++ dropZ 6 (image nd)).
    { unfold image. cbn [nd' branch_node pn_val pn_flags pn_key pn_data pn_pad]. rewrite Hd. by rewrite <- !app_assoc. }
    rewrite Him, Hsz'. replace (isize nd) with (2 + (2 + 2) + (isize nd - 6)) at 1 by lia. apply read_join; [|by replace (p + (2 + (2 + 2))) with (p + 6) by lia].
    apply read_join; [part E (@nil (Z * bytes))|]. apply read_join; [part E [(p, le2 (pgno mod 2 ^ 32 mod 65536))]|]. replace (p + 2 + 2) with (p + 4) by lia.
    part E [(p, le2 (pgno mod 2 ^ 32 mod 65536)); (p + 2, le2 (pgno mod 2 ^ 32 / 65536))].
Qed.

(** ** Copy on write *)
Lemma pool_mem e s mem : pool_ok e s -> pool_ok e (with_mem mem s).
Proof. intros [? ? ? ? ? ? ? ? ? (ds & [? ? ? ? ?])]. constructor; try done. exists ds. by constructor. Qed.
(** Nothing of the tree is changed *)
Definition unmoved (mp : MDB_page) (above : option (MDB_page * Z)) (free : MDB_IDL) (t : touched) : Prop :=
  to_page t = mp /\ to_parent t = option_map fst above /\ to_root t = None /\ to_free t = free.
(** The old page is only read: what the transaction then has instead of it *)
Definition copied (e : penv) (mp : MDB_page) (ns : list (Z * pnode)) (above : option (MDB_page * Z)) (ps : list (Z * pnode)) (l : list Z) (free : MDB_IDL)
    (s : pgstate) (t : touched) (s' : pgstate) : Prop :=
  let p := mp_pgno (to_page t) in
  pool_ok e s' /\ page_rep (to_page t) ns /\ mp_flags (to_page t) = Z.lor (mp_flags mp) P_DIRTY /\ p <> mp_pgno mp /\
  (reuses e p 1 s s' \/ extends e p 1 s s') /\
  (idl_wf (to_free t) (l ++ [mp_pgno mp]) \/ to_free t = free /\ idl_cap free <= lenZ l /\ refused s s') /\
  match above with
  | None => to_root t = Some p
  | Some (_, ki) => exists parent' ptr nd, to_parent t = Some parent' /\ ps !! Z.to_nat ki = Some (ptr, nd) /\
      child_of (branch_node p (pn_key nd) (pn_pad nd)) = p /\ page_rep parent' (<[Z.to_nat ki := (ptr, branch_node p (pn_key nd) (pn_pad nd))]> ps)
  end.
Lemma page_after pgno mp ns psize raw : page_rep mp ns -> lenZ (mp_raw mp) = psize -> lenZ raw = psize ->
  exists page, (if negb (SIZELEFT mp =? 0) then mdb_page_copy {| mp_pgno := pgno; mp_flags := 0; mp_lower := 0; mp_upper := 0; mp_raw := raw |} mp psize
    else
      olet! d := blk_read (mp_raw mp) 0 psize in
      olet! raw := blk_write raw 0 d in
      Done {| mp_pgno := pgno; mp_flags := Z.lor (mp_flags mp) P_DIRTY; mp_lower := mp_lower mp; mp_upper := mp_upper mp; mp_raw := raw |}) = Done page /\
    page_rep page ns /\ mp_pgno page = pgno /\ mp_flags page = Z.lor (mp_flags mp) P_DIRTY.
Proof.
  intros H Hs Hr. destruct (SIZELEFT mp =? 0); cbn [negb].
  - pose proof (lenZ_nonneg raw) as Hn. rewrite blk_read_ok by lia. cbn [obind]. rewrite dropZ_0, takeZ_all by lia. rewrite blk_write_ok by lia. cbn [obind].
    rewrite takeZ_0 by lia. unfold dropZ. rewrite drop_ge, app_nil_r by (unfold lenZ in *; lia). eexists. split; [done|]. split; [|done].
    apply (rep_transfer mp); cbn [mp_raw mp_lower mp_upper]; try done; [unfold IS_LEAF|unfold IS_LEAF2]; cbn [mp_flags]; apply dirty_kind; [by left|by right; left].
  - destruct (page_copy_ok {| mp_pgno := pgno; mp_flags := 0; mp_lower := 0; mp_upper := 0; mp_raw := raw |} mp ns psize H Hs Hr) as (page & E & H1 & H2 & H3 & _). by exists page.
Qed.

(** ** Properties *)

(** C14: copy on write: making a page of the committed tree writable leaves that
    page as it is and puts in its place, under a number that was free or is new,
    a page with the same nodes at the same offsets, marked dirty; the parent's
    entry (or the root) points to the new page and keeps its key, the other
    entries are unchanged; the old number is noted among the pages freed by the
    transaction (unless that list is full and an allocation is refused, which is
    not noticed).  This holds with pages in memory and, as in FineDB, in the map.
    If no page can be had (the dirty list or the map is full, or memory was
    refused) that error is returned and nothing is changed; a page that is dirty
    already stays where it is. *)
Theorem touch_copies (e : penv) (junk : nat -> Z) (np : Z) (raw : bytes) (mp : MDB_page) (above : option (MDB_page * Z)) (free : MDB_IDL) (s : pgstate)
    (ns ps : list (Z * pnode)) (l : list Z) :
  pool_ok e s -> pg_next s < 2 ^ 48 -> page_rep mp ns -> lenZ (mp_raw mp) = pe_psize e -> lenZ raw = pe_psize e ->
  mp_pgno mp < pg_next s -> mp_pgno mp ∉ all_free e s -> idl_wf free l ->
  match above with None => True | Some (parent, ki) => page_rep parent ps /\ IS_LEAF parent = false /\ 0 <= ki < lenZ ps end ->
  exists rc t s', mdb_page_touch e junk np raw mp above free s = Done (rc, t, s') /\
    (F_ISSET (mp_flags mp) P_DIRTY = true /\ rc = 0 /\ unmoved mp above free t /\ s' = s \/
     F_ISSET (mp_flags mp) P_DIRTY = false /\ rc <> 0 /\ unmoved mp above free t /\ alloc_result e 1 s rc None s' \/
     F_ISSET (mp_flags mp) P_DIRTY = false /\ rc = 0 /\ copied e mp ns above ps l free s t s').
Proof.
  intros H Hmax Hrep Hsize Hraw Hbelow Hout Hfree Habove. unfold mdb_page_touch. destruct (F_ISSET (mp_flags mp) P_DIRTY).
  { do 3 eexists. split; [done|]. by left. }
  destruct (page_alloc_ok e junk 1 np s H ltac:(lia)) as (rc & r & s1 & -> & Hr). cbn [obind]. destruct r as [[p a]|].
  2: { do 3 eexists. split; [done|]. right. left. split; [done|]. split; [|done]. destruct Hr as [[-> _]|[[-> _]|[-> _]]]; discriminate. }
  destruct Hr as (-> & Hg & Hp1 & _ & _ & _ & _ & Hr). assert (Hp : 0 <= p <= pg_next s /\ p <> mp_pgno mp).
  { pose proof (pk_next _ _ H) as Hn. destruct Hr as [(Hf & _)|(-> & _)]; [|lia]. assert (Hin : p ∈ all_free e s) by (rewrite Hf; apply elem_of_app; left; apply elem_of_seqZ; lia).
    pose proof (pk_below _ _ H) as Hb. rewrite Forall_forall in Hb. specialize (Hb _ Hin). split; [lia|]. by intros ->. }
  rewrite (proj2 (Z.eqb_neq (mp_pgno mp) p)) by lia. destruct (midl_append_correct free l (mp_pgno mp) junk (pg_mem s1) Hfree) as (rc2 & free' & mem & -> & Ha). cbn [obind].
  destruct (page_after p mp ns (pe_psize e) raw Hrep Hsize Hraw) as (page & -> & H1 & <- & H3). cbn [obind].
  assert (Hfree' : idl_wf free' (l ++ [mp_pgno mp]) \/ free' = free /\ idl_cap free <= lenZ l /\ refused s (with_mem mem s1)).
  { destruct Ha as [[_ Ha]|(Hf & Hcap & _ & ->)]; [by left|right]. split; [done|]. split; [done|].
    destruct Hg as (u & Hu & E). exists u. split; [done|]. rewrite E. f_equal. destruct (pg_mem s1) as [|[] mm]; [done|done|]. by injection Hf as ->. }
  assert (Hpool : pool_ok e (with_mem mem s1)) by (by apply pool_mem). destruct above as [[parent ki]|].
  - destruct Habove as (Hpr & Hleaf & Hki). destruct (lookup_page ps ki Hki) as (ptr & nd & Hi). pose proof (pr_ptr _ _ Hpr _ _ _ Hi) as Hptr. rewrite Z2Nat.id in Hptr by lia.
    rewrite Hptr. cbn [obind]. destruct (setpgno_ok parent ps (Z.to_nat ki) ptr nd (mp_pgno page) Hpr Hleaf Hi ltac:(lia)) as (praw & -> & Hpar). cbn [obind].
    do 3 eexists. split; [done|]. right; right. split; [done|]. split; [done|]. do 4 (split; [done || apply Hp|]). split; [exact Hr|]. split; [done|].
    eexists _, ptr, nd. split; [done|]. split; [done|]. split; [apply child_of_branch; cbn [to_page]; lia|done].
  - do 3 eexists. split; [done|]. right; right. split; [done|]. split; [done|]. do 4 (split; [done || apply Hp|]). split; [exact Hr|]. by split.
Qed.
Definition clean_page : MDB_page := laid_out 96 26 2 [demo_node [97] [1] []].
Lemma touch_copies_witness :
  exists rc t s', mdb_page_touch some_env (fun _ => 0) 900 (zeros 96) clean_page (Some (some_parent, 1)) demo_idl some_state = Done (rc, t, s') /\
    (F_ISSET (mp_flags clean_page) P_DIRTY = true /\ rc = 0 /\ unmoved clean_page (Some (some_parent, 1)) demo_idl t /\ s' = some_state \/
     F_ISSET (mp_flags clean_page) P_DIRTY = false /\ rc <> 0 /\ unmoved clean_page (Some (some_parent, 1)) demo_idl t /\ alloc_result some_env 1 some_state rc None s' \/
     F_ISSET (mp_flags clean_page) P_DIRTY = false /\ rc = 0 /\
       copied some_env clean_page [(86, demo_node [97] [1] [])] (Some (some_parent, 1)) [(78, branch_node 10 [] []); (86, branch_node 11 [98] [0])] [7; 5] demo_idl some_state t s').
Proof.
  apply (touch_copies some_env (fun _ => 0) 900 (zeros 96) clean_page (Some (some_parent, 1)) demo_idl some_state); [apply some_pool|done| |done|done|done| |apply demo_idl_wf|].
  - unfold clean_page. solve_rep.
  - change (all_free some_env some_state) with [21; 13; 12; 25]. rewrite !elem_of_cons, elem_of_nil. intuition discriminate.
  - split; [|split; [done|split; done]]. apply (sb_parent _ _ _ _ _ _ _ _ _ _ _ _ some_siblings).
Defined.

(** ** Lemmas: pages back into the list *)
Lemma descending_split l pg : descending l -> exists l1 l2, l = l1 ++ l2 /\ Forall (fun x => pg <= x) l1 /\ Forall (fun x => x < pg) l2.
Proof.
  induction 1 as [|x l Hl IH Hx]; [by exists [], []|]. destruct (Z.lt_ge_cases x pg) as [Hlt|Hge].
  - exists [], (x :: l). split; [done|]. split; [done|]. constructor; [done|]. eapply Forall_impl; [exact Hx|]. cbn beta. lia.
  - destruct IH as (l1 & l2 & -> & H1 & H2). exists (x :: l1), l2. split; [done|]. split; [by constructor|done].
Qed.
Lemma make_gap_ok h l1 pg : Forall (fun x => pg <= x) l1 -> forall l2 gap rest, Forall (fun x => x < pg) l2 ->
  exists gap', length gap' = length gap /\
    make_gap (length (l1 ++ l2)) (lenZ (l1 ++ l2) + lenZ gap) pg (h :: l1 ++ l2 ++ gap ++ rest) = Done (lenZ l1, lenZ l1 + lenZ gap, h :: l1 ++ gap' ++ l2 ++ rest).
Proof.
  intros H1. induction l2 as [|v l2 IH] using rev_ind; intros gap rest H2.
  - exists gap. split; [done|]. rewrite app_nil_r. destruct l1 as [|x l1' _] using rev_ind; [done|]. apply Forall_app in H1 as [_ H1]. apply Forall_cons_1 in H1 as [Hx _].
    rewrite length_app. cbn [length]. rewrite Nat.add_1_r. cbn [make_gap]. assert (Hl : (l1' ++ [x]) !! length l1' = Some x) by (by apply list_lookup_middle).
    pose proof (get_cell (l1' ++ [x]) (gap ++ rest) h _ _ Hl) as G. replace (Z.of_nat (length l1') + 1) with (Z.of_nat (S (length l1'))) in G by lia.
    cbn [app]. rewrite G. cbn [obind]. rewrite (proj2 (Z.ltb_ge _ _)) by done. do 3 f_equal. rewrite lenZ_app, lenZ_cons, lenZ_nil. unfold lenZ. lia.
  - apply Forall_app in H2 as [H2 Hv]. apply Forall_cons_1 in Hv as [Hv _]. rewrite app_assoc, length_app. cbn [length]. rewrite Nat.add_1_r. cbn [make_gap].
    pose proof (get_mid (h :: l1 ++ l2) (gap ++ rest) v) as G. replace (lenZ (h :: l1 ++ l2)) with (Z.of_nat (S (length (l1 ++ l2)))) in G by (rewrite lenZ_cons; unfold lenZ; lia).
    replace (h :: l1 ++ (l2 ++ [v]) ++ gap ++ rest) with ((h :: l1 ++ l2) ++ v :: gap ++ rest) by (cbn; rewrite <- !app_assoc; done). rewrite G. cbn [obind].
    rewrite (proj2 (Z.ltb_lt _ _)) by done.
    assert (Hg : exists gap1 z, v :: gap = gap1 ++ [z] /\ length gap1 = length gap).
    { destruct (exists_last (l := v :: gap)) as (g & z & E); [done|]. exists g, z. split; [done|]. apply (f_equal length) in E. rewrite length_app in E. cbn in E. lia. }
    destruct Hg as (gap1 & z & Eg & Lg). pose proof (put_mid (h :: (l1 ++ l2) ++ gap1) rest z v) as P.
    replace (lenZ (h :: (l1 ++ l2) ++ gap1)) with (lenZ ((l1 ++ l2) ++ [v]) + lenZ gap) in P by (rewrite !lenZ_cons, !lenZ_app, lenZ_cons, lenZ_nil; unfold lenZ; lia).
    replace ((h :: (l1 ++ l2) ++ gap1) ++ z :: rest) with ((h :: l1 ++ l2) ++ v :: gap ++ rest) in P.
    2: { change (v :: gap ++ rest) with ((v :: gap) ++ rest). rewrite Eg. cbn [app]. by rewrite <- !app_assoc. }
    rewrite P. cbn [obind]. destruct (IH gap1 (v :: rest) H2) as (gap' & Lg' & E). exists gap'. split; [lia|].
    replace (lenZ ((l1 ++ l2) ++ [v]) + lenZ gap - 1) with (lenZ (l1 ++ l2) + lenZ gap1) by (rewrite !lenZ_app, lenZ_cons, lenZ_nil; unfold lenZ; lia).
    replace ((h :: (l1 ++ l2) ++ gap1) ++ v :: rest) with (h :: l1 ++ l2 ++ gap1 ++ v :: rest) by (cbn; by rewrite <- !app_assoc). rewrite E.
    do 2 f_equal; [unfold lenZ; by rewrite Lg|]. by rewrite <- app_assoc.
Qed.
Lemma fill_gap_ok h l1 : forall n pg gap rest, length gap = n -> fill_gap n (lenZ l1 + Z.of_nat n) pg (h :: l1 ++ gap ++ rest) = Done (h :: l1 ++ reverse (seqZ pg (Z.of_nat n)) ++ rest).
Proof.
  induction n as [|n IH]; intros pg gap rest Hg; [by destruct gap|]. cbn [fill_gap]. destruct gap as [|z gap _] using rev_ind; [done|].
  rewrite length_app in Hg. cbn in Hg. pose proof (put_mid (h :: l1 ++ gap) rest z pg) as P.
  replace (lenZ (h :: l1 ++ gap)) with (lenZ l1 + Z.of_nat (S n)) in P by (rewrite lenZ_cons, lenZ_app; unfold lenZ; lia).
  replace ((h :: l1 ++ gap) ++ z :: rest) with (h :: l1 ++ (gap ++ [z]) ++ rest) in P by (cbn; by rewrite <- !app_assoc). rewrite P. cbn [obind].
  replace (lenZ l1 + Z.of_nat (S n) - 1) with (lenZ l1 + Z.of_nat n) by lia. replace ((h :: l1 ++ gap) ++ pg :: rest) with (h :: l1 ++ gap ++ pg :: rest) by (cbn; by rewrite <- app_assoc).
  rewrite IH by lia. rewrite (seqZ_cons pg) by lia. rewrite reverse_cons, <- app_assoc. cbn [app]. by replace (Z.pred (Z.of_nat (S n))) with (Z.of_nat n) by lia.
Qed.
Lemma run_descending pg n : descending (reverse (seqZ pg n)).
Proof.
  destruct (Z.le_gt_cases n 0) as [Hn|Hn]; [rewrite seqZ_nil by done; constructor|]. replace n with (Z.of_nat (Z.to_nat n)) by lia. generalize (Z.to_nat n) as m. clear. intros m. revert pg.
  induction m as [|m IH]; intros pg; [constructor|]. rewrite seqZ_cons by lia. rewrite reverse_cons. apply descending_snoc; [replace (Z.pred (Z.of_nat (S m))) with (Z.of_nat m) by lia; apply IH|].
  apply Forall_forall. intros x. rewrite elem_of_reverse, elem_of_seqZ. lia.
Qed.
(** A row of pages gets its place in a list with enough room. *)
Lemma insert_run_ok (l rest : list Z) pg n : descending l -> 0 <= n <= lenZ rest -> (forall q, pg <= q < pg + n -> q ∉ l) ->
  exists i j c1 c2 l', make_gap (Z.to_nat (lenZ l)) (lenZ l + n) pg (lenZ l :: l ++ rest) = Done (i, j, c1) /\ fill_gap (Z.to_nat (j - i)) j pg c1 = Done c2 /\
    put c2 0 (lenZ l + n) = Done (lenZ l' :: l' ++ dropZ n rest) /\ lenZ l' = lenZ l + n /\ descending l' /\ l' ≡ₚ seqZ pg n ++ l.
Proof.
  intros Hd Hn Hout. destruct (descending_split l pg Hd) as (l1 & l2 & El & H1 & H2). set (gap := takeZ n rest).
  assert (Lg : lenZ gap = n) by (apply lenZ_takeZ; lia). assert (Er : rest = gap ++ dropZ n rest) by (symmetry; apply takeZ_dropZ).
  destruct (make_gap_ok (lenZ l) l1 pg H1 l2 gap (dropZ n rest) H2) as (gap' & Lg' & E). rewrite <- El, Lg in E.
  replace (Z.to_nat (lenZ l)) with (length l) by (unfold lenZ; lia).
  replace (l1 ++ l2 ++ gap ++ dropZ n rest) with (l ++ rest) in E by (rewrite El, <- app_assoc; by rewrite <- Er).
  pose proof (fill_gap_ok (lenZ l) l1 (length gap') pg gap' (l2 ++ dropZ n rest) eq_refl) as F. replace (Z.of_nat (length gap')) with n in F by (unfold lenZ in *; lia).
  exists (lenZ l1), (lenZ l1 + n). do 2 eexists. exists (l1 ++ reverse (seqZ pg n) ++ l2).
  assert (Ll : lenZ (l1 ++ reverse (seqZ pg n) ++ l2) = lenZ l + n) by (rewrite El, !lenZ_app; unfold lenZ; rewrite length_reverse, length_seqZ; lia).
  split; [exact E|]. split; [replace (Z.to_nat (lenZ l1 + n - lenZ l1)) with (length gap') by (unfold lenZ in *; lia); exact F|].
  split; [rewrite put_head, Ll, <- !app_assoc; done|]. split; [done|].
  split; [|rewrite reverse_Permutation, El; apply Permutation_app_swap_app].
  rewrite El in Hd. apply descending_app_inv in Hd as (D1 & D2 & D3). rewrite Forall_forall in H1, H2.
  apply descending_join; [done|apply descending_join; [apply run_descending|done|]|].
  - intros x y. rewrite elem_of_reverse, elem_of_seqZ. intros Hx Hy. apply H2 in Hy. lia.
  - intros x y Hx. pose proof (H1 _ Hx) as Hge. rewrite elem_of_app, elem_of_reverse, elem_of_seqZ. intros [Hy|Hy]; [|by apply D3].
    destruct (Z.lt_ge_cases x (pg + n)) as [Hlt|]; [|lia]. exfalso. apply (Hout x); [lia|]. rewrite El. apply elem_of_app. by left.
Qed.
Lemma give_back_ok mop l pg n junk mem : idl_wf mop l -> descending l -> 0 <= n -> (forall q, pg <= q < pg + n -> q ∉ l) ->
  exists rc mop' mem', give_back mop pg n junk mem = Done (rc, mop', mem') /\
    (rc = 0 /\ (exists l', idl_wf mop' l' /\ descending l' /\ l' ≡ₚ seqZ pg n ++ l) \/ rc = ENOMEM /\ mop' = mop).
Proof.
  intros Hw Hd Hn Hout. unfold give_back. rewrite (iw_cells_get _ _ Hw). cbn [obind].
  assert (Hgo : forall mop1 rest (mem1 : alloc), idl_cells mop1 = lenZ l :: l ++ rest -> lenZ (idl_cells mop1) = idl_cap mop1 + 1 -> n <= lenZ rest ->
    exists mop', (olet! '(i, j, c) := make_gap (Z.to_nat (lenZ l)) (lenZ l + n) pg (idl_cells mop1) in
      olet! c := fill_gap (Z.to_nat (j - i)) j pg c in
      olet! c := put c 0 (lenZ l + n) in Done (0, {| idl_cap := idl_cap mop1; idl_cells := c |}, mem1)) = Done (0, mop', mem1) /\
      exists l', idl_wf mop' l' /\ descending l' /\ l' ≡ₚ seqZ pg n ++ l).
  { intros mop1 rest mem1 Hc Hcap Hroom. rewrite Hc in Hcap |- *. destruct (insert_run_ok l rest pg n Hd ltac:(lia) Hout) as (i & j & c1 & c2 & l' & -> & F & P & Ll & Hd' & Hp).
    cbn [obind]. rewrite F. cbn [obind]. rewrite P. cbn [obind]. eexists. split; [done|]. exists l'. split; [|done]. constructor; cbn [idl_cells idl_cap]; [by eexists|].
    rewrite <- Hcap, !lenZ_cons, !lenZ_app, Ll, lenZ_dropZ by lia. lia. }
  destruct Hw as [[rest Hc] Hcap]. pose proof (f_equal lenZ Hc) as Hlen. rewrite lenZ_cons, lenZ_app in Hlen.
  destruct (Z.ltb_spec (idl_cap mop) (lenZ l + n)) as [Hgrow|Hfits].
  - unfold mdb_midl_grow. destruct (script_next true mem) as [[] mem1]; cbn [obind]; [|exists ENOMEM, mop, mem1; split; [done|by right]].
    change (0 =? 0) with true. cbn [negb].
    destruct (realloc_grows (idl_cap mop + n + 2) junk (idl_cells mop)) as (extra & E1 & E2); [lia|].
    destruct (Hgo {| idl_cap := idl_cap mop + n; idl_cells := realloc_cells (idl_cap mop + n + 2) junk (idl_cells mop) |} (rest ++ extra) mem1) as (mop' & E & Hr).
    { cbn [idl_cells]. rewrite E1, Hc. cbn [app]. by rewrite <- app_assoc. } { cbn [idl_cells idl_cap]. lia. }
    { rewrite E1 in E2. rewrite !lenZ_app in *. pose proof (lenZ_nonneg rest). lia. }
    exists 0, mop', mem1. split; [exact E|by left].
  - cbn [obind]. change (0 =? 0) with true. cbn [negb]. destruct (Hgo mop rest mem Hc Hcap ltac:(lia)) as (mop' & E & Hr). exists 0, mop', mem. split; [exact E|by left].
Qed.
Lemma dirty_shift_ok h (rest : list MDB_ID2) : forall q p m,
  exists z, dirty_shift (length q) (lenZ p + 1) (h :: p ++ m :: q ++ rest) = Done (h :: p ++ q ++ z :: rest).
Proof.
  induction q as [|v q IH]; intros p m; cbn [dirty_shift length]; [by exists m|].
  pose proof (get_mid (h :: p ++ [m]) (q ++ rest) v) as G. replace (lenZ (h :: p ++ [m])) with (lenZ p + 1 + 1) in G by lens.
  replace ((h :: p ++ [m]) ++ v :: q ++ rest) with (h :: p ++ m :: (v :: q) ++ rest) in G by (cbn; by rewrite <- app_assoc). rewrite G. cbn [obind].
  pose proof (put_mid (h :: p) ((v :: q) ++ rest) m v) as P. replace (lenZ (h :: p)) with (lenZ p + 1) in P by lens. cbn [app] in P |- *. rewrite P. cbn [obind].
  destruct (IH (p ++ [v]) v) as (z & E). exists z. replace (lenZ (p ++ [v]) + 1) with (lenZ p + 1 + 1) in E by lens. rewrite <- !app_assoc in E. exact E.
Qed.
Lemma remove_dirty_ok ds h rest pg a : lenZ ds < 2 ^ 32 -> StronglySorted Z.lt ds.*1 -> (pg, a) ∈ ds ->
  exists ds' z, remove_dirty pg ((lenZ ds, h) :: ds ++ rest) = Done ((lenZ ds', h) :: ds' ++ z :: rest) /\ ds ≡ₚ (pg, a) :: ds'.
Proof.
  intros Hl Hs Hin. destruct (mid2l_search_ok ds h rest pg Hl Hs) as (l1 & l2 & El & E & H1 & H2). unfold remove_dirty. rewrite E. cbn [obind].
  change (get ((lenZ ds, h) :: ds ++ rest) 0) with (Done (lenZ ds, h)). cbn [obind fst].
  assert (Hl2 : exists q, l2 = (pg, a) :: q).
  { rewrite Forall_forall in H1, H2. rewrite El in Hin. apply elem_of_app in Hin as [Hin|Hin]; [apply H1 in Hin; cbn in Hin; lia|].
    destruct l2 as [|v q]; [by apply elem_of_nil in Hin|]. exists q. f_equal. apply elem_of_cons in Hin as [->|Hin]; [done|].
    rewrite El, fmap_app in Hs. clear -Hs Hin H2. induction (l1.*1) as [|b bs IH]; cbn [app] in Hs; [|inversion Hs; by apply IH].
    cbn [fmap list_fmap] in Hs. inversion Hs as [|? ? _ Hf]; subst. rewrite Forall_forall in Hf. specialize (Hf pg ltac:(by apply (list_elem_of_fmap_2 fst _ (pg, a)))).
    specialize (H2 v ltac:(by left)). lia. }
  destruct Hl2 as (q & ->). rewrite El. replace (Z.to_nat (lenZ (l1 ++ (pg, a) :: q) - (lenZ l1 + 1))) with (length q) by (rewrite lenZ_app, lenZ_cons; unfold lenZ; lia).
  rewrite <- app_assoc. cbn [app]. destruct (dirty_shift_ok (lenZ (l1 ++ (pg, a) :: q), h) rest q l1 (pg, a)) as (z & ->). cbn [obind].
  change (get ((lenZ (l1 ++ (pg, a) :: q), h) :: l1 ++ q ++ z :: rest) 0) with (Done (lenZ (l1 ++ (pg, a) :: q), h)). cbn [obind fst snd]. rewrite put_head.
  exists (l1 ++ q), z. split; [|symmetry; apply Permutation_middle]. rewrite <- app_assoc. do 3 f_equal. rewrite !lenZ_app, lenZ_cons. lia.
Qed.

(** Overflow pages of the transaction itself go back to the free ones: they leave
    the dirty list and get their place in the list of free pages, which stays in
    descending order; memory apart this cannot fail.  The dirty list must be in
    order, as it is without MDB_WRITEMAP. *)
Theorem ovpage_free_returns (e : penv) (junk : nat -> Z) (pg n a : Z) (mop : MDB_IDL) (ds : list MDB_ID2) (free : MDB_IDL) (s : pgstate) :
  pe_writemap e = false -> pool_ok e s -> dirty_ok e s ds -> pg_head s = Some mop -> 1 <= n -> (pg, a) ∈ ds -> (forall q, pg <= q < pg + n -> q ∉ all_free e s) ->
  exists rc s', mdb_ovpage_free junk pg n true free s = Done (rc, free, s') /\
    (rc = ENOMEM \/
     rc = 0 /\ head_wf s' /\ all_free e s' ≡ₚ seqZ pg n ++ all_free e s /\
     exists ds' h rest, pg_dirty s' = (lenZ ds', h) :: ds' ++ rest /\ ds ≡ₚ (pg, a) :: ds').
Proof.
  intros Hmap H [(h & rest & Hc & _) Hroom _ Hs _] Hh Hn Hin Hout. specialize (Hs Hmap). unfold mdb_ovpage_free. rewrite Hh, Hc. pose proof (pk_room _ _ H) as Hr0. change MDB_IDL_UM_MAX with 131071 in Hroom.
  destruct (remove_dirty_ok ds h rest pg a ltac:(lia) Hs Hin) as (ds' & z & -> & Hp). cbn [obind].
  pose proof (pk_head _ _ H) as Hw. unfold head_wf in Hw. rewrite Hh in Hw. destruct Hw as (l & Hw & Hd). pose proof (head_ids_wf mop l s Hh Hw) as Hids.
  destruct (give_back_ok mop l pg n junk (pg_mem s) Hw Hd ltac:(lia)) as (rc & mop' & mem & -> & Hr).
  { intros q Hq Hin'. apply (Hout q Hq), elem_of_app. left. by rewrite Hids. }
  cbn [obind]. exists rc. eexists. split; [done|]. destruct Hr as [[-> (l' & Hw' & Hd' & Hp')]|[-> _]]; [right|by left]. split; [done|]. split; [by exists l'|]. split.
  - unfold all_free. cbn [pg_last]. rewrite (head_ids_wf mop' l') by done. by rewrite Hids, Hp', app_assoc.
  - exists ds', h, (z :: rest). by split.
Qed.
(** The room for dirty pages does not grow again. *)
Example ovpage_room_lost :
  match mdb_ovpage_free (fun _ => 0) 40 2 true demo_idl
      {| pg_head := Some demo_idl; pg_last := 5; pg_next := 50; pg_dirty := [(1, 0); (40, 900); (0, 0)]; pg_room := 1; pg_dpages := []; pg_mem := [] |} with
  | Done (_, _, s) => (pg_room s, take 1 (pg_dirty s), head_ids s)
  | Fault _ => (0, [], [])
  end = (1, [(0, 0)], [41; 40; 7; 5]).
Proof. vm_compute. reflexivity. Qed.
(** With MDB_WRITEMAP the dirty list is in the order of the allocations: the
    binary search for page 40 misses its entry, which stays although the page is
    free again, and the entry of page 30 is dropped instead. *)
Example ovpage_wrong_entry :
  match mdb_ovpage_free (fun _ => 0) 40 2 true demo_idl
      {| pg_head := Some demo_idl; pg_last := 5; pg_next := 60; pg_dirty := [(4, 0); (40, 3840); (50, 4800); (20, 1920); (30, 2880); (0, 0)];
         pg_room := 1; pg_dpages := []; pg_mem := [] |} with
  | Done (rc, _, s) => (rc, map fst (take 4 (pg_dirty s)), head_ids s)
  | Fault _ => (1, [], [])
  end = (0, [3; 40; 50; 20], [41; 40; 7; 5]).
Proof. vm_compute. reflexivity. Qed.
