(* ===== verification/Commit.v ===== *)
(** * Commit: the file of an environment (lib/lmdb/mdb.c: mdb_txn_renew0, the
    end of mdb_txn_commit, mdb_env_sync, mdb_env_write_meta, mdb_env_pick_meta,
    mdb_env_read_header, mdb_env_init_meta, mdb_env_open2, mdb_env_share_locks)

    A commit brings the dirty pages of the transaction into the file, syncs it,
    then writes one of the two meta pages, by turns; the newer one counts.  The
    file is a map from page numbers to contents, and its two meta pages.  There
    are two of them: the one the processes see, in the cache of the system, and
    the one on the disk, which is what a crash leaves.  What a commit does to
    them is a trace of steps ([io]): writes of pages, the clearing of a flag in a
    mapped page, stores to single fields of a meta page, and syncs.  Between the
    steps, at any time, the system may write a page that has changed, whole or
    cut short, or a meta page to the disk ([io_run]).

    Both ways of writing are modelled: with MDB_WRITEMAP, as FineDB opens its
    environments, the dirty pages are in the map already and only lose their
    flag, and the meta page is stored to in the map; without it both are written
    with system calls.  A write can end early, with anything written in place of
    what is left, and every call can fail; the results are a script.

    Three things are taken for granted, as LMDB does: a meta page reaches the disk
    as it is in the cache at some moment (it fits in a sector), the stores to its
    fields are done in the order of the program, and a sync that succeeds leaves
    on the disk what the cache has.  The lists of free pages have been saved. *)
From S2P Require Import Prelude.
From S2P Require Import Lmdb Pages Alloc Touch.

Definition MDB_COMMIT_PAGES : Z := 64.
Definition MDB_MAGIC : Z := 0xBEEFC0DE.
Definition MDB_VERSION : Z := 1.
Definition P_META : Z := 0x08.
Definition MDB_INVALID : Z := -30793.
Definition MDB_VERSION_MISMATCH : Z := -30794.
Definition MDB_PANIC : Z := -30795.
Definition MDB_MAP_RESIZED : Z := -30785.
Definition LMDB_MAPSIZE : Z := 1048576.
Definition MDB_INTEGERKEY : Z := 0x08.
Definition ENOENT : Z := 2.
(** Flags of an environment *)
Definition MDB_NOSYNC : Z := 0x10000.
Definition MDB_NOMETASYNC : Z := 0x40000.
Definition MDB_WRITEMAP : Z := 0x80000.
Definition MDB_MAPASYNC : Z := 0x100000.
Definition MDB_NOTLS : Z := 0x200000.

(** ** Data *)
Record db_rec := { r_pad : Z; r_flags : Z; r_depth : Z; r_branch_pages : Z; r_leaf_pages : Z; r_overflow_pages : Z; r_entries : Z; r_root : Z }.
Record MDB_meta := { mm_magic : Z; mm_version : Z; mm_mapsize : Z; mm_db0 : db_rec; mm_db1 : db_rec; mm_last_pg : Z; mm_txnid : Z }.
(** A page as it is in the file: its first part, with the header, or a part of
    an overflow page *)
Inductive content := Head (p : MDB_page) | Tail (b : bytes).
Record dpage := { dp_page : MDB_page; dp_pages : Z; dp_tail : list bytes }.
Record disk := { dk_pages : gmap Z content; dk_meta0 : MDB_meta; dk_meta1 : MDB_meta }.
Definition meta_of (toggle : Z) (d : disk) : MDB_meta := if toggle =? 0 then dk_meta0 d else dk_meta1 d.
Definition with_meta (toggle : Z) (m : MDB_meta) (d : disk) : disk :=
  if toggle =? 0 then {| dk_pages := dk_pages d; dk_meta0 := m; dk_meta1 := dk_meta1 d |}
  else {| dk_pages := dk_pages d; dk_meta0 := dk_meta0 d; dk_meta1 := m |}.
Definition with_pages (m : gmap Z content) (d : disk) : disk := {| dk_pages := m; dk_meta0 := dk_meta0 d; dk_meta1 := dk_meta1 d |}.

(** ** Steps *)
Inductive db_field := FPad | FFlags | FDepth | FBranch | FLeaf | FOverflow | FEntries | FRoot.
Definition set_field (f : db_field) (v : Z) (r : db_rec) : db_rec :=
  let g := fun f' (x : Z) => match f, f' with
    | FPad, FPad | FFlags, FFlags | FDepth, FDepth | FBranch, FBranch | FLeaf, FLeaf | FOverflow, FOverflow | FEntries, FEntries | FRoot, FRoot => v
    | _, _ => x end in
  {| r_pad := g FPad (r_pad r); r_flags := g FFlags (r_flags r); r_depth := g FDepth (r_depth r); r_branch_pages := g FBranch (r_branch_pages r);
     r_leaf_pages := g FLeaf (r_leaf_pages r); r_overflow_pages := g FOverflow (r_overflow_pages r); r_entries := g FEntries (r_entries r); r_root := g FRoot (r_root r) |}.
(** A store to a field of a meta page *)
Inductive mstore := SMapsize (v : Z) | SDb0 (f : db_field) (v : Z) | SDb1 (f : db_field) (v : Z) | SLastPg (v : Z) | STxnid (v : Z).
Definition store (s : mstore) (m : MDB_meta) : MDB_meta :=
  {| mm_magic := mm_magic m; mm_version := mm_version m;
     mm_mapsize := match s with SMapsize v => v | _ => mm_mapsize m end;
     mm_db0 := match s with SDb0 f v => set_field f v (mm_db0 m) | _ => mm_db0 m end;
     mm_db1 := match s with SDb1 f v => set_field f v (mm_db1 m) | _ => mm_db1 m end;
     mm_last_pg := match s with SLastPg v => v | _ => mm_last_pg m end;
     mm_txnid := match s with STxnid v => v | _ => mm_txnid m end |}.
Definition stores (l : list mstore) (m : MDB_meta) : MDB_meta := foldl (fun m s => store s m) m l.
(** [dp->mp_flags &= ~P_DIRTY] *)
Definition clear_dirty (p : MDB_page) : MDB_page :=
  {| mp_pgno := mp_pgno p; mp_flags := Z.land (mp_flags p) (Z.lnot P_DIRTY); mp_lower := mp_lower p; mp_upper := mp_upper p; mp_raw := mp_raw p |}.
Fixpoint put_pages (pos : Z) (cs : list content) (m : gmap Z content) : gmap Z content :=
  match cs with [] => m | c :: cs => put_pages (pos + 1) cs (<[pos := c]> m) end.
Inductive io :=
  | IoPages (pos : Z) (cs : list content)      (* pages written from [pos] on *)
  | IoClear (pgno : Z)                         (* the flag of a mapped page *)
  | IoMeta (toggle : Z) (s : mstore)           (* a field of a meta page *)
  | IoSync                                     (* the file, or the whole map *)
  | IoSyncMeta (toggle : Z).                   (* a meta page only *)
(** What a step does to the file as processes see it, and to the disk *)
Definition io_cache (i : io) (c : disk) : disk :=
  match i with
  | IoPages pos cs => with_pages (put_pages pos cs (dk_pages c)) c
  | IoClear n => match dk_pages c !! n with Some (Head p) => with_pages (<[n := Head (clear_dirty p)]> (dk_pages c)) c | _ => c end
  | IoMeta k s => with_meta k (store s (meta_of k c)) c
  | IoSync | IoSyncMeta _ => c
  end.
Definition io_disk (i : io) (c d : disk) : disk :=
  match i with
  | IoSync => c
  | IoSyncMeta k => with_meta k (meta_of k c) d
  | _ => d
  end.
Definition exec (tr : list io) (c : disk) : disk := foldl (fun c i => io_cache i c) c tr.
(** What the system writes to the disk by itself: a page that has changed, or
    whatever a crash leaves of it, and a meta page *)
Inductive writeback (c : disk) : disk -> disk -> Prop :=
  | wb_page d n x : dk_pages c !! n <> dk_pages d !! n -> writeback c d (with_pages (partial_alter (fun _ => x) n (dk_pages d)) d)
  | wb_meta d k : writeback c d (with_meta k (meta_of k c) d).
Inductive io_run : list io -> disk * disk -> disk * disk -> Prop :=
  | run_end s : io_run [] s s
  | run_back tr c d d' s : writeback c d d' -> io_run tr (c, d') s -> io_run tr (c, d) s
  | run_step i tr c d s : io_run tr (io_cache i c, io_disk i c d) s -> io_run (i :: tr) (c, d) s.

(** ** Writing pages *)
(** What a call of writev does: all, or a part, with the errno found then, which a
    short write leaves as it was.  [None] for the other calls is success. *)
Inductive wres := WOk | WPart (errno : Z) (written : list content).
Definition page_count (dp : dpage) : Z := if IS_OVERFLOW (dp_page dp) then dp_pages dp else 1.
Definition contents_of (dp : dpage) : list content := Head (clear_dirty (dp_page dp)) :: map Tail (takeZ (page_count dp - 1) (dp_tail dp)).
(** The errno if less was written than asked for, the new position, the write and
    the rest of the script; no more is written than what was asked for. *)
Definition writev (iov : list dpage) (pos : Z) (ws : list wres) : option Z * Z * list io * list wres :=
  let cs := concat (map contents_of iov) in
  let '(w, ws) := script_next WOk ws in
  match w with
  | WOk => (None, pos + lenZ cs, [IoPages pos cs], ws)
  | WPart errno written => let part := takeZ (lenZ cs) written in (Some errno, pos + lenZ part, [IoPages pos part], ws)
  end.
(** Before a page that does not follow, what waits is written. *)
Definition flush (pgno next : Z) (iov : list dpage) (pos : Z) (ws : list wres) : option Z * list dpage * Z * list io * list wres :=
  if pgno =? next then (None, iov, pos, [], ws)
  else
    let '(err, pos, tr, ws) := match iov with [] => (None, pos, [], ws) | _ => writev iov pos ws end in
    match err with None => (None, [], pgno, tr, ws) | Some n => (Some n, iov, pos, tr, ws) end.
(** The loop over the dirty list: [iov] has the pages not written yet, [next] is
    the number behind the last of them. *)
Fixpoint write_pages (l : list dpage) (next : Z) (iov : list dpage) (pos : Z) (ws : list wres) : option Z * Z * list io * list wres :=
  match l with
  | [] => match iov with [] => (None, pos, [], ws) | _ => writev iov pos ws end
  | dp :: l =>
      let pgno := mp_pgno (dp_page dp) in
      let '(err, iov, pos, tr, ws) := flush pgno next iov pos ws in
      match err with
      | Some n => (Some n, pos, tr, ws)
      | None =>
          let iov := iov ++ [dp] in
          let next := pgno + page_count dp in
          if MDB_COMMIT_PAGES <=? lenZ iov then
            let '(err, pos, tr1, ws) := writev iov pos ws in
            match err with
            | None => let '(err, pos, tr2, ws) := write_pages l next [] pos ws in (err, pos, tr ++ tr1 ++ tr2, ws)
            | Some n => (Some n, pos, tr ++ tr1, ws)
            end
          else let '(err, pos, tr1, ws) := write_pages l next iov pos ws in (err, pos, tr ++ tr1, ws)
      end
  end.

(** ** Transactions and the meta page *)
(** The environment: its flags, the file as it is seen, the position of its
    descriptor, [mti_txnid] of the lock file, the flag MDB_FATAL_ERROR, the size
    of the map and of pages *)
Record file_env := { fe_flags : Z; fe_disk : disk; fe_pos : Z; fe_txnid : Z; fe_fatal : bool; fe_mapsize : Z; fe_psize : Z }.
Record commit_txn := { ct_txnid : Z; ct_toggle : Z; ct_next_pgno : Z; ct_db0 : db_rec; ct_db1 : db_rec; ct_changed : bool; ct_dirty : list dpage }.
(** A transaction for writing, without a parent *)
Definition renew_write (e : file_env) : Z + commit_txn :=
  let txnid := fe_txnid e in
  let toggle := Z.land txnid 1 in
  let m := meta_of toggle (fe_disk e) in
  let next := mm_last_pg m + 1 in
  if fe_mapsize e / fe_psize e <? next then inl MDB_MAP_RESIZED
  else inr {| ct_txnid := u64 (txnid + 1); ct_toggle := toggle; ct_next_pgno := next; ct_db0 := mm_db0 m; ct_db1 := mm_db1 m; ct_changed := false; ct_dirty := [] |}.
Definition start_write (e : file_env) : Z + commit_txn := if fe_fatal e then inl MDB_PANIC else renew_write e.
(** What a transaction does before its commit: new pages, new roots *)
Definition with_work (next : Z) (db0 db1 : db_rec) (changed : bool) (dirty : list dpage) (t : commit_txn) : commit_txn :=
  {| ct_txnid := ct_txnid t; ct_toggle := ct_toggle t; ct_next_pgno := next; ct_db0 := db0; ct_db1 := db1; ct_changed := changed; ct_dirty := dirty |}.
Definition all_fields (r : db_rec) : list (db_field * Z) :=
  [(FPad, r_pad r); (FFlags, r_flags r); (FDepth, r_depth r); (FBranch, r_branch_pages r); (FLeaf, r_leaf_pages r); (FOverflow, r_overflow_pages r); (FEntries, r_entries r); (FRoot, r_root r)].
(** The fields in their order.  In the map all are stored; a write starts with
    [mm_mapsize] if the map has grown, else with [md_depth] of the first database,
    which leaves the page size and the flags. *)
Definition meta_body (writemap : bool) (mapsize : Z) (t : commit_txn) (old : MDB_meta) : list mstore :=
  let grown := mm_mapsize old <? mapsize in
  (if grown then [SMapsize mapsize] else []) ++
  map (fun x => SDb0 x.1 x.2) (if writemap || grown then all_fields (ct_db0 t) else drop 2 (all_fields (ct_db0 t))) ++
  map (fun x => SDb1 x.1 x.2) (all_fields (ct_db1 t)).
Definition meta_stores (writemap : bool) (mapsize last_pg txnid : Z) (t : commit_txn) (old : MDB_meta) : list mstore :=
  meta_body writemap mapsize t old ++ [SLastPg last_pg; STxnid txnid].
(** What pwrite, or msync of a meta page, does: all, or it fails after so many
    fields have reached the file *)
Inductive meta_res := MOk | MFail (errno : Z) (fields : nat).
Definition with_result (d : disk) (pos txnid : Z) (fatal : bool) (e : file_env) : file_env :=
  {| fe_flags := fe_flags e; fe_disk := d; fe_pos := pos; fe_txnid := txnid; fe_fatal := fatal; fe_mapsize := fe_mapsize e; fe_psize := fe_psize e |}.
Definition no_meta_sync (flags : Z) : bool := F_ISSET flags MDB_NOMETASYNC || F_ISSET flags MDB_NOSYNC.
Definition mdb_env_write_meta (t : commit_txn) (e : file_env) (ms : list meta_res) : Z * list io * file_env :=
  let toggle := if ct_toggle t =? 0 then 1 else 0 in
  let mp := meta_of toggle (fe_disk e) in
  let done tr := (0, tr, with_result (exec tr (fe_disk e)) (fe_pos e) (ct_txnid t) (fe_fatal e) e) in
  let fail rc tr := (rc, tr, with_result (exec tr (fe_disk e)) (fe_pos e) (fe_txnid e) true e) in
  let '(r, ms) := script_next MOk ms in
  if F_ISSET (fe_flags e) MDB_WRITEMAP then
    let tr := map (IoMeta toggle) (meta_stores true (fe_mapsize e) (ct_next_pgno t - 1) (ct_txnid t) t mp) in
    if no_meta_sync (fe_flags e) then done tr
    else match r with
    | MOk => done (tr ++ if F_ISSET (fe_flags e) MDB_MAPASYNC then [] else [IoSyncMeta toggle])
    | MFail errno _ => fail errno tr
    end
  else
    let l := meta_stores false (fe_mapsize e) (ct_next_pgno t - 1) (ct_txnid t) t mp in
    match r with
    | MOk => done (map (IoMeta toggle) l ++ if no_meta_sync (fe_flags e) then [] else [IoSyncMeta toggle])
    | MFail errno n =>
        let back := meta_stores false (fe_mapsize e) (mm_last_pg mp) (mm_txnid mp) t mp in
        let '(r2, _) := script_next MOk ms in
        let back := match r2 with MOk => back | MFail _ n => take n back end in
        fail errno (map (IoMeta toggle) (take n l ++ back))
    end.
Definition mdb_env_pick_meta (d : disk) : Z := if mm_txnid (dk_meta0 d) <? mm_txnid (dk_meta1 d) then 1 else 0.
(** [res] is the errno of the call, if it fails *)
Definition mdb_env_sync (force : bool) (flags : Z) (res : option Z) : Z * list io :=
  if force || negb (F_ISSET flags MDB_NOSYNC) then
    let later := F_ISSET flags MDB_WRITEMAP && F_ISSET flags MDB_MAPASYNC && negb force in
    match res with Some errno => (errno, []) | None => (0, if later then [] else [IoSync]) end
  else (0, []).
(** ** A commit, when the lists of free pages are saved *)
Definition write_dirty (t : commit_txn) (e : file_env) (ws : list wres) : option Z * Z * list io * list wres :=
  if F_ISSET (fe_flags e) MDB_WRITEMAP then (None, fe_pos e, map (fun dp => IoClear (mp_pgno (dp_page dp))) (ct_dirty t), ws)
  else write_pages (ct_dirty t) 0 [] (fe_pos e) ws.
Definition commit_write (t : commit_txn) (e : file_env) (ws : list wres) (sync : option Z) (ms : list meta_res) : Z * list io * file_env :=
  if match ct_dirty t with [] => negb (ct_changed t) | _ => false end then (0, [], e)
  else
    let '(err, pos, tr1, _) := write_dirty t e ws in
    let e1 := with_result (exec tr1 (fe_disk e)) pos (fe_txnid e) (fe_fatal e) e in
    match err with
    | Some n => (n, tr1, e1)
    | None =>
        let '(rc, tr2) := mdb_env_sync false (fe_flags e) sync in
        if negb (rc =? 0) then (rc, tr1 ++ tr2, e1)
        else let '(rc, tr3, e2) := mdb_env_write_meta t e1 ms in (rc, tr1 ++ tr2 ++ tr3, e2)
    end.

(** ** Opening: both meta pages are read, with the flags of their pages, or a read
    fails: with ENOENT at the end of the file, MDB_INVALID if there is only a part
    of a page, or errno *)
Record file := { f_page0 : Z + Z * MDB_meta; f_page1 : Z + Z * MDB_meta; f_pages : gmap Z content }.
Definition check_meta (p : Z + Z * MDB_meta) : Z + MDB_meta :=
  match p with
  | inl rc => inl rc
  | inr (flags, m) =>
      if negb (F_ISSET flags P_META) then inl MDB_INVALID
      else if negb (mm_magic m =? MDB_MAGIC) then inl MDB_INVALID
      else if negb (mm_version m =? MDB_VERSION) then inl MDB_VERSION_MISMATCH
      else inr m
  end.
Definition mdb_env_read_header (f : file) : Z + MDB_meta :=
  match check_meta (f_page0 f) with
  | inl rc => inl rc
  | inr m0 =>
      match check_meta (f_page1 f) with
      | inl rc => inl rc
      | inr m1 => inr (if mm_txnid m0 <? mm_txnid m1 then m1 else m0)
      end
  end.
(** The two pages of a new environment *)
Definition mdb_env_init_meta (mapsize psize flags : Z) (f : file) : file :=
  let db root pad fl := {| r_pad := pad; r_flags := fl; r_depth := 0; r_branch_pages := 0; r_leaf_pages := 0; r_overflow_pages := 0; r_entries := 0; r_root := root |} in
  let m := {| mm_magic := MDB_MAGIC; mm_version := MDB_VERSION; mm_mapsize := mapsize;
              mm_db0 := db (2 ^ 64 - 1) psize (Z.lor (Z.land flags 0xffff) MDB_INTEGERKEY); mm_db1 := db (2 ^ 64 - 1) 0 0; mm_last_pg := 1; mm_txnid := 0 |} in
  {| f_page0 := inr (P_META, m); f_page1 := inr (P_META, m); f_pages := f_pages f |}.
(** The size of the map: the one asked for, but not too small for the file *)
Definition map_size (mapsize : Z) (header : option MDB_meta) : Z :=
  match header with
  | None => if mapsize =? 0 then LMDB_MAPSIZE else mapsize
  | Some m =>
      if mapsize =? 0 then mm_mapsize m
      else if mapsize <? mm_mapsize m then Z.max mapsize ((mm_last_pg m + 1) * r_pad (mm_db0 m))
      else mapsize
  end.
Definition mdb_env_open2 (mapsize psize flags : Z) (f : file) : Z + (file * Z * Z) :=
  match mdb_env_read_header f with
  | inr m => inr (f, map_size mapsize (Some m), r_pad (mm_db0 m))
  | inl rc =>
      if rc =? ENOENT then
        let size := map_size mapsize None in inr (mdb_env_init_meta size psize flags f, size, psize)
      else inl rc
  end.
(** The environment with the file mapped, as mdb_env_share_locks leaves it in the
    process that opens it first *)
Definition mdb_env_share_locks (f : file) (mapsize psize flags : Z) : option file_env :=
  match f_page0 f, f_page1 f with
  | inr (_, m0), inr (_, m1) =>
      let d := {| dk_pages := f_pages f; dk_meta0 := m0; dk_meta1 := m1 |} in
      Some {| fe_flags := flags; fe_disk := d; fe_pos := 0; fe_txnid := mm_txnid (meta_of (mdb_env_pick_meta d) d); fe_fatal := false; fe_mapsize := mapsize; fe_psize := psize |}
  | _, _ => None
  end.
Definition mdb_env_open (mapsize psize flags : Z) (f : file) : Z + option file_env :=
  match mdb_env_open2 mapsize psize flags f with
  | inl rc => inl rc
  | inr (f, mapsize, psize) => inr (mdb_env_share_locks f mapsize psize flags)
  end.
(** What a process that opens the file sees of it *)
Definition file_of (d : disk) : file := {| f_page0 := inr (P_META, dk_meta0 d); f_page1 := inr (P_META, dk_meta1 d); f_pages := dk_pages d |}.

(** ** The dirty list: sorted, with room for the pages of each entry *)
Fixpoint laid (lo : Z) (l : list dpage) : Prop :=
  match l with
  | [] => True
  | dp :: l => lo <= mp_pgno (dp_page dp) /\ 1 <= page_count dp /\ lenZ (dp_tail dp) = page_count dp - 1 /\ laid (mp_pgno (dp_page dp) + page_count dp) l
  end.
Definition part_of (n : Z) (dp : dpage) : Prop := mp_pgno (dp_page dp) <= n < mp_pgno (dp_page dp) + page_count dp.
Definition covered (n : Z) (l : list dpage) : Prop := Exists (part_of n) l.
(** Each part of each dirty page is at its place *)
Definition in_place (l : list dpage) (m : gmap Z content) : Prop :=
  Forall (fun dp => forall (i : nat) c, contents_of dp !! i = Some c -> m !! (mp_pgno (dp_page dp) + Z.of_nat i) = Some c) l.
(** The pages of [iov] follow each other from [pos] up to [next] *)
Fixpoint in_row (pos : Z) (iov : list dpage) (next : Z) : Prop :=
  match iov with
  | [] => pos = next
  | dp :: iov => mp_pgno (dp_page dp) = pos /\ lenZ (contents_of dp) = page_count dp /\ in_row (pos + page_count dp) iov next
  end.
Fixpoint put_all (l : list dpage) (m : gmap Z content) : gmap Z content :=
  match l with [] => m | dp :: l => put_all l (put_pages (mp_pgno (dp_page dp)) (contents_of dp) m) end.

Lemma put_pages_app a b : forall pos m, put_pages pos (a ++ b) m = put_pages (pos + lenZ a) b (put_pages pos a m).
Proof.
  induction a as [|c a IH]; intros pos m; cbn [app put_pages].
  - autorewrite with len. f_equal. lia.
  - rewrite IH. autorewrite with len. f_equal. lia.
Qed.
Lemma put_pages_outside cs : forall pos m n, ~ (pos <= n < pos + lenZ cs) -> put_pages pos cs m !! n = m !! n.
Proof.
  induction cs as [|c cs IH]; intros pos m n Hn; cbn [put_pages]; [done|]. autorewrite with len in Hn. pose proof (lenZ_nonneg cs).
  rewrite IH by lia. apply lookup_insert_ne. lia.
Qed.
Lemma put_pages_inside cs : forall pos m (i : nat) c, cs !! i = Some c -> put_pages pos cs m !! (pos + Z.of_nat i) = Some c.
Proof.
  induction cs as [|c' cs IH]; intros pos m i c Hi; [done|]. cbn [put_pages]. destruct i as [|i].
  - injection Hi as ->. rewrite put_pages_outside by lia. rewrite Z.add_0_r. apply lookup_insert_eq.
  - cbn in Hi. replace (pos + Z.of_nat (S i)) with (pos + 1 + Z.of_nat i) by lia. by apply IH.
Qed.
Lemma contents_length dp : 1 <= page_count dp -> lenZ (dp_tail dp) = page_count dp - 1 -> lenZ (contents_of dp) = page_count dp.
Proof.
  intros H1 H2. unfold contents_of. rewrite lenZ_cons, takeZ_all by lia. unfold lenZ at 1. rewrite length_map. fold (lenZ (dp_tail dp)). lia.
Qed.
Lemma laid_lower lo lo' l : lo' <= lo -> laid lo l -> laid lo' l.
Proof. destruct l; cbn [laid]; [done|]. intuition lia. Qed.
Lemma put_all_app a b m : put_all (a ++ b) m = put_all b (put_all a m).
Proof. revert m. induction a as [|dp a IH]; intros m; cbn [app put_all]; [done|apply IH]. Qed.
Lemma row_app pos iov next dp :
  in_row pos iov next -> mp_pgno (dp_page dp) = next -> lenZ (contents_of dp) = page_count dp -> in_row pos (iov ++ [dp]) (next + page_count dp).
Proof.
  revert pos. induction iov as [|dp' iov IH]; intros pos; cbn [app in_row].
  - intros ->. done.
  - intros (E & L & H) E2 L2. split_and!; [done..|]. by apply IH.
Qed.
(** A row of pages is written with one call. *)
Lemma row_written iov : forall pos next m,
  in_row pos iov next -> put_pages pos (concat (map contents_of iov)) m = put_all iov m.
Proof.
  induction iov as [|dp iov IH]; intros pos next m; cbn [map concat in_row put_all]; [done|].
  intros (E & L & H). rewrite put_pages_app, L, E. by apply (IH _ next).
Qed.
Lemma row_length iov : forall pos next, in_row pos iov next -> pos + lenZ (concat (map contents_of iov)) = next.
Proof.
  induction iov as [|dp iov IH]; intros pos next; cbn [map concat in_row]; [autorewrite with len; lia|].
  intros (E & L & H). rewrite lenZ_app, L. apply IH in H. lia.
Qed.
Lemma row_covered iov : forall pos next n, in_row pos iov next -> pos <= n < next -> covered n iov.
Proof.
  induction iov as [|dp iov IH]; intros pos next n; cbn [in_row]; [intros; lia|]. intros (E & L & H) Hn.
  destruct (decide (n < pos + page_count dp)); [left; unfold part_of; lia|right; eapply IH; [done|lia]].
Qed.
Lemma put_all_outside l : forall lo m n, laid lo l -> ~ covered n l -> put_all l m !! n = m !! n.
Proof.
  induction l as [|dp l IH]; intros lo m n; cbn [laid put_all]; [done|]. intros (H1 & H2 & H3 & H) Hn.
  rewrite (IH _ _ _ H) by (intros Hc; apply Hn; by right). apply put_pages_outside. rewrite contents_length by done.
  intros Hc. apply Hn. left. unfold part_of. lia.
Qed.
Lemma laid_covered l : forall lo n, laid lo l -> covered n l -> lo <= n.
Proof.
  induction l as [|dp l IH]; intros lo n; cbn [laid]; intros H Hc; inversion Hc as [? ? Hd|? ? Hd]; subst.
  - unfold part_of in Hd. lia.
  - destruct H as (H1 & H2 & H3 & H). apply (IH _ _ H) in Hd. lia.
Qed.
Lemma put_all_in_place l : forall lo m, laid lo l -> in_place l (put_all l m).
Proof.
  induction l as [|dp l IH]; intros lo m; cbn [laid put_all]; [intros; constructor|]. intros (H1 & H2 & H3 & H). constructor; [|by eapply IH].
  intros i c Hi. pose proof (contents_length dp H2 H3) as L. assert (Z.of_nat i < page_count dp) by (apply lookup_lt_Some in Hi; unfold lenZ in L; lia).
  rewrite (put_all_outside l _ _ _ H) by (intros Hc; apply (laid_covered _ _ _ H) in Hc; lia). by apply put_pages_inside.
Qed.

(** ** The loop *)
(** A write to pages of [l] *)
Definition page_io (l : list dpage) (i : io) : Prop :=
  match i with
  | IoPages pos cs => forall n, pos <= n < pos + lenZ cs -> covered n l
  | IoClear n => covered n l
  | _ => False
  end.
Lemma page_io_sub l l' tr : (forall n, covered n l -> covered n l') -> Forall (page_io l) tr -> Forall (page_io l') tr.
Proof. intros H Ht. eapply Forall_impl; [exact Ht|]. intros [] Hi; cbn [page_io] in *; auto. Qed.
Lemma covered_l n a b : covered n a -> covered n (a ++ b).
Proof. intros. apply Exists_app. by left. Qed.
Lemma covered_r n a b : covered n b -> covered n (a ++ b).
Proof. intros. apply Exists_app. by right. Qed.
#[local] Hint Resolve covered_l covered_r : core.
Lemma exec_app a b c : exec (a ++ b) c = exec b (exec a c).
Proof. unfold exec. apply foldl_app. Qed.

Lemma writev_spec iov pos ws next :
  in_row pos iov next ->
  exists err pos' tr ws', writev iov pos ws = (err, pos', tr, ws') /\ Forall (page_io iov) tr /\
    match err with
    | None => (forall c, dk_pages (exec tr c) = put_all iov (dk_pages c)) /\ pos' = next /\ ws' ⊆ ws
    | Some n => exists wr, WPart n wr ∈ ws
    end.
Proof.
  intros H. unfold writev. pose proof (row_length _ _ _ H) as L.
  assert (Hout : forall cs, lenZ cs <= lenZ (concat (map contents_of iov)) -> Forall (page_io iov) [IoPages pos cs]).
  { intros cs Hcs. constructor; [|done]. intros n Hn. apply (row_covered _ pos next); [done|lia]. }
  assert (Hput : forall c, dk_pages (exec [IoPages pos (concat (map contents_of iov))] c) = put_all iov (dk_pages c)) by (intros c; apply (row_written _ _ _ _ H)).
  destruct ws as [|[|n wr] ws]; cbn [script_next].
  - eexists _, _, _, _. split; [done|]. split; [apply Hout; lia|done].
  - eexists _, _, _, _. split; [done|]. split; [apply Hout; lia|]. set_solver.
  - eexists _, _, _, _. split; [done|]. split; [|set_solver]. apply Hout. unfold takeZ, lenZ. rewrite length_take. lia.
Qed.
Definition to_write (next : Z) (iov l : list dpage) (pos : Z) : Prop :=
  in_row pos iov next /\ laid next l \/ iov = [] /\ exists lo, next < lo /\ laid lo l.
Lemma flush_spec dp next iov l pos ws :
  to_write next iov (dp :: l) pos ->
  exists err iov' pos' tr ws', flush (mp_pgno (dp_page dp)) next iov pos ws = (err, iov', pos', tr, ws') /\ Forall (page_io iov) tr /\
    match err with
    | None => in_row pos' iov' (mp_pgno (dp_page dp)) /\ (forall c, put_all iov' (dk_pages (exec tr c)) = put_all iov (dk_pages c)) /\ iov' ⊆ iov /\ ws' ⊆ ws
    | Some n => exists wr, WPart n wr ∈ ws
    end.
Proof.
  intros H. unfold flush. destruct (Z.eqb_spec (mp_pgno (dp_page dp)) next) as [E|E].
  - exists None, iov, pos, [], ws. split; [done|]. split; [done|]. rewrite E. destruct H as [[H _]|(-> & lo & Hlo & Hl)]; [done|]. cbn [laid] in Hl. lia.
  - destruct iov as [|dp' iov]; [eexists _, _, _, _, _; split; [done|]; split; [done|]; set_solver|].
    destruct H as [[H _]|[? _]]; [|done]. destruct (writev_spec _ _ ws _ H) as (err & d' & tr & ws' & -> & Ho & Hr).
    destruct err; eexists _, _, _, _, _; (split; [done|]); (split; [done|]); [done|]. destruct Hr as (Hp & _ & Hs). cbn [in_row put_all]. set_solver.
Qed.
Lemma write_pages_spec l : forall next iov pos ws,
  to_write next iov l pos ->
  exists err pos' tr ws', write_pages l next iov pos ws = (err, pos', tr, ws') /\ Forall (page_io (iov ++ l)) tr /\
    match err with
    | None => forall c, dk_pages (exec tr c) = put_all (iov ++ l) (dk_pages c)
    | Some n => exists wr, WPart n wr ∈ ws
    end.
Proof.
  induction l as [|dp l IH]; intros next iov pos ws H.
  - rewrite app_nil_r. cbn [write_pages]. destruct iov as [|dp iov]; [by eexists _, _, _, _|]. destruct H as [[H _]|[? _]]; [|done].
    destruct (writev_spec _ _ ws _ H) as (err & d' & tr & ws' & -> & Ho & Hr). eexists _, _, _, _. split; [done|]. split; [done|]. destruct err; [done|apply Hr].
  - cbn [write_pages]. destruct (flush_spec dp next iov l pos ws H) as (err & iov1 & pos1 & tr1 & ws1 & -> & Ho1 & Hr1).
    assert (Hdp : laid (mp_pgno (dp_page dp)) (dp :: l)) by (destruct H as [[_ H]|(_ & lo & _ & H)]; cbn [laid] in *; intuition lia).
    assert (Ho1' : Forall (page_io (iov ++ dp :: l)) tr1) by (eapply page_io_sub, Ho1; eauto).
    destruct err as [n|]; [by eexists _, _, _, _|].
    destruct Hr1 as (Hc & Hput & Hsub & Hws). destruct Hdp as (_ & H2 & H3 & Hl).
    assert (Hc' : in_row pos1 (iov1 ++ [dp]) (mp_pgno (dp_page dp) + page_count dp)) by (apply row_app; [done..|by apply contents_length]).
    assert (Hcov : forall n, covered n (iov1 ++ [dp]) -> covered n (iov ++ dp :: l)).
    { intros n Hn. apply Exists_exists in Hn as (x & Hx & Hn). apply Exists_exists. exists x. split; [set_solver|done]. }
    assert (Hcov' : forall n, covered n ((iov1 ++ [dp]) ++ l) -> covered n (iov ++ dp :: l)).
    { intros n Hn. apply Exists_app in Hn as [Hn|Hn]; [by apply Hcov|]. apply Exists_app. right. by right. }
    assert (Hall : forall c, put_all (iov ++ dp :: l) (dk_pages c) = put_all l (put_all (iov1 ++ [dp]) (dk_pages (exec tr1 c)))) by (intros c; by rewrite !put_all_app, Hput).
    destruct (MDB_COMMIT_PAGES <=? lenZ (iov1 ++ [dp])).
    + destruct (writev_spec _ _ ws1 _ Hc') as (err & pos2 & tr2 & ws2 & -> & Ho2 & Hr2). destruct err as [n|].
      * eexists _, _, _, _. split; [done|]. split; [apply Forall_app; split; [done|by eapply page_io_sub, Ho2]|]. destruct Hr2 as [wr Hwr]. exists wr. set_solver.
      * destruct Hr2 as (Hp2 & -> & Hws2). destruct (IH _ [] _ ws2 (or_introl (conj eq_refl Hl))) as (err & pos3 & tr3 & ws3 & -> & Ho3 & Hr3).
        eexists _, _, _, _. split; [done|]. split.
        -- repeat (apply Forall_app; split); [done|by eapply page_io_sub, Ho2|]. eapply page_io_sub, Ho3. cbn [app]. intros n Hn. apply Hcov'. eauto.
        -- destruct err as [n|]; [destruct Hr3 as [wr Hwr]; exists wr; set_solver|]. intros c. by rewrite !exec_app, Hr3, Hp2, Hall.
    + destruct (IH _ _ pos1 ws1 (or_introl (conj Hc' Hl))) as (err & pos3 & tr3 & ws3 & -> & Ho3 & Hr3). eexists _, _, _, _. split; [done|].
      split; [apply Forall_app; split; [done|by eapply page_io_sub, Ho3]|]. destruct err as [n|]; [destruct Hr3 as [wr Hwr]; exists wr; set_solver|].
      intros c. by rewrite exec_app, Hr3, Hall, put_all_app.
Qed.

(** ** Pages in the map *)
(** The entries of the dirty list do not overlap; with MDB_WRITEMAP they are in no
    order, and their contents are in the map, with the flag. *)
Fixpoint apart (l : list dpage) : Prop :=
  match l with
  | [] => True
  | dp :: l => 2 <= mp_pgno (dp_page dp) /\ 1 <= page_count dp /\ lenZ (dp_tail dp) = page_count dp - 1 /\
      Forall (fun dp' => forall n, part_of n dp -> ~ part_of n dp') l /\ apart l
  end.
Definition in_map (l : list dpage) (m : gmap Z content) : Prop :=
  Forall (fun dp => m !! mp_pgno (dp_page dp) = Some (Head (dp_page dp)) /\
    forall (i : nat) b, dp_tail dp !! i = Some b -> m !! (mp_pgno (dp_page dp) + Z.of_nat (S i)) = Some (Tail b)) l.
Definition dirty_laid (writemap : bool) (l : list dpage) : Prop := if writemap then apart l else laid 2 l.

Lemma io_outside l i c n : page_io l i -> ~ covered n l -> dk_pages (io_cache i c) !! n = dk_pages c !! n.
Proof.
  destruct i as [pos cs|m|k s| |k]; cbn [page_io io_cache]; intros Hi Hn; try done.
  - apply put_pages_outside. intros Hc. by apply Hn, Hi.
  - destruct (dk_pages c !! m) as [[p|b]|]; [|done..]. apply lookup_insert_ne. by intros ->.
Qed.
Lemma exec_outside l tr c n : Forall (page_io l) tr -> ~ covered n l -> dk_pages (exec tr c) !! n = dk_pages c !! n.
Proof.
  intros Ht Hn. revert c. induction Ht as [|i tr Hi Ht IH]; intros c; [done|]. change (exec (i :: tr) c) with (exec tr (io_cache i c)).
  rewrite IH. by apply (io_outside l).
Qed.
Lemma io_metas l i c : page_io l i -> dk_meta0 (io_cache i c) = dk_meta0 c /\ dk_meta1 (io_cache i c) = dk_meta1 c.
Proof. destruct i as [pos cs|m|k s| |k]; cbn [page_io io_cache]; try done. intros _. by destruct (dk_pages c !! m) as [[p|b]|]. Qed.
Lemma exec_metas l tr c : Forall (page_io l) tr -> dk_meta0 (exec tr c) = dk_meta0 c /\ dk_meta1 (exec tr c) = dk_meta1 c.
Proof.
  intros Ht. revert c. induction Ht as [|i tr Hi Ht IH]; intros c; [done|]. change (exec (i :: tr) c) with (exec tr (io_cache i c)).
  destruct (IH (io_cache i c)) as [-> ->]. by apply (io_metas l).
Qed.
Abbreviation clears := (map (fun dp => IoClear (mp_pgno (dp_page dp)))).
Lemma clears_io l : apart l -> Forall (page_io l) (clears l).
Proof.
  intros H. assert (Hc : Forall (fun dp => 1 <= page_count dp) l) by (induction l as [|dp l IH]; [done|]; cbn [apart] in H; constructor; [lia|apply IH, H]).
  clear H. rewrite Forall_forall in Hc. apply Forall_forall. intros i Hi. apply list_elem_of_fmap in Hi as (dp & -> & Hdp). cbn [page_io].
  apply Exists_exists. exists dp. split; [done|]. unfold part_of. specialize (Hc _ Hdp). cbn beta in Hc. lia.
Qed.
Lemma apart_covered dp l n : Forall (fun dp' => forall n, part_of n dp -> ~ part_of n dp') l -> part_of n dp -> ~ covered n l.
Proof. intros Hf Hn Hc. apply Exists_exists in Hc as (x & Hx & Hc). rewrite Forall_forall in Hf. by apply (Hf x Hx n). Qed.
(** Without their flags the pages are in place. *)
Lemma clears_place l : forall c, apart l -> in_map l (dk_pages c) -> in_place l (dk_pages (exec (clears l) c)).
Proof.
  induction l as [|dp l IH]; intros c H Hm; [constructor|]. cbn [apart] in H. destruct H as (H1 & H2 & H3 & Hf & Ha).
  apply Forall_cons in Hm as [[Hh Ht] Hm]. cbn [map]. set (c1 := io_cache (IoClear (mp_pgno (dp_page dp))) c).
  change (exec _ c) with (exec (clears l) c1).
  assert (E1 : dk_pages c1 = <[mp_pgno (dp_page dp) := Head (clear_dirty (dp_page dp))]> (dk_pages c)) by (subst c1; cbn [io_cache]; by rewrite Hh).
  assert (Hself : forall i : Z, 0 <= i < page_count dp -> part_of (mp_pgno (dp_page dp) + i) dp) by (intros i Hi; unfold part_of; lia).
  assert (Hkeep : forall i : Z, 0 <= i < page_count dp -> dk_pages (exec (clears l) c1) !! (mp_pgno (dp_page dp) + i) = dk_pages c1 !! (mp_pgno (dp_page dp) + i)).
  { intros i Hi. apply (exec_outside l); [by apply clears_io|]. eapply apart_covered; [done|by apply Hself]. }
  constructor.
  - intros [|i] x Hx; cbn [contents_of] in Hx.
    + injection Hx as <-. rewrite Hkeep by lia. rewrite E1, Z.add_0_r. apply lookup_insert_eq.
    + change (contents_of dp !! S i) with (map Tail (takeZ (page_count dp - 1) (dp_tail dp)) !! i) in Hx. rewrite takeZ_all in Hx by lia.
      apply list_lookup_fmap_Some in Hx as (b & -> & Hb). pose proof (lookup_lt_Some _ _ _ Hb) as Hlt. unfold lenZ in H3.
      rewrite Hkeep by lia. rewrite E1, lookup_insert_ne by lia. by apply Ht.
  - apply IH; [done|]. rewrite E1. unfold in_map in *. rewrite Forall_forall in Hf, Hm |- *. intros dp' Hdp'. destruct (Hm dp' Hdp') as [Hh' Ht'].
    assert (Hne : forall n, part_of n dp' -> n <> mp_pgno (dp_page dp)).
    { intros n Hn ->. apply (Hf dp' Hdp' (mp_pgno (dp_page dp))); [|done]. unfold part_of. lia. }
    assert (Hok : 1 <= page_count dp' /\ lenZ (dp_tail dp') = page_count dp' - 1).
    { clear -Ha Hdp'. induction l as [|x l IH]; [by apply not_elem_of_nil in Hdp'|]. destruct Ha as (_ & ? & ? & _ & Ha).
      apply elem_of_cons in Hdp' as [->|Hdp']; [done|by apply IH]. }
    split.
    + rewrite lookup_insert_ne; [done|]. intros E. apply (Hne (mp_pgno (dp_page dp'))); [unfold part_of; lia|done].
    + intros i b Hb. pose proof (lookup_lt_Some _ _ _ Hb) as Hlt. unfold lenZ in Hok. rewrite lookup_insert_ne; [by apply Ht'|].
      intros E. apply (Hne (mp_pgno (dp_page dp') + Z.of_nat (S i))); [unfold part_of; lia|done].
Qed.

(** ** The environment between transactions *)
Definition current (d : disk) : MDB_meta := meta_of (mdb_env_pick_meta d) d.
Definition spare (d : disk) : MDB_meta := meta_of (1 - mdb_env_pick_meta d) d.
Definition meta_ok (m : MDB_meta) : Prop := mm_magic m = MDB_MAGIC /\ mm_version m = MDB_VERSION /\ 0 <= mm_txnid m < 2 ^ 64.
(** The newest meta page is in the slot its number says, and the lock file has
    this number *)
Record env_ok (e : file_env) : Prop := {
  eo_meta0 : meta_ok (dk_meta0 (fe_disk e));
  eo_meta1 : meta_ok (dk_meta1 (fe_disk e));
  eo_slot : mdb_env_pick_meta (fe_disk e) = Z.land (mm_txnid (current (fe_disk e))) 1;
  eo_txnid : fe_fatal e = false -> fe_txnid e = mm_txnid (current (fe_disk e))
}.

Lemma pick_cases d :
  mdb_env_pick_meta d = 0 /\ mm_txnid (dk_meta1 d) <= mm_txnid (dk_meta0 d) \/ mdb_env_pick_meta d = 1 /\ mm_txnid (dk_meta0 d) < mm_txnid (dk_meta1 d).
Proof. unfold mdb_env_pick_meta. destruct (Z.ltb_spec (mm_txnid (dk_meta0 d)) (mm_txnid (dk_meta1 d))); auto. Qed.
(** A write to the spare slot makes it the current one if its number is larger,
    and changes nothing else otherwise. *)
Lemma newer_meta d m :
  mm_txnid (current d) < mm_txnid m ->
  current (with_meta (1 - mdb_env_pick_meta d) m d) = m /\ mdb_env_pick_meta (with_meta (1 - mdb_env_pick_meta d) m d) = 1 - mdb_env_pick_meta d.
Proof.
  unfold current. destruct (pick_cases d) as [[-> H]|[-> H]]; change (1 - 0) with 1; change (1 - 1) with 0; cbn [with_meta meta_of Z.eqb Pos.eqb]; intros Hm; unfold mdb_env_pick_meta; cbn [dk_meta0 dk_meta1];
    destruct (Z.ltb_spec (mm_txnid (dk_meta0 d)) (mm_txnid m)), (Z.ltb_spec (mm_txnid m) (mm_txnid (dk_meta1 d))); try lia; done.
Qed.
Lemma older_meta d m :
  mm_txnid m = mm_txnid (spare d) ->
  current (with_meta (1 - mdb_env_pick_meta d) m d) = current d /\ mdb_env_pick_meta (with_meta (1 - mdb_env_pick_meta d) m d) = mdb_env_pick_meta d.
Proof.
  unfold current, spare. destruct (pick_cases d) as [[-> H]|[-> H]]; change (1 - 0) with 1; change (1 - 1) with 0; cbn [with_meta meta_of Z.eqb Pos.eqb]; intros Hm; unfold mdb_env_pick_meta; cbn [dk_meta0 dk_meta1];
    rewrite Hm; [rewrite (proj2 (Z.ltb_ge _ _)) by lia|rewrite (proj2 (Z.ltb_lt _ _)) by lia]; done.
Qed.
Lemma with_meta_twice k a b d : with_meta k b (with_meta k a d) = with_meta k b d.
Proof. unfold with_meta. by destruct (k =? 0). Qed.
Lemma with_meta_ok k m d : meta_ok m -> meta_ok (dk_meta0 d) -> meta_ok (dk_meta1 d) -> meta_ok (dk_meta0 (with_meta k m d)) /\ meta_ok (dk_meta1 (with_meta k m d)).
Proof. unfold with_meta. destruct (k =? 0); cbn; auto. Qed.
Lemma with_meta_pages k m d : dk_pages (with_meta k m d) = dk_pages d.
Proof. unfold with_meta. by destruct (k =? 0). Qed.
Lemma parity_next n : Z.land (n + 1) 1 = 1 - Z.land n 1.
Proof. change 1 with (Z.ones 1). rewrite !Z.land_ones by lia. change (2 ^ 1) with 2. change (Z.ones 1) with 1. pose proof (Z.mod_pos_bound n 2). pose proof (Z.div_mod n 2). rewrite Z.add_mod by lia. destruct (decide (n mod 2 = 0)) as [->|]; [done|]. replace (n mod 2) with 1 by lia. done. Qed.

(** ** Runs *)
(** The disk has what matters: the newest meta page, and the pages in use *)
Record settled (live : Z -> Prop) (c d : disk) : Prop := {
  sd_meta0 : meta_ok (dk_meta0 d);
  sd_meta1 : meta_ok (dk_meta1 d);
  sd_pick : mdb_env_pick_meta d = mdb_env_pick_meta c;
  sd_current : current d = current c;
  sd_pages : forall n, live n -> dk_pages d !! n = dk_pages c !! n
}.
Lemma same_metas c d : dk_meta0 d = dk_meta0 c -> dk_meta1 d = dk_meta1 c -> mdb_env_pick_meta d = mdb_env_pick_meta c /\ current d = current c /\ spare d = spare c.
Proof. intros E0 E1. unfold current, spare, meta_of, mdb_env_pick_meta. by rewrite E0, E1. Qed.
Lemma settled_refl live c : meta_ok (dk_meta0 c) -> meta_ok (dk_meta1 c) -> settled live c c.
Proof. by constructor. Qed.
(** A meta page of the cache on the disk: nothing new, or both are the same *)
Lemma meta_back c d k : mdb_env_pick_meta d = mdb_env_pick_meta c -> current d = current c ->
  with_meta k (meta_of k c) d = d \/ dk_meta0 (with_meta k (meta_of k c) d) = dk_meta0 c /\ dk_meta1 (with_meta k (meta_of k c) d) = dk_meta1 c.
Proof.
  unfold current, with_meta. intros Hp Hc. rewrite Hp in Hc. destruct d as [pg m0 m1]. unfold meta_of at 1 in Hc. cbn [dk_meta0 dk_meta1] in *.
  destruct (pick_cases c) as [[E _]|[E _]]; rewrite E in Hc; change (0 =? 0) with true in Hc; change (1 =? 0) with false in Hc; unfold meta_of in *; destruct (k =? 0); cbn in *; subst; auto.
Qed.
Lemma settled_back live c d d' : meta_ok (dk_meta0 c) -> meta_ok (dk_meta1 c) -> settled live c d -> writeback c d d' -> settled live c d'.
Proof.
  intros M0 M1 H Hw. pose proof H as [H0 H1 Hp Hc Hl]. destruct Hw as [d n x Hn|d k].
  - constructor; try done. intros n' Hn'. cbn [with_pages dk_pages]. rewrite lookup_partial_alter_ne; [by apply Hl|]. intros ->. by apply Hn; rewrite Hl.
  - destruct (meta_back c d k Hp Hc) as [-> |[E0 E1]]; [done|]. destruct (same_metas _ _ E0 E1) as (P & C & _).
    constructor; rewrite ?E0, ?E1; try done. by rewrite with_meta_pages.
Qed.
Lemma run_invariant (J : disk -> disk -> Prop) tr c d c' d' :
  (forall c d d', J c d -> writeback c d d' -> J c d') -> (forall i c d, i ∈ tr -> J c d -> J (io_cache i c) (io_disk i c d)) ->
  J c d -> io_run tr (c, d) (c', d') -> J c' d'.
Proof.
  intros Hw Hi HJ Hr. remember (c, d) as s eqn:Es. remember (c', d') as s' eqn:Es'. revert c d Es HJ.
  induction Hr as [s|tr c1 d1 d2 s Hb Hr IH|i tr c1 d1 s Hr IH]; intros c d Es HJ; subst.
  - by injection Es as <- <-.
  - injection Es as <- <-. by apply (IH Hi eq_refl c1 d2 eq_refl), (Hw _ d1).
  - injection Es as <- <-. eapply IH; [|done|done|apply Hi; [by left|done]]. intros j x y Hj. apply Hi. by right.
Qed.
Lemma run_cache tr c d c' d' : io_run tr (c, d) (c', d') -> c' = exec tr c.
Proof.
  intros Hr. remember (c, d) as s eqn:Es. remember (c', d') as s' eqn:Es'. revert c d Es.
  induction Hr as [s|tr c1 d1 d2 s Hb Hr IH|i tr c1 d1 s Hr IH]; intros c d Es; subst; injection Es as <- <-; [done|by eapply IH|by eapply IH].
Qed.
Lemma io_run_app a b s s' : io_run (a ++ b) s s' -> exists s1, io_run a s s1 /\ io_run b s1 s'.
Proof.
  remember (a ++ b) as tr eqn:Et. intros Hr. revert a Et. induction Hr as [s|tr c1 d1 d2 s Hb Hr IH|i tr c1 d1 s Hr IH]; intros a Et.
  - destruct a; [|done]. cbn in Et. subst b. exists s. split; constructor.
  - destruct (IH a Et) as (s1 & H1 & H2). exists s1. split; [by econstructor|done].
  - destruct a as [|j a]; cbn [app] in Et.
    + subst b. exists (c1, d1). split; [constructor|by constructor].
    + injection Et as -> ->. destruct (IH a eq_refl) as (s1 & H1 & H2). exists s1. split; [by constructor|done].
Qed.
Lemma run_cons i tr c d s : io_run (i :: tr) (c, d) s -> exists d1, io_run [] (c, d) (c, d1) /\ io_run tr (io_cache i c, io_disk i c d1) s.
Proof.
  remember (i :: tr) as l eqn:El. remember (c, d) as s0 eqn:Es. intros Hr. revert c d Es El. induction Hr as [s|l c1 d1 d2 s Hb Hr IH|j l c1 d1 s Hr IH]; intros c d Es El; [done| |].
  - injection Es as -> ->. destruct (IH c d2 eq_refl El) as (d3 & H1 & H2). exists d3. split; [by econstructor|done].
  - injection El as -> ->. injection Es as -> ->. exists d. split; [constructor|done].
Qed.
(** At every point of a run *)
Definition always (tr : list io) (s : disk * disk) (Q : disk * disk -> Prop) : Prop := forall p q s', tr = p ++ q -> io_run p s s' -> Q s'.
Lemma always_app a b s Q : always a s Q -> (forall s', io_run a s s' -> always b s' Q) -> always (a ++ b) s Q.
Proof.
  intros Ha Hb p q s' E Hr. apply app_eq_app in E as (k & [[-> ->]|[-> ->]]); [by eapply Ha|]. apply io_run_app in Hr as (s1 & H1 & H2). by eapply Hb.
Qed.

Section phases.
Context (live : Z -> Prop) (l : list dpage).
Hypothesis Hlive : forall n, live n -> ~ covered n l.
(** While pages are written *)
Definition phase1 (c0 c d : disk) : Prop :=
  dk_meta0 c = dk_meta0 c0 /\ dk_meta1 c = dk_meta1 c0 /\ (forall n, live n -> dk_pages c !! n = dk_pages c0 !! n) /\ settled live c d.
Lemma phase1_run c0 tr c d c' d' :
  meta_ok (dk_meta0 c0) -> meta_ok (dk_meta1 c0) -> Forall (page_io l) tr -> phase1 c0 c d -> io_run tr (c, d) (c', d') -> phase1 c0 c' d'.
Proof.
  intros M0 M1 Ht. apply run_invariant.
  - intros c1 d1 d2 (E0 & E1 & Hp & Hs) Hb. do 3 (split; [done|]). eapply settled_back; [by rewrite E0|by rewrite E1|done|done].
  - intros i c1 d1 Hi (E0 & E1 & Hp & [H0 H1 Hk Hc Hl]). rewrite Forall_forall in Ht. specialize (Ht _ Hi).
    destruct (io_metas l i c1 Ht) as [F0 F1]. assert (Hpg : forall n, live n -> dk_pages (io_cache i c1) !! n = dk_pages c1 !! n) by (intros n Hn; by apply (io_outside l), Hlive).
    destruct (same_metas _ _ F0 F1) as (P & C & _). split; [congruence|]. split; [congruence|]. split; [intros n Hn; by rewrite Hpg, Hp|].
    assert (Ed : io_disk i c1 d1 = d1) by (by destruct i). rewrite Ed. constructor; [done|done|congruence|congruence|]. intros n Hn. by rewrite Hpg, Hl.
Qed.
End phases.
(** After a sync the disk has what the cache has. *)
Lemma back_same c d : io_run [] (c, c) (c, d) -> d = c.
Proof.
  apply (run_invariant (fun c d => d = c)); [|intros ? ? ? Hi; by apply not_elem_of_nil in Hi|done]. clear. intros c d d' -> Hb. inversion Hb as [? n x Hn|? k]; subst; [done|]. unfold with_meta, meta_of. by destruct (k =? 0), c.
Qed.

(** While fields of the spare meta page are stored: [m] is that page in the cache,
    [P] says what the one on the disk can be. *)
Section meta.
Context (k : Z) (cur : MDB_meta) (pg : gmap Z content).
Hypothesis Hk : k = 0 \/ k = 1.
Definition phase2 (P : MDB_meta -> Prop) (m : MDB_meta) (c d : disk) : Prop :=
  dk_pages c = pg /\ dk_pages d = pg /\ meta_of (1 - k) c = cur /\ meta_of (1 - k) d = cur /\ meta_of k c = m /\ P (meta_of k d).
Lemma meta_of_with j m d : j = 0 \/ j = 1 -> meta_of j (with_meta j m d) = m /\ meta_of (1 - j) (with_meta j m d) = meta_of (1 - j) d /\ dk_pages (with_meta j m d) = dk_pages d.
Proof. by intros [-> | ->]. Qed.
Lemma with_meta_slot j m d : with_meta j m d = with_meta (if j =? 0 then 0 else 1) m d /\ meta_of j d = meta_of (if j =? 0 then 0 else 1) d.
Proof. unfold with_meta, meta_of. by destruct (j =? 0). Qed.
Lemma phase2_back P m c d d' : P m -> phase2 P m c d -> io_run [] (c, d) (c, d') -> phase2 P m c d'.
Proof.
  intros HP. apply (run_invariant (phase2 P m)); [|intros ? ? ? Hi; by apply not_elem_of_nil in Hi]. clear c d d'.
  intros c d0 d' (E1 & E2 & E3 & E4 & E5 & E6) Hb. inversion Hb as [? n x Hn|? j]; subst d'; [by rewrite E1, E2 in Hn|].
  destruct (with_meta_slot j (meta_of j c) d0) as [-> _]. destruct (with_meta_slot j cur c) as [_ ->].
  set (j' := if j =? 0 then 0 else 1). assert (Hj : j' = k \/ j' = 1 - k) by (subst j'; destruct (j =? 0), Hk; lia). destruct Hj as [-> | ->].
  - destruct (meta_of_with k (meta_of k c) d0 Hk) as (F1 & F2 & F3). rewrite E5 in *. split_and!; [done|congruence|done|congruence|done|]. by rewrite F1.
  - destruct (meta_of_with (1 - k) (meta_of (1 - k) c) d0 ltac:(lia)) as (F1 & F2 & F3). replace (1 - (1 - k)) with k in F2 by lia.
    split_and!; [done|congruence|done|congruence|done|]. by rewrite F2.
Qed.
Lemma phase2_stores P ls : forall m c d c' d', (forall p q, ls = p ++ q -> P (stores p m)) -> phase2 P m c d ->
  io_run (map (IoMeta k) ls) (c, d) (c', d') -> phase2 P (stores ls m) c' d'.
Proof.
  induction ls as [|s ls IH]; intros m c d c' d' HP H Hr; cbn [map] in Hr.
  - assert (c' = c) as -> by (apply run_cache in Hr; done). eapply phase2_back; [apply (HP [] []); done|done|done].
  - apply run_cons in Hr as (d1 & Hb & Hr). pose proof (phase2_back _ _ _ _ _ (HP [] (s :: ls) eq_refl) H Hb) as (E1 & E2 & E3 & E4 & E5 & E6).
    cbn [io_disk] in Hr. apply (IH (store s m) (io_cache (IoMeta k s) c) d1); [| |exact Hr].
    + intros p q ->. apply (HP (s :: p) q). done.
    + cbn [io_cache io_disk]. rewrite E5. change (stores [] m) with m. destruct (meta_of_with k (store s m) c Hk) as (F1 & F2 & F3). unfold phase2. rewrite F1, F2, F3. by split_and!.
Qed.
Lemma phase2_always P ls m c d : (forall p q, ls = p ++ q -> P (stores p m)) -> phase2 P m c d ->
  always (map (IoMeta k) ls) (c, d) (fun s => exists m', P m' /\ phase2 P m' s.1 s.2).
Proof.
  intros HP H p q [c' d'] E Hr. apply map_eq_app in E as (lp & lq & -> & <- & <-). exists (stores lp m). split; [by eapply HP|].
  eapply phase2_stores; [|exact H|exact Hr]. intros p' q' ->. apply (HP p' (q' ++ lq)). by rewrite app_assoc.
Qed.
Lemma phase2_sync P m c d c' d' : P m -> phase2 P m c d -> io_run [IoSyncMeta k] (c, d) (c', d') -> phase2 (eq m) m c' d'.
Proof.
  intros HP H Hr. apply run_cons in Hr as (d1 & Hb & Hr). destruct (phase2_back _ _ _ _ _ HP H Hb) as (E1 & E2 & E3 & E4 & E5 & E6). cbn [io_cache io_disk] in Hr.
  assert (c' = c) as -> by (apply run_cache in Hr; done). eapply phase2_back; [reflexivity| |exact Hr].
  destruct (meta_of_with k (meta_of k c) d1 Hk) as (F1 & F2 & F3). split_and!; congruence.
Qed.
Lemma phase2_weaken (P Q : MDB_meta -> Prop) m c d : (forall x, P x -> Q x) -> phase2 P m c d -> phase2 Q m c d.
Proof. intros HPQ (? & ? & ? & ? & ? & ?). split_and!; auto. Qed.
End meta.
(** ** The stores of a meta page *)
Definition meta_made (writemap : bool) (mapsize last_pg txnid : Z) (t : commit_txn) (old : MDB_meta) : MDB_meta :=
  let grown := mm_mapsize old <? mapsize in
  {| mm_magic := mm_magic old; mm_version := mm_version old; mm_mapsize := if grown then mapsize else mm_mapsize old;
     mm_db0 := if writemap || grown then ct_db0 t
               else {| r_pad := r_pad (mm_db0 old); r_flags := r_flags (mm_db0 old); r_depth := r_depth (ct_db0 t); r_branch_pages := r_branch_pages (ct_db0 t);
                       r_leaf_pages := r_leaf_pages (ct_db0 t); r_overflow_pages := r_overflow_pages (ct_db0 t); r_entries := r_entries (ct_db0 t); r_root := r_root (ct_db0 t) |};
     mm_db1 := ct_db1 t; mm_last_pg := last_pg; mm_txnid := txnid |}.
Lemma stores_app a b m : stores (a ++ b) m = stores b (stores a m).
Proof. unfold stores. apply foldl_app. Qed.
Lemma stores_made wm mapsize last_pg txnid t old : stores (meta_stores wm mapsize last_pg txnid t old) old = meta_made wm mapsize last_pg txnid t old.
Proof.
  unfold meta_stores, meta_body, meta_made. destruct t as [? ? ? [] [] ? ?], old as [? ? ? [] [] ? ?]. cbn [mm_mapsize ct_db0 ct_db1]. destruct wm, (_ <? mapsize); reflexivity.
Qed.
Definition no_txnid (s : mstore) : Prop := match s with STxnid _ => False | _ => True end.
Lemma body_no_txnid wm mapsize t old : Forall no_txnid (meta_body wm mapsize t old).
Proof. unfold meta_body. destruct wm, (_ <? mapsize); repeat constructor. Qed.
(** All stores but the last two leave a meta page that has them already. *)
Lemma body_made wm mapsize last_pg txnid t old : Forall (fun s => store s (meta_made wm mapsize last_pg txnid t old) = meta_made wm mapsize last_pg txnid t old) (meta_body wm mapsize t old).
Proof.
  unfold meta_body, meta_made. destruct t as [? ? ? [] [] ? ?], old as [? ? ? [] [] ? ?]. cbn [mm_mapsize ct_db0 ct_db1]. destruct wm, (_ <? mapsize); repeat constructor.
Qed.
Lemma stores_fixed p m : Forall (fun s => store s m = m) p -> stores p m = m.
Proof. induction 1 as [|s p Hs Hp IH]; [done|]. unfold stores in *. cbn [foldl]. by rewrite Hs. Qed.
Lemma stores_keep p v : forall m, Forall (fun s => no_txnid s \/ s = STxnid v) p -> mm_txnid m = v -> mm_txnid (stores p m) = v /\ mm_magic (stores p m) = mm_magic m /\ mm_version (stores p m) = mm_version m.
Proof.
  induction p as [|s p IH]; intros m Hp Hm; [done|]. apply Forall_cons in Hp as [Hs Hp]. destruct (IH (store s m) Hp) as (H1 & H2 & H3); [|done].
  destruct Hs as [Hs| ->]; [by destruct s|done].
Qed.
Lemma prefix_cases {A} (l : list A) x y p q : l ++ [x; y] = p ++ q -> (exists q', l = p ++ q') \/ p = l ++ [x] \/ p = l ++ [x; y].
Proof.
  intros E. apply app_eq_app in E as (k & [[-> ->]|[-> E]]); [left; by exists k|]. destruct k as [|a [|b [|c k]]]; [|injection E as -> ->|injection E as -> -> ->|done].
  - left. exists []. by rewrite !app_nil_r.
  - right. by left.
  - right. by right.
Qed.

Section made.
Context (wm : bool) (mapsize last_pg txnid : Z) (t : commit_txn) (old : MDB_meta).
Hypothesis Hold : meta_ok old.
Definition old_like (x : MDB_meta) : Prop := meta_ok x /\ mm_txnid x = mm_txnid old.
Abbreviation made := (meta_made wm mapsize last_pg txnid t old).
Lemma keep_old p m : old_like m -> Forall (fun s => no_txnid s \/ s = STxnid (mm_txnid old)) p -> old_like (stores p m).
Proof. intros [(H1 & H2 & H3) H4] Hp. destruct (stores_keep p _ m Hp H4) as (E1 & E2 & E3). unfold old_like, meta_ok. rewrite E1, E2, E3. split; [|done]. split_and!; [done..|lia|lia]. Qed.
Lemma no_txnid_old p : Forall no_txnid p -> Forall (fun s => no_txnid s \/ s = STxnid (mm_txnid old)) p.
Proof. intros H. eapply Forall_impl; [exact H|]. by left. Qed.
(** On the way the old number stays, and then the page is the new one. *)
Lemma stores_way p q : meta_stores wm mapsize last_pg txnid t old = p ++ q -> q <> [] /\ old_like (stores p old) \/ q = [] /\ stores p old = made.
Proof.
  intros E. assert (Hoo : old_like old) by done. pose proof (body_no_txnid wm mapsize t old) as Hb. destruct q as [|a q].
  - right. split; [done|]. rewrite app_nil_r in E. rewrite <- E. apply stores_made.
  - left. split; [done|]. apply keep_old; [done|]. apply no_txnid_old. apply prefix_cases in E as E'. destruct E' as [(q' & E')|[-> | ->]].
    + rewrite E' in Hb. by apply Forall_app in Hb as [Hb _].
    + apply Forall_app. by split; [|repeat constructor].
    + unfold meta_stores in E. apply (f_equal length) in E. rewrite !length_app in E. cbn in E. lia.
Qed.
End made.
(** When the write failed, after [n] fields, the old numbers are written: it ends
    with the old number, but for a moment the new page can have the old limit. *)
Lemma stores_back mapsize last_pg txnid t old n p q : meta_ok old ->
  take n (meta_stores false mapsize last_pg txnid t old) ++ meta_stores false mapsize (mm_last_pg old) (mm_txnid old) t old = p ++ q ->
  old_like old (stores p old) \/ stores p old = meta_made false mapsize last_pg txnid t old \/ stores p old = meta_made false mapsize (mm_last_pg old) txnid t old.
Proof.
  intros Hold E. pose proof (body_no_txnid false mapsize t old) as Hb.
  assert (Hway : forall p0 q0, take n (meta_stores false mapsize last_pg txnid t old) = p0 ++ q0 ->
    old_like old (stores p0 old) \/ stores p0 old = meta_made false mapsize last_pg txnid t old).
  { intros p0 q0 E0. destruct (stores_way false mapsize last_pg txnid t old Hold p0 (q0 ++ drop n (meta_stores false mapsize last_pg txnid t old))) as [[_ H]|[_ H]]; auto.
    by rewrite app_assoc, <- E0, take_drop. }
  assert (Hall : Forall (fun s => no_txnid s \/ s = STxnid (mm_txnid old)) (meta_stores false mapsize (mm_last_pg old) (mm_txnid old) t old)).
  { unfold meta_stores. apply Forall_app. split; [by apply no_txnid_old|]. constructor; [by left|]. constructor; [by right|done]. }
  apply app_eq_app in E as (k & [[E ->]|[-> E]]); [destruct (Hway _ _ E); auto|]. rewrite stores_app.
  destruct (Hway _ [] (eq_sym (app_nil_r _))) as [Ho|Hn].
  - left. apply keep_old; [done|]. rewrite E in Hall. by apply Forall_app in Hall as [? _].
  - rewrite Hn. pose proof (body_made false mapsize last_pg txnid t old) as Hm. apply prefix_cases in E as [(q' & E)|[-> | ->]].
    + right; left. apply stores_fixed. rewrite E in Hm. by apply Forall_app in Hm as [? _].
    + right; right. rewrite stores_app, (stores_fixed _ _ Hm). reflexivity.
    + left. rewrite stores_app, (stores_fixed _ _ Hm). split; [|done]. destruct Hold as (? & ? & ?). by split; [|split].
Qed.
(** ** Which meta page counts *)
Definition new_meta (t : commit_txn) (e : file_env) : MDB_meta :=
  meta_made (F_ISSET (fe_flags e) MDB_WRITEMAP) (fe_mapsize e) (ct_next_pgno t - 1) (ct_txnid t) t (spare (fe_disk e)).
(** The new page with the limit of the file from before *)
Definition half_meta (t : commit_txn) (e : file_env) : MDB_meta :=
  meta_made false (fe_mapsize e) (mm_last_pg (spare (fe_disk e))) (ct_txnid t) t (spare (fe_disk e)).
Definition half_way (e : file_env) (ms : list meta_res) : Prop := F_ISSET (fe_flags e) MDB_WRITEMAP = false /\ exists n k ms', ms = MFail n k :: ms'.
(** What the spare meta page can be while it is written *)
Definition spare_ok (t : commit_txn) (e : file_env) (ms : list meta_res) (x : MDB_meta) : Prop :=
  old_like (spare (fe_disk e)) x \/ x = new_meta t e \/ half_way e ms /\ x = half_meta t e.
Lemma pick_slots c d :
  meta_of (mdb_env_pick_meta c) d = current c ->
  (mm_txnid (meta_of (1 - mdb_env_pick_meta c) d) = mm_txnid (spare c) -> mdb_env_pick_meta d = mdb_env_pick_meta c /\ current d = current c) /\
  (mm_txnid (current c) < mm_txnid (meta_of (1 - mdb_env_pick_meta c) d) -> mdb_env_pick_meta d = 1 - mdb_env_pick_meta c /\ current d = meta_of (1 - mdb_env_pick_meta c) d).
Proof.
  unfold current, spare. destruct (pick_cases c) as [[-> H]|[-> H]]; change (1 - 0) with 1; change (1 - 1) with 0; cbn [meta_of Z.eqb Pos.eqb]; intros E; unfold mdb_env_pick_meta; rewrite E;
    (split; intros Hx; [rewrite Hx|]); (destruct (_ <? _) eqn:El; [apply Z.ltb_lt in El|apply Z.ltb_ge in El]); try lia; done.
Qed.
Section counts.
Context (t : commit_txn) (e : file_env) (ms : list meta_res).
Hypothesis He : env_ok e.
Hypothesis Hf : fe_fatal e = false.
Hypothesis Hid : ct_txnid t = mm_txnid (current (fe_disk e)) + 1.
Hypothesis Hlt : ct_txnid t < 2 ^ 64.
Abbreviation c1 := (fe_disk e).
Abbreviation k := (1 - mdb_env_pick_meta (fe_disk e)).
Lemma slot_k : k = 0 \/ k = 1.
Proof. destruct (pick_cases c1) as [[-> _]|[-> _]]; auto. Qed.
Lemma spare_meta_ok : meta_ok (spare c1).
Proof. unfold spare, meta_of. destruct He. by case_match. Qed.
Lemma current_meta_ok : meta_ok (current c1).
Proof. unfold current, meta_of. destruct He. by case_match. Qed.
Lemma made_meta_ok wm mapsize lp : meta_ok (meta_made wm mapsize lp (ct_txnid t) t (spare c1)).
Proof. destruct spare_meta_ok as (? & ? & ?), current_meta_ok as (_ & _ & ?). split; [done|]. split; [done|]. cbn. lia. Qed.
(** A disk with the current page in its slot, and such a page in the other *)
Lemma spare_counts d : meta_of (1 - k) d = current c1 -> spare_ok t e ms (meta_of k d) ->
  meta_ok (dk_meta0 d) /\ meta_ok (dk_meta1 d) /\ mdb_env_pick_meta d = Z.land (mm_txnid (current d)) 1 /\
  (mdb_env_pick_meta d = mdb_env_pick_meta c1 /\ current d = current c1 \/ current d = new_meta t e \/ half_way e ms /\ current d = half_meta t e).
Proof.
  intros Hc Hx. replace (1 - k) with (mdb_env_pick_meta c1) in Hc by lia. destruct (pick_slots c1 d Hc) as [Ho Hn].
  assert (Hxm : meta_ok (meta_of k d)) by (destruct Hx as [[? _]|[-> |[_ ->]]]; [done|apply made_meta_ok..]).
  assert (Hm : meta_ok (dk_meta0 d) /\ meta_ok (dk_meta1 d)).
  { pose proof current_meta_ok as Hcm. rewrite <- Hc in Hcm. clear -Hcm Hxm. destruct (pick_cases c1) as [[E _]|[E _]]; rewrite E in *; by split. }
  destruct Hm as [M0 M1]. split; [done|]. split; [done|]. pose proof (eo_slot _ He) as Hs.
  destruct Hx as [[_ Hx]|Hx].
  - destruct (Ho Hx) as [-> ->]. split; [done|]. by left.
  - assert (Hid' : mm_txnid (meta_of k d) = ct_txnid t) by (destruct Hx as [-> |[_ ->]]; done). destruct (Hn ltac:(lia)) as [-> Ec]. rewrite Ec. split.
    + by rewrite Hid', Hid, parity_next, <- Hs.
    + right. destruct Hx as [-> |[? ->]]; auto.
Qed.
Lemma phase2_start : phase2 k (current c1) (dk_pages c1) (spare_ok t e ms) (spare c1) c1 c1.
Proof. unfold phase2. replace (1 - k) with (mdb_env_pick_meta c1) by lia. split_and!; try done. left. split; [apply spare_meta_ok|done]. Qed.
Abbreviation final := (phase2 k (current c1) (dk_pages c1) (eq (new_meta t e)) (new_meta t e)).

(** What [mdb_env_write_meta] leaves, at every point and at the end *)
Lemma write_meta_spec : ct_toggle t = mdb_env_pick_meta c1 -> no_meta_sync (fe_flags e) = false -> F_ISSET (fe_flags e) MDB_WRITEMAP && F_ISSET (fe_flags e) MDB_MAPASYNC = false ->
  exists rc tr txnid fatal, mdb_env_write_meta t e ms = (rc, tr, with_result (exec tr c1) (fe_pos e) txnid fatal e) /\
    always tr (c1, c1) (fun s => exists m, spare_ok t e ms m /\ phase2 k (current c1) (dk_pages c1) (spare_ok t e ms) m s.1 s.2) /\
    (fatal = false -> rc = 0 /\ txnid = ct_txnid t /\ forall c' d', io_run tr (c1, c1) (c', d') -> final c' d') /\
    (fatal = true -> exists n, MFail rc n ∈ ms).
Proof.
  intros Ht Hns Has. unfold mdb_env_write_meta. pose proof slot_k as Hk. pose proof phase2_start as H0. pose proof spare_meta_ok as Hso.
  replace (if ct_toggle t =? 0 then 1 else 0) with k by (rewrite Ht; destruct (pick_cases c1) as [[-> _]|[-> _]]; done).
  cbv zeta. change (meta_of k c1) with (spare c1). rewrite Hns.
  set (full := fun wm => meta_stores wm (fe_mapsize e) (ct_next_pgno t - 1) (ct_txnid t) t (spare c1)).
  assert (Hway : forall p q, full (F_ISSET (fe_flags e) MDB_WRITEMAP) = p ++ q -> spare_ok t e ms (stores p (spare c1))).
  { intros p q E. destruct (stores_way _ _ _ _ t _ Hso p q E) as [[_ H]|[_ H]]; [by left|right; by left]. }
  assert (Hend : stores (full (F_ISSET (fe_flags e) MDB_WRITEMAP)) (spare c1) = new_meta t e) by apply stores_made.
  assert (Hnew : spare_ok t e ms (new_meta t e)) by (right; by left).
  assert (Hsync : let tr := map (IoMeta k) (full (F_ISSET (fe_flags e) MDB_WRITEMAP)) ++ [IoSyncMeta k] in
    always tr (c1, c1) (fun s => exists m, spare_ok t e ms m /\ phase2 k (current c1) (dk_pages c1) (spare_ok t e ms) m s.1 s.2) /\
    forall c' d', io_run tr (c1, c1) (c', d') -> final c' d').
  { cbv zeta. split.
    - apply always_app; [by apply (phase2_always k _ _ Hk _ _ (spare c1))|]. intros [c2 d2] Hr. pose proof (phase2_stores k _ _ Hk _ _ _ _ _ _ _ Hway H0 Hr) as H2. rewrite Hend in H2.
      intros p q [c3 d3] E Hr2. destruct p as [|i [|j p]]; [| |by destruct p].
      + exists (new_meta t e). split; [done|]. assert (c3 = c2) as -> by (by apply run_cache in Hr2). by eapply phase2_back.
      + injection E as <- <-. exists (new_meta t e). split; [done|]. eapply phase2_weaken; [|by eapply phase2_sync]. by intros x <-.
    - intros c' d' Hr. apply io_run_app in Hr as ([c2 d2] & Hr & Hr2). pose proof (phase2_stores k _ _ Hk _ _ _ _ _ _ _ Hway H0 Hr) as H2. rewrite Hend in H2. by eapply phase2_sync. }
  destruct (F_ISSET (fe_flags e) MDB_WRITEMAP) eqn:Ew; cbn [andb] in Has.
  - rewrite Has. destruct ms as [|[|n r] ms'] eqn:Em; cbn [script_next]; rewrite <- ?Em in *.
    1, 2: exists 0; do 2 eexists; exists (fe_fatal e); split; [reflexivity|]; destruct Hsync as [Hs1 Hs2]; split; [exact Hs1|]; rewrite Hf; split; [|done]; intros _; split; [done|]; split; [done|exact Hs2].
    exists n. do 2 eexists. exists true. split; [reflexivity|]. split; [by apply (phase2_always k _ _ Hk _ _ (spare c1))|]. split; [done|]. intros _. exists r. subst ms. by left.
  - destruct ms as [|[|n r] ms'] eqn:Em; cbn [script_next]; rewrite <- ?Em in *.
    1, 2: exists 0; do 2 eexists; exists (fe_fatal e); split; [reflexivity|]; destruct Hsync as [Hs1 Hs2]; split; [exact Hs1|]; rewrite Hf; split; [|done]; intros _; split; [done|]; split; [done|exact Hs2].
    destruct (script_next MOk ms') as [w ms2]. set (back := match w with MOk => _ | MFail _ n0 => _ end).
    exists n. do 2 eexists. exists true. split; [reflexivity|]. split; [|split; [done|]; intros _; exists r; subst ms; by left].
    apply (phase2_always k _ _ Hk _ _ (spare c1)); [|done]. intros p q E.
    assert (Hbk : exists q', meta_stores false (fe_mapsize e) (mm_last_pg (spare c1)) (mm_txnid (spare c1)) t (spare c1) = back ++ q').
    { subst back. destruct w as [|? m]; [exists []; by rewrite app_nil_r|]. eexists. symmetry. apply take_drop. }
    destruct Hbk as [q' Hbk]. destruct (stores_back (fe_mapsize e) (ct_next_pgno t - 1) (ct_txnid t) t (spare c1) r p (q ++ q') Hso) as [H|[H|H]].
    + rewrite app_assoc, <- E, <- app_assoc, <- Hbk. done.
    + by left.
    + right; left. unfold new_meta. by rewrite Ew.
    + right; right. split; [|done]. split; [done|]. by exists n, r, ms'.
Qed.
End counts.

(** ** Opening *)
Lemma check_meta_ok m : meta_ok m -> check_meta (inr (P_META, m)) = inr m.
Proof. intros (H1 & H2 & _). unfold check_meta. by rewrite H1, H2. Qed.
Lemma open_file d mapsize psize flags :
  meta_ok (dk_meta0 d) -> meta_ok (dk_meta1 d) -> mdb_env_pick_meta d = Z.land (mm_txnid (current d)) 1 ->
  exists e, mdb_env_open mapsize psize flags (file_of d) = inr (Some e) /\ env_ok e /\ fe_fatal e = false /\ current (fe_disk e) = current d /\ dk_pages (fe_disk e) = dk_pages d.
Proof.
  intros H0 H1 Hp. unfold mdb_env_open, mdb_env_open2, mdb_env_read_header. cbn [file_of f_page0 f_page1]. rewrite !check_meta_ok by done.
  eexists. split; [reflexivity|]. split; [|by cbn]. by constructor.
Qed.
(** An empty file becomes an environment with transaction 0. *)
Lemma open_new f mapsize psize flags :
  f_page0 f = inl ENOENT ->
  exists e, mdb_env_open mapsize psize flags f = inr (Some e) /\ env_ok e /\ fe_fatal e = false /\ mm_txnid (current (fe_disk e)) = 0.
Proof.
  intros H. unfold mdb_env_open, mdb_env_open2, mdb_env_read_header. rewrite H. eexists. split; [reflexivity|]. split; [|by cbn]. by constructor.
Qed.

(** ** The whole commit *)
(** The flags under which a commit waits for the disk *)
Definition syncing (flags : Z) : bool := negb (no_meta_sync flags) && negb (F_ISSET flags MDB_WRITEMAP && F_ISSET flags MDB_MAPASYNC).
Definition committed (t : commit_txn) (e : file_env) (d : disk) : Prop := current d = new_meta t e /\ in_place (ct_dirty t) (dk_pages d).
Definition kept (l : list dpage) (e e' : file_env) : Prop := forall n, ~ covered n l -> dk_pages (fe_disk e') !! n = dk_pages (fe_disk e) !! n.
(** What a process finds that opens the file after a crash *)
Definition survives (live : Z -> Prop) (t : commit_txn) (e : file_env) (ms : list meta_res) (d : disk) : Prop :=
  forall mapsize psize flags, exists e2, mdb_env_open mapsize psize flags (file_of d) = inr (Some e2) /\ env_ok e2 /\ fe_fatal e2 = false /\
    (forall n, live n -> dk_pages (fe_disk e2) !! n = dk_pages (fe_disk e) !! n) /\
    (current (fe_disk e2) = current (fe_disk e) \/ committed t e (fe_disk e2) \/
     half_way e ms /\ current (fe_disk e2) = half_meta t e /\ in_place (ct_dirty t) (dk_pages (fe_disk e2))).
Definition silent (ws : list wres) (ms : list meta_res) : Prop := (exists wr, WPart 0 wr ∈ ws) \/ exists n, MFail 0 n ∈ ms.
Definition failing (rc : Z) (ws : list wres) (sync : option Z) (ms : list meta_res) : Prop := (exists wr, WPart rc wr ∈ ws) \/ sync = Some rc \/ exists n, MFail rc n ∈ ms.
Definition clean (t : commit_txn) : Prop := ct_dirty t = [] /\ ct_changed t = false.

Lemma run_exists tr : forall c d, exists d', io_run tr (c, d) (exec tr c, d').
Proof.
  induction tr as [|i tr IH]; intros c d; [exists d; constructor|]. destruct (IH (io_cache i c) (io_disk i c d)) as [d' H]. exists d'. by constructor.
Qed.
Lemma always_impl tr s (Q R : disk * disk -> Prop) : (forall s, Q s -> R s) -> always tr s Q -> always tr s R.
Proof. intros H Ha p q s' E Hr. by eapply H, Ha. Qed.
Lemma write_dirty_spec t e ws :
  let wm := F_ISSET (fe_flags e) MDB_WRITEMAP in
  dirty_laid wm (ct_dirty t) -> (wm = true -> in_map (ct_dirty t) (dk_pages (fe_disk e))) ->
  exists err pos tr ws', write_dirty t e ws = (err, pos, tr, ws') /\ Forall (page_io (ct_dirty t)) tr /\
    match err with None => in_place (ct_dirty t) (dk_pages (exec tr (fe_disk e))) | Some n => exists wr, WPart n wr ∈ ws end.
Proof.
  cbv zeta. unfold dirty_laid, write_dirty. destruct (F_ISSET (fe_flags e) MDB_WRITEMAP); intros Hl Hm.
  - eexists None, _, _, _. split; [reflexivity|]. split; [by apply clears_io|]. apply clears_place; auto.
  - assert (Hw : to_write 0 [] (ct_dirty t) (fe_pos e)) by (right; split; [done|]; exists 2; auto with lia).
    destruct (write_pages_spec _ _ _ _ ws Hw) as (err & pos & tr & ws' & -> & Ht & Hr). exists err, pos, tr, ws'. split; [done|]. split; [done|].
    destruct err; [done|]. rewrite Hr. cbn [app]. by apply (put_all_in_place _ 2).
Qed.

Section commit.
Context (live : Z -> Prop) (t : commit_txn) (e : file_env) (d : disk) (ws : list wres) (sync : option Z) (ms : list meta_res).
Hypothesis He : env_ok e.
Hypothesis Hf : fe_fatal e = false.
Hypothesis Hd : settled live (fe_disk e) d.
Hypothesis Hlive : forall n, live n -> ~ covered n (ct_dirty t).
Abbreviation c0 := (fe_disk e).
Abbreviation all_live := (fun n => live n \/ covered n (ct_dirty t)).
Lemma phase1_survives c' d' : phase1 live c0 c' d' -> survives live t e ms d'.
Proof.
  intros (E0 & E1 & Hp & [M0 M1 Hk Hc Hl]) mapsize psize flags. destruct (same_metas _ _ E0 E1) as (P & C & _).
  destruct (open_file d' mapsize psize flags M0 M1) as (e2 & E & Hok & Hf2 & Hc2 & Hp2).
  - rewrite Hk, P, Hc, C. apply (eo_slot _ He).
  - exists e2. do 3 (split; [done|]). split; [intros n Hn; by rewrite Hp2, Hl, Hp|]. left. congruence.
Qed.
Lemma phase1_start : phase1 live c0 c0 d.
Proof. done. Qed.
Lemma phase1_always tr : Forall (page_io (ct_dirty t)) tr -> always tr (c0, d) (fun s => phase1 live c0 s.1 s.2).
Proof.
  intros Ht p q [c' d'] -> Hr. apply Forall_app in Ht as [Ht _]. eapply phase1_run; [exact Hlive|apply (eo_meta0 _ He)|apply (eo_meta1 _ He)|exact Ht|apply phase1_start|exact Hr].
Qed.
(** The environment once the pages are written *)
Lemma pages_env tr pos : Forall (page_io (ct_dirty t)) tr ->
  let e1 := with_result (exec tr c0) pos (fe_txnid e) (fe_fatal e) e in
  env_ok e1 /\ current (fe_disk e1) = current c0 /\ spare (fe_disk e1) = spare c0 /\ mdb_env_pick_meta (fe_disk e1) = mdb_env_pick_meta c0.
Proof.
  intros Ht. cbv zeta. cbn [with_result fe_disk]. destruct (exec_metas _ _ c0 Ht) as [E0 E1]. destruct (same_metas _ _ E0 E1) as (P & C & S).
  split; [|done]. destruct He. constructor; cbn [with_result fe_disk fe_txnid fe_fatal]; rewrite ?E0, ?E1, ?P, ?C; done.
Qed.
Hypothesis Ht : ct_toggle t = mdb_env_pick_meta c0.
Hypothesis Hid : ct_txnid t = mm_txnid (current c0) + 1.
Hypothesis Hlt : ct_txnid t < 2 ^ 64.
Hypothesis Hflags : syncing (fe_flags e) = true.
Hypothesis Hsync : sync <> Some 0.

Section synced.
Context (tr1 : list io) (pos : Z).
Hypothesis Htr : Forall (page_io (ct_dirty t)) tr1.
Hypothesis Hplace : in_place (ct_dirty t) (dk_pages (exec tr1 c0)).
Abbreviation e1 := (with_result (exec tr1 c0) pos (fe_txnid e) (fe_fatal e) e).
Abbreviation c1 := (exec tr1 c0).
Abbreviation slot := (1 - mdb_env_pick_meta c1).
Lemma new_same : new_meta t e1 = new_meta t e /\ half_meta t e1 = half_meta t e.
Proof. destruct (pages_env tr1 pos Htr) as (_ & _ & E & _). unfold new_meta, half_meta. rewrite E. done. Qed.
Lemma phase2_survives m c' d' : phase2 slot (current c1) (dk_pages c1) (spare_ok t e1 ms) m c' d' -> survives live t e ms d'.
Proof.
  intros (_ & Hp & _ & Hc & _ & Hx) mapsize psize flags. destruct (pages_env tr1 pos Htr) as (He1 & C1 & S1 & P1). cbn [with_result fe_disk] in *.
  destruct new_same as [En Eh].
  destruct (spare_counts t e1 ms He1 ltac:(cbn; congruence) Hlt d' Hc Hx) as (M0 & M1 & Hs & Hcur). rewrite En, Eh in Hcur. cbn [with_result fe_disk] in Hcur.
  destruct (open_file d' mapsize psize flags M0 M1 Hs) as (e2 & E & Hok & Hf2 & Hc2 & Hp2). exists e2. do 3 (split; [done|]).
  split; [intros n Hn; rewrite Hp2, Hp; apply (exec_outside (ct_dirty t)); [done|by apply Hlive]|]. unfold committed. rewrite Hc2, Hp2, Hp.
  destruct Hcur as [[_ E']|[E'|[Hh E']]]; [left; congruence|right; left; done|right; right]. split; [exact Hh|done].
Qed.
Lemma phase2_final c' d' : phase2 slot (current c1) (dk_pages c1) (eq (new_meta t e)) (new_meta t e) c' d' -> committed t e d' /\ settled all_live c' d' /\ current c' = new_meta t e.
Proof.
  intros (Hp & Hp' & Hc & Hc' & Hm & Hm'). destruct (pages_env tr1 pos Htr) as (He1 & C1 & S1 & P1). cbn [with_result fe_disk] in *. destruct new_same as [En _].
  destruct (spare_counts t e1 ms He1 ltac:(cbn; congruence) Hlt d' Hc') as (M0 & M1 & Hs & _); [cbn [with_result fe_disk]; rewrite <- Hm', <- En; right; by left|].
  assert (Hsame : dk_meta0 d' = dk_meta0 c' /\ dk_meta1 d' = dk_meta1 c').
  { assert (Hx : meta_of (1 - slot) d' = meta_of (1 - slot) c' /\ meta_of slot d' = meta_of slot c') by (split; congruence).
    destruct (pick_cases c1) as [[E _]|[E _]]; rewrite E in Hx; destruct Hx as [Hx1 Hx2]; by split. }
  destruct Hsame as [S0' S1']. destruct (same_metas _ _ S0' S1') as (P & C & _).
  assert (Hcur : current d' = new_meta t e).
  { replace (1 - slot) with (mdb_env_pick_meta c1) in Hc' by lia. destruct (pick_slots c1 d' Hc') as [_ Hn]. rewrite Hm'. apply Hn. rewrite <- Hm'.
    change (mm_txnid (new_meta t e)) with (ct_txnid t). rewrite C1. lia. }
  split; [split; [done|by rewrite Hp']|]. split; [|congruence]. constructor; try done. intros n _. by rewrite Hp, Hp'.
Qed.
Lemma sync_always : always (tr1 ++ [IoSync]) (c0, d) (fun s => phase1 live c0 s.1 s.2) /\ forall c' d', io_run (tr1 ++ [IoSync]) (c0, d) (c', d') -> c' = c1 /\ d' = c1.
Proof.
  assert (Hone : forall c2 d2 c' d', io_run [IoSync] (c2, d2) (c', d') -> c' = c2 /\ d' = c2).
  { intros c2 d2 c' d' Hr. apply run_cons in Hr as (d3 & _ & Hr). cbn [io_cache io_disk] in Hr. assert (c' = c2) as -> by (by apply run_cache in Hr). split; [done|]. by apply back_same. }
  split.
  - apply always_app; [by apply phase1_always|]. intros [c2 d2] Hr. pose proof (phase1_always tr1 Htr tr1 [] _ (eq_sym (app_nil_r _)) Hr) as H2.
    intros p q [c3 d3] E Hr2. destruct p as [|i [|j p]]; [| |by destruct p].
    + eapply phase1_run; [exact Hlive|apply (eo_meta0 _ He)|apply (eo_meta1 _ He)|by apply Forall_nil|exact H2|exact Hr2].
    + injection E as <- <-. destruct (Hone _ _ _ _ Hr2) as [-> ->]. destruct H2 as (E0 & E1 & Hp & _). split; [done|]. split; [done|]. split; [done|].
      cbn [fst snd] in *. apply settled_refl; [rewrite E0; apply (eo_meta0 _ He)|rewrite E1; apply (eo_meta1 _ He)].
  - intros c' d' Hr. apply io_run_app in Hr as ([c2 d2] & Hr & Hr2). destruct (Hone _ _ _ _ Hr2) as [-> ->]. apply run_cache in Hr as ->. done.
Qed.
End synced.

Lemma commit_spec :
  dirty_laid (F_ISSET (fe_flags e) MDB_WRITEMAP) (ct_dirty t) -> (F_ISSET (fe_flags e) MDB_WRITEMAP = true -> in_map (ct_dirty t) (dk_pages c0)) ->
  exists rc tr e', commit_write t e ws sync ms = (rc, tr, e') /\ env_ok e' /\ kept (ct_dirty t) e e' /\
    always tr (c0, d) (fun s => survives live t e ms s.2) /\
    (forall c' d', io_run tr (c0, d) (c', d') -> c' = fe_disk e' /\ (fe_fatal e' = false -> settled live c' d') /\
       (rc = 0 -> clean t \/ silent ws ms \/ committed t e d' /\ settled all_live c' d')) /\
    (rc <> 0 -> failing rc ws sync ms).
Proof.
  intros Hl Hm. unfold commit_write.
  assert (Hpages : forall tr rc e', Forall (page_io (ct_dirty t)) tr -> fe_disk e' = exec tr c0 -> env_ok e' -> kept (ct_dirty t) e e' /\
    always tr (c0, d) (fun s => survives live t e ms s.2) /\
    ((rc = 0 -> clean t \/ silent ws ms) -> forall c' d', io_run tr (c0, d) (c', d') -> c' = fe_disk e' /\ (fe_fatal e' = false -> settled live c' d') /\
       (rc = 0 -> clean t \/ silent ws ms \/ committed t e d' /\ settled all_live c' d'))).
  { intros tr rc e' Htr Ee _. split; [intros n Hn; rewrite Ee; by apply (exec_outside (ct_dirty t))|]. pose proof (phase1_always tr Htr) as Ha.
    split; [eapply always_impl, Ha; intros [? ?]; apply phase1_survives|]. intros H0 c' d' Hr. pose proof (run_cache _ _ _ _ _ Hr) as ->. split; [done|].
    destruct (Ha tr [] _ (eq_sym (app_nil_r _)) Hr) as (_ & _ & _ & Hs). split; [done|]. intros E. destruct (H0 E); auto. }
  destruct (match ct_dirty t with [] => negb (ct_changed t) | _ => false end) eqn:Ec.
  { exists 0, [], e. split; [done|]. split; [done|]. destruct (Hpages [] 0 e (Forall_nil_2 _) eq_refl He) as (H1 & H2 & H3). split; [done|]. split; [done|]. split; [|done].
    apply H3. intros _. left. unfold clean. destruct (ct_dirty t); [|done]. by destruct (ct_changed t). }
  destruct (write_dirty_spec t e ws Hl Hm) as (err & pos & tr1 & ws' & -> & Htr & Hr).
  destruct (pages_env tr1 pos Htr) as (He1 & C1 & S1 & P1). destruct err as [n|].
  { exists n, tr1. eexists. split; [reflexivity|]. split; [done|]. destruct Hr as [wr Hwr].
    destruct (Hpages tr1 n (with_result (exec tr1 c0) pos (fe_txnid e) (fe_fatal e) e) Htr eq_refl He1) as (H1 & H2 & H3). split; [done|]. split; [done|]. split; [apply H3; intros ->; right; left; eauto|]. intros _. left; eauto. }
  unfold syncing in Hflags. apply andb_prop in Hflags as [Hn1 Hn2]. apply negb_true_iff in Hn1, Hn2.
  assert (Hns : F_ISSET (fe_flags e) MDB_NOSYNC = false) by (unfold no_meta_sync in Hn1; by apply orb_false_iff in Hn1 as [_ ?]).
  unfold mdb_env_sync. rewrite Hns, Hn2. cbn [orb negb andb]. destruct sync as [n|] eqn:Es; cbn [negb].
  { destruct (Z.eqb_spec n 0) as [->|Hn0]; [done|]. cbn [negb]. rewrite app_nil_r. exists n, tr1. eexists. split; [reflexivity|]. split; [done|].
    destruct (Hpages tr1 n (with_result (exec tr1 c0) pos (fe_txnid e) (fe_fatal e) e) Htr eq_refl He1) as (H1 & H2 & H3). split; [done|]. split; [done|]. split; [by apply H3|]. intros _. right. by left. }
  change (0 =? 0) with true. cbn [negb]. destruct (sync_always tr1 Htr) as [Ha1 Hr1].
  assert (Hid1 : ct_txnid t = mm_txnid (current (fe_disk (with_result (exec tr1 c0) pos (fe_txnid e) (fe_fatal e) e))) + 1) by (by rewrite C1).
  assert (Ht1 : ct_toggle t = mdb_env_pick_meta (fe_disk (with_result (exec tr1 c0) pos (fe_txnid e) (fe_fatal e) e))) by (by rewrite P1).
  destruct (write_meta_spec t (with_result (exec tr1 c0) pos (fe_txnid e) (fe_fatal e) e) ms He1 Hf Ht1) as (rc & tr3 & txnid & fatal & -> & Ha & Hok & Hbad);
    [done|done|]. cbn [with_result fe_disk fe_pos fe_flags fe_mapsize fe_psize] in Ha, Hok, C1, P1 |- *. destruct (new_same tr1 pos Htr) as [En _].
  exists rc, (tr1 ++ [IoSync] ++ tr3). eexists. split; [reflexivity|].
  assert (Hend : forall c' d', io_run (tr1 ++ [IoSync] ++ tr3) (c0, d) (c', d') -> io_run tr3 (exec tr1 c0, exec tr1 c0) (c', d')).
  { intros c' d' Hr'. rewrite app_assoc in Hr'. apply io_run_app in Hr' as ([c2 d2] & Hr' & Hr2). by destruct (Hr1 _ _ Hr') as [-> ->]. }
  destruct (run_exists tr3 (exec tr1 c0) (exec tr1 c0)) as [dx Hx].
  destruct (Ha tr3 [] _ (eq_sym (app_nil_r _)) Hx) as (m & Hmok & (Hp & _ & Hc & _ & Hmm & _)). cbn [fst snd] in *.
  split; [|split; [|split; [|split]]].
  - destruct (spare_counts t (with_result (exec tr1 c0) pos (fe_txnid e) (fe_fatal e) e) ms He1 Hid1 Hlt (exec tr3 (exec tr1 c0)) Hc) as (M0 & M1 & Hs & _);
      [by cbn [with_result fe_disk]; rewrite Hmm|]. constructor; cbn [with_result fe_disk fe_txnid fe_fatal]; [done..|]. intros ->. destruct (Hok eq_refl) as (_ & -> & Hfin).
    destruct (phase2_final tr1 pos Htr Hr _ _ ltac:(rewrite <- En; exact (Hfin _ _ Hx))) as (_ & _ & ->). done.
  - intros n Hn. cbn [with_result fe_disk]. rewrite Hp. by apply (exec_outside (ct_dirty t)).
  - rewrite app_assoc. apply always_app; [eapply always_impl, Ha1; intros [? ?]; apply phase1_survives|]. intros [c2 d2] Hr2. destruct (Hr1 _ _ Hr2) as [-> ->].
    eapply always_impl, Ha. intros [c3 d3] (m' & _ & H2). by eapply (phase2_survives tr1 pos Htr Hr).
  - intros c' d' Hr'. apply Hend in Hr'. pose proof (run_cache _ _ _ _ _ Hr') as ->. cbn [with_result fe_disk fe_fatal]. split; [done|]. destruct fatal.
    + split; [done|]. intros ->. right; left. right. by apply Hbad.
    + destruct (Hok eq_refl) as (-> & _ & Hfin). destruct (phase2_final tr1 pos Htr Hr _ _ ltac:(rewrite <- En; exact (Hfin _ _ Hr'))) as (Hcm & Hst & _).
      split; [|by right; right]. intros _. destruct Hst. constructor; auto.
  - intros Hrc. right; right. apply Hbad. destruct fatal; [done|]. by destruct (Hok eq_refl).
Qed.
End commit.

(** C11: a commit is atomic and durable.  Take a transaction begun on an environment
    in good order, with any pages changed, in FineDB's mode (MDB_WRITEMAP, where
    the pages are in the map already, in any order) or with pages written by system
    calls, under flags with which commits wait for the disk; the disk has the
    newest meta page and all pages that are in use ([live]), none of which is
    dirty.  Whatever calls fail or are cut short, and whatever the system writes
    back by itself in between, at every point of mdb_txn_commit a crash leaves a
    file that opens, with all pages in use as they were, and with either the old
    meta page or the new one and then all pages of the transaction in place.  (One
    exception, without MDB_WRITEMAP only: after a failed write of the meta page,
    while the old numbers are written back, it can be the new one with the old
    limit of the file.)  When mdb_txn_commit returns 0, unless there was nothing to
    do or a write was short without an error number, the new meta page and all
    pages of the transaction are on the disk, whatever happens then, and the state
    is as at the start with the new pages in use; any other result is the error of
    a call.  Pages the transaction does not own are not touched, and the
    environment stays in good order. *)
Theorem commit_atomic (live : Z -> Prop) (e : file_env) (d : disk) (t0 : commit_txn) (next : Z) (db0 db1 : db_rec) (changed : bool) (dirty : list dpage)
    (ws : list wres) (sync : option Z) (ms : list meta_res) :
  env_ok e -> settled live (fe_disk e) d -> start_write e = inr t0 -> mm_txnid (current (fe_disk e)) < 2 ^ 64 - 1 ->
  dirty_laid (F_ISSET (fe_flags e) MDB_WRITEMAP) dirty -> (F_ISSET (fe_flags e) MDB_WRITEMAP = true -> in_map dirty (dk_pages (fe_disk e))) ->
  (forall n, live n -> ~ covered n dirty) -> syncing (fe_flags e) = true -> sync <> Some 0 ->
  let t := with_work next db0 db1 changed dirty t0 in
  exists rc tr e', commit_write t e ws sync ms = (rc, tr, e') /\ env_ok e' /\ kept dirty e e' /\
    always tr (fe_disk e, d) (fun s => survives live t e ms s.2) /\
    (forall c' d', io_run tr (fe_disk e, d) (c', d') -> c' = fe_disk e' /\ (fe_fatal e' = false -> settled live c' d') /\
       (rc = 0 -> clean t \/ silent ws ms \/ committed t e d' /\ settled (fun n => live n \/ covered n dirty) c' d')) /\
    (rc <> 0 -> failing rc ws sync ms).
Proof.
  intros He Hd Hb Hlt Hl Hm Hlive Hfl Hs t. unfold start_write, renew_write in Hb. destruct (fe_fatal e) eqn:Hf; [done|]. pose proof (eo_txnid _ He Hf) as Hid.
  case_match; [done|]. injection Hb as <-. pose proof (current_meta_ok e He) as (_ & _ & Hcur).
  apply (commit_spec live t e d ws sync ms); cbn [t with_work ct_toggle ct_txnid ct_dirty]; try done.
  - rewrite Hid. symmetry. apply (eo_slot _ He).
  - rewrite wrap_small; lia.
  - rewrite wrap_small; lia.
Qed.

(** An environment as FineDB opens it, with page 4 in use, and a transaction that
    has an overflow page of two parts and page 2 in the map *)
Definition db_at (root psize : Z) : db_rec := {| r_pad := psize; r_flags := MDB_INTEGERKEY; r_depth := 0; r_branch_pages := 0; r_leaf_pages := 0; r_overflow_pages := 0; r_entries := 0; r_root := root |}.
Definition first_meta : MDB_meta :=
  {| mm_magic := MDB_MAGIC; mm_version := MDB_VERSION; mm_mapsize := 65536; mm_db0 := db_at (2 ^ 64 - 1) 4096; mm_db1 := db_at 4 0; mm_last_pg := 4; mm_txnid := 0 |}.
Definition one_page (n flags : Z) : MDB_page := {| mp_pgno := n; mp_flags := flags; mp_lower := 16; mp_upper := 32; mp_raw := [] |}.
Definition page2 : dpage := {| dp_page := one_page 2 (Z.lor P_LEAF P_DIRTY); dp_pages := 0; dp_tail := [] |}.
Definition page5 : dpage := {| dp_page := one_page 5 (Z.lor P_OVERFLOW P_DIRTY); dp_pages := 2; dp_tail := [[1; 2; 3]] |}.
Definition old_disk : disk := {| dk_pages := {[ 4 := Head (one_page 4 P_LEAF) ]}; dk_meta0 := first_meta; dk_meta1 := first_meta |}.
Definition mapped_disk : disk :=
  with_pages (<[2 := Head (dp_page page2)]> (<[5 := Head (dp_page page5)]> (<[6 := Tail [1; 2; 3]]> (dk_pages old_disk)))) old_disk.
Definition finedb_flags : Z := Z.lor MDB_WRITEMAP MDB_NOTLS.
Definition first_env : file_env :=
  {| fe_flags := finedb_flags; fe_disk := mapped_disk; fe_pos := 0; fe_txnid := 0; fe_fatal := false; fe_mapsize := 65536; fe_psize := 4096 |}.
Definition first_txn : commit_txn :=
  {| ct_txnid := 1; ct_toggle := 0; ct_next_pgno := 5; ct_db0 := db_at (2 ^ 64 - 1) 4096; ct_db1 := db_at 4 0; ct_changed := false; ct_dirty := [] |}.
Definition first_work : commit_txn := with_work 7 (db_at (2 ^ 64 - 1) 4096) (db_at 2 0) true [page5; page2] first_txn.
Lemma first_env_ok : env_ok first_env.
Proof. by constructor. Qed.
Lemma first_settled : settled (fun n => n = 4) mapped_disk old_disk.
Proof. constructor; try done. by intros n ->. Qed.
Lemma first_apart : apart [page5; page2].
Proof.
  split; [done|]. split; [done|]. split; [done|]. split; [|by repeat split]. constructor; [|done]. intros n H1 H2. unfold part_of in *.
  change (mp_pgno (dp_page page5)) with 5 in H1. change (mp_pgno (dp_page page2)) with 2 in H2. change (page_count page2) with 1 in H2. lia.
Qed.
Lemma first_in_map : in_map [page5; page2] (dk_pages mapped_disk).
Proof.
  apply Forall_cons. split; [|apply Forall_cons; split; [|apply Forall_nil; done]]; (split; [reflexivity|]); intros [|i] b Hb; try done; by injection Hb as <-.
Qed.
Lemma commit_atomic_witness :
  exists rc tr e', commit_write first_work first_env [] None [MFail 5 0] = (rc, tr, e') /\ env_ok e' /\ kept [page5; page2] first_env e' /\
    always tr (mapped_disk, old_disk) (fun s => survives (fun n => n = 4) first_work first_env [MFail 5 0] s.2) /\
    (forall c' d', io_run tr (mapped_disk, old_disk) (c', d') -> c' = fe_disk e' /\ (fe_fatal e' = false -> settled (fun n => n = 4) c' d') /\
       (rc = 0 -> clean first_work \/ silent [] [MFail 5 0] \/
        committed first_work first_env d' /\ settled (fun n => n = 4 \/ covered n [page5; page2]) c' d')) /\
    (rc <> 0 -> failing rc [] None [MFail 5 0]).
Proof.
  apply (commit_atomic (fun n => n = 4) first_env old_disk first_txn 7 (db_at (2 ^ 64 - 1) 4096) (db_at 2 0) true [page5; page2] [] None [MFail 5 0]);
    [apply first_env_ok|apply first_settled|reflexivity|reflexivity|apply first_apart|intros _; apply first_in_map| |reflexivity|done].
  intros n -> Hc. apply Exists_exists in Hc as (x & Hx & Hc). unfold part_of in Hc. rewrite !elem_of_cons in Hx.
  destruct Hx as [-> |[-> |Hx]]; [destruct Hc as [H1 H2]; vm_compute in H1, H2; congruence..|by apply not_elem_of_nil in Hx].
Defined.
(** The steps: the two flags, the sync, the stores to the second meta page with
    its number last, its sync.  With system calls the pages are written in two
    pieces, and the first database from its depth on. *)
Definition shape (i : io) : Z :=
  match i with IoPages pos _ => pos | IoClear n => - n | IoMeta _ (STxnid _) => 101 | IoMeta _ _ => 100 | IoSync => 200 | IoSyncMeta k => 300 + k end.
Example commit_steps :
  let '(rc, tr, e) := commit_write first_work first_env [] None [] in
  (rc, map shape tr, r_root (mm_db1 (current (fe_disk e)))) = (0, [-5; -2; 200] ++ replicate 17 100 ++ [101; 301], 2).
Proof. reflexivity. Qed.
Definition call_env : file_env :=
  {| fe_flags := 0; fe_disk := old_disk; fe_pos := 0; fe_txnid := 0; fe_fatal := false; fe_mapsize := 65536; fe_psize := 4096 |}.
Definition call_work : commit_txn := with_work 7 (db_at (2 ^ 64 - 1) 4096) (db_at 2 0) true [page2; page5] first_txn.
Example commit_calls :
  let '(rc, tr, e) := commit_write call_work call_env [] None [] in
  (rc, map shape tr, dk_pages (fe_disk e) !! 6, r_root (mm_db1 (current (fe_disk e)))) = (0, [2; 5; 200] ++ replicate 15 100 ++ [101; 301], Some (Tail [1; 2; 3]), 2).
Proof. reflexivity. Qed.
(** A short write that leaves errno as it was loses the transaction, and the
    result is 0 all the same. *)
Example short_write_succeeds :
  let '(rc, _, e) := commit_write call_work call_env [WPart 0 []] None [] in (rc, mm_txnid (current (fe_disk e))) = (0, 0).
Proof. reflexivity. Qed.
(** The write of the meta page has failed at the end, and of the old numbers all
    but the last field has been written: the new page has the old limit. *)
Example half_written :
  let '(rc, _, e) := commit_write call_work call_env [] None [MFail 5 16; MFail 5 15] in
  (rc, mm_txnid (current (fe_disk e)), mm_last_pg (current (fe_disk e))) = (5, 1, 4).
Proof. reflexivity. Qed.
(** Without the wait for the disk (MDB_NOSYNC) the new meta page can be there
    before the pages. *)
Example nosync_tears :
  let '(rc, tr, e) := commit_write first_work {| fe_flags := Z.lor finedb_flags MDB_NOSYNC; fe_disk := mapped_disk; fe_pos := 0; fe_txnid := 0; fe_fatal := false;
    fe_mapsize := 65536; fe_psize := 4096 |} [] None [] in
  rc = 0 /\ exists d', io_run tr (mapped_disk, old_disk) (fe_disk e, d') /\ mm_txnid (current d') = 1 /\ dk_pages d' !! 2 = None.
Proof.
  split; [reflexivity|]. eexists. split; [cbn [map app]; repeat apply run_step; apply (run_back _ _ _ _ _ (wb_meta _ _ 1)), run_end|]. by split.
Qed.
