(* ===== verification/Tree.v ===== *)
(** * Tree: the B+tree of LMDB as a sorted list of entries

    The pages reachable from a root form a tree: branch pages whose nodes name
    their children, leaf pages whose nodes hold the entries, all leaves at the
    same depth.  [tree_ok] says that the pages of a transaction hold a tree.
    The cursor operations of Cursor are shown to move over the list of its
    entries, and [mdb_get] to look a key up in it. *)
From S2P Require Import Prelude.
From S2P Require Import Lmdb Midl.
From S2P Require Import Pages LeafMap Cursor.

(** ** Trees *)
Inductive tree :=
  | TLeaf (p : pref) (ns : list (Z * pnode)) (ds : list bytes)
  | TBranch (p : pref) (ns : list (Z * pnode)) (cs : list tree).
Definition tref (tr : tree) : pref := match tr with TLeaf p _ _ | TBranch p _ _ => p end.

Definition leaf_items (ns : list (Z * pnode)) (ds : list bytes) : list (bytes * bytes) :=
  zip_with (fun x d => (pn_key x.2, d)) ns ds.
Fixpoint items (tr : tree) : list (bytes * bytes) :=
  match tr with
  | TLeaf _ ns ds => leaf_items ns ds
  | TBranch _ _ cs => concat (map items cs)
  end.

(** The page number in a node of a branch page. *)
Definition pn_pgno (nd : pnode) : Z := pn_val nd + 2 ^ 32 * pn_flags nd.

Section rep.
Variable t : ptxn.

(** The value of a node: its data, or what its overflow page holds. *)
Definition node_value (x : Z * pnode) (d : bytes) : Prop :=
  F_ISSET (pn_flags x.2) F_DUPDATA = false /\
  if F_ISSET (pn_flags x.2) F_BIGDATA
  then exists ov, overflow_bytes t (le_val (pn_data x.2)) = Done (inr ov) /\ blk_read ov 0 (pn_val x.2) = Done d
  else d = pn_data x.2.

Record leaf_ok (p : pref) (ns : list (Z * pnode)) (ds : list bytes) (mp : MDB_page) : Prop := {
  lo_page : page_at t p = Done mp;
  lo_rep : page_rep mp ns;
  lo_leaf : IS_LEAF mp = true;
  lo_branch : IS_BRANCH mp = false;
  lo_sorted : page_sorted mp ns;
  lo_some : ns <> [];
  lo_values : Forall2 node_value ns ds
}.
(** The keys of child [i] lie between the keys of node [i] and node [i + 1]. *)
Definition separated (ns : list (Z * pnode)) (cs : list tree) : Prop :=
  forall i j c k, cs !! i = Some c -> k ∈ (items c).*1 -> (1 <= j < length cs)%nat ->
  ((i < j)%nat -> lex k (page_key ns (Z.of_nat j)) < 0) /\
  ((j <= i)%nat -> lex (page_key ns (Z.of_nat j)) k <= 0).
Record branch_ok (p : pref) (ns : list (Z * pnode)) (cs : list tree) (mp : MDB_page) : Prop := {
  bo_page : page_at t p = Done mp;
  bo_rep : page_rep mp ns;
  bo_leaf : IS_LEAF mp = false;
  bo_branch : IS_BRANCH mp = true;
  bo_sorted : page_sorted mp ns;
  bo_some : 2 <= lenZ ns;
  bo_len : length cs = length ns;
  bo_child : forall i ofs nd c, ns !! i = Some (ofs, nd) -> cs !! i = Some c ->
    exists l, mdb_page_get t (pn_pgno nd) = Done (tref c, l);
  bo_sep : separated ns cs
}.
(** A tree whose leaves are [d] levels below its root. *)
Fixpoint tree_ok (d : nat) (tr : tree) : Prop :=
  match d, tr with
  | O, TLeaf p ns ds => exists mp, leaf_ok p ns ds mp
  | S d, TBranch p ns cs => (exists mp, branch_ok p ns cs mp) /\ Forall (tree_ok d) cs
  | _, _ => False
  end.

(** ** Paths *)
Fixpoint subtree (tr : tree) (path : list nat) : option tree :=
  match path with
  | [] => Some tr
  | i :: path =>
      match tr with
      | TLeaf _ _ _ => None
      | TBranch _ _ cs => match cs !! i with Some c => subtree c path | None => None end
      end
  end.
Lemma subtree_app tr p1 p2 :
  subtree tr (p1 ++ p2) = match subtree tr p1 with Some c => subtree c p2 | None => None end.
Proof.
  revert tr. induction p1 as [|i p1 IH]; intros tr; [done|]. cbn [app subtree].
  destruct tr as [|p ns cs]; [done|]. destruct (cs !! i); [apply IH|done].
Qed.
Lemma subtree_ok d tr path c :
  tree_ok d tr -> subtree tr path = Some c -> (length path <= d)%nat /\ tree_ok (d - length path) c.
Proof.
  revert d tr. induction path as [|i path IH]; intros d tr Ht Hs.
  - injection Hs as <-. cbn. split; [lia|]. by rewrite Nat.sub_0_r.
  - cbn [subtree] in Hs. destruct tr as [|p ns cs]; [done|]. destruct (cs !! i) as [c'|] eqn:Hi; [|done].
    destruct d as [|d]; [done|]. destruct Ht as [_ Hc]. rewrite Forall_lookup in Hc.
    destruct (IH d c' (Hc _ _ Hi) Hs) as [Hl Hok]. cbn. split; [lia|done].
Qed.

(** What comes before and after the subtree at a path. *)
Fixpoint before (tr : tree) (path : list nat) : list (bytes * bytes) :=
  match path, tr with
  | i :: path, TBranch _ _ cs =>
      concat (map items (take i cs)) ++ match cs !! i with Some c => before c path | None => [] end
  | _, _ => []
  end.
Fixpoint after (tr : tree) (path : list nat) : list (bytes * bytes) :=
  match path, tr with
  | i :: path, TBranch _ _ cs =>
      match cs !! i with Some c => after c path | None => [] end ++ concat (map items (drop (S i) cs))
  | _, _ => []
  end.
Lemma concat_split cs i c :
  cs !! i = Some c ->
  concat (map items cs) = concat (map items (take i cs)) ++ items c ++ concat (map items (drop (S i) cs)).
Proof.
  intros H. rewrite <- (take_drop_middle cs i c H) at 1. by rewrite map_app, concat_app.
Qed.
Lemma items_split tr path c :
  subtree tr path = Some c -> items tr = before tr path ++ items c ++ after tr path.
Proof.
  revert tr. induction path as [|i path IH]; intros tr Hs.
  - injection Hs as ->. by rewrite app_nil_r.
  - cbn [subtree] in Hs. destruct tr as [|p ns cs]; [done|]. cbn [items before after].
    destruct (cs !! i) as [c'|] eqn:Hi; [|done]. rewrite (concat_split _ _ _ Hi), (IH _ Hs).
    by rewrite <- !app_assoc.
Qed.
Lemma after_snoc tr path i p ns cs c :
  subtree tr path = Some (TBranch p ns cs) -> cs !! i = Some c ->
  after tr (path ++ [i]) = concat (map items (drop (S i) cs)) ++ after tr path.
Proof.
  revert tr. induction path as [|j path IH]; intros tr Hs Hi.
  - injection Hs as ->. cbn [app after]. rewrite Hi. cbn. by rewrite app_nil_r.
  - cbn [subtree] in Hs. destruct tr as [|p' ns' cs']; [done|]. cbn [app after].
    destruct (cs' !! j) as [c'|] eqn:Hj; [|done]. rewrite (IH _ Hs Hi). by rewrite app_assoc.
Qed.
Lemma before_snoc tr path i p ns cs c :
  subtree tr path = Some (TBranch p ns cs) -> cs !! i = Some c ->
  before tr (path ++ [i]) = before tr path ++ concat (map items (take i cs)).
Proof.
  revert tr. induction path as [|j path IH]; intros tr Hs Hi.
  - injection Hs as ->. cbn [app before]. rewrite Hi. cbn. by rewrite app_nil_r.
  - cbn [subtree] in Hs. destruct tr as [|p' ns' cs']; [done|]. cbn [app before].
    destruct (cs' !! j) as [c'|] eqn:Hj; [|done]. rewrite (IH _ Hs Hi). by rewrite app_assoc.
Qed.

(** ** The entries are sorted *)
Definition klt (a b : bytes) : Prop := lex a b < 0.
Definition ksorted (l : list (bytes * bytes)) : Prop := StronglySorted klt l.*1.

Lemma sorted_app (l1 l2 : list bytes) :
  StronglySorted klt l1 -> StronglySorted klt l2 -> (forall a b, a ∈ l1 -> b ∈ l2 -> klt a b) ->
  StronglySorted klt (l1 ++ l2).
Proof.
  induction 1 as [|x l1 Hs IH Hx]; intros H2 Hc; [done|]. cbn [app]. constructor.
  - apply IH; [done|]. intros a b Ha Hb. apply Hc; [by right|done].
  - apply Forall_app. split; [done|]. apply Forall_forall. intros b Hb. apply Hc; [by left|done].
Qed.
Lemma sorted_app_inv l1 l2 :
  ksorted (l1 ++ l2) -> ksorted l1 /\ ksorted l2 /\ (forall a b, a ∈ l1.*1 -> b ∈ l2.*1 -> klt a b).
Proof.
  unfold ksorted. rewrite fmap_app. induction (l1.*1) as [|x l IH]; cbn [app].
  - intros H. split; [constructor|]. split; [done|]. intros a b Ha. by apply not_elem_of_nil in Ha.
  - intros H. apply StronglySorted_inv in H as [H Hx]. destruct (IH H) as (H1 & H2 & Hc).
    apply Forall_app in Hx as [Hx1 Hx2]. split; [by constructor|]. split; [done|].
    intros a b [->|Ha]%elem_of_cons Hb; [|by apply Hc]. rewrite Forall_forall in Hx2. by apply Hx2.
Qed.
Lemma sorted_NoDup l : ksorted l -> NoDup l.*1.
Proof.
  unfold ksorted. induction 1 as [|x l' Hs IH Hx]; constructor; [|done]. intros Hin. rewrite Forall_forall in Hx.
  specialize (Hx x Hin). unfold klt in Hx. rewrite lex_refl in Hx. lia.
Qed.
Lemma sorted_concat (cs : list tree) :
  (forall i c, cs !! i = Some c -> ksorted (items c)) ->
  (forall i j c e a b, (i < j)%nat -> cs !! i = Some c -> cs !! j = Some e ->
     a ∈ (items c).*1 -> b ∈ (items e).*1 -> klt a b) ->
  ksorted (concat (map items cs)).
Proof.
  unfold ksorted. induction cs as [|c cs IH]; intros H1 H2; [constructor|]. cbn [map concat]. rewrite fmap_app.
  apply sorted_app.
  - by apply (H1 O).
  - apply IH; [intros i e Hi; by apply (H1 (S i))|].
    intros i j x y a b Hij Hx Hy. apply (H2 (S i) (S j)); [lia|done|done].
  - intros a b Ha Hb. apply list_elem_of_fmap in Hb as (y & -> & Hb).
    apply list_elem_of_In, in_concat in Hb as (l & Hl & Hy). apply in_map_iff in Hl as (e & <- & He).
    apply list_elem_of_In, list_elem_of_lookup_1 in He as (j & Hj). apply list_elem_of_In in Hy.
    apply (H2 O (S j) c e); [lia|done|done|done|]. apply list_elem_of_fmap. by exists y.
Qed.
Lemma leaf_items_keys ns ds : length ns = length ds -> (leaf_items ns ds).*1 = map (fun x => pn_key x.2) ns.
Proof.
  revert ds. induction ns as [|x ns IH]; intros [|d ds] H; try done. cbn. f_equal. apply IH. by injection H.
Qed.
Lemma leaf_items_sorted p ns ds mp : leaf_ok p ns ds mp -> ksorted (leaf_items ns ds).
Proof.
  intros [_ _ Hl _ Hs _ Hv]. unfold ksorted. rewrite leaf_items_keys by (by eapply Forall2_length).
  apply (page_sorted_keys _ _ Hl) in Hs. clear -Hs.
  induction ns as [|[p nd] ns IH]; cbn [map]; constructor.
  - apply IH. intros i j q q' n n' Hij Hi Hj. apply (Hs (S i) (S j) q q'); [lia|done|done].
  - apply Forall_forall. intros k Hk. apply list_elem_of_fmap in Hk as ([q n] & -> & Hq).
    apply list_elem_of_lookup_1 in Hq as (j & Hj). by apply (Hs O (S j) p q nd n); [lia|..].
Qed.
Lemma children_ordered ns (cs : list tree) i j c e a b :
  separated ns cs -> (i < j)%nat -> cs !! i = Some c -> cs !! j = Some e ->
  a ∈ (items c).*1 -> b ∈ (items e).*1 -> klt a b.
Proof.
  intros Hs Hij Hc He Ha Hb. pose proof (lookup_lt_Some _ _ _ He).
  destruct (Hs i j c a Hc Ha ltac:(lia)) as [H1 _]. destruct (Hs j j e b He Hb ltac:(lia)) as [_ H2].
  specialize (H1 Hij). specialize (H2 (le_n j)). unfold klt. apply lex_sym.
  destruct (Z.lt_trichotomy (lex b a) 0) as [H3|[H3|H3]]; [|apply lex_zero in H3; subst|done].
  - assert (lex (page_key ns (Z.of_nat j)) a < 0) by (by eapply lex_trans). apply lex_sym in H1. lia.
  - apply lex_sym in H1. lia.
Qed.
Lemma items_sorted d tr : tree_ok d tr -> ksorted (items tr).
Proof.
  revert tr. induction d as [|d IH]; intros [p ns ds|p ns cs]; cbn [tree_ok]; try done.
  - intros (mp & H). by eapply leaf_items_sorted.
  - intros ((mp & Hb) & Hc). rewrite Forall_lookup in Hc. cbn [items]. apply sorted_concat.
    + intros i c Hi. apply IH. by eapply Hc.
    + intros i j c e a b Hij Hi Hj. eapply children_ordered; [by apply (bo_sep _ _ _ _ Hb)|done..].
Qed.
Lemma items_some d tr : tree_ok d tr -> items tr <> [].
Proof.
  revert tr. induction d as [|d IH]; intros [p ns ds|p ns cs]; cbn [tree_ok]; try done.
  - intros (mp & [_ _ _ _ _ Hn Hv]). destruct Hv; [done|]. done.
  - intros ((mp & Hb) & Hc). pose proof (bo_some _ _ _ _ Hb) as H2. pose proof (bo_len _ _ _ _ Hb) as Hl.
    destruct cs as [|c cs]; [unfold lenZ in H2; rewrite <- Hl in H2; simpl in H2; lia|]. cbn [items map concat].
    apply Forall_cons in Hc as [Hc _]. specialize (IH _ Hc). by destruct (items c).
Qed.
End rep.

(** ** Cells of an array, nodes of a page *)
Lemma get_lookup {A} (l : list A) (k : nat) v : l !! k = Some v -> get l (Z.of_nat k) = Done v.
Proof. intros H. unfold get. rewrite (proj2 (Z.ltb_ge _ _)) by lia. by rewrite Nat2Z.id, H. Qed.
Lemma put_at {A} (l : list A) (k : nat) v : (k < length l)%nat -> put l (Z.of_nat k) v = Done (<[k := v]> l).
Proof.
  intros H. unfold put. rewrite (proj2 (Z.ltb_ge _ _)), (proj2 (Z.leb_gt _ _)) by (unfold lenZ; lia).
  by rewrite Nat2Z.id.
Qed.
Lemma node_pgno mp ns (i : nat) ofs nd :
  page_rep mp ns -> ns !! i = Some (ofs, nd) -> NODEPGNO (mp_raw mp) ofs = Done (pn_pgno nd).
Proof.
  intros H Hi. destruct (node_fields _ _ H _ _ _ Hi) as (H0 & H1 & H2 & _).
  destruct (pr_ok _ _ H _ _ _ Hi) as [[Hv Hf _ _ _] _]. unfold NODEPGNO, pn_pgno. rewrite H0, H1, H2. cbn [obind].
  rewrite (lor_shiftl (_ mod 65536)) by dlia. rewrite lor_shiftl by dlia. f_equal. dlia.
Qed.
Lemma leaf_item ns ds (i : nat) e :
  leaf_items ns ds !! i = Some e ->
  exists ofs nd v, ns !! i = Some (ofs, nd) /\ ds !! i = Some v /\ e = (pn_key nd, v).
Proof.
  intros H. apply lookup_zip_with_Some in H as ([ofs nd] & v & -> & H1 & H2). by exists ofs, nd, v.
Qed.
Lemma leaf_key ns ds (j : nat) e : leaf_items ns ds !! j = Some e -> e.1 = page_key ns (Z.of_nat j).
Proof. intros (ofs & nd & v & Hn & _ & ->)%leaf_item. unfold page_key. by rewrite Nat2Z.id, Hn. Qed.
Lemma all_last tr0 path c :
  subtree tr0 path = Some c ->
  (forall j i p ns cs, path !! j = Some i -> subtree tr0 (take j path) = Some (TBranch p ns cs) -> (length cs <= S i)%nat) ->
  after tr0 path = [].
Proof.
  revert tr0. induction path as [|i path IH]; intros tr0 Hs H; [done|]. cbn [subtree] in Hs.
  destruct tr0 as [|p ns cs]; [done|]. cbn [after]. destruct (cs !! i) as [c'|] eqn:Hi; [|done].
  rewrite (IH c' Hs), drop_ge; [done| |].
  - by apply (H O i p ns cs).
  - intros j i' p' ns' cs' Hj Hsub. apply (H (S j) i' p' ns' cs' Hj). cbn [take subtree]. by rewrite Hi.
Qed.

(** ** The stack of a cursor *)
Section stack.
Context (t : ptxn) (tr : tree) (d : nat) (Htr : tree_ok t d tr) (Hd : (d < 32)%nat).

(** The cursor's stack is the path to the subtree [c], with index [i] in the
    page on top. *)
Record on_path (s : cstate) (path : list nat) (c : tree) (i : Z) : Prop := {
  op_txn : cs_txn s = t;
  op_pgs : length (mc_pg (cs_mc s)) = 32%nat;
  op_kis : length (mc_ki (cs_mc s)) = 32%nat;
  op_snum : mc_snum (cs_mc s) = lenZ path + 1;
  op_top : mc_top (cs_mc s) = lenZ path;
  op_sub : subtree tr path = Some c;
  op_pg : forall k e, subtree tr (take k path) = Some e -> (k <= length path)%nat ->
    mc_pg (cs_mc s) !! k = Some (Some (tref e));
  op_ki : forall k j, path !! k = Some j -> mc_ki (cs_mc s) !! k = Some (Z.of_nat j);
  op_ti : mc_ki (cs_mc s) !! length path = Some i;
  op_ks : Forall (fun v => 0 <= v) (mc_ki (cs_mc s))
}.
(** What a move keeps. *)
Definition frame (s s' : cstate) : Prop :=
  cs_txn s' = cs_txn s /\ cs_db s' = cs_db s /\ cs_cmp s' = cs_cmp s /\
  mc_init (cs_mc s') = mc_init (cs_mc s) /\ mc_eof (cs_mc s') = mc_eof (cs_mc s).
#[local] Instance frame_preorder : PreOrder frame.
Proof. split; [done|]. intros x y z (?&?&?&?&?) (?&?&?&?&?). repeat split; congruence. Qed.

Lemma path_len s path c i : on_path s path c i -> (length path <= d)%nat.
Proof. intros H. by destruct (subtree_ok t d tr path c Htr (op_sub _ _ _ _ H)). Qed.
Lemma path_ok s path c i : on_path s path c i -> tree_ok t (d - length path) c.
Proof. intros H. by destruct (subtree_ok t d tr path c Htr (op_sub _ _ _ _ H)). Qed.


Lemma ti_nonneg s path c i : on_path s path c i -> 0 <= i.
Proof. intros H. apply (proj1 (Forall_lookup _ _) (op_ks _ _ _ _ H) _ _ (op_ti _ _ _ _ H)). Qed.
Lemma top_ki_path s path c i : on_path s path c i -> top_ki s = Done (i, s).
Proof.
  intros H. unfold top_ki, top, read_ki, cbind. rewrite (op_top _ _ _ _ H).
  unfold lenZ. by rewrite (get_lookup _ _ _ (op_ti _ _ _ _ H)).
Qed.
Lemma top_page_path s path c i mp :
  on_path s path c i -> page_at t (tref c) = Done mp -> top_page s = Done (mp, s).
Proof.
  intros H Hp. unfold top_page, top, read_page, read_pg, cbind. rewrite (op_top _ _ _ _ H). unfold lenZ.
  assert (Hpg : mc_pg (cs_mc s) !! length path = Some (Some (tref c))).
  { apply (op_pg _ _ _ _ H); [|done]. rewrite take_ge by done. apply (op_sub _ _ _ _ H). }
  rewrite (get_lookup _ _ _ Hpg). cbn [obind]. rewrite (op_txn _ _ _ _ H), Hp. done.
Qed.
Lemma set_top_ki_path s path c i v :
  on_path s path c i -> 0 <= v < 2 ^ 16 ->
  exists s', set_top_ki v s = Done (tt, s') /\ on_path s' path c v /\ frame s s'.
Proof.
  intros H Hv. pose proof (path_len _ _ _ _ H) as Hl. unfold set_top_ki, top, write_ki, cbind.
  rewrite (op_top _ _ _ _ H). unfold lenZ. rewrite put_at by (rewrite (op_kis _ _ _ _ H); lia).
  rewrite (wrap_small 16 v Hv). cbn [obind]. eexists. split; [done|]. split; [|done].
  destruct H as [H1 H2 H3 H4 H5 H6 H7 H8 H9 H10]. constructor; try done; cbn.
  - by rewrite length_insert.
  - intros k j Hk. pose proof (lookup_lt_Some _ _ _ Hk). rewrite list_lookup_insert_ne by lia. by apply H8.
  - apply list_lookup_insert_eq. lia.
  - apply Forall_insert; [done|lia].
Qed.
Lemma push_path s path p ns cs (i : nat) c :
  on_path s path (TBranch p ns cs) (Z.of_nat i) -> cs !! i = Some c ->
  exists s', mdb_cursor_push (tref c) s = Done (MDB_SUCCESS, s') /\ on_path s' (path ++ [i]) c 0 /\ frame s s'.
Proof.
  intros H Hi. pose proof (path_len _ _ _ _ H) as Hl. pose proof (path_ok _ _ _ _ H) as Hok.
  assert (Hlt : (length path < d)%nat).
  { destruct (d - length path)%nat eqn:E; [done|lia]. }
  destruct H as [H1 H2 H3 H4 H5 H6 H7 H8 H9 H10]. unfold mdb_cursor_push, cget, cbind at 1. rewrite H4.
  rewrite (proj2 (Z.leb_gt CURSOR_STACK _)) by (unfold CURSOR_STACK, lenZ; lia).
  unfold modify_mc, write_pg, write_ki, cbind at 1 2 3. cbn [cs_mc set_mc with_stack mc_pg mc_ki].
  replace (lenZ path + 1) with (Z.of_nat (S (length path))) by (unfold lenZ; lia).
  rewrite put_at by lia. cbn [obind cs_mc set_mc with_stack mc_pg mc_ki with_pg].
  rewrite put_at by lia. cbn [obind]. eexists. split; [done|]. split; [|done].
  assert (Hs : subtree tr (path ++ [i]) = Some c) by (rewrite subtree_app, H6; cbn; by rewrite Hi).
  constructor; cbn; try done.
  - by rewrite length_insert.
  - by rewrite length_insert.
  - unfold lenZ. rewrite length_app. cbn. lia.
  - unfold lenZ. rewrite length_app. cbn. lia.
  - intros k e He Hk. rewrite length_app in Hk. cbn in Hk. destruct (decide (k = S (length path))) as [->|Hne].
    + rewrite list_lookup_insert_eq by lia. rewrite take_ge in He by (rewrite length_app; cbn; lia).
      rewrite Hs in He. by injection He as ->.
    + rewrite list_lookup_insert_ne by lia. apply H7; [|lia]. rewrite take_app_le in He by lia. done.
  - intros k j Hk. destruct (decide (k < length path)%nat) as [Hlk|Hlk].
    + rewrite lookup_app_l in Hk by done. rewrite list_lookup_insert_ne by lia. by apply H8.
    + rewrite lookup_app_r in Hk by lia. pose proof (lookup_lt_Some _ _ _ Hk) as Hk1. cbn in Hk1.
      replace k with (length path) in * by lia. rewrite Nat.sub_diag in Hk. injection Hk as <-.
      by rewrite list_lookup_insert_ne by lia.
  - rewrite length_app. cbn. rewrite Nat.add_1_r. apply list_lookup_insert_eq. lia.
  - by apply Forall_insert.
Qed.
Lemma pop_path s path (i : nat) c j :
  on_path s (path ++ [i]) c j ->
  exists s' p ns cs, mdb_cursor_pop s = Done (tt, s') /\ frame s s' /\ cs !! i = Some c /\
    on_path s' path (TBranch p ns cs) (Z.of_nat i) /\ s' = set_mc (with_stack (lenZ path + 1) (lenZ path) (cs_mc s)) s.
Proof.
  intros [H1 H2 H3 H4 H5 H6 H7 H8 H9 H10]. rewrite subtree_app in H6. cbn in H6.
  destruct (subtree tr path) as [[|p ns cs]|] eqn:Hs; [done| |done]. destruct (cs !! i) as [c'|] eqn:Hi; [|done].
  injection H6 as ->. unfold lenZ in H4, H5. rewrite length_app in H4, H5. cbn in H4, H5.
  unfold mdb_cursor_pop, modify_mc. rewrite H4, H5. rewrite (proj2 (Z.eqb_neq _ 0)) by lia.
  rewrite (proj2 (Z.eqb_neq _ 0)) by lia.
  replace (Z.of_nat (length path + 1) + 1 - 1) with (lenZ path + 1) by (unfold lenZ; lia).
  replace (Z.of_nat (length path + 1) - 1) with (lenZ path) by (unfold lenZ; lia).
  eexists _, p, ns, cs. split; [done|]. split; [done|]. split; [done|]. split; [|done].
  constructor; cbn; try done.
  - intros k e He Hk. apply H7; [|rewrite length_app; lia]. by rewrite take_app_le by lia.
  - intros k x Hk. apply H8. by apply lookup_app_l_Some.
  - apply H8. by rewrite lookup_app_r, Nat.sub_diag by lia.
Qed.

(** ** The descent *)
Lemma fetch_child s path p ns cs mp i (j : nat) c :
  on_path s path (TBranch p ns cs) i -> branch_ok t p ns cs mp -> cs !! j = Some c ->
  exists ofs pgno, mp_ptr (mp_raw mp) (Z.of_nat j) = Done ofs /\ NODEPGNO (mp_raw mp) ofs = Done pgno /\
    forall s', cs_txn s' = t -> page_get pgno s' = Done (tref c, s').
Proof.
  intros H Hb Hj. pose proof (lookup_lt_Some _ _ _ Hj) as Hlt. rewrite (bo_len _ _ _ _ _ Hb) in Hlt.
  destruct (lookup_lt_is_Some_2 ns j Hlt) as [[ofs nd] Hn]. exists ofs, (pn_pgno nd).
  split; [by apply (pr_ptr _ _ (bo_rep _ _ _ _ _ Hb) _ _ nd)|]. split; [by eapply node_pgno; [apply Hb|]|].
  intros s' Hs. destruct (bo_child _ _ _ _ _ Hb _ _ _ _ Hn Hj) as [l Hl]. unfold page_get. by rewrite Hs, Hl.
Qed.

(** The path leads to where the key belongs. *)
Definition reaches (key : skey) (path : list nat) : Prop :=
  match key with
  | KFirst => before tr path = []
  | KLast => after tr path = []
  | KKey k => (forall x, x ∈ (before tr path).*1 -> lex x k < 0) /\ (forall x, x ∈ (after tr path).*1 -> lex k x < 0)
  end.
Definition key_small (key : skey) : Prop := match key with KKey k => lenZ k < 2 ^ 32 | _ => True end.
(** A branch page's children left of [i] and right of it. *)
Lemma in_children (l : list tree) x : x ∈ (concat (map items l)).*1 <-> exists j e, l !! j = Some e /\ x ∈ (items e).*1.
Proof.
  split.
  - intros (y & -> & Hy)%list_elem_of_fmap. apply list_elem_of_In, in_concat in Hy as (l' & Hl & Hy).
    apply in_map_iff in Hl as (e & <- & He). apply list_elem_of_In, list_elem_of_lookup_1 in He as (j & Hj).
    exists j, e. split; [done|]. apply list_elem_of_fmap. exists y. by rewrite list_elem_of_In.
  - intros (j & e & Hj & Hx). apply list_elem_of_fmap in Hx as (y & -> & Hy). apply list_elem_of_fmap.
    exists y. split; [done|]. apply list_elem_of_In, in_concat. exists (items e). split; [|by apply list_elem_of_In].
    apply in_map_iff. exists e. split; [done|]. apply list_elem_of_In. by eapply list_elem_of_lookup_2.
Qed.
Lemma reaches_child k path p ns cs i c :
  subtree tr path = Some (TBranch p ns cs) -> separated ns cs -> cs !! i = Some c -> reaches (KKey k) path ->
  ((1 <= i)%nat -> lex (page_key ns (Z.of_nat i)) k <= 0) ->
  ((S i < length cs)%nat -> lex k (page_key ns (Z.of_nat (S i))) < 0) ->
  reaches (KKey k) (path ++ [i]).
Proof.
  intros Hs Hsep Hi [Hb Ha] H1 H2. pose proof (lookup_lt_Some _ _ _ Hi) as Hlt. cbn [reaches].
  rewrite (before_snoc tr path i p ns cs c Hs Hi), (after_snoc tr path i p ns cs c Hs Hi), !fmap_app. split.
  - intros x [Hx|Hx]%elem_of_app; [by apply Hb|]. apply in_children in Hx as (j & e & Hj & Hx).
    pose proof (lookup_lt_Some _ _ _ Hj) as Hjl. rewrite length_take in Hjl. rewrite lookup_take_lt in Hj by lia.
    destruct (Hsep j i e x Hj Hx ltac:(lia)) as [Hlo _]. specialize (Hlo ltac:(lia)). specialize (H1 ltac:(lia)).
    apply lex_sym. apply lex_sym in Hlo. destruct (Z.lt_trichotomy (lex k x) 0) as [H|[H|H]]; [| |done].
    + assert (lex (page_key ns (Z.of_nat i)) x < 0) by (by eapply lex_trans). lia.
    + apply lex_zero in H. subst. lia.
  - intros x [Hx|Hx]%elem_of_app; [|by apply Ha]. apply in_children in Hx as (j & e & Hj & Hx).
    rewrite lookup_drop in Hj. pose proof (lookup_lt_Some _ _ _ Hj) as Hjl.
    destruct (Hsep _ (S i) e x Hj Hx ltac:(lia)) as [_ Hhi]. specialize (Hhi ltac:(lia)). specialize (H2 ltac:(lia)).
    apply lex_sym. destruct (Z.lt_trichotomy (lex x k) 0) as [H|[H|H]]; [| |done].
    + assert (lex (page_key ns (Z.of_nat (S i))) k < 0) by (by eapply lex_trans). apply lex_sym in H2. lia.
    + apply lex_zero in H. subst. apply lex_sym in H2. lia.
Qed.
Lemma first_key_branch p ns cs mp : branch_ok t p ns cs mp -> first_key mp = 1.
Proof. intros H. unfold first_key. by rewrite (bo_leaf _ _ _ _ _ H). Qed.

Lemma node_search_branch s path p ns cs mp i k :
  on_path s path (TBranch p ns cs) i -> branch_ok t p ns cs mp -> cs_cmp s = CmpMemn -> lenZ k < 2 ^ 32 ->
  exists s' (r : nat) (ex : bool), cursor_node_search k s = Done ((fst <$> ns !! r, ex), s') /\
    on_path s' path (TBranch p ns cs) (Z.of_nat r) /\ frame s s' /\ (1 <= r <= length ns)%nat /\
    (forall j, (1 <= j < r)%nat -> lex (page_key ns (Z.of_nat j)) k < 0) /\
    (forall j, (r < j < length ns)%nat -> lex k (page_key ns (Z.of_nat j)) < 0) /\
    (if ex then (r < length ns)%nat /\ page_key ns (Z.of_nat r) = k
     else (r < length ns)%nat -> lex k (page_key ns (Z.of_nat r)) < 0).
Proof.
  intros H Hb Hc Hk. unfold cursor_node_search. cstep (top_page_path _ _ _ _ _ H (bo_page _ _ _ _ _ Hb)).
  unfold cget, cbind at 1. rewrite Hc. pose proof (first_key_branch _ _ _ _ Hb) as Hf.
  pose proof (bo_some _ _ _ _ _ Hb) as Hn.
  destruct (node_search_ok mp ns (md_pad (cs_db s)) k (bo_rep _ _ _ _ _ Hb) (bo_sorted _ _ _ _ _ Hb))
    as (node & r & ex & E & Hr & -> & Hlo & Hhi & Hat & Hex & _); [lia|done|].
  rewrite Hf in *. unfold clift, cbind at 1. rewrite E. cbn iota beta.
  pose proof (pr_size _ _ (bo_rep _ _ _ _ _ Hb)) as Hsz. pose proof (pr_lower _ _ (bo_rep _ _ _ _ _ Hb)) as Hlw.
  pose proof (pr_room _ _ (bo_rep _ _ _ _ _ Hb)). pose proof (rep_upper _ _ (bo_rep _ _ _ _ _ Hb)).
  destruct (set_top_ki_path s path _ i r H) as (s' & Es & Hp & Hfr); [lia|].
  unfold cbind. rewrite Es. exists s', (Z.to_nat r), ex. rewrite Z2Nat.id by lia. unfold lenZ in *.
  split; [done|]. split; [done|]. split; [done|]. split; [lia|]. split; [|split].
  - intros j Hj. apply Hlo. lia.
  - intros j Hj. apply Hhi. lia.
  - destruct ex; [destruct (Hex eq_refl); split; [lia|done]|]. intros. by apply Hat; [done|lia].
Qed.
Lemma search_index_ok key s path p ns cs mp i :
  on_path s path (TBranch p ns cs) i -> branch_ok t p ns cs mp -> cs_cmp s = CmpMemn -> key_small key ->
  reaches key path ->
  exists s' (r : nat) i', search_index key mp s = Done (Z.of_nat r, s') /\
    on_path s' path (TBranch p ns cs) i' /\ frame s s' /\ (r < length cs)%nat /\ reaches key (path ++ [r]).
Proof.
  intros H Hb Hc Hk Hr. pose proof (op_sub _ _ _ _ H) as Hs. pose proof (bo_len _ _ _ _ _ Hb) as Hl.
  pose proof (bo_some _ _ _ _ _ Hb) as Hn. pose proof (NUMKEYS_rep _ _ (bo_rep _ _ _ _ _ Hb)) as HN.
  unfold lenZ in *. destruct key as [| |k]; cbn [search_index].
  - exists s, O, i. split; [done|]. split; [done|]. split; [done|]. split; [lia|].
    destruct (lookup_lt_is_Some_2 cs 0) as [c Hi]; [lia|]. cbn [reaches] in *.
    by rewrite (before_snoc _ _ _ _ _ _ _ Hs Hi), Hr.
  - exists s, (length cs - 1)%nat, i. split; [unfold cret; do 2 f_equal; lia|]. split; [done|]. split; [done|].
    split; [lia|]. destruct (lookup_lt_is_Some_2 cs (length cs - 1)) as [c Hi]; [lia|]. cbn [reaches] in *.
    rewrite (after_snoc _ _ _ _ _ _ _ Hs Hi), Hr. by rewrite drop_ge by lia.
  - destruct (node_search_branch s path p ns cs mp i k H Hb Hc Hk)
      as (s' & r & ex & E & Hp & Hfr & Hrr & Hlo & Hhi & Hex).
    unfold cbind at 1. rewrite E. cbn iota beta.
    assert (Hgo : forall q c, cs !! q = Some c -> ((1 <= q)%nat -> lex (page_key ns (Z.of_nat q)) k <= 0) ->
              ((S q < length cs)%nat -> lex k (page_key ns (Z.of_nat (S q))) < 0) -> reaches (KKey k) (path ++ [q])).
    { intros q c Hq. eapply reaches_child; [done|by apply (bo_sep _ _ _ _ _ Hb)|done|done]. }
    destruct (decide (r < length ns)%nat) as [Hlt|Hge].
    + destruct (lookup_lt_is_Some_2 ns r Hlt) as [[ofs nd] ->]. cbn [fmap option_fmap option_map fst].
      cstep (top_ki_path _ _ _ _ Hp). destruct ex.
      * destruct Hex as [_ Hex]. destruct (lookup_lt_is_Some_2 cs r) as [c Hi]; [lia|].
        exists s', r, (Z.of_nat r). split; [done|]. split; [done|]. split; [done|]. split; [lia|].
        apply (Hgo _ _ Hi); [intros _; rewrite Hex, lex_refl; lia|]. intros. apply Hhi. lia.
      * rewrite (proj2 (Z.leb_gt _ 0)) by lia. destruct (lookup_lt_is_Some_2 cs (r - 1)) as [c Hi]; [lia|].
        exists s', (r - 1)%nat, (Z.of_nat r). split; [unfold cret; do 2 f_equal; lia|]. split; [done|]. split; [done|].
        split; [lia|]. apply (Hgo _ _ Hi); [intros; apply Z.lt_le_incl, Hlo; lia|].
        intros. replace (S (r - 1)) with r by lia. by apply Hex.
    + rewrite lookup_ge_None_2 by lia. cbn [fmap option_fmap option_map].
      destruct (lookup_lt_is_Some_2 cs (length cs - 1)) as [c Hi]; [lia|].
      exists s', (length cs - 1)%nat, (Z.of_nat r). split; [unfold cret; do 2 f_equal; lia|]. split; [done|].
      split; [done|]. split; [lia|]. apply (Hgo _ _ Hi); [intros; apply Z.lt_le_incl, Hlo; lia|lia].
Qed.
Lemma page_of s path c i : on_path s path c i -> exists mp, page_at t (tref c) = Done mp.
Proof.
  intros H. pose proof (path_ok _ _ _ _ H) as Hok. destruct c as [p ns ds|p ns cs], (d - length path)%nat; try done.
  - destruct Hok as [mp Hm]. exists mp. apply Hm.
  - destruct Hok as [[mp Hm] _]. exists mp. apply Hm.
Qed.
Lemma page_search_loop_ok touch key fuel s path c i mp :
  on_path s path c i -> page_at t (tref c) = Done mp -> cs_cmp s = CmpMemn -> key_small key -> reaches key path ->
  (d - length path <= fuel)%nat ->
  exists s' path' p ns ds j, search_loop touch fuel key false mp s = Done (MDB_SUCCESS, s') /\
    on_path s' path' (TLeaf p ns ds) j /\ reaches key path' /\ frame s s'.
Proof.
  revert s path c i mp. induction fuel as [|fuel IH]; intros s path c i mp H Hmp Hc Hk Hr Hf;
    pose proof (path_ok _ _ _ _ H) as Hok; destruct c as [p ns ds|p ns cs], (d - length path)%nat eqn:Ed; try done; try lia.
  1, 2: cbn [tref] in Hmp; destruct Hok as [mp' Hm]; rewrite (lo_page _ _ _ _ _ Hm) in Hmp; injection Hmp as ->;
    cbn [search_loop]; rewrite (lo_branch _ _ _ _ _ Hm), (lo_leaf _ _ _ _ _ Hm); cbn [negb];
    exists s, path, p, ns, ds, i; (do 3 (split; [done|])); done.
  cbn [tref] in Hmp. destruct Hok as [[mp' Hm] _]. rewrite (bo_page _ _ _ _ _ Hm) in Hmp. injection Hmp as ->.
  cbn [search_loop]. rewrite (bo_branch _ _ _ _ _ Hm). cbn [negb].
  pose proof (NUMKEYS_rep _ _ (bo_rep _ _ _ _ _ Hm)) as HN. pose proof (bo_some _ _ _ _ _ Hm) as Hn.
  rewrite HN, (proj2 (Z.leb_gt _ 1)) by lia.
  destruct (search_index_ok key s path p ns cs mp i H Hm Hc Hk Hr) as (s1 & r & i1 & E & H1 & Hfr1 & Hlt & Hr1).
  cstep E. pose proof (bo_len _ _ _ _ _ Hm) as Hlen.
  rewrite (proj2 (Z.leb_gt _ _)) by (unfold lenZ; lia). destruct (lookup_lt_is_Some_2 cs r Hlt) as [c Hi].
  destruct (fetch_child s1 path p ns cs mp _ r c H1 Hm Hi) as (ofs & pgno & E1 & E2 & E3).
  unfold clift, cbind at 1 2. rewrite E1, E2. cstep (E3 s1 (op_txn _ _ _ _ H1)).
  pose proof (pr_size _ _ (bo_rep _ _ _ _ _ Hm)) as Hsz. pose proof (pr_lower _ _ (bo_rep _ _ _ _ _ Hm)) as Hlw.
  pose proof (pr_room _ _ (bo_rep _ _ _ _ _ Hm)) as Hroom. pose proof (rep_upper _ _ (bo_rep _ _ _ _ _ Hm)) as Hup.
  destruct (set_top_ki_path s1 path _ _ (Z.of_nat r) H1) as (s2 & Es & H2 & Hfr2); [unfold lenZ in *; lia|].
  cstep Es. destruct (push_path s2 path p ns cs r c H2 Hi) as (s3 & Ep & H3 & Hfr3). cstep Ep.
  unfold cret at 1, cbind at 1. cbn [negb Z.eqb MDB_SUCCESS].
  destruct (page_of _ _ _ _ H3) as [mp3 Hmp3]. cstep (top_page_path _ _ _ _ _ H3 Hmp3).
  assert (Hfr : frame s s3) by (do 2 (etrans; [|done]); done).
  destruct (IH s3 (path ++ [r]) c 0 mp3) as (s' & path' & p' & ns' & ds' & j & E' & H' & Hr' & Hfr'); try done.
  { destruct Hfr as (_ & _ & -> & _). done. }
  { rewrite length_app. cbn. lia. }
  exists s', path', p', ns', ds', j. split; [done|]. split; [done|]. split; [done|]. by etrans.
Qed.

(** ** The search from the root *)
Record ready (s : cstate) : Prop := {
  rd_txn : cs_txn s = t;
  rd_error : pt_error t = false;
  rd_cmp : cs_cmp s = CmpMemn;
  rd_root : 1 < md_root (cs_db s) < P_INVALID;
  rd_get : exists l, mdb_page_get t (md_root (cs_db s)) = Done (tref tr, l);
  rd_pgs : length (mc_pg (cs_mc s)) = 32%nat;
  rd_kis : length (mc_ki (cs_mc s)) = 32%nat;
  rd_ks : Forall (fun v => 0 <= v) (mc_ki (cs_mc s));
  rd_pg0 : mc_pg (cs_mc s) !! 0%nat = Some None \/ mc_pg (cs_mc s) !! 0%nat = Some (Some (tref tr))
}.
Lemma root_page : exists mp, page_at t (tref tr) = Done mp.
Proof.
  destruct tr as [p ns ds|p ns cs], d; try done; cbn in Htr.
  - destruct Htr as [mp H]. exists mp. apply H.
  - destruct Htr as [[mp H] _]. exists mp. apply H.
Qed.
Lemma fetch_root_ok s :
  ready s -> exists s', fetch_root (md_root (cs_db s)) s = Done (tt, s') /\ frame s s' /\
    mc_pg (cs_mc s') !! 0%nat = Some (Some (tref tr)) /\
    length (mc_pg (cs_mc s')) = 32%nat /\ mc_ki (cs_mc s') = mc_ki (cs_mc s).
Proof.
  intros [H1 _ _ _ [l Hg] H2 _ _ H0]. unfold fetch_root, cget, cbind at 1.
  assert (Hw : exists s', (let! p := page_get (md_root (cs_db s)) in write_pg 0 p) s = Done (tt, s') /\ frame s s' /\
    mc_pg (cs_mc s') !! 0%nat = Some (Some (tref tr)) /\ length (mc_pg (cs_mc s')) = 32%nat /\
    mc_ki (cs_mc s') = mc_ki (cs_mc s)).
  { unfold page_get, write_pg, cbind. rewrite H1, Hg. cbn [obind]. change 0 with (Z.of_nat 0).
    rewrite put_at by lia. cbn [obind]. eexists. split; [done|]. split; [done|]. cbn.
    rewrite length_insert, list_lookup_insert_eq by lia. done. }
  unfold clift. destruct H0 as [H0|H0].
  - change 0 with (Z.of_nat 0). rewrite (get_lookup _ _ _ H0). exact Hw.
  - change 0 with (Z.of_nat 0). rewrite (get_lookup _ _ _ H0). unfold cbind at 1 2 3. rewrite H1.
    destruct root_page as [mp ->]. unfold cret at 1. destruct (_ =? _); [|exact Hw].
    exists s. done.
Qed.
Lemma page_search_ok touch key s :
  ready s -> key_small key ->
  exists s' path p ns ds j, mdb_page_search touch key false false s = Done (MDB_SUCCESS, s') /\
    on_path s' path (TLeaf p ns ds) j /\ reaches key path /\ frame s s'.
Proof.
  intros Hr Hk. destruct (fetch_root_ok s Hr) as (s1 & E1 & Hf1 & Hp1 & Hl1 & Hk1).
  destruct Hr as [H1 He Hc Hroot _ _ Hki Hks _]. unfold mdb_page_search, cget, cbind at 1. rewrite H1, He.
  rewrite (proj2 (Z.eqb_neq _ P_INVALID)), (proj2 (Z.leb_gt _ 1)) by lia. cstep E1.
  unfold modify_mc at 1, cbind at 1. unfold cret at 1, cbind at 1. cbn [negb Z.eqb MDB_SUCCESS].
  set (s2 := set_mc (with_stack 1 0 (cs_mc s1)) s1).
  destruct (lookup_lt_is_Some_2 (mc_ki (cs_mc s1)) 0) as [i Hi]; [rewrite Hk1; lia|].
  assert (H2 : on_path s2 [] tr i).
  { constructor; cbn; try done; try congruence.
    - by destruct Hf1 as (-> & _).
    - intros k e Hs Hle. replace k with 0%nat in * by lia. cbn in Hs. by injection Hs as <-. }
  assert (Hf2 : frame s s2) by (by etrans).
  unfold mdb_page_search_root. destruct root_page as [mp Hmp].
  cstep (top_page_path _ _ _ _ _ H2 Hmp).
  destruct (page_search_loop_ok touch key (S (Z.to_nat CURSOR_STACK)) s2 [] tr i mp)
    as (s' & path & p & ns & ds & j & E & Hp & Hrc & Hf); try done.
  - destruct Hf2 as (_ & _ & -> & _). done.
  - destruct key; [done..|]. split; intros x Hx; by apply not_elem_of_nil in Hx.
  - change (Z.to_nat CURSOR_STACK) with 32%nat. lia.
  - exists s', path, p, ns, ds, j. do 3 (split; [done|]). by etrans.
Qed.

(** ** Neighbouring pages *)
Definition tnodes (c : tree) : list (Z * pnode) := match c with TLeaf _ ns _ | TBranch _ ns _ => ns end.
Definition moved_to (right : bool) (path path' : list nat) (c' : tree) : Prop :=
  if right then after tr path = items c' ++ after tr path' else before tr path = before tr path' ++ items c'.
Definition at_end (right : bool) (path : list nat) : Prop :=
  if right then after tr path = [] else before tr path = [].

Lemma page_keys s path c i mp :
  on_path s path c i -> page_at t (tref c) = Done mp ->
  page_rep mp (tnodes c) /\ 1 <= lenZ (tnodes c) < 2 ^ 16 - 1.
Proof.
  intros H Hmp. pose proof (path_ok _ _ _ _ H) as Hok.
  assert (Hr : page_rep mp (tnodes c) /\ tnodes c <> []).
  { destruct c as [p ns ds|p ns cs], (d - length path)%nat; try done; cbn [tree_ok tref tnodes] in *.
    - destruct Hok as [m Hm]. rewrite (lo_page _ _ _ _ _ Hm) in Hmp. injection Hmp as ->. split; apply Hm.
    - destruct Hok as [[m Hm] _]. rewrite (bo_page _ _ _ _ _ Hm) in Hmp. injection Hmp as ->.
      split; [apply Hm|]. pose proof (bo_some _ _ _ _ _ Hm) as Hs. by intros ->. }
  destruct Hr as [Hr Hne]. split; [done|]. pose proof (pr_size _ _ Hr). pose proof (pr_lower _ _ Hr).
  pose proof (pr_room _ _ Hr). pose proof (rep_upper _ _ Hr). destruct (tnodes c); [done|]. lens.
Qed.
Lemma branch_at s path p ns cs i :
  on_path s path (TBranch p ns cs) i -> exists mp, branch_ok t p ns cs mp /\ top_page s = Done (mp, s).
Proof.
  intros H. pose proof (path_ok _ _ _ _ H) as Hok. destruct (d - length path)%nat; [done|].
  destruct Hok as [[mp Hm] _]. exists mp. split; [done|]. apply (top_page_path _ _ _ _ _ H), Hm.
Qed.
(** From a branch page to one of its children. *)
Lemma enter_child s path p ns cs (j : nat) c (right : bool) :
  on_path s path (TBranch p ns cs) (Z.of_nat j) -> cs !! j = Some c ->
  exists s', sibling_enter right s = Done (MDB_SUCCESS, s') /\
    on_path s' (path ++ [j]) c (if right then 0 else lenZ (tnodes c) - 1) /\ frame s s'.
Proof.
  intros H Hj. destruct (branch_at _ _ _ _ _ _ H) as (mp & Hm & Et). unfold sibling_enter. cstep Et.
  rewrite (bo_branch _ _ _ _ _ Hm). cbn [negb]. cstep (top_ki_path _ _ _ _ H).
  destruct (fetch_child s path p ns cs mp _ j c H Hm Hj) as (ofs & pgno & E1 & E2 & E3).
  unfold clift, cbind at 1 2. rewrite E1, E2. cstep (E3 s (op_txn _ _ _ _ H)).
  destruct (push_path s path p ns cs j c H Hj) as (s1 & Ep & H1 & Hf1). cstep Ep.
  destruct right; [by exists s1|]. destruct (page_of _ _ _ _ H1) as [mp1 Hmp1].
  destruct (page_keys _ _ _ _ _ H1 Hmp1) as [Hr Hn].
  destruct (set_top_ki_path s1 _ c 0 (lenZ (tnodes c) - 1) H1 ltac:(lia)) as (s2 & E & H2 & Hf2).
  exists s2. unfold cbind. rewrite (top_page_path _ _ _ _ _ H1 Hmp1), (NUMKEYS_rep _ _ Hr), E.
  split; [done|]. split; [done|]. by etrans.
Qed.
Lemma moved_inside (right : bool) path p ns cs (i j : nat) c e :
  subtree tr path = Some (TBranch p ns cs) -> cs !! i = Some c -> cs !! j = Some e ->
  (if right then j = S i else i = S j) -> moved_to right (path ++ [i]) (path ++ [j]) e.
Proof.
  intros Hs Hi Hj Hij. unfold moved_to. destruct right; subst.
  - rewrite (after_snoc _ _ _ _ _ _ _ Hs Hi), (after_snoc _ _ _ _ _ _ _ Hs Hj).
    rewrite (drop_S _ _ _ Hj). cbn [map concat]. by rewrite app_assoc.
  - rewrite (before_snoc _ _ _ _ _ _ _ Hs Hi), (before_snoc _ _ _ _ _ _ _ Hs Hj).
    rewrite (take_S_r _ _ _ Hj), map_app, concat_app. cbn [map concat]. rewrite app_nil_r. by rewrite app_assoc.
Qed.
Lemma moved_across (right : bool) path path' p ns cs (i j : nat) c p' ns' cs' e :
  subtree tr path = Some (TBranch p ns cs) -> cs !! i = Some c ->
  subtree tr path' = Some (TBranch p' ns' cs') -> cs' !! j = Some e ->
  moved_to right path path' (TBranch p' ns' cs') ->
  (if right then S i = length cs /\ j = 0%nat else i = 0%nat /\ S j = length cs') ->
  moved_to right (path ++ [i]) (path' ++ [j]) e.
Proof.
  intros Hs Hi Hs' Hj Hm Hij. unfold moved_to in *. destruct right; destruct Hij as [Hi1 Hj1].
  - rewrite (after_snoc _ _ _ _ _ _ _ Hs Hi), (after_snoc _ _ _ _ _ _ _ Hs' Hj), Hm, Hi1, drop_all. subst j.
    cbn [items]. destruct cs' as [|e' cs']; [done|]. injection Hj as ->. cbn. by rewrite app_assoc.
  - rewrite (before_snoc _ _ _ _ _ _ _ Hs Hi), (before_snoc _ _ _ _ _ _ _ Hs' Hj), Hm. subst i. cbn [take map concat].
    rewrite app_nil_r. cbn [items]. rewrite (concat_split _ _ _ Hj), drop_ge by lia. cbn. by rewrite app_nil_r, app_assoc.
Qed.
Lemma end_inside (right : bool) path p ns cs (i : nat) c :
  subtree tr path = Some (TBranch p ns cs) -> cs !! i = Some c -> at_end right path ->
  (if right then S i = length cs else i = 0%nat) -> at_end right (path ++ [i]).
Proof.
  intros Hs Hi He Hij. unfold at_end in *. destruct right.
  - rewrite (after_snoc _ _ _ _ _ _ _ Hs Hi), He, Hij, drop_all. done.
  - rewrite (before_snoc _ _ _ _ _ _ _ Hs Hi), He. by subst i.
Qed.
Lemma restack s path (i : nat) c j :
  on_path s (path ++ [i]) c j ->
  (fun mc => with_stack (mc_snum mc + 1) (mc_top mc + 1) mc) (with_stack (lenZ path + 1) (lenZ path) (cs_mc s)) = cs_mc s.
Proof.
  intros H. pose proof (op_snum _ _ _ _ H) as H1. pose proof (op_top _ _ _ _ H) as H2.
  rewrite lenZ_app in H1, H2. change (lenZ [i]) with 1 in *. destruct (cs_mc s). cbn in *. by subst.
Qed.
(** The parent has moved to a neighbour, and the cursor enters its nearest
    child. *)
Lemma enter_across (right : bool) s1 path i0 p ns cs (x0 : nat) c s2 path' c' :
  on_path s1 path (TBranch p ns cs) i0 -> cs !! x0 = Some c -> (if right then S x0 = length cs else x0 = 0%nat) ->
  on_path s2 path' c' (if right then 0 else lenZ (tnodes c') - 1) -> length path' = length path ->
  moved_to right path path' c' ->
  exists s3 (j : nat) e, sibling_enter right s2 = Done (MDB_SUCCESS, s3) /\
    on_path s3 (path' ++ [j]) e (if right then 0 else lenZ (tnodes e) - 1) /\ frame s2 s3 /\
    moved_to right (path ++ [x0]) (path' ++ [j]) e.
Proof.
  intros H1 Hc Hend H2 Hl2 Hm2.
  assert (Hbr : exists p' ns' cs', c' = TBranch p' ns' cs').
  { pose proof (path_ok _ _ _ _ H2) as Ho2. pose proof (path_ok _ _ _ _ H1) as Ho1. rewrite Hl2 in Ho2.
    destruct (d - length path)%nat, c'; try done. by do 3 eexists. }
  destruct Hbr as (p' & ns' & cs' & ->). destruct (branch_at _ _ _ _ _ _ H2) as (mp' & Hm' & _).
  pose proof (bo_len _ _ _ _ _ Hm') as Hlen'. pose proof (bo_some _ _ _ _ _ Hm') as Hs'. unfold lenZ in Hs'.
  set (j := if right then 0%nat else (length cs' - 1)%nat).
  destruct (lookup_lt_is_Some_2 cs' j) as [e Hj]; [subst j; destruct right; lia|].
  assert (Hidx : (if right then 0 else lenZ (tnodes (TBranch p' ns' cs')) - 1) = Z.of_nat j).
  { subst j. destruct right; [done|]. cbn [tnodes]. unfold lenZ. lia. }
  rewrite Hidx in H2. destruct (enter_child s2 path' p' ns' cs' j e right H2 Hj) as (s3 & E3 & H3 & Hf3).
  exists s3, j, e. do 3 (split; [done|]).
  eapply moved_across; [apply (op_sub _ _ _ _ H1)|done|apply (op_sub _ _ _ _ H2)|done|done|].
  subst j. destruct right; [done|]. split; [done|lia].
Qed.
(** The parent has a neighbouring child itself. *)
Lemma enter_beside (right : bool) s1 path p ns cs (x0 : nat) c :
  on_path s1 path (TBranch p ns cs) (Z.of_nat x0) -> cs !! x0 = Some c -> length ns = length cs ->
  (if right then lenZ ns <=? Z.of_nat x0 + 1 else Z.of_nat x0 =? 0) = false ->
  exists s2 s3 (j : nat) e, set_top_ki (if right then Z.of_nat x0 + 1 else Z.of_nat x0 - 1) s1 = Done (tt, s2) /\
    sibling_enter right s2 = Done (MDB_SUCCESS, s3) /\
    on_path s3 (path ++ [j]) e (if right then 0 else lenZ (tnodes e) - 1) /\ frame s1 s3 /\
    moved_to right (path ++ [x0]) (path ++ [j]) e.
Proof.
  intros H1 Hc Hlen Eend. pose proof (lookup_lt_Some _ _ _ Hc) as Hx. destruct (branch_at _ _ _ _ _ _ H1) as (mp & Hm & _).
  destruct (page_keys _ _ _ _ _ H1 (bo_page _ _ _ _ _ Hm)) as [_ Hn]. cbn [tnodes] in Hn.
  set (j := if right then S x0 else (x0 - 1)%nat).
  assert (Hj : (j < length cs)%nat /\ (if right then j = S x0 else x0 = S j) /\
    (if right then Z.of_nat x0 + 1 else Z.of_nat x0 - 1) = Z.of_nat j).
  { subst j. destruct right; [apply Z.leb_gt in Eend; unfold lenZ in Eend|apply Z.eqb_neq in Eend]; lia. }
  destruct Hj as (Hj & Hxj & Ej). rewrite Ej. destruct (lookup_lt_is_Some_2 cs j Hj) as [e Hje].
  destruct (set_top_ki_path s1 path _ _ (Z.of_nat j) H1) as (s2 & E2 & H2 & Hf2); [unfold lenZ in Hn; lia|].
  destruct (enter_child s2 path p ns cs j e right H2 Hje) as (s3 & E3 & H3 & Hf3).
  exists s2, s3, j, e. do 3 (split; [done|]). split; [by etrans|].
  eapply moved_inside; [apply (op_sub _ _ _ _ H1)|done..].
Qed.
Lemma sibling_root (right : bool) fuel s c i : on_path s [] c i -> sibling fuel right s = Done (MDB_NOTFOUND, s).
Proof. intros H. destruct fuel; cbn [sibling]; unfold cget, cbind at 1; by rewrite (op_snum _ _ _ _ H). Qed.
Lemma sibling_ok (right : bool) fuel s path c i :
  on_path s path c i -> (length path <= fuel)%nat ->
  exists rc s', sibling fuel right s = Done (rc, s') /\
    ((rc = MDB_SUCCESS /\ exists path' c',
        on_path s' path' c' (if right then 0 else lenZ (tnodes c') - 1) /\ length path' = length path /\ frame s s' /\
        moved_to right path path' c') \/
     (rc = MDB_NOTFOUND /\ s' = s /\ at_end right path)).
Proof.
  revert s path c i. induction fuel as [|fuel IH]; intros s path c i H Hl; destruct path as [|x0 path _] using rev_ind.
  1, 3: rewrite (sibling_root right _ _ _ _ H); exists MDB_NOTFOUND, s; split; [done|]; right; by destruct right.
  { rewrite length_app in Hl. cbn in Hl. lia. }
  rewrite length_app in Hl. cbn in Hl.
  cbn [sibling]. unfold cget, cbind at 1. rewrite (op_snum _ _ _ _ H), lenZ_app. change (lenZ [x0]) with 1.
  rewrite (proj2 (Z.ltb_ge _ 2)) by lens.
  destruct (pop_path s path x0 c i H) as (s1 & p & ns & cs & Ep & Hf1 & Hc & H1 & Es1). cstep Ep.
  cstep (top_ki_path _ _ _ _ H1). destruct (branch_at _ _ _ _ _ _ H1) as (mp & Hm & Et). cstep Et.
  rewrite (NUMKEYS_rep _ _ (bo_rep _ _ _ _ _ Hm)). pose proof (bo_len _ _ _ _ _ Hm) as Hlen.
  pose proof (lookup_lt_Some _ _ _ Hc) as Hx.
  destruct (if right then lenZ ns <=? Z.of_nat x0 + 1 else Z.of_nat x0 =? 0) eqn:Eend; unfold cbind at 1 2.
  - assert (Hend : if right then S x0 = length cs else x0 = 0%nat).
    { destruct right; [apply Z.leb_le in Eend; unfold lenZ in Eend; lia|apply Z.eqb_eq in Eend; lia]. }
    destruct (IH s1 path _ _ H1 ltac:(lia)) 
      as (rc & s2 & -> & [(-> & path' & c' & H2 & Hl2 & Hf2 & Hm2)|(-> & -> & He)]); cbn [negb Z.eqb MDB_SUCCESS MDB_NOTFOUND].
    + destruct (enter_across right s1 path _ p ns cs x0 c s2 path' c' H1 Hc Hend H2 Hl2 Hm2) as (s3 & j & e & E3 & H3 & Hf3 & Hm3).
      unfold cret at 1. cbn [negb Z.eqb MDB_SUCCESS]. rewrite E3. exists MDB_SUCCESS, s3. split; [done|]. left. split; [done|].
      exists (path' ++ [j]), e. rewrite !length_app, Hl2. do 2 (split; [done|]). split; [|done]. by do 2 (etrans; [done|]).
    + unfold cbind, modify_mc, cret. cbn [negb Z.eqb]. subst s1. cbn [cs_mc set_mc].
      pose proof (restack s path x0 c i H) as Hre. cbn beta in Hre. rewrite Hre.
      exists MDB_NOTFOUND, s. split; [by destruct s|]. right. do 2 (split; [done|]).
      eapply end_inside; [apply (op_sub _ _ _ _ H1)|done..].
  - destruct (enter_beside right s1 path p ns cs x0 c H1 Hc (eq_sym Hlen) Eend) as (s2 & s3 & j & e & E2 & E3 & H3 & Hf3 & Hm3).
    rewrite E2. unfold cret at 1. cbn [negb Z.eqb MDB_SUCCESS]. rewrite E3. exists MDB_SUCCESS, s3. split; [done|]. left.
    split; [done|]. exists (path ++ [j]), e. rewrite !length_app. do 2 (split; [done|]). split; [by etrans|done].
Qed.

(** ** The current item *)
Lemma leaf_at s path p ns ds i :
  on_path s path (TLeaf p ns ds) i -> exists mp, leaf_ok t p ns ds mp /\ top_page s = Done (mp, s).
Proof.
  intros H. pose proof (path_ok _ _ _ _ H) as Hok. destruct (d - length path)%nat; [|done].
  destruct Hok as [mp Hm]. exists mp. split; [done|]. apply (top_page_path _ _ _ _ _ H), Hm.
Qed.
(** A page at the depth of a leaf is a leaf. *)
Lemma same_depth s path p ns ds i s' path' c i' :
  on_path s path (TLeaf p ns ds) i -> on_path s' path' c i' -> length path' = length path ->
  exists p' ns' ds', c = TLeaf p' ns' ds'.
Proof.
  intros H H' Hl. pose proof (path_ok _ _ _ _ H) as H1. pose proof (path_ok _ _ _ _ H') as H2. rewrite Hl in H2.
  destruct (d - length path)%nat, c; try done. by do 3 eexists.
Qed.
Definition out_item (want : bool) (e : bytes * bytes) : item :=
  {| it_key := e.1; it_data := if want then Some e.2 else None |}.
Lemma node_read_value s p ns ds mp (i : nat) ofs nd v :
  leaf_ok t p ns ds mp -> cs_txn s = t -> ns !! i = Some (ofs, nd) -> ds !! i = Some v ->
  mn_flags (mp_raw mp) ofs = Done (pn_flags nd) /\ F_ISSET (pn_flags nd) F_DUPDATA = false /\
  node_read mp ofs s = Done ((MDB_SUCCESS, v), s) /\ NODEKEY (mp_raw mp) ofs = Done (pn_key nd).
Proof.
  intros Hm Ht Hn Hv. pose proof (lo_rep _ _ _ _ _ Hm) as Hr.
  destruct (node_fields _ _ Hr _ _ _ Hn) as (_ & _ & Hfl & _). destruct (node_data _ _ _ _ _ Hr Hn) as [Hpos Hdat].
  pose proof (lo_values _ _ _ _ _ Hm) as Hvs. destruct (Forall2_lookup_lr _ _ _ _ _ _ Hvs Hn Hv) as [Hdup Hval].
  cbn [snd] in *. split; [done|]. split; [done|]. split; [|by eapply node_key].
  destruct (pr_ok _ _ Hr _ _ _ Hn) as [Hok _]. rewrite (lo_leaf _ _ _ _ _ Hm) in Hok. pose proof (po_data _ _ Hok) as Hlen.
  unfold node_read, cget, cbind, clift, mdb_node_read. rewrite Hfl, (node_dsz _ _ Hr _ _ _ Hn), Hpos, Ht. cbn [obind].
  destruct (F_ISSET (pn_flags nd) F_BIGDATA); cbn [negb].
  - destruct Hval as (ov & Ho & Hrd). rewrite Hlen in Hdat. rewrite Hdat. cbn [obind]. rewrite Ho. cbn [obind]. by rewrite Hrd.
  - subst v. rewrite Hlen in Hdat. by rewrite Hdat.
Qed.
Lemma read_current_ok s path p ns ds (i : nat) e want dup :
  on_path s path (TLeaf p ns ds) (Z.of_nat i) -> leaf_items ns ds !! i = Some e ->
  read_current want dup s = Done ((MDB_SUCCESS, Some (out_item want e)), s).
Proof.
  intros H He. destruct (leaf_at _ _ _ _ _ _ H) as (mp & Hm & Et).
  destruct (leaf_item _ _ _ _ He) as (ofs & nd & v & Hn & Hv & ->).
  destruct (node_read_value s p ns ds mp i ofs nd v Hm (op_txn _ _ _ _ H) Hn Hv) as (Hfl & Hdup & Hrd & Hk).
  unfold read_current. cstep Et. cstep (top_ki_path _ _ _ _ H). rewrite (pr_kind _ _ (lo_rep _ _ _ _ _ Hm)).
  unfold clift, cbind at 1. rewrite (pr_ptr _ _ (lo_rep _ _ _ _ _ Hm) _ _ _ Hn).
  unfold read_leaf, clift. unfold cbind at 1. rewrite Hfl, Hdup. cbn [andb].
  destruct want; cbn [out_item fst snd].
  - unfold cbind at 1. unfold cbind at 1. rewrite Hrd. unfold cret. cbn [negb Z.eqb MDB_SUCCESS]. unfold cbind. by rewrite Hk.
  - unfold cbind at 1. unfold cret. cbn [negb Z.eqb MDB_SUCCESS]. unfold cbind. by rewrite Hk.
Qed.
Lemma check_leaf_ok s path p ns ds i : on_path s path (TLeaf p ns ds) i -> check_leaf s = Done (tt, s).
Proof.
  intros H. destruct (leaf_at _ _ _ _ _ _ H) as (mp & Hm & Et). unfold check_leaf. cstep Et.
  by rewrite (lo_leaf _ _ _ _ _ Hm), orb_true_r.
Qed.

(** The cursor is on item [e], with [l] before it and [r] after it. *)
Definition at_item (s : cstate) (l : list (bytes * bytes)) (e : bytes * bytes) (r : list (bytes * bytes)) : Prop :=
  exists path p ns ds (i : nat), on_path s path (TLeaf p ns ds) (Z.of_nat i) /\ leaf_items ns ds !! i = Some e /\
    l = before tr path ++ take i (leaf_items ns ds) /\ r = drop (S i) (leaf_items ns ds) ++ after tr path.
Lemma at_item_split s l e r : at_item s l e r -> items tr = l ++ e :: r.
Proof.
  intros (path & p & ns & ds & i & H & He & -> & ->). rewrite (items_split tr path _ (op_sub _ _ _ _ H)). cbn [items].
  rewrite <- (take_drop_middle _ _ _ He) at 1. by rewrite <- !app_assoc.
Qed.
Lemma leaf_items_len s path p ns ds i :
  on_path s path (TLeaf p ns ds) i -> length (leaf_items ns ds) = length ns /\ 1 <= lenZ ns < 2 ^ 16 - 1.
Proof.
  intros H. destruct (leaf_at _ _ _ _ _ _ H) as (mp & Hm & _). split.
  - unfold leaf_items. rewrite length_zip_with. rewrite (Forall2_length _ _ _ (lo_values _ _ _ _ _ Hm)). lia.
  - destruct (page_keys _ _ _ _ mp H) as [_ Hn]; [apply Hm|done].
Qed.
Lemma frame_flags s s' init eof : frame s s' -> frame (set_mc (with_flags init eof (cs_mc s)) s) (set_mc (with_flags init eof (cs_mc s')) s').
Proof. intros (H1 & H2 & H3 & _). done. Qed.
Lemma on_path_flags s path c i init eof :
  on_path s path c i -> on_path (set_mc (with_flags init eof (cs_mc s)) s) path c i.
Proof. intros []. by constructor. Qed.
Lemma at_item_flags s l e r init eof : at_item s l e r -> at_item (set_mc (with_flags init eof (cs_mc s)) s) l e r.
Proof. intros (path & p & ns & ds & i & H & ?). exists path, p, ns, ds, i. split; [by apply on_path_flags|done]. Qed.

(** ** Moves *)
Lemma move_in_leaf s path p ns ds (i j : nat) e l r :
  on_path s path (TLeaf p ns ds) (Z.of_nat i) -> leaf_items ns ds !! j = Some e ->
  l = before tr path ++ take j (leaf_items ns ds) -> r = drop (S j) (leaf_items ns ds) ++ after tr path ->
  exists s', set_top_ki (Z.of_nat j) s = Done (tt, s') /\ frame s s' /\ at_item s' l e r.
Proof.
  intros H He -> ->. destruct (leaf_items_len _ _ _ _ _ _ H) as [Hl Hn].
  pose proof (lookup_lt_Some _ _ _ He) as Hj. unfold lenZ in Hn.
  destruct (set_top_ki_path s path _ _ (Z.of_nat j) H) as (s' & E & H' & Hf); [lia|].
  exists s'. split; [done|]. split; [done|]. by exists path, p, ns, ds, j.
Qed.
Lemma read_at s l e r want dup : at_item s l e r -> read_current want dup s = Done ((MDB_SUCCESS, Some (out_item want e)), s).
Proof. intros (path & p & ns & ds & i & H & He & _). by eapply read_current_ok. Qed.
Lemma check_at s l e r : at_item s l e r -> check_leaf s = Done (tt, s).
Proof. intros (path & p & ns & ds & i & H & _). by eapply check_leaf_ok. Qed.
(** The first and the last leaf item of a page reached from a neighbour. *)
Lemma first_of_leaf s path p ns ds :
  on_path s path (TLeaf p ns ds) 0 ->
  exists e r, leaf_items ns ds = e :: r /\ at_item s (before tr path) e (r ++ after tr path).
Proof.
  intros H. destruct (leaf_items_len _ _ _ _ _ _ H) as [Hl Hn].
  destruct (leaf_items ns ds) as [|e r] eqn:E; [unfold lenZ in Hn; simpl in Hl; lia|]. exists e, r. split; [done|].
  exists path, p, ns, ds, O. rewrite E. cbn. split; [done|]. split; [done|]. by rewrite app_nil_r.
Qed.
Lemma last_of_leaf s path p ns ds :
  on_path s path (TLeaf p ns ds) (lenZ ns - 1) ->
  exists l e, leaf_items ns ds = l ++ [e] /\ at_item s (before tr path ++ l) e (after tr path).
Proof.
  intros H. destruct (leaf_items_len _ _ _ _ _ _ H) as [Hl Hn]. unfold lenZ in Hn.
  destruct (leaf_items ns ds) as [|e l _] eqn:E using rev_ind; [simpl in Hl; lia|]. exists l, e. split; [done|].
  rewrite length_app in Hl. cbn in Hl. exists path, p, ns, ds, (length l). rewrite E.
  split; [replace (Z.of_nat (length l)) with (lenZ ns - 1) by (unfold lenZ; lia); done|].
  split; [by rewrite lookup_app_r, Nat.sub_diag by lia|]. rewrite take_app_length.
  split; [done|]. rewrite drop_ge by (rewrite length_app; cbn; lia). done.
Qed.

Lemma next_ok s l e r want :
  at_item s l e r -> mc_init (cs_mc s) = true -> mc_eof (cs_mc s) = false ->
  exists res s', mdb_cursor_next want s = Done (res, s') /\
  match r with
  | [] => res = (MDB_NOTFOUND, None) /\ s' = set_mc (with_flags false true (cs_mc s)) s
  | e' :: r' => res = (MDB_SUCCESS, Some (out_item want e')) /\ frame s s' /\ at_item s' (l ++ [e]) e' r'
  end.
Proof.
  intros (path & p & ns & ds & i & H & He & -> & Hr) Hin Heof.
  destruct (leaf_at _ _ _ _ _ _ H) as (mp & Hm & Et). destruct (leaf_items_len _ _ _ _ _ _ H) as [Hl Hn].
  pose proof (lookup_lt_Some _ _ _ He) as Hi. unfold lenZ in Hn.
  unfold mdb_cursor_next, cget, cbind at 1. rewrite Heof, Hin. cbn [negb]. cstep Et.
  cstep (top_ki_path _ _ _ _ H). rewrite (NUMKEYS_rep _ _ (lo_rep _ _ _ _ _ Hm)).
  destruct (Z.leb_spec (lenZ ns) (Z.of_nat i + 1)) as [Hend|Hmore]; unfold lenZ in *.
  - rewrite drop_ge in Hr by lia. cbn [app] in Hr. unfold mdb_cursor_sibling.
    destruct (sibling_ok true (Z.to_nat CURSOR_STACK) s path _ _ H)
      as (rc & s1 & E1 & [(-> & path' & c' & H1 & Hl1 & Hf1 & Hm1)|(-> & -> & Hat)]).
    { pose proof (path_len _ _ _ _ H). change (Z.to_nat CURSOR_STACK) with 32%nat. lia. }
    + destruct (same_depth _ _ _ _ _ _ _ _ _ _ H H1 Hl1) as (p' & ns' & ds' & ->). cbn [moved_to items] in Hm1.
      destruct (first_of_leaf _ _ _ _ _ H1) as (e' & r' & Ei & Hat). rewrite Ei in Hm1. cbn [app] in Hm1.
      rewrite Hm1 in Hr. subst r. unfold cbind at 1. unfold cbind at 1. rewrite E1.
      cbn [negb Z.eqb MDB_SUCCESS]. unfold cret at 1. unfold cbind at 1. rewrite (check_at _ _ _ _ Hat).
      rewrite (read_at _ _ _ _ _ _ Hat). eexists _, s1. do 3 (split; [done|]).
      pose proof (items_split tr path _ (op_sub _ _ _ _ H)) as S1.
      pose proof (items_split tr path' _ (op_sub _ _ _ _ H1)) as S2. cbn [items] in S1, S2.
      rewrite S1, Hm1, Ei in S2. cbn [app] in S2. rewrite app_assoc in S2. apply app_inv_tail in S2.
      rewrite <- app_assoc, <- (take_S_r _ _ _ He), take_ge by lia. by rewrite S2.
    + unfold at_end in Hat. rewrite Hat in Hr. subst r. unfold cbind at 1. unfold cbind at 1. rewrite E1.
      eexists _, _. by split.
  - destruct (lookup_lt_is_Some_2 (leaf_items ns ds) (S i)) as [e' He']; [lia|].
    rewrite (drop_S _ _ _ He') in Hr. cbn [app] in Hr. subst r.
    destruct (move_in_leaf s path p ns ds i (S i) e' _ _ H He' eq_refl eq_refl) as (s1 & E1 & Hf1 & Hat).
    replace (Z.of_nat i + 1) with (Z.of_nat (S i)) by lia. unfold cbind at 1. unfold cbind at 1. rewrite E1.
    unfold cret at 1. unfold cbind at 1. rewrite (check_at _ _ _ _ Hat), (read_at _ _ _ _ _ _ Hat).
    eexists _, s1. do 3 (split; [done|]). rewrite (take_S_r _ _ _ He) in Hat. by rewrite app_assoc in Hat.
Qed.

Lemma prev_finish s s1 e' l1 r1 want :
  frame s s1 -> mc_init (cs_mc s) = true -> at_item s1 l1 e' r1 ->
  (do! modify_mc (fun mc => with_flags (mc_init mc) false mc) in do! check_leaf in read_current want true) s1 =
    Done ((MDB_SUCCESS, Some (out_item want e')), set_mc (with_flags true false (cs_mc s1)) s1) /\
  at_item (set_mc (with_flags true false (cs_mc s1)) s1) l1 e' r1.
Proof.
  intros Hf Hin Hat. unfold modify_mc, cbind at 1. assert (mc_init (cs_mc s1) = true) as ->
    by (destruct Hf as (_ & _ & _ & -> & _); done).
  pose proof (at_item_flags _ _ _ _ true false Hat) as Hat'. unfold cbind.
  by rewrite (check_at _ _ _ _ Hat'), (read_at _ _ _ _ _ _ Hat').
Qed.
Lemma prev_ok s l e r want :
  at_item s l e r -> mc_init (cs_mc s) = true ->
  exists res s', mdb_cursor_prev want s = Done (res, s') /\
  match rev l with
  | [] => res = (MDB_NOTFOUND, None) /\ s' = set_mc (with_flags false (mc_eof (cs_mc s)) (cs_mc s)) s
  | e' :: l' => res = (MDB_SUCCESS, Some (out_item want e')) /\ at_item s' (rev l') e' (e :: r) /\
      exists s1, frame s s1 /\ s' = set_mc (with_flags true false (cs_mc s1)) s1
  end.
Proof.
  intros (path & p & ns & ds & i & H & He & Hl & ->) Hin.
  destruct (leaf_items_len _ _ _ _ _ _ H) as [Hln Hn]. pose proof (lookup_lt_Some _ _ _ He) as Hi. unfold lenZ in Hn.
  unfold mdb_cursor_prev, cget, cbind at 1. rewrite Hin. cbn [negb]. cstep (top_ki_path _ _ _ _ H).
  destruct (Z.eqb_spec (Z.of_nat i) 0) as [Hz|Hz].
  - replace i with O in * by lia. cbn [take] in Hl. rewrite app_nil_r in Hl. unfold mdb_cursor_sibling.
    destruct (sibling_ok false (Z.to_nat CURSOR_STACK) s path _ _ H)
      as (rc & s1 & E1 & [(-> & path' & c' & H1 & Hl1 & Hf1 & Hm1)|(-> & -> & Hat)]).
    { pose proof (path_len _ _ _ _ H). change (Z.to_nat CURSOR_STACK) with 32%nat. lia. }
    + destruct (same_depth _ _ _ _ _ _ _ _ _ _ H H1 Hl1) as (p' & ns' & ds' & ->). cbn [moved_to items tnodes] in *.
      destruct (leaf_at _ _ _ _ _ _ H1) as (mp1 & Hmp1 & Et1).
      destruct (set_top_ki_path s1 path' _ _ (lenZ ns' - 1) H1) as (s2 & E2 & H2 & Hf2).
      { destruct (leaf_items_len _ _ _ _ _ _ H1). lia. }
      destruct (last_of_leaf _ _ _ _ _ H2) as (l2 & e' & Ei & Hat). rewrite Ei in Hm1.
      assert (El : rev l = e' :: rev (before tr path' ++ l2)).
      { subst l. rewrite Hm1, app_assoc, rev_app_distr. done. }
      rewrite El. assert (Hf : frame s s2) by (by etrans).
      destruct (prev_finish s s2 e' _ _ want Hf Hin Hat) as [Ef Haf].
      unfold cbind at 1. unfold cbind at 1. rewrite E1. cbn [negb Z.eqb MDB_SUCCESS]. cstep Et1.
      rewrite (NUMKEYS_rep _ _ (lo_rep _ _ _ _ _ Hmp1)). unfold cbind at 1. rewrite E2. unfold cret at 1. rewrite Ef.
      eexists _, _. split; [done|]. split; [done|]. split; [|by exists s2]. rewrite rev_involutive.
      pose proof (items_split tr path _ (op_sub _ _ _ _ H)) as S1.
      pose proof (items_split tr path' _ (op_sub _ _ _ _ H1)) as S2. cbn [items] in S1, S2.
      rewrite S1, Hm1, Ei, <- !app_assoc in S2. apply app_inv_head in S2. apply app_inv_head in S2. injection S2 as S2.
      rewrite <- (take_drop_middle _ _ _ He) in S2 at 1. cbn [take app] in S2. by rewrite <- S2 in Haf.
    + unfold at_end in Hat. rewrite Hat in Hl. subst l. cbn [rev]. unfold cbind at 1. unfold cbind at 1. rewrite E1.
      eexists _, _. by split.
  - destruct i as [|i]; [done|]. destruct (lookup_lt_is_Some_2 (leaf_items ns ds) i) as [e' He']; [lia|].
    destruct (move_in_leaf s path p ns ds _ i e' _ _ H He' eq_refl eq_refl) as (s1 & E1 & Hf1 & Hat).
    assert (El : rev l = e' :: rev (before tr path ++ take i (leaf_items ns ds))).
    { subst l. rewrite (take_S_r _ _ _ He'), app_assoc, rev_app_distr. done. }
    rewrite El. destruct (prev_finish s s1 e' _ _ want Hf1 Hin Hat) as [Ef Haf].
    replace (Z.of_nat (S i) - 1) with (Z.of_nat i) by lia. unfold cbind at 1. unfold cbind at 1. rewrite E1.
    unfold cret at 1. rewrite Ef. eexists _, _. split; [done|]. split; [done|]. split; [|by exists s1]. rewrite rev_involutive.
    rewrite (drop_S _ _ _ He) in Haf. exact Haf.
Qed.

Lemma ready_path s s' path c i :
  ready s -> cs_db s' = cs_db s -> cs_cmp s' = cs_cmp s -> on_path s' path c i -> ready s'.
Proof.
  intros [H1 H2 H3 H4 H5 H6 H7 H7' H8] Hdb Hcmp H. constructor; rewrite ?Hdb, ?Hcmp; try done.
  - apply (op_txn _ _ _ _ H).
  - apply (op_pgs _ _ _ _ H).
  - apply (op_kis _ _ _ _ H).
  - apply (op_ks _ _ _ _ H).
  - right. apply (op_pg _ _ _ _ H); [done|lia].
Qed.
(** The stack leads to a leaf; it is the last one when [last] holds. *)
Definition parked (last : bool) (s : cstate) : Prop :=
  exists path p ns ds i, on_path s path (TLeaf p ns ds) i /\ (last = true -> after tr path = []).

(** A search for an end of the tree, or the only page it has *)
Lemma end_search_ok key s :
  ready s -> (mc_init (cs_mc s) = true -> parked false s) -> key = KFirst \/ key = KLast ->
  exists s1 path p ns ds j,
    (if negb (mc_init (cs_mc s)) || negb (mc_top (cs_mc s) =? 0)
     then mdb_page_search no_touch key false false else cret MDB_SUCCESS) s = Done (MDB_SUCCESS, s1) /\
    on_path s1 path (TLeaf p ns ds) j /\ reaches key path /\ frame s s1.
Proof.
  intros Hr Hpk Hkey. assert (key_small key) by (by destruct Hkey as [-> | ->]).
  destruct (mc_init (cs_mc s)); cbn [negb orb]; [|by apply page_search_ok].
  destruct (Z.eqb_spec (mc_top (cs_mc s)) 0) as [H0|H0]; cbn [negb orb]; [|by apply page_search_ok].
  destruct (Hpk eq_refl) as (path & p & ns & ds & i & Hp & _). exists s, path, p, ns, ds, i.
  rewrite (op_top _ _ _ _ Hp) in H0. apply lenZ_zero_nil in H0. subst path. by destruct Hkey as [-> | ->].
Qed.
Lemma first_ok s want :
  ready s -> (mc_init (cs_mc s) = true -> parked false s) ->
  exists s' e r, mdb_cursor_first want s = Done ((MDB_SUCCESS, Some (out_item want e)), s') /\
    items tr = e :: r /\ at_item s' [] e r /\ ready s' /\ mc_init (cs_mc s') = true /\ mc_eof (cs_mc s') = false.
Proof.
  intros Hr Hpk.
  destruct (end_search_ok KFirst s Hr Hpk (or_introl eq_refl)) as (s1 & path & p & ns & ds & j & E & H1 & Hb & Hf1).
  cbn [reaches] in Hb.
  unfold mdb_cursor_first, cget, cbind at 1. cstep E. cbn [negb Z.eqb MDB_SUCCESS].
  destruct (leaf_at _ _ _ _ _ _ H1) as (mp & Hm & Et). cstep Et. rewrite (lo_leaf _ _ _ _ _ Hm). cbn [negb].
  unfold modify_mc, cbind at 1. pose proof (on_path_flags _ _ _ _ true false H1) as H2.
  destruct (set_top_ki_path _ path _ _ 0 H2 ltac:(lia)) as (s3 & E3 & H3 & Hf3). cstep E3.
  destruct (first_of_leaf _ _ _ _ _ H3) as (e & r & Ei & Hat). rewrite Hb in Hat.
  exists s3, e, (r ++ after tr path). split; [by apply (read_at _ _ _ _ _ _ Hat)|].
  split; [by rewrite (at_item_split _ _ _ _ Hat)|]. split; [done|].
  destruct Hf1 as (F1 & F2 & F3 & _), Hf3 as (G1 & G2 & G3 & G4 & G5). cbn in *.
  split; [eapply (ready_path s s3 path); [done| | |exact H3]; congruence|done].
Qed.

Lemma last_ok s want :
  ready s -> (mc_init (cs_mc s) = true \/ mc_eof (cs_mc s) = true -> parked (mc_eof (cs_mc s)) s) ->
  exists s' e l, mdb_cursor_last want s = Done ((MDB_SUCCESS, Some (out_item want e)), s') /\
    items tr = l ++ [e] /\ at_item s' l e [] /\ ready s' /\ mc_init (cs_mc s') = true /\ mc_eof (cs_mc s') = true.
Proof.
  intros Hr Hpk.
  assert (Hs : exists s1 path p ns ds j,
    (if negb (mc_eof (cs_mc s)) then
       let! rc := (if negb (mc_init (cs_mc s)) || negb (mc_top (cs_mc s) =? 0)
                   then mdb_page_search no_touch KLast false false else cret MDB_SUCCESS) in
       if negb (rc =? MDB_SUCCESS) then cret rc
       else let! mp := top_page in if negb (IS_LEAF mp) then cfault AssertFailed else cret MDB_SUCCESS
     else cret MDB_SUCCESS) s = Done (MDB_SUCCESS, s1) /\
    on_path s1 path (TLeaf p ns ds) j /\ after tr path = [] /\ frame s s1).
  { destruct (mc_eof (cs_mc s)); cbn [negb].
    { destruct (Hpk (or_intror eq_refl)) as (path & p & ns & ds & i & H & Ha). exists s, path, p, ns, ds, i.
      do 2 (split; [done|]). split; [by apply Ha|done]. }
    destruct (end_search_ok KLast s Hr (fun H => Hpk (or_introl H)) (or_intror eq_refl)) as (s1 & path & p & ns & ds & j & E & H1 & Ha & Hf1).
    exists s1, path, p, ns, ds, j.
    split; [|done]. cstep E. cbn [negb Z.eqb MDB_SUCCESS].
    destruct (leaf_at _ _ _ _ _ _ H1) as (mp & Hm & Et). cstep Et. by rewrite (lo_leaf _ _ _ _ _ Hm). }
  destruct Hs as (s1 & path & p & ns & ds & j & E & H1 & Ha & Hf1).
  unfold mdb_cursor_last, cget, cbind at 1. cstep E. cbn [negb Z.eqb MDB_SUCCESS].
  destruct (leaf_at _ _ _ _ _ _ H1) as (mp & Hm & Et). cstep Et. rewrite (NUMKEYS_rep _ _ (lo_rep _ _ _ _ _ Hm)).
  destruct (leaf_items_len _ _ _ _ _ _ H1) as [_ Hn].
  destruct (set_top_ki_path _ path _ _ (lenZ ns - 1) H1 ltac:(lia)) as (s2 & E2 & H2 & Hf2). cstep E2.
  unfold modify_mc, cbind at 1. pose proof (on_path_flags _ _ _ _ true true H2) as H3.
  destruct (last_of_leaf _ _ _ _ _ H3) as (l & e & Ei & Hat). rewrite Ha in Hat.
  eexists _, e, (before tr path ++ l). split; [by apply (read_at _ _ _ _ _ _ Hat)|].
  split; [by rewrite (at_item_split _ _ _ _ Hat)|]. split; [done|].
  destruct Hf1 as (F1 & F2 & F3 & _), Hf2 as (G1 & G2 & G3 & _). cbn in *.
  split; [eapply (ready_path s _ path); [done| | |exact H3]; cbn; congruence|done].
Qed.

(** ** Setting the cursor on a key *)
Inductive set_op : MDB_cursor_op -> bool -> Prop :=
  | SetOp : set_op MDB_SET true
  | SetKeyOp : set_op MDB_SET_KEY true
  | SetRangeOp : set_op MDB_SET_RANGE false.

Lemma leaf_search_ok s path p ns ds i k :
  on_path s path (TLeaf p ns ds) i -> cs_cmp s = CmpMemn -> lenZ k < 2 ^ 32 ->
  exists s' (r : nat) (ex : bool), cursor_node_search k s = Done ((fst <$> ns !! r, ex), s') /\
    on_path s' path (TLeaf p ns ds) (Z.of_nat r) /\ frame s s' /\ (r <= length ns)%nat /\
    (forall j, (j < r)%nat -> lex (page_key ns (Z.of_nat j)) k < 0) /\
    (forall j, (r < j < length ns)%nat -> lex k (page_key ns (Z.of_nat j)) < 0) /\
    (if ex then (r < length ns)%nat /\ page_key ns (Z.of_nat r) = k
     else (r < length ns)%nat -> lex k (page_key ns (Z.of_nat r)) < 0).
Proof.
  intros H Hc Hk. destruct (leaf_at _ _ _ _ _ _ H) as (mp & Hm & Et). destruct (leaf_items_len _ _ _ _ _ _ H) as [_ Hn].
  unfold cursor_node_search. cstep Et. unfold cget, cbind at 1. rewrite Hc.
  assert (Hf : first_key mp = 0) by (unfold first_key; by rewrite (lo_leaf _ _ _ _ _ Hm)).
  destruct (node_search_ok mp ns (md_pad (cs_db s)) k (lo_rep _ _ _ _ _ Hm) (lo_sorted _ _ _ _ _ Hm))
    as (node & r & ex & E & Hr & -> & Hlo & Hhi & Hat & Hex & _); [lia|done|].
  rewrite Hf in *. unfold clift, cbind at 1. rewrite E. cbn iota beta.
  destruct (set_top_ki_path s path _ i r H) as (s' & Es & Hp & Hfr); [lia|].
  unfold cbind. rewrite Es. exists s', (Z.to_nat r), ex. rewrite Z2Nat.id by lia. unfold lenZ in *.
  split; [done|]. split; [done|]. split; [done|]. split; [lia|]. split; [|split].
  - intros j Hj. apply Hlo. lia.
  - intros j Hj. apply Hhi. lia.
  - destruct ex; [destruct (Hex eq_refl); split; [lia|done]|]. intros. by apply Hat; [done|lia].
Qed.
Lemma set1_ok op exactp k want s path p ns ds (i : nat) e ofs nd :
  on_path s path (TLeaf p ns ds) (Z.of_nat i) -> leaf_items ns ds !! i = Some e -> ns !! i = Some (ofs, nd) ->
  set_op op exactp -> (exactp = true -> e.1 = k) ->
  set1 op k want ofs s =
    Done ((MDB_SUCCESS, Some (out_item want e)), set_mc (with_flags true false (cs_mc s)) s).
Proof.
  intros H He Hn Hop Hk. destruct (leaf_item _ _ _ _ He) as (ofs' & nd' & v & Hn' & Hv & ->).
  rewrite Hn in Hn'. injection Hn' as <- <-.
  pose proof (on_path_flags _ _ _ _ true false H) as H1. unfold set1, modify_mc, cbind at 1.
  set (s1 := set_mc _ s) in *. destruct (leaf_at _ _ _ _ _ _ H1) as (mp & Hm & Et). cstep Et.
  cstep (top_ki_path _ _ _ _ H1). rewrite (pr_kind _ _ (lo_rep _ _ _ _ _ Hm)).
  destruct (node_read_value s1 p ns ds mp i ofs nd v Hm (op_txn _ _ _ _ H1) Hn Hv) as (Hfl & Hdup & Hrd & Hnk).
  unfold clift, cbind at 1. rewrite Hfl, Hdup.
  assert (Hb : bool_decide (op = MDB_GET_BOTH) || bool_decide (op = MDB_GET_BOTH_RANGE) = false) by (by destruct Hop).
  rewrite Hb. unfold out_item. cbn [fst snd] in *.
  assert (Hkey : forall d, (let! k0 := if bool_decide (op = MDB_SET_RANGE) || bool_decide (op = MDB_SET_KEY)
                     then clift (NODEKEY (mp_raw mp) ofs) else cret k in
             cret (MDB_SUCCESS, Some {| it_key := k0; it_data := d |})) s1
          = Done ((MDB_SUCCESS, Some {| it_key := pn_key nd; it_data := d |}), s1)).
  { intros d'. unfold cbind, clift. rewrite Hnk. destruct Hop; cbn; try done. by rewrite (Hk eq_refl). }
  destruct want.
  - unfold cbind at 1. unfold cbind at 1. rewrite Hrd. unfold cret at 1. cbn [negb Z.eqb MDB_SUCCESS]. apply Hkey.
  - unfold cbind at 1. unfold cret at 1. cbn [negb Z.eqb MDB_SUCCESS]. apply Hkey.
Qed.

(** What a search for [k] comes to: an item, or nothing. *)
Definition set_found (exactp : bool) (k : bytes) (want : bool) (s : cstate) (res : Z * option item) (s' : cstate) : Prop :=
  exists l e r, at_item s' l e r /\ res = (MDB_SUCCESS, Some (out_item want e)) /\
    mc_init (cs_mc s') = true /\ mc_eof (cs_mc s') = false /\ cs_db s' = cs_db s /\ cs_cmp s' = cs_cmp s /\
    if exactp then e.1 = k else lex k e.1 <= 0 /\ (forall x, x ∈ l.*1 -> lex x k < 0).
Definition set_missing (exactp : bool) (k : bytes) (s : cstate) (res : Z * option item) (s' : cstate) : Prop :=
  res = (MDB_NOTFOUND, None) /\ frame s s' /\ parked false s' /\
  (if exactp then k ∉ (items tr).*1
   else (forall x, x ∈ (items tr).*1 -> lex x k < 0) \/
        mc_init (cs_mc s) = true /\ d = 0%nat /\ (forall x, x ∈ (items tr).*1 -> lex k x < 0)).
(** The leaf is the place of [k]: the keys before index [r] are smaller, and
    the others greater, apart from the one at [r] when [ex] holds. *)
Record placed (k : bytes) (path : list nat) (ns : list (Z * pnode)) (ds : list bytes) (r : nat) (ex : bool) : Prop := {
  pl_small : forall x, x ∈ (before tr path ++ take r (leaf_items ns ds)).*1 -> lex x k < 0;
  pl_big : ex = false -> forall x, x ∈ (drop r (leaf_items ns ds) ++ after tr path).*1 -> lex k x < 0;
  pl_after : forall x, x ∈ (after tr path).*1 -> lex k x < 0;
  pl_here : if ex then (r < length ns)%nat /\ page_key ns (Z.of_nat r) = k
            else (r < length ns)%nat -> lex k (page_key ns (Z.of_nat r)) < 0
}.
Lemma leaf_placed s path p ns ds i k :
  on_path s path (TLeaf p ns ds) i -> reaches (KKey k) path -> cs_cmp s = CmpMemn -> lenZ k < 2 ^ 32 ->
  exists s' (r : nat) (ex : bool), cursor_node_search k s = Done ((fst <$> ns !! r, ex), s') /\
    on_path s' path (TLeaf p ns ds) (Z.of_nat r) /\ frame s s' /\ (r <= length ns)%nat /\ placed k path ns ds r ex.
Proof.
  intros H [Hbef Haft] Hc Hk.
  destruct (leaf_search_ok s path p ns ds i k H Hc Hk) as (s1 & r & ex & E & H1 & Hf1 & Hr & Hlo & Hhi & Hex).
  destruct (leaf_items_len _ _ _ _ _ _ H) as [Hl _]. exists s1, r, ex. do 4 (split; [done|]). constructor; [..|done|done].
  - intros x. rewrite fmap_app. intros [Hx|Hx]%elem_of_app; [by apply Hbef|].
    apply list_elem_of_fmap in Hx as (e & -> & He). apply list_elem_of_lookup_1 in He as (j & Hj).
    pose proof (lookup_lt_Some _ _ _ Hj) as Hjl. rewrite length_take in Hjl. rewrite lookup_take_lt in Hj by lia.
    rewrite (leaf_key _ _ _ _ Hj). apply Hlo. lia.
  - intros -> x. rewrite fmap_app. intros [Hx|Hx]%elem_of_app; [|by apply Haft].
    apply list_elem_of_fmap in Hx as (e & -> & He). apply list_elem_of_lookup_1 in He as (j & Hj).
    rewrite lookup_drop in Hj. pose proof (lookup_lt_Some _ _ _ Hj) as Hjl. rewrite (leaf_key _ _ _ _ Hj).
    destruct (decide (j = 0%nat)) as [->|]; [rewrite Nat.add_0_r in *; apply Hex; lia|apply Hhi; lia].
Qed.
Lemma placed_items s path p ns ds i (r : nat) :
  on_path s path (TLeaf p ns ds) i ->
  items tr = (before tr path ++ take r (leaf_items ns ds)) ++ drop r (leaf_items ns ds) ++ after tr path.
Proof.
  intros H. rewrite (items_split tr path _ (op_sub _ _ _ _ H)). cbn [items]. rewrite <- app_assoc. f_equal.
  by rewrite app_assoc, take_drop.
Qed.
(** The item at index [r] *)
Lemma found_here op exactp k want s s1 path p ns ds (r : nat) ex ofs nd :
  on_path s1 path (TLeaf p ns ds) (Z.of_nat r) -> frame s s1 -> placed k path ns ds r ex -> set_op op exactp ->
  ns !! r = Some (ofs, nd) -> (exactp = true -> ex = true) ->
  exists res s', set1 op k want ofs s1 = Done (res, s') /\ set_found exactp k want s res s'.
Proof.
  intros H1 (_ & F2 & F3 & _) Hpl Hop Hn Hx. destruct (leaf_items_len _ _ _ _ _ _ H1) as [Hl _].
  pose proof (lookup_lt_Some _ _ _ Hn) as Hlt. pose proof (pl_here _ _ _ _ _ _ Hpl) as Hex.
  destruct (lookup_lt_is_Some_2 (leaf_items ns ds) r) as [e He]; [lia|].
  assert (Hek : exactp = true -> e.1 = k).
  { intros E. rewrite (Hx E) in Hex. destruct Hex as [_ Hex]. by rewrite (leaf_key _ _ _ _ He). }
  rewrite (set1_ok op exactp k want s1 path p ns ds r e ofs nd) by done. eexists _, _. split; [done|].
  exists (before tr path ++ take r (leaf_items ns ds)), e, (drop (S r) (leaf_items ns ds) ++ after tr path).
  split; [apply at_item_flags; by exists path, p, ns, ds, r|]. do 5 (split; [done|]).
  destruct exactp; [by apply Hek|]. split; [|by apply (pl_small _ _ _ _ _ _ Hpl)]. rewrite (leaf_key _ _ _ _ He).
  destruct ex; [destruct Hex as [_ ->]; rewrite lex_refl; lia|]. apply Z.lt_le_incl, Hex. done.
Qed.
(** Past the last key of the page: the first item of the next page *)
Lemma found_next op k want s s1 path p ns ds (r : nat) :
  on_path s1 path (TLeaf p ns ds) (Z.of_nat r) -> frame s s1 -> placed k path ns ds r false -> set_op op false ->
  (length ns <= r)%nat ->
  exists res s', (let! r := (let! rc := mdb_cursor_sibling true in
      if negb (rc =? MDB_SUCCESS) then cret (inl rc)
      else
        let! mp := top_page in
        if negb (IS_LEAF mp) then cfault AssertFailed
        else let! ofs := clift (mp_ptr (mp_raw mp) 0) in cret (inr ofs)) in
    match r with inl rc => cret (rc, None) | inr leaf => set1 op k want leaf end) s1 = Done (res, s') /\
    (set_found false k want s res s' \/ set_missing false k s res s').
Proof.
  intros H1 Hf1 [Hsmall _ Haft _] Hop Hge. destruct (leaf_items_len _ _ _ _ _ _ H1) as [Hl _].
  rewrite take_ge in Hsmall by lia. pose proof (items_split tr path _ (op_sub _ _ _ _ H1)) as Hsp. cbn [items] in Hsp.
  assert (Hpl : (length path <= 32)%nat) by (pose proof (path_len _ _ _ _ H1); lia).
  unfold mdb_cursor_sibling. change (Z.to_nat CURSOR_STACK) with 32%nat.
  destruct (sibling_ok true 32 s1 path _ _ H1 Hpl)
    as (rc & s2 & E2 & [(-> & path' & c' & H2 & Hl2 & Hf2 & Hm2)|(-> & -> & Hat)]).
  - destruct (same_depth _ _ _ _ _ _ _ _ _ _ H1 H2 Hl2) as (p' & ns' & ds' & ->). cbn [moved_to items] in Hm2.
    destruct (first_of_leaf _ _ _ _ _ H2) as (e & r' & Ei & Hat). destruct (leaf_at _ _ _ _ _ _ H2) as (mp2 & Hmp2 & Et2).
    assert (He : leaf_items ns' ds' !! 0%nat = Some e) by (by rewrite Ei).
    destruct (leaf_item _ _ _ _ He) as (ofs & nd & v & Hn & Hv & Ee).
    unfold cbind at 1. unfold cbind at 1. rewrite E2. cbn [negb Z.eqb MDB_SUCCESS]. cstep Et2.
    rewrite (lo_leaf _ _ _ _ _ Hmp2). cbn [negb]. unfold clift, cbind at 1.
    pose proof (pr_ptr _ _ (lo_rep _ _ _ _ _ Hmp2) _ _ _ Hn) as Hptr. change (Z.of_nat 0) with 0 in Hptr. rewrite Hptr.
    unfold cret at 1. rewrite (set1_ok op false k want s2 path' p' ns' ds' 0 e ofs nd) by done.
    eexists _, _. split; [done|]. left. destruct Hf1 as (_ & F2 & F3 & _), Hf2 as (_ & G2 & G3 & _).
    exists (before tr path'), e, (r' ++ after tr path'). split; [by apply at_item_flags|]. do 3 (split; [done|]).
    split; [cbn; congruence|]. split; [cbn; congruence|].
    pose proof (items_split tr path' _ (op_sub _ _ _ _ H2)) as S2. cbn [items] in S2.
    rewrite Hsp, Hm2, !app_assoc in S2. apply app_inv_tail in S2. apply app_inv_tail in S2. split.
    + apply Z.lt_le_incl, Haft. rewrite Hm2, Ei. cbn. by left.
    + intros x Hxx. rewrite <- S2 in Hxx. by apply Hsmall.
  - unfold cbind at 1. unfold cbind at 1. rewrite E2. eexists _, s1. split; [done|]. right. split; [done|]. split; [done|].
    split; [by exists path, p, ns, ds, (Z.of_nat r)|]. left. intros x Hxx. rewrite Hsp, Hat, app_nil_r in Hxx. by apply Hsmall.
Qed.
Lemma on_page_ok op exactp k want s path p ns ds i :
  on_path s path (TLeaf p ns ds) i -> reaches (KKey k) path -> cs_cmp s = CmpMemn -> lenZ k < 2 ^ 32 ->
  set_op op exactp ->
  exists res s', (let! r := set2 k exactp in match r with inl rc => cret (rc, None) | inr leaf => set1 op k want leaf end) s
    = Done (res, s') /\ (set_found exactp k want s res s' \/ set_missing exactp k s res s').
Proof.
  intros H Hre Hc Hk Hop.
  destruct (leaf_placed s path p ns ds i k H Hre Hc Hk) as (s1 & r & ex & E & H1 & Hf1 & Hr & Hpl).
  unfold set2. unfold cbind at 1. unfold cbind at 1. rewrite E. cbn iota beta.
  destruct (exactp && negb ex) eqn:Ex.
  - apply andb_prop in Ex as [-> Ex]. apply negb_true_iff in Ex. subst ex.
    unfold cret. eexists _, s1. split; [done|]. right. split; [done|]. split; [done|].
    split; [by exists path, p, ns, ds, (Z.of_nat r)|]. rewrite (placed_items _ _ _ _ _ _ r H), fmap_app.
    intros [Hx|Hx]%elem_of_app; [apply (pl_small _ _ _ _ _ _ Hpl) in Hx|apply (pl_big _ _ _ _ _ _ Hpl eq_refl) in Hx];
      rewrite lex_refl in Hx; lia.
  - assert (Hx : exactp = true -> ex = true) by (intros ->; by destruct ex).
    destruct (ns !! r) as [[ofs nd]|] eqn:Hn; cbn [fmap option_fmap option_map fst].
    + destruct (found_here op exactp k want s s1 path p ns ds r ex ofs nd) as (res & s' & E' & Hres); try done.
      unfold cret at 1. rewrite E'. exists res, s'. split; [done|]. by left.
    + apply lookup_ge_None_1 in Hn. pose proof (pl_here _ _ _ _ _ _ Hpl) as Hex.
      assert (ex = false) as -> by (destruct ex; [lia|done]). assert (exactp = false) as -> by (destruct exactp; naive_solver).
      by apply (found_next op k want s s1 path p ns ds r).
Qed.

(** *** A cursor that is already on a page *)
Lemma compare_at_ok s path p ns ds mp i (j : nat) e k :
  on_path s path (TLeaf p ns ds) i -> leaf_ok t p ns ds mp -> leaf_items ns ds !! j = Some e ->
  cs_cmp s = CmpMemn -> lenZ k < 2 ^ 32 -> compare_at k mp (Z.of_nat j) s = Done (lex k e.1, s).
Proof.
  intros H Hm He Hc Hk. unfold compare_at, cget, cbind at 1.
  change (F_ISSET (mp_flags mp) P_LEAF2) with (IS_LEAF2 mp). rewrite (pr_kind _ _ (lo_rep _ _ _ _ _ Hm)).
  pose proof (lookup_lt_Some _ _ _ He) as Hj. destruct (leaf_items_len _ _ _ _ _ _ H) as [Hl _].
  destruct (page_key_read mp ns (Z.of_nat j) (lo_rep _ _ _ _ _ Hm)) as [Hkey Hkl]; [unfold lenZ; lia|].
  unfold cbind, clift. rewrite Hkey, Hc. cbn [run_cmp]. rewrite (leaf_key _ _ _ _ He). by rewrite mdb_cmp_memn_lex by lia.
Qed.
Lemma right_sibs_ok s path c i n k :
  on_path s path c i -> (n + k = length path)%nat ->
  exists b, right_sibs n (Z.of_nat k) s = Done (b, s) /\
    (b = false -> forall j x p ns cs, (k <= j)%nat -> path !! j = Some x ->
       subtree tr (take j path) = Some (TBranch p ns cs) -> (length cs <= S x)%nat).
Proof.
  intros H. revert k. induction n as [|n IH]; intros k Hk.
  - exists false. split; [done|]. intros _ j x p ns cs Hj Hx. pose proof (lookup_lt_Some _ _ _ Hx). lia.
  - destruct (lookup_lt_is_Some_2 path k) as [x Hx]; [lia|]. cbn [right_sibs].
    unfold read_ki at 1, cbind at 1. rewrite (get_lookup _ _ _ (op_ki _ _ _ _ H _ _ Hx)). cbn [obind].
    assert (Hb : exists p ns cs mp, subtree tr (take k path) = Some (TBranch p ns cs) /\ branch_ok t p ns cs mp).
    { pose proof (op_sub _ _ _ _ H) as Hs. rewrite <- (take_drop k path), subtree_app in Hs.
      destruct (subtree tr (take k path)) as [e|] eqn:Es; [|done].
      destruct (subtree_ok t d tr _ _ Htr Es) as [_ Hok]. rewrite (drop_S _ _ _ Hx) in Hs. cbn [subtree] in Hs.
      destruct e as [|p ns cs]; [done|]. destruct (d - length (take k path))%nat; [done|].
      destruct Hok as [[mp Hm] _]. by exists p, ns, cs, mp. }
    destruct Hb as (p & ns & cs & mp & Hsk & Hm).
    unfold read_page, read_pg, cbind at 1. unfold cbind at 1.
    rewrite (get_lookup _ _ _ (op_pg _ _ _ _ H k _ Hsk ltac:(lia))). cbn [obind tref].
    rewrite (op_txn _ _ _ _ H), (bo_page _ _ _ _ _ Hm). cbn [obind].
    rewrite (NUMKEYS_rep _ _ (bo_rep _ _ _ _ _ Hm)). pose proof (bo_len _ _ _ _ _ Hm) as Hlen.
    destruct (Z.ltb_spec (Z.of_nat x) (lenZ ns - 1)) as [Hlt|Hge]; [by exists true|].
    destruct (IH (S k) ltac:(lia)) as (b & E & Hb). replace (Z.of_nat k + 1) with (Z.of_nat (S k)) by lia.
    exists b. split; [done|]. intros Eb j x' p' ns' cs' Hj Hx' Hs'.
    destruct (decide (j = k)) as [->|Hne]; [|by apply (Hb Eb j x' p' ns' cs'); [lia|..]].
    rewrite Hx in Hx'. injection Hx' as <-. rewrite Hsk in Hs'. injection Hs' as <- <- <-. unfold lenZ in Hge. lia.
Qed.

Definition way_ok (k : bytes) (path : list nat) (p : pref) (ns : list (Z * pnode)) (ds : list bytes)
    (way : shortcut) (s' : cstate) : Prop :=
  match way with
  | GotoSet1 => exists i e, on_path s' path (TLeaf p ns ds) (Z.of_nat i) /\ leaf_items ns ds !! i = Some e /\ e.1 = k
  | GotoSet2 => (exists i, on_path s' path (TLeaf p ns ds) i) /\ reaches (KKey k) path /\
      (exists x, x ∈ (items tr).*1 /\ lex x k <= 0)
  | Stop => (exists i, on_path s' path (TLeaf p ns ds) i) /\
      ((forall x, x ∈ (items tr).*1 -> lex x k < 0) \/ d = 0%nat /\ (forall x, x ∈ (items tr).*1 -> lex k x < 0))
  | Search => (exists i, on_path s' path (TLeaf p ns ds) i) /\ d <> 0%nat
  end.
(** The keys around a leaf, from its first and its last one. *)
Lemma around_leaf s path p ns ds i e1 e2 :
  on_path s path (TLeaf p ns ds) i -> leaf_items ns ds !! 0%nat = Some e1 ->
  leaf_items ns ds !! (length ns - 1)%nat = Some e2 ->
  (forall x, x ∈ (before tr path).*1 -> lex x e1.1 < 0) /\ (forall x, x ∈ (after tr path).*1 -> lex e2.1 x < 0) /\
  (forall x, x ∈ (leaf_items ns ds).*1 -> lex e1.1 x <= 0 /\ lex x e2.1 <= 0).
Proof.
  intros H H1 H2. pose proof (items_sorted t d tr Htr) as Hs. rewrite (items_split tr path _ (op_sub _ _ _ _ H)) in Hs.
  cbn [items] in Hs. apply sorted_app_inv in Hs as (_ & Hs & Hba). apply sorted_app_inv in Hs as (Hl & _ & Hla).
  assert (E1 : e1.1 ∈ (leaf_items ns ds).*1) by (eapply list_elem_of_lookup_2; by rewrite list_lookup_fmap, H1).
  assert (E2 : e2.1 ∈ (leaf_items ns ds).*1) by (eapply list_elem_of_lookup_2; by rewrite list_lookup_fmap, H2).
  destruct (leaf_items_len _ _ _ _ _ _ H) as [Hlen _].
  split; [intros x Hx; apply Hba; [done|]; rewrite fmap_app; apply elem_of_app; by left|].
  split; [intros x Hx; by apply Hla|]. intros x Hx. apply list_elem_of_lookup_1 in Hx as (j & Hj).
  rewrite list_lookup_fmap in Hj. apply fmap_Some in Hj as (e & Hj & ->). pose proof (lookup_lt_Some _ _ _ Hj) as Hjl.
  assert (Hlt : forall a b ea eb, (a < b)%nat -> leaf_items ns ds !! a = Some ea -> leaf_items ns ds !! b = Some eb -> lex ea.1 eb.1 < 0).
  { intros a b ea eb Hab Ha Hb. rewrite <- (take_drop b (leaf_items ns ds)) in Hl.
    apply sorted_app_inv in Hl as (_ & _ & Hc). apply Hc.
    - eapply (list_elem_of_lookup_2 _ a). by rewrite list_lookup_fmap, lookup_take_lt, Ha.
    - eapply (list_elem_of_lookup_2 _ 0%nat). by rewrite list_lookup_fmap, lookup_drop, Nat.add_0_r, Hb. }
  split.
  - destruct (decide (j = 0%nat)) as [->|]; [rewrite H1 in Hj; injection Hj as ->; by rewrite lex_refl|].
    apply Z.lt_le_incl, (Hlt 0%nat j); [lia|done|done].
  - destruct (decide (j = length ns - 1)%nat) as [->|]; [rewrite H2 in Hj; injection Hj as ->; by rewrite lex_refl|].
    apply Z.lt_le_incl, (Hlt j (length ns - 1)%nat); [lia|done|done].
Qed.

(** The end of the shortcut: a tree of one page has no place for [k]. *)
Lemma only_page_ok s path p ns ds i k :
  on_path s path (TLeaf p ns ds) i ->
  (lenZ path = 0 -> (forall x, x ∈ (items tr).*1 -> lex x k < 0) \/
                    d = 0%nat /\ (forall x, x ∈ (items tr).*1 -> lex k x < 0)) ->
  exists way s', (if lenZ path =? 0 then do! set_top_ki 0 in cret Stop else cret Search) s = Done (way, s') /\
    frame s s' /\ way_ok k path p ns ds way s'.
Proof.
  intros H Hno. destruct (Z.eqb_spec (lenZ path) 0) as [Hz|Hz].
  - destruct (set_top_ki_path s path _ _ 0 H ltac:(lia)) as (s1 & E1 & H1 & Hf1). unfold cbind. rewrite E1. exists Stop, s1.
    do 2 (split; [done|]). split; [by eexists|by apply Hno].
  - exists Search, s. do 2 (split; [done|]). split; [by exists i|]. pose proof (path_len _ _ _ _ H). unfold lenZ in Hz. lia.
Qed.
(** [k] is behind the last key of the page. *)
Lemma past_page_ok s path p ns ds i k e1 e2 :
  on_path s path (TLeaf p ns ds) i -> leaf_items ns ds !! 0%nat = Some e1 ->
  leaf_items ns ds !! (length ns - 1)%nat = Some e2 -> lex e1.1 k < 0 -> lex e2.1 k < 0 ->
  exists way s', (let! sibs := right_sibs (Z.to_nat (lenZ path)) 0 in
      if sibs : bool then (if lenZ path =? 0 then do! set_top_ki 0 in cret Stop else cret Search)
      else do! set_top_ki (Z.of_nat (length ns)) in cret Stop) s = Done (way, s') /\
    frame s s' /\ way_ok k path p ns ds way s'.
Proof.
  intros H He1 He2 Hfirst Hlast. destruct (around_leaf s path p ns ds i e1 e2 H He1 He2) as (Hb & _ & Hin).
  destruct (leaf_items_len _ _ _ _ _ _ H) as [_ Hn]. unfold lenZ in Hn.
  unfold lenZ at 1. rewrite Nat2Z.id. change 0 with (Z.of_nat 0) at 1.
  destruct (right_sibs_ok s path _ i (length path) 0 H ltac:(lia)) as (b & Eb & Hsib). cstep Eb.
  assert (Hall : after tr path = [] -> forall x, x ∈ (items tr).*1 -> lex x k < 0).
  { intros Haf x. rewrite (items_split tr path _ (op_sub _ _ _ _ H)), Haf, app_nil_r, fmap_app. intros [Hx|Hx]%elem_of_app.
    - eapply lex_trans; [apply Z.lt_le_incl, Hb, Hx|]. done.
    - eapply lex_trans; [apply (proj2 (Hin x Hx))|]. done. }
  destruct b.
  - apply (only_page_ok s path p ns ds i k H). intros Hz. apply lenZ_zero_nil in Hz. left. apply Hall. by rewrite Hz.
  - destruct (set_top_ki_path s path _ _ (Z.of_nat (length ns)) H ltac:(lia)) as (s1 & E1 & H1 & Hf1). unfold cbind. rewrite E1.
    exists Stop, s1. do 2 (split; [done|]). split; [by eexists|]. left. apply Hall.
    eapply all_last; [apply (op_sub _ _ _ _ H)|]. intros j x p' ns' cs' Hj Hs'. eapply (Hsib eq_refl j); [lia|done|done].
Qed.
(** [k] is between the first and the last key of the page. *)
Lemma within_page_ok s path p ns ds mp i k e1 e2 :
  on_path s path (TLeaf p ns ds) i -> leaf_ok t p ns ds mp -> cs_cmp s = CmpMemn -> lenZ k < 2 ^ 32 ->
  leaf_items ns ds !! 0%nat = Some e1 -> leaf_items ns ds !! (length ns - 1)%nat = Some e2 ->
  lex e1.1 k < 0 -> lex k e2.1 < 0 ->
  exists way s', (let! i := top_ki in
      if i <? Z.of_nat (length ns) then
        let! rc := compare_at k mp i in cret (if rc =? 0 then GotoSet1 else GotoSet2)
      else cret GotoSet2) s = Done (way, s') /\ frame s s' /\ way_ok k path p ns ds way s'.
Proof.
  intros H Hm Hc Hk He1 He2 Hfirst Hlast. destruct (around_leaf s path p ns ds i e1 e2 H He1 He2) as (Hb & Ha & _).
  destruct (leaf_items_len _ _ _ _ _ _ H) as [Hl _].
  assert (Hset2 : way_ok k path p ns ds GotoSet2 s).
  { split; [by exists i|]. split; [split; intros x Hx|exists e1.1; split; [|lia]].
    - eapply lex_trans; [apply Z.lt_le_incl, Hb, Hx|]. done.
    - eapply lex_trans; [apply Z.lt_le_incl, Hlast|by apply Ha].
    - rewrite (items_split tr path _ (op_sub _ _ _ _ H)), !fmap_app. apply elem_of_app. right. apply elem_of_app. left.
      eapply list_elem_of_lookup_2. cbn [items]. by rewrite list_lookup_fmap, He1. }
  cstep (top_ki_path _ _ _ _ H). pose proof (ti_nonneg _ _ _ _ H) as Hi0.
  destruct (Z.ltb_spec i (Z.of_nat (length ns))) as [Hi|Hi]; [|by exists GotoSet2, s].
  destruct (lookup_lt_is_Some_2 (leaf_items ns ds) (Z.to_nat i)) as [e He]; [lia|].
  pose proof (compare_at_ok s path p ns ds mp i (Z.to_nat i) e k H Hm He Hc Hk) as Ec. rewrite Z2Nat.id in Ec by lia.
  cstep Ec. destruct (Z.eqb_spec (lex k e.1) 0) as [E3|E3]; [|by exists GotoSet2, s].
  exists GotoSet1, s. do 2 (split; [done|]). exists (Z.to_nat i), e. rewrite Z2Nat.id by lia. apply lex_zero in E3. done.
Qed.
(** [k] is before the first key of the only page. *)
Lemma before_page s path p ns ds i k e1 e2 :
  on_path s path (TLeaf p ns ds) i -> leaf_items ns ds !! 0%nat = Some e1 ->
  leaf_items ns ds !! (length ns - 1)%nat = Some e2 -> lex k e1.1 < 0 -> lenZ path = 0 ->
  d = 0%nat /\ (forall x, x ∈ (items tr).*1 -> lex k x < 0).
Proof.
  intros H He1 He2 Hlt Hz. destruct (around_leaf s path p ns ds i e1 e2 H He1 He2) as (_ & _ & Hin).
  pose proof (path_ok _ _ _ _ H) as Hok. apply lenZ_zero_nil in Hz.
  subst path. cbn [length] in Hok. rewrite Nat.sub_0_r in Hok. split; [by destruct d|].
  intros x. rewrite (items_split tr [] _ (op_sub _ _ _ _ H)), !fmap_app. cbn [before after].
  intros [Hx|[Hx|Hx]%elem_of_app]%elem_of_app; [by apply not_elem_of_nil in Hx| |by apply not_elem_of_nil in Hx].
  eapply lex_trans'; [|apply (proj1 (Hin x Hx))]. lia.
Qed.
Lemma already_there_ok s path p ns ds i k :
  on_path s path (TLeaf p ns ds) i -> cs_cmp s = CmpMemn -> lenZ k < 2 ^ 32 ->
  exists way s', already_there k s = Done (way, s') /\ frame s s' /\ way_ok k path p ns ds way s'.
Proof.
  intros H Hc Hk. destruct (leaf_at _ _ _ _ _ _ H) as (mp & Hm & Et). destruct (leaf_items_len _ _ _ _ _ _ H) as [Hl Hn].
  unfold lenZ in Hn. destruct (lookup_lt_is_Some_2 (leaf_items ns ds) 0) as [e1 He1]; [lia|].
  destruct (lookup_lt_is_Some_2 (leaf_items ns ds) (length ns - 1)) as [e2 He2]; [lia|].
  pose proof (NUMKEYS_rep _ _ (lo_rep _ _ _ _ _ Hm)) as HN. unfold lenZ in HN.
  unfold already_there. cstep Et. rewrite HN, (proj2 (Z.eqb_neq _ 0)) by lia.
  unfold cbind at 1. change 0 with (Z.of_nat 0) at 1. rewrite (compare_at_ok s path p ns ds mp i 0 e1 k H Hm He1 Hc Hk).
  assert (Hset1 : forall (j : nat) e, leaf_items ns ds !! j = Some e -> lex k e.1 = 0 -> (j < length ns)%nat ->
    exists way s', (do! set_top_ki (Z.of_nat j) in cret GotoSet1) s = Done (way, s') /\ frame s s' /\ way_ok k path p ns ds way s').
  { intros j e He E%lex_zero Hj. destruct (set_top_ki_path s path _ _ (Z.of_nat j) H ltac:(lia)) as (s1 & E1 & H1 & Hf1).
    unfold cbind. rewrite E1. exists GotoSet1, s1. do 2 (split; [done|]). by exists j, e. }
  destruct (Z.eqb_spec (lex k e1.1) 0) as [E0|E0]; [apply (Hset1 0%nat e1 He1 E0); lia|].
  unfold top at 1. unfold cbind at 1. rewrite (op_top _ _ _ _ H).
  destruct (Z.ltb_spec 0 (lex k e1.1)) as [Hgt%lex_sym|Hle].
  2: { apply (only_page_ok s path p ns ds i k H). intros Hz. right. eapply before_page; try done. lia. }
  destruct (Z.ltb_spec 1 (Z.of_nat (length ns))) as [H1n|H1n].
  - unfold cbind at 1. replace (Z.of_nat (length ns) - 1) with (Z.of_nat (length ns - 1)) by lia.
    rewrite (compare_at_ok s path p ns ds mp i _ e2 k H Hm He2 Hc Hk).
    destruct (Z.eqb_spec (lex k e2.1) 0) as [E2|E2]; [apply (Hset1 _ e2 He2 E2); lia|].
    destruct (Z.ltb_spec (lex k e2.1) 0) as [H2|H2]; [by eapply within_page_ok|].
    eapply past_page_ok; try done. apply lex_sym. lia.
  - eapply past_page_ok; try done. replace (length ns - 1)%nat with 0%nat in He2 by lia. rewrite He1 in He2.
    by injection He2 as <-.
Qed.
(** A search in a range that fails on a one-page database does not find an
    entry instead. *)
Definition no_gap (exactp : bool) (k : bytes) (s : cstate) : Prop :=
  exactp = true \/ mc_init (cs_mc s) = false \/ d <> 0%nat \/ exists x, x ∈ (items tr).*1 /\ lex x k <= 0.
Lemma set_ends_frame exactp k want s s1 res s' :
  frame s s1 -> no_gap exactp k s -> (set_found exactp k want s1 res s' \/ set_missing exactp k s1 res s') ->
  set_found exactp k want s res s' /\ no_gap exactp k s \/ set_missing exactp k s res s'.
Proof.
  intros Hf Hg [(l & e & r & H1 & H2 & H3 & H4 & H5 & H6 & H7)|(H1 & H2 & H3 & H4)].
  - left. split; [|done]. exists l, e, r. destruct Hf as (_ & F2 & F3 & _). do 4 (split; [done|]).
    split; [congruence|]. split; [congruence|done].
  - right. split; [done|]. split; [by etrans|]. split; [done|]. destruct exactp; [done|].
    destruct Hf as (_ & _ & _ & F4 & _). by rewrite <- F4.
Qed.
Lemma set_search_ok op exactp k want s s1 :
  ready s1 -> frame s s1 -> cs_cmp s = CmpMemn -> lenZ k < 2 ^ 32 -> set_op op exactp -> no_gap exactp k s ->
  exists res s', (let! rc := mdb_page_search no_touch (KKey k) false false in
      if negb (rc =? MDB_SUCCESS) then cret (rc, None)
      else let! mp := top_page in
        if negb (IS_LEAF mp) then cfault AssertFailed
        else let! r := set2 k exactp in match r with inl rc => cret (rc, None) | inr leaf => set1 op k want leaf end) s1
    = Done (res, s') /\ (set_found exactp k want s res s' /\ no_gap exactp k s \/ set_missing exactp k s res s').
Proof.
  intros Hr1 Hf1 Hc Hk Hop Hg. destruct (page_search_ok no_touch (KKey k) s1 Hr1 Hk)
    as (s2 & path & p & ns & ds & j & E2 & H2 & Hre & Hf2). cstep E2. cbn [negb Z.eqb MDB_SUCCESS].
  destruct (leaf_at _ _ _ _ _ _ H2) as (mp & Hm & Et). cstep Et. rewrite (lo_leaf _ _ _ _ _ Hm). cbn [negb].
  destruct (on_page_ok op exactp k want s2 path p ns ds j H2 Hre) as (res & s' & E & Hres); [|done|done|].
  { destruct Hf1 as (_ & _ & F3 & _), Hf2 as (_ & _ & G3 & _). congruence. }
  exists res, s'. split; [done|]. apply (set_ends_frame _ _ _ _ s2); [by etrans|done|done].
Qed.
(** The shortcut found the key on the page. *)
Lemma set_here_ok op exactp k want s path p ns ds (j : nat) e :
  on_path s path (TLeaf p ns ds) (Z.of_nat j) -> leaf_items ns ds !! j = Some e -> e.1 = k -> set_op op exactp ->
  exists res s', (let! mp := top_page in
      let! i := top_ki in
      let! leaf := (if IS_LEAF2 mp then cret 0 else clift (mp_ptr (mp_raw mp) i)) in
      set1 op k want leaf) s = Done (res, s') /\ set_found exactp k want s res s' /\
    exists x, x ∈ (items tr).*1 /\ lex x k <= 0.
Proof.
  intros H He Hek Hop. destruct (leaf_at _ _ _ _ _ _ H) as (mp & Hm & Et). cstep Et.
  cstep (top_ki_path _ _ _ _ H). rewrite (pr_kind _ _ (lo_rep _ _ _ _ _ Hm)).
  destruct (leaf_item _ _ _ _ He) as (ofs & nd & v & Hn & _ & Ee).
  unfold clift, cbind at 1. rewrite (pr_ptr _ _ (lo_rep _ _ _ _ _ Hm) _ _ _ Hn).
  rewrite (set1_ok op exactp k want s path p ns ds j e ofs nd) by done. eexists _, _. split; [done|].
  assert (Hat : at_item s (before tr path ++ take j (leaf_items ns ds)) e (drop (S j) (leaf_items ns ds) ++ after tr path))
    by (by exists path, p, ns, ds, j).
  pose proof (at_item_split _ _ _ _ Hat) as Hsp. split.
  - eexists _, e, _. split; [apply at_item_flags; exact Hat|].
    do 5 (split; [done|]). destruct exactp; [done|]. rewrite Hek, lex_refl. split; [lia|].
    intros x Hx. rewrite <- Hek. pose proof (items_sorted t d tr Htr) as Hs.
    rewrite Hsp in Hs. apply sorted_app_inv in Hs as (_ & _ & Hcr). apply Hcr; [done|by left].
  - exists e.1. rewrite Hek, lex_refl. split; [|lia]. rewrite <- Hek, Hsp, fmap_app. set_solver.
Qed.
Lemma set_ok op exactp k want s :
  ready s -> (mc_init (cs_mc s) = true -> parked false s) -> 0 < lenZ k < 2 ^ 32 -> set_op op exactp ->
  exists res s', mdb_cursor_set op k want exactp s = Done (res, s') /\
    (set_found exactp k want s res s' /\ no_gap exactp k s \/ set_missing exactp k s res s').
Proof.
  intros Hr Hpk Hk Hop. unfold mdb_cursor_set. rewrite (proj2 (Z.leb_gt _ 0)) by lia. unfold cget, cbind at 1.
  pose proof (rd_cmp _ Hr) as Hc. destruct (mc_init (cs_mc s)) eqn:Hin.
  2: { apply set_search_ok; try done; [lia|]. by right; left. }
  destruct (Hpk eq_refl) as (path & p & ns & ds & i & H & _).
  destruct (already_there_ok s path p ns ds i k H Hc ltac:(lia)) as (way & s1 & E1 & Hf1 & Hw). cstep E1.
  pose proof Hf1 as (F1 & F2 & F3 & F4 & _). destruct way; cbn [way_ok] in Hw.
  - destruct Hw as (j & e & H1 & He & Hek).
    destruct (set_here_ok op exactp k want s1 path p ns ds j e H1 He Hek Hop) as (res & s' & E & Hfound & Hx).
    exists res, s'. split; [done|]. apply (set_ends_frame _ _ _ _ s1); [done|by right; right; right|by left].
  - destruct Hw as ((j & H1) & Hre & Hx).
    destruct (on_page_ok op exactp k want s1 path p ns ds j H1 Hre) as (res & s' & E & Hres); [congruence|lia|done|].
    exists res, s'. split; [done|]. apply (set_ends_frame _ _ _ _ s1); [done|by right; right; right|done].
  - destruct Hw as [(j & H1) Hno]. eexists _, s1. split; [done|]. right. split; [done|].
    split; [done|]. split; [by exists path, p, ns, ds, j|]. destruct exactp.
    + intros Hx. destruct Hno as [Hno|[_ Hno]]; specialize (Hno k Hx); rewrite lex_refl in Hno; lia.
    + destruct Hno as [Hno|[Hd0 Hno]]; [by left|right]. split; [congruence|done].
  - destruct Hw as ((j & H1) & Hd0). apply set_search_ok; try done; [|lia|by right; right; left].
    by eapply (ready_path s s1 path).
Qed.
End stack.
