(* ===== verification/Walk.v ===== *)
(** * Walk: a cursor is a position in the sorted list of entries

    The abstract view of a cursor: the list of the entries of the database with
    a place in it.  [zstep] says what every operation of [mdb_cursor_get]
    answers and where it leaves the cursor; the places where the code leaves a
    cursor without a defined position are explicit ([ZLost]), and the few
    operations whose answer then depends on leftovers are undefined ([None]).
    [MDB_SET_RANGE] is the search lmdb.h documents, for the first key greater
    than or equal to the given one; the one place where the code does not do
    that ([range_gap]) is outside the view, and [range_search_misses] says
    what happens there.
    Runs of the code on the pages of a tree are shown to follow this view, and
    [mdb_get] to be the lookup in the map of the entries. *)
From S2P Require Import Prelude.
From S2P Require Import Lmdb Midl.
From S2P Require Import Pages LeafMap Cursor Tree.

Abbreviation entry := (bytes * bytes)%type.

(** ** The abstract cursor *)
Inductive zpos :=
  | ZOff (eof : bool)                                    (* on no entry *)
  | ZOn (l : list entry) (e : entry) (r : list entry) (eof : bool)
  | ZLost (init eof : bool).                             (* after a search that failed *)
Definition zinit (z : zpos) : bool := match z with ZOff _ => false | ZOn _ _ _ _ => true | ZLost i _ => i end.
Definition zeof (z : zpos) : bool := match z with ZOff f | ZOn _ _ _ f | ZLost _ f => f end.

Abbreviation zresult := (option ((Z * option item) * zpos)).
Definition answer (want : bool) (e : entry) (z : zpos) : zresult := Some ((MDB_SUCCESS, Some (out_item want e)), z).
Definition refuse (rc : Z) (z : zpos) : zresult := Some ((rc, None), z).

Section zipper.
(** The entries, and whether they are all on one page. *)
Variable es : list entry.
Variable single : bool.

Definition zfirst (want : bool) : zresult :=
  match es with [] => None | e :: r => answer want e (ZOn [] e r false) end.
Definition zlast (want eof : bool) : zresult :=
  match rev es with [] => None | e :: l => answer want e (ZOn (rev l) e [] eof) end.
Definition zset (P : entry -> Prop) `{forall x, Decision (P x)} (want : bool) (z : zpos) : zresult :=
  match list_find P es with
  | Some (i, e) => answer want e (ZOn (take i es) e (drop (S i) es) false)
  | None => refuse MDB_NOTFOUND (ZLost (zinit z) (zeof z))
  end.
Definition key_ok (k : bytes) : bool := negb ((lenZ k =? 0) || (MDB_MAXKEYSIZE <? lenZ k)).
(** The key is before every entry of a one-page database and the cursor is
    already on that page: the code gives up there instead of taking the first
    entry, so the abstract cursor says nothing of it. *)
Definition range_gap (k : bytes) (z : zpos) : bool :=
  zinit z && single && forallb (fun e => lex k e.1 <? 0) es.

Definition zstep (op : MDB_cursor_op) (key : option bytes) (want : bool) (z : zpos) : zresult :=
  match op with
  | MDB_FIRST => zfirst want
  | MDB_LAST => match z with ZLost _ true => None | _ => zlast want true end
  | MDB_NEXT | MDB_NEXT_DUP | MDB_NEXT_NODUP =>
      match z with
      | ZOff _ | ZLost false _ => zfirst want
      | ZOn l e r true => refuse MDB_NOTFOUND z
      | ZOn l e [] false => refuse MDB_NOTFOUND (ZOff true)
      | ZOn l e (e' :: r) false => answer want e' (ZOn (l ++ [e]) e' r false)
      | ZLost true _ => None
      end
  | MDB_PREV | MDB_PREV_DUP | MDB_PREV_NODUP =>
      match z with
      | ZOff _ | ZLost false false => zlast want false
      | ZOn l e r eof =>
          match rev l with
          | [] => refuse MDB_NOTFOUND (ZOff eof)
          | e' :: l' => answer want e' (ZOn (rev l') e' (e :: r) false)
          end
      | ZLost _ _ => None
      end
  | MDB_SET | MDB_SET_KEY | MDB_SET_RANGE =>
      match key with
      | None => refuse EINVAL z
      | Some k =>
          if negb (key_ok k) then refuse EINVAL z
          else if bool_decide (op = MDB_SET_RANGE) then
            if range_gap k z then None
            else zset (fun e => lex k e.1 <= 0) want z
          else zset (fun e => e.1 = k) want z
      end
  | MDB_GET_CURRENT =>
      match z with
      | ZOff _ | ZLost false _ => refuse EINVAL z
      | ZOn _ e _ _ => answer want e z
      | ZLost true _ => None
      end
  | MDB_GET_BOTH | MDB_GET_BOTH_RANGE | MDB_GET_MULTIPLE | MDB_NEXT_MULTIPLE | MDB_FIRST_DUP | MDB_LAST_DUP =>
      refuse EINVAL z
  end.
End zipper.

Record call := { c_op : MDB_cursor_op; c_key : option bytes; c_want : bool }.
Fixpoint zrun (es : list entry) (single : bool) (cs : list call) (z : zpos) : option (list (Z * option item) * zpos) :=
  match cs with
  | [] => Some ([], z)
  | c :: cs =>
      match zstep es single (c_op c) (c_key c) (c_want c) z with
      | None => None
      | Some (o, z) => match zrun es single cs z with None => None | Some (os, z) => Some (o :: os, z) end
      end
  end.
Fixpoint crun (cs : list call) : CM cstate (list (Z * option item)) :=
  match cs with
  | [] => cret []
  | c :: cs =>
      let! o := mdb_cursor_get (c_op c) (c_key c) (c_want c) in
      let! os := crun cs in cret (o :: os)
  end.

(** ** Lemmas *)
Lemma find_here (l : list entry) e r k :
  ksorted (l ++ e :: r) -> e.1 = k -> list_find (fun x => x.1 = k) (l ++ e :: r) = Some (length l, e).
Proof.
  intros Hs He. apply list_find_Some. split; [by rewrite lookup_app_r, Nat.sub_diag by lia|]. split; [done|].
  intros j y Hj Hlt Hy. rewrite lookup_app_l in Hj by done. apply sorted_app_inv in Hs as (_ & _ & Hc).
  assert (klt y.1 e.1) as Hk.
  { apply Hc; [|by left]. apply list_elem_of_fmap. exists y. split; [done|]. by eapply list_elem_of_lookup_2. }
  apply lex_ne in Hk. congruence.
Qed.
Lemma find_range (l : list entry) e r k :
  lex k e.1 <= 0 -> (forall x, x ∈ l.*1 -> lex x k < 0) ->
  list_find (fun x => lex k x.1 <= 0) (l ++ e :: r) = Some (length l, e).
Proof.
  intros He Hl. apply list_find_Some. split; [by rewrite lookup_app_r, Nat.sub_diag by lia|]. split; [done|].
  intros j y Hj Hlt Hy. rewrite lookup_app_l in Hj by done.
  assert (lex y.1 k < 0) as Hk.
  { apply Hl. apply list_elem_of_fmap. exists y. split; [done|]. by eapply list_elem_of_lookup_2. }
  apply lex_sym in Hk. lia.
Qed.
Lemma find_none (es : list entry) (P : entry -> Prop) `{forall x, Decision (P x)} :
  (forall e, e ∈ es -> ~ P e) -> list_find P es = None.
Proof. intros Hn. apply list_find_None. apply Forall_forall. exact Hn. Qed.
Lemma key_ok_len k : key_ok k = true -> 0 < lenZ k < 2 ^ 32.
Proof.
  unfold key_ok, MDB_MAXKEYSIZE. intros Hk. apply negb_true_iff, orb_false_iff in Hk as [Hk0%Z.eqb_neq Hk1%Z.ltb_ge]. lens.
Qed.
Lemma in_keys (es : list entry) e : e ∈ es -> e.1 ∈ es.*1.
Proof. intros. apply list_elem_of_fmap. by exists e. Qed.

Section refine.
Context (t : ptxn) (tr : tree) (d : nat) (Htr : tree_ok t d tr) (Hd : (d < 32)%nat).
Abbreviation es := (items tr).
Abbreviation single := (d =? 0)%nat.

(** The cursor is where the abstract one is. *)
Definition zrel (s : cstate) (z : zpos) : Prop :=
  ready t tr s /\ mc_init (cs_mc s) = zinit z /\ mc_eof (cs_mc s) = zeof z /\
  match z with
  | ZOff eof => eof = true -> parked t tr true s
  | ZOn l e r eof => at_item t tr s l e r /\ (eof = true -> r = [])
  | ZLost init eof => init = true -> parked t tr false s
  end.

Lemma ready_item s s' l e r :
  ready t tr s -> cs_db s' = cs_db s -> cs_cmp s' = cs_cmp s -> at_item t tr s' l e r -> ready t tr s'.
Proof. intros Hr H1 H2 (path & p & ns & ds & i & H & _). by eapply ready_path. Qed.
Lemma item_parked s l e r last : at_item t tr s l e r -> (last = true -> r = []) -> parked t tr last s.
Proof.
  intros (path & p & ns & ds & i & H & _ & _ & Hr) Hl. exists path, p, ns, ds, (Z.of_nat i). split; [done|].
  intros Hx. specialize (Hl Hx). rewrite Hl in Hr. by destruct (drop _ _), (after tr path).
Qed.
Lemma zrel_parked s z last :
  zrel s z -> (last = true -> exists l e r, z = ZOn l e r true \/ z = ZOff true) ->
  mc_init (cs_mc s) = true \/ last = true -> parked t tr last s.
Proof.
  intros (_ & Hi & He & Hz) Hl Hor. destruct z as [eof|l e r eof|init eof]; cbn in *.
  - destruct Hor as [Hor|Hor]; [congruence|]. destruct (Hl Hor) as (? & ? & ? & [?|[= ->]]); [done|]. subst last. by apply Hz.
  - destruct Hz as [Hat Hr]. apply (item_parked s l e r last Hat). intros Hx.
    destruct (Hl Hx) as (? & ? & ? & [[= -> -> -> ->]|?]); [by apply Hr|done].
  - destruct last; [by destruct (Hl eq_refl) as (? & ? & ? & [?|?])|]. destruct Hor as [Hor|?]; [|done].
    apply Hz. congruence.
Qed.

Lemma zrel_on s l e r eof :
  ready t tr s -> at_item t tr s l e r -> mc_init (cs_mc s) = true -> mc_eof (cs_mc s) = eof -> (eof = true -> r = []) ->
  zrel s (ZOn l e r eof).
Proof. intros H1 H2 H3 H4 H5. by do 3 (split; [done|]). Qed.

Lemma zfirst_ok s z want o z' :
  zrel s z -> zfirst es want = Some (o, z') ->
  exists s', mdb_cursor_first want s = Done (o, s') /\ zrel s' z'.
Proof.
  intros Hz Ho. destruct (first_ok t tr d Htr Hd s want (proj1 Hz)) as (s' & e & r & E & Hes & Hat & Hr & Hi & Hf).
  { intros Hin. apply (zrel_parked s z false Hz); [done|by left]. }
  unfold zfirst in Ho. rewrite Hes in Ho. injection Ho as <- <-. exists s'. split; [done|]. by apply zrel_on.
Qed.
Lemma zlast_ok s z want o z' :
  zrel s z -> (forall i, z <> ZLost i true) -> zlast es want true = Some (o, z') ->
  exists s', mdb_cursor_last want s = Done (o, s') /\ zrel s' z'.
Proof.
  intros Hz Hne Ho. destruct (last_ok t tr d Htr Hd s want (proj1 Hz)) as (s' & e & l & E & Hes & Hat & Hr & Hi & Hf).
  { intros Hin. pose proof Hz as (_ & _ & He & _). rewrite He in *. apply (zrel_parked s z _ Hz); [|done].
    intros Hx. destruct z as [eof|l e r eof|init eof]; cbn in Hx; subst.
    - exists [], ([], []), []. by right.
    - exists l, e, r. by left.
    - by destruct (Hne init). }
  unfold zlast in Ho. rewrite Hes, rev_app_distr in Ho. cbn in Ho. injection Ho as <- <-. rewrite rev_involutive.
  exists s'. split; [done|]. by apply zrel_on.
Qed.
Lemma frame_ready s s' : frame s s' -> cs_db s' = cs_db s /\ cs_cmp s' = cs_cmp s.
Proof. by intros (_ & ? & ? & _). Qed.
Lemma znext_ok s l e r want :
  zrel s (ZOn l e r false) ->
  exists o z' s', mdb_cursor_next want s = Done (o, s') /\
    zstep es single MDB_NEXT None want (ZOn l e r false) = Some (o, z') /\ zrel s' z'.
Proof.
  intros (Hr & Hi & He & Hat & _). cbn in Hi, He.
  destruct (next_ok t tr d Htr Hd s l e r want Hat Hi He) as (res & s' & E & Hres). destruct r as [|e' r].
  - destruct Hres as [-> ->]. eexists _, _, _. split; [done|]. split; [done|]. split.
    + destruct Hr. by constructor.
    + do 2 (split; [done|]). intros _.
      destruct (item_parked s l e [] true Hat) as (path & p & ns & ds & i & H & Ha); [done|].
      exists path, p, ns, ds, i. split; [by apply on_path_flags|done].
  - destruct Hres as (-> & Hf & Hat'). eexists _, _, _. split; [done|]. split; [done|].
    destruct (frame_ready _ _ Hf) as [F1 F2]. destruct Hf as (_ & _ & _ & F4 & F5).
    apply zrel_on; [by eapply ready_item|done|congruence|congruence|done].
Qed.
Lemma zprev_ok s l e r eof want :
  zrel s (ZOn l e r eof) ->
  exists o z' s', mdb_cursor_prev want s = Done (o, s') /\
    zstep es single MDB_PREV None want (ZOn l e r eof) = Some (o, z') /\ zrel s' z'.
Proof.
  intros (Hr & Hi & He & Hat & Hl). cbn in Hi, He.
  destruct (prev_ok t tr d Htr Hd s l e r want Hat Hi) as (res & s' & E & Hres). cbn [zstep].
  destruct (rev l) as [|e' l'].
  - destruct Hres as [-> ->]. eexists _, _, _. split; [done|]. split; [done|]. split.
    + destruct Hr. by constructor.
    + split; [done|]. split; [done|]. intros Heq.
      destruct (item_parked s l e r true Hat) as (path & p & ns & ds & i & H & Ha); [intros; by apply Hl|].
      exists path, p, ns, ds, i. split; [by apply on_path_flags|done].
  - destruct Hres as (-> & Hat' & s1 & Hf & Es). eexists _, _, _. split; [done|]. split; [done|].
    destruct (frame_ready _ _ Hf) as [F1 F2].
    apply zrel_on; [eapply ready_item; [done| | |done]; subst s'; cbn; congruence|done|by subst s'..|done].
Qed.
(** [MDB_PREV] on a cursor without a position steps back from behind the last entry. *)
Lemma zprev_off_ok s z want o z' :
  zrel s z -> (forall i, z <> ZLost i true) -> zinit z = false -> zlast es want false = Some (o, z') ->
  exists s', (do! (do! mdb_cursor_last want in
                   do! modify_mc (fun mc => with_flags true (mc_eof mc) mc) in
                   let! i := top_ki in set_top_ki (i + 1)) in
              mdb_cursor_prev want) s = Done (o, s') /\ zrel s' z'.
Proof.
  intros Hz Hne Hin Ho.
  assert (Hlast : exists o1 z1, zlast es want true = Some (o1, z1)).
  { unfold zlast in *. destruct (rev es); [done|]. by eexists _, _. }
  destruct Hlast as (o1 & z1 & Hl1). destruct (zlast_ok s z want o1 z1 Hz Hne Hl1) as (s1 & E1 & Hz1).
  unfold zlast in Ho, Hl1. destruct (rev es) as [|e l] eqn:Erev; [done|]. injection Ho as <- <-. injection Hl1 as <- <-.
  destruct Hz1 as (Hr1 & Hi1 & He1 & (path & p & ns & ds & i & H1 & Hit & Hl & Hr) & _). cbn in Hi1, He1.
  destruct (leaf_items_len t tr d Htr Hd s1 path p ns ds _ H1) as [Hlen Hn]. pose proof (lookup_lt_Some _ _ _ Hit) as Hil.
  assert (Hend : drop (S i) (leaf_items ns ds) = [] /\ after tr path = []).
  { destruct (drop (S i) (leaf_items ns ds)); [done|discriminate Hr]. }
  destruct Hend as [Hdr Haf].
  assert (Hidx : Z.of_nat i + 1 = lenZ ns).
  { apply (f_equal length) in Hdr. rewrite length_drop in Hdr. cbn in Hdr. unfold lenZ. lia. }
  unfold cbind at 1. unfold cbind at 1. rewrite E1. unfold modify_mc at 1, cbind at 1.
  pose proof (on_path_flags t tr s1 _ _ _ true (mc_eof (cs_mc s1)) H1) as H2. set (s2 := set_mc _ s1) in *.
  unfold cbind at 1. rewrite (top_ki_path t tr s2 _ _ _ H2), Hidx.
  destruct (set_top_ki_path t tr d Htr Hd s2 path _ _ (lenZ ns) H2 ltac:(lia)) as (s3 & E3 & H3 & Hf3). rewrite E3.
  unfold mdb_cursor_prev, cget, cbind at 1.
  assert (Hi3 : mc_init (cs_mc s3) = true) by (destruct Hf3 as (_ & _ & _ & -> & _); done). rewrite Hi3. cbn [negb].
  cstep (top_ki_path t tr s3 _ _ _ H3). rewrite (proj2 (Z.eqb_neq _ 0)) by lia.
  destruct (set_top_ki_path t tr d Htr Hd s3 path _ _ (Z.of_nat i) H3 ltac:(lia)) as (s4 & E4 & H4 & Hf4).
  replace (lenZ ns - 1) with (Z.of_nat i) by lia. unfold cbind at 1. unfold cbind at 1. rewrite E4. unfold cret at 1.
  unfold modify_mc, cbind at 1. pose proof (on_path_flags t tr s4 _ _ _ (mc_init (cs_mc s4)) false H4) as H5.
  set (s5 := set_mc _ s4) in *.
  assert (Hat : at_item t tr s5 (rev l) e []) by (exists path, p, ns, ds, i; by rewrite Hdr, Haf).
  cstep (check_at t tr d Htr s5 _ _ _ Hat). rewrite (read_at t tr d Htr s5 _ _ _ want true Hat).
  eexists. split; [done|]. destruct (frame_ready _ _ Hf3) as [F1 F2], (frame_ready _ _ Hf4) as [G1 G2].
  destruct Hf4 as (_ & _ & _ & G4 & _).
  apply zrel_on; [eapply (ready_item s1); [done| | |done]; subst s5 s2; cbn in *; congruence|done| |done|done].
  subst s5. cbn. congruence.
Qed.
Lemma parked_frame s s' last : frame s s' -> ready t tr s -> parked t tr last s' -> ready t tr s'.
Proof. intros Hf Hr (path & p & ns & ds & i & H & _). destruct (frame_ready _ _ Hf). by eapply ready_path. Qed.
Lemma zset_ok op exactp k want s z o z' :
  zrel s z -> key_ok k = true -> set_op op exactp -> zstep es single op (Some k) want z = Some (o, z') ->
  exists s', mdb_cursor_set op k want exactp s = Done (o, s') /\ zrel s' z'.
Proof.
  intros Hz Hk Hop Hst. pose proof Hz as (Hr & Hi & He & _). pose proof (items_sorted t d tr Htr) as Hs.
  destruct (set_ok t tr d Htr Hd op exactp k want s Hr) as (res & s' & E & Hres); [|by apply key_ok_len|done|].
  { intros Hin. apply (zrel_parked s z false Hz); [done|by left]. }
  exists s'. rewrite E. destruct Hres
    as [((l & e & r & Hat & -> & Hi' & He' & Hdb & Hcm & Hex) & _)|(-> & Hf & Hpk & Hex)].
  - pose proof (at_item_split t tr s' l e r Hat) as Hsp.
    assert (Hset : forall P `{forall x, Decision (P x)}, list_find P es = Some (length l, e) ->
      zset es P want z = Some ((MDB_SUCCESS, Some (out_item want e)), ZOn l e r false)).
    { intros P HP Hfd. unfold zset. rewrite Hfd, Hsp, take_app_length.
      by rewrite (drop_app_ge l) by lia; replace (S (length l) - length l)%nat with 1%nat by lia. }
    assert (Some ((MDB_SUCCESS, Some (out_item want e)), ZOn l e r false) = Some (o, z')) as [= <- <-].
    { rewrite <- Hst. rewrite Hsp in Hs. symmetry. destruct Hop; cbn [zstep] in Hst |- *; rewrite Hk in Hst |- *; cbn [negb] in Hst |- *.
      1, 2: apply Hset; rewrite Hsp; by apply find_here.
      rewrite bool_decide_eq_true_2 in Hst |- * by done. destruct Hex as [Hle Hlt].
      destruct (range_gap _ _ _ _); [done|]. apply Hset. rewrite Hsp. by apply find_range. }
    split; [done|]. apply zrel_on; [by eapply ready_item|done..].
  - assert (refuse MDB_NOTFOUND (ZLost (zinit z) (zeof z)) = Some (o, z')) as [= <- <-].
    { rewrite <- Hst. symmetry. destruct Hop; cbn [zstep] in Hst |- *; rewrite Hk in Hst |- *; cbn [negb] in Hst |- *.
      1, 2: rewrite bool_decide_eq_false_2 by done; unfold zset; rewrite find_none; [done|];
            intros e He0 Hek; apply Hex; rewrite <- Hek; by apply in_keys.
      rewrite bool_decide_eq_true_2 in Hst |- * by done. destruct Hex as [Hall|(Hin & Hd0 & Hall)].
      * destruct (range_gap _ _ _ _); [done|]. unfold zset. rewrite find_none; [done|]. intros e He0 Hek.
        specialize (Hall _ (in_keys _ _ He0)). apply lex_sym in Hall. lia.
      * assert (range_gap es single k z = true) as Hg; [|by rewrite Hg in Hst].
        unfold range_gap. rewrite <- Hi, Hin, Hd0. cbn [andb Nat.eqb].
        apply forallb_forall. intros e He0%list_elem_of_In. apply Z.ltb_lt, Hall. by apply in_keys. }
    split; [done|]. split; [by eapply parked_frame|]. destruct Hf as (_ & _ & _ & F4 & F5).
    split; [cbn; congruence|]. split; [cbn; congruence|done].
Qed.
(** In the gap the range search always fails. *)
Lemma zset_gap_ok k want s z :
  zrel s z -> key_ok k = true -> range_gap es single k z = true ->
  exists s', mdb_cursor_get MDB_SET_RANGE (Some k) want s = Done ((MDB_NOTFOUND, None), s').
Proof.
  intros Hz Hk Hg. pose proof Hz as (Hr & Hi & He & _). pose proof (key_ok_len k Hk) as Hl.
  destruct (set_ok t tr d Htr Hd MDB_SET_RANGE false k want s Hr) as (res & s' & E & Hres); [|done|constructor|].
  { intros Hin. apply (zrel_parked s z false Hz); [done|by left]. }
  exists s'. unfold mdb_cursor_get. unfold key_ok in Hk. apply negb_true_iff in Hk. rewrite Hk. change (mdb_cursor_set MDB_SET_RANGE k want false s = Done (MDB_NOTFOUND, None, s')). rewrite E. do 2 f_equal.
  destruct Hres as [(_ & Hng)|(-> & _)]; [|done]. exfalso. unfold range_gap in Hg.
  apply andb_prop in Hg as [Hg Hall]. apply andb_prop in Hg as [Ei Ed]. apply Nat.eqb_eq in Ed.
  destruct Hng as [Hng|[Hng|[Hng|(x & Hx & Hxk)]]]; [done|congruence|done|].
  apply list_elem_of_fmap in Hx as (y & -> & Hy). rewrite forallb_forall in Hall.
  specialize (Hall y (proj1 (list_elem_of_In _ _) Hy)). apply Z.ltb_lt, lex_sym in Hall. lia.
Qed.
Lemma current_ok s l e r want :
  at_item t tr s l e r -> mc_init (cs_mc s) = true ->
  mdb_cursor_get MDB_GET_CURRENT None want s = Done ((MDB_SUCCESS, Some (out_item want e)), s).
Proof.
  intros (path & p & ns & ds & i & H & He & _ & _) Hi.
  destruct (leaf_at t tr d Htr s path p ns ds _ H) as (mp & Hm & Et).
  destruct (leaf_item _ _ _ _ He) as (ofs & nd & v & Hn & Hv & ->).
  destruct (node_read_value t s p ns ds mp i ofs nd v Hm (op_txn _ _ _ _ _ _ H) Hn Hv) as (Hfl & Hdup & Hrd & Hk).
  destruct (leaf_items_len t tr d Htr Hd s path p ns ds _ H) as [_ Hlen].
  unfold mdb_cursor_get, cget, cbind at 1. rewrite Hi. cbn [negb]. cstep Et.
  rewrite (NUMKEYS_rep _ _ (lo_rep _ _ _ _ _ Hm)), (proj2 (Z.eqb_neq _ 0)) by lia. cstep (top_ki_path t tr s _ _ _ H).
  rewrite (pr_kind _ _ (lo_rep _ _ _ _ _ Hm)). unfold clift, cbind at 1.
  rewrite (pr_ptr _ _ (lo_rep _ _ _ _ _ Hm) _ _ _ Hn). unfold cbind at 1. rewrite Hk. unfold out_item. cbn [fst snd].
  destruct want; [|done]. unfold cbind at 1. rewrite Hfl, Hdup. cstep Hrd. done.
Qed.

(** Forwards: from the first item when the cursor is nowhere *)
Lemma next_step want s z o z' :
  zrel s z -> zstep es single MDB_NEXT None want z = Some (o, z') ->
  exists s', (if negb (mc_init (cs_mc s)) then mdb_cursor_first want else mdb_cursor_next want) s = Done (o, s') /\ zrel s' z'.
Proof.
  intros Hz Hn. pose proof Hz as (Hr & Hi & He & Hat). cbn [zstep] in Hn.
  destruct z as [eof|l e r eof|[] eof]; cbn in Hi, He; try done; rewrite Hi; cbn [negb].
  - by apply (zfirst_ok s (ZOff eof)).
  - destruct eof.
    + assert (Hn' : refuse MDB_NOTFOUND (ZOn l e r true) = Some (o, z')) by (by destruct r). injection Hn' as <- <-.
      exists s. split; [|done]. unfold mdb_cursor_next, cget, cbind at 1. by rewrite He.
    + destruct (znext_ok s l e r want Hz) as (o1 & z1 & s1 & E & Hst & Hz1). cbn [zstep] in Hst. rewrite Hn in Hst.
      injection Hst as <- <-. by exists s1.
  - by apply (zfirst_ok s (ZLost false eof)).
Qed.
(** Backwards: from the end when the cursor is nowhere *)
Lemma prev_step want s z o z' :
  zrel s z -> zstep es single MDB_PREV None want z = Some (o, z') ->
  exists s', (do! (if negb (mc_init (cs_mc s)) then
           do! mdb_cursor_last want in
           do! modify_mc (fun mc => with_flags true (mc_eof mc) mc) in
           let! i := top_ki in set_top_ki (i + 1)
         else cret tt) in mdb_cursor_prev want) s = Done (o, s') /\ zrel s' z'.
Proof.
  intros Hz Hn. pose proof Hz as (Hr & Hi & He & Hat). cbn [zstep] in Hn.
  destruct z as [eof|l e r eof|[] []]; cbn in Hi, He; try done; rewrite Hi; cbn [negb].
  - by apply (zprev_off_ok s (ZOff eof)).
  - destruct (zprev_ok s l e r eof want Hz) as (o1 & z1 & s1 & E & Hst & Hz1). cbn [zstep] in Hst. rewrite Hn in Hst.
    injection Hst as <- <-. exists s1. by split.
  - by apply (zprev_off_ok s (ZLost false false)).
Qed.
(** To a key *)
Lemma set_step op exactp key want s z o z' :
  zrel s z -> zstep es single op key want z = Some (o, z') -> set_op op exactp ->
  exists s', (match key with
     | None => cret (EINVAL, None)
     | Some k =>
         if (lenZ k =? 0) || (MDB_MAXKEYSIZE <? lenZ k) then cret (EINVAL, None) else mdb_cursor_set op k want exactp
     end) s = Done (o, s') /\ zrel s' z'.
Proof.
  intros Hz Ho Hop. destruct key as [k|].
  2: { assert (Some ((EINVAL, None), z) = Some (o, z')) as [= <- <-] by (by destruct Hop). by exists s. }
  destruct ((lenZ k =? 0) || (MDB_MAXKEYSIZE <? lenZ k)) eqn:Ek.
  - assert (Some ((EINVAL, None), z) = Some (o, z')) as [= <- <-]; [|by exists s].
    destruct Hop; cbn [zstep] in Ho; unfold key_ok in Ho; by rewrite Ek in Ho.
  - assert (Hk : key_ok k = true) by (unfold key_ok; by rewrite Ek).
    by apply (zset_ok op exactp k want s z).
Qed.
Lemma current_step want s z o z' :
  zrel s z -> zstep es single MDB_GET_CURRENT None want z = Some (o, z') ->
  exists s', mdb_cursor_get MDB_GET_CURRENT None want s = Done (o, s') /\ zrel s' z'.
Proof.
  intros Hz Ho. pose proof Hz as (Hr & Hi & He & Hat). cbn [zstep] in Ho.
  destruct z as [eof|l e r eof|[] eof]; cbn in Hi; try done; injection Ho as <- <-; exists s; (split; [|done]).
  1, 3: unfold mdb_cursor_get, cget, cbind at 1; by rewrite Hi.
  destruct Hat as [Hat _]. by apply (current_ok s l e r).
Qed.
Lemma cursor_step op key want s z o z' :
  zrel s z -> zstep es single op key want z = Some (o, z') ->
  exists s', mdb_cursor_get op key want s = Done (o, s') /\ zrel s' z'.
Proof.
  intros Hz Ho.
  assert (Hsame : forall r, mdb_cursor_get op key want s = Done (r, s) -> Some (r, z) = Some (o, z') ->
            exists s', mdb_cursor_get op key want s = Done (o, s') /\ zrel s' z').
  { intros r Ef [= <- <-]. by exists s. }
  destruct op; try by apply (Hsame _ eq_refl).
  - by apply (zfirst_ok s z).
  - by apply (current_step want s z).
  - cbn [zstep] in Ho. apply (zlast_ok s z); [done| |]; by destruct z as [| |? []].
  - by apply (next_step want s z).
  - by apply (next_step want s z).
  - by apply (next_step want s z).
  - by apply (prev_step want s z).
  - by apply (prev_step want s z).
  - by apply (prev_step want s z).
  - by apply (set_step _ true key want s z o z' Hz Ho SetOp).
  - by apply (set_step _ true key want s z o z' Hz Ho SetKeyOp).
  - by apply (set_step _ false key want s z o z' Hz Ho SetRangeOp).
Qed.
Lemma crun_ok calls s z outs z' :
  zrel s z -> zrun es single calls z = Some (outs, z') -> exists s', crun calls s = Done (outs, s') /\ zrel s' z'.
Proof.
  revert s z outs. induction calls as [|c calls IH]; intros s z outs Hz Hr; cbn [zrun] in Hr.
  - injection Hr as <- <-. by exists s.
  - destruct (zstep es single (c_op c) (c_key c) (c_want c) z) as [[o z1]|] eqn:E; [|done].
    destruct (zrun es single calls z1) as [[os z2]|] eqn:E2; [|done]. injection Hr as <- <-.
    destruct (cursor_step _ _ _ s z o z1 Hz E) as (s1 & E1 & Hz1). destruct (IH s1 z1 os Hz1 E2) as (s2 & Es & Hz2).
    exists s2. split; [|done]. cbn [crun]. unfold cbind. by rewrite E1, Es.
Qed.
End refine.

(** A walk over all entries. *)
Lemma zwalk es0 single0 want l e r :
  zrun es0 single0 (replicate (S (length r)) {| c_op := MDB_NEXT; c_key := None; c_want := want |}) (ZOn l e r false) =
  Some (map (fun x => (MDB_SUCCESS, Some (out_item want x))) r ++ [(MDB_NOTFOUND, None)], ZOff true).
Proof.
  revert l e. induction r as [|e' r IH]; intros l e; [done|]. cbn [length]. rewrite replicate_S. cbn [zrun].
  cbn [c_op c_key c_want zstep]. unfold answer. rewrite IH. done.
Qed.

(** The state with the cursor that a call initialises. *)
Definition fresh (s : cstate) : cstate := set_mc (mdb_cursor_init (mc_pg (cs_mc s)) (mc_ki (cs_mc s))) s.

(** ** A database of two pages *)
Definition demo_nodes2 : list (Z * pnode) :=
  [(40, demo_node [100] [4; 5; 6] []); (52, demo_node [101; 102] [8] [0])].
Definition demo_page2 : MDB_page :=
  {| mp_pgno := 6; mp_flags := 18; mp_lower := 20; mp_upper := 40;
     mp_raw := zeros 16 ++ le2 40 ++ le2 52 ++ zeros 20 ++ image (demo_node [100] [4; 5; 6] []) ++
               image (demo_node [101; 102] [8] [0]) |}.
Definition demo_root_nodes : list (Z * pnode) := [(46, branch_node 5 [] []); (54, branch_node 6 [100] [0])].
Definition demo_root : MDB_page :=
  {| mp_pgno := 4; mp_flags := 17; mp_lower := 20; mp_upper := 46;
     mp_raw := zeros 16 ++ le2 46 ++ le2 54 ++ zeros 26 ++ image (branch_node 5 [] []) ++ image (branch_node 6 [100] [0]) |}.
Definition demo_tree : tree :=
  TBranch (Mapped 4) demo_root_nodes
    [TLeaf (Mapped 5) demo_nodes [[1; 2; 3]; [7]]; TLeaf (Mapped 6) demo_nodes2 [[4; 5; 6]; [8]]].
Definition demo_txn : ptxn :=
  {| pt_rdonly := true; pt_writemap := false; pt_error := false; pt_dirty := []; pt_next_pgno := 7;
     pt_map := <[4 := demo_root]> (<[5 := demo_page]> (<[6 := demo_page2]> ∅)); pt_heap := ∅ |}.
Definition demo_db : MDB_db :=
  {| md_pad := 0; md_depth := 2; md_branch_pages := 1; md_leaf_pages := 2; md_overflow_pages := 0; md_entries := 4; md_root := 4 |}.
Definition demo_state : cstate :=
  {| cs_txn := demo_txn; cs_db := demo_db; cs_cmp := CmpMemn;
     cs_mc := mdb_cursor_init (replicate 32 None) (replicate 32 0) |}.

Ltac two_nodes := intros [|[|i]]; [..|intros; by destruct i].
Lemma demo_rep2 : page_rep demo_page2 demo_nodes2.
Proof.
  constructor; try done.
  - two_nodes; intros p nd [= <- <-]; done.
  - two_nodes; intros p nd [= <- <-]; (split; [constructor|]; done).
  - two_nodes; intros p nd [= <- <-]; done.
  - intros [|[|i]] [|[|j]] p q nd ne Hij; try done; intros Hi Hj; try (by destruct i); try (by destruct j);
      injection Hi as <- <-; injection Hj as <- <-; vm_compute; intuition discriminate.
Qed.
Lemma demo_root_rep : page_rep demo_root demo_root_nodes.
Proof.
  constructor; try done.
  - two_nodes; intros p nd [= <- <-]; done.
  - two_nodes; intros p nd [= <- <-]; (split; [constructor|]; done).
  - two_nodes; intros p nd [= <- <-]; done.
  - intros [|[|i]] [|[|j]] p q nd ne Hij; try done; intros Hi Hj; try (by destruct i); try (by destruct j);
      injection Hi as <- <-; injection Hj as <- <-; vm_compute; intuition discriminate.
Qed.
Lemma two_sorted mp ns : lenZ ns = 2 -> 0 <= first_key mp -> (first_key mp = 0 -> lex (page_key ns 0) (page_key ns 1) < 0) -> page_sorted mp ns.
Proof. intros Hl Hf H i j Hi Hj. assert (i = 0 /\ j = 1) as [-> ->] by lia. apply H. lia. Qed.
Lemma demo_ok : tree_ok demo_txn 1 demo_tree.
Proof.
  cbn [tree_ok demo_tree]. split.
  - exists demo_root. constructor; try done.
    + apply demo_root_rep.
    + by apply two_sorted.
    + intros [|[|i]] ofs nd c Hn Hc; [..|by destruct i]; injection Hn as <- <-; injection Hc as <-; by eexists.
    + intros [|[|i]] j c k Hc Hk Hj; [..|by destruct i]; injection Hc as <-; cbn [length] in Hj;
        assert (j = 1%nat) as -> by lia; (split; intros Hij; [|]); try lia;
        cbn in Hk; rewrite !elem_of_cons in Hk; destruct Hk as [->|[->|Hk]]; try (by apply not_elem_of_nil in Hk); vm_compute; done.
  - repeat constructor.
    + exists demo_page. constructor; try done; [apply demo_rep|by apply two_sorted|]. by repeat constructor.
    + exists demo_page2. constructor; try done; [apply demo_rep2|by apply two_sorted|]. by repeat constructor.
Qed.
Lemma demo_tree_ready : ready demo_txn demo_tree demo_state.
Proof. constructor; try done; [by exists 0|repeat constructor; done|by left]. Qed.

(** A database of one page, with the keys [97] and [98; 99]. *)
Definition leaf_state : cstate :=
  {| cs_txn := demo_txn; cs_cmp := CmpMemn;
     cs_db := {| md_pad := 0; md_depth := 1; md_branch_pages := 0; md_leaf_pages := 1; md_overflow_pages := 0;
                 md_entries := 2; md_root := 5 |};
     cs_mc := mdb_cursor_init (replicate 32 None) (replicate 32 0) |}.
Definition leaf_tree : tree := TLeaf (Mapped 5) demo_nodes [[1; 2; 3]; [7]].
Lemma leaf_tree_ok : tree_ok demo_txn 0 leaf_tree.
Proof. exists demo_page. constructor; try done; [apply demo_rep|by apply two_sorted|]. by repeat constructor. Qed.
Lemma leaf_ready : ready demo_txn leaf_tree leaf_state.
Proof. constructor; try done; [by exists 0|repeat constructor; done|by left]. Qed.

(** ** The theorems *)

(** C7: [mdb_get] is the lookup in the map the tree holds.  For every B+tree in
    the pages of a transaction, of any depth the cursor stack allows, with data
    on leaf or on overflow pages, and every key, it ends without a fault, finds
    the data of the key when an entry has it and reports it missing otherwise. *)
Theorem tree_get_correct (t : ptxn) (tr : tree) (d : nat) (s : cstate) (key : bytes) :
  tree_ok t d tr -> (d < 32)%nat -> ready t tr (fresh s) -> 1 <= lenZ key <= MDB_MAXKEYSIZE ->
  exists s', mdb_get key s =
    Done (match (list_to_map (items tr) : gmap bytes bytes) !! key with
          | Some v => (MDB_SUCCESS, Some {| it_key := key; it_data := Some v |})
          | None => (MDB_NOTFOUND, None)
          end, s').
Proof.
  intros Ht Hd Hr Hk. unfold mdb_get. rewrite (proj2 (Z.eqb_neq _ 0)), (proj2 (Z.ltb_ge _ _)) by lia. cbn [orb].
  unfold modify_mc, cbind. fold (fresh s). pose proof (items_sorted t d tr Ht) as Hs. unfold MDB_MAXKEYSIZE in Hk.
  destruct (set_ok t tr d Ht Hd MDB_SET true key true (fresh s) Hr) as (res & s' & E & Hres); [done|lia|constructor|].
  exists s'. rewrite E. f_equal. f_equal.
  destruct Hres as [((l & e & r & Hat & -> & _ & _ & _ & _ & Hek) & _)|(-> & _ & _ & Hno)].
  - assert (Hm : (list_to_map (items tr) : gmap bytes bytes) !! key = Some e.2).
    { apply elem_of_list_to_map.
      - by apply sorted_NoDup.
      - rewrite (at_item_split _ _ _ _ _ _ Hat), <- Hek. destruct e. apply elem_of_app. right. by left. }
    rewrite Hm. unfold out_item. by rewrite Hek.
  - by rewrite not_elem_of_list_to_map_1.
Qed.
Lemma tree_get_correct_witness :
  exists s', mdb_get [101; 102] demo_state = Done ((MDB_SUCCESS, Some {| it_key := [101; 102]; it_data := Some [8] |}), s').
Proof.
  destruct (tree_get_correct demo_txn demo_tree 1 demo_state [101; 102] demo_ok ltac:(lia) demo_tree_ready) as (s' & E).
  - vm_compute. split; discriminate.
  - exists s'. rewrite E. done.
Defined.

(** C8: the operations of a cursor move over the sorted list of entries, as
    lmdb.h says they do: next, previous, first, last, current, the entry of a
    key, the first entry at or after a key.  On every B+tree, from any position,
    any sequence of calls of [mdb_cursor_get] that the abstract cursor defines
    ([zrun] is [Some]) gives its answers, without a fault, and leaves the cursor
    where the abstract one is.  What [zstep] leaves out is: on a cursor whose
    last search failed, reading the entry, moving back, moving forward if it had
    a position before, and [MDB_LAST] if it had passed the end; and the range
    search before the first key of a one-page database by a cursor that has a
    position, where the code answers that there is none. *)
Theorem cursor_refines_zipper (t : ptxn) (tr : tree) (d : nat) (s : cstate) (z z' : zpos) (calls : list call) outs :
  tree_ok t d tr -> (d < 32)%nat -> zrel t tr s z -> zrun (items tr) (d =? 0)%nat calls z = Some (outs, z') ->
  exists s', crun calls s = Done (outs, s') /\ zrel t tr s' z'.
Proof. intros Ht Hd. by apply crun_ok. Qed.
Lemma cursor_refines_zipper_witness :
  exists s', crun [{| c_op := MDB_SET_RANGE; c_key := Some [99]; c_want := true |};
                   {| c_op := MDB_PREV; c_key := None; c_want := true |};
                   {| c_op := MDB_LAST; c_key := None; c_want := false |};
                   {| c_op := MDB_NEXT; c_key := None; c_want := true |}] demo_state
    = Done ([(MDB_SUCCESS, Some {| it_key := [100]; it_data := Some [4; 5; 6] |});
             (MDB_SUCCESS, Some {| it_key := [98; 99]; it_data := Some [7] |});
             (MDB_SUCCESS, Some {| it_key := [101; 102]; it_data := None |});
             (MDB_NOTFOUND, None)], s').
Proof.
  destruct (cursor_refines_zipper demo_txn demo_tree 1 demo_state (ZOff false)
    (ZOn [([97], [1; 2; 3]); ([98; 99], [7]); ([100], [4; 5; 6])] ([101; 102], [8]) [] true)
    [{| c_op := MDB_SET_RANGE; c_key := Some [99]; c_want := true |};
     {| c_op := MDB_PREV; c_key := None; c_want := true |};
     {| c_op := MDB_LAST; c_key := None; c_want := false |};
     {| c_op := MDB_NEXT; c_key := None; c_want := true |}]
    [(MDB_SUCCESS, Some {| it_key := [100]; it_data := Some [4; 5; 6] |});
     (MDB_SUCCESS, Some {| it_key := [98; 99]; it_data := Some [7] |});
     (MDB_SUCCESS, Some {| it_key := [101; 102]; it_data := None |});
     (MDB_NOTFOUND, None)] demo_ok ltac:(lia)) as (s' & E & _).
  - split; [apply demo_tree_ready|]. by repeat split.
  - reflexivity.
  - by exists s'.
Defined.

(** The case the previous theorem leaves out.  In a database of one page a
    cursor that has a position, or had one when its last search failed, does
    not find the range of a key before all others: [MDB_SET_RANGE] answers
    [MDB_NOTFOUND], whatever the entries, although the first of them is the
    first key greater than or equal to the given one. *)
Theorem range_search_misses (t : ptxn) (tr : tree) (s : cstate) (z : zpos) (k : bytes) (want : bool) :
  tree_ok t 0 tr -> zrel t tr s z -> zinit z = true -> key_ok k = true -> (forall e, e ∈ items tr -> klt k e.1) ->
  (exists s', mdb_cursor_get MDB_SET_RANGE (Some k) want s = Done ((MDB_NOTFOUND, None), s')) /\
  exists e, list_find (fun e => lex k e.1 <= 0) (items tr) = Some (0%nat, e).
Proof.
  intros Ht Hz Hi Hk Hall. split.
  - apply (zset_gap_ok t tr 0 Ht ltac:(lia) k want s z Hz Hk). unfold range_gap. rewrite Hi. cbn [andb Nat.eqb].
    apply forallb_forall. intros e He%list_elem_of_In. apply Z.ltb_lt. by apply Hall.
  - pose proof (items_some t 0 tr Ht) as Hne. destruct (items tr) as [|e r]; [done|]. exists e.
    apply (find_range [] e r k); [|intros x Hx; by apply not_elem_of_nil in Hx].
    specialize (Hall e ltac:(by left)). unfold klt in Hall. lia.
Qed.
Lemma range_search_misses_witness :
  exists s s', mdb_cursor_get MDB_FIRST None false leaf_state = Done ((MDB_SUCCESS, Some {| it_key := [97]; it_data := None |}), s) /\
    mdb_cursor_get MDB_SET_RANGE (Some [1]) false s = Done ((MDB_NOTFOUND, None), s').
Proof.
  destruct (cursor_step demo_txn leaf_tree 0 leaf_tree_ok ltac:(lia) MDB_FIRST None false leaf_state (ZOff false)
    (MDB_SUCCESS, Some {| it_key := [97]; it_data := None |}) (ZOn [] ([97], [1; 2; 3]) [([98; 99], [7])] false)) as (s & E & Hz).
  - split; [apply leaf_ready|]. by repeat split.
  - reflexivity.
  - destruct (range_search_misses demo_txn leaf_tree s _ [1] false leaf_tree_ok Hz eq_refl eq_refl) as [(s' & E') _].
    + intros e He. change (items leaf_tree) with [([97], [1; 2; 3]); ([98; 99], [7])] in He.
      rewrite !elem_of_cons in He. destruct He as [->|[->|He]]; [vm_compute; done..|by apply not_elem_of_nil in He].
    + by exists s, s'.
Defined.

(** A walk from the first entry visits every entry once, in the order of the
    keys, and then reports the end: [MDB_FIRST] followed by as many [MDB_NEXT]
    as there are entries, on any B+tree. *)
Theorem cursor_walk_complete (t : ptxn) (tr : tree) (d : nat) (s : cstate) (want : bool) :
  tree_ok t d tr -> (d < 32)%nat -> ready t tr (fresh s) ->
  exists s', crun ({| c_op := MDB_FIRST; c_key := None; c_want := want |} ::
                   replicate (length (items tr)) {| c_op := MDB_NEXT; c_key := None; c_want := want |}) (fresh s)
    = Done (map (fun e => (MDB_SUCCESS, Some (out_item want e))) (items tr) ++ [(MDB_NOTFOUND, None)], s') /\
  StronglySorted klt (items tr).*1.
Proof.
  intros Ht Hd Hr. pose proof (items_some t d tr Ht) as Hne. destruct (items tr) as [|e r] eqn:E; [done|].
  destruct (crun_ok t tr d Ht Hd ({| c_op := MDB_FIRST; c_key := None; c_want := want |} ::
    replicate (length (e :: r)) {| c_op := MDB_NEXT; c_key := None; c_want := want |}) (fresh s) (ZOff false)
    (map (fun e => (MDB_SUCCESS, Some (out_item want e))) (e :: r) ++ [(MDB_NOTFOUND, None)]) (ZOff true)) as (s' & Es & _).
  - by split.
  - rewrite E. cbn [zrun c_op c_key c_want zstep zfirst answer]. cbn [length]. rewrite zwalk. done.
  - exists s'. split; [done|]. pose proof (items_sorted t d tr Ht) as Hs. unfold ksorted in Hs. by rewrite E in Hs.
Qed.
Lemma cursor_walk_complete_witness :
  exists s', crun ({| c_op := MDB_FIRST; c_key := None; c_want := false |} ::
                   replicate 4 {| c_op := MDB_NEXT; c_key := None; c_want := false |}) (fresh demo_state)
    = Done (map (fun e => (MDB_SUCCESS, Some (out_item false e))) (items demo_tree) ++ [(MDB_NOTFOUND, None)], s') /\
  StronglySorted klt (items demo_tree).*1.
Proof. apply (cursor_walk_complete demo_txn demo_tree 1 demo_state false demo_ok); [lia|apply demo_tree_ready]. Defined.

(** ** Where the cursor differs from a list *)

Definition call_op (op : MDB_cursor_op) (key : option bytes) : call := {| c_op := op; c_key := key; c_want := false |}.
Definition results (o : outcome (list (Z * option item) * cstate)) : option (list (Z * option bytes)) :=
  match o with Done (l, _) => Some (map (fun r => (fst r, option_map it_key (snd r))) l) | Fault _ => None end.
(** A range search for a key before all others finds the first entry with a
    fresh cursor, and nothing once the cursor has been used. *)
Example set_range_depends_on_cursor :
  results (crun [call_op MDB_SET_RANGE (Some [1])] leaf_state) = Some [(MDB_SUCCESS, Some [97])] /\
  results (crun [call_op MDB_FIRST None; call_op MDB_SET_RANGE (Some [1])] leaf_state) =
    Some [(MDB_SUCCESS, Some [97]); (MDB_NOTFOUND, None)].
Proof. split; vm_compute; reflexivity. Qed.
(** A search that fails after the end was reached leaves the end-of-file flag:
    MDB_LAST then takes the page of the search for the last one. *)
Example last_after_failed_set :
  results (crun [call_op MDB_LAST None; call_op MDB_SET (Some [98]); call_op MDB_LAST None] demo_state) =
    Some [(MDB_SUCCESS, Some [101; 102]); (MDB_NOTFOUND, None); (MDB_SUCCESS, Some [98; 99])].
Proof. vm_compute. reflexivity. Qed.
(** Walking backwards in an empty database uses a page that is not there. *)
Example prev_on_empty :
  crun [call_op MDB_PREV None]
    {| cs_txn := demo_txn; cs_cmp := CmpMemn;
       cs_db := {| md_pad := 0; md_depth := 0; md_branch_pages := 0; md_leaf_pages := 0; md_overflow_pages := 0;
                   md_entries := 0; md_root := P_INVALID |};
       cs_mc := mdb_cursor_init (replicate 32 None) (replicate 32 0) |} = Fault NullDeref.
Proof. vm_compute. reflexivity. Qed.
