(* ===== verification/Database.v ===== *)
(** * Database: src/src/server/database.c over the LMDB layer

    One definition per function of database.c, with the calls, the early exits
    and the cleanup of the C code in its order.  A key, a value and a database
    name are byte strings; a name is read as a C string, so up to its first
    NUL.  [junk] stands for the value an uninitialised local variable holds. *)
From S2P Require Import Prelude Lmdb.

(** ** Transactions *)
Definition database_transaction_start (readonly : bool) : CM MDB_env (option nat) :=
  let! '(rc, txn) := mdb_txn_begin readonly in
  if negb (rc =? 0) then cret None else cret txn.

Definition database_transaction_commit (transaction : nat) : CM MDB_env yerr_t :=
  let! rc := mdb_txn_commit transaction in
  if negb (rc =? 0) then cret YEACCESS else cret YENOERR.

Definition database_transaction_rollback (transaction : nat) : CM MDB_env unit :=
  mdb_txn_abort transaction.

(** The transaction an operation works in: the given one, or a new one. *)
Definition open_transaction (transaction : option nat) (readonly : bool)
    : CM MDB_env (option nat) :=
  match transaction with
  | Some t => cret (Some t)
  | None => database_transaction_start readonly
  end.

(** The [end_of_process] part of the writing operations. *)
Definition end_of_process (transaction : option nat) (txn : nat) (retval : yerr_t)
    : CM MDB_env yerr_t :=
  let! retval :=
    (if (retval =? YENOERR) && bool_decide (transaction = None) then
       let! c := database_transaction_commit txn in
       if negb (c =? YENOERR) then cret YEACCESS else cret retval
     else cret retval) in
  if negb (retval =? YENOERR) && bool_decide (transaction = None)
  then do! database_transaction_rollback txn in cret retval
  else cret retval.

(** ** Operations *)
Definition database_put (transaction : option nat) (create_only : bool)
    (name : option bytes) (key data : bytes) : CM MDB_env yerr_t :=
  let! txn := open_transaction transaction false in
  match txn with
  | None => cret YEACCESS
  | Some txn =>
      let! '(rc, h) := mdb_dbi_open txn (cstr <$> name) true in
      match h with
      | None => end_of_process transaction txn YEACCESS
      | Some h =>
          let! rc := mdb_put txn h key data create_only in
          let retval := if negb (rc =? 0) then YEACCESS else YENOERR in
          do! mdb_dbi_close h in
          end_of_process transaction txn retval
      end
  end.

Definition database_del (transaction : option nat) (name : option bytes) (key : bytes)
    : CM MDB_env yerr_t :=
  let! txn := open_transaction transaction false in
  match txn with
  | None => cret YEACCESS
  | Some txn =>
      let! '(rc, h) := mdb_dbi_open txn (cstr <$> name) false in
      match h with
      | None => end_of_process transaction txn YEACCESS
      | Some h =>
          let! rc := mdb_del txn h key in
          let retval := if negb (rc =? 0) then YEACCESS else YENOERR in
          do! mdb_dbi_close h in
          end_of_process transaction txn retval
      end
  end.

(** When the handle cannot be opened, control jumps behind the end of the
    transaction and closes the uninitialised handle [junk]. *)
Definition database_get (transaction : option nat) (name : option bytes) (key : bytes)
    (junk : dbi) : CM MDB_env (yerr_t * option bytes) :=
  let! txn := open_transaction transaction true in
  match txn with
  | None => cret (YEACCESS, None)
  | Some txn =>
      let! '(rc, h) := mdb_dbi_open txn (cstr <$> name) false in
      match h with
      | None =>
          do! mdb_dbi_close junk in
          cret (YEACCESS, None)
      | Some h =>
          let! '(rc, d) := mdb_get txn h key in
          do! (match transaction with
               | None => database_transaction_rollback txn
               | Some _ => cret tt
               end) in
          do! mdb_dbi_close h in
          cret (if rc =? 0 then (YENOERR, d)
                else if rc =? MDB_NOTFOUND then (YENODATA, None)
                else (YEACCESS, None))
      end
  end.

(** A computation on the environment, inside a larger state. *)
Definition in_env {S A} (m : CM MDB_env A) : CM (MDB_env * S) A := fun '(e, s) =>
  match m e with
  | Done (a, e) => Done (a, (e, s))
  | Fault f => Fault f
  end.
Definition in_rest {E S A} (m : CM S A) : CM (E * S) A := fun '(e, s) =>
  match m s with
  | Done (a, s) => Done (a, (e, s))
  | Fault f => Fault f
  end.

(** The loop: the next entry is fetched until there is none, or the call fails,
    or the callback reports an error. *)
Fixpoint list_loop {S} (fuel : nat) (cb : bytes -> bytes -> CM S yerr_t) (cu : cursor) : CM (MDB_env * S) unit :=
  match fuel with
  | O => cfault OutOfFuel
  | Datatypes.S fuel =>
      let! '(rc, kd, cu) := in_env (mdb_cursor_get CurNext cu) in
      if negb (rc =? 0) then cret tt
      else match kd with
      | None => cfault NullDeref
      | Some (k, d) =>
          let! r := in_rest (cb k d) in
          if negb (r =? YENOERR) then cret tt else list_loop fuel cb cu
      end
  end.
(** One turn per entry, and one to find the end *)
Definition list_fuel (txn : nat) (h : dbi) : CM MDB_env nat :=
  let! t := txn_load txn in
  let! e := cget in
  cret (S (length (cursor_entries e t h))).
Definition database_list {S} (transaction : option nat) (name : option bytes)
    (cb : bytes -> bytes -> CM S yerr_t) : CM (MDB_env * S) yerr_t :=
  let! txn := in_env (open_transaction transaction true) in
  match txn with
  | None => cret YEACCESS
  | Some txn =>
      let! '(rc, h) := in_env (mdb_dbi_open txn (cstr <$> name) false) in
      let! retval :=
        match h with
        | None => cret YEACCESS
        | Some h =>
            let! '(rc, cursor) := in_env (mdb_cursor_open txn h) in
            let! retval :=
              match cursor with
              | None => cret YEACCESS
              | Some cu =>
                  let! n := in_env (list_fuel txn h) in
                  do! list_loop n cb cu in
                  cret YENOERR
              end in
            do! in_env (mdb_dbi_close h) in
            cret retval
        end in
      do! (match transaction with
           | None => in_env (database_transaction_rollback txn)
           | Some _ => cret tt
           end) in
      cret retval
  end.

Definition database_drop (transaction : option nat) (name : option bytes)
    : CM MDB_env yerr_t :=
  let! txn := open_transaction transaction false in
  match txn with
  | None => cret YEACCESS
  | Some txn =>
      let! '(rc, h) := mdb_dbi_open txn (cstr <$> name) false in
      match h with
      | None => end_of_process transaction txn YEACCESS
      | Some h =>
          let! rc := mdb_drop txn h in
          let retval := if negb (rc =? 0) then YEACCESS else YENOERR in
          do! mdb_dbi_close h in
          (* the commit result leaves the function directly *)
          if (retval =? YENOERR) && bool_decide (transaction = None) then
            let! c := database_transaction_commit txn in
            if negb (c =? YENOERR) then cret YEACCESS else cret retval
          else if negb (retval =? YENOERR) && bool_decide (transaction = None)
          then do! database_transaction_rollback txn in cret retval
          else cret retval
      end
  end.

(** ** Opening: [files] is the database found on disk; the first two script
    entries are the results of [mdb_env_create] and [mdb_env_open]. *)
Definition database_open (files : gmap bytes node) (script : list Z)
    (nbr_readers nbr_dbs : Z) : option MDB_env :=
  let '(rc, script) := script_next 0 script in
  if negb (rc =? 0) then None else
  let e := mdb_env_create script in
  let '(rc, e) := if 126 <? nbr_readers then mdb_env_set_maxreaders nbr_readers e
                  else (0, e) in
  if negb (rc =? 0) then None else
  let '(rc, e) := if 1 <? nbr_dbs then mdb_env_set_maxdbs nbr_dbs e else (0, e) in
  if negb (rc =? 0) then None else
  let '(rc, script) := script_next 0 (me_script e) in
  if negb (rc =? 0) then None
  else Some (env_set_main files (env_set_script script e)).

(** ** Abstract view: the default database as a map from keys to values. *)
Definition node_value (n : node) : option bytes :=
  match n with
  | NData d => Some d
  | NSub _ => None
  end.
Definition kv_of (m : gmap bytes node) : gmap bytes bytes := omap node_value m.
Definition kv (e : MDB_env) : gmap bytes bytes := kv_of (me_main e).

(** The key is not the name of a named database. *)
Definition plain_key (m : gmap bytes node) (key : bytes) : Prop :=
  forall sub, m !! key <> Some (NSub sub).

Lemma lookup_kv_of m key : kv_of m !! key = m !! key ≫= node_value.
Proof. apply lookup_omap. Qed.
Lemma kv_of_insert m key d : kv_of (<[key := NData d]> m) = <[key := d]> (kv_of m).
Proof. unfold kv_of. by rewrite (omap_insert_Some _ _ _ _ d). Qed.
Lemma kv_of_delete m key : kv_of (delete key m) = delete key (kv_of m).
Proof. apply omap_delete. Qed.
Lemma kv_of_is_Some m key :
  plain_key m key -> is_Some (kv_of m !! key) <-> is_Some (m !! key).
Proof.
  intros Hp. rewrite lookup_kv_of. specialize (Hp).
  destruct (m !! key) as [[d|sub]|] eqn:E; simpl; [naive_solver| |done].
  by destruct (Hp sub).
Qed.
Lemma db_find_main e t key :
  plain_key (mt_main t) key ->
  db_find e t MAIN_DBI key = Done (kv_of (mt_main t) !! key).
Proof.
  intros Hp. unfold db_find, MAIN_DBI. simpl. rewrite lookup_kv_of.
  destruct (mt_main t !! key) as [[d|sub]|] eqn:E; simpl; try done. by destruct (Hp sub).
Qed.

(** ** Running an operation in its own transaction *)
Lemma eop_rollback e s t :
  env_quiet e -> txn_plain e t ->
  end_of_process None (me_next e) YEACCESS (during s t e) = Done (YEACCESS, after_txn s e).
Proof.
  intros Hq Hp. unfold end_of_process, database_transaction_rollback, cbind. simpl.
  by rewrite abort_during.
Qed.
Lemma eop_commit e s t :
  env_quiet e -> txn_plain e t -> mt_rdonly t = false -> mt_dirty t = true ->
  end_of_process None (me_next e) YENOERR (during s t e) =
    let '(rc, s') := script_next 0 s in
    if negb (rc =? 0) then Fault UseAfterFree
    else Done (YENOERR, env_set_main (mt_main t) (after_txn s' e)).
Proof.
  intros Hq Hp Hr Hd. unfold end_of_process, database_transaction_commit, cbind.
  cbn -[mdb_txn_commit]. rewrite commit_during by done.
  destruct (script_next 0 s) as [rc s']. destruct (rc =? 0) eqn:E.
  - done.
  - cbn -[mdb_txn_abort]. rewrite E. unfold database_transaction_rollback, mdb_txn_abort, cbind.
    unfold cret. simpl. unfold txn_load. simpl. by rewrite (q_fresh e Hq).
Qed.

Lemma dbi_open_main t txn e :
  me_live e !! t = Some txn -> mdb_dbi_open t None true e = Done ((MDB_SUCCESS, Some MAIN_DBI), e) /\
  mdb_dbi_open t None false e = Done ((MDB_SUCCESS, Some MAIN_DBI), e).
Proof. intros H. unfold mdb_dbi_open, cbind, txn_load. by rewrite H. Qed.
Lemma dbi_open_main_during s t e c :
  mdb_dbi_open (me_next e) None c (during s t e) =
    Done ((MDB_SUCCESS, Some MAIN_DBI), during s t e).
Proof. unfold mdb_dbi_open. by cstep (txn_load_during s t e). Qed.

(** [mdb_put] and [mdb_del] on the main database. *)
Lemma put_during e s t key data co :
  env_quiet e -> txn_plain e t -> mt_rdonly t = false ->
  key_bad key = false -> lenZ data <= MAXDATASIZE -> plain_key (mt_main t) key ->
  mdb_put (me_next e) MAIN_DBI key data co (during s t e) =
    if co && bool_decide (is_Some (kv_of (mt_main t) !! key))
    then Done (MDB_KEYEXIST, during s t e)
    else let '(rc, s') := script_next 0 s in
         if negb (rc =? 0) then Done (rc, during s' t e)
         else Done (MDB_SUCCESS,
                    during s' (txn_set_main (<[key := NData data]> (mt_main t)) t) e).
Proof.
  intros Hq Hp Hr Hk Hd Hpk. unfold mdb_put. cstep (txn_load_during s t e).
  rewrite (dbi_bad_main e t Hq Hp), Hr, Hk, (proj2 (Z.ltb_ge _ _)) by lia.
  unfold cget, cbind at 1. rewrite (db_find_main _ t key Hpk). unfold clift, cbind at 1.
  destruct (co && _); [done|]. cstep (page_result_during s t e).
  destruct (script_next 0 s) as [rc s']. cbn [fst snd].
  destruct (negb (rc =? 0)); [done|]. unfold cbind, db_update, MAIN_DBI. cbn [Nat.eqb].
  by rewrite txn_store_during.
Qed.
Lemma del_during e s t key :
  env_quiet e -> txn_plain e t -> mt_rdonly t = false ->
  key_bad key = false -> plain_key (mt_main t) key ->
  mdb_del (me_next e) MAIN_DBI key (during s t e) =
    match kv_of (mt_main t) !! key with
    | None => Done (MDB_NOTFOUND, during s t e)
    | Some _ =>
        let '(rc, s') := script_next 0 s in
        if negb (rc =? 0) then Done (rc, during s' t e)
        else Done (MDB_SUCCESS, during s' (txn_set_main (delete key (mt_main t)) t) e)
    end.
Proof.
  intros Hq Hp Hr Hk Hpk. unfold mdb_del. cstep (txn_load_during s t e).
  rewrite (dbi_bad_main e t Hq Hp), Hr, Hk.
  unfold cget, cbind at 1. rewrite (db_find_main _ t key Hpk). unfold clift, cbind at 1.
  destruct (kv_of (mt_main t) !! key) as [d|]; [|done].
  cstep (page_result_during s t e).
  destruct (script_next 0 s) as [rc s']. cbn [fst snd].
  destruct (negb (rc =? 0)); [done|]. unfold cbind, db_update, MAIN_DBI. cbn [Nat.eqb].
  by rewrite txn_store_during.
Qed.

Lemma open_write_fail e rc s :
  rc <> 0 -> script_next 0 (me_script e) = (rc, s) ->
  open_transaction None false e = Done (None, env_set_script s e).
Proof.
  intros Hr Hs. simpl. unfold database_transaction_start, cbind.
  rewrite (begin_failed false e rc s) by done. by rewrite (proj2 (Z.eqb_neq _ _) Hr).
Qed.
Lemma open_write_ok e s :
  me_txn e = None -> script_next 0 (me_script e) = (0, s) ->
  open_transaction None false e =
    Done (Some (me_next e), during s (mdb_txn_renew0 false e) e).
Proof.
  intros Hw Hs. simpl. unfold database_transaction_start, cbind.
  by rewrite (begin_write e s).
Qed.

(** The behaviour of a standalone PUT on the default database, for every
    pattern of failures of the storage layer. *)
Lemma database_put_main e co key data :
  env_quiet e -> key_bad key = false -> lenZ data <= MAXDATASIZE ->
  plain_key (me_main e) key ->
  database_put None co None key data e =
    let '(r1, s1) := script_next 0 (me_script e) in
    if negb (r1 =? 0) then Done (YEACCESS, env_set_script s1 e)
    else if co && bool_decide (is_Some (kv e !! key)) then Done (YEACCESS, after_txn s1 e)
    else let '(r2, s2) := script_next 0 s1 in
    if negb (r2 =? 0) then Done (YEACCESS, after_txn s2 e)
    else let '(r3, s3) := script_next 0 s2 in
    if negb (r3 =? 0) then Fault UseAfterFree
    else Done (YENOERR, env_set_main (<[key := NData data]> (me_main e)) (after_txn s3 e)).
Proof.
  intros Hq Hk Hd Hpk. unfold database_put.
  destruct (script_next 0 (me_script e)) as [r1 s1] eqn:E1.
  destruct (Z.eqb_spec r1 0) as [->|Hr1]; cbn [negb].
  2: { by cstep (open_write_fail e r1 s1 Hr1 E1). }
  cstep (open_write_ok e s1 (q_writer e Hq) E1). cbn [fmap option_fmap option_map].
  set (t := mdb_txn_renew0 false e).
  cstep (dbi_open_main_during s1 t e true).
  cstep (put_during e s1 t key data co Hq (renew0_plain false e) eq_refl Hk Hd Hpk).
  fold (kv e). change (kv_of (mt_main t)) with (kv e).
  destruct (co && _).
  { unfold cbind at 1. cbn [negb Z.eqb MDB_KEYEXIST]. rewrite dbi_close_main.
    by apply eop_rollback. }
  destruct (script_next 0 s1) as [r2 s2] eqn:E2.
  destruct (Z.eqb_spec r2 0) as [->|Hr2]; cbn [negb].
  2: { unfold cbind. rewrite (proj2 (Z.eqb_neq _ _) Hr2). rewrite dbi_close_main.
       by apply eop_rollback. }
  unfold cbind. rewrite dbi_close_main. cbn [negb Z.eqb MDB_SUCCESS].
  by rewrite eop_commit.
Qed.

Lemma database_del_main e key :
  env_quiet e -> key_bad key = false -> plain_key (me_main e) key ->
  database_del None None key e =
    let '(r1, s1) := script_next 0 (me_script e) in
    if negb (r1 =? 0) then Done (YEACCESS, env_set_script s1 e)
    else match kv e !! key with
    | None => Done (YEACCESS, after_txn s1 e)
    | Some _ =>
    let '(r2, s2) := script_next 0 s1 in
    if negb (r2 =? 0) then Done (YEACCESS, after_txn s2 e)
    else let '(r3, s3) := script_next 0 s2 in
    if negb (r3 =? 0) then Fault UseAfterFree
    else Done (YENOERR, env_set_main (delete key (me_main e)) (after_txn s3 e))
    end.
Proof.
  intros Hq Hk Hpk. unfold database_del.
  destruct (script_next 0 (me_script e)) as [r1 s1] eqn:E1.
  destruct (Z.eqb_spec r1 0) as [->|Hr1]; cbn [negb].
  2: { by cstep (open_write_fail e r1 s1 Hr1 E1). }
  cstep (open_write_ok e s1 (q_writer e Hq) E1). cbn [fmap option_fmap option_map].
  set (t := mdb_txn_renew0 false e).
  cstep (dbi_open_main_during s1 t e false).
  cstep (del_during e s1 t key Hq (renew0_plain false e) eq_refl Hk Hpk).
  change (kv_of (mt_main t)) with (kv e).
  destruct (kv e !! key) as [d|].
  2: { unfold cbind at 1. cbn [negb Z.eqb MDB_NOTFOUND]. rewrite dbi_close_main.
    by apply eop_rollback. }
  destruct (script_next 0 s1) as [r2 s2] eqn:E2.
  destruct (Z.eqb_spec r2 0) as [->|Hr2]; cbn [negb].
  2: { unfold cbind. rewrite (proj2 (Z.eqb_neq _ _) Hr2). rewrite dbi_close_main.
       by apply eop_rollback. }
  unfold cbind. rewrite dbi_close_main. cbn [negb Z.eqb MDB_SUCCESS].
  by rewrite eop_commit.
Qed.

(** ** Reading *)
Definition get_answer (r : option bytes) : yerr_t * option bytes :=
  match r with
  | Some d => (YENOERR, Some d)
  | None => (YENODATA, None)
  end.

Lemma mdb_get_main t txn e key :
  me_live e !! t = Some txn -> dbi_bad txn MAIN_DBI = false -> key_bad key = false ->
  plain_key (mt_main txn) key ->
  mdb_get t MAIN_DBI key e =
    Done (match kv_of (mt_main txn) !! key with
          | Some d => (MDB_SUCCESS, Some d)
          | None => (MDB_NOTFOUND, None)
          end, e).
Proof.
  intros Ht Hb Hk Hp. unfold mdb_get, cbind at 1, txn_load. rewrite Ht, Hb, Hk.
  unfold cget, cbind. by rewrite (db_find_main e txn key Hp).
Qed.

Lemma database_get_main e key junk s1 :
  env_quiet e -> key_bad key = false -> plain_key (me_main e) key ->
  (readers e < me_maxreaders e)%nat -> script_next 0 (me_script e) = (0, s1) ->
  database_get None None key junk e = Done (get_answer (kv e !! key), after_txn s1 e).
Proof.
  intros Hq Hk Hpk Hr Hs. unfold database_get. unfold cbind at 1.
  cbn [open_transaction]. unfold database_transaction_start, cbind at 1.
  rewrite (begin_read e s1 Hr Hs). cbn [negb Z.eqb MDB_SUCCESS cret].
  set (t := mdb_txn_renew0 true e). cbn [fmap option_fmap option_map].
  cstep (dbi_open_main_during s1 t e false).
  cstep (mdb_get_main (me_next e) t (during s1 t e) key
           (lookup_insert_eq _ _ _) (dbi_bad_main e t Hq (renew0_plain true e)) Hk Hpk).
  change (kv_of (mt_main t)) with (kv e).
  unfold database_transaction_rollback.
  destruct (kv e !! key) as [d|]; unfold cbind; rewrite (abort_during e s1 t); done.
Qed.

(** GET inside a transaction reads the snapshot and changes nothing. *)
Lemma database_get_snapshot e t txn key junk :
  env_quiet e -> me_live e !! t = Some txn -> key_bad key = false ->
  plain_key (mt_main txn) key ->
  database_get (Some t) None key junk e = Done (get_answer (kv_of (mt_main txn) !! key), e).
Proof.
  intros Hq Ht Hk Hpk. unfold database_get, cbind at 1. cbn [open_transaction cret].
  cbn [fmap option_fmap option_map]. unfold cbind at 1.
  rewrite (proj2 (dbi_open_main t txn e Ht)). unfold cbind at 1.
  rewrite (mdb_get_main t txn e key Ht (snap_dbi_bad_main e t txn Hq Ht) Hk Hpk).
  by destruct (kv_of (mt_main txn) !! key) as [d|].
Qed.

(** Keys LMDB rejects. *)
Lemma database_put_bad_key e co key data s1 :
  env_quiet e -> key_bad key = true -> script_next 0 (me_script e) = (0, s1) ->
  database_put None co None key data e = Done (YEACCESS, after_txn s1 e).
Proof.
  intros Hq Hk E1. unfold database_put.
  cstep (open_write_ok e s1 (q_writer e Hq) E1). cbn [fmap option_fmap option_map].
  set (t := mdb_txn_renew0 false e). cstep (dbi_open_main_during s1 t e true).
  assert (Hput : mdb_put (me_next e) MAIN_DBI key data co (during s1 t e) =
                 Done (EINVAL, during s1 t e)).
  { unfold mdb_put. cstep (txn_load_during s1 t e).
    by rewrite (dbi_bad_main e t Hq (renew0_plain false e)), Hk. }
  cstep Hput. unfold cbind. rewrite dbi_close_main. by apply eop_rollback.
Qed.

(** Writing inside a transaction: START only opens read-only ones. *)
Lemma database_put_snapshot e t txn co key data :
  env_quiet e -> me_live e !! t = Some txn ->
  database_put (Some t) co None key data e = Done (YEACCESS, e).
Proof.
  intros Hq Ht. unfold database_put, cbind at 1. cbn [open_transaction cret].
  cbn [fmap option_fmap option_map]. unfold cbind at 1.
  rewrite (proj1 (dbi_open_main t txn e Ht)).
  unfold mdb_put, cbind at 1, cbind at 1, txn_load. rewrite Ht.
  rewrite (snap_dbi_bad_main e t txn Hq Ht), (q_rdonly e Hq t txn Ht). done.
Qed.
Lemma database_del_snapshot e t txn key :
  env_quiet e -> me_live e !! t = Some txn ->
  database_del (Some t) None key e = Done (YEACCESS, e).
Proof.
  intros Hq Ht. unfold database_del, cbind at 1. cbn [open_transaction cret].
  cbn [fmap option_fmap option_map]. unfold cbind at 1.
  rewrite (proj2 (dbi_open_main t txn e Ht)).
  unfold mdb_del, cbind at 1, cbind at 1, txn_load. rewrite Ht.
  rewrite (snap_dbi_bad_main e t txn Hq Ht), (q_rdonly e Hq t txn Ht). done.
Qed.

(** ** Named databases *)

(** The first free slot is slot 2 when no handle is open. *)
Lemma find_slot_none (p : dbi -> bool) i n :
  (forall j, p j = false) -> find_slot p i n = None.
Proof. intros Hp. revert i. induction n; intros i; simpl; [done|]. by rewrite Hp. Qed.
Lemma find_slot_first (p : dbi -> bool) i n :
  p i = true -> find_slot p i (S n) = Some i.
Proof. intros Hp. simpl. by rewrite Hp. Qed.

Definition slot_of (t : MDB_txn) : option dbi :=
  if (mt_numdbs t =? 2)%nat then None else Some 2%nat.
Lemma search_name_none (e : MDB_env) (name : bytes) n :
  me_dbxs e = ∅ -> find_slot (fun i => bool_decide (me_dbxs e !! i = Some name)) 2 n = None.
Proof. intros H. apply find_slot_none. intros j. by rewrite H, lookup_empty. Qed.
Lemma search_unused (e : MDB_env) t :
  me_dbxs e = ∅ -> (2 <= mt_numdbs t)%nat ->
  find_slot (fun i => bool_decide (me_dbxs e !! i = None)) 2 (mt_numdbs t - 2) = slot_of t.
Proof.
  intros H Hn. unfold slot_of. destruct (Nat.eqb_spec (mt_numdbs t) 2) as [->|]; [done|].
  replace (mt_numdbs t - 2)%nat with (S (mt_numdbs t - 3)) by lia.
  apply find_slot_first. by rewrite H, lookup_empty.
Qed.

(** Without room for named databases, a named database cannot be opened. *)
Lemma dbi_open_full t txn e name c :
  me_live e !! t = Some txn -> me_dbxs e = ∅ ->
  mt_numdbs txn = 2%nat -> (me_maxdbs e <= 2)%nat ->
  mdb_dbi_open t (Some name) c e = Done ((MDB_DBS_FULL, None), e).
Proof.
  intros Ht Hx Hn Hm. unfold mdb_dbi_open, cbind at 1, txn_load. rewrite Ht.
  unfold cget, cbind. rewrite (search_name_none e name _ Hx), (search_unused e txn Hx) by lia.
  unfold slot_of. rewrite Hn. simpl.
  by rewrite (proj2 (Nat.leb_le _ _)) by lia.
Qed.

(** A named database that does not exist, opened without [MDB_CREATE]. *)
Lemma dbi_open_missing t txn e name :
  me_live e !! t = Some txn -> me_dbxs e = ∅ -> (2 <= mt_numdbs txn)%nat ->
  (2 < me_maxdbs e)%nat -> name <> [] -> mt_main txn !! name = None ->
  mdb_dbi_open t (Some name) false e = Done ((MDB_NOTFOUND, None), e).
Proof.
  intros Ht Hx Hn Hm Hne Hl. unfold mdb_dbi_open, cbind at 1, txn_load. rewrite Ht.
  unfold cget, cbind. rewrite (search_name_none e name _ Hx), (search_unused e txn Hx Hn).
  replace (bool_decide (slot_of txn = None) && (me_maxdbs e <=? mt_numdbs txn)%nat) with false.
  2: { unfold slot_of. destruct (Nat.eqb_spec (mt_numdbs txn) 2) as [->|]; [|done].
       symmetry. apply andb_false_iff. right. apply Nat.leb_gt. lia. }
  rewrite (proj2 (Z.eqb_neq (lenZ name) 0)), Hl; [done|].
  intros H%lenZ_zero_nil. done.
Qed.

(** GET on a missing named database leaves its transaction open. *)
Lemma database_get_missing_db e name key junk s1 :
  env_quiet e -> (2 < me_maxdbs e)%nat -> cstr name <> [] ->
  me_main e !! cstr name = None -> (readers e < me_maxreaders e)%nat ->
  script_next 0 (me_script e) = (0, s1) ->
  exists e', database_get None (Some name) key junk e = Done ((YEACCESS, None), e') /\
    me_live e' = <[me_next e := mdb_txn_renew0 true e]> (me_live e).
Proof.
  intros Hq Hm Hne Hl Hr Hs. unfold database_get. unfold cbind at 1.
  cbn [open_transaction]. unfold database_transaction_start, cbind at 1.
  rewrite (begin_read e s1 Hr Hs). cbn [negb Z.eqb MDB_SUCCESS cret].
  set (t := mdb_txn_renew0 true e). cbn [fmap option_fmap option_map].
  assert (Hopen : mdb_dbi_open (me_next e) (Some (cstr name)) false (during s1 t e) =
                  Done ((MDB_NOTFOUND, None), during s1 t e)).
  { apply (dbi_open_missing _ t); try done; [apply lookup_insert_eq| |].
    - apply Hq.
    - apply Hq. }
  cstep Hopen. unfold cbind, mdb_dbi_close.
  destruct ((junk <=? MAIN_DBI)%nat || _); eauto.
Qed.

(** The state after a GET that leaked its transaction is again quiet. *)
Lemma leak_quiet e e' :
  env_quiet e -> me_maxdbs e' = me_maxdbs e -> me_numdbs e' = me_numdbs e ->
  me_dbxs e' = ∅ -> me_txn e' = None -> me_next e' = S (me_next e) ->
  me_live e' = <[me_next e := mdb_txn_renew0 true e]> (me_live e) -> env_quiet e'.
Proof.
  intros [Hw Hh Hn Hf Hr Hs] Em En Ex Et Ei El. constructor; rewrite ?Em, ?En, ?Ei, ?El; try done.
  - intros t Ht. rewrite lookup_insert_ne by lia. apply Hf. lia.
  - intros t txn. rewrite lookup_insert. case_decide; [by intros [= <-]|apply Hr].
  - intros t txn. rewrite lookup_insert. case_decide; [intros [= <-]; simpl; lia|apply Hs].
Qed.
Lemma readers_insert e t :
  env_quiet e -> mt_rdonly t = true ->
  size (filter (fun p : nat * MDB_txn => mt_rdonly p.2 = true)
          (<[me_next e := t]> (me_live e))) = S (readers e).
Proof.
  intros Hq Ht. rewrite map_filter_insert_True by done. apply map_size_insert_None.
  apply map_lookup_filter_None_2. left. by apply (q_fresh e Hq).
Qed.

(** One such GET, with everything the next one needs. *)
Lemma get_missing_step e name key junk :
  env_quiet e -> me_script e = [] -> (2 < me_maxdbs e)%nat -> cstr name <> [] ->
  me_main e !! cstr name = None -> (readers e < me_maxreaders e)%nat ->
  exists e', database_get None (Some name) key junk e = Done ((YEACCESS, None), e') /\
    env_quiet e' /\ me_script e' = [] /\ me_maxdbs e' = me_maxdbs e /\
    me_maxreaders e' = me_maxreaders e /\ me_main e' = me_main e /\
    readers e' = S (readers e).
Proof.
  intros Hq Hsc Hm Hne Hl Hr. unfold database_get. unfold cbind at 1.
  cbn [open_transaction]. unfold database_transaction_start, cbind at 1.
  rewrite (begin_read e [] Hr) by (by rewrite Hsc). cbn [negb Z.eqb MDB_SUCCESS cret].
  set (t := mdb_txn_renew0 true e). cbn [fmap option_fmap option_map].
  assert (Hopen : mdb_dbi_open (me_next e) (Some (cstr name)) false (during [] t e) =
                  Done ((MDB_NOTFOUND, None), during [] t e)).
  { apply (dbi_open_missing _ t); try done; [apply lookup_insert_eq|apply Hq|apply Hq]. }
  cstep Hopen. unfold cbind, mdb_dbi_close.
  pose proof (readers_insert e t Hq eq_refl).
  destruct ((junk <=? MAIN_DBI)%nat || _); eexists; (split; [done|]);
    (split; [apply (leak_quiet e); try done; simpl|]); try apply Hq; try done.
  rewrite (q_handles e Hq). apply delete_empty.
Qed.

(** PUT in a named database: the handle is closed while the transaction still
    has to write its record, so the commit fails, releases the transaction,
    and the rollback that follows releases it again. *)
Lemma commit_roots_closed e t :
  (2 < mt_numdbs t)%nat -> me_dbxs e !! 2%nat = None ->
  db_dirty (default no_flag (mt_dbflags t !! 2%nat)) = true -> commit_roots e t = None.
Proof.
  intros Hn Hx Hd. unfold commit_roots.
  replace (mt_numdbs t - 2)%nat with (S (mt_numdbs t - 3)) by lia. cbn [seq fold_left].
  unfold commit_root at 2. rewrite Hd, Hx.
  generalize (seq 3 (mt_numdbs t - 3)). intros l. by induction l.
Qed.

(** What an open of a named database gives to a writing operation. *)
Definition named_opened (e : MDB_env) (t : MDB_txn) (name : bytes) (e1 : MDB_env) : Prop :=
  exists txn, me_live e1 !! me_next e = Some txn /\ mt_rdonly txn = false /\
    (2 < mt_numdbs txn)%nat /\ db_valid (default no_flag (mt_dbflags txn !! 2%nat)) = true /\
    db_stale (default no_flag (mt_dbflags txn !! 2%nat)) = false /\
    me_dbxs e1 = {[2%nat := name]} /\ me_maxdbs e1 = me_maxdbs e /\ me_script e1 = [].

Lemma dbi_register_opened e t name m created :
  env_quiet e -> mt_numdbs t = me_numdbs e -> mt_rdonly t = false -> (2 < me_maxdbs e)%nat ->
  exists e1, dbi_register (me_next e) name m created (slot_of t) (during [] t e) =
    Done ((MDB_SUCCESS, Some 2%nat), e1) /\ named_opened e t name e1.
Proof.
  intros Hq Hn Hr Hm. unfold dbi_register. cstep (txn_load_during [] t e).
  pose proof (q_numdbs e Hq) as Hnum.
  assert (Hslot : default (mt_numdbs t) (slot_of t) = 2%nat).
  { unfold slot_of. by destruct (Nat.eqb_spec (mt_numdbs t) 2). }
  rewrite Hslot. eexists. split.
  { unfold cbind, txn_store. reflexivity. }
  eexists. split; [apply lookup_insert_eq|].
  unfold slot_of. destruct (Nat.eqb_spec (mt_numdbs t) 2) as [E|E]; simpl;
    rewrite lookup_insert_eq; simpl; rewrite (q_handles e Hq), ?E;
    repeat split; try done; lia.
Qed.

Lemma dbi_open_named e name :
  env_quiet e -> me_script e = [] -> (2 < me_maxdbs e)%nat ->
  name <> [] -> lenZ name <= MDB_MAXKEYSIZE ->
  (forall d, me_main e !! name <> Some (NData d)) ->
  exists e1, mdb_dbi_open (me_next e) (Some name) true
               (during [] (mdb_txn_renew0 false e) e) = Done ((MDB_SUCCESS, Some 2%nat), e1) /\
    named_opened e (mdb_txn_renew0 false e) name e1.
Proof.
  intros Hq Hs Hm Hne Hle Hnd. set (t := mdb_txn_renew0 false e).
  pose proof (q_numdbs e Hq) as Hnum.
  unfold mdb_dbi_open. cstep (txn_load_during [] t e). unfold cget, cbind at 1.
  rewrite (search_name_none (during [] t e) name _ (q_handles e Hq)).
  rewrite (search_unused (during [] t e) t (q_handles e Hq)) by (simpl; lia).
  replace (bool_decide (slot_of t = None) && _) with false.
  2: { unfold slot_of. destruct (Nat.eqb_spec (mt_numdbs t) 2) as [E|]; [|done].
       symmetry. apply andb_false_iff. right. apply Nat.leb_gt. rewrite E. done. }
  rewrite (proj2 (Z.eqb_neq (lenZ name) 0)) by (intros H%lenZ_zero_nil; done).
  destruct (mt_main t !! name) as [[d|m]|] eqn:E.
  - by destruct (Hnd d).
  - by apply dbi_register_opened.
  - cbn [negb]. change (mt_rdonly t) with false. cbn iota.
    rewrite (proj2 (Z.ltb_ge _ _)) by lia. cstep (page_result_during [] t e). simpl.
    unfold cbind. rewrite txn_store_during by done.
    by apply (dbi_register_opened e (txn_set_main _ t)).
Qed.

Lemma database_put_named e name key data :
  env_quiet e -> me_script e = [] -> (2 < me_maxdbs e)%nat ->
  cstr name <> [] -> lenZ (cstr name) <= MDB_MAXKEYSIZE ->
  (forall d, me_main e !! cstr name <> Some (NData d)) ->
  key_bad key = false -> lenZ data <= MAXDATASIZE ->
  database_put None false (Some name) key data e = Fault UseAfterFree.
Proof.
  intros Hq Hs Hm Hne Hle Hnd Hk Hd. unfold database_put.
  cstep (open_write_ok e [] (q_writer e Hq) ltac:(by rewrite Hs)).
  cbn [fmap option_fmap option_map].
  destruct (dbi_open_named e (cstr name)) as (e1 & Ho & txn & Ht & Hr & Hn & Hv & Hst & Hx & Hmx & Hs1);
    try done.
  cstep Ho.
  set (txn' := db_update (Some data) key 2 e1 txn).
  assert (Hput : mdb_put (me_next e) 2 key data false e1 =
                 Done (MDB_SUCCESS, env_set_live (<[me_next e := txn']> (me_live e1))
                                      (env_set_script [] e1))).
  { unfold mdb_put, cbind at 1, txn_load. rewrite Ht.
    replace (dbi_bad txn 2) with false.
    2: { unfold dbi_bad, MAIN_DBI. simpl. rewrite Hv.
         by rewrite (proj2 (Nat.leb_gt _ _)) by lia. }
    rewrite Hr, Hk, (proj2 (Z.ltb_ge _ _)) by lia.
    unfold cget, cbind, db_find, clift, page_result, MAIN_DBI. simpl. rewrite Hs1. done. }
  cstep Hput. cbn [negb Z.eqb MDB_SUCCESS].
  set (e2 := env_set_live _ _). unfold cbind at 1, mdb_dbi_close.
  replace ((2 <=? MAIN_DBI)%nat || _) with false.
  2: { simpl. symmetry. apply Nat.leb_gt. simpl. lia. }
  set (e3 := env_set_handles _ _ _).
  assert (Hl3 : me_live e3 !! me_next e = Some txn') by apply lookup_insert_eq.
  assert (Hr' : mt_rdonly txn' = false) by done.
  unfold end_of_process, database_transaction_commit, mdb_txn_commit. simpl.
  unfold cbind, txn_load at 1. rewrite Hl3, Hr'.
  assert (Hd' : mt_dirty txn' = true) by apply orb_true_r.
  rewrite Hd'. simpl. unfold cget.
  rewrite commit_roots_closed.
  2: { done. }
  2: { simpl. rewrite Hx. by rewrite lookup_delete_eq. }
  2: { simpl. by rewrite lookup_insert_eq. }
  unfold mdb_txn_abort, cbind, txn_load, cret. rewrite Hl3. simpl.
  unfold database_transaction_rollback, mdb_txn_abort, cbind, txn_load. simpl.
  by rewrite lookup_delete_eq.
Qed.

(** ** Properties *)

(** An environment over an empty file, with room for [n] named databases, in
    which the page layer answers with [script]. *)
Definition fresh_env (n : Z) (script : list Z) : MDB_env :=
  default (mdb_env_create []) (database_open ∅ (0 :: 0 :: script) 15 n).
Lemma fresh_env_quiet n script : 0 <= n < 2 ^ 31 -> env_quiet (fresh_env n script).
Proof.
  intros Hn. unfold fresh_env, database_open. simpl. destruct (Z.ltb_spec 1 n).
  - constructor; simpl; try done; [|intros ??; by rewrite lookup_empty..].
    rewrite wrap_small by lia. lia.
  - constructor; simpl; try done; intros ??; by rewrite lookup_empty.
Qed.

(** C26: a standalone PUT in the default database, for every pattern of
    storage failures, given by the results of the three calls into the storage
    layer (begin, put, commit).  If all three succeed and the key is not there in
    create-only mode, it returns [YENOERR] and the pair is in the database; if the
    begin or the put fails, or the key is there in create-only mode, it returns
    [YEACCESS] and the database is unchanged; and if the commit fails, the
    transaction is released twice.  No other case is left. *)
Theorem database_put_correct e co key data begin_rc s1 put_rc s2 commit_rc s3 :
  env_quiet e -> key_bad key = false -> lenZ data <= MAXDATASIZE ->
  plain_key (me_main e) key ->
  script_next 0 (me_script e) = (begin_rc, s1) -> script_next 0 s1 = (put_rc, s2) -> script_next 0 s2 = (commit_rc, s3) ->
  let taken := co && bool_decide (is_Some (kv e !! key)) in
  match database_put None co None key data e with
  | Done (rc, e') =>
      env_quiet e' /\
      (begin_rc = 0 /\ taken = false /\ put_rc = 0 /\ commit_rc = 0 /\ rc = YENOERR /\ kv e' = <[key := data]> (kv e) \/
       (begin_rc <> 0 \/ taken = true \/ put_rc <> 0) /\ rc = YEACCESS /\ kv e' = kv e)
  | Fault f => f = UseAfterFree /\ begin_rc = 0 /\ taken = false /\ put_rc = 0 /\ commit_rc <> 0
  end.
Proof.
  intros Hq Hk Hd Hp E1 E2 E3 taken. rewrite database_put_main by done. rewrite E1.
  destruct (Z.eqb_spec begin_rc 0) as [Hb|Hb]; cbn [negb]; [|split; [auto with finedb|right; by auto]].
  fold taken. destruct taken.
  { split; [auto with finedb|right; by auto]. }
  rewrite E2. destruct (Z.eqb_spec put_rc 0) as [Hu|Hu]; cbn [negb]; [|split; [auto with finedb|right; by auto]].
  rewrite E3. destruct (Z.eqb_spec commit_rc 0) as [Hr3|Hr3]; cbn [negb]; [|by split].
  split; [auto with finedb|]. left. do 5 (split; [done|]). apply kv_of_insert.
Qed.
Lemma database_put_correct_witness :
  database_put None false None [107] [118] (fresh_env 1 []) =
    Done (YENOERR, env_set_main {[ [107] := NData [118] ]} (after_txn [] (fresh_env 1 []))) /\
  match database_put None false None [107] [118] (fresh_env 1 [0; 0; 12]) with
  | Done _ => False
  | Fault f => f = UseAfterFree
  end.
Proof.
  split; [vm_compute; reflexivity|].
  pose proof (database_put_correct (fresh_env 1 [0; 0; 12]) false [107] [118] 0 [0; 12] 0 [12] 12 []
    (fresh_env_quiet 1 _ ltac:(lia)) eq_refl ltac:(vm_compute; discriminate)
    ltac:(intros sub; vm_compute; discriminate) eq_refl eq_refl eq_refl) as H.
  vm_compute in H |- *. destruct H as [H _]. exact H.
Defined.

(** A standalone DEL in the default database, for every pattern of storage
    failures: it succeeds exactly when the key exists and begin, delete and
    commit succeed, and then removes the key; otherwise it reports [YEACCESS]
    and changes nothing, unless the commit fails. *)
Theorem database_del_correct e key :
  env_quiet e -> key_bad key = false -> plain_key (me_main e) key ->
  match database_del None None key e with
  | Done (rc, e') =>
      env_quiet e' /\
      (rc = YENOERR /\ kv e' = delete key (kv e) /\ is_Some (kv e !! key) \/
       rc = YEACCESS /\ kv e' = kv e)
  | Fault f => f = UseAfterFree /\ is_Some (kv e !! key)
  end.
Proof.
  intros Hq Hk Hp. rewrite database_del_main by done.
  destruct (script_next 0 (me_script e)) as [r1 s1].
  destruct (r1 =? 0); cbn [negb]; [|split; [auto with finedb|by right]].
  destruct (kv e !! key) as [d|] eqn:E; [|split; [auto with finedb|by right]].
  destruct (script_next 0 s1) as [r2 s2].
  destruct (r2 =? 0); cbn [negb]; [|split; [auto with finedb|by right]].
  destruct (script_next 0 s2) as [r3 s3].
  destruct (r3 =? 0); cbn [negb]; [|split; [done|by eexists]].
  split; [auto with finedb|]. left. split; [done|]. split; [apply kv_of_delete|by eexists].
Qed.
Lemma database_del_correct_witness :
  match database_del None None [107] (fresh_env 1 []) with
  | Done (rc, e') => rc = YEACCESS /\ kv e' = ∅
  | Fault _ => False
  end.
Proof.
  pose proof (database_del_correct (fresh_env 1 []) [107] (fresh_env_quiet 1 _ ltac:(lia))
    eq_refl ltac:(intros sub; vm_compute; discriminate)) as H.
  destruct (database_del None None [107] (fresh_env 1 [])) as [[rc e']|f].
  - destruct H as [_ [(_ & _ & Hs)|[-> ->]]]; [|done]. vm_compute in Hs.
    destruct Hs as [x Hx]. discriminate Hx.
  - destruct H as [_ Hs]. vm_compute in Hs. destruct Hs as [x Hx]. discriminate Hx.
Defined.

(** What PUT has stored, GET returns, for the written key and for every
    other one, until the next write. *)
Theorem database_put_get e key data key' junk e1 :
  env_quiet e -> (readers e < me_maxreaders e)%nat -> me_script e = [] ->
  key_bad key = false -> key_bad key' = false -> lenZ data <= MAXDATASIZE ->
  plain_key (me_main e) key -> plain_key (me_main e) key' ->
  database_put None false None key data e = Done (YENOERR, e1) ->
  exists e2, database_get None None key' junk e1 =
    Done (get_answer (if decide (key' = key) then Some data else kv e !! key'), e2) /\ kv e2 = kv e1.
Proof.
  intros Hq Hr Hs Hk Hk' Hd Hp Hp' Hput. rewrite database_put_main in Hput by done.
  rewrite Hs in Hput. cbn -[env_set_main] in Hput. injection Hput as <-.
  set (e1 := env_set_main _ _).
  assert (Hq1 : env_quiet e1) by (subst e1; auto with finedb).
  assert (Hp1 : plain_key (me_main e1) key').
  { intros sub. simpl. rewrite lookup_insert. case_decide; [done|apply Hp']. }
  exists (after_txn [] e1). rewrite (database_get_main e1 key' junk []) by done.
  split; [|done]. do 3 f_equal. unfold kv. simpl. rewrite kv_of_insert, lookup_insert.
  by repeat case_decide; simplify_eq.
Qed.
Lemma database_put_get_witness :
  exists e1 e2, database_put None false None [107] [118; 49] (fresh_env 1 []) = Done (YENOERR, e1) /\
    database_get None None [107] 7 e1 = Done ((YENOERR, Some [118; 49]), e2).
Proof.
  set (e1 := env_set_main {[ [107] := NData [118; 49] ]} (after_txn [] (fresh_env 1 []))).
  assert (Hput : database_put None false None [107] [118; 49] (fresh_env 1 []) = Done (YENOERR, e1))
    by (vm_compute; reflexivity).
  assert (Hr : (readers (fresh_env 1 []) < me_maxreaders (fresh_env 1 []))%nat)
    by (vm_compute; lia).
  assert (Hp : plain_key (me_main (fresh_env 1 [])) [107])
    by (intros sub; vm_compute; discriminate).
  destruct (database_put_get (fresh_env 1 []) [107] [118; 49] [107] 7 e1
    (fresh_env_quiet 1 [] ltac:(lia)) Hr eq_refl eq_refl eq_refl
    ltac:(vm_compute; discriminate) Hp Hp Hput) as (e2 & H & _).
  exists e1, e2. split; [exact Hput|exact H].
Defined.

(** Inside a transaction (a read-only snapshot) GET answers from the
    snapshot, whatever was committed since, and PUT and DEL are refused; none
    of them changes anything. *)
Theorem transaction_is_snapshot e t txn key data junk co :
  env_quiet e -> me_live e !! t = Some txn -> key_bad key = false ->
  plain_key (mt_main txn) key ->
  database_get (Some t) None key junk e = Done (get_answer (kv_of (mt_main txn) !! key), e) /\
  database_put (Some t) co None key data e = Done (YEACCESS, e) /\
  database_del (Some t) None key e = Done (YEACCESS, e).
Proof.
  intros Hq Ht Hk Hp. split; [by apply database_get_snapshot|].
  split; [by eapply database_put_snapshot|by eapply database_del_snapshot].
Qed.
(** A snapshot taken before a PUT. *)
Definition snapshot_demo : MDB_env :=
  match (let! t := database_transaction_start true in
         database_put None false None [107] [118] : CM MDB_env yerr_t) (fresh_env 1 []) with
  | Done (_, e) => e
  | Fault _ => fresh_env 1 []
  end.
Lemma snapshot_demo_live :
  me_live snapshot_demo = {[0%nat := mdb_txn_renew0 true (fresh_env 1 [])]}.
Proof. vm_compute. reflexivity. Qed.
Lemma snapshot_demo_quiet : env_quiet snapshot_demo.
Proof.
  assert (Hnext : me_next snapshot_demo = 2%nat) by (vm_compute; reflexivity).
  constructor; rewrite ?snapshot_demo_live, ?Hnext; try (vm_compute; done).
  - intros t Ht. apply lookup_singleton_ne. lia.
  - by intros t txn [<- <-]%lookup_singleton_Some.
  - intros t txn [<- <-]%lookup_singleton_Some.
    split; apply Nat.leb_le; vm_compute; reflexivity.
Qed.
Lemma transaction_is_snapshot_witness :
  exists e, kv snapshot_demo !! [107] = Some [118] /\
    database_get (Some 0%nat) None [107] 0 snapshot_demo = Done ((YENODATA, None), e).
Proof.
  exists snapshot_demo. split; [vm_compute; reflexivity|].
  assert (E : me_live snapshot_demo !! 0%nat = Some (mdb_txn_renew0 true (fresh_env 1 [])))
    by (rewrite snapshot_demo_live; apply lookup_singleton_eq).
  destruct (transaction_is_snapshot snapshot_demo 0%nat _ [107] [] 0 false
    snapshot_demo_quiet E eq_refl) as [H _].
  - intros sub. vm_compute. discriminate.
  - exact H.
Defined.

(** PUT in a named database never returns normally, even when no call
    into the storage layer fails: the handle is closed before the commit that
    still needs it, the commit fails and frees the transaction, and the
    rollback that follows frees it again. *)
Theorem database_put_named_faults e name key data :
  env_quiet e -> me_script e = [] -> (2 < me_maxdbs e)%nat ->
  cstr name <> [] -> lenZ (cstr name) <= MDB_MAXKEYSIZE ->
  (forall d, me_main e !! cstr name <> Some (NData d)) ->
  key_bad key = false -> lenZ data <= MAXDATASIZE ->
  database_put None false (Some name) key data e = Fault UseAfterFree.
Proof. intros. by apply database_put_named. Qed.
Lemma database_put_named_faults_witness :
  database_put None false (Some [100; 98; 0]) [107] [118] (fresh_env 4 []) = Fault UseAfterFree.
Proof.
  apply (database_put_named_faults (fresh_env 4 []) [100; 98; 0] [107] [118]
    (fresh_env_quiet 4 [] ltac:(lia))).
  - reflexivity.
  - apply Nat.ltb_lt. vm_compute. reflexivity.
  - discriminate.
  - vm_compute. discriminate.
  - intros d. vm_compute. discriminate.
  - reflexivity.
  - vm_compute. discriminate.
Defined.

(** With the default configuration (one database) every operation on a
    named database is refused: PUT, DEL and DROP report [YEACCESS] without
    touching the database. *)
Theorem default_config_has_no_named_db files script key data name nbr_readers nbr_dbs e s1 :
  nbr_dbs <= 1 -> database_open files script nbr_readers nbr_dbs = Some e ->
  script_next 0 (me_script e) = (0, s1) ->
  database_put None false (Some name) key data e = Done (YEACCESS, after_txn s1 e) /\
  database_del None (Some name) key e = Done (YEACCESS, after_txn s1 e) /\
  database_drop None (Some name) e = Done (YEACCESS, after_txn s1 e).
Proof.
  intros Hn Ho Hs.
  assert (He : env_quiet e /\ me_maxdbs e = 2%nat /\ me_numdbs e = 2%nat).
  { clear Hs. revert Ho. unfold database_open. rewrite (proj2 (Z.ltb_ge 1 nbr_dbs)) by lia.
    destruct (script_next 0 script) as [r0 sc]. destruct (negb _); [done|].
    destruct (126 <? nbr_readers); unfold mdb_env_set_maxreaders; [destruct (nbr_readers <? 1); [done|]|];
      simpl; destruct (script_next 0 sc) as [r1 sc1]; destruct (r1 =? 0); try done; intros [= <-];
      (split; [|done]); constructor; simpl; try done; intros ??; by rewrite lookup_empty. }
  destruct He as (Hq & Hm & Hnum).
  assert (Hopen : forall c, mdb_dbi_open (me_next e) (Some (cstr name)) c
            (during s1 (mdb_txn_renew0 false e) e) =
            Done ((MDB_DBS_FULL, None), during s1 (mdb_txn_renew0 false e) e)).
  { intros c. apply (dbi_open_full _ (mdb_txn_renew0 false e)); simpl; try lia.
    - apply lookup_insert_eq.
    - apply Hq. }
  unfold database_put, database_del, database_drop.
  split; [|split]; cstep (open_write_ok e s1 (q_writer e Hq) Hs);
    cbn [fmap option_fmap option_map]; [cstep (Hopen true)|cstep (Hopen false)|cstep (Hopen false)];
    by apply eop_rollback.
Qed.
Lemma default_config_has_no_named_db_witness :
  database_drop None (Some [100; 98; 0]) (fresh_env 1 []) =
    Done (YEACCESS, after_txn [] (fresh_env 1 [])).
Proof.
  apply (default_config_has_no_named_db ∅ [] [] [] [100; 98; 0] 15 1 (fresh_env 1 []) []);
    [lia|vm_compute; reflexivity|reflexivity].
Defined.

(** Repeating a GET. *)
Fixpoint repeat_get (n : nat) (name key : bytes) (junk : dbi) : CM MDB_env unit :=
  match n with
  | O => cret tt
  | S n => do! database_get None (Some name) key junk in repeat_get n name key junk
  end.
Lemma repeat_get_leaks n name key junk e :
  env_quiet e -> me_script e = [] -> (2 < me_maxdbs e)%nat -> cstr name <> [] ->
  me_main e !! cstr name = None -> (readers e + n <= me_maxreaders e)%nat ->
  exists e', repeat_get n name key junk e = Done (tt, e') /\ env_quiet e' /\
    me_script e' = [] /\ me_maxreaders e' = me_maxreaders e /\ readers e' = (readers e + n)%nat.
Proof.
  revert e. induction n as [|n IH]; intros e Hq Hs Hm Hne Hl Hr.
  - exists e. rewrite Nat.add_0_r. done.
  - destruct (get_missing_step e name key junk) as (e1 & Hg & Hq1 & Hs1 & Hm1 & Hx1 & Hma1 & Hr1);
      try done; [lia|].
    destruct (IH e1) as (e2 & Hg2 & Hq2 & Hs2 & Hx2 & Hr2); try done; try congruence; [lia|].
    exists e2. cbn [repeat_get]. cstep Hg.
    split; [done|]. split; [done|]. split; [done|]. split; [congruence|lia].
Qed.

(** Every GET on a named database that does not exist leaves its read
    transaction open; after [me_maxreaders] of them the server can serve no
    GET and no START any more. *)
Theorem get_missing_db_exhausts_readers name key junk e key' junk' :
  env_quiet e -> me_script e = [] -> (2 < me_maxdbs e)%nat -> cstr name <> [] ->
  me_main e !! cstr name = None -> (readers e <= me_maxreaders e)%nat ->
  exists e', repeat_get (me_maxreaders e - readers e) name key junk e = Done (tt, e') /\
    database_get None None key' junk' e' = Done ((YEACCESS, None), e') /\
    database_transaction_start true e' = Done (None, e').
Proof.
  intros Hq Hs Hm Hne Hl Hr.
  destruct (repeat_get_leaks (me_maxreaders e - readers e) name key junk e) as
    (e' & Hg & Hq' & Hs' & Hx & Hr'); try done; [lia|].
  exists e'. split; [done|].
  assert (Hb : mdb_txn_begin true e' = Done ((MDB_READERS_FULL, None), e')).
  { unfold mdb_txn_begin, cbind, page_result. rewrite Hs'. simpl.
    unfold readers in *. simpl. rewrite (proj2 (Nat.leb_le _ _)) by lia.
    do 2 f_equal. destruct e'; simpl in *; by subst. }
  assert (Hst : database_transaction_start true e' = Done (None, e')).
  { unfold database_transaction_start. by cstep Hb. }
  split; [|done]. unfold database_get. cbn [open_transaction]. by cstep Hst.
Qed.
Lemma get_missing_db_exhausts_readers_witness :
  exists e', repeat_get 126 [100; 0] [107] 9 (fresh_env 4 []) = Done (tt, e') /\
    database_transaction_start true e' = Done (None, e').
Proof.
  destruct (get_missing_db_exhausts_readers [100; 0] [107] 9 (fresh_env 4 []) [107] 9
    (fresh_env_quiet 4 [] ltac:(lia)) eq_refl) as (e' & H1 & _ & H2).
  - apply Nat.ltb_lt. vm_compute. reflexivity.
  - discriminate.
  - vm_compute. reflexivity.
  - apply Nat.leb_le. vm_compute. reflexivity.
  - exists e'. split; [exact H1|exact H2].
Defined.
