(* ===== verification/Connection.v ===== *)
(** * Connection: the connection thread of src/src/server/connection_thread.c

    The state a connection thread works on: its [tcp_thread_t], the buffer it
    accumulates requests in, the database environment, the queue of the writer
    thread, and the world outside, given by scripts: what each [recv] delivers,
    what each [sendmsg] and [nn_send] returns, and which allocations succeed.
    The bytes handed to the socket are collected in [c_out]. *)
From S2P Require Import Prelude Protocol Dynabin Lmdb Database.

(** ** State *)
Record tcp_thread_t := {
  fd : Z;
  dbname : option bytes;        (* block of the database name, NUL included *)
  transaction : option nat
}.

Inductive writer_action_t := WRITE_PUT | WRITE_DEL | WRITE_DROP.
Record writer_msg_t := {
  wm_type : writer_action_t;
  wm_dbname : option bytes;
  wm_name : bytes;
  wm_data : bytes;
  wm_create_only : bool
}.

(** One [recv]: the bytes that have arrived, or an error (a timeout is one).
    Once the script is used up the peer has closed the connection. *)
Inductive rx := RxData (d : bytes) | RxErr.

Record conn := {
  c_env : MDB_env;
  c_thread : tcp_thread_t;
  c_buff : ydynabin_t;
  c_rx : list rx;
  c_tx : list (option Z);       (* results of sendmsg; [None]: everything was sent *)
  c_out : bytes;                (* bytes sent to the client *)
  c_nn : list Z;                (* results of nn_send *)
  c_queue : list writer_msg_t;  (* messages waiting for the writer thread *)
  c_alloc : alloc
}.

Definition set_env (e : MDB_env) (c : conn) : conn :=
  {| c_env := e; c_thread := c_thread c; c_buff := c_buff c; c_rx := c_rx c; c_tx := c_tx c;
     c_out := c_out c; c_nn := c_nn c; c_queue := c_queue c; c_alloc := c_alloc c |}.
Definition set_thread (t : tcp_thread_t) (c : conn) : conn :=
  {| c_env := c_env c; c_thread := t; c_buff := c_buff c; c_rx := c_rx c; c_tx := c_tx c;
     c_out := c_out c; c_nn := c_nn c; c_queue := c_queue c; c_alloc := c_alloc c |}.
Definition set_buff (b : ydynabin_t) (c : conn) : conn :=
  {| c_env := c_env c; c_thread := c_thread c; c_buff := b; c_rx := c_rx c; c_tx := c_tx c;
     c_out := c_out c; c_nn := c_nn c; c_queue := c_queue c; c_alloc := c_alloc c |}.
Definition set_rx (r : list rx) (c : conn) : conn :=
  {| c_env := c_env c; c_thread := c_thread c; c_buff := c_buff c; c_rx := r; c_tx := c_tx c;
     c_out := c_out c; c_nn := c_nn c; c_queue := c_queue c; c_alloc := c_alloc c |}.
Definition set_tx (t : list (option Z)) (o : bytes) (c : conn) : conn :=
  {| c_env := c_env c; c_thread := c_thread c; c_buff := c_buff c; c_rx := c_rx c; c_tx := t;
     c_out := o; c_nn := c_nn c; c_queue := c_queue c; c_alloc := c_alloc c |}.
Definition set_queue (n : list Z) (q : list writer_msg_t) (c : conn) : conn :=
  {| c_env := c_env c; c_thread := c_thread c; c_buff := c_buff c; c_rx := c_rx c; c_tx := c_tx c;
     c_out := c_out c; c_nn := n; c_queue := q; c_alloc := c_alloc c |}.
Definition set_alloc (a : alloc) (c : conn) : conn :=
  {| c_env := c_env c; c_thread := c_thread c; c_buff := c_buff c; c_rx := c_rx c; c_tx := c_tx c;
     c_out := c_out c; c_nn := c_nn c; c_queue := c_queue c; c_alloc := a |}.

(** Run a computation of the database layer, or of the allocator. *)
Definition on_env {A} (m : CM MDB_env A) : CM conn A := fun c =>
  match m (c_env c) with
  | Done (a, e) => Done (a, set_env e c)
  | Fault f => Fault f
  end.
Definition on_alloc {A} (m : CM alloc A) : CM conn A := fun c =>
  match m (c_alloc c) with
  | Done (a, s) => Done (a, set_alloc s c)
  | Fault f => Fault f
  end.
Definition modify_thread (f : tcp_thread_t -> tcp_thread_t) : CM conn unit := fun c =>
  Done (tt, set_thread (f (c_thread c)) c).

(** ** System calls *)
Definition RECV_SIZE : Z := 8196.

Inductive recv_result := RecvError | RecvClosed | RecvBytes (d : bytes).
Definition recv_step (r : list rx) : recv_result * list rx :=
  match r with
  | [] => (RecvClosed, [])
  | RxErr :: r => (RecvError, r)
  | RxData d :: r =>
      if lenZ d =? 0 then (RecvClosed, r)
      else if lenZ d <=? RECV_SIZE then (RecvBytes d, r)
      else (RecvBytes (takeZ RECV_SIZE d), RxData (dropZ RECV_SIZE d) :: r)
  end.

(** [sendmsg]: the message is appended to the output as far as the result
    says it was sent. *)
Definition sendmsg (msg : bytes) : CM conn Z := fun c =>
  let '(r, tx) := script_next None (c_tx c) in
  match r with
  | None => Done (lenZ msg, set_tx tx (c_out c ++ msg) c)
  | Some rc => Done (rc, set_tx tx (c_out c ++ takeZ rc msg) c)
  end.

Definition nn_send (msg : writer_msg_t) : CM conn Z := fun c =>
  let '(rc, nn) := script_next 8 (c_nn c) in
  if rc <? 0 then Done (rc, set_queue nn (c_queue c) c)
  else Done (rc, set_queue nn (c_queue c ++ [msg]) c).

(** ** Operations *)

(** The loop of [connection_read_data]. *)
Fixpoint read_loop (fuel : nat) (size : Z) : CM conn yerr_t := fun c =>
  if size <=? yd_len (c_buff c) then Done (YENOERR, c) else
  match fuel with
  | O => Fault OutOfFuel
  | S fuel =>
      let '(r, rx) := recv_step (c_rx c) in
      let c := set_rx rx c in
      match r with
      | RecvError => Done (YEACCESS, c)
      | RecvClosed => Done (YECONNRESET, c)
      | RecvBytes d =>
          (let! '(dynaerr, b) := on_alloc (ydynabin_expand (c_buff c) (Some d) (lenZ d)) in
           fun c =>
             let c := set_buff b c in
             if negb (dynaerr =? YENOERR) then Done (dynaerr, c)
             else read_loop fuel size c) c
      end
  end.
(** Bytes still to be received; each turn of the loop takes one at least, so
    the loop needs no more turns than that (and one to see the end). *)
Fixpoint rx_total (r : list rx) : Z :=
  match r with
  | [] => 0
  | RxData d :: r => lenZ d + rx_total r
  | RxErr :: r => rx_total r
  end.
Definition connection_read_data (size : Z) : CM conn yerr_t := fun c =>
  if fd (c_thread c) <? 0 then Done (YECONNRESET, c)
  else if size <=? yd_len (c_buff c) then Done (YENOERR, c)
  else read_loop (S (Z.to_nat (rx_total (c_rx c)))) size c.

Definition connection_send_response (code : protocol_response_t) (serialized compressed : bool)
    (data : option bytes) (data_len : Z) : CM conn yerr_t :=
  let code_byte := response_byte code serialized compressed in
  let! msg :=
    match data with
    | None => cret [code_byte]
    | Some d =>
        let! d := clift (blk_read d 0 data_len) in
        cret ([code_byte] ++ be_bytes 4 (u32 data_len) ++ d)
    end in
  let! rc := sendmsg msg in
  if rc <? 0 then cret YEIO
  else if rc <? lenZ msg then cret YEIO
  else if lenZ msg <? rc then cret YEIO
  else cret YENOERR.
Definition CONNECTION_SEND_OK : CM conn yerr_t :=
  connection_send_response RESP_OK false false None 0.
Definition CONNECTION_SEND_ERROR (err : protocol_response_t) : CM conn yerr_t :=
  connection_send_response err false false None 0.

(** [thread->dbname] is released and, YFREE being a macro that resets its
    argument, null afterwards. *)
Definition connection_thread_disconnect : CM conn unit := fun c =>
  let t := c_thread c in
  if fd t =? -1 then Done (tt, c)
  else
    (do! (match transaction t with
          | Some txn => on_env (database_transaction_rollback txn)
          | None => cret tt
          end) in
     modify_thread (fun _ => {| fd := -1; dbname := None; transaction := None |})) c.

(** A new thread: [tid] is the result of [pthread_create]. *)
Definition connection_thread_new (tid : Z) : CM alloc (option tcp_thread_t) :=
  let! blk := ymalloc 48 in
  match blk with
  | None => cfault NullDeref
  | Some _ =>
      if negb (tid =? 0) then cret None
      else cret (Some {| fd := -1; dbname := None; transaction := None |})
  end.

(** The descriptors waiting in the pipe between the main thread and the
    connection threads. *)
Definition connection_thread_push_socket (nn : Z) (f : Z) (pipe : list Z) : list Z :=
  if nn <? 0 then pipe else pipe ++ [f].

(** ** The incoming stream *)

(** The bytes the client sends before the stream ends, and how it ends. *)
Fixpoint rx_bytes (r : list rx) : bytes :=
  match r with
  | RxData d :: r => if lenZ d =? 0 then [] else d ++ rx_bytes r
  | _ => []
  end.
Fixpoint rx_end (r : list rx) : yerr_t :=
  match r with
  | [] => YECONNRESET
  | RxErr :: _ => YEACCESS
  | RxData d :: r => if lenZ d =? 0 then YECONNRESET else rx_end r
  end.

Lemma recv_step_spec r :
  match recv_step r with
  | (RecvError, _) => rx_bytes r = [] /\ rx_end r = YEACCESS
  | (RecvClosed, _) => rx_bytes r = [] /\ rx_end r = YECONNRESET
  | (RecvBytes d, r') => 0 < lenZ d <= RECV_SIZE /\ rx_bytes r = d ++ rx_bytes r' /\
                         rx_end r = rx_end r'
  end.
Proof.
  destruct r as [|[d|] r]; simpl; try done.
  pose proof (lenZ_nonneg d). destruct (Z.eqb_spec (lenZ d) 0); [done|].
  unfold RECV_SIZE. destruct (Z.leb_spec (lenZ d) 8196); [simpl; repeat split; lia|].
  rewrite lenZ_takeZ by lia. simpl. rewrite lenZ_dropZ by lia.
  rewrite (proj2 (Z.eqb_neq _ 0)) by lia. rewrite app_assoc, takeZ_dropZ. split; [lia|done].
Qed.

Lemma rx_total_nonneg r : 0 <= rx_total r.
Proof. induction r as [|[d|] r IH]; simpl; lens. Qed.
Lemma recv_step_total r :
  match recv_step r with
  | (RecvBytes d, r') => 0 < lenZ d /\ lenZ d + rx_total r' = rx_total r
  | (_, r') => rx_total r' <= rx_total r
  end.
Proof.
  pose proof (recv_step_spec r) as Hs. destruct r as [|[d|] r]; simpl in *; try lia.
  destruct (Z.eqb_spec (lenZ d) 0); [lia|].
  destruct (Z.leb_spec (lenZ d) RECV_SIZE) as [|Hgt]; simpl; [lens|].
  unfold RECV_SIZE in *. rewrite lenZ_takeZ, lenZ_dropZ by lens. lia.
Qed.

(** What a call of the read loop leaves unchanged. *)
Definition same_but_input (c c' : conn) : Prop :=
  c_env c' = c_env c /\ c_thread c' = c_thread c /\ c_tx c' = c_tx c /\
  c_out c' = c_out c /\ c_nn c' = c_nn c /\ c_queue c' = c_queue c /\ c_alloc c' = c_alloc c.
Lemma same_but_input_refl c : same_but_input c c.
Proof. done. Qed.
Lemma same_but_input_trans c1 c2 c3 :
  same_but_input c1 c2 -> same_but_input c2 c3 -> same_but_input c1 c3.
Proof. unfold same_but_input. naive_solver congruence. Qed.
#[export] Hint Resolve same_but_input_refl : finedb.

(** Expanding the buffer of a connection that has memory. *)
Lemma expand_conn c d :
  yd_wf (c_buff c) -> 0 < lenZ d < 2 ^ 60 -> c_alloc c = [] ->
  if expand_safe (c_buff c) (lenZ d)
  then exists b, on_alloc (ydynabin_expand (c_buff c) (Some d) (lenZ d)) c =
         Done ((YENOERR, b), c) /\ yd_appended (c_buff c) b d /\
         yd_len b + yd_free b = (if yd_free (c_buff c) <? lenZ d then yd_alloc (lenZ d)
                                 else yd_len (c_buff c) + yd_free (c_buff c))
  else on_alloc (ydynabin_expand (c_buff c) (Some d) (lenZ d)) c = Fault HeapOverflow.
Proof.
  intros Hwf Hd Ha. unfold on_alloc. rewrite Ha.
  destruct (expand_safe (c_buff c) (lenZ d)) eqn:E; [|by rewrite expand_overflows].
  destruct (expand_appends (c_buff c) d [] Hwf Hd E eq_refl) as (b & -> & Hb).
  exists b. split; [|done]. do 2 f_equal. unfold expand_script.
  destruct c; simpl in *. by rewrite Ha; destruct (_ <? _).
Qed.

(** The loop, for every stream: it delivers the stream in order, and stops
    as soon as enough bytes have arrived or the stream ends. *)
Definition read_post (size : Z) (c : conn) (o : outcome (yerr_t * conn)) : Prop :=
  match o with
  | Done (rc, c') =>
      yd_wf (c_buff c') /\ same_but_input c c' /\
      let stream := yd_content (c_buff c) ++ rx_bytes (c_rx c) in
      if size <=? lenZ stream
      then rc = YENOERR /\ size <= yd_len (c_buff c') /\
           yd_content (c_buff c') ++ rx_bytes (c_rx c') = stream
      else rc = rx_end (c_rx c) /\ yd_content (c_buff c') = stream
  | Fault f => f = HeapOverflow
  end.

(** A step that took [d] from the stream and appended it to the buffer. *)
Lemma read_post_step size c c1 d o :
  rx_bytes (c_rx c) = d ++ rx_bytes (c_rx c1) -> rx_end (c_rx c) = rx_end (c_rx c1) ->
  yd_content (c_buff c1) = yd_content (c_buff c) ++ d -> same_but_input c c1 ->
  read_post size c1 o -> read_post size c o.
Proof.
  intros Hb He Hc Hs. unfold read_post. destruct o as [[rc c']|]; [|done].
  intros (Hwf & Hs' & H). split; [done|]. split; [eauto using same_but_input_trans|].
  revert H. by rewrite Hb, He, Hc, app_assoc.
Qed.

Lemma read_loop_spec fuel size c :
  yd_wf (c_buff c) -> c_alloc c = [] -> rx_total (c_rx c) < Z.of_nat fuel ->
  read_post size c (read_loop fuel size c).
Proof.
  revert c. induction fuel as [|fuel IH]; intros c Hwf Ha Hf; cbn [read_loop];
    pose proof (yd_content_len _ Hwf) as Hl;
    destruct (Z.leb_spec size (yd_len (c_buff c))) as [Hle|Hgt].
  1,3: split; [done|]; split; [done|]; cbn zeta; rewrite (proj2 (Z.leb_le _ _)) by lens; done.
  { pose proof (rx_total_nonneg (c_rx c)). lia. }
  pose proof (recv_step_spec (c_rx c)) as Hr. pose proof (recv_step_total (c_rx c)) as Htot.
  destruct (recv_step (c_rx c)) as [[| |d] rx'].
  1,2: destruct Hr as [Hb He]; cbn [read_post set_rx c_buff];
    (split; [done|]); (split; [done|]); cbn zeta; rewrite Hb, app_nil_r;
    rewrite (proj2 (Z.leb_gt _ _)) by lia; done.
  destruct Hr as (Hd & Hb & He). unfold RECV_SIZE in Hd.
  pose proof (expand_conn (set_rx rx' c) d Hwf ltac:(lia) Ha) as Hx.
  change (c_buff (set_rx rx' c)) with (c_buff c) in Hx.
  destruct (expand_safe (c_buff c) (lenZ d)).
  2: { unfold cbind. cbn [set_rx c_buff] in *. by rewrite Hx. }
  destruct Hx as (b & Hx & (Hwf' & Hc & Hlen & _) & _).
  unfold cbind. cbn [set_rx c_buff] in Hx |- *. rewrite Hx. cbn [negb Z.eqb YENOERR].
  apply (read_post_step size c (set_buff b (set_rx rx' c)) d); try done.
  apply IH; try done. simpl. lia.
Qed.

Lemma read_data_spec size c :
  yd_wf (c_buff c) -> c_alloc c = [] -> 0 <= fd (c_thread c) -> 0 <= size ->
  read_post size c (connection_read_data size c).
Proof.
  intros Hwf Ha Hfd Hsz. unfold connection_read_data.
  rewrite (proj2 (Z.ltb_ge _ _)) by lia.
  pose proof (yd_content_len _ Hwf). destruct Hwf as (?&?&?&Hd) eqn:E.
  destruct (Z.leb_spec size (yd_len (c_buff c))).
  - split; [done|]. split; [done|]. cbn zeta. rewrite (proj2 (Z.leb_le _ _)) by lens. done.
  - apply read_loop_spec; [done|done|lia].
Qed.

(** The bytes are already in the buffer. *)
Lemma read_data_buffered size c :
  0 <= fd (c_thread c) -> size <= yd_len (c_buff c) ->
  connection_read_data size c = Done (YENOERR, c).
Proof.
  intros Hfd Hsz. unfold connection_read_data.
  rewrite (proj2 (Z.ltb_ge _ _)), (proj2 (Z.leb_le _ _)) by lia. done.
Qed.

(** The bytes arrive in one segment that is at least as long as what is
    still unread in the buffer. *)
Lemma expand_safe_long b (d : bytes) :
  0 < lenZ d <= RECV_SIZE -> yd_len b <= lenZ d -> expand_safe b (lenZ d) = true.
Proof.
  unfold RECV_SIZE, expand_safe. intros Hd Hl. apply orb_true_intro. right. apply Z.leb_le.
  pose proof (yd_alloc_double (lenZ d) ltac:(unfold MB; lia)). lia.
Qed.
Lemma read_data_one_segment size c d r :
  yd_wf (c_buff c) -> c_alloc c = [] -> 0 <= fd (c_thread c) ->
  0 < lenZ d <= RECV_SIZE -> yd_len (c_buff c) <= lenZ d ->
  yd_len (c_buff c) < size <= yd_len (c_buff c) + lenZ d ->
  exists b, connection_read_data size (set_rx (RxData d :: r) c) =
      Done (YENOERR, set_buff b (set_rx r c)) /\
    yd_wf b /\ yd_content b = yd_content (c_buff c) ++ d.
Proof.
  intros Hwf Ha Hfd Hd Hl Hsz. unfold connection_read_data.
  cbn [set_rx c_thread c_buff]. rewrite (proj2 (Z.ltb_ge _ _)) by lia.
  rewrite (proj2 (Z.leb_gt _ _)) by lia.
  set (fuel := Z.to_nat _). cbn [read_loop]. change (c_buff (set_rx _ c)) with (c_buff c).
  change (c_rx (set_rx ?x c)) with x. cbn [recv_step]. rewrite (proj2 (Z.leb_gt _ _)) by lia.
  rewrite (proj2 (Z.eqb_neq _ _)), (proj2 (Z.leb_le (lenZ d) _)) by lia.
  change (set_rx r (set_rx _ c)) with (set_rx r c). change (c_buff (set_rx _ c)) with (c_buff c).
  pose proof (expand_conn (set_rx r c) d Hwf ltac:(unfold RECV_SIZE in Hd; lia) Ha) as Hx.
  change (c_buff (set_rx r c)) with (c_buff c) in Hx.
  rewrite (expand_safe_long (c_buff c) d Hd Hl) in Hx.
  destruct Hx as (b & Hx & (Hwf' & Hc & Hlen & _) & _). exists b. split; [|done].
  unfold cbind. rewrite Hx. cbn [negb Z.eqb YENOERR].
  destruct fuel; cbn [read_loop set_buff c_buff]; by rewrite (proj2 (Z.leb_le _ _)) by lia.
Qed.

(** ** Streams cut into equal segments

    The size of the block a growing buffer gets depends on the last segment
    only, so the buffer never holds more than its capacity allowed before or
    than [yd_alloc] of one segment; a longer request overflows it. *)
Definition segmented (n : Z) (r : list rx) : Prop :=
  Forall (fun x => exists d, x = RxData d /\ lenZ d = n) r.
Lemma read_loop_overflow fuel n size c :
  yd_wf (c_buff c) -> c_alloc c = [] -> 0 < n <= RECV_SIZE -> segmented n (c_rx c) ->
  size <= yd_len (c_buff c) + lenZ (rx_bytes (c_rx c)) ->
  Z.max (yd_len (c_buff c) + yd_free (c_buff c)) (yd_alloc n) < size ->
  rx_total (c_rx c) < Z.of_nat fuel ->
  read_loop fuel size c = Fault HeapOverflow.
Proof.
  revert c. induction fuel as [|fuel IH]; intros c Hwf Ha Hn Hseg Henough Hbig Hf.
  { pose proof (rx_total_nonneg (c_rx c)). lia. }
  cbn [read_loop]. pose proof Hwf as (?&?&?&_). rewrite (proj2 (Z.leb_gt _ _)) by lia.
  destruct (c_rx c) as [|x r] eqn:Er; [simpl in Henough; lens|].
  apply Forall_cons in Hseg as [(d & -> & Hd) Hseg].
  cbn [recv_step]. rewrite (proj2 (Z.eqb_neq _ _)), (proj2 (Z.leb_le (lenZ d) _)) by lia.
  unfold RECV_SIZE in *.
  pose proof (expand_conn (set_rx r c) d Hwf ltac:(lia) Ha) as Hx.
  change (c_buff (set_rx r c)) with (c_buff c) in Hx.
  unfold cbind. cbn [set_rx c_buff]. unfold set_rx in Hx |- *.
  destruct (expand_safe (c_buff c) (lenZ d)); [|by rewrite Hx].
  destruct Hx as (b & -> & (Hwf' & Hc & Hlen & _) & Hcap). cbn [negb Z.eqb YENOERR].
  cbn [rx_bytes] in Henough. rewrite (proj2 (Z.eqb_neq _ _)) in Henough by lia.
  rewrite lenZ_app in Henough. cbn [rx_total] in Hf.
  apply IH; cbn [set_buff c_buff c_rx c_alloc]; try done; [lia| |lia].
  rewrite Hcap, Hd. destruct (yd_free (c_buff c) <? n); lia.
Qed.

(** ** Responses *)
Lemma send_response_spec code ser comp data dlen c :
  (match data with Some d => lenZ d = dlen | None => True end) ->
  connection_send_response code ser comp data dlen c =
    let msg := response_byte code ser comp ::
                 match data with
                 | Some d => be_bytes 4 (u32 dlen) ++ d
                 | None => []
                 end in
    let '(r, tx) := script_next None (c_tx c) in
    match r with
    | None => Done (YENOERR, set_tx tx (c_out c ++ msg) c)
    | Some rc => Done (if rc =? lenZ msg then YENOERR else YEIO,
                       set_tx tx (c_out c ++ takeZ rc msg) c)
    end.
Proof.
  intros Hd. unfold connection_send_response.
  set (msg := response_byte code ser comp ::
     match data with Some d => be_bytes 4 (u32 dlen) ++ d | None => [] end).
  assert (Hm : forall k : bytes -> CM conn yerr_t,
    cbind (match data with
           | Some d => let! d := clift (blk_read d 0 dlen) in
                       cret ([response_byte code ser comp] ++ be_bytes 4 (u32 dlen) ++ d)
           | None => cret [response_byte code ser comp]
           end) k c = k msg c).
  { intros k. destruct data as [d|]; [|done]. unfold cbind, cret, clift.
    rewrite blk_read_ok by lens. rewrite dropZ_0, takeZ_all by lens. done. }
  rewrite Hm. unfold cbind, sendmsg.
  destruct (script_next None (c_tx c)) as [[rc|] tx]; cbn zeta iota.
  - destruct (Z.ltb_spec rc 0).
    { rewrite (proj2 (Z.eqb_neq rc _)) by lens. done. }
    destruct (Z.ltb_spec rc (lenZ msg)).
    { rewrite (proj2 (Z.eqb_neq rc _)) by lens. done. }
    destruct (Z.ltb_spec (lenZ msg) rc).
    { rewrite (proj2 (Z.eqb_neq rc _)) by lens. done. }
    rewrite (proj2 (Z.eqb_eq rc _)) by lia. done.
  - rewrite (proj2 (Z.ltb_ge (lenZ msg) 0)) by lens. by rewrite Z.ltb_irrefl.
Qed.

(** A response that goes out completely. *)
Lemma send_response_ok code ser comp data dlen c :
  (match data with Some d => lenZ d = dlen | None => True end) -> c_tx c = [] ->
  connection_send_response code ser comp data dlen c =
    Done (YENOERR, set_tx [] (c_out c ++ response_byte code ser comp ::
                 match data with
                 | Some d => be_bytes 4 (u32 dlen) ++ d
                 | None => []
                 end) c).
Proof. intros Hd Ht. rewrite send_response_spec by done. by rewrite Ht. Qed.
Lemma send_code_ok code c :
  c_tx c = [] ->
  connection_send_response code false false None 0 c =
    Done (YENOERR, set_tx [] (c_out c ++ [response_code code]) c).
Proof. intros Ht. by rewrite send_response_ok. Qed.

(** ** Reading a field of a request

    Every handler reads a field with [connection_read_data] followed by
    [ydynabin_forward] and an access to the bytes at the returned pointer. *)
Definition forward_bytes (n : Z) : CM conn bytes := fun c =>
  let '(ptr, b) := ydynabin_forward (c_buff c) n in
  if n =? 0 then Done ([], set_buff b c)
  else match ptr with
       | None => Fault NullDeref
       | Some v =>
           match blk_read v 0 n with
           | Done d => Done (d, set_buff b c)
           | Fault f => Fault f
           end
       end.
(** [None]: the field could not be read and the handler goes to its error
    exit. *)
Definition read_field (n : Z) : CM conn (option bytes) :=
  let! r := connection_read_data n in
  if negb (r =? YENOERR) then cret None
  else let! d := forward_bytes n in cret (Some d).

Lemma forward_bytes_spec n c :
  yd_wf (c_buff c) -> 0 <= n <= yd_len (c_buff c) ->
  exists b, forward_bytes n c = Done (takeZ n (yd_content (c_buff c)), set_buff b c) /\
    yd_wf b /\ yd_content b = dropZ n (yd_content (c_buff c)).
Proof.
  intros Hwf Hn. unfold forward_bytes.
  pose proof (yd_content_len _ Hwf) as Hlen.
  destruct (Z.eqb_spec n 0) as [->|Hn0].
  { unfold ydynabin_forward. rewrite (proj2 (Z.ltb_ge _ _)) by lia. cbn iota.
    eexists. rewrite takeZ_0, dropZ_0 by lia. split; [done|].
    rewrite Z.sub_0_r, Z.add_0_r. by destruct (c_buff c). }
  assert (Hd : yd_data (c_buff c) <> None).
  { intros E. destruct Hwf as (?&?&?&Hw). rewrite E in Hw. lia. }
  destruct (forward_spec (c_buff c) n Hwf Hn Hd) as (v & b & -> & Ht & Hc & Hwf' & _).
  assert (Hv : lenZ (takeZ n v) = n) by (rewrite Ht; apply lenZ_takeZ; lia).
  assert (n <= lenZ v).
  { unfold takeZ, lenZ in *. rewrite length_take in Hv. lia. }
  rewrite blk_read_ok by lia. rewrite dropZ_0, Ht by lia. eauto.
Qed.

(** A field that is already in the buffer. *)
Lemma read_field_buffered f rest c :
  yd_wf (c_buff c) -> 0 <= fd (c_thread c) -> yd_content (c_buff c) = f ++ rest ->
  exists b, read_field (lenZ f) c = Done (Some f, set_buff b c) /\
    yd_wf b /\ yd_content b = rest.
Proof.
  intros Hwf Hfd Hc. pose proof (yd_content_len _ Hwf) as Hlen.
  rewrite Hc in Hlen. unfold read_field.
  cstep (read_data_buffered (lenZ f) c Hfd ltac:(lens)). rewrite Z.eqb_refl. cbn [negb].
  destruct (forward_bytes_spec (lenZ f) c Hwf ltac:(lens)) as (b & Hf & Hwf' & Hb).
  cstep Hf. rewrite Hc, takeZ_app_eq in * by done. rewrite dropZ_app_eq in Hb by done. eauto.
Qed.

(** A field the stream does not contain completely. *)
Lemma read_field_truncated n c :
  yd_wf (c_buff c) -> c_alloc c = [] -> 0 <= fd (c_thread c) -> 0 <= n ->
  lenZ (yd_content (c_buff c) ++ rx_bytes (c_rx c)) < n ->
  match read_field n c with
  | Done (r, c') => r = None /\ yd_wf (c_buff c') /\ same_but_input c c'
  | Fault f => f = HeapOverflow
  end.
Proof.
  intros Hwf Ha Hfd Hn Hlt. unfold read_field, cbind.
  pose proof (read_data_spec n c Hwf Ha Hfd Hn) as H. unfold read_post in H.
  destruct (connection_read_data n c) as [[rc c']|f]; [|done].
  destruct H as (Hwf' & Hs & H). cbn zeta in H.
  rewrite (proj2 (Z.leb_gt _ _)) in H by done. destruct H as [-> _].
  assert (Hne : forall r, rx_end r <> YENOERR).
  { intros r. induction r as [|[d|] r IH]; simpl; try done. by destruct (_ =? 0). }
  rewrite (proj2 (Z.eqb_neq _ _) (Hne _)). done.
Qed.

(** ** Properties *)

(** C31: receiving.  For every stream of segments, [connection_read_data]
    returns [YENOERR] exactly when the stream holds enough bytes, and then
    buffer and remaining stream are the old buffer followed by the old stream;
    otherwise it reports how the stream ended and everything received is in
    the buffer.  The only fault is the overflow of the buffer; in particular
    the loop always ends. *)
Theorem connection_read_data_correct size c :
  yd_wf (c_buff c) -> c_alloc c = [] -> 0 <= fd (c_thread c) -> 0 <= size ->
  match connection_read_data size c with
  | Done (rc, c') =>
      yd_wf (c_buff c') /\ same_but_input c c' /\
      let stream := yd_content (c_buff c) ++ rx_bytes (c_rx c) in
      if size <=? lenZ stream
      then rc = YENOERR /\ size <= yd_len (c_buff c') /\
           yd_content (c_buff c') ++ rx_bytes (c_rx c') = stream
      else rc = rx_end (c_rx c) /\ yd_content (c_buff c') = stream
  | Fault f => f = HeapOverflow
  end.
Proof. exact (read_data_spec size c). Qed.

(** A connection with an empty buffer, on descriptor 5. *)
Definition demo_conn (e : MDB_env) (r : list rx) : conn :=
  {| c_env := e; c_thread := {| fd := 5; dbname := None; transaction := None |};
     c_buff := yd_empty; c_rx := r; c_tx := []; c_out := []; c_nn := []; c_queue := [];
     c_alloc := [] |}.
Lemma connection_read_data_correct_witness :
  exists c', connection_read_data 3 (demo_conn (fresh_env 1 []) [RxData [1; 2]; RxData [3; 4]]) =
      Done (YENOERR, c') /\
    yd_content (c_buff c') ++ rx_bytes (c_rx c') = [1; 2; 3; 4].
Proof.
  pose proof (connection_read_data_correct 3
    (demo_conn (fresh_env 1 []) [RxData [1; 2]; RxData [3; 4]])
    yd_empty_wf eq_refl ltac:(simpl; lia) ltac:(lia)) as H.
  destruct (connection_read_data 3 _) as [[rc c']|f] eqn:E; [|vm_compute in E; discriminate E].
  exists c'. destruct H as (_ & _ & H). cbn zeta in H.
  change (3 <=? lenZ (yd_content yd_empty ++ rx_bytes [RxData [1; 2]; RxData [3; 4]]))
    with true in H. cbn iota in H. destruct H as (-> & _ & H). split; [reflexivity|exact H].
Defined.

(** C32: a request that arrives in equal segments and does not fit in the
    free space of the buffer, nor in the block allocated for one segment,
    overflows the buffer.  With segments of one byte this is every field of
    more than four bytes, with full segments of 8196 bytes every value of more
    than 16400 bytes. *)
Theorem connection_read_data_overflows n size c :
  yd_wf (c_buff c) -> c_alloc c = [] -> 0 <= fd (c_thread c) ->
  0 < n <= RECV_SIZE -> segmented n (c_rx c) ->
  size <= yd_len (c_buff c) + lenZ (rx_bytes (c_rx c)) ->
  Z.max (yd_len (c_buff c) + yd_free (c_buff c)) (yd_alloc n) < size ->
  connection_read_data size c = Fault HeapOverflow.
Proof.
  intros Hwf Ha Hfd Hn Hseg He Hbig. unfold connection_read_data.
  pose proof Hwf as (?&?&?&_). pose proof (rx_total_nonneg (c_rx c)).
  rewrite (proj2 (Z.ltb_ge _ _)), (proj2 (Z.leb_gt _ _)) by lia.
  apply (read_loop_overflow _ n); try done. lia.
Qed.
Lemma connection_read_data_overflows_witness :
  yd_alloc 1 = 4 /\ yd_alloc RECV_SIZE = 16400 /\
  connection_read_data 5 (demo_conn (fresh_env 1 [])
    [RxData [1]; RxData [2]; RxData [3]; RxData [4]; RxData [5]]) = Fault HeapOverflow.
Proof.
  split; [vm_compute; reflexivity|]. split; [vm_compute; reflexivity|].
  apply (connection_read_data_overflows 1 5 (demo_conn (fresh_env 1 [])
    [RxData [1]; RxData [2]; RxData [3]; RxData [4]; RxData [5]])).
  - exact yd_empty_wf.
  - reflexivity.
  - simpl. lia.
  - vm_compute. split; [reflexivity|discriminate].
  - repeat constructor; eexists; (split; [reflexivity|reflexivity]).
  - vm_compute. discriminate.
  - vm_compute. reflexivity.
Defined.

(** Responses.  A response is the code byte, followed for a value by its
    length in four bytes and the value; [YENOERR] is reported exactly when
    [sendmsg] sent all of it, and a short or failed send is [YEIO]. *)
Theorem connection_send_response_correct code ser comp data dlen c :
  (match data with Some d => lenZ d = dlen | None => True end) ->
  exists rc c', connection_send_response code ser comp data dlen c = Done (rc, c') /\
    let msg := response_byte code ser comp ::
                 match data with Some d => be_bytes 4 (lenZ d) ++ d | None => [] end in
    match fst (script_next None (c_tx c)) with
    | None => rc = YENOERR /\ c_out c' = c_out c ++ msg
    | Some n => rc = (if n =? lenZ msg then YENOERR else YEIO) /\
                c_out c' = c_out c ++ takeZ n msg
    end.
Proof.
  intros Hd. rewrite send_response_spec by done. cbn zeta.
  destruct (script_next None (c_tx c)) as [[n|] tx]; do 2 eexists; (split; [done|]); simpl fst;
    destruct data as [d|]; cbn iota; try done; subst dlen; by rewrite be_bytes_u32.
Qed.
Lemma connection_send_response_correct_witness :
  exists c', connection_send_response RESP_OK false true (Some [9; 9]) 2
      (demo_conn (fresh_env 1 []) []) = Done (YENOERR, c') /\
    c_out c' = [65; 0; 0; 0; 2; 9; 9].
Proof.
  destruct (connection_send_response_correct RESP_OK false true (Some [9; 9]) 2
    (demo_conn (fresh_env 1 []) []) eq_refl) as (rc & c' & H & -> & Ho).
  exists c'. split; [exact H|exact Ho].
Defined.
