(* ===== verification/Compressor.v ===== *)
(** * Compressor: what the server and the client use of the Snappy library

    The values of the database are kept compressed.  [Snappy] names the
    entry points of lib/snappy-c that FineDB calls and [SnappyLaws] states
    what FineDB relies on; the theorems about the server and the client are
    proved for every implementation of the interface. *)
From S2P Require Import Prelude Dynabin.

(** Buffers are given by their size: [snappy_compress d n] compresses [d] into
    a block of [n] bytes and returns the result code and the bytes written,
    [snappy_uncompress z n] returns the result code and the block of [n]
    bytes it decompressed into. *)
Class Snappy := {
  snappy_max_compressed_length : Z -> Z;
  snappy_compress : bytes -> Z -> outcome (Z * bytes);
  snappy_uncompressed_length : bytes -> option Z;
  snappy_uncompress : bytes -> Z -> outcome (Z * bytes)
}.

(** [z] is a compressed form of [d]. *)
Definition compressed_form {S : Snappy} (d z : bytes) : Prop :=
  snappy_uncompressed_length z = Some (lenZ d) /\
  snappy_uncompress z (lenZ d) = Done (0, d).

Class SnappyLaws (S : Snappy) := {
  snappy_max_bound n :
    0 <= n < 2 ^ 31 -> 0 < snappy_max_compressed_length n < 2 ^ 32;
  snappy_roundtrip d :
    bytes_ok d -> lenZ d < 2 ^ 31 ->
    exists z, snappy_compress d (snappy_max_compressed_length (lenZ d)) = Done (0, z) /\
      bytes_ok z /\ 0 < lenZ z < snappy_max_compressed_length (lenZ d) /\
      compressed_form d z
}.

(** [snappy_init_env] allocates the hash table of the compressor. *)
Definition snappy_init_env : CM alloc Z :=
  let! t := ymalloc 32768 in
  cret (match t with Some _ => 0 | None => -12 end).
