(* ===== verification/Snappy.v ===== *)
(** * Snappy: the compressor lib/snappy-c/snappy.c

    The functions FineDB calls (snappy_compress, snappy_uncompress,
    snappy_uncompressed_length, snappy_max_compressed_length) and everything
    they call, as built on a 64-bit little-endian machine.  An input buffer is
    the list of its bytes, a pointer into it an offset; every load is checked
    against the bounds of the input, every store against those of the output
    block.  The output of the compressor is the list of the bytes emitted so
    far, [cap] the size of the block it is written to.

    Only the one-vector use of the scatter-gather source and sink occurs
    here: [peek] delivers everything that is left, and there is always room
    in the sink. *)
From S2P Require Import Prelude Compressor.

(** ** Lengths as varints *)
Definition varint_parse32_with_limit (p : bytes) : option (Z * bytes) :=
  match p with
  | [] => None
  | b :: p =>
  let result := Z.land b 127 in
  if b <? 128 then Some (result, p) else
  match p with
  | [] => None
  | b :: p =>
  let result := Z.lor result (Z.shiftl (Z.land b 127) 7) in
  if b <? 128 then Some (result, p) else
  match p with
  | [] => None
  | b :: p =>
  let result := Z.lor result (Z.shiftl (Z.land b 127) 14) in
  if b <? 128 then Some (result, p) else
  match p with
  | [] => None
  | b :: p =>
  let result := Z.lor result (Z.shiftl (Z.land b 127) 21) in
  if b <? 128 then Some (result, p) else
  match p with
  | [] => None
  | b :: p =>
  let result := Z.lor result (u32 (Z.shiftl (Z.land b 127) 28)) in
  if b <? 16 then Some (result, p) else None
  end end end end end.

Definition varint_encode32 (v : Z) : bytes :=
  let B := 128 in
  if v <? Z.shiftl 1 7 then [u8 v]
  else if v <? Z.shiftl 1 14 then [u8 (Z.lor v B); u8 (Z.shiftr v 7)]
  else if v <? Z.shiftl 1 21 then
    [u8 (Z.lor v B); u8 (Z.lor (Z.shiftr v 7) B); u8 (Z.shiftr v 14)]
  else if v <? Z.shiftl 1 28 then
    [u8 (Z.lor v B); u8 (Z.lor (Z.shiftr v 7) B); u8 (Z.lor (Z.shiftr v 14) B);
     u8 (Z.shiftr v 21)]
  else
    [u8 (Z.lor v B); u8 (Z.lor (Z.shiftr v 7) B); u8 (Z.lor (Z.shiftr v 14) B);
     u8 (Z.lor (Z.shiftr v 21) B); u8 (Z.shiftr v 28)].

Definition snappy_uncompressed_length (start : bytes) : option Z :=
  fst <$> varint_parse32_with_limit start.

(** ** The writer of the decompressor *)
Record writer := { w_blk : bytes; w_op : Z; w_limit : Z }.

Definition writer_set_expected_length (w : writer) (len : Z) : writer :=
  {| w_blk := w_blk w; w_op := w_op w; w_limit := w_op w + len |}.
Definition writer_check_length (w : writer) : bool := w_op w =? w_limit w.

(** A byte, and eight bytes, copied inside the block. *)
Definition store8 (blk : bytes) (op src : Z) : outcome bytes :=
  olet! v := blk_read blk src 1 in blk_write blk op v.
Definition store64 (blk : bytes) (op src : Z) : outcome bytes :=
  olet! v := blk_read blk src 8 in blk_write blk op v.

Fixpoint copy_bytes (n : nat) (src op : Z) (blk : bytes) : outcome bytes :=
  match n with
  | O => Done blk
  | S n => olet! blk := store8 blk op src in copy_bytes n (src + 1) (op + 1) blk
  end.
(** The C loop runs once at least. *)
Definition incremental_copy (src op len : Z) (blk : bytes) : outcome bytes :=
  copy_bytes (Z.to_nat (Z.max 1 len)) src op blk.

(** The two loops of [incremental_copy_fast_path]. *)
Fixpoint expand_pattern (fuel : nat) (src op len : Z) (blk : bytes)
    : outcome (Z * Z * bytes) :=
  if 8 <=? op - src then Done (op, len, blk) else
  match fuel with
  | O => Fault OutOfFuel
  | S fuel =>
      olet! blk := store64 blk op src in
      expand_pattern fuel src (op + (op - src)) (len - (op - src)) blk
  end.
Fixpoint copy_words (fuel : nat) (src op len : Z) (blk : bytes) : outcome bytes :=
  if len <=? 0 then Done blk else
  match fuel with
  | O => Fault OutOfFuel
  | S fuel =>
      olet! blk := store64 blk op src in copy_words fuel (src + 8) (op + 8) (len - 8) blk
  end.
Definition incremental_copy_fast_path (src op len : Z) (blk : bytes) : outcome bytes :=
  olet! r := expand_pattern 3 src op len blk in
  let '(op, len, blk) := r in copy_words (Z.to_nat len) src op len blk.

Definition kmax_increment_copy_overflow : Z := 10.
Definition writer_append_from_self (w : writer) (offset len : Z) : outcome (bool * writer) :=
  let op := w_op w in
  let space_left := u32 (w_limit w - op) in
  let advance blk := {| w_blk := blk; w_op := op + len; w_limit := w_limit w |} in
  if op <=? u32 (offset - 1) then Done (false, w)
  else if (len <=? 16) && (8 <=? offset) && (16 <=? space_left) then
    olet! blk := store64 (w_blk w) op (op - offset) in
    olet! blk := store64 blk (op + 8) (op - offset + 8) in
    Done (true, advance blk)
  else if u32 (len + kmax_increment_copy_overflow) <=? space_left then
    olet! blk := incremental_copy_fast_path (op - offset) op len (w_blk w) in
    Done (true, advance blk)
  else if space_left <? len then Done (false, w)
  else
    olet! blk := incremental_copy (op - offset) op len (w_blk w) in
    Done (true, advance blk).

Definition writer_append (w : writer) (ip : bytes) (len : Z) : outcome (bool * writer) :=
  let op := w_op w in
  if u32 (w_limit w - op) <? len then Done (false, w)
  else
    olet! d := blk_read ip 0 len in
    olet! blk := blk_write (w_blk w) op d in
    Done (true, {| w_blk := blk; w_op := op + len; w_limit := w_limit w |}).

(** [None]: the fast path does not apply. *)
Definition writer_try_fast_append (w : writer) (ip : bytes) (len : Z)
    : outcome (option writer) :=
  let op := w_op w in
  if (len <=? 16) && (16 <=? u32 (lenZ ip)) && (16 <=? i32 (w_limit w - op)) then
    olet! d := blk_read ip 0 16 in
    olet! blk := blk_write (w_blk w) op d in
    Done (Some {| w_blk := blk; w_op := op + len; w_limit := w_limit w |})
  else Done None.

(** ** Decompression *)
Definition LITERAL : Z := 0.
Definition COPY_1_BYTE_OFFSET : Z := 1.
Definition COPY_2_BYTE_OFFSET : Z := 2.

Definition char_table : list Z := [
   0x0001; 0x0804; 0x1001; 0x2001; 0x0002; 0x0805; 0x1002; 0x2002;
   0x0003; 0x0806; 0x1003; 0x2003; 0x0004; 0x0807; 0x1004; 0x2004;
   0x0005; 0x0808; 0x1005; 0x2005; 0x0006; 0x0809; 0x1006; 0x2006;
   0x0007; 0x080a; 0x1007; 0x2007; 0x0008; 0x080b; 0x1008; 0x2008;
   0x0009; 0x0904; 0x1009; 0x2009; 0x000a; 0x0905; 0x100a; 0x200a;
   0x000b; 0x0906; 0x100b; 0x200b; 0x000c; 0x0907; 0x100c; 0x200c;
   0x000d; 0x0908; 0x100d; 0x200d; 0x000e; 0x0909; 0x100e; 0x200e;
   0x000f; 0x090a; 0x100f; 0x200f; 0x0010; 0x090b; 0x1010; 0x2010;
   0x0011; 0x0a04; 0x1011; 0x2011; 0x0012; 0x0a05; 0x1012; 0x2012;
   0x0013; 0x0a06; 0x1013; 0x2013; 0x0014; 0x0a07; 0x1014; 0x2014;
   0x0015; 0x0a08; 0x1015; 0x2015; 0x0016; 0x0a09; 0x1016; 0x2016;
   0x0017; 0x0a0a; 0x1017; 0x2017; 0x0018; 0x0a0b; 0x1018; 0x2018;
   0x0019; 0x0b04; 0x1019; 0x2019; 0x001a; 0x0b05; 0x101a; 0x201a;
   0x001b; 0x0b06; 0x101b; 0x201b; 0x001c; 0x0b07; 0x101c; 0x201c;
   0x001d; 0x0b08; 0x101d; 0x201d; 0x001e; 0x0b09; 0x101e; 0x201e;
   0x001f; 0x0b0a; 0x101f; 0x201f; 0x0020; 0x0b0b; 0x1020; 0x2020;
   0x0021; 0x0c04; 0x1021; 0x2021; 0x0022; 0x0c05; 0x1022; 0x2022;
   0x0023; 0x0c06; 0x1023; 0x2023; 0x0024; 0x0c07; 0x1024; 0x2024;
   0x0025; 0x0c08; 0x1025; 0x2025; 0x0026; 0x0c09; 0x1026; 0x2026;
   0x0027; 0x0c0a; 0x1027; 0x2027; 0x0028; 0x0c0b; 0x1028; 0x2028;
   0x0029; 0x0d04; 0x1029; 0x2029; 0x002a; 0x0d05; 0x102a; 0x202a;
   0x002b; 0x0d06; 0x102b; 0x202b; 0x002c; 0x0d07; 0x102c; 0x202c;
   0x002d; 0x0d08; 0x102d; 0x202d; 0x002e; 0x0d09; 0x102e; 0x202e;
   0x002f; 0x0d0a; 0x102f; 0x202f; 0x0030; 0x0d0b; 0x1030; 0x2030;
   0x0031; 0x0e04; 0x1031; 0x2031; 0x0032; 0x0e05; 0x1032; 0x2032;
   0x0033; 0x0e06; 0x1033; 0x2033; 0x0034; 0x0e07; 0x1034; 0x2034;
   0x0035; 0x0e08; 0x1035; 0x2035; 0x0036; 0x0e09; 0x1036; 0x2036;
   0x0037; 0x0e0a; 0x1037; 0x2037; 0x0038; 0x0e0b; 0x1038; 0x2038;
   0x0039; 0x0f04; 0x1039; 0x2039; 0x003a; 0x0f05; 0x103a; 0x203a;
   0x003b; 0x0f06; 0x103b; 0x203b; 0x003c; 0x0f07; 0x103c; 0x203c;
   0x0801; 0x0f08; 0x103d; 0x203d; 0x1001; 0x0f09; 0x103e; 0x203e;
   0x1801; 0x0f0a; 0x103f; 0x203f; 0x2001; 0x0f0b; 0x1040; 0x2040
].
Definition tag_entry (c : Z) : Z := nth (Z.to_nat c) char_table 0.

(** [d_ip] are the bytes from [ip] to [ip_limit], [d_src] what the reader has
    not delivered yet. *)
Record snappy_decompressor := { d_ip : bytes; d_src : bytes; d_eof : bool }.

(** [false]: the end of the input, or an incomplete tag.  Moving bytes to the
    scratch area does not change what is read. *)
Definition refill_tag (d : snappy_decompressor) : bool * snappy_decompressor :=
  let d := if lenZ (d_ip d) =? 0
           then {| d_ip := d_src d; d_src := []; d_eof := d_eof d |} else d in
  match d_ip d with
  | [] => (false, {| d_ip := []; d_src := d_src d; d_eof := true |})
  | c :: _ =>
      let needed := Z.shiftr (tag_entry c) 11 + 1 in
      let nbuf := lenZ (d_ip d) in
      if nbuf <? needed then
        if lenZ (d_src d) <? needed - nbuf then (false, d)
        else (true, {| d_ip := d_ip d ++ takeZ (needed - nbuf) (d_src d);
                       d_src := dropZ (needed - nbuf) (d_src d); d_eof := d_eof d |})
      else (true, d)
  end.
(** The MAYBE_REFILL macro; a second call has no effect. *)
Definition maybe_refill (d : snappy_decompressor) : bool * snappy_decompressor :=
  if lenZ (d_ip d) <? 5 then refill_tag d else (true, d).

(** Append [len] bytes of literal, fetching more input while the buffered part
    is too short. *)
Fixpoint append_literal (fuel : nat) (len : Z) (d : snappy_decompressor) (w : writer)
    : outcome (bool * snappy_decompressor * writer) :=
  let avail := lenZ (d_ip d) in
  if avail <? len then
    match fuel with
    | O => Fault OutOfFuel
    | S fuel =>
        olet! r := writer_append w (d_ip d) avail in
        let '(ok, w) := r in
        if negb ok then Done (false, d, w)
        else
          let d := {| d_ip := d_src d; d_src := []; d_eof := d_eof d |} in
          if lenZ (d_ip d) =? 0 then Done (false, d, w)
          else append_literal fuel (len - avail) d w
    end
  else
    olet! r := writer_append w (d_ip d) len in
    let '(ok, w) := r in
    if negb ok then Done (false, d, w)
    else Done (true, {| d_ip := dropZ len (d_ip d); d_src := d_src d; d_eof := d_eof d |}, w).

Definition set_ip (ip : bytes) (d : snappy_decompressor) : snappy_decompressor :=
  {| d_ip := ip; d_src := d_src d; d_eof := d_eof d |}.

(** One tag; [false] leaves the loop. *)
Definition decompress_tag (c : Z) (ip : bytes) (d : snappy_decompressor) (w : writer)
    : outcome (bool * snappy_decompressor * writer) :=
  if Z.land c 3 =? LITERAL then
    let literal_length := Z.shiftr c 2 + 1 in
    olet! r := writer_try_fast_append w ip literal_length in
    match r with
    | Some w => Done (true, set_ip (dropZ literal_length ip) d, w)
    | None =>
        if 61 <=? literal_length then
          let literal_ll := literal_length - 60 in
          append_literal 2 (u32 (le_val (takeZ literal_ll ip) + 1))
            (set_ip (dropZ literal_ll ip) d) w
        else append_literal 2 literal_length (set_ip ip d) w
    end
  else
    let entry := tag_entry c in
    let trailer := le_val (takeZ (Z.shiftr entry 11) ip) in
    let length := Z.land entry 0xff in
    let copy_offset := Z.land entry 0x700 in
    let d := set_ip (dropZ (Z.shiftr entry 11) ip) d in
    olet! r := writer_append_from_self w (u32 (copy_offset + trailer)) length in
    let '(ok, w) := r in Done (ok, d, w).

Fixpoint decompress_all_tags (fuel : nat) (d : snappy_decompressor) (w : writer)
    : outcome (snappy_decompressor * writer) :=
  match fuel with
  | O => Fault OutOfFuel
  | S fuel =>
      let '(ok, d) := maybe_refill d in
      if negb ok then Done (d, w)
      else
        match d_ip d with
        | [] => Fault HeapOverflow
        | c :: ip =>
            olet! r := decompress_tag c ip d w in
            let '(ok, d, w) := r in
            if negb ok then Done (d, w) else decompress_all_tags fuel d w
        end
  end.

Fixpoint read_uncompressed_length (shift result : Z) (src : bytes) : option (Z * bytes) :=
  if 32 <=? shift then None else
  match src with
  | [] => None
  | c :: src =>
      let result := Z.lor result (u32 (Z.shiftl (Z.land c 0x7f) shift)) in
      if c <? 128 then Some (result, src)
      else read_uncompressed_length (shift + 7) result src
  end.

Definition EIO : Z := 5.
Definition internal_uncompress (src : bytes) (w : writer) (max_len : Z)
    : outcome (Z * writer) :=
  match read_uncompressed_length 0 0 src with
  | None => Done (- EIO, w)
  | Some (uncompressed_len, src) =>
      if max_len <? uncompressed_len then Done (- EIO, w)
      else
        let w := writer_set_expected_length w uncompressed_len in
        olet! r := decompress_all_tags (S (length src))
                     {| d_ip := []; d_src := src; d_eof := false |} w in
        let '(d, w) := r in
        Done (if d_eof d && writer_check_length w then 0 else - EIO, w)
  end.
(** [n] is the size of the block the caller provides. *)
Definition snappy_uncompress (compressed : bytes) (n : Z) : outcome (Z * bytes) :=
  olet! r := internal_uncompress compressed {| w_blk := zeros n; w_op := 0; w_limit := 0 |}
               0xffffffff in
  let '(rc, w) := r in Done (rc, w_blk w).

(** ** Compression *)
Definition snappy_max_compressed_length (source_len : Z) : Z :=
  u64 (32 + source_len + source_len / 6).

(** Emit bytes; [touched] bytes of the block are written, which may be more
    than the result needs. *)
Definition emit (cap touched : Z) (out d : bytes) : outcome bytes :=
  if lenZ out + touched <=? cap then Done (out ++ d) else Fault HeapOverflow.

Fixpoint len_bytes (fuel : nat) (n : Z) : bytes :=
  match fuel with
  | O => []
  | S fuel => if 0 <? n then Z.land n 0xff :: len_bytes fuel (Z.shiftr n 8) else []
  end.

Definition emit_literal (cap : Z) (out inp : bytes) (literal len : Z) (allow_fast_path : bool)
    : outcome bytes :=
  let n := len - 1 in
  if n <? 60 then
    olet! out := emit cap 1 out [u8 (Z.lor LITERAL (Z.shiftl n 2))] in
    if allow_fast_path && (len <=? 16) then
      olet! d := blk_read inp literal 16 in emit cap 16 out (takeZ len d)
    else
      olet! d := blk_read inp literal len in emit cap len out d
  else
    let l := len_bytes 4 n in
    let tag := u8 (Z.lor LITERAL (Z.shiftl (59 + lenZ l) 2)) in
    olet! out := emit cap (1 + lenZ l) out (tag :: l) in
    olet! d := blk_read inp literal len in emit cap len out d.

Definition emit_copy_less_than64 (cap : Z) (out : bytes) (offset len : Z) : outcome bytes :=
  if (len <? 12) && (offset <? 2048) then
    let len_minus_4 := len - 4 in
    emit cap 2 out
      [u8 (Z.lor (Z.lor COPY_1_BYTE_OFFSET (Z.shiftl len_minus_4 2))
                 (Z.shiftl (Z.shiftr offset 8) 5));
       Z.land offset 0xff]
  else
    emit cap 3 out
      [u8 (Z.lor COPY_2_BYTE_OFFSET (Z.shiftl (len - 1) 2));
       u8 offset; u8 (Z.shiftr (u16 offset) 8)].

Fixpoint emit_copy_64 (fuel : nat) (cap : Z) (out : bytes) (offset len : Z)
    : outcome (Z * bytes) :=
  if len <? 68 then Done (len, out) else
  match fuel with
  | O => Fault OutOfFuel
  | S fuel =>
      olet! out := emit_copy_less_than64 cap out offset 64 in
      emit_copy_64 fuel cap out offset (len - 64)
  end.
Definition emit_copy (cap : Z) (out : bytes) (offset len : Z) : outcome bytes :=
  olet! r := emit_copy_64 (Z.to_nat len) cap out offset len in
  let '(len, out) := r in
  if 64 <? len then
    olet! out := emit_copy_less_than64 cap out offset 60 in
    emit_copy_less_than64 cap out offset (len - 60)
  else emit_copy_less_than64 cap out offset len.

Definition kblock_size : Z := 32768.
Definition kmax_hash_table_size : Z := 16384.
Fixpoint hash_table_size (fuel : nat) (htsize input_size : Z) : Z :=
  match fuel with
  | O => htsize
  | S fuel =>
      if (htsize <? kmax_hash_table_size) && (htsize <? input_size)
      then hash_table_size fuel (Z.shiftl htsize 1) input_size
      else htsize
  end.
(** The table is cleared; an absent entry is 0. *)
Definition get_hash_table (input_size : Z) : Z * gmap Z Z :=
  (hash_table_size 7 256 input_size, ∅).

Definition log2_floor (n : Z) : Z := if n =? 0 then -1 else Z.log2 n.
Definition load32 (inp : bytes) (p : Z) : outcome Z :=
  olet! l := blk_read inp p 4 in Done (le_val l).
Definition load64 (inp : bytes) (p : Z) : outcome Z :=
  olet! l := blk_read inp p 8 in Done (le_val l).
Definition hash_bytes (b shift : Z) : Z := Z.shiftr (u32 (b * 0x1e35a7bd)) shift.
Definition hash (inp : bytes) (p shift : Z) : outcome Z :=
  olet! b := load32 inp p in Done (hash_bytes b shift).
Definition get_u32_at_offset (v offset : Z) : Z := u32 (Z.shiftr v (8 * offset)).

(** [__builtin_ctzll] of a 64-bit value that is not zero. *)
Fixpoint ctz (fuel : nat) (n : Z) : Z :=
  match fuel with
  | O => 0
  | S fuel => if Z.testbit n 0 then 0 else 1 + ctz fuel (Z.shiftr n 1)
  end.
Definition find_lsb_set_non_zero64 (n : Z) : Z := ctz 64 n.

Fixpoint match_bytes (fuel : nat) (inp : bytes) (s1 s2 s2_limit matched : Z) : outcome Z :=
  if s2_limit <=? s2 then Done matched else
  match fuel with
  | O => Fault OutOfFuel
  | S fuel =>
      olet! a := blk_read inp (s1 + matched) 1 in
      olet! b := blk_read inp s2 1 in
      if bool_decide (a = b) then match_bytes fuel inp s1 (s2 + 1) s2_limit (matched + 1)
      else Done matched
  end.
Fixpoint match_words (fuel : nat) (inp : bytes) (s1 s2 s2_limit matched : Z) : outcome Z :=
  if s2 <=? s2_limit - 8 then
    match fuel with
    | O => Fault OutOfFuel
    | S fuel =>
        olet! a := load64 inp s2 in
        olet! b := load64 inp (s1 + matched) in
        if a =? b then match_words fuel inp s1 (s2 + 8) s2_limit (matched + 8)
        else Done (matched + Z.shiftr (find_lsb_set_non_zero64 (Z.lxor a b)) 3)
    end
  else match_bytes (Z.to_nat (s2_limit - s2)) inp s1 s2 s2_limit matched.
Definition find_match_length (inp : bytes) (s1 s2 s2_limit : Z) : outcome Z :=
  match_words (Z.to_nat (s2_limit - s2)) inp s1 s2 s2_limit 0.

Definition table_get (table : gmap Z Z) (h : Z) : Z := default 0 (table !! h).

(** Step 1 of the main loop: look for a four-byte match; [None] when the
    input is nearly exhausted. *)
Fixpoint scan (fuel : nat) (inp : bytes) (shift ip_limit next_ip next_hash skip_bytes : Z)
    (table : gmap Z Z) : outcome (option (Z * Z) * gmap Z Z) :=
  match fuel with
  | O => Fault OutOfFuel
  | S fuel =>
      let ip := next_ip in
      let hval := next_hash in
      let bytes_between_hash_lookups := Z.shiftr skip_bytes 5 in
      let next_ip := ip + bytes_between_hash_lookups in
      if ip_limit <? next_ip then Done (None, table)
      else
        olet! next_hash := hash inp next_ip shift in
        let candidate := table_get table hval in
        let table := <[hval := u16 ip]> table in
        olet! a := load32 inp ip in
        olet! b := load32 inp candidate in
        if negb (a =? b) then scan fuel inp shift ip_limit next_ip next_hash (skip_bytes + 1) table
        else Done (Some (ip, candidate), table)
  end.

(** Step 3: copies, as long as the input after a copy matches again.  The
    result is the position the next literal starts at and, unless the input is
    nearly exhausted, where to go on. *)
Fixpoint copies (fuel : nat) (inp : bytes) (shift ip_limit cap ip candidate : Z)
    (table : gmap Z Z) (out : bytes) : outcome (Z * option (Z * Z) * gmap Z Z * bytes) :=
  match fuel with
  | O => Fault OutOfFuel
  | S fuel =>
      let base := ip in
      olet! m := find_match_length inp (candidate + 4) (ip + 4) (lenZ inp) in
      let matched := 4 + m in
      let ip := ip + matched in
      let offset := base - candidate in
      olet! out := emit_copy cap out offset matched in
      if ip_limit <=? ip then Done (ip, None, table, out)
      else
        olet! input_bytes := load64 inp (ip - 1) in
        let prev_hash := hash_bytes (get_u32_at_offset input_bytes 0) shift in
        let table := <[prev_hash := u16 (ip - 1)]> table in
        let cur_hash := hash_bytes (get_u32_at_offset input_bytes 1) shift in
        let candidate := table_get table cur_hash in
        olet! candidate_bytes := load32 inp candidate in
        let table := <[cur_hash := u16 ip]> table in
        if get_u32_at_offset input_bytes 1 =? candidate_bytes
        then copies fuel inp shift ip_limit cap ip candidate table out
        else
          let next_hash := hash_bytes (get_u32_at_offset input_bytes 2) shift in
          Done (ip, Some (ip + 1, next_hash), table, out)
  end.

Fixpoint fragment_loop (fuel : nat) (inp : bytes) (shift ip_limit cap ip next_hash next_emit : Z)
    (table : gmap Z Z) (out : bytes) : outcome (Z * bytes) :=
  match fuel with
  | O => Fault OutOfFuel
  | S fuel =>
      olet! r := scan (length inp) inp shift ip_limit ip next_hash 32 table in
      match r with
      | (None, _) => Done (next_emit, out)
      | (Some (ip, candidate), table) =>
          olet! out := emit_literal cap out inp next_emit (ip - next_emit) true in
          olet! r := copies (length inp) inp shift ip_limit cap ip candidate table out in
          match r with
          | (next_emit, None, _, out) => Done (next_emit, out)
          | (next_emit, Some (ip, next_hash), table, out) =>
              fragment_loop fuel inp shift ip_limit cap ip next_hash next_emit table out
          end
      end
  end.

Definition kinput_margin_bytes : Z := 15.
Definition compress_fragment (cap : Z) (out inp : bytes) (table : gmap Z Z) (table_size : Z)
    : outcome bytes :=
  let shift := 32 - log2_floor table_size in
  let input_size := lenZ inp in
  olet! r :=
    (if kinput_margin_bytes <=? input_size then
       let ip_limit := input_size - kinput_margin_bytes in
       olet! next_hash := hash inp 1 shift in
       fragment_loop (length inp) inp shift ip_limit cap 1 next_hash 0 table out
     else Done (0, out)) in
  let '(next_emit, out) := r in
  if next_emit <? input_size
  then emit_literal cap out inp next_emit (input_size - next_emit) false
  else Done out.

Fixpoint compress_blocks (fuel : nat) (cap n : Z) (input out : bytes) : outcome (Z * bytes) :=
  if n <=? 0 then Done (0, out) else
  match fuel with
  | O => Fault OutOfFuel
  | S fuel =>
      let num_to_read := Z.min n kblock_size in
      if lenZ input =? 0 then Done (- EIO, out)
      else if lenZ input <? num_to_read then Fault NullDeref  (* env->scratch *)
      else
        let '(table_size, table) := get_hash_table num_to_read in
        olet! out := compress_fragment cap out (takeZ num_to_read input) table table_size in
        compress_blocks fuel cap (n - num_to_read) (dropZ num_to_read input) out
  end.
Definition snappy_compress (input : bytes) (cap : Z) : outcome (Z * bytes) :=
  let n := i32 (lenZ input) in
  olet! out := emit cap (lenZ (varint_encode32 (u32 n))) [] (varint_encode32 (u32 n)) in
  compress_blocks (Z.to_nat n) cap n input out.
