(* ===== verification/SnappyDec.v ===== *)
(** * SnappyDec: correctness of the decompressor

    [decodes z out out'] is the reference semantics of the Snappy format: the
    tags [z] extend the output [out] to [out'].  The decompressor is shown to
    produce exactly that, whichever of its copying fast paths it takes, and
    never to write outside the block it is given. *)
From S2P Require Import Prelude Compressor Snappy.

(** ** Bits *)
Lemma land_127 b : Z.land b 127 = b mod 128.
Proof. change 127 with (Z.ones 7). by rewrite Z.land_ones. Qed.
Lemma lor_128 v : u8 (Z.lor v 128) = 128 + v mod 128.
Proof.
  unfold wrap. change (2 ^ 8) with (2 ^ 8). rewrite <- Z.land_ones by lia.
  rewrite Z.land_lor_distr_l. change (Z.land 128 (Z.ones 8)) with 128.
  rewrite Z.land_ones by lia.
  assert (H : forall x, 0 <= x < 256 -> Z.lor x 128 = 128 + x mod 128).
  { intros x Hx.
    assert (Ha : forallb (fun x => Z.lor x 128 =? 128 + x mod 128) (seqZ 0 256) = true)
      by (vm_compute; reflexivity).
    rewrite forallb_forall in Ha. apply Z.eqb_eq, Ha. rewrite <- list_elem_of_In.
    apply elem_of_seqZ. lia. }
  rewrite H by (apply Z.mod_pos_bound; lia). f_equal.
  change (2 ^ 8) with (128 * 2). rewrite Z.rem_mul_r by lia.
  rewrite (Z.mul_comm 128), Z.mod_add by lia. by rewrite Z.mod_mod.
Qed.

(** ** Varints *)
Definition varint_tail (v : Z) (i : Z) : Z := 128 + (v / 2 ^ i) mod 128.
Lemma varint_cont v i : 0 <= v -> 0 <= i -> u8 (Z.lor (Z.shiftr v i) 128) = varint_tail v i.
Proof. intros. rewrite lor_128. by rewrite Z.shiftr_div_pow2. Qed.
Lemma varint_last v i : 0 <= i -> 0 <= v < 2 ^ (i + 7) -> u8 (Z.shiftr v i) = v / 2 ^ i.
Proof.
  intros Hi Hv. rewrite Z.shiftr_div_pow2 by done. apply wrap_small.
  rewrite Z.pow_add_r in Hv by lia. split; [apply Z.div_pos; lia|].
  apply Z.div_lt_upper_bound; lia.
Qed.
Lemma varint_tail_land v i : Z.land (varint_tail v i) 127 = (v / 2 ^ i) mod 128.
Proof.
  rewrite land_127. unfold varint_tail.
  replace (128 + (v / 2 ^ i) mod 128) with ((v / 2 ^ i) mod 128 + 1 * 128) by lia.
  rewrite Z.mod_add by lia. apply Z.mod_mod. lia.
Qed.
Lemma varint_tail_ge v i : (varint_tail v i <? 128) = false.
Proof.
  unfold varint_tail. pose proof (Z.mod_pos_bound (v / 2 ^ i) 128 ltac:(lia)).
  apply Z.ltb_ge. lia.
Qed.

(** The bytes of a varint, and how the two readers of the source undo them. *)
Lemma varint_encode_bytes v :
  0 <= v < 2 ^ 32 ->
  varint_encode32 v =
    if v <? 2 ^ 7 then [v]
    else if v <? 2 ^ 14 then [varint_tail v 0; v / 2 ^ 7]
    else if v <? 2 ^ 21 then [varint_tail v 0; varint_tail v 7; v / 2 ^ 14]
    else if v <? 2 ^ 28 then [varint_tail v 0; varint_tail v 7; varint_tail v 14; v / 2 ^ 21]
    else [varint_tail v 0; varint_tail v 7; varint_tail v 14; varint_tail v 21; v / 2 ^ 28].
Proof.
  intros Hv. unfold varint_encode32.
  pose proof (varint_cont v 0 ltac:(lia) ltac:(lia)) as H0. rewrite Z.shiftr_0_r in H0.
  rewrite H0, !varint_cont by lia. clear H0.
  repeat match goal with |- context [Z.shiftl 1 ?n] => change (Z.shiftl 1 n) with (2 ^ n) end.
  destruct (Z.ltb_spec v (2 ^ 7)); [by rewrite wrap_small by lia|].
  destruct (Z.ltb_spec v (2 ^ 14)); [by rewrite (varint_last v 7) by lia|].
  destruct (Z.ltb_spec v (2 ^ 21)); [by rewrite (varint_last v 14) by lia|].
  destruct (Z.ltb_spec v (2 ^ 28)); [by rewrite (varint_last v 21) by lia|].
  by rewrite (varint_last v 28) by lia.
Qed.
Lemma varint_encode_ok v : 0 <= v < 2 ^ 32 -> bytes_ok (varint_encode32 v).
Proof.
  intros _. unfold varint_encode32, bytes_ok, is_byte.
  repeat match goal with |- context [if ?b then _ else _] => destruct b end;
    repeat constructor; apply wrap_bound; lia.
Qed.
Lemma varint_encode_len v : 1 <= lenZ (varint_encode32 v) <= 5.
Proof.
  unfold varint_encode32.
  repeat match goal with |- context [if ?b then _ else _] => destruct b end; vm_compute; intuition congruence.
Qed.

Ltac varint_step :=
  rewrite ?varint_tail_land, ?varint_tail_ge; cbn iota.

Lemma varint_parse_encode v rest :
  0 <= v < 2 ^ 32 -> varint_parse32_with_limit (varint_encode32 v ++ rest) = Some (v, rest).
Proof.
  intros Hv. rewrite varint_encode_bytes by done.
  destruct (Z.ltb_spec v (2 ^ 7)) as [|H7].
  { simpl. rewrite land_127, (proj2 (Z.ltb_lt v 128)), Z.mod_small by lia. done. }
  assert (H0 : v / 2 ^ 0 = v) by apply Z.div_1_r.
  pose proof (Z.mod_pos_bound v 128 ltac:(lia)).
  pose proof (Z.mod_pos_bound (v / 2 ^ 7) 128 ltac:(lia)).
  pose proof (Z.mod_pos_bound (v / 2 ^ 14) 128 ltac:(lia)).
  pose proof (Z.mod_pos_bound (v / 2 ^ 21) 128 ltac:(lia)).
  destruct (Z.ltb_spec v (2 ^ 14)) as [|H14]; [|destruct (Z.ltb_spec v (2 ^ 21)) as [|H21];
    [|destruct (Z.ltb_spec v (2 ^ 28)) as [|H28]]];
    cbn [app varint_parse32_with_limit]; varint_step; rewrite !land_127, H0;
    change (2 ^ 7) with 128 in *; change (2 ^ 14) with 16384 in *;
    change (2 ^ 21) with 2097152 in *; change (2 ^ 28) with 268435456 in *;
    change (2 ^ 32) with 4294967296 in *.
  - rewrite lor_shiftl by dlia. rewrite (proj2 (Z.ltb_lt _ 128)) by dlia. do 2 f_equal. dlia.
  - rewrite (lor_shiftl (v mod 128)) by lia. rewrite lor_shiftl by dlia.
    rewrite (proj2 (Z.ltb_lt _ 128)) by dlia. do 2 f_equal. dlia.
  - rewrite (lor_shiftl (v mod 128)) by lia. rewrite (lor_shiftl _ ((v / 16384) mod 128)) by lia.
    rewrite lor_shiftl by dlia. rewrite (proj2 (Z.ltb_lt _ 128)) by dlia. do 2 f_equal. dlia.
  - rewrite (wrap_small 32) by (rewrite Z.shiftl_mul_pow2 by lia; dlia).
    rewrite (lor_shiftl (v mod 128)) by lia. rewrite (lor_shiftl _ ((v / 16384) mod 128)) by lia.
    rewrite (lor_shiftl _ ((v / 2097152) mod 128)) by lia.
    rewrite lor_shiftl by dlia. rewrite (proj2 (Z.ltb_lt _ 16)) by dlia. do 2 f_equal. dlia.
Qed.

(** The two readers of a length agree on everything the first one accepts. *)
Lemma read_length_parse p v rest :
  varint_parse32_with_limit p = Some (v, rest) -> read_uncompressed_length 0 0 p = Some (v, rest).
Proof.
  destruct p as [|b0 p]; [done|]. cbn -[Z.shiftl wrap Z.land].
  rewrite Z.shiftl_0_r.
  assert (Hs : forall x i, 0 <= i <= 21 -> u32 (Z.shiftl (Z.land x 127) i) = Z.shiftl (Z.land x 127) i).
  { intros x i Hi. apply wrap_small. rewrite land_127, Z.shiftl_mul_pow2 by lia.
    pose proof (Z.mod_pos_bound x 128 ltac:(lia)).
    pose proof (Z.pow_le_mono_r 2 i 21 ltac:(lia) ltac:(lia)).
    pose proof (Z.pow_pos_nonneg 2 i ltac:(lia) ltac:(lia)). nia. }
  pose proof (Hs b0 0 ltac:(lia)) as H0. rewrite Z.shiftl_0_r in H0. rewrite H0.
  destruct (b0 <? 128); [done|].
  destruct p as [|b1 p]; [done|]. cbn -[Z.shiftl wrap Z.land]. rewrite Hs by lia.
  destruct (b1 <? 128); [done|].
  destruct p as [|b2 p]; [done|]. cbn -[Z.shiftl wrap Z.land]. rewrite Hs by lia.
  destruct (b2 <? 128); [done|].
  destruct p as [|b3 p]; [done|]. cbn -[Z.shiftl wrap Z.land]. rewrite Hs by lia.
  destruct (b3 <? 128); [done|].
  destruct p as [|b4 p]; [done|]. cbn -[Z.shiftl wrap Z.land].
  destruct (Z.ltb_spec b4 16); [|done]. by rewrite (proj2 (Z.ltb_lt b4 128)) by lia.
Qed.

(** ** Copies inside the output

    The reference: [n] bytes are appended, each a copy of the byte [off]
    positions before it. *)
Fixpoint self_copy (n off : nat) (out : bytes) : bytes :=
  match n with
  | O => out
  | S n => self_copy n off (out ++ [nth (length out - off) out 0])
  end.

Section self_copy.
Local Open Scope nat_scope.
Implicit Types (out v : bytes).

Lemma self_copy_length n off out : length (self_copy n off out) = length out + n.
Proof.
  revert out. induction n as [|n IH]; intros out; simpl; [lia|].
  rewrite IH, length_app. simpl. lia.
Qed.
Lemma self_copy_add m n off out :
  self_copy (m + n) off out = self_copy n off (self_copy m off out).
Proof. revert out. induction m as [|m IH]; intros out; simpl; [done|]. apply IH. Qed.
Lemma self_copy_snoc n off out :
  self_copy (S n) off out =
    self_copy n off out ++ [nth (length (self_copy n off out) - off) (self_copy n off out) 0%Z].
Proof. rewrite <- Nat.add_1_r, self_copy_add. done. Qed.
Lemma self_copy_prefix n off out : take (length out) (self_copy n off out) = out.
Proof.
  induction n as [|n IH]; [apply firstn_all|]. rewrite self_copy_snoc.
  rewrite take_app_le by (rewrite self_copy_length; lia). done.
Qed.

Lemma self_copy_period n off out k :
  1 <= off <= length out -> length out <= k < length out + n ->
  nth k (self_copy n off out) 0%Z = nth (k - off) (self_copy n off out) 0%Z.
Proof.
  intros Ho. induction n as [|n IH]; intros Hk; [lia|].
  rewrite self_copy_snoc. set (s := self_copy n off out) in *.
  assert (Hs : length s = length out + n) by apply self_copy_length.
  rewrite (app_nth1 _ _ _ (n := k - off)) by lia.
  destruct (decide (k < length s)).
  - rewrite app_nth1 by lia. apply IH. lia.
  - rewrite app_nth2 by lia. replace (k - length s) with 0 by lia. simpl. f_equal. lia.
Qed.
Lemma self_copy_period_iter n off out a p :
  1 <= off <= length out -> length out <= a + off -> a + p * off < length out + n ->
  nth (a + p * off) (self_copy n off out) 0%Z = nth a (self_copy n off out) 0%Z.
Proof.
  intros Ho Ha. induction p as [|p IH]; intros Hp; [f_equal; lia|].
  rewrite self_copy_period by lia. rewrite <- IH by lia. f_equal. lia.
Qed.

Lemma nth_take_lt i n v : i < n -> nth i (take n v) 0%Z = nth i v 0%Z.
Proof.
  revert i v. induction n as [|n IH]; intros i v Hi; [lia|].
  destruct v as [|x v]; [done|]. destruct i; [done|]. simpl. apply IH. lia.
Qed.
Lemma self_copy_extend t off out v :
  t <= length v ->
  (forall i, i < t -> nth i v 0%Z = nth (length out + i - off) (out ++ take i v) 0%Z) ->
  self_copy t off out = out ++ take t v.
Proof.
  induction t as [|t IH]; intros Hl Hv; [by rewrite app_nil_r|].
  rewrite self_copy_snoc, IH by (lia || (intros; apply Hv; lia)).
  rewrite length_app, length_take, Nat.min_l by lia. rewrite <- Hv by lia.
  rewrite <- app_assoc. f_equal. symmetry.
  apply take_S_r. rewrite nth_lookup. destruct (v !! t) eqn:E; [done|].
  apply lookup_ge_None in E. lia.
Qed.

(** Bytes taken from [src], a whole number of periods before the end, are the
    next bytes of the copy. *)
Lemma copy_step m off out src j t v :
  1 <= off <= length out -> 1 <= j -> src + j * off = length out + m ->
  length out <= src + off -> t <= j * off -> t <= length v ->
  (forall i, i < t -> nth i v 0%Z = nth (src + i) (self_copy m off out) 0%Z) ->
  self_copy (m + t) off out = self_copy m off out ++ take t v.
Proof.
  intros Ho Hj Hsrc Hge Ht Hl Hv. rewrite self_copy_add.
  set (s := self_copy m off out) in *.
  assert (Hs : length s = length out + m) by apply self_copy_length.
  apply self_copy_extend; [done|]. intros i Hi. rewrite Hv by done.
  destruct (decide (i < off)).
  - rewrite app_nth1 by lia. symmetry.
    replace (length s + i - off) with (src + i + (j - 1) * off) by (destruct j; simpl in *; lia).
    apply self_copy_period_iter; [done|lia|]. destruct j; simpl in *; lia.
  - rewrite app_nth2 by lia. rewrite nth_take_lt by lia.
    replace (length s + i - off - length s) with (i - off) by lia.
    rewrite Hv by lia. replace (src + (i - off)) with (src + i - off) by lia.
    apply self_copy_period; [done|]. lia.
Qed.
End self_copy.

(** ** The block of the decompressor *)
Definition holds (blk out : bytes) : Prop := exists rest, blk = out ++ rest.

Lemma holds_len blk out : holds blk out -> lenZ out <= lenZ blk.
Proof. intros [rest ->]. lens. Qed.
Lemma holds_weaken blk m M off out :
  (m <= M)%nat -> holds blk (self_copy M off out) -> holds blk (self_copy m off out).
Proof.
  intros Hm [rest ->]. replace M with (m + (M - m))%nat by lia. rewrite self_copy_add.
  rewrite <- (take_drop (length (self_copy m off out)) (self_copy (M - m) off _)).
  rewrite self_copy_prefix, <- app_assoc. by eexists.
Qed.
(** Appending behind what the block holds. *)
Lemma holds_write blk out d n :
  holds blk out -> lenZ out + lenZ d <= lenZ blk -> (n <= length d)%nat ->
  exists blk', blk_write blk (lenZ out) d = Done blk' /\ lenZ blk' = lenZ blk /\
    holds blk' (out ++ take n d).
Proof.
  intros [rest ->] Hle Hn. pose proof (lenZ_nonneg out).
  rewrite blk_write_ok by done. eexists. split; [done|].
  rewrite takeZ_app_eq by done. split.
  - autorewrite with len in *. rewrite lenZ_dropZ by lens. lens.
  - exists (drop n d ++ dropZ (lenZ out + lenZ d) (out ++ rest)).
    rewrite <- app_assoc. f_equal. rewrite app_assoc. by rewrite take_drop.
Qed.

(** A store of [n] bytes from [src], [j] periods before the end, of which
    [t] count. *)
Lemma store_step blk out m off src j t (n : nat) :
  (1 <= off <= length out)%nat -> (1 <= j)%nat -> (src + j * off = length out + m)%nat ->
  (length out <= src + off)%nat -> (t <= j * off)%nat -> (t <= n)%nat ->
  holds blk (self_copy m off out) -> Z.of_nat (length out + m + n) <= lenZ blk ->
  exists blk', (olet! v := blk_read blk (Z.of_nat src) (Z.of_nat n) in
                blk_write blk (Z.of_nat (length out + m)) v) = Done blk' /\
    lenZ blk' = lenZ blk /\ holds blk' (self_copy (m + t) off out).
Proof.
  intros Ho Hj Hsrc Hge Ht Htn Hh Hle. rewrite blk_read_ok by lia. cbn [obind].
  set (v := takeZ _ _).
  assert (Hv : length v = n).
  { subst v. unfold takeZ, dropZ, lenZ in *. rewrite length_take, length_drop. lia. }
  destruct (holds_write blk (self_copy m off out) v t Hh) as (blk' & Hw & Hl & Hh'); [|lia|].
  { unfold lenZ at 1 2. rewrite self_copy_length, Hv. lia. }
  exists blk'. split.
  - rewrite <- Hw. f_equal. unfold lenZ. by rewrite self_copy_length.
  - split; [done|]. rewrite (copy_step m off out src j t v); try done; [lia|].
    intros i Hi. subst v. unfold takeZ, dropZ. rewrite !Nat2Z.id. rewrite nth_take_lt by lia.
    destruct Hh as [rest ->]. rewrite nth_skipn.
    rewrite app_nth1 by (rewrite self_copy_length; lia). done.
Qed.

Lemma copy_bytes_ok n blk out m off src :
  (1 <= off <= length out)%nat -> (src + off = length out + m)%nat ->
  holds blk (self_copy m off out) -> Z.of_nat (length out + m + n) <= lenZ blk ->
  exists blk', copy_bytes n (Z.of_nat src) (Z.of_nat (length out + m)) blk = Done blk' /\
    lenZ blk' = lenZ blk /\ holds blk' (self_copy (m + n) off out).
Proof.
  revert blk m src. induction n as [|n IH]; intros blk m src Ho Hsrc Hh Hle.
  { exists blk. by rewrite Nat.add_0_r. }
  destruct (store_step blk out m off src 1 1 1) as (b1 & H1 & L1 & h1); try done; try lia.
  cbn [copy_bytes]. unfold store8. change 1 with (Z.of_nat 1). rewrite H1. cbn [obind].
  destruct (IH b1 (m + 1)%nat (src + 1)%nat) as (b2 & H2 & L2 & h2); try done; try lia.
  replace (Z.of_nat src + Z.of_nat 1) with (Z.of_nat (src + 1)) by lia.
  replace (Z.of_nat (length out + m) + Z.of_nat 1) with (Z.of_nat (length out + (m + 1))) by lia.
  exists b2. split; [done|]. split; [lia|].
  by replace (m + S n)%nat with (m + 1 + n)%nat by lia.
Qed.

Lemma copy_words_ok fuel blk out m off src j (len : Z) :
  (1 <= off <= length out)%nat -> (1 <= j)%nat -> (8 <= j * off)%nat ->
  (src + j * off = length out + m)%nat -> (length out <= src + off)%nat ->
  holds blk (self_copy m off out) -> Z.of_nat (length out + m) + len + 7 <= lenZ blk ->
  len <= Z.of_nat fuel ->
  exists blk' M, copy_words fuel (Z.of_nat src) (Z.of_nat (length out + m)) len blk = Done blk' /\
    lenZ blk' = lenZ blk /\ holds blk' (self_copy M off out) /\ Z.of_nat m + len <= Z.of_nat M /\
    (m <= M)%nat.
Proof.
  revert blk m src len. induction fuel as [|fuel IH]; intros blk m src len Ho Hj Hd Hsrc Hge Hh Hle Hf;
    cbn [copy_words]; destruct (Z.leb_spec len 0).
  1,3: exists blk, m; repeat split; try done; lia.
  { lia. }
  destruct (store_step blk out m off src j 8 8) as (b1 & H1 & L1 & h1); try done; try lia.
  unfold store64. change 8 with (Z.of_nat 8). rewrite H1. cbn [obind].
  destruct (IH b1 (m + 8)%nat (src + 8)%nat (len - 8)) as (b2 & M & H2 & L2 & h2 & HM & Hm);
    try done; try lia.
  replace (Z.of_nat src + Z.of_nat 8) with (Z.of_nat (src + 8)) by lia.
  replace (Z.of_nat (length out + m) + Z.of_nat 8) with (Z.of_nat (length out + (m + 8))) by lia.
  change (Z.of_nat 8) with 8. exists b2, M. repeat split; try done; lia.
Qed.

(** Doubling a short period: [j] is the number of periods so far. *)
Lemma expand_pattern_ok fuel blk out m off src j (len : Z) :
  (1 <= off <= length out)%nat -> (1 <= j)%nat ->
  (j = 1 \/ j = 2 \/ j = 4 \/ j = 8)%nat -> (8 <= j * 2 ^ fuel)%nat ->
  (src + j * off = length out + m)%nat -> (src + off = length out)%nat ->
  holds blk (self_copy m off out) -> Z.of_nat (length out + 11) <= lenZ blk ->
  exists blk' m' j', expand_pattern fuel (Z.of_nat src) (Z.of_nat (length out + m)) len blk =
      Done (Z.of_nat (length out + m'), len - (Z.of_nat m' - Z.of_nat m), blk') /\
    lenZ blk' = lenZ blk /\ holds blk' (self_copy m' off out) /\ (m <= m')%nat /\
    (1 <= j')%nat /\ (8 <= j' * off)%nat /\ (src + j' * off = length out + m')%nat.
Proof.
  revert blk m j len. induction fuel as [|fuel IH]; intros blk m j len Ho Hj Hp Hfu Hsrc Hge Hh Hle;
    cbn [expand_pattern]; destruct (Z.leb_spec 8 (Z.of_nat (length out + m) - Z.of_nat src)) as [H8|H8].
  1,3: exists blk, m, j; repeat split; try done; try lia; do 3 f_equal; lia.
  { simpl in Hfu. nia. }
  assert (Hj8 : (j = 1 \/ j = 2 \/ j = 4)%nat) by (destruct Hp as [|[|[|]]]; subst; lia).
  destruct (store_step blk out m off src j (j * off) 8) as (b1 & H1 & L1 & h1); try done; try lia.
  unfold store64. change 8 with (Z.of_nat 8) in |- * at 1. rewrite H1. cbn [obind].
  replace (Z.of_nat (length out + m) - Z.of_nat src) with (Z.of_nat (j * off)) by lia.
  replace (Z.of_nat (length out + m) + Z.of_nat (j * off))
    with (Z.of_nat (length out + (m + j * off))) by lia.
  destruct (IH b1 (m + j * off)%nat (2 * j)%nat (len - Z.of_nat (j * off)))
    as (b2 & m' & j' & H2 & L2 & h2 & Hm & Hj' & Hd & Hs); try done; try lia.
  { rewrite Nat.pow_succ_r' in Hfu. lia. }
  exists b2, m', j'. rewrite H2. repeat split; try done; try lia. do 3 f_equal. lia.
Qed.

Lemma fast_path_ok blk out off len :
  (1 <= off <= length out)%nat -> 1 <= len -> holds blk out ->
  lenZ out + len + 10 <= lenZ blk ->
  exists blk', incremental_copy_fast_path (lenZ out - Z.of_nat off) (lenZ out) len blk = Done blk' /\
    lenZ blk' = lenZ blk /\ holds blk' (self_copy (Z.to_nat len) off out).
Proof.
  intros Ho Hl Hh Hle. unfold incremental_copy_fast_path.
  replace (lenZ out - Z.of_nat off) with (Z.of_nat (length out - off)) by (unfold lenZ; lia).
  change (lenZ out) with (Z.of_nat (length out)) in *.
  destruct (expand_pattern_ok 3 blk out 0 off (length out - off) 1 len)
    as (b1 & m & j & H1 & L1 & h1 & Hm & Hj & Hd & Hs); try done; try lia; try (simpl; lia).
  rewrite Nat.add_0_r in H1. rewrite H1. cbn [obind].
  destruct (copy_words_ok (Z.to_nat (len - (Z.of_nat m - Z.of_nat 0))) b1 out m off (length out - off) j
    (len - (Z.of_nat m - Z.of_nat 0))) as (b2 & M & H2 & L2 & h2 & HM & HmM); try done; try lia.
  exists b2. split; [done|]. split; [lia|]. apply (holds_weaken _ _ M); [lia|done].
Qed.

(** ** The writer, on a block of [cap] bytes *)
Section writer.
Variable cap : Z.

Record writer_ok (w : writer) (out : bytes) (limit : Z) : Prop := {
  wo_op : w_op w = lenZ out;
  wo_limit : w_limit w = limit;
  wo_holds : holds (w_blk w) out;
  wo_room : lenZ out <= limit <= lenZ (w_blk w);
  wo_u32 : limit < 2 ^ 32;
  wo_cap : lenZ (w_blk w) = cap
}.

Lemma space_left w out limit :
  writer_ok w out limit -> u32 (w_limit w - w_op w) = limit - lenZ out.
Proof. intros [-> -> ? ? ? ?]. pose proof (lenZ_nonneg out). apply wrap_small. lia. Qed.

Lemma lenZ_self_copy n off out : lenZ (self_copy n off out) = lenZ out + Z.of_nat n.
Proof. unfold lenZ. rewrite self_copy_length. lia. Qed.

(** The new writer after an operation that left [blk]. *)
Lemma writer_ok_advance w out limit blk out' n :
  writer_ok w out limit -> lenZ blk = lenZ (w_blk w) -> holds blk out' ->
  lenZ out' = lenZ out + n -> lenZ out' <= limit ->
  writer_ok {| w_blk := blk; w_op := w_op w + n; w_limit := w_limit w |} out' limit.
Proof. intros [Ho Hl Hh Hr Hu Hcap] Hb Hh' Hlen Hle. constructor; simpl; try done; lia. Qed.

(** The short copy: two unaligned stores of eight bytes each. *)
Lemma two_stores_ok blk out offset :
  holds blk out -> 8 <= offset <= lenZ out -> lenZ out + 16 <= lenZ blk ->
  exists b1 b2, store64 blk (lenZ out) (lenZ out - offset) = Done b1 /\
    store64 b1 (lenZ out + 8) (lenZ out - offset + 8) = Done b2 /\
    lenZ b2 = lenZ blk /\ holds b2 (self_copy 16 (Z.to_nat offset) out).
Proof.
  intros Hh Hoff Hcap. unfold store64.
  assert (Hnat : (8 <= Z.to_nat offset <= length out)%nat) by (unfold lenZ in *; lia).
  destruct (store_step blk out 0 (Z.to_nat offset) (length out - Z.to_nat offset) 1 8 8)
    as (b1 & H1 & L1 & h1); try done; try lia.
  { unfold lenZ in *. lia. }
  rewrite Nat.add_0_r in H1. change (lenZ out) with (Z.of_nat (length out)) in *.
  replace (Z.of_nat (length out) - offset) with (Z.of_nat (length out - Z.to_nat offset)) by lia.
  destruct (store_step b1 out 8 (Z.to_nat offset) (length out - Z.to_nat offset + 8) 1 8 8)
    as (b2 & H2 & L2 & h2); try done; try lia.
  replace (Z.of_nat (length out) + 8) with (Z.of_nat (length out + 8)) by lia.
  replace (Z.of_nat (length out - Z.to_nat offset) + 8)
    with (Z.of_nat (length out - Z.to_nat offset + 8)) by lia.
  change (Z.of_nat 8) with 8 in *. exists b1, b2. repeat split; try done. lia.
Qed.

Lemma writer_after_copy w out limit offset len :
  writer_ok w out limit -> 0 <= len ->
  forall blk M, lenZ blk = lenZ (w_blk w) -> lenZ out + len <= limit ->
  holds blk (self_copy M (Z.to_nat offset) out) -> (Z.to_nat len <= M)%nat ->
  writer_ok {| w_blk := blk; w_op := lenZ out + len; w_limit := w_limit w |}
    (self_copy (Z.to_nat len) (Z.to_nat offset) out) limit.
Proof.
  intros Hw Hlen blk M Hb Hle Hh' HM. pose proof Hw as [Ho _ _ _ _ _]. rewrite <- Ho.
  apply (writer_ok_advance w out); try done.
  - by apply (holds_weaken _ _ M).
  - rewrite lenZ_self_copy. lia.
  - rewrite lenZ_self_copy. lia.
Qed.
Lemma append_from_self_ok w out limit offset len :
  writer_ok w out limit -> 0 <= offset < 2 ^ 32 -> 1 <= len <= 255 ->
  if (1 <=? offset) && (offset <=? lenZ out) && (lenZ out + len <=? limit)
  then exists w', writer_append_from_self w offset len = Done (true, w') /\
         writer_ok w' (self_copy (Z.to_nat len) (Z.to_nat offset) out) limit
  else writer_append_from_self w offset len = Done (false, w).
Proof.
  intros Hw Hoff Hlen. pose proof Hw as [Ho Hl Hh Hr Hu Hcap]. pose proof (lenZ_nonneg out).
  unfold writer_append_from_self. rewrite (space_left w out limit Hw), Ho.
  destruct (Z.leb_spec 1 offset) as [Hge1|Hge1]; cbn [andb].
  2: { replace offset with 0 by lia. change (u32 (0 - 1)) with (2 ^ 32 - 1).
       by rewrite (proj2 (Z.leb_le _ _)) by lia. }
  rewrite (wrap_small 32 (offset - 1)) by lia.
  destruct (Z.leb_spec offset (lenZ out)) as [Hin|Hin]; cbn [andb].
  2: { by rewrite (proj2 (Z.leb_le _ _)) by lia. }
  rewrite (proj2 (Z.leb_gt _ (offset - 1))) by lia.
  unfold kmax_increment_copy_overflow. rewrite (wrap_small 32 (len + 10)) by lia.
  assert (Hnat : (1 <= Z.to_nat offset <= length out)%nat) by (unfold lenZ in *; lia).
  pose proof (writer_after_copy w out limit offset len Hw ltac:(lia)) as Hadv.
  destruct ((len <=? 16) && (8 <=? offset) && (16 <=? limit - lenZ out)) eqn:Efast.
  { apply andb_prop in Efast as [Efast H16%Z.leb_le].
    apply andb_prop in Efast as [Hl16%Z.leb_le H8%Z.leb_le].
    rewrite (proj2 (Z.leb_le (lenZ out + len) limit)) by lia.
    destruct (two_stores_ok (w_blk w) out offset) as (b1 & b2 & -> & H2 & L2 & h2); try done; try lia.
    cbn [obind]. rewrite H2. cbn [obind].
    eexists. split; [done|]. apply (Hadv _ 16%nat); [lia|lia|done|lia]. }
  destruct (Z.leb_spec (len + 10) (limit - lenZ out)).
  { rewrite (proj2 (Z.leb_le (lenZ out + len) limit)) by lia.
    destruct (fast_path_ok (w_blk w) out (Z.to_nat offset) len) as (b & Hb & Lb & hb);
      try done; try lia.
    rewrite Z2Nat.id in Hb by lia. rewrite Hb. cbn [obind]. eexists. split; [done|].
    apply (Hadv _ (Z.to_nat len)); [done|lia|done|lia]. }
  destruct (Z.leb_spec (lenZ out + len) limit); cycle 1.
  { by rewrite (proj2 (Z.ltb_lt _ _)) by lia. }
  rewrite (proj2 (Z.ltb_ge _ _)) by lia. unfold incremental_copy. rewrite Z.max_r by lia.
  destruct (copy_bytes_ok (Z.to_nat len) (w_blk w) out 0 (Z.to_nat offset)
    (length out - Z.to_nat offset)) as (b & Hb & Lb & hb); try done; try lia.
  { unfold lenZ in *. lia. }
  rewrite Nat.add_0_r in Hb.
  replace (lenZ out - offset) with (Z.of_nat (length out - Z.to_nat offset)) by (unfold lenZ; lia).
  change (copy_bytes (Z.to_nat len) (Z.of_nat (length out - Z.to_nat offset)) (lenZ out) (w_blk w) = Done b) in Hb.
  rewrite Hb. cbn [obind]. eexists. split; [done|]. apply (Hadv _ (Z.to_nat len)); [done|lia|done|lia].
Qed.

Lemma writer_append_ok w out limit ip len :
  writer_ok w out limit -> 0 <= len <= lenZ ip ->
  if lenZ out + len <=? limit
  then exists w', writer_append w ip len = Done (true, w') /\
         writer_ok w' (out ++ takeZ len ip) limit
  else writer_append w ip len = Done (false, w).
Proof.
  intros Hw Hlen. pose proof Hw as [Ho Hl Hh Hr Hu Hcap]. unfold writer_append.
  rewrite (space_left w out limit Hw).
  destruct (Z.leb_spec (lenZ out + len) limit); cycle 1.
  { by rewrite (proj2 (Z.ltb_lt _ _)) by lia. }
  rewrite (proj2 (Z.ltb_ge _ _)) by lia. rewrite blk_read_ok by lia. rewrite dropZ_0 by lia.
  cbn [obind]. assert (Ht : lenZ (takeZ len ip) = len) by (apply lenZ_takeZ; lia).
  destruct (holds_write (w_blk w) out (takeZ len ip) (length (takeZ len ip)) Hh)
    as (b & Hb & Lb & hb); [lia|lia|].
  rewrite Ho, Hb. cbn [obind]. eexists. split; [done|]. rewrite firstn_all in hb. rewrite <- Ho.
  apply (writer_ok_advance w out); try done; rewrite lenZ_app; lia.
Qed.

Lemma try_fast_append_ok w out limit ip len :
  writer_ok w out limit -> 0 <= len ->
  (writer_try_fast_append w ip len = Done None \/
   exists w', writer_try_fast_append w ip len = Done (Some w') /\ len <= lenZ ip /\ len <= 16 /\
     writer_ok w' (out ++ takeZ len ip) limit).
Proof.
  intros Hw Hlen. pose proof Hw as [Ho Hl Hh Hr Hu Hcap]. unfold writer_try_fast_append.
  destruct ((len <=? 16) && (16 <=? u32 (lenZ ip)) && (16 <=? i32 (w_limit w - w_op w))) eqn:E;
    [|by left].
  apply andb_prop in E as [E Hs%Z.leb_le]. apply andb_prop in E as [H16%Z.leb_le Ha%Z.leb_le].
  right. pose proof (lenZ_nonneg ip). pose proof (lenZ_nonneg out).
  assert (Hip : 16 <= lenZ ip).
  { unfold wrap in Ha. pose proof (Z.mod_le (lenZ ip) (2 ^ 32)). lia. }
  assert (Hroom : lenZ out + 16 <= limit).
  { unfold i32 in Hs. rewrite Ho, Hl in Hs.
    destruct (Z.lt_ge_cases (limit - lenZ out) (2 ^ 31)).
    - rewrite Z.mod_small in Hs by lia. lia.
    - lia. }
  rewrite blk_read_ok by lia. rewrite dropZ_0 by lia. cbn [obind].
  assert (Ht : lenZ (takeZ 16 ip) = 16) by (apply lenZ_takeZ; lia).
  destruct (holds_write (w_blk w) out (takeZ 16 ip) (Z.to_nat len) Hh) as (b & Hb & Lb & hb);
    [lia|unfold lenZ in Ht; lia|].
  rewrite Ho, Hb. cbn [obind]. eexists. split; [done|]. split; [lia|]. split; [done|].
  unfold takeZ at 1 in hb. rewrite take_take, Nat.min_l in hb by lia.
  rewrite <- Ho. apply (writer_ok_advance w out); try done; rewrite lenZ_app, lenZ_takeZ by lia; lia.
Qed.

(** ** The format *)
Inductive decodes : bytes -> bytes -> bytes -> Prop :=
  | decodes_nil out : decodes [] out out
  | decodes_literal d z out out' :
      1 <= lenZ d <= 60 -> decodes z (out ++ d) out' ->
      decodes (4 * (lenZ d - 1) :: d ++ z) out out'
  | decodes_long_literal l d z out out' :
      1 <= lenZ l <= 4 -> le_val l + 1 = lenZ d -> lenZ d < 2 ^ 32 ->
      decodes z (out ++ d) out' ->
      decodes (4 * (59 + lenZ l) :: l ++ d ++ z) out out'
  | decodes_copy c t z out out' :
      is_byte c -> c mod 4 <> 0 -> lenZ t = Z.shiftr (tag_entry c) 11 ->
      let offset := Z.land (tag_entry c) 0x700 + le_val t in
      1 <= offset <= lenZ out -> offset < 2 ^ 32 ->
      decodes z (self_copy (Z.to_nat (Z.land (tag_entry c) 0xff)) (Z.to_nat offset) out) out' ->
      decodes (c :: t ++ z) out out'.

Lemma decodes_app z1 z2 a b c : decodes z1 a b -> decodes z2 b c -> decodes (z1 ++ z2) a c.
Proof.
  intros Hz. induction Hz as [| | |c0 t z out out' Hc Hm Ht offset Ho Hu Hd IH]; intros Hz2; [done|..];
    cbn [app]; rewrite <- ?app_assoc.
  - constructor; auto.
  - constructor; auto.
  - econstructor; eauto.
Qed.
Lemma decodes_grows z out out' : decodes z out out' -> lenZ out <= lenZ out'.
Proof.
  induction 1 as [|d z out out' Hd _ IH|l d z out out' Hl Hv Hd _ IH|c t z out out' Hc Hm Ht offset Ho Hu _ IH].
  - lia.
  - lens.
  - lens.
  - rewrite lenZ_self_copy in IH. lia.
Qed.

(** *** Tags, checked one by one *)
Lemma byte_forall (P : Z -> bool) :
  forallb P (seqZ 0 256) = true -> forall c, is_byte c -> P c = true.
Proof.
  intros H c Hc. rewrite forallb_forall in H. apply H. rewrite <- list_elem_of_In.
  apply elem_of_seqZ. unfold is_byte in Hc. lia.
Qed.
Lemma land_3 c : Z.land c 3 = c mod 4.
Proof. change 3 with (Z.ones 2). by rewrite Z.land_ones. Qed.
Lemma tag_literal k : 0 <= k < 60 -> Z.shiftr (tag_entry (4 * k)) 11 = 0.
Proof.
  intros Hk.
  pose proof (byte_forall (fun c => if (c mod 4 =? 0) && (c <? 240)
    then Z.shiftr (tag_entry c) 11 =? 0 else true) ltac:(vm_compute; reflexivity) (4 * k)
    ltac:(unfold is_byte; lia)) as H. cbn beta in H.
  rewrite (Z.mul_comm 4), Z.mod_mul, (proj2 (Z.ltb_lt _ 240)) in H by lia.
  rewrite Z.mul_comm. by apply Z.eqb_eq.
Qed.
Lemma tag_long_literal k : 1 <= k <= 4 -> Z.shiftr (tag_entry (4 * (59 + k))) 11 = k.
Proof.
  intros Hk. assert (k = 1 \/ k = 2 \/ k = 3 \/ k = 4) as [-> | [-> | [-> | ->]]] by lia; reflexivity.
Qed.
Lemma tag_copy_length c : is_byte c -> c mod 4 <> 0 -> 1 <= Z.land (tag_entry c) 0xff <= 255.
Proof.
  intros Hc Hm.
  pose proof (byte_forall (fun c => if c mod 4 =? 0 then true else
    (1 <=? Z.land (tag_entry c) 0xff) && (Z.land (tag_entry c) 0xff <=? 255))
    ltac:(vm_compute; reflexivity) c Hc) as H. cbn beta in H.
  rewrite (proj2 (Z.eqb_neq _ _) Hm) in H. apply andb_prop in H as [?%Z.leb_le ?%Z.leb_le]. lia.
Qed.
Lemma tag_extra_nonneg c : 0 <= Z.shiftr (tag_entry c) 11 <= 4.
Proof.
  destruct (decide (is_byte c)) as [Hc|Hc].
  - pose proof (byte_forall (fun c => (0 <=? Z.shiftr (tag_entry c) 11) &&
      (Z.shiftr (tag_entry c) 11 <=? 4)) ltac:(vm_compute; reflexivity) c Hc) as H. cbn beta in H.
    apply andb_prop in H as [?%Z.leb_le ?%Z.leb_le]. lia.
  - unfold tag_entry, is_byte in *. destruct (Z.lt_ge_cases c 0).
    + replace (Z.to_nat c) with 0%nat by lia. vm_compute. intuition congruence.
    + rewrite nth_overflow; [vm_compute; intuition congruence|].
      change (length char_table) with 256%nat. lia.
Qed.

(** *** The input *)
Definition d_rest (d : snappy_decompressor) : bytes := d_ip d ++ d_src d.
(** All the input is buffered, or none is. *)
Definition d_ok (d : snappy_decompressor) : Prop := d_src d = [] \/ d_ip d = [].

Lemma maybe_refill_end d :
  d_ok d -> d_rest d = [] ->
  maybe_refill d = (false, {| d_ip := []; d_src := []; d_eof := true |}).
Proof.
  intros _ H. apply app_eq_nil in H as [Hi Hs]. unfold maybe_refill, refill_tag. rewrite Hi. simpl.
  rewrite Hs. done.
Qed.
Lemma maybe_refill_tag d c z :
  d_ok d -> d_rest d = c :: z ->
  maybe_refill d =
    (Z.shiftr (tag_entry c) 11 <=? lenZ z, {| d_ip := c :: z; d_src := []; d_eof := d_eof d |}).
Proof.
  intros Hd Hr. destruct d as [ip src eof]. unfold d_rest, d_ok in *. simpl in *.
  pose proof (tag_extra_nonneg c). pose proof (lenZ_nonneg z).
  assert (Hcase : ip = c :: z /\ src = [] \/ ip = [] /\ src = c :: z).
  { destruct Hd as [->| ->]; [left; by rewrite app_nil_r in Hr|by right]. }
  unfold maybe_refill. simpl d_ip.
  assert (Href : refill_tag {| d_ip := ip; d_src := src; d_eof := eof |} =
    (Z.shiftr (tag_entry c) 11 <=? lenZ z, {| d_ip := c :: z; d_src := []; d_eof := eof |})).
  { unfold refill_tag. destruct Hcase as [[-> ->]|[-> ->]]; simpl d_ip; simpl d_src; simpl d_eof.
    all: rewrite ?lenZ_nil, ?lenZ_cons, ?Z.eqb_refl.
    1: rewrite (proj2 (Z.eqb_neq (1 + lenZ z) 0)) by lia.
    all: cbn [d_ip d_src d_eof]; rewrite ?lenZ_nil, ?lenZ_cons.
    all: destruct (Z.leb_spec (Z.shiftr (tag_entry c) 11) (lenZ z));
      [by rewrite (proj2 (Z.ltb_ge (1 + lenZ z) _)) by lia|];
      rewrite (proj2 (Z.ltb_lt (1 + lenZ z) _)) by lia;
      by rewrite (proj2 (Z.ltb_lt 0 _)) by lia. }
  destruct (Z.ltb_spec (lenZ ip) 5) as [|H5]; [done|].
  destruct Hcase as [[-> ->]|[-> ->]]; [|rewrite lenZ_nil in H5; lia].
  rewrite lenZ_cons in H5. by rewrite (proj2 (Z.leb_le _ _)) by lia.
Qed.

(** *** One tag *)
Lemma append_literal_buffered fuel w out limit d x z :
  writer_ok w out limit -> d_ip d = x ++ z -> lenZ out + lenZ x <= limit ->
  exists w', append_literal fuel (lenZ x) d w = Done (true, set_ip z d, w') /\
    writer_ok w' (out ++ x) limit.
Proof.
  intros Hw Hip Hroom.
  assert (Hgo : (lenZ (d_ip d) <? lenZ x) = false) by (rewrite Hip; apply Z.ltb_ge; lens).
  pose proof (writer_append_ok w out limit (d_ip d) (lenZ x) Hw ltac:(rewrite Hip; lens)) as Ha.
  rewrite (proj2 (Z.leb_le _ _)) in Ha by done. destruct Ha as (w' & Ha & Hw').
  rewrite Hip, takeZ_app_eq in Hw' by done.
  exists w'. split; [|done]. destruct fuel; cbn [append_literal]; rewrite Hgo, Ha; cbn [obind negb];
    rewrite Hip, dropZ_app_eq by done; done.
Qed.

Lemma decompress_literal w out limit d x z :
  writer_ok w out limit -> 1 <= lenZ x <= 60 -> lenZ out + lenZ x <= limit ->
  exists w', decompress_tag (4 * (lenZ x - 1)) (x ++ z) d w = Done (true, set_ip z d, w') /\
    writer_ok w' (out ++ x) limit.
Proof.
  intros Hw Hx Hroom. unfold decompress_tag.
  rewrite land_3, Z.mul_comm, Z.mod_mul by lia. cbn [Z.eqb LITERAL].
  rewrite Z.shiftr_div_pow2, Z.div_mul by lia.
  replace (lenZ x - 1 + 1) with (lenZ x) by lia.
  destruct (try_fast_append_ok w out limit (x ++ z) (lenZ x) Hw ltac:(lia))
    as [->|(w' & -> & _ & _ & Hw')]; cbn [obind].
  - rewrite (proj2 (Z.leb_gt 61 _)) by lia.
    destruct (append_literal_buffered 2 w out limit (set_ip (x ++ z) d) x z Hw eq_refl Hroom)
      as (w' & -> & Hw'). by exists w'.
  - rewrite takeZ_app_eq in Hw' by done. rewrite dropZ_app_eq by done. eauto.
Qed.

Lemma try_fast_append_long w ip len : 16 < len -> writer_try_fast_append w ip len = Done None.
Proof. intros H. unfold writer_try_fast_append. by rewrite (proj2 (Z.leb_gt _ _)). Qed.

Lemma decompress_long_literal w out limit d l x z :
  writer_ok w out limit -> 1 <= lenZ l <= 4 -> le_val l + 1 = lenZ x -> lenZ x < 2 ^ 32 ->
  lenZ out + lenZ x <= limit ->
  exists w', decompress_tag (4 * (59 + lenZ l)) (l ++ x ++ z) d w = Done (true, set_ip z d, w') /\
    writer_ok w' (out ++ x) limit.
Proof.
  intros Hw Hl Hv Hx Hroom. unfold decompress_tag.
  rewrite land_3, Z.mul_comm, Z.mod_mul by lia. cbn [Z.eqb LITERAL].
  rewrite Z.shiftr_div_pow2, Z.div_mul by lia.
  rewrite try_fast_append_long by lia. cbn [obind].
  rewrite (proj2 (Z.leb_le 61 _)) by lia.
  replace (59 + lenZ l + 1 - 60) with (lenZ l) by lia.
  rewrite takeZ_app_eq, dropZ_app_eq by done. rewrite Hv, wrap_small by lens.
  by apply (append_literal_buffered 2 w out limit (set_ip (x ++ z) d) x z).
Qed.

Lemma decompress_copy w out limit d c t z :
  writer_ok w out limit -> is_byte c -> c mod 4 <> 0 -> lenZ t = Z.shiftr (tag_entry c) 11 ->
  let offset := Z.land (tag_entry c) 0x700 + le_val t in
  1 <= offset <= lenZ out -> offset < 2 ^ 32 ->
  lenZ out + Z.land (tag_entry c) 0xff <= limit ->
  exists w', decompress_tag c (t ++ z) d w = Done (true, set_ip z d, w') /\
    writer_ok w' (self_copy (Z.to_nat (Z.land (tag_entry c) 0xff)) (Z.to_nat offset) out) limit.
Proof.
  intros Hw Hc Hm Ht offset Ho Hu Hroom. unfold decompress_tag.
  unfold LITERAL. rewrite land_3, (proj2 (Z.eqb_neq _ _) Hm). rewrite <- Ht, takeZ_app_eq, dropZ_app_eq by done.
  fold offset. rewrite (wrap_small 32 offset) by lia.
  pose proof (append_from_self_ok w out limit offset (Z.land (tag_entry c) 0xff) Hw ltac:(lia)
    (tag_copy_length c Hc Hm)) as Ha.
  rewrite !(proj2 (Z.leb_le _ _)) in Ha by lia. cbn [andb] in Ha.
  destruct Ha as (w' & -> & Hw'). by exists w'.
Qed.

(** ** The decompressor implements the format *)
Lemma decompress_all_tags_ok z out out' :
  decodes z out out' -> forall fuel d w,
  d_ok d -> d_rest d = z -> d_eof d = false -> writer_ok w out (lenZ out') ->
  (length z < fuel)%nat ->
  exists d' w', decompress_all_tags fuel d w = Done (d', w') /\ d_eof d' = true /\
    writer_ok w' out' (lenZ out').
Proof.
  induction 1 as [out|x z out out' Hx Hd IH|l x z out out' Hl Hv Hx Hd IH
                 |c t z out out' Hc Hm Ht offset Ho Hu Hd IH];
    intros fuel d w Hok Hr He Hw Hf; (destruct fuel as [|fuel]; [lia|]); cbn [decompress_all_tags].
  - rewrite (maybe_refill_end d Hok Hr). do 2 eexists. split; [done|]. done.
  - rewrite (maybe_refill_tag d _ _ Hok Hr), tag_literal by lia.
    rewrite (proj2 (Z.leb_le 0 _)) by lens. cbn [negb d_ip]. pose proof (decodes_grows _ _ _ Hd).
    destruct (decompress_literal w out (lenZ out') {| d_ip := 4 * (lenZ x - 1) :: x ++ z;
      d_src := []; d_eof := d_eof d |} x z Hw Hx ltac:(lens)) as (w' & -> & Hw'). cbn [obind negb].
    apply IH; try done; [by left|by unfold d_rest; simpl; rewrite app_nil_r|].
    simpl in Hf. rewrite length_app in Hf. lia.
  - rewrite (maybe_refill_tag d _ _ Hok Hr), tag_long_literal by lia.
    rewrite (proj2 (Z.leb_le _ _)) by lens. cbn [negb d_ip]. pose proof (decodes_grows _ _ _ Hd).
    destruct (decompress_long_literal w out (lenZ out') {| d_ip := 4 * (59 + lenZ l) :: l ++ x ++ z;
      d_src := []; d_eof := d_eof d |} l x z Hw Hl Hv Hx ltac:(lens)) as (w' & -> & Hw').
    cbn [obind negb].
    apply IH; try done; [by left|by unfold d_rest; simpl; rewrite app_nil_r|].
    simpl in Hf. rewrite !length_app in Hf. lia.
  - rewrite (maybe_refill_tag d _ _ Hok Hr), <- Ht.
    rewrite (proj2 (Z.leb_le _ _)) by lens. cbn [negb d_ip]. pose proof (decodes_grows _ _ _ Hd) as Hg.
    pose proof (tag_copy_length c Hc Hm). rewrite lenZ_self_copy in Hg.
    destruct (decompress_copy w out (lenZ out') {| d_ip := c :: t ++ z;
      d_src := []; d_eof := d_eof d |} c t z Hw Hc Hm Ht Ho Hu ltac:(lia)) as (w' & -> & Hw').
    cbn [obind negb].
    apply IH; try done; [by left|by unfold d_rest; simpl; rewrite app_nil_r|].
    simpl in Hf. rewrite length_app in Hf. lia.
Qed.

End writer.

Lemma uncompress_decodes z d :
  lenZ d < 2 ^ 32 -> decodes z [] d ->
  snappy_uncompress (varint_encode32 (lenZ d) ++ z) (lenZ d) = Done (0, d).
Proof.
  intros Hd Hz. pose proof (lenZ_nonneg d).
  unfold snappy_uncompress, internal_uncompress.
  rewrite (read_length_parse _ (lenZ d) z) by (apply varint_parse_encode; lia).
  rewrite (proj2 (Z.ltb_ge _ _)) by lia. unfold writer_set_expected_length. cbn [w_blk w_op].
  destruct (decompress_all_tags_ok (lenZ d) z [] d Hz (S (length z))
    {| d_ip := []; d_src := z; d_eof := false |}
    {| w_blk := zeros (lenZ d); w_op := 0; w_limit := 0 + lenZ d |}) as (d' & w' & -> & He & Hw');
    try done; try lia; [by right| |].
  { constructor; simpl; try done; try lia; [by exists (zeros (lenZ d))| |];
      rewrite lenZ_zeros by lia; rewrite ?lenZ_nil; lia. }
  cbn [obind]. rewrite He. destruct Hw' as [Hop Hli [rest Hb] Hro _ Hcap].
  unfold writer_check_length. rewrite Hop, Hli, Z.eqb_refl. cbn [andb].
  rewrite Hb, lenZ_app in Hcap. rewrite Hb, (lenZ_zero_nil rest), app_nil_r by lia. done.
Qed.

(** ** Arbitrary input

    Whatever the input, a block at least as long as the length it announces
    is never overrun. *)
Section safety.
Variable cap : Z.

Lemma append_literal_safe fuel w out limit d len :
  writer_ok cap w out limit -> d_src d = [] -> 0 <= len -> (1 <= fuel)%nat ->
  exists ok d' w' out' k, append_literal fuel len d w = Done (ok, d', w') /\
    writer_ok cap w' out' limit /\ d_src d' = [] /\ d_ip d' = drop k (d_ip d).
Proof.
  intros Hw Hs Hlen Hf. destruct fuel as [|fuel]; [lia|]. cbn [append_literal].
  destruct (Z.ltb_spec (lenZ (d_ip d)) len) as [Hlt|Hge].
  - pose proof (writer_append_ok cap w out limit (d_ip d) (lenZ (d_ip d)) Hw ltac:(lens)) as Ha.
    destruct (_ <=? limit).
    + destruct Ha as (w' & -> & Hw'). cbn [obind negb]. rewrite Hs. simpl.
      do 4 eexists. exists (length (d_ip d)). split; [done|]. split; [done|]. split; [done|].
      simpl. by rewrite drop_all.
    + rewrite Ha. cbn [obind negb]. do 4 eexists. by exists 0%nat.
  - pose proof (writer_append_ok cap w out limit (d_ip d) len Hw ltac:(lia)) as Ha.
    destruct (_ <=? limit).
    + destruct Ha as (w' & -> & Hw'). cbn [obind negb]. do 5 eexists. split; [done|]. done.
    + rewrite Ha. cbn [obind negb]. do 4 eexists. by exists 0%nat.
Qed.

Lemma decompress_tag_safe w out limit d c ip :
  writer_ok cap w out limit -> is_byte c -> d_src d = [] ->
  exists ok d' w' out' k, decompress_tag c ip d w = Done (ok, d', w') /\
    writer_ok cap w' out' limit /\ d_src d' = [] /\ d_ip d' = drop k ip.
Proof.
  intros Hw Hc Hs. unfold decompress_tag, LITERAL.
  destruct (Z.eqb_spec (Z.land c 3) 0) as [Hl|Hl].
  - assert (0 <= Z.shiftr c 2) by (apply Z.shiftr_nonneg; unfold is_byte in Hc; lia).
    destruct (try_fast_append_ok cap w out limit ip (Z.shiftr c 2 + 1) Hw ltac:(lia))
      as [->|(w' & -> & _ & _ & Hw')]; cbn [obind]; [|do 5 eexists; by split].
    destruct (61 <=? _).
    + destruct (append_literal_safe 2 w out limit
        (set_ip (dropZ (Z.shiftr c 2 + 1 - 60) ip) d)
        (u32 (le_val (takeZ (Z.shiftr c 2 + 1 - 60) ip) + 1)) Hw Hs)
        as (ok & d' & w' & out' & k & -> & Hw' & Hs' & Hl'); [apply wrap_bound; lia|lia|].
      simpl in Hl'. unfold dropZ in Hl'. rewrite drop_drop in Hl'. eauto 10.
    + destruct (append_literal_safe 2 w out limit (set_ip ip d) (Z.shiftr c 2 + 1) Hw Hs)
        as (ok & d' & w' & out' & k & -> & Hw' & Hs' & Hl'); [lia|lia|]. eauto 10.
  - rewrite land_3 in Hl.
    pose proof (append_from_self_ok cap w out limit
      (u32 (Z.land (tag_entry c) 0x700 + le_val (takeZ (Z.shiftr (tag_entry c) 11) ip)))
      (Z.land (tag_entry c) 0xff) Hw (wrap_bound 32 _ ltac:(lia)) (tag_copy_length c Hc Hl)) as Ha.
    destruct (_ && _ && _); [destruct Ha as (w' & -> & Hw')|rewrite Ha]; cbn [obind];
      do 5 eexists; by split.
Qed.

Lemma decompress_all_tags_safe fuel d w out limit :
  d_ok d -> (length (d_rest d) < fuel)%nat -> bytes_ok (d_rest d) ->
  writer_ok cap w out limit ->
  exists d' w' out', decompress_all_tags fuel d w = Done (d', w') /\ writer_ok cap w' out' limit.
Proof.
  revert d w out. induction fuel as [|fuel IH]; intros d w out Hok Hf Hb Hw; [lia|].
  cbn [decompress_all_tags]. destruct (d_rest d) as [|c z] eqn:Er.
  { rewrite maybe_refill_end by done. cbn [negb]. eauto. }
  rewrite (maybe_refill_tag d c z Hok Er).
  destruct (_ <=? _); cbn [negb d_ip]; [|eauto].
  apply Forall_cons in Hb as [Hc Hb].
  destruct (decompress_tag_safe w out limit {| d_ip := c :: z; d_src := []; d_eof := d_eof d |} c z Hw Hc eq_refl)
    as (ok & d' & w' & out' & k & Ht & Hw' & Hs & Hl).
  rewrite Ht. cbn [obind]. destruct ok; cbn [negb]; [|eauto].
  assert (Hrest : d_rest d' = drop k z) by (unfold d_rest; by rewrite Hs, Hl, app_nil_r).
  apply (IH d' w' out'); [by left| | |done]; rewrite Hrest.
  - rewrite length_drop. simpl in Hf. lia.
  - by apply Forall_drop.
Qed.
End safety.

Lemma uncompress_safe z n len rest :
  bytes_ok z -> read_uncompressed_length 0 0 z = Some (len, rest) -> 0 <= len <= n ->
  exists rc blk, snappy_uncompress z n = Done (rc, blk) /\ lenZ blk = n.
Proof.
  intros Hz Hr Hle. unfold snappy_uncompress, internal_uncompress. rewrite Hr.
  destruct (Z.ltb_spec 0xffffffff len) as [Hbig|Hsmall].
  { cbn [obind w_blk]. do 2 eexists. split; [done|]. apply lenZ_zeros. lia. }
  assert (Hrest : bytes_ok rest).
  { assert (Hsuf : forall z shift acc, bytes_ok z ->
      read_uncompressed_length shift acc z = Some (len, rest) -> bytes_ok rest).
    { clear. intros z. induction z as [|c z IH]; intros shift acc Hz; cbn [read_uncompressed_length];
        destruct (32 <=? shift); try done.
      apply Forall_cons in Hz as [_ Hz]. destruct (c <? 128); [by intros [= _ <-]|].
      by apply IH. }
    by apply (Hsuf z 0 0). }
  destruct (decompress_all_tags_safe n (S (length rest)) {| d_ip := []; d_src := rest; d_eof := false |}
    (writer_set_expected_length {| w_blk := zeros n; w_op := 0; w_limit := 0 |} len) [] len)
    as (d' & w' & out' & -> & Hw'); try done; [by right|unfold d_rest; simpl; lia| |].
  { constructor; simpl; try done; try lia; [by exists (zeros n)| |];
      rewrite lenZ_zeros by lia; rewrite ?lenZ_nil; lia. }
  cbn [obind]. do 2 eexists. split; [done|]. apply Hw'.
Qed.

(** ** Termination

    Without any assumption on input and block the decompressor returns or
    faults; it never exhausts the fuel of the model. *)
Definition returns {A} (o : outcome A) (P : A -> Prop) : Prop :=
  match o with
  | Done a => P a
  | Fault f => f <> OutOfFuel
  end.
Lemma returns_bind {A B} (o : outcome A) (k : A -> outcome B) (P : A -> Prop) (Q : B -> Prop) :
  returns o P -> (forall a, P a -> returns (k a) Q) -> returns (obind o k) Q.
Proof. unfold returns. destruct o; simpl; [|done]. intros HP HQ. exact (HQ a HP). Qed.
Lemma returns_weaken {A} (o : outcome A) (P Q : A -> Prop) :
  returns o P -> (forall a, P a -> Q a) -> returns o Q.
Proof. unfold returns. destruct o; [|done]. intros HP HQ. exact (HQ a HP). Qed.
Lemma returns_read b p n : returns (blk_read b p n) (fun _ => True).
Proof. unfold blk_read, returns. by destruct (_ && _ && _). Qed.
Lemma returns_write b p d : returns (blk_write b p d) (fun _ => True).
Proof. unfold blk_write, returns. by destruct (_ && _). Qed.
Lemma returns_store64 b op src : returns (store64 b op src) (fun _ => True).
Proof. eapply returns_bind; [apply returns_read|]. intros; apply returns_write. Qed.

Lemma returns_copy_bytes n src op blk : returns (copy_bytes n src op blk) (fun _ => True).
Proof.
  revert src op blk. induction n as [|n IH]; intros; [done|]. cbn [copy_bytes].
  eapply returns_bind; [|intros; apply IH].
  eapply returns_bind; [apply returns_read|]. intros; apply returns_write.
Qed.
Lemma returns_expand_pattern fuel src op len blk d :
  op - src = d -> 1 <= d -> 8 <= d * 2 ^ Z.of_nat fuel ->
  returns (expand_pattern fuel src op len blk) (fun _ => True).
Proof.
  revert op len blk d. induction fuel as [|fuel IH]; intros op len blk d Hd H1 Hf; cbn [expand_pattern];
    destruct (Z.leb_spec 8 (op - src)); try done.
  { simpl in Hf. lia. }
  eapply returns_bind; [apply returns_store64|]. intros b _. apply (IH _ _ _ (2 * d)); [lia|lia|].
  rewrite Nat2Z.inj_succ, Z.pow_succ_r in Hf by lia. lia.
Qed.
Lemma returns_copy_words fuel src op len blk :
  len <= Z.of_nat fuel -> returns (copy_words fuel src op len blk) (fun _ => True).
Proof.
  revert src op len blk. induction fuel as [|fuel IH]; intros src op len blk Hf; cbn [copy_words];
    destruct (Z.leb_spec len 0); try done; [lia|].
  eapply returns_bind; [apply returns_store64|]. intros b _. apply IH. lia.
Qed.

Definition writer_bound (w : writer) : Prop := w_op w <= w_limit w < 2 ^ 32.
Lemma u32_le x : 0 <= x -> u32 x <= x.
Proof. intros H. unfold wrap. by apply Z.mod_le. Qed.

Lemma returns_append_from_self w offset len :
  writer_bound w -> 0 <= offset < 2 ^ 32 -> 0 <= len <= 255 ->
  returns (writer_append_from_self w offset len) (fun r => writer_bound (snd r)).
Proof.
  intros Hw Ho Hlen. unfold writer_append_from_self, writer_bound in *.
  pose proof (u32_le (w_limit w - w_op w) ltac:(lia)).
  destruct (Z.leb_spec (w_op w) (u32 (offset - 1))) as [|Hgt]; [done|].
  assert (1 <= offset).
  { destruct (Z.le_gt_cases 1 offset); [done|]. replace offset with 0 in Hgt by lia.
    change (u32 (0 - 1)) with (2 ^ 32 - 1) in Hgt. lia. }
  destruct ((len <=? 16) && _ && _) eqn:Ef.
  { apply andb_prop in Ef as [Ef H16%Z.leb_le]. apply andb_prop in Ef as [?%Z.leb_le _].
    eapply returns_bind; [apply returns_store64|]. intros b _.
    eapply returns_bind; [apply returns_store64|]. intros b2 _. simpl. lia. }
  unfold kmax_increment_copy_overflow. rewrite (wrap_small 32 (len + 10)) by lia.
  destruct (Z.leb_spec (len + 10) (u32 (w_limit w - w_op w))).
  { eapply (returns_bind _ _ (fun _ => True)); [|intros b _; simpl; lia].
    eapply returns_bind; [apply (returns_expand_pattern 3 _ _ _ _ offset); simpl; lia|].
    intros [[op' len'] b] _. apply returns_copy_words. lia. }
  destruct (Z.ltb_spec (u32 (w_limit w - w_op w)) len); [done|].
  eapply returns_bind; [apply returns_copy_bytes|]. intros b _. simpl. lia.
Qed.
Lemma returns_writer_append w ip len :
  writer_bound w -> returns (writer_append w ip len) (fun r => writer_bound (snd r)).
Proof.
  intros Hw. unfold writer_append, writer_bound in *.
  pose proof (u32_le (w_limit w - w_op w) ltac:(lia)).
  destruct (Z.ltb_spec (u32 (w_limit w - w_op w)) len); [done|].
  eapply returns_bind; [apply returns_read|]. intros d _.
  eapply returns_bind; [apply returns_write|]. intros b _. simpl. lia.
Qed.
Lemma returns_try_fast w ip len :
  writer_bound w ->
  returns (writer_try_fast_append w ip len)
    (fun r => match r with Some w => writer_bound w | None => True end).
Proof.
  intros Hw. unfold writer_try_fast_append, writer_bound in *.
  destruct ((len <=? 16) && _ && _) eqn:Ef; [|done].
  apply andb_prop in Ef as [Ef H16%Z.leb_le]. apply andb_prop in Ef as [?%Z.leb_le _].
  eapply returns_bind; [apply returns_read|]. intros d _.
  eapply returns_bind; [apply returns_write|]. intros b _. simpl.
  enough (16 <= w_limit w - w_op w) by lia. unfold i32 in H16.
  destruct (Z.lt_ge_cases (w_limit w - w_op w) (2 ^ 31)); [|lia].
  rewrite Z.mod_small in H16 by lia. lia.
Qed.
Lemma returns_append_literal fuel len d w :
  writer_bound w -> (d_src d = [] -> (1 <= fuel)%nat) -> (2 <= fuel \/ d_src d = [])%nat ->
  returns (append_literal fuel len d w)
    (fun r => writer_bound (snd r) /\ (length (d_rest (snd (fst r))) <= length (d_rest d))%nat).
Proof.
  revert len d w. induction fuel as [|fuel IH]; intros len d w Hw H1 H2.
  { destruct H2; [lia|]. specialize (H1 H). lia. }
  cbn [append_literal]. destruct (_ <? len).
  - eapply returns_bind; [by apply returns_writer_append|]. intros [[] w'] Hw'; cbn [negb snd] in *.
    2: { simpl. done. }
    destruct (Z.eqb_spec (lenZ (d_src d)) 0) as [Hz|Hz].
    { simpl d_ip. rewrite (proj2 (Z.eqb_eq _ 0)) by done. simpl. split; [done|].
      unfold d_rest. simpl. rewrite !length_app. simpl. lia. }
    simpl d_ip. rewrite (proj2 (Z.eqb_neq _ 0)) by done.
    eapply returns_weaken; [apply IH; [done|..]|].
    + intros _. destruct H2 as [|H2]; [lia|]. by rewrite H2 in Hz.
    + by right.
    + intros [[ok d'] w''] [? Hl]. split; [done|]. simpl in *. unfold d_rest in *. simpl in *.
      rewrite !length_app in *. simpl in *. lia.
  - eapply returns_bind; [by apply returns_writer_append|]. intros [[] w'] Hw'; cbn [negb snd] in *;
      simpl; (split; [done|]); [|done].
    unfold d_rest. simpl. unfold dropZ. rewrite !length_app, length_drop. lia.
Qed.
Lemma returns_decompress_tag c ip d w :
  writer_bound w ->
  returns (decompress_tag c ip d w)
    (fun r => writer_bound (snd r) /\
       (length (d_rest (snd (fst r))) <= length ip + length (d_src d))%nat).
Proof.
  intros Hw. unfold decompress_tag.
  assert (Hdrop : forall n, (length (dropZ n ip) <= length ip)%nat).
  { intros n. unfold dropZ. rewrite length_drop. lia. }
  destruct (_ =? LITERAL).
  - eapply returns_bind; [by apply returns_try_fast|]. intros [w'|] Hw'.
    { simpl. split; [done|]. unfold d_rest, set_ip. simpl. rewrite length_app.
      specialize (Hdrop (Z.shiftr c 2 + 1)). lia. }
    destruct (61 <=? _); (eapply returns_weaken; [apply returns_append_literal; try done; lia|]);
      intros [[ok d'] w'] [? Hl]; (split; [done|]); simpl in *; unfold d_rest, set_ip in *;
      simpl in *; rewrite !length_app in *; [|done].
    specialize (Hdrop (Z.shiftr c 2 + 1 - 60)). lia.
  - eapply returns_bind.
    { apply (returns_append_from_self w _ (Z.land (tag_entry c) 0xff) Hw);
        [apply wrap_bound; lia|]. change 0xff with (Z.ones 8). rewrite Z.land_ones by lia.
      change (Z.ones 8) with 255. pose proof (Z.mod_pos_bound (tag_entry c) (2 ^ 8)). lia. }
    intros [ok w'] Hw'. simpl. split; [done|]. unfold d_rest, set_ip. simpl. rewrite length_app.
    specialize (Hdrop (Z.shiftr (tag_entry c) 11)). lia.
Qed.
Lemma maybe_refill_rest d d' : maybe_refill d = (true, d') -> d_rest d' = d_rest d.
Proof.
  unfold maybe_refill. destruct (_ <? 5); [|by intros [= <-]]. unfold refill_tag.
  set (d1 := if lenZ (d_ip d) =? 0 then {| d_ip := d_src d; d_src := []; d_eof := d_eof d |} else d).
  assert (Hd1 : d_rest d1 = d_rest d).
  { subst d1. destruct (Z.eqb_spec (lenZ (d_ip d)) 0) as [Hz|]; [|done].
    apply lenZ_zero_nil in Hz. unfold d_rest. simpl. rewrite Hz. by rewrite app_nil_r. }
  destruct (d_ip d1) as [|c z] eqn:E; [done|]. destruct (_ <? _); [|by intros [= <-]].
  destruct (_ <? _); [done|]. intros [= <-]. rewrite <- Hd1. unfold d_rest. simpl.
  rewrite E, <- app_assoc. simpl. by rewrite takeZ_dropZ.
Qed.
Lemma returns_decompress_all fuel d w :
  writer_bound w -> (length (d_rest d) < fuel)%nat ->
  returns (decompress_all_tags fuel d w) (fun _ => True).
Proof.
  revert d w. induction fuel as [|fuel IH]; intros d w Hw Hf; [lia|]. cbn [decompress_all_tags].
  destruct (maybe_refill d) as [[] d1] eqn:E; cbn [negb]; [|done].
  apply maybe_refill_rest in E. destruct (d_ip d1) as [|c ip] eqn:Ei; [done|].
  eapply returns_bind; [by apply returns_decompress_tag|].
  intros [[[] d2] w2] [Hw2 Hl]; cbn [negb]; [|done]. apply IH; [done|]. simpl in Hl.
  rewrite <- E in Hf. unfold d_rest in Hf at 1. rewrite Ei in Hf. simpl in Hf.
  rewrite length_app in Hf. lia.
Qed.
Lemma read_length_bound p : forall shift acc n rest,
  0 <= acc < 2 ^ 32 -> read_uncompressed_length shift acc p = Some (n, rest) -> 0 <= n < 2 ^ 32.
Proof.
  induction p as [|c p IH]; intros shift acc n rest Ha; cbn [read_uncompressed_length];
    destruct (32 <=? shift); try done.
  set (acc' := Z.lor acc _).
  assert (Ha' : 0 <= acc' < 2 ^ 32).
  { subst acc'. pose proof (wrap_bound 32 (Z.shiftl (Z.land c 127) shift) ltac:(lia)) as Hs.
    split; [apply Z.lor_nonneg; lia|].
    destruct (Z.eq_dec (Z.lor acc (u32 (Z.shiftl (Z.land c 127) shift))) 0) as [->|Hnz]; [lia|].
    apply Z.log2_lt_pow2; [pose proof (proj2 (Z.lor_nonneg acc (u32 (Z.shiftl (Z.land c 127) shift)))); lia|].
    rewrite Z.log2_lor by lia. apply Z.max_lub_lt.
    - destruct (Z.eq_dec acc 0) as [->|]; [done|]. apply Z.log2_lt_pow2; lia.
    - destruct (Z.eq_dec (u32 (Z.shiftl (Z.land c 127) shift)) 0) as [->|]; [done|].
      apply Z.log2_lt_pow2; lia. }
  destruct (c <? 128); [by intros [= <- _]|]. by apply IH.
Qed.
Lemma uncompress_returns z n : snappy_uncompress z n <> Fault OutOfFuel.
Proof.
  assert (H : returns (snappy_uncompress z n) (fun _ => True)).
  { unfold snappy_uncompress. eapply (returns_bind _ _ (fun _ => True)); [|by intros [rc w]].
    unfold internal_uncompress. destruct (read_uncompressed_length 0 0 z) as [[len rest]|] eqn:E; [|done].
    destruct (_ <? _); [done|]. apply read_length_bound in E; [|lia].
    eapply returns_bind; [apply returns_decompress_all|by intros [d w]].
    - unfold writer_bound. simpl. lia.
    - unfold d_rest. simpl. lia. }
  intros E. rewrite E in H. done.
Qed.
