(* ===== verification/SnappyEnc.v ===== *)
(** * SnappyEnc: correctness of the compressor

    Every byte the compressor emits belongs to a tag of the format
    [SnappyDec.decodes], the emitted tags decode to the input, they fit in
    [snappy_max_compressed_length] bytes together with what the fast path of
    [emit_literal] writes beyond them, and the loops end.  The last part
    discharges the interface of Compressor.v. *)
From S2P Require Import Prelude Compressor Snappy SnappyDec.

(** ** The length of a match *)

(** The reference: how many bytes two sequences have in common. *)
Fixpoint common_prefix (a b : bytes) : nat :=
  match a, b with
  | x :: a, y :: b => if x =? y then S (common_prefix a b) else O
  | _, _ => O
  end.

Lemma common_prefix_app p a b : common_prefix (p ++ a) (p ++ b) = (length p + common_prefix a b)%nat.
Proof. induction p as [|x p IH]; [done|]. simpl. by rewrite Z.eqb_refl, IH. Qed.
Lemma common_prefix_differ a1 b1 a2 b2 :
  length a1 = length b1 -> a1 <> b1 ->
  common_prefix (a1 ++ a2) (b1 ++ b2) = common_prefix a1 b1.
Proof.
  revert b1. induction a1 as [|x a IH]; intros [|y b] Hl Hd; simpl in *; try done.
  destruct (Z.eqb_spec x y) as [->|]; [|done]. rewrite IH; [done|lia|congruence].
Qed.
Lemma common_prefix_nth a b i :
  (i < common_prefix a b)%nat -> nth i a 0 = nth i b 0.
Proof.
  revert b i. induction a as [|x a IH]; intros [|y b] i; simpl; try lia.
  destruct (Z.eqb_spec x y) as [->|]; [|lia]. destruct i; [done|]. intros. apply IH. lia.
Qed.
Lemma common_prefix_le a b : (common_prefix a b <= length a /\ common_prefix a b <= length b)%nat.
Proof.
  revert b. induction a as [|x a IH]; intros [|y b]; simpl; try lia.
  destruct (x =? y); [|lia]. specialize (IH b). lia.
Qed.

Lemma le_val_inj a b : bytes_ok a -> bytes_ok b -> length a = length b -> le_val a = le_val b -> a = b.
Proof.
  intros Ha. revert b. induction Ha as [|x a Hx Ha IH]; intros [|y b] Hb Hl Hv; try done.
  apply Forall_cons in Hb as [Hy Hb]. unfold is_byte in *. cbn [le_val length] in *.
  assert (x = y) as -> by lia. f_equal. apply IH; [done|lia|lia].
Qed.

(** The trailing zeros of the exclusive or of two words count the bytes they
    share. *)
Lemma ctz_nonneg fuel n : 0 <= ctz fuel n.
Proof.
  revert n. induction fuel as [|fuel IH]; intros n; cbn [ctz]; [lia|].
  destruct (Z.testbit n 0); [lia|]. specialize (IH (Z.shiftr n 1)).
  change (0 <= 1 + ctz fuel (Z.shiftr n 1)). lia.
Qed.
Lemma ctz_even f n k : ctz (k + f) (2 ^ Z.of_nat k * n) = Z.of_nat k + ctz f n.
Proof.
  induction k as [|k IH]; [rewrite Z.pow_0_r, Z.mul_1_l; done|].
  cbn [Nat.add ctz]. rewrite Nat2Z.inj_succ, Z.pow_succ_r, <- Z.mul_assoc by lia.
  rewrite Z.testbit_even_0, Z.shiftr_div_pow2 by lia. change (2 ^ 1) with 2.
  rewrite (Z.mul_comm 2), Z.div_mul by lia. rewrite IH. lia.
Qed.
Lemma ctz_le fuel n j : 0 <= j < Z.of_nat fuel -> Z.testbit n j = true -> ctz fuel n <= j.
Proof.
  revert n j. induction fuel as [|fuel IH]; intros n j Hj Ht; cbn [ctz]; [lia|].
  destruct (Z.testbit n 0) eqn:E; [lia|].
  assert (j <> 0) by congruence.
  enough (ctz fuel (Z.shiftr n 1) <= j - 1) by lia. apply IH; [lia|].
  rewrite Z.shiftr_spec by lia. rewrite <- Ht. f_equal. lia.
Qed.
Lemma lxor_cons x y A B :
  is_byte x -> is_byte y ->
  Z.lxor (x + 256 * A) (y + 256 * B) = Z.lxor x y + 256 * Z.lxor A B.
Proof.
  unfold is_byte. intros Hx Hy.
  assert (Hs : forall v V, 0 <= v < 256 -> v + 256 * V = Z.lor v (Z.shiftl V 8)).
  { intros. rewrite lor_shiftl by lia. change (2 ^ 8) with 256. lia. }
  assert (Hxy : 0 <= Z.lxor x y < 256).
  { split; [apply Z.lxor_nonneg; lia|].
    destruct (Z.eq_dec (Z.lxor x y) 0) as [->|]; [lia|]. change 256 with (2 ^ 8).
    assert (0 <= Z.lxor x y) by (apply Z.lxor_nonneg; lia).
    apply Z.log2_lt_pow2; [lia|].
    pose proof (Z.log2_lxor x y ltac:(lia) ltac:(lia)) as Hl.
    assert (Hb : forall v, 0 <= v < 256 -> Z.log2 v < 8).
    { intros v Hv. destruct (Z.eq_dec v 0) as [->|]; [done|]. apply Z.log2_lt_pow2; lia. }
    pose proof (Hb x Hx). pose proof (Hb y Hy). lia. }
  rewrite !Hs by done. apply Z.bits_inj'. intros n Hn.
  rewrite Z.lxor_spec, !Z.lor_spec, Z.lxor_spec. destruct (Z.lt_ge_cases n 8).
  - by rewrite !Z.shiftl_spec_low, !orb_false_r by lia.
  - rewrite !Z.shiftl_spec by lia. rewrite Z.lxor_spec.
    assert (Hz : forall v, 0 <= v < 256 -> Z.testbit v n = false).
    { intros v Hv. rewrite <- (Z.mod_small v (2 ^ 8)) by (change (2 ^ 8) with 256; lia).
      apply Z.mod_pow2_bits_high. lia. }
    by rewrite !Hz by done.
Qed.

Lemma ctz_common_prefix a b :
  bytes_ok a -> bytes_ok b -> length a = length b -> a <> b ->
  Z.shiftr (ctz (8 * length a) (Z.lxor (le_val a) (le_val b))) 3 = Z.of_nat (common_prefix a b).
Proof.
  intros Ha. revert b. induction Ha as [|x a Hx Ha IH]; intros [|y b] Hb Hl Hd; try done.
  apply Forall_cons in Hb as [Hy Hb]. cbn [le_val common_prefix length].
  rewrite lxor_cons by done. replace (8 * S (length a))%nat with (8 + 8 * length a)%nat by lia.
  rewrite Z.shiftr_div_pow2 by lia. change (2 ^ 3) with 8.
  destruct (Z.eqb_spec x y) as [->|Hxy].
  - rewrite Z.lxor_nilpotent, Z.add_0_l. change 256 with (2 ^ Z.of_nat 8). rewrite ctz_even.
    specialize (IH b Hb ltac:(simpl in Hl; lia) ltac:(congruence)).
    rewrite Z.shiftr_div_pow2 in IH by lia. change (2 ^ 3) with 8 in IH.
    rewrite (Nat2Z.inj_succ (common_prefix a b)), <- IH. change (Z.of_nat 8) with (1 * 8). rewrite Z.div_add_l by lia. lia.
  - apply Z.div_small. split; [apply ctz_nonneg|].
    assert (Hex : exists j, 0 <= j < 8 /\ Z.testbit (Z.lxor x y) j = true).
    { assert (Hn : Z.lxor x y <> 0) by (intros E%Z.lxor_eq; done).
      unfold is_byte in *.
      assert (0 <= Z.lxor x y) by (apply Z.lxor_nonneg; lia).
      exists (Z.log2 (Z.lxor x y)). split; [|apply Z.bit_log2; lia]. split; [apply Z.log2_nonneg|].
      pose proof (Z.log2_lxor x y ltac:(lia) ltac:(lia)) as Hm.
      assert (Hv : forall v, 0 <= v < 256 -> Z.log2 v < 8).
      { intros v Hv. destruct (Z.eq_dec v 0) as [->|]; [done|]. apply Z.log2_lt_pow2; lia. }
      pose proof (Hv x Hx). pose proof (Hv y Hy). lia. }
    destruct Hex as (j & Hj & Ht).
    assert (ctz (8 + 8 * length a) (Z.lxor x y + 256 * Z.lxor (le_val a) (le_val b)) <= j); [|lia].
    apply ctz_le; [lia|]. rewrite <- Ht. change 256 with (2 ^ 8).
    rewrite <- (Z.mod_pow2_bits_low _ 8), <- (Z.mod_pow2_bits_low (Z.lxor x y) 8) by lia.
    f_equal. rewrite Z.mul_comm. by rewrite Z.mod_add.
Qed.

Lemma dropZ_split {A} k p (l : list A) :
  0 <= p -> 0 <= k -> dropZ p l = takeZ k (dropZ p l) ++ dropZ (p + k) l.
Proof. intros. rewrite <- (takeZ_dropZ k (dropZ p l)) at 1. by rewrite dropZ_dropZ. Qed.
Lemma length_chunk {A} (n : nat) p (l : list A) :
  0 <= p -> p + Z.of_nat n <= lenZ l -> length (takeZ (Z.of_nat n) (dropZ p l)) = n.
Proof. intros. unfold takeZ, dropZ, lenZ in *. rewrite length_take, length_drop. lia. Qed.
Lemma chunk_ok n p l : bytes_ok l -> bytes_ok (takeZ n (dropZ p l)).
Proof. intros. by apply Forall_take, Forall_drop. Qed.
Lemma dropZ_end {A} p (l : list A) : lenZ l <= p -> dropZ p l = [].
Proof. intros. unfold dropZ, lenZ in *. apply drop_ge. lia. Qed.

Section matching.
Context (inp : bytes) (Hin : bytes_ok inp).
Let from p q := Z.of_nat (common_prefix (dropZ p inp) (dropZ q inp)).

Lemma from_same (n : nat) p q :
  0 <= p -> 0 <= q -> p + Z.of_nat n <= lenZ inp ->
  takeZ (Z.of_nat n) (dropZ p inp) = takeZ (Z.of_nat n) (dropZ q inp) ->
  from p q = Z.of_nat n + from (p + Z.of_nat n) (q + Z.of_nat n).
Proof.
  intros Hp Hq Hn He. unfold from.
  rewrite (dropZ_split (Z.of_nat n) p), (dropZ_split (Z.of_nat n) q) by lia.
  rewrite <- He, common_prefix_app, length_chunk by done. lia.
Qed.
Lemma from_differ (n : nat) p q :
  0 <= p -> 0 <= q -> p + Z.of_nat n <= lenZ inp -> q + Z.of_nat n <= lenZ inp ->
  takeZ (Z.of_nat n) (dropZ p inp) <> takeZ (Z.of_nat n) (dropZ q inp) ->
  from p q = Z.of_nat (common_prefix (takeZ (Z.of_nat n) (dropZ p inp)) (takeZ (Z.of_nat n) (dropZ q inp))).
Proof.
  intros Hp Hq Hn Hm He. unfold from.
  rewrite (dropZ_split (Z.of_nat n) p), (dropZ_split (Z.of_nat n) q) at 1 by lia.
  by rewrite common_prefix_differ by (try done; by rewrite !length_chunk).
Qed.

Lemma match_bytes_ok fuel s1 s2 matched :
  0 <= s1 -> 0 <= matched -> s1 + matched < s2 -> lenZ inp - s2 <= Z.of_nat fuel ->
  match_bytes fuel inp s1 s2 (lenZ inp) matched = Done (matched + from (s1 + matched) s2).
Proof.
  revert s2 matched. induction fuel as [|fuel IH]; intros s2 matched H1 Hm Hlt Hf; cbn [match_bytes];
    (destruct (Z.leb_spec (lenZ inp) s2);
      [unfold from; rewrite (dropZ_end s2) by lia; destruct (dropZ _ inp); simpl; f_equal; lia|]); [lia|].
  rewrite !blk_read_ok by lia. cbn [obind].
  case_bool_decide as He.
  - rewrite IH by lia. rewrite (from_same 1 (s1 + matched) s2) by (done || lia).
    change (Z.of_nat 1) with 1. f_equal. rewrite <- !Z.add_assoc. lia.
  - rewrite (from_differ 1 (s1 + matched) s2) by (done || lia).
    change 1 with (Z.of_nat 1) in He.
    pose proof (length_chunk 1 (s1 + matched) inp ltac:(lia) ltac:(lia)) as L1.
    pose proof (length_chunk 1 s2 inp ltac:(lia) ltac:(lia)) as L2.
    destruct (takeZ _ (dropZ (s1 + matched) inp)) as [|x [|]]; try done.
    destruct (takeZ _ (dropZ s2 inp)) as [|y [|]]; try done. simpl.
    rewrite (proj2 (Z.eqb_neq x y)) by congruence. f_equal. simpl. lia.
Qed.

Lemma match_words_ok fuel s1 s2 matched :
  0 <= s1 -> 0 <= matched -> s1 + matched < s2 -> lenZ inp - s2 <= Z.of_nat fuel ->
  match_words fuel inp s1 s2 (lenZ inp) matched = Done (matched + from (s1 + matched) s2).
Proof.
  revert s2 matched. induction fuel as [|fuel IH]; intros s2 matched H1 Hm Hlt Hf; cbn [match_words];
    (destruct (Z.leb_spec s2 (lenZ inp - 8)); [|apply match_bytes_ok; lia]); [lia|].
  unfold load64. rewrite !blk_read_ok by lia. cbn [obind]. change 8 with (Z.of_nat 8).
  pose proof (length_chunk 8 (s1 + matched) inp ltac:(lia) ltac:(lia)) as L1.
  pose proof (length_chunk 8 s2 inp ltac:(lia) ltac:(lia)) as L2.
  destruct (Z.eqb_spec (le_val (takeZ (Z.of_nat 8) (dropZ s2 inp)))
    (le_val (takeZ (Z.of_nat 8) (dropZ (s1 + matched) inp)))) as [He|He].
  - apply le_val_inj in He; [|by apply chunk_ok..|by rewrite L1, L2].
    rewrite IH by lia. rewrite (from_same 8 (s1 + matched) s2) by (done || lia).
    f_equal. rewrite <- !Z.add_assoc. lia.
  - assert (Hd : takeZ (Z.of_nat 8) (dropZ (s1 + matched) inp) <> takeZ (Z.of_nat 8) (dropZ s2 inp))
      by congruence.
    rewrite (from_differ 8 (s1 + matched) s2) by (done || lia).
    rewrite <- ctz_common_prefix; [|by apply chunk_ok..|by rewrite L1, L2|done].
    rewrite L1, Z.lxor_comm. done.
Qed.
End matching.

Lemma find_match_length_ok inp s1 s2 :
  bytes_ok inp -> 0 <= s1 < s2 ->
  find_match_length inp s1 s2 (lenZ inp) =
    Done (Z.of_nat (common_prefix (dropZ s1 inp) (dropZ s2 inp))).
Proof.
  intros Hin Hs. unfold find_match_length. rewrite match_words_ok by (done || lia).
  by rewrite Z.add_0_r, Z.add_0_l.
Qed.

(** ** Emitting tags *)
Lemma emit_ok cap touched out d :
  lenZ out + touched <= cap -> emit cap touched out d = Done (out ++ d).
Proof. intros. unfold emit. by rewrite (proj2 (Z.leb_le _ cap)). Qed.

Lemma len_bytes_ok k n :
  0 <= n < 256 ^ Z.of_nat k -> le_val (len_bytes k n) = n /\ bytes_ok (len_bytes k n).
Proof.
  revert n. induction k as [|k IH]; intros n Hn; cbn [len_bytes].
  { simpl in *. split; [lia|constructor]. }
  rewrite Nat2Z.inj_succ, Z.pow_succ_r in Hn by lia.
  destruct (Z.ltb_spec 0 n); [|simpl; split; [lia|constructor]].
  change 0xff with (Z.ones 8). rewrite Z.land_ones, Z.shiftr_div_pow2 by lia.
  change (2 ^ 8) with 256. cbn [le_val].
  pose proof (Z.mod_pos_bound n 256 ltac:(lia)).
  destruct (IH (n / 256)) as [-> Hok].
  { split; [apply Z.div_pos; lia|]. apply Z.div_lt_upper_bound; lia. }
  split; [pose proof (Z.div_mod n 256); lia|]. by constructor.
Qed.
Lemma len_bytes_length k j n :
  0 < n < 256 ^ Z.of_nat j -> (1 <= k)%nat -> 1 <= lenZ (len_bytes k n) <= Z.of_nat j.
Proof.
  revert j n. induction k as [|k IH]; intros j n Hn Hk; [lia|]. cbn [len_bytes].
  rewrite (proj2 (Z.ltb_lt 0 n)), lenZ_cons by lia.
  destruct j as [|j]; [simpl in Hn; lia|]. rewrite Nat2Z.inj_succ, Z.pow_succ_r in Hn by lia.
  rewrite Z.shiftr_div_pow2 by lia. change (2 ^ 8) with 256.
  pose proof (lenZ_nonneg (len_bytes k (n / 256))). split; [lia|].
  assert (lenZ (len_bytes k (n / 256)) <= Z.of_nat j); [|lia].
  destruct (Z.eq_dec (n / 256) 0) as [->|Hz].
  { destruct k; simpl; rewrite lenZ_nil; lia. }
  destruct k; [cbn [len_bytes]; rewrite lenZ_nil; lia|]. apply IH; [|lia].
  pose proof (Z.div_pos n 256 ltac:(lia) ltac:(lia)).
  split; [lia|]. apply Z.div_lt_upper_bound; lia.
Qed.

(** What a literal costs beyond its bytes. *)
Definition literal_overhead (len : Z) : Z :=
  if len <=? 60 then 1 else if len <=? 256 then 2 else 3.

Lemma emit_literal_ok cap out inp literal len fast :
  bytes_ok inp -> 0 <= literal -> 1 <= len <= 65536 -> literal + len <= lenZ inp ->
  (fast = true -> literal + 16 <= lenZ inp) -> lenZ out + len + 20 <= cap ->
  exists z, emit_literal cap out inp literal len fast = Done (out ++ z) /\ bytes_ok z /\
    lenZ z <= len + literal_overhead len /\
    forall P, decodes z P (P ++ takeZ len (dropZ literal inp)).
Proof.
  intros Hin Hl Hlen Hend Hfast Hcap. unfold emit_literal, literal_overhead.
  set (d := takeZ len (dropZ literal inp)).
  assert (Hd : lenZ d = len) by (subst d; rewrite lenZ_takeZ; [done|rewrite lenZ_dropZ; lia]).
  assert (Hdok : bytes_ok d) by by apply chunk_ok.
  destruct (Z.ltb_spec (len - 1) 60) as [Hs|Hs].
  - rewrite emit_ok by lia. cbn [obind].
    assert (Htag : u8 (Z.lor LITERAL (Z.shiftl (len - 1) 2)) = 4 * (lenZ d - 1)).
    { unfold LITERAL. rewrite Z.lor_0_l, Z.shiftl_mul_pow2, Hd by lia. rewrite wrap_small; lia. }
    exists (4 * (lenZ d - 1) :: d). rewrite (proj2 (Z.leb_le len 60)) by lia.
    assert (Hrest : bytes_ok (4 * (lenZ d - 1) :: d) /\ lenZ (4 * (lenZ d - 1) :: d) <= len + 1 /\
      forall P, decodes (4 * (lenZ d - 1) :: d) P (P ++ d)).
    { split; [constructor; [unfold is_byte; lia|done]|]. split; [rewrite lenZ_cons; lia|].
      intros P. rewrite <- (app_nil_r d) at 2. apply decodes_literal; [lia|]. constructor. }
    split; [|done]. rewrite Htag. destruct (fast && (len <=? 16)) eqn:Ef.
    + apply andb_prop in Ef as [-> ?%Z.leb_le]. specialize (Hfast eq_refl).
      rewrite blk_read_ok by lia. cbn [obind].
      rewrite emit_ok by lens. rewrite takeZ_takeZ, <- app_assoc by lia. done.
    + rewrite blk_read_ok by lia. cbn [obind]. rewrite emit_ok by lens. by rewrite <- app_assoc.
  - rewrite (proj2 (Z.leb_gt len 60)) by lia.
    destruct (len_bytes_ok 4 (len - 1) ltac:(simpl; lia)) as [Hv Hok].
    pose proof (len_bytes_length 4 2 (len - 1) ltac:(simpl; lia) ltac:(lia)) as Hll.
    assert (Hll' : lenZ (len_bytes 4 (len - 1)) <= if len <=? 256 then 1 else 2).
    { destruct (Z.leb_spec len 256); [|lia].
      pose proof (len_bytes_length 4 1 (len - 1) ltac:(simpl; lia) ltac:(lia)). lia. }
    set (l := len_bytes 4 (len - 1)) in *.
    assert (Htag : u8 (Z.lor LITERAL (Z.shiftl (59 + lenZ l) 2)) = 4 * (59 + lenZ l)).
    { unfold LITERAL. rewrite Z.lor_0_l, Z.shiftl_mul_pow2 by lia. rewrite wrap_small; lia. }
    rewrite Htag, emit_ok by lia. cbn [obind]. rewrite blk_read_ok by lia. cbn [obind].
    fold d. rewrite emit_ok by lens. exists (4 * (59 + lenZ l) :: l ++ d).
    split; [by rewrite <- app_assoc|]. split.
    { constructor; [unfold is_byte; lia|]. by apply Forall_app. }
    split; [rewrite lenZ_cons, lenZ_app; destruct (len <=? 256); lia|].
    intros P. rewrite <- (app_nil_r d) at 1. apply decodes_long_literal; try lia. constructor.
Qed.

(** The tags of copies, checked one by one. *)
Lemma tag_copy_1 len hi :
  4 <= len < 12 -> 0 <= hi < 8 ->
  let c := u8 (Z.lor (Z.lor COPY_1_BYTE_OFFSET (Z.shiftl (len - 4) 2)) (Z.shiftl hi 5)) in
  is_byte c /\ c mod 4 = 1 /\ Z.shiftr (tag_entry c) 11 = 1 /\ Z.land (tag_entry c) 0xff = len /\
  Z.land (tag_entry c) 0x700 = hi * 256.
Proof.
  intros Hl Hh.
  assert (H : forallb (fun len => forallb (fun hi =>
    let c := u8 (Z.lor (Z.lor COPY_1_BYTE_OFFSET (Z.shiftl (len - 4) 2)) (Z.shiftl hi 5)) in
    (0 <=? c) && (c <? 256) && (c mod 4 =? 1) && (Z.shiftr (tag_entry c) 11 =? 1) &&
    (Z.land (tag_entry c) 0xff =? len) && (Z.land (tag_entry c) 0x700 =? hi * 256))
    (seqZ 0 8)) (seqZ 4 8) = true) by (vm_compute; reflexivity).
  rewrite forallb_forall in H. specialize (H len). rewrite forallb_forall in H.
  intros c. specialize (H ltac:(rewrite <- list_elem_of_In; apply elem_of_seqZ; lia) hi
    ltac:(rewrite <- list_elem_of_In; apply elem_of_seqZ; lia)). cbn zeta beta in H. fold c in H.
  rewrite !andb_true_iff, !Z.eqb_eq, Z.leb_le, Z.ltb_lt in H. unfold is_byte. tauto.
Qed.
Lemma tag_copy_2 len :
  1 <= len <= 64 ->
  let c := u8 (Z.lor COPY_2_BYTE_OFFSET (Z.shiftl (len - 1) 2)) in
  is_byte c /\ c mod 4 = 2 /\ Z.shiftr (tag_entry c) 11 = 2 /\ Z.land (tag_entry c) 0xff = len /\
  Z.land (tag_entry c) 0x700 = 0.
Proof.
  intros Hl.
  assert (H : forallb (fun len =>
    let c := u8 (Z.lor COPY_2_BYTE_OFFSET (Z.shiftl (len - 1) 2)) in
    (0 <=? c) && (c <? 256) && (c mod 4 =? 2) && (Z.shiftr (tag_entry c) 11 =? 2) &&
    (Z.land (tag_entry c) 0xff =? len) && (Z.land (tag_entry c) 0x700 =? 0))
    (seqZ 1 64) = true) by (vm_compute; reflexivity).
  rewrite forallb_forall in H. intros c.
  specialize (H len ltac:(rewrite <- list_elem_of_In; apply elem_of_seqZ; lia)).
  cbn zeta beta in H. fold c in H.
  rewrite !andb_true_iff, !Z.eqb_eq, Z.leb_le, Z.ltb_lt in H. unfold is_byte. tauto.
Qed.

(** [z] makes the decoder copy [len] bytes from [offset] bytes back. *)
Definition copies_back (z : bytes) (offset len : Z) : Prop :=
  bytes_ok z /\ forall P, offset <= lenZ P ->
    decodes z P (self_copy (Z.to_nat len) (Z.to_nat offset) P).

Lemma copies_back_app z1 z2 offset n1 n2 :
  0 <= n1 -> 0 <= n2 -> copies_back z1 offset n1 -> copies_back z2 offset n2 ->
  copies_back (z1 ++ z2) offset (n1 + n2).
Proof.
  intros H1 H2 [Hb1 Hd1] [Hb2 Hd2]. split; [by apply Forall_app|]. intros P HP.
  rewrite Z2Nat.inj_add, self_copy_add by done. eapply decodes_app; [by apply Hd1|].
  apply Hd2. unfold lenZ in *. rewrite self_copy_length. lia.
Qed.

Lemma emit_copy_less_than64_ok cap out offset len :
  4 <= len <= 64 -> 1 <= offset < 65536 -> lenZ out + 3 <= cap ->
  exists z, emit_copy_less_than64 cap out offset len = Done (out ++ z) /\ lenZ z <= 3 /\
    copies_back z offset len.
Proof.
  intros Hlen Ho Hcap. unfold emit_copy_less_than64.
  destruct ((len <? 12) && (offset <? 2048)) eqn:E.
  - apply andb_prop in E as [H12%Z.ltb_lt H2048%Z.ltb_lt]. rewrite emit_ok by lia.
    eexists. split; [done|]. split; [done|].
    assert (Hhi : Z.shiftr offset 8 = offset / 256) by (by rewrite Z.shiftr_div_pow2).
    assert (Hlo : Z.land offset 255 = offset mod 256)
      by (change 255 with (Z.ones 8); by rewrite Z.land_ones).
    rewrite Hhi, Hlo. pose proof (Z.mod_pos_bound offset 256 ltac:(lia)).
    destruct (tag_copy_1 len (offset / 256) ltac:(lia) ltac:(dlia)) as (Hc & Hm & Hs & Hl & Hp).
    set (c := u8 _) in *. split; [by apply Forall_cons, conj, Forall_singleton|]. intros P HP.
    pose proof (decodes_copy c [offset mod 256] [] P) as D. cbn zeta in D.
    rewrite Hs, Hl, Hp in D. cbn [le_val app] in D.
    replace (offset / 256 * 256 + (offset mod 256 + 256 * 0)) with offset in D
      by (pose proof (Z.div_mod offset 256); lia).
    apply D; try done; try lia. constructor.
  - rewrite emit_ok by lia. eexists. split; [done|]. split; [done|].
    assert (Hlo : u8 offset = offset mod 256) by done.
    assert (Hhi : u8 (Z.shiftr (u16 offset) 8) = offset / 256).
    { rewrite (wrap_small 16), Z.shiftr_div_pow2 by lia. apply wrap_small. dlia. }
    rewrite Hhi, Hlo. pose proof (Z.mod_pos_bound offset 256 ltac:(lia)).
    destruct (tag_copy_2 len ltac:(lia)) as (Hc & Hm & Hs & Hl & Hp).
    set (c := u8 (Z.lor COPY_2_BYTE_OFFSET _)) in *. split.
    { apply Forall_cons; split; [done|]. repeat (apply Forall_cons; split); [done|unfold is_byte; dlia|constructor]. }
    intros P HP.
    pose proof (decodes_copy c [offset mod 256; offset / 256] [] P) as D. cbn zeta in D.
    rewrite Hs, Hl, Hp in D. cbn [le_val app] in D.
    replace (0 + (offset mod 256 + 256 * (offset / 256 + 256 * 0))) with offset in D
      by (pose proof (Z.div_mod offset 256); lia).
    apply D; try done; try lia. constructor.
Qed.

Lemma emit_copy_64_ok fuel cap out offset len :
  4 <= len <= Z.of_nat fuel -> 1 <= offset < 65536 -> lenZ out + len <= cap ->
  exists z r, emit_copy_64 fuel cap out offset len = Done (r, out ++ z) /\
    4 <= r < 68 /\ r <= len /\ lenZ z <= len - r /\ copies_back z offset (len - r).
Proof.
  revert out len. induction fuel as [|fuel IH]; intros out len Hlen Ho Hcap; cbn [emit_copy_64];
    (destruct (Z.ltb_spec len 68);
      [exists [], len; rewrite app_nil_r, Z.sub_diag; split_and!;
       [done|lia..|done|split; [by apply Forall_nil|intros P HP; constructor]]|]); [lia|].
  destruct (emit_copy_less_than64_ok cap out offset 64) as (z1 & -> & Hz1 & Hc1); [lia..|].
  cbn [obind].
  destruct (IH (out ++ z1) (len - 64)) as (z2 & r & -> & Hr & Hrl & Hz2 & Hc2); try lia; [lens|].
  exists (z1 ++ z2), r. rewrite app_assoc.
  replace (len - r) with (64 + (len - 64 - r)) by lia.
  split; [done|]. do 2 (split; [lia|]). split; [lens|].
  apply copies_back_app; (done || lia).
Qed.

Lemma emit_copy_ok cap out offset len :
  4 <= len -> 1 <= offset < 65536 -> lenZ out + len <= cap ->
  exists z, emit_copy cap out offset len = Done (out ++ z) /\ lenZ z <= len - 1 /\
    copies_back z offset len.
Proof.
  intros Hlen Ho Hcap. unfold emit_copy.
  destruct (emit_copy_64_ok (Z.to_nat len) cap out offset len)
    as (z1 & r & -> & Hr & Hrl & Hz1 & Hc1); [lia..|]. cbn [obind].
  destruct (Z.ltb_spec 64 r).
  - destruct (emit_copy_less_than64_ok cap (out ++ z1) offset 60) as (z2 & -> & Hz2 & Hc2); [lia..|lens|].
    cbn [obind].
    destruct (emit_copy_less_than64_ok cap ((out ++ z1) ++ z2) offset (r - 60))
      as (z3 & -> & Hz3 & Hc3); [lia..|lens|].
    exists (z1 ++ z2 ++ z3). rewrite <- !app_assoc. split; [done|]. split; [lens|].
    replace len with ((len - r) + (60 + (r - 60))) by lia.
    apply copies_back_app; try done; try lia. apply copies_back_app; (done || lia).
  - destruct (emit_copy_less_than64_ok cap (out ++ z1) offset r) as (z2 & -> & Hz2 & Hc2); [lia..|lens|].
    exists (z1 ++ z2). rewrite <- app_assoc. split; [done|]. split; [lens|].
    replace len with ((len - r) + r) by lia. apply copies_back_app; (done || lia).
Qed.

(** ** One fragment *)
Lemma le_val_take k l : bytes_ok l -> le_val l mod 256 ^ Z.of_nat k = le_val (take k l).
Proof.
  intros Hl. revert k. induction Hl as [|x l Hx Hl IH]; intros k.
  { rewrite take_nil. apply Z.mod_0_l. lia. }
  destruct k as [|k]; [simpl; apply Z.mod_1_r|]. cbn [take le_val]. rewrite <- IH.
  rewrite Nat2Z.inj_succ, Z.pow_succ_r by lia. rewrite Z.rem_mul_r by lia.
  unfold is_byte in Hx. rewrite (Z.mul_comm 256 (le_val l)), Z.mod_add, Z.mod_small by lia.
  by rewrite Z.div_add, Z.div_small, Z.add_0_l by lia.
Qed.
(** The second of the two overlapping words a 64-bit load holds. *)
Lemma get_u32_at_1 inp ip :
  bytes_ok inp -> 1 <= ip -> ip + 7 <= lenZ inp ->
  get_u32_at_offset (le_val (takeZ 8 (dropZ (ip - 1) inp))) 1 = le_val (takeZ 4 (dropZ ip inp)).
Proof.
  intros Hin H1 H2. unfold get_u32_at_offset.
  rewrite (dropZ_split 1 (ip - 1)) by lia. rewrite Z.sub_add.
  pose proof (length_chunk 1 (ip - 1) inp ltac:(lia) ltac:(lia)) as L.
  pose proof (chunk_ok 1 (ip - 1) inp Hin) as Hx.
  change (Z.of_nat 1) with 1 in L. destruct (takeZ 1 (dropZ (ip - 1) inp)) as [|x [|]]; try done.
  change (takeZ 8 ([x] ++ dropZ ip inp)) with (x :: take 7 (dropZ ip inp)). cbn [le_val].
  apply Forall_cons in Hx as [Hx _]. unfold is_byte in Hx.
  rewrite Z.shiftr_div_pow2 by lia. change (2 ^ (8 * 1)) with 256.
  rewrite (Z.mul_comm 256), Z.div_add, Z.div_small, Z.add_0_l by lia.
  unfold wrap. change (2 ^ 32) with (256 ^ Z.of_nat 4).
  rewrite le_val_take by (by apply Forall_take, Forall_drop). by rewrite take_take.
Qed.

Definition table_ok (t : gmap Z Z) (b : Z) : Prop := forall h v, t !! h = Some v -> 0 <= v < b.
Lemma table_get_ok t b h : table_ok t b -> 0 < b -> 0 <= table_get t h < b.
Proof.
  intros Ht Hb. unfold table_get. destruct (t !! h) as [v|] eqn:E; [by apply (Ht h)|done].
Qed.
Lemma table_ok_insert t b h v : table_ok t b -> 0 <= v < b -> table_ok (<[h := v]> t) b.
Proof. intros Ht Hv h' v' [[_ <-]|[_ ?]]%lookup_insert_Some; [done|by apply (Ht h')]. Qed.
Lemma table_ok_weaken t b b' : table_ok t b -> b <= b' -> table_ok t b'.
Proof. intros Ht Hb h v E%Ht. lia. Qed.

Section fragment.
Context (inp : bytes) (Hin : bytes_ok inp) (Hmax : 15 <= lenZ inp <= kblock_size).
Context (cap : Z) (out0 : bytes) (Hcap : 60 * lenZ out0 + 61 * lenZ inp + 1200 <= 60 * cap).

Let same4 (p q : Z) : Prop := takeZ 4 (dropZ p inp) = takeZ 4 (dropZ q inp).

(** The tags [z] stand for the first [p] bytes of the fragment, at a cost
    that leaves room for the rest. *)
Definition emitted (z : bytes) (p slack : Z) : Prop :=
  bytes_ok z /\ 60 * lenZ z <= 61 * p + slack /\ forall P, decodes z P (P ++ takeZ p inp).

Lemma takeZ_extend p k : 0 <= p -> 0 <= k ->
  takeZ (p + k) inp = takeZ p inp ++ takeZ k (dropZ p inp).
Proof.
  intros. unfold takeZ, dropZ. rewrite Z2Nat.inj_add by lia. by rewrite take_take_drop.
Qed.

Lemma emitted_literal z p ip :
  emitted z p 0 -> 0 <= p < ip -> ip + 16 <= lenZ inp ->
  exists z', emit_literal cap (out0 ++ z) inp p (ip - p) true = Done (out0 ++ z') /\ emitted z' ip 60.
Proof.
  intros (Hz & Hs & Hd) Hp Hi. unfold kblock_size in Hmax.
  destruct (emit_literal_ok cap (out0 ++ z) inp p (ip - p) true) as (l & -> & Hl & Hn & Hdl);
    try done; try lia; [rewrite lenZ_app; lia|].
  exists (z ++ l). rewrite <- app_assoc. split; [done|]. split; [by apply Forall_app|]. split.
  - rewrite lenZ_app. unfold literal_overhead in Hn.
    destruct (Z.leb_spec (ip - p) 60); [|destruct (Z.leb_spec (ip - p) 256)]; lia.
  - intros P. eapply decodes_app; [apply Hd|].
    replace (takeZ ip inp) with (takeZ p inp ++ takeZ (ip - p) (dropZ p inp))
      by (rewrite <- takeZ_extend by lia; f_equal; lia).
    rewrite app_assoc. apply Hdl.
Qed.

(** A copy of matching input extends the input decoded so far. *)
Lemma self_copy_input P ip candidate m :
  0 <= candidate < ip -> 0 <= m -> ip + m <= lenZ inp ->
  m <= Z.of_nat (common_prefix (dropZ candidate inp) (dropZ ip inp)) ->
  self_copy (Z.to_nat m) (Z.to_nat (ip - candidate)) (P ++ takeZ ip inp) = P ++ takeZ (ip + m) inp.
Proof.
  intros Hc Hm Hend Hcp. unfold lenZ in *. rewrite takeZ_extend, app_assoc by lia.
  assert (Hlen : length (P ++ takeZ ip inp) = (length P + Z.to_nat ip)%nat).
  { rewrite length_app. unfold takeZ. rewrite length_take. lia. }
  apply self_copy_extend.
  { unfold dropZ. rewrite length_drop. lia. }
  intros i Hi. rewrite <- (common_prefix_nth (dropZ candidate inp)) by lia.
  rewrite Hlen, <- app_assoc.
  replace (takeZ ip inp ++ take i (dropZ ip inp)) with (take (Z.to_nat ip + i) inp)
    by (symmetry; apply take_take_drop).
  rewrite app_nth2 by lia. rewrite nth_take_lt by lia. unfold dropZ. rewrite nth_skipn.
  f_equal. lia.
Qed.

Lemma emitted_copy z ip candidate :
  emitted z ip 60 -> 0 <= candidate < ip -> ip + 4 <= lenZ inp -> same4 candidate ip ->
  exists m z', find_match_length inp (candidate + 4) (ip + 4) (lenZ inp) = Done m /\ 0 <= m /\
    emit_copy cap (out0 ++ z) (ip - candidate) (4 + m) = Done (out0 ++ z') /\
    ip + (4 + m) <= lenZ inp /\ emitted z' (ip + (4 + m)) 0.
Proof.
  intros (Hz & Hs & Hd) Hc Hi H4. unfold kblock_size in Hmax.
  rewrite find_match_length_ok by (done || lia).
  set (m := Z.of_nat _).
  assert (Hcp : 4 + m = Z.of_nat (common_prefix (dropZ candidate inp) (dropZ ip inp))).
  { subst m. rewrite (dropZ_split 4 candidate), (dropZ_split 4 ip) by lia.
    unfold same4 in H4. rewrite <- H4, common_prefix_app.
    pose proof (length_chunk 4 candidate inp ltac:(lia) ltac:(lia)) as L.
    change (Z.of_nat 4) with 4 in L. rewrite L. lia. }
  assert (Hend : ip + (4 + m) <= lenZ inp).
  { rewrite Hcp. pose proof (common_prefix_le (dropZ candidate inp) (dropZ ip inp)) as [_ Hle].
    unfold dropZ, lenZ in *. rewrite length_drop in Hle. lia. }
  destruct (emit_copy_ok cap (out0 ++ z) (ip - candidate) (4 + m)) as (c & He & Hl & Hb & Hdc);
    try lia; [rewrite lenZ_app; lia|].
  exists m, (z ++ c). split; [done|]. split; [lia|]. split; [by rewrite He, <- app_assoc|].
  split; [done|]. split; [by apply Forall_app|]. split; [rewrite lenZ_app; lia|].
  intros P. eapply decodes_app; [apply Hd|].
  rewrite <- (self_copy_input P ip candidate) by lia. apply Hdc.
  rewrite lenZ_app, lenZ_takeZ by lia. lens.
Qed.

Lemma load32_ok p : 0 <= p -> p + 4 <= lenZ inp -> load32 inp p = Done (le_val (takeZ 4 (dropZ p inp))).
Proof. intros. unfold load32. by rewrite blk_read_ok by lia. Qed.
Lemma same4_load p q :
  0 <= p -> p + 4 <= lenZ inp -> 0 <= q -> q + 4 <= lenZ inp ->
  le_val (takeZ 4 (dropZ p inp)) = le_val (takeZ 4 (dropZ q inp)) -> same4 p q.
Proof.
  intros Hp Hp4 Hq Hq4 He. apply le_val_inj in He; [done|by apply chunk_ok..|].
  by rewrite (length_chunk 4 p), (length_chunk 4 q).
Qed.

Let ip_limit := lenZ inp - kinput_margin_bytes.

Lemma scan_ok fuel shift ip next_hash skip table :
  table_ok table ip -> 1 <= ip -> 32 <= skip -> ip_limit - ip + 1 < Z.of_nat fuel -> (1 <= fuel)%nat ->
  exists r t, scan fuel inp shift ip_limit ip next_hash skip table = Done (r, t) /\
    match r with
    | None => True
    | Some (ip', candidate) =>
        ip <= ip' /\ ip' + 16 <= lenZ inp /\ 0 <= candidate < ip' /\ same4 candidate ip' /\
        table_ok t (ip' + 1)
    end.
Proof.
  unfold kblock_size in Hmax.
  revert ip next_hash skip table. induction fuel as [|fuel IH]; intros ip next_hash skip table Ht Hip Hs Hf H1;
    [lia|]. cbn [scan].
  assert (Hb : 1 <= Z.shiftr skip 5).
  { rewrite Z.shiftr_div_pow2 by lia. apply Z.div_le_lower_bound; simpl; lia. }
  destruct (Z.ltb_spec ip_limit (ip + Z.shiftr skip 5)) as [|Hlim]; [by do 2 eexists|].
  unfold ip_limit, kinput_margin_bytes in *. unfold hash.
  pose proof (table_get_ok table ip next_hash Ht ltac:(lia)) as Hc.
  rewrite !load32_ok by lia. cbn [obind]. rewrite (wrap_small 16 ip) by lia.
  assert (Ht' : table_ok (<[next_hash := ip]> table) (ip + 1)).
  { apply table_ok_insert; [eapply table_ok_weaken; [done|lia]|lia]. }
  destruct (Z.eqb_spec (le_val (takeZ 4 (dropZ ip inp)))
    (le_val (takeZ 4 (dropZ (table_get table next_hash) inp)))) as [He|He]; cbn [negb].
  - do 2 eexists. split; [done|]. cbn iota. split_and!; try lia; [|done]. by apply same4_load; try lia.
  - destruct (IH (ip + Z.shiftr skip 5) (hash_bytes (le_val (takeZ 4 (dropZ (ip + Z.shiftr skip 5) inp))) shift)
      (skip + 1) (<[next_hash := ip]> table)) as (r & t & -> & Hr); try lia.
    { eapply table_ok_weaken; [done|lia]. }
    do 2 eexists. split; [done|]. destruct r as [[ip' c]|]; [|done]. destruct Hr as [? Hr].
    split; [lia|done].
Qed.

Lemma copies_ok fuel shift ip candidate table z :
  table_ok table (ip + 1) -> 0 <= candidate < ip -> ip + 4 <= lenZ inp -> same4 candidate ip ->
  emitted z ip 60 -> lenZ inp - ip < Z.of_nat fuel ->
  exists ip' next t z', copies fuel inp shift ip_limit cap ip candidate table (out0 ++ z) =
      Done (ip', next, t, out0 ++ z') /\
    ip < ip' <= lenZ inp /\ emitted z' ip' 0 /\
    match next with
    | None => True
    | Some (ip2, _) => ip2 = ip' + 1 /\ table_ok t ip2
    end.
Proof.
  unfold kblock_size in Hmax.
  revert ip candidate table z. induction fuel as [|fuel IH]; intros ip candidate table z Ht Hc Hip H4 Hz Hf;
    [lia|]. cbn [copies].
  destruct (emitted_copy z ip candidate Hz Hc Hip H4) as (m & z' & -> & Hm & Hcopy & Hend & Hz').
  cbn [obind]. rewrite Hcopy. cbn [obind].
  set (ip' := ip + (4 + m)) in *.
  destruct (Z.leb_spec ip_limit ip') as [|Hlim].
  { do 4 eexists. split; [done|]. by split; [lia|]. }
  unfold ip_limit, kinput_margin_bytes in Hlim.
  unfold load64. rewrite blk_read_ok by lia. cbn [obind].
  rewrite (get_u32_at_1 inp ip') by (done || lia).
  rewrite (wrap_small 16 (ip' - 1)), (wrap_small 16 ip') by lia.
  set (ph := hash_bytes (get_u32_at_offset _ 0) shift). set (ch := hash_bytes _ shift).
  assert (Ht1 : table_ok (<[ph := ip' - 1]> table) ip').
  { apply table_ok_insert; [|lia]. eapply table_ok_weaken; [done|lia]. }
  pose proof (table_get_ok _ ip' ch Ht1 ltac:(lia)) as Hc'.
  assert (Ht2 : table_ok (<[ch := ip']> (<[ph := ip' - 1]> table)) (ip' + 1)).
  { apply table_ok_insert; [|lia]. eapply table_ok_weaken; [done|lia]. }
  rewrite load32_ok by lia. cbn [obind].
  destruct (Z.eqb_spec (le_val (takeZ 4 (dropZ ip' inp)))
    (le_val (takeZ 4 (dropZ (table_get (<[ph := ip' - 1]> table) ch) inp)))) as [He|He].
  - destruct (IH ip' (table_get (<[ph := ip' - 1]> table) ch) (<[ch := ip']> (<[ph := ip' - 1]> table)) z')
      as (ip'' & next & t & z'' & -> & Hlt & Hz'' & Hn); try done; try lia.
    { by apply same4_load; try lia. }
    { destruct Hz' as (? & ? & ?). split; [done|]. split; [lia|done]. }
    do 4 eexists. split; [done|]. split; [lia|]. by split.
  - do 4 eexists. split; [done|]. split; [lia|]. split; [done|]. by split.
Qed.

Lemma fragment_loop_ok fuel shift ip next_hash next_emit table z :
  table_ok table ip -> 0 <= next_emit < ip -> next_emit <= lenZ inp -> emitted z next_emit 0 ->
  lenZ inp - ip < Z.of_nat fuel -> (1 <= fuel)%nat ->
  exists p z', fragment_loop fuel inp shift ip_limit cap ip next_hash next_emit table (out0 ++ z) =
      Done (p, out0 ++ z') /\ 0 <= p <= lenZ inp /\ emitted z' p 0.
Proof.
  unfold kblock_size in Hmax.
  revert ip next_hash next_emit table z. induction fuel as [|fuel IH];
    intros ip next_hash next_emit table z Ht Hip Hne Hz Hf Hf1; [lia|]. cbn [fragment_loop].
  destruct (scan_ok (length inp) shift ip next_hash 32 table) as (r & t & -> & Hr);
    try done; try lia; [unfold ip_limit, kinput_margin_bytes; unfold lenZ in *; lia..|].
  cbn [obind]. destruct r as [[ip' candidate]|]; [|do 2 eexists; split; [done|]; split; [lia|done]].
  destruct Hr as (Hge & Hip' & Hc & H4 & Ht').
  destruct (emitted_literal z next_emit ip') as (z1 & -> & Hz1); try done; try lia. cbn [obind].
  destruct (copies_ok (length inp) shift ip' candidate t z1)
    as (p & next & t2 & z2 & -> & Hp & Hz2 & Hn); try done; try lia; [unfold lenZ in *; lia|].
  cbn [obind]. destruct next as [[ip2 h2]|]; [|do 2 eexists; split; [done|]; split; [lia|done]].
  destruct Hn as [-> Ht2]. apply IH; try done; lia.
Qed.
End fragment.

(** The whole fragment. *)
Lemma compress_fragment_ok cap out0 inp table_size :
  bytes_ok inp -> 1 <= lenZ inp <= kblock_size ->
  60 * lenZ out0 + 61 * lenZ inp + 1200 <= 60 * cap ->
  exists z, compress_fragment cap out0 inp ∅ table_size = Done (out0 ++ z) /\ bytes_ok z /\
    60 * lenZ z <= 61 * lenZ inp + 180 /\ forall P, decodes z P (P ++ inp).
Proof.
  intros Hin Hmax Hcap. unfold compress_fragment. unfold kblock_size in Hmax.
  assert (Hloop : exists p z, (if kinput_margin_bytes <=? lenZ inp then
      olet! next_hash := hash inp 1 (32 - log2_floor table_size) in
      fragment_loop (length inp) inp (32 - log2_floor table_size) (lenZ inp - kinput_margin_bytes)
        cap 1 next_hash 0 ∅ out0 else Done (0, out0)) = Done (p, out0 ++ z) /\
    0 <= p <= lenZ inp /\ emitted inp z p 0).
  { assert (H0 : emitted inp [] 0 0).
    { split; [by apply Forall_nil|]. split; [done|]. intros P. rewrite takeZ_0, app_nil_r by lia.
      constructor. }
    destruct (Z.leb_spec kinput_margin_bytes (lenZ inp)) as [Hk|Hk].
    - unfold kinput_margin_bytes in Hk. unfold hash. rewrite load32_ok by lia. cbn [obind].
      destruct (fragment_loop_ok inp Hin ltac:(unfold kblock_size; lia) cap out0 ltac:(lia) (length inp)
        (32 - log2_floor table_size) 1 (hash_bytes (le_val (takeZ 4 (dropZ 1 inp))) (32 - log2_floor table_size)) 0 ∅ [])
        as (p & z & Hf & Hp & Hz); try done; try lia; [unfold lenZ in *; lia..|].
      rewrite app_nil_r in Hf. exists p, z. done.
    - exists 0, []. rewrite app_nil_r. split; [done|]. split; [lia|done]. }
  destruct Hloop as (p & z & -> & Hp & Hz & Hs & Hd). cbn [obind].
  destruct (Z.ltb_spec p (lenZ inp)).
  - destruct (emit_literal_ok cap (out0 ++ z) inp p (lenZ inp - p) false) as (l & -> & Hl & Hn & Hdl);
      try done; try lia; [rewrite lenZ_app; lia|].
    exists (z ++ l). rewrite <- app_assoc. split; [done|]. split; [by apply Forall_app|]. split.
    + rewrite lenZ_app. unfold literal_overhead in Hn.
      destruct (_ <=? 60); [|destruct (_ <=? 256)]; lia.
    + intros P. eapply decodes_app; [apply Hd|].
      replace (P ++ inp) with ((P ++ takeZ p inp) ++ takeZ (lenZ inp - p) (dropZ p inp)); [apply Hdl|].
      rewrite <- app_assoc, (takeZ_all (lenZ inp - p)), takeZ_dropZ; [done|].
      rewrite lenZ_dropZ; lia.
  - exists z. split; [done|]. split; [done|]. split; [lia|]. intros P. specialize (Hd P).
    by rewrite takeZ_all in Hd by lia.
Qed.

(** ** The whole input *)
Lemma compress_blocks_ok fuel cap hdr z D input :
  bytes_ok input -> lenZ input <= Z.of_nat fuel -> lenZ hdr <= 5 ->
  bytes_ok z -> 60 * lenZ z <= 70 * lenZ D -> decodes z [] D ->
  1500 + 70 * (lenZ D + lenZ input) <= 60 * cap ->
  exists z', compress_blocks fuel cap (lenZ input) input (hdr ++ z) = Done (0, hdr ++ z') /\
    bytes_ok z' /\ 60 * lenZ z' <= 70 * (lenZ D + lenZ input) + 180 /\ decodes z' [] (D ++ input).
Proof.
  revert z D input. induction fuel as [|fuel IH]; intros z D input Hin Hf Hh Hz Hs Hd Hcap;
    cbn [compress_blocks];
    (destruct (Z.leb_spec (lenZ input) 0) as [Hn|Hn];
      [assert (input = []) as -> by (apply lenZ_zero_nil; lens);
       exists z; rewrite (app_nil_r D); split; [done|]; split; [done|]; split; [lens|done]|]);
    [lia|].
  rewrite (proj2 (Z.eqb_neq (lenZ input) 0)), (proj2 (Z.ltb_ge (lenZ input) _)) by lia.
  set (k := Z.min (lenZ input) kblock_size).
  assert (Hk : 1 <= k <= kblock_size /\ k <= lenZ input) by (unfold k, kblock_size; lia).
  unfold get_hash_table.
  destruct (compress_fragment_ok cap (hdr ++ z) (takeZ k input) (hash_table_size 7 256 k))
    as (f & -> & Hfb & Hfs & Hfd).
  { by apply Forall_take. }
  { rewrite lenZ_takeZ by lia. lia. }
  { rewrite lenZ_takeZ, lenZ_app by lia. lens_facts. lia. }
  rewrite lenZ_takeZ in Hfs by lia. cbn [obind].
  specialize (Hfd D). rewrite <- app_assoc.
  destruct (Z.eq_dec k (lenZ input)) as [Hlast|Hmore].
  - rewrite <- Hlast, Z.sub_diag, (dropZ_end k) by lia. rewrite takeZ_all in Hfd by lia.
    exists (z ++ f). split; [by destruct fuel|]. split; [by apply Forall_app|].
    split; [lens|]. by eapply decodes_app.
  - assert (Hkb : k = kblock_size) by (unfold k, kblock_size in *; lia). unfold kblock_size in Hkb.
    destruct (IH (z ++ f) (D ++ takeZ k input) (dropZ k input)) as (z' & He & Hz' & Hs' & Hd').
    all: rewrite ?lenZ_app, ?lenZ_dropZ, ?lenZ_takeZ by lia; try done; try lia.
    + by apply Forall_drop.
    + by apply Forall_app.
    + by eapply decodes_app.
    + rewrite lenZ_dropZ in He by lia. rewrite lenZ_app, lenZ_takeZ, lenZ_dropZ in Hs' by lia.
      rewrite <- app_assoc, takeZ_dropZ in Hd'. exists z'. split_and!; (done || lia).
Qed.

Lemma snappy_compress_ok d :
  bytes_ok d -> lenZ d < 2 ^ 31 ->
  exists z, Snappy.snappy_compress d (Snappy.snappy_max_compressed_length (lenZ d)) =
      Done (0, varint_encode32 (lenZ d) ++ z) /\
    bytes_ok (varint_encode32 (lenZ d) ++ z) /\
    0 < lenZ (varint_encode32 (lenZ d) ++ z) < Snappy.snappy_max_compressed_length (lenZ d) /\
    decodes z [] d.
Proof.
  intros Hd Hlen. unfold Snappy.snappy_compress, Snappy.snappy_max_compressed_length.
  pose proof (lenZ_nonneg d) as H0.
  assert (Hi : i32 (lenZ d) = lenZ d) by (unfold i32; rewrite Z.mod_small; lia).
  rewrite Hi, (wrap_small 32 (lenZ d)) by lia.
  pose proof (varint_encode_len (lenZ d)) as Hv.
  pose proof (varint_encode_ok (lenZ d) ltac:(lia)) as Hvb.
  set (hdr := varint_encode32 (lenZ d)) in *.
  assert (Hm : u64 (32 + lenZ d + lenZ d / 6) = 32 + lenZ d + lenZ d / 6) by (apply wrap_small; dlia).
  rewrite Hm. set (cap := 32 + lenZ d + lenZ d / 6).
  assert (Hcap : 1500 + 70 * lenZ d <= 60 * cap) by (unfold cap; dlia).
  rewrite emit_ok by (rewrite lenZ_nil; lia). cbn [obind app].
  destruct (compress_blocks_ok (Z.to_nat (lenZ d)) cap hdr [] [] d) as (z & He & Hz & Hs & Hdec);
    try done; try lia; [by apply Forall_nil|apply decodes_nil|].
  rewrite lenZ_nil in Hs. rewrite app_nil_r in He. exists z. split; [done|]. split; [by apply Forall_app|].
  split; [rewrite lenZ_app; pose proof (lenZ_nonneg z); lia|]. done.
Qed.

(** ** The compressor fulfils what the server and the client rely on *)
#[export] Instance snappy_c : Compressor.Snappy := {|
  Compressor.snappy_max_compressed_length := Snappy.snappy_max_compressed_length;
  Compressor.snappy_compress := Snappy.snappy_compress;
  Compressor.snappy_uncompressed_length := Snappy.snappy_uncompressed_length;
  Compressor.snappy_uncompress := Snappy.snappy_uncompress
|}.
#[export] Instance snappy_c_laws : SnappyLaws snappy_c.
Proof.
  split.
  - intros n Hn. simpl. unfold Snappy.snappy_max_compressed_length. rewrite wrap_small; dlia.
  - intros d Hd Hlen. destruct (snappy_compress_ok d Hd Hlen) as (z & Hc & Hb & Hl & Hdec).
    exists (varint_encode32 (lenZ d) ++ z). split; [done|]. split; [done|]. split; [done|].
    pose proof (lenZ_nonneg d). split.
    + simpl. unfold Snappy.snappy_uncompressed_length. by rewrite varint_parse_encode by lia.
    + simpl. apply uncompress_decodes; [lia|done].
Qed.

(** ** Termination

    Whatever the input and the size of the block, the compressor returns or
    faults; the fuel of the model is never exhausted. *)
Lemma returns_emit cap touched out d : returns (emit cap touched out d) (fun _ => True).
Proof. unfold emit, returns. by destruct (_ <=? _). Qed.
Lemma returns_load32 inp p : returns (load32 inp p) (fun _ => True).
Proof. eapply returns_bind; [apply returns_read|done]. Qed.
Lemma returns_load64 inp p : returns (load64 inp p) (fun _ => True).
Proof. eapply returns_bind; [apply returns_read|done]. Qed.
Lemma returns_hash inp p shift : returns (hash inp p shift) (fun _ => True).
Proof. eapply returns_bind; [apply returns_load32|done]. Qed.
Lemma returns_emit_literal cap out inp literal len fast :
  returns (emit_literal cap out inp literal len fast) (fun _ => True).
Proof.
  unfold emit_literal. destruct (_ <? 60).
  - eapply returns_bind; [apply returns_emit|]. intros o _.
    destruct (fast && _); (eapply returns_bind; [apply returns_read|]); intros; apply returns_emit.
  - eapply returns_bind; [apply returns_emit|]. intros o _.
    eapply returns_bind; [apply returns_read|]. intros; apply returns_emit.
Qed.
Lemma returns_emit_copy_lt cap out offset len :
  returns (emit_copy_less_than64 cap out offset len) (fun _ => True).
Proof. unfold emit_copy_less_than64. destruct (_ && _); apply returns_emit. Qed.
Lemma returns_emit_copy_64 fuel cap out offset len :
  len <= Z.of_nat fuel -> returns (emit_copy_64 fuel cap out offset len) (fun _ => True).
Proof.
  revert out len. induction fuel as [|fuel IH]; intros out len Hf; cbn [emit_copy_64];
    destruct (Z.ltb_spec len 68); try done; [lia|].
  eapply returns_bind; [apply returns_emit_copy_lt|]. intros o _. apply IH. lia.
Qed.
Lemma returns_emit_copy cap out offset len : returns (emit_copy cap out offset len) (fun _ => True).
Proof.
  unfold emit_copy. eapply returns_bind; [apply returns_emit_copy_64; lia|]. intros [r o] _.
  destruct (64 <? r); [|apply returns_emit_copy_lt].
  eapply returns_bind; [apply returns_emit_copy_lt|]. intros; apply returns_emit_copy_lt.
Qed.
Lemma returns_match_bytes fuel inp s1 s2 limit matched :
  0 <= matched -> limit - s2 <= Z.of_nat fuel ->
  returns (match_bytes fuel inp s1 s2 limit matched) (fun m => 0 <= m).
Proof.
  revert s2 matched. induction fuel as [|fuel IH]; intros s2 matched Hm Hf; cbn [match_bytes];
    destruct (Z.leb_spec limit s2); try done; [lia|].
  eapply returns_bind; [apply returns_read|]. intros a _.
  eapply returns_bind; [apply returns_read|]. intros b _.
  case_bool_decide; [apply IH; lia|done].
Qed.
Lemma returns_find_match inp s1 s2 limit :
  returns (find_match_length inp s1 s2 limit) (fun m => 0 <= m).
Proof.
  unfold find_match_length.
  enough (H : forall fuel s2 matched, 0 <= matched -> limit - s2 <= Z.of_nat fuel ->
    returns (match_words fuel inp s1 s2 limit matched) (fun m => 0 <= m)) by (apply H; lia).
  induction fuel as [|fuel IH]; intros q matched Hm Hf; cbn [match_words];
    (destruct (Z.leb_spec q (limit - 8)); [|apply returns_match_bytes; lia]); [lia|].
  eapply returns_bind; [apply returns_load64|]. intros a _.
  eapply returns_bind; [apply returns_load64|]. intros b _.
  destruct (a =? b); [apply IH; lia|]. unfold returns, find_lsb_set_non_zero64.
  pose proof (proj2 (Z.shiftr_nonneg (ctz 64 (Z.lxor a b)) 3) (ctz_nonneg _ _)). lia.
Qed.
Lemma returns_scan fuel inp shift limit ip h skip table :
  32 <= skip -> limit - ip < Z.of_nat fuel -> (1 <= fuel)%nat ->
  returns (scan fuel inp shift limit ip h skip table)
    (fun r => match fst r with Some (ip', _) => ip <= ip' < limit | None => True end).
Proof.
  revert ip h skip table. induction fuel as [|fuel IH]; intros ip h skip table Hs Hf H1; [lia|].
  cbn [scan].
  assert (1 <= Z.shiftr skip 5).
  { rewrite Z.shiftr_div_pow2 by lia. apply Z.div_le_lower_bound; simpl; lia. }
  destruct (Z.ltb_spec limit (ip + Z.shiftr skip 5)); [done|].
  eapply returns_bind; [apply returns_hash|]. intros nh _.
  eapply returns_bind; [apply returns_load32|]. intros a _.
  eapply returns_bind; [apply returns_load32|]. intros b _.
  destruct (a =? b); cbn [negb]; [simpl; lia|].
  eapply returns_weaken; [apply IH; lia|]. intros [[[ip' c']|] t]; cbn [fst]; [intros; lia|done].
Qed.
Lemma returns_copies fuel inp shift limit cap ip c table out :
  limit - ip < Z.of_nat fuel -> (1 <= fuel)%nat ->
  returns (copies fuel inp shift limit cap ip c table out)
    (fun r => match snd (fst (fst r)) with Some (ip', _) => ip < ip' | None => True end).
Proof.
  revert ip c table out. induction fuel as [|fuel IH]; intros ip c table out Hf H1; [lia|].
  cbn [copies]. eapply returns_bind; [apply returns_find_match|]. intros m Hm. cbn beta in Hm.
  eapply returns_bind; [apply returns_emit_copy|]. intros o _.
  destruct (Z.leb_spec limit (ip + (4 + m))); [done|].
  eapply returns_bind; [apply returns_load64|]. intros ib _.
  eapply returns_bind; [apply returns_load32|]. intros cb _.
  destruct (_ =? cb); [|simpl; lia].
  eapply returns_weaken; [apply IH; lia|]. intros [[[p [[ip' h]|]] t] o']; cbn [fst snd]; [intros; lia|done].
Qed.
Lemma returns_fragment_loop fuel inp shift limit cap ip h ne table out :
  limit + 15 <= lenZ inp -> 1 <= ip -> 1 <= lenZ inp -> limit - ip < Z.of_nat fuel -> (1 <= fuel)%nat ->
  returns (fragment_loop fuel inp shift limit cap ip h ne table out) (fun _ => True).
Proof.
  revert ip h ne table out. induction fuel as [|fuel IH]; intros ip h ne table out Hl Hip Hn Hf H1; [lia|].
  cbn [fragment_loop]. eapply returns_bind; [apply returns_scan; unfold lenZ in *; lia|].
  intros [[[ip' c]|] t]; cbn [fst]; [|done]. intros Hip'.
  eapply returns_bind; [apply returns_emit_literal|]. intros o _.
  eapply returns_bind; [apply returns_copies; unfold lenZ in *; lia|].
  intros [[[p [[ip2 h2]|]] t2] o2]; cbn [fst snd]; [|done]. intros Hip2. apply IH; lia.
Qed.
Lemma returns_compress_fragment cap out inp table ts :
  returns (compress_fragment cap out inp table ts) (fun _ => True).
Proof.
  unfold compress_fragment. eapply (returns_bind _ _ (fun _ => True)).
  - unfold kinput_margin_bytes. destruct (Z.leb_spec 15 (lenZ inp)); [|done].
    eapply returns_bind; [apply returns_hash|]. intros h _.
    apply returns_fragment_loop; unfold lenZ in *; lia.
  - intros [p o] _. destruct (_ <? _); [apply returns_emit_literal|done].
Qed.
Lemma returns_compress_blocks fuel cap n input out :
  n <= Z.of_nat fuel -> returns (compress_blocks fuel cap n input out) (fun _ => True).
Proof.
  revert n input out. induction fuel as [|fuel IH]; intros n input out Hf; cbn [compress_blocks];
    destruct (Z.leb_spec n 0); try done; [lia|].
  destruct (_ =? 0); [done|]. destruct (_ <? _); [done|]. unfold get_hash_table.
  eapply returns_bind; [apply returns_compress_fragment|]. intros o _. apply IH.
  unfold kblock_size. lia.
Qed.
Lemma compress_returns d n : Snappy.snappy_compress d n <> Fault OutOfFuel.
Proof.
  assert (H : returns (Snappy.snappy_compress d n) (fun _ => True)).
  { unfold Snappy.snappy_compress. eapply returns_bind; [apply returns_emit|]. intros o _.
    apply returns_compress_blocks. lia. }
  intros E. by rewrite E in H.
Qed.

(** ** Properties *)

(** C5: the codec is lossless.  Every input of less than 2 GB compresses
    without a fault into the block [snappy_max_compressed_length] announces,
    the result is shorter than that block, and [snappy_uncompressed_length]
    and [snappy_uncompress] recover the length and the input. *)
Theorem snappy_lossless d :
  bytes_ok d -> lenZ d < 2 ^ 31 ->
  exists z, Snappy.snappy_compress d (Snappy.snappy_max_compressed_length (lenZ d)) = Done (0, z) /\
    lenZ z < Snappy.snappy_max_compressed_length (lenZ d) /\
    Snappy.snappy_uncompressed_length z = Some (lenZ d) /\
    Snappy.snappy_uncompress z (lenZ d) = Done (0, d).
Proof.
  intros Hd Hlen. destruct (snappy_compress_ok d Hd Hlen) as (z & Hc & _ & Hl & Hdec).
  exists (varint_encode32 (lenZ d) ++ z). split; [done|]. split; [lia|].
  pose proof (lenZ_nonneg d). split.
  - unfold Snappy.snappy_uncompressed_length. by rewrite varint_parse_encode by lia.
  - apply uncompress_decodes; [lia|done].
Qed.
Definition demo_text : bytes := concat (replicate 9 [97; 98; 99; 97; 98; 99; 100]).
Lemma snappy_lossless_witness :
  exists z, Snappy.snappy_compress demo_text (Snappy.snappy_max_compressed_length (lenZ demo_text)) = Done (0, z) /\
    lenZ z < lenZ demo_text /\ Snappy.snappy_uncompress z (lenZ demo_text) = Done (0, demo_text).
Proof.
  destruct (snappy_lossless demo_text) as (z & Hz & _ & _ & Hu).
  - unfold demo_text. repeat constructor; vm_compute; intuition congruence.
  - reflexivity.
  - exists z. split; [exact Hz|]. split; [|exact Hu]. vm_compute in Hz. injection Hz as <-. reflexivity.
Defined.

(** C33: decompression is memory safe.  Whatever the bytes, a block at least as
    long as the length they announce is never accessed outside its bounds;
    the call returns. *)
Theorem snappy_uncompress_memory_safe z n len rest :
  bytes_ok z -> read_uncompressed_length 0 0 z = Some (len, rest) -> 0 <= len <= n ->
  exists rc blk, Snappy.snappy_uncompress z n = Done (rc, blk) /\ lenZ blk = n.
Proof. apply uncompress_safe. Qed.
Lemma snappy_uncompress_memory_safe_witness :
  exists rc blk, Snappy.snappy_uncompress [4; 254; 1; 0; 255] 4 = Done (rc, blk) /\ lenZ blk = 4.
Proof.
  apply (snappy_uncompress_memory_safe [4; 254; 1; 0; 255] 4 4 [254; 1; 0; 255]).
  - repeat constructor; lia.
  - reflexivity.
  - lia.
Defined.

(** The loops of the codec end, for every input and every size of the
    output block. *)
Theorem snappy_terminates d cap z n :
  Snappy.snappy_compress d cap <> Fault OutOfFuel /\ Snappy.snappy_uncompress z n <> Fault OutOfFuel.
Proof. split; [apply compress_returns|apply uncompress_returns]. Qed.

(** [find_match_length], which compares eight bytes at a time and finds
    the first difference by counting the trailing zeros of an exclusive or,
    computes the length of the common prefix of the two parts of the input. *)
Theorem find_match_length_correct inp s1 s2 :
  bytes_ok inp -> 0 <= s1 < s2 ->
  find_match_length inp s1 s2 (lenZ inp) =
    Done (Z.of_nat (common_prefix (dropZ s1 inp) (dropZ s2 inp))).
Proof. apply find_match_length_ok. Qed.
Lemma find_match_length_correct_witness :
  find_match_length [1; 2; 3; 4; 5; 6; 7; 8; 9; 1; 2; 3; 4; 5; 6; 7; 8; 9; 1; 5] 0 9 20 = Done 10.
Proof.
  apply (find_match_length_correct [1; 2; 3; 4; 5; 6; 7; 8; 9; 1; 2; 3; 4; 5; 6; 7; 8; 9; 1; 5] 0 9).
  - repeat constructor; lia.
  - lia.
Defined.

(** The fast copy.  [incremental_copy_fast_path], which moves eight bytes
    at a time and lets overlapping moves repeat a short pattern, leaves the
    same [len] bytes as the byte-by-byte [incremental_copy], given ten spare
    bytes behind them. *)
Theorem fast_copy_equals_byte_copy out rest offset len :
  1 <= offset <= lenZ out -> 1 <= len -> len + 10 <= lenZ rest ->
  exists b1 b2,
    incremental_copy_fast_path (lenZ out - offset) (lenZ out) len (out ++ rest) = Done b1 /\
    incremental_copy (lenZ out - offset) (lenZ out) len (out ++ rest) = Done b2 /\
    lenZ b1 = lenZ b2 /\ takeZ (lenZ out + len) b1 = takeZ (lenZ out + len) b2.
Proof.
  intros Ho Hl Hr.
  assert (Hnat : (1 <= Z.to_nat offset <= length out)%nat) by (unfold lenZ in *; lia).
  assert (Hh : holds (out ++ rest) out) by (by exists rest).
  destruct (fast_path_ok (out ++ rest) out (Z.to_nat offset) len Hnat Hl Hh ltac:(lens))
    as (b1 & H1 & L1 & [r1 h1]). rewrite Z2Nat.id in H1 by lia.
  destruct (copy_bytes_ok (Z.to_nat len) (out ++ rest) out 0 (Z.to_nat offset)
    (length out - Z.to_nat offset)) as (b2 & H2 & L2 & [r2 h2]); try done; try lia.
  { unfold lenZ in *. rewrite length_app. lia. }
  exists b1, b2. split; [done|]. split.
  { unfold incremental_copy. rewrite Z.max_r by lia. rewrite <- H2, Nat.add_0_r. f_equal. unfold lenZ. lia. }
  split; [lia|]. rewrite h1, h2. simpl (0 + _)%nat.
  rewrite !takeZ_app_eq by (rewrite lenZ_self_copy; lia). done.
Qed.
Lemma fast_copy_equals_byte_copy_witness :
  exists b1 b2,
    incremental_copy_fast_path 1 3 7 ([1; 2; 3] ++ zeros 20) = Done b1 /\
    incremental_copy 1 3 7 ([1; 2; 3] ++ zeros 20) = Done b2 /\
    lenZ b1 = lenZ b2 /\ takeZ 10 b1 = takeZ 10 b2.
Proof.
  apply (fast_copy_equals_byte_copy [1; 2; 3] (zeros 20) 2 7); vm_compute; intuition congruence.
Defined.

(** The two readers of a length.  Decompression reads the length with
    another function than [snappy_uncompressed_length], which callers use to
    allocate the block.  They agree, except on a fifth byte between 16 and
    127: there the second one refuses what the first one accepts, with the
    high bits dropped. *)
Theorem length_readers_differ p :
  read_uncompressed_length 0 0 p = varint_parse32_with_limit p \/
  (varint_parse32_with_limit p = None /\
   exists b0 b1 b2 b3 b4 rest v, p = b0 :: b1 :: b2 :: b3 :: b4 :: rest /\ 16 <= b4 < 128 /\
     read_uncompressed_length 0 0 p = Some (v, rest)).
Proof.
  destruct (varint_parse32_with_limit p) as [[v rest]|] eqn:E; [left; by apply read_length_parse|].
  destruct (read_uncompressed_length 0 0 p) as [[v rest]|] eqn:R; [|by left]. right. split; [done|].
  revert E R.
  do 4 (destruct p as [|? p]; [by intros|]; cbn [varint_parse32_with_limit];
    cbn -[Z.shiftl wrap Z.land Z.lor]; destruct (_ <? 128); [by intros|]).
  destruct p as [|b4 p]; [by intros|]. cbn -[Z.shiftl wrap Z.land Z.lor].
  destruct (Z.ltb_spec b4 16); [by intros|]. destruct (Z.ltb_spec b4 128).
  - intros _ [= <- <-]. do 7 eexists. split; [done|]. split; [lia|done].
  - intros _. by destruct p.
Qed.

(** Inputs of 2 GB and more.  The length is kept in an [int]; from 2 GB
    up to 4 GB it is negative, no block is compressed, and the call still
    succeeds: only the header is written. *)
Theorem snappy_compress_large_loses_input d cap :
  2 ^ 31 <= lenZ d < 2 ^ 32 -> 5 <= cap ->
  Snappy.snappy_compress d cap = Done (0, varint_encode32 (lenZ d)).
Proof.
  intros Hd Hcap. unfold Snappy.snappy_compress.
  assert (Hi : i32 (lenZ d) = lenZ d - 2 ^ 32).
  { unfold i32. replace (lenZ d + 2 ^ 31) with (lenZ d - 2 ^ 31 + 1 * 2 ^ 32) by lia.
    rewrite Z.mod_add, Z.mod_small by lia. lia. }
  assert (Hu : u32 (i32 (lenZ d)) = lenZ d).
  { rewrite Hi. unfold wrap. replace (lenZ d - 2 ^ 32) with (lenZ d + (-1) * 2 ^ 32) by lia.
    rewrite Z.mod_add by lia. apply Z.mod_small. lia. }
  rewrite Hu. pose proof (varint_encode_len (lenZ d)). rewrite emit_ok by (rewrite lenZ_nil; lia).
  cbn [obind app]. rewrite Hi. destruct (Z.to_nat (lenZ d - 2 ^ 32)); cbn [compress_blocks];
    by rewrite (proj2 (Z.leb_le (lenZ d - 2 ^ 32) 0)) by lia.
Qed.
Lemma snappy_compress_large_loses_input_witness :
  Snappy.snappy_compress (zeros (2 ^ 31)) 100 = Done (0, [128; 128; 128; 128; 8]).
Proof.
  rewrite (snappy_compress_large_loses_input (zeros (2 ^ 31)) 100).
  - rewrite lenZ_zeros by lia. reflexivity.
  - rewrite lenZ_zeros by lia. lia.
  - lia.
Defined.
