(* ===== verification/Spec.v ===== *)
(** * Spec: what a FineDB session promises

    The abstract key-value service a client talks to: the committed database
    is a finite map from keys to stored values, an open transaction is a
    snapshot of it, asynchronous writes wait in a queue.  [spec_step] gives
    the answer to a request and the new state; [encode_request] is the wire
    form of a request.  This file mentions no buffer, socket or LMDB handle:
    the refinement theorems of Session relate the server code to it. *)
From S2P Require Import Prelude Protocol Compressor.

(** ** Requests *)
Inductive request :=
  | RPing
  | RGet (key : bytes) (compress serialized : bool)
  | RPut (key data : bytes) (sync compress : bool)
  | RDel (key : bytes) (sync : bool)
  | RStart
  | RStop.

Definition encode_body (r : request) : bytes :=
  match r with
  | RGet key _ _ | RDel key _ => be_bytes 2 (lenZ key) ++ key
  | RPut key data _ _ => be_bytes 2 (lenZ key) ++ key ++ be_bytes 4 (lenZ data) ++ data
  | RPing | RStart | RStop => []
  end.
Definition request_code (r : request) : Z :=
  match r with
  | RPing => command_code PROTO_PING
  | RGet _ compress serialized =>
      let c := request_byte (command_code PROTO_GET) false compress false in
      if serialized then Z.lor c (option_code PROTO_OPT_SERIALIZED) else c
  | RPut _ _ sync compress => request_byte (command_code PROTO_PUT) sync compress false
  | RDel _ sync => request_byte (command_code PROTO_DEL) sync false false
  | RStart => command_code PROTO_START
  | RStop => command_code PROTO_STOP
  end.
Definition encode_request (r : request) : bytes := request_code r :: encode_body r.

(** ** State *)
Inductive pending := PendPut (key value : bytes) | PendDel (key : bytes).
Record spec_state := {
  s_db : gmap bytes bytes;              (* committed values, as stored *)
  s_snap : option (gmap bytes bytes);   (* snapshot of the open transaction *)
  s_queue : list pending                (* writes waiting for the writer *)
}.

(** What the session reads: the snapshot when there is one. *)
Definition s_view (s : spec_state) : gmap bytes bytes := default (s_db s) (s_snap s).

Section spec.
Context `{Snappy}.

(** Stored form of a value received with or without the compressed flag. *)
Definition stored (compress : bool) (data : bytes) : option bytes :=
  if compress then Some data
  else match snappy_compress data (snappy_max_compressed_length (lenZ data)) with
       | Done (0, z) => Some z
       | _ => None
       end.
(** Value sent for a stored one. *)
Definition fetched (compress : bool) (v : bytes) : option bytes :=
  if compress || (lenZ v =? 0) then Some v
  else match snappy_uncompressed_length v with
       | None => None
       | Some n => match snappy_uncompress v n with
                   | Done (0, u) => if lenZ u =? n then Some u else None
                   | _ => None
                   end
       end.

Definition apply_pending (p : pending) (m : gmap bytes bytes) : gmap bytes bytes :=
  match p with
  | PendPut key v => <[key := v]> m
  | PendDel key => delete key m
  end.

(** A write: refused inside a transaction, queued when asynchronous, done at
    once otherwise; a deletion also needs the key to exist. *)
Definition spec_write (p : pending) (ok sync : bool) (s : spec_state)
    : protocol_response_t * spec_state :=
  match s_snap s with
  | Some _ => (RESP_ERR_BAD_NAME, s)
  | None =>
      if negb sync
      then (RESP_OK, {| s_db := s_db s; s_snap := None; s_queue := s_queue s ++ [p] |})
      else if ok
      then (RESP_OK, {| s_db := apply_pending p (s_db s); s_snap := None;
                        s_queue := s_queue s |})
      else (RESP_ERR_BAD_NAME, s)
  end.

(** Response bytes, whether the session goes on, and the new state.  [None]:
    a value that cannot be converted. *)
Definition spec_step (r : request) (s : spec_state) : option (bytes * bool * spec_state) :=
  match r with
  | RPing => Some ([response_code RESP_OK], true, s)
  | RGet key compress serialized =>
      match s_view s !! key with
      | None => Some ([response_code RESP_ERR_BAD_NAME], true, s)
      | Some v =>
          match fetched compress v with
          | None => None
          | Some d => Some (response_byte RESP_OK serialized compress ::
                              be_bytes 4 (lenZ d) ++ d, true, s)
          end
      end
  | RPut key data sync compress =>
      match stored compress data with
      | None => None
      | Some v => let '(code, s) := spec_write (PendPut key v) true sync s in
                  Some ([response_code code], true, s)
      end
  | RDel key sync =>
      let '(code, s) := spec_write (PendDel key) (bool_decide (is_Some (s_db s !! key))) sync s in
      Some ([response_code code], true, s)
  | RStart => Some ([response_code RESP_OK], true,
                    {| s_db := s_db s; s_snap := Some (s_db s); s_queue := s_queue s |})
  | RStop =>
      match s_snap s with
      | None => Some ([response_code RESP_ERR_TRANSACTION], false, s)
      | Some _ => Some ([response_code RESP_OK], true,
                        {| s_db := s_db s; s_snap := None; s_queue := s_queue s |})
      end
  end.

(** A session: requests are answered in order until one ends it. *)
Fixpoint spec_session (rs : list request) (s : spec_state) : option (bytes * spec_state) :=
  match rs with
  | [] => Some ([], s)
  | r :: rs =>
      match spec_step r s with
      | None => None
      | Some (out, true, s) =>
          match spec_session rs s with
          | None => None
          | Some (out', s) => Some (out ++ out', s)
          end
      | Some (out, false, s) => Some (out, s)
      end
  end.

(** The writer applies the queue from its head. *)
Definition spec_drain (s : spec_state) : spec_state :=
  {| s_db := fold_left (fun m p => apply_pending p m) (s_queue s) (s_db s);
     s_snap := s_snap s; s_queue := [] |}.

(** Requests the protocol and LMDB can carry. *)
Definition key_ok (key : bytes) : Prop := bytes_ok key /\ 1 <= lenZ key <= 511.
Definition data_ok (d : bytes) : Prop := bytes_ok d /\ lenZ d < 2 ^ 31.
Definition request_ok (r : request) : Prop :=
  match r with
  | RGet key _ _ | RDel key _ => key_ok key
  | RPut key data _ _ => key_ok key /\ data_ok data
  | RPing | RStart | RStop => True
  end.
End spec.
