(* ===== verification/Commands.v ===== *)
(** * Commands: the request handlers of src/src/server/command_*.c

    One definition per handler, from the first field it reads to the response
    it sends.  A [goto error] is the error exit of the handler; [junk] and
    [junk_len] stand for uninitialised variables. *)
From S2P Require Import Prelude Protocol Dynabin Lmdb Database Connection Compressor Spec.

Section handlers.
Context `{Snappy}.

(** The error exit shared by the handlers. *)
Definition server_error : CM conn yerr_t :=
  do! CONNECTION_SEND_ERROR RESP_ERR_SERVER in cret YEIO.

(** A copy of [src] in a new block; [None] when there is no memory. *)
Definition copy_block (n : Z) (src : bytes) : CM conn (option bytes) :=
  let! blk := on_alloc (ymalloc n) in
  match blk with
  | None => cret None
  | Some blk => let! blk := clift (blk_write blk 0 src) in cret (Some blk)
  end.
(** [strdup] of a name that may be null. *)
Definition strdup_opt (s : option bytes) : CM conn (option bytes) :=
  match s with
  | None => cret None
  | Some s => copy_block (lenZ (cstr s) + 1) (cstr s)
  end.

(** GET, DEL and PUT start with a key: two bytes of length, then the bytes,
    which are copied to a block of their own.  Every failure takes the error
    exit of the handler. *)
Definition read_key : CM conn (option bytes) :=
  let! r := read_field 2 in
  match r with
  | None => cret None
  | Some plen =>
      let len := be_val plen in
      let! r := read_field len in
      match r with
      | None => cret None
      | Some ptr => copy_block len ptr
      end
  end.

(** ** PING *)
Definition command_ping (sync compress serialized : bool) : CM conn yerr_t :=
  CONNECTION_SEND_OK.

(** ** GET *)
Definition command_get (junk : dbi) (junk_len : Z) (sync compress serialized : bool)
    : CM conn yerr_t :=
  let! name := read_key in
  match name with
  | None => server_error
  | Some name =>
  let! c := cget in
  let! '(result, data) :=
    on_env (database_get (transaction (c_thread c)) (dbname (c_thread c)) name junk) in
  if result =? YENODATA then
    do! CONNECTION_SEND_ERROR RESP_ERR_BAD_NAME in cret YENOERR
  else if negb (result =? YENOERR) then server_error
  else
  match data with
  | None => cfault NullDeref
  | Some d =>
      if negb (lenZ d =? 0) && negb compress then
        let unzip_len := default junk_len (snappy_uncompressed_length d) in
        let! blk := on_alloc (ymalloc unzip_len) in
        match blk with
        | None => cfault NullDeref
        | Some _ =>
            let! '(rc, unzip_data) := clift (snappy_uncompress d unzip_len) in
            if negb (rc =? 0) then server_error
            else connection_send_response RESP_OK serialized compress (Some unzip_data) unzip_len
        end
      else connection_send_response RESP_OK serialized compress (Some d) (lenZ d)
  end
  end.

(** ** DEL *)
Definition command_del (sync compress serialized : bool) : CM conn yerr_t :=
  let! key := read_key in
  match key with
  | None => server_error
  | Some key =>
  do! (if sync then cret YENOERR else CONNECTION_SEND_OK) in
  let! msg := on_alloc (ymalloc 56) in
  match msg with
  | None => server_error
  | Some _ =>
  let! c := cget in
  if negb sync then
    let! name := strdup_opt (dbname (c_thread c)) in
    let! rc := nn_send {| wm_type := WRITE_DEL; wm_dbname := name; wm_name := key;
                          wm_data := []; wm_create_only := false |} in
    if rc <? 0 then server_error else cret YENOERR
  else
    let! r := on_env (database_del (transaction (c_thread c)) (dbname (c_thread c)) key) in
    connection_send_response (if r =? YENOERR then RESP_OK else RESP_ERR_BAD_NAME)
      false false None 0
  end end.

(** ** PUT: [create_only] and [update_only] are local variables of the C
    function, fixed to false in [command_put]. *)

(** The value: four bytes of length, then the bytes; an empty value is a null
    pointer. *)
Definition read_value : CM conn (option bytes) :=
  let! r := read_field 4 in
  match r with
  | None => cret None
  | Some pdata_len =>
      let data_len := be_val pdata_len in
      if 0 <? data_len then
        let! r := read_field data_len in
        match r with
        | None => cret None
        | Some ptr => copy_block data_len ptr
        end
      else cret (Some [])
  end.

(** The data of the message: as received, or compressed by the server. *)
Definition put_data (compress : bool) (data : bytes) : CM conn (option bytes) :=
  if compress then cret (Some data)
  else
    let! rc := on_alloc snappy_init_env in
    if negb (rc =? 0) then cret None
    else
      let max := snappy_max_compressed_length (lenZ data) in
      let! zip_data := on_alloc (ymalloc max) in
      match zip_data with
      | None => cret None
      | Some _ =>
          let! '(rc, zip) := clift (snappy_compress data max) in
          if negb (rc =? 0) then cret None
          else if max <=? lenZ zip then cfault HeapOverflow  (* zip_data[zip_len] = 0 *)
          else cret (Some zip)
      end.

(** The synchronous part: [update_only] checks the key in a transaction of
    its own first. *)
Definition put_sync (create_only update_only : bool) (junk : dbi) (name data : bytes)
    : CM conn yerr_t :=
  let! c := cget in
  let th := c_thread c in
  let answer (ok : bool) :=
    connection_send_response (if ok then RESP_OK else RESP_ERR_BAD_NAME) false false None 0 in
  let store (txn : option nat) :=
    let! r := on_env (database_put txn create_only (dbname th) name data) in
    if update_only && bool_decide (transaction th = None) then
      match txn with
      | None => cfault NullDeref
      | Some t =>
          let! rc := on_env (database_transaction_commit t) in
          if negb (rc =? YENOERR) then server_error else answer (r =? YENOERR)
      end
    else answer (r =? YENOERR) in
  if update_only then
    let! txn := (match transaction th with
                 | Some t => cret (Some t)
                 | None => on_env (database_transaction_start false)
                 end) in
    match txn with
    | None => server_error
    | Some t =>
        let! '(rc, _) := on_env (database_get (Some t) (dbname th) name junk) in
        if negb (rc =? YENOERR) then
          do! (if bool_decide (transaction th = None)
               then on_env (database_transaction_rollback t) else cret tt) in
          if rc =? YENODATA then answer false else server_error
        else store (Some t)
    end
  else store (transaction th).

Definition put_request (create_only update_only : bool) (junk : dbi)
    (sync compress : bool) : CM conn yerr_t :=
  let sync := sync || update_only in
  let! name := read_key in
  match name with
  | None => server_error
  | Some name =>
  let! data := read_value in
  match data with
  | None => server_error
  | Some data =>
  do! (if negb sync && negb update_only then CONNECTION_SEND_OK else cret YENOERR) in
  let! msg := on_alloc (ymalloc 56) in
  match msg with
  | None => server_error
  | Some _ =>
  let! data := put_data compress data in
  match data with
  | None => server_error
  | Some data =>
  if negb sync && negb update_only then
    let! c := cget in
    let! db := strdup_opt (dbname (c_thread c)) in
    let! rc := nn_send {| wm_type := WRITE_PUT; wm_dbname := db; wm_name := name;
                          wm_data := data; wm_create_only := create_only |} in
    if rc <? 0 then server_error else cret YENOERR
  else put_sync create_only update_only junk name data
  end end end end.
Definition command_put (junk : dbi) (sync compress serialized : bool) : CM conn yerr_t :=
  put_request false false junk sync compress.

(** ** SETDB *)
Definition set_dbname (n : option bytes) (t : tcp_thread_t) : tcp_thread_t :=
  {| fd := fd t; dbname := n; transaction := transaction t |}.
Definition command_setdb (sync compress serialized : bool) : CM conn yerr_t :=
  let! r := read_field 1 in
  match r with
  | None => server_error
  | Some pdbname_len =>
  let dbname_len := be_val pdbname_len in
  do! modify_thread (set_dbname None) in
  let! ok :=
    (if 0 <? dbname_len then
       let! r := read_field dbname_len in
       match r with
       | None => cret false
       | Some ptr =>
           let! blk := copy_block (dbname_len + 1) ptr in
           match blk with
           | None => cret false
           | Some blk => do! modify_thread (set_dbname (Some blk)) in cret true
           end
       end
     else cret true) in
  if negb ok then server_error
  else do! CONNECTION_SEND_OK in cret YENOERR
  end.

(** ** START and STOP *)
Definition set_transaction (x : option nat) (t : tcp_thread_t) : tcp_thread_t :=
  {| fd := fd t; dbname := dbname t; transaction := x |}.
Definition command_start (sync compress serialized : bool) : CM conn yerr_t :=
  let! c := cget in
  do! (match transaction (c_thread c) with
       | Some t => on_env (database_transaction_rollback t)
       | None => cret tt
       end) in
  let! t := on_env (database_transaction_start true) in
  do! modify_thread (set_transaction t) in
  match t with
  | None => do! CONNECTION_SEND_ERROR RESP_ERR_TRANSACTION in cret YEACCESS
  | Some _ => do! CONNECTION_SEND_OK in cret YENOERR
  end.
Definition command_stop (sync compress serialized : bool) : CM conn yerr_t :=
  let! c := cget in
  match transaction (c_thread c) with
  | None => do! CONNECTION_SEND_ERROR RESP_ERR_TRANSACTION in cret YEACCESS
  | Some t =>
      do! on_env (database_transaction_rollback t) in
      do! modify_thread (set_transaction None) in
      do! CONNECTION_SEND_OK in cret YENOERR
  end.

(** ** LIST *)
Definition _command_list_loop (key data : bytes) : CM conn yerr_t :=
  let msg := be_bytes 2 (u16 (lenZ key)) ++ key in
  let! rc := sendmsg msg in
  if rc <? 0 then cret YEIO
  else if rc <? lenZ msg then cret YEIO
  else cret YENOERR.
(** [database_list] with a callback that works on the connection. *)
Definition on_env_list (transaction : option nat) (name : option bytes)
    (cb : bytes -> bytes -> CM conn yerr_t) : CM conn yerr_t := fun c =>
  match database_list transaction name cb (c_env c, c) with
  | Done (a, (e, c)) => Done (a, set_env e c)
  | Fault f => Fault f
  end.
Definition command_list (sync compress serialized : bool) : CM conn yerr_t :=
  let! result := CONNECTION_SEND_OK in
  if negb (result =? YENOERR) then server_error
  else
    let! c := cget in
    let! r := on_env_list (transaction (c_thread c)) (dbname (c_thread c)) _command_list_loop in
    if negb (r =? YENOERR) then server_error
    else
      let! rc := sendmsg [0] in
      if negb (rc =? 1) then server_error else cret result.

(** ** DROP *)
Definition command_drop (sync compress serialized : bool) : CM conn yerr_t :=
  let! c := cget in
  match dbname (c_thread c) with
  | None => server_error
  | Some _ =>
      do! (if sync then cret YENOERR else CONNECTION_SEND_OK) in
      let! msg := on_alloc (ymalloc 56) in
      match msg with
      | None => server_error
      | Some _ =>
          if negb sync then
            let! db := strdup_opt (dbname (c_thread c)) in
            let! rc := nn_send {| wm_type := WRITE_DROP; wm_dbname := db; wm_name := [];
                                  wm_data := []; wm_create_only := false |} in
            if rc <? 0 then server_error else cret YENOERR
          else
            let! r := on_env (database_drop (transaction (c_thread c)) (dbname (c_thread c))) in
            connection_send_response (if r =? YENOERR then RESP_OK else RESP_ERR_BAD_NAME)
              false false None 0
      end
  end.
End handlers.

(** ** Lemmas *)

(** The connection works: a socket, memory, and a buffer in good state. *)
Record conn_ok (c : conn) : Prop := {
  ok_wf : yd_wf (c_buff c);
  ok_fd : 0 <= fd (c_thread c);
  ok_alloc : c_alloc c = [];
  ok_tx : c_tx c = [];
  ok_nn : c_nn c = []
}.
Lemma conn_ok_buff c b : conn_ok c -> yd_wf b -> conn_ok (set_buff b c).
Proof. intros [????] ?. by constructor. Qed.
#[export] Hint Resolve conn_ok_buff : finedb.

Lemma on_malloc n c :
  c_alloc c = [] -> on_alloc (ymalloc n) c = Done (Some (zeros n), c).
Proof.
  intros Ha. unfold on_alloc, ymalloc. rewrite Ha. cbn [script_next].
  destruct c; simpl in *; by subst.
Qed.
Lemma copy_block_ok n d c :
  c_alloc c = [] -> lenZ d <= n ->
  copy_block n d c = Done (Some (d ++ zeros (n - lenZ d)), c).
Proof.
  intros Ha Hn. unfold copy_block. cstep (on_malloc n c Ha).
  pose proof (lenZ_nonneg d). unfold cbind, clift.
  rewrite blk_write_ok by (rewrite ?lenZ_zeros; lia).
  rewrite takeZ_0, app_nil_l by lia. unfold cret. do 3 f_equal.
  unfold dropZ, zeros. rewrite drop_replicate. f_equal. f_equal. lia.
Qed.
Lemma copy_block_exact d c :
  c_alloc c = [] -> copy_block (lenZ d) d c = Done (Some d, c).
Proof.
  intros Ha. rewrite copy_block_ok by (done || lia).
  rewrite Z.sub_diag. unfold zeros. by rewrite app_nil_r.
Qed.

Lemma read_key_buffered key rest c :
  conn_ok c -> lenZ key < 2 ^ 16 -> yd_content (c_buff c) = be_bytes 2 (lenZ key) ++ key ++ rest ->
  exists b, read_key c = Done (Some key, set_buff b c) /\ yd_wf b /\ yd_content b = rest.
Proof.
  intros Hok Hk Hc. unfold read_key.
  destruct (read_field_buffered (be_bytes 2 (lenZ key)) (key ++ rest) c) as (b1 & H1 & W1 & C1);
    [apply Hok|apply Hok|done|].
  rewrite lenZ_be_bytes in H1. change (Z.of_nat 2) with 2 in H1. cstep H1. rewrite be_val_be_bytes, Z.mod_small by lens.
  destruct (read_field_buffered key rest (set_buff b1 c)) as (b2 & H2 & W2 & C2);
    [done|apply Hok|done|].
  cstep H2. rewrite copy_block_exact by apply Hok. eauto.
Qed.
Lemma read_value_buffered data rest c :
  conn_ok c -> lenZ data < 2 ^ 32 ->
  yd_content (c_buff c) = be_bytes 4 (lenZ data) ++ data ++ rest ->
  exists b, read_value c = Done (Some data, set_buff b c) /\ yd_wf b /\ yd_content b = rest.
Proof.
  intros Hok Hk Hc. unfold read_value.
  destruct (read_field_buffered (be_bytes 4 (lenZ data)) (data ++ rest) c) as (b1 & H1 & W1 & C1);
    [apply Hok|apply Hok|done|].
  rewrite lenZ_be_bytes in H1. change (Z.of_nat 4) with 4 in H1. cstep H1. rewrite be_val_be_bytes, Z.mod_small by lens.
  destruct (Z.ltb_spec 0 (lenZ data)) as [Hp|Hz].
  - destruct (read_field_buffered data rest (set_buff b1 c)) as (b2 & H2 & W2 & C2);
      [done|apply Hok|done|].
    cstep H2. rewrite copy_block_exact by apply Hok. eauto.
  - destruct data as [|x data]; [by exists b1|]. rewrite lenZ_cons in Hz. lens.
Qed.

(** Results of the handlers, on a request that is in the buffer: the new
    thread state, environment, output and writer queue. *)
Definition finish (b : ydynabin_t) (th : tcp_thread_t) (e : MDB_env) (out : bytes)
    (q : list writer_msg_t) (c : conn) : conn :=
  {| c_env := e; c_thread := th; c_buff := b; c_rx := c_rx c; c_tx := [];
     c_out := c_out c ++ out; c_nn := []; c_queue := c_queue c ++ q; c_alloc := [] |}.
Definition replies (code : yerr_t) (out : bytes) (th : tcp_thread_t) (e : MDB_env)
    (q : list writer_msg_t) (rest : bytes) (c : conn) (o : outcome (yerr_t * conn)) : Prop :=
  exists b, o = Done (code, finish b th e out q c) /\ yd_wf b /\ yd_content b = rest.

(** The state a run of handler steps ends in is a [finish]. *)
Lemma finish_eq c b th e out q c' :
  conn_ok c ->
  c_env c' = e -> c_thread c' = th -> c_buff c' = b -> c_rx c' = c_rx c ->
  c_tx c' = [] -> c_out c' = c_out c ++ out -> c_nn c' = c_nn c ->
  c_queue c' = c_queue c ++ q -> c_alloc c' = c_alloc c -> c' = finish b th e out q c.
Proof.
  intros [????]. destruct c'; unfold finish; simpl. intros; subst. by f_equal.
Qed.
Ltac finishes b Hok :=
  exists b; split; [|done]; unfold cret;
  match goal with |- _ = Done (?r, _) => apply (f_equal (fun x => Done (r, x))) end;
  eapply finish_eq; try done; try apply Hok; simpl;
  rewrite ?app_nil_r; try done; try (symmetry; apply Hok).

Section handler_lemmas.
Context `{Snappy}.

Lemma command_get_spec key rest junk jl comp ser sync c r e' :
  conn_ok c -> lenZ key < 2 ^ 16 ->
  yd_content (c_buff c) = be_bytes 2 (lenZ key) ++ key ++ rest ->
  database_get (transaction (c_thread c)) (dbname (c_thread c)) key junk (c_env c) =
    Done (get_answer r, e') ->
  match r with
  | None => replies YENOERR [response_code RESP_ERR_BAD_NAME] (c_thread c) e' [] rest c
              (command_get junk jl sync comp ser c)
  | Some v =>
      forall d, fetched comp v = Some d ->
      replies YENOERR (response_byte RESP_OK ser comp :: be_bytes 4 (lenZ d) ++ d)
        (c_thread c) e' [] rest c
        (command_get junk jl sync comp ser c)
  end.
Proof.
  intros Hok Hk Hc Hget.
  destruct (read_key_buffered key rest c Hok Hk Hc) as (b & Hr & Hwf & Hb).
  assert (He : on_env (database_get (transaction (c_thread c)) (dbname (c_thread c)) key junk)
                 (set_buff b c) = Done (get_answer r, set_env e' (set_buff b c))).
  { unfold on_env. cbn [set_buff c_env]. by rewrite Hget. }
  destruct r as [v|]; cbn [get_answer] in He; [intros d Hf|];
    unfold command_get; cstep Hr; unfold cget, cbind at 1;
    change (c_thread (set_buff b c)) with (c_thread c).
  2: { cstep He. cbn -[connection_send_response]. unfold CONNECTION_SEND_ERROR, cbind.
       rewrite send_code_ok by apply Hok. finishes b Hok. }
  cstep He. cbn [Z.eqb YENOERR YENODATA negb Pos.eqb].
  unfold fetched in Hf. destruct (Z.eqb_spec (lenZ v) 0) as [Hz|Hz], comp; cbn [negb andb orb] in *.
  1-3: injection Hf as <-.
  1-3: rewrite send_response_ok by (done || apply Hok); rewrite be_bytes_u32; finishes b Hok.
  destruct (snappy_uncompressed_length v) as [n|]; [|done]. cbn [default from_option id].
  cstep (on_malloc n (set_env e' (set_buff b c)) (ok_alloc c Hok)).
  destruct (snappy_uncompress v n) as [[rc u]|]; [|done].
  destruct rc; [|done|done]. destruct (Z.eqb_spec (lenZ u) n) as [Hu|]; [|done].
  injection Hf as <-. unfold clift, cbind. cbn [Z.eqb negb].
  rewrite send_response_ok by (done || apply Hok). rewrite be_bytes_u32, <- Hu.
  finishes b Hok.
Qed.

(** Writes answer with the result of the database operation. *)
Definition write_code (r : yerr_t) : protocol_response_t :=
  if r =? YENOERR then RESP_OK else RESP_ERR_BAD_NAME.

Lemma command_del_sync key rest comp ser c r e' :
  conn_ok c -> lenZ key < 2 ^ 16 ->
  yd_content (c_buff c) = be_bytes 2 (lenZ key) ++ key ++ rest ->
  database_del (transaction (c_thread c)) (dbname (c_thread c)) key (c_env c) = Done (r, e') ->
  replies YENOERR [response_code (write_code r)] (c_thread c) e' [] rest c
    (command_del true comp ser c).
Proof.
  intros Hok Hk Hc Hdel.
  destruct (read_key_buffered key rest c Hok Hk Hc) as (b & Hr & Hwf & Hb).
  unfold command_del. cstep Hr. unfold cret, cbind at 1.
  cstep (on_malloc 56 (set_buff b c) (ok_alloc c Hok)). unfold cget, cbind at 1. cbn [negb].
  assert (He : on_env (database_del (transaction (c_thread c)) (dbname (c_thread c)) key)
                 (set_buff b c) = Done (r, set_env e' (set_buff b c))).
  { unfold on_env. cbn [set_buff c_env]. by rewrite Hdel. }
  change (c_thread (set_buff b c)) with (c_thread c). cstep He. fold (write_code r).
  rewrite send_code_ok by apply Hok. finishes b Hok.
Qed.

Lemma strdup_none c : strdup_opt None c = Done (None, c).
Proof. done. Qed.
Lemma nn_send_ok m c :
  c_nn c = [] -> nn_send m c = Done (8, set_queue [] (c_queue c ++ [m]) c).
Proof. intros Hn. unfold nn_send. by rewrite Hn. Qed.

Lemma command_del_async key rest comp ser c :
  conn_ok c -> lenZ key < 2 ^ 16 -> dbname (c_thread c) = None ->
  yd_content (c_buff c) = be_bytes 2 (lenZ key) ++ key ++ rest ->
  replies YENOERR [response_code RESP_OK] (c_thread c) (c_env c)
    [{| wm_type := WRITE_DEL; wm_dbname := None; wm_name := key; wm_data := [];
        wm_create_only := false |}] rest c (command_del false comp ser c).
Proof.
  intros Hok Hk Hdb Hc.
  destruct (read_key_buffered key rest c Hok Hk Hc) as (b & Hr & Hwf & Hb).
  unfold command_del. cstep Hr. unfold CONNECTION_SEND_OK.
  cstep (send_code_ok RESP_OK (set_buff b c) (ok_tx c Hok)).
  unfold cbind at 1. rewrite on_malloc by apply Hok. unfold cget, cbind at 1. cbn [negb].
  cbn [set_tx set_buff c_thread]. rewrite Hdb. unfold cbind. rewrite strdup_none.
  rewrite nn_send_ok by apply Hok. cbn [Z.ltb Z.compare]. finishes b Hok.
Qed.

(** The stored form of a value. *)
Lemma put_data_ok c comp data v :
  SnappyLaws H -> c_alloc c = [] -> data_ok data -> stored comp data = Some v ->
  put_data comp data c = Done (Some v, c).
Proof.
  intros HL Ha [Hb Hd] Hs. unfold put_data, stored in *. destruct comp; [by injection Hs as ->|].
  assert (Hi : on_alloc snappy_init_env c = Done (0, c)).
  { unfold on_alloc, snappy_init_env, cbind, ymalloc. rewrite Ha. simpl.
    destruct c; simpl in *; by subst. }
  cstep Hi. cbn [Z.eqb negb].
  cstep (on_malloc (snappy_max_compressed_length (lenZ data)) c Ha).
  destruct (snappy_roundtrip data Hb Hd) as (z & Hz & _ & Hl & _).
  rewrite Hz in Hs |- *. injection Hs as ->. unfold clift, cbind. cbn [Z.eqb negb].
  by rewrite (proj2 (Z.leb_gt _ _)) by lia.
Qed.

Lemma put_prefix key data rest c :
  conn_ok c -> lenZ key < 2 ^ 16 -> lenZ data < 2 ^ 32 ->
  yd_content (c_buff c) = be_bytes 2 (lenZ key) ++ key ++ be_bytes 4 (lenZ data) ++ data ++ rest ->
  exists b1 b, read_key c = Done (Some key, set_buff b1 c) /\
    read_value (set_buff b1 c) = Done (Some data, set_buff b c) /\
    yd_wf b /\ yd_content b = rest.
Proof.
  intros Hok Hk Hd Hc.
  destruct (read_key_buffered key _ c Hok Hk Hc) as (b1 & Hr & Hwf & Hb).
  destruct (read_value_buffered data rest (set_buff b1 c)) as (b & Hv & Hwf' & Hb');
    [auto with finedb|done|done|].
  exists b1, b. auto.
Qed.

Lemma command_put_sync key data v rest comp ser junk c r e' :
  SnappyLaws H -> conn_ok c -> lenZ key < 2 ^ 16 -> data_ok data ->
  stored comp data = Some v ->
  yd_content (c_buff c) = be_bytes 2 (lenZ key) ++ key ++ be_bytes 4 (lenZ data) ++ data ++ rest ->
  database_put (transaction (c_thread c)) false (dbname (c_thread c)) key v (c_env c) =
    Done (r, e') ->
  replies YENOERR [response_code (write_code r)] (c_thread c) e' [] rest c
    (command_put junk true comp ser c).
Proof.
  intros HL Hok Hk Hd Hs Hc Hput. pose proof Hd as [_ Hd'].
  destruct (put_prefix key data rest c Hok Hk ltac:(lia) Hc) as (b1 & b & Hr & Hv & Hwf & Hb).
  unfold command_put, put_request. cstep Hr. cstep Hv. unfold cret at 1, cbind at 1. cbn [negb andb orb].
  cstep (on_malloc 56 (set_buff b c) (ok_alloc c Hok)).
  cstep (put_data_ok (set_buff b c) comp data v HL (ok_alloc c Hok) Hd Hs).
  unfold put_sync, cget, cbind at 1. cbn [andb].
  change (c_thread (set_buff b c)) with (c_thread c).
  assert (He : on_env (database_put (transaction (c_thread c)) false (dbname (c_thread c)) key v)
                 (set_buff b c) = Done (r, set_env e' (set_buff b c))).
  { unfold on_env. cbn [set_buff c_env]. by rewrite Hput. }
  cstep He. fold (write_code r). rewrite send_code_ok by apply Hok. finishes b Hok.
Qed.

Lemma command_put_async key data v rest comp ser junk c :
  SnappyLaws H -> conn_ok c -> lenZ key < 2 ^ 16 -> data_ok data -> dbname (c_thread c) = None ->
  stored comp data = Some v ->
  yd_content (c_buff c) = be_bytes 2 (lenZ key) ++ key ++ be_bytes 4 (lenZ data) ++ data ++ rest ->
  replies YENOERR [response_code RESP_OK] (c_thread c) (c_env c)
    [{| wm_type := WRITE_PUT; wm_dbname := None; wm_name := key; wm_data := v;
        wm_create_only := false |}] rest c (command_put junk false comp ser c).
Proof.
  intros HL Hok Hk Hd Hdb Hs Hc. pose proof Hd as [_ Hd'].
  destruct (put_prefix key data rest c Hok Hk ltac:(lia) Hc) as (b1 & b & Hr & Hv & Hwf & Hb).
  unfold command_put, put_request. cstep Hr. cstep Hv. cbn [negb andb orb].
  unfold CONNECTION_SEND_OK. cstep (send_code_ok RESP_OK (set_buff b c) (ok_tx c Hok)).
  unfold cbind at 1. rewrite on_malloc by apply Hok. unfold cbind at 1.
  erewrite put_data_ok; [|done|apply Hok|done|done].
  unfold cget, cbind at 1. cbn [set_tx set_buff c_thread]. rewrite Hdb. unfold cbind.
  rewrite strdup_none, nn_send_ok by apply Hok. cbn [Z.ltb Z.compare]. finishes b Hok.
Qed.
End handler_lemmas.
