(* ===== verification/Server.v ===== *)
(** * Server: request dispatch, the writer thread, start-up and the main loop

    src/src/server/connection_thread.c (the loop over the requests of a
    connection), writer_thread.c, finedb.c, server.c, self_path.c and main.c. *)
From S2P Require Import Prelude Cstring Protocol Dynabin Yvect Lmdb Database Connection Compressor Spec Commands.

Section dispatch.
Context `{Snappy}.

(** ** Dispatch *)
Definition command_handler_t : Type := bool -> bool -> bool -> CM conn yerr_t.

(** The array of handlers; entries 7 to 15 are null. *)
Definition _commands (junk : dbi) (junk_len : Z) : list (option command_handler_t) :=
  [Some command_ping; Some (command_get junk junk_len); Some command_del;
   Some (command_put junk); Some command_setdb; Some command_start; Some command_stop;
   None; None; None; None; None; None; None; None; None].

(** [_commands[command]]; the index is below 16. *)
Definition command_handler (junk : dbi) (junk_len command : Z) : option command_handler_t :=
  default None (_commands junk junk_len !! Z.to_nat command).

(** One turn of the request loop; [false] leaves it. *)
Definition process_request (junk : dbi) (junk_len : Z) : CM conn bool :=
  let! r := connection_read_data 1 in
  if negb (r =? YENOERR) then cret false
  else
    let! byte := forward_bytes 1 in
    let request := be_val byte in
    let command := REQUEST_COMMAND request in
    let! c := cget in
    let sync := bool_decide (is_Some (transaction (c_thread c))) ||
                cbool (REQUEST_HAS_SYNC request) in
    let compress := cbool (REQUEST_HAS_COMPRESSED request) in
    let serialized := cbool (REQUEST_HAS_SERIALIZED request) in
    match command_handler junk junk_len command with
    | Some func =>
        let! r := func sync compress serialized in
        cret (r =? YENOERR)
    | None =>
        do! CONNECTION_SEND_ERROR RESP_ERR_PROTOCOL in
        cret false
    end.

Fixpoint request_loop (fuel : nat) (junk : dbi) (junk_len : Z) : CM conn unit :=
  match fuel with
  | O => cfault OutOfFuel
  | S fuel =>
      let! continue := process_request junk junk_len in
      if (continue : bool) then request_loop fuel junk junk_len else cret tt
  end.

(** What a connection thread does with a descriptor it received: a new
    buffer, the requests, the end of the connection. *)
Definition handle_connection (fuel : nat) (f : Z) (junk : dbi) (junk_len : Z) : CM conn unit :=
  do! modify_thread (fun t => {| fd := f; dbname := dbname t; transaction := transaction t |}) in
  if f <? 0 then cret tt
  else
    let! buff := on_alloc (ydynabin_new None 0 false) in
    match buff with
    | None => cfault NullDeref
    | Some b =>
        do! (fun c => Done (tt, set_buff b c)) in
        do! request_loop fuel junk junk_len in
        do! connection_thread_disconnect in
        fun c => Done (tt, set_buff yd_empty c)
    end.
End dispatch.

(** ** The writer thread *)
Definition writer_step (msg : writer_msg_t) : CM MDB_env unit :=
  match wm_type msg with
  | WRITE_PUT =>
      do! database_put None (wm_create_only msg) (wm_dbname msg) (wm_name msg) (wm_data msg) in
      cret tt
  | WRITE_DEL => do! database_del None (wm_dbname msg) (wm_name msg) in cret tt
  | WRITE_DROP => cret tt
  end.
(** The loop, over the results of [nn_recv]: [None] is an error. *)
Fixpoint writer_loop (recvs : list (option writer_msg_t)) : CM MDB_env unit :=
  match recvs with
  | [] => cret tt
  | None :: recvs => writer_loop recvs
  | Some msg :: recvs => do! writer_step msg in writer_loop recvs
  end.

(** ** The listening socket and the main loop *)
Definition server_create_listening_socket (sock bind listen : Z) : yerr_t * Z :=
  if sock <? 0 then (YEIO, sock)
  else if bind <? 0 then (YEBADF, sock)
  else if negb (listen =? 0) then (YEBADF, sock)
  else (YENOERR, sock).

(** Each turn: the result of [accept] and of the [nn_send] of the descriptor.
    The loop ends when the run flag is cleared, after the last turn; the
    result is the content of the pipe and the closed descriptors. *)
Fixpoint server_loop (turns : list (Z * Z)) (sock : Z) (pipe : list Z) : list Z * list Z :=
  match turns with
  | [] => (pipe, [sock])
  | (f, nn) :: turns =>
      if f <? 0 then server_loop turns sock pipe
      else server_loop turns sock (connection_thread_push_socket nn f pipe)
  end.

(** ** Paths *)
Definition slash : Z := 47.
(** The bytes before the last slash, if there is one ([strrchr]). *)
Fixpoint before_last_slash (p : bytes) : option bytes :=
  match p with
  | [] => None
  | b :: p =>
      match before_last_slash p with
      | Some q => Some (b :: q)
      | None => if b =? slash then Some [] else None
      end
  end.
Definition get_self_path (realpath : option bytes) : option bytes :=
  match realpath with
  | None => None
  | Some path => Some (default path (before_last_slash path))
  end.
(** "../var/database" *)
Definition DEFAULT_DB_PATH : bytes :=
  [46; 46; 47; 118; 97; 114; 47; 100; 97; 116; 97; 98; 97; 115; 101].
Definition database_path (db_path realpath : option bytes) : CM alloc bytes :=
  match db_path with
  | Some p => cret p
  | None =>
      match get_self_path realpath with
      | None => cfault NullDeref
      | Some base =>
          let! blk := ymalloc (lenZ base + lenZ DEFAULT_DB_PATH + 2) in
          match blk with
          | None => cfault NullDeref
          | Some _ => cret (base ++ [slash] ++ DEFAULT_DB_PATH)
          end
      end
  end.

(** ** Start-up *)

(** [threads] are the [tcp_thread_t] objects of the running threads; the
    address of the one at position [i] is [thread_addr i].  [tcp_threads] is the
    vector of their addresses. *)
Definition thread_addr (i : Z) : Z := i + 1.
Record finedb_t := {
  run : bool;
  database : MDB_env;
  socket : Z;
  threads_socket : Z;
  tcp_threads : option yvect;
  threads : list tcp_thread_t;
  timeout : Z
}.
Inductive start_result := Exit (code : Z) | Started (f : finedb_t).

(** What the system answers during start-up. *)
Record startup := {
  st_realpath : option bytes;          (* realpath("/proc/self/exe") *)
  st_files : bytes -> gmap bytes node; (* the database stored in a directory *)
  st_lmdb : list Z;                    (* results of LMDB *)
  st_nn : Z;                           (* nn_socket *)
  st_nn_bind : Z;
  st_writer : Z;                       (* pthread_create of the writer *)
  st_threads : list Z;                 (* pthread_create of the connection threads *)
  st_sock : Z;
  st_bind : Z;
  st_listen : Z
}.

Fixpoint create_threads (n : nat) (tids : list Z) (ts : list tcp_thread_t) (v : option yvect)
    : CM alloc (list tcp_thread_t * option yvect) :=
  match n with
  | O => cret (ts, v)
  | S n =>
      let '(tid, tids) := script_next 0 tids in
      let! thread := connection_thread_new tid in
      match thread with
      | None => create_threads n tids ts v
      | Some t =>
          let! '(_, v) := yv_add v (thread_addr (lenZ ts)) in
          create_threads n tids (ts ++ [t]) v
      end
  end.

Definition finedb_init (db_path : option bytes) (nbr_threads nbr_dbs tmout : Z) (s : startup)
    : CM alloc start_result :=
  let! blk := ymalloc 56 in
  match blk with
  | None => cfault NullDeref
  | Some _ =>
      let! vect := yv_create YVECT_SIZE_MEDIUM in
      let! path := database_path db_path (st_realpath s) in
      match database_open (st_files s path) (st_lmdb s) nbr_threads nbr_dbs with
      | None => cret (Exit 1)
      | Some env =>
          if (st_nn s <? 0) || (st_nn_bind s <? 0) then cret (Exit 2)
          else if negb (st_writer s =? 0) then cret (Exit 3)
          else
            let! '(ts, vect) := create_threads (Z.to_nat nbr_threads) (st_threads s) [] vect in
            let '(rc, sock) := server_create_listening_socket (st_sock s) (st_bind s)
                                 (st_listen s) in
            if negb (rc =? YENOERR) then cret (Exit 4)
            else cret (Started {| run := true; database := env; socket := sock;
                                  threads_socket := st_nn s; tcp_threads := vect;
                                  threads := ts; timeout := tmout |})
      end
  end.

(** The run of the server: what the main thread leaves in the pipe of the
    connection threads, and the descriptors it closes. *)
Definition finedb_start (turns : list (Z * Z)) (f : finedb_t) : list Z * list Z :=
  server_loop turns (socket f) [].

(** ** Command line *)
Definition DEFAULT_NBR_THREADS : Z := 15.
Definition DEFAULT_PORT : Z := 11138.
Definition DEFAULT_MAPSIZE : Z := 10485760.
Definition DEFAULT_TIMEOUT : Z := 30.

Record config := {
  cf_nbr_dbs : Z;
  cf_mapsize : Z;
  cf_nbr_threads : Z;
  cf_port : Z;
  cf_timeout : Z;
  cf_db_path : option bytes;
  cf_debug : bool
}.
Definition default_config : config :=
  {| cf_nbr_dbs := 1; cf_mapsize := DEFAULT_MAPSIZE; cf_nbr_threads := DEFAULT_NBR_THREADS;
     cf_port := DEFAULT_PORT; cf_timeout := DEFAULT_TIMEOUT; cf_db_path := None;
     cf_debug := false |}.

(** One turn of the [getopt] loop; [None] when the option ends the program. *)
Definition main_option (i : Z) (optarg : bytes) (c : config) : option config :=
  let mk dbs map thr port tmo path dbg :=
    Some {| cf_nbr_dbs := dbs; cf_mapsize := map; cf_nbr_threads := thr; cf_port := port;
            cf_timeout := tmo; cf_db_path := path; cf_debug := dbg |} in
  let '(dbs, map, thr) := (cf_nbr_dbs c, cf_mapsize c, cf_nbr_threads c) in
  let '(port, tmo, path, dbg) := (cf_port c, cf_timeout c, cf_db_path c, cf_debug c) in
  if i =? 116 (* t *) then mk dbs map (u16 (atoi optarg)) port tmo path dbg
  else if i =? 110 (* n *) then mk (u32 (atoi optarg)) map thr port tmo path dbg
  else if i =? 115 (* s *) then mk dbs (u64 (atoi optarg)) thr port tmo path dbg
  else if i =? 112 (* p *) then mk dbs map thr (u16 (atoi optarg)) tmo path dbg
  else if i =? 102 (* f *) then mk dbs map thr port tmo (Some optarg) dbg
  else if i =? 105 (* i *) then mk dbs map thr port (u16 (atoi optarg)) path dbg
  else if i =? 100 (* d *) then mk dbs map thr port tmo path true
  else if i =? 104 (* h *) then None
  else Some c.
Fixpoint main_options (opts : list (Z * bytes)) (c : config) : option config :=
  match opts with
  | [] => Some c
  | (i, optarg) :: opts =>
      match main_option i optarg c with
      | None => None
      | Some c => main_options opts c
      end
  end.
Inductive main_result :=
  | MainExit (code : Z)
  | MainReturn (f : finedb_t) (pipe closed : list Z).
Definition main (opts : list (Z * bytes)) (turns : list (Z * Z)) (s : startup)
    : CM alloc main_result :=
  match main_options opts default_config with
  | None => cret (MainExit 0)
  | Some c =>
      let! r := finedb_init (cf_db_path c) (cf_nbr_threads c) (cf_nbr_dbs c) (cf_timeout c) s in
      match r with
      | Exit code => cret (MainExit code)
      | Started f =>
          let '(pipe, closed) := finedb_start turns f in cret (MainReturn f pipe closed)
      end
  end.
