(* ===== verification/Session.v ===== *)
(** * Session: the server code refines the abstract service

    [env_rel] and [sess_rel] relate the concrete state of a connection to the
    state of Spec; every request handler is shown to answer as [spec_step]
    says and to keep the relation, and the request loop as [spec_session]
    says.  The relation covers sessions on the default database. *)
From S2P Require Import Prelude Protocol Dynabin Lmdb Database Connection Compressor Spec Commands Server.

(** ** The environment *)

(** No record of a named database. *)
Definition all_data (m : gmap bytes node) : Prop := forall key, plain_key m key.

Record env_rel (e : MDB_env) (tr : option nat) (db : gmap bytes bytes)
    (snap : option (gmap bytes bytes)) : Prop := {
  er_quiet : env_quiet e;
  er_script : me_script e = [];
  er_data : all_data (me_main e);
  er_db : kv e = db;
  er_txn : match tr with
           | None => snap = None /\ (readers e < me_maxreaders e)%nat
           | Some t => exists txn, me_live e !! t = Some txn /\ all_data (mt_main txn) /\
                         snap = Some (kv_of (mt_main txn)) /\
                         (readers e <= me_maxreaders e)%nat
           end
}.

(** The environment without its transactions. *)
Record shared_rel (e : MDB_env) (db : gmap bytes bytes) : Prop := {
  sh_quiet : env_quiet e;
  sh_script : me_script e = [];
  sh_data : all_data (me_main e);
  sh_db : kv e = db
}.
(** What an operation of a connection whose transaction goes from [tr] to
    [tr'] does to the set of live transactions: those of the other connections
    stay as they are, and a transaction it opens is a new one. *)
Definition without (tr : option nat) (m : gmap nat MDB_txn) : gmap nat MDB_txn :=
  match tr with Some t => delete t m | None => m end.
Record live_frame (tr tr' : option nat) (e e' : MDB_env) : Prop := {
  lf_max : me_maxreaders e' = me_maxreaders e;
  lf_others : without tr' (me_live e') = without tr (me_live e);
  lf_own : forall t, tr' = Some t -> without tr (me_live e) !! t = None
}.
Lemma live_frame_same tr e e' :
  me_maxreaders e' = me_maxreaders e -> me_live e' = me_live e -> live_frame tr tr e e'.
Proof.
  intros Hm Hl. split; [done|by rewrite Hl|]. intros t ->. apply lookup_delete_eq.
Qed.
Lemma live_frame_refl tr e : live_frame tr tr e e.
Proof. by apply live_frame_same. Qed.
Lemma live_frame_after tr s e : live_frame tr tr e (after_txn s e).
Proof. by apply live_frame_same. Qed.
Lemma live_frame_trans a b c e1 e2 e3 :
  live_frame a b e1 e2 -> live_frame b c e2 e3 -> live_frame a c e1 e3.
Proof.
  intros [Hm1 Ho1 _] [Hm2 Ho2 Hn2]. split; [congruence|congruence|].
  rewrite <- Ho1. exact Hn2.
Qed.
Lemma live_frame_other tr tr' e e' t x :
  live_frame tr tr' e e' -> tr <> Some t -> me_live e !! t = Some x -> me_live e' !! t = Some x.
Proof.
  intros [_ Ho Hn] Ht Hx.
  assert (Hw : without tr' (me_live e') !! t = Some x).
  { rewrite Ho. destruct tr; simpl; [|done]. by rewrite lookup_delete_ne by congruence. }
  destruct tr' as [t'|]; [|done]. simpl in Hw. by apply lookup_delete_Some in Hw as [_ Hw].
Qed.
#[export] Hint Resolve live_frame_refl live_frame_after : finedb.

Lemma all_data_insert m key d : all_data m -> all_data (<[key := NData d]> m).
Proof.
  intros H k sub. rewrite lookup_insert. case_decide; [done|apply H].
Qed.
Lemma all_data_delete m key : all_data m -> all_data (delete key m).
Proof.
  intros H k sub. rewrite lookup_delete. case_decide; [done|apply H].
Qed.
#[export] Hint Resolve all_data_insert all_data_delete : finedb.

Lemma key_ok_not_bad key : key_ok key -> key_bad key = false.
Proof.
  intros [_ Hk]. unfold key_bad, MDB_MAXKEYSIZE. apply orb_false_iff.
  split; [apply Z.eqb_neq|apply Z.ltb_ge]; lia.
Qed.
Lemma key_ok_short key : key_ok key -> lenZ key < 2 ^ 16.
Proof. intros [_ ?]. lia. Qed.
#[export] Hint Resolve key_ok_not_bad key_ok_short : finedb.

Lemma env_rel_after e tr db snap :
  env_rel e tr db snap -> env_rel (after_txn [] e) tr db snap.
Proof. intros [Hq Hs Hd Hk Ht]. constructor; auto with finedb. Qed.

Lemma env_get e tr db snap key junk :
  env_rel e tr db snap -> key_ok key ->
  exists e', database_get tr None key junk e = Done (get_answer (default db snap !! key), e') /\
    env_rel e' tr db snap /\ live_frame tr tr e e'.
Proof.
  intros HR Hk. pose proof HR as [Hq Hs Hd Hkv Ht]. destruct tr as [t|].
  - destruct Ht as (txn & Hl & Hda & -> & Hr). exists e.
    rewrite (database_get_snapshot e t txn) by auto with finedb. simpl. auto with finedb.
  - destruct Ht as [-> Hr]. exists (after_txn [] e).
    rewrite (database_get_main e key junk []) by (auto with finedb; by rewrite Hs).
    simpl. rewrite Hkv. auto using env_rel_after with finedb.
Qed.

Lemma shared_main e db m :
  shared_rel e db -> all_data m -> shared_rel (env_set_main m (after_txn [] e)) (kv_of m).
Proof. intros [Hq Hs Hd Hk] Hm. constructor; auto with finedb. Qed.
Lemma shared_put e db key v :
  shared_rel e db -> key_ok key -> lenZ v <= MAXDATASIZE ->
  exists e', database_put None false None key v e = Done (YENOERR, e') /\
    shared_rel e' (<[key := v]> db) /\ me_live e' = me_live e /\ me_maxreaders e' = me_maxreaders e.
Proof.
  intros HR Hk Hv. pose proof HR as [Hq Hs Hd Hkv].
  exists (env_set_main (<[key := NData v]> (me_main e)) (after_txn [] e)).
  rewrite database_put_main by auto with finedb. rewrite Hs. cbn -[env_set_main].
  split; [done|]. split; [|done].
  rewrite <- Hkv. unfold kv. rewrite <- kv_of_insert. eapply shared_main; eauto with finedb.
Qed.
Lemma shared_del e db key :
  shared_rel e db -> key_ok key ->
  exists e', database_del None None key e =
      Done (if bool_decide (is_Some (db !! key)) then YENOERR else YEACCESS, e') /\
    shared_rel e' (delete key db) /\ me_live e' = me_live e /\ me_maxreaders e' = me_maxreaders e.
Proof.
  intros HR Hk. pose proof HR as [Hq Hs Hd Hkv].
  rewrite database_del_main by auto with finedb. rewrite Hs, Hkv. cbn -[env_set_main].
  destruct (db !! key) eqn:E.
  - exists (env_set_main (delete key (me_main e)) (after_txn [] e)).
    split; [done|]. split; [|done].
    rewrite <- Hkv. unfold kv. rewrite <- kv_of_delete. eapply shared_main; eauto with finedb.
  - exists (after_txn [] e). split; [done|].
    rewrite delete_id by done. split; [|done]. constructor; auto with finedb.
Qed.

Lemma env_rel_shared e tr db snap : env_rel e tr db snap -> shared_rel e db.
Proof. by intros [????]. Qed.
Lemma env_rel_update e e' db db' :
  env_rel e None db None -> shared_rel e' db' -> me_live e' = me_live e ->
  me_maxreaders e' = me_maxreaders e -> env_rel e' None db' None.
Proof.
  intros [_ _ _ _ [_ Ht]] [????] Hl Hm. constructor; try done. split; [done|].
  unfold readers in *. by rewrite Hl, Hm.
Qed.
Lemma env_put e db key v :
  env_rel e None db None -> key_ok key -> lenZ v <= MAXDATASIZE ->
  exists e', database_put None false None key v e = Done (YENOERR, e') /\
    env_rel e' None (<[key := v]> db) None /\ live_frame None None e e'.
Proof.
  intros HR Hk Hv.
  destruct (shared_put e db key v (env_rel_shared _ _ _ _ HR) Hk Hv) as (e' & Hp & Hs & Hl & Hm).
  exists e'. split; [done|]. eauto using env_rel_update, live_frame_same.
Qed.
Lemma env_del e db key :
  env_rel e None db None -> key_ok key ->
  exists e', database_del None None key e =
      Done (if bool_decide (is_Some (db !! key)) then YENOERR else YEACCESS, e') /\
    env_rel e' None (delete key db) None /\ live_frame None None e e'.
Proof.
  intros HR Hk.
  destruct (shared_del e db key (env_rel_shared _ _ _ _ HR) Hk) as (e' & Hp & Hs & Hl & Hm).
  exists e'. split; [done|]. eauto using env_rel_update, live_frame_same.
Qed.

(** Writes inside a transaction are refused and change nothing. *)
Lemma env_write_txn e t db snap key v :
  env_rel e (Some t) db snap ->
  database_put (Some t) false None key v e = Done (YEACCESS, e) /\
  database_del (Some t) None key e = Done (YEACCESS, e).
Proof.
  intros [Hq Hs Hd Hkv (txn & Hl & _)].
  split; [by eapply database_put_snapshot|by eapply database_del_snapshot].
Qed.

(** ** Transactions *)
Lemma readers_delete (m : gmap nat MDB_txn) t txn :
  m !! t = Some txn -> mt_rdonly txn = true ->
  size (filter (fun p : nat * MDB_txn => mt_rdonly p.2 = true) m) =
  S (size (filter (fun p : nat * MDB_txn => mt_rdonly p.2 = true) (delete t m))).
Proof.
  intros Hl Hr. rewrite <- (insert_delete_id m t txn Hl) at 1.
  rewrite map_filter_insert_True by done. apply map_size_insert_None.
  apply map_lookup_filter_None_2. left. apply lookup_delete_eq.
Qed.

Lemma env_rollback e t db snap :
  env_rel e (Some t) db snap ->
  exists e', database_transaction_rollback t e = Done (tt, e') /\
    env_rel e' None db None /\ live_frame (Some t) None e e'.
Proof.
  intros [Hq Hs Hd Hkv (txn & Hl & Hda & _ & Hr)].
  pose proof Hq as [Hw Hh Hn Hf Hro Hsn]. pose proof (Hro _ _ Hl) as Hrd.
  unfold database_transaction_rollback, mdb_txn_abort, cbind, txn_load. rewrite Hl.
  eexists. split; [done|]. unfold mdb_txn_reset0. rewrite Hrd.
  split; [|by split].
  constructor; simpl; try done.
  - constructor; simpl; try done.
    + rewrite Hh. apply map_filter_empty.
    + intros t' Ht'. rewrite lookup_delete. case_decide; [done|]. by apply Hf.
    + intros t' x. rewrite lookup_delete. case_decide; [done|]. apply Hro.
    + intros t' x. rewrite lookup_delete. case_decide; [done|]. apply Hsn.
  - split; [done|]. unfold readers in *. simpl.
    rewrite (readers_delete _ t txn Hl Hrd) in Hr. lia.
Qed.

Lemma env_begin e db :
  env_rel e None db None ->
  exists e' t, database_transaction_start true e = Done (Some t, e') /\
    env_rel e' (Some t) db (Some db) /\ live_frame None (Some t) e e'.
Proof.
  intros [Hq Hs Hd Hkv [_ Hr]].
  pose proof Hq as [Hw Hh Hn Hf Hro Hsn].
  unfold database_transaction_start, cbind. rewrite (begin_read e []) by (done || by rewrite Hs).
  cbn [negb Z.eqb MDB_SUCCESS cret]. exists (during [] (mdb_txn_renew0 true e) e), (me_next e).
  split; [done|]. split.
  2: { pose proof (Hf _ (le_n _)) as Hfresh. split; [done|by apply delete_insert_id|].
       by intros t [= <-]. }
  constructor; try done.
  - by apply (leak_quiet e).
  - exists (mdb_txn_renew0 true e). split; [apply lookup_insert_eq|]. split; [done|].
    split; [by rewrite <- Hkv|].
    unfold readers. simpl. rewrite (readers_insert e (mdb_txn_renew0 true e) Hq eq_refl). lia.
Qed.

(** ** Connections *)
Definition msg_of (p : pending) : writer_msg_t :=
  match p with
  | PendPut key v => {| wm_type := WRITE_PUT; wm_dbname := None; wm_name := key;
                        wm_data := v; wm_create_only := false |}
  | PendDel key => {| wm_type := WRITE_DEL; wm_dbname := None; wm_name := key;
                      wm_data := []; wm_create_only := false |}
  end.

(** A pending write LMDB can carry out. *)
Definition pend_ok (p : pending) : Prop :=
  match p with
  | PendPut key v => key_ok key /\ lenZ v <= MAXDATASIZE
  | PendDel key => key_ok key
  end.

Record sess_rel (c : conn) (s : spec_state) : Prop := {
  sr_ok : conn_ok c;
  sr_env : env_rel (c_env c) (transaction (c_thread c)) (s_db s) (s_snap s);
  sr_dbname : dbname (c_thread c) = None;
  sr_queue : c_queue c = msg_of <$> s_queue s;
  sr_pend : Forall pend_ok (s_queue s)
}.

(** What a handler's [finish] gives for the relation. *)
Lemma finish_rel c s b tr e out q db snap :
  sess_rel c s -> yd_wf b -> env_rel e tr db snap -> Forall pend_ok q ->
  sess_rel (finish b (set_transaction tr (c_thread c)) e out (msg_of <$> q) c)
    {| s_db := db; s_snap := snap; s_queue := s_queue s ++ q |}.
Proof.
  intros [[????] He Hd Hq Hp] Hb He' Hpq. constructor; simpl; try done.
  - by rewrite Hq, fmap_app.
  - by apply Forall_app.
Qed.
Lemma set_transaction_same th : set_transaction (transaction th) th = th.
Proof. by destruct th. Qed.

(** The result of one request. *)
Definition step_result (c : conn) (out : bytes) (rest : bytes) (s' : spec_state)
    (c' : conn) : Prop :=
  sess_rel c' s' /\ c_out c' = c_out c ++ out /\ yd_content (c_buff c') = rest /\
  c_rx c' = c_rx c /\
  live_frame (transaction (c_thread c)) (transaction (c_thread c')) (c_env c) (c_env c').

Lemma replies_result code out tr e q rest c s db snap o :
  sess_rel c s -> env_rel e tr db snap -> live_frame (transaction (c_thread c)) tr (c_env c) e ->
  Forall pend_ok q ->
  replies code out (set_transaction tr (c_thread c)) e (msg_of <$> q) rest c o ->
  exists c', o = Done (code, c') /\
    step_result c out rest {| s_db := db; s_snap := snap; s_queue := s_queue s ++ q |} c'.
Proof.
  intros HR He Hf Hpq (b & -> & Hw & Hb). eexists. split; [done|].
  split; [by apply finish_rel|]. done.
Qed.

Section refinement.
Context `{HS : Snappy} {HL : SnappyLaws HS}.

Lemma spec_eta s : {| s_db := s_db s; s_snap := s_snap s; s_queue := s_queue s ++ [] |} = s.
Proof. destruct s. by rewrite app_nil_r. Qed.

Lemma refine_get c s key comp ser junk jl sync rest v out s' :
  sess_rel c s -> key_ok key -> yd_content (c_buff c) = encode_body (RGet key comp ser) ++ rest ->
  spec_step (RGet key comp ser) s = Some (out, v, s') ->
  exists c', command_get junk jl sync comp ser c = Done (YENOERR, c') /\
    step_result c out rest s' c' /\ v = true.
Proof.
  intros HR Hk Hc Hs. pose proof HR as [Hok He Hdb Hq Hpe]. cbn [encode_body] in Hc. rewrite <- !app_assoc in Hc.
  destruct (env_get _ _ _ _ key junk He Hk) as (e' & Hget & He' & Hf). rewrite <- Hdb in Hget at 1.
  pose proof (command_get_spec key rest junk jl comp ser sync c _ e' Hok (key_ok_short _ Hk) Hc Hget)
    as Hcmd. cbn [spec_step] in Hs. fold (s_view s) in Hcmd.
  destruct (s_view s !! key) as [d|].
  - destruct (fetched comp d) as [u|] eqn:Ef; [|done]. injection Hs as <- <- <-.
    specialize (Hcmd u eq_refl). rewrite <- (set_transaction_same (c_thread c)) in Hcmd at 1.
    destruct (replies_result _ _ _ _ [] _ _ s _ _ _ HR He' Hf (Forall_nil_2 _) Hcmd) as (c' & -> & Hres).
    rewrite spec_eta in Hres. eauto.
  - injection Hs as <- <- <-. rewrite <- (set_transaction_same (c_thread c)) in Hcmd at 1.
    destruct (replies_result _ _ _ _ [] _ _ s _ _ _ HR He' Hf (Forall_nil_2 _) Hcmd) as (c' & -> & Hres).
    rewrite spec_eta in Hres. eauto.
Qed.

(** Inside a transaction the state has a snapshot, outside it has none. *)
Lemma env_rel_snap e tr db snap :
  env_rel e tr db snap -> is_Some tr <-> is_Some snap.
Proof.
  intros [_ _ _ _ Ht]. destruct tr as [t|].
  - destruct Ht as (txn & _ & _ & -> & _). split; eauto.
  - destruct Ht as [-> _]. done.
Qed.

Lemma stored_bound comp data v :
  data_ok data -> stored comp data = Some v -> lenZ v <= MAXDATASIZE.
Proof.
  intros [Hb Hd] Hs. unfold stored, MAXDATASIZE in *.
  destruct comp; [injection Hs as ->; lia|].
  destruct (snappy_roundtrip data Hb Hd) as (z & Hz & _ & Hl & _). rewrite Hz in Hs.
  injection Hs as ->. pose proof (snappy_max_bound (lenZ data)). lens.
Qed.

(** The part of a write that does not depend on the operation: [msg] is the
    pending write, [ok] whether the operation succeeds outside of a
    transaction. *)
Lemma refine_write c s p (ok sync : bool) out v s' o rest :
  sess_rel c s -> pend_ok p ->
  (forall t, transaction (c_thread c) = Some t ->
     replies YENOERR [response_code RESP_ERR_BAD_NAME] (c_thread c) (c_env c) [] rest c o) ->
  (transaction (c_thread c) = None -> sync = true ->
     exists e', env_rel e' None (if ok then apply_pending p (s_db s) else s_db s) None /\
       live_frame None None (c_env c) e' /\
       replies YENOERR [response_code (if ok then RESP_OK else RESP_ERR_BAD_NAME)]
         (c_thread c) e' [] rest c o) ->
  (transaction (c_thread c) = None -> sync = false ->
     replies YENOERR [response_code RESP_OK] (c_thread c) (c_env c) [msg_of p] rest c o) ->
  (let '(code, s) := spec_write p ok sync s in Some ([response_code code], true, s)) =
    Some (out, v, s') ->
  exists c', o = Done (YENOERR, c') /\ step_result c out rest s' c' /\ v = true.
Proof.
  intros HR Hpok Htx Hsync Hasync Hs. pose proof HR as [Hok He Hdb Hq Hpe].
  rewrite <- (set_transaction_same (c_thread c)) in Htx, Hsync, Hasync at 2.
  pose proof (env_rel_snap _ _ _ _ He) as Hsn. unfold spec_write in Hs.
  destruct (transaction (c_thread c)) as [t|] eqn:Et.
  - destruct (s_snap s) as [m|] eqn:Em; [|by destruct (proj1 Hsn ltac:(eauto))].
    injection Hs as <- <- <-. specialize (Htx t eq_refl).
    destruct (replies_result _ _ (Some t) _ [] _ _ s _ _ _ HR He ltac:(rewrite Et; auto with finedb) (Forall_nil_2 _) Htx)
      as (c' & -> & Hres).
    rewrite <- Em, spec_eta in Hres. eauto.
  - destruct (s_snap s) as [m|] eqn:Em; [by destruct (proj2 Hsn ltac:(eauto))|].
    destruct sync; cbn [negb] in Hs.
    + destruct (Hsync eq_refl eq_refl) as (e' & He' & Hf & Hr).
      destruct (replies_result _ _ None _ [] _ _ s _ _ _ HR He' ltac:(by rewrite Et) (Forall_nil_2 _) Hr)
        as (c' & -> & Hres).
      exists c'. rewrite app_nil_r in Hres.
      destruct ok; injection Hs as <- <- <-; [done|].
      destruct s; simpl in *; subst. done.
    + injection Hs as <- <- <-. specialize (Hasync eq_refl eq_refl).
      destruct (replies_result _ _ None _ [p] _ _ s _ _ _ HR He ltac:(rewrite Et; auto with finedb) ltac:(auto) Hasync)
        as (c' & -> & Hres). eauto.
Qed.

Lemma refine_put c s key data sync comp ser junk rest v out s' :
  sess_rel c s -> key_ok key -> data_ok data ->
  yd_content (c_buff c) = encode_body (RPut key data sync comp) ++ rest ->
  spec_step (RPut key data sync comp) s = Some (out, v, s') ->
  exists c', command_put junk (bool_decide (is_Some (transaction (c_thread c))) || sync) comp ser c
               = Done (YENOERR, c') /\
    step_result c out rest s' c' /\ v = true.
Proof.
  intros HR Hk Hd Hc Hs. pose proof HR as [Hok He Hdb Hq Hpe].
  cbn [encode_body] in Hc. rewrite <- !app_assoc in Hc.
  cbn [spec_step] in Hs. destruct (stored comp data) as [z|] eqn:Ez; [|done].
  pose proof (stored_bound comp data z Hd Ez) as Hz. pose proof (key_ok_short _ Hk) as Hk'.
  eapply (refine_write c s (PendPut key z)); [done|by split| | | |done].
  - intros t Et. rewrite Et in He |- *. simpl.
    eapply (command_put_sync key data z rest comp ser junk c YEACCESS); eauto.
    rewrite Et, Hdb. apply (env_write_txn _ t _ _ key z He).
  - intros Et ->. rewrite Et in *. simpl. destruct (s_snap s) as [m|] eqn:Em.
    { by destruct (proj2 (env_rel_snap _ _ _ _ He) ltac:(eauto)). }
    destruct (env_put _ _ key z He Hk Hz) as (e' & Hp & He' & Hf). exists e'.
    split; [done|]. split; [done|].
    eapply (command_put_sync key data z rest comp ser junk c YENOERR); eauto. by rewrite Et, Hdb.
  - intros Et ->. rewrite Et. simpl. by eapply command_put_async.
Qed.

Lemma refine_del c s key sync comp ser rest v out s' :
  sess_rel c s -> key_ok key ->
  yd_content (c_buff c) = encode_body (RDel key sync) ++ rest ->
  spec_step (RDel key sync) s = Some (out, v, s') ->
  exists c', command_del (bool_decide (is_Some (transaction (c_thread c))) || sync) comp ser c
               = Done (YENOERR, c') /\
    step_result c out rest s' c' /\ v = true.
Proof.
  intros HR Hk Hc Hs. pose proof HR as [Hok He Hdb Hq Hpe].
  cbn [encode_body] in Hc. rewrite <- !app_assoc in Hc. pose proof (key_ok_short _ Hk) as Hk'.
  eapply (refine_write c s (PendDel key)); [done|done| | | |done].
  - intros t Et. rewrite Et in He |- *. simpl.
    eapply (command_del_sync key rest comp ser c YEACCESS); eauto.
    rewrite Et, Hdb. apply (env_write_txn _ t _ _ key [] He).
  - intros Et ->. rewrite Et in *. simpl. destruct (s_snap s) as [m|] eqn:Em.
    { by destruct (proj2 (env_rel_snap _ _ _ _ He) ltac:(eauto)). }
    destruct (env_del _ _ key He Hk) as (e' & Hp & He' & Hf). exists e'.
    split; [|split; [done|]].
    + case_bool_decide as Hx; [done|]. rewrite delete_id in He'; [done|].
      by apply eq_None_not_Some.
    + pose proof (command_del_sync key rest comp ser c _ e' Hok Hk' Hc ltac:(rewrite Et, Hdb; exact Hp)) as Hr.
      by case_bool_decide.
  - intros Et ->. rewrite Et. simpl. by apply command_del_async.
Qed.

(** Requests without a body. *)
Lemma code_replies code c th e rest :
  conn_ok c -> yd_content (c_buff c) = rest ->
  replies YENOERR [response_code code] th e [] rest c
    (connection_send_response code false false None 0 (set_thread th (set_env e c))).
Proof.
  intros Hok Hc. rewrite send_code_ok by apply Hok.
  exists (c_buff c). split; [|by destruct Hok].
  match goal with |- _ = Done (?r, _) => apply (f_equal (fun x => Done (r, x))) end.
  eapply finish_eq; try done; simpl; by rewrite ?app_nil_r.
Qed.
Lemma code_then code c th e rest r :
  conn_ok c -> yd_content (c_buff c) = rest ->
  replies r [response_code code] th e [] rest c
    ((do! connection_send_response code false false None 0 in cret r) (set_thread th (set_env e c))).
Proof.
  intros Hok Hc. destruct (code_replies code c th e rest Hok Hc) as (b & Hr & Hb).
  exists b. cstep Hr. done.
Qed.

Lemma refine_ping c s sync comp ser rest :
  sess_rel c s -> yd_content (c_buff c) = rest ->
  exists c', command_ping sync comp ser c = Done (YENOERR, c') /\
    step_result c [response_code RESP_OK] rest s c'.
Proof.
  intros HR Hc. pose proof HR as [Hok He Hdb Hq Hpe].
  pose proof (code_replies RESP_OK c (c_thread c) (c_env c) rest Hok Hc) as Hr.
  rewrite <- (set_transaction_same (c_thread c)) in Hr at 1.
  destruct (replies_result _ _ _ _ [] _ _ s _ _ _ HR He ltac:(auto with finedb) (Forall_nil_2 _) Hr) as (c' & Hp & Hres).
  rewrite spec_eta in Hres. exists c'. split; [|done]. rewrite <- Hp. by destruct c.
Qed.

Lemma refine_start c s sync comp ser rest :
  sess_rel c s -> yd_content (c_buff c) = rest ->
  exists c', command_start sync comp ser c = Done (YENOERR, c') /\
    step_result c [response_code RESP_OK] rest
      {| s_db := s_db s; s_snap := Some (s_db s); s_queue := s_queue s |} c'.
Proof.
  intros HR Hc. pose proof HR as [Hok He Hdb Hq Hpe].
  assert (H0 : exists e0, (match transaction (c_thread c) with
                           | Some t => on_env (database_transaction_rollback t)
                           | None => cret tt
                           end) c = Done (tt, set_env e0 c) /\
               env_rel e0 None (s_db s) None /\ live_frame (transaction (c_thread c)) None (c_env c) e0).
  { destruct (transaction (c_thread c)) as [t|] eqn:Et.
    - destruct (env_rollback _ t _ _ He) as (e0 & Hr & He0 & Hf). exists e0.
      unfold on_env. by rewrite Hr.
    - exists (c_env c). split; [by destruct c|]. split; [|auto with finedb].
      pose proof He as [_ _ _ _ [Hn _]]. by rewrite Hn in He. }
  destruct H0 as (e0 & Hr & He0 & Hf0).
  destruct (env_begin e0 _ He0) as (e1 & t & Hb & He1 & Hf1).
  unfold command_start. unfold cget, cbind at 1. cstep Hr.
  assert (Hb' : on_env (database_transaction_start true) (set_env e0 c) =
                Done (Some t, set_env e1 c)).
  { unfold on_env. cbn [set_env c_env]. by rewrite Hb. }
  cstep Hb'. unfold modify_thread, cbind at 1.
  pose proof (code_then RESP_OK c (set_transaction (Some t) (c_thread c)) e1 rest YENOERR Hok Hc)
    as Hrep.
  eapply (replies_result _ _ (Some t) _ [] _ _ s) in Hrep; [|done|exact He1| |done].
  2: { by eapply live_frame_trans. }
  rewrite app_nil_r in Hrep. exact Hrep.
Qed.

Lemma refine_stop c s sync comp ser rest out v s' :
  sess_rel c s -> yd_content (c_buff c) = rest -> spec_step RStop s = Some (out, v, s') ->
  exists c' code, command_stop sync comp ser c = Done (code, c') /\
    step_result c out rest s' c' /\ v = (code =? YENOERR).
Proof.
  intros HR Hc Hs. pose proof HR as [Hok He Hdb Hq Hpe].
  pose proof (env_rel_snap _ _ _ _ He) as Hsn. cbn [spec_step] in Hs.
  unfold command_stop. unfold cget, cbind at 1.
  destruct (transaction (c_thread c)) as [t|] eqn:Et.
  - destruct (s_snap s) as [m|] eqn:Em; [|by destruct (proj1 Hsn ltac:(eauto))].
    injection Hs as <- <- <-. destruct (env_rollback _ t _ _ He) as (e' & Hr & He' & Hf).
    assert (Hr' : on_env (database_transaction_rollback t) c = Done (tt, set_env e' c)).
    { unfold on_env. by rewrite Hr. }
    cstep Hr'. unfold modify_thread, cbind at 1.
    pose proof (code_then RESP_OK c (set_transaction None (c_thread c)) e' rest YENOERR Hok Hc)
      as Hrep.
    eapply (replies_result _ _ None _ [] _ _ s) in Hrep; [|done|exact He'|by rewrite Et|done].
    destruct Hrep as (c' & Hrep & Hres). rewrite app_nil_r in Hres. exists c', YENOERR. done.
  - destruct (s_snap s) as [m|] eqn:Em; [by destruct (proj2 Hsn ltac:(eauto))|].
    injection Hs as <- <- <-.
    pose proof (code_then RESP_ERR_TRANSACTION c (c_thread c) (c_env c) rest YEACCESS Hok Hc) as Hrep.
    rewrite <- (set_transaction_same (c_thread c)) in Hrep at 1. rewrite Et in Hrep.
    eapply (replies_result _ _ None _ [] _ _ s) in Hrep; [|done|exact He|rewrite Et; auto with finedb|done].
    destruct Hrep as (c' & Hrep & Hres). rewrite <- Em, spec_eta in Hres.
    exists c', YEACCESS. split; [|done]. rewrite <- Hrep. by destruct c.
Qed.

(** ** Requests *)
Lemma sess_rel_buff c s b : sess_rel c s -> yd_wf b -> sess_rel (set_buff b c) s.
Proof. intros [Hok ????] Hb. constructor; auto with finedb. Qed.

Lemma request_dispatch r junk jl :
  exists func, command_handler junk jl (REQUEST_COMMAND (request_code r)) = Some func /\
  match r with
  | RPing => func = command_ping
  | RGet _ comp ser => func = command_get junk jl /\
      cbool (REQUEST_HAS_COMPRESSED (request_code r)) = comp /\
      cbool (REQUEST_HAS_SERIALIZED (request_code r)) = ser
  | RPut _ _ sync comp => func = command_put junk /\
      cbool (REQUEST_HAS_SYNC (request_code r)) = sync /\
      cbool (REQUEST_HAS_COMPRESSED (request_code r)) = comp
  | RDel _ sync => func = command_del /\ cbool (REQUEST_HAS_SYNC (request_code r)) = sync
  | RStart => func = command_start
  | RStop => func = command_stop
  end.
Proof.
  destruct r as [|key [] []|key data [] []|key []| |]; eexists; (split; [reflexivity|]); done.
Qed.

Lemma process_request_refines c s r rest out v s' junk jl :
  sess_rel c s -> request_ok r -> yd_content (c_buff c) = encode_request r ++ rest ->
  spec_step r s = Some (out, v, s') ->
  exists c', process_request junk jl c = Done (v, c') /\ step_result c out rest s' c'.
Proof.
  intros HR Hr Hc Hs. pose proof HR as [Hok He Hdb Hq Hpe].
  pose proof (yd_content_len _ (ok_wf c Hok)) as Hlen. rewrite Hc in Hlen.
  unfold encode_request in Hc, Hlen. rewrite <- app_comm_cons in Hc, Hlen.
  rewrite lenZ_cons in Hlen.
  unfold process_request. cstep (read_data_buffered 1 c (ok_fd c Hok) ltac:(lens)).
  rewrite Z.eqb_refl. cbn [negb].
  destruct (forward_bytes_spec 1 c (ok_wf c Hok) ltac:(lens)) as (b & Hf & Hwf & Hb).
  rewrite Hc in Hf, Hb. change (takeZ 1 _) with [request_code r] in Hf.
  change (dropZ 1 _) with (encode_body r ++ rest) in Hb.
  cstep Hf. unfold cget, cbind at 1.
  replace (be_val [request_code r]) with (request_code r) by done.
  destruct (request_dispatch r junk jl) as (func & -> & Hfun).
  change (c_thread (set_buff b c)) with (c_thread c).
  pose proof (sess_rel_buff c s b HR Hwf) as HR'.
  destruct r as [|key comp ser|key data sync comp|key sync| |]; unfold cbind;
    cbn [request_ok encode_body] in *.
  - subst func.
    edestruct (refine_ping (set_buff b c) s) as (c' & Hp & Hres); [done|exact Hb|]. rewrite Hp.
    injection Hs as <- <- <-. by exists c'.
  - destruct Hfun as (-> & -> & ->).
    destruct (refine_get (set_buff b c) s key comp ser junk jl
      (bool_decide (is_Some (transaction (c_thread c))) || cbool (REQUEST_HAS_SYNC (request_code (RGet key comp ser))))
      rest v out s') as (c' & -> & Hres & ->); try done. by exists c'.
  - destruct Hfun as (-> & -> & ->). destruct Hr as [Hk Hd].
    destruct (refine_put (set_buff b c) s key data sync comp
      (cbool (REQUEST_HAS_SERIALIZED (request_code (RPut key data sync comp)))) junk rest v out s')
      as (c' & Hp & Hres & ->); try done.
    change (c_thread (set_buff b c)) with (c_thread c) in Hp. rewrite Hp. by exists c'.
  - destruct Hfun as (-> & ->).
    destruct (refine_del (set_buff b c) s key sync
      (cbool (REQUEST_HAS_COMPRESSED (request_code (RDel key sync))))
      (cbool (REQUEST_HAS_SERIALIZED (request_code (RDel key sync)))) rest v out s')
      as (c' & Hp & Hres & ->); try done.
    change (c_thread (set_buff b c)) with (c_thread c) in Hp. rewrite Hp. by exists c'.
  - subst func. injection Hs as <- <- <-.
    edestruct (refine_start (set_buff b c) s) as (c' & Hp & Hres); [done|exact Hb|].
    rewrite Hp. by exists c'.
  - subst func.
    match goal with |- context [command_stop ?x ?y ?z _] =>
      destruct (refine_stop (set_buff b c) s x y z rest out v s' HR' Hb Hs)
        as (c' & code & -> & Hres & ->)
    end. by exists c'.
Qed.

(** ** The request loop *)
Definition encode_all (rs : list request) : bytes := concat (encode_request <$> rs).

(** A segment that arrives while the buffer is empty. *)
Lemma process_request_arrival c d r junk jl :
  conn_ok c -> yd_content (c_buff c) = [] -> c_rx c = RxData d :: r ->
  0 < lenZ d <= RECV_SIZE ->
  exists b, process_request junk jl c = process_request junk jl (set_buff b (set_rx r c)) /\
    yd_wf b /\ yd_content b = d.
Proof.
  intros Hok Hc Hrx Hd. pose proof (yd_content_len _ (ok_wf c Hok)) as Hl.
  rewrite Hc, lenZ_nil in Hl.
  destruct (read_data_one_segment 1 c d r (ok_wf c Hok) (ok_alloc c Hok) (ok_fd c Hok) Hd
              ltac:(lia) ltac:(lia)) as (b & Hr & Hwf & Hb).
  rewrite Hc in Hb. exists b. split; [|done].
  replace (set_rx (RxData d :: r) c) with c in Hr by (destruct c; simpl in *; by subst).
  pose proof (yd_content_len b Hwf) as Hl'. rewrite Hb in Hl'. cbn [app] in Hl'.
  pose proof (read_data_buffered 1 (set_buff b (set_rx r c)) (ok_fd c Hok) ltac:(simpl; lia)) as Hr'.
  unfold process_request, cbind. by rewrite Hr, Hr'.
Qed.

(** The peer has closed the connection and every request was handled. *)
Lemma process_request_closed c junk jl :
  conn_ok c -> yd_content (c_buff c) = [] -> c_rx c = [] ->
  process_request junk jl c = Done (false, c).
Proof.
  intros Hok Hc Hrx. pose proof (yd_content_len _ (ok_wf c Hok)) as Hl.
  rewrite Hc, lenZ_nil in Hl. pose proof (ok_fd c Hok).
  assert (Hr : connection_read_data 1 c = Done (YECONNRESET, c)).
  { unfold connection_read_data. rewrite (proj2 (Z.ltb_ge _ _)), (proj2 (Z.leb_gt _ _)) by lia.
    cbn [read_loop].
    rewrite (proj2 (Z.leb_gt _ _)) by lia. rewrite Hrx. cbn [recv_step].
    do 2 f_equal. destruct c; simpl in *; by subst. }
  unfold process_request. by cstep Hr.
Qed.

Lemma encode_all_cons r rs : encode_all (r :: rs) = encode_request r ++ encode_all rs.
Proof. done. Qed.
Lemma encode_all_length rs : Z.of_nat (length rs) <= lenZ (encode_all rs).
Proof.
  induction rs as [|r rs IH]; [done|]. rewrite encode_all_cons.
  unfold encode_request at 1. cbn [app length]. lens.
Qed.

(** Segments made of whole requests. *)
Definition arrivals (groups : list (list request)) : list rx :=
  map (fun g => RxData (encode_all g)) groups.
Definition segments_ok (groups : list (list request)) : Prop :=
  Forall (fun g => 0 < lenZ (encode_all g) <= RECV_SIZE) groups.

Lemma request_loop_refines rs groups fuel c s out s' junk jl :
  sess_rel c s -> yd_content (c_buff c) = encode_all rs ->
  c_rx c = arrivals groups -> segments_ok groups ->
  Forall request_ok (rs ++ concat groups) ->
  spec_session (rs ++ concat groups) s = Some (out, s') ->
  (length (rs ++ concat groups) < fuel)%nat ->
  exists c', request_loop fuel junk jl c = Done (tt, c') /\ sess_rel c' s' /\
    c_out c' = c_out c ++ out.
Proof.
  revert rs groups c s out. induction fuel as [|fuel IH]; intros rs groups c s out; [lia|].
  intros HR Hc Hrx Hseg Hok Hs Hf.
  assert (Hfirst : forall r rs groups c, sess_rel c s -> yd_content (c_buff c) = encode_all (r :: rs) ->
    c_rx c = arrivals groups -> segments_ok groups ->
    Forall request_ok ((r :: rs) ++ concat groups) ->
    spec_session ((r :: rs) ++ concat groups) s = Some (out, s') ->
    (length ((r :: rs) ++ concat groups) < S fuel)%nat ->
    exists c', request_loop (S fuel) junk jl c = Done (tt, c') /\ sess_rel c' s' /\
      c_out c' = c_out c ++ out).
  { clear -IH HL. intros r rs groups c HR Hc Hrx Hseg Hok Hs Hf.
    apply Forall_cons in Hok as [Hr Hok]. cbn [app spec_session] in Hs.
    destruct (spec_step r s) as [[[out1 v] s1]|] eqn:Es; [|done].
    destruct (process_request_refines c s r (encode_all rs) out1 v s1 junk jl HR Hr Hc Es)
      as (c1 & Hp & HR1 & Ho & Hc1 & Hrx1 & _).
    cbn [request_loop]. cstep Hp. destruct v.
    - destruct (spec_session (rs ++ concat groups) s1) as [[out2 s2]|] eqn:Es2; [|done].
      injection Hs as <- <-. cbn [app length] in Hf.
      destruct (IH rs groups c1 s1 out2) as (c' & Hl & HR' & Ho'); try done;
        [by rewrite Hrx1|lia|].
      exists c'. split; [done|]. split; [done|]. by rewrite Ho', Ho, app_assoc.
    - injection Hs as <- <-. by exists c1. }
  destruct rs as [|r rs]; [|by apply (Hfirst r rs groups)].
  destruct groups as [|g groups].
  - injection Hs as <- <-. cbn [request_loop].
    cstep (process_request_closed c junk jl (sr_ok c s HR) Hc Hrx).
    exists c. by rewrite app_nil_r.
  - apply Forall_cons in Hseg as [Hg Hseg].
    destruct g as [|r g]; [change (lenZ (encode_all [])) with 0 in Hg; lia|].
    destruct (process_request_arrival c (encode_all (r :: g))
      (arrivals groups) junk jl (sr_ok c s HR) Hc Hrx Hg)
      as (b & Hp & Hwf & Hb).
    destruct (Hfirst r g groups (set_buff b (set_rx (arrivals groups) c)))
      as (c' & Hl & Hres); try done.
    { destruct HR as [[????] ????]. by constructor. }
    exists c'. split; [|done]. rewrite <- Hl. cbn [request_loop]. unfold cbind. by rewrite Hp.
Qed.

(** ** Whole connections *)
Definition idle_thread : tcp_thread_t := {| fd := -1; dbname := None; transaction := None |}.

(** A thread that waits for a connection, in a server whose state is [s]. *)
Record idle_rel (c : conn) (s : spec_state) : Prop := {
  il_thread : c_thread c = idle_thread;
  il_env : env_rel (c_env c) None (s_db s) None;
  il_queue : c_queue c = msg_of <$> s_queue s;
  il_pend : Forall pend_ok (s_queue s);
  il_alloc : c_alloc c = [];
  il_tx : c_tx c = [];
  il_nn : c_nn c = []
}.

Lemma disconnect_refines c s :
  sess_rel c s ->
  exists c', connection_thread_disconnect c = Done (tt, c') /\ idle_rel c' s /\ c_out c' = c_out c /\
    live_frame (transaction (c_thread c)) None (c_env c) (c_env c').
Proof.
  intros [[Hwf Hfd Ha Ht Hn] He Hdb Hq Hp]. unfold connection_thread_disconnect.
  rewrite (proj2 (Z.eqb_neq _ _)) by lia.
  destruct (transaction (c_thread c)) as [t|] eqn:Et.
  - destruct (env_rollback _ t _ _ He) as (e' & Hr & He' & Hf).
    assert (Hr' : on_env (database_transaction_rollback t) c = Done (tt, set_env e' c)).
    { unfold on_env. by rewrite Hr. }
    cstep Hr'. eexists. split; [done|]. split; [by constructor|done].
  - eexists. split; [done|]. split; [|split; [done|apply live_frame_refl]].
    constructor; try done. simpl. pose proof He as [_ _ _ _ [Hs _]]. by rewrite Hs in He.
Qed.

Lemma handle_connection_refines groups fuel f c s out s' junk jl :
  idle_rel c s -> s_snap s = None -> 0 <= f -> c_rx c = arrivals groups -> segments_ok groups ->
  Forall request_ok (concat groups) -> spec_session (concat groups) s = Some (out, s') ->
  (length (concat groups) < fuel)%nat ->
  exists c', handle_connection fuel f junk jl c = Done (tt, c') /\ idle_rel c' s' /\
    c_out c' = c_out c ++ out.
Proof.
  intros [Hth He Hq Hp Ha Ht Hn] Hsn Hf Hrx Hseg Hok Hs Hfuel.
  unfold handle_connection, modify_thread, cbind at 1. rewrite (proj2 (Z.ltb_ge _ _)) by lia.
  rewrite Hth. cbn [idle_thread dbname transaction].
  set (c0 := set_thread _ c).
  assert (Hb : on_alloc (ydynabin_new None 0 false) c0 = Done (Some yd_empty, c0)).
  { unfold on_alloc, ydynabin_new, cbind, ymalloc. cbn [c0 set_thread c_alloc]. rewrite Ha. simpl.
    subst c0. destruct c; simpl in *; by subst. }
  cstep Hb. unfold cbind at 1.
  destruct (request_loop_refines [] groups fuel (set_buff yd_empty c0) s out s' junk jl)
    as (c1 & Hl & HR1 & Ho1); try done.
  { constructor; simpl; [constructor; simpl; auto with finedb|by rewrite Hsn|done|done|done]. }
  cstep Hl. destruct (disconnect_refines c1 s' HR1) as (c2 & Hd & HR2 & Ho2 & _).
  cstep Hd. eexists. split; [done|]. split.
  - destruct HR2. by constructor.
  - simpl. by rewrite Ho2, Ho1.
Qed.
End refinement.

(** ** The writer thread *)
Lemma writer_step_shared e db p :
  shared_rel e db -> pend_ok p ->
  exists e', writer_step (msg_of p) e = Done (tt, e') /\
    shared_rel e' (apply_pending p db) /\ me_live e' = me_live e /\ me_maxreaders e' = me_maxreaders e.
Proof.
  intros He Hp. destruct p as [key v|key]; unfold writer_step;
    cbn [msg_of wm_type wm_create_only wm_dbname wm_name wm_data].
  - destruct Hp as [Hk Hv]. destruct (shared_put e db key v He Hk Hv) as (e' & Hr & H).
    cstep Hr. by exists e'.
  - destruct (shared_del e db key He Hp) as (e' & Hr & H). cstep Hr. by exists e'.
Qed.
Lemma writer_step_refines e db p :
  env_rel e None db None -> pend_ok p ->
  exists e', writer_step (msg_of p) e = Done (tt, e') /\
    env_rel e' None (apply_pending p db) None /\ live_frame None None e e'.
Proof.
  intros HR Hp.
  destruct (writer_step_shared e db p (env_rel_shared _ _ _ _ HR) Hp) as (e' & Hw & Hs & Hl & Hm).
  exists e'. split; [done|]. eauto using env_rel_update, live_frame_same.
Qed.
Lemma writer_loop_refines q e db :
  env_rel e None db None -> Forall pend_ok q ->
  exists e', writer_loop (Some <$> (msg_of <$> q)) e = Done (tt, e') /\
    env_rel e' None (fold_left (fun m p => apply_pending p m) q db) None /\ live_frame None None e e'.
Proof.
  intros He Hq. revert e db He. induction Hq as [|p q Hp Hq IH]; intros e db He.
  - exists e. auto with finedb.
  - destruct (writer_step_refines e db p He Hp) as (e1 & H1 & He1 & Hf1).
    destruct (IH e1 _ He1) as (e2 & H2 & He2 & Hf2).
    exists e2. cbn [fmap list_fmap writer_loop]. cstep H1. split; [done|]. split; [done|].
    by eapply live_frame_trans.
Qed.
