(* ===== verification/Threads.v ===== *)
(** * Threads: the threads of the server at work together

    The main thread, the connection threads and the writer thread share the
    LMDB environment, the pipe of accepted descriptors and the queue of
    asynchronous writes.  A run of the server is a sequence of events: the
    main thread accepts a connection, an idle thread takes a descriptor from
    the pipe, a thread with a connection handles its next request, the writer
    thread executes the next message.  An event is one step: a request handler
    touches the shared state in one LMDB transaction (write transactions
    exclude each other, a read transaction sees one version) and one message.

    The abstract service has one database, one queue and a list of clients;
    every interleaving of the threads is shown to refine it. *)
From S2P Require Import Prelude Protocol Dynabin Lmdb Database Connection Compressor Spec Commands Server Session.

(** ** The server *)
Record worker := {
  wk_thread : tcp_thread_t;
  wk_buff : ydynabin_t;
  wk_rx : list rx;        (* what its client still sends *)
  wk_out : bytes          (* what its clients were sent *)
}.
Record world := {
  w_env : MDB_env;
  w_queue : list writer_msg_t;
  w_pipe : list Z;
  w_workers : list worker
}.
Inductive event :=
  | EvAccept (f nn : Z)             (* results of accept and nn_send *)
  | EvTake (i : nat) (r : list rx)  (* thread [i] gets the next descriptor *)
  | EvServe (i : nat)               (* thread [i] handles a request *)
  | EvWrite.                        (* the writer thread handles a message *)

(** What thread [k] works on. *)
Definition view (w : world) (k : worker) : conn :=
  {| c_env := w_env w; c_thread := wk_thread k; c_buff := wk_buff k; c_rx := wk_rx k; c_tx := [];
     c_out := wk_out k; c_nn := []; c_queue := w_queue w; c_alloc := [] |}.
Definition put_back (i : nat) (c : conn) (w : world) : world :=
  {| w_env := c_env c; w_queue := c_queue c; w_pipe := w_pipe w;
     w_workers := <[i := {| wk_thread := c_thread c; wk_buff := c_buff c; wk_rx := c_rx c;
                            wk_out := c_out c |}]> (w_workers w) |}.
Definition set_pipe (p : list Z) (w : world) : world :=
  {| w_env := w_env w; w_queue := w_queue w; w_pipe := p; w_workers := w_workers w |}.

(** The beginning and the end of a connection. *)
Definition connection_open (f : Z) : CM conn unit :=
  do! modify_thread (fun t => {| fd := f; dbname := dbname t; transaction := transaction t |}) in
  let! buff := on_alloc (ydynabin_new None 0 false) in
  match buff with
  | None => cfault NullDeref
  | Some b => fun c => Done (tt, set_buff b c)
  end.
Definition connection_close : CM conn unit :=
  do! connection_thread_disconnect in
  fun c => Done (tt, set_buff yd_empty c).

(** An event for which its thread is not waiting has no effect. *)
Section machine.
Context `{Snappy}.

Definition step (junk : dbi) (jl : Z) (ev : event) (w : world) : outcome world :=
  match ev with
  | EvAccept f nn =>
      Done (if f <? 0 then w else set_pipe (connection_thread_push_socket nn f (w_pipe w)) w)
  | EvTake i r =>
      match w_workers w !! i, w_pipe w with
      | Some k, f :: p =>
          if negb (fd (wk_thread k) =? -1) then Done w
          else olet! '(_, c) := connection_open f (set_rx r (view w k)) in
               Done (put_back i c (set_pipe p w))
      | _, _ => Done w
      end
  | EvServe i =>
      match w_workers w !! i with
      | Some k =>
          if fd (wk_thread k) =? -1 then Done w
          else
            olet! '(continue, c) := process_request junk jl (view w k) in
            if (continue : bool) then Done (put_back i c w)
            else olet! '(_, c) := connection_close c in Done (put_back i c w)
      | None => Done w
      end
  | EvWrite =>
      match w_queue w with
      | [] => Done w
      | m :: q =>
          olet! '(_, e) := writer_step m (w_env w) in
          Done {| w_env := e; w_queue := q; w_pipe := w_pipe w; w_workers := w_workers w |}
      end
  end.

Fixpoint run (junk : dbi) (jl : Z) (evs : list event) (w : world) : outcome world :=
  match evs with
  | [] => Done w
  | ev :: evs => olet! w := step junk jl ev w in run junk jl evs w
  end.

(** [handle_connection] is made of the same steps. *)
Lemma handle_connection_parts fuel f junk jl c :
  0 <= f ->
  handle_connection fuel f junk jl c =
  (do! connection_open f in do! request_loop fuel junk jl in connection_close) c.
Proof.
  intros Hf. unfold handle_connection, connection_open, connection_close.
  rewrite (proj2 (Z.ltb_ge f 0)) by lia. unfold cbind.
  destruct (modify_thread _ c) as [[_ c1]|]; [|done].
  destruct (on_alloc _ c1) as [[[b|] c2]|]; done.
Qed.
End machine.

(** ** The abstract service *)
Record client_sess := {
  cs_open : bool;
  cs_snap : option (gmap bytes bytes);
  cs_reqs : list request;     (* what the client still asks *)
  cs_out : bytes              (* what it was answered *)
}.
Record service := {
  sv_db : gmap bytes bytes;
  sv_queue : list pending;
  sv_pipe : list Z;
  sv_clients : list client_sess
}.
Inductive sevent :=
  | SAccept (f nn : Z)
  | STake (i : nat) (groups : list (list request))
  | SServe (i : nat)
  | SWrite.
Definition event_of (ev : sevent) : event :=
  match ev with
  | SAccept f nn => EvAccept f nn
  | STake i groups => EvTake i (arrivals groups)
  | SServe i => EvServe i
  | SWrite => EvWrite
  end.

Definition sv_set_client (i : nat) (cl : client_sess) (g : service) : service :=
  {| sv_db := sv_db g; sv_queue := sv_queue g; sv_pipe := sv_pipe g;
     sv_clients := <[i := cl]> (sv_clients g) |}.
(** What client [cl] sees of the service. *)
Definition sv_view (g : service) (cl : client_sess) : spec_state :=
  {| s_db := sv_db g; s_snap := cs_snap cl; s_queue := sv_queue g |}.

Section service.
Context `{Snappy}.

(** The next request of client [cl]; without one its connection ends. *)
Definition sv_serve (g : service) (cl : client_sess) : option (spec_state * client_sess) :=
  match cs_reqs cl with
  | [] => Some (sv_view g cl,
                {| cs_open := false; cs_snap := None; cs_reqs := []; cs_out := cs_out cl |})
  | r :: rs =>
      match spec_step r (sv_view g cl) with
      | None => None
      | Some (out, true, s) =>
          Some (s, {| cs_open := true; cs_snap := s_snap s; cs_reqs := rs; cs_out := cs_out cl ++ out |})
      | Some (out, false, s) =>
          Some (s, {| cs_open := false; cs_snap := None; cs_reqs := []; cs_out := cs_out cl ++ out |})
      end
  end.

Definition sv_step (ev : sevent) (g : service) : option service :=
  match ev with
  | SAccept f nn =>
      Some (if f <? 0 then g
            else {| sv_db := sv_db g; sv_queue := sv_queue g;
                    sv_pipe := connection_thread_push_socket nn f (sv_pipe g);
                    sv_clients := sv_clients g |})
  | STake i groups =>
      match sv_clients g !! i, sv_pipe g with
      | Some cl, _ :: p =>
          if cs_open cl then Some g
          else Some {| sv_db := sv_db g; sv_queue := sv_queue g; sv_pipe := p;
                       sv_clients := <[i := {| cs_open := true; cs_snap := None;
                                               cs_reqs := concat groups; cs_out := cs_out cl |}]>
                                       (sv_clients g) |}
      | _, _ => Some g
      end
  | SServe i =>
      match sv_clients g !! i with
      | Some cl =>
          if negb (cs_open cl) then Some g
          else match sv_serve g cl with
               | None => None
               | Some (s, cl') =>
                   Some {| sv_db := s_db s; sv_queue := s_queue s; sv_pipe := sv_pipe g;
                           sv_clients := <[i := cl']> (sv_clients g) |}
               end
      | None => Some g
      end
  | SWrite =>
      match sv_queue g with
      | [] => Some g
      | p :: q => Some {| sv_db := apply_pending p (sv_db g); sv_queue := q;
                          sv_pipe := sv_pipe g; sv_clients := sv_clients g |}
      end
  end.
Fixpoint sv_run (evs : list sevent) (g : service) : option service :=
  match evs with
  | [] => Some g
  | ev :: evs => match sv_step ev g with Some g => sv_run evs g | None => None end
  end.
End service.

(** ** The relation *)
Definition own_txns (ks : list worker) : list nat := omap (fun k => transaction (wk_thread k)) ks.

(** The transaction of a thread, and the snapshot its client reads. *)
Definition snap_rel (e : MDB_env) (tr : option nat) (snap : option (gmap bytes bytes)) : Prop :=
  match tr with
  | None => snap = None
  | Some t => exists txn, me_live e !! t = Some txn /\ all_data (mt_main txn) /\
                snap = Some (kv_of (mt_main txn))
  end.
(** The input of a thread: requests in its buffer, then whole segments. *)
Record input_rel (k : worker) (reqs : list request) : Prop := {
  in_fd : 0 <= fd (wk_thread k);
  in_dbname : dbname (wk_thread k) = None;
  in_wf : yd_wf (wk_buff k);
  in_reqs : exists rs groups, yd_content (wk_buff k) = encode_all rs /\
    wk_rx k = arrivals groups /\ segments_ok groups /\ Forall request_ok (rs ++ concat groups) /\
    reqs = rs ++ concat groups
}.
Record worker_rel (e : MDB_env) (k : worker) (cl : client_sess) : Prop := {
  wr_out : wk_out k = cs_out cl;
  wr_snap : snap_rel e (transaction (wk_thread k)) (cs_snap cl);
  wr_state : if cs_open cl then input_rel k (cs_reqs cl) else wk_thread k = idle_thread
}.
(** Every live transaction belongs to one thread, and there is a reader slot
    for every thread. *)
Record pool_rel (e : MDB_env) (ks : list worker) : Prop := {
  pl_distinct : NoDup (own_txns ks);
  pl_live : dom (me_live e) = list_to_set (own_txns ks);
  pl_slots : (length ks <= me_maxreaders e)%nat
}.
Record world_rel (w : world) (g : service) : Prop := {
  wo_env : shared_rel (w_env w) (sv_db g);
  wo_queue : w_queue w = msg_of <$> sv_queue g;
  wo_pend : Forall pend_ok (sv_queue g);
  wo_pipe : w_pipe w = sv_pipe g;
  wo_fds : Forall (fun f => 0 <= f) (sv_pipe g);
  wo_workers : Forall2 (worker_rel (w_env w)) (w_workers w) (sv_clients g);
  wo_pool : pool_rel (w_env w) (w_workers w)
}.

(** ** Reader slots *)
Lemma omap_length_le {A B} (f : A -> option B) l : (length (omap f l) <= length l)%nat.
Proof. induction l as [|x l IH]; csimpl; [lia|]. destruct (f x); csimpl; lia. Qed.
Lemma omap_length_lt {A B} (f : A -> option B) l i x :
  l !! i = Some x -> f x = None -> (length (omap f l) < length l)%nat.
Proof.
  intros Hl Hx. pose proof (take_drop_middle l i x Hl) as E. rewrite <- E.
  generalize (take i l) (drop (S i) l). intros l1 l2. rewrite omap_app, !length_app. csimpl. rewrite Hx.
  pose proof (omap_length_le f l1). pose proof (omap_length_le f l2). lia.
Qed.

Lemma readers_live e : env_quiet e -> readers e = size (me_live e).
Proof.
  intros Hq. unfold readers. rewrite map_filter_id; [done|].
  intros t x Hx. by apply (q_rdonly e Hq t x).
Qed.
Lemma pool_readers e ks :
  env_quiet e -> pool_rel e ks -> readers e = length (own_txns ks).
Proof.
  intros Hq [Hn Hl _]. rewrite readers_live by done.
  rewrite <- size_dom, Hl. by rewrite size_list_to_set.
Qed.

(** The view of one thread satisfies the relation of a session. *)
Lemma env_rel_worker e db ks i k snap :
  shared_rel e db -> pool_rel e ks -> ks !! i = Some k ->
  snap_rel e (transaction (wk_thread k)) snap ->
  env_rel e (transaction (wk_thread k)) db snap.
Proof.
  intros [Hq Hs Hd Hk] Hp Hi Hsn. pose proof (pool_readers e ks Hq Hp) as Hr.
  pose proof (pl_slots _ _ Hp) as Hsl. constructor; try done.
  unfold snap_rel in Hsn. destruct (transaction (wk_thread k)) as [t|] eqn:Et.
  - destruct Hsn as (txn & Hl & Ha & ->). exists txn. split_and!; try done.
    pose proof (omap_length_le (fun k => transaction (wk_thread k)) ks). unfold own_txns in Hr. lia.
  - split; [done|]. pose proof (omap_length_lt (fun k => transaction (wk_thread k)) ks i k Hi Et).
    unfold own_txns in Hr. lia.
Qed.
Lemma env_rel_split e tr db snap : env_rel e tr db snap -> shared_rel e db /\ snap_rel e tr snap.
Proof.
  intros [Hq Hs Hd Hk Ht]. split; [done|]. destruct tr as [t|]; [|by destruct Ht].
  destruct Ht as (txn & Hl & Ha & -> & _). by exists txn.
Qed.

(** The transactions of the threads other than [i]. *)
Definition other_txns (i : nat) (ks : list worker) : list nat :=
  own_txns (take i ks ++ drop (S i) ks).
Lemma own_txns_middle l1 k l2 :
  own_txns (l1 ++ k :: l2) ≡ₚ option_list (transaction (wk_thread k)) ++ own_txns (l1 ++ l2).
Proof.
  unfold own_txns. rewrite <- Permutation_middle. csimpl. by destruct (transaction (wk_thread k)).
Qed.
Lemma own_txns_at ks i k :
  ks !! i = Some k ->
  own_txns ks ≡ₚ option_list (transaction (wk_thread k)) ++ other_txns i ks.
Proof. intros Hi. rewrite <- (take_drop_middle ks i k Hi) at 1. apply own_txns_middle. Qed.
Lemma own_txns_update ks i k k' :
  ks !! i = Some k ->
  own_txns (<[i := k']> ks) ≡ₚ option_list (transaction (wk_thread k')) ++ other_txns i ks.
Proof.
  intros Hi. rewrite insert_take_drop by (by eapply lookup_lt_Some). apply own_txns_middle.
Qed.
Lemma dom_without tr (m : gmap nat MDB_txn) (l : list nat) :
  NoDup (option_list tr ++ l) -> dom m = list_to_set (option_list tr ++ l) ->
  dom (without tr m) = list_to_set (C := gset nat) l.
Proof.
  destruct tr as [t|]; simpl; [|done]. rewrite NoDup_cons. intros [Ht _] Hd.
  rewrite dom_delete_L, Hd. apply (not_elem_of_list_to_set (C := gset nat)) in Ht. set_solver.
Qed.

Lemma pool_step e e' ks i k k' snap :
  pool_rel e ks -> ks !! i = Some k ->
  live_frame (transaction (wk_thread k)) (transaction (wk_thread k')) e e' ->
  snap_rel e' (transaction (wk_thread k')) snap ->
  pool_rel e' (<[i := k']> ks).
Proof.
  intros [Hn Hd Hs] Hi [Hm Ho Hown] Hsn. pose proof (own_txns_at ks i k Hi) as Hp.
  pose proof (own_txns_update ks i k k' Hi) as Hp'. rewrite Hp in Hn.
  rewrite (list_to_set_perm_L _ _ Hp) in Hd. pose proof (dom_without _ _ _ Hn Hd) as Hdo.
  apply NoDup_app in Hn as (_ & _ & Hn). constructor.
  - rewrite Hp'. destruct (transaction (wk_thread k')) as [t|]; simpl; [|done].
    apply NoDup_cons. split; [|done]. specialize (Hown t eq_refl).
    apply not_elem_of_dom in Hown. rewrite Hdo in Hown. by apply not_elem_of_list_to_set in Hown.
  - rewrite (list_to_set_perm_L _ _ Hp'), list_to_set_app_L, <- Hdo, <- Ho.
    destruct (transaction (wk_thread k')) as [t|]; simpl in *; [|set_solver].
    destruct Hsn as (txn & Hl & _). apply elem_of_dom_2 in Hl. rewrite dom_delete_L.
    apply set_eq. intros x. destruct (decide (x = t)); set_solver.
  - by rewrite length_insert, Hm.
Qed.

Lemma elem_of_others {A} (l : list A) i j x :
  l !! j = Some x -> j <> i -> x ∈ take i l ++ drop (S i) l.
Proof.
  intros Hx Hj. apply elem_of_app. destruct (Nat.lt_ge_cases j i) as [H|H]; [left|right].
  - apply (list_elem_of_lookup_2 _ j). by rewrite lookup_take_lt.
  - apply (list_elem_of_lookup_2 _ (j - S i)). rewrite lookup_drop.
    by replace (S i + (j - S i))%nat with j by lia.
Qed.

(** The other threads keep their transactions. *)
Lemma workers_step e e' ks cls i k k' cl' :
  Forall2 (worker_rel e) ks cls -> pool_rel e ks -> ks !! i = Some k ->
  live_frame (transaction (wk_thread k)) (transaction (wk_thread k')) e e' ->
  worker_rel e' k' cl' ->
  Forall2 (worker_rel e') (<[i := k']> ks) (<[i := cl']> cls).
Proof.
  intros Hf Hp Hi Hlf Hk'. apply Forall2_lookup. intros j.
  rewrite !list_lookup_insert, <- (Forall2_length _ _ _ Hf).
  pose proof (lookup_lt_Some _ _ _ Hi). case_decide as Hj; [by constructor|].
  pose proof (proj1 (Forall2_lookup _ _ _) Hf j) as Hkj.
  destruct (ks !! j) as [kj|] eqn:Ej, (cls !! j) as [cj|]; inversion Hkj as [? ? Hr|]; subst;
    [|constructor]. constructor. destruct Hr as [Ho Hs Hst]. split; [done| |done].
  unfold snap_rel in *. destruct (transaction (wk_thread kj)) as [t|] eqn:Et; [|done].
  destruct Hs as (txn & Hl & Ha & ->). exists txn. split; [|done].
  apply (live_frame_other _ _ _ _ _ _ Hlf); [|done]. intros Et'.
  assert (i <> j) as Hij by (intros ->; by apply Hj).
  apply (pl_distinct _ _) in Hp. rewrite (own_txns_at ks i k Hi), Et' in Hp. simpl in Hp.
  apply NoDup_cons in Hp as [Hin _]. apply Hin. unfold other_txns, own_txns.
  apply list_elem_of_omap. exists kj. split; [|done]. by apply (elem_of_others _ _ j).
Qed.

(** ** One event *)
Lemma put_back_rel w g i k cl c db snap q cl' :
  world_rel w g -> w_workers w !! i = Some k -> sv_clients g !! i = Some cl ->
  env_rel (c_env c) (transaction (c_thread c)) db snap ->
  live_frame (transaction (wk_thread k)) (transaction (c_thread c)) (w_env w) (c_env c) ->
  c_queue c = msg_of <$> q -> Forall pend_ok q ->
  c_out c = cs_out cl' -> cs_snap cl' = snap ->
  (if cs_open cl'
   then input_rel {| wk_thread := c_thread c; wk_buff := c_buff c; wk_rx := c_rx c; wk_out := c_out c |}
          (cs_reqs cl')
   else c_thread c = idle_thread) ->
  world_rel (put_back i c w)
    {| sv_db := db; sv_queue := q; sv_pipe := sv_pipe g; sv_clients := <[i := cl']> (sv_clients g) |}.
Proof.
  intros [He Hq Hpe Hpi Hfd Hw Hpo] Hi Hcl Henv Hlf Hq' Hpe' Ho Hs Hst.
  apply env_rel_split in Henv as [Hsh Hsn]. split; simpl; try done.
  - eapply workers_step; [done..|]. split; simpl; [done|by rewrite Hs|done].
  - by eapply pool_step.
Qed.

Lemma view_sess w g i k cl :
  world_rel w g -> w_workers w !! i = Some k -> sv_clients g !! i = Some cl -> cs_open cl = true ->
  sess_rel (view w k) (sv_view g cl) /\ input_rel k (cs_reqs cl) /\ wk_out k = cs_out cl.
Proof.
  intros [He Hq Hpe Hpi Hfd Hw Hpo] Hi Hcl Hop.
  destruct (Forall2_lookup_lr _ _ _ _ _ _ Hw Hi Hcl) as [Ho Hs Hst]. rewrite Hop in Hst.
  split; [|done]. destruct Hst as [Hf Hdb Hwf _]. split; simpl; try done.
  by apply (env_rel_worker _ _ (w_workers w) i).
Qed.

Lemma segments_concat_nil groups : segments_ok groups -> concat groups = [] -> groups = [].
Proof.
  intros Hg Hc. destruct groups as [|g groups]; [done|]. apply Forall_cons in Hg as [Hg _].
  destruct g; [change (lenZ (encode_all [])) with 0 in Hg; lia|done].
Qed.
(** A thread that waits for a connection. *)
Lemma worker_idle w g i k cl :
  world_rel w g -> w_workers w !! i = Some k -> sv_clients g !! i = Some cl ->
  (fd (wk_thread k) =? -1) = negb (cs_open cl).
Proof.
  intros HR Hi Hcl. destruct (Forall2_lookup_lr _ _ _ _ _ _ (wo_workers w g HR) Hi Hcl) as [_ _ Hst].
  destruct (cs_open cl).
  - apply Z.eqb_neq. pose proof (in_fd _ _ Hst). lia.
  - by rewrite Hst.
Qed.

Section refinement.
Context `{HS : Snappy} {HL : SnappyLaws HS}.

(** The next request, from the buffer or from the next segment. *)
Lemma process_next c s r reqs out v s' junk jl :
  sess_rel c s ->
  (exists rs groups, yd_content (c_buff c) = encode_all rs /\ c_rx c = arrivals groups /\
     segments_ok groups /\ Forall request_ok (rs ++ concat groups) /\ r :: reqs = rs ++ concat groups) ->
  spec_step r s = Some (out, v, s') ->
  exists c', process_request junk jl c = Done (v, c') /\ sess_rel c' s' /\ c_out c' = c_out c ++ out /\
    live_frame (transaction (c_thread c)) (transaction (c_thread c')) (c_env c) (c_env c') /\
    (exists rs groups, yd_content (c_buff c') = encode_all rs /\ c_rx c' = arrivals groups /\
     segments_ok groups /\ Forall request_ok (rs ++ concat groups) /\ reqs = rs ++ concat groups).
Proof.
  intros HR (rs & groups & Hc & Hrx & Hseg & Hok & Hreq) Hs.
  destruct rs as [|r' rs].
  - destruct groups as [|[|r' g] groups]; [done| |].
    { apply Forall_cons in Hseg as [Hg _]. change (lenZ (encode_all [])) with 0 in Hg. lia. }
    injection Hreq as <- ->. pose proof (Forall_inv Hseg) as Hg. apply Forall_inv_tail in Hseg.
    pose proof (Forall_inv Hok) as Hr. apply Forall_inv_tail in Hok.
    destruct (process_request_arrival c _ _ junk jl (sr_ok c s HR) Hc Hrx Hg) as (b & Hp & Hwf & Hb).
    rewrite Hp.
    destruct (process_request_refines (set_buff b (set_rx (arrivals groups) c)) s r (encode_all g)
      out v s' junk jl) as (c' & Hp' & HR' & Ho & Hb' & Hrx' & Hlf); try done.
    { destruct HR as [[????] ????]. by constructor. }
    exists c'. split_and!; try done. by exists g, groups.
  - injection Hreq as <- ->. pose proof (Forall_inv Hok) as Hr. apply Forall_inv_tail in Hok.
    destruct (process_request_refines c s r (encode_all rs) out v s' junk jl HR Hr Hc Hs)
      as (c' & Hp & HR' & Ho & Hb & Hrx' & Hlf).
    exists c'. split_and!; try done. exists rs, groups. by rewrite Hrx'.
Qed.

Lemma serve_refines w g i k cl s cl' junk jl :
  world_rel w g -> w_workers w !! i = Some k -> sv_clients g !! i = Some cl -> cs_open cl = true ->
  sv_serve g cl = Some (s, cl') ->
  exists w', step junk jl (EvServe i) w = Done w' /\
    world_rel w' {| sv_db := s_db s; sv_queue := s_queue s; sv_pipe := sv_pipe g;
                    sv_clients := <[i := cl']> (sv_clients g) |}.
Proof.
  intros HR Hi Hcl Hop Hsv. destruct (view_sess w g i k cl HR Hi Hcl Hop) as (Hse & [Hf Hdb Hwf Hin] & Ho).
  cbn [step]. rewrite Hi, (worker_idle w g i k cl HR Hi Hcl), Hop. cbn [negb].
  unfold sv_serve in Hsv. destruct (cs_reqs cl) as [|r reqs] eqn:Ereq.
  - destruct Hin as (rs & groups & Hc & Hrx & Hseg & _ & Hreq). symmetry in Hreq.
    apply app_eq_nil in Hreq as [-> Hreq]. apply (segments_concat_nil groups Hseg) in Hreq as ->.
    injection Hsv as <- <-.
    rewrite (process_request_closed (view w k) junk jl (sr_ok _ _ Hse) Hc Hrx). cbn [obind].
    destruct (disconnect_refines _ _ Hse) as (c2 & Hd & HI & Ho2 & Hlf).
    unfold connection_close. unfold cbind. rewrite Hd. cbn [obind]. eexists. split; [done|].
    destruct HI as [Hth Henv Hq Hpe _ _ _]. eapply put_back_rel; simpl; try done;
      rewrite ?Hth; try done. by rewrite Ho2.
  - destruct (spec_step r (sv_view g cl)) as [[[out v] s1]|] eqn:Es; [|done].
    destruct (process_next (view w k) (sv_view g cl) r reqs out v s1 junk jl Hse Hin Es)
      as (c1 & Hp & HR1 & Ho1 & Hlf & Hin1).
    rewrite Hp. cbn [obind]. pose proof HR1 as [Hok1 Henv1 Hdb1 Hq1 Hpe1]. destruct v; injection Hsv as <- <-.
    + eexists. split; [done|]. eapply put_back_rel; simpl; try done.
      * by rewrite Ho1, <- Ho.
      * by destruct Hok1.
    + destruct (disconnect_refines _ _ HR1) as (c2 & Hd & HI & Ho2 & Hlf2).
      unfold connection_close. unfold cbind. rewrite Hd. cbn [obind]. eexists. split; [done|].
      destruct HI as [Hth Henv Hq Hpe _ _ _]. eapply put_back_rel; simpl; try done;
        rewrite ?Hth; try done.
      * by eapply live_frame_trans.
      * by rewrite Ho2, Ho1, <- Ho.
Qed.

Definition sevent_ok (ev : sevent) : Prop :=
  match ev with
  | STake _ groups => segments_ok groups /\ Forall request_ok (concat groups)
  | _ => True
  end.

Lemma connection_open_idle f c :
  c_thread c = idle_thread -> c_alloc c = [] ->
  connection_open f c =
  Done (tt, set_buff yd_empty (set_thread {| fd := f; dbname := None; transaction := None |} c)).
Proof.
  intros Ht Ha. unfold connection_open, modify_thread, cbind. rewrite Ht. simpl.
  unfold on_alloc, ydynabin_new, cbind, ymalloc. simpl. rewrite Ha. simpl.
  do 2 f_equal. destruct c; simpl in *; by subst.
Qed.

Lemma take_refines w g i groups junk jl g' :
  world_rel w g -> sevent_ok (STake i groups) -> sv_step (STake i groups) g = Some g' ->
  exists w', step junk jl (EvTake i (arrivals groups)) w = Done w' /\ world_rel w' g'.
Proof.
  intros HR [Hseg Hok] Hs. pose proof HR as [He Hq Hpe Hpi Hfd Hw Hpo].
  cbn [step sv_step] in *. rewrite Hpi. pose proof (proj1 (Forall2_lookup _ _ _) Hw i) as Hwi.
  destruct (w_workers w !! i) as [k|] eqn:Hi, (sv_clients g !! i) as [cl|] eqn:Hcl;
    inversion Hwi as [? ? Hr|]; subst; [|injection Hs as <-; by exists w].
  destruct (sv_pipe g) as [|f p]; [injection Hs as <-; by exists w|].
  rewrite (worker_idle w g i k cl HR Hi Hcl). destruct (cs_open cl) eqn:Hop; cbn [negb].
  { injection Hs as <-. by exists w. }
  injection Hs as <-. destruct Hr as [Ho Hsn Hst]. rewrite Hop in Hst.
  rewrite connection_open_idle by done. cbn [obind]. eexists. split; [done|].
  apply Forall_cons in Hfd as [Hf Hfd]. rewrite Hst in Hsn.
  assert (HR' : world_rel (set_pipe p w) {| sv_db := sv_db g; sv_queue := sv_queue g; sv_pipe := p;
                                            sv_clients := sv_clients g |}) by done.
  eapply (put_back_rel _ _ i k cl _ _ _ _ _ HR'); simpl; try done.
  - pose proof (env_rel_worker _ _ (w_workers w) i k None He Hpo Hi) as Henv.
    rewrite Hst in Henv. by apply Henv.
  - rewrite Hst. apply live_frame_refl.
  - split; simpl; auto with finedb. by exists [], groups.
Qed.

Lemma write_refines w g p q junk jl :
  world_rel w g -> sv_queue g = p :: q ->
  exists w', step junk jl EvWrite w = Done w' /\
    world_rel w' {| sv_db := apply_pending p (sv_db g); sv_queue := q; sv_pipe := sv_pipe g;
                    sv_clients := sv_clients g |}.
Proof.
  intros [He Hq Hpe Hpi Hfd Hw Hpo] Eq. cbn [step]. rewrite Hq, Eq in *. cbn [fmap list_fmap].
  apply Forall_cons in Hpe as [Hp Hpe].
  destruct (writer_step_shared _ _ p He Hp) as (e' & Hs & He' & Hl & Hm). rewrite Hs. cbn [obind].
  eexists. split; [done|]. split; simpl; try done.
  - eapply Forall2_impl; [done|]. intros k cl [Ho Hsn Hst]. split; [done| |done].
    unfold snap_rel. by rewrite Hl.
  - destruct Hpo. split; [done|by rewrite Hl|by rewrite Hm].
Qed.

Lemma step_refines w g ev g' junk jl :
  world_rel w g -> sevent_ok ev -> sv_step ev g = Some g' ->
  exists w', step junk jl (event_of ev) w = Done w' /\ world_rel w' g'.
Proof.
  intros HR Hev Hs. destruct ev as [f nn|i groups|i|].
  - injection Hs as <-. cbn [event_of step]. destruct (Z.ltb_spec f 0) as [Hf|Hf]; [by exists w|].
    eexists. split; [done|]. destruct HR as [He Hq Hpe Hpi Hfd Hw Hpo].
    unfold connection_thread_push_socket. split; simpl; try done; [by rewrite Hpi|].
    destruct (nn <? 0); [done|]. apply Forall_app. split; [done|by repeat constructor].
  - by eapply take_refines.
  - cbn [sv_step event_of] in *.
    pose proof (proj1 (Forall2_lookup _ _ _) (wo_workers w g HR) i) as Hwi.
    destruct (sv_clients g !! i) as [cl|] eqn:Hcl; inversion Hwi as [k ? _ Hk|Hk]; subst.
    + destruct (cs_open cl) eqn:Hop; cbn [negb] in Hs.
      * destruct (sv_serve g cl) as [[s cl']|] eqn:Hsv; [|done]. injection Hs as <-.
        by eapply serve_refines.
      * injection Hs as <-. exists w. split; [|done]. cbn [step]. rewrite <- Hk.
        by rewrite (worker_idle w g i k cl HR), Hop.
    + injection Hs as <-. exists w. cbn [step]. by rewrite <- Hk.
  - cbn [sv_step event_of] in *. destruct (sv_queue g) as [|p q] eqn:Eq.
    + injection Hs as <-. exists w. split; [|done]. cbn [step]. by rewrite (wo_queue w g HR), Eq.
    + injection Hs as <-. by apply write_refines.
Qed.

Lemma run_refines evs w g g' junk jl :
  world_rel w g -> Forall sevent_ok evs -> sv_run evs g = Some g' ->
  exists w', run junk jl (event_of <$> evs) w = Done w' /\ world_rel w' g'.
Proof.
  intros HR Hev. revert w g HR. induction Hev as [|ev evs Hev _ IH]; intros w g HR Hs.
  { injection Hs as <-. by exists w. }
  cbn [sv_run] in Hs. destruct (sv_step ev g) as [g1|] eqn:E1; [|done].
  destruct (step_refines w g ev g1 junk jl HR Hev E1) as (w1 & H1 & HR1).
  destruct (IH w1 g1 HR1 Hs) as (w' & Hr & HR'). exists w'. split; [|done].
  cbn [fmap list_fmap run]. by rewrite H1.
Qed.
End refinement.
