(* ===== verification/Progress.v ===== *)
(** * Progress: every connection comes to an end

    The loops of the server are modelled with fuel.  This file shows that the
    fuel the model uses is enough, for every client stream and every behaviour
    of the sockets, the allocator and the storage layer: no request handler
    runs out of fuel, and the request loop ends after at most one turn per
    byte received. *)
From S2P Require Import Prelude Protocol Dynabin Lmdb Database Connection Compressor Spec Commands Server.

(** ** Computations that never run out of fuel *)
Definition nofuel {S A} (m : CM S A) : Prop := forall s, m s <> Fault OutOfFuel.

Lemma nofuel_ret {S A} (a : A) : nofuel (@cret S A a).
Proof. done. Qed.
Lemma nofuel_get {S} : nofuel (@cget S).
Proof. done. Qed.
Lemma nofuel_fault {S A} f : f <> OutOfFuel -> nofuel (@cfault S A f).
Proof. intros H s. unfold cfault. congruence. Qed.
Lemma nofuel_bind {S A B} (m : CM S A) (k : A -> CM S B) :
  nofuel m -> (forall a, nofuel (k a)) -> nofuel (cbind m k).
Proof.
  intros Hm Hk s. unfold cbind. specialize (Hm s).
  destruct (m s) as [[a s']|f]; [apply Hk|]. congruence.
Qed.
Lemma nofuel_lift {S A} (o : outcome A) : o <> Fault OutOfFuel -> nofuel (@clift S A o).
Proof. intros H s. unfold clift. destruct o; congruence. Qed.
Lemma nofuel_done {S A} (f : S -> A * S) : nofuel (fun s => Done (f s)).
Proof. done. Qed.
Lemma blk_write_nofuel b p d : blk_write b p d <> Fault OutOfFuel.
Proof. unfold blk_write. by destruct (_ && _). Qed.
Lemma blk_read_nofuel b p n : blk_read b p n <> Fault OutOfFuel.
Proof. unfold blk_read. by destruct (_ && _ && _). Qed.
Create HintDb progress discriminated.
#[export] Hint Resolve nofuel_ret nofuel_get nofuel_lift blk_write_nofuel blk_read_nofuel : progress.

(** [nofuel]: decompose a computation into its steps. *)
Ltac nofuel :=
  repeat (intros; match goal with
  | |- nofuel (cbind _ _) => apply nofuel_bind
  | |- nofuel (cfault _) => by apply nofuel_fault
  | |- nofuel (match ?x with _ => _ end) => destruct x
  | |- nofuel (let '_ := ?x in _) => destruct x
  | |- nofuel (fun _ => Done _) => intros ?; done
  | |- nofuel _ => solve [auto with progress]
  end).

Lemma page_result_nofuel : nofuel page_result.
Proof. intros e. unfold page_result. by destruct (script_next 0 (me_script e)). Qed.
Lemma txn_load_nofuel t : nofuel (txn_load t).
Proof. intros e. unfold txn_load. by destruct (me_live e !! t). Qed.
Lemma txn_store_nofuel t x : nofuel (txn_store t x).
Proof. done. Qed.
Lemma dbi_close_nofuel i : nofuel (mdb_dbi_close i).
Proof. intros e. unfold mdb_dbi_close. by destruct (_ || _). Qed.
#[export] Hint Resolve page_result_nofuel txn_load_nofuel txn_store_nofuel dbi_close_nofuel
  : progress.

Lemma txn_begin_nofuel b : nofuel (mdb_txn_begin b).
Proof.
  unfold mdb_txn_begin. nofuel. intros e. destruct b.
  - by destruct (_ <=? _)%nat.
  - by destruct (me_txn e).
Qed.
Lemma txn_abort_nofuel t : nofuel (mdb_txn_abort t).
Proof. unfold mdb_txn_abort. nofuel. Qed.
#[export] Hint Resolve txn_begin_nofuel txn_abort_nofuel : progress.
Lemma txn_commit_nofuel t : nofuel (mdb_txn_commit t).
Proof. unfold mdb_txn_commit. nofuel. Qed.
Lemma dbi_register_nofuel t n m c u : nofuel (dbi_register t n m c u).
Proof. unfold dbi_register. nofuel. Qed.
#[export] Hint Resolve txn_commit_nofuel dbi_register_nofuel : progress.
Lemma dbi_open_nofuel t n c : nofuel (mdb_dbi_open t n c).
Proof. unfold mdb_dbi_open. nofuel. Qed.
Lemma db_find_nofuel e t i k : db_find e t i k <> Fault OutOfFuel.
Proof. unfold db_find. destruct (i =? _)%nat; [|done]. by destruct (mt_main t !! k) as [[]|]. Qed.
#[export] Hint Resolve dbi_open_nofuel db_find_nofuel : progress.
Lemma mdb_get_nofuel t i k : nofuel (mdb_get t i k).
Proof. unfold mdb_get. nofuel. Qed.
Lemma mdb_put_nofuel t i k d o : nofuel (mdb_put t i k d o).
Proof. unfold mdb_put. nofuel. Qed.
Lemma mdb_del_nofuel t i k : nofuel (mdb_del t i k).
Proof. unfold mdb_del. nofuel. Qed.
#[export] Hint Resolve mdb_get_nofuel mdb_put_nofuel mdb_del_nofuel : progress.
Lemma txn_start_nofuel b : nofuel (database_transaction_start b).
Proof. unfold database_transaction_start. nofuel. Qed.
Lemma database_commit_nofuel t : nofuel (database_transaction_commit t).
Proof. unfold database_transaction_commit. nofuel. Qed.
Lemma rollback_nofuel t : nofuel (database_transaction_rollback t).
Proof. unfold database_transaction_rollback. nofuel. Qed.
#[export] Hint Resolve txn_start_nofuel database_commit_nofuel rollback_nofuel : progress.
Lemma open_transaction_nofuel t b : nofuel (open_transaction t b).
Proof. unfold open_transaction. nofuel. Qed.
Lemma end_of_process_nofuel t x r : nofuel (end_of_process t x r).
Proof. unfold end_of_process. nofuel. Qed.
#[export] Hint Resolve open_transaction_nofuel end_of_process_nofuel : progress.
Lemma database_put_nofuel t c n k d : nofuel (database_put t c n k d).
Proof. unfold database_put. nofuel. Qed.
Lemma database_del_nofuel t n k : nofuel (database_del t n k).
Proof. unfold database_del. nofuel. Qed.
Lemma database_get_nofuel t n k j : nofuel (database_get t n k j).
Proof. unfold database_get. nofuel. Qed.
#[export] Hint Resolve database_put_nofuel database_del_nofuel database_get_nofuel : progress.

(** ** Computations that consume the input *)

(** Bytes a connection still has to process. *)
Definition input_left (c : conn) : Z := yd_len (c_buff c) + rx_total (c_rx c).

Definition buff_pos (c : conn) : Prop := 0 <= yd_len (c_buff c).
Definition consumes {A} (m : CM conn A) : Prop := forall c, buff_pos c ->
  match m c with
  | Done (_, c') => buff_pos c' /\ input_left c' <= input_left c
  | Fault f => f <> OutOfFuel
  end.

Lemma consumes_ret {A} (a : A) : consumes (cret a).
Proof. by intros c Hc. Qed.
Lemma consumes_get : consumes cget.
Proof. by intros c Hc. Qed.
Lemma consumes_fault {A} f : f <> OutOfFuel -> consumes (@cfault conn A f).
Proof. by intros H c Hc. Qed.
Lemma consumes_bind {A B} (m : CM conn A) (k : A -> CM conn B) :
  consumes m -> (forall a, consumes (k a)) -> consumes (cbind m k).
Proof.
  intros Hm Hk c Hc. unfold cbind. specialize (Hm c Hc).
  destruct (m c) as [[a c1]|f]; [|done]. destruct Hm as [Hp Hl].
  specialize (Hk a c1 Hp). destruct (k a c1) as [[b c2]|]; [|done]. split; [apply Hk|lia].
Qed.
Lemma consumes_lift {A} (o : outcome A) : o <> Fault OutOfFuel -> consumes (clift o).
Proof. intros H c Hc. unfold clift. destruct o; [done|congruence]. Qed.
Lemma consumes_env {A} (m : CM MDB_env A) : nofuel m -> consumes (on_env m).
Proof.
  intros H c Hc. unfold on_env. specialize (H (c_env c)).
  destruct (m (c_env c)) as [[a e]|f]; [done|]. congruence.
Qed.
Lemma consumes_alloc {A} (m : CM alloc A) : nofuel m -> consumes (on_alloc m).
Proof.
  intros H c Hc. unfold on_alloc. specialize (H (c_alloc c)).
  destruct (m (c_alloc c)) as [[a e]|f]; [done|]. congruence.
Qed.
Lemma ymalloc_nofuel n : nofuel (ymalloc n).
Proof. intros s. unfold ymalloc. by destruct (script_next true s). Qed.
#[export] Hint Resolve consumes_ret consumes_get consumes_lift consumes_env consumes_alloc
  ymalloc_nofuel : progress.

(** [consumes]: the same decomposition for handlers. *)
Ltac consumes :=
  repeat (intros; match goal with
  | |- consumes (cbind _ _) => apply consumes_bind
  | |- consumes (cfault _) => by apply consumes_fault
  | |- consumes (match ?x with _ => _ end) => destruct x
  | |- consumes _ => solve [auto with progress]
  end).

(** *** The buffer *)
Lemma grow_len c n s c' s' :
  ydynabin_grow c n s = Done (Some c', s') -> yd_len c' = yd_len c.
Proof.
  unfold ydynabin_grow. intros H. cinv H. destruct a as [blk|]; [|done]. cinv H.
  by injection H as <- <-.
Qed.
Lemma expand_len c d s rc c' s' :
  0 <= yd_len c -> ydynabin_expand c (Some d) (lenZ d) s = Done ((rc, c'), s') ->
  0 <= yd_len c' <= yd_len c + lenZ d.
Proof.
  intros Hc. unfold ydynabin_expand. pose proof (lenZ_nonneg d).
  destruct (lenZ d =? 0); [intros [= <- <- <-]; lia|]. intros Hx. cinv Hx.
  assert (Hl : match a with Some c1 => yd_len c1 = yd_len c | None => True end).
  { destruct (_ <? _); [|by injection Hs as <- <-]. destruct a; [|done]. by eapply grow_len. }
  destruct a as [c1|]; [|injection Hx as <- <- <-; lia].
  destruct (yd_data c1); [|done]. cinv Hx. cinv Hx. injection Hx as <- <- <-. simpl.
  pose proof (wrap_bound 64 (yd_len c1 + lenZ d)). unfold wrap in *.
  pose proof (Z.mod_le (yd_len c1 + lenZ d) (2 ^ 64)). lia.
Qed.
Lemma grow_nofuel c n : nofuel (ydynabin_grow c n).
Proof. unfold ydynabin_grow. nofuel. Qed.
#[export] Hint Resolve grow_nofuel : progress.
Lemma expand_nofuel c d n : nofuel (ydynabin_expand c d n).
Proof. unfold ydynabin_expand. nofuel. Qed.

Lemma read_loop_consumes fuel size c :
  buff_pos c -> rx_total (c_rx c) < Z.of_nat fuel ->
  match read_loop fuel size c with
  | Done (_, c') => buff_pos c' /\ input_left c' <= input_left c
  | Fault f => f <> OutOfFuel
  end.
Proof.
  revert c. induction fuel as [|fuel IH]; intros c Hc Hf.
  { pose proof (rx_total_nonneg (c_rx c)). lia. }
  cbn [read_loop]. destruct (_ <=? _); [done|].
  pose proof (recv_step_total (c_rx c)) as Ht. destruct (recv_step (c_rx c)) as [[| |d] r].
  1,2: split; [done|]; unfold input_left; simpl; lia.
  unfold cbind, on_alloc. cbn [set_rx c_buff c_alloc].
  pose proof (expand_nofuel (c_buff c) (Some d) (lenZ d) (c_alloc c)) as Hn.
  destruct (ydynabin_expand (c_buff c) (Some d) (lenZ d) (c_alloc c)) as [[[rc b] s]|f] eqn:E;
    [|congruence].
  apply expand_len in E; [|done]. destruct (negb _).
  - split; [unfold buff_pos; simpl; lia|]. unfold input_left. simpl. lia.
  - specialize (IH (set_buff b (set_alloc s (set_rx r c)))).
    cbn [set_buff c_rx set_alloc set_rx] in IH. unfold buff_pos in *. simpl in IH.
    specialize (IH ltac:(lia) ltac:(lia)). simpl. unfold set_alloc, set_rx in *. simpl in *.
    destruct (read_loop _ _ _) as [[rc' c']|]; [|done]. destruct IH. split; [done|].
    unfold input_left in *. simpl in *. lia.
Qed.

Lemma read_data_consumes size : consumes (connection_read_data size).
Proof.
  intros c Hc. unfold connection_read_data.
  destruct (fd _ <? 0); [done|]. destruct (_ <=? _); [done|].
  apply read_loop_consumes; [done|]. pose proof (rx_total_nonneg (c_rx c)). lia.
Qed.

Lemma forward_bytes_input n c :
  0 <= n -> buff_pos c ->
  match forward_bytes n c with
  | Done (_, c') => buff_pos c' /\
      (n <= yd_len (c_buff c) -> input_left c' = input_left c - n) /\ input_left c' <= input_left c
  | Fault f => f <> OutOfFuel
  end.
Proof.
  intros Hn Hc. unfold forward_bytes, ydynabin_forward, buff_pos, input_left in *.
  destruct (Z.ltb_spec (yd_len (c_buff c)) n); destruct (Z.eqb_spec n 0); try done; simpl; try lia.
  destruct (yd_view (c_buff c)) as [v|]; [|done].
  pose proof (blk_read_nofuel v 0 n). destruct (blk_read v 0 n); [simpl; lia|congruence].
Qed.
Lemma forward_bytes_negative n c :
  n < 0 -> buff_pos c ->
  match forward_bytes n c with
  | Done _ => False
  | Fault f => f <> OutOfFuel
  end.
Proof.
  intros Hn Hc. unfold forward_bytes, buff_pos in *. destruct (ydynabin_forward _ _) as [p b].
  rewrite (proj2 (Z.eqb_neq _ _)) by lia. destruct p as [v|]; [|done].
  unfold blk_read. by rewrite (proj2 (Z.leb_gt 0 n)), andb_false_r by lia.
Qed.
Lemma forward_bytes_consumes n : consumes (forward_bytes n).
Proof.
  intros c Hc. destruct (Z.le_gt_cases 0 n).
  - pose proof (forward_bytes_input n c ltac:(lia) Hc) as Hf.
    destruct (forward_bytes n c) as [[d c']|]; [|done]. split; apply Hf.
  - pose proof (forward_bytes_negative n c ltac:(lia) Hc) as Hf.
    by destruct (forward_bytes n c) as [[d c']|].
Qed.
Lemma sendmsg_consumes m : consumes (sendmsg m).
Proof. intros c Hc. unfold sendmsg. destruct (script_next None (c_tx c)) as [[]]; done. Qed.
Lemma nn_send_consumes m : consumes (nn_send m).
Proof. intros c Hc. unfold nn_send. destruct (script_next 8 (c_nn c)) as [z l]. by destruct (_ <? _). Qed.
Lemma modify_thread_consumes f : consumes (modify_thread f).
Proof. by intros c Hc. Qed.
#[export] Hint Resolve read_data_consumes forward_bytes_consumes sendmsg_consumes
  nn_send_consumes modify_thread_consumes : progress.
Lemma send_response_consumes r s c d n : consumes (connection_send_response r s c d n).
Proof. unfold connection_send_response. consumes. Qed.
Lemma read_field_consumes n : consumes (read_field n).
Proof. unfold read_field. consumes. Qed.
Lemma copy_block_consumes n d : consumes (copy_block n d).
Proof. unfold copy_block. consumes. Qed.
#[export] Hint Resolve send_response_consumes read_field_consumes copy_block_consumes : progress.
Lemma server_error_consumes : consumes server_error.
Proof. unfold server_error, CONNECTION_SEND_ERROR. consumes. Qed.
Lemma read_key_consumes : consumes read_key.
Proof. unfold read_key. consumes. Qed.
Lemma read_value_consumes : consumes read_value.
Proof. unfold read_value. consumes. Qed.
Lemma strdup_consumes s : consumes (strdup_opt s).
Proof. unfold strdup_opt. consumes. Qed.
Lemma snappy_init_nofuel : nofuel snappy_init_env.
Proof. unfold snappy_init_env. nofuel. Qed.
#[export] Hint Resolve server_error_consumes read_key_consumes read_value_consumes
  strdup_consumes snappy_init_nofuel : progress.

(** *** The handlers *)
Section handlers.
Context `{HS : Snappy}.
(** The codec itself always returns. *)
Hypothesis compress_total : forall d n, snappy_compress d n <> Fault OutOfFuel.
Hypothesis uncompress_total : forall z n, snappy_uncompress z n <> Fault OutOfFuel.
Hint Resolve compress_total uncompress_total : progress.

Lemma command_ping_consumes a b c : consumes (command_ping a b c).
Proof. unfold command_ping, CONNECTION_SEND_OK. consumes. Qed.
Lemma command_get_consumes j l a b c : consumes (command_get j l a b c).
Proof. unfold command_get, CONNECTION_SEND_ERROR. consumes. Qed.
Lemma command_del_consumes a b c : consumes (command_del a b c).
Proof. unfold command_del, CONNECTION_SEND_OK. consumes. Qed.
Lemma put_data_consumes c d : consumes (put_data c d).
Proof. unfold put_data. consumes. Qed.
Lemma put_sync_consumes a b j n d : consumes (put_sync a b j n d).
Proof. unfold put_sync. consumes. Qed.
Hint Resolve put_data_consumes put_sync_consumes : progress.
Lemma command_put_consumes j a b c : consumes (command_put j a b c).
Proof. unfold command_put, put_request, CONNECTION_SEND_OK. consumes. Qed.
Lemma command_setdb_consumes a b c : consumes (command_setdb a b c).
Proof. unfold command_setdb, CONNECTION_SEND_OK. consumes. Qed.
Lemma command_start_consumes a b c : consumes (command_start a b c).
Proof. unfold command_start, CONNECTION_SEND_OK, CONNECTION_SEND_ERROR. consumes. Qed.
Lemma command_stop_consumes a b c : consumes (command_stop a b c).
Proof. unfold command_stop, CONNECTION_SEND_OK, CONNECTION_SEND_ERROR. consumes. Qed.
Hint Resolve command_ping_consumes command_get_consumes command_del_consumes
  command_put_consumes command_setdb_consumes command_start_consumes command_stop_consumes
  : progress.

Lemma command_handler_consumes j l n f a b c :
  command_handler j l n = Some f -> consumes (f a b c).
Proof.
  assert (Hall : Forall (fun h : option command_handler_t =>
    match h with Some f => forall a b c, consumes (f a b c) | None => True end) (_commands j l)).
  { unfold _commands. repeat constructor; auto with progress. }
  unfold command_handler. intros Hf.
  destruct (_commands j l !! Z.to_nat n) as [h|] eqn:E; [|done]. simpl in Hf. subst h.
  apply (Forall_lookup_1 _ _ _ _ Hall E).
Qed.

(** A turn of the request loop that goes on has consumed a byte. *)
Lemma process_request_progress j l c :
  buff_pos c ->
  match process_request j l c with
  | Done (go, c') => buff_pos c' /\ input_left c' + Z.b2z go <= input_left c
  | Fault f => f <> OutOfFuel
  end.
Proof.
  intros Hc. unfold process_request, cbind at 1.
  pose proof (read_data_consumes 1 c Hc) as Hr.
  destruct (connection_read_data 1 c) as [[rc c1]|f]; [|done]. destruct Hr as [Hp Hl].
  destruct (negb (rc =? YENOERR)); [simpl; split; [done|lia]|].
  unfold cbind at 1. pose proof (forward_bytes_input 1 c1 ltac:(lia) Hp) as Hf.
  assert (Hone : match forward_bytes 1 c1 with
                 | Done _ => 1 <= yd_len (c_buff c1)
                 | Fault _ => True
                 end).
  { unfold forward_bytes, ydynabin_forward. destruct (Z.ltb_spec (yd_len (c_buff c1)) 1); [done|].
    simpl. destruct (yd_view _); [|done]. by destruct (blk_read _ _ _). }
  destruct (forward_bytes 1 c1) as [[d c2]|]; [|done]. destruct Hf as (Hp2 & Hin & _).
  specialize (Hin Hone). unfold cget, cbind at 1.
  destruct (command_handler j l _) as [func|] eqn:E.
  - match goal with |- context [cbind (func ?x ?y ?z)] =>
      pose proof (command_handler_consumes j l _ func x y z E c2 Hp2) as Hh;
      unfold cbind; destruct (func x y z c2) as [[r c3]|]; [|done] end.
    destruct Hh as [Hp3 Hl3]. simpl. split; [done|].
    destruct (r =? YENOERR); simpl; lia.
  - unfold CONNECTION_SEND_ERROR, cbind.
    pose proof (send_response_consumes RESP_ERR_PROTOCOL false false None 0 c2 Hp2) as Hs.
    destruct (connection_send_response _ _ _ _ _ c2) as [[r c3]|]; [|done].
    destruct Hs. simpl. split; [done|lia].
Qed.

Lemma request_loop_ends fuel j l c :
  buff_pos c -> input_left c < Z.of_nat fuel ->
  request_loop fuel j l c <> Fault OutOfFuel.
Proof.
  revert c. induction fuel as [|fuel IH]; intros c Hc Hf.
  { pose proof (rx_total_nonneg (c_rx c)). unfold buff_pos, input_left in *. lia. }
  cbn [request_loop]. unfold cbind. pose proof (process_request_progress j l c Hc) as Hp.
  destruct (process_request j l c) as [[[] c1]|f]; [|done|congruence].
  destruct Hp as [Hp Hl]. apply IH; [done|]. simpl in Hl. lia.
Qed.
End handlers.
