(* ===== verification/Client.v ===== *)
(** * Client: the client library src/src/lib/libfinedb.c

    A client is its [finedb_client_t] and the world it talks to: what each
    [read] of the socket delivers, what each [write] or [sendmsg] returns, the
    allocator, and the bytes it has sent.  [junk_len] is the value of an
    uninitialised length. *)
From S2P Require Import Prelude Protocol Dynabin Connection Compressor Spec.

Inductive finedb_result_t :=
  | FINEDB_OK | FINEDB_ERR_NETWORK | FINEDB_ERR_SERVER | FINEDB_ERR_FILE
  | FINEDB_ERR_MEMORY | FINEDB_ERR_ZIP.
#[export] Instance finedb_result_eq_dec : EqDecision finedb_result_t.
Proof. solve_decision. Defined.

Record client := {
  cl_hostname : bytes;
  cl_port : Z;
  cl_sock : Z;
  cl_sync : bool;
  cl_rx : list rx;
  cl_tx : list (option Z);
  cl_out : bytes;
  cl_alloc : alloc
}.
Definition cl_set_sock (s : Z) (c : client) : client :=
  {| cl_hostname := cl_hostname c; cl_port := cl_port c; cl_sock := s; cl_sync := cl_sync c;
     cl_rx := cl_rx c; cl_tx := cl_tx c; cl_out := cl_out c; cl_alloc := cl_alloc c |}.
Definition cl_set_sync (s : bool) (c : client) : client :=
  {| cl_hostname := cl_hostname c; cl_port := cl_port c; cl_sock := cl_sock c; cl_sync := s;
     cl_rx := cl_rx c; cl_tx := cl_tx c; cl_out := cl_out c; cl_alloc := cl_alloc c |}.
Definition cl_set_rx (r : list rx) (c : client) : client :=
  {| cl_hostname := cl_hostname c; cl_port := cl_port c; cl_sock := cl_sock c;
     cl_sync := cl_sync c; cl_rx := r; cl_tx := cl_tx c; cl_out := cl_out c;
     cl_alloc := cl_alloc c |}.
Definition cl_set_tx (t : list (option Z)) (o : bytes) (c : client) : client :=
  {| cl_hostname := cl_hostname c; cl_port := cl_port c; cl_sock := cl_sock c;
     cl_sync := cl_sync c; cl_rx := cl_rx c; cl_tx := t; cl_out := o;
     cl_alloc := cl_alloc c |}.
Definition cl_set_alloc (a : alloc) (c : client) : client :=
  {| cl_hostname := cl_hostname c; cl_port := cl_port c; cl_sock := cl_sock c;
     cl_sync := cl_sync c; cl_rx := cl_rx c; cl_tx := cl_tx c; cl_out := cl_out c;
     cl_alloc := a |}.
Definition cl_on_alloc {A} (m : CM alloc A) : CM client A := fun c =>
  match m (cl_alloc c) with
  | Done (a, s) => Done (a, cl_set_alloc s c)
  | Fault f => Fault f
  end.

(** ** System calls *)
Definition cl_write (msg : bytes) : CM client Z := fun c =>
  let '(r, tx) := script_next None (cl_tx c) in
  match r with
  | None => Done (lenZ msg, cl_set_tx tx (cl_out c ++ msg) c)
  | Some rc => Done (rc, cl_set_tx tx (cl_out c ++ takeZ rc msg) c)
  end.
(** [read(sock, &res, 1)]: the byte, or [None] when the result is not 1. *)
Definition cl_read1 : CM client (option Z) := fun c =>
  match cl_rx c with
  | [] => Done (None, c)
  | RxErr :: r => Done (None, cl_set_rx r c)
  | RxData [] :: r => Done (None, cl_set_rx r c)
  | RxData [b] :: r => Done (Some b, cl_set_rx r c)
  | RxData (b :: d) :: r => Done (Some b, cl_set_rx (RxData d :: r) c)
  end.

(** ** Connection management *)
Definition finedb_create (hostname : bytes) (port : Z) (rx : list rx) (tx : list (option Z))
    : CM alloc (option client) :=
  let! blk := ymalloc 40 in
  match blk with
  | None => cret None
  | Some _ =>
      let! h := ymalloc (lenZ hostname + 1) in
      match h with
      | None => cret None
      | Some _ => fun s =>
          Done (Some {| cl_hostname := hostname; cl_port := port; cl_sock := -1;
                        cl_sync := false; cl_rx := rx; cl_tx := tx; cl_out := [];
                        cl_alloc := s |}, s)
      end
  end.

(** The descriptors that get closed are returned; the field keeps its value. *)
Definition finedb_disconnect (c : client) : list Z * client :=
  (if -1 <? cl_sock c then [cl_sock c] else [], c).
Definition finedb_delete (c : client) : list Z := fst (finedb_disconnect c).

(** [host]: whether the name could be resolved; [rc] is the result of
    [connect]. *)
Definition finedb_connect (sockfd : Z) (host : bool) (rc : Z) (c : client)
    : finedb_result_t * list Z * client :=
  let '(closed, c) := finedb_disconnect c in
  if negb host then (FINEDB_ERR_NETWORK, closed, cl_set_sock (-1) c)
  else if rc <? 0 then (FINEDB_ERR_NETWORK, closed, cl_set_sock (-1) c)
  else (FINEDB_OK, closed, cl_set_sock sockfd c).

Definition finedb_sync (c : client) : client := cl_set_sync true c.
Definition finedb_async (c : client) : client := cl_set_sync false c.

(** ** Reading a response *)
Record reader := { rd_buff : ydynabin_t; rd_rx : list rx; rd_alloc : alloc }.
Fixpoint _read_loop (fuel : nat) (size : Z) (s : reader) : outcome (yerr_t * reader) :=
  if size <=? yd_len (rd_buff s) then Done (YENOERR, s) else
  match fuel with
  | O => Fault OutOfFuel
  | S fuel =>
      let '(r, rx) := recv_step (rd_rx s) in
      match r with
      | RecvError => Done (YEACCESS, {| rd_buff := rd_buff s; rd_rx := rx; rd_alloc := rd_alloc s |})
      | RecvClosed =>
          Done (YECONNRESET, {| rd_buff := rd_buff s; rd_rx := rx; rd_alloc := rd_alloc s |})
      | RecvBytes d =>
          match ydynabin_expand (rd_buff s) (Some d) (lenZ d) (rd_alloc s) with
          | Fault f => Fault f
          | Done ((dynaerr, b), a) =>
              let s := {| rd_buff := b; rd_rx := rx; rd_alloc := a |} in
              if negb (dynaerr =? YENOERR) then Done (dynaerr, s) else _read_loop fuel size s
          end
      end
  end.
Definition _read_data (size : Z) (s : reader) : outcome (yerr_t * reader) :=
  if size <=? yd_len (rd_buff s) then Done (YENOERR, s)
  else _read_loop (S (Z.to_nat (rx_total (rd_rx s)))) size s.

(** [_read_data] into the local buffer [b], followed by [ydynabin_forward]
    and the access to the bytes; [None] on an error. *)
Definition cl_field (n : Z) (b : ydynabin_t) : CM client (option bytes * ydynabin_t) := fun c =>
  match _read_data n {| rd_buff := b; rd_rx := cl_rx c; rd_alloc := cl_alloc c |} with
  | Fault f => Fault f
  | Done (rc, s) =>
      let c := cl_set_alloc (rd_alloc s) (cl_set_rx (rd_rx s) c) in
      if negb (rc =? YENOERR) then Done ((None, rd_buff s), c)
      else
        match ydynabin_forward (rd_buff s) n with
        | (None, _) => Fault NullDeref
        | (Some v, b) =>
            match blk_read v 0 n with
            | Done d => Done ((Some d, b), c)
            | Fault f => Fault f
            end
        end
  end.

(** ** Requests *)

(** The one-byte answer of most requests. *)
Definition cl_answer : CM client finedb_result_t :=
  let! res := cl_read1 in
  match res with
  | None => cret FINEDB_ERR_NETWORK
  | Some res =>
      if negb (RESPONSE_STATUS res =? response_code RESP_OK) then cret FINEDB_ERR_SERVER
      else cret FINEDB_OK
  end.

Definition finedb_setdb (dbname : option bytes) : CM client finedb_result_t :=
  let name := default [] dbname in
  let buflen := 2 + lenZ name in
  let! buff := cl_on_alloc (ymalloc buflen) in
  match buff with
  | None => cfault NullDeref
  | Some _ =>
      let! rc := cl_write ([command_code PROTO_SETDB; u8 (lenZ name)] ++ name) in
      if negb (rc =? buflen) then cret FINEDB_ERR_NETWORK else cl_answer
  end.

(** The message of GET and DEL. *)
Definition key_message (code : Z) (key : bytes) : bytes :=
  [code] ++ be_bytes 2 (u16 (lenZ key)) ++ key.

Definition finedb_del (key : bytes) : CM client finedb_result_t := fun c =>
  let code := command_code PROTO_DEL in
  let code := if cl_sync c then REQUEST_ADD_SYNC code else code in
  (let! rc := cl_write (key_message code key) in
   if negb (rc =? 1 + 2 + lenZ key) then cret FINEDB_ERR_NETWORK else cl_answer) c.

Definition _send_simple_request (code : Z) : CM client (finedb_result_t * Z) :=
  let! rc := cl_write [code] in
  if negb (rc =? 1) then cret (FINEDB_ERR_NETWORK, 0)
  else
    let! res := cl_read1 in
    match res with
    | None => cret (FINEDB_ERR_NETWORK, 0)
    | Some res => cret (FINEDB_OK, res)
    end.
Definition simple_request (cmd : protocol_command_t) : CM client finedb_result_t :=
  let! '(rc, code) := _send_simple_request (command_code cmd) in
  if bool_decide (rc <> FINEDB_OK) then cret rc
  else if negb (RESPONSE_STATUS code =? response_code RESP_OK) then cret FINEDB_ERR_SERVER
  else cret FINEDB_OK.
Definition finedb_start : CM client finedb_result_t := simple_request PROTO_START.
Definition finedb_stop : CM client finedb_result_t := simple_request PROTO_STOP.
Definition finedb_ping : CM client finedb_result_t := simple_request PROTO_PING.

Section requests.
Context `{Snappy}.

Definition finedb_get (junk_len : Z) (key : bytes)
    : CM client (finedb_result_t * option bytes) :=
  let code := REQUEST_ADD_COMPRESSED (command_code PROTO_GET) in
  let! rc := cl_write (key_message code key) in
  if negb (rc =? 1 + 2 + lenZ key) then cret (FINEDB_ERR_NETWORK, None)
  else
  let! buff := cl_on_alloc (ydynabin_new None 0 false) in
  match buff with
  | None => cfault NullDeref
  | Some b =>
  let! '(r, b) := cl_field 1 b in
  match r with
  | None => cret (FINEDB_ERR_NETWORK, None)
  | Some byte =>
  let code := be_val byte in
  if negb (RESPONSE_STATUS code =? response_code RESP_OK)
  then cret (FINEDB_ERR_SERVER, None)
  else
  let! '(r, b) := cl_field 4 b in
  match r with
  | None => cret (FINEDB_ERR_NETWORK, None)
  | Some pdata_len =>
  let data_len := be_val pdata_len in
  if 0 <? data_len then
    let! '(r, b) := cl_field data_len b in
    match r with
    | None => cret (FINEDB_ERR_NETWORK, None)
    | Some ptr =>
    let! data := cl_on_alloc (ymalloc data_len) in
    match data with
    | None => cret (FINEDB_ERR_MEMORY, None)
    | Some _ =>
    if cbool (REQUEST_HAS_COMPRESSED code) then
      let unzip_len := default junk_len (snappy_uncompressed_length ptr) in
      let! blk := cl_on_alloc (ymalloc unzip_len) in
      match blk with
      | None => cret (FINEDB_ERR_MEMORY, None)
      | Some _ =>
          let! '(rc, u) := clift (snappy_uncompress ptr unzip_len) in
          if negb (rc =? 0) then cret (FINEDB_ERR_ZIP, None)
          else cret (FINEDB_OK, Some u)
      end
    else cret (FINEDB_OK, Some ptr)
    end end
  else cret (FINEDB_OK, Some [])
  end end end.

Definition _send_key_data (create_only update_only : bool) (key data : bytes)
    : CM client finedb_result_t :=
  let! rc := cl_on_alloc snappy_init_env in
  if negb (rc =? 0) then cret FINEDB_ERR_NETWORK
  else
  let max := snappy_max_compressed_length (lenZ data) in
  let! blk := cl_on_alloc (ymalloc max) in
  match blk with
  | None => cret FINEDB_ERR_MEMORY
  | Some _ =>
  let! '(rc, zip) := clift (snappy_compress data max) in
  if negb (rc =? 0) then cret FINEDB_ERR_ZIP
  else if max <=? lenZ zip then cfault HeapOverflow
  else fun c =>
    let code := REQUEST_ADD_COMPRESSED (command_code PROTO_PUT) in
    let code := if cl_sync c then REQUEST_ADD_SYNC code else code in
    (let! rc := cl_write ([code] ++ be_bytes 2 (u16 (lenZ key)) ++ key ++
                          be_bytes 4 (u32 (lenZ zip)) ++ zip) in
     if negb (rc =? 1 + 2 + lenZ key + 4 + lenZ zip) then cret FINEDB_ERR_NETWORK
     else cl_answer) c
  end.
Definition finedb_put (key data : bytes) : CM client finedb_result_t :=
  _send_key_data false false key data.
Definition finedb_add (key data : bytes) : CM client finedb_result_t :=
  _send_key_data true false key data.
Definition finedb_update (key data : bytes) : CM client finedb_result_t :=
  _send_key_data false true key data.
End requests.

(** ** Lemmas *)
Record client_ok (c : client) : Prop := {
  ck_tx : cl_tx c = [];
  ck_alloc : cl_alloc c = []
}.

Lemma cl_write_ok m c :
  cl_tx c = [] -> cl_write m c = Done (lenZ m, cl_set_tx [] (cl_out c ++ m) c).
Proof. intros Ht. unfold cl_write. by rewrite Ht. Qed.
Lemma cl_malloc_ok n c :
  cl_alloc c = [] -> cl_on_alloc (ymalloc n) c = Done (Some (zeros n), c).
Proof.
  intros Ha. unfold cl_on_alloc, ymalloc. rewrite Ha. cbn [script_next].
  destruct c; simpl in *; by subst.
Qed.

(** The buffer after [_read_data] and [ydynabin_forward]. *)
Lemma cl_forward b n c d rest :
  yd_wf b -> 0 < n -> n = lenZ d -> yd_content b = d ++ rest ->
  exists b', (match ydynabin_forward b n with
              | (None, _) => Fault NullDeref
              | (Some v, b) => match blk_read v 0 n with
                               | Done d => Done ((Some d, b), c)
                               | Fault f => Fault f
                               end
              end : outcome (option bytes * ydynabin_t * client)) = Done ((Some d, b'), c) /\
    yd_wf b' /\ yd_content b' = rest.
Proof.
  intros Hwf Hn -> Hc. pose proof (yd_content_len b Hwf) as Hl. rewrite Hc in Hl.
  assert (Hd : yd_data b <> None).
  { intros E. destruct Hwf as (?&?&?&Hw). rewrite E in Hw. lens. }
  destruct (forward_spec b (lenZ d) Hwf ltac:(lens) Hd) as (v & b' & -> & Ht & Hc' & Hwf' & _).
  rewrite Hc in Ht, Hc'. rewrite takeZ_app_eq in Ht by done. rewrite dropZ_app_eq in Hc' by done.
  assert (lenZ d <= lenZ v).
  { rewrite <- Ht. unfold takeZ, lenZ. rewrite length_take. lia. }
  rewrite blk_read_ok by lia. rewrite dropZ_0, Ht by lia. eauto.
Qed.
Lemma cl_field_buffered b d rest c :
  yd_wf b -> 0 < lenZ d -> yd_content b = d ++ rest ->
  exists b', cl_field (lenZ d) b c = Done ((Some d, b'), c) /\ yd_wf b' /\ yd_content b' = rest.
Proof.
  intros Hwf Hd Hc. unfold cl_field, _read_data. cbn [rd_buff].
  pose proof (yd_content_len b Hwf) as Hl. rewrite Hc in Hl.
  rewrite (proj2 (Z.leb_le _ _)) by lens. rewrite Z.eqb_refl. cbn [negb rd_buff rd_rx rd_alloc].
  destruct (cl_forward b (lenZ d) (cl_set_alloc (cl_alloc c) (cl_set_rx (cl_rx c) c)) d rest)
    as (b' & -> & Hw & Hb); try done.
  exists b'. split; [|done]. do 2 f_equal. by destruct c.
Qed.
Lemma cl_field_arrival c d rest r :
  client_ok c -> cl_rx c = RxData (d ++ rest) :: r -> 0 < lenZ d -> lenZ (d ++ rest) <= RECV_SIZE ->
  exists b', cl_field (lenZ d) yd_empty c = Done ((Some d, b'), cl_set_rx r c) /\
    yd_wf b' /\ yd_content b' = rest.
Proof.
  intros [Ht Ha] Hrx Hd Hle. unfold cl_field, _read_data. cbn [rd_buff rd_rx yd_len yd_empty].
  rewrite (proj2 (Z.leb_gt _ _)) by lia. set (fuel := Z.to_nat _).
  cbn [_read_loop rd_buff rd_rx rd_alloc yd_len yd_empty]. rewrite (proj2 (Z.leb_gt _ _)) by lia.
  rewrite Hrx, Ha. cbn [recv_step]. rewrite (proj2 (Z.eqb_neq _ _)) by lens.
  rewrite (proj2 (Z.leb_le (lenZ (d ++ rest)) _)) by lia.
  assert (Hsafe : expand_safe yd_empty (lenZ (d ++ rest)) = true)
    by (apply expand_safe_long; simpl; lens).
  destruct (expand_appends yd_empty (d ++ rest) [] yd_empty_wf
    ltac:(unfold RECV_SIZE in *; lens) Hsafe eq_refl) as (b & -> & (Hwf & Hc & Hl & _) & _).
  rewrite Z.eqb_refl. cbn [negb].
  assert (Hs : _read_loop fuel (lenZ d) {| rd_buff := b; rd_rx := r; rd_alloc := [] |} =
               Done (YENOERR, {| rd_buff := b; rd_rx := r; rd_alloc := [] |})).
  { destruct fuel; cbn [_read_loop rd_buff]; rewrite (proj2 (Z.leb_le _ _)); simpl in Hl; lens || done. }
  replace (expand_script _ _ _) with (@nil bool) by (unfold expand_script; by destruct (_ <? _)).
  rewrite Hs, Z.eqb_refl. cbn [negb rd_buff rd_rx rd_alloc].
  destruct (cl_forward b (lenZ d) (cl_set_alloc [] (cl_set_rx r c)) d rest)
    as (b' & -> & Hw & Hb); try done.
  exists b'. split; [|done]. do 2 f_equal. destruct c; simpl in *; by subst.
Qed.

(** ** The messages of the client *)
Section messages.
Context `{HS : Snappy} {HL : SnappyLaws HS}.

Lemma key_message_get key :
  key_message (REQUEST_ADD_COMPRESSED (command_code PROTO_GET)) key =
  encode_request (RGet key true false).
Proof. unfold key_message. by rewrite be_bytes_u16. Qed.
Lemma key_message_del key (sync : bool) :
  key_message (if sync then REQUEST_ADD_SYNC (command_code PROTO_DEL) else command_code PROTO_DEL) key =
  encode_request (RDel key sync).
Proof. unfold key_message. rewrite be_bytes_u16. by destruct sync. Qed.

Lemma cl_answer_ok b r c :
  cl_rx c = RxData [b] :: r ->
  cl_answer c = Done (if RESPONSE_STATUS b =? response_code RESP_OK then FINEDB_OK
                      else FINEDB_ERR_SERVER, cl_set_rx r c).
Proof.
  intros Hr. unfold cl_answer, cbind, cl_read1. rewrite Hr. by destruct (_ =? _).
Qed.

Lemma finedb_put_message key data z b r c :
  client_ok c -> data_ok data -> cl_rx c = RxData [b] :: r ->
  snappy_compress data (snappy_max_compressed_length (lenZ data)) = Done (0, z) ->
  finedb_put key data c =
    Done (if RESPONSE_STATUS b =? response_code RESP_OK then FINEDB_OK else FINEDB_ERR_SERVER,
          cl_set_rx r (cl_set_tx [] (cl_out c ++ encode_request (RPut key z (cl_sync c) true)) c)).
Proof.
  intros [Ht Ha] [Hb Hd] Hr Hz. unfold finedb_put, _send_key_data.
  assert (Hi : cl_on_alloc snappy_init_env c = Done (0, c)).
  { unfold cl_on_alloc, snappy_init_env, cbind, ymalloc. rewrite Ha. simpl.
    destruct c; simpl in *; by subst. }
  cstep Hi. cbn [Z.eqb negb]. unfold cbind at 1. rewrite cl_malloc_ok by done.
  destruct (snappy_roundtrip data Hb Hd) as (z' & Hz' & _ & Hl & _). rewrite Hz in Hz'.
  injection Hz' as <-. rewrite Hz. unfold clift, cbind at 1. cbn [Z.eqb negb].
  rewrite (proj2 (Z.leb_gt _ _)) by lia. rewrite be_bytes_u16, be_bytes_u32.
  set (m := [_] ++ _).
  assert (Hm : m = encode_request (RPut key z (cl_sync c) true)) by (by destruct (cl_sync c)).
  clearbody m. subst m. cstep (cl_write_ok (encode_request (RPut key z (cl_sync c) true)) c Ht).
  replace (lenZ (encode_request _)) with (1 + 2 + lenZ key + 4 + lenZ z).
  2: { unfold encode_request. cbn [encode_body]. lens. }
  rewrite Z.eqb_refl. cbn [negb]. by apply cl_answer_ok.
Qed.

Lemma finedb_del_message key b r c :
  client_ok c -> cl_rx c = RxData [b] :: r ->
  finedb_del key c =
    Done (if RESPONSE_STATUS b =? response_code RESP_OK then FINEDB_OK else FINEDB_ERR_SERVER,
          cl_set_rx r (cl_set_tx [] (cl_out c ++ encode_request (RDel key (cl_sync c))) c)).
Proof.
  intros [Ht Ha] Hr. unfold finedb_del. rewrite key_message_del.
  cstep (cl_write_ok (encode_request (RDel key (cl_sync c))) c Ht).
  replace (lenZ (encode_request _)) with (1 + 2 + lenZ key).
  2: { unfold encode_request. cbn [encode_body]. lens. }
  rewrite Z.eqb_refl. cbn [negb]. by apply cl_answer_ok.
Qed.

(** GET, when the answer is a compressed value that comes in one segment. *)
Lemma finedb_get_message key d z jl c r :
  client_ok c -> compressed_form d z -> 0 < lenZ z -> 5 + lenZ z <= RECV_SIZE ->
  cl_rx c = RxData (response_byte RESP_OK false true :: be_bytes 4 (lenZ z) ++ z) :: r ->
  finedb_get jl key c =
    Done ((FINEDB_OK, Some d),
          cl_set_rx r (cl_set_tx [] (cl_out c ++ encode_request (RGet key true false)) c)).
Proof.
  intros [Ht Ha] [Hul Hu] Hz Hle Hr. unfold RECV_SIZE in Hle. unfold finedb_get. rewrite key_message_get.
  cstep (cl_write_ok (encode_request (RGet key true false)) c Ht).
  replace (lenZ (encode_request _)) with (1 + 2 + lenZ key).
  2: { unfold encode_request. cbn [encode_body]. lens. }
  rewrite Z.eqb_refl. cbn [negb]. set (c1 := cl_set_tx _ _ c).
  assert (Hb : cl_on_alloc (ydynabin_new None 0 false) c1 = Done (Some yd_empty, c1)).
  { unfold cl_on_alloc, ydynabin_new, cbind, ymalloc. cbn [c1 cl_set_tx cl_alloc]. rewrite Ha. simpl.
    subst c1. destruct c; simpl in *; by subst. }
  cstep Hb.
  destruct (cl_field_arrival c1 [response_byte RESP_OK false true] (be_bytes 4 (lenZ z) ++ z) r)
    as (b1 & H1 & W1 & C1); [by constructor|done|done|unfold RECV_SIZE; lens|].
  change (lenZ [response_byte RESP_OK false true]) with 1 in H1. cstep H1. simpl (negb _). cbn iota.
  destruct (cl_field_buffered b1 (be_bytes 4 (lenZ z)) z (cl_set_rx r c1)) as (b2 & H2 & W2 & C2);
    [done|lens|done|].
  rewrite lenZ_be_bytes in H2. change (Z.of_nat 4) with 4 in H2. cstep H2.
  rewrite be_val_be_bytes, Z.mod_small by lia. rewrite (proj2 (Z.ltb_lt _ _)) by lia.
  destruct (cl_field_buffered b2 z [] (cl_set_rx r c1)) as (b3 & H3 & _);
    [done|done|by rewrite app_nil_r|].
  cstep H3. unfold cbind at 1. rewrite cl_malloc_ok by done.
  change (cbool _) with true. cbn iota. rewrite Hul. cbn [default from_option id].
  unfold cbind at 1. rewrite cl_malloc_ok by done. unfold clift, cbind. rewrite Hu. done.
Qed.
Lemma finedb_get_missing key jl c r :
  client_ok c -> cl_rx c = RxData [response_code RESP_ERR_BAD_NAME] :: r ->
  exists c', finedb_get jl key c = Done ((FINEDB_ERR_SERVER, None), c') /\
    cl_out c' = cl_out c ++ encode_request (RGet key true false) /\ cl_rx c' = r.
Proof.
  intros [Ht Ha] Hr. unfold finedb_get. rewrite key_message_get.
  cstep (cl_write_ok (encode_request (RGet key true false)) c Ht).
  replace (lenZ (encode_request _)) with (1 + 2 + lenZ key).
  2: { unfold encode_request. cbn [encode_body]. lens. }
  rewrite Z.eqb_refl. cbn [negb]. set (c1 := cl_set_tx _ _ c).
  assert (Hb : cl_on_alloc (ydynabin_new None 0 false) c1 = Done (Some yd_empty, c1)).
  { unfold cl_on_alloc, ydynabin_new, cbind, ymalloc. cbn [c1 cl_set_tx cl_alloc]. rewrite Ha. simpl.
    subst c1. destruct c; simpl in *; by subst. }
  cstep Hb.
  destruct (cl_field_arrival c1 [response_code RESP_ERR_BAD_NAME] [] r)
    as (b1 & H1 & W1 & C1); [by constructor|done|done|unfold RECV_SIZE; lens|].
  change (lenZ [response_code RESP_ERR_BAD_NAME]) with 1 in H1. cstep H1. eexists. by split.
Qed.
End messages.

(** ** Properties *)

(** The name of a database.  [finedb_setdb] sends the length of the name
    in one byte: a name of 256 bytes or more is announced with its length
    modulo 256, and the rest of it is left in the stream as further
    requests. *)
Theorem setdb_length_truncated name b r c :
  client_ok c -> cl_rx c = RxData [b] :: r ->
  exists rc c', finedb_setdb (Some name) c = Done (rc, c') /\
    cl_out c' = cl_out c ++
      [command_code PROTO_SETDB; lenZ name mod 256] ++
      takeZ (lenZ name mod 256) name ++ dropZ (lenZ name mod 256) name.
Proof.
  intros [Ht Ha] Hr. rewrite takeZ_dropZ. unfold finedb_setdb. cbn [default from_option id].
  unfold cbind at 1. rewrite cl_malloc_ok by done.
  cstep (cl_write_ok ([command_code PROTO_SETDB; u8 (lenZ name)] ++ name) c Ht).
  replace (lenZ ([command_code PROTO_SETDB; u8 (lenZ name)] ++ name)) with (2 + lenZ name) by lens.
  rewrite Z.eqb_refl. cbn [negb]. rewrite (cl_answer_ok b r) by done. by do 2 eexists.
Qed.
Lemma setdb_length_truncated_witness :
  exists rc c', finedb_setdb (Some (replicate 257 97))
      {| cl_hostname := []; cl_port := 0; cl_sock := 4; cl_sync := true; cl_rx := [RxData [1]];
         cl_tx := []; cl_out := []; cl_alloc := [] |} = Done (rc, c') /\
    takeZ 3 (cl_out c') = [command_code PROTO_SETDB; 1; 97] /\ lenZ (cl_out c') = 259.
Proof.
  destruct (setdb_length_truncated (replicate 257 97) 1 []
    {| cl_hostname := []; cl_port := 0; cl_sock := 4; cl_sync := true; cl_rx := [RxData [1]];
       cl_tx := []; cl_out := []; cl_alloc := [] |}) as (rc & c' & Hs & Ho).
  - constructor; reflexivity.
  - reflexivity.
  - exists rc, c'. split; [exact Hs|]. rewrite Ho. split; vm_compute; reflexivity.
Defined.
