(* ===== verification/Cli.v ===== *)
(** * Cli: the command-line client src/src/cli/finedb-cli.c

    A command line is a C string in a block of its own; a pointer into it is
    the list of the bytes from there to the end of the block, so that reading
    past the block is an access to the empty list.  What the program prints is
    the list of its calls of [printf], [printf_color] and [printf_decorated],
    with the format and the arguments; the history file and the terminal are
    left out. *)
From Stdlib Require Import String Ascii.
From S2P Require Import Prelude Cstring Protocol Dynabin Connection Compressor SnappyEnc Client.

(** ** Command lines *)
Definition IS_SPACE (c : Z) : bool := (c =? 32) || (c =? 9) || (c =? 10) || (c =? 13).
Definition quote : Z := 34.

Fixpoint LTRIM (pt : bytes) : outcome bytes :=
  match pt with
  | [] => Fault HeapOverflow
  | b :: r => if negb (b =? 0) && IS_SPACE b then LTRIM r else Done pt
  end.
(** The command word of a line and what follows its end, which is replaced by
    a NUL. *)
Fixpoint next_word (pt : bytes) : outcome (bytes * bytes) :=
  match pt with
  | [] => Fault HeapOverflow
  | b :: r =>
      if (b =? 0) || IS_SPACE b then Done ([], r)
      else olet! x := next_word r in Done (b :: fst x, snd x)
  end.

(** ** State *)
Inductive output :=
  | OutPlain (fmt : string) (args : list bytes)
  | OutColor (code : option Z) (fmt : string) (args : list bytes)
  | OutDecorated (code : option Z) (fmt : string) (args : list bytes)
  | OutHelp.

Record cli_t := {
  finedb : client;
  cli_dbname : option bytes;
  in_transaction : bool;
  autocheck : bool;
  cli_out : list output;
  connects : list (Z * bool * Z)   (* socket, name resolution and connect results *)
}.
Definition set_finedb (c : client) (s : cli_t) : cli_t :=
  {| finedb := c; cli_dbname := cli_dbname s; in_transaction := in_transaction s;
     autocheck := autocheck s; cli_out := cli_out s; connects := connects s |}.
Definition set_cli_dbname (d : option bytes) (s : cli_t) : cli_t :=
  {| finedb := finedb s; cli_dbname := d; in_transaction := in_transaction s;
     autocheck := autocheck s; cli_out := cli_out s; connects := connects s |}.
Definition set_in_transaction (b : bool) (s : cli_t) : cli_t :=
  {| finedb := finedb s; cli_dbname := cli_dbname s; in_transaction := b;
     autocheck := autocheck s; cli_out := cli_out s; connects := connects s |}.
Definition set_autocheck (b : bool) (s : cli_t) : cli_t :=
  {| finedb := finedb s; cli_dbname := cli_dbname s; in_transaction := in_transaction s;
     autocheck := b; cli_out := cli_out s; connects := connects s |}.
Definition set_cli_out (o : list output) (s : cli_t) : cli_t :=
  {| finedb := finedb s; cli_dbname := cli_dbname s; in_transaction := in_transaction s;
     autocheck := autocheck s; cli_out := o; connects := connects s |}.
Definition set_connects (l : list (Z * bool * Z)) (s : cli_t) : cli_t :=
  {| finedb := finedb s; cli_dbname := cli_dbname s; in_transaction := in_transaction s;
     autocheck := autocheck s; cli_out := cli_out s; connects := l |}.

Definition on_client {A} (m : CM client A) : CM cli_t A := fun s =>
  match m (finedb s) with
  | Done (a, c) => Done (a, set_finedb c s)
  | Fault f => Fault f
  end.
Definition modify_cli (f : cli_t -> cli_t) : CM cli_t unit := fun s => Done (tt, f s).
Definition printed (o : output) : CM cli_t unit :=
  modify_cli (fun s => set_cli_out (cli_out s ++ [o]) s).

(** ** Output *)
Definition color_code (color : string) : option Z :=
  if strcaseeq (str color) (str "black") then Some 0
  else if strcaseeq (str color) (str "red") then Some 1
  else if strcaseeq (str color) (str "green") then Some 2
  else if strcaseeq (str color) (str "yellow") then Some 3
  else if strcaseeq (str color) (str "blue") then Some 4
  else if strcaseeq (str color) (str "magenta") then Some 5
  else if strcaseeq (str color) (str "cyan") then Some 6
  else if strcaseeq (str color) (str "white") then Some 7
  else None.
Definition printf_color (color fmt : string) (args : list bytes) : CM cli_t unit :=
  printed (OutColor (color_code color) fmt args).
Definition decoration_code (type : string) : option Z :=
  if strcaseeq (str type) (str "bold") then Some 1
  else if strcaseeq (str type) (str "faint") then Some 2
  else if strcaseeq (str type) (str "underline") then Some 4
  else if strcaseeq (str type) (str "negative") then Some 7
  else None.
Definition printf_decorated (type fmt : string) (args : list bytes) : CM cli_t unit :=
  printed (OutDecorated (decoration_code type) fmt args).
Definition newline : CM cli_t unit := printed (OutPlain "\n" []).
(** A message followed by an end of line. *)
Definition red (fmt : string) (args : list bytes) : CM cli_t unit :=
  do! printf_color "red" fmt args in newline.
Definition faint (fmt : string) (args : list bytes) : CM cli_t unit :=
  do! printf_decorated "faint" fmt args in newline.

Definition result_code (r : finedb_result_t) : Z :=
  match r with
  | FINEDB_OK => 0 | FINEDB_ERR_NETWORK => 1 | FINEDB_ERR_SERVER => 2
  | FINEDB_ERR_FILE => 3 | FINEDB_ERR_MEMORY => 4 | FINEDB_ERR_ZIP => 5
  end.
Definition failed (r : finedb_result_t) : bool := negb (result_code r =? 0).
(** The argument of a %d: one digit is enough for the codes of the library. *)
Definition digit (r : finedb_result_t) : bytes := [48 + result_code r].

(** ** Commands *)
Definition cli_connect : CM cli_t finedb_result_t := fun s =>
  let '((sock, host, rc), l) := script_next (-1, false, -1) (connects s) in
  let '(r, _, c) := finedb_connect sock host rc (finedb s) in
  Done (r, set_connects l (set_finedb c s)).

Definition check_connection : CM cli_t bool :=
  let! s := cget in
  if negb (autocheck s) then cret true
  else
    let! rc := on_client finedb_ping in
    if negb (failed rc) then cret true
    else
      let! rc := cli_connect in
      if bool_decide (rc <> FINEDB_OK) then
        do! red "Lost connection to server." [] in cret false
      else
        do! (if in_transaction s then
               do! modify_cli (set_in_transaction false) in
               printf_decorated "faint" "Reconnected to server. Transaction is lost." []
             else printf_decorated "faint" "Reconnected to server." []) in
        do! newline in
        cret true.

Definition command_help : CM cli_t unit := do! printed OutHelp in newline.

Definition command_use (pt : bytes) : CM cli_t unit :=
  let! ok := check_connection in
  if negb ok then cret tt
  else
    let! name := clift (c_string pt) in
    if (lenZ name =? 0) || strcaseeq name (str "default") then
      let! rc := on_client (finedb_setdb None) in
      if failed rc then red "Unable to use the default database (%d)." [digit rc]
      else
        do! modify_cli (set_cli_dbname None) in
        faint "Use the default database" []
    else
      let! rc := on_client (finedb_setdb (Some name)) in
      if failed rc then cfault NullDeref   (* the code is passed for the %s *)
      else
        do! modify_cli (set_cli_dbname (Some name)) in
        faint "Use the '%s' database" [name].

Definition command_sync : CM cli_t unit :=
  do! modify_cli (fun s => set_finedb (finedb_sync (finedb s)) s) in
  faint "Set synchronous mode." [].
Definition command_async : CM cli_t unit :=
  do! modify_cli (fun s => set_finedb (finedb_async (finedb s)) s) in
  faint "Set asynchronous mode." [].

(** The key between quotes at the start of the arguments, and the pointer to
    its closing quote; an error message otherwise. *)
Definition parse_key (pt : bytes) : outcome (string + bytes * bytes) :=
  olet! pt := LTRIM pt in
  olet! b := deref pt in
  if negb (b =? quote) then Done (inl "Bad key format (no quote)"%string)
  else
    let pt := tl pt in
    olet! b := deref pt in
    if b =? 0 then Done (inl "Bad key"%string)
    else
      olet! r := strchr quote pt in
      Done (match r with
            | None => inl "Bad key format (no trailing quote)"%string
            | Some (key, pt2) => inr (key, pt2)
            end).

(** The data of PUT, from the pointer to the closing quote of the key. *)
Definition parse_data (pt2 : bytes) : outcome (string + bytes) :=
  let pt2 := tl pt2 in
  olet! b := deref pt2 in
  if b =? 0 then Done (inl "Missing data"%string)
  else
    olet! data := LTRIM (tl pt2) in
    olet! b := deref data in
    if negb (b =? quote) then Done (inl "Bad data format (no quote)"%string)
    else
      let data := tl data in
      olet! b := deref data in
      if b =? 0 then Done (inl "Missing data"%string)
      else
        olet! d := c_string data in
        Done (if negb (default 0 (last d) =? quote)
              then inl "Bad data format (no trailing quote)"%string
              else inr (takeZ (lenZ d - 1) d)).

(** [printf("%s\n", data)]: the value is not a C string, only its bytes are
    there. *)
Definition print_value (d : bytes) : CM cli_t unit :=
  let! s := clift (c_string d) in
  printed (OutPlain "%s\n" [s]).

Section commands.
Context `{Snappy}.

Definition command_get (junk_len : Z) (pt : bytes) : CM cli_t unit :=
  let! r := clift (parse_key pt) in
  match r with
  | inl msg => faint msg []
  | inr (key, _) =>
      let! ok := check_connection in
      if negb ok then cret tt
      else
        let! '(rc, bdata) := on_client (finedb_get junk_len key) in
        if failed rc then red "Unable to get key '%s' (%d)." [key; digit rc]
        else
          match bdata with
          | None | Some [] => do! faint "No data." [] in cfault NullDeref
          | Some d => print_value d
          end
  end.

(** The braces are missing in the C code: only the first message depends on
    the result. *)
Definition command_del (pt : bytes) : CM cli_t unit :=
  let! r := clift (parse_key pt) in
  match r with
  | inl msg => faint msg []
  | inr (key, _) =>
      let! ok := check_connection in
      if negb ok then cret tt
      else
        let! rc := on_client (finedb_del key) in
        do! (if failed rc then printf_color "red" "Unable to delete key '%s'." [key] else cret tt) in
        do! newline in
        faint "OK" []
  end.

Definition command_send_data (pt : bytes) (create_only update_only : bool) : CM cli_t unit :=
  let! r := clift (parse_key pt) in
  match r with
  | inl msg => faint msg []
  | inr (key, pt2) =>
      let! r := clift (parse_data pt2) in
      match r with
      | inl msg => faint msg []
      | inr data =>
          let! ok := check_connection in
          if negb ok then cret tt
          else
            let! rc := on_client (if create_only then finedb_add key data
                                  else if update_only then finedb_update key data
                                  else finedb_put key data) in
            do! (if failed rc
                 then printf_color "red" "Unable to %s key '%s'."
                        [str (if create_only then "add" else if update_only then "update" else "put"); key]
                 else printf_decorated "faint" "OK" []) in
            newline
      end
  end.

Definition command_inc (pt : bytes) : CM cli_t unit := cret tt.
Definition command_dec (pt : bytes) : CM cli_t unit := cret tt.

Definition command_start : CM cli_t unit :=
  let! ok := check_connection in
  if negb ok then cret tt
  else
    let! s := cget in
    do! (if in_transaction s
         then red "A transaction is already open. It will be rollbacked." [] else cret tt) in
    let! rc := on_client finedb_start in
    if failed rc then red "Server error." []
    else
      do! faint "Transaction started." [] in
      modify_cli (set_in_transaction true).

Definition command_stop : CM cli_t unit :=
  let! ok := check_connection in
  if negb ok then cret tt
  else
    let! s := cget in
    if negb (in_transaction s) then red "No opened transaction." []
    else
      let! rc := on_client finedb_stop in
      if failed rc then red "Server error." []
      else
        do! faint "Transaction stopped." [] in
        modify_cli (set_in_transaction false).

Definition command_ping : CM cli_t unit :=
  let! rc := on_client finedb_ping in
  if failed rc then red "Server error." [] else faint "OK" [].

Definition command_autocheck (pt : bytes) : CM cli_t unit :=
  let! arg := clift (c_string pt) in
  do! (if 0 <? lenZ arg then
         modify_cli (set_autocheck
           (strcaseeq arg (str "on") || strcaseeq arg (str "yes") ||
            strcaseeq arg (str "true") || bool_decide (arg = str "1")))
       else cret tt) in
  let! s := cget in
  faint "autocheck option is %s" [str (if autocheck s then "activated" else "deactivated")].

(** ** The main loop *)

(** One command; [false] leaves the program. *)
Definition run_command (junk_len : Z) (cmd pt : bytes) : CM cli_t bool :=
  let named (name : string) := strcaseeq cmd (str name) in
  let next (m : CM cli_t unit) : CM cli_t bool := do! m in cret true in
  if lenZ cmd =? 0 then cret true
  else if named "exit"%string || named "quit"%string then cret false
  else if named "help"%string || (default 0 (head cmd) =? 63) then next command_help
  else if named "sync"%string then next command_sync
  else if named "async"%string then next command_async
  else if named "use"%string then next (command_use pt)
  else if named "get"%string then next (command_get junk_len pt)
  else if named "del"%string then next (command_del pt)
  else if named "put"%string then next (command_send_data pt false false)
  else if named "add"%string then next (command_send_data pt true false)
  else if named "update"%string then next (command_send_data pt false true)
  else if named "inc"%string then next (command_inc pt)
  else if named "dec"%string then next (command_dec pt)
  else if named "start"%string then next command_start
  else if named "stop"%string then next command_stop
  else if named "ping"%string then next command_ping
  else if named "autocheck"%string then next (command_autocheck pt)
  else next (red "Bad command." []).

(** A line: the C string [line] in a block of its own. *)
Definition run_line (junk_len : Z) (line : bytes) : CM cli_t bool :=
  let! cmd := clift (LTRIM (line ++ [0])) in
  let! '(cmd, pt) := clift (next_word cmd) in
  let! pt := clift (LTRIM pt) in
  run_command junk_len cmd pt.

(** Interactive mode: the lines the user types, until the end of input. *)
Fixpoint interactive (junk_len : Z) (lines : list bytes) : CM cli_t unit :=
  match lines with
  | [] => cret tt
  | line :: lines =>
      let! go := run_line junk_len line in
      if (go : bool) then interactive junk_len lines else cret tt
  end.
(** The other mode: standard input is read to its end and taken for one line;
    the next turn finds nothing to read and [line] is null. *)
Definition batch (junk_len : Z) (reads : list bytes) : CM cli_t unit :=
  match reads with
  | [] => cfault NullDeref
  | _ =>
      let! go := run_line junk_len (concat reads) in
      if (go : bool) then cfault NullDeref else cret tt
  end.

(** The program: [argv] without the program name, the results of the system
    calls, and what comes in on standard input, as lines or as reads.  The
    result is the exit code and, once connected, the last state. *)
Definition main (junk_len : Z) (argv : list bytes) (lines : list bytes) (reads : list bytes)
    (net : list (Z * bool * Z)) (r : list rx) (t : list (option Z)) (a : alloc)
    : outcome (Z * option cli_t) :=
  let hostname := match argv with
                  | [h] => if default 0 (head (h ++ [0])) =? 45 then str "localhost" else h
                  | _ => str "localhost"
                  end in
  let interactive_mode := match argv with
                          | [_; m] => negb (bool_decide (m = str "-"))
                          | _ => true
                          end in
  olet! x := finedb_create hostname 11138 r t a in
  match fst x with
  | None => Done (1, None)
  | Some c =>
      let s := {| finedb := c; cli_dbname := None; in_transaction := false; autocheck := true;
                  cli_out := []; connects := net |} in
      olet! y := cli_connect s in
      let '(rc, s) := y in
      if bool_decide (rc <> FINEDB_OK) then Done (2, Some s)
      else
        olet! z := (if interactive_mode then interactive junk_len lines else batch junk_len reads) s in
        Done (0, Some (snd z))
  end.
End commands.

(** ** Completion *)
Definition commands : list string :=
  ["help"; "use"; "get"; "del"; "put"; "add"; "update"; "inc"; "dec"; "start"; "commit";
   "rollback"; "ping"; "sync"; "async"; "autocheck"]%string.
Definition cli_completion (buf : bytes) : list string :=
  List.filter (fun cmd => negb (lenZ (str cmd) <? lenZ buf) && strncaseeq (lenZ buf) buf (str cmd)) commands.

(** ** Lemmas *)
Lemma LTRIM_stop b pt : IS_SPACE b = false -> LTRIM (b :: pt) = Done (b :: pt).
Proof. intros H. cbn [LTRIM]. by rewrite H, andb_false_r. Qed.
Lemma next_word_end w b pt :
  Forall (fun b => b <> 0 /\ IS_SPACE b = false) w -> (b =? 0) || IS_SPACE b = true ->
  next_word (w ++ b :: pt) = Done (w, pt).
Proof.
  intros Hw Hb. induction Hw as [|x w [Hx Hs] _ IH]; cbn [app next_word]; [by rewrite Hb|].
  rewrite (proj2 (Z.eqb_neq x 0) Hx), Hs. cbn [orb]. by rewrite IH.
Qed.
(** A byte of a key: neither the end of the string nor a quote. *)
Definition key_byte (b : Z) : Prop := b <> 0 /\ b <> quote.

Lemma parse_key_quoted key pt :
  Forall key_byte key ->
  parse_key (quote :: key ++ quote :: pt) = Done (inr (key, quote :: pt)).
Proof.
  intros Hk. unfold parse_key. rewrite LTRIM_stop by done. cbn [obind deref tl].
  change (negb (quote =? quote)) with false. cbn iota.
  assert (Hd : exists b, deref (key ++ quote :: pt) = Done b /\ b <> 0).
  { destruct Hk as [|x key [Hx _] _]; [by exists quote|by exists x]. }
  destruct Hd as (b & Hd & Hb). rewrite Hd. cbn [obind]. rewrite (proj2 (Z.eqb_neq b 0) Hb).
  by rewrite strchr_end.
Qed.
Lemma parse_data_quoted data :
  Forall (fun b => b <> 0) data ->
  parse_data (quote :: 32 :: quote :: data ++ [quote; 0]) = Done (inr data).
Proof.
  intros Hd. unfold parse_data. cbn [tl deref obind]. change (32 =? 0) with false. cbn iota.
  rewrite LTRIM_stop by done. cbn [obind deref tl]. change (negb (quote =? quote)) with false. cbn iota.
  assert (Hx : exists b, deref (data ++ [quote; 0]) = Done b /\ b <> 0).
  { destruct Hd as [|x d Hx _]; [by exists quote|by exists x]. }
  destruct Hx as (b & Hx & Hb). rewrite Hx. cbn [obind]. rewrite (proj2 (Z.eqb_neq b 0) Hb).
  change ([quote; 0]) with ([quote] ++ [0]). rewrite app_assoc.
  rewrite c_string_end by (apply Forall_app; split; [done|by repeat constructor]).
  cbn [obind]. rewrite last_snoc. cbn [default from_option id].
  change (negb (quote =? quote)) with false. cbn iota. do 2 f_equal.
  apply takeZ_app_eq. lens.
Qed.

Lemma check_connection_off s : autocheck s = false -> check_connection s = Done (true, s).
Proof. intros H. unfold check_connection, cget, cbind. by rewrite H. Qed.

(** A line made of a command word, a space and its arguments. *)
Lemma run_line_word `{Snappy} jl w b args s :
  w <> [] -> Forall (fun b => b <> 0 /\ IS_SPACE b = false) w -> IS_SPACE b = false ->
  run_line jl (w ++ 32 :: b :: args) s = run_command jl w (b :: args ++ [0]) s.
Proof.
  intros Hne Hw Hb. destruct w as [|x w]; [done|]. pose proof Hw as Hw'.
  apply Forall_cons in Hw as [[_ Hx] _]. unfold run_line.
  rewrite <- app_assoc. change ((32 :: b :: args) ++ [0]) with (32 :: b :: args ++ [0]).
  change ((x :: w) ++ 32 :: b :: args ++ [0]) with (x :: (w ++ 32 :: b :: args ++ [0])).
  rewrite LTRIM_stop by done. unfold clift at 1, cbind at 1.
  change (x :: (w ++ 32 :: b :: args ++ [0])) with ((x :: w) ++ 32 :: b :: args ++ [0]).
  rewrite next_word_end by done. unfold clift at 1, cbind at 1.
  rewrite LTRIM_stop by done. done.
Qed.

(** ** Properties *)

(** Quoting.  A line put "key" "data" (without automatic check of the
    connection) sends exactly the bytes of the key and of the data, whatever
    they contain except a NUL and, for the key, a quote; the answer decides
    what is printed. *)
Theorem cli_put_sends_arguments `{Snappy} jl key data s :
  Forall key_byte key -> Forall (fun b => b <> 0) data -> autocheck s = false ->
  run_line jl (str "put" ++ 32 :: quote :: key ++ [quote; 32; quote] ++ data ++ [quote]) s =
  match finedb_put key data (finedb s) with
  | Fault f => Fault f
  | Done (rc, c) =>
      Done (true, set_cli_out (cli_out s ++
        [if failed rc then OutColor (Some 1) "Unable to %s key '%s'." [str "put"; key]
         else OutDecorated (Some 2) "OK" []; OutPlain "\n" []]) (set_finedb c s))
  end.
Proof.
  intros Hk Hd Ha. rewrite run_line_word by (done || (repeat constructor; done)).
  change (run_command jl (str "put") _ s) with
    (cbind (command_send_data (quote :: (key ++ [quote; 32; quote] ++ data ++ [quote]) ++ [0]) false false)
       (fun _ => cret true) s).
  rewrite <- !app_assoc. unfold command_send_data, cbind at 1.
  change ([quote; 32; quote] ++ data ++ [quote] ++ [0]) with
    (quote :: (32 :: quote :: data ++ [quote; 0])).
  unfold clift at 1, cbind at 1. rewrite parse_key_quoted by done.
  unfold clift at 1, cbind at 1. rewrite parse_data_quoted by done.
  unfold cbind at 1. rewrite check_connection_off by done. cbn [negb].
  unfold cbind, on_client. destruct (finedb_put key data (finedb s)) as [[rc c]|f]; [|done].
  destruct (failed rc); cbn; by rewrite <- app_assoc.
Qed.

Definition demo_cli (r : list rx) : cli_t :=
  {| finedb := {| cl_hostname := []; cl_port := 11138; cl_sock := 4; cl_sync := true; cl_rx := r;
                  cl_tx := []; cl_out := []; cl_alloc := [] |};
     cli_dbname := None; in_transaction := false; autocheck := false; cli_out := []; connects := [] |}.
Lemma cli_put_sends_arguments_witness :
  exists s', run_line 0 (str "put" ++ 32 :: quote :: [107] ++ [quote; 32; quote] ++ [118; 34; 32; 119] ++ [quote])
      (demo_cli [RxData [1]]) = Done (true, s') /\
    cli_out s' = [OutDecorated (Some 2) "OK" []; OutPlain "\n" []].
Proof.
  rewrite (cli_put_sends_arguments 0 [107] [118; 34; 32; 119] (demo_cli [RxData [1]])).
  - eexists. split; reflexivity.
  - repeat constructor; discriminate.
  - repeat constructor; discriminate.
  - reflexivity.
Defined.

(** A line without arguments.  After a command word that ends the line
    (the empty line included) the program steps over the terminating NUL and
    reads outside the line. *)
Theorem cli_word_overreads `{Snappy} jl w s :
  Forall (fun b => b <> 0 /\ IS_SPACE b = false) w -> run_line jl w s = Fault HeapOverflow.
Proof.
  intros Hw. unfold run_line.
  assert (Ht : LTRIM (w ++ [0]) = Done (w ++ [0])).
  { destruct Hw as [|x w [_ Hx] _]; [done|]. cbn [app]. by apply LTRIM_stop. }
  rewrite Ht. unfold clift at 1, cbind at 1. by rewrite next_word_end.
Qed.

Lemma cli_word_overreads_witness : run_line 0 (str "start") (demo_cli []) = Fault HeapOverflow.
Proof. apply (cli_word_overreads 0 (str "start") (demo_cli [])). repeat constructor; discriminate. Defined.

(** The missing braces of DEL.  Whatever the library answers to the
    deletion, the program prints OK; an error message may come before. *)
Theorem cli_del_always_ok `{Snappy} jl key s rc c :
  Forall key_byte key -> autocheck s = false -> finedb_del key (finedb s) = Done (rc, c) ->
  run_line jl (str "del" ++ 32 :: quote :: key ++ [quote]) s =
  Done (true, set_cli_out (cli_out s ++
    (if failed rc then [OutColor (Some 1) "Unable to delete key '%s'." [key]] else []) ++
    [OutPlain "\n" []; OutDecorated (Some 2) "OK" []; OutPlain "\n" []]) (set_finedb c s)).
Proof.
  intros Hk Ha Hdel. rewrite run_line_word by (done || (repeat constructor; done)).
  change (run_command jl (str "del") _ s) with
    (cbind (command_del (quote :: (key ++ [quote]) ++ [0])) (fun _ => cret true) s).
  rewrite <- app_assoc. unfold command_del, cbind at 1. change ([quote] ++ [0]) with (quote :: [0]).
  unfold clift at 1, cbind at 1. rewrite parse_key_quoted by done.
  unfold cbind at 1. rewrite check_connection_off by done. cbn [negb].
  unfold cbind, on_client. rewrite Hdel. destruct (failed rc); cbn; by rewrite <- !app_assoc.
Qed.

Lemma cli_del_always_ok_witness :
  exists s', run_line 0 (str "del" ++ 32 :: quote :: [107] ++ [quote]) (demo_cli [RxData [6]]) = Done (true, s') /\
    cli_out s' = [OutColor (Some 1) "Unable to delete key '%s'." [[107]]; OutPlain "\n" [];
                  OutDecorated (Some 2) "OK" []; OutPlain "\n" []].
Proof.
  eexists. split.
  - apply (cli_del_always_ok 0 [107] (demo_cli [RxData [6]]) FINEDB_ERR_SERVER).
    + repeat constructor; discriminate.
    + reflexivity.
    + vm_compute. reflexivity.
  - reflexivity.
Defined.

(** Completion.  The completions of a text are the commands that start
    with it, upper and lower case taken as equal, in the order of the list. *)
Theorem cli_completion_correct buf cmd :
  In cmd (cli_completion buf) <->
  In cmd commands /\ exists rest, map tolower (str cmd) = map tolower buf ++ rest.
Proof.
  unfold cli_completion. rewrite List.filter_In, andb_true_iff, negb_true_iff, Z.ltb_ge.
  apply and_iff_compat_l. unfold strncaseeq, strcaseeq. rewrite bool_decide_eq_true.
  rewrite takeZ_all by lia. unfold lenZ, takeZ. rewrite Nat2Z.id. split.
  - intros [Hl He]. exists (map tolower (drop (length buf) (str cmd))). rewrite He, <- map_app.
    by rewrite take_drop.
  - intros [rest He]. pose proof (f_equal length He) as Hl. rewrite length_app, !length_map in Hl.
    split; [lia|]. rewrite <- firstn_map, He. rewrite take_app_le by (rewrite length_map; lia).
    symmetry. apply take_ge. by rewrite length_map.
Qed.
