(* ===== verification/System.v ===== *)
(** * System: a client and the server together

    The client library and a connection thread joined by a socket, with the
    codec of lib/snappy-c on both sides, and the theorems about whole
    sessions: what a session answers, what the writer thread adds to it, and
    that every connection ends. *)
From S2P Require Import Prelude Protocol Dynabin Yvect Lmdb Database Connection Compressor.
From S2P Require Import Snappy SnappyDec SnappyEnc Spec Commands Server Session Progress Client.

(** ** Exchanges

    One call of the client library: what it writes arrives at the server in
    one segment, the server handles one request, and what it sends arrives at
    the client in one segment. *)
Inductive exchange {A} (junk : dbi) (jl : Z) (op : CM client A)
    : client * conn -> A -> client * conn -> Prop :=
  | exchange_intro cl c m out a cl' c' go :
      op (cl_set_rx [RxData out] cl) = Done (a, cl') ->
      cl_out cl' = cl_out cl ++ m -> cl_rx cl' = [] ->
      process_request junk jl (set_rx [RxData m] c) = Done (go, c') ->
      c_out c' = c_out c ++ out ->
      exchange junk jl op (cl, c) a (cl', c').

(** The client and the connection wait for the next call, and the server is in
    state [s]. *)
Record ready (cl : client) (c : conn) (s : spec_state) : Prop := {
  rd_client : client_ok cl;
  rd_sess : sess_rel c s;
  rd_empty : yd_content (c_buff c) = []
}.

Lemma sess_rel_rx c s r : sess_rel c s -> sess_rel (set_rx r c) s.
Proof. intros [[????] ????]. by constructor. Qed.

Lemma serve_one c s r out v s' junk jl :
  sess_rel c s -> yd_content (c_buff c) = [] -> request_ok r ->
  lenZ (encode_request r) <= RECV_SIZE -> spec_step r s = Some (out, v, s') ->
  exists c', process_request junk jl (set_rx [RxData (encode_request r)] c) = Done (v, c') /\
    sess_rel c' s' /\ c_out c' = c_out c ++ out /\ yd_content (c_buff c') = [].
Proof.
  intros HR Hb Hr Hlen Hs. pose proof (sess_rel_rx c s [RxData (encode_request r)] HR) as HR1.
  destruct (process_request_arrival (set_rx [RxData (encode_request r)] c) (encode_request r) [] junk jl)
    as (b & Hp & Hwf & Hc); [apply HR1|done|done|split; [unfold encode_request; lens|done]|].
  rewrite Hp.
  destruct (process_request_refines (set_buff b (set_rx [] (set_rx [RxData (encode_request r)] c))) s r []
    out v s' junk jl) as (c' & -> & HR' & Ho & He & _); [|done|by rewrite app_nil_r|done|].
  { apply sess_rel_buff; [|done]. by apply sess_rel_rx. }
  by exists c'.
Qed.

(** The compressed form of a value the client sends. *)
Lemma compressed_data data :
  data_ok data ->
  exists z, Compressor.snappy_compress data (Compressor.snappy_max_compressed_length (lenZ data)) = Done (0, z) /\
    bytes_ok z /\ 0 < lenZ z < Compressor.snappy_max_compressed_length (lenZ data) /\ compressed_form data z.
Proof. intros [Hb Hl]. by apply snappy_roundtrip. Qed.

Definition put_size (key data : bytes) : Z :=
  7 + lenZ key + Snappy.snappy_max_compressed_length (lenZ data).
Definition set_db (db : gmap bytes bytes) (s : spec_state) : spec_state :=
  {| s_db := db; s_snap := s_snap s; s_queue := s_queue s |}.

Lemma exchange_put cl c s key data junk jl :
  ready cl c s -> s_snap s = None -> cl_sync cl = true -> key_ok key -> data_ok data ->
  put_size key data <= RECV_SIZE ->
  exists z cl' c', compressed_form data z /\ 0 < lenZ z < Snappy.snappy_max_compressed_length (lenZ data) /\
    exchange junk jl (finedb_put key data) (cl, c) FINEDB_OK (cl', c') /\
    cl_sync cl' = true /\ ready cl' c' (set_db (<[key := z]> (s_db s)) s).
Proof.
  intros [Hcl HR Hb] Hsn Hsync Hk Hd Hsz. unfold put_size, RECV_SIZE in Hsz.
  destruct (compressed_data data Hd) as (z & Hz & Hzb & Hzl & Hform).
  change (Compressor.snappy_max_compressed_length (lenZ data))
    with (Snappy.snappy_max_compressed_length (lenZ data)) in Hz, Hzl.
  destruct (serve_one c s (RPut key z true true) [response_code RESP_OK] true
    (set_db (<[key := z]> (s_db s)) s) junk jl) as (c' & Hp & HR' & Ho & Hb'); try done.
  { split; [done|]. split; [done|]. pose proof (lenZ_nonneg key). lia. }
  { unfold encode_request, RECV_SIZE. cbn [encode_body]. lens. }
  { cbn [spec_step stored]. unfold spec_write. rewrite Hsn. cbn [negb apply_pending].
    unfold set_db. by rewrite Hsn. }
  set (cl1 := cl_set_rx [RxData [response_code RESP_OK]] cl).
  assert (Hcl1 : client_ok cl1) by (by destruct Hcl; constructor).
  pose proof (finedb_put_message key data z (response_code RESP_OK) [] cl1 Hcl1 Hd eq_refl Hz) as Hput.
  eexists z, _, c'. split; [done|]. split; [done|]. split.
  - eapply exchange_intro; [exact Hput|simpl; by rewrite Hsync|done|exact Hp|done].
  - split; [done|]. constructor; [|done..]. by destruct Hcl; constructor.
Qed.

Lemma exchange_get cl c s key d z junk jl jl' :
  ready cl c s -> key_ok key -> s_view s !! key = Some z -> compressed_form d z ->
  0 < lenZ z -> 5 + lenZ z <= RECV_SIZE ->
  exists cl' c', exchange junk jl (finedb_get jl' key) (cl, c) (FINEDB_OK, Some d) (cl', c') /\
    ready cl' c' s.
Proof.
  intros [Hcl HR Hb] Hk Hv Hform Hz Hsz.
  destruct (serve_one c s (RGet key true false)
    (response_byte RESP_OK false true :: be_bytes 4 (lenZ z) ++ z) true s junk jl)
    as (c' & Hp & HR' & Ho & Hb'); try done.
  { unfold encode_request, RECV_SIZE. cbn [encode_body]. destruct Hk. lens. }
  { cbn [spec_step]. rewrite Hv. done. }
  set (cl1 := cl_set_rx [RxData (response_byte RESP_OK false true :: be_bytes 4 (lenZ z) ++ z)] cl).
  assert (Hcl1 : client_ok cl1) by (by destruct Hcl; constructor).
  pose proof (finedb_get_message key d z jl' cl1 [] Hcl1 Hform Hz Hsz eq_refl) as Hget.
  eexists _, c'. split; [eapply exchange_intro; [exact Hget|done|done|exact Hp|done]|].
  constructor; [|done..]. by destruct Hcl; constructor.
Qed.
Lemma exchange_get_missing cl c s key junk jl jl' :
  ready cl c s -> key_ok key -> s_view s !! key = None ->
  exists cl' c', exchange junk jl (finedb_get jl' key) (cl, c) (FINEDB_ERR_SERVER, None) (cl', c').
Proof.
  intros [Hcl HR Hb] Hk Hv.
  destruct (serve_one c s (RGet key true false) [response_code RESP_ERR_BAD_NAME] true s junk jl)
    as (c' & Hp & HR' & Ho & Hb'); try done.
  { unfold encode_request, RECV_SIZE. cbn [encode_body]. destruct Hk. lens. }
  { cbn [spec_step]. rewrite Hv. done. }
  set (cl1 := cl_set_rx [RxData [response_code RESP_ERR_BAD_NAME]] cl).
  assert (Hcl1 : client_ok cl1) by (by destruct Hcl; constructor).
  destruct (finedb_get_missing key jl' cl1 [] Hcl1 eq_refl) as (cl' & Hget & Hout & Hrx).
  exists cl', c'. by eapply exchange_intro; [exact Hget|done|done|exact Hp|].
Qed.
Lemma exchange_del cl c s key junk jl :
  ready cl c s -> s_snap s = None -> cl_sync cl = true -> key_ok key -> is_Some (s_db s !! key) ->
  exists cl' c', exchange junk jl (finedb_del key) (cl, c) FINEDB_OK (cl', c') /\
    ready cl' c' (set_db (delete key (s_db s)) s).
Proof.
  intros [Hcl HR Hb] Hsn Hsync Hk Hin.
  destruct (serve_one c s (RDel key true) [response_code RESP_OK] true
    (set_db (delete key (s_db s)) s) junk jl) as (c' & Hp & HR' & Ho & Hb'); try done.
  { unfold encode_request, RECV_SIZE. cbn [encode_body]. destruct Hk. lens. }
  { cbn [spec_step]. unfold spec_write. rewrite Hsn, bool_decide_true by done. cbn [negb apply_pending].
    unfold set_db. by rewrite Hsn. }
  set (cl1 := cl_set_rx [RxData [response_code RESP_OK]] cl).
  assert (Hcl1 : client_ok cl1) by (by destruct Hcl; constructor).
  pose proof (finedb_del_message key (response_code RESP_OK) [] cl1 Hcl1 eq_refl) as Hdel.
  eexists _, c'. split.
  - eapply exchange_intro; [exact Hdel|simpl; by rewrite Hsync|done|exact Hp|done].
  - constructor; [|done..]. by destruct Hcl; constructor.
Qed.

(** ** Writes through the writer thread *)

(** The request that carries a write whose value the client has compressed. *)
Definition write_request (sync : bool) (p : pending) : request :=
  match p with
  | PendPut key v => RPut key v sync true
  | PendDel key => RDel key sync
  end.
Definition apply_all (ws : list pending) (m : gmap bytes bytes) : gmap bytes bytes :=
  fold_left (fun m p => apply_pending p m) ws m.

Lemma async_session ws s :
  s_snap s = None ->
  spec_session (map (write_request false) ws) s =
    Some (replicate (length ws) (response_code RESP_OK),
          {| s_db := s_db s; s_snap := None; s_queue := s_queue s ++ ws |}).
Proof.
  revert s. induction ws as [|p ws IH]; intros s Hs.
  { cbn. rewrite app_nil_r, <- Hs. by destruct s. }
  cbn [map spec_session].
  assert (Hp : spec_step (write_request false p) s = Some ([response_code RESP_OK], true,
    {| s_db := s_db s; s_snap := None; s_queue := s_queue s ++ [p] |})).
  { destruct p; cbn [write_request spec_step stored]; unfold spec_write; by rewrite Hs. }
  rewrite Hp, IH by done. cbn [s_db s_queue length replicate app].
  by rewrite <- app_assoc.
Qed.
Lemma sync_session ws s :
  s_snap s = None ->
  exists out, spec_session (map (write_request true) ws) s =
    Some (out, {| s_db := apply_all ws (s_db s); s_snap := None; s_queue := s_queue s |}).
Proof.
  revert s. induction ws as [|p ws IH]; intros s Hs.
  { exists []. cbn. rewrite <- Hs. by destruct s. }
  cbn [map spec_session].
  assert (Hp : exists out, spec_step (write_request true p) s = Some (out, true,
    {| s_db := apply_pending p (s_db s); s_snap := None; s_queue := s_queue s |})).
  { destruct p as [key v|key]; cbn [write_request spec_step stored]; unfold spec_write; rewrite Hs;
      cbn [negb]; [by eexists|]. case_bool_decide as Hk; [by eexists|].
    eexists. do 2 f_equal. cbn [apply_pending]. rewrite delete_id by (by apply eq_None_not_Some).
    rewrite <- Hs. by destruct s. }
  destruct Hp as (out & ->).
  destruct (IH {| s_db := apply_pending p (s_db s); s_snap := None; s_queue := s_queue s |} eq_refl)
    as (out' & ->). by eexists.
Qed.

(** ** Start-up *)
Definition conn_of (f : finedb_t) (t : tcp_thread_t) (r : list rx) : conn :=
  {| c_env := database f; c_thread := t; c_buff := yd_empty; c_rx := r; c_tx := []; c_out := [];
     c_nn := []; c_queue := []; c_alloc := [] |}.

(** The addresses of the thread objects, in the order of their creation. *)
Definition thread_addrs (ts : list tcp_thread_t) : list Z := thread_addr <$> seqZ 0 (lenZ ts).

Lemma thread_addrs_snoc ts t : thread_addrs (ts ++ [t]) = thread_addrs ts ++ [thread_addr (lenZ ts)].
Proof.
  unfold thread_addrs. rewrite lenZ_app. change (lenZ [t]) with 1. pose proof (lenZ_nonneg ts).
  rewrite seqZ_app, fmap_app by lia. done.
Qed.

Lemma ymalloc_unlimited n : ymalloc n [] = Done (Some (zeros n), []).
Proof. done. Qed.
Lemma yv_add_unlimited v e r a' : yv_add v e [] = Done (r, a') -> a' = [].
Proof.
  unfold yv_add. destruct v as [y|]; [|by intros [= _ <-]]. intros H.
  destruct (_ <=? _); cinv H; unfold clift in Hs.
  - destruct (write_parts _ _); [|done]; injection Hs as <- <-. by injection H as _ <-.
  - destruct (blk_read _ _ _); [|done]; injection Hs as <- <-. unfold yv_renew in H. cinv H.
    rewrite ymalloc_unlimited in Hs. injection Hs as <- <-. cinv H.
    unfold clift in Hs. destruct (write_parts _ _); [|done]; injection Hs as <- <-. by injection H as _ <-.
Qed.

(** The pool: idle threads, and the vector of their addresses. *)
Record pool_ok (ts : list tcp_thread_t) (v : option yvect) : Prop := {
  pool_idle : Forall (eq idle_thread) ts;
  pool_vect : exists y, v = Some y /\ yv_wf y (thread_addrs ts)
}.

Lemma pool_create : exists v, yv_create YVECT_SIZE_MEDIUM [] = Done (v, []) /\ pool_ok [] v.
Proof.
  eexists. split; [reflexivity|]. split; [constructor|]. eexists. split; [reflexivity|].
  split; [by eexists|done|done].
Qed.
Lemma pool_add ts v r a' :
  pool_ok ts v -> lenZ ts + 1 < 2 ^ 31 -> yv_add v (thread_addr (lenZ ts)) [] = Done (r, a') ->
  a' = [] /\ pool_ok (ts ++ [idle_thread]) r.2.
Proof.
  intros [Hi (y & -> & Hw)] Hl Ha. pose proof (yv_add_unlimited _ _ _ _ Ha) as ->. split; [done|].
  destruct (yv_add_ok y (thread_addrs ts) (thread_addr (lenZ ts)) [] Hw) as (x & y' & a' & E & Hy).
  { unfold thread_addrs, lenZ at 1. rewrite length_fmap, length_seqZ. lia. }
  rewrite Ha in E. injection E as -> _. destruct Hy as [(_ & y1 & -> & Hw1)|[Hf _]]; [|done].
  split; [apply Forall_app; split; [done|by repeat constructor]|].
  exists y1. split; [done|]. by rewrite thread_addrs_snoc.
Qed.

Lemma create_threads_ok n tids ts v r a' :
  create_threads n tids ts v [] = Done (r, a') -> pool_ok ts v -> lenZ ts + Z.of_nat n < 2 ^ 31 ->
  pool_ok r.1 r.2 /\ (length r.1 <= length ts + n)%nat.
Proof.
  revert tids ts v. induction n as [|n IH]; intros tids ts v; cbn [create_threads].
  { intros [= <- <-] Hp _. split; [done|simpl; lia]. }
  destruct (script_next 0 tids) as [tid tids']. intros H Hp Hl. cinv H.
  unfold connection_thread_new in Hs. cinv Hs. rewrite ymalloc_unlimited in Hs0. injection Hs0 as <- <-.
  destruct (negb (tid =? 0)); injection Hs as <- <-.
  { apply IH in H as [Hr Hn]; [split; [done|lia]|done|lia]. }
  cinv H. destruct (pool_add ts v _ _ Hp ltac:(lia) Hs) as [-> Hp']. destruct a as [x v'].
  apply IH in H as [Hr Hn]; [|done|rewrite lenZ_app; change (lenZ [_]) with 1; lia].
  split; [done|]. rewrite length_app in Hn. simpl in Hn. lia.
Qed.

Lemma database_open_rel files script nr nd e :
  database_open files script nr nd = Some e -> 0 <= nr < 2 ^ 31 -> 0 <= nd < 2 ^ 31 ->
  (length script <= 2)%nat -> all_data files ->
  nr <= Z.of_nat (me_maxreaders e) /\ env_rel e None (kv_of files) None /\ me_live e = ∅.
Proof.
  unfold database_open. intros Ho Hnr Hnd Hscr Hall.
  destruct (script_next 0 script) as [rc s1] eqn:E1.
  destruct (negb (rc =? 0)); [done|].
  assert (Hs1 : (length s1 <= 1)%nat) by (destruct script; injection E1 as <- <-; simpl in *; lia).
  set (r1 := if 126 <? nr then _ else _) in Ho.
  destruct r1 as [rc1 e1] eqn:Er1. destruct (negb (rc1 =? 0)); [done|].
  set (r2 := if 1 <? nd then _ else _) in Ho.
  destruct r2 as [rc2 e2] eqn:Er2. destruct (negb (rc2 =? 0)); [done|].
  destruct (script_next 0 (me_script e2)) as [rc3 s3] eqn:E3. destruct (negb (rc3 =? 0)); [done|].
  injection Ho as <-.
  assert (H1 : me_script e1 = s1 /\ me_numdbs e1 = 2%nat /\ me_maxdbs e1 = 2%nat /\ me_txn e1 = None /\
    me_dbxs e1 = ∅ /\ me_live e1 = ∅ /\ nr <= Z.of_nat (me_maxreaders e1) /\ (1 <= me_maxreaders e1)%nat).
  { subst r1. unfold mdb_env_set_maxreaders in Er1. destruct (Z.ltb_spec 126 nr);
      [rewrite (proj2 (Z.ltb_ge nr 1)) in Er1 by lia|]; injection Er1 as _ <-; simpl; unfold DEFAULT_READERS;
      repeat split; try done; lia. }
  destruct H1 as (Hs & Hn & Hm & Ht & Hd & Hl & Hr & Hr1).
  assert (H2 : me_script e2 = s1 /\ me_numdbs e2 = 2%nat /\ (2 <= me_maxdbs e2)%nat /\ me_txn e2 = None /\
    me_dbxs e2 = ∅ /\ me_live e2 = ∅ /\ me_maxreaders e2 = me_maxreaders e1).
  { subst r2. destruct (Z.ltb_spec 1 nd); [unfold mdb_env_set_maxdbs in Er2|];
      injection Er2 as _ <-; simpl; repeat split; try done; try lia.
    rewrite wrap_small by lia. lia. }
  destruct H2 as (Hs' & Hn' & Hm' & Ht' & Hd' & Hl' & Hr').
  assert (Hs3 : s3 = []).
  { rewrite Hs' in E3. destruct s1 as [|x [|]]; simpl in *; try lia; by injection E3 as _ <-. }
  split; [simpl; lia|]. split; [|done].
  constructor; simpl; try done.
  - constructor; simpl; rewrite ?Hl'; try done; try lia.
    all: intros t x; try rewrite lookup_empty; done.
  - split; [done|]. unfold readers. simpl. rewrite Hl', map_filter_empty, map_size_empty. lia.
Qed.

(** The server as [finedb_init] leaves it. *)
Record started (f : finedb_t) (files : gmap bytes node) : Prop := {
  st_env : env_rel (database f) None (kv_of files) None;
  st_live : me_live (database f) = ∅;
  st_idle : Forall (eq idle_thread) (threads f);
  st_slots : (length (threads f) <= me_maxreaders (database f))%nat;
  st_vect : exists y, tcp_threads f = Some y /\ yv_wf y (thread_addrs (threads f))
}.
Lemma finedb_init_ok db_path nt nd tmo s f a path :
  finedb_init db_path nt nd tmo s [] = Done (Started f, a) ->
  database_path db_path (st_realpath s) [] = Done (path, []) ->
  0 <= nt < 2 ^ 16 -> 0 <= nd < 2 ^ 31 -> (length (st_lmdb s) <= 2)%nat ->
  all_data (st_files s path) -> started f (st_files s path).
Proof.
  intros Hi Hp Hnt Hnd Hl Hall. unfold finedb_init in Hi.
  cinv Hi. rewrite ymalloc_unlimited in Hs. injection Hs as <- <-.
  cinv Hi. destruct pool_create as (v0 & Hv0 & Hpool). rewrite Hv0 in Hs. injection Hs as <- <-.
  cinv Hi. rewrite Hp in Hs. injection Hs as <- <-.
  destruct (database_open _ _ _ _) as [env|] eqn:Eo; [|done].
  destruct (_ || _); [done|]. destruct (negb (st_writer s =? 0)); [done|].
  cinv Hi. destruct a0 as [ts v], (server_create_listening_socket _ _ _) as [rc sock].
  destruct (negb (rc =? YENOERR)); [done|]. injection Hi as <- _.
  apply create_threads_ok in Hs as [[Hidle Hvect] Hlen]; [|done|change (lenZ []) with 0; lia].
  apply database_open_rel in Eo as (Hr & He & Hlive); [|lia..|done|done]. cbn [fst snd length] in *.
  constructor; cbn [threads tcp_threads database]; try done. lia.
Qed.

(** ** A connection ends *)
Lemma handle_connection_nofuel fuel f j l c :
  rx_total (c_rx c) < Z.of_nat fuel -> handle_connection fuel f j l c <> Fault OutOfFuel.
Proof.
  intros Hf. unfold handle_connection, modify_thread, cbind at 1. destruct (f <? 0); [done|].
  set (c0 := set_thread _ c). unfold on_alloc, cbind at 1, ydynabin_new, cbind at 1, ymalloc.
  change (c_alloc c0) with (c_alloc c).
  destruct (script_next true (c_alloc c)) as [[] a]; cbn; [|done]. unfold cbind at 1.
  set (c1 := set_buff _ _).
  assert (H1 : request_loop fuel j l c1 <> Fault OutOfFuel).
  { apply request_loop_ends; [exact compress_returns|exact uncompress_returns|done|].
    unfold input_left. simpl. lia. }
  destruct (request_loop fuel j l c1) as [[[] c2]|flt]; [|congruence]. unfold cbind at 1.
  assert (H2 : connection_thread_disconnect c2 <> Fault OutOfFuel).
  { unfold connection_thread_disconnect. destruct (_ =? -1); [done|].
    unfold cbind, modify_thread. destruct (transaction (c_thread c2)) as [t|]; [|done].
    unfold on_env. pose proof (rollback_nofuel t (c_env c2)) as Hr.
    destruct (database_transaction_rollback t (c_env c2)) as [[[] e]|]; [done|congruence]. }
  destruct (connection_thread_disconnect c2) as [[[] c3]|]; [done|congruence].
Qed.

(** ** Concrete states for the witnesses *)
Definition demo_client (sync : bool) : client :=
  {| cl_hostname := []; cl_port := 11138; cl_sock := 4; cl_sync := sync; cl_rx := []; cl_tx := [];
     cl_out := []; cl_alloc := [] |}.
Definition empty_state : spec_state := {| s_db := ∅; s_snap := None; s_queue := [] |}.
Lemma fresh_env_rel n : 0 <= n < 2 ^ 31 -> env_rel (fresh_env n []) None ∅ None.
Proof.
  intros Hn. unfold fresh_env.
  destruct (database_open ∅ [0; 0] 15 n) as [e|] eqn:E.
  - cbn [default from_option id]. apply (database_open_rel ∅ [0; 0] 15 n e E); try lia; [simpl; lia|].
    intros k sub. by rewrite lookup_empty.
  - exfalso. revert E. unfold database_open. simpl. by destruct (1 <? n).
Qed.
Lemma demo_sess r : sess_rel (demo_conn (fresh_env 1 []) r) empty_state.
Proof. constructor; [by constructor; [exact yd_empty_wf|..]|apply fresh_env_rel; lia|done..]. Qed.
Lemma demo_ready sync : ready (demo_client sync) (demo_conn (fresh_env 1 []) []) empty_state.
Proof. constructor; [by constructor|apply demo_sess|done]. Qed.
Definition idle_conn (r : list rx) : conn := set_thread idle_thread (demo_conn (fresh_env 1 []) r).
Lemma demo_idle r : idle_rel (idle_conn r) empty_state.
Proof. constructor; [done|apply fresh_env_rel; lia|done..]. Qed.
Lemma key_ok_demo : key_ok [107].
Proof. split; [repeat constructor; lia|vm_compute; intuition congruence]. Qed.
Lemma data_ok_demo : data_ok [118; 118; 118].
Proof. split; [repeat constructor; lia|reflexivity]. Qed.

(** ** Properties *)

(** C1: end to end.  A synchronous [finedb_put] followed by a [finedb_get] of
    the same key returns the value, through the client's compression, the
    wire, the server's buffers and LMDB, and back; whatever was stored before.
    The request has to fit in one segment. *)
Theorem client_put_get cl c s key data junk jl jl' :
  ready cl c s -> s_snap s = None -> cl_sync cl = true -> key_ok key -> data_ok data ->
  put_size key data <= RECV_SIZE ->
  exists w1 w2,
    exchange junk jl (finedb_put key data) (cl, c) FINEDB_OK w1 /\
    exchange junk jl (finedb_get jl' key) w1 (FINEDB_OK, Some data) w2.
Proof.
  intros HR Hsn Hsync Hk Hd Hsz.
  destruct (exchange_put cl c s key data junk jl HR Hsn Hsync Hk Hd Hsz)
    as (z & cl1 & c1 & Hform & Hz & H1 & _ & HR1).
  assert (Hv : s_view (set_db (<[key := z]> (s_db s)) s) !! key = Some z).
  { unfold s_view, set_db. rewrite Hsn. apply lookup_insert_eq. }
  unfold put_size in Hsz. pose proof (lenZ_nonneg key).
  destruct (exchange_get cl1 c1 _ key data z junk jl jl' HR1 Hk Hv Hform) as (cl2 & c2 & H2 & _);
    try lia. by exists (cl1, c1), (cl2, c2).
Qed.
Lemma client_put_get_witness :
  exists w1 w2,
    exchange 0%nat 0 (finedb_put [107] [118; 118; 118])
      (demo_client true, demo_conn (fresh_env 1 []) []) FINEDB_OK w1 /\
    exchange 0%nat 0 (finedb_get 0 [107]) w1 (FINEDB_OK, Some [118; 118; 118]) w2.
Proof.
  apply (client_put_get (demo_client true) (demo_conn (fresh_env 1 []) []) empty_state [107] [118; 118; 118]
    0%nat 0 0 (demo_ready true) eq_refl eq_refl key_ok_demo data_ok_demo).
  vm_compute. discriminate.
Defined.

(** End to end.  After a synchronous [finedb_put] and [finedb_del] of a
    key, [finedb_get] reports that the server does not have it. *)
Theorem client_put_del_get cl c s key data junk jl jl' :
  ready cl c s -> s_snap s = None -> cl_sync cl = true -> key_ok key -> data_ok data ->
  put_size key data <= RECV_SIZE ->
  exists w1 w2 w3,
    exchange junk jl (finedb_put key data) (cl, c) FINEDB_OK w1 /\
    exchange junk jl (finedb_del key) w1 FINEDB_OK w2 /\
    exchange junk jl (finedb_get jl' key) w2 (FINEDB_ERR_SERVER, None) w3.
Proof.
  intros HR Hsn Hsync Hk Hd Hsz.
  destruct (exchange_put cl c s key data junk jl HR Hsn Hsync Hk Hd Hsz)
    as (z & cl1 & c1 & Hform & Hz & H1 & Hsync1 & HR1).
  destruct (exchange_del cl1 c1 _ key junk jl HR1 Hsn Hsync1 Hk) as (cl2 & c2 & H2 & HR2).
  { exists z. apply lookup_insert_eq. }
  destruct (exchange_get_missing cl2 c2 _ key junk jl jl' HR2 Hk) as (cl3 & c3 & H3).
  { unfold s_view, set_db. simpl. rewrite Hsn. simpl. apply lookup_delete_eq. }
  by exists (cl1, c1), (cl2, c2), (cl3, c3).
Qed.
Lemma client_put_del_get_witness :
  exists w1 w2 w3,
    exchange 0%nat 0 (finedb_put [107] [118; 118; 118])
      (demo_client true, demo_conn (fresh_env 1 []) []) FINEDB_OK w1 /\
    exchange 0%nat 0 (finedb_del [107]) w1 FINEDB_OK w2 /\
    exchange 0%nat 0 (finedb_get 0 [107]) w2 (FINEDB_ERR_SERVER, None) w3.
Proof.
  apply (client_put_del_get (demo_client true) (demo_conn (fresh_env 1 []) []) empty_state [107] [118; 118; 118]
    0%nat 0 0 (demo_ready true) eq_refl eq_refl key_ok_demo data_ok_demo).
  vm_compute. discriminate.
Defined.

(** C4: one request.  Whatever request comes next in the buffer of a
    connection, the server sends the answer of the abstract service, moves to
    its next state, consumes exactly the bytes of the request, and leaves the
    transactions of the other connections as they are. *)
Theorem request_refines_service c s r rest out v s' junk jl :
  sess_rel c s -> request_ok r -> yd_content (c_buff c) = encode_request r ++ rest ->
  spec_step r s = Some (out, v, s') ->
  exists c', process_request junk jl c = Done (v, c') /\
    sess_rel c' s' /\ c_out c' = c_out c ++ out /\ yd_content (c_buff c') = rest /\
    forall t txn, transaction (c_thread c) <> Some t ->
      me_live (c_env c) !! t = Some txn -> me_live (c_env c') !! t = Some txn.
Proof.
  intros HR Hr Hc Hs.
  destruct (process_request_refines c s r rest out v s' junk jl HR Hr Hc Hs)
    as (c' & Hp & HR' & Ho & Hb & _ & Hf). exists c'.
  split; [done|]. split; [done|]. split; [done|]. split; [done|].
  intros t txn. by apply (live_frame_other _ _ _ _ _ _ Hf).
Qed.
Lemma request_refines_service_witness :
  exists b c', yd_content b = encode_request RPing ++ [0; 0] /\
    process_request 0%nat 0 (set_buff b (demo_conn (fresh_env 1 []) [])) = Done (true, c') /\
    c_out c' = [response_code RESP_OK] /\ yd_content (c_buff c') = [0; 0].
Proof.
  set (b := {| yd_data := Some (encode_request RPing ++ [0; 0]); yd_offset := 0; yd_len := 3; yd_free := 0 |}).
  assert (Hb : yd_wf b) by (vm_compute; intuition congruence).
  destruct (request_refines_service (set_buff b (demo_conn (fresh_env 1 []) [])) empty_state RPing [0; 0]
    [response_code RESP_OK] true empty_state 0%nat 0 (sess_rel_buff _ _ b (demo_sess []) Hb) I eq_refl eq_refl)
    as (c' & Hp & _ & Ho & Hc & _).
  exists b, c'. split; [reflexivity|]. split; [exact Hp|]. split; [exact Ho|exact Hc].
Defined.

(** C3: whole sessions.  A connection that brings any sequence of requests,
    grouped into segments in any way, is answered as the abstract service
    answers the sequence, and leaves the server in the state of the service;
    it ends, without a fault, when the peer closes it or a request ends it. *)
Theorem session_refines_service groups fuel f c s out s' junk jl :
  idle_rel c s -> s_snap s = None -> 0 <= f -> c_rx c = arrivals groups -> segments_ok groups ->
  Forall request_ok (concat groups) -> spec_session (concat groups) s = Some (out, s') ->
  (length (concat groups) < fuel)%nat ->
  exists c', handle_connection fuel f junk jl c = Done (tt, c') /\ idle_rel c' s' /\
    c_out c' = c_out c ++ out.
Proof. apply handle_connection_refines. Qed.
Lemma session_refines_service_witness :
  exists c', handle_connection 3 7 0%nat 0 (idle_conn (arrivals [[RStart; RStop]])) = Done (tt, c') /\
    idle_rel c' empty_state /\ c_out c' = [response_code RESP_OK; response_code RESP_OK].
Proof.
  apply (session_refines_service [[RStart; RStop]] 3 7 (idle_conn (arrivals [[RStart; RStop]])) empty_state
    [response_code RESP_OK; response_code RESP_OK] empty_state 0%nat 0 (demo_idle _) eq_refl ltac:(lia)
    eq_refl).
  - repeat constructor; vm_compute; intuition congruence.
  - repeat constructor.
  - reflexivity.
  - simpl. lia.
Defined.

(** C18: the writer thread.  A session of asynchronous writes answers OK to
    each of them and does not change the database; once the writer thread has
    handled the messages, the database is the one a session of the same
    writes in synchronous mode leaves. *)
Theorem async_then_writer_equals_sync ws ga gs fuel f c s junk jl :
  idle_rel c s -> s_snap s = None -> s_queue s = [] -> 0 <= f ->
  concat ga = map (write_request false) ws -> segments_ok ga -> Forall request_ok (concat ga) ->
  concat gs = map (write_request true) ws -> segments_ok gs -> Forall request_ok (concat gs) ->
  (length ws < fuel)%nat ->
  exists ca cs e,
    handle_connection fuel f junk jl (set_rx (arrivals ga) c) = Done (tt, ca) /\
    c_out ca = c_out c ++ replicate (length ws) (response_code RESP_OK) /\
    kv (c_env ca) = kv (c_env c) /\
    writer_loop (Some <$> c_queue ca) (c_env ca) = Done (tt, e) /\
    handle_connection fuel f junk jl (set_rx (arrivals gs) c) = Done (tt, cs) /\
    kv e = kv (c_env cs) /\ kv e = apply_all ws (kv (c_env c)).
Proof.
  intros HI Hsn Hq Hf Hga Hsa Hoa Hgs Hss Hos Hfuel.
  assert (HI' : forall r, idle_rel (set_rx r c) s) by (intros r; destruct HI; by constructor).
  pose proof (async_session ws s Hsn) as Ha. destruct (sync_session ws s Hsn) as (out & Hs).
  rewrite <- Hga in Ha. rewrite <- Hgs in Hs.
  destruct (handle_connection_refines ga fuel f (set_rx (arrivals ga) c) s _ _ junk jl (HI' _) Hsn Hf
    eq_refl Hsa Hoa Ha) as (ca & Hca & HIa & Hoa'); [by rewrite Hga, length_map|].
  destruct (handle_connection_refines gs fuel f (set_rx (arrivals gs) c) s _ _ junk jl (HI' _) Hsn Hf
    eq_refl Hss Hos Hs) as (cs & Hcs & HIs & _); [by rewrite Hgs, length_map|].
  destruct HIa as [_ Hea Hqa Hpa _ _ _]. cbn [s_queue s_db] in *. rewrite Hq in Hqa, Hpa.
  destruct (writer_loop_refines ws (c_env ca) _ Hea Hpa) as (e & Hw & He & _).
  pose proof (er_db _ _ _ _ (il_env _ _ HI)) as Hkv.
  exists ca, cs, e. split; [done|]. split; [done|]. split; [by rewrite (er_db _ _ _ _ Hea), Hkv|].
  split; [by rewrite Hqa|]. split; [done|].
  rewrite (er_db _ _ _ _ He), (er_db _ _ _ _ (il_env _ _ HIs)). cbn [s_db].
  split; [done|]. by rewrite Hkv.
Qed.
Lemma async_then_writer_equals_sync_witness :
  exists ca cs e,
    handle_connection 2 7 0%nat 0 (set_rx (arrivals [[RDel [107] false]]) (idle_conn [])) = Done (tt, ca) /\
    c_out ca = [response_code RESP_OK] /\
    kv (c_env ca) = kv (c_env (idle_conn [])) /\
    writer_loop (Some <$> c_queue ca) (c_env ca) = Done (tt, e) /\
    handle_connection 2 7 0%nat 0 (set_rx (arrivals [[RDel [107] true]]) (idle_conn [])) = Done (tt, cs) /\
    kv e = kv (c_env cs) /\ kv e = apply_all [PendDel [107]] (kv (c_env (idle_conn []))).
Proof.
  apply (async_then_writer_equals_sync [PendDel [107]] [[RDel [107] false]] [[RDel [107] true]] 2 7
    (idle_conn []) empty_state 0%nat 0 (demo_idle _) eq_refl eq_refl ltac:(lia) eq_refl).
  - repeat constructor; vm_compute; intuition congruence.
  - repeat constructor; try lia; vm_compute; intuition congruence.
  - reflexivity.
  - repeat constructor; vm_compute; intuition congruence.
  - repeat constructor; try lia; vm_compute; intuition congruence.
  - simpl. lia.
Defined.

(** C29: every connection ends.  Whatever a client sends (valid requests or
    not), however it is cut into segments, and whatever the sockets, the
    allocator and the storage layer answer, the thread is done with the
    connection after at most one turn of the request loop per byte received
    and one more. *)
Theorem connection_ends f j l c :
  handle_connection (S (Z.to_nat (rx_total (c_rx c)))) f j l c <> Fault OutOfFuel.
Proof. apply handle_connection_nofuel. pose proof (rx_total_nonneg (c_rx c)). lia. Qed.

(** C40: a transaction is read-only.  Inside a transaction every PUT and DEL,
    synchronous or not, is answered RESP_ERR_BAD_NAME and changes neither the
    database nor the snapshot nor the queue of the writer. *)
Theorem transaction_refuses_writes c s r rest m junk jl :
  sess_rel c s -> s_snap s = Some m -> request_ok r ->
  match r with RPut _ _ _ _ | RDel _ _ => True | _ => False end ->
  yd_content (c_buff c) = encode_request r ++ rest ->
  exists c', process_request junk jl c = Done (true, c') /\ sess_rel c' s /\
    c_out c' = c_out c ++ [response_code RESP_ERR_BAD_NAME] /\
    kv (c_env c') = kv (c_env c) /\ c_queue c' = c_queue c.
Proof.
  intros HR Hm Hr Hw Hc.
  assert (Hs : spec_step r s = Some ([response_code RESP_ERR_BAD_NAME], true, s)).
  { destruct r as [|key comp ser|key data sync comp|key sync| |]; try done; cbn [spec_step];
      unfold spec_write; rewrite Hm; [|done].
    destruct Hr as [_ Hd]. unfold stored. destruct comp; [done|].
    destruct (compressed_data data Hd) as (z & -> & _). done. }
  destruct (process_request_refines c s r rest _ _ _ junk jl HR Hr Hc Hs)
    as (c' & Hp & HR' & Ho & _). exists c'. split; [done|]. split; [done|]. split; [done|].
  rewrite (er_db _ _ _ _ (sr_env c s HR)), (er_db _ _ _ _ (sr_env c' s HR')).
  by rewrite (sr_queue c s HR), (sr_queue c' s HR').
Qed.
Lemma transaction_refuses_writes_witness :
  exists c c', sess_rel c {| s_db := ∅; s_snap := Some ∅; s_queue := [] |} /\
    process_request 0%nat 0 c = Done (true, c') /\
    c_out c' = c_out c ++ [response_code RESP_ERR_BAD_NAME].
Proof.
  set (b := {| yd_data := Some (encode_request RStart ++ encode_request (RDel [107] true));
               yd_offset := 0; yd_len := 5; yd_free := 0 |}).
  assert (Hb : yd_wf b) by (vm_compute; intuition congruence).
  destruct (process_request_refines (set_buff b (demo_conn (fresh_env 1 []) [])) empty_state RStart
    (encode_request (RDel [107] true)) _ _ _ 0%nat 0 (sess_rel_buff _ _ b (demo_sess []) Hb) I eq_refl eq_refl)
    as (c & _ & HR & _ & Hc & _).
  destruct (transaction_refuses_writes c _ (RDel [107] true) [] ∅ 0%nat 0 HR eq_refl key_ok_demo I)
    as (c' & Hp & _ & Ho & _).
  { rewrite Hc. reflexivity. }
  exists c, c'. split; [exact HR|]. split; [exact Hp|exact Ho].
Defined.

(** Unknown requests.  A request byte whose command is not one of the
    seven handled ones (PROTO_ADMIN and PROTO_EXTRA included) is answered RESP_ERR_PROTOCOL,
    ends the connection and touches neither the database nor the queue. *)
Theorem unknown_command_refused c b rest junk jl :
  conn_ok c -> is_byte b -> 7 <= REQUEST_COMMAND b -> yd_content (c_buff c) = b :: rest ->
  exists c', process_request junk jl c = Done (false, c') /\
    c_out c' = c_out c ++ [response_code RESP_ERR_PROTOCOL] /\
    c_env c' = c_env c /\ c_queue c' = c_queue c /\ yd_content (c_buff c') = rest.
Proof.
  intros Hok Hb H7 Hc. pose proof (yd_content_len _ (ok_wf c Hok)) as Hlen.
  rewrite Hc, lenZ_cons in Hlen. pose proof (lenZ_nonneg rest).
  unfold process_request. cstep (read_data_buffered 1 c (ok_fd c Hok) ltac:(lia)).
  rewrite Z.eqb_refl. cbn [negb].
  destruct (forward_bytes_spec 1 c (ok_wf c Hok) ltac:(lia)) as (bf & Hf & Hwf & Hbf).
  rewrite Hc in Hf, Hbf. change (takeZ 1 (b :: rest)) with [b] in Hf.
  change (dropZ 1 (b :: rest)) with rest in Hbf.
  cstep Hf. unfold cget, cbind at 1. replace (be_val [b]) with b by done.
  assert (Hn : command_handler junk jl (REQUEST_COMMAND b) = None).
  { pose proof (land_15_bound b). unfold command_handler.
    assert (Hi : exists i, REQUEST_COMMAND b = 7 + Z.of_nat i /\ (i < 9)%nat)
      by (exists (Z.to_nat (REQUEST_COMMAND b - 7)); lia).
    destruct Hi as (i & -> & Hi). replace (Z.to_nat (7 + Z.of_nat i)) with (7 + i)%nat by lia.
    do 9 (destruct i as [|i]; [done|]). lia. }
  rewrite Hn. unfold CONNECTION_SEND_ERROR.
  destruct (code_replies RESP_ERR_PROTOCOL (set_buff bf c) (c_thread c) (c_env c) rest
    (conn_ok_buff _ _ Hok Hwf) Hbf) as (b' & Hs & Hwf' & Hb').
  replace (set_thread (c_thread c) (set_env (c_env c) (set_buff bf c))) with (set_buff bf c) in Hs
    by (by destruct c).
  cstep Hs. eexists. split; [done|]. simpl. by rewrite app_nil_r.
Qed.
Lemma unknown_command_refused_witness :
  exists b c', yd_content b = [command_code PROTO_EXTRA; 1; 97] /\
    process_request 0%nat 0 (set_buff b (demo_conn (fresh_env 1 []) [])) = Done (false, c') /\
    c_out c' = [response_code RESP_ERR_PROTOCOL].
Proof.
  set (b := {| yd_data := Some [command_code PROTO_EXTRA; 1; 97]; yd_offset := 0; yd_len := 3; yd_free := 0 |}).
  assert (Hb : yd_wf b) by (vm_compute; intuition congruence).
  destruct (unknown_command_refused (set_buff b (demo_conn (fresh_env 1 []) [])) (command_code PROTO_EXTRA)
    [1; 97] 0%nat 0 (conn_ok_buff _ _ (sr_ok _ _ (demo_sess [])) Hb)) as (c' & Hp & Ho & _).
  - vm_compute. intuition congruence.
  - vm_compute. discriminate.
  - reflexivity.
  - exists b, c'. split; [reflexivity|]. split; [exact Hp|exact Ho].
Defined.

(** Start-up.  When the server starts, every thread of its pool is idle,
    the vector of the pool holds the addresses of the threads, there are at
    least as many reader slots as threads, and each thread is in the state the
    session theorems start from, on the database found on disk. *)
Theorem startup_ready db_path nt nd tmo s f a path :
  finedb_init db_path nt nd tmo s [] = Done (Started f, a) ->
  database_path db_path (st_realpath s) [] = Done (path, []) ->
  0 <= nt < 2 ^ 16 -> 0 <= nd < 2 ^ 31 -> (length (st_lmdb s) <= 2)%nat ->
  all_data (st_files s path) ->
  (length (threads f) <= me_maxreaders (database f))%nat /\
  (exists y, tcp_threads f = Some y /\ yv_wf y (thread_addrs (threads f))) /\
  forall t r, t ∈ threads f ->
    idle_rel (conn_of f t r) {| s_db := kv_of (st_files s path); s_snap := None; s_queue := [] |}.
Proof.
  intros Hi Hp Hnt Hnd Hl Hall.
  destruct (finedb_init_ok _ _ _ _ _ _ _ _ Hi Hp Hnt Hnd Hl Hall) as [He _ Hidle Hs Hv].
  split; [done|]. split; [done|]. intros t r Ht. rewrite Forall_forall in Hidle.
  specialize (Hidle t Ht). subst t. by constructor.
Qed.
Definition demo_startup : startup :=
  {| st_realpath := None; st_files := fun _ => ∅; st_lmdb := [0; 0]; st_nn := 3; st_nn_bind := 1;
     st_writer := 0; st_threads := [0; 11]; st_sock := 4; st_bind := 0; st_listen := 0 |}.
Lemma startup_ready_witness :
  exists f a, finedb_init (Some [100]) 2 1 30 demo_startup [] = Done (Started f, a) /\
    (length (threads f) <= me_maxreaders (database f))%nat /\
    (exists y, tcp_threads f = Some y /\ yv_wf y (thread_addrs (threads f))) /\
    forall t r, t ∈ threads f -> idle_rel (conn_of f t r) empty_state.
Proof.
  destruct (finedb_init (Some [100]) 2 1 30 demo_startup []) as [[[|f] a]|] eqn:E;
    [vm_compute in E; discriminate E| |vm_compute in E; discriminate E].
  exists f, a. split; [reflexivity|].
  apply (startup_ready (Some [100]) 2 1 30 demo_startup f a [100] E eq_refl ltac:(lia) ltac:(lia)).
  - simpl. lia.
  - intros key sub. simpl. by rewrite lookup_empty.
Defined.

(** What the client makes of an answer.  Whatever code the server answers
    to a PUT, the library reports success for RESP_OK, but also for
    RESP_ERR_SERVER, RESP_ERR_TOO_MANY_DB and RESP_ERR_TRANSACTION, in which
    cases nothing was stored. *)
Theorem client_accepts_errors key data r rxs c :
  client_ok c -> data_ok data -> cl_rx c = RxData [response_code r] :: rxs ->
  exists rc c', finedb_put key data c = Done (rc, c') /\
    (rc = FINEDB_OK <->
     r = RESP_OK \/ r = RESP_ERR_SERVER \/ r = RESP_ERR_TOO_MANY_DB \/ r = RESP_ERR_TRANSACTION).
Proof.
  intros Hc Hd Hr. destruct Hd as [Hb Hl]. destruct (snappy_roundtrip data Hb Hl) as (z & Hz & _).
  do 2 eexists. split; [by apply (finedb_put_message key data z (response_code r) rxs)|].
  rewrite <- response_status_spec. destruct (Z.eqb_spec (RESPONSE_STATUS (response_code r)) (response_code RESP_OK)).
  - split; [by intros _|done].
  - split; [done|]. by intros.
Qed.

Lemma client_accepts_errors_witness :
  exists c', finedb_put [107] [118; 118; 118]
    (cl_set_rx [RxData [response_code RESP_ERR_SERVER]] (demo_client true)) = Done (FINEDB_OK, c').
Proof.
  destruct (client_accepts_errors [107] [118; 118; 118] RESP_ERR_SERVER []
    (cl_set_rx [RxData [response_code RESP_ERR_SERVER]] (demo_client true))) as (rc & c' & Hp & Hrc).
  - constructor; reflexivity.
  - exact data_ok_demo.
  - reflexivity.
  - exists c'. rewrite Hp. rewrite (proj2 Hrc); [reflexivity|]. right; left; reflexivity.
Defined.
