(* ===== verification/Concurrency.v ===== *)
(** * Concurrency: properties of every interleaving of the threads

    Theorems about the runs of Threads, with the codec of lib/snappy-c: from
    start-up every run refines the abstract service, transactions are
    isolated, and a server that is left to work comes to rest with no
    transaction open and no write waiting. *)
From S2P Require Import Prelude Protocol Dynabin Yvect Lmdb Database Connection Compressor.
From S2P Require Import Snappy SnappyDec SnappyEnc Spec Commands Server Session Threads System.

(** ** The server after start-up *)
Definition world_of (f : finedb_t) : world :=
  {| w_env := database f; w_queue := []; w_pipe := [];
     w_workers := (fun t => {| wk_thread := t; wk_buff := yd_empty; wk_rx := []; wk_out := [] |})
                    <$> threads f |}.
Definition new_client : client_sess :=
  {| cs_open := false; cs_snap := None; cs_reqs := []; cs_out := [] |}.
Definition service_of (db : gmap bytes bytes) (n : nat) : service :=
  {| sv_db := db; sv_queue := []; sv_pipe := []; sv_clients := replicate n new_client |}.

Lemma world_of_rel f files :
  started f files -> world_rel (world_of f) (service_of (kv_of files) (length (threads f))).
Proof.
  intros [He Hl Hi Hs _].
  assert (Hown : own_txns (w_workers (world_of f)) = []).
  { clear Hs. simpl. induction Hi as [|t ts <- _ IH]; [done|]. exact IH. }
  split; try done.
  - by eapply env_rel_shared.
  - clear Hown Hs. simpl. induction Hi as [|t ts <- _ IH]; simpl; constructor; [by split|exact IH].
  - split; [rewrite Hown; constructor|by rewrite Hown; cbn [world_of w_env]; rewrite Hl|by simpl; rewrite length_fmap].
Qed.

(** ** Facts about the service *)

(** A client that is not served keeps its state while it is connected. *)
Lemma sv_step_other ev g g' i cl :
  sv_step ev g = Some g' -> ev <> SServe i -> sv_clients g !! i = Some cl -> cs_open cl = true ->
  sv_clients g' !! i = Some cl.
Proof.
  intros Hs Hev Hcl Hop. destruct ev as [f nn|j groups|j|]; cbn [sv_step] in Hs.
  - injection Hs as <-. by destruct (f <? 0).
  - destruct (sv_clients g !! j) as [clj|] eqn:Ej, (sv_pipe g); try by injection Hs as <-.
    destruct (cs_open clj) eqn:Eo; injection Hs as <-; [done|]. simpl.
    rewrite list_lookup_insert_ne; [done|]. intros ->. congruence.
  - destruct (sv_clients g !! j) as [clj|] eqn:Ej; [|by injection Hs as <-].
    destruct (negb (cs_open clj)); [by injection Hs as <-|].
    destruct (sv_serve g clj) as [[s cl']|]; [|done]. injection Hs as <-. simpl.
    rewrite list_lookup_insert_ne; [done|]. congruence.
  - destruct (sv_queue g); by injection Hs as <-.
Qed.
Lemma sv_run_other evs g g' i cl :
  sv_run evs g = Some g' -> Forall (fun ev => ev <> SServe i) evs ->
  sv_clients g !! i = Some cl -> cs_open cl = true -> sv_clients g' !! i = Some cl.
Proof.
  revert g. induction evs as [|ev evs IH]; intros g Hr Hev Hcl Hop; [by injection Hr as <-|].
  cbn [sv_run] in Hr. destruct (sv_step ev g) as [g1|] eqn:E; [|done].
  apply Forall_cons in Hev as [Hev Hevs]. eauto using sv_step_other.
Qed.
Lemma sv_run_app evs1 evs2 g :
  sv_run (evs1 ++ evs2) g = match sv_run evs1 g with Some g1 => sv_run evs2 g1 | None => None end.
Proof.
  revert g. induction evs1 as [|ev evs1 IH]; intros g; [done|]. cbn [app sv_run].
  by destruct (sv_step ev g).
Qed.

(** What a GET with the compressed flag is answered. *)
Definition get_reply (db : gmap bytes bytes) (key : bytes) (ser : bool) : bytes :=
  match db !! key with
  | None => [response_code RESP_ERR_BAD_NAME]
  | Some v => response_byte RESP_OK ser true :: be_bytes 4 (lenZ v) ++ v
  end.
Lemma spec_get s key ser :
  spec_step (RGet key true ser) s = Some (get_reply (s_view s) key ser, true, s).
Proof. unfold get_reply. cbn [spec_step]. by destruct (s_view s !! key). Qed.

(** The turns of [sv_step] on a client. *)
Lemma sv_step_serve g i cl s cl' :
  sv_clients g !! i = Some cl -> cs_open cl = true -> sv_serve g cl = Some (s, cl') ->
  sv_step (SServe i) g =
  Some {| sv_db := s_db s; sv_queue := s_queue s; sv_pipe := sv_pipe g;
          sv_clients := <[i := cl']> (sv_clients g) |}.
Proof. intros Hcl Hop Hs. cbn [sv_step]. by rewrite Hcl, Hop, Hs. Qed.

(** The turns of a client among the events *)
Fixpoint serves (i : nat) (evs : list sevent) : nat :=
  match evs with
  | [] => 0%nat
  | SServe j :: evs => ((if decide (i = j) then 1 else 0) + serves i evs)%nat
  | _ :: evs => serves i evs
  end.
Lemma serves_cons i ev evs : serves i (ev :: evs) = (serves i [ev] + serves i evs)%nat.
Proof. destruct ev; simpl; lia. Qed.
Lemma serves_other i ev : serves i [ev] = 0%nat <-> ev <> SServe i.
Proof. destruct ev as [| |j|]; simpl; try (split; [discriminate|done]); try done. case_decide; [subst; split; [lia|done]|]. split; [congruence|lia]. Qed.

(** The requests of a transaction: all but the one that ends it and START.  What
    they are answered when it sees the database [db]: writes are refused. *)
Definition in_txn (r : request) : Prop := match r with RStart | RStop => False | _ => True end.
Definition txn_reply (db : gmap bytes bytes) (r : request) : option bytes :=
  match r with
  | RPing => Some [response_code RESP_OK]
  | RGet key compress ser =>
      match db !! key with
      | None => Some [response_code RESP_ERR_BAD_NAME]
      | Some v => match fetched compress v with
                  | None => None
                  | Some d => Some (response_byte RESP_OK ser compress :: be_bytes 4 (lenZ d) ++ d)
                  end
      end
  | RPut _ _ _ _ | RDel _ _ => Some [response_code RESP_ERR_BAD_NAME]
  | RStart | RStop => None
  end.
Lemma spec_in_txn r s db out v s' :
  in_txn r -> s_snap s = Some db -> spec_step r s = Some (out, v, s') -> txn_reply db r = Some out /\ v = true /\ s' = s.
Proof.
  intros Hr Hs E. destruct r as [|key comp ser|key data sync comp|key sync| |]; cbn [spec_step txn_reply] in *; try done.
  - by injection E as <- <- <-.
  - unfold s_view in E. rewrite Hs in E. cbn [default from_option id] in E. destruct (db !! key) as [w|]; [|by injection E as <- <- <-].
    destruct (fetched comp w); [|done]. by injection E as <- <- <-.
  - destruct (stored comp data); [|done]. unfold spec_write in E. rewrite Hs in E. by injection E as <- <- <-.
  - unfold spec_write in E. rewrite Hs in E. by injection E as <- <- <-.
Qed.
Lemma isolation db i rs : forall evs g cl body g',
  sv_clients g !! i = Some cl -> cs_open cl = true -> cs_snap cl = Some db -> cs_reqs cl = body ++ rs ->
  Forall in_txn body -> serves i evs = length body -> sv_run evs g = Some g' ->
  exists cl' outs, sv_clients g' !! i = Some cl' /\ Forall2 (fun r out => txn_reply db r = Some out) body outs /\
    cs_out cl' = cs_out cl ++ concat outs.
Proof.
  induction evs as [|ev evs IH]; intros g cl body g' Hcl Hop Hsn Hreq Hb Hn Hr.
  { destruct body; [|done]. injection Hr as <-. exists cl, []. split; [done|]. split; [constructor|]. by rewrite app_nil_r. }
  cbn [sv_run] in Hr. destruct (sv_step ev g) as [g1|] eqn:E1; [|done]. rewrite serves_cons in Hn.
  destruct (decide (serves i [ev] = 0%nat)) as [H0|H0].
  { eapply IH; [|done..|lia|exact Hr]. eapply sv_step_other; [done|by apply serves_other|done|done]. }
  assert (ev = SServe i) as ->.
  { destruct ev as [| |j|]; cbn in H0; try done. case_decide; [by subst|done]. }
  cbn [serves] in Hn. rewrite decide_True in Hn by done. destruct body as [|r body]; cbn [length] in Hn; [lia|].
  apply Forall_cons in Hb as [Hr1 Hb]. cbn [sv_step] in E1. rewrite Hcl, Hop in E1. cbn [negb] in E1.
  destruct (sv_serve g cl) as [[s cl1]|] eqn:Es; [|done]. unfold sv_serve in Es. rewrite Hreq in Es. cbn [app] in Es.
  destruct (spec_step r (sv_view g cl)) as [[[out v] s']|] eqn:Ep; [|done].
  destruct (spec_in_txn r (sv_view g cl) db out v s' Hr1 Hsn Ep) as (Ho & -> & ->). injection Es as <- <-. injection E1 as <-.
  set (g1 := {| sv_db := _; sv_queue := _; sv_pipe := _; sv_clients := _ |}) in Hr.
  destruct (IH g1 {| cs_open := true; cs_snap := cs_snap cl; cs_reqs := body ++ rs; cs_out := cs_out cl ++ out |} body g')
    as (cl' & outs & H1 & H2 & H3); [apply list_lookup_insert_eq; by eapply lookup_lt_Some|done..|lia|done|].
  exists cl', (out :: outs). split; [done|]. split; [by constructor|]. cbn [concat]. rewrite H3. cbn [cs_out]. by rewrite <- app_assoc.
Qed.

(** ** Coming to rest *)

(** The turns a client still needs: one per request and one to end. *)
Definition turns_left (cl : client_sess) : nat :=
  if cs_open cl then S (length (cs_reqs cl)) else 0%nat.
Definition no_take (ev : sevent) : Prop :=
  match ev with STake _ _ => False | _ => True end.
(** Requests the service always answers: a GET asks for the stored form. *)
Definition request_total (r : request) : Prop :=
  match r with RGet _ compress _ => compress = true | _ => True end.
Definition client_total (cl : client_sess) : Prop :=
  Forall (fun r => request_ok r /\ request_total r) (cs_reqs cl).

Lemma spec_step_total r s : request_ok r -> request_total r -> is_Some (spec_step r s).
Proof.
  intros Hr Ht. destruct r as [|key comp ser|key data sync comp|key sync| |]; [by eexists| | | |by eexists|].
  - simpl in Ht. subst comp. rewrite spec_get. by eexists.
  - destruct Hr as [_ [Hb Hd]]. cbn [spec_step]. unfold stored. destruct comp.
    { destruct (spec_write _ _ _ _). by eexists. }
    destruct (snappy_roundtrip data Hb Hd) as (z & -> & _). destruct (spec_write _ _ _ _). by eexists.
  - cbn [spec_step]. destruct (spec_write _ _ _ _). by eexists.
  - cbn [spec_step]. destruct (s_snap s); by eexists.
Qed.

Lemma sv_serve_ok g cl :
  client_total cl -> cs_open cl = true ->
  exists s cl', sv_serve g cl = Some (s, cl') /\ client_total cl' /\
    (turns_left cl' < turns_left cl)%nat /\ (length (s_queue s) <= S (length (sv_queue g)))%nat.
Proof.
  intros Ht Hop. unfold sv_serve, turns_left, client_total in *. rewrite Hop.
  destruct (cs_reqs cl) as [|r rs]; [do 2 eexists; split; [done|]; simpl; auto with lia|].
  apply Forall_cons in Ht as [[Hr Ht] Hrs].
  destruct (spec_step_total r (sv_view g cl) Hr Ht) as [[[out v] s] E]. rewrite E.
  assert (Hq : (length (s_queue s) <= S (length (sv_queue g)))%nat).
  { destruct r as [|key comp ser|key data sync comp|key sync| |]; cbn [spec_step] in E.
    - injection E as _ _ <-. simpl. lia.
    - simpl in Ht. subst comp. pose proof (spec_get (sv_view g cl) key ser) as E'. cbn [spec_step] in E'.
      rewrite E' in E. injection E as _ _ <-. simpl. lia.
    - destruct (stored comp data) as [v'|]; [|done]. unfold spec_write in E. simpl in E.
      destruct (cs_snap cl), sync; injection E as _ _ <-; simpl; rewrite ?length_app; simpl; lia.
    - unfold spec_write in E. simpl in E.
      destruct (cs_snap cl), sync; simpl in E; try case_bool_decide; injection E as _ _ <-;
        simpl; rewrite ?length_app; simpl; lia.
    - injection E as _ _ <-. simpl. lia.
    - simpl in E. destruct (cs_snap cl); injection E as _ _ <-; simpl; lia. }
  destruct v; do 2 eexists; split; [done| |done|]; simpl; auto with lia.
Qed.

(** One event without a new connection. *)
Lemma rest_step ev g :
  no_take ev -> Forall client_total (sv_clients g) ->
  exists g', sv_step ev g = Some g' /\ Forall client_total (sv_clients g') /\
    (length (sv_queue g') <= S (length (sv_queue g)))%nat /\
    length (sv_clients g') = length (sv_clients g) /\
    forall i cl', sv_clients g' !! i = Some cl' ->
      exists cl, sv_clients g !! i = Some cl /\ (turns_left cl' + serves i [ev] <= turns_left cl \/ turns_left cl' = 0)%nat.
Proof.
  intros Hev Ht. destruct ev as [f nn|j groups|j|]; [| done | |]; cbn [sv_step serves].
  - eexists. split; [done|]. destruct (f <? 0); simpl; (split; [done|]; split; [lia|]; split; [done|]);
      intros i cl Hcl; exists cl; (split; [done|]); lia.
  - assert (Hsame : forall i cl', (i = j -> turns_left cl' = 0%nat) -> sv_clients g !! i = Some cl' -> exists cl, sv_clients g !! i = Some cl /\
      (turns_left cl' + ((if decide (i = j) then 1 else 0) + 0) <= turns_left cl \/ turns_left cl' = 0)%nat).
    { intros i cl' H0 Hcl. exists cl'. split; [done|]. case_decide; [right; auto|left; lia]. }
    destruct (sv_clients g !! j) as [cl|] eqn:Hj.
    2: { exists g. split_and!; try done; [lia|]. intros i cl' Hcl. apply Hsame; [|done]. congruence. }
    destruct (cs_open cl) eqn:Hop; cbn [negb].
    2: { exists g. split_and!; try done; [lia|]. intros i cl' Hcl. apply Hsame; [|done].
         intros ->. unfold turns_left. assert (cl' = cl) as -> by congruence. by rewrite Hop. }
    pose proof (Forall_lookup_1 _ _ _ _ Ht Hj) as Hcl.
    destruct (sv_serve_ok g cl Hcl Hop) as (s & cl' & -> & Ht' & Hlt & Hq).
    eexists. split; [done|]. simpl. split; [by apply Forall_insert|]. split; [done|].
    split; [by rewrite length_insert|]. intros i cli.
    rewrite list_lookup_insert. case_decide as Hd.
    + intros [= <-]. destruct Hd as [<- _]. exists cl. rewrite decide_True by done. split; [done|]. left. lia.
    + intros Hi. apply Hsame; [|done]. intros ->. destruct Hd. split; [done|]. by eapply lookup_lt_Some.
  - destruct (sv_queue g) as [|p q] eqn:Eq; eexists; (split; [done|]); simpl; rewrite ?Eq;
      (split; [done|]; split; [simpl; lia|]; split; [done|]); intros i cl Hcl; exists cl;
      (split; [done|]); lia.
Qed.
Lemma rest_run evs g :
  Forall no_take evs -> Forall client_total (sv_clients g) ->
  exists g', sv_run evs g = Some g' /\ Forall client_total (sv_clients g') /\
    (length (sv_queue g') <= length (sv_queue g) + length evs)%nat /\
    length (sv_clients g') = length (sv_clients g) /\
    forall i cl', sv_clients g' !! i = Some cl' ->
      exists cl, sv_clients g !! i = Some cl /\
        (turns_left cl' + serves i evs <= turns_left cl \/ turns_left cl' = 0)%nat.
Proof.
  intros Hev. revert g. induction Hev as [|ev evs Hev _ IH]; intros g Ht.
  { exists g. split_and!; try done; [simpl; lia|]. intros i cl Hcl. exists cl. simpl. auto with lia. }
  destruct (rest_step ev g Hev Ht) as (g1 & H1 & Ht1 & Hq1 & Hn1 & Hc1).
  destruct (IH g1 Ht1) as (g' & H' & Ht' & Hq' & Hn' & Hc').
  exists g'. cbn [sv_run length]. rewrite H1. split_and!; try done; [lia|congruence|].
  intros i cl' Hcl'. destruct (Hc' i cl' Hcl') as (cl1 & Hcl1 & Hle).
  destruct (Hc1 i cl1 Hcl1) as (cl & Hcl & Hle1). exists cl. rewrite serves_cons. split; [done|]. lia.
Qed.
Lemma sv_run_writes n g :
  (length (sv_queue g) <= n)%nat ->
  exists g', sv_run (replicate n SWrite) g = Some g' /\ sv_queue g' = [] /\
    sv_clients g' = sv_clients g /\
    sv_db g' = fold_left (fun m p => apply_pending p m) (sv_queue g) (sv_db g).
Proof.
  revert g. induction n as [|n IH]; intros g Hn.
  { destruct (sv_queue g) as [|p q] eqn:E; [|simpl in Hn; lia]. by exists g. }
  cbn [replicate sv_run sv_step]. destruct (sv_queue g) as [|p q] eqn:E.
  - destruct (IH g) as (g' & Hr & Hq & Hc & Hd); [rewrite E; simpl; lia|]. exists g'. by rewrite E in Hd.
  - edestruct (IH {| sv_db := apply_pending p (sv_db g); sv_queue := q; sv_pipe := sv_pipe g;
                     sv_clients := sv_clients g |}) as (g' & Hr & Hq & Hc & Hd); [simpl in *; lia|].
    by exists g'.
Qed.

(** A world whose clients have all gone. *)
Lemma world_at_rest w g :
  world_rel w g -> Forall (fun cl => cs_open cl = false) (sv_clients g) ->
  Forall (fun k => wk_thread k = idle_thread) (w_workers w) /\ me_live (w_env w) = ∅.
Proof.
  intros [_ _ _ _ _ Hw [_ Hl _]] Hc.
  assert (Hi : Forall (fun k => wk_thread k = idle_thread) (w_workers w)).
  { clear Hl. induction Hw as [|k cl ks cls [_ _ Hst] _ IH]; [constructor|].
    apply Forall_cons in Hc as [Hop Hc]. rewrite Hop in Hst. constructor; auto. }
  split; [done|]. apply dom_empty_inv_L. rewrite Hl. clear -Hi.
  induction Hi as [|k ks Hk _ IH]; [done|]. unfold own_txns in *. csimpl. by rewrite Hk.
Qed.
Lemma clients_ok w g :
  world_rel w g -> Forall (fun cl => Forall request_total (cs_reqs cl)) (sv_clients g) ->
  Forall (fun cl => cs_open cl = false -> cs_reqs cl = []) (sv_clients g) ->
  Forall client_total (sv_clients g).
Proof.
  intros [_ _ _ _ _ Hw _] Ht Hn. induction Hw as [|k cl ks cls [_ _ Hst] _ IH]; [constructor|].
  apply Forall_cons in Ht as [Hcl Ht]. apply Forall_cons in Hn as [Hn1 Hn]. constructor; [|auto].
  destruct (cs_open cl); [|by unfold client_total; rewrite Hn1].
  destruct Hst as [_ _ _ (rs & groups & _ & _ & _ & Hok & Hreq)].
  unfold client_total. rewrite Hreq in Hcl |- *. by apply Forall_and.
Qed.

(** ** Properties *)


(** C15: isolation.  A client starts a transaction and then sends any requests
    but START and STOP; before, between and after them the other clients and the
    writer thread do whatever they want.  Every one of its requests is answered
    from the database as it was when the transaction started: a GET with the
    value of that time (or that there is none), a PUT or DEL with the refusal. *)
Theorem transactions_are_isolated w g i cl body rs evs g' junk jl :
  world_rel w g -> sv_clients g !! i = Some cl -> cs_open cl = true ->
  cs_reqs cl = RStart :: body ++ rs -> Forall in_txn body ->
  Forall sevent_ok evs -> serves i evs = length body ->
  sv_run (SServe i :: evs) g = Some g' ->
  exists w' k outs, run junk jl (event_of <$> SServe i :: evs) w = Done w' /\ w_workers w' !! i = Some k /\
    Forall2 (fun r out => txn_reply (sv_db g) r = Some out) body outs /\
    wk_out k = cs_out cl ++ [response_code RESP_OK] ++ concat outs.
Proof.
  intros HR Hcl Hop Hreq Hb Hok Hn Hr. pose proof Hr as Hr0. cbn [sv_run] in Hr.
  erewrite (sv_step_serve g i cl) in Hr; [|done|done|unfold sv_serve; by rewrite Hreq].
  set (g1 := {| sv_db := _; sv_queue := _; sv_pipe := _; sv_clients := _ |}) in Hr.
  destruct (isolation (sv_db g) i rs evs g1 {| cs_open := true; cs_snap := Some (sv_db g); cs_reqs := body ++ rs; cs_out := cs_out cl ++ [response_code RESP_OK] |}
    body g') as (cl' & outs & Hcl' & Ho & Hout); [apply list_lookup_insert_eq; by eapply lookup_lt_Some|done..|].
  destruct (run_refines (SServe i :: evs) w g g' junk jl HR) as (w' & Hw & HR'); [by constructor|done|].
  destruct (Forall2_lookup_r _ _ _ _ _ (wo_workers _ _ HR') Hcl') as (k & Hk & [Hk' _ _]).
  exists w', k, outs. split; [done|]. split; [done|]. split; [done|]. rewrite Hk', Hout. cbn [cs_out]. by rewrite <- app_assoc.
Qed.

(** C30: the server comes to rest.  In a state reached by the server in which the
    requests still to come are ones the service always answers (a GET among them
    has the compressed flag, so that no stored value has to be expanded), if no
    new connection is taken and every client is served once per request it still has and once more, in any
    order and with any other events in between, and the writer thread then
    gets as many turns as writes can be waiting, then every thread is idle, no
    write waits and no transaction is left open. *)
Theorem server_comes_to_rest w g evs n junk jl :
  world_rel w g -> Forall (fun cl => Forall request_total (cs_reqs cl)) (sv_clients g) ->
  Forall (fun cl => cs_open cl = false -> cs_reqs cl = []) (sv_clients g) ->
  Forall no_take evs ->
  (forall i cl, sv_clients g !! i = Some cl -> (turns_left cl <= serves i evs)%nat) ->
  (length (sv_queue g) + length evs <= n)%nat ->
  exists w', run junk jl (event_of <$> evs ++ replicate n SWrite) w = Done w' /\
    w_queue w' = [] /\ me_live (w_env w') = ∅ /\
    Forall (fun k => wk_thread k = idle_thread) (w_workers w').
Proof.
  intros HR Htot Hn Hev Hserve Hlen.
  destruct (rest_run evs g Hev (clients_ok w g HR Htot Hn)) as (g1 & H1 & _ & Hq1 & _ & Hc1).
  destruct (sv_run_writes n g1 ltac:(lia)) as (g2 & H2 & Hq2 & Hc2 & _).
  destruct (run_refines (evs ++ replicate n SWrite) w g g2 junk jl HR) as (w' & Hw & HR').
  - apply Forall_app. split; [eapply Forall_impl; [done|]; by intros []|by apply Forall_replicate].
  - by rewrite sv_run_app, H1.
  - exists w'. split; [done|]. split; [by rewrite (wo_queue _ _ HR'), Hq2|].
    destruct (world_at_rest w' g2 HR') as [Hi Hl]; [|done].
    rewrite Hc2. apply Forall_lookup. intros i cl' Hcl'. destruct (Hc1 i cl' Hcl') as (cl & Hcl & Hle).
    pose proof (Hserve i cl Hcl). unfold turns_left in Hle at 1 3. by destruct (cs_open cl'); [lia|].
Qed.

(** ** A concrete run for the witnesses: two threads, two clients. *)
Definition demo_startup2 : startup :=
  {| st_realpath := None; st_files := fun _ => ∅; st_lmdb := [0; 0]; st_nn := 3; st_nn_bind := 1;
     st_writer := 0; st_threads := [0; 0]; st_sock := 4; st_bind := 0; st_listen := 0 |}.
Definition demo_events : list sevent :=
  [SAccept 7 0; SAccept 8 0; STake 0 [[RStart; RGet [107] true false; RPut [107] [119] true true; RGet [107] true false]];
   STake 1 [[RPut [107] [118] true true; RDel [107] false]]].
Definition demo_service : service := default (service_of ∅ 2) (sv_run demo_events (service_of ∅ 2)).

Lemma demo_events_ok : Forall sevent_ok demo_events.
Proof.
  repeat constructor; simpl; try lia; vm_compute; intuition congruence.
Qed.
Lemma all_data_empty : all_data ∅.
Proof. intros key sub. by rewrite lookup_empty. Qed.
Lemma demo_started :
  exists f a, finedb_init (Some [100]) 2 1 30 demo_startup2 [] = Done (Started f, a) /\
    length (threads f) = 2%nat.
Proof.
  destruct (finedb_init (Some [100]) 2 1 30 demo_startup2 []) as [[[|f] a]|] eqn:E;
    [vm_compute in E; discriminate E| |vm_compute in E; discriminate E].
  exists f, a. split; [done|]. vm_compute in E. by injection E as <- _.
Qed.
Lemma demo_world : exists w, world_rel w demo_service.
Proof.
  destruct demo_started as (f & a & Hi & Hn).
  pose proof (finedb_init_ok (Some [100]) 2 1 30 demo_startup2 f a [100] Hi eq_refl ltac:(lia) ltac:(lia)
    ltac:(simpl; lia) all_data_empty) as Hst.
  destruct (run_refines demo_events _ _ demo_service 0%nat 0 (world_of_rel f _ Hst) demo_events_ok)
    as (w & _ & HR); [rewrite Hn; reflexivity|]. by exists w.
Qed.

Lemma transactions_are_isolated_witness :
  exists w w' k outs, world_rel w demo_service /\
    run 0%nat 0 (event_of <$> [SServe 0; SServe 1; SServe 0; SServe 0; SServe 1; SServe 0]) w = Done w' /\ w_workers w' !! 0%nat = Some k /\
    Forall2 (fun r out => txn_reply ∅ r = Some out) [RGet [107] true false; RPut [107] [119] true true; RGet [107] true false] outs /\
    wk_out k = [response_code RESP_OK] ++ concat outs.
Proof.
  destruct demo_world as (w & HR).
  destruct (transactions_are_isolated w demo_service 0
    {| cs_open := true; cs_snap := None; cs_reqs := [RStart; RGet [107] true false; RPut [107] [119] true true; RGet [107] true false]; cs_out := [] |}
    [RGet [107] true false; RPut [107] [119] true true; RGet [107] true false] [] [SServe 1; SServe 0; SServe 0; SServe 1; SServe 0]
    (default demo_service (sv_run [SServe 0; SServe 1; SServe 0; SServe 0; SServe 1; SServe 0] demo_service)) 0%nat 0 HR)
    as (w' & k & outs & H1 & H2 & H3 & H4); [reflexivity..| | | | |].
  - repeat constructor.
  - repeat constructor.
  - reflexivity.
  - vm_compute. reflexivity.
  - exists w, w', k, outs. split; [exact HR|]. split; [exact H1|]. split; [exact H2|]. split; [exact H3|exact H4].
Defined.
Lemma server_comes_to_rest_witness :
  exists w w', world_rel w demo_service /\
    run 0%nat 0 (event_of <$> [SServe 1; SServe 0; SServe 1; SServe 0; SServe 1; SServe 0; SServe 0; SServe 0] ++
                              replicate 8 SWrite) w = Done w' /\
    w_queue w' = [] /\ me_live (w_env w') = ∅.
Proof.
  destruct demo_world as (w & HR).
  destruct (server_comes_to_rest w demo_service [SServe 1; SServe 0; SServe 1; SServe 0; SServe 1; SServe 0; SServe 0; SServe 0]
    8 0%nat 0 HR) as (w' & H1 & H2 & H3 & _).
  - vm_compute. repeat constructor.
  - vm_compute. repeat constructor; discriminate.
  - repeat constructor.
  - intros [|[|i]] cl Hcl; vm_compute in Hcl; [injection Hcl as <-..|]; [vm_compute; lia..|].
    destruct i; discriminate Hcl.
  - vm_compute. lia.
  - exists w, w'. split; [exact HR|]. split; [exact H1|]. split; [exact H2|exact H3].
Defined.
