(* ===== verification/Listing.v ===== *)
(** * Listing: the LIST command

    [database_list] opens a cursor on a database, asks it for the next entry
    until there is none, and hands every pair to a callback; [command_list] sends the keys to the client.  The
    keys come in the order of LMDB (bytes, then length), each of them once. *)
From S2P Require Import Prelude Protocol Dynabin Lmdb Database Connection Compressor Spec Commands Server Session.
From S2P Require Import System.

(** ** The entries of a database *)
Abbreviation as_node := (fun p : bytes * bytes => (p.1, NData p.2)).
Lemma nodes_of (m : gmap bytes node) : all_data m -> map_to_list m ≡ₚ as_node <$> map_to_list (kv_of m).
Proof.
  intros Ha. apply NoDup_Permutation; [apply NoDup_map_to_list| |].
  - apply NoDup_fmap_2; [|apply NoDup_map_to_list]. intros [? ?] [? ?] [= -> ->]. done.
  - intros [k n]. rewrite elem_of_map_to_list, list_elem_of_fmap. split.
    + intros Hk. destruct n as [d|sub]; [|by destruct (Ha k sub)]. exists (k, d). split; [done|]. apply elem_of_map_to_list. by rewrite lookup_kv_of, Hk.
    + intros ([k' d] & [= -> ->] & Hin). apply elem_of_map_to_list in Hin. rewrite lookup_kv_of in Hin. simpl in Hin.
      destruct (m !! k') as [[d'|sub]|]; [by injection Hin as ->|done|done].
Qed.
(** The pairs in the order of their keys *)
Definition in_order (m : gmap bytes bytes) : list (bytes * bytes) := merge_sort entry_le (map_to_list m).
Lemma in_order_perm m : in_order m ≡ₚ map_to_list m.
Proof. apply merge_sort_Permutation. Qed.
Lemma in_order_sorted m : StronglySorted entry_le (in_order m).
Proof. apply Sorted_StronglySorted; [apply _|]. apply Sorted_merge_sort; apply _. Qed.
Lemma in_order_nodup m : NoDup (in_order m).*1.
Proof. rewrite in_order_perm. apply NoDup_fst_map_to_list. Qed.
(** Of a sorted list the entries above one of its keys are those behind it. *)
Lemma above_part (l1 l2 : list (bytes * bytes)) p :
  StronglySorted entry_le (l1 ++ p :: l2) -> NoDup (l1 ++ p :: l2).*1 -> entries_above p.1 (l1 ++ p :: l2) = l2.
Proof.
  intros Hs Hn. unfold entries_above. rewrite filter_app, filter_cons_False by (by rewrite key_leb_refl).
  rewrite fmap_app in Hn. apply NoDup_app in Hn as (_ & _ & Hn). cbn [fmap list_fmap] in Hn. apply NoDup_cons in Hn as [Hp _].
  assert (Hl1 : filter (fun q => key_leb q.1 p.1 = false) l1 = []).
  { clear Hp. induction l1 as [|q l1 IH]; [done|]. cbn [app] in Hs. inversion Hs as [|? ? Hs' Hf]; subst.
    rewrite filter_cons_False; [by apply IH|]. rewrite Forall_app, Forall_cons in Hf. destruct Hf as (_ & Hq & _). unfold entry_le in Hq. by rewrite Hq. }
  rewrite Hl1. cbn [app]. assert (Hs2 : StronglySorted entry_le (p :: l2)) by (clear -Hs; induction l1; [done|]; cbn [app] in Hs; inversion Hs; by apply IHl1).
  inversion Hs2 as [|? ? _ Hf]; subst. clear -Hf Hp. induction l2 as [|q l2 IH]; [done|]. cbn [fmap list_fmap] in Hp. apply not_elem_of_cons in Hp as [Hpq Hp].
  apply Forall_cons in Hf as [Hq Hf]. rewrite filter_cons_True; [f_equal; by apply IH|]. destruct (key_leb q.1 p.1) eqn:E; [|done]. destruct Hpq. by apply key_leb_antisym.
Qed.
Lemma above_nodes k (l : list (bytes * bytes)) : entries_above k (as_node <$> l) = as_node <$> entries_above k l.
Proof. unfold entries_above. induction l as [|p l IH]; [done|]. cbn [fmap list_fmap]. rewrite !filter_cons. cbn [fst]. fold (fmap as_node l). rewrite IH. by case_decide. Qed.
#[local] Instance above_proper k : Proper (Permutation ==> Permutation) (@entries_above node k).
Proof. intros l1 l2 H. unfold entries_above. by rewrite H. Qed.
Lemma least_sorted (p : bytes * bytes) l2 L : StronglySorted entry_le (p :: l2) -> NoDup (p :: l2).*1 -> L ≡ₚ as_node <$> p :: l2 -> least L = Some (as_node p).
Proof.
  intros Hs Hn HL. apply least_spec.
  - rewrite HL. by left.
  - rewrite HL. rewrite <- list_fmap_compose. exact Hn.
  - intros q Hq. rewrite HL in Hq. apply list_elem_of_fmap in Hq as (x & -> & Hx). cbn [fst]. apply elem_of_cons in Hx as [->|Hx]; [apply key_leb_refl|].
    inversion Hs as [|? ? _ Hf]; subst. rewrite Forall_forall in Hf. by apply Hf.
Qed.

(** ** The walk *)
Section walk.
Context (t : nat) (txn : MDB_txn) (e : MDB_env).
Hypothesis Hl : me_live e !! t = Some txn.
Hypothesis Hn : (2 <= mt_numdbs txn)%nat.
Hypothesis Ha : all_data (mt_main txn).
Hypothesis Hsc : me_script e = [].
Abbreviation view := (kv_of (mt_main txn)).
Lemma page_ok : page_result e = Done (0, e).
Proof. unfold page_result. rewrite Hsc. cbn [script_next]. do 2 f_equal. by destruct e; simpl in *; subst. Qed.
Lemma cursor_main :
  mdb_cursor_open t MAIN_DBI e = Done ((MDB_SUCCESS, Some {| cu_txn := t; cu_dbi := MAIN_DBI; cu_pos := None; cu_eof := false |}), e).
Proof.
  unfold mdb_cursor_open. unfold txn_load, cbind at 1. rewrite Hl.
  rewrite (proj2 (Nat.leb_gt _ _)) by (unfold MAIN_DBI; lia). cbn [orb andb Nat.leb MAIN_DBI Nat.eqb]. cstep page_ok. done.
Qed.
(** The cursor behind the entries [l1] *)
Definition place (l1 : list (bytes * bytes)) : cursor := {| cu_txn := t; cu_dbi := MAIN_DBI; cu_pos := fst <$> last l1; cu_eof := false |}.
Lemma next_main l1 l2 : in_order view = l1 ++ l2 ->
  exists cu', mdb_cursor_get CurNext (place l1) e =
    Done ((match l2 with [] => (MDB_NOTFOUND, None, cu') | p :: _ => (MDB_SUCCESS, Some p, place (l1 ++ [p])) end), e).
Proof.
  intros El. pose proof (in_order_sorted view) as Hs. pose proof (in_order_nodup view) as Hd. rewrite El in Hs, Hd.
  assert (HE : map_to_list (mt_main txn) ≡ₚ as_node <$> l1 ++ l2) by (by rewrite nodes_of, <- in_order_perm, El by done).
  unfold mdb_cursor_get, txn_load, cbind at 1. change (cu_txn (place l1)) with t. rewrite Hl. cstep page_ok. cbn [negb Z.eqb]. unfold cget, cbind at 1. cbv zeta.
  change (cu_dbi (place l1)) with MAIN_DBI. change (cu_pos (place l1)) with (fst <$> last l1). change (cu_eof (place l1)) with false.
  change (cursor_entries e txn MAIN_DBI) with (map_to_list (mt_main txn)).
  assert (Hto : forall L miss, L ≡ₚ as_node <$> l2 -> StronglySorted entry_le l2 -> NoDup l2.*1 -> exists cu', cursor_to (place l1) (least L) false miss e =
      Done (match l2 with [] => (MDB_NOTFOUND, None, cu') | p :: _ => (MDB_SUCCESS, Some p, place (l1 ++ [p])) end, e)).
  { intros L miss HL Hs2 Hd2. destruct l2 as [|p l2]; [exists miss; rewrite least_none; [done|intros q; rewrite HL; apply not_elem_of_nil]|].
    exists miss. rewrite (least_sorted p l2 L) by done. unfold cursor_to, cret, place, at_pos. cbn [cu_txn cu_dbi]. rewrite last_snoc. by destruct p. }
  destruct l1 as [|q l1 _] using rev_ind; cbn [last fmap option_fmap option_map].
  - destruct (Hto (map_to_list (mt_main txn)) (place []) HE Hs Hd) as [cu' E]. exists cu'. exact E.
  - rewrite last_snoc. cbn [fmap option_fmap option_map]. rewrite <- app_assoc in Hs, Hd, HE. cbn [app] in Hs, Hd, HE.
    destruct (Hto (entries_above q.1 (map_to_list (mt_main txn))) (at_pos None true (place (l1 ++ [q])))) as [cu' E]; [| | |exists cu'; exact E].
    + by rewrite HE, above_nodes, above_part.
    + clear -Hs. induction l1; cbn [app] in Hs; inversion Hs; auto.
    + rewrite fmap_app in Hd. apply NoDup_app in Hd as (_ & _ & Hd). cbn [fmap list_fmap] in Hd. by apply NoDup_cons in Hd as [_ Hd].
Qed.
End walk.
(** A callback that never stops the walk. *)
Definition steps_to {S} (P : S -> Prop) (cb : bytes -> bytes -> CM S yerr_t) (f : bytes -> bytes -> S -> S) : Prop :=
  forall k d s, P s -> cb k d s = Done (YENOERR, f k d s) /\ P (f k d s).
Lemma in_env_ok {S A} (m : CM MDB_env A) e (s : S) a e' :
  m e = Done (a, e') -> in_env m (e, s) = Done (a, (e', s)).
Proof. intros H. unfold in_env. by rewrite H. Qed.
Lemma list_loop_all {S} t txn e (P : S -> Prop) (cb : bytes -> bytes -> CM S yerr_t) f :
  me_live e !! t = Some txn -> all_data (mt_main txn) -> me_script e = [] -> steps_to P cb f ->
  forall l2 l1 fuel s, in_order (kv_of (mt_main txn)) = l1 ++ l2 -> (length l2 < fuel)%nat -> P s ->
  list_loop fuel cb (place t l1) (e, s) = Done (tt, (e, fold_left (fun s p => f p.1 p.2 s) l2 s)).
Proof.
  intros Hl Ha Hsc Hcb. induction l2 as [|p l2 IH]; intros l1 [|fuel] s El Hf Hs; cbn [length] in Hf; [lia| |lia|]; cbn [list_loop];
    destruct (next_main t txn e Hl Ha Hsc l1 _ El) as [cu' E]; cstep (in_env_ok _ _ s _ _ E); [done|]. cbn [negb Z.eqb MDB_SUCCESS]. destruct p as [k d].
  destruct (Hcb k d s Hs) as [Ec Hs']. unfold cbind at 1, in_rest. rewrite Ec, Z.eqb_refl. cbn [negb fold_left fst snd].
  apply IH; [by rewrite <- app_assoc|lia|done].
Qed.

(** The part of [database_list] between the opening and the end of the
    transaction. *)
Lemma list_walk {S} t txn e (P : S -> Prop) (cb : bytes -> bytes -> CM S yerr_t) f (s : S) :
  me_live e !! t = Some txn -> (2 <= mt_numdbs txn)%nat -> all_data (mt_main txn) -> me_script e = [] ->
  steps_to P cb f -> P s ->
  exists l, l ≡ₚ map_to_list (kv_of (mt_main txn)) /\ StronglySorted entry_le l /\
    (let! '(rc, cursor) := in_env (mdb_cursor_open t MAIN_DBI) in
     let! retval :=
       match cursor with
       | None => cret YEACCESS
       | Some cu =>
           let! n := in_env (list_fuel t MAIN_DBI) in
           do! list_loop n cb cu in
           cret YENOERR
       end in
     do! in_env (mdb_dbi_close MAIN_DBI) in cret retval) (e, s) =
    Done (YENOERR, (e, fold_left (fun s p => f p.1 p.2 s) l s)).
Proof.
  intros Hl Hn Ha Hsc Hcb Hs. exists (in_order (kv_of (mt_main txn))). split; [apply in_order_perm|]. split; [apply in_order_sorted|].
  cstep (in_env_ok _ _ s _ _ (cursor_main t txn e Hl Hn Hsc)).
  assert (Hfuel : list_fuel t MAIN_DBI e = Done (Datatypes.S (length (map_to_list (mt_main txn))), e)) by (unfold list_fuel, cbind, txn_load, cget; by rewrite Hl).
  unfold cbind at 1. cstep (in_env_ok _ _ s _ _ Hfuel).
  pose proof (list_loop_all t txn e P cb f Hl Ha Hsc Hcb (in_order (kv_of (mt_main txn))) [] (Datatypes.S (length (map_to_list (mt_main txn)))) s eq_refl) as E.
  unfold cbind. change {| cu_txn := t; cu_dbi := MAIN_DBI; cu_pos := None; cu_eof := false |} with (place t []). rewrite E; [done| |done].
  rewrite in_order_perm, (nodes_of _ Ha), length_fmap. lia.
Qed.

(** Every pair the session sees is handed to the callback, in order. *)
Lemma database_list_ok {S} e tr db snap (P : S -> Prop) (cb : bytes -> bytes -> CM S yerr_t) f (s : S) :
  env_rel e tr db snap -> steps_to P cb f -> P s ->
  exists l e', l ≡ₚ map_to_list (default db snap) /\ StronglySorted entry_le l /\
    database_list tr None cb (e, s) = Done (YENOERR, (e', fold_left (fun s p => f p.1 p.2 s) l s)) /\
    env_rel e' tr db snap /\ live_frame tr tr e e'.
Proof.
  intros HR Hcb Hsat. pose proof HR as [Hq Hs Hd Hkv Ht]. unfold database_list. destruct tr as [t|].
  - destruct Ht as (txn & Hl & Ha & -> & _).
    destruct (list_walk t txn e P cb f s Hl (proj1 (q_snap e Hq t txn Hl)) Ha Hs Hcb Hsat) as (l & Hp & Hsort & Hw).
    exists l, e. split; [done|]. split; [done|]. split; [|split; [done|apply live_frame_refl]].
    cbn [open_transaction fmap option_fmap option_map].
    cstep (in_env_ok (cret (Some t)) e s (Some t) e eq_refl).
    cstep (in_env_ok _ e s _ _ (proj2 (dbi_open_main t txn e Hl))). by cstep Hw.
  - destruct Ht as [-> Hr]. set (t := mdb_txn_renew0 true e).
    destruct (list_walk (me_next e) t (during [] t e) P cb f s) as (l & Hp & Hsort & Hw); try done.
    { apply lookup_insert_eq. }
    { apply Hq. }
    exists l, (after_txn [] e). split; [simpl; by rewrite <- Hkv|]. split; [done|].
    split; [|split; [by apply env_rel_after|apply live_frame_after]].
    cbn [open_transaction fmap option_fmap option_map].
    assert (Hb : database_transaction_start true e = Done (Some (me_next e), during [] t e)).
    { unfold database_transaction_start, cbind. by rewrite (begin_read e [] Hr) by (by rewrite Hs). }
    cstep (in_env_ok _ e s _ _ Hb). cstep (in_env_ok _ _ s _ _ (dbi_open_main_during [] t e false)).
    cstep Hw. by cstep (in_env_ok (database_transaction_rollback (me_next e)) _
      (fold_left (fun s p => f p.1 p.2 s) l s) _ _ (abort_during e [] t Hq (renew0_plain true e))).
Qed.

(** ** The command *)
Definition list_entry (p : bytes * bytes) : bytes := be_bytes 2 (u16 (lenZ p.1)) ++ p.1.

Lemma list_callback_ok key data c :
  c_tx c = [] ->
  _command_list_loop key data c = Done (YENOERR, set_tx [] (c_out c ++ list_entry (key, data)) c).
Proof.
  intros Ht. unfold _command_list_loop, cbind, sendmsg. rewrite Ht. cbn [script_next].
  rewrite (proj2 (Z.ltb_ge _ 0)) by apply lenZ_nonneg. by rewrite Z.ltb_irrefl.
Qed.

Lemma fold_send l c :
  fold_left (fun c p => set_tx [] (c_out c ++ list_entry p) c) l c =
  set_tx (match l with [] => c_tx c | _ => [] end) (c_out c ++ concat (list_entry <$> l)) c.
Proof.
  revert c. induction l as [|p l IH]; intros c.
  - cbn. rewrite app_nil_r. by destruct c.
  - cbn [fold_left]. rewrite IH. csimpl. rewrite <- app_assoc. by destruct l.
Qed.

(** C35: LIST.  When the storage layer does not fail, the loop of [database_list]
    ends, and the session is sent RESP_OK, every key it can see (those of its
    snapshot inside a transaction) once and in ascending order, each with its
    length in two bytes, and a closing zero byte; nothing changes. *)
Theorem list_sends_every_key c s sync compress serialized :
  sess_rel c s ->
  exists l c', l ≡ₚ map_to_list (s_view s) /\ StronglySorted entry_le l /\
    command_list sync compress serialized c = Done (YENOERR, c') /\ sess_rel c' s /\
    c_out c' = c_out c ++ [response_code RESP_OK] ++ concat (list_entry <$> l) ++ [0].
Proof.
  intros HR. pose proof HR as [Hok He Hdb Hq Hpe].
  assert (Hcb : steps_to (fun c => c_tx c = []) _command_list_loop
    (fun k d c => set_tx [] (c_out c ++ list_entry (k, d)) c)).
  { intros k d c' Hc'. by rewrite list_callback_ok. }
  set (c1 := set_tx [] (c_out c ++ [response_code RESP_OK]) c).
  assert (Hsend : CONNECTION_SEND_OK c = Done (YENOERR, c1)).
  { unfold CONNECTION_SEND_OK. rewrite send_code_ok by apply Hok. done. }
  destruct (database_list_ok (c_env c1) (transaction (c_thread c1)) (s_db s) (s_snap s) _ _ _ c1 He Hcb eq_refl)
    as (l & e' & Hp & Hsort & Hl & He' & _).
  set (c2 := set_env e' (set_tx [] (c_out c1 ++ concat (list_entry <$> l)) c1)).
  assert (Hlist : on_env_list (transaction (c_thread c1)) (dbname (c_thread c1)) _command_list_loop c1 =
                  Done (YENOERR, c2)).
  { unfold on_env_list. change (dbname (c_thread c1)) with (dbname (c_thread c)). rewrite Hdb, Hl.
    do 2 f_equal. subst c2. f_equal.
    etransitivity; [exact (fold_send l c1)|]. f_equal. by destruct l. }
  exists l, (set_tx [] (c_out c2 ++ [0]) c2). split; [done|]. split; [done|].
  split; [|split].
  - unfold command_list. cstep Hsend. rewrite Z.eqb_refl. cbn [negb]. unfold cget, cbind at 1.
    cstep Hlist. rewrite Z.eqb_refl. cbn [negb]. done.
  - destruct Hok. subst c2 c1. by constructor.
  - subst c2 c1. simpl. by rewrite <- !app_assoc.
Qed.
Definition listed_conn : conn :=
  set_env (env_set_main (<[[98] := NData [2]]> (<[[97] := NData [1]]> ∅)) (fresh_env 1 []))
    (demo_conn (fresh_env 1 []) []).
Lemma listed_sess :
  sess_rel listed_conn {| s_db := <[[98] := [2]]> (<[[97] := [1]]> ∅); s_snap := None; s_queue := [] |}.
Proof.
  destruct (demo_sess []) as [Hok [Hq Hs Hd Hk Ht] Hdb Hqu Hp]. split; [by destruct Hok| |done..].
  split; [by destruct Hq|done| | |done].
  - intros k sub. simpl. rewrite !lookup_insert, lookup_empty. by repeat case_decide.
  - simpl. unfold kv. simpl. by rewrite !kv_of_insert.
Qed.
Lemma list_sends_every_key_witness :
  exists l c', l ≡ₚ map_to_list (<[[98] := [2]]> (<[[97] := [1]]> (∅ : gmap bytes bytes))) /\
    StronglySorted entry_le l /\ command_list false false false listed_conn = Done (YENOERR, c') /\
    c_out c' = [response_code RESP_OK] ++ concat (list_entry <$> l) ++ [0].
Proof.
  destruct (list_sends_every_key listed_conn _ false false false listed_sess)
    as (l & c' & Hp & Hs & Hc & _ & Ho).
  exists l, c'. split; [exact Hp|]. split; [exact Hs|]. split; [exact Hc|exact Ho].
Defined.
